(* ===== verification/_CoqProject ===== *)
-Q . S2P
Prelude.v
Bytes.v
CString.v
ListNode.v
Bitmap.v
Locks.v
PhysMem.v
Arena.v
ArenaTest.v
FsDefs.v
Cache.v
CacheSpec.v
CacheLog.v
CacheCrash.v
CacheTxn.v
CacheProtocol.v
CacheAlloc.v
CacheTheorems.v
BlockCache.v
Path.v
Format.v
Printf.v
Console.v
Shell.v
ShellLex.v
ShellSpec.v
ShellParse.v
ShellSound.v
ShellTheorems.v
ShellRun.v
ShellPlumb.v
Inode.v
InodeSpec.v
InodeMap.v
InodeFile.v
InodeClear.v
InodeTable.v
InodeDir.v
InodeTheorems.v
Mkfs.v
MkfsImage.v
MkfsAppend.v
MkfsSpec.v
MkfsTheorems.v
Sd.v
SdCard.v
SdQueue.v
SdHost.v
SdTransfer.v
SdServe.v
SdTheorems.v
SdInit.v
SdSelfTest.v
VirtualMemory.v
KernelPt.v
PageTable.v
VirtualMemorySpec.v
UserSpace.v
AddressSpaces.v
VmTheorems.v
File.v
FileTheorems.v
Process.v
Sched.v
Proc.v
SchedSpec.v
SchedTheorems.v
ProcTheorems.v
ForkTheorems.v
Syscall.v
Sysfile.v
Exec.v
SyscallTheorems.v
Traps.v
TrapsTheorems.v
Filesystem.v
UserPrograms.v
UserTheorems.v
Start.v
Preempt.v
