(* ===== verification/Prelude.v ===== *)
(** * A verification of rpi-os

    rpi-os is a teaching kernel for the Raspberry Pi 3 (AArch64, four CPUs).  Its
    parts, bottom up: C library functions, lists, bitmaps and locks (src/src/common);
    the page allocator, the object arena and user page tables (core/physical_memory.c,
    arena.c, virtual_memory.c); the block cache with its redo log, the inode layer and
    the file table (fs/cache.c, inode.c, file.c); processes, the scheduler and containers
    (core/proc.c, sched.c, container.c); system calls and exec (core/syscall.c,
    sysproc.c, sysfile.c, exec.c); the console (core/console.c); traps, interrupts and the
    drivers of the SD card, the mailbox, the clock and the uart (core/trap.c, src/src/driver);
    the page table of the kernel (aarch64/kernel_pt.c); the start of the system (main.c) and
    of the file system (fs/fs.c).  The shell, init, cat, ls, echo and mkdir (src/src/user) run on the
    kernel, and mkfs (user/mkfs) builds the disk on the host.  The inode layer calls
    the cache, the cache the device; files call inodes; the process code calls the page
    tables and the files; system calls call all of them; the device calls the SD driver, whose
    interrupt comes in through trap and interrupt code.

    ** How the code is modelled

    A C function is a Rocq function with the name it has in the source.  Code with state
    is in the monad [M S A := S -> outcome (A * S)] of this file over the state [S] of
    its component; [outcome] separates a value ([Ret]) from a failed assertion or PANIC
    ([Panic]), waiting for a lock or for another thread ([Blocked]), undefined behaviour
    of C such as a NULL pointer or an index out of range ([Fault]) and the end of a
    loop's fuel ([OutOfFuel]).  Integers are [Z] with the wrap-around of their width
    written out ([u64], [u32], [i32], ...).  [wp] is the weakest precondition of a
    computation that must return; SchedSpec.v has a variant for code that may wait.

    ** Files and the code they model

    - Prelude.v, Bytes.v: integers, outcomes, loops, [wp]; byte encodings.
    - CString.v: common/string.c, defines.h.  ListNode.v: common/list.c.  Bitmap.v:
      common/bitmap.h.  Locks.v: common/spinlock.c, rc.c, core/sleeplock.c.
    - PhysMem.v: core/physical_memory.c; the free list runs through the first word of
      the free pages.  Arena.v: core/arena.c, with the classes [PageAllocator] (what the
      arena and the page tables rely on) and [ObjectArena] (what the cache, the inode
      layer and the containers rely on) and their instances.  ArenaTest.v: arena_test.
    - FsDefs.v: the on-disk structures of fs/defines.h as bytes.
    - Cache.v: fs/cache.c.  CacheSpec.v: its abstract state (a content per block, what
      is held and pinned) and the refinement relation.  CacheLog.v, CacheCrash.v: the
      log and crashes.  CacheTxn.v, CacheProtocol.v, CacheAlloc.v: operations, the
      discipline of cache.h as a step relation, block allocation.  CacheTheorems.v.
    - BlockCache.v: the class [BlockCache], the interface the inode layer is proved
      against, with the cache of Cache.v as instance.
    - Path.v: the path and name functions of inode.c.  Inode.v: fs/inode.c.
      InodeSpec.v, InodeMap.v, InodeFile.v, InodeClear.v, InodeTable.v, InodeDir.v:
      the layout of a file, mapping, reading and writing, freeing, the table of inodes
      in memory, directories.  InodeTheorems.v.
    - Console.v: the line editor, console_read and console_write of core/console.c.
      Format.v: common/format.c.  Printf.v: the output of core/console.c (puts, printf,
      _panic) through it.
    - VirtualMemory.v: core/virtual_memory.c on frames of bytes.  PageTable.v: the walk
      of the MMU, and page tables as trees of frames.  VirtualMemorySpec.v, UserSpace.v,
      AddressSpaces.v: the lemmas.  VmTheorems.v: the theorems, the table vmt with the functions that
      forward through it, and vm_test.
    - File.v: fs/file.c.  FileTheorems.v.
    - Process.v: the data of proc.h, sched.h, container.h, trapframe.h and the state
      [kernel] of the process code.  Sched.v: core/sched.c, container.c.  Proc.v:
      core/proc.c.  SchedSpec.v: a rule for each of their functions.  SchedTheorems.v:
      four CPUs as a step relation.  ProcTheorems.v, ForkTheorems.v: wait and fork.
    - Syscall.v: core/syscall.c, sysproc.c.  Sysfile.v: core/sysfile.c.  Exec.v:
      core/exec.c and the table of system calls.  SyscallTheorems.v.
    - Sd.v: the registers, commands, state and arithmetic of driver/sd.c.  SdCard.v: its
      commands and initialisation, and driver/mbox.c.  SdQueue.v: driver/buf.h, the requests of
      sd.c, fs/block_device.c.  SdHost.v: what the driver relies on of the controller, as the
      laws of the class [Host].  SdTransfer.v, SdServe.v: single transfers, and the abstract
      server that the driver implements.  SdTheorems.v; SdInit.v.  SdSelfTest.v: sd_test.
    - Traps.v: core/trap.c, driver/interrupt.c, clock.c, uart.c, core/char_device.c.  TrapsTheorems.v.
      KernelPt.v: aarch64/kernel_pt.c.
    - Shell.v: the parser of user/sh/main.c on memory.  ShellLex.v, ShellSpec.v (the grammar),
      ShellParse.v, ShellSound.v, ShellTheorems.v.  ShellRun.v: runcmd and main, as trees of
      system calls.  ShellPlumb.v: the processes of the shell as a step relation, on tables of descriptors,
      and the jobs that say what a line means.
    - Mkfs.v: user/mkfs/main.c on an array of blocks.  MkfsImage.v, MkfsAppend.v, MkfsSpec.v,
      MkfsTheorems.v.
    - Filesystem.v: fs/fs.c, where the SD driver, the cache and the inode layer come
      together.  Start.v: main.c on all CPUs, as a step relation.  Preempt.v: the
      handler of the clock in main.c, with traps, processes and the scheduler together.
    - UserPrograms.v: user/cat, echo, ls, mkdir and init, against the class [Unix] of the system
      calls they make.  UserTheorems.v.

    ** What the theorems show

    - The log ([end_op_atomic_durable], [recovery_idempotent], [cache_protocol_safe]):
      a crash after any prefix of the device writes of a commit, followed by recovery,
      even one that is interrupted, leaves all of the ended operations or none; clients
      that keep to cache.h never meet a failed assertion.  [cache_acquire_refines],
      [cache_alloc_first_free]: a block that is acquired has its current content.
    - Files ([inode_write_splice], [inode_read_slice], [inode_clear_frees],
      [inode_alloc_first], [inode_get_one_copy], [inode_put_releases]), directories
      ([dir_insert_lookup], [dir_remove_lookup], [skipelem_components]), open files
      ([file_reads_concat], [file_table_counts]).
    - Address spaces ([uvm_alloc_grows], [uvm_dealloc_shrinks], [uvm_copy_isolated],
      [vm_free_returns_all], [copyout_writes]), stated on the translation the hardware
      makes: what is mapped, which bytes are read, which frames are used.
    - Processes ([processes_run_alone], [scheduler_progress]): over every interleaving
      of the CPUs a process runs on one CPU at most, the lock that one thread takes and
      another gives back is always held by the CPU that switches, and the scheduler,
      yield, sleep, wakeup, wait and the end of exit make progress.  [fork_copies], [wait_reaps]: memory, files and slots of a child.
    - System calls ([argptr_range], [fetchstr_string]): which user memory is accepted.
    - The SD card ([sd_refines], [block_device_ok]): any sequence of requests, interrupts and
      wakeups refines a server that serves requests one at a time and in order; the block
      device reads and writes blocks.  [block_device_refines]: any sequence of its calls does
      what the device of the model of the cache does.  [sdInit_identifies]: the initialisation ends on any
      hardware, and what holds of a card that it accepts.  [clock_divider_safe].
    - [trap_completes_request], [keyboard_interrupt_edits]: from the exception to the completed
      request, and to the edited line.  [clock_round_robin]: each interrupt of the clock gives the CPU to the
      next runnable process of the table, so one that waits is chosen within a round of the table as
      long as the processes before it run until they are interrupted.
      [kernel_space_linear]: the kernel's view of the physical memory.
    - The shell ([parsecmd_parses], [parsecmd_decides], [shell_session]): the parser
      accepts exactly its grammar, within its memory, and a session runs the commands with the
      descriptors they should have and in their order, in every interleaving of its processes.
    - mkfs ([mkfs_image], [mkfs_kernel_reads]): the image holds the files, and the inode layer
      of the kernel finds and reads them.
    - The start: [boot_initialised] (every interleaving of the CPUs through main),
      [init_filesystem_recovers] (a card with a committed log comes up with the operations of the
      log in place), [boot_reads_files] (a card with the image of mkfs comes up with its files).
      The self tests that run there pass: [vm_test_passes], [arena_test_passes], and [sd_test_passes].
    - User programs, also when system calls fail: [cat_prints], [ls_lists], [mkdir_makes]; [echo_prints], and
      [init_restarts_shell] (init starts a new shell each time the last one has ended).
    - The parts below: [physical_memory_partition], [alloc_object_fresh],
      [free_object_clear_arena], [spinlock_mutual_exclusion] (over the interleavings of
      the CPUs between the accesses to the lock), [memmove_correct], [console_intr_edits],
      [console_read_line].  Output: [vformat_prints] (a format string as a sequence of
      pieces, and what each prints), [panic_is_last] (a CPU in [no_return] has the result
      [None], with the output it leaves behind).
    - Defects of the code, as theorems: [release_race_evicts_held_block],
      [inode_write_cuts_size], [inode_put_unloaded_destroys], [fork_pids_exhausted],
      [sdrw_stalls], [fault_loses_interrupts], [mkfs_root_hole], [late_cpu_reinitialises]; the
      page fork loses is part of [fork_copies], the wrap-around of in_user of
      [argptr_range].

    ** Bounds and fuel

    Loops with a bound in the code are [for_range] and [for_until] with it.  The loops of
    inode_read and inode_write get one unit of fuel per block they can touch
    ([block_fuel]); those over a range of user pages one per page and one more; namex one
    per byte of the path; fetchstr one per byte of the region ([fetchstr_string] proves
    that it does not run out); the string loops of exec and of
    Format.v take their fuel as an argument, which has to exceed the length of the strings.
    [depth] bounds the nesting of containers that alloc_resource walks up.  The arena of
    the cache is assumed to have room for 70 blocks (the limit of cached blocks and the
    log), and the bitmap of the file system to be one block, as in the images mkfs
    writes.  The waiting loops of the SD driver count down in the code, from the numbers that are their
    fuel here; the mailbox waits without a bound in the code, and its fuel is that of the hypothesis
    [firmware].  The walk over the queue gets one unit per buffer, sdrw one per sleep
    ([block_device_ok]: one more than the requests before it), the parser of the shell one per
    byte of the line and one more, cat and ls one per read and one more.
    The theorems on functional behaviour say that the call returns.

    Concurrency: Locks.v interleaves the accesses to a lock, with the two loads of
    holding_spinlock in one step with the access after them; SchedTheorems.v interleaves
    the stretches of code between the points where the lock of the process table is
    taken or released, and a thread that gives up the CPU is split at swtch; everything
    else is one thread at a time, with a lock another thread holds as [Blocked].  SdTheorems.v
    interleaves the stretches of sdrw between its sleeps with interrupts and the passing of time,
    and, for [sdrw_stalls], an interrupt inside the stretch before the lock.  Start.v interleaves the
    calls of main, of which those about devices and memory do nothing there.  ShellPlumb.v interleaves the processes of the shell
    at their system calls; forks succeed, the programs that are started end, and the children of a process that ends are
    adopted, as in Unix.  Preempt.v takes what happens between two interrupts of the clock as any step that leaves
    the process running and the waiting ones waiting.  The protocol of the cache (CacheProtocol.v) has whole calls as
    steps, end_op of an operation that is not the last up to its sleep.

    ** Parameters

    The C library's constants and structures used by sysfile.c and exec.c are the records
    [libc], [sysnos] and [elfh]; [link] is the word the page allocator writes into a
    freed page; init_filesystem is an argument of forkret; the
    addresses of the string literals of _panic are arguments; uninitialised local variables
    of namex are arguments.  Hardware is a type with its registers (the classes [Mmio] and [Board]);
    Sim of SdTheorems.v is a controller that satisfies the laws of [Host], Card of
    SdInit.v a card, Boot of Filesystem.v a card that is initialised and then transfers blocks,
    Rig and Keys of TrapsTheorems.v and Clock of Preempt.v machines.  The system calls of the user programs are the class [Unix],
    whose laws are the behaviour documented for open, read, fstat, stat, close and mkdir on a
    tree of files that nobody else changes: any call may fail, and a count of the failures ([ux_faults]) tells the runs in
    which none did.  A file tree in memory with room for two open files satisfies them.

    ** Not modelled

    The assembly files, with the exception vector, and the functions of intrinsic.h, each of
    which is one instruction or one access to a register; sched_simple.c, which is not compiled; sysproc_my.c, which
    is not in the table of system calls; messages of the SD driver (the registers they print are read) and the
    measurements of sd_test; the C++ tests of fs/test. *)
From Stdlib Require Import ZArith Lia.
From stdpp Require Export base gmap sets strings numbers.
From stdpp Require Export list.
Export ListNotations.
#[global] Open Scope Z_scope.

(** * Machine integers *)

(** An unsigned C integer of [w] bits is a [Z] in [0, 2^w); arithmetic that can
    leave the range is written with the wrap-around of the width. *)
Definition u8 (z : Z) : Z := z mod 2 ^ 8.
Definition u16 (z : Z) : Z := z mod 2 ^ 16.
Definition u32 (z : Z) : Z := z mod 2 ^ 32.
Definition u64 (z : Z) : Z := z mod 2 ^ 64.

(** Reinterpretation as a signed integer of [w] bits (two's complement). *)
Definition sgn (w z : Z) : Z :=
  let r := z mod 2 ^ w in if r <? 2 ^ (w - 1) then r else r - 2 ^ w.
Definition i16 (z : Z) : Z := sgn 16 z.
Definition i32 (z : Z) : Z := sgn 32 z.
Definition i64 (z : Z) : Z := sgn 64 z.

Lemma u64_small z : 0 <= z < 2 ^ 64 -> u64 z = z.
Proof. apply Z.mod_small. Qed.

Lemma u64_bound z : 0 <= u64 z < 2 ^ 64.
Proof. apply Z.mod_pos_bound. lia. Qed.

Lemma u32_small z : 0 <= z < 2 ^ 32 -> u32 z = z.
Proof. apply Z.mod_small. Qed.

Lemma u16_small z : 0 <= z < 2 ^ 16 -> u16 z = z.
Proof. apply Z.mod_small. Qed.

Lemma i64_bound z : - 2 ^ 63 <= i64 z < 2 ^ 63.
Proof.
  unfold i64, sgn. pose proof (Z.mod_pos_bound z (2 ^ 64)). case_match eqn:E; lia.
Qed.

Lemma i64_small z : - 2 ^ 63 <= z < 2 ^ 63 -> i64 z = z.
Proof.
  intros Hz. unfold i64, sgn. destruct (decide (0 <= z)).
  - rewrite Z.mod_small by lia. case_match eqn:E; lia.
  - replace (z mod 2 ^ 64) with (z + 2 ^ 64); [case_match eqn:E; lia |].
    apply (Z.mod_unique _ _ (-1)); lia.
Qed.

Lemma u64_i64 z : u64 (i64 z) = u64 z.
Proof.
  unfold u64, i64, sgn. case_match eqn:E; [by rewrite Zmod_mod |].
  rewrite <- (Z_mod_plus_full (_ - _) 1), Z.mul_1_l, Z.sub_add. by rewrite Zmod_mod.
Qed.

Lemma i32_bound z : - 2 ^ 31 <= i32 z < 2 ^ 31.
Proof.
  unfold i32, sgn. pose proof (Z.mod_pos_bound z (2 ^ 32)). case_match eqn:E; lia.
Qed.

(** Distinct integers of a range are no more than the range. *)
Lemma NoDup_bounded_length (l : list Z) (n : Z) :
  NoDup l -> 0 <= n -> (forall x, x ∈ l -> 0 <= x < n) -> Z.of_nat (length l) <= n.
Proof.
  intros Hd Hn Hl. rewrite <- (size_list_to_set (C := gset Z) l Hd).
  assert (list_to_set l ⊆@{gset Z} list_to_set (seqZ 0 n)) as Hs%subseteq_size.
  { intros x. rewrite !elem_of_list_to_set, elem_of_seqZ. intros Hx%Hl. lia. }
  rewrite (size_list_to_set (seqZ 0 n)), length_seqZ in Hs by apply NoDup_seqZ. lia.
Qed.

Lemma filter_all {A} (Q : A -> Prop) `{forall x, Decision (Q x)} (l : list A) :
  (forall x, x ∈ l -> Q x) -> filter Q l = l.
Proof.
  induction l as [|x l IH]; [done |]. intros Hl. rewrite filter_cons_True by (apply Hl; left).
  f_equal. apply IH. intros y Hy. apply Hl. by right.
Qed.

Lemma Forall_filter {A} (P Q : A -> Prop) `{forall x, Decision (Q x)} (l : list A) :
  Forall P l -> Forall P (filter Q l).
Proof.
  rewrite !Forall_forall. intros Hl x [_ Hx]%list_elem_of_filter. by apply Hl.
Qed.

Lemma filter_ext_in {A} (P Q : A -> Prop) `{forall x, Decision (P x)} `{forall x, Decision (Q x)} (l : list A) :
  (forall x, x ∈ l -> P x <-> Q x) -> filter P l = filter Q l.
Proof.
  induction l as [|x l IH]; [done |]. intros Hl. rewrite !filter_cons.
  rewrite IH by (intros y Hy; apply Hl; by right). specialize (Hl x ltac:(left)).
  repeat case_decide; naive_solver.
Qed.

(** * Outcomes of C code *)

(** A call returns, stops the machine in [PANIC]/[assert], waits for another
    thread ([sleep] or a contended lock), leaves the defined behaviour of C
    (a NULL or dangling pointer, an index out of range), or exhausts the fuel
    of a loop that the model bounds. *)
Inductive outcome (A : Type) : Type :=
| Ret (a : A)
| Panic (msg : string)
| Blocked
| Fault
| OutOfFuel.
Arguments Ret {A} a.
Arguments Panic {A} msg.
Arguments Blocked {A}.
Arguments Fault {A}.
Arguments OutOfFuel {A}.

#[export] Instance outcome_ret : MRet outcome := @Ret.
#[export] Instance outcome_bind : MBind outcome := fun A B f m =>
  match m with
  | Ret a => f a
  | Panic e => Panic e
  | Blocked => Blocked
  | Fault => Fault
  | OutOfFuel => OutOfFuel
  end.

(** State passing over [S]. *)
Definition M (S A : Type) : Type := S -> outcome (A * S).

#[export] Instance M_ret (S : Type) : MRet (M S) := fun A a s => Ret (a, s).
#[export] Instance M_bind (S : Type) : MBind (M S) := fun A B f m s =>
  match m s with
  | Ret (a, s') => f a s'
  | Panic e => Panic e
  | Blocked => Blocked
  | Fault => Fault
  | OutOfFuel => OutOfFuel
  end.

Definition get {S} : M S S := fun s => Ret (s, s).
Definition put {S} (s' : S) : M S unit := fun _ => Ret (tt, s').
Definition modify {S} (f : S -> S) : M S unit := fun s => Ret (tt, f s).
Definition panic {S A} (msg : string) : M S A := fun _ => Panic msg.
Definition blocked {S A} : M S A := fun _ => Blocked.
Definition fault {S A} : M S A := fun _ => Fault.

(** [assert(predicate)] of core/console.h: PANIC unless it holds. *)
Definition assert {S} (b : bool) (msg : string) : M S unit :=
  fun s => if b then Ret (tt, s) else Panic msg.

(** A pure computation that may fail, run inside the state monad. *)
Definition lift {S A} (o : outcome A) : M S A := fun s => a ← o; Ret (a, s).

(** ** Loops *)

(** [for (i = from; i < from + n; i++) body(i)]. *)
Fixpoint for_range {S} (from : Z) (n : nat) (body : Z -> M S unit) : M S unit :=
  match n with
  | O => mret tt
  | S n' => body from;; for_range (from + 1) n' body
  end.

(** The same loop when the body can [return] or [break] with a value. *)
Fixpoint for_until {S R} (from : Z) (n : nat) (body : Z -> M S (option R)) : M S (option R) :=
  match n with
  | O => mret None
  | S n' =>
      r ← body from;
      match r with
      | Some x => mret (Some x)
      | None => for_until (from + 1) n' body
      end
  end.

(** ** Weakest preconditions *)

(** [wp E c Q s]: from [s], [c] returns in a state satisfying [Q], or panics
    with a message allowed by [E]; it neither faults, blocks nor runs out of
    fuel. *)
Definition wp {S A} (E : string -> Prop) (c : M S A) (Q : A -> S -> Prop) (s : S) : Prop :=
  match c s with
  | Ret (a, s') => Q a s'
  | Panic e => E e
  | Blocked | Fault | OutOfFuel => False
  end.

(** No panic is allowed. *)
Definition no_panic : string -> Prop := fun _ => False.

Section wp.
Context {S : Type} (E : string -> Prop).

Lemma wp_ret {A} (a : A) Q (s : S) : Q a s -> wp E (mret a) Q s.
Proof. done. Qed.

Lemma wp_bind {A B} (c : M S A) (k : A -> M S B) Q s :
  wp E c (fun a s' => wp E (k a) Q s') s -> wp E (c ≫= k) Q s.
Proof. unfold wp, mbind, M_bind. destruct (c s) as [[a s']| | | |]; done. Qed.

Lemma wp_bind_inv {A B} (c : M S A) (k : A -> M S B) Q s :
  wp E (c ≫= k) Q s -> wp E c (fun a s' => wp E (k a) Q s') s.
Proof. unfold wp, mbind, M_bind. destruct (c s) as [[a s']| | | |]; done. Qed.

Lemma wp_mono {A} (c : M S A) (P Q : A -> S -> Prop) s :
  wp E c P s -> (forall a s', P a s' -> Q a s') -> wp E c Q s.
Proof. unfold wp. destruct (c s) as [[a s']| | | |]; auto. Qed.

Lemma wp_get Q (s : S) : Q s s -> wp E get Q s.
Proof. done. Qed.

Lemma wp_put Q (s s' : S) : Q tt s' -> wp E (put s') Q s.
Proof. done. Qed.

Lemma wp_modify Q (f : S -> S) s : Q tt (f s) -> wp E (modify f) Q s.
Proof. done. Qed.

Lemma wp_assert Q b msg (s : S) : b = true -> Q tt s -> wp E (assert b msg) Q s.
Proof. by intros ->. Qed.

Lemma wp_lift {A} (o : outcome A) (a : A) Q (s : S) : o = Ret a -> Q a s -> wp E (lift o) Q s.
Proof. by intros ->. Qed.

Lemma wp_for_range (I : Z -> S -> Prop) body n : forall from s,
  (forall i s, from <= i < from + Z.of_nat n -> I i s ->
    wp E (body i) (fun _ s' => I (i + 1) s') s) ->
  I from s -> wp E (for_range from n body) (fun _ s' => I (from + Z.of_nat n) s') s.
Proof.
  induction n as [|n IH]; intros from s Hbody HI; cbn [for_range].
  - apply wp_ret. by rewrite Z.add_0_r.
  - apply wp_bind. eapply wp_mono; [apply Hbody; [lia | done] |].
    intros [] s' HI'. replace (from + Z.of_nat (Datatypes.S n)) with (from + 1 + Z.of_nat n) by lia.
    apply IH; [| done]. intros i t Hi. apply Hbody. lia.
Qed.

Lemma wp_for_until {R} (I : Z -> S -> Prop) (Q : option R -> S -> Prop) body n : forall from s,
  (forall i s, from <= i < from + Z.of_nat n -> I i s ->
    wp E (body i) (fun r s' => match r with Some x => Q (Some x) s' | None => I (i + 1) s' end) s) ->
  (forall s, I (from + Z.of_nat n) s -> Q None s) ->
  I from s -> wp E (for_until from n body) Q s.
Proof.
  induction n as [|n IH]; intros from s Hbody Hend HI; cbn [for_until].
  - apply wp_ret, Hend. by rewrite Z.add_0_r.
  - apply wp_bind. eapply wp_mono; [apply Hbody; [lia | done] |].
    intros [x|] s' HI'; [by apply wp_ret |].
    apply IH; [| | done].
    + intros i t Hi. apply Hbody. lia.
    + intros t Ht. apply Hend. by replace (from + Z.of_nat (Datatypes.S n)) with (from + 1 + Z.of_nat n) by lia.
Qed.
End wp.

(** Without panics, the call returns. *)
Lemma wp_returns {S A} (c : M S A) (Q : A -> S -> Prop) (s : S) :
  wp no_panic c Q s -> exists a s', c s = Ret (a, s') /\ Q a s'.
Proof. unfold wp. destruct (c s) as [[a s']| | | |]; [eauto | done..]. Qed.

(** Step through a monadic program: bind, then the primitive at its head. *)
Ltac wp_step :=
  lazymatch goal with
  | |- wp _ (mbind _ _) _ _ => apply wp_bind
  | |- wp _ get _ _ => apply wp_get
  | |- wp _ (put _) _ _ => apply wp_put
  | |- wp _ (modify _) _ _ => apply wp_modify
  | |- wp _ (mret _) _ _ => apply wp_ret
  end.
Ltac wp_steps := repeat (wp_step; cbn beta).
Ltac wp_use H := eapply wp_mono; [eapply H |].

(** [lia] on goals with [/] and [mod] by constants. *)
Ltac dlia := Z.to_euclidean_division_equations; lia.
