(* ===== verification/Bytes.v ===== *)
(** Bytes, words and structs in memory: little-endian encodings of C integers
    and arrays (the machine is compiled with -mlittle-endian), byte ranges of
    lists and the overwriting of a range, which is what memcpy/memmove into a
    buffer do.  Shared by the file-system and the memory components. *)
From S2P Require Import Prelude.

(** * Arrays indexed by [Z] *)

Definition zget (l : list Z) (i : Z) : Z := nth (Z.to_nat i) l 0.
Definition zset (l : list Z) (i v : Z) : list Z := <[Z.to_nat i := v]> l.

(** The bytes of a literal. *)
Fixpoint chars (s : string) : list Z :=
  match s with
  | EmptyString => []
  | String c s' => Z.of_N (Ascii.N_of_ascii c) :: chars s'
  end.

Lemma length_zset l i v : length (zset l i v) = length l.
Proof. apply length_insert. Qed.

Lemma zget_zset_eq l i v : 0 <= i < Z.of_nat (length l) -> zget (zset l i v) i = v.
Proof.
  intros Hi. unfold zget, zset. apply nth_lookup_Some.
  apply list_lookup_insert_eq. lia.
Qed.

Lemma zget_zset_ne l i j v : 0 <= i -> 0 <= j -> i <> j -> zget (zset l i v) j = zget l j.
Proof.
  intros Hi Hj Hij. unfold zget, zset. rewrite !nth_lookup.
  rewrite list_lookup_insert_ne by lia. done.
Qed.

Lemma zget_out l i : Z.of_nat (length l) <= i -> zget l i = 0.
Proof. intros. apply nth_overflow. lia. Qed.

Lemma zget_lookup l i x : 0 <= i -> l !! Z.to_nat i = Some x -> zget l i = x.
Proof. intros _ H. unfold zget. by apply nth_lookup_Some. Qed.

Lemma zget_lookup_nat l (i : nat) x : l !! i = Some x -> zget l (Z.of_nat i) = x.
Proof. intros H. unfold zget. rewrite Nat2Z.id. by apply nth_lookup_Some. Qed.

Lemma lookup_zget l i : 0 <= i < Z.of_nat (length l) -> l !! Z.to_nat i = Some (zget l i).
Proof.
  intros Hi. unfold zget. destruct (l !! Z.to_nat i) eqn:E.
  - f_equal. symmetry. by apply nth_lookup_Some.
  - apply lookup_ge_None in E. lia.
Qed.

Lemma zget_replicate n i : zget (replicate n 0) i = 0.
Proof.
  unfold zget. rewrite nth_lookup.
  destruct (replicate n 0 !! Z.to_nat i) eqn:E; [| done].
  by apply lookup_replicate in E as [-> _].
Qed.

(** * Byte ranges *)

(** [n] bytes of [l] from offset [o]. *)
Definition slice (l : list Z) (o n : nat) : list Z := take n (drop o l).

(** [l] with the range from [o] overwritten by [l']. *)
Definition splice (l : list Z) (o : nat) (l' : list Z) : list Z :=
  take o l ++ l' ++ drop (o + length l') l.

Lemma length_splice l o l' :
  (o + length l' <= length l)%nat -> length (splice l o l') = length l.
Proof. intros. unfold splice. rewrite !length_app, length_take, length_drop. lia. Qed.

Lemma length_slice l o n : (o + n <= length l)%nat -> length (slice l o n) = n.
Proof. intros. unfold slice. rewrite length_take, length_drop. lia. Qed.

Lemma slice_splice l o l' :
  (o + length l' <= length l)%nat -> slice (splice l o l') o (length l') = l'.
Proof.
  intros. unfold slice, splice.
  rewrite drop_app_length' by (rewrite length_take; lia).
  apply take_app_length.
Qed.

Lemma lookup_splice_new l o l' i :
  (o + length l' <= length l)%nat -> (o <= i < o + length l')%nat ->
  splice l o l' !! i = l' !! (i - o)%nat.
Proof.
  intros. unfold splice.
  rewrite lookup_app_r by (rewrite length_take; lia).
  rewrite length_take, Nat.min_l by lia.
  by rewrite lookup_app_l by lia.
Qed.

Lemma lookup_splice_old l o l' i :
  (o + length l' <= length l)%nat -> (i < o \/ o + length l' <= i)%nat ->
  splice l o l' !! i = l !! i.
Proof.
  intros ? [Hi|Hi]; unfold splice.
  - rewrite lookup_app_l by (rewrite length_take; lia). by rewrite lookup_take_lt.
  - rewrite lookup_app_r by (rewrite length_take; lia).
    rewrite length_take, Nat.min_l by lia.
    rewrite lookup_app_r by lia. rewrite lookup_drop. f_equal. lia.
Qed.

Lemma slice_splice_disjoint l o l' p n :
  (o + length l' <= length l)%nat -> (p + n <= length l)%nat ->
  (p + n <= o \/ o + length l' <= p)%nat ->
  slice (splice l o l') p n = slice l p n.
Proof.
  intros ? ? Hd. apply list_eq. intros i. unfold slice.
  destruct (decide (i < n)%nat).
  - rewrite !lookup_take_lt by done. rewrite !lookup_drop.
    apply lookup_splice_old; [done | lia].
  - rewrite !lookup_take_ge by lia. done.
Qed.

Lemma splice_full l l' : length l' = length l -> splice l 0 l' = l'.
Proof. intros H. unfold splice. rewrite Nat.add_0_l, H, drop_all, app_nil_r. done. Qed.

Lemma slice_full l : slice l 0 (length l) = l.
Proof. unfold slice. by rewrite drop_0, firstn_all. Qed.

(** * Little-endian integers *)

Definition is_byte (b : Z) : Prop := 0 <= b < 256.
Definition bytes (l : list Z) : Prop := Forall is_byte l.

Fixpoint le_enc (n : nat) (z : Z) : list Z :=
  match n with
  | O => []
  | S n' => z mod 256 :: le_enc n' (z / 256)
  end.

Fixpoint le_dec (l : list Z) : Z :=
  match l with
  | [] => 0
  | b :: l' => b + 256 * le_dec l'
  end.

Lemma length_le_enc n : forall z, length (le_enc n z) = n.
Proof. induction n; intros; cbn; auto. Qed.

Lemma le_enc_bytes n : forall z, bytes (le_enc n z).
Proof.
  induction n as [|n IHn]; intros z; constructor; [| apply IHn].
  unfold is_byte. apply Z.mod_pos_bound. lia.
Qed.

Lemma le_dec_enc n : forall z, le_dec (le_enc n z) = z mod 256 ^ Z.of_nat n.
Proof.
  induction n as [|n IH]; intros z; cbn [le_enc le_dec].
  - by rewrite Z.mod_1_r.
  - rewrite IH, Nat2Z.inj_succ, Z.pow_succ_r by lia.
    rewrite Z.rem_mul_r by lia. lia.
Qed.

Lemma le_dec_enc_small n z : 0 <= z < 256 ^ Z.of_nat n -> le_dec (le_enc n z) = z.
Proof. intros. rewrite le_dec_enc. by apply Z.mod_small. Qed.

Lemma le_enc_dec l : bytes l -> le_enc (length l) (le_dec l) = l.
Proof.
  induction l as [|b l IH]; intros Hb; [done |].
  apply Forall_cons_iff in Hb as [Hb Hl]. unfold is_byte in Hb. cbn.
  replace ((b + 256 * le_dec l) `mod` 256) with b by dlia.
  replace ((b + 256 * le_dec l) `div` 256) with (le_dec l) by dlia.
  f_equal. by apply IH.
Qed.

Lemma le_dec_bound l : bytes l -> 0 <= le_dec l < 256 ^ Z.of_nat (length l).
Proof.
  induction l as [|b l IH]; intros Hb; [cbn; lia |].
  apply Forall_cons_iff in Hb as [Hb Hl]. specialize (IH Hl). unfold is_byte in Hb.
  cbn [le_dec length]. rewrite Nat2Z.inj_succ, Z.pow_succ_r by lia. lia.
Qed.

(** * Arrays of [n]-byte words *)

Definition words_enc (n : nat) (ws : list Z) : list Z := concat (le_enc n <$> ws).

Fixpoint words_dec (n k : nat) (l : list Z) : list Z :=
  match k with
  | O => []
  | S k' => le_dec (take n l) :: words_dec n k' (drop n l)
  end.

Lemma length_words_enc n ws : length (words_enc n ws) = (n * length ws)%nat.
Proof.
  unfold words_enc. induction ws as [|w ws IH]; cbn; [lia |].
  rewrite length_app, length_le_enc, IH. lia.
Qed.

Lemma length_words_dec n k : forall l, length (words_dec n k l) = k.
Proof. induction k; intros; cbn; auto. Qed.

Lemma words_enc_bytes n ws : bytes (words_enc n ws).
Proof.
  unfold words_enc, bytes. induction ws; cbn; [constructor |].
  apply Forall_app. split; [apply le_enc_bytes | done].
Qed.

Lemma words_dec_enc n ws :
  Forall (fun w => 0 <= w < 256 ^ Z.of_nat n) ws ->
  forall r, words_dec n (length ws) (words_enc n ws ++ r) = ws.
Proof.
  induction 1 as [|w ws Hw _ IH]; intros r; [done |]. cbn.
  rewrite <- app_assoc, take_app_length' by (by rewrite length_le_enc).
  rewrite drop_app_length' by (by rewrite length_le_enc).
  rewrite le_dec_enc_small by done. f_equal. apply IH.
Qed.

Lemma words_enc_dec n k : forall l,
  bytes l -> length l = (n * k)%nat -> words_enc n (words_dec n k l) = l.
Proof.
  induction k as [|k IH]; intros l Hb Hl.
  - destruct l; [done | cbn in Hl; lia].
  - cbn. assert (Ht : length (take n l) = n) by (rewrite length_take; lia).
    assert (Hbt : bytes (take n l)) by (by apply Forall_take).
    rewrite <- Ht at 1. rewrite le_enc_dec by done.
    unfold words_enc in IH. rewrite IH.
    + apply take_drop.
    + by apply Forall_drop.
    + rewrite length_drop. lia.
Qed.

Lemma words_dec_bound n k : forall l,
  bytes l -> Forall (fun w => 0 <= w < 256 ^ Z.of_nat n) (words_dec n k l).
Proof.
  induction k as [|k IH]; intros l Hb; cbn; constructor.
  - assert (Hbt : bytes (take n l)) by (by apply Forall_take).
    pose proof (le_dec_bound _ Hbt) as Hd. split; [lia |].
    eapply Z.lt_le_trans; [apply Hd |]. apply Z.pow_le_mono_r; [lia |].
    rewrite length_take. lia.
  - apply IH. by apply Forall_drop.
Qed.

Lemma lookup_words_dec n k : forall l i,
  (i < k)%nat -> words_dec n k l !! i = Some (le_dec (slice l (n * i) n)).
Proof.
  induction k as [|k IH]; intros l i Hi; [lia |]. cbn.
  destruct i as [|i]; cbn.
  - unfold slice. rewrite Nat.mul_0_r, drop_0. done.
  - rewrite IH by lia. unfold slice. rewrite drop_drop. repeat f_equal. lia.
Qed.

Lemma bytes_replicate n b : is_byte b -> bytes (replicate n b).
Proof. intros. by apply Forall_replicate. Qed.

Lemma bytes_splice l o l' : bytes l -> bytes l' -> bytes (splice l o l').
Proof.
  intros. unfold splice, bytes. apply Forall_app. split; [by apply Forall_take |].
  apply Forall_app. split; [done | by apply Forall_drop].
Qed.

Lemma bytes_slice l o n : bytes l -> bytes (slice l o n).
Proof. intros. unfold slice. by apply Forall_take, Forall_drop. Qed.

(** ** Automation for lengths and byte-ness *)

Create HintDb bytesdb.
Create Rewrite HintDb lens.
#[export] Hint Resolve le_enc_bytes words_enc_bytes bytes_slice bytes_splice
  bytes_replicate : bytesdb.
#[export] Hint Rewrite length_le_enc length_words_enc length_words_dec length_zset
  @length_app @length_take @length_drop @length_replicate @length_insert @length_fmap : lens.

Ltac len := autorewrite with lens in *; cbn [length] in *; lia.
