(* ===== verification/CString.v ===== *)
(** common/string.c: the kernel's own memory and string routines, over a
    byte-addressed memory, and the arithmetic helpers of common/defines.h.
    [char] is unsigned on AArch64, so a byte read is a value in [0, 256). *)
From S2P Require Import Prelude Bytes.

(** Memory: the byte at every address. *)
Definition mem := Z -> Z.
Definition store (m : mem) (a v : Z) : mem := fun x => if x =? a then v else m x.

Lemma store_eq m a v : store m a v a = v.
Proof. unfold store. by rewrite Z.eqb_refl. Qed.

Lemma store_ne m a v x : x <> a -> store m a v x = m x.
Proof. intros. unfold store. by rewrite (proj2 (Z.eqb_neq x a)). Qed.

(** [n] bytes at [a]. *)
Fixpoint read_bytes (m : mem) (a : Z) (n : nat) : list Z :=
  match n with
  | O => []
  | S n' => m a :: read_bytes m (a + 1) n'
  end.

(** * common/defines.h *)

Definition BIT (i : Z) : Z := u64 (Z.shiftl 1 i).
Definition MIN (a b : Z) : Z := if a <=? b then a else b.
Definition MAX (a b : Z) : Z := if a >=? b then a else b.
Definition round_down (a b : Z) : Z := u64 (a - a mod b).
Definition round_up (a b : Z) : Z := round_down (u64 (a + b - 1)) b.

(** * Memory routines *)

Fixpoint memset_loop (m : mem) (s c i : Z) (n : nat) : mem :=
  match n with
  | O => m
  | S n' => memset_loop (store m (s + i) (Z.land c 255)) s c (i + 1) n'
  end.
Definition memset (m : mem) (s c n : Z) : mem := memset_loop m s c 0 (Z.to_nat n).

Fixpoint memcpy_loop (m : mem) (dest src i : Z) (n : nat) : mem :=
  match n with
  | O => m
  | S n' => memcpy_loop (store m (dest + i) (m (src + i))) dest src (i + 1) n'
  end.
Definition memcpy (m : mem) (dest src n : Z) : mem := memcpy_loop m dest src 0 (Z.to_nat n).

Fixpoint memcmp_loop (m : mem) (s1 s2 i : Z) (n : nat) : Z :=
  match n with
  | O => 0
  | S n' =>
      let c1 := m (s1 + i) in
      let c2 := m (s2 + i) in
      if negb (c1 =? c2) then c1 - c2 else memcmp_loop m s1 s2 (i + 1) n'
  end.
Definition memcmp (m : mem) (s1 s2 n : Z) : Z := memcmp_loop m s1 s2 0 (Z.to_nat n).

(** [while (n-- > 0) *d++ = *s++;] *)
Fixpoint copy_up (m : mem) (d s : Z) (n : nat) : mem :=
  match n with
  | O => m
  | S n' => copy_up (store m d (m s)) (d + 1) (s + 1) n'
  end.

(** [while (n-- > 0) *--d = *--s;], with [d] and [s] past the end. *)
Fixpoint copy_down (m : mem) (d s : Z) (n : nat) : mem :=
  match n with
  | O => m
  | S n' => copy_down (store m (d - 1) (m (s - 1))) (d - 1) (s - 1) n'
  end.

Definition memmove (m : mem) (dest src n : Z) : mem :=
  if (src <? dest) && (dest - src <? n)
  then copy_down m (dest + n) (src + n) (Z.to_nat n)
  else copy_up m dest src (Z.to_nat n).

(** * String routines *)

(** The first loop: copy up to the NUL; returns the index it stopped at. *)
Fixpoint strncpy_copy (m : mem) (dest src i : Z) (n : nat) : mem * Z :=
  match n with
  | O => (m, i)
  | S n' =>
      if m (src + i) =? 0 then (m, i)
      else strncpy_copy (store m (dest + i) (m (src + i))) dest src (i + 1) n'
  end.

Definition strncpy (m : mem) (dest src n : Z) : mem :=
  let '(m1, i) := strncpy_copy m dest src 0 (Z.to_nat n) in
  memset_loop m1 dest 0 i (Z.to_nat (n - i)).

Definition strncpy_fast (m : mem) (dest src n : Z) : mem :=
  let '(m1, i) := strncpy_copy m dest src 0 (Z.to_nat n) in
  if i <? n then store m1 (dest + i) 0 else m1.

Fixpoint strncmp_loop (m : mem) (s1 s2 i : Z) (n : nat) : Z :=
  match n with
  | O => 0
  | S n' =>
      if negb (m (s1 + i) =? m (s2 + i)) then m (s1 + i) - m (s2 + i)
      else if (m (s1 + i) =? 0) || (m (s2 + i) =? 0) then 0
      else strncmp_loop m s1 s2 (i + 1) n'
  end.
Definition strncmp (m : mem) (s1 s2 n : Z) : Z := strncmp_loop m s1 s2 0 (Z.to_nat n).

(** [while (s[i] != 0) i++]: unbounded, so with fuel. *)
Fixpoint strlen_loop (m : mem) (s i : Z) (fuel : nat) : outcome Z :=
  match fuel with
  | O => OutOfFuel
  | S f => if m (s + i) =? 0 then Ret i else strlen_loop m s (i + 1) f
  end.
Definition strlen (fuel : nat) (m : mem) (s : Z) : outcome Z := strlen_loop m s 0 fuel.

(** The string at [s] as strncpy and strncmp see it: the bytes before the NUL,
    at most [n] of them. *)
Fixpoint cstr (m : mem) (s : Z) (n : nat) : list Z :=
  match n with
  | O => []
  | S n' => if m s =? 0 then [] else m s :: cstr m (s + 1) n'
  end.

(** * Lemmas *)

Lemma read_bytes_ext m m' a n :
  (forall x, a <= x < a + Z.of_nat n -> m x = m' x) -> read_bytes m a n = read_bytes m' a n.
Proof.
  revert a. induction n as [|n IH]; intros a H; cbn; [done |].
  f_equal; [apply H; lia | apply IH; intros; apply H; lia].
Qed.

Lemma length_read_bytes m a n : length (read_bytes m a n) = n.
Proof. revert a. induction n; intros; cbn; auto. Qed.

Lemma lookup_read_bytes m n : forall a (i : nat),
  (i < n)%nat -> read_bytes m a n !! i = Some (m (a + Z.of_nat i)).
Proof.
  induction n as [|n IH]; intros a i Hi; [lia |]. destruct i as [|i]; cbn.
  - f_equal. f_equal. lia.
  - rewrite IH by lia. do 2 f_equal. lia.
Qed.

Lemma memset_loop_spec n : forall m s c i x,
  memset_loop m s c i n x =
  if (s + i <=? x) && (x <? s + i + Z.of_nat n) then Z.land c 255 else m x.
Proof.
  induction n as [|n IH]; intros m s c i x; cbn [memset_loop].
  - destruct (Z.leb_spec (s + i) x), (Z.ltb_spec x (s + i + Z.of_nat 0)); cbn; lia || done.
  - rewrite IH. unfold store.
    destruct (Z.leb_spec (s + (i + 1)) x), (Z.ltb_spec x (s + (i + 1) + Z.of_nat n)),
      (Z.leb_spec (s + i) x), (Z.ltb_spec x (s + i + Z.of_nat (S n))),
      (Z.eqb_spec x (s + i)); cbn; lia || done.
Qed.

Lemma memset_spec m s c n x : 0 <= n ->
  memset m s c n x = if (s <=? x) && (x <? s + n) then Z.land c 255 else m x.
Proof.
  intros. unfold memset. rewrite memset_loop_spec, Z.add_0_r, Z2Nat.id by done. done.
Qed.

Lemma copy_up_spec n : forall m d s x,
  d <= s \/ s + Z.of_nat n <= d ->
  copy_up m d s n x = if (d <=? x) && (x <? d + Z.of_nat n) then m (s + (x - d)) else m x.
Proof.
  induction n as [|n IH]; intros m d s x Hov; cbn [copy_up].
  - destruct (Z.leb_spec d x), (Z.ltb_spec x (d + Z.of_nat 0)); cbn; lia || done.
  - rewrite IH by lia. unfold store.
    destruct (Z.leb_spec (d + 1) x), (Z.ltb_spec x (d + 1 + Z.of_nat n)),
      (Z.leb_spec d x), (Z.ltb_spec x (d + Z.of_nat (S n))); cbn; try lia.
    + rewrite (proj2 (Z.eqb_neq _ d)) by lia. f_equal. lia.
    + by rewrite (proj2 (Z.eqb_neq _ d)) by lia.
    + rewrite (proj2 (Z.eqb_eq x d)) by lia. f_equal. lia.
    + by rewrite (proj2 (Z.eqb_neq _ d)) by lia.
Qed.

Lemma copy_down_spec n : forall m d s x,
  s <= d \/ d + Z.of_nat n <= s ->
  copy_down m d s n x =
  if (d - Z.of_nat n <=? x) && (x <? d) then m (s + (x - d)) else m x.
Proof.
  induction n as [|n IH]; intros m d s x Hov; cbn [copy_down].
  - destruct (Z.leb_spec (d - Z.of_nat 0) x), (Z.ltb_spec x d); cbn; lia || done.
  - rewrite IH by lia. unfold store.
    destruct (Z.leb_spec (d - 1 - Z.of_nat n) x), (Z.ltb_spec x (d - 1)),
      (Z.leb_spec (d - Z.of_nat (S n)) x), (Z.ltb_spec x d); cbn; try lia.
    + rewrite (proj2 (Z.eqb_neq _ (d - 1))) by lia. f_equal. lia.
    + rewrite (proj2 (Z.eqb_eq x (d - 1))) by lia. f_equal. lia.
    + by rewrite (proj2 (Z.eqb_neq _ (d - 1))) by lia.
    + by rewrite (proj2 (Z.eqb_neq _ (d - 1))) by lia.
Qed.

Lemma memmove_eq m dest src n x : 0 <= n ->
  memmove m dest src n x =
  if (dest <=? x) && (x <? dest + n) then m (src + (x - dest)) else m x.
Proof.
  intros Hn. unfold memmove.
  destruct (Z.ltb_spec src dest), (Z.ltb_spec (dest - src) n); cbn [andb].
  - rewrite copy_down_spec by lia.
    replace (dest + n - Z.of_nat (Z.to_nat n)) with dest by lia.
    by replace (src + n + (x - (dest + n))) with (src + (x - dest)) by lia.
  - rewrite copy_up_spec by lia. by rewrite Z2Nat.id.
  - rewrite copy_up_spec by lia. by rewrite Z2Nat.id.
  - rewrite copy_up_spec by lia. by rewrite Z2Nat.id.
Qed.

Lemma memcpy_loop_spec n : forall m d s i x,
  d + i <= s + i \/ s + i + Z.of_nat n <= d + i ->
  memcpy_loop m d s i n x = copy_up m (d + i) (s + i) n x.
Proof.
  induction n as [|n IH]; intros m d s i x Hov; cbn; [done |].
  rewrite IH by lia. by rewrite !Z.add_assoc.
Qed.

Lemma memcpy_eq m dest src n x : 0 <= n -> dest <= src \/ src + n <= dest ->
  memcpy m dest src n x =
  if (dest <=? x) && (x <? dest + n) then m (src + (x - dest)) else m x.
Proof.
  intros Hn Hov. unfold memcpy. rewrite memcpy_loop_spec by lia.
  rewrite !Z.add_0_r, copy_up_spec, Z2Nat.id by lia. done.
Qed.

Lemma read_bytes_moved m m' dest src n :
  0 <= n ->
  (forall x, m' x = if (dest <=? x) && (x <? dest + n) then m (src + (x - dest)) else m x) ->
  read_bytes m' dest (Z.to_nat n) = read_bytes m src (Z.to_nat n).
Proof.
  intros Hn H. apply list_eq. intros i. destruct (decide (i < Z.to_nat n)%nat) as [Hi|Hi].
  - rewrite !lookup_read_bytes by done. rewrite H.
    rewrite (proj2 (Z.leb_le _ _)), (proj2 (Z.ltb_lt _ _)) by lia. cbn. do 2 f_equal. lia.
  - rewrite !lookup_ge_None_2; [done | |]; rewrite length_read_bytes; lia.
Qed.

Lemma cstr_ext m m' n : forall a,
  (forall x, a <= x < a + Z.of_nat n -> m x = m' x) -> cstr m a n = cstr m' a n.
Proof.
  induction n as [|n IH]; intros a H; cbn; [done |].
  rewrite (H a) by lia. destruct (m' a =? 0); [done |]. f_equal. apply IH. intros. apply H. lia.
Qed.

Lemma length_cstr m n : forall a, (length (cstr m a n) <= n)%nat.
Proof.
  induction n as [|n IH]; intros a; cbn; [lia |].
  destruct (m a =? 0); cbn; [lia |]. specialize (IH (a + 1)). lia.
Qed.

(** What the copying loop of strncpy leaves: the string written at [dest + i],
    the index of its end, and everything else unchanged. *)
Lemma strncpy_copy_spec n : forall m dest src i m' j,
  dest + i + Z.of_nat n <= src + i \/ src + i + Z.of_nat n <= dest + i ->
  strncpy_copy m dest src i n = (m', j) ->
  j = i + Z.of_nat (length (cstr m (src + i) n)) /\
  forall x, m' x = if (dest + i <=? x) && (x <? dest + j) then m (src + (x - dest)) else m x.
Proof.
  induction n as [|n IH]; intros m dest src i m' j Hov; cbn [strncpy_copy cstr].
  * intros [= <- <-]. split; [cbn; lia |]. intros x.
    destruct (Z.leb_spec (dest + i) x), (Z.ltb_spec x (dest + i)); cbn; lia || done.
  * destruct (m (src + i) =? 0) eqn:E.
    { intros [= <- <-]. split; [cbn; lia |]. intros x.
      destruct (Z.leb_spec (dest + i) x), (Z.ltb_spec x (dest + i)); cbn; lia || done. }
    intros H. apply IH in H as [Hj Hm]; [| lia].
    assert (Hc : cstr (store m (dest + i) (m (src + i))) (src + (i + 1)) n =
                 cstr m (src + i + 1) n).
    { rewrite <- Z.add_assoc. apply cstr_ext. intros x Hx. apply store_ne. lia. }
    rewrite Hc in Hj. pose proof (length_cstr m n (src + i + 1)).
    split; [cbn [length]; lia |]. intros x. rewrite Hm. unfold store.
    destruct (Z.leb_spec (dest + (i + 1)) x), (Z.ltb_spec x (dest + j)),
      (Z.leb_spec (dest + i) x), (Z.eqb_spec x (dest + i)); cbn; try lia; try done.
    - by rewrite (proj2 (Z.eqb_neq _ (dest + i))) by lia.
    - f_equal. lia.
Qed.

Lemma strncmp_loop_spec n : forall m s1 s2 i,
  strncmp_loop m s1 s2 i n = 0 <-> cstr m (s1 + i) n = cstr m (s2 + i) n.
Proof.
  induction n as [|n IH]; intros m s1 s2 i; cbn [strncmp_loop cstr]; [done |].
  destruct (Z.eqb_spec (m (s1 + i)) (m (s2 + i))) as [E|E]; cbn [negb].
  - rewrite E. destruct (m (s2 + i) =? 0) eqn:E0; cbn [orb]; [done |].
    rewrite IH, !Z.add_assoc. split; [congruence | by intros [= ->]].
  - split; [lia |]. intros H.
    destruct (Z.eqb_spec (m (s1 + i)) 0), (Z.eqb_spec (m (s2 + i)) 0); congruence.
Qed.

Lemma read_cstr m n : forall a,
  take (length (cstr m a n)) (read_bytes m a n) = cstr m a n.
Proof.
  induction n as [|n IH]; intros a; cbn; [done |].
  destruct (m a =? 0); cbn; [done |]. f_equal. apply IH.
Qed.

(** The bytes strncpy leaves in the destination: the string, padded with NULs. *)
Lemma strncpy_eq m dest src n x : 0 <= n ->
  dest + n <= src \/ src + n <= dest ->
  strncpy m dest src n x =
  if (dest <=? x) && (x <? dest + n) then
    nth (Z.to_nat (x - dest)) (cstr m src (Z.to_nat n)) 0
  else m x.
Proof.
  intros Hn Hov. unfold strncpy.
  destruct (strncpy_copy m dest src 0 (Z.to_nat n)) as [m1 j] eqn:E.
  apply strncpy_copy_spec in E as [Hj Hm]; [| lia].
  rewrite !Z.add_0_r, Z.add_0_l in *. pose proof (length_cstr m (Z.to_nat n) src) as Hl.
  rewrite memset_loop_spec, Hm.
  destruct (Z.leb_spec dest x), (Z.ltb_spec x (dest + j)), (Z.leb_spec (dest + j) x),
    (Z.ltb_spec x (dest + j + Z.of_nat (Z.to_nat (n - j)))), (Z.ltb_spec x (dest + n));
    cbn; try lia; try done.
  - rewrite <- (read_cstr m (Z.to_nat n) src) at 1.
    rewrite nth_lookup, lookup_take_lt by lia.
    rewrite lookup_read_bytes by lia. cbn. f_equal. lia.
  - rewrite nth_overflow by lia. done.
Qed.

Lemma cstr_of_bytes m m' n : forall a b,
  (forall i : nat, (i < n)%nat -> m' (b + Z.of_nat i) = nth i (cstr m a n) 0) ->
  cstr m' b n = cstr m a n.
Proof.
  induction n as [|n IH]; intros a b H; cbn [cstr]; [done |].
  pose proof (H 0%nat ltac:(lia)) as H0. cbn [cstr] in H0. rewrite Z.add_0_r in H0. rewrite H0.
  destruct (m a =? 0) eqn:E; cbn [nth].
  - by rewrite Z.eqb_refl.
  - rewrite E. f_equal. apply IH. intros i Hi. specialize (H (S i) ltac:(lia)).
    cbn [cstr] in H. rewrite E in H. cbn [nth] in H. rewrite <- H. f_equal. lia.
Qed.

(** * Properties *)

(** Memmove copies the [n] source bytes exactly, whatever the overlap of
    the two ranges and in whichever direction, and touches nothing else. *)
Theorem memmove_correct (m : mem) (dest src n : Z) (Hn : 0 <= n) :
  read_bytes (memmove m dest src n) dest (Z.to_nat n) = read_bytes m src (Z.to_nat n) /\
  (forall x, x < dest \/ dest + n <= x -> memmove m dest src n x = m x).
Proof.
  split.
  - apply (read_bytes_moved m); [done |]. intros x. by apply memmove_eq.
  - intros x Hx. rewrite memmove_eq by done.
    destruct (Z.leb_spec dest x), (Z.ltb_spec x (dest + n)); cbn; lia || done.
Qed.

Lemma memmove_correct_witness :
  0 <= 3 /\ read_bytes (memmove (fun x => x) 11 10 3) 11 3 = [10; 11; 12].
Proof.
  split; [lia |].
  exact (proj1 (memmove_correct (fun x => x) 11 10 3 ltac:(lia))).
Defined.

(** Strncpy and strncmp agree on what the string is: after
    [strncpy(dest, src, n)] into a separate buffer the destination holds the
    source string cut at [n] bytes and padded with NULs, strncmp finds the two
    equal, and for any two buffers strncmp returns 0 exactly when the strings
    cut at [n] bytes are equal. *)
Theorem strncpy_strncmp (m : mem) (dest src n : Z)
    (Hn : 0 <= n) (Hdisj : dest + n <= src \/ src + n <= dest) :
  let m' := strncpy m dest src n in
  cstr m' dest (Z.to_nat n) = cstr m src (Z.to_nat n) /\
  (forall i, Z.of_nat (length (cstr m src (Z.to_nat n))) <= i < n -> m' (dest + i) = 0) /\
  strncmp m' dest src n = 0 /\
  (forall s1 s2, strncmp m s1 s2 n = 0 <-> cstr m s1 (Z.to_nat n) = cstr m s2 (Z.to_nat n)).
Proof.
  intros m'. assert (Hc : cstr m' dest (Z.to_nat n) = cstr m src (Z.to_nat n)).
  { apply cstr_of_bytes. intros i Hi. unfold m'. rewrite strncpy_eq by done.
    rewrite (proj2 (Z.leb_le _ _)), (proj2 (Z.ltb_lt _ _)) by lia. cbn. f_equal. lia. }
  assert (Hcmp : forall mm s1 s2, strncmp mm s1 s2 n = 0 <->
            cstr mm s1 (Z.to_nat n) = cstr mm s2 (Z.to_nat n)).
  { intros. unfold strncmp. rewrite strncmp_loop_spec. by rewrite !Z.add_0_r. }
  repeat split; [done | | | by apply Hcmp | by apply Hcmp].
  - intros i Hi. unfold m'. rewrite strncpy_eq by done.
    rewrite (proj2 (Z.leb_le _ _)), (proj2 (Z.ltb_lt _ _)) by lia. cbn.
    apply nth_overflow. lia.
  - apply Hcmp. rewrite Hc. apply cstr_ext. intros x Hx. unfold m'. rewrite strncpy_eq by done.
    destruct (Z.leb_spec dest x), (Z.ltb_spec x (dest + n)); cbn; lia || done.
Qed.

(** strlen terminates on a NUL-terminated string and returns its length. *)
Lemma strlen_loop_spec k : forall m s i fuel,
  (forall j, 0 <= j < Z.of_nat k -> m (s + i + j) <> 0) -> m (s + i + Z.of_nat k) = 0 ->
  (k < fuel)%nat -> strlen_loop m s i fuel = Ret (i + Z.of_nat k).
Proof.
  induction k as [|k IH]; intros m s i [|fuel] Hne Hz Hf; try lia; cbn [strlen_loop].
  - rewrite Z.add_0_r in *. by rewrite Hz.
  - rewrite (proj2 (Z.eqb_neq _ 0)) by (rewrite <- (Z.add_0_r (s + i)); apply Hne; lia).
    rewrite (IH m s (i + 1)); [f_equal; lia | | | lia].
    + intros j Hj. replace (s + (i + 1) + j) with (s + i + (j + 1)) by lia. apply Hne. lia.
    + rewrite <- Hz. f_equal. lia.
Qed.

Lemma round_down_spec a b : 0 <= a < 2 ^ 64 -> 0 < b ->
  round_down a b = b * (a / b) /\ round_down a b <= a < round_down a b + b.
Proof.
  intros Ha Hb. unfold round_down. pose proof (Z.mod_pos_bound a b Hb).
  pose proof (Z.mod_le a b ltac:(lia) Hb). pose proof (Z.div_mod a b ltac:(lia)).
  rewrite u64_small by lia. lia.
Qed.

Lemma round_up_spec a b : 0 <= a -> 0 < b -> a + b - 1 < 2 ^ 64 ->
  round_up a b mod b = 0 /\ a <= round_up a b < a + b.
Proof.
  intros Ha Hb Hlt. unfold round_up. rewrite u64_small by lia.
  destruct (round_down_spec (a + b - 1) b ltac:(lia) Hb) as [Heq Hle].
  split; [| lia]. rewrite Heq, Z.mul_comm. by apply Z.mod_mul; lia.
Qed.
