(* ===== verification/ListNode.v ===== *)
(** common/list.c: intrusive circular doubly linked lists.  Nodes live in a heap
    keyed by their address; the abstraction of a list is the sequence of node
    addresses met by following [next] once around, and [merge_list] and
    [detach_from_list] are shown to be list operations on that sequence.  The
    block cache, the inode cache and the arena keep their objects on such
    lists; their models hold the sequence itself. *)
From S2P Require Import Prelude.

Record ListNode := mkNode { prev : Z; next : Z }.
Notation nheap := (gmap Z ListNode).

(** The NULL pointer. *)
Definition NULL : Z := 0.

(** [*p], a fault unless [p] points to a node. *)
Definition load (p : Z) : M nheap ListNode := fun h =>
  match h !! p with Some n => Ret (n, h) | None => Fault end.

Definition set_next (p v : Z) : M nheap unit := fun h =>
  match h !! p with Some n => Ret (tt, <[p := mkNode (prev n) v]> h) | None => Fault end.
Definition set_prev (p v : Z) : M nheap unit := fun h =>
  match h !! p with Some n => Ret (tt, <[p := mkNode v (next n)]> h) | None => Fault end.

Definition init_list_node (node : Z) : M nheap unit := fun h =>
  Ret (tt, <[node := mkNode node node]> h).

Definition merge_list (node1 node2 : Z) : M nheap Z :=
  if node1 =? NULL then mret node2 else
  if node2 =? NULL then mret node1 else
  n1 ← load node1;
  n2 ← load node2;
  let node3 := next n1 in
  let node4 := prev n2 in
  set_next node1 node2;;
  set_prev node2 node1;;
  set_next node4 node3;;
  set_prev node3 node4;;
  mret node1.

Definition detach_from_list (node : Z) : M nheap Z :=
  n ← load node;
  let p := prev n in
  set_next (prev n) (next n);;
  n ← load node;
  set_prev (next n) (prev n);;
  init_list_node node;;
  mret (if p =? node then NULL else p).

(** [for (x = head->next; x != head; x = x->next)]: the nodes visited. *)
Fixpoint walk (fuel : nat) (head x : Z) : M nheap (list Z) :=
  match fuel with
  | O => fun _ => OutOfFuel
  | S f =>
      if x =? head then mret [] else
      n ← load x;
      l ← walk f head (next n);
      mret (x :: l)
  end.
Definition traverse (fuel : nat) (head : Z) : M nheap (list Z) :=
  n ← load head; walk fuel head (next n).

(** * The abstraction: rings *)

Definition nxt (h : nheap) (u w : Z) : Prop := exists p, h !! u = Some (mkNode p w).
Definition prv (h : nheap) (w u : Z) : Prop := exists n, h !! w = Some (mkNode u n).
Definition link (h : nheap) (u w : Z) : Prop := nxt h u w /\ prv h w u.

(** Consecutive elements of a sequence. *)
Definition adj (l : list Z) : list (Z * Z) := zip l (tail l).

Definition links (h : nheap) (l : list Z) : Prop := forall u w, (u, w) ∈ adj l -> link h u w.

(** [l] is the ring met from its first node. *)
Definition ring (h : nheap) (l : list Z) : Prop :=
  match l with
  | [] => False
  | a :: l' => NoDup l /\ links h (l ++ [a])
  end.

Lemma adj_cons x y l : adj (x :: y :: l) = (x, y) :: adj (y :: l).
Proof. done. Qed.

Lemma adj_app l1 x l2 : adj (l1 ++ x :: l2) = adj (l1 ++ [x]) ++ adj (x :: l2).
Proof.
  induction l1 as [|y [|z l1] IH]; [done | done |].
  change ((y :: z :: l1) ++ x :: l2) with (y :: z :: (l1 ++ x :: l2)).
  change ((y :: z :: l1) ++ [x]) with (y :: z :: (l1 ++ [x])).
  rewrite !adj_cons. cbn [app]. f_equal. exact IH.
Qed.

Lemma links_app h l1 x l2 :
  links h (l1 ++ x :: l2) <-> links h (l1 ++ [x]) /\ links h (x :: l2).
Proof.
  unfold links. setoid_rewrite (adj_app l1 x l2). setoid_rewrite elem_of_app. split.
  - intros H. split; intros u w Hin; apply H; auto.
  - intros [H1 H2] u w [Hin|Hin]; auto.
Qed.

Lemma links_cons h x y l : links h (x :: y :: l) <-> link h x y /\ links h (y :: l).
Proof.
  unfold links. rewrite adj_cons. setoid_rewrite elem_of_cons.
  split; [intros H; split; [by apply H; left | intros; apply H; by right] |].
  intros [Hl H] u w [[= -> ->]|]; auto.
Qed.

Lemma links_single h x : links h [x].
Proof. intros u w H. by apply not_elem_of_nil in H. Qed.

Lemma elem_of_adj_snoc l x u w : (u, w) ∈ adj (l ++ [x]) -> u ∈ l.
Proof.
  revert u w. induction l as [|y [|z l] IH]; intros u w; cbn.
  - intros H. by apply not_elem_of_nil in H.
  - rewrite elem_of_cons. intros [[= -> ->]|H]; [set_solver |]. by apply not_elem_of_nil in H.
  - rewrite elem_of_cons. intros [[= -> ->]|H]; [set_solver |].
    apply elem_of_cons. right. eapply IH. exact H.
Qed.

Lemma elem_of_adj_tail l u w : (u, w) ∈ adj l -> w ∈ tail l.
Proof.
  unfold adj. intros H. apply (elem_of_zip_r u w l (tail l)) in H. done.
Qed.

(** Writing the [next] field of [x] changes where [x] leads and nothing else;
    writing the [prev] field of [x] changes what leads to [x] and nothing else. *)
Lemma set_next_ok h x v : is_Some (h !! x) ->
  exists h', set_next x v h = Ret (tt, h') /\ nxt h' x v /\
    (forall u w, u <> x -> nxt h u w -> nxt h' u w) /\
    (forall w u, prv h w u -> prv h' w u) /\
    (forall y, is_Some (h !! y) -> is_Some (h' !! y)) /\
    (forall y, y <> x -> h' !! y = h !! y).
Proof.
  intros [n Hn]. unfold set_next. rewrite Hn. eexists. split; [done |].
  split; [exists (prev n); by rewrite lookup_insert_eq |].
  split; [intros u w Hu [p Hp]; exists p; by rewrite lookup_insert_ne |].
  split; [| split; [| intros; by rewrite lookup_insert_ne]].
  - intros w u [q Hq]. destruct (decide (w = x)) as [->|].
    + rewrite Hn in Hq. injection Hq as ->. exists v. by rewrite lookup_insert_eq.
    + exists q. by rewrite lookup_insert_ne.
  - intros y Hy. destruct (decide (y = x)) as [->|].
    + rewrite lookup_insert_eq. eauto.
    + by rewrite lookup_insert_ne.
Qed.

Lemma set_prev_ok h x v : is_Some (h !! x) ->
  exists h', set_prev x v h = Ret (tt, h') /\ prv h' x v /\
    (forall w u, w <> x -> prv h w u -> prv h' w u) /\
    (forall u w, nxt h u w -> nxt h' u w) /\
    (forall y, is_Some (h !! y) -> is_Some (h' !! y)) /\
    (forall y, y <> x -> h' !! y = h !! y).
Proof.
  intros [n Hn]. unfold set_prev. rewrite Hn. eexists. split; [done |].
  split; [exists (next n); by rewrite lookup_insert_eq |].
  split; [intros w u Hw [q Hq]; exists q; by rewrite lookup_insert_ne |].
  split; [| split; [| intros; by rewrite lookup_insert_ne]].
  - intros u w [p Hp]. destruct (decide (u = x)) as [->|].
    + rewrite Hn in Hp. injection Hp as ->. exists v. by rewrite lookup_insert_eq.
    + exists p. by rewrite lookup_insert_ne.
  - intros y Hy. destruct (decide (y = x)) as [->|].
    + rewrite lookup_insert_eq. eauto.
    + by rewrite lookup_insert_ne.
Qed.

Lemma link_alloc h u w : link h u w -> is_Some (h !! u) /\ is_Some (h !! w).
Proof. intros [[p Hp] [n Hn]]. eauto. Qed.

Lemma ring_rotate h l1 x l2 : ring h (l1 ++ x :: l2) -> ring h (x :: l2 ++ l1).
Proof.
  destruct l1 as [|a l1]; [by rewrite app_nil_r |].
  intros [Hnd Hl]. cbn [app] in *. split.
  - change (a :: l1 ++ x :: l2) with ((a :: l1) ++ (x :: l2)) in Hnd.
    change (x :: l2 ++ a :: l1) with ((x :: l2) ++ (a :: l1)).
    by rewrite Permutation_app_comm.
  - replace (a :: (l1 ++ x :: l2) ++ [a]) with ((a :: l1) ++ x :: (l2 ++ [a])) in Hl
      by (cbn; by rewrite <- app_assoc).
    apply links_app in Hl as [H1 H2].
    replace ((x :: l2 ++ a :: l1) ++ [x]) with ((x :: l2) ++ a :: (l1 ++ [x]))
      by (cbn; by rewrite <- app_assoc).
    apply links_app. split; [exact H2 | exact H1].
Qed.


(** Where the first node of a ring leads, and what leads to it. *)
Lemma ring_first h a l : ring h (a :: l) ->
  exists y t, l ++ [a] = y :: t /\ link h a y /\ links h (y :: t).
Proof.
  intros [_ Hl]. cbn in Hl. destruct (l ++ [a]) as [|y t] eqn:E.
  - by destruct l.
  - apply links_cons in Hl as [H1 H2]. eauto.
Qed.

Lemma ring_last h a l : ring h (a :: l) ->
  exists r z, a :: l = r ++ [z] /\ link h z a /\ links h (r ++ [z]).
Proof.
  intros [_ Hl]. destruct (exists_last (l := a :: l)) as (r & z & E); [done |].
  exists r, z. rewrite E in Hl. rewrite <- app_assoc in Hl.
  apply links_app in Hl as [H1 H2]. apply links_cons in H2 as [H2 _]. done.
Qed.

(** A set of links survives an update that keeps the [next] of its sources and
    the [prev] of its targets. *)
Lemma links_preserved h h' l (S T : Z -> Prop) :
  links h l ->
  (forall u w, (u, w) ∈ adj l -> S u /\ T w) ->
  (forall u w, S u -> nxt h u w -> nxt h' u w) ->
  (forall u w, T w -> prv h w u -> prv h' w u) ->
  links h' l.
Proof.
  intros Hl Hin Hn Hp u w Hadj. destruct (Hl _ _ Hadj) as [H1 H2].
  destruct (Hin _ _ Hadj). split; eauto.
Qed.

(** The four writes of [merge_list]: two new links, and every other pointer
    kept. *)
Lemma merge_writes h a b y z :
  a <> NULL -> b <> NULL -> a <> z -> b <> y -> a <> b -> link h a y -> link h z b ->
  exists h', merge_list a b h = Ret (a, h') /\ link h' a b /\ link h' z y /\
    (forall u w, u <> a -> u <> z -> nxt h u w -> nxt h' u w) /\
    (forall u w, w <> b -> w <> y -> prv h w u -> prv h' w u) /\
    (forall x, x <> a -> x <> b -> x <> y -> x <> z -> h' !! x = h !! x).
Proof.
  intros Ha Hb Haz Hby Hab Lay Lzb.
  destruct (link_alloc _ _ _ Lay) as [Aa Ay], (link_alloc _ _ _ Lzb) as [Az Ab].
  destruct (set_next_ok h a b Aa) as (h1 & E1 & N1 & K1n & K1p & A1 & F1).
  destruct (set_prev_ok h1 b a (A1 _ Ab)) as (h2 & E2 & P2 & K2p & K2n & A2 & F2).
  destruct (set_next_ok h2 z y (A2 _ (A1 _ Az))) as (h3 & E3 & N3 & K3n & K3p & A3 & F3).
  destruct (set_prev_ok h3 y z (A3 _ (A2 _ (A1 _ Ay)))) as (h4 & E4 & P4 & K4p & K4n & A4 & F4).
  exists h4. destruct Lay as [[pa Hpa] _], Lzb as [_ [nb Hnb]]. split_and!.
  - unfold merge_list. rewrite (proj2 (Z.eqb_neq a NULL)), (proj2 (Z.eqb_neq b NULL)) by done.
    unfold mbind, M_bind, load. rewrite Hpa, Hnb. cbn [next prev]. by rewrite E1, E2, E3, E4.
  - split; [by apply K4n, K3n, K2n, N1 | by apply K4p, K3p, P2].
  - split; [by apply K4n, N3 | by apply P4].
  - intros u w Hu Hz Hn. by apply K4n, K3n, K2n, K1n.
  - intros u w Hu Hz Hn. by apply K4p, K3p, K2p, K1p.
  - intros x ? ? ? ?. by rewrite F4, F3, F2, F1.
Qed.

Lemma NoDup_snoc_notin {A} (r : list A) z x : NoDup (r ++ [z]) -> x ∈ r -> x <> z.
Proof. intros (_ & H & _)%NoDup_app Hx ->. apply (H z Hx). by left. Qed.

Lemma merge_list_ring h a l1 b l2 :
  a <> NULL -> b <> NULL ->
  ring h (a :: l1) -> ring h (b :: l2) -> (forall x, x ∈ a :: l1 -> x ∉ b :: l2) ->
  exists h', merge_list a b h = Ret (a, h') /\ ring h' (a :: (b :: l2) ++ l1) /\
    (forall x, x ∉ a :: l1 -> x ∉ b :: l2 -> h' !! x = h !! x).
Proof.
  intros Ha Hb R1 R2 Hdisj.
  destruct (ring_first _ _ _ R1) as (y & t & Eyt & Lay & Lyt).
  destruct (ring_last _ _ _ R2) as (r & z & Erz & Lzb & Lrz).
  destruct R1 as [Nd1 _], R2 as [Nd2 _].
  assert (Nlen : NoDup (l1 ++ [a])) by (rewrite Permutation_app_comm; exact Nd1).
  assert (Hyt : forall x, x ∈ y :: t -> x ∈ a :: l1).
  { intros x Hx. rewrite <- Eyt in Hx. rewrite elem_of_app, elem_of_cons in *. set_solver. }
  assert (Hrz : forall x, x ∈ r ++ [z] -> x ∈ b :: l2) by (by rewrite Erz).
  assert (Hne : forall u w, u ∈ a :: l1 -> w ∈ b :: l2 -> u <> w)
    by (intros u w Hu Hw ->; by apply (Hdisj w)).
  assert (Hy : y ∈ a :: l1) by (apply Hyt; by left).
  assert (Hz : z ∈ b :: l2) by (apply Hrz, elem_of_app; right; by left).
  assert (Ia : a ∈ a :: l1) by (by left). assert (Ib : b ∈ b :: l2) by (by left).
  destruct (merge_writes h a b y z) as (h' & E & Lab & Lzy & Kn & Kp & F);
    [done | done | by apply Hne | by apply not_eq_sym, Hne | by apply Hne | done | done |].
  exists h'. split; [done |]. split; [split |].
  - change (a :: (b :: l2) ++ l1) with ([a] ++ ((b :: l2) ++ l1)).
    rewrite (Permutation_app_comm (b :: l2)), app_assoc. apply NoDup_app. by split_and!.
  - replace ((a :: (b :: l2) ++ l1) ++ [a]) with (a :: (r ++ [z]) ++ (y :: t))
      by (rewrite <- Eyt, <- Erz; cbn; by rewrite <- app_assoc).
    assert (Lr' : links h' (r ++ [z])).
    { apply (links_preserved h h' _ (fun u => u ∈ r) (fun w => w ∈ l2)); [done | | |].
      - intros u w Hin. split; [by eapply elem_of_adj_snoc |].
        apply elem_of_adj_tail in Hin. rewrite <- Erz in Hin. exact Hin.
      - intros u w Hu. apply Kn; [| rewrite Erz in Nd2; by eapply NoDup_snoc_notin].
        apply not_eq_sym, Hne; [done |]. apply Hrz, elem_of_app. by left.
      - intros u w Hw. apply NoDup_cons in Nd2 as [Hb2 _]. apply Kp; [by intros -> |].
        apply not_eq_sym, Hne; [done |]. by right. }
    assert (Lt' : links h' (y :: t)).
    { apply (links_preserved h h' _ (fun u => u ∈ l1) (fun w => w ∈ t)); [done | | |].
      - intros u w Hin. split; [| by apply elem_of_adj_tail in Hin].
        rewrite <- Eyt in Hin. by eapply elem_of_adj_snoc.
      - intros u w Hu. apply NoDup_cons in Nd1 as [Ha1 _]. apply Kn; [by intros -> |].
        apply Hne; [by right | done].
      - intros u w Hw. rewrite Eyt in Nlen. apply NoDup_cons in Nlen as [Hyt' _].
        apply Kp; [| by intros ->]. apply Hne; [| done]. apply Hyt. by right. }
    rewrite <- app_assoc. cbn [app].
    destruct r as [|b' r]; cbn [app] in *; injection Erz as -> Erz.
    + apply links_cons. split; [done |]. apply links_cons. by split.
    + apply links_cons. split; [done |].
      change (b' :: r ++ z :: y :: t) with ((b' :: r) ++ z :: (y :: t)).
      apply links_app. split; [done |]. apply links_cons. by split.
  - intros x H1 H2. apply F; intros ->; auto.
Qed.

(** The writes of [detach_from_list] when [node] is not alone on its list. *)
Lemma detach_writes h n y z :
  n <> y -> n <> z -> link h n y -> link h z n ->
  exists h', detach_from_list n h = Ret (z, h') /\ link h' z y /\ link h' n n /\
    (forall u w, u <> n -> u <> z -> nxt h u w -> nxt h' u w) /\
    (forall u w, w <> n -> w <> y -> prv h w u -> prv h' w u) /\
    (forall x, x <> n -> x <> y -> x <> z -> h' !! x = h !! x).
Proof.
  intros Hny Hnz Lny Lzn.
  destruct (link_alloc _ _ _ Lny) as [An Ay], (link_alloc _ _ _ Lzn) as [Az _].
  destruct (set_next_ok h z y Az) as (h1 & E1 & N1 & K1n & K1p & A1 & F1).
  destruct (set_prev_ok h1 y z (A1 _ Ay)) as (h2 & E2 & P2 & K2p & K2n & A2 & F2).
  assert (Hn : h !! n = Some (mkNode z y)).
  { destruct Lny as [[p Hp] _], Lzn as [_ [q Hq]]. rewrite Hp in Hq. by injection Hq as -> ->. }
  exists (<[n := mkNode n n]> h2). split_and!.
  - unfold detach_from_list, mbind, M_bind, load. rewrite Hn. cbn [next prev].
    rewrite E1, F1, Hn by done. cbn [next prev]. rewrite E2. cbn.
    by rewrite (proj2 (Z.eqb_neq z n)).
  - destruct (K2n _ _ N1) as [p Hp]. destruct P2 as [q Hq].
    split; [exists p | exists q]; by rewrite lookup_insert_ne.
  - split; exists n; by rewrite lookup_insert_eq.
  - intros u w Hu Huz Hnx. destruct (K2n u w) as [p Hp]; [by apply K1n |].
    exists p. by rewrite lookup_insert_ne.
  - intros u w Hw Hwy Hpr. destruct (K2p w u) as [q Hq]; [done | by apply K1p |].
    exists q. by rewrite lookup_insert_ne.
  - intros x ? ? ?. rewrite lookup_insert_ne, F2, F1; done.
Qed.

Lemma detach_single h n :
  ring h [n] -> exists h', detach_from_list n h = Ret (NULL, h') /\ ring h' [n] /\
    (forall x, x <> n -> h' !! x = h !! x).
Proof.
  intros [_ Hl]. apply links_cons in Hl as [[[p Hp] [q Hq]] _].
  rewrite Hp in Hq. injection Hq as -> <-.
  exists (<[n := mkNode n n]> h). split_and!.
  - unfold detach_from_list, mbind, M_bind, load, set_next, set_prev, init_list_node.
    repeat (rewrite ?Hp, ?lookup_insert_eq; cbv beta iota zeta; cbn [next prev]).
    by rewrite !insert_insert_eq, Z.eqb_refl.
  - split; [apply NoDup_singleton |]. apply links_cons. split; [| apply links_single].
    split; exists n; by rewrite lookup_insert_eq.
  - intros x Hx. by rewrite lookup_insert_ne.
Qed.

Lemma detach_ring h n l :
  l <> [] -> ring h (n :: l) ->
  exists h' z, detach_from_list n h = Ret (z, h') /\ last l = Some z /\
    ring h' l /\ ring h' [n] /\ (forall x, x ∉ n :: l -> h' !! x = h !! x).
Proof.
  intros Hne R. pose proof (ring_last _ _ _ R) as (r & z & Erz & Lzn & _).
  destruct R as [Nd Hl]. apply NoDup_cons in Nd as [Hnl Nd].
  destruct l as [|y l]; [done |]. destruct r as [|n' r]; [by injection Erz |].
  injection Erz as <- Erz. cbn in Hl. apply links_cons in Hl as [Lny Hl].
  assert (Hz : z ∈ y :: l) by (rewrite Erz; apply elem_of_app; right; by left).
  destruct (detach_writes h n y z) as (h' & E & Lzy & Lnn & Kn & Kp & F);
    [intros ->; apply Hnl; by left | by intros -> | done | done |].
  exists h', z. split_and!; [done | by rewrite Erz, last_snoc | split; [done |] | |].
  - change ((y :: l) ++ [y]) with ((y :: l) ++ [y]). rewrite Erz, <- app_assoc.
    apply links_app. split; [| apply links_cons; split; [done | apply links_single]].
    apply (links_preserved h h' _ (fun u => u ∈ r) (fun w => w ∈ l)).
    + change (links h ((y :: l) ++ [n])) in Hl. rewrite Erz, <- app_assoc in Hl.
      by apply links_app in Hl as [? _].
    + intros u w Hin. split; [by eapply elem_of_adj_snoc |].
      apply elem_of_adj_tail in Hin. rewrite <- Erz in Hin. done.
    + intros u w Hu. apply Kn.
      * intros ->. apply Hnl. rewrite Erz, elem_of_app. by left.
      * rewrite Erz in Nd. by eapply NoDup_snoc_notin.
    + intros u w Hw. apply Kp; [intros ->; apply Hnl; by right |].
      intros ->. by apply NoDup_cons in Nd as [? _].
  - split; [apply NoDup_singleton |]. apply links_cons. split; [done | apply links_single].
  - intros x Hx. apply F; intros ->; apply Hx; [by left | right; by left | by right].
Qed.

Lemma walk_spec h head l : forall x t fuel,
  x :: t = l ++ [head] -> links h (x :: t) -> head ∉ l -> (length l < fuel)%nat ->
  walk fuel head x h = Ret (l, h).
Proof.
  induction l as [|y l IH]; intros x t [|fuel] E Hl Hh Hf; cbn in Hf; try lia.
  - injection E as -> ->. cbn. by rewrite Z.eqb_refl.
  - injection E as -> E. cbn [walk]. apply not_elem_of_cons in Hh as [Hy Hh].
    rewrite (proj2 (Z.eqb_neq y head)) by done.
    destruct t as [|x' t]; [by destruct l |].
    apply links_cons in Hl as [[[p Hp] _] Hl]. unfold mbind, M_bind, load. rewrite Hp. cbn [next].
    rewrite (IH x' t fuel); [done | done | done | done | lia].
Qed.

Lemma traverse_ring h head l fuel :
  ring h (head :: l) -> (length l < fuel)%nat -> traverse fuel head h = Ret (l, h).
Proof.
  intros R Hf. destruct (ring_first _ _ _ R) as (y & t & E & [[p Hp] _] & Lyt).
  unfold traverse, mbind, M_bind, load. rewrite Hp. cbn [next].
  eapply walk_spec; [by symmetry | done | | done].
  destruct R as [Nd _]. by apply NoDup_cons in Nd as [? _].
Qed.

(** * Properties *)

(** Merge_list on two separate rings returns the first node and makes one
    ring out of them: starting at [node1], all of [node2]'s ring follows and
    then the rest of [node1]'s; walking the result from [node1] visits exactly
    these nodes in this order, and no other node of the heap changes. *)
Theorem merge_list_concat (h : nheap) (a b : Z) (l1 l2 : list Z) (fuel : nat)
    (Ha : a <> NULL) (Hb : b <> NULL)
    (R1 : ring h (a :: l1)) (R2 : ring h (b :: l2))
    (Hdisj : forall x, x ∈ a :: l1 -> x ∉ b :: l2)
    (Hf : (length l2 + length l1 + 1 < fuel)%nat) :
  exists h', merge_list a b h = Ret (a, h') /\
    ring h' (a :: (b :: l2) ++ l1) /\
    traverse fuel a h' = Ret ((b :: l2) ++ l1, h') /\
    (forall x, x ∉ a :: l1 -> x ∉ b :: l2 -> h' !! x = h !! x).
Proof.
  destruct (merge_list_ring h a l1 b l2) as (h' & E & R & F); auto.
  exists h'. split_and!; auto. apply traverse_ring; [done |]. cbn. rewrite length_app. lia.
Qed.

(** Detach_from_list takes any node out of its ring: the other nodes keep
    their order in a ring of their own, the node becomes a ring by itself, the
    predecessor is returned, and NULL is returned exactly when the node was
    alone.  No other node changes. *)
Theorem detach_from_list_removes (h : nheap) (n : Z) (l1 l2 : list Z)
    (Hnn : n <> NULL) (Hnull : Forall (fun x => x <> NULL) (l1 ++ l2)) (R : ring h (l1 ++ n :: l2)) :
  exists h' r, detach_from_list n h = Ret (r, h') /\
    ring h' [n] /\
    (r = NULL <-> l1 ++ l2 = []) /\
    (l1 ++ l2 <> [] -> ring h' (l2 ++ l1) /\ last (l2 ++ l1) = Some r) /\
    (forall x, x ∉ l1 ++ n :: l2 -> h' !! x = h !! x).
Proof.
  apply ring_rotate in R. destruct (decide (l2 ++ l1 = [])) as [E|E].
  - apply app_eq_nil in E as [-> ->]. destruct (detach_single h n R) as (h' & Ed & R' & F).
    exists h', NULL. split_and!; try done. intros x Hx. apply F. intros ->. apply Hx. by left.
  - destruct (detach_ring h n (l2 ++ l1)) as (h' & z & Ed & Hz & Rl & Rn & F); [done | done |].
    assert (Hznn : z <> NULL).
    { apply last_Some_elem_of in Hz. rewrite Permutation_app_comm in Hnull.
      rewrite Forall_forall in Hnull. by apply Hnull. }
    exists h', z. split_and!; try done.
    + split; [done |]. intros [-> ->]%app_eq_nil. done.
    + intros x Hx. apply F. rewrite elem_of_app, elem_of_cons in Hx.
      rewrite elem_of_cons, elem_of_app. tauto.
Qed.

