(* ===== verification/Bitmap.v ===== *)
(** common/bitmap.h and common/bitmap.c: boolean arrays packed in 64-bit cells,
    and the view of a 512-byte disk block as such an array. *)
From S2P Require Import Prelude Bytes CString.

Definition BITMAP_BITS_PER_CELL : Z := 64.
Definition BITMAP_TO_NUM_CELLS (size : Z) : Z :=
  (size + BITMAP_BITS_PER_CELL - 1) / BITMAP_BITS_PER_CELL.

(** [~x] on a [u64]. *)
Definition bnot64 (x : Z) : Z := 2 ^ 64 - 1 - x.

(** A bitmap is its array of cells. *)
Definition init_bitmap (size : Z) : list Z := replicate (Z.to_nat (BITMAP_TO_NUM_CELLS size)) 0.

Definition bitmap_get (bitmap : list Z) (index : Z) : bool :=
  let idx := index / BITMAP_BITS_PER_CELL in
  let offset := index mod BITMAP_BITS_PER_CELL in
  negb (Z.land (Z.shiftr (zget bitmap idx) offset) 1 =? 0).

Definition bitmap_set (bitmap : list Z) (index : Z) : list Z :=
  let idx := index / BITMAP_BITS_PER_CELL in
  let offset := index mod BITMAP_BITS_PER_CELL in
  zset bitmap idx (Z.lor (zget bitmap idx) (BIT offset)).

Definition bitmap_clear (bitmap : list Z) (index : Z) : list Z :=
  let idx := index / BITMAP_BITS_PER_CELL in
  let offset := index mod BITMAP_BITS_PER_CELL in
  zset bitmap idx (Z.land (zget bitmap idx) (bnot64 (BIT offset))).

(** A bitmap of [n] bits: every cell a [u64], and enough of them. *)
Definition bitmap_wf (bitmap : list Z) (n : Z) : Prop :=
  Forall (fun c => 0 <= c < 2 ^ 64) bitmap /\ n <= BITMAP_BITS_PER_CELL * Z.of_nat (length bitmap).

(** * Bits *)

Lemma BIT_spec i : 0 <= i < 64 -> BIT i = 2 ^ i.
Proof.
  intros. unfold BIT. rewrite Z.shiftl_1_l. apply u64_small. split; [lia |].
  apply Z.pow_lt_mono_r; lia.
Qed.

Lemma testbit_bnot64 x i : 0 <= x < 2 ^ 64 -> 0 <= i < 64 ->
  Z.testbit (bnot64 x) i = negb (Z.testbit x i).
Proof.
  intros Hx Hi. unfold bnot64. replace (2 ^ 64 - 1 - x) with (Z.lnot x + 1 * 2 ^ 64) by (unfold Z.lnot; lia).
  rewrite <- (Z.mod_pow2_bits_low (Z.lnot x + 1 * 2 ^ 64) 64) by lia.
  rewrite Z.mod_add by lia. rewrite Z.mod_pow2_bits_low by lia. apply Z.lnot_spec. lia.
Qed.

Lemma bnot64_bound x : 0 <= x < 2 ^ 64 -> 0 <= bnot64 x < 2 ^ 64.
Proof. unfold bnot64. lia. Qed.

Lemma land1_testbit x : negb (Z.land x 1 =? 0) = Z.testbit x 0.
Proof.
  change 1 with (Z.ones 1). rewrite Z.land_ones by lia.
  rewrite Z.bit0_odd. change (2 ^ 1) with 2. rewrite Zmod_odd. by destruct (Z.odd x).
Qed.

Lemma bitmap_get_testbit bm i : 0 <= i ->
  bitmap_get bm i = Z.testbit (zget bm (i / 64)) (i mod 64).
Proof.
  intros Hi. unfold bitmap_get, BITMAP_BITS_PER_CELL.
  rewrite land1_testbit, Z.shiftr_spec by lia. by rewrite Z.add_0_l.
Qed.

Lemma zget_bound bm i : Forall (fun c => 0 <= c < 2 ^ 64) bm -> 0 <= zget bm i < 2 ^ 64.
Proof.
  intros H. unfold zget. rewrite nth_lookup. destruct (bm !! Z.to_nat i) eqn:E; unfold default; [| lia].
  exact (Forall_lookup_1 _ _ _ _ H E).
Qed.

Lemma lor_bound64 x y : 0 <= x < 2 ^ 64 -> 0 <= y < 2 ^ 64 -> 0 <= Z.lor x y < 2 ^ 64.
Proof.
  intros Hx Hy. assert (Hnn : 0 <= Z.lor x y) by (apply Z.lor_nonneg; lia). split; [done |].
  apply Z.log2_lt_cancel. rewrite Z.log2_lor by lia. rewrite Z.log2_pow2 by lia.
  apply Z.max_lub_lt.
  - destruct (decide (x = 0)) as [->|]; [cbn; lia |]. apply Z.log2_lt_pow2; lia.
  - destruct (decide (y = 0)) as [->|]; [cbn; lia |]. apply Z.log2_lt_pow2; lia.
Qed.

Lemma land_bound64 x y : 0 <= x < 2 ^ 64 -> 0 <= y -> 0 <= Z.land x y < 2 ^ 64.
Proof.
  intros Hx Hy. assert (0 <= Z.land x y) by (apply Z.land_nonneg; lia). split; [done |].
  destruct (decide (Z.land x y = 0)) as [->|]; [lia |].
  apply Z.log2_lt_cancel. rewrite Z.log2_pow2 by lia.
  eapply Z.le_lt_trans; [apply Z.log2_land; lia |].
  destruct (decide (x = 0)) as [->|]; [cbn; lia |].
  eapply Z.le_lt_trans; [apply Z.le_min_l |]. apply Z.log2_lt_pow2; lia.
Qed.

Lemma Forall_zset (P : Z -> Prop) l i v : Forall P l -> P v -> Forall P (zset l i v).
Proof. intros. unfold zset. by apply Forall_insert. Qed.

Lemma index_split i j : i <> j -> i / 64 <> j / 64 \/ (i / 64 = j / 64 /\ i mod 64 <> j mod 64).
Proof.
  intros. pose proof (Z.div_mod i 64 ltac:(lia)). pose proof (Z.div_mod j 64 ltac:(lia)). lia.
Qed.

Section ops.
Context (bm : list Z) (n : Z) (Hwf : bitmap_wf bm n).

Lemma bitmap_set_wf i : 0 <= i < n -> bitmap_wf (bitmap_set bm i) n.
Proof.
  destruct Hwf as [Hc Hn]. intros Hi. split; [| unfold bitmap_set; by rewrite length_zset].
  apply Forall_zset; [done |]. apply lor_bound64; [by apply zget_bound |].
  unfold BIT. apply u64_bound.
Qed.

Lemma bitmap_clear_wf i : 0 <= i < n -> bitmap_wf (bitmap_clear bm i) n.
Proof.
  destruct Hwf as [Hc Hn]. intros Hi. split; [| unfold bitmap_clear; by rewrite length_zset].
  apply Forall_zset; [done |]. apply land_bound64; [by apply zget_bound |].
  apply bnot64_bound. unfold BIT. apply u64_bound.
Qed.

(** Reading bit [j] of a bitmap whose cell [i / 64] has been replaced. *)
Lemma bitmap_get_zset i j v : 0 <= i < n -> 0 <= j ->
  bitmap_get (zset bm (i / 64) v) j =
  if i / 64 =? j / 64 then Z.testbit v (j mod 64) else bitmap_get bm j.
Proof.
  destruct Hwf as [Hc Hn]. unfold BITMAP_BITS_PER_CELL in Hn. intros Hi Hj.
  rewrite !bitmap_get_testbit by done.
  pose proof (Z.div_pos j 64 Hj ltac:(lia)). pose proof (Z.div_pos i 64 ltac:(lia) ltac:(lia)).
  assert (i / 64 < Z.of_nat (length bm)) by (apply Z.div_lt_upper_bound; lia).
  destruct (Z.eqb_spec (i / 64) (j / 64)) as [<-|].
  - by rewrite zget_zset_eq by lia.
  - by rewrite zget_zset_ne by lia.
Qed.

Lemma bitmap_get_set i j : 0 <= i < n -> 0 <= j ->
  bitmap_get (bitmap_set bm i) j = if i =? j then true else bitmap_get bm j.
Proof.
  intros Hi Hj. unfold bitmap_set, BITMAP_BITS_PER_CELL. rewrite bitmap_get_zset by done.
  pose proof (Z.mod_pos_bound i 64 ltac:(lia)). pose proof (Z.mod_pos_bound j 64 ltac:(lia)).
  rewrite Z.lor_spec, BIT_spec, Z.pow2_bits_eqb, (bitmap_get_testbit bm j) by lia.
  destruct (Z.eqb_spec i j) as [->|Hne].
  - by rewrite !Z.eqb_refl, orb_true_r.
  - apply index_split in Hne as [Hd|[-> Hm]].
    + by rewrite (proj2 (Z.eqb_neq (i / 64) (j / 64))).
    + by rewrite Z.eqb_refl, (proj2 (Z.eqb_neq (i mod 64) (j mod 64))), orb_false_r.
Qed.

Lemma bitmap_get_clear i j : 0 <= i < n -> 0 <= j ->
  bitmap_get (bitmap_clear bm i) j = if i =? j then false else bitmap_get bm j.
Proof.
  intros Hi Hj. unfold bitmap_clear, BITMAP_BITS_PER_CELL. rewrite bitmap_get_zset by done.
  pose proof (Z.mod_pos_bound i 64 ltac:(lia)). pose proof (Z.mod_pos_bound j 64 ltac:(lia)).
  rewrite Z.land_spec, testbit_bnot64, BIT_spec, Z.pow2_bits_eqb, (bitmap_get_testbit bm j)
    by first [lia | unfold BIT; apply u64_bound].
  destruct (Z.eqb_spec i j) as [->|Hne].
  - by rewrite !Z.eqb_refl, andb_false_r.
  - apply index_split in Hne as [Hd|[-> Hm]].
    + by rewrite (proj2 (Z.eqb_neq (i / 64) (j / 64))).
    + by rewrite Z.eqb_refl, (proj2 (Z.eqb_neq (i mod 64) (j mod 64))), andb_true_r.
Qed.
End ops.

Lemma init_bitmap_get size i : bitmap_get (init_bitmap size) i = false.
Proof.
  unfold bitmap_get, init_bitmap. by rewrite zget_replicate, Z.shiftr_0_l.
Qed.

Lemma init_bitmap_wf size : 0 <= size -> bitmap_wf (init_bitmap size) size.
Proof.
  intros. unfold init_bitmap, bitmap_wf, BITMAP_TO_NUM_CELLS, BITMAP_BITS_PER_CELL.
  split; [apply Forall_replicate; lia |]. rewrite length_replicate, Z2Nat.id; dlia.
Qed.

(** * A disk block as a bitmap *)

(** [(BitmapCell * )block->data]: the 64 little-endian cells of 512 bytes, and
    back. *)
Definition cells_of_block (data : list Z) : list Z := words_dec 8 64 data.
Definition block_of_cells (cells : list Z) : list Z := words_enc 8 cells.

Lemma cells_of_block_wf data : bytes data -> length data = 512%nat ->
  bitmap_wf (cells_of_block data) 4096.
Proof.
  intros Hb Hl. unfold cells_of_block. split.
  - pose proof (words_dec_bound 8 64 data Hb) as H. exact H.
  - rewrite length_words_dec. unfold BITMAP_BITS_PER_CELL. lia.
Qed.

Lemma block_of_cells_of_block data : bytes data -> length data = 512%nat ->
  block_of_cells (cells_of_block data) = data.
Proof. intros. by apply words_enc_dec. Qed.

Lemma cells_of_block_of_cells cells :
  Forall (fun c => 0 <= c < 2 ^ 64) cells -> length cells = 64%nat ->
  cells_of_block (block_of_cells cells) = cells.
Proof.
  intros Hc Hl. unfold cells_of_block, block_of_cells.
  rewrite <- Hl, <- (app_nil_r (words_enc 8 cells)). by apply words_dec_enc.
Qed.

(** * Properties *)

(** The bit operations are exact on a bitmap of [n] bits: a fresh bitmap is
    all clear, setting (clearing) a bit changes that bit to 1 (to 0) and no
    other, and the cells stay 64-bit values. *)
Theorem bitmap_bits_exact (bm : list Z) (n i : Z) (Hwf : bitmap_wf bm n) (Hi : 0 <= i < n) :
  (forall j, 0 <= j -> bitmap_get (bitmap_set bm i) j = if i =? j then true else bitmap_get bm j) /\
  (forall j, 0 <= j -> bitmap_get (bitmap_clear bm i) j = if i =? j then false else bitmap_get bm j) /\
  bitmap_wf (bitmap_set bm i) n /\ bitmap_wf (bitmap_clear bm i) n /\
  (bitmap_wf (init_bitmap n) n /\ forall j, bitmap_get (init_bitmap n) j = false).
Proof.
  split_and!.
  - intros j Hj. by eapply bitmap_get_set.
  - intros j Hj. by eapply bitmap_get_clear.
  - by apply bitmap_set_wf.
  - by apply bitmap_clear_wf.
  - apply init_bitmap_wf. lia.
  - apply init_bitmap_get.
Qed.

