(* ===== verification/Locks.v ===== *)
(** common/spinlock.c, common/rc.c and core/sleeplock.c.  The lock operations as
    one CPU runs them (used by every component that takes a lock), and the
    interleaving of several CPUs on one spinlock, as a step relation over the
    memory accesses of the code, with mutual exclusion proved by rule
    induction. *)
From S2P Require Import Prelude.

(** * Spinlocks *)

(** [cpu] is [None] for the NULL pointer. *)
Record SpinLock := mkSpin { locked : bool; cpu : option Z }.

#[export] Instance SpinLock_eq_dec : EqDecision SpinLock.
Proof. solve_decision. Defined.

Definition init_spinlock : SpinLock := mkSpin false None.

(** [thiscpu()] is the argument [me]. *)
Definition holding_spinlock (me : Z) (l : SpinLock) : bool :=
  locked l && bool_decide (cpu l = Some me).

Definition try_acquire_spinlock (me : Z) (l : SpinLock) : bool * SpinLock :=
  if locked l then (false, l) else (true, mkSpin true (Some me)).

(** Spinning on a lock another CPU holds is [Blocked]. *)
Definition acquire_spinlock (me : Z) (l : SpinLock) : outcome SpinLock :=
  if holding_spinlock me l then Panic "acquire: lock already held" else
  let '(ok, l') := try_acquire_spinlock me l in
  if ok then Ret l' else Blocked.

Definition release_spinlock (me : Z) (l : SpinLock) : outcome SpinLock :=
  if negb (holding_spinlock me l) then Panic "release: lock not held"
  else Ret (mkSpin false None).

Definition wait_spinlock (me : Z) (l : SpinLock) : outcome SpinLock :=
  l' ← acquire_spinlock me l; release_spinlock me l'.

(** * Sleeplocks *)

Record SleepLock := mkSleep { slock : SpinLock; slocked : bool }.

Definition init_sleeplock : SleepLock := mkSleep init_spinlock false.

(** [while (lock->locked) sleep(lock, &lock->lock);] waits: [Blocked]. *)
Definition acquire_sleeplock (me : Z) (l : SleepLock) : outcome SleepLock :=
  k ← acquire_spinlock me (slock l);
  if slocked l then Blocked else
  k ← release_spinlock me k;
  Ret (mkSleep k true).

Definition release_sleeplock (me : Z) (l : SleepLock) : outcome SleepLock :=
  k ← acquire_spinlock me (slock l);
  k ← release_spinlock me k;
  Ret (mkSleep k false).

(** On one CPU. *)
Lemma acquire_free me : acquire_spinlock me init_spinlock = Ret (mkSpin true (Some me)).
Proof. done. Qed.

Lemma release_own me : release_spinlock me (mkSpin true (Some me)) = Ret init_spinlock.
Proof. unfold release_spinlock, holding_spinlock. cbn. by rewrite bool_decide_eq_true_2. Qed.

Lemma acquire_sleeplock_free me :
  acquire_sleeplock me (mkSleep init_spinlock false) = Ret (mkSleep init_spinlock true).
Proof. unfold acquire_sleeplock. cbn. by rewrite release_own. Qed.

Lemma release_sleeplock_held me b :
  release_sleeplock me (mkSleep init_spinlock b) = Ret (mkSleep init_spinlock false).
Proof. unfold release_sleeplock. cbn. by rewrite release_own. Qed.

(** * Reference counts *)

Record RefCount := mkRc { count : Z }.

Definition init_rc : RefCount := mkRc 0.
Definition increment_rc (rc : RefCount) : RefCount := mkRc (i64 (count rc + 1)).
Definition decrement_rc (rc : RefCount) : bool * RefCount :=
  let c := i64 (count rc - 1) in (c <=? 0, mkRc c).

(** * Several CPUs *)

(** Where a CPU stands in the lock code:
    - [Idle]: outside;
    - [Tas]: in try_acquire_spinlock, has read [locked == 0], about to
      test-and-set;
    - [SetCpu]: has won the test-and-set, about to store [lock->cpu];
    - [Crit]: holds the lock;
    - [Clear]: in release_spinlock, has stored NULL in [lock->cpu], about to
      clear [locked];
    - [Panicked]: called acquire while holding, or release while not. *)
Inductive pc := Idle | Tas | SetCpu | Crit | Clear | Panicked.

#[export] Instance pc_eq_dec : EqDecision pc.
Proof. solve_decision. Defined.

Record world := mkWorld { lk : SpinLock; at_ : gmap Z pc }.

Definition set_pc (c : Z) (p : pc) (w : world) : world := mkWorld (lk w) (<[c := p]> (at_ w)).

(** One step of CPU [c]: the test-and-set, the store to [cpu], the store of NULL
    and the clearing of the word are steps of their own.  The two loads of
    holding_spinlock are taken in one step with the access that follows them (the
    load of [locked], or the store of NULL): no other CPU can change their outcome
    ([inv_holding]).  [calls_acquire] and [calls_release] say which
    lock operation the program of the CPU invokes next: the relation allows any
    calling sequence, correct or not. *)
Inductive step (c : Z) (w : world) : world -> Prop :=
| acquire_held :
    (at_ w !! c = Some Idle \/ at_ w !! c = Some Crit) ->
    holding_spinlock c (lk w) = true -> step c w (set_pc c Panicked w)
| acquire_busy :
    at_ w !! c = Some Idle -> holding_spinlock c (lk w) = false ->
    locked (lk w) = true -> step c w w
| acquire_seen_free :
    at_ w !! c = Some Idle -> holding_spinlock c (lk w) = false ->
    locked (lk w) = false -> step c w (set_pc c Tas w)
| tas_lost :
    at_ w !! c = Some Tas -> locked (lk w) = true -> step c w (set_pc c Idle w)
| tas_won :
    at_ w !! c = Some Tas -> locked (lk w) = false ->
    step c w (set_pc c SetCpu (mkWorld (mkSpin true (cpu (lk w))) (at_ w)))
| store_cpu :
    at_ w !! c = Some SetCpu ->
    step c w (set_pc c Crit (mkWorld (mkSpin (locked (lk w)) (Some c)) (at_ w)))
| release_held :
    (at_ w !! c = Some Idle \/ at_ w !! c = Some Crit) ->
    holding_spinlock c (lk w) = true ->
    step c w (set_pc c Clear (mkWorld (mkSpin (locked (lk w)) None) (at_ w)))
| release_not_held :
    (at_ w !! c = Some Idle \/ at_ w !! c = Some Crit) ->
    holding_spinlock c (lk w) = false -> step c w (set_pc c Panicked w)
| clear_locked :
    at_ w !! c = Some Clear ->
    step c w (set_pc c Idle (mkWorld (mkSpin false (cpu (lk w))) (at_ w))).

Inductive reachable (w0 : world) : world -> Prop :=
| reach_init : reachable w0 w0
| reach_step w c w' : reachable w0 w -> step c w w' -> reachable w0 w'.

(** [n] CPUs outside the lock code, lock initialised. *)
Definition boot (cpus : list Z) : world :=
  mkWorld init_spinlock (list_to_map ((fun c => (c, Idle)) <$> cpus)).

(** A CPU that has passed the test-and-set and not yet cleared. *)
Definition owns (p : pc) : bool :=
  match p with SetCpu | Crit | Clear => true | _ => false end.

Definition is_owner (w : world) (c : Z) : Prop :=
  exists p, at_ w !! c = Some p /\ owns p = true.

(** The lock word, its [cpu] field and the positions agree: the lock is free, or
    exactly one CPU has it, or the CPU that had it panicked inside. *)
Inductive lock_inv (w : world) : Prop :=
| inv_free :
    (forall d, ~ is_owner w d) -> lk w = mkSpin false None -> lock_inv w
| inv_owned c p :
    at_ w !! c = Some p -> owns p = true -> (forall d, is_owner w d -> d = c) ->
    lk w = mkSpin true (if decide (p = Crit) then Some c else None) -> lock_inv w
| inv_lost c :
    at_ w !! c = Some Panicked -> (forall d, ~ is_owner w d) ->
    lk w = mkSpin true (Some c) -> lock_inv w.

(** * Mutual exclusion *)

Lemma holding_true me l : holding_spinlock me l = true <-> locked l = true /\ cpu l = Some me.
Proof. unfold holding_spinlock. rewrite andb_true_iff, bool_decide_eq_true. done. Qed.

Lemma owner_set_pc w c p l d :
  is_owner (mkWorld l (<[c := p]> (at_ w))) d <->
  (d = c /\ owns p = true) \/ (d <> c /\ is_owner w d).
Proof.
  unfold is_owner. cbn. destruct (decide (d = c)) as [->|Hne].
  - rewrite lookup_insert_eq. split.
    + intros (q & [= ->] & H). by left.
    + intros [[_ H]|[]]; [eauto | done].
  - rewrite lookup_insert_ne by done. split.
    + intros (q & H). right. eauto.
    + intros [[]|[_ H]]; done.
Qed.

Lemma owner_at w c p : at_ w !! c = Some p -> owns p = true -> is_owner w c.
Proof. intros. by exists p. Qed.

Lemma not_owner_at w c p : at_ w !! c = Some p -> owns p = false -> ~ is_owner w c.
Proof. intros H Ho (q & Hq & Hqo). rewrite H in Hq. injection Hq as ->. congruence. Qed.

Create HintDb locks.
#[export] Hint Resolve owner_at not_owner_at : locks.

(** A CPU outside the lock moves to another position outside it. *)
Lemma inv_outside w c p p' :
  lock_inv w -> at_ w !! c = Some p -> owns p = false -> p <> Panicked -> owns p' = false ->
  lock_inv (set_pc c p' w).
Proof.
  intros Hi Hc Ho Hp Ho'. assert (Hout : forall d, is_owner (set_pc c p' w) d <-> is_owner w d).
  { intros d. unfold set_pc. rewrite owner_set_pc. split; [naive_solver congruence |].
    intros Hd. right. split; [| done]. intros ->. eapply not_owner_at; eauto. }
  destruct Hi as [Hno Hl|c0 p0 Hc0 Hp0 Hone Hl|c0 Hc0 Hno Hl].
  - apply inv_free; [| done]. intros d. by rewrite Hout.
  - eapply (inv_owned _ c0 p0); cbn; [| done | | done].
    + rewrite lookup_insert_ne; [done |]. intros ->. congruence.
    + intros d. rewrite Hout. apply Hone.
  - eapply (inv_lost _ c0); cbn; [| | done].
    + rewrite lookup_insert_ne; [done |]. intros ->. congruence.
    + intros d. by rewrite Hout.
Qed.

(** The owner moves on inside the lock, the [cpu] field following it. *)
Lemma inv_inside w c p p' :
  at_ w !! c = Some p -> owns p = true -> (forall d, is_owner w d -> d = c) -> owns p' = true ->
  lock_inv (set_pc c p' (mkWorld (mkSpin true (if decide (p' = Crit) then Some c else None)) (at_ w))).
Proof.
  intros Hc Hp Hone Hp'. eapply (inv_owned _ c p'); cbn; [| done | | done].
  - by rewrite lookup_insert_eq.
  - intros d. unfold set_pc. cbn. rewrite owner_set_pc. intros [[-> _]|[_ Hd]]; auto.
Qed.

(** While a CPU owns the lock, the invariant is in its second case. *)
Lemma inv_owner w c p :
  lock_inv w -> at_ w !! c = Some p -> owns p = true ->
  (forall d, is_owner w d -> d = c) /\
  lk w = mkSpin true (if decide (p = Crit) then Some c else None).
Proof.
  intros [Hno _|c0 p0 Hc0 Hp0 Hone Hl|c0 Hc0 Hno _] Hc Hp; [by exfalso; eapply Hno; eauto with locks | |
    by exfalso; eapply Hno; eauto with locks].
  assert (c = c0) as <- by eauto with locks. rewrite Hc in Hc0. injection Hc0 as <-. done.
Qed.

(** The [holding_spinlock] test of a CPU is exact. *)
Lemma inv_holding w c p :
  lock_inv w -> at_ w !! c = Some p -> p <> Panicked ->
  holding_spinlock c (lk w) = true <-> p = Crit.
Proof.
  intros Hi Hc Hp. rewrite holding_true. destruct Hi as [Hno Hl|c0 p0 Hc0 Hp0 Hone Hl|c0 Hc0 Hno Hl];
    rewrite Hl; cbn.
  - split; [naive_solver |]. intros ->. exfalso. eapply Hno. eauto with locks.
  - case_decide as D; split.
    + intros [_ [= ->]]. congruence.
    + intros ->. split; [done |]. f_equal. symmetry. eauto with locks.
    + naive_solver.
    + intros ->. exfalso. assert (c = c0) as <- by eauto with locks. congruence.
  - split; [intros [_ [= ->]]; congruence |]. intros ->. exfalso. eapply Hno. eauto with locks.
Qed.

Lemma lock_inv_step w c w' : lock_inv w -> step c w w' -> lock_inv w'.
Proof.
  intros Hi Hs. destruct Hs as [Hat Hh|Hat Hh Hl|Hat Hh Hl|Hat Hl|Hat Hl|Hat|Hat Hh|Hat Hh|Hat].
  - (* panics holding the lock: it is lost *)
    assert (Hc : at_ w !! c = Some Crit).
    { destruct Hat as [Hat|Hat]; [| done]. eapply inv_holding in Hh; eauto. discriminate. }
    destruct (inv_owner w c Crit Hi Hc eq_refl) as [Hone Hl].
    eapply (inv_lost _ c); cbn; [by rewrite lookup_insert_eq | | by rewrite Hl].
    intros d. unfold set_pc. rewrite owner_set_pc. naive_solver.
  - done.
  - by eapply inv_outside; eauto.
  - by eapply inv_outside; eauto.
  - destruct Hi as [Hno Hlk|c0 p0 Hc0 Hp0 Hone Hlk|c0 Hc0 Hno Hlk]; rewrite Hlk in *; try done.
    eapply (inv_owned _ c SetCpu); cbn; [by rewrite lookup_insert_eq | done | | done].
    intros d. unfold set_pc. cbn. rewrite owner_set_pc. naive_solver.
  - destruct (inv_owner w c SetCpu Hi Hat eq_refl) as [Hone Hl]. rewrite Hl. cbn.
    by eapply (inv_inside w c SetCpu Crit).
  - assert (Hc : at_ w !! c = Some Crit).
    { destruct Hat as [Hat|Hat]; [| done]. eapply inv_holding in Hh; eauto. discriminate. }
    destruct (inv_owner w c Crit Hi Hc eq_refl) as [Hone Hl]. rewrite Hl. cbn.
    by eapply (inv_inside w c Crit Clear).
  - destruct Hat as [Hat|Hat]; [by eapply inv_outside; eauto |].
    exfalso. assert (holding_spinlock c (lk w) = true) by (by eapply inv_holding). congruence.
  - destruct (inv_owner w c Clear Hi Hat eq_refl) as [Hone Hl]. rewrite Hl. cbn.
    apply inv_free; [| done]. intros d. unfold set_pc. cbn. rewrite owner_set_pc. naive_solver.
Qed.

Lemma boot_inv cpus : lock_inv (boot cpus).
Proof.
  apply inv_free; [| done]. intros d (p & Hp & Ho). cbn in Hp.
  apply elem_of_list_to_map_2, list_elem_of_fmap in Hp as (c & [= -> ->] & _). done.
Qed.

Lemma reachable_inv cpus w : reachable (boot cpus) w -> lock_inv w.
Proof. induction 1; [apply boot_inv | by eapply lock_inv_step]. Qed.

(** * Properties *)

(** C38: however the CPUs interleave between the accesses to the lock (the load of
    the word, the test-and-set, the stores to [cpu], the clearing), and whatever lock
    operations they call, two CPUs are never both inside the spinlock, the lock
    word is set while one is, and the check at the head of acquire and release
    is exact: acquire panics precisely for the CPU already inside, release
    precisely for one that is not. *)
Theorem spinlock_mutual_exclusion (cpus : list Z) (w : world) (Hr : reachable (boot cpus) w) :
  (forall c d, at_ w !! c = Some Crit -> at_ w !! d = Some Crit -> c = d) /\
  (forall c, at_ w !! c = Some Crit -> locked (lk w) = true) /\
  (forall c p, at_ w !! c = Some p -> p <> Panicked ->
     holding_spinlock c (lk w) = true <-> p = Crit).
Proof.
  apply reachable_inv in Hr. split_and!.
  - intros c d Hc Hd. destruct (inv_owner w c Crit Hr Hc eq_refl) as [Hone _].
    symmetry. eauto with locks.
  - intros c Hc. destruct (inv_owner w c Crit Hr Hc eq_refl) as [_ ->]. done.
  - intros c p. by apply inv_holding.
Qed.

(** CPU 0 takes the lock while CPU 1, which saw it free too, loses the
    test-and-set. *)
Lemma spinlock_mutual_exclusion_witness :
  exists w, reachable (boot [0; 1]) w /\ at_ w !! 0 = Some Crit /\ at_ w !! 1 = Some Idle /\
    holding_spinlock 0 (lk w) = true /\ holding_spinlock 1 (lk w) = false.
Proof.
  set (w1 := set_pc 0 Tas (boot [0; 1])).
  set (w2 := set_pc 1 Tas w1).
  set (w3 := set_pc 0 SetCpu (mkWorld (mkSpin true (cpu (lk w2))) (at_ w2))).
  set (w4 := set_pc 1 Idle w3).
  set (w5 := set_pc 0 Crit (mkWorld (mkSpin (locked (lk w4)) (Some 0)) (at_ w4))).
  assert (Hr : reachable (boot [0; 1]) w5).
  { apply (reach_step _ w4 0); [apply (reach_step _ w3 1); [apply (reach_step _ w2 0);
      [apply (reach_step _ w1 1); [apply (reach_step _ (boot [0; 1]) 0);
        [apply reach_init |] |] |] |] |].
    - by apply acquire_seen_free.
    - by apply acquire_seen_free.
    - by apply tas_won.
    - by apply tas_lost.
    - by apply store_cpu. }
  exists w5. split; [done |]. split; [done |]. split; [done |].
  destruct (spinlock_mutual_exclusion [0; 1] w5 Hr) as (_ & _ & H). split.
  - by apply (H 0 Crit).
  - apply not_true_iff_false. intros Hh. by apply (H 1 Idle) in Hh.
Defined.
