(* ===== verification/PhysMem.v ===== *)
(** aarch64/mmu.h (the address spaces) and core/physical_memory.c: the page
    allocator, a free list threaded through the first word of the free pages.

    The chain of free pages is read off the memory ([chain]); every sequence of
    kalloc and kfree keeps the pages of the machine partitioned into free pages
    and pages in use. *)
From S2P Require Import Prelude Bytes CString Locks.

(** * aarch64/mmu.h *)

Definition PAGE_SIZE : Z := 4096.
Definition KSPACE_MASK : Z := 0xffff000000000000.
Definition K2P (addr : Z) : Z := u64 (addr - KSPACE_MASK).
Definition P2K (addr : Z) : Z := u64 (addr + KSPACE_MASK).
Definition KSPACE (addr : Z) : Z := Z.lor addr KSPACE_MASK.
Definition PSPACE (addr : Z) : Z := Z.land addr (2 ^ 64 - 1 - KSPACE_MASK).

Lemma K2P_P2K pa : 0 <= pa < 2 ^ 64 -> K2P (P2K pa) = pa.
Proof. unfold K2P, P2K, u64, KSPACE_MASK. intros. dlia. Qed.

Lemma P2K_small pa : 0 <= pa < 2 ^ 48 -> P2K pa = pa + KSPACE_MASK.
Proof. unfold P2K, KSPACE_MASK. intros. apply u64_small. lia. Qed.

(** * Definitions *)

(** [next] of the free list, the first word of each page of memory, the lock. *)
Record pmem := mkPmem { fl_next : Z; word : Z -> Z; mmt_lock : SpinLock }.

Definition set_fl_next (v : Z) (s : pmem) : pmem := mkPmem v (word s) (mmt_lock s).
Definition set_word (p v : Z) (s : pmem) : pmem := mkPmem (fl_next s) (store (word s) p v) (mmt_lock s).
Definition set_mmt_lock (l : SpinLock) (s : pmem) : pmem := mkPmem (fl_next s) (word s) l.

Definition freelist_alloc : M pmem Z :=
  s ← get;
  let p := fl_next s in
  (if negb (p =? 0) then modify (set_fl_next (word s p)) else mret tt);;
  mret p.

Definition freelist_free (v : Z) : M pmem unit :=
  s ← get;
  modify (set_word v (fl_next s));;
  modify (set_fl_next v).

(** [for (p = start; p + PAGE_SIZE <= end; p += PAGE_SIZE)]: pointers wrap at 64
    bits, and the loop is given one unit of fuel per page. *)
Fixpoint free_pages_loop (fuel : nat) (p end_ : Z) : M pmem unit :=
  match fuel with
  | O => fun _ => OutOfFuel
  | S f =>
      if u64 (p + PAGE_SIZE) <=? end_ then
        freelist_free p;; free_pages_loop f (u64 (p + PAGE_SIZE)) end_
      else mret tt
  end.

Definition init_freelist (fuel : nat) (start end_ : Z) : M pmem unit := free_pages_loop fuel start end_.
Definition free_range (fuel : nat) (start end_ : Z) : M pmem unit := free_pages_loop fuel start end_.

Definition phystop : Z := 0x3F000000.

(** [kend] is the linker symbol [end]. *)
Definition init_memory_manager (fuel : nat) (kend : Z) : M pmem unit :=
  let roundup_end := round_up kend PAGE_SIZE in
  init_freelist fuel roundup_end (P2K phystop);;
  modify (set_mmt_lock init_spinlock).

Section calls.
Context (me : Z).

Definition lock_mmt : M pmem unit :=
  s ← get; l ← lift (acquire_spinlock me (mmt_lock s)); modify (set_mmt_lock l).
Definition unlock_mmt : M pmem unit :=
  s ← get; l ← lift (release_spinlock me (mmt_lock s)); modify (set_mmt_lock l).

Definition kalloc : M pmem Z := lock_mmt;; p ← freelist_alloc; unlock_mmt;; mret p.
Definition kfree (va : Z) : M pmem unit := lock_mmt;; freelist_free va;; unlock_mmt.
End calls.

(** * The chain of free pages *)

Fixpoint chain (w : Z -> Z) (p : Z) (l : list Z) : Prop :=
  match l with
  | [] => p = 0
  | q :: l' => p = q /\ q <> 0 /\ chain w (w q) l'
  end.

Definition is_page (p : Z) : Prop := 0 < p < 2 ^ 64 /\ p mod PAGE_SIZE = 0.

Record pm_inv (s : pmem) (l : list Z) : Prop := {
  pm_chain : chain (word s) (fl_next s) l;
  pm_nodup : NoDup l;
  pm_pages : Forall is_page l;
  pm_lock : mmt_lock s = init_spinlock
}.

Lemma chain_store w p v l : p ∉ l -> forall q, chain (store w p v) q l <-> chain w q l.
Proof.
  induction l as [|x l IH]; [done |]. rewrite not_elem_of_cons. intros [Hx Hl] q. cbn.
  rewrite store_ne by congruence. by rewrite IH.
Qed.

(** The chain is determined by the memory. *)
Lemma chain_fun w l : forall p l', chain w p l -> chain w p l' -> l = l'.
Proof.
  induction l as [|x l IH]; intros p [|y l']; cbn; [done | naive_solver congruence.. |].
  intros (-> & _ & H1) (-> & _ & H2). f_equal. eauto.
Qed.

Lemma wp_lock_mmt E me s Q : mmt_lock s = init_spinlock ->
  Q tt (set_mmt_lock (mkSpin true (Some me)) s) -> wp E (lock_mmt me) Q s.
Proof.
  intros Hl HQ. unfold lock_mmt. wp_steps. rewrite Hl. eapply wp_lift; [apply acquire_free |]. by apply wp_modify.
Qed.

Lemma wp_unlock_mmt E me s Q : mmt_lock s = mkSpin true (Some me) ->
  Q tt (set_mmt_lock init_spinlock s) -> wp E (unlock_mmt me) Q s.
Proof.
  intros Hl HQ. unfold unlock_mmt. wp_steps. rewrite Hl. eapply wp_lift; [apply release_own |]. by apply wp_modify.
Qed.

(** kalloc takes the first page of the chain, or returns NULL when it is empty. *)
Lemma kalloc_ok E me s l Q : pm_inv s l ->
  (forall s', pm_inv s' (tail l) -> Q (hd 0 l) s') -> wp E (kalloc me) Q s.
Proof.
  intros [Hc Hn Hp Hl] HQ. unfold kalloc. apply wp_bind, wp_lock_mmt; [done |].
  unfold freelist_alloc. wp_steps. cbn [fl_next set_mmt_lock].
  destruct l as [|p l]; cbn in Hc.
  - rewrite Hc. cbn. wp_steps. apply wp_unlock_mmt; [done |]. apply wp_ret. apply (HQ _).
    split; cbn; [done | apply NoDup_nil_2 | apply Forall_nil_2 | done].
  - destruct Hc as (-> & Hp0 & Hc). rewrite (proj2 (Z.eqb_neq p 0)) by done. cbn [negb]. wp_steps.
    apply wp_unlock_mmt; [done |]. apply wp_ret. apply (HQ _).
    apply NoDup_cons in Hn as [_ Hn]. apply Forall_cons in Hp as [_ Hp]. by split.
Qed.

Lemma freelist_free_ok E s l v Q : pm_inv s l -> v ∉ l -> is_page v ->
  (forall s', pm_inv s' (v :: l) -> Q tt s') -> wp E (freelist_free v) Q s.
Proof.
  intros [Hc Hn Hp Hl] Hv Hpv HQ. unfold freelist_free. wp_steps. apply HQ.
  split; cbn; [| by apply NoDup_cons | by apply Forall_cons | done].
  destruct Hpv. split_and!; [done | lia |]. rewrite chain_store by done. by rewrite store_eq.
Qed.

(** kfree puts the page back in front of the chain. *)
Lemma kfree_ok E me s l v Q : pm_inv s l -> v ∉ l -> is_page v ->
  (forall s', pm_inv s' (v :: l) -> Q tt s') -> wp E (kfree me v) Q s.
Proof.
  intros HI Hv Hpv HQ. unfold kfree. apply wp_bind, wp_lock_mmt; [apply HI |].
  apply wp_bind. unfold freelist_free. wp_steps. apply wp_unlock_mmt; [done |].
  pose proof (freelist_free_ok E s l v Q HI Hv Hpv HQ) as W. unfold freelist_free, wp in W. cbn in W.
  destruct HI as [_ _ _ Hl]. destruct s. cbn in *. by subst.
Qed.

(** * Initialisation *)

(** The pages of [start, start + n * PAGE_SIZE). *)
Definition pages (start : Z) (n : nat) : list Z := (fun i => start + PAGE_SIZE * Z.of_nat i) <$> seq 0 n.

Lemma elem_of_pages start n p :
  p ∈ pages start n <-> exists i, 0 <= i < Z.of_nat n /\ p = start + PAGE_SIZE * i.
Proof.
  unfold pages. rewrite list_elem_of_fmap. split.
  - intros (i & -> & Hi%elem_of_seq). exists (Z.of_nat i). split; [lia | done].
  - intros (i & Hi & ->). exists (Z.to_nat i). split; [by rewrite Z2Nat.id by lia |]. apply elem_of_seq. lia.
Qed.

Lemma pages_S start n : pages start (S n) = start :: pages (start + PAGE_SIZE) n.
Proof.
  unfold pages. cbn [seq fmap list_fmap]. f_equal; [lia |].
  rewrite <- fmap_S_seq, <- list_fmap_compose. apply list_fmap_ext. intros i x _. cbn. lia.
Qed.

Lemma free_pages_loop_ok E n : forall fuel p end_ s l Q,
  pm_inv s l -> (forall q, q ∈ l -> q < p) -> 0 < p -> p mod PAGE_SIZE = 0 ->
  p + PAGE_SIZE * Z.of_nat n <= end_ < p + PAGE_SIZE * (Z.of_nat n + 1) -> end_ + PAGE_SIZE < 2 ^ 64 ->
  (n < fuel)%nat ->
  (forall s', pm_inv s' (rev (pages p n) ++ l) -> Q tt s') -> wp E (free_pages_loop fuel p end_) Q s.
Proof.
  unfold PAGE_SIZE. induction n as [|n IH]; intros [|fuel] p end_ s l Q HI Hl Hp Hm He Hb Hf HQ; try lia.
  - cbn [free_pages_loop]. rewrite u64_small by (unfold PAGE_SIZE; lia).
    unfold PAGE_SIZE. rewrite (proj2 (Z.leb_gt _ _)) by lia. by apply wp_ret, HQ.
  - cbn [free_pages_loop]. rewrite u64_small by (unfold PAGE_SIZE; lia).
    unfold PAGE_SIZE at 1. rewrite (proj2 (Z.leb_le _ _)) by lia.
    apply wp_bind. eapply freelist_free_ok; [done | intros Hin; specialize (Hl p Hin); lia | split; unfold PAGE_SIZE; lia |].
    intros s1 HI1. unfold PAGE_SIZE. eapply IH; [exact HI1 | | | | | | |]; try lia.
    + intros q [->|Hq]%elem_of_cons; [lia |]. specialize (Hl q Hq). lia.
    + dlia.
    + intros s2 HI2. apply HQ. rewrite pages_S. cbn [rev]. by rewrite <- app_assoc.
Qed.

Definition bss_pmem (w : Z -> Z) : pmem := mkPmem 0 w (mkSpin false None).

(** The pages between the end of the kernel image and the top of memory. *)
Definition machine_pages (kend : Z) : list Z :=
  let start := round_up kend PAGE_SIZE in pages start (Z.to_nat ((P2K phystop - start) / PAGE_SIZE)).

(** One unit of fuel per page frame below [phystop] is enough. *)
Definition frames : nat := Z.to_nat (phystop / PAGE_SIZE + 1).

Lemma init_memory_manager_ok E w kend Q : KSPACE_MASK < kend <= P2K phystop ->
  (forall s, pm_inv s (rev (machine_pages kend)) -> Q tt s) ->
  wp E (init_memory_manager frames kend) Q (bss_pmem w).
Proof.
  intros Hk HQ. change (P2K phystop) with 0xffff00003f000000 in Hk. unfold KSPACE_MASK in Hk.
  destruct (round_up_spec kend 4096 ltac:(lia) ltac:(lia) ltac:(lia)) as (Hr1 & Hr2).
  unfold init_memory_manager. apply wp_bind. unfold init_freelist, machine_pages, PAGE_SIZE in *.
  change (P2K phystop) with 0xffff00003f000000 in *. set (start := round_up kend 4096) in *.
  assert (start <= 0xffff00003f000000) by dlia.
  eapply (free_pages_loop_ok E (Z.to_nat ((0xffff00003f000000 - start) / 4096)) _ _ _ _ []).
  - split; [by cbn | apply NoDup_nil_2 | apply Forall_nil_2 | done].
  - by intros q ?%not_elem_of_nil.
  - lia.
  - done.
  - unfold PAGE_SIZE. rewrite Z2Nat.id by dlia. dlia.
  - unfold PAGE_SIZE. lia.
  - unfold frames, phystop, PAGE_SIZE. apply Z2Nat.inj_lt; dlia.
  - intros s HI. rewrite app_nil_r in HI. apply wp_modify, HQ. destruct HI. by split.
Qed.

Lemma elem_of_machine_pages kend p : KSPACE_MASK < kend <= P2K phystop ->
  p ∈ machine_pages kend <-> p mod PAGE_SIZE = 0 /\ kend <= p /\ p + PAGE_SIZE <= P2K phystop.
Proof.
  intros Hk. change (P2K phystop) with 0xffff00003f000000 in Hk. unfold KSPACE_MASK in Hk.
  destruct (round_up_spec kend 4096 ltac:(lia) ltac:(lia) ltac:(lia)) as (Hr1 & Hr2).
  unfold machine_pages. rewrite elem_of_pages. unfold PAGE_SIZE.
  change (P2K phystop) with 0xffff00003f000000. set (start := round_up kend 4096) in *.
  assert (start <= 0xffff00003f000000) by dlia. rewrite Z2Nat.id by dlia. split.
  - intros (i & Hi & ->). dlia.
  - intros (Hp & H1 & H2). exists ((p - start) / 4096). dlia.
Qed.

(** * Allocation histories *)

(** A run of the kernel: kalloc, and kfree of pages in use; the second component
    is the set of pages in use. *)
Inductive pm_step (me : Z) : pmem * gset Z -> pmem * gset Z -> Prop :=
| step_kalloc s u p s' : kalloc me s = Ret (p, s') ->
    pm_step me (s, u) (s', if p =? 0 then u else {[p]} ∪ u)
| step_kfree s u p s' : p ∈ u -> kfree me p s = Ret (tt, s') -> pm_step me (s, u) (s', u ∖ {[p]}).

(** Free pages and pages in use partition the pages [all]. *)
Record partition (all : list Z) (s : pmem) (u : gset Z) (l : list Z) : Prop := {
  pt_inv : pm_inv s l;
  pt_all : forall p, p ∈ all <-> p ∈ l \/ p ∈ u;
  pt_disj : forall p, p ∈ l -> p ∉ u
}.

Lemma kalloc_eq me s l : pm_inv s l -> exists s', kalloc me s = Ret (hd 0 l, s') /\ pm_inv s' (tail l).
Proof.
  intros HI. destruct (wp_returns (kalloc me) (fun p s' => p = hd 0 l /\ pm_inv s' (tail l)) s)
    as (p & s' & E & -> & HI'); [by eapply kalloc_ok | eauto].
Qed.

Lemma kfree_eq me s l v : pm_inv s l -> v ∉ l -> is_page v ->
  exists s', kfree me v s = Ret (tt, s') /\ pm_inv s' (v :: l).
Proof.
  intros HI Hv Hp. destruct (wp_returns (kfree me v) (fun _ s' => pm_inv s' (v :: l)) s)
    as ([] & s' & E & HI'); [by eapply kfree_ok | eauto].
Qed.

Lemma partition_step me all s u l s' u' : Forall is_page all ->
  partition all s u l -> pm_step me (s, u) (s', u') -> exists l', partition all s' u' l'.
Proof.
  intros Hall [HI Ha Hd] Hs. inversion Hs as [s0 u0 p s1 Hk|s0 u0 p s1 Hp Hk]; subst; clear Hs.
  - destruct (kalloc_eq me s l HI) as (s2 & Hk2 & HI2). rewrite Hk in Hk2. injection Hk2 as -> ->.
    exists (tail l). destruct l as [|p l]; cbn in *; [by split |].
    pose proof (pm_pages _ _ HI) as [Hpp _]%Forall_cons. destruct (Z.eqb_spec p 0); [by destruct Hpp; lia |].
    pose proof (pm_nodup _ _ HI) as [Hnl _]%NoDup_cons. split; [done | |].
    + intros q. rewrite Ha, elem_of_cons, elem_of_union, elem_of_singleton. tauto.
    + intros q Hq. rewrite elem_of_union, elem_of_singleton. intros [->|Hu]; [done |].
      apply (Hd q); [by right | done].
  - assert (p ∉ l) as Hpl by (intros Hin; by apply (Hd p)).
    assert (is_page p) as Hpp by (eapply Forall_forall; [exact Hall |]; apply Ha; by right).
    destruct (kfree_eq me s l p HI Hpl Hpp) as (s2 & Hk2 & HI2). rewrite Hk in Hk2. injection Hk2 as ->.
    exists (p :: l). split; [done | |].
    + intros q. rewrite Ha, elem_of_cons, elem_of_difference, elem_of_singleton.
      destruct (decide (q = p)) as [->|]; tauto.
    + intros q [->|Hq]%elem_of_cons; rewrite elem_of_difference, elem_of_singleton; [tauto |].
      intros [Hu _]. by apply (Hd q).
Qed.

Lemma partition_run me all x y : Forall is_page all -> rtc (pm_step me) x y ->
  (exists l, partition all x.1 x.2 l) -> exists l, partition all y.1 y.2 l.
Proof.
  intros Hall Hr. induction Hr as [|[s u] [s1 u1] z Hs _ IH]; [done |].
  intros [l Hl]. apply IH. by eapply partition_step.
Qed.

(** C37: after boot, whatever sequence of kalloc and kfree (of pages in use) has
    run, the page-aligned frames between the end of the kernel image and the top
    of memory are exactly the free pages and the pages in use, no page is both,
    and kalloc returns NULL only when no page is free. *)
Theorem physical_memory_partition (me kend : Z) (w : Z -> Z) (Hk : KSPACE_MASK < kend <= P2K phystop) :
  exists s0, init_memory_manager frames kend (bss_pmem w) = Ret (tt, s0) /\
  forall s u, rtc (pm_step me) (s0, ∅) (s, u) ->
  exists free, pm_inv s free /\
    (forall p, p ∈ free \/ p ∈ u <-> p mod PAGE_SIZE = 0 /\ kend <= p /\ p + PAGE_SIZE <= P2K phystop) /\
    (forall p, p ∈ free -> p ∉ u) /\
    exists p s', kalloc me s = Ret (p, s') /\ (p = 0 <-> free = []).
Proof.
  destruct (wp_returns (init_memory_manager frames kend) (fun _ s => pm_inv s (rev (machine_pages kend)))
    (bss_pmem w)) as ([] & s0 & E0 & W); [by apply init_memory_manager_ok |].
  exists s0. split; [exact E0 |]. intros s u Hr.
  apply (partition_run me (rev (machine_pages kend))) in Hr as [l [HI Ha Hd]]; cbn in *.
  - exists l. split; [done |]. split; [| split; [done |]].
    + intros p. rewrite <- Ha, list_elem_of_In, <- in_rev, <- list_elem_of_In. by apply elem_of_machine_pages.
    + destruct (kalloc_eq me s l HI) as (s' & E & _). exists (hd 0 l), s'. split; [done |].
      destruct l as [|p l]; [done |]. cbn. split; [| done]. intros ->.
      pose proof (pm_pages _ _ HI) as [[]%proj1 _]%Forall_cons. lia.
  - apply (pm_pages _ _ W).
  - exists (rev (machine_pages kend)). split; [exact W | |]; intros p.
    + split; [by left |]. intros [|?%not_elem_of_empty]; done.
    + intros _. apply not_elem_of_empty.
Qed.

(** A kernel that leaves two frames: both are handed out, then kalloc fails. *)
Lemma physical_memory_partition_witness :
  exists s0, init_memory_manager frames (P2K phystop - 8200) (bss_pmem (fun _ => 7)) = Ret (tt, s0) /\
  exists free, pm_inv s0 free /\ forall p, p ∈ free -> P2K phystop - 8200 <= p.
Proof.
  destruct (physical_memory_partition 0 (P2K phystop - 8200) (fun _ => 7)) as (s0 & E & H).
  - vm_compute. split; [reflexivity | discriminate].
  - exists s0. split; [exact E |]. destruct (H s0 ∅ (rtc_refl _ _)) as (free & HI & Hp & _).
    exists free. split; [exact HI |]. intros p Hf. apply (Hp p). left. exact Hf.
Defined.
