(* ===== verification/Arena.v ===== *)
(** core/arena.h and core/arena.c: pools of objects of one size, carved out of
    pages.

    The ring of pages is the list of pages met from [arena->pages] on (see
    ListNode.v for the pointers); the page allocator is the interface
    [PageAllocator], the record of function pointers of the source, implemented
    by PhysMem.v.  The arena in turn implements [ObjectArena], which is all the
    block cache and the inode layer know about it. *)
From S2P Require Import Prelude Bytes CString Bitmap Locks PhysMem.

(** * Interfaces *)

(** [ArenaPageAllocator]; [pa_inv s l] says that the pages [l] are free. *)
Class PageAllocator (P : Type) := {
  allocate : M P Z;
  free_page : Z -> M P unit;
  pa_inv : P -> list Z -> Prop;
  pa_pages : forall s l, pa_inv s l -> Forall is_page l /\ NoDup l;
  allocate_ok : forall s l, pa_inv s l -> exists s', allocate s = Ret (hd 0 l, s') /\ pa_inv s' (tail l);
  free_page_ok : forall s l p, pa_inv s l -> p ∉ l -> is_page p ->
    exists s', free_page p s = Ret (tt, s') /\ pa_inv s' (p :: l)
}.

(** What the users of an arena rely on: [ar_inv a live r] says that the objects
    [live] are allocated and that there is room for [r] more. *)
Class ObjectArena (A : Type) := {
  obj_alloc : A -> outcome (Z * A);
  obj_free : Z -> A -> outcome (unit * A);
  ar_inv : A -> gset Z -> nat -> Prop;
  obj_alloc_ok : forall a L r, ar_inv a L (S r) ->
    exists p a', obj_alloc a = Ret (p, a') /\ p <> 0 /\ p ∉ L /\ ar_inv a' ({[p]} ∪ L) r;
  obj_free_ok : forall a L r p, ar_inv a L r -> p ∈ L ->
    exists a', obj_free p a = Ret (tt, a') /\ ar_inv a' (L ∖ {[p]}) (S r)
}.

(** The kernel's page allocator, on CPU [me]. *)
Definition kernel_pages (me : Z) : PageAllocator pmem.
Proof.
  refine {| allocate := kalloc me; free_page := kfree me; pa_inv := pm_inv |}.
  - intros s l HI. by destruct HI.
  - intros s l HI. by apply kalloc_eq.
  - intros s l p HI Hp Hpg. by apply kfree_eq.
Defined.

(** * Definitions *)

Definition ARENA_PAGE_SIZE : Z := PAGE_SIZE.
Definition ARENA_MIN_OBJECT_SIZE : Z := 16.
Definition ARENA_BITMAP_SIZE : Z := ARENA_PAGE_SIZE / ARENA_MIN_OBJECT_SIZE.
(** A pointer, a list node, 256 bits and a counter. *)
Definition sizeof_ArenaPage : Z := 8 + 16 + 32 + 8.
Definition ARENA_PAGE_CAPACITY : Z := ARENA_PAGE_SIZE - sizeof_ArenaPage.

Record ArenaPage := mkPage { paddr : Z; used : list Z; pcount : Z }.

Record Arena (P : Type) := mkArena {
  alock : SpinLock;
  allocator : P;
  object_size : Z;
  max_count : Z;
  apages : list ArenaPage;
  num_objects : Z;
  num_pages : Z
}.
Arguments mkArena {P}.
Arguments alock {P}.
Arguments allocator {P}.
Arguments object_size {P}.
Arguments max_count {P}.
Arguments apages {P}.
Arguments num_objects {P}.
Arguments num_pages {P}.

Definition init_arena {P} (objsize : Z) (al : P) : outcome (Arena P) :=
  if negb (objsize >=? ARENA_MIN_OBJECT_SIZE) then Panic "object_size is too small" else
  if negb (objsize <=? ARENA_PAGE_CAPACITY) then Panic "object_size is too large" else
  Ret (mkArena init_spinlock al objsize (ARENA_PAGE_CAPACITY / objsize) [] 0 0).

Definition init_arena_page (p : Z) : ArenaPage := mkPage p (init_bitmap ARENA_BITMAP_SIZE) 0.

(** [page->data + index * arena->object_size]. *)
Definition object_at (size : Z) (page : ArenaPage) (index : Z) : Z :=
  paddr page + sizeof_ArenaPage + index * size.

Definition get_container_page (object : Z) : Z := round_down object ARENA_PAGE_SIZE.

Section ops.
Context {P : Type} `{PageAllocator P} (me : Z).

Definition set_alock (l : SpinLock) (a : Arena P) : Arena P :=
  mkArena l (allocator a) (object_size a) (max_count a) (apages a) (num_objects a) (num_pages a).
Definition set_allocator (x : P) (a : Arena P) : Arena P :=
  mkArena (alock a) x (object_size a) (max_count a) (apages a) (num_objects a) (num_pages a).
Definition set_apages (l : list ArenaPage) (a : Arena P) : Arena P :=
  mkArena (alock a) (allocator a) (object_size a) (max_count a) l (num_objects a) (num_pages a).
Definition set_num_objects (n : Z) (a : Arena P) : Arena P :=
  mkArena (alock a) (allocator a) (object_size a) (max_count a) (apages a) n (num_pages a).
Definition set_num_pages (n : Z) (a : Arena P) : Arena P :=
  mkArena (alock a) (allocator a) (object_size a) (max_count a) (apages a) (num_objects a) n.

Definition lock_arena : M (Arena P) unit :=
  a ← get; l ← lift (acquire_spinlock me (alock a)); modify (set_alock l).
Definition unlock_arena : M (Arena P) unit :=
  a ← get; l ← lift (release_spinlock me (alock a)); modify (set_alock l).

(** A call through the allocator of the arena. *)
Definition with_allocator {B} (c : M P B) : M (Arena P) B :=
  a ← get; '(b, x) ← lift (c (allocator a)); modify (set_allocator x);; mret b.

(** The new page becomes the head of the ring. *)
Definition insert_page (page : ArenaPage) : M (Arena P) unit :=
  modify (fun a => set_apages (page :: apages a) a).

Definition add_page : M (Arena P) Z :=
  page ← with_allocator allocate;
  assert (page mod ARENA_PAGE_SIZE =? 0) "page address must be aligned on ARENA_PAGE_SIZE";;
  (if negb (page =? 0) then
     insert_page (init_arena_page page);;
     modify (fun a => set_num_pages (u64 (num_pages a + 1)) a)
   else mret tt);;
  mret page.

(** The first clear bit among [n] bits from [index]. *)
Fixpoint find_free_slot (bm : list Z) (index : Z) (n : nat) : option Z :=
  match n with
  | O => None
  | S n' => if negb (bitmap_get bm index) then Some index else find_free_slot bm (index + 1) n'
  end.

Definition alloc_object : M (Arena P) Z :=
  lock_arena;;
  a ← get;
  (if match apages a with [] => true | page :: _ => pcount page >=? max_count a end
   then _ ← add_page; mret tt else mret tt);;
  a ← get;
  object ←
    match apages a with
    | [] => fault
    | page :: rest =>
        match find_free_slot (used page) 0 (Z.to_nat (max_count a)) with
        | None => panic "arena failed to allocate object"
        | Some index =>
            let page' := mkPage (paddr page) (bitmap_set (used page) index) (u64 (pcount page + 1)) in
            modify (fun a => set_num_objects (u64 (num_objects a + 1)) a);;
            modify (set_apages (if pcount page' >=? max_count a then rest ++ [page'] else page' :: rest));;
            mret (object_at (object_size a) page index)
        end
    end;
  unlock_arena;;
  mret object.

Fixpoint page_at (p : Z) (l : list ArenaPage) : option ArenaPage :=
  match l with
  | [] => None
  | page :: l' => if paddr page =? p then Some page else page_at p l'
  end.

(** [page] at the head of the ring, its old position closed. *)
Definition move_page_to_head (page : ArenaPage) (l : list ArenaPage) : list ArenaPage :=
  page :: filter (fun q => paddr q <> paddr page) l.

Definition free_object (object : Z) : M (Arena P) unit :=
  a ← get;
  page ← match page_at (get_container_page object) (apages a) with Some p => mret p | None => fault end;
  lock_arena;;
  let offset := u64 (object - (paddr page + sizeof_ArenaPage)) in
  assert (offset mod object_size a =? 0) "unexpected object offset";;
  let index := offset / object_size a in
  (if index <? ARENA_BITMAP_SIZE then mret tt else fault);;
  assert (bitmap_get (used page) index) "double free object";;
  let page' := mkPage (paddr page) (bitmap_clear (used page) index) (u64 (pcount page - 1)) in
  modify (fun a => set_num_objects (u64 (num_objects a - 1)) a);;
  modify (set_apages (move_page_to_head page' (apages a)));;
  unlock_arena.

Fixpoint free_all (l : list ArenaPage) : M (Arena P) unit :=
  match l with
  | [] => mret tt
  | page :: l' => with_allocator (free_page (paddr page));; free_all l'
  end.

Definition clear_arena : M (Arena P) unit :=
  lock_arena;;
  a ← get;
  match apages a with
  | [] => mret tt
  | _ =>
      free_all (apages a);;
      modify (set_apages []);;
      modify (set_num_objects 0);;
      modify (set_num_pages 0)
  end;;
  unlock_arena.
End ops.

(** * Invariant *)

(** The slots in use among the first [n]. *)
Definition slots (bm : list Z) (n : Z) : gset Z :=
  list_to_set (filter (fun i => bitmap_get bm i = true) (seqZ 0 n)).

Lemma elem_of_slots bm n i : i ∈ slots bm n <-> 0 <= i < n /\ bitmap_get bm i = true.
Proof.
  unfold slots. rewrite elem_of_list_to_set, list_elem_of_filter, elem_of_seqZ. intuition lia.
Qed.

Lemma size_slots_le bm n : 0 <= n -> Z.of_nat (size (slots bm n)) <= n.
Proof.
  intros Hn. unfold slots. rewrite size_list_to_set by (apply NoDup_filter, NoDup_seqZ).
  pose proof (length_filter (fun i => bitmap_get bm i = true) (seqZ 0 n)) as Hl.
  rewrite length_seqZ in Hl. lia.
Qed.

(** Fewer than [n] slots in use: one is free. *)
Lemma slot_free bm n : Z.of_nat (size (slots bm n)) < n -> exists i, 0 <= i < n /\ bitmap_get bm i = false.
Proof.
  intros Hlt. destruct (decide (Forall (fun i => bitmap_get bm i = true) (seqZ 0 n))) as [Hall|Hex].
  - exfalso. assert (list_to_set (seqZ 0 n) ⊆ slots bm n) as Hsub%subseteq_size.
    { intros i. rewrite elem_of_list_to_set, elem_of_slots. intros Hi. split; [apply elem_of_seqZ in Hi; lia |].
      eapply Forall_forall in Hall; done. }
    rewrite size_list_to_set, length_seqZ in Hsub by apply NoDup_seqZ. lia.
  - apply not_Forall_Exists in Hex; [| tc_solve]. apply Exists_exists in Hex as (i & Hi & Hb).
    apply elem_of_seqZ in Hi. exists i. split; [lia |]. by apply not_true_is_false.
Qed.

Lemma find_free_slot_ok bm n : forall i,
  match find_free_slot bm i n with
  | Some j => i <= j < i + Z.of_nat n /\ bitmap_get bm j = false /\ forall k, i <= k < j -> bitmap_get bm k = true
  | None => forall k, i <= k < i + Z.of_nat n -> bitmap_get bm k = true
  end.
Proof.
  induction n as [|n IH]; intros i; cbn; [lia |].
  destruct (bitmap_get bm i) eqn:Hi; cbn.
  - specialize (IH (i + 1)). destruct (find_free_slot bm (i + 1) n) as [j|].
    + destruct IH as (Hj & Hb & Hk). split_and!; [lia | lia | done |]. intros k Hk'.
      destruct (decide (k = i)) as [->|]; [done |]. apply Hk. lia.
    + intros k Hk. destruct (decide (k = i)) as [->|]; [done |]. apply IH. lia.
  - split_and!; [lia | lia | done | lia].
Qed.

Section inv.
Context {P : Type} `{PageAllocator P} (me : Z).
Implicit Types (a : Arena P) (pg : ArenaPage) (l : list ArenaPage).

(** A page of an arena with [m] slots: its counter counts its slots. *)
Record page_ok (m : Z) pg : Prop := {
  pk_addr : is_page (paddr pg);
  pk_bits : bitmap_wf (used pg) ARENA_BITMAP_SIZE;
  pk_count : pcount pg = Z.of_nat (size (slots (used pg) m))
}.

Definition full (m : Z) pg : Prop := pcount pg = m.

(** Pages with free slots come first in the ring. *)
Definition front_free (m : Z) l : Prop :=
  exists l1 l2, l = l1 ++ l2 /\ Forall (fun pg => pcount pg < m) l1 /\ Forall (full m) l2.

(** The object of slot [i] of [pg]. *)
Definition is_object (sz m : Z) l (p : Z) : Prop :=
  exists pg i, pg ∈ l /\ i ∈ slots (used pg) m /\ p = object_at sz pg i.

Definition total l : Z := foldr (fun pg n => pcount pg + n) 0 l.

(** [free] are the pages left in the allocator. *)
Record arena_body a (L : gset Z) (free : list Z) : Prop := {
  av_size : ARENA_MIN_OBJECT_SIZE <= object_size a <= ARENA_PAGE_CAPACITY;
  av_max : max_count a = ARENA_PAGE_CAPACITY / object_size a;
  av_pages : Forall (page_ok (max_count a)) (apages a);
  av_nodup : NoDup (paddr <$> apages a);
  av_front : front_free (max_count a) (apages a);
  av_live : forall p, p ∈ L <-> is_object (object_size a) (max_count a) (apages a) p;
  av_free : pa_inv (allocator a) free;
  av_disj : forall p, p ∈ paddr <$> apages a -> p ∉ free;
  av_objs : num_objects a = total (apages a);
  av_npages : num_pages a = Z.of_nat (length (apages a))
}.

Definition arena_inv a (L : gset Z) (free : list Z) : Prop :=
  alock a = init_spinlock /\ arena_body a L free.

(** Objects that can still be allocated. *)
Definition room a (free : list Z) : Z :=
  max_count a * Z.of_nat (length (apages a) + length free) - total (apages a).

(** ** Arithmetic of slots *)

Lemma max_count_bound a L free : arena_body a L free ->
  1 <= max_count a <= 252 /\ max_count a * object_size a <= ARENA_PAGE_CAPACITY.
Proof.
  intros HI. pose proof (av_size _ _ _ HI) as Hs. rewrite (av_max _ _ _ HI).
  change ARENA_PAGE_CAPACITY with 4032 in *. unfold ARENA_MIN_OBJECT_SIZE in Hs.
  pose proof (Z.mul_div_le 4032 (object_size a) ltac:(lia)).
  assert (1 <= 4032 / object_size a) by (apply Z.div_le_lower_bound; lia).
  assert (4032 / object_size a <= 252) by (apply Z.div_le_upper_bound; lia). lia.
Qed.

Lemma total_bound m l : 0 <= m -> Forall (page_ok m) l -> 0 <= total l <= m * Z.of_nat (length l).
Proof.
  intros Hm Hl. induction Hl as [|pg l Hpg Hl IH]; cbn [total foldr length]; [lia |].
  fold (total l). pose proof (size_slots_le (used pg) m Hm). rewrite (pk_count _ _ Hpg). lia.
Qed.

(** The page and the slot of an object are determined by its address. *)
Lemma object_at_inj sz m pg pg' i i' :
  16 <= sz -> m * sz <= ARENA_PAGE_CAPACITY -> is_page (paddr pg) -> is_page (paddr pg') ->
  0 <= i < m -> 0 <= i' < m -> object_at sz pg i = object_at sz pg' i' -> paddr pg = paddr pg' /\ i = i'.
Proof.
  intros Hsz Hm [Hp Hpm] [Hp' Hpm'] Hi Hi' E. unfold object_at in E.
  change sizeof_ArenaPage with 64 in *. change ARENA_PAGE_CAPACITY with 4032 in *. unfold PAGE_SIZE in *.
  assert (0 <= i * sz /\ i * sz + sz <= 4032) by nia. assert (0 <= i' * sz /\ i' * sz + sz <= 4032) by nia.
  assert (paddr pg = paddr pg') by dlia. split; [done |]. nia.
Qed.
Lemma slots_set bm m i : bitmap_wf bm ARENA_BITMAP_SIZE -> m <= ARENA_BITMAP_SIZE -> 0 <= i < m ->
  bitmap_get bm i = false ->
  slots (bitmap_set bm i) m = {[i]} ∪ slots bm m /\ size (slots (bitmap_set bm i) m) = S (size (slots bm m)).
Proof.
  intros Hwf Hm Hi Hb. assert (slots (bitmap_set bm i) m = {[i]} ∪ slots bm m) as E.
  { apply set_eq. intros j. rewrite elem_of_union, elem_of_singleton, !elem_of_slots.
    split; [intros [Hj Hg] | intros [->|[Hj Hg]]].
    - rewrite (bitmap_get_set bm ARENA_BITMAP_SIZE) in Hg by (done || lia).
      destruct (decide (j = i)) as [->|Hne]; [by left |]. right. split; [done |].
      destruct (Z.eqb_spec i j); [congruence | done].
    - split; [done |]. rewrite (bitmap_get_set bm ARENA_BITMAP_SIZE) by (done || lia). by rewrite Z.eqb_refl.
    - split; [done |]. rewrite (bitmap_get_set bm ARENA_BITMAP_SIZE) by (done || lia).
      destruct (i =? j); done. }
  split; [done |]. rewrite E, size_union, size_singleton; [done |].
  intros j. rewrite elem_of_singleton, elem_of_slots. intros -> [_ Hj]. congruence.
Qed.
Lemma slots_clear bm m i : bitmap_wf bm ARENA_BITMAP_SIZE -> m <= ARENA_BITMAP_SIZE -> 0 <= i < m ->
  bitmap_get bm i = true ->
  slots (bitmap_clear bm i) m = slots bm m ∖ {[i]} /\ size (slots bm m) = S (size (slots (bitmap_clear bm i) m)).
Proof.
  intros Hwf Hm Hi Hb. assert (slots (bitmap_clear bm i) m = slots bm m ∖ {[i]}) as E.
  { apply set_eq. intros j. rewrite elem_of_difference, elem_of_singleton, !elem_of_slots.
    split; [intros [Hj Hg] | intros [[Hj Hg] Hne]].
    - rewrite (bitmap_get_clear bm ARENA_BITMAP_SIZE) in Hg by (done || lia).
      destruct (Z.eqb_spec i j); [done |]. split; [done |]. congruence.
    - split; [done |]. rewrite (bitmap_get_clear bm ARENA_BITMAP_SIZE) by (done || lia).
      destruct (Z.eqb_spec i j); [congruence | done]. }
  split; [done |]. rewrite E. assert (slots bm m = {[i]} ∪ slots bm m ∖ {[i]}) as E2.
  { apply union_difference_L. apply singleton_subseteq_l. by apply elem_of_slots. }
  rewrite E2 at 1. rewrite size_union, size_singleton; [done |]. set_solver.
Qed.

(** There are few pages, so no counter wraps. *)
Lemma page_list_bound (l : list Z) : Forall is_page l -> NoDup l -> Z.of_nat (length l) < 2 ^ 53.
Proof.
  intros Hp Hd. rewrite <- (length_fmap (fun p => p / PAGE_SIZE)).
  enough (Z.of_nat (length ((fun p => p / PAGE_SIZE) <$> l)) <= 2 ^ 52) by lia.
  apply NoDup_bounded_length; [| lia |].
  - clear -Hp Hd. induction Hd as [|p l Hpl Hd IH]; [apply NoDup_nil_2 |].
    apply Forall_cons in Hp as [[Hp1 Hp2] Hp]. rewrite fmap_cons. apply NoDup_cons. split; [| by apply IH].
    intros (q & E & Hq)%list_elem_of_fmap. apply Hpl. replace p with q; [done |].
    assert (is_page q) as [Hq1 Hq2] by (eapply Forall_forall in Hp; done).
    unfold PAGE_SIZE in *. dlia.
  - intros x (q & -> & Hq)%list_elem_of_fmap.
    assert (is_page q) as [Hq1 Hq2] by (eapply Forall_forall in Hp; done).
    unfold PAGE_SIZE in *. dlia.
Qed.

Lemma arena_counts a L free : arena_body a L free ->
  Z.of_nat (length (apages a)) < 2 ^ 53 /\ 0 <= total (apages a) < 2 ^ 61.
Proof.
  intros HI. pose proof (max_count_bound _ _ _ HI) as [Hm _].
  assert (Z.of_nat (length (apages a)) < 2 ^ 53).
  { rewrite <- (length_fmap paddr). apply page_list_bound; [| apply HI].
    apply Forall_fmap. eapply Forall_impl; [apply HI |]. intros pg Hpg. apply Hpg. }
  pose proof (total_bound (max_count a) (apages a) ltac:(lia) (av_pages _ _ _ HI)). nia.
Qed.

Lemma total_app l1 l2 : total (l1 ++ l2) = total l1 + total l2.
Proof. induction l1 as [|pg l1 IH]; [done |]. cbn. fold (total (l1 ++ l2)) (total l1). lia. Qed.
Lemma total_perm l l' : l ≡ₚ l' -> total l = total l'.
Proof.
  induction 1; cbn; repeat match goal with |- context [foldr _ 0 ?x] => fold (total x) end; lia.
Qed.

Lemma is_object_perm sz m l l' p : l ≡ₚ l' -> is_object sz m l p -> is_object sz m l' p.
Proof. intros Hl (pg & i & Hpg & Hi). exists pg, i. by rewrite <- Hl. Qed.

(** One page of the ring replaced by another state of it, the ring possibly
    rotated. *)
Lemma body_replace a L L' free pg pg' rest l' :
  arena_body a L free -> apages a ≡ₚ pg :: rest -> l' ≡ₚ pg' :: rest -> paddr pg' = paddr pg ->
  page_ok (max_count a) pg' -> front_free (max_count a) l' ->
  (forall p, p ∈ L' <-> is_object (object_size a) (max_count a) (pg' :: rest) p) ->
  arena_body (set_apages l' (set_num_objects (total l') a)) L' free.
Proof.
  intros HI Ha Hl' Hp Hok Hff HL. destruct HI as [Hsz Hmx Hpg Hnd _ _ Hfr Hdj _ Hnp].
  assert (Epa : paddr <$> l' ≡ₚ paddr <$> apages a).
  { rewrite Hl', Ha, !fmap_cons. by rewrite Hp. }
  split; cbn; try done.
  - rewrite Hl'. rewrite Ha in Hpg. apply Forall_cons in Hpg as [_ Hpg]. by apply Forall_cons.
  - by rewrite Epa.
  - intros p. rewrite HL. split; apply is_object_perm; by rewrite Hl'.
  - intros p. rewrite Epa. apply Hdj.
  - rewrite Hnp, Ha, Hl'. done.
Qed.

Lemma front_free_head m pg rest : front_free m (pg :: rest) -> pcount pg < m ->
  exists l1 l2, rest = l1 ++ l2 /\ Forall (fun q => pcount q < m) l1 /\ Forall (full m) l2.
Proof.
  intros ([|q l1] & l2 & E & H1 & H2) Hlt; cbn in E.
  - subst. apply Forall_cons in H2 as [H2 _]. unfold full in H2. lia.
  - injection E as -> ->. apply Forall_cons in H1 as [_ H1]. eauto.
Qed.

(** An address names one page and one slot of a ring. *)
Lemma object_slot a L free pg i q j :
  arena_body a L free -> pg ∈ apages a -> q ∈ apages a -> 0 <= i < max_count a -> 0 <= j < max_count a ->
  object_at (object_size a) pg i = object_at (object_size a) q j -> pg = q /\ i = j.
Proof.
  intros HI Hpg Hq Hi Hj E. destruct (max_count_bound _ _ _ HI) as [Hm Hmsz].
  pose proof (av_size _ _ _ HI) as [Hsz _]. unfold ARENA_MIN_OBJECT_SIZE in Hsz.
  assert (Hpage : forall x, x ∈ apages a -> is_page (paddr x)).
  { intros x Hx. pose proof (av_pages _ _ _ HI) as Hf. eapply Forall_forall in Hf; [apply Hf | done]. }
  destruct (object_at_inj _ (max_count a) pg q i j Hsz Hmsz) as [Eq Eij]; auto.
  split; [| done]. pose proof (av_nodup _ _ _ HI) as Hnd. clear -Hnd Hpg Hq Eq.
  induction (apages a) as [|x l IH]; [by apply not_elem_of_nil in Hpg |].
  rewrite fmap_cons in Hnd. apply NoDup_cons in Hnd as [Hx Hnd].
  apply elem_of_cons in Hpg as [->|Hpg]; apply elem_of_cons in Hq as [->|Hq]; auto.
  - destruct Hx. rewrite Eq. by apply list_elem_of_fmap_2.
  - destruct Hx. rewrite <- Eq. by apply list_elem_of_fmap_2.
Qed.

(** The objects of a ring in which one page has changed. *)
Lemma is_object_cons sz m pg rest p :
  is_object sz m (pg :: rest) p <->
  (exists j, j ∈ slots (used pg) m /\ p = object_at sz pg j) \/ is_object sz m rest p.
Proof.
  split.
  - intros (q & j & [->|Hq]%elem_of_cons & Hj & ->); [left | right]; [by exists j | by exists q, j].
  - intros [(j & Hj & ->)|(q & j & Hq & Hj & ->)].
    + exists pg, j. split_and!; [left | done | done].
    + exists q, j. split_and!; [by right | done | done].
Qed.

(** Slot [i] of the head page taken. *)
Section alloc.
Context a (L : gset Z) (free : list Z) pg (rest : list ArenaPage) (i : Z).
Context (HI : arena_body a L free) (Ha : apages a = pg :: rest) (Hlt : pcount pg < max_count a).
Context (Hi : 0 <= i < max_count a) (Hb : bitmap_get (used pg) i = false).
Let pg' := mkPage (paddr pg) (bitmap_set (used pg) i) (pcount pg + 1).
Let l' := if pcount pg' >=? max_count a then rest ++ [pg'] else pg' :: rest.
Let p := object_at (object_size a) pg i.

Lemma alloc_page : page_ok (max_count a) pg /\
  slots (used pg') (max_count a) = {[i]} ∪ slots (used pg) (max_count a) /\ page_ok (max_count a) pg'.
Proof.
  destruct (max_count_bound _ _ _ HI) as [Hm _].
  pose proof (av_pages _ _ _ HI) as Hpg. rewrite Ha in Hpg. apply Forall_cons in Hpg as [Hok _].
  destruct (slots_set (used pg) (max_count a) i (pk_bits _ _ Hok)
    ltac:(change ARENA_BITMAP_SIZE with 256; lia) Hi Hb) as [Es En].
  split_and!; [done | done |]. destruct Hok as [Hpa Hpb Hpc].
  split; cbn; [done | by apply bitmap_set_wf; [| change ARENA_BITMAP_SIZE with 256; lia] |].
  rewrite En. lia.
Qed.

Lemma alloc_new : p ∉ L.
Proof.
  rewrite (av_live _ _ _ HI). intros (q & j & Hq & [Hj Hbj]%elem_of_slots & E).
  destruct (object_slot a L free pg i q j HI) as [-> ->]; auto; [rewrite Ha; left | congruence].
Qed.

Lemma alloc_perm : l' ≡ₚ pg' :: rest.
Proof. unfold l'. destruct (_ >=? _); [by rewrite Permutation_app_comm | done]. Qed.

Lemma alloc_front : front_free (max_count a) l'.
Proof.
  pose proof (av_front _ _ _ HI) as Hff. rewrite Ha in Hff.
  destruct (front_free_head _ _ _ Hff Hlt) as (l1 & l2 & Er & H1 & H2).
  unfold l'. rewrite Er. cbn. destruct (Z.geb_spec (pcount pg + 1) (max_count a)) as [Hge|Hge].
  - exists l1, (l2 ++ [pg']). rewrite app_assoc. split_and!; [done | done |].
    apply Forall_app. split; [done |]. apply Forall_singleton. unfold full. cbn. lia.
  - exists (pg' :: l1), l2. split_and!; [done | | done]. apply Forall_cons. cbn. split; [lia | done].
Qed.

Lemma body_alloc : total l' = total (apages a) + 1 /\ length l' = length (apages a) /\
  arena_body (set_apages l' (set_num_objects (total l') a)) ({[p]} ∪ L) free.
Proof.
  destruct alloc_page as (_ & Es & Hok'). split; [| split].
  - rewrite (total_perm _ _ alloc_perm), Ha. cbn. lia.
  - rewrite alloc_perm, Ha. done.
  - eapply (body_replace a L _ free pg pg' rest);
      [done | by rewrite Ha | apply alloc_perm | done | done | apply alloc_front |].
    intros q. rewrite elem_of_union, elem_of_singleton, (av_live _ _ _ HI), Ha, !is_object_cons, Es.
    split.
    + intros [->|[(j & Hj & ->)|Hr]]; [left; exists i; set_solver | left; exists j; set_solver | by right].
    + intros [(j & [->%elem_of_singleton|Hj]%elem_of_union & ->)|Hr]; [by left | right; left; by exists j |].
      right. by right.
Qed.
End alloc.
(** Slot [i] of a page given back; the page becomes the head. *)
Section free.
Context a (L : gset Z) (free : list Z) pg (i : Z).
Context (HI : arena_body a L free) (Hpg : pg ∈ apages a).
Context (Hi : 0 <= i < max_count a) (Hb : bitmap_get (used pg) i = true).
Let pg' := mkPage (paddr pg) (bitmap_clear (used pg) i) (pcount pg - 1).
Let l' := move_page_to_head pg' (apages a).
Let p := object_at (object_size a) pg i.

Lemma free_page_state : page_ok (max_count a) pg /\ 0 < pcount pg <= max_count a /\
  slots (used pg') (max_count a) = slots (used pg) (max_count a) ∖ {[i]} /\ page_ok (max_count a) pg'.
Proof.
  destruct (max_count_bound _ _ _ HI) as [Hm _].
  pose proof (av_pages _ _ _ HI) as Hf. assert (page_ok (max_count a) pg) as Hok by (eapply Forall_forall in Hf; done).
  destruct (slots_clear (used pg) (max_count a) i (pk_bits _ _ Hok)
    ltac:(change ARENA_BITMAP_SIZE with 256; lia) Hi Hb) as [Es En].
  pose proof (size_slots_le (used pg) (max_count a) ltac:(lia)).
  destruct Hok as [Hpa Hpb Hpc]. split_and!; [done | lia | lia | done |].
  split; cbn; [done | by apply bitmap_clear_wf; [| change ARENA_BITMAP_SIZE with 256; lia] |]. lia.
Qed.

Lemma filter_page_perm l : NoDup (paddr <$> l) -> pg ∈ l ->
  l ≡ₚ pg :: filter (fun q => paddr q <> paddr pg') l.
Proof.
  induction l as [|x l IH]; [by intros _ ?%not_elem_of_nil |].
  rewrite fmap_cons. intros [Hx Hnd]%NoDup_cons [<-|Hin]%elem_of_cons.
  - rewrite filter_cons_False by (cbn; auto). f_equiv. rewrite filter_all; [done |].
    intros y Hy E. apply Hx. cbn in E. rewrite <- E. by apply list_elem_of_fmap_2.
  - rewrite filter_cons_True; [rewrite (IH Hnd Hin) at 1; by constructor |].
    cbn. intros E. apply Hx. rewrite E. by apply list_elem_of_fmap_2.
Qed.

Lemma free_front : front_free (max_count a) l'.
Proof.
  destruct (av_front _ _ _ HI) as (l1 & l2 & E & H1 & H2). unfold l', move_page_to_head. rewrite E, filter_app.
  destruct free_page_state as (_ & Hc & _).
  eexists (pg' :: filter _ l1), (filter _ l2). split; [reflexivity |]. split.
  - apply Forall_cons. split; [cbn; lia |]. by apply Forall_filter.
  - by apply Forall_filter.
Qed.

Lemma body_free : p ∈ L /\ total l' = total (apages a) - 1 /\ length l' = length (apages a) /\
  arena_body (set_apages l' (set_num_objects (total l') a)) (L ∖ {[p]}) free.
Proof.
  destruct free_page_state as (Hok & Hc & Es & Hok').
  set (rest := filter (fun q => paddr q <> paddr pg') (apages a)).
  pose proof (filter_page_perm _ (av_nodup _ _ _ HI) Hpg) as Hperm. fold rest in Hperm.
  change l' with (pg' :: rest).
  assert (Hin : i ∈ slots (used pg) (max_count a)) by (by apply elem_of_slots).
  split_and!.
  - apply (av_live _ _ _ HI). by exists pg, i.
  - rewrite (total_perm _ _ Hperm). cbn. lia.
  - rewrite Hperm. done.
  - eapply (body_replace a L _ free pg pg' rest); [done | done | done | done | done | apply free_front |].
    intros q. rewrite elem_of_difference, elem_of_singleton, (av_live _ _ _ HI), is_object_cons, Es.
    split.
    + intros [Hq Hne]. apply (is_object_perm _ _ _ _ _ Hperm), is_object_cons in Hq as [(j & Hj & ->)|Hr];
        [left | by right]. exists j. split; [| done]. apply elem_of_difference. split; [done |].
      intros ->%elem_of_singleton. by apply Hne.
    + intros [(j & [Hj Hne]%elem_of_difference & ->)|(r & j & Hr & Hj & ->)].
      * split; [by exists pg, j |]. intros E. apply Hne. apply elem_of_slots in Hj as [Hj _].
        destruct (object_slot a L free pg j pg i HI) as [_ ->]; auto. by apply elem_of_singleton.
      * apply list_elem_of_filter in Hr as [Hne Hr]. split; [by exists r, j |]. intros E.
        apply elem_of_slots in Hj as [Hj _]. destruct (object_slot a L free r j pg i HI) as [-> _]; auto.
Qed.
End free.
(** ** Adding a page *)

Lemma slots_empty m : slots (init_bitmap ARENA_BITMAP_SIZE) m = ∅.
Proof.
  apply set_eq. intros i. rewrite elem_of_slots, init_bitmap_get. set_solver.
Qed.

Lemma body_add a L q free x : arena_body a L (q :: free) -> Forall (full (max_count a)) (apages a) ->
  pa_inv x free ->
  arena_body (set_num_pages (num_pages a + 1)
    (set_apages (init_arena_page q :: apages a) (set_allocator x a))) L free.
Proof.
  intros HI Hfull Hx. destruct (max_count_bound _ _ _ HI) as [Hm _].
  destruct HI as [Hsz Hmx Hpg Hnd Hff Hl Hfr Hdj Hno Hnp].
  destruct (pa_pages _ _ Hfr) as [[Hq _]%Forall_cons [Hqf _]%NoDup_cons].
  split; cbn; try done.
  - apply Forall_cons. split; [| done]. split; cbn; [done | by apply init_bitmap_wf |].
    by rewrite slots_empty, size_empty.
  - apply NoDup_cons. split; [| done]. intros Hin. apply (Hdj q Hin). left.
  - exists [init_arena_page q], (apages a). split_and!; [done | | done]. apply Forall_singleton. cbn. lia.
  - intros p. rewrite Hl, is_object_cons. cbn. rewrite slots_empty. set_solver.
  - intros p [->|Hp]%elem_of_cons; [done |]. intros Hpf. apply (Hdj p Hp). by right.
  - lia.
Qed.

(** A full head page means that every page is full. *)
Lemma full_head a L free : arena_body a L free ->
  match apages a with [] => true | pg :: _ => pcount pg >=? max_count a end = true ->
  Forall (full (max_count a)) (apages a).
Proof.
  intros HI Hh. destruct (av_front _ _ _ HI) as ([|pg l1] & l2 & E & H1 & H2); rewrite E in *; cbn in *; [done |].
  apply Forall_cons in H1 as [H1 _]. destruct (Z.geb_spec (pcount pg) (max_count a)); lia || done.
Qed.

Lemma total_full m l : Forall (full m) l -> total l = m * Z.of_nat (length l).
Proof.
  induction 1 as [|pg l Hpg Hl IH]; [cbn; lia |]. cbn [total foldr length]. fold (total l).
  unfold full in Hpg. lia.
Qed.

Lemma wp_lock_arena E a Q : alock a = init_spinlock ->
  Q tt (set_alock (mkSpin true (Some me)) a) -> wp E (lock_arena me) Q a.
Proof.
  intros Hl HQ. unfold lock_arena. wp_steps. rewrite Hl. eapply wp_lift; [apply acquire_free |]. by apply wp_modify.
Qed.

Lemma wp_unlock_arena E a Q : alock a = mkSpin true (Some me) ->
  Q tt (set_alock init_spinlock a) -> wp E (unlock_arena me) Q a.
Proof.
  intros Hl HQ. unfold unlock_arena. wp_steps. rewrite Hl. eapply wp_lift; [apply release_own |]. by apply wp_modify.
Qed.

Lemma wp_allocator {B} E (c : M P B) a b x Q : c (allocator a) = Ret (b, x) ->
  Q b (set_allocator x a) -> wp E (with_allocator c) Q a.
Proof.
  intros Hc HQ. unfold with_allocator. wp_steps. eapply wp_lift; [exact Hc |]. wp_steps. done.
Qed.

(** The head page has a free slot once [add_page] has run where the code runs it. *)
Lemma make_room_ok E a L free Q : arena_body a L free -> 0 < room a free ->
  (forall a' free' pg rest, arena_body a' L free' -> apages a' = pg :: rest -> pcount pg < max_count a' ->
    alock a' = alock a -> room a' free' = room a free -> object_size a' = object_size a ->
    (apages a' = apages a \/ total (apages a) = max_count a * Z.of_nat (length (apages a))) -> Q tt a') ->
  wp E (if match apages a with [] => true | pg :: _ => pcount pg >=? max_count a end
        then _ ← add_page; mret tt else mret tt) Q a.
Proof.
  intros HI Hr HQ. destruct (arena_counts _ _ _ HI) as [Hlen _]. destruct (max_count_bound _ _ _ HI) as [Hm _].
  destruct (match apages a with [] => true | _ => _ end) eqn:Hh.
  - pose proof (full_head _ _ _ HI Hh) as Hfull. pose proof (total_full _ _ Hfull) as Ht.
    destruct free as [|q free]; [exfalso; unfold room in Hr; cbn in Hr; rewrite Ht in Hr; nia |].
    destruct (allocate_ok _ _ (av_free _ _ _ HI)) as (x & Ex & Hx). cbn in Ex, Hx.
    destruct (pa_pages _ _ (av_free _ _ _ HI)) as [[[Hq0 Hqm] _]%Forall_cons _].
    apply wp_bind. unfold add_page. apply wp_bind. eapply wp_allocator; [exact Ex |].
    apply wp_bind, wp_assert; [apply Z.eqb_eq; exact Hqm |].
    rewrite (proj2 (Z.eqb_neq q 0)) by lia. cbn [negb]. unfold insert_page. wp_steps.
    rewrite u64_small by (cbn; rewrite (av_npages _ _ _ HI); lia).
    eapply (HQ _ _ _ _ (body_add a L q free x HI Hfull Hx)); [done | cbn; lia | done | | done | by right].
    unfold room. cbn. fold (total (apages a)). lia.
  - apply wp_ret. destruct (apages a) as [|pg rest] eqn:Ea; [done |].
    eapply HQ; [exact HI | exact Ea | destruct (Z.geb_spec (pcount pg) (max_count a)); lia || done | done | done | done |].
    by left.
Qed.

(** What [alloc_object] does. *)
Lemma alloc_object_spec E a L free Q : arena_inv a L free -> 0 < room a free ->
  (forall p a' free', arena_inv a' ({[p]} ∪ L) free' -> room a' free' = room a free - 1 ->
    p ∉ L -> 0 < p -> object_size a' = object_size a ->
    (length (apages a') = length (apages a) \/
     total (apages a) = max_count a * Z.of_nat (length (apages a))) -> Q p a') ->
  wp E (alloc_object me) Q a.
Proof.
  intros [Hlk HI] Hr HQ. unfold alloc_object. apply wp_bind, wp_lock_arena; [done |].
  apply wp_bind, wp_get. apply wp_bind. eapply (make_room_ok E (set_alock _ a) L free); [by destruct HI | done |].
  intros a1 free1 pg rest HI1 Ea1 Hlt Hlk1 Hr1 Hsz1 Hgrow. apply wp_bind, wp_get. rewrite Ea1.
  destruct (max_count_bound _ _ _ HI1) as [Hm _]. destruct (arena_counts _ _ _ HI1) as [_ Ht].
  pose proof (av_pages _ _ _ HI1) as Hpgs. rewrite Ea1 in Hpgs. apply Forall_cons in Hpgs as [Hok _].
  pose proof (find_free_slot_ok (used pg) (Z.to_nat (max_count a1)) 0) as Hf.
  destruct (find_free_slot (used pg) 0 (Z.to_nat (max_count a1))) as [i|].
  2: { exfalso. destruct (slot_free (used pg) (max_count a1)) as (i & Hi & Hb).
       { rewrite <- (pk_count _ _ Hok). done. }
       rewrite Hf in Hb by lia. done. }
  destruct Hf as (Hi & Hb & _). assert (Hi' : 0 <= i < max_count a1) by lia.
  destruct (body_alloc a1 L free1 pg rest i HI1 Ea1 Hlt Hi' Hb) as (Htot & Hlen & HI2).
  pose proof (alloc_new a1 L free1 pg rest i HI1 Ea1 Hlt Hi' Hb) as Hnew.
  pose proof (pk_count _ _ Hok) as Hpc.
  cbn [pcount] in *. rewrite (u64_small (pcount pg + 1)) by lia. wp_steps.
  apply wp_unlock_arena; [by cbn; rewrite Hlk1 |]. apply wp_ret.
  cbn [num_objects]. rewrite (u64_small (num_objects a1 + 1)) by (rewrite (av_objs _ _ _ HI1); lia).
  rewrite (av_objs _ _ _ HI1), <- Htot. eapply HQ; [split; [done |] | | done | | done |].
  - destruct HI2. split; done.
  - change (room a free) with (room (set_alock (mkSpin true (Some me)) a) free). rewrite <- Hr1.
    unfold room. cbn [apages max_count set_alock set_apages set_num_objects]. rewrite Hlen, Htot. lia.
  - destruct Hok as [[Hp _] _ _]. unfold object_at. change sizeof_ArenaPage with 64.
    pose proof (av_size _ _ _ HI1) as [Hsz _]. unfold ARENA_MIN_OBJECT_SIZE in Hsz. nia.
  - cbn [apages set_alock set_apages set_num_objects]. rewrite Hlen.
    destruct Hgrow as [->|]; [by left | by right].
Qed.
(** ** Freeing *)

Lemma page_at_elem l pg : NoDup (paddr <$> l) -> pg ∈ l -> page_at (paddr pg) l = Some pg.
Proof.
  induction l as [|q l IH]; [by intros ? ?%not_elem_of_nil |].
  rewrite fmap_cons. intros [Hn Hd]%NoDup_cons [->|Hb]%elem_of_cons; cbn.
  - by rewrite Z.eqb_refl.
  - destruct (Z.eqb_spec (paddr q) (paddr pg)) as [E|]; [| auto].
    exfalso. apply Hn. rewrite E. by apply list_elem_of_fmap_2.
Qed.

Lemma container_page a L free pg i : arena_body a L free -> pg ∈ apages a -> 0 <= i < max_count a ->
  get_container_page (object_at (object_size a) pg i) = paddr pg.
Proof.
  intros HI Hpg Hi. destruct (max_count_bound _ _ _ HI) as [Hm Hmsz].
  pose proof (av_size _ _ _ HI) as [Hsz _]. pose proof (av_pages _ _ _ HI) as Hf.
  eapply Forall_forall in Hf; [| exact Hpg]. destruct Hf as [[Hp Hpm] _ _].
  unfold get_container_page, ARENA_PAGE_SIZE, object_at, round_down in *.
  unfold PAGE_SIZE, ARENA_MIN_OBJECT_SIZE in *.
  change sizeof_ArenaPage with 64. change ARENA_PAGE_CAPACITY with 4032 in *.
  assert (0 <= i * object_size a <= 4032 - object_size a) by nia.
  rewrite u64_small; dlia.
Qed.

Lemma free_object_spec E a L free p Q : arena_inv a L free -> p ∈ L ->
  (forall a', arena_inv a' (L ∖ {[p]}) free -> room a' free = room a free + 1 -> object_size a' = object_size a -> Q tt a') ->
  wp E (free_object me p) Q a.
Proof.
  intros [Hlk HI] Hp HQ. pose proof Hp as Hobj. apply (av_live _ _ _ HI) in Hobj as (pg & i & Hpg & Hs & ->).
  apply elem_of_slots in Hs as [Hi Hb]. destruct (max_count_bound _ _ _ HI) as [Hm Hmsz].
  destruct (arena_counts _ _ _ HI) as [_ Ht]. pose proof (av_size _ _ _ HI) as [Hsz _].
  unfold ARENA_MIN_OBJECT_SIZE in Hsz.
  destruct (body_free a L free pg i HI Hpg Hi Hb) as (_ & Htot & Hlen & HI').
  destruct (free_page_state a L free pg i HI Hpg Hi Hb) as (_ & Hc & _).
  unfold free_object. apply wp_bind, wp_get. rewrite (container_page _ _ _ _ _ HI Hpg Hi).
  rewrite (page_at_elem _ _ (av_nodup _ _ _ HI) Hpg). apply wp_bind, wp_ret.
  apply wp_bind, wp_lock_arena; [done |].
  replace (u64 (object_at (object_size a) pg i - (paddr pg + sizeof_ArenaPage))) with (i * object_size a)
    by (unfold object_at; rewrite u64_small; change ARENA_PAGE_CAPACITY with 4032 in *; nia).
  rewrite Z.mod_mul, Z.div_mul by lia. apply wp_bind, wp_assert; [done |].
  rewrite (proj2 (Z.ltb_lt i ARENA_BITMAP_SIZE)) by (change ARENA_BITMAP_SIZE with 256; lia).
  apply wp_bind, wp_ret. apply wp_bind, wp_assert; [done |].
  rewrite (u64_small (pcount pg - 1)) by lia. wp_steps. apply wp_unlock_arena; [done |].
  cbn [num_objects set_alock]. rewrite (av_objs _ _ _ HI).
  set (l' := move_page_to_head _ _) in *.
  assert (0 <= total l') by (unfold front_free in *; eapply (total_bound (max_count a)); [lia | apply (av_pages _ _ _ HI')]).
  rewrite u64_small by lia. rewrite <- Htot. apply HQ; [| | done].
  - split; [done |]. destruct HI'. by split.
  - unfold room. cbn [apages max_count set_alock set_apages set_num_objects]. rewrite Hlen, Htot. lia.
Qed.

Lemma free_all_spec E l : forall a free Q, Forall (fun pg => is_page (paddr pg)) l -> NoDup (paddr <$> l) ->
  pa_inv (allocator a) free -> (forall p, p ∈ paddr <$> l -> p ∉ free) ->
  (forall x, pa_inv x (rev (paddr <$> l) ++ free) -> Q tt (set_allocator x a)) -> wp E (free_all l) Q a.
Proof.
  induction l as [|pg l IH]; intros a free Q Hp Hd Hf Hdj HQ; cbn [free_all].
  - apply wp_ret. specialize (HQ _ Hf). by destruct a.
  - apply Forall_cons in Hp as [Hpg Hp]. rewrite fmap_cons in *. apply NoDup_cons in Hd as [Hpl Hd].
    assert (paddr pg ∉ free) as Hn by (apply Hdj; left).
    destruct (free_page_ok _ _ _ Hf Hn Hpg) as (x & Ex & Hx).
    apply wp_bind. eapply wp_allocator; [exact Ex |]. eapply IH; [done | done | exact Hx | |].
    + intros p Hin. rewrite not_elem_of_cons. split; [by intros -> |]. apply Hdj. by right.
    + intros y Hy. apply HQ. cbn. by rewrite <- app_assoc.
Qed.

Lemma clear_arena_spec E a L free Q : arena_inv a L free ->
  (forall a', arena_inv a' ∅ (rev (paddr <$> apages a) ++ free) -> apages a' = [] -> Q tt a') ->
  wp E (clear_arena me) Q a.
Proof.
  intros [Hlk HI] HQ. unfold clear_arena. apply wp_bind, wp_lock_arena; [done |]. apply wp_bind, wp_get.
  assert (Hempty : forall x n, pa_inv x (rev (paddr <$> apages a) ++ free) -> n = 0 ->
    arena_body (mkArena (mkSpin true (Some me)) x (object_size a) (max_count a) [] n 0) ∅
      (rev (paddr <$> apages a) ++ free)).
  { intros x n Hx ->. destruct HI. split; cbn; try done.
    - apply NoDup_nil_2.
    - by exists [], [].
    - intros p. rewrite elem_of_empty. split; [done |]. by intros (pg & i & ?%not_elem_of_nil & _).
    - by intros p ?%not_elem_of_nil. }
  change (apages (set_alock _ a)) with (apages a). destruct (apages a) as [|pg l] eqn:Ea.
  - apply wp_bind, wp_ret. apply wp_unlock_arena; [done |]. apply HQ; [| done]. split; [done |].
    destruct HI as [? ? Hpg Hnd Hff Hl Hfr Hdj Hno Hnp]. rewrite Ea in *. split; cbn; rewrite ?Ea; try done.
    intros p. rewrite elem_of_empty. split; [done |]. by intros (pg & i & ?%not_elem_of_nil & _).
  - rewrite <- Ea in *. apply wp_bind, wp_bind. eapply free_all_spec; try apply HI.
    + eapply Forall_impl; [apply HI |]. intros q Hq. apply Hq.
    + intros x Hx. wp_steps. apply wp_unlock_arena; [done |]. apply HQ; [| done]. split; [done |].
      destruct (Hempty x 0 Hx eq_refl). by split.
Qed.
(** ** Initialisation and separation *)

Lemma init_arena_ok sz x free : pa_inv x free -> ARENA_MIN_OBJECT_SIZE <= sz <= ARENA_PAGE_CAPACITY ->
  exists a, init_arena sz x = Ret a /\ arena_inv a ∅ free /\ object_size a = sz /\
    room a free = ARENA_PAGE_CAPACITY / sz * Z.of_nat (length free).
Proof.
  intros Hx [H1 H2]. unfold init_arena.
  destruct (Z.geb_spec sz ARENA_MIN_OBJECT_SIZE); [| lia]. destruct (Z.leb_spec sz ARENA_PAGE_CAPACITY); [| lia].
  eexists. split; [reflexivity |]. split; [| split; [done |]; unfold room; cbn; lia].
  split; [done |]. split; cbn; try done.
  - apply NoDup_nil_2.
  - by exists [], [].
  - intros p. rewrite elem_of_empty. split; [done |]. by intros (pg & i & ?%not_elem_of_nil & _).
  - by intros p ?%not_elem_of_nil.
Qed.

(** Two objects in use do not overlap. *)
Lemma objects_apart a L free p q : arena_body a L free -> p ∈ L -> q ∈ L -> p <> q ->
  p + object_size a <= q \/ q + object_size a <= p.
Proof.
  intros HI Hp Hq Hne. destruct (max_count_bound _ _ _ HI) as [Hm Hmsz].
  pose proof (av_size _ _ _ HI) as [Hsz _]. unfold ARENA_MIN_OBJECT_SIZE in Hsz.
  pose proof (av_pages _ _ _ HI) as Hf. rewrite Forall_forall in Hf.
  apply (av_live _ _ _ HI) in Hp as (pg & i & Hpg & [Hi _]%elem_of_slots & ->).
  apply (av_live _ _ _ HI) in Hq as (pg' & j & Hpg' & [Hj _]%elem_of_slots & ->).
  destruct (Hf _ Hpg) as [[Hp1 Hp2] _ _]. destruct (Hf _ Hpg') as [[Hq1 Hq2] _ _].
  unfold object_at in *. change sizeof_ArenaPage with 64 in *. change ARENA_PAGE_CAPACITY with 4032 in *.
  unfold PAGE_SIZE in *. set (sz := object_size a) in *.
  assert (0 <= i * sz <= 4032 - sz) by nia. assert (0 <= j * sz <= 4032 - sz) by nia.
  destruct (decide (paddr pg = paddr pg')) as [E|E].
  - rewrite E in *. assert (i < j \/ j < i) as [Hij|Hij] by (destruct (Z.lt_total i j) as [|[->|]]; lia || done).
    + left. assert ((i + 1) * sz <= j * sz) by (apply Z.mul_le_mono_nonneg_r; lia). lia.
    + right. assert ((j + 1) * sz <= i * sz) by (apply Z.mul_le_mono_nonneg_r; lia). lia.
  - clear -Hp1 Hp2 Hq1 Hq2 H0 H1 E Hsz. generalize dependent (i * sz). generalize dependent (j * sz).
    intros x Hx y Hy. dlia.
Qed.
End inv.

(** * The interface *)

(** An arena is an [ObjectArena]. *)
Definition arena_objects {P} (PA : PageAllocator P) (me : Z) : ObjectArena (Arena P).
Proof.
  refine {| obj_alloc := alloc_object me; obj_free := free_object me;
            ar_inv a L r := exists free, arena_inv a L free /\ room a free = Z.of_nat r |}.
  2: { intros a L r p (free & HI & Hr) Hp.
    destruct (wp_returns (free_object me p) (fun _ a' => exists free, arena_inv a' (L ∖ {[p]}) free /\
      room a' free = Z.of_nat (S r)) a) as ([] & a' & E & H1); [| by exists a'].
    eapply free_object_spec; [exact HI | done |]. intros a' HI' Hr' _. exists free. split; [done | lia]. }
  intros a L r (free & HI & Hr).
  destruct (wp_returns (alloc_object me) (fun p a' => p <> 0 /\ p ∉ L /\
    exists free, arena_inv a' ({[p]} ∪ L) free /\ room a' free = Z.of_nat r) a) as (p & a' & E & H1 & H2 & H3).
  - eapply alloc_object_spec; [exact HI | lia |]. intros p a' free' HI' Hr' Hp Hp0 _ _.
    split_and!; [lia | done |]. exists free'. split; [done | lia].
  - exists p, a'. done.
Defined.

(** * Properties *)

(** As long as the arena or the page allocator has room, alloc_object returns
    an object that overlaps no object in use and lies in a page of the arena,
    keeps the arena's invariant, and takes a new page only when every slot of
    every page is in use. *)
Theorem alloc_object_fresh {P} {PA : PageAllocator P} (me : Z) (a : Arena P) (L : gset Z) (free : list Z)
    (HI : arena_inv a L free) (Hroom : 0 < room a free) :
  exists p a' free', alloc_object me a = Ret (p, a') /\ arena_inv a' ({[p]} ∪ L) free' /\
    room a' free' = room a free - 1 /\ p ∉ L /\
    (forall q, q ∈ L -> p + object_size a <= q \/ q + object_size a <= p) /\
    (length (apages a') = length (apages a) \/
     total (apages a) = max_count a * Z.of_nat (length (apages a))).
Proof.
  destruct (wp_returns (alloc_object me) (fun p a' => exists free', arena_inv a' ({[p]} ∪ L) free' /\
    room a' free' = room a free - 1 /\ p ∉ L /\ object_size a' = object_size a /\
    (length (apages a') = length (apages a) \/
     total (apages a) = max_count a * Z.of_nat (length (apages a)))) a)
    as (p & a' & E & free' & HI' & Hr' & Hp & Hsz & Hgrow).
  - eapply alloc_object_spec; [exact HI | done |]. intros p a' free' H1 H2 H3 _ H4 H5. by exists free'.
  - exists p, a', free'. split_and!; try done. intros q Hq. rewrite <- Hsz.
    eapply objects_apart; [apply HI' | | | by intros ->]; apply elem_of_union;
      [left; by apply elem_of_singleton | by right].
Qed.

(** Freeing an object in use succeeds, leaves every other object in use, and
    makes its slot available again; clear_arena gives every page back. *)
Theorem free_object_clear_arena {P} {PA : PageAllocator P} (me : Z) (a : Arena P) (L : gset Z) (free : list Z)
    (p : Z) (HI : arena_inv a L free) (Hp : p ∈ L) :
  exists a', free_object me p a = Ret (tt, a') /\ arena_inv a' (L ∖ {[p]}) free /\
    room a' free = room a free + 1 /\
  exists a'', clear_arena me a' = Ret (tt, a'') /\
    arena_inv a'' ∅ (rev (paddr <$> apages a') ++ free) /\ apages a'' = [].
Proof.
  destruct (wp_returns (free_object me p) (fun _ a' => arena_inv a' (L ∖ {[p]}) free /\
    room a' free = room a free + 1) a) as ([] & a' & E & HI' & Hr).
  { eapply free_object_spec; [exact HI | done |]. auto. }
  exists a'. split_and!; [done.. |].
  destruct (wp_returns (clear_arena me) (fun _ a'' => arena_inv a'' ∅ (rev (paddr <$> apages a') ++ free) /\
    apages a'' = []) a') as ([] & a'' & E2 & HI2 & Hnil).
  { eapply clear_arena_spec; [exact HI' |]. auto. }
  exists a''. done.
Qed.

(** ** A small arena: two pages of memory, objects of 1500 bytes *)

Definition two_pages : pmem := mkPmem 4096 (fun p => if p =? 4096 then 8192 else 0) init_spinlock.

Lemma two_pages_inv : pm_inv two_pages [4096; 8192].
Proof.
  split; [by vm_compute | | | done].
  - apply (bool_decide_unpack _). by vm_compute.
  - repeat constructor.
Qed.

(** The arena right after [init_arena]. *)
Definition small_arena : Arena pmem := mkArena init_spinlock two_pages 1500 2 [] 0 0.

Lemma small_arena_inv : @arena_inv _ (kernel_pages 0) small_arena ∅ [4096; 8192].
Proof.
  destruct (@init_arena_ok _ (kernel_pages 0) 1500 two_pages [4096; 8192] two_pages_inv) as (a & E & HI & _).
  - by vm_compute.
  - assert (a = small_arena) as -> by (injection E as <-; reflexivity). exact HI.
Qed.

Lemma alloc_object_fresh_witness :
  exists p a', @alloc_object _ (kernel_pages 0) 0 small_arena = Ret (p, a') /\ p = 4096 + 64.
Proof.
  destruct (@alloc_object_fresh _ (kernel_pages 0) 0 small_arena ∅ [4096; 8192] small_arena_inv)
    as (p & a' & free' & E & _); [by vm_compute |].
  exists p, a'. split; [exact E |]. vm_compute in E. by injection E as <- _.
Defined.

Lemma free_object_clear_arena_witness :
  exists p a a', @alloc_object _ (kernel_pages 0) 0 small_arena = Ret (p, a) /\
    @free_object _ 0 p a = Ret (tt, a').
Proof.
  destruct (wp_returns (@alloc_object _ (kernel_pages 0) 0)
    (fun p a => exists free, @arena_inv _ (kernel_pages 0) a {[p]} free) small_arena) as (p & a & E & free & HI).
  - eapply (@alloc_object_spec _ (kernel_pages 0)); [exact small_arena_inv | by vm_compute |].
    intros p a free HI _ _ _ _ _. exists free. by rewrite union_empty_r_L in HI.
  - destruct (@free_object_clear_arena _ (kernel_pages 0) 0 a {[p]} free p HI) as (a' & E' & _).
    + by apply elem_of_singleton.
    + exists p, a, a'. split; [exact E | exact E'].
Defined.
