(* ===== verification/ArenaTest.v ===== *)
(** arena_test of core/arena.c, which main runs at every start: 128 objects are allocated and
    filled, every other one is checked and freed, one more is allocated, and the
    arena is cleared.  With 43 free pages every assertion of it holds, and all pages are given
    back. *)
From S2P Require Import Prelude Bytes Bitmap Locks PhysMem Arena.

(** * The number of objects *)

Section count.
Context {P : Type} {PA : PageAllocator P}.

Definition page_objects (sz m : Z) (pg : ArenaPage) : list Z := object_at sz pg <$> elements (slots (used pg) m).
Definition arena_objs (sz m : Z) (l : list ArenaPage) : list Z := concat (page_objects sz m <$> l).

Lemma elem_of_arena_objs sz m l p : p ∈ arena_objs sz m l <-> is_object sz m l p.
Proof.
  unfold arena_objs, is_object. rewrite list_elem_of_In, in_concat. split.
  - intros (xs & (pg & -> & Hpg)%list_elem_of_In%list_elem_of_fmap & Hp%list_elem_of_In).
    unfold page_objects in Hp. apply list_elem_of_fmap in Hp as (i & -> & Hi%elem_of_elements). by exists pg, i.
  - intros (pg & i & Hpg & Hi & ->). exists (page_objects sz m pg). rewrite <- !list_elem_of_In. split.
    + by apply list_elem_of_fmap_2.
    + apply list_elem_of_fmap_2. by apply elem_of_elements.
Qed.

Lemma arena_objs_count sz m l : 16 <= sz -> m * sz <= ARENA_PAGE_CAPACITY -> Forall (page_ok m) l -> NoDup (paddr <$> l) ->
  NoDup (arena_objs sz m l) /\ Z.of_nat (length (arena_objs sz m l)) = total l.
Proof.
  intros Hsz Hm. induction l as [|pg l IH]; intros Hok Hnd; [split; [apply NoDup_nil_2 | done] |].
  apply Forall_cons in Hok as [Hpg Hok]. rewrite fmap_cons in Hnd. apply NoDup_cons in Hnd as [Hnew Hnd]. destruct (IH Hok Hnd) as [IH1 IH2].
  unfold arena_objs in *. rewrite fmap_cons. cbn [concat total foldr]. fold (total l). rewrite length_app.
  assert (Hlen : Z.of_nat (length (page_objects sz m pg)) = pcount pg) by (unfold page_objects; rewrite length_fmap; by rewrite (pk_count _ _ Hpg)).
  split; [| lia]. apply NoDup_app. split_and!; [| | done].
  - unfold page_objects. apply NoDup_fmap_2_strong; [| apply NoDup_elements].
    intros i j [Hi _]%elem_of_elements%elem_of_slots [Hj _]%elem_of_elements%elem_of_slots E.
    by destruct (object_at_inj sz m pg pg i j Hsz Hm (pk_addr _ _ Hpg) (pk_addr _ _ Hpg) Hi Hj E).
  - intros p Hp. unfold page_objects in Hp. apply list_elem_of_fmap in Hp as (i & -> & [Hi _]%elem_of_elements%elem_of_slots).
    fold (arena_objs sz m l). rewrite elem_of_arena_objs. intros (pg' & j & Hpg' & [Hj _]%elem_of_slots & E). apply Hnew.
    pose proof (proj1 (Forall_forall _ _) Hok _ Hpg') as Hok'.
    destruct (object_at_inj sz m pg pg' i j Hsz Hm (pk_addr _ _ Hpg) (pk_addr _ _ Hok') Hi Hj E) as [-> _]. by apply list_elem_of_fmap_2.
Qed.

(** num_objects counts the objects in use. *)
Lemma live_count (a : Arena P) L free : arena_body a L free -> num_objects a = Z.of_nat (size L).
Proof.
  intros HI. destruct (max_count_bound _ _ _ HI) as [Hm Hmsz]. rewrite (av_objs _ _ _ HI).
  pose proof (av_size _ _ _ HI) as [Hsz _]. unfold ARENA_MIN_OBJECT_SIZE in Hsz.
  destruct (arena_objs_count (object_size a) (max_count a) (apages a) Hsz Hmsz (av_pages _ _ _ HI) (av_nodup _ _ _ HI)) as [Hnd Hlen].
  assert (HL : L = list_to_set (arena_objs (object_size a) (max_count a) (apages a))).
  { apply set_eq. intros p. rewrite elem_of_list_to_set, elem_of_arena_objs. apply (av_live _ _ _ HI). }
  rewrite HL, size_list_to_set by done. lia.
Qed.
End count.

(** * The test *)

(** [Payload]: a cookie and 128 words. *)
Definition sizeof_Payload : Z := 8 + 128 * 8.
Definition COOKIE : Z := 0x19260817.

Section test.
Context {P : Type} {PA : PageAllocator P} (me : Z).

(** The arena and the words of the objects, by their addresses. *)
Record test_state := mkTest { t_arena : Arena P; words : Z -> Z }.

Definition on_arena {X} (c : M (Arena P) X) : M test_state X := fun t =>
  '(x, a) ← c (t_arena t); Ret (x, mkTest a (words t)).
Definition store (p v : Z) : M test_state unit := modify (fun t => mkTest (t_arena t) (fun q => if q =? p then v else words t q)).
Definition num_is (n : Z) : M test_state unit := t ← get; assert (num_objects (t_arena t) =? n) "arena.num_objects".

(** payloads[i]->cookie and payloads[i]->data. *)
Definition fill (i p : Z) : M test_state unit :=
  store p (u64 (i * COOKIE));;
  for_range 0 128 (fun j => store (p + 8 + 8 * j) (u64 (i * j))).

Fixpoint alloc_payloads (i : Z) (n : nat) (payloads : list Z) : M test_state (list Z) :=
  match n with
  | O => mret payloads
  | S n' =>
      p ← on_arena (alloc_object me);
      assert (negb (p =? 0)) "payloads[i] != NULL";;
      fill i p;;
      num_is (i + 1);;
      alloc_payloads (i + 1) n' (payloads ++ [p])
  end.

(** [for (i = 0; i < 128; i += 2)] *)
Definition free_payload (payloads : list Z) (k : Z) : M test_state unit :=
  let i := 2 * k in
  let p := zget payloads i in
  t ← get;
  assert (words t p =? u64 (i * COOKIE)) "payloads[i]->cookie == i * 0x19260817";;
  on_arena (free_object me p).

Definition arena_test_body : M test_state unit :=
  payloads ← alloc_payloads 0 128 [];
  for_range 0 64 (free_payload payloads);;
  num_is 64;;
  ptr ← on_arena (alloc_object me);
  assert (negb (ptr =? 0)) "ptr != NULL";;
  num_is 65;;
  on_arena (clear_arena me).

(** The messages are left out; the result is the page allocator after the test. *)
Definition arena_test (x : P) (memory : Z -> Z) : outcome P :=
  a ← init_arena sizeof_Payload x;
  '(_, t) ← arena_test_body (mkTest a memory);
  Ret (allocator (t_arena t)).

(** ** The proof *)

Lemma wp_on_arena {X} (c : M (Arena P) X) (Q : X -> test_state -> Prop) t :
  wp no_panic c (fun x a => Q x (mkTest a (words t))) (t_arena t) -> wp no_panic (on_arena c) Q t.
Proof. unfold wp, on_arena. destruct (c (t_arena t)) as [[x a]| | | |]; done. Qed.

(** The objects in use are [L], [r] more can be allocated. *)
Definition in_use (L : gset Z) (r : Z) (t : test_state) : Prop :=
  exists free, arena_inv (t_arena t) L free /\ room (t_arena t) free = r /\ object_size (t_arena t) = sizeof_Payload.

Lemma in_use_count L r t : in_use L r t -> num_objects (t_arena t) = Z.of_nat (size L).
Proof. intros (free & [_ HI] & _). by eapply live_count. Qed.

Lemma num_is_ok n L r t : in_use L r t -> Z.of_nat (size L) = n -> wp no_panic (num_is n) (fun _ t' => t' = t) t.
Proof. intros Hu Hn. apply wp_bind, wp_get, wp_assert; [| done]. rewrite (in_use_count _ _ _ Hu), Hn. apply Z.eqb_refl. Qed.

Lemma payload_alloc_ok L r t : in_use L r t -> 0 < r -> wp no_panic (on_arena (alloc_object me)) (fun p t' => p ∉ L /\ 0 < p /\
  in_use ({[p]} ∪ L) (r - 1) t' /\ words t' = words t /\
  forall q, q ∈ L -> p + sizeof_Payload <= q \/ q + sizeof_Payload <= p) t.
Proof.
  intros (free & HI & Hr & Hs) Hpos. apply wp_on_arena. eapply alloc_object_spec; [exact HI | lia |].
  intros p a' free' HI' Hr' Hp Hp0 Hs' _. split_and!; [done | done | | done |].
  - exists free'. split; [done | split; cbn; lia].
  - intros q Hq. rewrite <- Hs, <- Hs'. eapply objects_apart; [apply HI' | set_solver | set_solver | by intros ->].
Qed.

Lemma payload_free_ok L r t p : in_use L r t -> p ∈ L -> wp no_panic (on_arena (free_object me p)) (fun _ t' =>
  in_use (L ∖ {[p]}) (r + 1) t' /\ words t' = words t) t.
Proof.
  intros (free & HI & Hr & Hs) Hp. apply wp_on_arena. eapply free_object_spec; [exact HI | exact Hp |].
  intros a' HI' Hr' Hs'. split; [| done]. exists free. split; [done | split; cbn; [lia | congruence]].
Qed.

Lemma fill_ok i p t : wp no_panic (fill i p) (fun _ t' => t_arena t' = t_arena t /\ words t' p = u64 (i * COOKIE) /\
  forall q, q + 8 <= p \/ p + sizeof_Payload <= q -> words t' q = words t q) t.
Proof.
  unfold fill. apply wp_bind, wp_modify. set (I := fun (_ : Z) t' => t_arena t' = t_arena t /\ words t' p = u64 (i * COOKIE) /\
    forall q, q + 8 <= p \/ p + sizeof_Payload <= q -> words t' q = words t q).
  apply (wp_for_range no_panic I).
  - intros j t' Hj (E1 & E2 & E3). apply wp_modify. unfold I, sizeof_Payload in *. cbn. split_and!; [done | |].
    + by rewrite (proj2 (Z.eqb_neq _ _)) by lia.
    + intros q Hq. rewrite (proj2 (Z.eqb_neq _ _)) by lia. by apply E3.
  - unfold I, sizeof_Payload. cbn. split_and!; [done | by rewrite Z.eqb_refl |]. intros q Hq. by rewrite (proj2 (Z.eqb_neq _ _)) by lia.
Qed.

(** The payloads so far hold their cookies. *)
Record payloads_ok (ps : list Z) (r : Z) (t : test_state) : Prop := {
  po_nodup : NoDup ps;
  po_use : in_use (list_to_set ps) r t;
  po_cookie : forall k p, ps !! k = Some p -> words t p = u64 (Z.of_nat k * COOKIE)
}.

Lemma alloc_payloads_ok n : forall ps r t, payloads_ok ps r t -> Z.of_nat n <= r ->
  wp no_panic (alloc_payloads (Z.of_nat (length ps)) n ps)
    (fun ps' t' => length ps' = (length ps + n)%nat /\ payloads_ok ps' (r - Z.of_nat n) t') t.
Proof.
  induction n as [|n IH]; intros ps r t [Hnd Hu Hck] Hr; cbn [alloc_payloads].
  - apply wp_ret. split; [lia |]. by rewrite Z.sub_0_r.
  - apply wp_bind. wp_use (payload_alloc_ok _ r t Hu); [lia |]. intros p t1 (Hp & Hp0 & Hu1 & Ew & Hap). apply wp_bind, wp_assert; [apply negb_true_iff, Z.eqb_neq; lia |].
    apply wp_bind. wp_use (fill_ok (Z.of_nat (length ps)) p t1). intros [] t2 (Ea & Ec & Eo).
    assert (Hok : payloads_ok (ps ++ [p]) (r - 1) t2).
    { rewrite elem_of_list_to_set in Hp. split.
      - apply NoDup_app. split_and!; [done | | apply NoDup_singleton]. by intros q Hq ->%list_elem_of_singleton.
      - rewrite list_to_set_app_L. cbn [list_to_set]. rewrite union_empty_r_L, union_comm_L. unfold in_use in *. by rewrite Ea.
      - intros k q [Hk|[Hk Hq]]%lookup_app_Some.
        + assert (Hin : q ∈ ps) by (by eapply list_elem_of_lookup_2). rewrite Eo, Ew; [by apply Hck |].
          destruct (Hap q) as [|]; [by apply elem_of_list_to_set | by right | left; unfold sizeof_Payload in *; lia].
        + apply list_lookup_singleton_Some in Hq as [Hq <-]. rewrite Ec. do 3 f_equal. lia. }
    apply wp_bind. wp_use (num_is_ok (Z.of_nat (length ps) + 1) _ _ t2 (po_use _ _ _ Hok)).
    { rewrite size_list_to_set, length_app by apply Hok. cbn. lia. }
    intros [] t3 ->. pose proof (IH (ps ++ [p]) (r - 1) t2 Hok ltac:(lia)) as IH'.
    rewrite length_app in IH'. replace (Z.of_nat (length ps) + 1) with (Z.of_nat (length ps + length [p])) by (cbn; lia).
    wp_use IH'. intros ps' t' [Hl' Hok']. split; [cbn in Hl'; lia |]. by replace (r - Z.of_nat (S n)) with (r - 1 - Z.of_nat n) by lia.
Qed.

(** The payloads left when [k] of them have been freed. *)
Definition left_over (ps : list Z) (k : Z) : gset Z :=
  list_to_set ps ∖ list_to_set ((fun j : nat => zget ps (2 * Z.of_nat j)) <$> seq 0 (Z.to_nat k)).

Lemma left_over_succ ps k : 0 <= k -> left_over ps (k + 1) = left_over ps k ∖ {[zget ps (2 * k)]}.
Proof.
  intros Hk. unfold left_over. replace (Z.to_nat (k + 1)) with (Z.to_nat k + 1)%nat by lia.
  rewrite seq_app, fmap_app, list_to_set_app_L. cbn. rewrite union_empty_r_L, Z2Nat.id by lia. set_solver.
Qed.

Lemma left_over_in ps k : NoDup ps -> length ps = 128%nat -> 0 <= k < 64 -> zget ps (2 * k) ∈ left_over ps k.
Proof.
  intros Hnd Hl Hk.
  assert (Hget : forall j, 0 <= j < 128 -> ps !! Z.to_nat j = Some (zget ps j)).
  { intros j Hj. destruct (lookup_lt_is_Some_2 ps (Z.to_nat j)) as [x Hx]; [lia |]. by rewrite (zget_lookup _ _ _ (proj1 Hj) Hx). }
  unfold left_over. apply elem_of_difference. rewrite !elem_of_list_to_set. split; [eapply list_elem_of_lookup_2, Hget; lia |].
  intros (j & Ej & Hj%elem_of_seq)%list_elem_of_fmap.
  assert (Z.to_nat (2 * k) = Z.to_nat (2 * Z.of_nat j)); [| lia].
  eapply (NoDup_lookup _ _ _ _ Hnd); [apply Hget; lia |]. rewrite Ej. apply Hget. lia.
Qed.

Lemma free_payloads_ok ps r t : payloads_ok ps r t -> length ps = 128%nat ->
  wp no_panic (for_range 0 64 (free_payload ps)) (fun _ t' => exists L, size L = 64%nat /\ in_use L (r + 64) t') t.
Proof.
  intros [Hnd Hu Hck] Hl. set (I := fun k t' => in_use (left_over ps k) (r + k) t' /\ Z.of_nat (size (left_over ps k)) = 128 - k /\ words t' = words t).
  assert (E0 : left_over ps 0 = list_to_set ps) by (unfold left_over; change (Z.to_nat 0) with 0%nat; set_solver).
  wp_use (wp_for_range no_panic I).
  - intros k t' Hk (Hu' & Hsz & Ew). pose proof (left_over_in ps k Hnd Hl ltac:(lia)) as Hin.
    unfold free_payload. apply wp_bind, wp_get, wp_bind, wp_assert.
    { rewrite Ew. destruct (lookup_lt_is_Some_2 ps (Z.to_nat (2 * k))) as [x Hx]; [lia |].
      rewrite (zget_lookup ps (2 * k) x ltac:(lia) Hx), (Hck _ _ Hx), Z2Nat.id by lia. apply Z.eqb_refl. }
    wp_use (payload_free_ok _ _ t' _ Hu' Hin). intros [] t2 [Hu2 Ew2]. unfold I. rewrite left_over_succ by lia. split_and!.
    + by replace (r + (k + 1)) with (r + k + 1) by lia.
    + rewrite size_difference by set_solver. rewrite size_singleton. assert (0 < size (left_over ps k))%nat; [| lia].
      lia.
    + congruence.
  - split_and!; [| | done].
    + by rewrite E0, Z.add_0_r.
    + rewrite E0, size_list_to_set, Hl by done. done.
  - intros [] t' (Hu' & Hsz & _). exists (left_over ps (0 + Z.of_nat 64)). split; [lia | exact Hu'].
Qed.

Lemma clear_ok L r t : in_use L r t -> wp no_panic (on_arena (clear_arena me)) (fun _ t' => exists free,
  pa_inv (allocator (t_arena t')) free /\ max_count (t_arena t) * Z.of_nat (length free) = r + Z.of_nat (size L)) t.
Proof.
  intros (free & HI & Hr & _). apply wp_on_arena. eapply clear_arena_spec; [exact HI |]. intros a' HI' _. cbn.
  eexists. split; [apply (av_free _ _ _ (proj2 HI')) |]. rewrite length_app, length_rev, length_fmap.
  pose proof (live_count _ _ _ (proj2 HI)) as Hn. rewrite (av_objs _ _ _ (proj2 HI)) in Hn. unfold room in Hr. lia.
Qed.

Lemma body_ok t r : in_use ∅ r t -> 128 < r -> wp no_panic arena_test_body (fun _ t' => exists free,
  pa_inv (allocator (t_arena t')) free /\ 3 * Z.of_nat (length free) = r) t.
Proof.
  intros Hu Hr. unfold arena_test_body. apply wp_bind.
  wp_use (alloc_payloads_ok 128 [] r t); [split; [apply NoDup_nil_2 | done | by intros k p ?] | lia |].
  intros ps t1 [Hl Hok]. apply wp_bind. wp_use (free_payloads_ok ps _ t1 Hok); [done |]. intros [] t2 (L & HL & Hu2).
  apply wp_bind. wp_use (num_is_ok 64 L _ t2 Hu2); [lia |]. intros [] t3 ->. apply wp_bind.
  wp_use (payload_alloc_ok L _ t2 Hu2); [lia |]. intros p t4 (Hp & Hp0 & Hu4 & _). apply wp_bind, wp_assert; [apply negb_true_iff, Z.eqb_neq; lia |].
  assert (Hsz : size ({[p]} ∪ L) = 65%nat) by (rewrite size_union, size_singleton, HL by set_solver; done).
  apply wp_bind. wp_use (num_is_ok 65 _ _ t4 Hu4); [lia |]. intros [] t5 ->.
  wp_use (clear_ok _ _ t4 Hu4). intros [] t6 (free & Hpa & Hlen). exists free. split; [done |].
  destruct Hu4 as (free4 & [_ HI] & _ & Hs4). rewrite (av_max _ _ _ HI), Hs4 in Hlen. change (ARENA_PAGE_CAPACITY / sizeof_Payload) with 3 in Hlen.
  rewrite Hsz in Hlen. lia.
Qed.

(** With 43 free pages or more, arena_test passes: every assertion holds, and as many pages are free
    after it as before. *)
Theorem arena_test_passes (x : P) (free : list Z) (memory : Z -> Z) (Hx : pa_inv x free) (Hfree : (43 <= length free)%nat) :
  exists x' free', arena_test x memory = Ret x' /\ pa_inv x' free' /\ length free' = length free.
Proof.
  destruct (init_arena_ok sizeof_Payload x free Hx) as (a & Ea & HI & Hs & Hr); [by vm_compute |].
  change (ARENA_PAGE_CAPACITY / sizeof_Payload) with 3 in Hr.
  destruct (wp_returns _ _ _ (body_ok (mkTest a memory) (3 * Z.of_nat (length free)) ltac:(by exists free) ltac:(lia))) as ([] & t & Et & free' & Hpa & Hlen).
  exists (allocator (t_arena t)), free'. split; [| split; [done | lia]]. unfold arena_test, mbind, outcome_bind. by rewrite Ea, Et.
Qed.
End test.
