(* ===== verification/FsDefs.v ===== *)
(** fs/defines.h: the on-disk structures of the file system, with their byte
    encodings (little-endian, natural alignment, no padding), used by the block
    cache, the inode layer and mkfs. *)
From S2P Require Import Prelude Bytes.

(** * Constants *)

Definition BLOCK_SIZE : Z := 512.
Definition LOG_MAX_SIZE : Z := (BLOCK_SIZE - 8) / 8.
Definition INODE_NUM_DIRECT : Z := 12.
Definition INODE_NUM_INDIRECT : Z := BLOCK_SIZE / 4.
Definition sizeof_InodeEntry : Z := 64.
Definition INODE_PER_BLOCK : Z := BLOCK_SIZE / sizeof_InodeEntry.
Definition INODE_MAX_BLOCKS : Z := INODE_NUM_DIRECT + INODE_NUM_INDIRECT.
Definition INODE_MAX_BYTES : Z := INODE_MAX_BLOCKS * BLOCK_SIZE.
Definition FILE_NAME_MAX_LENGTH : Z := 14.
Definition INODE_INVALID : Z := 0.
Definition INODE_DIRECTORY : Z := 1.
Definition INODE_REGULAR : Z := 2.
Definition INODE_DEVICE : Z := 3.
Definition BIT_PER_BLOCK : Z := BLOCK_SIZE * 8.
Definition FSSIZE : Z := 1000.
Definition ROOT_INODE_NO : Z := 1.

(** * Blocks *)

(** The content of a disk block: 512 bytes. *)
Definition block_wf (d : list Z) : Prop := bytes d /\ length d = 512%nat.
Definition zero_block : list Z := replicate 512 0.

Lemma zero_block_wf : block_wf zero_block.
Proof. split; [by apply bytes_replicate | done]. Qed.
#[export] Hint Resolve zero_block_wf : bytesdb.

(** * Super block *)

Record SuperBlock := mkSuper {
  num_blocks : Z;
  num_data_blocks : Z;
  num_inodes : Z;
  num_log_blocks : Z;
  sb_log_start : Z;
  inode_start : Z;
  bitmap_start : Z
}.

Definition super_words (sb : SuperBlock) : list Z :=
  [num_blocks sb; num_data_blocks sb; num_inodes sb; num_log_blocks sb;
   sb_log_start sb; inode_start sb; bitmap_start sb].
Definition super_enc (sb : SuperBlock) : list Z := words_enc 4 (super_words sb).
Definition super_dec (d : list Z) : SuperBlock :=
  match words_dec 4 7 d with
  | [a; b; c; e; f; g; h] => mkSuper a b c e f g h
  | _ => mkSuper 0 0 0 0 0 0 0
  end.

(** * Inodes *)

Record InodeEntry := mkEntry {
  type : Z;       (* u16 *)
  major : Z;      (* u16 *)
  minor : Z;      (* u16 *)
  num_links : Z;  (* u16 *)
  num_bytes : Z;  (* u32 *)
  addrs : list Z; (* u32[12] *)
  indirect : Z    (* u32 *)
}.

Definition entry_wf (e : InodeEntry) : Prop :=
  0 <= type e < 2 ^ 16 /\ 0 <= major e < 2 ^ 16 /\ 0 <= minor e < 2 ^ 16 /\
  0 <= num_links e < 2 ^ 16 /\ 0 <= num_bytes e < 2 ^ 32 /\
  Forall (fun a => 0 <= a < 2 ^ 32) (addrs e) /\ length (addrs e) = 12%nat /\
  0 <= indirect e < 2 ^ 32.

Definition inode_enc (e : InodeEntry) : list Z :=
  words_enc 2 [type e; major e; minor e; num_links e] ++
  words_enc 4 (num_bytes e :: addrs e ++ [indirect e]).

Definition inode_dec (d : list Z) : InodeEntry :=
  let h := words_dec 2 4 d in
  let w := words_dec 4 14 (drop 8 d) in
  mkEntry (zget h 0) (zget h 1) (zget h 2) (zget h 3)
    (zget w 0) (take 12 (drop 1 w)) (zget w 13).

Definition zero_entry : InodeEntry := mkEntry 0 0 0 0 0 (replicate 12 0) 0.

(** * Directory entries *)

Record DirEntry := mkDirEntry {
  inode_no : Z;   (* u16 *)
  name : list Z   (* char[14] *)
}.
Definition sizeof_DirEntry : Z := 16.

Definition dirent_wf (e : DirEntry) : Prop :=
  0 <= inode_no e < 2 ^ 16 /\ bytes (name e) /\ length (name e) = 14%nat.
Definition dirent_enc (e : DirEntry) : list Z := le_enc 2 (inode_no e) ++ name e.
Definition dirent_dec (d : list Z) : DirEntry := mkDirEntry (le_dec (take 2 d)) (slice d 2 14).

(** * Log header *)

Record LogHeader := mkHeader {
  hdr_num_blocks : Z;       (* usize *)
  hdr_block_no : list Z     (* usize[LOG_MAX_SIZE] *)
}.

Definition header_wf (h : LogHeader) : Prop :=
  0 <= hdr_num_blocks h < 2 ^ 64 /\
  Forall (fun b => 0 <= b < 2 ^ 64) (hdr_block_no h) /\ length (hdr_block_no h) = 63%nat.
Definition header_enc (h : LogHeader) : list Z :=
  words_enc 8 (hdr_num_blocks h :: hdr_block_no h).
Definition header_dec (d : list Z) : LogHeader :=
  match words_dec 8 64 d with
  | n :: l => mkHeader n l
  | [] => mkHeader 0 []
  end.

(** * Round trips *)

Lemma inode_dec_enc e r : entry_wf e -> inode_dec (inode_enc e ++ r) = e.
Proof.
  destruct e as [ty ma mi nl nb ad ind].
  intros (Ht & Hma & Hmi & Hnl & Hnb & Had & Hlen & Hind). unfold inode_dec, inode_enc.
  cbn [type major minor num_links num_bytes addrs indirect] in *.
  rewrite <- app_assoc.
  set (hs := [ty; ma; mi; nl]). set (ws := nb :: ad ++ [ind]).
  rewrite (words_dec_enc 2 hs) by (repeat constructor; change (256 ^ Z.of_nat 2) with (2 ^ 16); lia).
  rewrite drop_app_length' by (by rewrite length_words_enc).
  assert (Hw : words_dec 4 14 (words_enc 4 ws ++ r) = ws).
  { replace 14%nat with (length ws) by (unfold ws; cbn; rewrite length_app, Hlen; done).
    apply words_dec_enc. unfold ws. change (256 ^ Z.of_nat 4) with (2 ^ 32).
    constructor; [lia |]. apply Forall_app. split; [done |]. by apply Forall_singleton. }
  rewrite Hw. unfold ws, hs. f_equal.
  - cbn [drop]. rewrite drop_0. by rewrite take_app_length' by done.
  - unfold zget. change (Z.to_nat 13) with 13%nat. cbn [nth].
    rewrite app_nth2 by lia. by rewrite Hlen.
Qed.

Lemma length_inode_enc e : entry_wf e -> length (inode_enc e) = 64%nat.
Proof.
  intros (_ & _ & _ & _ & _ & _ & Hlen & _). unfold inode_enc.
  rewrite length_app, !length_words_enc. cbn. rewrite length_app. cbn. lia.
Qed.

Lemma inode_enc_bytes e : bytes (inode_enc e).
Proof. unfold inode_enc, bytes. apply Forall_app; split; apply words_enc_bytes. Qed.

Lemma Forall_zget (P : Z -> Prop) l i : Forall P l -> P 0 -> P (zget l i).
Proof.
  intros H H0. unfold zget. rewrite nth_lookup. destruct (l !! Z.to_nat i) eqn:E; [| done].
  exact (Forall_lookup_1 _ _ _ _ H E).
Qed.

Lemma inode_dec_wf d : bytes d -> entry_wf (inode_dec d).
Proof.
  intros Hb. assert (H2 := words_dec_bound 2 4 d Hb).
  assert (Hb' : bytes (drop 8 d)) by (by apply Forall_drop).
  assert (H4 := words_dec_bound 4 14 (drop 8 d) Hb').
  change (256 ^ Z.of_nat 2) with (2 ^ 16) in H2. change (256 ^ Z.of_nat 4) with (2 ^ 32) in H4.
  unfold inode_dec, entry_wf. cbn [type major minor num_links num_bytes addrs indirect].
  split_and!; try (apply (Forall_zget (fun c => 0 <= c < 2 ^ 16)); [done | lia]);
    try (apply (Forall_zget (fun c => 0 <= c < 2 ^ 32)); [done | lia]).
  - by apply Forall_take, Forall_drop.
  - rewrite length_take, length_drop, length_words_dec. done.
Qed.

Lemma inode_enc_dec d : bytes d -> length d = 64%nat -> inode_enc (inode_dec d) = d.
Proof.
  intros Hb Hl. unfold inode_enc, inode_dec. cbn [type major minor num_links num_bytes addrs indirect].
  assert (E2 : words_enc 2 (words_dec 2 4 d) = take 8 d).
  { replace (words_dec 2 4 d) with (words_dec 2 4 (take 8 d)).
    - apply words_enc_dec; [by apply Forall_take | rewrite length_take; lia].
    - do 65 (destruct d as [|? d]; [discriminate Hl || done |]). discriminate. }
  assert (E4 : words_enc 4 (words_dec 4 14 (drop 8 d)) = drop 8 d).
  { apply words_enc_dec; [by apply Forall_drop | rewrite length_drop; lia]. }
  transitivity (words_enc 2 (words_dec 2 4 d) ++ words_enc 4 (words_dec 4 14 (drop 8 d)));
    [| rewrite E2, E4; apply take_drop].
  reflexivity.
Qed.

Lemma header_dec_enc h : header_wf h -> header_dec (header_enc h) = h.
Proof.
  destruct h as [n l]. intros (Hn & Hl & Hlen). unfold header_dec, header_enc.
  cbn [hdr_num_blocks hdr_block_no] in *.
  rewrite <- (app_nil_r (words_enc 8 (n :: l))).
  replace 64%nat with (length (n :: l)) by (cbn; lia).
  rewrite words_dec_enc; [done |]. change (256 ^ Z.of_nat 8) with (2 ^ 64). by constructor.
Qed.

Lemma header_enc_block h : header_wf h -> block_wf (header_enc h).
Proof.
  intros (_ & _ & Hlen). split; [apply words_enc_bytes |].
  unfold header_enc. rewrite length_words_enc. cbn. lia.
Qed.

Lemma header_dec_wf d : block_wf d -> header_wf (header_dec d).
Proof.
  intros [Hb Hl]. pose proof (words_dec_bound 8 64 d Hb) as H.
  pose proof (length_words_dec 8 64 d) as Hlen. unfold header_dec.
  destruct (words_dec 8 64 d) as [|n l]; [done |].
  change (256 ^ Z.of_nat 8) with (2 ^ 64) in H. apply Forall_cons in H as [? ?].
  split_and!; cbn in *; lia || done.
Qed.

Lemma dirent_dec_enc e r : dirent_wf e -> dirent_dec (dirent_enc e ++ r) = e.
Proof.
  destruct e as [i n]. intros (Hi & Hb & Hl). unfold dirent_dec, dirent_enc.
  cbn [inode_no name] in *. rewrite <- app_assoc. unfold slice.
  rewrite take_app_length', drop_app_length' by done. rewrite take_app_length' by done.
  rewrite le_dec_enc_small; [done |]. change (256 ^ Z.of_nat 2) with (2 ^ 16). lia.
Qed.

Lemma length_dirent_enc e : dirent_wf e -> length (dirent_enc e) = 16%nat.
Proof. intros (_ & _ & Hl). unfold dirent_enc. rewrite length_app, length_le_enc. lia. Qed.

Lemma super_dec_enc sb r :
  Forall (fun w => 0 <= w < 2 ^ 32) (super_words sb) -> super_dec (super_enc sb ++ r) = sb.
Proof.
  intros H. unfold super_dec, super_enc. rewrite (words_dec_enc 4 (super_words sb)) by done.
  by destruct sb.
Qed.
