(* ===== verification/Cache.v ===== *)
(** fs/cache.h and fs/cache.c: the block cache and its write-ahead log.

    The state is the set of static variables of cache.c together with the block
    device and the [OpContext] objects of the callers (keyed by their address;
    address 0 is NULL).  The list of cached blocks is the sequence of [Block]
    structs met from [head.next] on (see ListNode.v); a block is referred to by
    the address [self] that the arena gave it. *)
From S2P Require Import Prelude Bytes CString Bitmap Locks Arena FsDefs.

Definition OP_MAX_NUM_BLOCKS : Z := 10.
Definition EVICTION_THRESHOLD : Z := 20.

(** * The device *)

(** fs/block_device.h: a device is its medium; the sequence of writes it has
    received is kept to speak about crashes. *)
Record Device := mkDev { medium : Z -> list Z; trace : list (Z * list Z) }.

Definition dev_write (no : Z) (d : list Z) (dv : Device) : Device :=
  mkDev (fun n => if n =? no then d else medium dv n) (trace dv ++ [(no, d)]).

(** * Data *)

Record Block := mkBlock {
  self : Z;
  block_no : Z;
  acquired : bool;
  pinned : bool;
  block_lock : SleepLock;
  valid : bool;
  data : list Z
}.

Record OpContext := mkOp {
  op_lock : SpinLock;
  ts : Z;
  op_num_blocks : Z;
  op_block_no : list Z
}.

Record bcache (A : Type) := mkCache {
  sblock : SuperBlock;
  device : Device;
  lock : SpinLock;
  arena : A;
  head : list Block;
  header : LogHeader;
  last_allocated_ts : Z;
  last_persisted_ts : Z;
  log_start : Z;
  log_size : Z;
  log_used : Z;
  op_count : Z;
  ops : gmap Z OpContext
}.
Arguments mkCache {A}.
Arguments sblock {A}.
Arguments device {A}.
Arguments lock {A}.
Arguments arena {A}.
Arguments head {A}.
Arguments header {A}.
Arguments last_allocated_ts {A}.
Arguments last_persisted_ts {A}.
Arguments log_start {A}.
Arguments log_size {A}.
Arguments log_used {A}.
Arguments op_count {A}.
Arguments ops {A}.

(** Assignments to one variable. *)
Section setters.
Context {A : Type}.
Definition set_device v (s : bcache A) : bcache A := mkCache (sblock s) v (lock s) (arena s) (head s) (header s)
  (last_allocated_ts s) (last_persisted_ts s) (log_start s) (log_size s) (log_used s) (op_count s) (ops s).
Definition set_lock v (s : bcache A) : bcache A := mkCache (sblock s) (device s) v (arena s) (head s) (header s)
  (last_allocated_ts s) (last_persisted_ts s) (log_start s) (log_size s) (log_used s) (op_count s) (ops s).
Definition set_arena (v : A) (s : bcache A) : bcache A := mkCache (sblock s) (device s) (lock s) v (head s) (header s)
  (last_allocated_ts s) (last_persisted_ts s) (log_start s) (log_size s) (log_used s) (op_count s) (ops s).
Definition set_head v (s : bcache A) : bcache A := mkCache (sblock s) (device s) (lock s) (arena s) v (header s)
  (last_allocated_ts s) (last_persisted_ts s) (log_start s) (log_size s) (log_used s) (op_count s) (ops s).
Definition set_header v (s : bcache A) : bcache A := mkCache (sblock s) (device s) (lock s) (arena s) (head s) v
  (last_allocated_ts s) (last_persisted_ts s) (log_start s) (log_size s) (log_used s) (op_count s) (ops s).
Definition set_last_allocated_ts v (s : bcache A) : bcache A := mkCache (sblock s) (device s) (lock s) (arena s) (head s) (header s)
  v (last_persisted_ts s) (log_start s) (log_size s) (log_used s) (op_count s) (ops s).
Definition set_last_persisted_ts v (s : bcache A) : bcache A := mkCache (sblock s) (device s) (lock s) (arena s) (head s) (header s)
  (last_allocated_ts s) v (log_start s) (log_size s) (log_used s) (op_count s) (ops s).
Definition set_log_size v (s : bcache A) : bcache A := mkCache (sblock s) (device s) (lock s) (arena s) (head s) (header s)
  (last_allocated_ts s) (last_persisted_ts s) (log_start s) v (log_used s) (op_count s) (ops s).
Definition set_log_used v (s : bcache A) : bcache A := mkCache (sblock s) (device s) (lock s) (arena s) (head s) (header s)
  (last_allocated_ts s) (last_persisted_ts s) (log_start s) (log_size s) v (op_count s) (ops s).
Definition set_op_count v (s : bcache A) : bcache A := mkCache (sblock s) (device s) (lock s) (arena s) (head s) (header s)
  (last_allocated_ts s) (last_persisted_ts s) (log_start s) (log_size s) (log_used s) v (ops s).
Definition set_ops v (s : bcache A) : bcache A := mkCache (sblock s) (device s) (lock s) (arena s) (head s) (header s)
  (last_allocated_ts s) (last_persisted_ts s) (log_start s) (log_size s) (log_used s) (op_count s) v.
End setters.

(** * Operations *)

(** The block at address [p], if it is one of the cache's. *)
Fixpoint block_at (p : Z) (l : list Block) : option Block :=
  match l with
  | [] => None
  | b :: l' => if self b =? p then Some b else block_at p l'
  end.

Definition upd_block (p : Z) (f : Block -> Block) (l : list Block) : list Block :=
  (fun b => if self b =? p then f b else b) <$> l.

Definition remove_block (p : Z) (l : list Block) : list Block := filter (fun b => self b <> p) l.

(** The search of cache_acquire: the block itself if cached; otherwise the last
    block met that may be evicted. *)
Fixpoint find_slot (no : Z) (slot : option Block) (l : list Block) : option Block :=
  match l with
  | [] => slot
  | b :: l' =>
      if block_no b =? no then Some b
      else find_slot no (if negb (acquired b) && negb (pinned b) then Some b else slot) l'
  end.

Definition init_block (p : Z) : Block := mkBlock p 0 false false init_sleeplock false zero_block.

Definition set_block_no (no : Z) (b : Block) : Block :=
  mkBlock (self b) no (acquired b) (pinned b) (block_lock b) (valid b) (data b).
Definition set_acquired (v : bool) (b : Block) : Block :=
  mkBlock (self b) (block_no b) v (pinned b) (block_lock b) (valid b) (data b).
Definition set_pinned (v : bool) (b : Block) : Block :=
  mkBlock (self b) (block_no b) (acquired b) v (block_lock b) (valid b) (data b).
Definition set_block_lock (v : SleepLock) (b : Block) : Block :=
  mkBlock (self b) (block_no b) (acquired b) (pinned b) v (valid b) (data b).
Definition set_valid (v : bool) (b : Block) : Block :=
  mkBlock (self b) (block_no b) (acquired b) (pinned b) (block_lock b) v (data b).
Definition set_data (d : list Z) (b : Block) : Block :=
  mkBlock (self b) (block_no b) (acquired b) (pinned b) (block_lock b) (valid b) d.

Section ops.
(** [me] is the CPU that runs the code. *)
Context {A : Type} `{ObjectArena A} (me : Z).

Definition lock_cache : M (bcache A) unit :=
  s ← get; l ← lift (acquire_spinlock me (lock s)); modify (set_lock l).
Definition unlock_cache : M (bcache A) unit :=
  s ← get; l ← lift (release_spinlock me (lock s)); modify (set_lock l).

(** [*p], a fault unless [p] is a block of the cache. *)
Definition load_block (p : Z) : M (bcache A) Block :=
  s ← get; match block_at p (head s) with Some b => mret b | None => fault end.
Definition write_block (p : Z) (f : Block -> Block) : M (bcache A) unit :=
  modify (fun s => set_head (upd_block p f (head s)) s).

(** Reads and writes of [block->data] by the holder of the block. *)
Definition get_data (p : Z) : M (bcache A) (list Z) := b ← load_block p; mret (data b).
Definition put_data (p : Z) (d : list Z) : M (bcache A) unit :=
  _ ← load_block p; write_block p (set_data d).

Definition device_read (p : Z) : M (bcache A) unit :=
  b ← load_block p;
  s ← get;
  write_block p (set_data (medium (device s) (block_no b))).
Definition device_write (p : Z) : M (bcache A) unit :=
  b ← load_block p;
  modify (fun s => set_device (dev_write (block_no b) (data b) (device s)) s).

Definition read_header : M (bcache A) unit :=
  modify (fun s => set_header (header_dec (medium (device s) (sb_log_start (sblock s)))) s).
Definition write_header : M (bcache A) unit :=
  modify (fun s => set_device (dev_write (sb_log_start (sblock s)) (header_enc (header s)) (device s)) s).

(** [header.block_no[i]]; past the end of the array it is undefined. *)
Definition header_block (i : Z) : M (bcache A) Z :=
  s ← get;
  if i <? Z.of_nat (length (hdr_block_no (header s))) then mret (zget (hdr_block_no (header s)) i)
  else fault.

Definition _get_num_cached_blocks (s : bcache A) : Z := Z.of_nat (length (head s)).

Definition get_num_cached_blocks : M (bcache A) Z :=
  lock_cache;; s ← get; unlock_cache;; mret (_get_num_cached_blocks s).

(** cache_acquire up to the release of the cache lock: find, evict or allocate
    the block, move it to the front and mark it acquired. *)
Definition acquire_slot (no : Z) : M (bcache A) Z :=
  lock_cache;;
  s ← get;
  let slot :=
    match find_slot no None (head s) with
    | Some b =>
        if negb (block_no b =? no) then
          if EVICTION_THRESHOLD <=? _get_num_cached_blocks s
          then Some (set_valid false (set_block_no no b))
          else None
        else Some b
    | None => None
    end in
  b ← match slot with
      | Some b => mret b
      | None =>
          '(p, a') ← lift (obj_alloc (arena s));
          modify (set_arena a');;
          assert (negb (p =? 0)) "slot != NULL";;
          mret (set_block_no no (init_block p))
      end;
  s ← get;
  put (set_head (set_acquired true b :: remove_block (self b) (head s)) s);;
  unlock_cache;;
  mret (self b).

(** The rest: take the sleeplock of the block and load it. *)
Definition acquire_load (p : Z) : M (bcache A) unit :=
  b ← load_block p;
  l ← lift (acquire_sleeplock me (block_lock b));
  write_block p (set_block_lock l);;
  b ← load_block p;
  if negb (valid b) then device_read p;; write_block p (set_valid true) else mret tt.

Definition cache_acquire (no : Z) : M (bcache A) Z :=
  p ← acquire_slot no; acquire_load p;; mret p.

(** cache_release: first the sleeplock of the block is released ... *)
Definition release_block_lock (p : Z) : M (bcache A) unit :=
  b ← load_block p;
  l ← lift (release_sleeplock me (block_lock b));
  write_block p (set_block_lock l).

(** ... then, under the cache lock, the flag is cleared. *)
Definition release_acquired (p : Z) : M (bcache A) unit :=
  lock_cache;;
  write_block p (set_acquired false);;
  unlock_cache.

Definition cache_release (p : Z) : M (bcache A) unit :=
  release_block_lock p;; release_acquired p.

(** ** Atomic operations *)

Definition load_op (ctx : Z) : M (bcache A) OpContext :=
  s ← get; match ops s !! ctx with Some c => mret c | None => fault end.
Definition store_op (ctx : Z) (c : OpContext) : M (bcache A) unit :=
  modify (fun s => set_ops (<[ctx := c]> (ops s)) s).

(** [while (log_used + OP_MAX_NUM_BLOCKS > log_size) sleep(...)] waits. *)
Definition cache_begin_op (ctx : Z) : M (bcache A) unit :=
  store_op ctx (mkOp init_spinlock 0 0 (replicate 10 0));;
  lock_cache;;
  s ← get;
  (if u64 (log_used s + OP_MAX_NUM_BLOCKS) >? log_size s then blocked else mret tt);;
  modify (fun s => set_log_used (u64 (log_used s + OP_MAX_NUM_BLOCKS)) s);;
  modify (fun s => set_last_allocated_ts (u64 (last_allocated_ts s + 1)) s);;
  s ← get;
  store_op ctx (mkOp init_spinlock (last_allocated_ts s) 0 (replicate 10 0));;
  modify (fun s => set_op_count (u64 (op_count s + 1)) s);;
  unlock_cache.

(** [for (; j < n; j++) if (arr[j] == no) break;]: the index it stops at. *)
Fixpoint find_index (no : Z) (arr : list Z) (j : Z) (n : nat) : Z :=
  match n with
  | O => j
  | S n' => if zget arr j =? no then j else find_index no arr (j + 1) n'
  end.

Definition lock_op (ctx : Z) : M (bcache A) unit :=
  c ← load_op ctx;
  l ← lift (acquire_spinlock me (op_lock c));
  store_op ctx (mkOp l (ts c) (op_num_blocks c) (op_block_no c)).
Definition unlock_op (ctx : Z) : M (bcache A) unit :=
  c ← load_op ctx;
  l ← lift (release_spinlock me (op_lock c));
  store_op ctx (mkOp l (ts c) (op_num_blocks c) (op_block_no c)).

Definition cache_sync (ctx p : Z) : M (bcache A) unit :=
  if negb (ctx =? 0) then
    lock_op ctx;;
    c ← load_op ctx;
    b ← load_block p;
    let i := find_index (block_no b) (op_block_no c) 0 (Z.to_nat (op_num_blocks c)) in
    assert (i <? OP_MAX_NUM_BLOCKS) "i < OP_MAX_NUM_BLOCKS";;
    store_op ctx (mkOp (op_lock c) (ts c)
      (if i >=? op_num_blocks c then u64 (op_num_blocks c + 1) else op_num_blocks c)
      (zset (op_block_no c) i (block_no b)));;
    unlock_op ctx;;
    lock_cache;;
    write_block p (set_pinned true);;
    unlock_cache
  else device_write p.

(** The body of the loop of commit for one block number; the carried value is
    [absorbed]. *)
Definition commit_block (no absorbed : Z) : M (bcache A) Z :=
  s ← get;
  let h := header s in
  let j := find_index no (hdr_block_no h) 0 (Z.to_nat (hdr_num_blocks h)) in
  assert (j <? log_size s) "j < log_size";;
  if j <? hdr_num_blocks h then
    modify (set_header (mkHeader (hdr_num_blocks h) (zset (hdr_block_no h) j no)));;
    mret (absorbed + 1)
  else
    modify (set_header (mkHeader (u64 (hdr_num_blocks h + 1)) (zset (hdr_block_no h) j no)));;
    mret absorbed.

Fixpoint commit_loop (nos : list Z) (absorbed : Z) : M (bcache A) Z :=
  match nos with
  | [] => mret absorbed
  | no :: nos' => a ← commit_block no absorbed; commit_loop nos' a
  end.

Definition commit (ctx : Z) : M (bcache A) unit :=
  lock_op ctx;;
  c ← load_op ctx;
  absorbed ← commit_loop (take (Z.to_nat (op_num_blocks c)) (op_block_no c)) 0;
  unlock_op ctx;;
  c ← load_op ctx;
  let unused := u64 (OP_MAX_NUM_BLOCKS - op_num_blocks c) in
  modify (fun s => set_log_used (u64 (log_used s - (unused + absorbed))) s).

(** Step 3 for log entry [i]. *)
Definition replay_block (i : Z) : M (bcache A) unit :=
  s ← get;
  src ← cache_acquire (log_start s + i);
  no ← header_block i;
  dest ← cache_acquire no;
  d ← get_data src;
  put_data dest d;;
  cache_release src;;
  device_write dest;;
  lock_cache;;
  write_block dest (set_pinned false);;
  unlock_cache;;
  cache_release dest.

Definition replay : M (bcache A) unit :=
  s ← get;
  if hdr_num_blocks (header s) =? 0 then mret tt else
  for_range 0 (Z.to_nat (hdr_num_blocks (header s))) replay_block;;
  modify (fun s => set_header (mkHeader 0 (hdr_block_no (header s))) s);;
  write_header.

(** Step 1 for log entry [i]. *)
Definition log_block (i : Z) : M (bcache A) unit :=
  no ← header_block i;
  src ← cache_acquire no;
  s ← get;
  dest ← cache_acquire (log_start s + i);
  d ← get_data src;
  put_data dest d;;
  cache_release src;;
  device_write dest;;
  cache_release dest.

Definition checkpoint : M (bcache A) unit :=
  s ← get;
  for_range 0 (Z.to_nat (hdr_num_blocks (header s))) log_block;;
  write_header;;
  replay;;
  lock_cache;;
  modify (fun s => set_last_persisted_ts (last_allocated_ts s) s);;
  unlock_cache.

(** cache_end_op up to the decision who checkpoints.  A thread that does not
    waits until its operation is persisted. *)
Definition end_op_commit (ctx : Z) : M (bcache A) (bool * Z) :=
  lock_cache;;
  commit ctx;;
  modify (fun s => set_op_count (u64 (op_count s - 1)) s);;
  s ← get;
  let do_checkpoint := op_count s =? 0 in
  let log_size_copy := log_size s in
  (if do_checkpoint then modify (set_log_size 0) else mret tt);;
  mret (do_checkpoint, log_size_copy).

Definition cache_end_op (ctx : Z) : M (bcache A) unit :=
  '(do_checkpoint, log_size_copy) ← end_op_commit ctx;
  if (do_checkpoint : bool) then
    unlock_cache;;
    checkpoint;;
    lock_cache;;
    modify (set_log_size log_size_copy);;
    modify (set_log_used 0);;
    unlock_cache
  else
    c ← load_op ctx;
    s ← get;
    (if ts c >? last_persisted_ts s then blocked else mret tt);;
    unlock_cache.

(** ** Block allocation *)

(** The inner loop of cache_alloc: the first clear bit [j] with
    [j < BIT_PER_BLOCK && i + j < num_blocks]. *)
Fixpoint find_free (bm : list Z) (i j nblocks : Z) (n : nat) : option Z :=
  match n with
  | O => None
  | S n' =>
      if i + j <? nblocks then
        if negb (bitmap_get bm j) then Some j else find_free bm i (j + 1) nblocks n'
      else None
  end.

Definition search_bitmap (d : list Z) (i nblocks : Z) : option Z :=
  find_free (cells_of_block d) i 0 nblocks (Z.to_nat BIT_PER_BLOCK).

Definition alloc_in_bitmap (ctx k : Z) : M (bcache A) (option Z) :=
  s ← get;
  let i := k * BIT_PER_BLOCK in
  p ← cache_acquire (bitmap_start (sblock s) + i / BIT_PER_BLOCK);
  d ← get_data p;
  match search_bitmap d i (num_blocks (sblock s)) with
  | Some j =>
      put_data p (block_of_cells (bitmap_set (cells_of_block d) j));;
      cache_sync ctx p;;
      cache_release p;;
      let no := i + j in
      p ← cache_acquire no;
      put_data p zero_block;;
      cache_sync ctx p;;
      cache_release p;;
      mret (Some no)
  | None => cache_release p;; mret None
  end.

Definition cache_alloc (ctx : Z) : M (bcache A) Z :=
  s ← get;
  let n := num_blocks (sblock s) in
  r ← for_until 0 (Z.to_nat ((n + BIT_PER_BLOCK - 1) / BIT_PER_BLOCK)) (alloc_in_bitmap ctx);
  match r with
  | Some no => mret no
  | None => panic "cache_alloc: no free block"
  end.

Definition cache_free (ctx no : Z) : M (bcache A) unit :=
  let i := no / BIT_PER_BLOCK in
  let j := no mod BIT_PER_BLOCK in
  s ← get;
  p ← cache_acquire (bitmap_start (sblock s) + i);
  d ← get_data p;
  assert (bitmap_get (cells_of_block d) j) "bitmap_get(bitmap, j)";;
  put_data p (block_of_cells (bitmap_clear (cells_of_block d) j));;
  cache_sync ctx p;;
  cache_release p.

(** ** Initialisation *)

(** The variables of cache.c after the assignments of init_bcache. *)
Definition fresh_bcache (sb : SuperBlock) (dv : Device) (a : A) : bcache A :=
  mkCache sb dv init_spinlock a [] (mkHeader 0 (replicate 63 0)) 0 0
    (sb_log_start sb + 1) (MIN (u32 (num_log_blocks sb - 1)) LOG_MAX_SIZE) 0 0 ∅.

Definition init_bcache (sb : SuperBlock) (dv : Device) (a : A) : outcome (bcache A) :=
  '(_, s) ← (read_header;; replay) (fresh_bcache sb dv a);
  Ret s.
End ops.
