(* ===== verification/CacheSpec.v ===== *)
(** The contract of the block cache (fs/cache.h) and the proof that cache.c
    implements it, for one CPU running the code.

    The abstract state keeps, instead of the list of cached blocks, the content
    of every block as a reader of the cache sees it ([view]), the device, which
    blocks are held through which pointers, and which are pinned.  [R] relates
    the variables of cache.c to it; every operation on a block is a step of the
    abstract state, whatever is cached, evicted or allocated underneath. *)
From S2P Require Import Prelude Bytes CString Bitmap Locks Arena FsDefs Cache.

(** * The abstract state *)

Record cspec := mkSpec {
  view : Z -> list Z;
  disk : Device;
  held : gmap Z Z;
  pin : gset Z
}.

Definition upd (v : Z -> list Z) (no : Z) (d : list Z) : Z -> list Z :=
  fun n => if n =? no then d else v n.

Definition sp_hold (p no : Z) (a : cspec) : cspec := mkSpec (view a) (disk a) (<[p := no]> (held a)) (pin a).
Definition sp_unhold (p : Z) (a : cspec) : cspec := mkSpec (view a) (disk a) (delete p (held a)) (pin a).
Definition sp_put (no : Z) (d : list Z) (a : cspec) : cspec := mkSpec (upd (view a) no d) (disk a) (held a) (pin a).
Definition sp_pin (no : Z) (a : cspec) : cspec := mkSpec (view a) (disk a) (held a) ({[no]} ∪ pin a).
Definition sp_unpin (no : Z) (a : cspec) : cspec := mkSpec (view a) (disk a) (held a) (pin a ∖ {[no]}).
Definition sp_write (no : Z) (a : cspec) : cspec :=
  mkSpec (view a) (dev_write no (view a no) (disk a)) (held a) (pin a).

(** A block nobody holds and nobody pinned is the same on the medium: it may be
    dropped from memory. *)
Definition clean (a : cspec) (no : Z) : Prop := view a no = medium (disk a) no.

(** * Lists of blocks *)

(** Reduce projections of updated blocks, and nothing else. *)
Ltac blk := cbn [self block_no acquired pinned block_lock valid data
  set_block_no set_acquired set_pinned set_block_lock set_valid set_data init_block].

Lemma block_at_Some p l b : block_at p l = Some b -> b ∈ l /\ self b = p.
Proof.
  induction l as [|c l IH]; cbn; [done |]. destruct (Z.eqb_spec (self c) p).
  - intros [= ->]. split; [left | done].
  - intros H. destruct (IH H). split; [by right | done].
Qed.

Lemma block_at_elem l b : NoDup (self <$> l) -> b ∈ l -> block_at (self b) l = Some b.
Proof.
  induction l as [|c l IH]; [by intros ? ?%not_elem_of_nil |].
  cbn. intros [Hn Hd]%NoDup_cons [->|Hb]%elem_of_cons.
  - by rewrite Z.eqb_refl.
  - destruct (Z.eqb_spec (self c) (self b)) as [E|]; [| auto].
    exfalso. apply Hn. rewrite E. by apply list_elem_of_fmap_2.
Qed.

Lemma elem_of_upd_block p f l b :
  b ∈ upd_block p f l <-> exists c, c ∈ l /\ b = if self c =? p then f c else c.
Proof. unfold upd_block. rewrite list_elem_of_fmap. naive_solver. Qed.

Lemma fmap_upd_block {B} (g : Block -> B) p f l :
  (forall b, b ∈ l -> self b = p -> g (f b) = g b) -> g <$> upd_block p f l = g <$> l.
Proof.
  intros Hg. unfold upd_block. rewrite <- list_fmap_compose. apply list_fmap_ext.
  intros i b Hb. cbn. destruct (Z.eqb_spec (self b) p); [| done].
  apply Hg; [by apply list_elem_of_lookup_2 in Hb | done].
Qed.

Lemma elem_of_remove_block p l b : b ∈ remove_block p l <-> self b <> p /\ b ∈ l.
Proof. unfold remove_block. by rewrite list_elem_of_filter. Qed.

Lemma remove_block_fresh p l : p ∉ self <$> l -> remove_block p l = l.
Proof.
  induction l as [|b l IH]; [done |]. rewrite fmap_cons, not_elem_of_cons. intros [Hp Hl].
  unfold remove_block in *. rewrite filter_cons_True by congruence. by rewrite IH.
Qed.

Lemma NoDup_remove_block {B} (g : Block -> B) p l : NoDup (g <$> l) -> NoDup (g <$> remove_block p l).
Proof.
  intros H. eapply sublist_NoDup; [done |]. apply fmap_sublist. unfold remove_block. apply sublist_filter.
Qed.

Lemma length_remove_block l b :
  NoDup (self <$> l) -> b ∈ l -> length l = S (length (remove_block (self b) l)).
Proof.
  induction l as [|c l IH]; [by intros ? ?%not_elem_of_nil |].
  rewrite fmap_cons. intros [Hn Hd]%NoDup_cons [->|Hb]%elem_of_cons.
  - unfold remove_block. rewrite filter_cons_False by auto.
    cbn [length]. f_equal.
    symmetry. f_equal. by apply (remove_block_fresh (self c) l).
  - unfold remove_block. rewrite filter_cons_True; [cbn [length]; f_equal; by apply IH |].
    intros E. apply Hn. rewrite E. by apply list_elem_of_fmap_2.
Qed.

Lemma NoDup_fmap_inj {B} (g : Block -> B) l b c :
  NoDup (g <$> l) -> b ∈ l -> c ∈ l -> g b = g c -> b = c.
Proof.
  induction l as [|x l IH]; [by intros ? ?%not_elem_of_nil |].
  cbn. intros [Hn Hd]%NoDup_cons Hb Hc E.
  apply elem_of_cons in Hb as [->|Hb]; apply elem_of_cons in Hc as [->|Hc]; auto.
  - exfalso. apply Hn. rewrite E. by apply list_elem_of_fmap_2.
  - exfalso. apply Hn. rewrite <- E. by apply list_elem_of_fmap_2.
Qed.

Lemma NoDup_length_size (l : list Z) (X : gset Z) :
  NoDup l -> (forall x, x ∈ l -> x ∈ X) -> (length l <= size X)%nat.
Proof.
  intros Hd Hs. rewrite <- (size_list_to_set (C := gset Z) l Hd). apply subseteq_size.
  intros x. rewrite elem_of_list_to_set. apply Hs.
Qed.

(** ** The search for a slot *)

Lemma find_slot_hit no l b : NoDup (block_no <$> l) -> b ∈ l -> block_no b = no ->
  forall slot, find_slot no slot l = Some b.
Proof.
  induction l as [|c l IH]; [by intros ? ?%not_elem_of_nil |].
  cbn. intros [Hn Hd]%NoDup_cons [->|Hb]%elem_of_cons E slot.
  - by rewrite (proj2 (Z.eqb_eq _ _)).
  - destruct (Z.eqb_spec (block_no c) no) as [E'|]; [| auto].
    exfalso. apply Hn. rewrite E', <- E. by apply list_elem_of_fmap_2.
Qed.

Lemma find_slot_miss no l : no ∉ block_no <$> l -> forall slot,
  match find_slot no slot l with
  | Some b => slot = Some b \/ (b ∈ l /\ acquired b = false /\ pinned b = false)
  | None => slot = None /\ forall b, b ∈ l -> acquired b || pinned b = true
  end.
Proof.
  induction l as [|c l IH]; cbn.
  - intros _ [b|]; [by left |]. split; [done |]. by intros b ?%not_elem_of_nil.
  - rewrite not_elem_of_cons. intros [Hc Hl] slot.
    destruct (Z.eqb_spec (block_no c) no); [congruence |].
    specialize (IH Hl (if negb (acquired c) && negb (pinned c) then Some c else slot)).
    destruct (find_slot _ _ l) as [b|] eqn:E.
    + destruct IH as [IH|(Hb & Ha & Hp)]; [| right; split_and!; auto; by right].
      destruct (acquired c) eqn:Ec; cbn in IH; [by left |].
      destruct (pinned c) eqn:Ep; cbn in IH; [by left |]. injection IH as ->.
      right. split_and!; auto. left.
    + destruct IH as [IH Hall]. assert (Hc' : acquired c || pinned c = true /\ slot = None).
      { destruct (acquired c), (pinned c); done. }
      split; [apply Hc' |]. intros b [->|Hb]%elem_of_cons; [apply Hc' | by apply Hall].
Qed.

(** * The abstraction relation *)

Section refinement.
(** [cap] bounds the number of blocks in memory: the arena can grow to it. *)
Context {A : Type} `{ObjectArena A} (me : Z) (cap : nat).
Implicit Types (s : bcache A) (a : cspec) (b : Block).

Record block_ok a b : Prop := {
  ok_lock : block_lock b = mkSleep init_spinlock (acquired b);
  ok_valid : valid b = true;
  ok_data : data b = view a (block_no b);
  ok_clean : acquired b = false -> pinned b = false -> clean a (block_no b);
  ok_held : acquired b = true <-> held a !! self b = Some (block_no b);
  ok_pin : pinned b = true <-> block_no b ∈ pin a
}.

Record R s a : Prop := {
  R_lock : lock s = init_spinlock;
  R_self : NoDup (self <$> head s);
  R_no : NoDup (block_no <$> head s);
  R_block : forall b, b ∈ head s -> block_ok a b;
  R_out : forall n, n ∉ block_no <$> head s -> clean a n /\ n ∉ pin a;
  R_held : forall p n, held a !! p = Some n -> exists b, b ∈ head s /\ self b = p /\ block_no b = n;
  R_disk : disk a = device s;
  R_wf : forall n, block_wf (view a n) /\ block_wf (medium (disk a) n);
  R_hdr : sb_log_start (sblock s) ∉ block_no <$> head s;
  R_room : exists L r, ar_inv (arena s) L r /\ (forall p, p ∈ self <$> head s -> p ∈ L) /\
    (20 <= cap <= length (self <$> head s) + r)%nat
}.

(** The variables that operations on blocks do not touch. *)
Definition env s :=
  (sblock s, header s, (last_allocated_ts s, last_persisted_ts s),
   (log_start s, log_size s, log_used s), op_count s, ops s).

(** A held pointer is a block of the list. *)
Lemma R_pointer s a p no : R s a -> held a !! p = Some no ->
  exists b, b ∈ head s /\ self b = p /\ block_no b = no /\ acquired b = true /\
    block_at p (head s) = Some b /\ block_ok a b.
Proof.
  intros HR Hp. destruct (R_held _ _ HR _ _ Hp) as (b & Hb & <- & <-).
  exists b. pose proof (R_block _ _ HR b Hb) as Hok. split_and!; auto.
  - by apply (ok_held _ _ Hok).
  - apply block_at_elem; [apply HR | done].
Qed.

(** Changing one block of the list in place. *)
Lemma R_update s s' a a' b f :
  R s a -> b ∈ head s ->
  s' = set_device (disk a') (set_head (upd_block (self b) f (head s)) s) ->
  self (f b) = self b -> block_no (f b) = block_no b -> block_lock (f b) = mkSleep init_spinlock (acquired (f b)) ->
  valid (f b) = true -> data (f b) = view a' (block_no b) ->
  (acquired (f b) = false -> pinned (f b) = false -> clean a' (block_no b)) ->
  (acquired (f b) = true <-> held a' !! self b = Some (block_no b)) ->
  (pinned (f b) = true <-> block_no b ∈ pin a') ->
  (forall n, n <> block_no b -> view a' n = view a n /\ medium (disk a') n = medium (disk a) n /\
    (n ∈ pin a' <-> n ∈ pin a)) ->
  (forall q, q <> self b -> held a' !! q = held a !! q) ->
  (forall n, held a' !! self b = Some n -> n = block_no b) ->
  block_wf (view a' (block_no b)) -> block_wf (medium (disk a') (block_no b)) ->
  R s' a'.
Proof.
  intros HR Hb -> Hself Hno Hlk Hv Hd Hc Hh Hp Hoth Hoh Hhb Hw Hwm.
  assert (Eb : forall c, c ∈ head s -> self c = self b -> c = b).
  { intros c Hc' E. eapply NoDup_fmap_inj; [apply HR | done.. ]. }
  assert (Es : self <$> upd_block (self b) f (head s) = self <$> head s).
  { apply fmap_upd_block. intros c Hc' E. by rewrite (Eb c Hc' E). }
  assert (En : block_no <$> upd_block (self b) f (head s) = block_no <$> head s).
  { apply fmap_upd_block. intros c Hc' E. by rewrite (Eb c Hc' E). }
  split; cbn; rewrite ?Es, ?En; try apply HR.
  - intros c (c0 & Hc0 & ->)%elem_of_upd_block.
    destruct (Z.eqb_spec (self c0) (self b)) as [E|Hne].
    + rewrite (Eb c0 Hc0 E). split; cbn; rewrite ?Hself, ?Hno; auto.
    + destruct (R_block _ _ HR c0 Hc0) as [? ? ? Hcl Hhe Hpi].
      assert (block_no c0 <> block_no b) as Hn0.
      { intros E. apply Hne. f_equal. eapply (NoDup_fmap_inj block_no); [apply HR | done..]. }
      destruct (Hoth _ Hn0) as (Hv' & Hm' & Hp').
      split; cbn; auto; unfold clean; rewrite ?Hv', ?Hm', ?Hoh, ?Hp' by done; auto.
  - intros n Hn. assert (n <> block_no b) as Hn0.
    { intros ->. apply Hn. by apply list_elem_of_fmap_2. }
    destruct (Hoth _ Hn0) as (Hv' & Hm' & Hp'). unfold clean. rewrite Hv', Hm', Hp'. by apply HR.
  - intros p n Hpn. destruct (decide (p = self b)) as [->|Hpb].
    + exists (f b). split_and!; [| done | by rewrite Hno, (Hhb n)].
      apply elem_of_upd_block. exists b. by rewrite Z.eqb_refl.
    + rewrite Hoh in Hpn by done. destruct (R_held _ _ HR _ _ Hpn) as (c & Hcin & Hcp & Hcn).
      exists c. split_and!; auto. apply elem_of_upd_block. exists c. split; [done |].
      destruct (Z.eqb_spec (self c) (self b)); congruence.
  - done.
  - intros n. destruct (decide (n = block_no b)) as [->|Hn]; [done |].
    destruct (Hoth _ Hn) as (-> & -> & _). apply HR.
Qed.

(** ** Primitive steps *)

Lemma wp_load_block E s p b Q : block_at p (head s) = Some b -> Q b s -> wp E (load_block p) Q s.
Proof. intros Hb HQ. unfold load_block. wp_steps. rewrite Hb. by apply wp_ret. Qed.

Lemma wp_lock_cache E s Q : lock s = init_spinlock ->
  Q tt (set_lock (mkSpin true (Some me)) s) -> wp E (lock_cache me) Q s.
Proof.
  intros Hl HQ. unfold lock_cache. wp_steps. rewrite Hl.
  eapply wp_lift; [apply acquire_free |]. by apply wp_modify.
Qed.

Lemma wp_unlock_cache E s Q : lock s = mkSpin true (Some me) ->
  Q tt (set_lock init_spinlock s) -> wp E (unlock_cache me) Q s.
Proof.
  intros Hl HQ. unfold unlock_cache. wp_steps. rewrite Hl.
  eapply wp_lift; [apply release_own |]. by apply wp_modify.
Qed.

(** A critical section that changes one block. *)
Lemma wp_locked_write E s p f Q : lock s = init_spinlock ->
  Q tt (set_head (upd_block p f (head s)) s) ->
  wp E (lock_cache me;; write_block p f;; unlock_cache me) Q s.
Proof.
  intros Hl HQ. apply wp_bind, wp_lock_cache; [done |]. apply wp_bind. apply wp_modify.
  apply wp_unlock_cache; [done |]. destruct s. cbn in *. by subst.
Qed.

Lemma upd_block_twice p f g l : (forall b, b ∈ l -> self b = p -> self (g b) = p) ->
  upd_block p f (upd_block p g l) = upd_block p (fun b => f (g b)) l.
Proof.
  intros Hg. unfold upd_block. rewrite <- list_fmap_compose. apply list_fmap_ext.
  intros i b Hb%list_elem_of_lookup_2. cbn. destruct (Z.eqb_spec (self b) p) as [E|E].
  - rewrite Hg, Z.eqb_refl by done. done.
  - by rewrite (proj2 (Z.eqb_neq _ _)).
Qed.

Lemma block_at_upd p f l b : block_at p l = Some b -> (forall c, self (f c) = self c) ->
  block_at p (upd_block p f l) = Some (f b).
Proof.
  intros Hb Hf. induction l as [|c l IH]; [done |]. cbn in *.
  destruct (Z.eqb_spec (self c) p) as [E|E].
  - injection Hb as ->. by rewrite Hf, (proj2 (Z.eqb_eq _ _)).
  - rewrite (proj2 (Z.eqb_neq _ _)) by done. auto.
Qed.

(** The state after a change of the list alone, in the form of [R_update]. *)
Lemma set_head_only s a l : R s a -> set_head l s = set_device (disk a) (set_head l s).
Proof. intros HR. rewrite (R_disk _ _ HR). by destruct s. Qed.

(** ** Reading and writing a held block *)

Lemma get_data_ok E s a p no Q : R s a -> held a !! p = Some no ->
  Q (view a no) s -> wp E (get_data p) Q s.
Proof.
  intros HR Hp HQ. destruct (R_pointer _ _ _ _ HR Hp) as (b & _ & _ & <- & _ & Hat & Hok).
  unfold get_data. apply wp_bind. eapply wp_load_block; [done |]. apply wp_ret.
  by rewrite (ok_data _ _ Hok).
Qed.

Lemma put_data_ok E s a p no d Q : R s a -> held a !! p = Some no -> block_wf d ->
  (forall s', R s' (sp_put no d a) -> env s' = env s -> Q tt s') -> wp E (put_data p d) Q s.
Proof.
  intros HR Hp Hd HQ. destruct (R_pointer _ _ _ _ HR Hp) as (b & Hb & <- & <- & Ha & Hat & Hok).
  unfold put_data. apply wp_bind. eapply wp_load_block; [done |]. apply wp_modify. apply HQ; [| done].
  destruct Hok. eapply (R_update s _ a _ b (set_data d)); cbn; unfold upd; rewrite ?Z.eqb_refl;
    eauto using set_head_only; try done.
  - congruence.
  - intros n Hn. by rewrite (proj2 (Z.eqb_neq _ _)).
  - intros n. rewrite Hp. by intros [= ->].
  - apply HR.
Qed.

Lemma upd_block_id p l : upd_block p (fun b => b) l = l.
Proof.
  unfold upd_block. rewrite <- (list_fmap_id l) at 2. apply list_fmap_ext.
  intros i b _. by destruct (self b =? p).
Qed.

Lemma device_write_ok E s a p no Q : R s a -> held a !! p = Some no ->
  (forall s', R s' (sp_write no a) -> env s' = env s -> Q tt s') -> wp E (device_write p) Q s.
Proof.
  intros HR Hp HQ. destruct (R_pointer _ _ _ _ HR Hp) as (b & Hb & <- & <- & Ha & Hat & Hok).
  unfold device_write. apply wp_bind. eapply wp_load_block; [done |]. apply wp_modify. apply HQ; [| done].
  destruct Hok as [Hlk Hv Hd Hc Hh Hpn].
  eapply (R_update s _ a _ b (fun b => b)); cbn; rewrite ?Z.eqb_refl; eauto; try done.
  - rewrite upd_block_id, Hd, (R_disk _ _ HR). by destruct s.
  - congruence.
  - intros n Hn. by rewrite (proj2 (Z.eqb_neq _ _)).
  - intros n. rewrite Hp. by intros [= ->].
  - apply HR.
  - apply HR.
Qed.

Lemma set_pinned_ok E s a p no (v : bool) Q : R s a -> held a !! p = Some no ->
  (forall s', R s' (if v then sp_pin no a else sp_unpin no a) -> env s' = env s -> Q tt s') ->
  wp E (lock_cache me;; write_block p (set_pinned v);; unlock_cache me) Q s.
Proof.
  intros HR Hp HQ. destruct (R_pointer _ _ _ _ HR Hp) as (b & Hb & <- & <- & Ha & Hat & Hok).
  apply wp_locked_write; [apply HR |]. apply HQ; [| done].
  destruct Hok as [Hlk Hv Hd Hc Hh Hpn].
  eapply (R_update s _ a _ b (set_pinned v)); cbn; eauto; try done.
  - destruct v; cbn; rewrite (R_disk _ _ HR); by destruct s.
  - destruct v; done.
  - congruence.
  - destruct v; done.
  - destruct v; cbn; set_solver.
  - intros n Hn. destruct v; cbn; set_solver.
  - destruct v; done.
  - intros n. destruct v; cbn; rewrite Hp; by intros [= ->].
  - destruct v; apply HR.
  - destruct v; apply HR.
Qed.

(** The same section in the middle of a function. *)
Lemma set_pinned_then E s a p no (v : bool) (k : M (bcache A) unit) Q : R s a -> held a !! p = Some no ->
  (forall s', R s' (if v then sp_pin no a else sp_unpin no a) -> env s' = env s -> wp E k Q s') ->
  wp E (lock_cache me;; write_block p (set_pinned v);; unlock_cache me;; k) Q s.
Proof.
  intros HR Hp Hk. pose proof (set_pinned_ok E s a p no v (fun _ => wp E k Q) HR Hp Hk) as W.
  apply wp_bind_inv in W. apply wp_bind. wp_use W. intros [] s1 W1.
  apply wp_bind_inv in W1. apply wp_bind. wp_use W1. intros [] s2 W2. apply wp_bind. exact W2.
Qed.

Lemma cache_release_ok E s a p no Q : R s a -> held a !! p = Some no ->
  no ∈ pin a \/ clean a no ->
  (forall s', R s' (sp_unhold p a) -> env s' = env s -> Q tt s') -> wp E (cache_release me p) Q s.
Proof.
  intros HR Hp Hcl HQ. destruct (R_pointer _ _ _ _ HR Hp) as (b & Hb & <- & <- & Ha & Hat & Hok).
  destruct Hok as [Hlk Hv Hd Hc Hh Hpn].
  unfold cache_release, release_block_lock, release_acquired. apply wp_bind, wp_bind.
  eapply wp_load_block; [done |]. apply wp_bind.
  eapply wp_lift; [rewrite Hlk; apply release_sleeplock_held |]. apply wp_modify.
  apply wp_locked_write; [apply HR |]. apply HQ; [| done].
  set (g := set_block_lock (mkSleep init_spinlock false)). cbn [set_head head].
  rewrite upd_block_twice by done. eapply (R_update s _ a _ b (fun b => set_acquired false (g b))); cbn; eauto; try done.
  - rewrite (R_disk _ _ HR). by destruct s.
  - intros _ Hpf. destruct Hcl as [Hin|]; [| done]. apply Hpn in Hin. congruence.
  - rewrite lookup_delete_eq. done.
  - intros q Hq. by rewrite lookup_delete_ne.
  - intros n. by rewrite lookup_delete_eq.
  - apply HR.
  - apply HR.
Qed.

(** ** Acquiring a block *)

(** The block [cache_acquire] leaves at the front of the list. *)
Definition loaded (dv : Device) (b : Block) : Block :=
  mkBlock (self b) (block_no b) true (pinned b) (mkSleep init_spinlock true) true
    (if valid b then data b else medium dv (block_no b)).

Lemma upd_block_front p f b l : self b = p -> p ∉ self <$> l -> upd_block p f (b :: l) = f b :: l.
Proof.
  intros <- Hl. unfold upd_block. rewrite fmap_cons, Z.eqb_refl. f_equal.
  rewrite <- (list_fmap_id l) at 2. apply list_fmap_ext. intros i c Hc%list_elem_of_lookup_2.
  rewrite (proj2 (Z.eqb_neq _ _)); [done |]. intros E. apply Hl. rewrite <- E. by apply list_elem_of_fmap_2.
Qed.

Lemma wp_write_front E s p f b l Q : head s = b :: l -> self b = p -> p ∉ self <$> l ->
  Q tt (set_head (f b :: l) s) -> wp E (write_block p f) Q s.
Proof. intros Hs Hb Hl HQ. apply wp_modify. by rewrite Hs, upd_block_front. Qed.

Lemma wp_load_front E s p b l Q : head s = b :: l -> self b = p -> Q b s -> wp E (load_block p) Q s.
Proof. intros Hs <- HQ. apply (wp_load_block E s (self b) b); [| done]. rewrite Hs. cbn. by rewrite Z.eqb_refl. Qed.

Lemma acquire_load_ok E s b l Q : head s = b :: l -> self b ∉ self <$> l ->
  block_lock b = init_sleeplock -> acquired b = true ->
  Q tt (set_head (loaded (device s) b :: l) s) -> wp E (acquire_load me (self b)) Q s.
Proof.
  intros Hs Hl Hlk Ha HQ. unfold acquire_load.
  apply wp_bind. eapply wp_load_front; [done.. |].
  apply wp_bind. eapply wp_lift; [rewrite Hlk; apply acquire_sleeplock_free |].
  apply wp_bind. eapply wp_write_front; [done.. |].
  apply wp_bind. eapply wp_load_front; [done.. |]. cbn [set_block_lock valid].
  destruct (valid b) eqn:Hv; cbn [negb].
  - apply wp_ret. unfold loaded in HQ. rewrite Hv in HQ. destruct b; cbn in *. by subst.
  - unfold device_read. apply wp_bind, wp_bind. eapply wp_load_front; [done.. |].
    apply wp_bind, wp_get. eapply wp_write_front; [done.. |]. eapply wp_write_front; [done.. |].
    unfold loaded in HQ. rewrite Hv in HQ. destruct s, b; cbn in *. by subst.
Qed.

(** A loaded block at the front of the list. *)
Lemma R_front s a b ar :
  R s a -> self b ∉ dom (held a) -> (forall q, held a !! q <> Some (block_no b)) ->
  block_no b <> sb_log_start (sblock s) ->
  (forall c, c ∈ head s -> self c = self b -> block_no c = block_no b \/ acquired c = false /\ pinned c = false) ->
  (forall c, c ∈ head s -> block_no c = block_no b -> self c = self b) ->
  acquired b = true -> block_lock b = mkSleep init_spinlock true -> valid b = true ->
  data b = view a (block_no b) -> (pinned b = true <-> block_no b ∈ pin a) ->
  (exists L r, ar_inv ar L r /\ self b ∈ L /\ (forall p, p ∈ self <$> head s -> p ∈ L) /\
    (cap <= S (length (remove_block (self b) (head s))) + r)%nat) ->
  R (set_arena ar (set_head (b :: remove_block (self b) (head s)) s)) (sp_hold (self b) (block_no b) a).
Proof.
  intros HR Hnd Hnh Hlog Hold Hsame Ha Hlk Hv Hd Hp (L & r & Hlive & Hbl & Hsub & Hroom).
  assert (Hin : forall c, c ∈ remove_block (self b) (head s) ->
    self c <> self b /\ block_no c <> block_no b /\ block_ok a c).
  { intros c [Hc1 Hc2]%elem_of_remove_block. split_and!; [done | | by apply HR].
    intros E. apply Hc1. by apply Hsame. }
  split; cbn [set_arena set_head head lock sblock arena device sp_hold view disk held pin]; try apply HR.
  - rewrite fmap_cons. apply NoDup_cons. split; [| by apply NoDup_remove_block, HR].
    intros (c & E & Hc)%list_elem_of_fmap. by destruct (Hin c Hc) as (? & _).
  - rewrite fmap_cons. apply NoDup_cons. split; [| by apply NoDup_remove_block, HR].
    intros (c & E & Hc)%list_elem_of_fmap. by destruct (Hin c Hc) as (_ & ? & _).
  - intros c [->|Hc]%elem_of_cons.
    + split; cbn; rewrite ?lookup_insert_eq; try done; congruence.
    + destruct (Hin c Hc) as (Hs1 & Hn1 & []). split; cbn; rewrite ?lookup_insert_ne by done; auto.
  - intros n. rewrite fmap_cons, not_elem_of_cons. intros [Hn Hnr].
    destruct (decide (n ∈ block_no <$> head s)) as [Hcn|]; [| by apply HR].
    apply list_elem_of_fmap in Hcn as (c & -> & Hc).
    assert (self c = self b) as Ec.
    { destruct (decide (self c = self b)) as [|Hne]; [done |]. exfalso. apply Hnr.
      apply list_elem_of_fmap_2, elem_of_remove_block. done. }
    destruct (Hold c Hc Ec) as [|[Hca Hcp]]; [done |]. destruct (R_block _ _ HR c Hc) as [_ _ _ Hcl _ Hpn].
    split; [by apply Hcl |]. intros Hc'%Hpn. congruence.
  - intros p n. destruct (decide (p = self b)) as [->|Hne].
    + rewrite lookup_insert_eq. intros [= <-]. exists b. split_and!; [left | done..].
    + rewrite lookup_insert_ne by done. intros Hpn.
      destruct (R_held _ _ HR _ _ Hpn) as (c & Hc & <- & <-). exists c. split_and!; [| done..].
      right. by apply elem_of_remove_block.
  - rewrite fmap_cons, not_elem_of_cons. split; [done |]. intros (c & E & Hc)%list_elem_of_fmap.
    apply elem_of_remove_block in Hc as [_ Hc]. apply (R_hdr _ _ HR). rewrite E. by apply list_elem_of_fmap_2.
  - destruct (R_room _ _ HR) as (L0 & r0 & _ & _ & Hcap). exists L, r. split_and!; [done | | lia |].
    + intros p. rewrite fmap_cons. intros [->|(c & -> & Hc)%list_elem_of_fmap]%elem_of_cons; [done |].
      apply elem_of_remove_block in Hc as [_ Hc]. by apply Hsub, list_elem_of_fmap_2.
    + rewrite length_fmap. cbn. lia.
Qed.

(** What [acquire_slot] chooses: the block itself when it is cached, a clean
    one recycled, or a new one. *)
Record slot_ok s a (no : Z) (b : Block) (ar : A) : Prop := {
  sl_no : block_no b = no;
  sl_acq : acquired b = true;
  sl_lock : block_lock b = init_sleeplock;
  sl_data : (if valid b then data b else medium (device s) no) = view a no;
  sl_pin : pinned b = true <-> no ∈ pin a;
  sl_free : self b ∉ dom (held a);
  sl_old : forall c, c ∈ head s -> self c = self b -> block_no c = no \/ acquired c = false /\ pinned c = false;
  sl_same : forall c, c ∈ head s -> block_no c = no -> self c = self b;
  sl_room : exists L r, ar_inv ar L r /\ self b ∈ L /\ (forall p, p ∈ self <$> head s -> p ∈ L) /\
    (cap <= S (length (remove_block (self b) (head s))) + r)%nat
}.

Lemma slot_room_old s a b : R s a -> b ∈ head s ->
  exists L r, ar_inv (arena s) L r /\ self b ∈ L /\ (forall p, p ∈ self <$> head s -> p ∈ L) /\
    (cap <= S (length (remove_block (self b) (head s))) + r)%nat.
Proof.
  intros HR Hb. destruct (R_room _ _ HR) as (L & r & HL & Hin & Hcap). exists L, r. split_and!; [done | | done |].
  - by apply Hin, list_elem_of_fmap_2.
  - rewrite length_fmap in Hcap. rewrite <- length_remove_block by (apply HR || done). lia.
Qed.

Lemma slot_cached s a no b :
  R s a -> (forall q, held a !! q <> Some no) -> b ∈ head s -> block_no b = no ->
  slot_ok s a no (set_acquired true b) (arena s).
Proof.
  intros HR Hnh Hb <-. destruct (R_block _ _ HR b Hb) as [Hlk Hv Hd Hc Hh Hp].
  assert (acquired b = false) as Hna.
  { destruct (acquired b); [| done]. destruct Hh as [Hh _]. by destruct (Hnh _ (Hh eq_refl)). }
  rewrite Hna in Hlk. split; blk; auto.
  - by rewrite Hv.
  - rewrite elem_of_dom. intros [n Hn]. destruct (R_held _ _ HR _ _ Hn) as (c & Hcin & Ec & <-).
    assert (c = b) as -> by (eapply NoDup_fmap_inj; [apply HR | done..]). by apply (Hnh (self b)).
  - intros c Hcin E. left. f_equal. eapply NoDup_fmap_inj; [apply HR | done..].
  - intros c Hcin E. f_equal. eapply (NoDup_fmap_inj block_no); [apply HR | done..].
  - by apply (slot_room_old s a).
Qed.

Lemma slot_evicted s a no b :
  R s a -> no ∉ block_no <$> head s -> b ∈ head s -> acquired b = false -> pinned b = false ->
  slot_ok s a no (set_acquired true (set_valid false (set_block_no no b))) (arena s).
Proof.
  intros HR Hno Hb Ha Hpn. destruct (R_block _ _ HR b Hb) as [Hlk Hv Hd Hc Hh Hp].
  assert (Hmiss : forall c, c ∈ head s -> block_no c <> no).
  { intros c Hcin E. apply Hno. rewrite <- E. by apply list_elem_of_fmap_2. }
  destruct (R_out _ _ HR no Hno) as [Hcl Hnp].
  rewrite Ha in Hlk. split; blk; auto.
  - by rewrite <- (R_disk _ _ HR).
  - rewrite Hpn. done.
  - rewrite elem_of_dom. intros [n Hn]. destruct (R_held _ _ HR _ _ Hn) as (c & Hcin & Ec & <-).
    assert (c = b) as -> by (eapply NoDup_fmap_inj; [apply HR | done..]).
    apply Hh in Hn. congruence.
  - intros c Hcin E. right. assert (c = b) as -> by (eapply NoDup_fmap_inj; [apply HR | done..]). done.
  - intros c Hcin E. by destruct (Hmiss c Hcin).
  - by apply (slot_room_old s a).
Qed.

Lemma slot_fresh s a no p ar (L : gset Z) r :
  R s a -> no ∉ block_no <$> head s -> (forall p, p ∈ self <$> head s -> p ∈ L) ->
  (20 <= cap <= length (self <$> head s) + S r)%nat -> p ∉ L -> ar_inv ar ({[p]} ∪ L) r ->
  slot_ok s a no (set_acquired true (set_block_no no (init_block p))) ar.
Proof.
  intros HR Hno Hin Hroom Hp Hlive.
  assert (Hfresh : forall c, c ∈ head s -> self c <> p).
  { intros c Hcin <-. by apply Hp, Hin, list_elem_of_fmap_2. }
  destruct (R_out _ _ HR no Hno) as [Hcl Hnp].
  split; blk; auto.
  - by rewrite <- (R_disk _ _ HR).
  - done.
  - rewrite elem_of_dom. intros [n Hn]. destruct (R_held _ _ HR _ _ Hn) as (c & Hcin & Ec & _).
    by apply (Hfresh c).
  - intros c Hcin E. by destruct (Hfresh c Hcin).
  - intros c Hcin E. exfalso. apply Hno. rewrite <- E. by apply list_elem_of_fmap_2.
  - exists ({[p]} ∪ L), r. split_and!; [done | | |].
    + apply elem_of_union. left. by apply elem_of_singleton.
    + intros q Hq. apply elem_of_union. right. by apply Hin.
    + rewrite length_fmap in Hroom. rewrite remove_block_fresh; [lia |].
      intros (c & E & Hcin)%list_elem_of_fmap. by apply (Hfresh c).
Qed.

(** When nothing can be evicted, the cache is no larger than what is in use. *)
Lemma all_busy_bound s a : R s a -> (forall b, b ∈ head s -> acquired b || pinned b = true) ->
  (length (head s) <= size (held a) + size (pin a))%nat.
Proof.
  intros HR Hall.
  assert (Hsplit : forall l : list Block, (forall b, b ∈ l -> acquired b || pinned b = true) ->
    (length l <= length (filter (fun b => acquired b = true) l) + length (filter (fun b => pinned b = true) l))%nat).
  { induction l as [|b l IH]; [cbn; lia |]. intros Hl.
    assert (acquired b || pinned b = true) as Hb by (apply Hl; left).
    assert (IHl := IH (fun c Hc => Hl c (list_elem_of_further _ _ _ Hc))).
    rewrite !filter_cons. repeat case_decide; cbn in *; try lia.
    destruct (acquired b), (pinned b); done. }
  specialize (Hsplit _ Hall). etransitivity; [exact Hsplit |]. apply Nat.add_le_mono.
  - rewrite <- size_dom, <- (length_fmap self). apply NoDup_length_size.
    + eapply sublist_NoDup; [apply (R_self _ _ HR) |]. apply fmap_sublist, sublist_filter.
    + intros x (b & -> & [Ha Hb]%list_elem_of_filter)%list_elem_of_fmap.
      apply elem_of_dom. exists (block_no b). by apply (ok_held _ _ (R_block _ _ HR b Hb)).
  - rewrite <- (length_fmap block_no). apply NoDup_length_size.
    + eapply sublist_NoDup; [apply (R_no _ _ HR) |]. apply fmap_sublist, sublist_filter.
    + intros x (b & -> & [Ha Hb]%list_elem_of_filter)%list_elem_of_fmap.
      by apply (ok_pin _ _ (R_block _ _ HR b Hb)).
Qed.

Lemma acquire_slot_ok E s a no Q : R s a -> (forall q, held a !! q <> Some no) ->
  (size (held a) + size (pin a) < cap)%nat ->
  (forall b ar, slot_ok s a no b ar ->
    Q (self b) (set_arena ar (set_head (b :: remove_block (self b) (head s)) s))) ->
  wp E (acquire_slot me no) Q s.
Proof.
  intros HR Hnh Hcap HQ. unfold acquire_slot.
  apply wp_bind, wp_lock_cache; [apply HR |]. apply wp_bind, wp_get. cbn [head set_lock].
  set (s1 := set_lock (mkSpin true (Some me)) s).
  assert (Hfin : forall b ar, slot_ok s a no (set_acquired true b) ar ->
    wp E (s0 ← get; put (set_head (set_acquired true b :: remove_block (self b) (head s0)) s0);;
          unlock_cache me;; mret (self b)) Q (set_arena ar s1)).
  { intros b ar Hok. apply wp_bind, wp_get. apply wp_bind, wp_put. apply wp_bind, wp_unlock_cache; [done |].
    apply wp_ret. specialize (HQ _ _ Hok). pose proof (R_lock _ _ HR) as Hl.
    destruct s; cbn in *. by subst. }
  assert (Hkeep : set_arena (arena s) s1 = s1) by (by destruct s).
  (* the new block *)
  destruct (R_room _ _ HR) as (L & r & HL & HinL & Hroom). rewrite length_fmap in Hroom.
  assert (Hnew : no ∉ block_no <$> head s -> (0 < r)%nat ->
    wp E (b ← ('(p, a') ← lift (obj_alloc (arena s1));
               modify (set_arena a');;
               assert (negb (p =? 0)) "slot != NULL";;
               mret (set_block_no no (init_block p)));
          s0 ← get; put (set_head (set_acquired true b :: remove_block (self b) (head s0)) s0);;
          unlock_cache me;; mret (self b)) Q s1).
  { intros Hno Hr. destruct r as [|r]; [lia |].
    destruct (obj_alloc_ok (arena s) L r HL) as (p & ar & Ea & Hp0 & Hp & Hlive).
    apply wp_bind, wp_bind. eapply wp_lift; [exact Ea |]. apply wp_bind, wp_modify.
    apply wp_bind, wp_assert; [by destruct (Z.eqb_spec p 0) |]. apply wp_ret. apply Hfin.
    apply (slot_fresh s a no p ar L r); [done | done | done | rewrite length_fmap; lia | done | done]. }
  destruct (decide (no ∈ block_no <$> head s)) as [Hin|Hno].
  - apply list_elem_of_fmap in Hin as (b & -> & Hb).
    rewrite (find_slot_hit _ _ b) by (apply HR || done). rewrite Z.eqb_refl. cbn [negb].
    apply wp_bind, wp_ret. rewrite <- Hkeep. apply Hfin. by apply slot_cached.
  - pose proof (find_slot_miss no (head s) Hno None) as Hfs.
    destruct (find_slot no None (head s)) as [b|].
    + destruct Hfs as [|(Hb & Ha & Hp)]; [done |].
      rewrite (proj2 (Z.eqb_neq (block_no b) no)) by (intros <-; apply Hno; by apply list_elem_of_fmap_2).
      cbn [negb]. destruct (Z.leb_spec EVICTION_THRESHOLD (_get_num_cached_blocks s1)) as [Hle|Hlt].
      * apply wp_bind, wp_ret. rewrite <- Hkeep. apply Hfin. by apply slot_evicted.
      * apply Hnew; [done |]. unfold _get_num_cached_blocks, EVICTION_THRESHOLD in Hlt. cbn in Hlt. lia.
    + destruct Hfs as [_ Hall]. pose proof (all_busy_bound s a HR Hall). apply Hnew; [done | lia].
Qed.

Lemma cache_acquire_ok E s a no Q : R s a -> (forall q, held a !! q <> Some no) ->
  (size (held a) + size (pin a) < cap)%nat -> no <> sb_log_start (sblock s) ->
  (forall p s', R s' (sp_hold p no a) -> held a !! p = None -> env s' = env s -> Q p s') ->
  wp E (cache_acquire me no) Q s.
Proof.
  intros HR Hnh Hcap Hlog HQ. unfold cache_acquire. apply wp_bind.
  eapply acquire_slot_ok; [done.. |]. intros b ar Hok. destruct Hok.
  assert (Hb : self b ∉ self <$> remove_block (self b) (head s)).
  { intros (c & E1 & [Hne _]%elem_of_remove_block)%list_elem_of_fmap. congruence. }
  apply wp_bind. eapply acquire_load_ok; [done.. |]. apply wp_ret.
  assert (En : block_no (loaded (device s) b) = no) by done.
  apply HQ; [| by apply not_elem_of_dom | done].
  replace (sp_hold (self b) no a) with (sp_hold (self (loaded (device s) b)) (block_no (loaded (device s) b)) a)
    by (by rewrite En).
  apply (R_front s a (loaded (device s) b) ar HR); rewrite ?En; try done.
  cbn [loaded data]. by rewrite sl_no0.
Qed.
End refinement.
