(* ===== verification/CacheLog.v ===== *)
(** The write-ahead log of fs/cache.c: the exact sequence of device writes made
    by [checkpoint] and [replay], and their effect on the content of the blocks.
    Everything is stated on the abstract state of CacheSpec.v. *)
From S2P Require Import Prelude Bytes CString Bitmap Locks Arena FsDefs Cache CacheSpec.

(** * Sequences of block updates *)

Notation writes := (list (Z * list Z)).

Definition upds (v : Z -> list Z) (ws : writes) : Z -> list Z :=
  foldl (fun v w => upd v w.1 w.2) v ws.

Definition dev_writes (dv : Device) (ws : writes) : Device :=
  foldl (fun dv w => dev_write w.1 w.2 dv) dv ws.

(** Blocks written both in memory and on the device. *)
Definition sp_through (ws : writes) (a : cspec) : cspec :=
  mkSpec (upds (view a) ws) (dev_writes (disk a) ws) (held a) (pin a).

Lemma upds_app v ws1 ws2 : upds v (ws1 ++ ws2) = upds (upds v ws1) ws2.
Proof. apply foldl_app. Qed.

Lemma upds_one v n d : upds v [(n, d)] = upd v n d.
Proof. done. Qed.

Lemma dev_writes_app dv ws1 ws2 : dev_writes dv (ws1 ++ ws2) = dev_writes (dev_writes dv ws1) ws2.
Proof. apply foldl_app. Qed.

Lemma medium_dev_writes ws : forall dv, medium (dev_writes dv ws) = upds (medium dv) ws.
Proof. induction ws as [|w ws IH]; intros dv; [done |]. cbn. by rewrite IH. Qed.

Lemma trace_dev_writes ws : forall dv, trace (dev_writes dv ws) = trace dv ++ ws.
Proof.
  induction ws as [|[n d] ws IH]; intros dv; cbn; [by rewrite app_nil_r |].
  rewrite IH. cbn. by rewrite <- app_assoc.
Qed.

Lemma upds_notin ws n : n ∉ ws.*1 -> forall v, upds v ws n = v n.
Proof.
  induction ws as [|w ws IH]; [done |]. rewrite fmap_cons, not_elem_of_cons. intros [Hn Hw] v.
  cbn. rewrite IH by done. unfold upd. by rewrite (proj2 (Z.eqb_neq _ _)).
Qed.

Lemma upds_in ws n d : NoDup ws.*1 -> (n, d) ∈ ws -> forall v, upds v ws n = d.
Proof.
  induction ws as [|w ws IH]; [by intros ? ?%not_elem_of_nil |].
  rewrite fmap_cons. intros [Hn Hd]%NoDup_cons [<-|Hw]%elem_of_cons v; cbn.
  - rewrite upds_notin by done. unfold upd. cbn. by rewrite Z.eqb_refl.
  - by apply IH.
Qed.

(** Updates by the same writes are determined by them wherever they write. *)
Lemma upds_agree ws n : n ∈ ws.*1 -> forall v v', upds v ws n = upds v' ws n.
Proof.
  induction ws as [|w ws IH] using rev_ind; [by intros ?%not_elem_of_nil |].
  intros Hn v v'. rewrite !upds_app. cbn. unfold upd. destruct (Z.eqb_spec n w.1); [done |].
  apply IH. rewrite fmap_app, elem_of_app in Hn. destruct Hn as [|Hn]; [done |].
  by apply list_elem_of_singleton in Hn.
Qed.

(** * The writes of the log *)

(** Step 1: block [b_i] goes to log slot [ls + i]. *)
Definition log_writes (v : Z -> list Z) (ls : Z) (bl : list Z) : writes :=
  imap (fun i b => (ls + Z.of_nat i, v b)) bl.

(** Step 3: log slot [ls + i] goes to block [b_i]. *)
Definition home_writes (v : Z -> list Z) (ls : Z) (bl : list Z) : writes :=
  imap (fun i b => (b, v (ls + Z.of_nat i))) bl.

(** The blocks recorded in a header. *)
Definition recorded (h : LogHeader) : list Z := take (Z.to_nat (hdr_num_blocks h)) (hdr_block_no h).

(** The log area of a file system: the header block and the slots. *)
Definition in_log (sb : SuperBlock) (n : Z) : Prop :=
  sb_log_start sb <= n < sb_log_start sb + num_log_blocks sb.

(** A header that can be replayed: it fits the log, and names distinct blocks
    outside of the log area. *)
Record header_ok (sb : SuperBlock) (h : LogHeader) : Prop := {
  ho_wf : header_wf h;
  ho_num : hdr_num_blocks h <= 63;
  ho_fit : hdr_num_blocks h < num_log_blocks sb;
  ho_nodup : NoDup (recorded h);
  ho_out : forall b, b ∈ recorded h -> ~ in_log sb b
}.

Lemma log_writes_keys v ls bl n : n ∈ (log_writes v ls bl).*1 -> ls <= n < ls + Z.of_nat (length bl).
Proof.
  intros (w & -> & Hw)%list_elem_of_fmap. apply list_elem_of_lookup in Hw as [i Hi].
  unfold log_writes in Hi. rewrite list_lookup_imap in Hi. apply fmap_Some in Hi as (b & Hb & ->).
  apply lookup_lt_Some in Hb. cbn. lia.
Qed.

Lemma home_writes_keys v ls bl : (home_writes v ls bl).*1 = bl.
Proof.
  apply list_eq. intros i. unfold home_writes. rewrite list_lookup_fmap, list_lookup_imap.
  by destruct (bl !! i).
Qed.

Lemma length_recorded sb h : header_ok sb h -> Z.of_nat (length (recorded h)) = hdr_num_blocks h.
Proof.
  intros [(Hn & _ & Hl) ? _ _ _]. unfold recorded. rewrite length_take. lia.
Qed.

Lemma recorded_lookup sb h i b : header_ok sb h -> recorded h !! i = Some b ->
  zget (hdr_block_no h) (Z.of_nat i) = b /\ (i < length (hdr_block_no h))%nat.
Proof.
  intros Hh Hi. unfold recorded in Hi. apply lookup_take_Some in Hi as [Hi Hlt].
  split; [by apply zget_lookup_nat |]. by eapply lookup_lt_Some.
Qed.

(** * The loops *)

Section log.
Context {A : Type} `{ObjectArena A} (me : Z) (cap : nat).
Implicit Types (s : bcache A) (a : cspec).

Definition unheld a (no : Z) : Prop := forall q, held a !! q <> Some no.

Lemma unheld_hold a p no n : unheld a n -> n <> no -> unheld (sp_hold p no a) n.
Proof.
  intros Hu Hn q. cbn. destruct (decide (q = p)) as [->|Hq].
  - rewrite lookup_insert_eq. congruence.
  - rewrite lookup_insert_ne by done. apply Hu.
Qed.

(** A block nobody holds may be released: it is pinned or unmodified. *)
Lemma unheld_settled s a no : R cap s a -> unheld a no -> no ∈ pin a \/ clean a no.
Proof.
  intros HR Hu. destruct (decide (no ∈ block_no <$> head s)) as [Hin|]; [| right; by eapply R_out].
  apply list_elem_of_fmap in Hin as (b & -> & Hb). destruct (R_block _ _ _ HR b Hb) as [_ _ _ Hc Hh Hp].
  destruct (acquired b); [destruct (Hu (self b)); by apply Hh |].
  destruct (pinned b); [left; by apply Hp | right; by apply Hc].
Qed.

(** The view matters only up to its values. *)
Lemma R_view_ext s a v : R cap s a -> (forall n, v n = view a n) ->
  R cap s (mkSpec v (disk a) (held a) (pin a)).
Proof.
  intros HR Hv. split; cbn; try apply HR.
  - intros b Hb. destruct (R_block _ _ _ HR b Hb). split; unfold clean in *; cbn; rewrite ?Hv; auto.
  - intros n Hn. unfold clean. cbn. rewrite Hv. by apply (R_out _ _ _ HR).
  - intros n. rewrite Hv. apply HR.
Qed.

(** memcpy from a held block to another, released and written in the order of
    the code; [k] is what the code does next with the destination. *)
Lemma copy_block_ok E s a src dest sno dno (k : M (bcache A) unit) Q :
  R cap s (sp_hold dest dno (sp_hold src sno a)) ->
  held a !! src = None -> held (sp_hold src sno a) !! dest = None ->
  sno <> dno -> sno ∈ pin a \/ clean a sno ->
  (forall s', R cap s' (sp_hold dest dno (sp_through [(dno, view a sno)] a)) -> env s' = env s ->
    wp E k Q s') ->
  wp E (d ← get_data src; put_data dest d;; cache_release me src;; device_write dest;; k) Q s.
Proof.
  intros HR Hsrc Hdest Hne Hset Hk.
  assert (src <> dest) as Hsd.
  { intros ->. cbn in Hdest. by rewrite lookup_insert_eq in Hdest. }
  assert (held (sp_hold dest dno (sp_hold src sno a)) !! src = Some sno) as Hls.
  { cbn. rewrite lookup_insert_ne, lookup_insert_eq by done. done. }
  apply wp_bind. eapply get_data_ok; [done.. |]. cbn [sp_hold view].
  apply wp_bind. eapply put_data_ok; [done | by apply lookup_insert_eq | by apply (R_wf _ _ _ HR) |].
  intros s1 HR1 E1.
  apply wp_bind. eapply (cache_release_ok _ _ _ _ _ src sno); [done | exact Hls | |].
  { destruct Hset as [|Hc]; [by left | right]. unfold clean in *. cbn. unfold upd.
    by rewrite (proj2 (Z.eqb_neq _ _)). }
  intros s2 HR2 E2.
  apply wp_bind. eapply device_write_ok; [done | |].
  { cbn. rewrite lookup_delete_ne by done. by apply lookup_insert_eq. }
  intros s3 HR3 E3. apply Hk; [| congruence].
  replace (sp_hold dest dno (sp_through [(dno, view a sno)] a)) with
    (sp_write dno (sp_unhold src (sp_put dno (view a sno) (sp_hold dest dno (sp_hold src sno a)))));
    [done |].
  unfold sp_hold, sp_unhold, sp_write, sp_through, sp_put. cbn. f_equal.
  - unfold upd at 1. by rewrite Z.eqb_refl.
  - rewrite delete_insert_ne by done. by rewrite delete_insert_id.
Qed.

(** The log is where the super block says, and its header can be replayed. *)
Record log_ready s : Prop := {
  lr_start : log_start s = sb_log_start (sblock s) + 1;
  lr_hdr : header_ok (sblock s) (header s)
}.

Lemma log_ready_env s s' : log_ready s -> env s' = env s -> log_ready s'.
Proof. intros [Hs Hh] E. injection E as E1 E2 _ _ E3 _ _ _ _. split; by rewrite ?E1, ?E2, ?E3. Qed.

Lemma slot_in_log s i b : log_ready s -> recorded (header s) !! i = Some b ->
  sb_log_start (sblock s) < log_start s + Z.of_nat i /\ in_log (sblock s) (log_start s + Z.of_nat i).
Proof.
  intros [Hs Hh] Hi. pose proof (length_recorded _ _ Hh). apply lookup_lt_Some in Hi.
  pose proof (ho_fit _ _ Hh). rewrite Hs. unfold in_log. lia.
Qed.

Lemma recorded_out s i b : log_ready s -> recorded (header s) !! i = Some b ->
  ~ in_log (sblock s) b /\ b <> sb_log_start (sblock s).
Proof.
  intros [Hs Hh] Hi. pose proof (ho_out _ _ Hh b (list_elem_of_lookup_2 _ _ _ Hi)) as Ho.
  split; [done |]. intros ->. apply Ho. unfold in_log. pose proof (ho_fit _ _ Hh).
  pose proof (ho_wf _ _ Hh) as [? _]. lia.
Qed.

Lemma header_block_ok E s i b Q : log_ready s -> recorded (header s) !! i = Some b ->
  Q b s -> wp E (header_block (Z.of_nat i)) Q s.
Proof.
  intros [_ Hh] Hi HQ. destruct (recorded_lookup _ _ _ _ Hh Hi) as [Hz Hl].
  unfold header_block. apply wp_bind, wp_get.
  rewrite (proj2 (Z.ltb_lt _ _)) by lia. apply wp_ret. by rewrite Hz.
Qed.

Lemma sp_unhold_hold p no a : held a !! p = None -> sp_unhold p (sp_hold p no a) = a.
Proof. intros Hp. destruct a. unfold sp_unhold, sp_hold. cbn in *. by rewrite delete_insert_id. Qed.

Section block.
Context (E : string -> Prop) s a (i : nat) (b : Z).
Context (HR : R cap s a) (Hlr : log_ready s) (Hi : recorded (header s) !! i = Some b).
Context (Hub : unheld a b) (Hul : unheld a (log_start s + Z.of_nat i)).
Context (Hcap : (size (held a) + size (pin a) + 1 < cap)%nat).
Let slot := log_start s + Z.of_nat i.

Lemma slot_ne_block : b <> slot /\ slot <> sb_log_start (sblock s).
Proof.
  destruct (slot_in_log _ _ _ Hlr Hi) as [Hs Hin]. destruct (recorded_out _ _ _ Hlr Hi) as [Ho _].
  split; [intros -> | fold slot in Hs; lia]. by apply Ho.
Qed.

Lemma size_hold p no : (size (held (sp_hold p no a)) + size (pin a) < cap)%nat.
Proof.
  cbn. rewrite map_size_insert. destruct (held a !! p); unfold id; lia.
Qed.

Lemma log_block_ok Q :
  (forall s', R cap s' (sp_through [(slot, view a b)] a) -> env s' = env s -> Q tt s') ->
  wp E (log_block me (Z.of_nat i)) Q s.
Proof.
  intros HQ. destruct slot_ne_block as [Hne Hns]. destruct (recorded_out _ _ _ Hlr Hi) as [_ Hbs].
  unfold log_block. apply wp_bind. eapply header_block_ok; [done.. |].
  apply wp_bind. eapply cache_acquire_ok; [done | done | lia | done |]. intros src s1 HR1 Hsrc E1.
  injection E1 as Esb Eh Ets Ets' Els Elz Elu Eoc Eops.
  apply wp_bind, wp_get. rewrite Els. fold slot.
  apply wp_bind. eapply cache_acquire_ok; [done | | apply size_hold | by rewrite Esb |].
  { by apply unheld_hold. }
  intros dest s2 HR2 Hdest E2. eapply copy_block_ok; [done.. | by eapply unheld_settled |].
  intros s3 HR3 E3. eapply cache_release_ok; [done | by apply lookup_insert_eq | |].
  { right. unfold clean. cbn. unfold upd. by rewrite Z.eqb_refl. }
  intros s4 HR4 E4. apply HQ.
  - rewrite sp_unhold_hold in HR4; [done |]. cbn in *.
    destruct (decide (src = dest)) as [->|]; [by rewrite lookup_insert_eq in Hdest |].
    by rewrite lookup_insert_ne in Hdest.
  - unfold env in *. congruence.
Qed.

Lemma replay_block_ok Q :
  (forall s', R cap s' (sp_unpin b (sp_through [(b, view a slot)] a)) -> env s' = env s -> Q tt s') ->
  wp E (replay_block me (Z.of_nat i)) Q s.
Proof.
  intros HQ. destruct slot_ne_block as [Hne Hns]. destruct (recorded_out _ _ _ Hlr Hi) as [_ Hbs].
  unfold replay_block. apply wp_bind, wp_get. fold slot.
  apply wp_bind. eapply cache_acquire_ok; [done | done | lia | done |]. intros src s1 HR1 Hsrc E1.
  apply wp_bind. eapply header_block_ok; [by eapply log_ready_env | |].
  { injection E1 as _ -> _ _ _ _ _ _ _. exact Hi. }
  apply wp_bind. eapply cache_acquire_ok; [done | | apply size_hold | |].
  { by apply unheld_hold. }
  { injection E1 as -> _ _ _ _ _ _ _ _. done. }
  intros dest s2 HR2 Hdest E2. eapply copy_block_ok; [done.. | by eapply unheld_settled |].
  intros s3 HR3 E3.
  (* the un-pinning critical section, then the release *)
  set (a3 := sp_hold dest b _) in HR3.
  assert (Hd3 : held a3 !! dest = Some b) by apply lookup_insert_eq.
  eapply (set_pinned_then _ _ _ _ _ dest b false); [done.. |]. intros s4 HR4 E4.
  eapply cache_release_ok; [done | exact Hd3 | |].
  { right. unfold clean. cbn. unfold upd. by rewrite Z.eqb_refl. }
  intros s5 HR5 E5. apply HQ.
  - assert (held a !! dest = None) as Hda.
    { cbn in Hdest. destruct (decide (src = dest)) as [->|]; [by rewrite lookup_insert_eq in Hdest |].
      by rewrite lookup_insert_ne in Hdest. }
    rewrite <- (sp_unhold_hold dest b (sp_unpin b _)); done.
  - unfold env in *. congruence.
Qed.
End block.

Lemma sp_through_app ws1 ws2 a : sp_through (ws1 ++ ws2) a = sp_through ws2 (sp_through ws1 a).
Proof. unfold sp_through. cbn. by rewrite upds_app, dev_writes_app. Qed.

Definition sp_unpins (bl : list Z) a : cspec :=
  mkSpec (view a) (disk a) (held a) (pin a ∖ list_to_set bl).

Lemma sp_unpins_snoc bl b a : sp_unpins (bl ++ [b]) a = sp_unpin b (sp_unpins bl a).
Proof.
  unfold sp_unpins, sp_unpin. cbn. f_equal. rewrite list_to_set_app_L. cbn. set_solver.
Qed.

(** Nobody holds a block of the log area or a block to be persisted. *)
Definition quiescent s a : Prop :=
  forall n, in_log (sblock s) n \/ n ∈ recorded (header s) -> unheld a n.

Section loops.
Context (E : string -> Prop) s a.
Context (HR : R cap s a) (Hlr : log_ready s) (Hq : quiescent s a).
Context (Hcap : (size (held a) + size (pin a) + 1 < cap)%nat).
Let bl := recorded (header s).
Let n := Z.to_nat (hdr_num_blocks (header s)).

Lemma length_bl : length bl = n.
Proof. unfold bl, n. pose proof (length_recorded _ _ (lr_hdr _ Hlr)). lia. Qed.

Lemma lookup_bl i : 0 <= i < 0 + Z.of_nat n -> exists b, bl !! Z.to_nat i = Some b.
Proof. intros Hi. apply lookup_lt_is_Some_2. rewrite length_bl. lia. Qed.

Lemma log_loop_ok Q :
  (forall s', R cap s' (sp_through (log_writes (view a) (log_start s) bl) a) -> env s' = env s -> Q tt s') ->
  wp E (for_range 0 n (log_block me)) Q s.
Proof.
  intros HQ. set (W := log_writes (view a) (log_start s) bl) in *.
  assert (HW : length W = n) by (unfold W, log_writes; by rewrite length_imap, length_bl).
  wp_use (wp_for_range E (fun i s' => env s' = env s /\ R cap s' (sp_through (take (Z.to_nat i) W) a))).
  - intros i s1 Hi [E1 HR1]. destruct (lookup_bl i Hi) as [b Hb].
    injection E1 as Esb Eh Ets Ets' Els Elz Elu Eoc Eops.
    assert (HWi : W !! Z.to_nat i = Some (log_start s1 + Z.of_nat (Z.to_nat i), view a b)).
    { unfold W, log_writes. rewrite list_lookup_imap, Hb. cbn. by rewrite Els. }
    assert (Hlr1 : log_ready s1) by (apply (log_ready_env s); [done | unfold env; congruence]).
    assert (Hb1 : recorded (header s1) !! Z.to_nat i = Some b) by (by rewrite Eh).
    rewrite <- (Z2Nat.id i) at 1 by lia. eapply log_block_ok; [done.. | | | done |].
    + apply Hq. right. by eapply list_elem_of_lookup_2.
    + apply Hq. left. rewrite <- Esb. by eapply slot_in_log.
    + intros s2 HR2 E2. split; [unfold env in *; congruence |].
      replace (Z.to_nat (i + 1)) with (S (Z.to_nat i)) by lia. rewrite (take_S_r _ _ _ HWi), sp_through_app.
      replace (view (sp_through (take (Z.to_nat i) W) a) b) with (view a b) in HR2; [done |].
      cbn. rewrite upds_notin; [done |]. intros Hin.
      assert (b ∈ W.*1) as Hin'.
      { apply list_elem_of_fmap in Hin as (w & -> & Hw). apply list_elem_of_fmap_2.
        eapply (subseteq_take _ W), Hw. }
      apply log_writes_keys in Hin'. rewrite length_bl in Hin'.
      destruct (recorded_out _ _ _ Hlr Hb) as [Ho _]. apply Ho. unfold in_log.
      pose proof (lr_start _ Hlr). pose proof (ho_fit _ _ (lr_hdr _ Hlr)). unfold n in *. lia.
  - split; [done |]. cbn. by destruct a.
  - intros [] s1 [E1 HR1]. apply HQ; [| done].
    rewrite take_ge in HR1 by (rewrite HW; lia). done.
Qed.

(** The home writes do not disturb the slots still to be copied. *)
Lemma slot_untouched (k i : nat) b : bl !! i = Some b ->
  upds (view a) (take k (home_writes (view a) (log_start s) bl)) (log_start s + Z.of_nat i) =
  view a (log_start s + Z.of_nat i).
Proof.
  intros Hb. apply upds_notin. intros Hin. rewrite fmap_take, home_writes_keys in Hin.
  apply subseteq_take in Hin. apply (ho_out _ _ (lr_hdr _ Hlr) _ Hin). by eapply slot_in_log.
Qed.

Lemma replay_loop_ok Q :
  (forall s', R cap s' (sp_unpins bl (sp_through (home_writes (view a) (log_start s) bl) a)) ->
    env s' = env s -> Q tt s') ->
  wp E (for_range 0 n (replay_block me)) Q s.
Proof.
  intros HQ. set (W := home_writes (view a) (log_start s) bl) in *.
  assert (HW : length W = n) by (unfold W, home_writes; by rewrite length_imap, length_bl).
  wp_use (wp_for_range E (fun i s' => env s' = env s /\
    R cap s' (sp_unpins (take (Z.to_nat i) bl) (sp_through (take (Z.to_nat i) W) a)))).
  - intros i s1 Hi [E1 HR1]. destruct (lookup_bl i Hi) as [b Hb].
    injection E1 as Esb Eh Ets Ets' Els Elz Elu Eoc Eops.
    assert (HWi : W !! Z.to_nat i = Some (b, view a (log_start s1 + Z.of_nat (Z.to_nat i)))).
    { unfold W, home_writes. rewrite list_lookup_imap, Hb. cbn. by rewrite Els. }
    assert (Hlr1 : log_ready s1) by (apply (log_ready_env s); [done | unfold env; congruence]).
    assert (Hb1 : recorded (header s1) !! Z.to_nat i = Some b) by (by rewrite Eh).
    rewrite <- (Z2Nat.id i) at 1 by lia. eapply replay_block_ok; [done.. | | | |].
    + apply Hq. right. by eapply list_elem_of_lookup_2.
    + apply Hq. left. rewrite <- Esb. by eapply slot_in_log.
    + cbn. pose proof (subseteq_size (pin a ∖ list_to_set (take (Z.to_nat i) bl)) (pin a) ltac:(set_solver)).
      lia.
    + intros s2 HR2 E2. split; [unfold env in *; congruence |].
      replace (Z.to_nat (i + 1)) with (S (Z.to_nat i)) by lia.
      rewrite (take_S_r _ _ _ HWi), (take_S_r _ _ _ Hb), sp_through_app, sp_unpins_snoc.
      cbn [view sp_unpins sp_through] in HR2. rewrite Els in HR2. unfold W in HR2 at 1.
      rewrite (slot_untouched _ _ b) in HR2 by done. rewrite Els. exact HR2.
  - split; [done |]. change (Z.to_nat 0) with 0%nat. rewrite !take_0.
    unfold sp_unpins, sp_through. cbn. replace (pin a ∖ ∅) with (pin a) by set_solver. by destruct a.
  - intros [] s1 [E1 HR1]. apply HQ; [| done].
    rewrite !take_ge in HR1 by (rewrite ?HW, ?length_bl; lia). done.
Qed.
End loops.

(** ** The header block *)

(** [R] only reads the variables that describe the blocks. *)
Lemma R_other s s' a : R cap s a -> sblock s' = sblock s -> device s' = device s -> lock s' = lock s ->
  arena s' = arena s -> head s' = head s -> R cap s' a.
Proof.
  intros HR E1 E2 E3 E4 E5. split; rewrite ?E1, ?E2, ?E3, ?E4, ?E5; apply HR.
Qed.

(** Writing the header block, which is never cached. *)
Lemma write_header_ok E s a Q : R cap s a -> header_wf (header s) ->
  (forall s', R cap s' (sp_through [(sb_log_start (sblock s), header_enc (header s))] a) ->
    env s' = env s -> Q tt s') ->
  wp E write_header Q s.
Proof.
  intros HR Hwf HQ. apply wp_modify. apply HQ; [| done].
  set (hd := sb_log_start (sblock s)). set (d := header_enc (header s)).
  assert (Hne : forall b, b ∈ head s -> (block_no b =? hd) = false).
  { intros b Hb. apply Z.eqb_neq. intros E0. apply (R_hdr _ _ _ HR). fold hd. rewrite <- E0.
    by apply list_elem_of_fmap_2. }
  split; cbn; try apply HR.
  - intros b Hb. destruct (R_block _ _ _ HR b Hb) as [? ? ? Hc ? ?].
    split; cbn; unfold clean, upd; cbn; rewrite ?(Hne b Hb); auto. unfold upd. by rewrite (Hne b Hb).
  - intros m Hm. unfold clean. cbn. unfold upd. destruct (m =? hd).
    + split; [done |]. by apply (R_out _ _ _ HR).
    + by apply (R_out _ _ _ HR).
  - by rewrite (R_disk _ _ _ HR).
  - intros m. unfold upd. destruct (m =? hd); [| apply HR]. split; by apply header_enc_block.
Qed.
End log.
