(* ===== verification/CacheCrash.v ===== *)
(** Crash safety of the write-ahead log of fs/cache.c.

    [checkpoint] and the recovery done by [init_bcache] are run to their end,
    with the exact device writes they make.  A crash stops the machine between
    two device writes (a write of a block is atomic, fs/block_device.h): the
    medium is then the old one with a prefix of these writes, and what is in
    memory is lost.  Recovering from any such medium gives all the blocks of the
    checkpointed operations or none of them. *)
From S2P Require Import Prelude Bytes CString Bitmap Locks Arena FsDefs Cache CacheSpec CacheLog.

(** * The writes of a checkpoint and of a recovery *)

Definition cleared (h : LogHeader) : LogHeader := mkHeader 0 (hdr_block_no h).

(** Steps 3 and 4. *)
Definition replay_writes (v : Z -> list Z) (sb : SuperBlock) (h : LogHeader) : writes :=
  if hdr_num_blocks h =? 0 then []
  else home_writes v (sb_log_start sb + 1) (recorded h) ++ [(sb_log_start sb, header_enc (cleared h))].

(** Steps 1 to 4. *)
Definition checkpoint_writes (v : Z -> list Z) (sb : SuperBlock) (h : LogHeader) : writes :=
  let w12 := log_writes v (sb_log_start sb + 1) (recorded h) ++ [(sb_log_start sb, header_enc h)] in
  w12 ++ replay_writes (upds v w12) sb h.

(** The medium after recovery. *)
Definition recover (sb : SuperBlock) (m : Z -> list Z) : Z -> list Z :=
  upds m (replay_writes m sb (header_dec (m (sb_log_start sb)))).

(** ** Media *)

Section media.
Context (sb : SuperBlock) (h : LogHeader) (Hh : header_ok sb h).
Let hd := sb_log_start sb.
Let bl := recorded h.

Lemma cleared_ok : header_ok sb (cleared h).
Proof.
  destruct Hh as [(Hn & Hf & Hl) H63 Hfit _ _]. split; cbn; [| lia | lia | |].
  - split_and!; [cbn; lia | done..].
  - unfold recorded. cbn. apply NoDup_nil_2.
  - intros b. unfold recorded. cbn. by intros ?%not_elem_of_nil.
Qed.

Lemma hd_in_log : in_log sb hd.
Proof. destruct Hh as [(Hn & _) _ Hfit _ _]. unfold in_log, hd. lia. Qed.

Lemma hd_notin_bl : hd ∉ bl.
Proof. intros Hin. apply (ho_out _ _ Hh _ Hin), hd_in_log. Qed.

Lemma log_key v n : n ∈ (log_writes v (hd + 1) bl).*1 -> in_log sb n /\ n <> hd.
Proof.
  intros Hn%log_writes_keys. unfold bl in Hn. rewrite (length_recorded _ _ Hh) in Hn.
  pose proof (ho_fit _ _ Hh). unfold in_log, hd in *. lia.
Qed.

Lemma log_writes_nodup v ls l : NoDup (log_writes v ls l).*1.
Proof.
  apply NoDup_alt. intros i j x Hi Hj. unfold log_writes in *.
  rewrite list_lookup_fmap, list_lookup_imap in Hi, Hj.
  destruct (l !! i); [| done]. destruct (l !! j); [| done]. cbn in *.
  injection Hi as <-. injection Hj as Hj. lia.
Qed.

(** Log slot [i] holds block [b_i] after step 1. *)
Lemma slot_after_log v m i b : bl !! i = Some b ->
  upds m (log_writes v (hd + 1) bl) (hd + 1 + Z.of_nat i) = v b.
Proof.
  intros Hb. apply upds_in; [apply log_writes_nodup |]. apply list_elem_of_lookup. exists i.
  unfold log_writes. by rewrite list_lookup_imap, Hb.
Qed.

(** ** Recovery as a function of the medium *)

Lemma recover_clear m : hdr_num_blocks (header_dec (m hd)) = 0 -> recover sb m = m.
Proof. intros Hz. unfold recover, replay_writes. fold hd. by rewrite Hz. Qed.

(** A medium whose header is [h] and whose slots hold the blocks [v]. *)
Lemma recover_logged v m :
  header_dec (m hd) = h -> (forall i b, bl !! i = Some b -> m (hd + 1 + Z.of_nat i) = v b) ->
  forall n, ~ in_log sb n -> recover sb m n = if decide (n ∈ bl) then v n else m n.
Proof.
  intros Hm Hs n Hn. unfold recover. fold hd. rewrite Hm. unfold replay_writes. fold hd bl.
  destruct (Z.eqb_spec (hdr_num_blocks h) 0) as [Hz|Hnz].
  - rewrite decide_False; [done |]. unfold bl, recorded. rewrite Hz. cbn. apply not_elem_of_nil.
  - rewrite upds_app. cbn. unfold upd at 1. rewrite (proj2 (Z.eqb_neq _ _)).
    2: { intros ->. apply Hn, hd_in_log. }
    case_decide as Hin; [| apply upds_notin; by rewrite home_writes_keys].
    apply upds_in; [rewrite home_writes_keys; apply Hh |].
    apply list_elem_of_lookup in Hin as [i Hi]. apply list_elem_of_lookup. exists i.
    unfold home_writes. rewrite list_lookup_imap, Hi. cbn. by rewrite (Hs i n Hi).
Qed.
(** ** Crashes during a recovery *)

Section again.
Context (m : Z -> list Z) (Hm : header_dec (m hd) = h).
Let hw := home_writes m (hd + 1) bl.
Let rw := replay_writes m sb h.

Lemma home_value i b : bl !! i = Some b -> upds m hw b = m (hd + 1 + Z.of_nat i).
Proof.
  intros Hb. apply upds_in; [unfold hw; rewrite home_writes_keys; apply Hh |].
  apply list_elem_of_lookup. exists i. unfold hw, home_writes. by rewrite list_lookup_imap, Hb.
Qed.

Lemma home_outside k x : in_log sb x -> upds m (take k hw) x = m x.
Proof.
  intros Hx. apply upds_notin. rewrite fmap_take. unfold hw. rewrite home_writes_keys.
  intros Hin%subseteq_take. by apply (ho_out _ _ Hh x Hin).
Qed.

(** The header after part of a recovery: untouched, or cleared with every
    block home. *)
Lemma again_cases k :
  (exists j, take k rw = take j hw) \/ take k rw = hw ++ [(hd, header_enc (cleared h))].
Proof.
  unfold rw, replay_writes. fold hd bl hw. destruct (hdr_num_blocks h =? 0).
  - left. exists 0%nat. by rewrite take_nil, take_0.
  - destruct (decide (k <= length hw)%nat).
    + left. exists k. by rewrite take_app_le.
    + right. rewrite take_ge; [done |]. rewrite length_app. cbn. lia.
Qed.

Lemma recover_again k x : ~ in_log sb x -> recover sb (upds m (take k rw)) x = recover sb m x.
Proof.
  intros Hx. assert (Hxh : x <> hd) by (intros ->; apply Hx, hd_in_log).
  rewrite (recover_logged (upds m hw) m Hm (fun i b Hb => eq_sym (home_value i b Hb)) x Hx).
  destruct (again_cases k) as [[j ->] | ->].
  - rewrite (recover_logged (upds m hw)); [| | | done].
    + case_decide as Hb; [done |]. apply upds_notin. rewrite fmap_take. unfold hw.
      rewrite home_writes_keys. by intros ?%subseteq_take.
    + rewrite home_outside by apply hd_in_log. done.
    + intros i b Hb. rewrite home_outside; [symmetry; by apply home_value |].
      pose proof (length_recorded _ _ Hh). apply lookup_lt_Some in Hb. pose proof (ho_fit _ _ Hh).
      unfold bl, in_log, hd in *. lia.
  - rewrite recover_clear.
    + rewrite upds_app, upds_one. unfold upd. rewrite (proj2 (Z.eqb_neq _ _)) by done.
      case_decide as Hb; [done |]. apply upds_notin. unfold hw. by rewrite home_writes_keys.
    + rewrite upds_app, upds_one. unfold upd. rewrite Z.eqb_refl, header_dec_enc; [done |].
      apply cleared_ok.
Qed.

Lemma replay_writes_wf : (forall n, block_wf (m n)) -> Forall (fun w => block_wf w.2) rw.
Proof.
  intros Hw. unfold rw, replay_writes. fold hd bl hw. destruct (hdr_num_blocks h =? 0); [apply Forall_nil_2 |].
  apply Forall_app. split; [| apply Forall_singleton, header_enc_block, cleared_ok].
  apply Forall_forall. intros w (i & Hi)%list_elem_of_lookup. unfold hw, home_writes in Hi.
  rewrite list_lookup_imap in Hi. apply fmap_Some in Hi as (b & _ & ->). apply Hw.
Qed.

Lemma again_header_ok k : header_ok sb (header_dec (upds m (take k rw) hd)).
Proof.
  destruct (again_cases k) as [[j ->] | ->].
  - rewrite home_outside by apply hd_in_log. by rewrite Hm.
  - rewrite upds_app, upds_one. unfold upd. rewrite Z.eqb_refl, header_dec_enc; apply cleared_ok.
Qed.
End again.

(** ** Crashes during a checkpoint *)

Section crash.
Context (v m : Z -> list Z).
Context (Hzero : hdr_num_blocks (header_dec (m hd)) = 0).
(** What is not recorded in the header is already on the medium. *)
Context (Hrest : forall n, ~ in_log sb n -> n ∉ bl -> v n = m n).
Let L := log_writes v (hd + 1) bl.
Let w12 := L ++ [(hd, header_enc h)].
Let ws := checkpoint_writes v sb h.

Lemma length_L : length L = length bl.
Proof. unfold L, log_writes. by rewrite length_imap. Qed.

Lemma hd_notin_L : hd ∉ L.*1.
Proof. intros Hin. by destruct (log_key _ _ Hin). Qed.

(** The home writes of a checkpoint carry the blocks themselves. *)
Lemma checkpoint_home : home_writes (upds v w12) (hd + 1) bl = (fun b => (b, v b)) <$> bl.
Proof.
  apply list_eq. intros i. unfold home_writes. rewrite list_lookup_imap, list_lookup_fmap.
  destruct (bl !! i) as [b|] eqn:Hb; [| done]. cbn. do 2 f_equal.
  unfold w12. rewrite upds_app. cbn. unfold upd. rewrite (proj2 (Z.eqb_neq _ _)) by lia.
  by apply slot_after_log.
Qed.

Lemma prefix_keys k x : x ∈ (take k ws).*1 -> in_log sb x \/ x ∈ bl.
Proof.
  rewrite fmap_take. intros Hx%subseteq_take. unfold ws, checkpoint_writes in Hx. fold hd bl L w12 in Hx.
  unfold replay_writes in Hx. fold hd bl in Hx. rewrite checkpoint_home in Hx.
  unfold w12 in Hx. rewrite !fmap_app, !elem_of_app in Hx. destruct Hx as [[Hx|Hx]|Hx].
  - left. by apply log_key in Hx as [? _].
  - apply list_elem_of_singleton in Hx as ->. left. apply hd_in_log.
  - destruct (hdr_num_blocks h =? 0); [by apply not_elem_of_nil in Hx |].
    rewrite fmap_app, elem_of_app in Hx. destruct Hx as [Hx|Hx].
    + right. rewrite <- list_fmap_compose in Hx. by apply list_elem_of_fmap in Hx as (? & -> & ?).
    + apply list_elem_of_singleton in Hx as ->. left. apply hd_in_log.
Qed.

(** Before the header is written the log is still empty. *)
Lemma crash_early k : (k <= length bl)%nat ->
  hdr_num_blocks (header_dec (upds m (take k ws) hd)) = 0 /\
  forall x, ~ in_log sb x -> upds m (take k ws) x = m x.
Proof.
  intros Hk. assert (take k ws = take k L) as ->.
  { unfold ws, checkpoint_writes. fold hd bl L. rewrite <- app_assoc.
    rewrite take_app_le by (rewrite length_L; lia). done. }
  split.
  - rewrite upds_notin; [done |]. rewrite fmap_take. intros Hx%subseteq_take. by apply hd_notin_L.
  - intros x Hx. apply upds_notin. rewrite fmap_take. intros Hin%subseteq_take.
    by apply log_key in Hin as [? _].
Qed.

(** Once it is, the header and the slots stay, or the log is clear and every
    block is home. *)
Lemma crash_late k : (length bl < k)%nat ->
  (header_dec (upds m (take k ws) hd) = h /\
   forall i b, bl !! i = Some b -> upds m (take k ws) (hd + 1 + Z.of_nat i) = v b) \/
  (hdr_num_blocks (header_dec (upds m (take k ws) hd)) = 0 /\
   forall x, x ∈ bl -> upds m (take k ws) x = v x).
Proof.
  intros Hk. set (rw := replay_writes (upds v w12) sb h).
  assert (Hlw : length w12 = S (length bl)) by (unfold w12; rewrite length_app, length_L; cbn; lia).
  assert (take k ws = w12 ++ take (k - S (length bl)) rw) as ->.
  { unfold ws, checkpoint_writes. fold hd bl L w12 rw. rewrite take_app_ge by lia. by rewrite Hlw. }
  set (j := (k - S (length bl))%nat). rewrite upds_app. set (m1 := upds m w12).
  assert (Hm1 : m1 hd = header_enc h).
  { unfold m1, w12. rewrite upds_app. cbn. unfold upd. by rewrite Z.eqb_refl. }
  assert (Hs1 : forall i b, bl !! i = Some b -> m1 (hd + 1 + Z.of_nat i) = v b).
  { intros i b Hb. unfold m1, w12. rewrite upds_app. cbn. unfold upd.
    rewrite (proj2 (Z.eqb_neq _ _)) by lia. by apply slot_after_log. }
  unfold rw, replay_writes. fold hd bl. rewrite checkpoint_home.
  destruct (Z.eqb_spec (hdr_num_blocks h) 0) as [Hz|Hnz].
  { left. rewrite take_nil. cbn. split; [| done]. rewrite Hm1. apply header_dec_enc, Hh. }
  destruct (decide (j <= length bl)%nat) as [Hj|Hj].
  - left. rewrite take_app_le by (rewrite length_fmap; lia).
    assert (Hk' : forall x, in_log sb x -> x ∉ (take j ((fun b => (b, v b)) <$> bl)).*1).
    { intros x Hx. rewrite fmap_take, <- list_fmap_compose. intros Hin%subseteq_take.
      apply list_elem_of_fmap in Hin as (b & -> & Hb). by apply (ho_out _ _ Hh b Hb). }
    split.
    + rewrite upds_notin by (apply Hk', hd_in_log). rewrite Hm1. apply header_dec_enc, Hh.
    + intros i b Hb. rewrite upds_notin; [by apply Hs1 |]. apply Hk'.
      pose proof (length_recorded _ _ Hh). apply lookup_lt_Some in Hb. pose proof (ho_fit _ _ Hh).
      unfold bl, in_log, hd in *. lia.
  - right. rewrite take_ge by (rewrite length_app, length_fmap; cbn; lia). rewrite !upds_app, upds_one. split.
    + unfold upd at 1. rewrite Z.eqb_refl. rewrite header_dec_enc by apply cleared_ok. done.
    + intros x Hx. unfold upd at 1. rewrite (proj2 (Z.eqb_neq _ _)).
      2: { intros ->. by apply hd_notin_bl. }
      apply upds_in; [rewrite <- list_fmap_compose; rewrite list_fmap_id; apply Hh |].
      by apply (list_elem_of_fmap_2 (fun b => (b, v b))).
Qed.
(** All or nothing, decided by the write of the header. *)
Lemma crash_recover k x : ~ in_log sb x ->
  recover sb (upds m (take k ws)) x = if decide (k <= length bl)%nat then m x else v x.
Proof.
  intros Hx. case_decide as Hk.
  - destruct (crash_early k Hk) as [Hz Hm]. rewrite recover_clear by done. by apply Hm.
  - assert (Hout : x ∉ bl -> upds m (take k ws) x = v x).
    { intros Hb. rewrite Hrest by done. apply upds_notin. intros [|]%prefix_keys; done. }
    destruct (crash_late k ltac:(lia)) as [[Hd Hs]|[Hz Hm]].
    + rewrite (recover_logged v _ Hd Hs x Hx). case_decide; auto.
    + rewrite recover_clear by done. destruct (decide (x ∈ bl)); auto.
Qed.

Lemma header_ok_zero d : block_wf d -> hdr_num_blocks (header_dec d) = 0 -> header_ok sb (header_dec d).
Proof.
  intros Hw Hz. pose proof (ho_fit _ _ Hh). destruct (ho_wf _ _ Hh) as [? _].
  split; [by apply header_dec_wf | lia | lia | |]; unfold recorded; rewrite Hz; cbn.
  - apply NoDup_nil_2.
  - by intros b ?%not_elem_of_nil.
Qed.

(** The header met by the recovery can be replayed. *)
Lemma crash_header_ok k :
  (forall n, block_wf (upds m (take k ws) n)) -> header_ok sb (header_dec (upds m (take k ws) hd)).
Proof.
  intros Hw. destruct (decide (k <= length bl)%nat) as [Hk|Hk].
  - apply header_ok_zero; [done |]. by apply crash_early.
  - destruct (crash_late k ltac:(lia)) as [[-> _]|[Hz _]]; [done |]. by apply header_ok_zero.
Qed.

Lemma upds_wf ws' : (forall n, block_wf (m n)) -> Forall (fun w => block_wf w.2) ws' ->
  forall n, block_wf (upds m ws' n).
Proof.
  intros Hm. induction ws' as [|w ws' IH] using rev_ind; [done |].
  intros [Hf1 Hf2]%Forall_app n. rewrite upds_app. cbn. unfold upd.
  rewrite Forall_singleton in Hf2. destruct (n =? w.1); [done | by apply IH].
Qed.

Lemma checkpoint_writes_wf : (forall n, block_wf (v n)) -> Forall (fun w => block_wf w.2) ws.
Proof.
  intros Hv. unfold ws, checkpoint_writes. fold hd bl L w12.
  assert (Hw12 : Forall (fun w => block_wf w.2) w12).
  { apply Forall_app. split; [| apply Forall_singleton, header_enc_block, Hh].
    apply Forall_forall. intros w (i & Hi)%list_elem_of_lookup. unfold L, log_writes in Hi.
    rewrite list_lookup_imap in Hi. apply fmap_Some in Hi as (b & _ & ->). apply Hv. }
  apply Forall_app. split; [done |]. unfold replay_writes. destruct (_ =? 0); [apply Forall_nil_2 |].
  fold hd bl. rewrite checkpoint_home. apply Forall_app. split.
  - apply Forall_fmap, Forall_forall. intros b _. apply Hv.
  - apply Forall_singleton, header_enc_block, cleared_ok.
Qed.

(** A completed checkpoint: the log is clear and every block is home. *)
Lemma checkpoint_final : hdr_num_blocks (header_dec (upds m ws hd)) = 0 /\
  forall x, ~ in_log sb x -> upds m ws x = v x.
Proof.
  assert (Hz : hdr_num_blocks (header_dec (upds m ws hd)) = 0).
  { unfold ws, checkpoint_writes. fold hd bl L w12. unfold replay_writes. fold hd bl.
    destruct (Z.eqb_spec (hdr_num_blocks h) 0) as [E|_].
    - rewrite app_nil_r. unfold w12. rewrite upds_app, upds_one. unfold upd.
      rewrite Z.eqb_refl, header_dec_enc by apply Hh. done.
    - rewrite !upds_app, upds_one. unfold upd at 1. rewrite Z.eqb_refl, header_dec_enc; [done |].
      apply cleared_ok. }
  split; [done |]. intros x Hx. rewrite <- (recover_clear _ Hz).
  rewrite <- (take_ge ws (S (length ws + length bl))) by lia.
  rewrite crash_recover by done. by rewrite decide_False by lia.
Qed.
End crash.
End media.

(** * The code *)

Section programs.
Context {A : Type} `{ObjectArena A} (me : Z) (cap : nat).
Implicit Types (s : bcache A) (a : cspec).

Lemma sp_unpins_nil a : sp_unpins [] a = a.
Proof.
  destruct a. unfold sp_unpins. cbn. f_equal. set_solver.
Qed.

Lemma sp_unpins_empty bl a : pin a = ∅ -> sp_unpins bl a = a.
Proof. destruct a. unfold sp_unpins. cbn. intros ->. f_equal. set_solver. Qed.

Lemma replay_ok E s a Q :
  R cap s a -> log_ready s -> quiescent s a -> (size (held a) + size (pin a) + 1 < cap)%nat ->
  (forall s', R cap s' (sp_unpins (recorded (header s))
                 (sp_through (replay_writes (view a) (sblock s) (header s)) a)) ->
    env s' = env (set_header (cleared (header s)) s) -> Q tt s') ->
  wp E (replay me) Q s.
Proof.
  intros HR Hlr Hq Hcap HQ. unfold replay. apply wp_bind, wp_get. unfold replay_writes in HQ.
  destruct (Z.eqb_spec (hdr_num_blocks (header s)) 0) as [Hz|Hnz].
  - apply wp_ret. apply HQ.
    + unfold recorded. rewrite Hz. cbn. rewrite sp_unpins_nil. by destruct a.
    + unfold env, cleared. cbn. rewrite <- Hz. by destruct (header s).
  - apply wp_bind. eapply replay_loop_ok; [done.. |]. intros s1 HR1 E1.
    apply wp_bind, wp_modify. eapply write_header_ok.
    + eapply R_other; [exact HR1 | done..].
    + cbn [set_header header]. injection E1 as _ -> _ _ _ _ _ _ _. apply (cleared_ok _ _ (lr_hdr _ Hlr)).
    + intros s2 HR2 E2. apply HQ; [| rewrite E2; injection E1 as E11 E12 E13 E14 E15 E16 E17 E18 E19;
        unfold env, cleared; cbn; congruence].
      rewrite sp_through_app, <- (lr_start _ Hlr).
      cbn [set_header header sblock] in HR2.
      injection E1 as E11 E12 _ _ _ _ _ _ _. rewrite E11, E12 in HR2. exact HR2.
Qed.

Lemma checkpoint_ok E s a Q :
  R cap s a -> log_ready s -> quiescent s a -> (size (held a) + size (pin a) + 1 < cap)%nat ->
  (forall s', R cap s' (sp_unpins (recorded (header s))
                 (sp_through (checkpoint_writes (view a) (sblock s) (header s)) a)) ->
    env s' = env (set_last_persisted_ts (last_allocated_ts s) (set_header (cleared (header s)) s)) -> Q tt s') ->
  wp E (checkpoint me) Q s.
Proof.
  intros HR Hlr Hq Hcap HQ. unfold checkpoint. apply wp_bind, wp_get.
  apply wp_bind. eapply log_loop_ok; [done.. |]. intros s1 HR1 E1.
  assert (Hlr1 := log_ready_env _ _ Hlr E1). injection E1 as E11 E12 E13 E14 E15 E16 E17 E18 E19.
  apply wp_bind. eapply write_header_ok; [done | apply (ho_wf _ _ (lr_hdr _ Hlr1)) |]. intros s2 HR2 E2.
  assert (Hlr2 := log_ready_env _ _ Hlr1 E2). injection E2 as E21 E22 E23 E24 E25 E26 E27 E28 E29.
  rewrite <- sp_through_app in HR2. rewrite E11, E12, (lr_start _ Hlr) in HR2.
  apply wp_bind. eapply replay_ok; [done | done | | done |].
  { unfold quiescent. rewrite E21, E22, E11, E12. exact Hq. }
  intros s3 HR3 E3. rewrite E21, E22, E11, E12 in HR3.
  apply wp_bind, wp_lock_cache; [apply (R_lock _ _ _ HR3) |].
  apply wp_bind, wp_modify. apply wp_unlock_cache; [done |].
  apply HQ.
  - rewrite <- sp_through_app in HR3. eapply R_other; [exact HR3 | try done..].
    cbn. by rewrite (R_lock _ _ _ HR3).
  - unfold env in *. cbn in *. injection E3 as E31 E32 E33 E34 E35 E36 E37 E38 E39. congruence.
Qed.
(** ** Initialisation and recovery *)

(** An arena with room for the cache. *)
Definition roomy (ar : A) : Prop := exists L r, ar_inv ar L r /\ (20 <= cap <= r)%nat.

Lemma R_fresh sb dv (ar : A) : (forall n, block_wf (medium dv n)) -> roomy ar ->
  R cap (fresh_bcache sb dv ar) (mkSpec (medium dv) dv ∅ ∅).
Proof.
  intros Hw (L & r & HL & Hr). split; cbn; try done; try apply NoDup_nil_2; try apply not_elem_of_nil.
  - by intros b ?%not_elem_of_nil.
  - exists L, r. split_and!; [done | | lia | lia]. by intros p ?%not_elem_of_nil.
Qed.

Lemma init_bcache_ok sb dv (ar : A) : (forall n, block_wf (medium dv n)) -> roomy ar ->
  let h := header_dec (medium dv (sb_log_start sb)) in
  header_ok sb h ->
  exists s, init_bcache me sb dv ar = Ret s /\
    R cap s (mkSpec (recover sb (medium dv)) (dev_writes dv (replay_writes (medium dv) sb h)) ∅ ∅) /\
    env s = env (set_header (cleared h) (fresh_bcache sb dv ar)).
Proof.
  intros Hw Hr h Hh. set (s1 := set_header h (fresh_bcache sb dv ar)).
  assert (HR1 : R cap s1 (mkSpec (medium dv) dv ∅ ∅)) by (by apply (R_other _ _ _ _ (R_fresh sb dv ar Hw Hr))).
  assert (W : wp no_panic (read_header;; replay me) (fun _ s => R cap s (mkSpec (recover sb (medium dv))
    (dev_writes dv (replay_writes (medium dv) sb h)) ∅ ∅) /\
    env s = env (set_header (cleared h) (fresh_bcache sb dv ar))) (fresh_bcache sb dv ar)).
  { apply wp_bind, wp_modify. eapply (replay_ok no_panic s1); [done | | | |].
    - by split.
    - intros n _ q. cbn. by rewrite lookup_empty.
    - cbn [held pin]. rewrite map_size_empty, size_empty. destruct Hr as (L & r & _ & Hr). lia.
    - intros s' HR' E'. split; [| exact E']. rewrite sp_unpins_empty in HR' by done. exact HR'. }
  destruct (wp_returns _ _ _ W) as ([] & s & E0 & HRs & Es). exists s. split; [| by split].
  unfold init_bcache. by rewrite E0.
Qed.
(** A crash after [k] writes of a checkpoint, then a recovery. *)
Lemma checkpoint_crash_ok s a : R cap s a -> log_ready s -> held a = ∅ ->
  (forall n, n ∈ pin a -> n ∈ recorded (header s)) ->
  hdr_num_blocks (header_dec (medium (device s) (sb_log_start (sblock s)))) = 0 ->
  forall k (ar : A), roomy ar ->
  exists r a', init_bcache me (sblock s)
      (dev_writes (device s) (take k (checkpoint_writes (view a) (sblock s) (header s)))) ar = Ret r /\
    R cap r a' /\ forall x, ~ in_log (sblock s) x ->
      view a' x = if decide (k <= length (recorded (header s)))%nat then medium (device s) x else view a x.
Proof.
  intros HR Hlr Hheld Hpin Hz k ar Har. set (m := medium (device s)).
  set (ws := take k _). assert (Hh := lr_hdr _ Hlr).
  assert (Hrest : forall n, ~ in_log (sblock s) n -> n ∉ recorded (header s) -> view a n = m n).
  { intros n _ Hn. destruct (unheld_settled cap s a n HR) as [Hin|Hc].
    - intros q. rewrite Hheld. by rewrite lookup_empty.
    - by apply Hpin in Hin.
    - unfold clean in Hc. by rewrite (R_disk _ _ _ HR) in Hc. }
  assert (Hmwf : forall n, block_wf (m n)).
  { intros n. unfold m. rewrite <- (R_disk _ _ _ HR). apply HR. }
  assert (Hwf : forall n, block_wf (upds m ws n)).
  { apply upds_wf; [done |]. apply Forall_take. apply checkpoint_writes_wf; [done |]. intros n. apply HR. }
  assert (Emed : medium (dev_writes (device s) ws) = upds m ws) by apply medium_dev_writes.
  destruct (init_bcache_ok (sblock s) (dev_writes (device s) ws) ar) as (r & Er & HRr & _).
  - by rewrite Emed.
  - done.
  - rewrite Emed. by apply crash_header_ok.
  - eexists r, _. split; [done |]. split; [exact HRr |]. intros x Hx. cbn [view]. rewrite Emed.
    by apply crash_recover.
Qed.
End programs.
