(* ===== verification/CacheTxn.v ===== *)
(** Atomic operations of fs/cache.c: begin_op, sync and end_op.

    The log space of an operation is reserved when it begins and settled when it
    commits; the invariant [txn] states the accounting, and that every pinned
    block belongs to a running operation or is recorded in the log header.  The
    operation that ends last checkpoints: afterwards every block is on the
    device, and a crash at any point of it keeps either everything or nothing. *)
From S2P Require Import Prelude Bytes CString Bitmap Locks Arena FsDefs Cache CacheSpec CacheLog CacheCrash.

(** * Searching an array of block numbers *)

Lemma find_index_ok no arr n : forall j, 0 <= j -> (Z.to_nat j + n <= length arr)%nat ->
  let i := find_index no arr j n in
  j <= i <= j + Z.of_nat n /\
  (i < j + Z.of_nat n -> zget arr i = no) /\
  (forall k, j <= k < i -> zget arr k <> no).
Proof.
  induction n as [|n IH]; intros j Hj Hl; cbn [find_index]; [cbn; split_and!; lia |].
  destruct (Z.eqb_spec (zget arr j) no) as [E|E]; [cbn; split_and!; lia || done |].
  destruct (IH (j + 1) ltac:(lia) ltac:(lia)) as (H1 & H2 & H3). cbn zeta in *.
  split_and!; [lia | lia | intros; apply H2; lia |].
  intros k Hk. destruct (decide (k = j)) as [->|]; [done |]. apply H3. lia.
Qed.

(** The index is inside the array exactly when the number is there. *)
Lemma find_index_take no arr n : (n <= length arr)%nat ->
  let i := find_index no arr 0 n in
  0 <= i <= Z.of_nat n /\
  (i < Z.of_nat n <-> no ∈ take n arr) /\ (i < Z.of_nat n -> zset arr i no = arr).
Proof.
  intros Hl. destruct (find_index_ok no arr n 0 ltac:(lia) ltac:(lia)) as (H1 & H2 & H3). cbn zeta in *.
  set (i := find_index no arr 0 n) in *.
  assert (Hlook : forall k, 0 <= k < Z.of_nat n -> take n arr !! Z.to_nat k = Some (zget arr k)).
  { intros k Hk. rewrite lookup_take_lt by lia. apply lookup_zget. lia. }
  split; [lia |]. split; [split |].
  - intros Hi. rewrite <- (H2 ltac:(lia)). eapply list_elem_of_lookup_2, Hlook. lia.
  - intros (k & Hk)%list_elem_of_lookup. destruct (decide (i < Z.of_nat n)) as [|Hge]; [done |]. exfalso.
    pose proof (lookup_lt_Some _ _ _ Hk) as Hlt. rewrite length_take in Hlt.
    apply (H3 (Z.of_nat k)); [lia |]. rewrite <- (Nat2Z.id k) in Hk. rewrite Hlook in Hk by lia. congruence.
  - intros Hi. unfold zset. apply list_insert_id. rewrite lookup_zget by lia. f_equal. apply H2. lia.
Qed.

Lemma take_zset_app arr n no : (n < length arr)%nat -> take (S n) (zset arr (Z.of_nat n) no) = take n arr ++ [no].
Proof.
  intros Hn. unfold zset. rewrite Nat2Z.id.
  rewrite (take_S_r _ _ no) by (by rewrite list_lookup_insert_eq). by rewrite take_insert_ge by lia.
Qed.

(** * Operations in progress *)

(** The blocks an operation has synced. *)
Definition op_blocks (c : OpContext) : list Z := take (Z.to_nat (op_num_blocks c)) (op_block_no c).

Record op_ok (sb : SuperBlock) (c : OpContext) : Prop := {
  oo_lock : op_lock c = init_spinlock;
  oo_num : 0 <= op_num_blocks c <= 10;
  oo_len : length (op_block_no c) = 10%nat;
  oo_nodup : NoDup (op_blocks c);
  oo_block : forall b, b ∈ op_blocks c -> ~ in_log sb b /\ 0 <= b < 2 ^ 64
}.

(** An operation after [cache_sync] of block [no]. *)
Definition op_add (no : Z) (c : OpContext) : OpContext :=
  if decide (no ∈ op_blocks c) then c
  else mkOp (op_lock c) (ts c) (op_num_blocks c + 1) (zset (op_block_no c) (op_num_blocks c) no).

Lemma op_add_blocks sb no c : op_ok sb c -> no ∈ op_blocks c \/ op_num_blocks c < 10 ->
  op_blocks (op_add no c) = if decide (no ∈ op_blocks c) then op_blocks c else op_blocks c ++ [no].
Proof.
  intros [_ Hn Hl _ _] Hin. unfold op_add. case_decide as Hd; [done |].
  destruct Hin as [|Hlt]; [done |]. unfold op_blocks at 1. cbn.
  replace (Z.to_nat (op_num_blocks c + 1)) with (S (Z.to_nat (op_num_blocks c))) by lia.
  rewrite <- (Z2Nat.id (op_num_blocks c)) at 2 by lia. rewrite take_zset_app by lia. done.
Qed.

Lemma op_add_ok sb no c : op_ok sb c -> no ∈ op_blocks c \/ op_num_blocks c < 10 ->
  ~ in_log sb no -> 0 <= no < 2 ^ 64 -> op_ok sb (op_add no c).
Proof.
  intros Hc Hin Hlog Hno. pose proof (op_add_blocks sb no c Hc Hin) as Eb.
  destruct Hc as [Hk Hn Hl Hd Ho].
  assert (Hf : forall b, b ∈ op_blocks (op_add no c) -> b ∈ op_blocks c \/ b = no).
  { intros b. rewrite Eb. case_decide; [by left |]. intros [|Hb]%elem_of_app; [by left |].
    right. by apply list_elem_of_singleton in Hb. }
  split.
  - unfold op_add. by case_decide.
  - unfold op_add. case_decide; [done |]. destruct Hin; [done |]. cbn. lia.
  - unfold op_add. case_decide; [done |]. cbn. by rewrite length_zset.
  - rewrite Eb. case_decide as Hi; [done |]. apply NoDup_app. split_and!; [done | | apply NoDup_singleton].
    intros x Hx ->%list_elem_of_singleton. done.
  - intros b [Hb| ->]%Hf; [by apply Ho | done].
Qed.

(** * Committing blocks into the header *)

Definition hdr_add (no : Z) (h : LogHeader) : LogHeader :=
  if decide (no ∈ recorded h) then h
  else mkHeader (hdr_num_blocks h + 1) (zset (hdr_block_no h) (hdr_num_blocks h) no).

Lemma hdr_add_recorded sb no h : header_ok sb h -> no ∈ recorded h \/ hdr_num_blocks h < 63 ->
  recorded (hdr_add no h) = if decide (no ∈ recorded h) then recorded h else recorded h ++ [no].
Proof.
  intros [(Hn & _ & Hl) _ _ _ _] Hin. unfold hdr_add. case_decide as Hd; [done |].
  destruct Hin as [|Hlt]; [done |]. unfold recorded at 1. cbn.
  replace (Z.to_nat (hdr_num_blocks h + 1)) with (S (Z.to_nat (hdr_num_blocks h))) by lia.
  rewrite <- (Z2Nat.id (hdr_num_blocks h)) at 2 by lia. rewrite take_zset_app by lia. done.
Qed.

Lemma hdr_add_ok sb no h : header_ok sb h ->
  no ∈ recorded h \/ (hdr_num_blocks h < 63 /\ hdr_num_blocks h + 1 < num_log_blocks sb) ->
  ~ in_log sb no -> 0 <= no < 2 ^ 64 ->
  header_ok sb (hdr_add no h) /\ forall b, b ∈ recorded (hdr_add no h) <-> b ∈ recorded h \/ b = no.
Proof.
  intros Hh Hin Hlog Hno. pose proof (hdr_add_recorded sb no h Hh ltac:(tauto)) as Eb.
  assert (Hf : forall b, b ∈ recorded (hdr_add no h) <-> b ∈ recorded h \/ b = no).
  { intros b. rewrite Eb. case_decide as Hd; [split; [by left |]; by intros [| ->] |].
    by rewrite elem_of_app, list_elem_of_singleton. }
  split; [| done]. destruct Hh as [(Hn & Hf64 & Hl) H63 Hfit Hd Ho]. split.
  - unfold hdr_add. case_decide; [done |]. split_and!; cbn; [lia | lia | | by rewrite length_zset].
    by apply Forall_zset.
  - unfold hdr_add. case_decide; [done |]. cbn. destruct Hin as [|]; [done | lia].
  - unfold hdr_add. case_decide; [done |]. cbn. destruct Hin as [|]; [done | lia].
  - rewrite Eb. case_decide as Hi; [done |]. apply NoDup_app. split_and!; [done | | apply NoDup_singleton].
    intros x Hx ->%list_elem_of_singleton. done.
  - intros b [Hb| ->]%Hf; [by apply Ho | done].
Qed.

Section txn.
Context {A : Type} `{ObjectArena A} (me : Z) (cap : nat).
Implicit Types (s : bcache A) (a : cspec) (c : OpContext).

Definition with_op_lock (l : SpinLock) c : OpContext := mkOp l (ts c) (op_num_blocks c) (op_block_no c).

Lemma wp_load_op E s ctx c Q : ops s !! ctx = Some c -> Q c s -> wp E (load_op ctx) Q s.
Proof. intros Hc HQ. unfold load_op. apply wp_bind, wp_get. rewrite Hc. by apply wp_ret. Qed.

Lemma wp_lock_op E s ctx c Q : ops s !! ctx = Some c -> op_lock c = init_spinlock ->
  Q tt (set_ops (<[ctx := with_op_lock (mkSpin true (Some me)) c]> (ops s)) s) -> wp E (lock_op me ctx) Q s.
Proof.
  intros Hc Hl HQ. unfold lock_op. apply wp_bind. eapply wp_load_op; [done |].
  apply wp_bind. eapply wp_lift; [rewrite Hl; apply acquire_free |]. by apply wp_modify.
Qed.

Lemma wp_unlock_op E s ctx c Q : ops s !! ctx = Some c -> op_lock c = mkSpin true (Some me) ->
  Q tt (set_ops (<[ctx := with_op_lock init_spinlock c]> (ops s)) s) -> wp E (unlock_op me ctx) Q s.
Proof.
  intros Hc Hl HQ. unfold unlock_op. apply wp_bind. eapply wp_load_op; [done |].
  apply wp_bind. eapply wp_lift; [rewrite Hl; apply release_own |]. by apply wp_modify.
Qed.

(** What cache_sync stores in the operation context. *)
Lemma sync_store sb no c : op_ok sb c -> no ∈ op_blocks c \/ op_num_blocks c < 10 ->
  let i := find_index no (op_block_no c) 0 (Z.to_nat (op_num_blocks c)) in
  i < 10 /\ mkOp init_spinlock (ts c) (if i >=? op_num_blocks c then u64 (op_num_blocks c + 1) else op_num_blocks c)
    (zset (op_block_no c) i no) = op_add no c.
Proof.
  intros [Hk Hn Hl _ _] Hin i.
  destruct (find_index_take no (op_block_no c) (Z.to_nat (op_num_blocks c)) ltac:(lia)) as (Hi & Hiff & Hid).
  cbn zeta in *. fold i in Hi, Hiff, Hid. fold (op_blocks c) in Hiff. rewrite Z2Nat.id in * by lia.
  unfold op_add. case_decide as Hd.
  - apply Hiff in Hd. split; [lia |]. destruct (Z.geb_spec i (op_num_blocks c)); [lia |].
    rewrite (Hid Hd). destruct c. cbn in *. by subst.
  - destruct Hin as [|Hlt]; [done |]. assert (i = op_num_blocks c) as ->.
    { destruct (decide (i < op_num_blocks c)) as [Hc|]; [by apply Hiff in Hc | lia]. }
    split; [lia |]. destruct (Z.geb_spec (op_num_blocks c) (op_num_blocks c)); [| lia].
    rewrite u64_small by lia. by rewrite Hk.
Qed.

Lemma cache_sync_ok E s a ctx p no c Q :
  R cap s a -> held a !! p = Some no -> ctx <> 0 -> ops s !! ctx = Some c -> op_ok (sblock s) c ->
  no ∈ op_blocks c \/ op_num_blocks c < 10 ->
  (forall s', R cap s' (sp_pin no a) -> env s' = env (set_ops (<[ctx := op_add no c]> (ops s)) s) -> Q tt s') ->
  wp E (cache_sync me ctx p) Q s.
Proof.
  intros HR Hp Hctx Hc Hok Hin HQ. destruct (sync_store _ _ _ Hok Hin) as [Hi Es]. pose proof Hok as [Hk _ _ _ _].
  destruct (R_pointer _ _ _ _ _ HR Hp) as (b & _ & _ & Hb & _ & Hat & _).
  unfold cache_sync. rewrite (proj2 (Z.eqb_neq ctx 0)) by done. cbn [negb].
  apply wp_bind. eapply wp_lock_op; [done.. |].
  apply wp_bind. eapply wp_load_op; [apply lookup_insert_eq |].
  apply wp_bind. eapply wp_load_block; [exact Hat |].
  cbn [with_op_lock op_block_no op_num_blocks op_lock ts]. rewrite Hb.
  apply wp_bind, wp_assert; [by apply Z.ltb_lt |]. apply wp_bind, wp_modify.
  cbn [set_ops ops]. rewrite insert_insert_eq.
  apply wp_bind. eapply wp_unlock_op; [apply lookup_insert_eq | done |].
  cbn [set_ops ops]. rewrite insert_insert_eq. unfold with_op_lock. cbn [op_block_no op_num_blocks op_lock ts].
  rewrite Es. eapply (set_pinned_ok me cap E _ a p no true); [eapply R_other; [exact HR | done..] | done |].
  intros s' HR' E'. by apply HQ.
Qed.

(** The eleventh distinct block of an operation is refused. *)
Lemma cache_sync_full s a ctx p no c :
  R cap s a -> held a !! p = Some no -> ctx <> 0 -> ops s !! ctx = Some c -> op_ok (sblock s) c ->
  no ∉ op_blocks c -> op_num_blocks c = 10 -> cache_sync me ctx p s = Panic "i < OP_MAX_NUM_BLOCKS".
Proof.
  intros HR Hp Hctx Hc [Hk Hn Hl _ _] Hno H10.
  destruct (R_pointer _ _ _ _ _ HR Hp) as (b & _ & _ & Hb & _ & Hat & _).
  destruct (find_index_take no (op_block_no c) (Z.to_nat (op_num_blocks c)) ltac:(lia)) as (Hi & Hiff & _).
  cbn zeta in *. set (i := find_index _ _ _ _) in *.
  assert (Hge : (i <? OP_MAX_NUM_BLOCKS) = false).
  { apply Z.ltb_ge. unfold OP_MAX_NUM_BLOCKS. destruct (decide (i < 10)) as [Hlt|]; [| lia].
    exfalso. apply Hno. unfold op_blocks. apply Hiff. lia. }
  unfold cache_sync. rewrite (proj2 (Z.eqb_neq ctx 0)) by done. cbn [negb].
  unfold lock_op, load_op, store_op, load_block, lift, get, modify, assert, mbind, M_bind, outcome_bind.
  rewrite Hc. cbn -[acquire_spinlock find_index]. rewrite Hk, acquire_free.
  cbn -[acquire_spinlock find_index]. rewrite lookup_insert_eq. cbn -[acquire_spinlock find_index].
  rewrite Hat. cbn -[acquire_spinlock find_index]. rewrite Hb. fold i. by rewrite Hge.
Qed.
Lemma commit_block_ok E s no absorbed Q :
  let h := header s in
  header_ok (sblock s) h -> hdr_num_blocks h <= log_size s <= 63 ->
  no ∈ recorded h \/ hdr_num_blocks h < log_size s ->
  Q (if decide (no ∈ recorded h) then absorbed + 1 else absorbed) (set_header (hdr_add no h) s) ->
  wp E (commit_block no absorbed) Q s.
Proof.
  intros h Hh Hsz Hin HQ. destruct Hh as [(Hn & _ & Hl) H63 _ _ _].
  destruct (find_index_take no (hdr_block_no h) (Z.to_nat (hdr_num_blocks h)) ltac:(lia)) as (Hi & Hiff & Hid).
  cbn zeta in *. fold (recorded h) in Hiff. rewrite Z2Nat.id in * by lia.
  unfold commit_block. apply wp_bind, wp_get. fold h.
  set (j := find_index no (hdr_block_no h) 0 (Z.to_nat (hdr_num_blocks h))) in *.
  assert (Hj : j < log_size s).
  { destruct (decide (j < hdr_num_blocks h)) as [|Hge]; [lia |]. destruct Hin as [Hin|]; [| lia].
    apply Hiff in Hin. lia. }
  apply wp_bind, wp_assert; [by apply Z.ltb_lt |]. unfold hdr_add in HQ.
  destruct (Z.ltb_spec j (hdr_num_blocks h)) as [Hlt|Hge]; apply wp_bind, wp_modify, wp_ret.
  - rewrite decide_True, decide_True in HQ by (by apply Hiff). rewrite (Hid Hlt). destruct h. done.
  - assert (Hno : no ∉ recorded h) by (intros Hc%Hiff; lia). rewrite decide_False, decide_False in HQ by done.
    assert (j = hdr_num_blocks h) as -> by lia. rewrite u64_small by lia. done.
Qed.

(** What a commit does to the header: [k] of the blocks were already there. *)
Record merged (sb : SuperBlock) (h : LogHeader) (nos : list Z) (k : Z) (h' : LogHeader) : Prop := {
  mg_ok : header_ok sb h';
  mg_num : hdr_num_blocks h' = hdr_num_blocks h + Z.of_nat (length nos) - k;
  mg_k : 0 <= k <= Z.of_nat (length nos);
  mg_blocks : forall b, b ∈ recorded h' <-> b ∈ recorded h \/ b ∈ nos
}.

Lemma commit_loop_ok E nos : forall s absorbed Q,
  header_ok (sblock s) (header s) -> log_size s <= 63 -> log_size s < num_log_blocks (sblock s) ->
  hdr_num_blocks (header s) + Z.of_nat (length nos) <= log_size s ->
  Forall (fun b => ~ in_log (sblock s) b /\ 0 <= b < 2 ^ 64) nos ->
  (forall k h', merged (sblock s) (header s) nos k h' -> Q (absorbed + k) (set_header h' s)) ->
  wp E (commit_loop nos absorbed) Q s.
Proof.
  induction nos as [|no nos IH]; intros s absorbed Q Hh H63 Hfit Hroom Hnos HQ; cbn [commit_loop].
  - apply wp_ret. assert (set_header (header s) s = s) as Es by (by destruct s).
    rewrite <- Es. rewrite <- (Z.add_0_r absorbed). apply HQ. cbn. split; [done | cbn; lia | cbn; lia |].
    intros b. rewrite elem_of_nil. tauto.
  - apply Forall_cons in Hnos as [[Hlog H64] Hnos]. cbn [length] in Hroom.
    apply wp_bind. eapply commit_block_ok; [done | lia | right; lia |].
    destruct (hdr_add_ok (sblock s) no (header s) Hh) as [Hh1 Hb1]; [right; lia | done | done |].
    assert (Hnum : hdr_num_blocks (hdr_add no (header s)) =
      hdr_num_blocks (header s) + if decide (no ∈ recorded (header s)) then 0 else 1).
    { unfold hdr_add. case_decide; cbn; lia. }
    eapply IH; cbn [set_header sblock header log_size]; try done.
    + rewrite Hnum. case_decide; lia.
    + intros k h' [Hok Hn Hk Hb]. cbn [set_header sblock header] in *.
      specialize (HQ (k + if decide (no ∈ recorded (header s)) then 1 else 0) h').
      replace (set_header h' (set_header (hdr_add no (header s)) s)) with (set_header h' s) by (by destruct s).
      replace ((if decide (no ∈ recorded (header s)) then absorbed + 1 else absorbed) + k) with
        (absorbed + (k + if decide (no ∈ recorded (header s)) then 1 else 0)) by (case_decide; lia).
      apply HQ. split; [done | cbn [length]; rewrite Hn, Hnum; case_decide; lia | cbn [length]; case_decide; lia |].
      intros b. rewrite Hb, Hb1, elem_of_cons. tauto.
Qed.
(** ** The invariant *)

(** [run] are the operations begun and not yet ended. *)
Record txn s a (run : gset Z) : Prop := {
  tx_R : R cap s a;
  tx_log : log_ready s;
  tx_disk : hdr_num_blocks (header_dec (medium (device s) (sb_log_start (sblock s)))) = 0;
  tx_size : log_size s <= 63 /\ log_size s < num_log_blocks (sblock s);
  tx_used : log_used s = hdr_num_blocks (header s) + 10 * op_count s;
  tx_le : log_used s <= log_size s;
  tx_count : op_count s = Z.of_nat (size run);
  tx_ops : forall ctx, ctx ∈ run -> ctx <> 0 /\ exists c, ops s !! ctx = Some c /\ op_ok (sblock s) c;
  tx_pin : forall n, n ∈ pin a -> n ∈ recorded (header s) \/
    exists ctx c, ctx ∈ run /\ ops s !! ctx = Some c /\ n ∈ op_blocks c
}.

Lemma txn_bounds s a run : txn s a run -> 0 <= hdr_num_blocks (header s) /\ 0 <= op_count s <= 6 /\
  0 <= log_used s <= 63.
Proof.
  intros HT. destruct (ho_wf _ _ (lr_hdr _ (tx_log _ _ _ HT))) as [Hn _].
  pose proof (tx_used _ _ _ HT). pose proof (tx_le _ _ _ HT). pose proof (tx_size _ _ _ HT).
  pose proof (tx_count _ _ _ HT). lia.
Qed.

(** The context begin_op leaves. *)
Definition new_op (t : Z) : OpContext := mkOp init_spinlock t 0 (replicate 10 0).

Lemma new_op_ok sb t : op_ok sb (new_op t).
Proof.
  split; [done | unfold new_op; cbn [op_num_blocks]; lia | done | apply NoDup_nil_2 |].
  by intros b ?%not_elem_of_nil.
Qed.

(** begin_op with enough free log space; otherwise it waits. *)
Lemma cache_begin_op_ok E s a run ctx Q : txn s a run -> ctx ∉ run -> ctx <> 0 ->
  log_used s + 10 <= log_size s ->
  (forall s', txn s' a ({[ctx]} ∪ run) -> ops s' = <[ctx := new_op (u64 (last_allocated_ts s + 1))]> (ops s) ->
    device s' = device s -> sblock s' = sblock s -> log_used s' = log_used s + 10 -> Q tt s') ->
  wp E (cache_begin_op me ctx) Q s.
Proof.
  intros HT Hctx H0 Hroom HQ. pose proof (txn_bounds _ _ _ HT) as (Hh & Hoc & Hu).
  unfold cache_begin_op, store_op. apply wp_bind, wp_modify.
  apply wp_bind, wp_lock_cache; [apply (R_lock _ _ _ (tx_R _ _ _ HT)) |]. apply wp_bind, wp_get.
  cbn [set_lock set_ops log_used log_size]. unfold OP_MAX_NUM_BLOCKS. rewrite (u64_small (log_used s + 10)) by lia.
  destruct (Z.gtb_spec (log_used s + 10) (log_size s)); [lia |]. apply wp_bind, wp_ret. wp_steps.
  apply wp_unlock_cache; [done |].
  cbn [set_lock set_ops set_log_used set_last_allocated_ts set_op_count ops log_used last_allocated_ts op_count].
  rewrite (u64_small (log_used s + 10)), (u64_small (op_count s + 1)) by lia. rewrite insert_insert_eq.
  apply HQ; [| done..]. destruct HT as [HR Hlog Hd Hsz Hus Hle Hcnt Hops Hpin]. split; cbn; try done.
  - eapply R_other; [exact HR | try done..]. cbn. symmetry. apply HR.
  - by destruct Hlog.
  - lia.
  - rewrite size_union, size_singleton by (intros x ->%elem_of_singleton; done). lia.
  - intros ctx' [->%elem_of_singleton|Hc]%elem_of_union.
    + split; [done |]. eexists. split; [apply lookup_insert_eq |]. apply new_op_ok.
    + rewrite lookup_insert_ne by (by intros ->). by apply Hops.
  - intros n Hn. destruct (Hpin n Hn) as [|(ctx' & c & Hc & Ec & Hb)]; [by left |]. right. exists ctx', c.
    split_and!; [by apply elem_of_union_r | | done]. rewrite lookup_insert_ne; [done |]. by intros ->.
Qed.

Lemma cache_begin_op_waits s a run ctx : txn s a run -> log_size s < log_used s + 10 ->
  cache_begin_op me ctx s = Blocked.
Proof.
  intros HT Hroom. pose proof (txn_bounds _ _ _ HT) as (Hh & Hoc & Hu).
  pose proof (R_lock _ _ _ (tx_R _ _ _ HT)) as Hl.
  unfold cache_begin_op, store_op, lock_cache, lift, get, modify, blocked, mbind, M_bind, outcome_bind.
  cbn -[acquire_spinlock u64 Z.gtb]. rewrite Hl, acquire_free. cbn -[acquire_spinlock u64 Z.gtb].
  unfold OP_MAX_NUM_BLOCKS. rewrite (u64_small (log_used s + 10)) by lia.
  by destruct (Z.gtb_spec (log_used s + 10) (log_size s)); [| lia].
Qed.
(** The part of the invariant that [R] and the operations do not decide. *)
Lemma txn_same_env s s' a a' run : txn s a run -> R cap s' a' -> env s' = env s -> pin a' = pin a ->
  hdr_num_blocks (header_dec (medium (device s') (sb_log_start (sblock s)))) = 0 -> txn s' a' run.
Proof.
  intros HT HR E Ep Hd. pose proof (log_ready_env _ _ (tx_log _ _ _ HT) E) as Hlr.
  destruct HT as [_ Hlog _ Hsz Hus Hle Hcnt Hops Hpin].
  injection E as E1 E2 E3 E4 E5 E6 E7 E8 E9.
  split; rewrite ?E1, ?E2, ?E6, ?E7, ?E8, ?E9, ?Ep; try done.
Qed.

Lemma cache_sync_txn E s a run ctx p no c Q : txn s a run -> ctx ∈ run -> held a !! p = Some no ->
  ops s !! ctx = Some c -> no ∈ op_blocks c \/ op_num_blocks c < 10 ->
  ~ in_log (sblock s) no -> 0 <= no < 2 ^ 64 ->
  (forall s', txn s' (sp_pin no a) run -> ops s' = <[ctx := op_add no c]> (ops s) ->
    device s' = device s -> sblock s' = sblock s -> Q tt s') ->
  wp E (cache_sync me ctx p) Q s.
Proof.
  intros HT Hrun Hp Hc Hin Hlog Hno HQ. destruct (tx_ops _ _ _ HT ctx Hrun) as (H0 & c' & Ec & Hok).
  rewrite Hc in Ec. injection Ec as <-. pose proof (tx_R _ _ _ HT) as HR.
  eapply cache_sync_ok; [exact HR | done | done | done | done | done |]. intros s' HR' E'.
  assert (Edev : device s' = device s).
  { rewrite <- (R_disk _ _ _ HR'). apply (R_disk _ _ _ HR). }
  pose proof (log_ready_env (set_ops (<[ctx := op_add no c]> (ops s)) s) s') as Hlr.
  destruct HT as [_ Hlg Hd Hsz Hus Hle Hcnt Hops Hpin].
  injection E' as E1 E2 E3 E4 E5 E6 E7 E8 E9. cbn in *.
  apply HQ; [| by rewrite E9 | done | done].
  assert (Hadd : forall b, b ∈ op_blocks c \/ b = no -> b ∈ op_blocks (op_add no c)).
  { intros b. rewrite (op_add_blocks _ _ _ Hok Hin). case_decide as Hd'; [by intros [| ->] |].
    rewrite elem_of_app, list_elem_of_singleton. tauto. }
  split; rewrite ?E1, ?E2, ?E6, ?E7, ?E8, ?E9, ?Edev; try done.
  - apply Hlr; [by destruct Hlg |]. unfold env. cbn. congruence.
  - intros ctx' Hr'. destruct (decide (ctx' = ctx)) as [->|Hne].
    + split; [done |]. eexists. split; [apply lookup_insert_eq |]. by apply op_add_ok.
    + rewrite lookup_insert_ne by done. by apply Hops.
  - cbn. intros n [->%elem_of_singleton|Hn]%elem_of_union.
    + right. exists ctx, (op_add no c). rewrite lookup_insert_eq. split_and!; [done | done |]. apply Hadd. by right.
    + destruct (Hpin n Hn) as [|(ctx' & d & Hr' & Ed & Hb)]; [by left |]. right.
      destruct (decide (ctx' = ctx)) as [->|Hne].
      * exists ctx, (op_add no c). rewrite lookup_insert_eq. split_and!; [done | done |]. apply Hadd. left. congruence.
      * exists ctx', d. by rewrite lookup_insert_ne.
Qed.

(** ** The end of an operation *)

Lemma commit_ok E s ctx c Q : ops s !! ctx = Some c -> op_ok (sblock s) c ->
  header_ok (sblock s) (header s) -> log_size s <= 63 -> log_size s < num_log_blocks (sblock s) ->
  hdr_num_blocks (header s) + op_num_blocks c <= log_size s ->
  (forall k h', merged (sblock s) (header s) (op_blocks c) k h' ->
    Q tt (set_log_used (u64 (log_used s - (10 - op_num_blocks c + k))) (set_header h' s))) ->
  wp E (commit me ctx) Q s.
Proof.
  intros Hc Hok Hh H63 Hfit Hroom HQ. pose proof Hok as [Hk Hn Hl _ Hb].
  assert (Hlen : Z.of_nat (length (op_blocks c)) = op_num_blocks c).
  { unfold op_blocks. rewrite length_take. lia. }
  unfold commit. apply wp_bind. eapply wp_lock_op; [done.. |].
  apply wp_bind. eapply wp_load_op; [apply lookup_insert_eq |]. cbn [with_op_lock op_num_blocks op_block_no].
  fold (op_blocks c). apply wp_bind. eapply commit_loop_ok; try done.
  - cbn. lia.
  - apply Forall_forall. exact Hb.
  - intros k h' Hm. apply wp_bind. eapply wp_unlock_op; [apply lookup_insert_eq | done |].
    cbn [set_header set_ops ops]. rewrite insert_insert_eq.
    apply wp_bind. eapply wp_load_op; [apply lookup_insert_eq |].
    cbn [with_op_lock op_num_blocks op_block_no ts op_lock]. apply wp_modify. rewrite Z.add_0_l.
    unfold OP_MAX_NUM_BLOCKS. rewrite (u64_small (10 - _)) by lia.
    specialize (HQ k h' Hm). unfold with_op_lock. cbn [op_num_blocks op_block_no ts op_lock].
    replace (mkOp init_spinlock (ts c) (op_num_blocks c) (op_block_no c)) with c by (destruct c; cbn in *; by subst).
    rewrite insert_id by done. by destruct s.
Qed.
(** The state after the commit of an operation. *)
Definition ended (h' : LogHeader) (u : Z) s : bcache A :=
  set_op_count (op_count s - 1) (set_log_used u (set_header h' s)).

Lemma txn_ended s a run ctx c k h' : txn s a run -> ctx ∈ run -> ops s !! ctx = Some c ->
  merged (sblock s) (header s) (op_blocks c) k h' ->
  txn (ended h' (log_used s - (10 - op_num_blocks c + k)) s) a (run ∖ {[ctx]}).
Proof.
  intros HT Hrun Hc [Hmo Hmn Hmk Hmb]. destruct (tx_ops _ _ _ HT ctx Hrun) as (H0 & c' & Ec & Hok).
  rewrite Hc in Ec. injection Ec as <-. destruct Hok as [_ Hn Hl _ _].
  assert (Hlen : Z.of_nat (length (op_blocks c)) = op_num_blocks c).
  { unfold op_blocks. rewrite length_take. lia. }
  destruct HT as [HR [Hls _] Hd Hsz Hus Hle Hcnt Hops Hpin].
  assert (Hsize : size run = S (size (run ∖ {[ctx]}))).
  { rewrite (union_difference_singleton_L ctx run Hrun) at 1.
    rewrite size_union, size_singleton; [done |]. intros x ->%elem_of_singleton. set_solver. }
  split; cbn; try done.
  - eapply R_other; [exact HR | done..].
  - lia.
  - lia.
  - lia.
  - intros ctx' [Hr _]%elem_of_difference. by apply Hops.
  - intros n Hp. destruct (Hpin n Hp) as [Hb|(ctx' & d & Hr & Ed & Hb)].
    + left. apply Hmb. by left.
    + destruct (decide (ctx' = ctx)) as [->|Hne].
      * left. apply Hmb. right. congruence.
      * right. exists ctx', d. split_and!; [| done | done]. apply elem_of_difference.
        split; [done |]. by rewrite elem_of_singleton.
Qed.

Lemma end_op_commit_ok E s a run ctx c Q : txn s a run -> ctx ∈ run -> ops s !! ctx = Some c ->
  (forall k h', merged (sblock s) (header s) (op_blocks c) k h' ->
    Q (op_count s =? 1, log_size s)
      (set_lock (mkSpin true (Some me)) (set_log_size (if op_count s =? 1 then 0 else log_size s)
        (ended h' (log_used s - (10 - op_num_blocks c + k)) s)))) ->
  wp E (end_op_commit me ctx) Q s.
Proof.
  intros HT Hrun Hc HQ. pose proof (txn_bounds _ _ _ HT) as (Hh & Hoc & Hu).
  destruct (tx_ops _ _ _ HT ctx Hrun) as (H0 & c' & Ec & Hok). rewrite Hc in Ec. injection Ec as <-.
  assert (Hpos : 1 <= op_count s).
  { rewrite (tx_count _ _ _ HT). assert (size run <> 0%nat); [| lia]. apply size_non_empty_iff. set_solver. }
  pose proof (tx_used _ _ _ HT). pose proof (tx_le _ _ _ HT). pose proof (oo_num _ _ Hok).
  unfold end_op_commit. apply wp_bind, wp_lock_cache; [apply (R_lock _ _ _ (tx_R _ _ _ HT)) |].
  apply wp_bind. eapply commit_ok; [exact Hc | done | apply (lr_hdr _ (tx_log _ _ _ HT)) | apply HT | apply HT | cbn; lia |].
  intros k h' Hm. pose proof Hm as [_ Hmn Hmk _].
  assert (Hlen : Z.of_nat (length (op_blocks c)) = op_num_blocks c).
  { unfold op_blocks. rewrite length_take. destruct Hok. lia. }
  specialize (HQ k h' Hm). wp_steps.
  cbn [set_lock set_header set_log_used set_op_count op_count log_used log_size] in *.
  rewrite (u64_small (log_used s - _)) by lia. rewrite (u64_small (op_count s - 1)) by lia.
  replace (op_count s - 1 =? 0) with (op_count s =? 1) by (destruct (Z.eqb_spec (op_count s) 1), (Z.eqb_spec (op_count s - 1) 0); lia || done).
  destruct (op_count s =? 1); [apply wp_modify | apply wp_ret]; apply wp_ret; destruct s; exact HQ.
Qed.
(** ** The last operation checkpoints *)

Lemma pin_size s a : txn s a ∅ -> (size (pin a) <= 63)%nat.
Proof.
  intros HT. etransitivity; [apply (subseteq_size _ (list_to_set (recorded (header s)))) |].
  - intros n Hn. apply elem_of_list_to_set. destruct (tx_pin _ _ _ HT n Hn) as [|(ctx & c & Hc & _)]; [done |].
    by apply not_elem_of_empty in Hc.
  - rewrite size_list_to_set by apply (ho_nodup _ _ (lr_hdr _ (tx_log _ _ _ HT))).
    pose proof (length_recorded _ _ (lr_hdr _ (tx_log _ _ _ HT))).
    pose proof (ho_num _ _ (lr_hdr _ (tx_log _ _ _ HT))). lia.
Qed.

Lemma unheld_empty a n : held a = ∅ -> unheld a n.
Proof. intros Hh q. rewrite Hh. by rewrite lookup_empty. Qed.

(** Blocks that are not recorded are already on the medium. *)
Lemma txn_rest s a : txn s a ∅ -> held a = ∅ ->
  forall n, ~ in_log (sblock s) n -> n ∉ recorded (header s) -> view a n = medium (device s) n.
Proof.
  intros HT Hh n _ Hn. pose proof (tx_R _ _ _ HT) as HR. rewrite <- (R_disk _ _ _ HR).
  destruct (unheld_settled cap s a n HR (unheld_empty a n Hh)) as [Hp|Hc]; [| done].
  destruct (tx_pin _ _ _ HT n Hp) as [|(ctx & c & Hc & _)]; [done |]. by apply not_elem_of_empty in Hc.
Qed.

(** The abstract state after a checkpoint from [s]. *)
Definition persisted s a : cspec :=
  sp_unpins (recorded (header s)) (sp_through (checkpoint_writes (view a) (sblock s) (header s)) a).

Lemma txn_persisted s s' a : txn s a ∅ -> held a = ∅ -> R cap s' (persisted s a) ->
  env s' = env (set_log_used 0 (set_last_persisted_ts (last_allocated_ts s) (set_header (cleared (header s)) s))) ->
  txn s' (persisted s a) ∅ /\ pin (persisted s a) = ∅ /\
  forall n, ~ in_log (sblock s) n -> view (persisted s a) n = view a n /\ medium (device s') n = view a n.
Proof.
  intros HT Hh HR' E'. pose proof (lr_hdr _ (tx_log _ _ _ HT)) as Hho.
  assert (Hmed : medium (device s') = upds (medium (device s)) (checkpoint_writes (view a) (sblock s) (header s))).
  { rewrite <- (R_disk _ _ _ HR'). cbn. rewrite medium_dev_writes. by rewrite (R_disk _ _ _ (tx_R _ _ _ HT)). }
  destruct (checkpoint_final (sblock s) (header s) Hho (view a) (medium (device s))
    (tx_disk _ _ _ HT) (txn_rest _ _ HT Hh)) as [Hz Hm].
  assert (Hpin : pin (persisted s a) = ∅).
  { apply set_eq. intros n. cbn. rewrite elem_of_difference, elem_of_list_to_set, elem_of_empty. split; [| done].
    intros [Hn Hr]. destruct (tx_pin _ _ _ HT n Hn) as [|(ctx & c & Hc & _)]; [done |].
    by apply not_elem_of_empty in Hc. }
  split_and!; [| done |].
  - injection E' as E1 E2 E3 E4 E5 E6 E7 E8 E9. cbn in E1, E2, E3, E4, E5, E6, E7, E8, E9.
    destruct HT as [_ [Hls _] Hd Hsz Hus Hle Hcnt Hops _].
    split; rewrite ?E1, ?E2, ?E6, ?E7, ?E8, ?E9; try done.
    + split; rewrite ?E1, ?E2, ?E5; [done |]. by apply cleared_ok.
    + by rewrite Hmed.
    + cbn. rewrite Hcnt, size_empty. lia.
    + destruct (ho_wf _ _ Hho) as [? _]. lia.
    + intros n Hn. rewrite Hpin in Hn. by apply not_elem_of_empty in Hn.
  - intros n Hn. rewrite Hmed. split; [| by apply Hm]. cbn.
    apply (checkpoint_final (sblock s) (header s) Hho (view a) (view a)); [| done | done].
    destruct (R_out _ _ _ (tx_R _ _ _ HT) _ (R_hdr _ _ _ (tx_R _ _ _ HT))) as [Hc _].
    rewrite Hc, (R_disk _ _ _ (tx_R _ _ _ HT)). apply HT.
Qed.

(** The last operation of a group ends: checkpoint, and the log is empty. *)
Lemma cache_end_op_ok E s a ctx c Q : txn s a {[ctx]} -> ops s !! ctx = Some c -> held a = ∅ ->
  (65 < cap)%nat ->
  (forall k h' s', merged (sblock s) (header s) (op_blocks c) k h' ->
    let s1 := ended h' (log_used s - (10 - op_num_blocks c + k)) s in
    txn s1 a ∅ -> R cap s' (persisted s1 a) ->
    env s' = env (set_log_used 0 (set_last_persisted_ts (last_allocated_ts s1) (set_header (cleared (header s1)) s1))) ->
    Q tt s') ->
  wp E (cache_end_op me ctx) Q s.
Proof.
  intros HT Hc Hh Hcap HQ. assert (Hone : op_count s = 1) by (rewrite (tx_count _ _ _ HT), size_singleton; done).
  unfold cache_end_op. apply wp_bind. eapply end_op_commit_ok; [exact HT | by apply elem_of_singleton | done |].
  intros k h' Hm. rewrite Hone. cbn [Z.eqb Pos.eqb]. set (s1 := ended h' _ s).
  assert (HT1 : txn s1 a ∅).
  { pose proof (txn_ended _ _ _ _ _ _ _ HT ltac:(by apply elem_of_singleton) Hc Hm) as H1.
    by rewrite difference_diag_L in H1. }
  specialize (HQ k h'). fold s1 in HQ. pose proof (tx_R _ _ _ HT1) as HR1.
  apply wp_bind, wp_unlock_cache; [done |].
  apply wp_bind. eapply (checkpoint_ok me cap E _ a).
  - eapply R_other; [exact HR1 | try done..]. by cbn; rewrite (R_lock _ _ _ (tx_R _ _ _ HT)).
  - destruct (tx_log _ _ _ HT1). by split.
  - intros n _. by apply unheld_empty.
  - pose proof (pin_size _ _ HT1). rewrite Hh, map_size_empty. lia.
  - intros s2 HR2 E2. injection E2 as E21 E22 E23 E24 E25 E26 E27 E28 E29.
    cbn in E21, E22, E23, E24, E25, E26, E27, E28, E29.
    apply wp_bind, wp_lock_cache; [apply (R_lock _ _ _ HR2) |]. wp_steps. apply wp_unlock_cache; [done |].
    eapply HQ; [exact Hm | done | |].
    + eapply R_other; [exact HR2 | try done..]. cbn. by rewrite (R_lock _ _ _ HR2).
    + unfold env. cbn. congruence.
Qed.
End txn.
