(* ===== verification/CacheProtocol.v ===== *)
(** The clients of the block cache: any interleaving of begin_op, acquire, write,
    sync, release and end_op that keeps the discipline of fs/cache.h keeps the
    invariant of the cache, from the recovery at boot on, and no call panics. *)
From S2P Require Import Prelude Bytes CString Bitmap Locks Arena FsDefs Cache CacheSpec CacheLog CacheCrash CacheTxn.

(** * Calls *)

(** The calls a client makes; [Write p d] stores [d] in [block->data]. *)
Inductive call :=
| Begin (ctx : Z)
| Acquire (no : Z)
| Write (p : Z) (d : list Z)
| Sync (ctx p : Z)
| Release (p : Z)
| End (ctx : Z).

Section protocol.
Context {A : Type} `{ObjectArena A} (me : Z) (cap : nat).
Implicit Types (s : bcache A) (a : cspec) (run : gset Z).

(** end_op of an operation that is not the last, up to its sleep: it commits and
    gives up the lock.  It sleeps until the last one has checkpointed, and then returns
    without changing the cache. *)
Definition end_op_wait (ctx : Z) : M (bcache A) unit :=
  _ ← end_op_commit me ctx; unlock_cache me.

Definition exec (run : gset Z) (c : call) : M (bcache A) Z :=
  match c with
  | Begin ctx => cache_begin_op me ctx;; mret 0
  | Acquire no => cache_acquire me no
  | Write p d => put_data p d;; mret 0
  | Sync ctx p => cache_sync me ctx p;; mret 0
  | Release p => cache_release me p;; mret 0
  | End ctx => (if decide (run = {[ctx]}) then cache_end_op me ctx else end_op_wait ctx);; mret 0
  end.

(** The discipline of the clients: hold what you write, sync what you have
    written before releasing it, at most ten blocks per operation, no block
    held when the last operation ends. *)
Definition allowed s a run (c : call) : Prop :=
  match c with
  | Begin ctx => ctx ∉ run /\ ctx <> 0 /\ log_used s + OP_MAX_NUM_BLOCKS <= log_size s
  | Acquire no => unheld a no /\ (size (held a) + size (pin a) < cap)%nat /\ no <> sb_log_start (sblock s)
  | Write p d => is_Some (held a !! p) /\ block_wf d
  | Sync ctx p => ctx ∈ run /\ exists no o, held a !! p = Some no /\ ops s !! ctx = Some o /\
      (no ∈ op_blocks o \/ op_num_blocks o < OP_MAX_NUM_BLOCKS) /\ ~ in_log (sblock s) no /\ 0 <= no < 2 ^ 64
  | Release p => exists no, held a !! p = Some no /\ (no ∈ pin a \/ clean a no)
  | End ctx => ctx ∈ run /\ (run = {[ctx]} -> held a = ∅)
  end.

Definition run_after run (c : call) : gset Z :=
  match c with Begin ctx => {[ctx]} ∪ run | End ctx => run ∖ {[ctx]} | _ => run end.

(** One call of some client. *)
Inductive cstep : bcache A * gset Z -> bcache A * gset Z -> Prop :=
| do_call s a run c r s' : R cap s a -> allowed s a run c -> exec run c s = Ret (r, s') ->
    cstep (s, run) (s', run_after run c).

(** The abstract state is determined by the concrete one. *)
Lemma R_fun s a1 a2 : R cap s a1 -> R cap s a2 ->
  held a1 = held a2 /\ pin a1 = pin a2 /\ disk a1 = disk a2 /\ forall n, view a1 n = view a2 n.
Proof.
  intros H1 H2.
  assert (Hh : forall b1 b2, R cap s b1 -> R cap s b2 -> forall p n, held b1 !! p = Some n -> held b2 !! p = Some n).
  { intros b1 b2 Hb1 Hb2 p n Hp. destruct (R_pointer _ _ _ _ _ Hb1 Hp) as (b & Hb & <- & <- & Ha & _).
    by apply (ok_held _ _ (R_block _ _ _ Hb2 b Hb)). }
  assert (Hp : forall b1 b2, R cap s b1 -> R cap s b2 -> forall n, n ∈ pin b1 -> n ∈ pin b2).
  { intros b1 b2 Hb1 Hb2 n Hn. destruct (decide (n ∈ block_no <$> head s)) as [Hin|Hout].
    - apply list_elem_of_fmap in Hin as (b & -> & Hb).
      apply (ok_pin _ _ (R_block _ _ _ Hb2 b Hb)). by apply (ok_pin _ _ (R_block _ _ _ Hb1 b Hb)).
    - by destruct (R_out _ _ _ Hb1 n Hout). }
  assert (disk a1 = disk a2) as Hd by (by rewrite (R_disk _ _ _ H1), (R_disk _ _ _ H2)).
  split_and!; [| | done |].
  - apply map_eq. intros p. apply option_eq. intros n. split; by apply Hh.
  - apply set_eq. intros n. split; by apply Hp.
  - intros n. destruct (decide (n ∈ block_no <$> head s)) as [Hin|Hout].
    + apply list_elem_of_fmap in Hin as (b & -> & Hb).
      by rewrite <- (ok_data _ _ (R_block _ _ _ H1 b Hb)), (ok_data _ _ (R_block _ _ _ H2 b Hb)).
    + destruct (R_out _ _ _ H1 n Hout) as [E1 _]. destruct (R_out _ _ _ H2 n Hout) as [E2 _].
      unfold clean in *. congruence.
Qed.

Lemma allowed_fun s a1 a2 run c : R cap s a1 -> R cap s a2 -> allowed s a1 run c -> allowed s a2 run c.
Proof.
  intros H1 H2. destruct (R_fun s a1 a2 H1 H2) as (Eh & Ep & Ed & Ev).
  destruct c; unfold allowed, unheld, clean; rewrite ?Eh, ?Ep, ?Ed; try done.
  intros (no & Hp & Hc). exists no. by rewrite <- Ev.
Qed.

(** A call that neither begins nor ends an operation, nor writes the device. *)
Lemma txn_block_call s s' a a' run : txn cap s a run -> R cap s' a' -> env s' = env s -> pin a' = pin a ->
  disk a' = disk a -> txn cap s' a' run.
Proof.
  intros HT HR' E Ep Ed. eapply txn_same_env; [done.. |].
  rewrite <- (R_disk _ _ _ HR'), Ed, (R_disk _ _ _ (tx_R _ _ _ _ HT)). apply HT.
Qed.

(** Every allowed call returns and keeps the invariant. *)
Lemma protocol_step s a run c : (65 < cap)%nat -> txn cap s a run -> allowed s a run c ->
  exists r s' a', exec run c s = Ret (r, s') /\ txn cap s' a' (run_after run c).
Proof.
  intros Hcap HT Hal. pose proof (tx_R _ _ _ _ HT) as HR.
  enough (wp no_panic (exec run c) (fun _ s' => exists a', txn cap s' a' (run_after run c)) s) as W.
  { destruct (wp_returns _ _ _ W) as (r & s' & E & a' & HT'). by exists r, s', a'. }
  destruct c as [ctx|no|p d|ctx p|p|ctx]; cbn [exec run_after allowed] in *; try wp_step.
  - destruct Hal as (Hc & H0 & Hr). eapply cache_begin_op_ok; [exact HT | done | done | done |].
    intros s' HT' _ _ _ _. apply wp_ret. eauto.
  - destruct Hal as (Hu & Hsz & Hno). eapply cache_acquire_ok; [exact HR | done | done | done |].
    intros p s' HR' _ E'. eexists. by eapply txn_block_call.
  - destruct Hal as ([no Hp] & Hd). eapply put_data_ok; [exact HR | done | done |].
    intros s' HR' E'. apply wp_ret. eexists. by eapply txn_block_call.
  - destruct Hal as (Hc & no & o & Hp & Ho & Hin & Hlog & Hno).
    eapply cache_sync_txn; [exact HT | done | done | done | done | done | done |].
    intros s' HT' _ _ _. apply wp_ret. eauto.
  - destruct Hal as (no & Hp & Hs). eapply cache_release_ok; [exact HR | done | done |].
    intros s' HR' E'. apply wp_ret. eexists. by eapply txn_block_call.
  - destruct Hal as (Hc & Hlast). destruct (tx_ops _ _ _ _ HT ctx Hc) as (_ & o & Ho & _).
    case_decide as Hrun.
    + subst run. eapply cache_end_op_ok; [exact HT | done | by apply Hlast | done |].
      intros k h' s' Hm s1 HT1 HR' E'. apply wp_ret. rewrite difference_diag_L.
      destruct (txn_persisted cap s1 s' a HT1 (Hlast eq_refl) HR' E') as (HT' & _). eauto.
    + unfold end_op_wait. apply wp_bind. eapply end_op_commit_ok; [exact HT | done | done |].
      intros k h' Hm. apply wp_unlock_cache; [done |]. apply wp_ret.
      exists a. pose proof (txn_ended cap _ _ _ _ _ _ _ HT Hc Ho Hm) as HT1.
      assert (op_count s <> 1) as Hne.
      { rewrite (tx_count _ _ _ _ HT). intros E1. assert (size run = 1%nat) as E2 by lia.
        apply size_1_elem_of in E2 as [x Hx]. apply Hrun. apply set_eq in Hx. subst run.
        apply elem_of_singleton in Hc. by subst. }
      rewrite (proj2 (Z.eqb_neq _ _)) by done. pose proof (R_lock _ _ _ HR) as Hl.
      revert HT1. unfold ended. destruct s. cbn in *. by subst.
Qed.
Lemma protocol_run x y : (65 < cap)%nat -> rtc cstep x y ->
  (exists a, txn cap x.1 a x.2) -> exists a, txn cap y.1 a y.2.
Proof.
  intros Hcap Hr. induction Hr as [|x y z Hs _ IH]; [done |]. intros [a HT]. apply IH.
  inversion Hs as [s a2 run c r s' HR Hal E]; subst. cbn in *.
  apply (allowed_fun _ _ a _ _ HR (tx_R _ _ _ _ HT)) in Hal.
  destruct (protocol_step s a run c Hcap HT Hal) as (r' & s'' & a' & E' & HT').
  rewrite E in E'. injection E' as <- <-. eauto.
Qed.

(** Recovery establishes the invariant. *)
Lemma init_bcache_txn sb dv (ar : A) : (forall n, block_wf (medium dv n)) -> roomy cap ar ->
  let h := header_dec (medium dv (sb_log_start sb)) in
  header_ok sb h -> num_log_blocks sb < 2 ^ 32 ->
  exists s, init_bcache me sb dv ar = Ret s /\ sblock s = sb /\ log_used s = 0 /\
    log_size s = MIN (num_log_blocks sb - 1) LOG_MAX_SIZE /\ last_allocated_ts s = 0 /\
    txn cap s (mkSpec (recover sb (medium dv)) (device s) ∅ ∅) ∅.
Proof.
  intros Hw Hr h Hh H32. destruct (init_bcache_ok me cap sb dv ar Hw Hr Hh) as (s & E & HR & Ee).
  pose proof (ho_fit _ _ Hh) as Hfit. destruct (ho_wf _ _ Hh) as [Hn _]. fold h in HR, Ee.
  assert (Hmin : log_size s = MIN (num_log_blocks sb - 1) LOG_MAX_SIZE).
  { injection Ee as _ _ _ _ _ -> _ _ _. cbn. by rewrite u32_small by lia. }
  assert (Hsz : log_size s <= 63 /\ log_size s < num_log_blocks sb /\ 0 <= log_size s).
  { rewrite Hmin. unfold MIN. change LOG_MAX_SIZE with 63. destruct (Z.leb_spec (num_log_blocks sb - 1) 63); lia. }
  exists s. injection Ee as E1 E2 E3 E4 E5 E6 E7 E8 E9. cbn in E1, E2, E3, E4, E5, E7, E8.
  rewrite E1, E7, E3. split_and!; [done | done | done | done | done |].
  assert (Edev : device s = dev_writes dv (replay_writes (medium dv) sb h)) by (by rewrite <- (R_disk _ _ _ HR)).
  split; rewrite ?E1, ?E2, ?E7, ?E8, ?Edev; try done; try lia.
  - split; rewrite ?E1, ?E2, ?E5; [done |]. by apply cleared_ok.
  - rewrite medium_dev_writes. unfold replay_writes.
    destruct (Z.eqb_spec (hdr_num_blocks h) 0) as [Hz|Hnz]; [exact Hz |].
    rewrite upds_app, upds_one. unfold upd. rewrite Z.eqb_refl, header_dec_enc; [done |]. by apply (cleared_ok sb).
Qed.
End protocol.
