(* ===== verification/CacheAlloc.v ===== *)
(** Block allocation: cache_alloc and cache_free of fs/cache.c.

    The bitmap of the file system lives in blocks of the cache itself;
    [used_bit] reads it from the content of the blocks.  cache_alloc finds the
    first free block number, whatever number of bitmap blocks there are. *)
From S2P Require Import Prelude Bytes CString Bitmap Locks Arena FsDefs Cache CacheSpec CacheLog CacheCrash CacheTxn CacheProtocol.

(** * The allocation bitmap *)

(** The bitmap block and the bit of block [no]. *)
Definition bitmap_block (sb : SuperBlock) (no : Z) : Z := bitmap_start sb + no / BIT_PER_BLOCK.

Definition used_bit (sb : SuperBlock) (v : Z -> list Z) (no : Z) : bool :=
  bitmap_get (cells_of_block (v (bitmap_block sb no))) (no mod BIT_PER_BLOCK).

(** [no] is the first free block. *)
Record first_free (sb : SuperBlock) (v : Z -> list Z) (no : Z) : Prop := {
  ff_range : 0 <= no < num_blocks sb;
  ff_free : used_bit sb v no = false;
  ff_first : forall m, 0 <= m < no -> used_bit sb v m = true
}.

(** The content of a bitmap block with the bit of [no] set or cleared. *)
Definition mark_bit (no : Z) (d : list Z) : list Z :=
  block_of_cells (bitmap_set (cells_of_block d) (no mod BIT_PER_BLOCK)).
Definition clear_bit (no : Z) (d : list Z) : list Z :=
  block_of_cells (bitmap_clear (cells_of_block d) (no mod BIT_PER_BLOCK)).

Lemma bit_index no : 0 <= no mod BIT_PER_BLOCK < 4096.
Proof. apply Z.mod_pos_bound. done. Qed.

Lemma cells_wf d : block_wf d -> bitmap_wf (cells_of_block d) 4096.
Proof. intros [Hb Hl]. by apply cells_of_block_wf. Qed.

Lemma block_of_cells_wf cells : bitmap_wf cells 4096 -> length cells = 64%nat ->
  block_wf (block_of_cells cells) /\ cells_of_block (block_of_cells cells) = cells.
Proof.
  intros [Hc _] Hl. split; [| by apply cells_of_block_of_cells].
  split; [apply words_enc_bytes |]. unfold block_of_cells. rewrite length_words_enc. lia.
Qed.

Lemma mark_bit_ok no d : block_wf d -> block_wf (mark_bit no d) /\
  cells_of_block (mark_bit no d) = bitmap_set (cells_of_block d) (no mod BIT_PER_BLOCK).
Proof.
  intros Hd. apply block_of_cells_wf; [apply bitmap_set_wf; [by apply cells_wf | apply bit_index] |].
  unfold bitmap_set. rewrite length_zset. apply length_words_dec.
Qed.

Lemma clear_bit_ok no d : block_wf d -> block_wf (clear_bit no d) /\
  cells_of_block (clear_bit no d) = bitmap_clear (cells_of_block d) (no mod BIT_PER_BLOCK).
Proof.
  intros Hd. apply block_of_cells_wf; [apply bitmap_clear_wf; [by apply cells_wf | apply bit_index] |].
  unfold bitmap_clear. rewrite length_zset. apply length_words_dec.
Qed.

(** Two blocks with the same bitmap block and the same bit are the same. *)
Lemma same_bit n m : n / BIT_PER_BLOCK = m / BIT_PER_BLOCK -> n mod BIT_PER_BLOCK = m mod BIT_PER_BLOCK -> n = m.
Proof. unfold BIT_PER_BLOCK, BLOCK_SIZE. intros. dlia. Qed.

(** Marking one block leaves the bits of all others. *)
Lemma used_bit_mark sb v no m : (forall n, block_wf (v n)) ->
  used_bit sb (upd v (bitmap_block sb no) (mark_bit no (v (bitmap_block sb no)))) m =
  if decide (m = no) then true else used_bit sb v m.
Proof.
  intros Hw. unfold used_bit, upd. destruct (Z.eqb_spec (bitmap_block sb m) (bitmap_block sb no)) as [E|E].
  - destruct (mark_bit_ok no _ (Hw (bitmap_block sb no))) as [_ ->].
    rewrite (bitmap_get_set _ 4096) by first [apply cells_wf, Hw | apply bit_index | apply (bit_index m)].
    destruct (Z.eqb_spec (no mod BIT_PER_BLOCK) (m mod BIT_PER_BLOCK)) as [E2|E2].
    + rewrite decide_True; [done |]. apply same_bit; [unfold bitmap_block in E; lia | done].
    + rewrite decide_False by congruence. by rewrite E.
  - by rewrite decide_False by congruence.
Qed.

Lemma used_bit_clear sb v no m : (forall n, block_wf (v n)) ->
  used_bit sb (upd v (bitmap_block sb no) (clear_bit no (v (bitmap_block sb no)))) m =
  if decide (m = no) then false else used_bit sb v m.
Proof.
  intros Hw. unfold used_bit, upd. destruct (Z.eqb_spec (bitmap_block sb m) (bitmap_block sb no)) as [E|E].
  - destruct (clear_bit_ok no _ (Hw (bitmap_block sb no))) as [_ ->].
    rewrite (bitmap_get_clear _ 4096) by first [apply cells_wf, Hw | apply bit_index | apply (bit_index m)].
    destruct (Z.eqb_spec (no mod BIT_PER_BLOCK) (m mod BIT_PER_BLOCK)) as [E2|E2].
    + rewrite decide_True; [done |]. apply same_bit; [unfold bitmap_block in E; lia | done].
    + rewrite decide_False by congruence. by rewrite E.
  - by rewrite decide_False by congruence.
Qed.

(** ** The search *)

Lemma find_free_ok bm i nb n : forall j,
  match find_free bm i j nb n with
  | Some k => j <= k < j + Z.of_nat n /\ i + k < nb /\ bitmap_get bm k = false /\
      forall x, j <= x < k -> bitmap_get bm x = true
  | None => forall x, j <= x < j + Z.of_nat n -> i + x < nb -> bitmap_get bm x = true
  end.
Proof.
  induction n as [|n IH]; intros j; cbn [find_free]; [lia |].
  destruct (Z.ltb_spec (i + j) nb) as [Hlt|Hge]; [| intros x; lia].
  destruct (bitmap_get bm j) eqn:Hj; cbn [negb].
  - specialize (IH (j + 1)). destruct (find_free bm i (j + 1) nb n) as [k|].
    + destruct IH as (H1 & H2 & H3 & H4). split_and!; [lia | lia | lia | done |].
      intros x Hx. destruct (decide (x = j)) as [->|]; [done |]. apply H4. lia.
    + intros x Hx Hb. destruct (decide (x = j)) as [->|]; [done |]. apply IH; lia.
  - split_and!; [lia | lia | lia | done | lia].
Qed.

(** The search in the bitmap block [k], from the content [v]. *)
Definition search (sb : SuperBlock) (v : Z -> list Z) (k : Z) : option Z :=
  search_bitmap (v (bitmap_start sb + k)) (k * BIT_PER_BLOCK) (num_blocks sb).

Lemma used_bit_at sb v k x : 0 <= x < 4096 ->
  used_bit sb v (k * BIT_PER_BLOCK + x) = bitmap_get (cells_of_block (v (bitmap_start sb + k))) x.
Proof.
  intros Hx. unfold used_bit, bitmap_block. change BIT_PER_BLOCK with 4096.
  rewrite Z.div_add_l, (Z.div_small x), Z.add_0_r by lia.
  by rewrite (Z.add_comm (k * 4096)), Z.mod_add, Z.mod_small by lia.
Qed.

Lemma search_spec sb v k :
  match search sb v k with
  | Some j => 0 <= j < 4096 /\ k * BIT_PER_BLOCK + j < num_blocks sb /\
      used_bit sb v (k * BIT_PER_BLOCK + j) = false /\
      forall x, 0 <= x < j -> used_bit sb v (k * BIT_PER_BLOCK + x) = true
  | None => forall x, 0 <= x < 4096 -> k * BIT_PER_BLOCK + x < num_blocks sb ->
      used_bit sb v (k * BIT_PER_BLOCK + x) = true
  end.
Proof.
  unfold search, search_bitmap. change (Z.to_nat BIT_PER_BLOCK) with 4096%nat.
  pose proof (find_free_ok (cells_of_block (v (bitmap_start sb + k))) (k * BIT_PER_BLOCK) (num_blocks sb) 4096 0) as H.
  destruct (find_free _ _ _ _ _) as [j|].
  - destruct H as (Hj & Hin & Hb & Hbefore). rewrite used_bit_at by lia. split_and!; [lia | lia | done | done |].
    intros x Hx. rewrite used_bit_at by lia. by apply Hbefore.
  - intros x Hx Hb. rewrite used_bit_at by lia. apply H; lia.
Qed.

Lemma search_ok sb v no k : first_free sb v no -> 0 <= k <= no / BIT_PER_BLOCK ->
  search sb v k = if decide (k = no / BIT_PER_BLOCK) then Some (no mod BIT_PER_BLOCK) else None.
Proof.
  intros [Hr Hf Hfirst] Hk. pose proof (search_spec sb v k) as H. change BIT_PER_BLOCK with 4096 in *.
  pose proof (Z.div_mod no 4096 ltac:(lia)) as Hdm. pose proof (Z.mod_pos_bound no 4096 ltac:(lia)) as Hmb.
  destruct (search sb v k) as [j|].
  - destruct H as (Hj & Hin & Hb & Hbefore).
    assert (no <= k * 4096 + j).
    { destruct (decide (k * 4096 + j < no)) as [Hlt|]; [| lia]. rewrite Hfirst in Hb by lia. done. }
    rewrite decide_True by lia. f_equal.
    destruct (decide (no mod 4096 = j)) as [|Hne]; [done |]. exfalso.
    specialize (Hbefore (no mod 4096) ltac:(lia)). replace (k * 4096 + no mod 4096) with no in Hbefore by lia. congruence.
  - case_decide as Ek; [| done]. exfalso. specialize (H (no mod 4096) ltac:(lia)).
    replace (k * 4096 + no mod 4096) with no in H by lia. rewrite H in Hf by lia. done.
Qed.

(** A bitmap block without a free bit. *)
Lemma search_none sb v k :
  (forall m, 0 <= m < num_blocks sb -> used_bit sb v m = true) -> 0 <= k -> search sb v k = None.
Proof.
  intros Hall Hk. pose proof (search_spec sb v k) as H. change BIT_PER_BLOCK with 4096 in *.
  destruct (search sb v k) as [j|]; [| done].
  destruct H as (Hj & Hin & Hb & _). rewrite Hall in Hb by lia. done.
Qed.

(** * The operations *)

Lemma cover_difference (X Y : gset Z) : X ⊆ Y ∪ X ∖ Y.
Proof.
  intros n Hn. apply elem_of_union. destruct (decide (n ∈ Y)); [by left | right; by apply elem_of_difference].
Qed.

Lemma disjoint_rest (X Y : gset Z) : Y ## X ∖ Y.
Proof. intros n Hn [_ Hd]%elem_of_difference. done. Qed.

(** A set covered by lists of at most ten elements. *)
Lemma cover_size (run : gset Z) (f : Z -> list Z) : (forall x, (length (f x) <= 10)%nat) ->
  forall X : gset Z, (forall n, n ∈ X -> exists x, x ∈ run /\ n ∈ f x) -> (size X <= 10 * size run)%nat.
Proof.
  intros Hf. induction run as [|x run Hx IH] using set_ind_L; intros X HX.
  - assert (X = ∅) as ->.
    { apply set_eq. intros n. rewrite elem_of_empty. split; [| done]. intros (x & Hx & _)%HX.
      by apply not_elem_of_empty in Hx. }
    rewrite size_empty. lia.
  - rewrite size_union, size_singleton by (intros y ->%elem_of_singleton; done).
    assert (size (X ∖ list_to_set (f x)) <= 10 * size run)%nat as IHX.
    { apply IH. intros n [Hn Hnx]%elem_of_difference. destruct (HX n Hn) as (y & [->%elem_of_singleton|Hy]%elem_of_union & Hfy).
      - destruct Hnx. by apply elem_of_list_to_set.
      - by exists y. }
    assert (size X <= size (list_to_set (f x) ∪ X ∖ list_to_set (f x) : gset Z))%nat as H1.
    { apply subseteq_size. apply cover_difference. }
    rewrite size_union in H1 by apply disjoint_rest.
    assert (size (list_to_set (f x) : gset Z) <= length (f x))%nat.
    { clear. induction (f x) as [|y l IHl]; [done |]. cbn [list_to_set length].
      pose proof (size_union_alt ({[y]} : gset Z) (list_to_set l)) as E. rewrite E, size_singleton.
      pose proof (subseteq_size (list_to_set l ∖ {[y]} : gset Z) (list_to_set l) ltac:(set_solver)). lia. }
    pose proof (Hf x). lia.
Qed.

Section alloc.
Context {A : Type} `{ObjectArena A} (me : Z) (cap : nat).
Implicit Types (s : bcache A) (a : cspec) (run : gset Z).

(** The pinned blocks fit the log. *)
Lemma txn_pin_size s a run : txn cap s a run -> (size (pin a) <= 63)%nat.
Proof.
  intros HT. pose proof (txn_bounds _ _ _ _ HT) as (Hh & Hoc & Hu). pose proof (tx_used _ _ _ _ HT) as Hus.
  pose proof (lr_hdr _ (tx_log _ _ _ _ HT)) as Hho. set (rec := list_to_set (recorded (header s)) : gset Z).
  set (f := fun ctx => match ops s !! ctx with Some c => take 10 (op_blocks c) | None => [] end).
  assert (size (pin a ∖ rec) <= 10 * size run)%nat as H1.
  { apply (cover_size run f).
    - intros x. unfold f. destruct (ops s !! x); [rewrite length_take; lia | cbn; lia].
    - intros n [Hn Hr]%elem_of_difference. destruct (tx_pin _ _ _ _ HT n Hn) as [Hrec|(ctx & c & Hc & Ec & Hb)].
      + destruct Hr. by apply elem_of_list_to_set.
      + exists ctx. split; [done |]. unfold f. rewrite Ec. rewrite take_ge; [done |].
        destruct (tx_ops _ _ _ _ HT ctx Hc) as (_ & c' & Ec' & Hok). rewrite Ec in Ec'. injection Ec' as <-.
        unfold op_blocks. rewrite length_take. destruct Hok. lia. }
  assert (size (pin a) <= size rec + size (pin a ∖ rec))%nat as H2.
  { rewrite <- size_union by apply disjoint_rest. apply subseteq_size, cover_difference. }
  assert (size rec = length (recorded (header s))) as H3 by (apply size_list_to_set, Hho).
  pose proof (length_recorded _ _ Hho). pose proof (tx_count _ _ _ _ HT). lia.
Qed.

(** What the operations on blocks leave alone. *)
Definition frame s s' : Prop := ops s' = ops s /\ sblock s' = sblock s.

Lemma frame_env s s' : env s' = env s -> frame s s'.
Proof. intros E. injection E as E1 _ _ _ _ _ _ _ E9. by split. Qed.

Lemma t_acquire E s a run no Q : txn cap s a run -> unheld a no -> (size (held a) + 63 < cap)%nat ->
  ~ in_log (sblock s) no ->
  (forall p s', txn cap s' (sp_hold p no a) run -> held a !! p = None -> frame s s' -> Q p s') ->
  wp E (cache_acquire me no) Q s.
Proof.
  intros HT Hu Hcap Hlog HQ. pose proof (txn_pin_size _ _ _ HT).
  eapply cache_acquire_ok; [apply HT | done | lia | |].
  - intros ->. apply Hlog. unfold in_log. pose proof (ho_fit _ _ (lr_hdr _ (tx_log _ _ _ _ HT))).
    destruct (ho_wf _ _ (lr_hdr _ (tx_log _ _ _ _ HT))) as [? _]. lia.
  - intros p s' HR' Hp E'. apply HQ; [by eapply txn_block_call | done | by apply frame_env].
Qed.

Lemma t_put E s a run p no d Q : txn cap s a run -> held a !! p = Some no -> block_wf d ->
  (forall s', txn cap s' (sp_put no d a) run -> frame s s' -> Q tt s') -> wp E (put_data p d) Q s.
Proof.
  intros HT Hp Hd HQ. eapply put_data_ok; [apply HT | done | done |].
  intros s' HR' E'. apply HQ; [by eapply txn_block_call | by apply frame_env].
Qed.

Lemma t_release E s a run p no Q : txn cap s a run -> held a !! p = Some no -> no ∈ pin a \/ clean a no ->
  (forall s', txn cap s' (sp_unhold p a) run -> frame s s' -> Q tt s') -> wp E (cache_release me p) Q s.
Proof.
  intros HT Hp Hc HQ. eapply cache_release_ok; [apply HT | done | done |].
  intros s' HR' E'. apply HQ; [by eapply txn_block_call | by apply frame_env].
Qed.

(** The operation [ctx] and the blocks it has synced. *)
Definition op_at s (run : gset Z) (ctx : Z) (bl : list Z) : Prop :=
  ctx ∈ run /\ exists c, ops s !! ctx = Some c /\ op_blocks c = bl.

Definition add_new (no : Z) (bl : list Z) : list Z := if decide (no ∈ bl) then bl else bl ++ [no].

Lemma op_at_frame s s' run ctx bl : op_at s run ctx bl -> frame s s' -> op_at s' run ctx bl.
Proof. intros [Hr Hc] [Eo _]. split; [done |]. by rewrite Eo. Qed.

Lemma t_sync E s a run ctx p no bl Q : txn cap s a run -> op_at s run ctx bl -> held a !! p = Some no ->
  (length (add_new no bl) <= 10)%nat -> ~ in_log (sblock s) no -> 0 <= no < 2 ^ 64 ->
  (forall s', txn cap s' (sp_pin no a) run -> op_at s' run ctx (add_new no bl) ->
    (forall c bl', c <> ctx -> op_at s run c bl' -> op_at s' run c bl') -> sblock s' = sblock s -> Q tt s') ->
  wp E (cache_sync me ctx p) Q s.
Proof.
  intros HT [Hr (c & Hc & Hbl)] Hp Hlen Hlog Hno HQ.
  destruct (tx_ops _ _ _ _ HT ctx Hr) as (H0 & c' & Ec & Hok). rewrite Hc in Ec. injection Ec as <-.
  assert (Hin : no ∈ op_blocks c \/ op_num_blocks c < 10).
  { unfold add_new in Hlen. case_decide as Hd; [left; congruence |]. right.
    rewrite length_app, <- Hbl in Hlen. cbn in Hlen. unfold op_blocks in Hlen. rewrite length_take in Hlen.
    destruct Hok. lia. }
  eapply cache_sync_txn; [exact HT | done | done | done | done | done | done |].
  intros s' HT' Eo _ Esb. apply HQ; [done | | | done].
  - split; [done |]. exists (op_add no c). rewrite Eo. split; [apply lookup_insert_eq |].
    rewrite (op_add_blocks _ _ _ Hok Hin), Hbl. done.
  - intros d bl' Hd [Hdr (cd & Hcd & Ecd)]. split; [done |]. exists cd. by rewrite Eo, lookup_insert_ne.
Qed.
(** The view after the allocation of [no]. *)
Definition allocated (sb : SuperBlock) (no : Z) (v : Z -> list Z) : Z -> list Z :=
  upd (upd v (bitmap_block sb no) (mark_bit no (v (bitmap_block sb no)))) no zero_block.

(** What an allocation needs from its caller: the bitmap blocks and the block
    found are outside of the log and nobody holds them, and the operation has
    room for both. *)
Record can_alloc s a (bl : list Z) (no : Z) : Prop := {
  ca_first : first_free (sblock s) (view a) no;
  ca_bitmap : forall m, 0 <= m <= no -> ~ in_log (sblock s) (bitmap_block (sblock s) m) /\
    unheld a (bitmap_block (sblock s) m);
  ca_block : ~ in_log (sblock s) no /\ unheld a no;
  ca_ne : no <> bitmap_block (sblock s) no;
  ca_64 : 0 <= bitmap_block (sblock s) no < 2 ^ 64 /\ num_blocks (sblock s) < 2 ^ 32;
  ca_len : (length (add_new no (add_new (bitmap_block (sblock s) no) bl)) <= 10)%nat;
  ca_cap : (size (held a) + 63 < cap)%nat
}.

#[local] Opaque search_bitmap.

(** What an allocation or a release of a block leaves: the operation [ctx] has
    synced [bl'], the blocks [pins] are pinned, and nothing else has changed but
    the content [w]. *)
Record moved s a run (ctx : Z) (bl' : list Z) (w : Z -> list Z) (pins : gset Z) s' a' : Prop := {
  mv_txn : txn cap s' a' run;
  mv_op : op_at s' run ctx bl';
  mv_others : forall c l, c <> ctx -> op_at s run c l -> op_at s' run c l;
  mv_view : view a' = w;
  mv_held : held a' = held a;
  mv_disk : disk a' = disk a;
  mv_pin : pin a' = pins ∪ pin a;
  mv_sb : sblock s' = sblock s
}.

(** A bitmap block without a free bit is read and given back. *)
Lemma alloc_skip_ok E s a run ctx k Q : txn cap s a run ->
  ~ in_log (sblock s) (bitmap_start (sblock s) + k) -> unheld a (bitmap_start (sblock s) + k) ->
  (size (held a) + 63 < cap)%nat -> search (sblock s) (view a) k = None ->
  (forall s', txn cap s' a run -> frame s s' -> Q None s') -> wp E (alloc_in_bitmap me ctx k) Q s.
Proof.
  intros HT Hlog Hu Hcap Hs HQ. unfold alloc_in_bitmap. apply wp_bind, wp_get.
  rewrite Z.div_mul by done. apply wp_bind. eapply t_acquire; [exact HT | done | done | done |].
  intros p s1 HT1 Hp F1. apply wp_bind. eapply get_data_ok; [apply HT1 | by apply lookup_insert_eq |].
  unfold search in Hs. cbn [view sp_hold]. rewrite Hs. apply wp_bind.
  eapply t_release; [exact HT1 | by apply lookup_insert_eq | |].
  - destruct (unheld_settled _ _ _ _ (tx_R _ _ _ _ HT) Hu) as [|Hc]; [by left | by right].
  - intros s2 HT2 F2. apply wp_ret. rewrite sp_unhold_hold in HT2 by done. apply HQ; [done |].
    destruct F1, F2. split; congruence.
Qed.
(** The bitmap block with a free bit: the bit is set, the block zeroed. *)
Lemma alloc_found_ok E s a run ctx bl no Q : txn cap s a run -> op_at s run ctx bl -> can_alloc s a bl no ->
  (forall s' a', moved s a run ctx (add_new no (add_new (bitmap_block (sblock s) no) bl))
    (allocated (sblock s) no (view a)) {[no; bitmap_block (sblock s) no]} s' a' -> Q (Some no) s') ->
  wp E (alloc_in_bitmap me ctx (no / BIT_PER_BLOCK)) Q s.
Proof.
  intros HT Hop [Hff Hbm [Hlog Hu] Hne [H64 H32] Hlen Hcap] HQ. set (bb := bitmap_block (sblock s) no) in *.
  destruct (Hbm no ltac:(destruct Hff; lia)) as [Hbl Hbu]. fold bb in Hbl, Hbu.
  pose proof (search_ok _ _ _ (no / BIT_PER_BLOCK) Hff ltac:(destruct Hff; split; [apply Z.div_pos; [lia | done] | done])) as Hs.
  rewrite decide_True in Hs by done. unfold search in Hs. fold (bitmap_block (sblock s) no) in Hs. fold bb in Hs.
  unfold alloc_in_bitmap. apply wp_bind, wp_get. rewrite Z.div_mul by done.
  fold (bitmap_block (sblock s) no). fold bb.
  apply wp_bind. eapply t_acquire; [exact HT | done | done | done |]. intros p s1 HT1 Hp [Eo1 Esb1].
  apply wp_bind. eapply get_data_ok; [apply HT1 | by apply lookup_insert_eq |]. cbn [view sp_hold]. rewrite Hs.
  fold (mark_bit no (view a bb)).
  assert (Hw : block_wf (view a bb)) by apply (R_wf _ _ _ (tx_R _ _ _ _ HT)).
  apply wp_bind. eapply t_put; [exact HT1 | by apply lookup_insert_eq | by apply mark_bit_ok |].
  intros s2 HT2 [Eo2 Esb2].
  assert (Hop2 : op_at s2 run ctx bl) by (apply (op_at_frame s); [done | split; congruence]).
  apply wp_bind. eapply t_sync; [exact HT2 | exact Hop2 | by apply lookup_insert_eq | | congruence | done |].
  { unfold add_new in Hlen at 1. case_decide; [done |]. rewrite length_app in Hlen. cbn in Hlen. lia. }
  intros s3 HT3 Hop3 Hoth3 Esb3.
  apply wp_bind. eapply t_release; [exact HT3 | by apply lookup_insert_eq | left; apply elem_of_union_l; by apply elem_of_singleton |].
  intros s4 HT4 [Eo4 Esb4].
  replace (no / BIT_PER_BLOCK * BIT_PER_BLOCK + no mod BIT_PER_BLOCK) with no
    by (pose proof (Z.div_mod no BIT_PER_BLOCK ltac:(done)); lia).
  apply wp_bind. eapply t_acquire; [exact HT4 | | | congruence |].
  { intros q. cbn. rewrite delete_insert_id by done. apply Hu. }
  { cbn. rewrite delete_insert_id by done. done. }
  intros q s5 HT5 Hq [Eo5 Esb5].
  apply wp_bind. eapply t_put; [exact HT5 | by apply lookup_insert_eq | apply zero_block_wf |]. intros s6 HT6 [Eo6 Esb6].
  assert (Hop6 : op_at s6 run ctx (add_new bb bl)) by (apply (op_at_frame s3); [done | split; congruence]).
  apply wp_bind. eapply t_sync; [exact HT6 | exact Hop6 | by apply lookup_insert_eq | done | congruence | |].
  { destruct Hff. lia. }
  intros s7 HT7 Hop7 Hoth7 Esb7.
  apply wp_bind. eapply t_release; [exact HT7 | by apply lookup_insert_eq | left; apply elem_of_union_l; by apply elem_of_singleton |].
  intros s8 HT8 F8. apply wp_ret. eapply HQ. cbn in Hq. rewrite delete_insert_id in Hq by done.
  split; [exact HT8 | by eapply op_at_frame | | done | | done | | destruct F8; congruence].
  - intros d l Hd Hl. eapply op_at_frame; [| exact F8]. apply Hoth7; [done |].
    apply (op_at_frame s3); [| split; congruence]. apply Hoth3; [done |].
    apply (op_at_frame s); [done | split; congruence].
  - cbn. rewrite delete_insert_id by (by rewrite delete_insert_id). by rewrite delete_insert_id.
  - cbn. by rewrite union_assoc_L.
Qed.

(** cache_alloc returns the first free block, zeroed and marked. *)
Lemma cache_alloc_ok E s a run ctx bl no Q : txn cap s a run -> op_at s run ctx bl -> can_alloc s a bl no ->
  (forall s' a', moved s a run ctx (add_new no (add_new (bitmap_block (sblock s) no) bl))
    (allocated (sblock s) no (view a)) {[no; bitmap_block (sblock s) no]} s' a' -> Q no s') ->
  wp E (cache_alloc me ctx) Q s.
Proof.
  intros HT Hop Hca HQ. pose proof Hca as [Hff Hbm _ _ [_ H32] _ Hcap]. pose proof Hff as [Hr _ _].
  unfold cache_alloc. apply wp_bind, wp_get. apply wp_bind.
  set (N := Z.to_nat ((num_blocks (sblock s) + BIT_PER_BLOCK - 1) / BIT_PER_BLOCK)).
  assert (HN : no / BIT_PER_BLOCK < Z.of_nat N).
  { unfold N, BIT_PER_BLOCK, BLOCK_SIZE. rewrite Z2Nat.id by dlia. dlia. }
  wp_use (wp_for_until E (fun k s1 => k <= no / BIT_PER_BLOCK /\ txn cap s1 a run /\ frame s s1)
    (fun r s' => r = Some no /\ Q no s') (alloc_in_bitmap me ctx) N 0 s).
  - intros k s1 Hk (Hle & HT1 & F1). pose proof F1 as [Eo1 Esb1].
    assert (Hkb : forall m, m / BIT_PER_BLOCK = k -> bitmap_start (sblock s1) + k = bitmap_block (sblock s) m).
    { intros m <-. unfold bitmap_block. by rewrite Esb1. }
    destruct (decide (k = no / BIT_PER_BLOCK)) as [->|Hne].
    + eapply alloc_found_ok; [exact HT1 | by eapply op_at_frame | |].
      * destruct Hca. split; rewrite ?Esb1; done.
      * rewrite Esb1. intros s' a' [H1 H2 H3 H4 H5 H6 H7 H8]. split; [done |]. eapply HQ.
        split; try done; [| congruence]. intros d l Hd Hl. apply H3; [done |]. by eapply op_at_frame.
    + assert (Hm : (k * BIT_PER_BLOCK) / BIT_PER_BLOCK = k) by (by apply Z.div_mul).
      destruct (Hbm (k * BIT_PER_BLOCK)) as [Hl1 Hu1].
      { unfold BIT_PER_BLOCK, BLOCK_SIZE in *. dlia. }
      rewrite <- (Hkb _ Hm) in Hl1, Hu1. rewrite <- Esb1 in Hl1.
      eapply alloc_skip_ok; [exact HT1 | done | done | done | |].
      * rewrite Esb1. rewrite (search_ok _ _ no) by (done || lia). by rewrite decide_False.
      * intros s2 HT2 [Eo2 Esb2]. split_and!; [lia | done |]. split; congruence.
  - intros s1 (Hle & _). lia.
  - split_and!; [apply Z.div_pos; [lia | done] | done | done].
  - intros r s' [-> HQ']. by apply wp_ret.
Qed.
(** The view after [no] is freed. *)
Definition freed (sb : SuperBlock) (no : Z) (v : Z -> list Z) : Z -> list Z :=
  upd v (bitmap_block sb no) (clear_bit no (v (bitmap_block sb no))).

Lemma cache_free_ok E s a run ctx bl no Q : txn cap s a run -> op_at s run ctx bl ->
  let bb := bitmap_block (sblock s) no in
  used_bit (sblock s) (view a) no = true -> unheld a bb -> ~ in_log (sblock s) bb -> 0 <= bb < 2 ^ 64 ->
  (length (add_new bb bl) <= 10)%nat -> (size (held a) + 63 < cap)%nat ->
  (forall s' a', moved s a run ctx (add_new bb bl) (freed (sblock s) no (view a)) {[bb]} s' a' -> Q tt s') ->
  wp E (cache_free me ctx no) Q s.
Proof.
  intros HT Hop bb Hbit Hu Hlog H64 Hlen Hcap HQ. unfold cache_free. apply wp_bind, wp_get.
  fold (bitmap_block (sblock s) no). fold bb.
  apply wp_bind. eapply t_acquire; [exact HT | done | done | done |]. intros p s1 HT1 Hp [Eo1 Esb1].
  apply wp_bind. eapply get_data_ok; [apply HT1 | by apply lookup_insert_eq |]. cbn [view sp_hold].
  apply wp_bind, wp_assert; [exact Hbit |]. fold (clear_bit no (view a bb)).
  assert (Hw : block_wf (view a bb)) by apply (R_wf _ _ _ (tx_R _ _ _ _ HT)).
  apply wp_bind. eapply t_put; [exact HT1 | by apply lookup_insert_eq | by apply clear_bit_ok |].
  intros s2 HT2 [Eo2 Esb2].
  assert (Hop2 : op_at s2 run ctx bl) by (apply (op_at_frame s); [done | split; congruence]).
  apply wp_bind. eapply t_sync; [exact HT2 | exact Hop2 | by apply lookup_insert_eq | done | congruence | done |].
  intros s3 HT3 Hop3 Hoth3 Esb3.
  eapply t_release; [exact HT3 | by apply lookup_insert_eq | left; apply elem_of_union_l; by apply elem_of_singleton |].
  intros s4 HT4 F4. eapply HQ.
  split; [exact HT4 | by eapply op_at_frame | | done | by apply delete_insert_id | done | done | destruct F4; congruence].
  intros d l Hd Hl. eapply op_at_frame; [| exact F4]. apply Hoth3; [done |].
  apply (op_at_frame s); [done | split; congruence].
Qed.

(** When every block is in use, cache_alloc stops the kernel. *)
Lemma cache_alloc_full s a run ctx : txn cap s a run -> 0 <= num_blocks (sblock s) ->
  (forall m, 0 <= m < num_blocks (sblock s) -> used_bit (sblock s) (view a) m = true /\
    ~ in_log (sblock s) (bitmap_block (sblock s) m) /\ unheld a (bitmap_block (sblock s) m)) ->
  (size (held a) + 63 < cap)%nat ->
  cache_alloc me ctx s = Panic "cache_alloc: no free block".
Proof.
  intros HT Hn Hall Hcap.
  assert (W : wp (eq "cache_alloc: no free block"%string) (cache_alloc me ctx) (fun _ _ => False) s).
  2: { unfold wp in W. destruct (cache_alloc me ctx s) as [[] | | | |]; try done. by subst. }
  unfold cache_alloc. apply wp_bind, wp_get. apply wp_bind.
  set (N := Z.to_nat ((num_blocks (sblock s) + BIT_PER_BLOCK - 1) / BIT_PER_BLOCK)).
  wp_use (wp_for_until (eq "cache_alloc: no free block"%string) (fun k s1 => txn cap s1 a run /\ frame s s1)
    (fun r s' => r = None) (alloc_in_bitmap me ctx) N 0 s).
  - intros k s1 Hk (HT1 & F1). pose proof F1 as [Eo1 Esb1].
    assert (Hkn : 0 <= k * BIT_PER_BLOCK < num_blocks (sblock s)).
    { unfold N, BIT_PER_BLOCK, BLOCK_SIZE in *. rewrite Z2Nat.id in Hk by dlia. dlia. }
    destruct (Hall _ Hkn) as (_ & Hl & Hu). unfold bitmap_block in Hl, Hu. rewrite Z.div_mul in Hl, Hu by done.
    rewrite <- Esb1 in Hl, Hu.
    eapply alloc_skip_ok; [exact HT1 | done | done | done | |].
    + rewrite Esb1. apply search_none; [intros m Hm; by apply Hall | lia].
    + intros s2 HT2 [Eo2 Esb2]. split; [done |]. split; congruence.
  - done.
  - done.
  - by intros r s' ->.
Qed.
End alloc.
