(* ===== verification/CacheTheorems.v ===== *)
(** The theorems about the block cache and its log, and a small file system on
    which they are exercised: 64 blocks, a log of 20 blocks at block 2, an arena
    backed by twelve pages of memory. *)
From S2P Require Import Prelude Bytes CString Bitmap Locks PhysMem Arena FsDefs Cache CacheSpec CacheLog CacheCrash CacheTxn CacheProtocol CacheAlloc.

(** * A small file system *)

Definition twelve_pages : pmem :=
  mkPmem 4096 (fun p => if p <? 12 * 4096 then p + 4096 else 0) init_spinlock.

Definition page_list : list Z := (fun i => 4096 * (1 + Z.of_nat i)) <$> seq 0 12.

Lemma twelve_pages_inv : pm_inv twelve_pages page_list.
Proof.
  split; [by vm_compute | apply (bool_decide_unpack _); by vm_compute | | done].
  repeat (constructor; [by split |]). constructor.
Qed.

Definition KA : ObjectArena (Arena pmem) := arena_objects (kernel_pages 0) 0.
#[export] Existing Instance KA.

(** sizeof(Block) = 584. *)
Definition block_arena : Arena pmem := mkArena init_spinlock twelve_pages 584 6 [] 0 0.

Lemma block_arena_roomy : roomy 70 block_arena.
Proof.
  destruct (@init_arena_ok _ (kernel_pages 0) 584 twelve_pages page_list twelve_pages_inv) as (a & E & HI & _ & Hr).
  - by vm_compute.
  - assert (a = block_arena) as -> by (injection E as <-; reflexivity).
    exists ∅, 72%nat. split; [| lia]. exists page_list. split; [exact HI |]. rewrite Hr. by vm_compute.
Qed.

Definition small_sb : SuperBlock := mkSuper 64 30 8 20 2 22 23.
Definition blank : Device := mkDev (fun _ => zero_block) [].

Lemma blank_wf n : block_wf (medium blank n).
Proof. apply zero_block_wf. Qed.

Lemma blank_header_ok : header_ok small_sb (header_dec (medium blank (sb_log_start small_sb))).
Proof.
  change (medium blank (sb_log_start small_sb)) with zero_block.
  split; [apply header_dec_wf, zero_block_wf | by vm_compute | by vm_compute | |].
  - change (recorded (header_dec zero_block)) with ([] : list Z). apply NoDup_nil_2.
  - intros b. change (recorded (header_dec zero_block)) with ([] : list Z). by intros ?%not_elem_of_nil.
Qed.

(** A block of ones. *)
Definition ones_block : list Z := replicate 512 1.
Lemma ones_block_wf : block_wf ones_block.
Proof. split; [by apply bytes_replicate | done]. Qed.

(** Boot, begin an operation, modify block 40, sync and release it. *)
Definition example_run : M (bcache (Arena pmem)) unit :=
  cache_begin_op 0 1;;
  p ← cache_acquire 0 40;
  put_data p ones_block;;
  cache_sync 0 1 p;;
  cache_release 0 p.

Lemma example_boot : exists s, init_bcache 0 small_sb blank block_arena = Ret s /\
  sblock s = small_sb /\ log_used s = 0 /\ log_size s = 19 /\
  txn 70 s (mkSpec (recover small_sb (medium blank)) (device s) ∅ ∅) ∅.
Proof.
  destruct (init_bcache_txn 0 70 small_sb blank block_arena blank_wf block_arena_roomy blank_header_ok)
    as (s & E & Esb & Eu & Esz & _ & HT); [by vm_compute |].
  exists s. by split_and!.
Qed.

Lemma example_txn : exists s a c, txn 70 s a {[1]} /\ ops s !! 1 = Some c /\ held a = ∅ /\
  sblock s = small_sb /\ op_blocks c = [40] /\ view a 40 = ones_block /\ medium (device s) 40 = zero_block /\ pin a = {[40]} /\
  forall n, n <> 40 -> view a n = zero_block.
Proof.
  destruct example_boot as (s0 & _ & Esb & Eu & Esz & HT0).
  assert (Hrec : forall n, recover small_sb (medium blank) n = zero_block).
  { intros n. by rewrite recover_clear. }
  enough (wp no_panic example_run (fun _ s => exists a c, txn 70 s a {[1]} /\ ops s !! 1 = Some c /\ held a = ∅ /\
    sblock s = small_sb /\ op_blocks c = [40] /\ view a 40 = ones_block /\ medium (device s) 40 = zero_block /\ pin a = {[40]} /\
    forall n, n <> 40 -> view a n = zero_block) s0) as W.
  { destruct (wp_returns _ _ _ W) as ([] & s & _ & Hs). by exists s. }
  unfold example_run. apply wp_bind. eapply cache_begin_op_ok; [exact HT0 | by apply not_elem_of_empty | done | lia |].
  intros s1 HT1 Eo1 Ed1 Esb1 _. rewrite union_empty_r_L in HT1. pose proof (tx_R _ _ _ _ HT1) as HR1.
  set (a0 := mkSpec _ (device s0) ∅ ∅) in *. rewrite Esb in Esb1.
  apply wp_bind. eapply cache_acquire_ok; [exact HR1 | | | by rewrite Esb1 |].
  { by apply unheld_empty. }
  { cbn [a0 held pin]. rewrite map_size_empty, size_empty. lia. }
  intros p s2 HR2 _ E2. pose proof (txn_block_call 70 _ _ _ _ _ HT1 HR2 E2 eq_refl eq_refl) as HT2.
  apply wp_bind. eapply put_data_ok; [exact HR2 | by apply lookup_insert_eq | apply ones_block_wf |].
  intros s3 HR3 E3. pose proof (txn_block_call 70 _ _ _ _ _ HT2 HR3 E3 eq_refl eq_refl) as HT3.
  assert (E31 : sblock s3 = small_sb /\ ops s3 = ops s1).
  { injection E3 as -> _ _ _ _ _ _ _ ->. injection E2 as -> _ _ _ _ _ _ _ ->. done. }
  destruct E31 as [Esb3 Eo3].
  apply wp_bind. eapply (cache_sync_txn 0 70 _ _ _ _ 1 p 40); [exact HT3 | by apply elem_of_singleton
    | by apply lookup_insert_eq | rewrite Eo3, Eo1; by apply lookup_insert_eq | by right | rewrite Esb3; unfold in_log; cbn; lia | lia |].
  intros s4 HT4 Eo4 Ed4 Esb4.
  eapply cache_release_ok; [exact (tx_R _ _ _ _ HT4) | by apply lookup_insert_eq | left; set_solver |].
  intros s5 HR5 E5. pose proof (txn_block_call 70 _ _ _ _ _ HT4 HR5 E5 eq_refl eq_refl) as HT5.
  eexists _, _. split; [exact HT5 |]. injection E5 as E51 _ _ _ _ _ _ _ E59.
  rewrite E59, Eo4. split; [by apply lookup_insert_eq |]. split; [by apply delete_insert_id |].
  rewrite E51, Esb4. split; [done |]. split; [done |]. split; [done |].
  assert (Ed5 : device s5 = device s0) by (by rewrite <- (R_disk _ _ _ HR5)).
  rewrite Ed5. split; [| split; [by cbn; rewrite union_empty_r_L |]].
  2: { intros n Hn. cbn. unfold upd. rewrite (proj2 (Z.eqb_neq _ _)) by done. apply Hrec. }
  pose proof (unheld_settled 70 _ _ 40 (tx_R _ _ _ _ HT0) (unheld_empty a0 40 eq_refl)) as [Hp|Hc].
  - by apply not_elem_of_empty in Hp.
  - unfold clean in Hc. cbn in Hc. by rewrite <- Hc, Hrec.
Qed.

(** * Crash safety *)

(** C1: when the last operation of a group ends (nobody holding a block), end_op
    returns, every block outside of the log area is on the device with the content
    its readers saw, and the log is empty again; and if the machine crashes after
    any number [k] of the device writes made on the way, recovering from the
    medium gives every block the content it had on the device before, when the
    header has not been written yet, or the content of the ended operations,
    when it has. *)
Theorem end_op_atomic_durable {A} {OA : ObjectArena A} (me : Z) (cap : nat) (s : bcache A) (a : cspec)
    (ctx : Z) (c : OpContext) (HT : txn cap s a {[ctx]}) (Hc : ops s !! ctx = Some c)
    (Hheld : held a = ∅) (Hcap : (65 < cap)%nat) :
  exists s' ws n,
    cache_end_op me ctx s = Ret (tt, s') /\
    device s' = dev_writes (device s) ws /\
    (exists a', txn cap s' a' ∅ /\ pin a' = ∅ /\ hdr_num_blocks (header s') = 0) /\
    (forall b, ~ in_log (sblock s) b -> medium (device s') b = view a b) /\
    forall k (ar : A), roomy cap ar ->
    exists r a', init_bcache me (sblock s) (dev_writes (device s) (take k ws)) ar = Ret r /\ R cap r a' /\
      forall b, ~ in_log (sblock s) b ->
        view a' b = if decide (k <= n)%nat then medium (device s) b else view a b.
Proof.
  destruct (wp_returns (cache_end_op me ctx) (fun _ s' => exists h' u,
    let s1 := ended h' u s in txn cap s1 a ∅ /\ R cap s' (persisted s1 a) /\
    env s' = env (set_log_used 0 (set_last_persisted_ts (last_allocated_ts s1) (set_header (cleared (header s1)) s1)))) s)
    as ([] & s' & E & h' & u & HT1 & HR' & E').
  { eapply cache_end_op_ok; [exact HT | exact Hc | done | done |]. intros k h' s' _ s1 H1 H2 H3.
    exists h', (log_used s - (10 - op_num_blocks c + k)). split; [exact H1 | split; [exact H2 | exact H3]]. }
  set (s1 := ended h' u s) in *.
  exists s', (checkpoint_writes (view a) (sblock s) h'), (length (recorded h')).
  destruct (txn_persisted cap s1 s' a HT1 Hheld HR' E') as (HT' & Hpin & Hfin).
  split_and!; [done | | | |].
  - rewrite <- (R_disk _ _ _ HR'). cbn. by rewrite (R_disk _ _ _ (tx_R _ _ _ _ HT)).
  - exists (persisted s1 a). split_and!; [done | done |]. by injection E' as _ -> _ _ _ _ _ _ _.
  - intros b Hb. by apply Hfin.
  - intros k ar Har. apply (checkpoint_crash_ok me cap s1 a (tx_R _ _ _ _ HT1) (tx_log _ _ _ _ HT1) Hheld);
      [| apply (tx_disk _ _ _ _ HT1) | done].
    intros n Hn. destruct (tx_pin _ _ _ _ HT1 n Hn) as [|(x & y & Hx & _)]; [done |].
    by apply not_elem_of_empty in Hx.
Qed.

Lemma end_op_atomic_durable_witness :
  exists (s : bcache (Arena pmem)) s', cache_end_op 0 1 s = Ret (tt, s') /\
    medium (device s) 40 = zero_block /\ medium (device s') 40 = ones_block.
Proof.
  destruct example_txn as (s & a & c & HT & Hc & Hheld & Esb & _ & Hv & Hm & _).
  destruct (end_op_atomic_durable 0 70 s a 1 c HT Hc Hheld ltac:(lia)) as (s' & ws & n & E & _ & _ & Hd & _).
  exists s, s'. split; [exact E |]. split; [exact Hm |]. rewrite (Hd 40); [exact Hv |].
  rewrite Esb. unfold in_log. cbn. lia.
Defined.

(** C11: recovery can itself be interrupted: after any number of its device writes,
    recovering again gives every block outside of the log area the content an
    uninterrupted recovery gives. *)
Theorem recovery_idempotent {A} {OA : ObjectArena A} (me : Z) (cap : nat) (sb : SuperBlock) (dv : Device)
    (ar : A) (Hwf : forall n, block_wf (medium dv n)) (Har : roomy cap ar)
    (Hh : header_ok sb (header_dec (medium dv (sb_log_start sb)))) :
  exists s ws a, init_bcache me sb dv ar = Ret s /\ device s = dev_writes dv ws /\ R cap s a /\
  forall k, exists s' a', init_bcache me sb (dev_writes dv (take k ws)) ar = Ret s' /\ R cap s' a' /\
    forall b, ~ in_log sb b -> view a' b = view a b.
Proof.
  destruct (init_bcache_ok me cap sb dv ar Hwf Har Hh) as (s & E & HR & _).
  set (h := header_dec (medium dv (sb_log_start sb))) in *.
  eexists s, _, _. split_and!; [exact E | by rewrite <- (R_disk _ _ _ HR) | exact HR |]. intros k.
  set (ws := replay_writes (medium dv) sb h).
  assert (Emed : medium (dev_writes dv (take k ws)) = upds (medium dv) (take k ws)) by apply medium_dev_writes.
  assert (Hws : Forall (fun w => block_wf w.2) ws) by (by apply replay_writes_wf).
  destruct (init_bcache_ok me cap sb (dev_writes dv (take k ws)) ar) as (s' & E' & HR' & _).
  - rewrite Emed. apply upds_wf; [done |]. by apply Forall_take.
  - done.
  - rewrite Emed. by apply again_header_ok.
  - eexists s', _. split_and!; [exact E' | exact HR' |]. intros b Hb. cbn [view]. rewrite Emed.
    by apply (recover_again sb h Hh (medium dv) eq_refl).
Qed.

(** A crashed disk: block 40 is in log slot 3 and recorded, not yet home. *)
Definition crashed_header : LogHeader := mkHeader 1 (40 :: replicate 62 0).
Definition crashed : Device :=
  mkDev (fun n => if n =? 2 then header_enc crashed_header else if n =? 3 then ones_block else zero_block) [].

Lemma crashed_header_ok : header_ok small_sb crashed_header.
Proof.
  split; [| by vm_compute | by vm_compute | |].
  - split; [by vm_compute |]. split; [| done]. apply (bool_decide_unpack _). by vm_compute.
  - change (recorded crashed_header) with [40]. apply NoDup_singleton.
  - intros b. change (recorded crashed_header) with [40]. intros ->%list_elem_of_singleton.
    unfold in_log. cbn. lia.
Qed.

Lemma recovery_idempotent_witness :
  exists (s : bcache (Arena pmem)) ws a, init_bcache 0 small_sb crashed block_arena = Ret s /\
    device s = dev_writes crashed ws /\ R 70 s a.
Proof.
  destruct (recovery_idempotent 0 70 small_sb crashed block_arena) as (s & ws & a & E & Ed & HR & _).
  - intros n. unfold crashed, medium. destruct (n =? 2); [apply header_enc_block, crashed_header_ok |].
    destruct (n =? 3); [apply ones_block_wf | apply zero_block_wf].
  - exact block_arena_roomy.
  - change (medium crashed (sb_log_start small_sb)) with (header_enc crashed_header).
    rewrite header_dec_enc by apply crashed_header_ok. apply crashed_header_ok.
  - exists s, ws, a. split; [exact E |]. split; [exact Ed | exact HR].
Defined.

(** * Refinement *)

(** C17: cache_acquire implements its contract whatever is cached: as long as the
    block is not held and the arena can hold the blocks in use, it returns a new
    pointer through which the caller reads the current content of the block, and
    nothing else changes: not the content of any block, the device, the blocks
    held or pinned, nor the state of the log, although a clean block may have
    been recycled. *)
Theorem cache_acquire_refines {A} {OA : ObjectArena A} (me : Z) (cap : nat) (s : bcache A) (a : cspec) (no : Z)
    (HR : R cap s a) (Hfree : unheld a no) (Hcap : (size (held a) + size (pin a) < cap)%nat)
    (Hno : no <> sb_log_start (sblock s)) :
  exists p s', cache_acquire me no s = Ret (p, s') /\ held a !! p = None /\
    R cap s' (sp_hold p no a) /\ get_data p s' = Ret (view a no, s') /\ env s' = env s.
Proof.
  destruct (wp_returns (cache_acquire me no) (fun p s' => held a !! p = None /\
    R cap s' (sp_hold p no a) /\ env s' = env s) s) as (p & s' & E & Hp & HR' & Ee).
  { eapply cache_acquire_ok; [exact HR | done | done | done |]. auto. }
  exists p, s'. split_and!; try done.
  destruct (wp_returns (get_data p) (fun d s'' => d = view a no /\ s'' = s') s') as (d & s'' & Eg & -> & ->); [| done].
  eapply get_data_ok; [exact HR' | by apply lookup_insert_eq | done].
Qed.

Lemma cache_acquire_refines_witness :
  exists (s : bcache (Arena pmem)) p s', cache_acquire 0 40 s = Ret (p, s') /\ get_data p s' = Ret (ones_block, s').
Proof.
  destruct example_txn as (s & a & c & HT & Hc & Hheld & Esb & _ & Hv & _ & Hpin & _).
  destruct (cache_acquire_refines 0 70 s a 40 (tx_R _ _ _ _ HT)) as (p & s' & E & _ & _ & Eg & _).
  - intros q. rewrite Hheld. by rewrite lookup_empty.
  - rewrite Hheld, Hpin, map_size_empty, size_singleton. lia.
  - rewrite Esb. by vm_compute.
  - exists s, p, s'. split; [exact E |]. rewrite <- Hv. exact Eg.
Defined.

(** * The protocol *)

(** C2: from the recovery at boot on, whatever calls the clients interleave within
    the discipline of fs/cache.h, the cache keeps its invariant (in particular, the
    log space reserved is the number of recorded blocks plus ten for each running
    operation and never exceeds the log), and every call the discipline allows
    returns: no assertion of cache.c fails.  (The calls are atomic; end_op of an
    operation that is not the last counts up to its sleep.) *)
Theorem cache_protocol_safe {A} {OA : ObjectArena A} (me : Z) (cap : nat) (sb : SuperBlock) (dv : Device)
    (ar : A) (Hwf : forall n, block_wf (medium dv n)) (Har : roomy cap ar) (Hcap : (65 < cap)%nat)
    (Hh : header_ok sb (header_dec (medium dv (sb_log_start sb)))) (H32 : num_log_blocks sb < 2 ^ 32) :
  exists s0, init_bcache me sb dv ar = Ret s0 /\
  forall s run, rtc (cstep me cap) (s0, ∅) (s, run) ->
    (exists a, txn cap s a run) /\
    log_used s = hdr_num_blocks (header s) + OP_MAX_NUM_BLOCKS * Z.of_nat (size run) /\
    log_used s <= log_size s /\
    forall a c, R cap s a -> allowed cap s a run c -> exists r s', exec me run c s = Ret (r, s').
Proof.
  destruct (init_bcache_txn me cap sb dv ar Hwf Har Hh H32) as (s0 & E & _ & _ & _ & _ & HT0).
  exists s0. split; [exact E |]. intros s run Hr.
  destruct (protocol_run me cap _ _ Hcap Hr (ex_intro _ _ HT0)) as [a HT]. cbn in HT.
  pose proof (tx_used _ _ _ _ HT) as Hu. rewrite (tx_count _ _ _ _ HT) in Hu.
  split_and!; [by exists a | exact Hu | apply HT |]. intros a' c HR' Hal.
  apply (allowed_fun cap _ _ a _ _ HR' (tx_R _ _ _ _ HT)) in Hal.
  destruct (protocol_step me cap s a run c Hcap HT Hal) as (r & s' & _ & E' & _). eauto.
Qed.

Lemma cache_protocol_safe_witness :
  exists (s0 s1 : bcache (Arena pmem)), init_bcache 0 small_sb blank block_arena = Ret s0 /\
    cache_begin_op 0 1 s0 = Ret (tt, s1).
Proof.
  destruct (cache_protocol_safe 0 70 small_sb blank block_arena blank_wf block_arena_roomy ltac:(lia)
    blank_header_ok ltac:(by vm_compute)) as (s0 & E & H).
  destruct (H s0 ∅ (rtc_refl _ _)) as ([a HT] & Hu & _ & Hcall).
  destruct example_boot as (s0' & E' & _ & Eu & Esz & _). rewrite E in E'. injection E' as <-.
  destruct (Hcall a (Begin 1) (tx_R _ _ _ _ HT)) as (r & s1 & E1).
  - split; [apply not_elem_of_empty |]. split; [done |]. rewrite Eu, Esz. by vm_compute.
  - exists s0. cbn [exec] in E1. unfold mbind, M_bind in E1.
    destruct (cache_begin_op 0 1 s0) as [[[] s2]| | | |] eqn:E2; try discriminate E1.
    exists s2. split; [exact E | reflexivity].
Defined.

(** Begin_op waits exactly when the log cannot take ten more blocks; otherwise
    it reserves them, gives the operation a fresh time stamp and an empty block
    set, and the new operation is running. *)
Theorem begin_op_reserves {A} {OA : ObjectArena A} (me : Z) (cap : nat) (s : bcache A) (a : cspec)
    (run : gset Z) (ctx : Z) (HT : txn cap s a run) (Hnew : ctx ∉ run) (Hnull : ctx <> 0) :
  if decide (log_used s + OP_MAX_NUM_BLOCKS <= log_size s) then
    exists s' c, cache_begin_op me ctx s = Ret (tt, s') /\ txn cap s' a ({[ctx]} ∪ run) /\
      log_used s' = log_used s + OP_MAX_NUM_BLOCKS /\ ops s' !! ctx = Some c /\ op_blocks c = [] /\
      ts c = u64 (last_allocated_ts s + 1)
  else cache_begin_op me ctx s = Blocked.
Proof.
  case_decide as Hroom.
  - destruct (wp_returns (cache_begin_op me ctx) (fun _ s' => txn cap s' a ({[ctx]} ∪ run) /\
      log_used s' = log_used s + 10 /\
      ops s' !! ctx = Some (new_op (u64 (last_allocated_ts s + 1)))) s) as ([] & s' & E & HT' & Eu & Eo).
    { eapply cache_begin_op_ok; [exact HT | done | done | done |]. intros s' HT' Eo _ _ Eu.
      split_and!; [done | done |]. rewrite Eo. by apply lookup_insert_eq. }
    exists s', (new_op (u64 (last_allocated_ts s + 1))). by split_and!.
  - eapply cache_begin_op_waits; [exact HT |]. unfold OP_MAX_NUM_BLOCKS in *. lia.
Qed.


(** Sync records the block in the operation and pins it, for up to ten
    distinct blocks; syncing an eleventh stops the kernel. *)
Theorem sync_ten_blocks {A} {OA : ObjectArena A} (me : Z) (cap : nat) (s : bcache A) (a : cspec)
    (run : gset Z) (ctx p no : Z) (c : OpContext) (HT : txn cap s a run) (Hrun : ctx ∈ run)
    (Hp : held a !! p = Some no) (Hc : ops s !! ctx = Some c)
    (Hlog : ~ in_log (sblock s) no) (Hno : 0 <= no < 2 ^ 64) :
  if decide (no ∈ op_blocks c \/ op_num_blocks c < OP_MAX_NUM_BLOCKS) then
    exists s' c', cache_sync me ctx p s = Ret (tt, s') /\ txn cap s' (sp_pin no a) run /\
      ops s' !! ctx = Some c' /\ (forall b, b ∈ op_blocks c' <-> b = no \/ b ∈ op_blocks c)
  else cache_sync me ctx p s = Panic "i < OP_MAX_NUM_BLOCKS".
Proof.
  destruct (tx_ops _ _ _ _ HT ctx Hrun) as (H0 & c' & Ec & Hok). rewrite Hc in Ec. injection Ec as <-.
  case_decide as Hin.
  - destruct (wp_returns (cache_sync me ctx p) (fun _ s' => txn cap s' (sp_pin no a) run /\
      ops s' !! ctx = Some (op_add no c)) s) as ([] & s' & E & HT' & Eo).
    { eapply cache_sync_txn; [exact HT | done | done | done | done | done | done |]. intros s' HT' Eo _ _.
      split; [done |]. rewrite Eo. by apply lookup_insert_eq. }
    exists s', (op_add no c). split_and!; try done. intros b. rewrite (op_add_blocks _ _ _ Hok Hin).
    case_decide as Hd; [split; [by right |]; by intros [->|] |]. rewrite elem_of_app, list_elem_of_singleton. tauto.
  - eapply cache_sync_full; [apply HT | done | done | done | done | tauto |]. pose proof (oo_num _ _ Hok).
    unfold OP_MAX_NUM_BLOCKS in Hin. lia.
Qed.


(** * Block allocation *)

(** Cache_alloc returns the smallest free block number (or stops the kernel
    when there is none), having set its bit in the bitmap and zeroed it, and leaves
    every other block and every other bit; giving the block back with cache_free
    clears the bit again. *)
Theorem cache_alloc_first_free {A} {OA : ObjectArena A} (me : Z) (cap : nat) (s : bcache A) (a : cspec)
    (run : gset Z) (ctx no : Z) (bl : list Z) (HT : txn cap s a run) (Hop : op_at s run ctx bl)
    (Hca : can_alloc cap s a bl no)
    (Hnb : forall m, 0 <= m < num_blocks (sblock s) -> no <> bitmap_block (sblock s) m) :
  exists s' a', cache_alloc me ctx s = Ret (no, s') /\ txn cap s' a' run /\
    view a' no = zero_block /\
    (forall m, 0 <= m < num_blocks (sblock s) ->
      used_bit (sblock s) (view a') m = if decide (m = no) then true else used_bit (sblock s) (view a) m) /\
    (forall b, b <> no -> b <> bitmap_block (sblock s) no -> view a' b = view a b) /\
  exists s'' a'', cache_free me ctx no s' = Ret (tt, s'') /\ txn cap s'' a'' run /\
    forall m, 0 <= m < num_blocks (sblock s) ->
      used_bit (sblock s) (view a'') m = used_bit (sblock s) (view a) m.
Proof.
  destruct (wp_returns (cache_alloc me ctx) (fun r s' => r = no /\ sblock s' = sblock s /\ exists a',
    txn cap s' a' run /\ op_at s' run ctx (add_new no (add_new (bitmap_block (sblock s) no) bl)) /\
    view a' = allocated (sblock s) no (view a) /\ held a' = held a) s)
    as (r & s' & E & -> & Esb & a' & HT' & Hop' & Ev & Eh).
  { eapply cache_alloc_ok; [exact HT | exact Hop | exact Hca |]. intros s' a' [].
    split; [done |]. split; [done |]. by exists a'. }
  assert (Hwf : forall n, block_wf (view a n)) by (intros n; apply (R_wf _ _ _ (tx_R _ _ _ _ HT))).
  assert (Hbits : forall m, 0 <= m < num_blocks (sblock s) -> used_bit (sblock s) (view a') m =
    if decide (m = no) then true else used_bit (sblock s) (view a) m).
  { intros m Hm. rewrite <- used_bit_mark by done. unfold used_bit. rewrite Ev. unfold allocated, upd at 1.
    by rewrite (proj2 (Z.eqb_neq (bitmap_block (sblock s) m) no)) by (specialize (Hnb m Hm); congruence). }
  exists s', a'. split_and!; [done | done | | exact Hbits | |].
  - rewrite Ev. unfold allocated, upd at 1. by rewrite Z.eqb_refl.
  - intros b Hb Hbb. rewrite Ev. unfold allocated, upd. by rewrite !(proj2 (Z.eqb_neq _ _)).
  - destruct Hca as [Hff Hbm _ Hne [H64 _] Hlen Hcap]. destruct (Hbm no ltac:(destruct Hff; lia)) as [Hlg Hu].
    destruct (wp_returns (cache_free me ctx no) (fun _ s'' => exists a'', txn cap s'' a'' run /\
      view a'' = freed (sblock s) no (view a')) s') as ([] & s'' & E2 & a'' & HT2 & Ev2).
    { eapply cache_free_ok; [exact HT' | exact Hop' | | | | | | | ]; rewrite ?Esb, ?Eh; try done.
      - rewrite Hbits by apply Hff. by rewrite decide_True.
      - intros q. rewrite Eh. apply Hu.
      - assert (bitmap_block (sblock s) no ∈ add_new no (add_new (bitmap_block (sblock s) no) bl)) as Hin.
        { unfold add_new. repeat case_decide; rewrite ?elem_of_app, ?list_elem_of_singleton; tauto. }
        unfold add_new at 1. rewrite decide_True by done. done.
      - intros t a2 []. by exists a2. }
    exists s'', a''. split_and!; [done | done |]. intros m Hm. rewrite Ev2. unfold freed.
    rewrite used_bit_clear by (intros n; apply (R_wf _ _ _ (tx_R _ _ _ _ HT'))).
    rewrite Hbits by done. case_decide as Em; [subst; symmetry; apply Hff | done].
Qed.

Lemma cache_alloc_first_free_witness :
  exists (s : bcache (Arena pmem)) s', cache_alloc 0 1 s = Ret (0, s').
Proof.
  destruct example_txn as (s & a & c & HT & Hc & Hheld & Esb & Hb & _ & _ & Hpin & Hz).
  assert (Hblk : forall m, 0 <= m < 64 -> bitmap_block small_sb m = 23).
  { intros m Hm. unfold bitmap_block. rewrite Z.div_small by (unfold BIT_PER_BLOCK, BLOCK_SIZE; lia). reflexivity. }
  assert (Hlog : forall n, n < 2 \/ 22 <= n -> ~ in_log small_sb n) by (intros n Hn [H1 H2]; cbn in *; lia).
  destruct (cache_alloc_first_free 0 70 s a {[1]} 1 0 [40] HT) as (s' & _ & E & _).
  - split; [by apply elem_of_singleton |]. exists c. split; [exact Hc | exact Hb].
  - split; rewrite ?Esb.
    + split; [by vm_compute | | lia]. unfold used_bit. rewrite Hblk, Hz by lia. by vm_compute.
    + intros m Hm. rewrite Hblk by lia. split; [apply Hlog; lia | by apply unheld_empty].
    + split; [apply Hlog; lia | by apply unheld_empty].
    + by vm_compute.
    + by vm_compute.
    + vm_compute. lia.
    + rewrite Hheld, map_size_empty. lia.
  - intros m Hm. rewrite Esb in *. rewrite Hblk by exact Hm. lia.
  - exists s, s'. exact E.
Defined.

(** * A race in cache_release *)

Section race.
Context {A : Type} {OA : ObjectArena A}.
Implicit Types (s : bcache A) (b : Block).

(** The thread on CPU [me] releases the block [p]; between its release of the sleeplock and
    its store to [acquired], the thread on CPU [you] acquires block [no] and writes [d]. *)
Definition release_window (me you p no : Z) (d : list Z) : M (bcache A) Z :=
  release_block_lock me p;;
  q ← cache_acquire you no;
  put_data q d;;
  release_acquired me p;;
  mret q.

(** The holder of the sleeplock of the block relies on flags that are not set. *)
Definition unprotected b : Prop := slocked (block_lock b) = true /\ acquired b = false /\ pinned b = false.

Lemma acquire_slot_hit E me s b Q : lock s = init_spinlock -> NoDup (block_no <$> head s) -> b ∈ head s ->
  Q (self b) (set_head (set_acquired true b :: remove_block (self b) (head s)) s) -> wp E (acquire_slot me (block_no b)) Q s.
Proof.
  intros Hl Hn Hb HQ. unfold acquire_slot. apply wp_bind, wp_lock_cache; [done |]. apply wp_bind, wp_get. cbn [head set_lock].
  rewrite (find_slot_hit _ _ b) by done. rewrite Z.eqb_refl. cbn [negb]. apply wp_bind, wp_ret, wp_bind, wp_get, wp_bind, wp_put.
  apply wp_bind, wp_unlock_cache; [done |]. apply wp_ret. destruct s. cbn in *. by subst.
Qed.

Lemma release_window_ok E me you cap s a p no d : R cap s a -> held a !! p = Some no -> no ∉ pin a ->
  wp E (release_window me you p no d) (fun q s' => q = p /\ lock s' = init_spinlock /\
    exists b, block_at p (head s') = Some b /\ block_no b = no /\ data b = d /\ unprotected b) s.
Proof.
  intros HR Hp Hpin. destruct (R_pointer _ _ _ _ _ HR Hp) as (b & Hb & <- & <- & Ha & Hat & [Hlk Hv Hd _ _ Hpn]).
  assert (Epin : pinned b = false) by (destruct (pinned b); [by destruct Hpin; apply Hpn | done]).
  unfold release_window. apply wp_bind. unfold release_block_lock. apply wp_bind. eapply wp_load_block; [done |]. apply wp_bind.
  eapply wp_lift; [rewrite Hlk; apply release_sleeplock_held |]. apply wp_modify. apply wp_bind.
  set (b1 := set_block_lock (mkSleep init_spinlock false) b). set (l1 := upd_block (self b) _ (head s)).
  assert (Hb1 : b1 ∈ l1) by (apply elem_of_upd_block; exists b; by rewrite Z.eqb_refl).
  assert (Hn1 : NoDup (block_no <$> l1)) by (unfold l1; rewrite fmap_upd_block; [apply HR | done]).
  change (block_no b) with (block_no b1). unfold cache_acquire. apply wp_bind.
  apply acquire_slot_hit; [apply HR | done | done |]. cbn [head set_head].
  set (l2 := remove_block (self b1) l1).
  assert (Hb2 : self b ∉ self <$> l2).
  { intros (c & E1 & [Hne _]%elem_of_remove_block)%list_elem_of_fmap. by apply Hne. }
  apply wp_bind. change (self b1) with (self (set_acquired true b1)). eapply acquire_load_ok; [done | done | done | done |].
  apply wp_ret. apply wp_bind. unfold put_data. apply wp_bind. eapply wp_load_front; [done | done |].
  eapply wp_write_front; [done | done | done |]. apply wp_bind. unfold release_acquired. apply wp_locked_write; [apply HR |].
  cbn [head set_head]. rewrite upd_block_front by done. apply wp_ret. split; [done |]. split; [apply HR |].
  eexists. split; [cbn; by rewrite Z.eqb_refl |]. by repeat split.
Qed.

(** The search stops at the last block that may be evicted. *)
Lemma find_slot_last no l1 b l2 : no ∉ block_no <$> (l1 ++ b :: l2) -> acquired b = false -> pinned b = false ->
  Forall (fun c => acquired c || pinned c = true) l2 -> forall slot, find_slot no slot (l1 ++ b :: l2) = Some b.
Proof.
  intros Hno Ha Hp Hl2. induction l1 as [|c l1 IH]; intros slot; cbn in Hno |- *; apply not_elem_of_cons in Hno as [Hc Hno].
  - rewrite (proj2 (Z.eqb_neq _ _)), Ha, Hp by done. cbn [negb andb]. clear Hc.
    induction Hl2 as [|c l2 Hc2 _ IH]; [done |]. cbn in Hno |- *. apply not_elem_of_cons in Hno as [Hc Hno].
    rewrite (proj2 (Z.eqb_neq _ _)) by done. rewrite <- negb_orb, Hc2. by apply IH.
  - rewrite (proj2 (Z.eqb_neq _ _)) by done. by apply IH.
Qed.

Lemma acquire_slot_evicts E me s l1 b l2 no Q : lock s = init_spinlock -> head s = l1 ++ b :: l2 -> unprotected b ->
  no ∉ block_no <$> head s -> EVICTION_THRESHOLD <= Z.of_nat (length (head s)) -> Forall (fun c => acquired c || pinned c = true) l2 ->
  Q (self b) (set_head (set_acquired true (set_valid false (set_block_no no b)) :: remove_block (self b) (head s)) s) ->
  wp E (acquire_slot me no) Q s.
Proof.
  intros Hl Hh (_ & Ha & Hp) Hno Hle Hl2 HQ. unfold acquire_slot. apply wp_bind, wp_lock_cache; [done |]. apply wp_bind, wp_get. cbn [head set_lock].
  assert (Hfind : find_slot no None (head s) = Some b) by (rewrite Hh in *; by apply find_slot_last). rewrite Hfind.
  assert (Hb : block_no b <> no) by (intros <-; apply Hno; rewrite Hh, fmap_app, elem_of_app, fmap_cons; right; left).
  rewrite (proj2 (Z.eqb_neq _ _)) by done. cbn [negb]. unfold _get_num_cached_blocks. cbn [head set_lock].
  rewrite (proj2 (Z.leb_le _ _)) by done. apply wp_bind, wp_ret, wp_bind, wp_get, wp_bind, wp_put.
  apply wp_bind, wp_unlock_cache; [done |]. apply wp_ret. destruct s. cbn in *. by subst.
Qed.
End race.


(** Blocks 40 to 59 are read, the first of them with the race. *)
Definition race : M (bcache (Arena pmem)) Z :=
  p ← cache_acquire 0 40;
  release_window 0 1 p 40 ones_block;;
  for_range 41 19 (fun n => r ← cache_acquire 0 n; cache_release 0 r);;
  mret p.

Definition race_states : outcome (bcache (Arena pmem) * (Z * bcache (Arena pmem)) * (Z * bcache (Arena pmem))) :=
  s0 ← init_bcache 0 small_sb blank block_arena;
  held ← cache_acquire 0 40 s0;
  last ← race s0;
  Ret (s0, held, last).

(** The block of the race is the last of the list. *)
Definition at_end (p : Z) (l : list Block) : bool :=
  match rev l with
  | b :: _ => (self b =? p) && slocked (block_lock b) && negb (acquired b) && negb (pinned b)
  | [] => false
  end.

Definition race_check : bool :=
  match race_states with
  | Ret (_, (p, _), (q, s3)) => (p =? q) && at_end p (head s3) && (length (head s3) =? 20)%nat &&
      bool_decide (60 ∉ block_no <$> head s3) && negb (locked (lock s3)) && bool_decide (lock s3 = init_spinlock)
  | _ => false
  end.

Lemma at_end_split p l : at_end p l = true -> exists l1 b, l = l1 ++ [b] /\ self b = p /\ unprotected b.
Proof.
  unfold at_end. destruct (rev l) as [|b r] eqn:E; [done |]. rewrite !andb_true_iff, !negb_true_iff, Z.eqb_eq. intros [[[H1 H2] H3] H4].
  exists (rev r), b. split; [| by split]. rewrite <- (rev_involutive l), E. done.
Qed.

