(* ===== verification/BlockCache.v ===== *)
(** The interface between the block cache and its clients, the struct
    [BlockCache] of fs/cache.h: the operations the inode layer calls through the
    pointer [cache], and what they promise in terms of the content of the blocks,
    the blocks held by the caller, and the blocks each atomic operation has synced.
    The theorems about the inode layer are proved against this class; fs/cache.c
    implements it ([kernel_cache]). *)
From S2P Require Import Prelude Bytes CString Bitmap Locks Arena FsDefs Cache CacheSpec CacheLog CacheCrash CacheTxn CacheProtocol CacheAlloc.

(** * What a client sees *)

Record fsv := mkFsv {
  fview : Z -> list Z;        (* the content of every block *)
  fheld : gmap Z Z;           (* pointers held and their blocks *)
  fmod : gset Z;              (* held blocks written and not yet synced *)
  fops : gmap Z (list Z)      (* running operations and the blocks they synced *)
}.

Definition fv_unheld (v : fsv) (no : Z) : Prop := forall q, fheld v !! q <> Some no.

Definition fv_hold (p no : Z) (v : fsv) : fsv := mkFsv (fview v) (<[p := no]> (fheld v)) (fmod v) (fops v).
Definition fv_unhold (p : Z) (v : fsv) : fsv := mkFsv (fview v) (delete p (fheld v)) (fmod v) (fops v).
Definition fv_put (no : Z) (d : list Z) (v : fsv) : fsv :=
  mkFsv (upd (fview v) no d) (fheld v) ({[no]} ∪ fmod v) (fops v).
Definition fv_sync (ctx no : Z) (bl : list Z) (v : fsv) : fsv :=
  mkFsv (fview v) (fheld v) (fmod v ∖ {[no]}) (<[ctx := add_new no bl]> (fops v)).
Definition fv_view (w : Z -> list Z) (ctx : Z) (bl : list Z) (v : fsv) : fsv :=
  mkFsv w (fheld v) (fmod v) (<[ctx := bl]> (fops v)).

(** A block the client may use: outside of the log. *)
Definition usable (sb : SuperBlock) (no : Z) : Prop := ~ in_log sb no /\ 0 <= no < 2 ^ 32.

(** An allocation can succeed with block [no]. *)
Record fv_can_alloc (sb : SuperBlock) (v : fsv) (bl : list Z) (no : Z) : Prop := {
  fa_first : first_free sb (fview v) no;
  fa_bitmap : forall m, 0 <= m <= no -> usable sb (bitmap_block sb m) /\ fv_unheld v (bitmap_block sb m);
  fa_block : usable sb no /\ fv_unheld v no;
  fa_ne : no <> bitmap_block sb no;
  fa_size : num_blocks sb < 2 ^ 32;
  fa_len : (length (add_new no (add_new (bitmap_block sb no) bl)) <= 10)%nat;
  fa_cap : (size (fheld v) < 6)%nat
}.

Class BlockCache (sb : SuperBlock) (S : Type) := {
  bc_acquire : Z -> M S Z;
  bc_release : Z -> M S unit;
  bc_sync : Z -> Z -> M S unit;
  bc_alloc : Z -> M S Z;
  bc_free : Z -> Z -> M S unit;
  bc_data : Z -> M S (list Z);
  bc_put : Z -> list Z -> M S unit;
  bc_begin_op : Z -> M S unit;
  bc_end_op : Z -> M S unit;

  bc_R : S -> fsv -> Prop;
  bc_wf : forall s v n, bc_R s v -> block_wf (fview v n);

  bc_acquire_ok : forall E s v no Q, bc_R s v -> fv_unheld v no -> usable sb no -> (size (fheld v) < 6)%nat ->
    (forall p s', bc_R s' (fv_hold p no v) -> fheld v !! p = None -> Q p s') -> wp E (bc_acquire no) Q s;
  bc_data_ok : forall E s v p no Q, bc_R s v -> fheld v !! p = Some no ->
    Q (fview v no) s -> wp E (bc_data p) Q s;
  bc_put_ok : forall E s v p no d Q, bc_R s v -> fheld v !! p = Some no -> block_wf d ->
    (forall s', bc_R s' (fv_put no d v) -> Q tt s') -> wp E (bc_put p d) Q s;
  bc_release_ok : forall E s v p no Q, bc_R s v -> fheld v !! p = Some no -> no ∉ fmod v ->
    (forall s', bc_R s' (fv_unhold p v) -> Q tt s') -> wp E (bc_release p) Q s;
  bc_sync_ok : forall E s v ctx p no bl Q, bc_R s v -> fops v !! ctx = Some bl -> fheld v !! p = Some no ->
    (length (add_new no bl) <= 10)%nat -> usable sb no ->
    (forall s', bc_R s' (fv_sync ctx no bl v) -> Q tt s') -> wp E (bc_sync ctx p) Q s;
  bc_alloc_ok : forall E s v ctx bl no Q, bc_R s v -> fops v !! ctx = Some bl -> fv_can_alloc sb v bl no ->
    (forall s', bc_R s' (fv_view (allocated sb no (fview v)) ctx
        (add_new no (add_new (bitmap_block sb no) bl)) v) -> Q no s') -> wp E (bc_alloc ctx) Q s;
  bc_free_ok : forall E s v ctx bl no Q, bc_R s v -> fops v !! ctx = Some bl ->
    used_bit sb (fview v) no = true -> usable sb (bitmap_block sb no) -> fv_unheld v (bitmap_block sb no) ->
    (length (add_new (bitmap_block sb no) bl) <= 10)%nat -> (size (fheld v) < 6)%nat ->
    (forall s', bc_R s' (fv_view (freed sb no (fview v)) ctx (add_new (bitmap_block sb no) bl) v) -> Q tt s') ->
    wp E (bc_free ctx no) Q s
}.

(** * fs/cache.c implements the interface *)

Section kernel.
Context {A : Type} `{ObjectArena A} (me : Z) (cap : nat) (Hcap : (70 <= cap)%nat) (sb : SuperBlock).
Implicit Types (s : bcache A) (v : fsv).

(** The cache state [s] shows the client the state [v]. *)
Definition shows s v : Prop := exists a run, txn cap s a run /\ sblock s = sb /\ view a = fview v /\
  held a = fheld v /\ (forall ctx bl, fops v !! ctx = Some bl -> op_at s run ctx bl) /\
  (forall p no, fheld v !! p = Some no -> no ∉ fmod v -> no ∈ pin a \/ clean a no).

Lemma shows_acquire E s v no Q : shows s v -> fv_unheld v no -> usable sb no -> (size (fheld v) < 6)%nat ->
  (forall p s', shows s' (fv_hold p no v) -> fheld v !! p = None -> Q p s') -> wp E (cache_acquire me no) Q s.
Proof.
  intros (a & run & HT & Esb & Ev & Eh & Ho & Hm) Hu [Hl _] Hs HQ.
  assert (Hua : unheld a no) by (intros q; rewrite Eh; apply Hu).
  eapply t_acquire; [exact HT | done | rewrite Eh; lia | by rewrite Esb |].
  intros p s' HT' Hp F. rewrite Eh in Hp. apply HQ; [| done]. exists (sp_hold p no a), run.
  split_and!; [done | destruct F; congruence | done | cbn; by rewrite Eh | intros; eapply op_at_frame; eauto |].
  intros q n. cbn. destruct (decide (q = p)) as [->|Hq].
  - rewrite lookup_insert_eq. intros [= <-] _. exact (unheld_settled cap s a no (tx_R _ _ _ _ HT) Hua).
  - rewrite lookup_insert_ne by done. apply Hm.
Qed.

Lemma shows_put E s v p no d Q : shows s v -> fheld v !! p = Some no -> block_wf d ->
  (forall s', shows s' (fv_put no d v) -> Q tt s') -> wp E (put_data p d) Q s.
Proof.
  intros (a & run & HT & Esb & Ev & Eh & Ho & Hm) Hp Hd HQ.
  eapply t_put; [exact HT | by rewrite Eh | done |]. intros s' HT' F. apply HQ. exists (sp_put no d a), run.
  split_and!; [done | destruct F; congruence | cbn; by rewrite Ev | done | intros; eapply op_at_frame; eauto |].
  intros q n Hq Hn. cbn in *. apply not_elem_of_union in Hn as [Hn1 Hn]. rewrite not_elem_of_singleton in Hn1.
  destruct (Hm q n Hq Hn) as [|Hc]; [by left |]. right. unfold clean in *. cbn. unfold upd.
  by rewrite (proj2 (Z.eqb_neq n no)).
Qed.

Lemma shows_release E s v p no Q : shows s v -> fheld v !! p = Some no -> no ∉ fmod v ->
  (forall s', shows s' (fv_unhold p v) -> Q tt s') -> wp E (cache_release me p) Q s.
Proof.
  intros (a & run & HT & Esb & Ev & Eh & Ho & Hm) Hp Hmod HQ.
  eapply t_release; [exact HT | by rewrite Eh | by eapply Hm |]. intros s' HT' F. apply HQ.
  exists (sp_unhold p a), run.
  split_and!; [done | destruct F; congruence | done | cbn; by rewrite Eh | intros; eapply op_at_frame; eauto |].
  intros q n Hq Hn. cbn in *. apply lookup_delete_Some in Hq as [_ Hq]. by eapply Hm.
Qed.

Lemma shows_sync E s v ctx p no bl Q : shows s v -> fops v !! ctx = Some bl -> fheld v !! p = Some no ->
  (length (add_new no bl) <= 10)%nat -> usable sb no ->
  (forall s', shows s' (fv_sync ctx no bl v) -> Q tt s') -> wp E (cache_sync me ctx p) Q s.
Proof.
  intros (a & run & HT & Esb & Ev & Eh & Ho & Hm) Hc Hp Hlen [Hl H32] HQ.
  eapply t_sync; [exact HT | by apply Ho | by rewrite Eh | done | by rewrite Esb | lia |].
  intros s' HT' Hop Hoth Esb'. apply HQ. exists (sp_pin no a), run.
  split_and!; [done | congruence | done | done | |].
  - intros c bl'. cbn. destruct (decide (c = ctx)) as [->|Hne].
    + rewrite lookup_insert_eq. by intros [= <-].
    + rewrite lookup_insert_ne by done. intros Hc'. apply Hoth; [done | by apply Ho].
  - intros q n Hq Hn. cbn in *. destruct (decide (n = no)) as [->|Hne].
    + left. apply elem_of_union_l. by apply elem_of_singleton.
    + destruct (Hm q n Hq) as [|Hcl]; [| left; by apply elem_of_union_r | by right].
      intros Hin. apply Hn. apply elem_of_difference. by rewrite elem_of_singleton.
Qed.

(** An allocation or a release of a block, which leaves the held blocks alone. *)
Lemma shows_moved s a run v ctx bl w pins s' a' : fheld v = held a -> sblock s = sb ->
  (forall c l, fops v !! c = Some l -> op_at s run c l) ->
  (forall p no, fheld v !! p = Some no -> no ∉ fmod v -> no ∈ pin a \/ clean a no) ->
  (forall p no, fheld v !! p = Some no -> w no = view a no) ->
  moved cap s a run ctx bl w pins s' a' -> shows s' (fv_view w ctx bl v).
Proof.
  intros Eh Esb Ho Hm Hw [HT' Hop Hoth Ev' Eh' Ed' Ep' Esb']. exists a', run.
  split_and!; [done | congruence | done | cbn; congruence | |].
  - intros c l. cbn. destruct (decide (c = ctx)) as [->|Hne].
    + rewrite lookup_insert_eq. by intros [= <-].
    + rewrite lookup_insert_ne by done. intros Hl. apply Hoth; [done | by apply Ho].
  - intros p n Hp Hn. cbn in *. rewrite Ep'. destruct (Hm p n Hp Hn) as [Hin|Hc].
    + left. by apply elem_of_union_r.
    + right. unfold clean in *. by rewrite Ed', Ev', (Hw p n Hp).
Qed.

Lemma shows_alloc E s v ctx bl no Q : shows s v -> fops v !! ctx = Some bl -> fv_can_alloc sb v bl no ->
  (forall s', shows s' (fv_view (allocated sb no (fview v)) ctx (add_new no (add_new (bitmap_block sb no) bl)) v) ->
    Q no s') -> wp E (cache_alloc me ctx) Q s.
Proof.
  intros (a & run & HT & Esb & Ev & Eh & Ho & Hm) Hc [Hff Hbm [Hl Hu] Hne Hsz Hlen Hsize] HQ.
  pose proof (ff_range _ _ _ Hff) as Hr. destruct (Hbm no ltac:(lia)) as [[_ Hb32] Hbu].
  eapply cache_alloc_ok; [exact HT | by apply Ho | |].
  - split; rewrite ?Esb, ?Ev; [done | | | done | lia | done | rewrite Eh; lia].
    + intros m Hmn. destruct (Hbm m Hmn) as [[Hlm _] Hum]. split; [done |]. intros q. rewrite Eh. apply Hum.
    + destruct Hl as [Hl _]. split; [done |]. intros q. rewrite Eh. apply Hu.
  - rewrite Esb, Ev. intros s' a' Hmv. apply HQ. eapply shows_moved; [done | exact Esb | exact Ho | exact Hm | | exact Hmv].
    intros p n Hp. unfold allocated, upd. rewrite Ev.
    destruct (Z.eqb_spec n no) as [->|]; [by destruct (Hu p) |].
    destruct (Z.eqb_spec n (bitmap_block sb no)) as [->|]; [by destruct (Hbu p) | done].
Qed.

Lemma shows_free E s v ctx bl no Q : shows s v -> fops v !! ctx = Some bl ->
  used_bit sb (fview v) no = true -> usable sb (bitmap_block sb no) -> fv_unheld v (bitmap_block sb no) ->
  (length (add_new (bitmap_block sb no) bl) <= 10)%nat -> (size (fheld v) < 6)%nat ->
  (forall s', shows s' (fv_view (freed sb no (fview v)) ctx (add_new (bitmap_block sb no) bl) v) -> Q tt s') ->
  wp E (cache_free me ctx no) Q s.
Proof.
  intros (a & run & HT & Esb & Ev & Eh & Ho & Hm) Hc Hbit [Hl Hb32] Hu Hlen Hsize HQ.
  eapply cache_free_ok; [exact HT | by apply Ho | | | | | | |]; rewrite ?Esb, ?Ev;
    [done | intros q; rewrite Eh; apply Hu | done | lia | done | rewrite Eh; lia |].
  intros s' a' Hmv. apply HQ. eapply shows_moved; [done | exact Esb | exact Ho | exact Hm | | exact Hmv].
  intros p n Hp. unfold freed, upd. rewrite Ev.
  destruct (Z.eqb_spec n (bitmap_block sb no)) as [->|]; [by destruct (Hu p) | done].
Qed.

Lemma shows_data E s v p no Q : shows s v -> fheld v !! p = Some no -> Q (fview v no) s -> wp E (get_data p) Q s.
Proof.
  intros (a & run & HT & Esb & Ev & Eh & Ho & Hm) Hp HQ.
  eapply get_data_ok; [apply HT | by rewrite Eh | by rewrite Ev].
Qed.

Lemma shows_wf s v n : shows s v -> block_wf (fview v n).
Proof. intros (a & run & HT & Esb & Ev & _). rewrite <- Ev. apply (R_wf _ _ _ (tx_R _ _ _ _ HT)). Qed.

(** fs/cache.c, the [bcache] object of fs/cache.h. *)
#[export] Instance kernel_cache : BlockCache sb (bcache A) := {|
  bc_acquire := cache_acquire me;
  bc_release := cache_release me;
  bc_sync := cache_sync me;
  bc_alloc := cache_alloc me;
  bc_free := cache_free me;
  bc_data := get_data;
  bc_put := put_data;
  bc_begin_op := cache_begin_op me;
  bc_end_op := cache_end_op me;
  bc_R := shows;
  bc_wf := shows_wf;
  bc_acquire_ok := shows_acquire;
  bc_data_ok := shows_data;
  bc_put_ok := shows_put;
  bc_release_ok := shows_release;
  bc_sync_ok := shows_sync;
  bc_alloc_ok := shows_alloc;
  bc_free_ok := shows_free
|}.
End kernel.
