(* ===== verification/Path.v ===== *)
(** File names and paths: the name fields of directory entries as strncmp and
    strncpy see them, and [skipelem] of fs/inode.c.

    A C string is the list of its characters, without the NUL; in a field of
    fixed size it is followed by NULs unless it fills the field. *)
From S2P Require Import Prelude Bytes CString FsDefs.

(** The bytes of [l] at address [a], over the memory [m]. *)
Definition place (l : list Z) (a : Z) (m : mem) : mem :=
  fun x => if (a <=? x) && (x <? a + Z.of_nat (length l)) then zget l (x - a) else m x.

Definition addr1 : Z := 2 ^ 20.
Definition addr2 : Z := 2 ^ 21.

(** Two strings in memory, each followed by a NUL. *)
Definition two_strings (s1 s2 : list Z) : mem := place s1 addr1 (place s2 addr2 (fun _ => 0)).

(** [strncmp(s1, s2, n)] and the [n] bytes [strncpy(dest, src, n)] leaves. *)
Definition strncmp_list (s1 s2 : list Z) (n : Z) : Z := strncmp (two_strings s1 s2) addr1 addr2 n.
Definition strncpy_list (src : list Z) (n : Z) : list Z :=
  read_bytes (strncpy (two_strings [] src) addr1 addr2 n) addr1 (Z.to_nat n).

(** The string in a field of [n] bytes. *)
Fixpoint cstring (n : nat) (l : list Z) : list Z :=
  match n, l with
  | S n', c :: l' => if c =? 0 then [] else c :: cstring n' l'
  | _, _ => []
  end.

Lemma length_cstring l : forall n, (length (cstring n l) <= n)%nat.
Proof.
  induction l as [|c l IH]; intros [|n]; cbn; [lia.. |]. destruct (c =? 0); cbn; [lia |]. specialize (IH n). lia.
Qed.

Lemma cstring_no_nul l : forall n, 0 ∉ cstring n l.
Proof.
  induction l as [|c l IH]; intros [|n]; cbn; try apply not_elem_of_nil.
  destruct (Z.eqb_spec c 0); [apply not_elem_of_nil |]. apply not_elem_of_cons. by split.
Qed.

Lemma cstring_id l : forall n, (length l <= n)%nat -> 0 ∉ l -> cstring n l = l.
Proof.
  induction l as [|c l IH]; intros [|n] Hl H0; cbn in *; try done; try lia.
  apply not_elem_of_cons in H0 as [H0 Hl0]. rewrite (proj2 (Z.eqb_neq c 0)) by done. f_equal. apply IH; [lia | done].
Qed.

Lemma cstring_app l k : forall n, (length l < n)%nat -> 0 ∉ l -> cstring n (l ++ 0 :: k) = l.
Proof.
  induction l as [|c l IH]; intros [|n] Hl H0; cbn in *; try done; try lia.
  apply not_elem_of_cons in H0 as [H0 Hl0]. rewrite (proj2 (Z.eqb_neq c 0)) by done. f_equal. apply IH; [lia | done].
Qed.

Lemma cstr_cstring m l n : forall a, (forall i : nat, (i < n)%nat -> m (a + Z.of_nat i) = nth i l 0) ->
  cstr m a n = cstring n l.
Proof.
  revert l. induction n as [|n IH]; intros l a Hm; cbn [cstr cstring]; [done |].
  pose proof (Hm 0%nat ltac:(lia)) as H0. rewrite Z.add_0_r in H0. rewrite H0.
  destruct l as [|c l]; cbn [nth]; [done |]. destruct (c =? 0) eqn:Ec; [done |]. f_equal. apply IH.
  intros i Hi. specialize (Hm (S i) ltac:(lia)). cbn [nth] in Hm. rewrite <- Hm. f_equal. lia.
Qed.

Lemma two_strings_1 s1 s2 (i : nat) : Z.of_nat i < 2 ^ 20 -> two_strings s1 s2 (addr1 + Z.of_nat i) = nth i s1 0.
Proof.
  intros Hi. unfold two_strings, place, addr1, addr2. destruct (Nat.ltb_spec i (length s1)).
  - rewrite (proj2 (Z.leb_le _ _)), (proj2 (Z.ltb_lt _ _)) by lia. cbn [andb]. unfold zget. f_equal. lia.
  - rewrite (proj2 (Z.ltb_ge (2 ^ 20 + Z.of_nat i) (2 ^ 20 + Z.of_nat (length s1)))) by lia. rewrite andb_false_r.
    rewrite (proj2 (Z.leb_gt _ _)) by lia. cbn [andb]. by rewrite nth_overflow by lia.
Qed.

Lemma two_strings_2 s1 s2 (i : nat) : Z.of_nat (length s1) < 2 ^ 20 -> two_strings s1 s2 (addr2 + Z.of_nat i) = nth i s2 0.
Proof.
  intros H1. unfold two_strings, place, addr1, addr2.
  rewrite (proj2 (Z.ltb_ge (2 ^ 21 + Z.of_nat i) (2 ^ 20 + Z.of_nat (length s1)))) by lia. rewrite andb_false_r.
  destruct (Nat.ltb_spec i (length s2)).
  - rewrite (proj2 (Z.leb_le _ _)), (proj2 (Z.ltb_lt _ _)) by lia. cbn [andb]. unfold zget. f_equal. lia.
  - rewrite (proj2 (Z.ltb_ge _ _)) by lia. rewrite andb_false_r. by rewrite nth_overflow by lia.
Qed.

(** strncmp on names compares the strings. *)
Lemma strncmp_list_spec s1 s2 n : Z.of_nat (length s1) < 2 ^ 20 -> 0 <= n < 2 ^ 20 ->
  strncmp_list s1 s2 n = 0 <-> cstring (Z.to_nat n) s1 = cstring (Z.to_nat n) s2.
Proof.
  intros H1 Hn. unfold strncmp_list, strncmp. rewrite strncmp_loop_spec, !Z.add_0_r.
  rewrite (cstr_cstring _ s1 _ addr1), (cstr_cstring _ s2 _ addr2); [done | |].
  - intros i Hi. by apply two_strings_2.
  - intros i Hi. apply two_strings_1. lia.
Qed.

(** strncpy leaves the string padded with NULs. *)
Lemma strncpy_list_spec src n : 0 <= n < 2 ^ 20 ->
  strncpy_list src n = cstring (Z.to_nat n) src ++ replicate (Z.to_nat n - length (cstring (Z.to_nat n) src)) 0.
Proof.
  intros Hn. unfold strncpy_list. apply list_eq. intros i.
  pose proof (length_cstring src (Z.to_nat n)) as Hlen.
  destruct (Nat.ltb_spec i (Z.to_nat n)) as [Hi|Hi].
  2: { rewrite !lookup_ge_None_2; [done | rewrite length_app, length_replicate; lia | rewrite length_read_bytes; lia]. }
  rewrite lookup_read_bytes by done. rewrite strncpy_eq by (unfold addr1, addr2; lia).
  rewrite (proj2 (Z.leb_le _ _)), (proj2 (Z.ltb_lt _ _)) by lia. cbn [andb].
  rewrite (cstr_cstring _ src _ addr2) by (intros; apply two_strings_2; cbn; lia).
  replace (Z.to_nat (addr1 + Z.of_nat i - addr1)) with i by lia.
  rewrite nth_lookup. destruct (Nat.ltb_spec i (length (cstring (Z.to_nat n) src))).
  - rewrite lookup_app_l by done. by destruct (lookup_lt_is_Some_2 (cstring (Z.to_nat n) src) i ltac:(done)) as [x ->].
  - rewrite lookup_app_r, lookup_replicate_2 by lia. by rewrite lookup_ge_None_2 by lia.
Qed.

(** * Paths *)

Definition slash : Z := 47.
Definition dot : Z := 46.

(** [while ( *path == '/') path++;] *)
Fixpoint skip_slashes (path : list Z) : list Z :=
  match path with
  | c :: p => if c =? slash then skip_slashes p else path
  | [] => []
  end.

(** [while ( *path != '/' && *path != 0) path++;]: the characters passed and the
    rest. *)
Fixpoint split_elem (path : list Z) : list Z * list Z :=
  match path with
  | c :: p => if negb (c =? slash) then let '(e, r) := split_elem p in (c :: e, r) else ([], path)
  | [] => ([], [])
  end.

(** The rest of the path and the new content of the 14 bytes at [name]; [None]
    is NULL. *)
Definition skipelem (path name : list Z) : option (list Z * list Z) :=
  match skip_slashes path with
  | [] => None
  | path =>
      let '(s, path) := split_elem path in
      let len := Z.of_nat (length s) in
      let name := if len >=? FILE_NAME_MAX_LENGTH then splice name 0 (take 14 s)
                  else splice name 0 (s ++ [0]) in
      Some (skip_slashes path, name)
  end.

(** The elements of a path: the maximal runs of characters other than '/'. *)
Fixpoint components (path : list Z) : list (list Z) :=
  match path with
  | [] => []
  | c :: p =>
      if c =? slash then components p
      else match p with
           | [] => [[c]]
           | d :: _ => if d =? slash then [c] :: components p
                       else match components p with e :: es => (c :: e) :: es | [] => [[c]] end
           end
  end.

Lemma components_skip path : components (skip_slashes path) = components path.
Proof. induction path as [|c p IH]; [done |]. cbn [skip_slashes]. destruct (c =? slash) eqn:E; [| done]. cbn. by rewrite E. Qed.

Lemma skip_slashes_head path : match skip_slashes path with c :: _ => c <> slash | [] => True end.
Proof. induction path as [|c p IH]; cbn; [done |]. destruct (Z.eqb_spec c slash); done. Qed.

Lemma skip_slashes_suffix path : exists pre, path = pre ++ skip_slashes path.
Proof.
  induction path as [|c p [pre IH]]; [by exists [] |]. cbn. destruct (c =? slash); [| by exists []].
  exists (c :: pre). cbn. by rewrite <- IH.
Qed.

Lemma split_elem_app path : forall s r, split_elem path = (s, r) -> path = s ++ r.
Proof.
  induction path as [|c p IH]; intros s r; cbn; [by intros [= <- <-] |].
  destruct (negb (c =? slash)); [| by intros [= <- <-]].
  destruct (split_elem p) as [s' r']. intros [= <- <-]. cbn. f_equal. by apply IH.
Qed.

Lemma split_elem_components path : forall c p s r, path = c :: p -> c <> slash -> split_elem path = (s, r) ->
  components path = s :: components r /\ s <> [].
Proof.
  induction path as [|c' path IH]; intros c p s r [= -> ->] Hc; cbn [split_elem components].
  rewrite (proj2 (Z.eqb_neq c slash)) by done. cbn [negb].
  destruct p as [|d p]; [cbn; by intros [= <- <-] |].
  destruct (split_elem (d :: p)) as [s' r'] eqn:Es. intros [= <- <-].
  destruct (d =? slash) eqn:Ed.
  - cbn in Es. rewrite Ed in Es. by injection Es as <- <-.
  - apply Z.eqb_neq in Ed. destruct (IH d p s' r' eq_refl Ed eq_refl) as [-> _]. done.
Qed.

(** The name stored by skipelem. *)
Lemma stored_name s name : 0 ∉ s -> length name = 14%nat ->
  let name' := if Z.of_nat (length s) >=? FILE_NAME_MAX_LENGTH then splice name 0 (take 14 s) else splice name 0 (s ++ [0]) in
  cstring 14 name' = take 14 s /\ length name' = 14%nat.
Proof.
  intros H0 Hn. unfold FILE_NAME_MAX_LENGTH. rewrite Z.geb_leb. destruct (Z.leb_spec 14 (Z.of_nat (length s))).
  - rewrite splice_full by (rewrite length_take; lia). split; [| rewrite length_take; lia].
    apply cstring_id; [rewrite length_take; lia |]. intros (i & Hi%list_elem_of_lookup_2 & _)%elem_of_take. done.
  - split; [| rewrite length_splice; [done | rewrite length_app; cbn; lia]]. 
    replace (splice name 0 (s ++ [0])) with (s ++ 0 :: drop (length s + 1) name)
      by (unfold splice; rewrite length_app, <- app_assoc; by rewrite take_0).
    rewrite cstring_app by (lia || done). by rewrite take_ge by lia.
Qed.

(** ** Property *)

(** Skipelem splits a path into its elements.  It returns NULL exactly for
    a path without elements; otherwise it stores the first element, cut to the
    14 bytes of a name, and returns a shorter path with the remaining elements,
    which starts with no slash, so it is empty exactly when the element was the
    last one. *)
Theorem skipelem_components (path name : list Z) (Hp : 0 ∉ path) (Hn : length name = 14%nat) :
  match skipelem path name with
  | None => components path = []
  | Some (rest, name') => exists e, components path = e :: components rest /\ e <> [] /\
      cstring 14 name' = take 14 e /\ length name' = 14%nat /\
      (length rest < length path)%nat /\ hd dot rest <> slash /\
      (rest = [] <-> components rest = [])
  end.
Proof.
  unfold skipelem. pose proof (skip_slashes_head path) as Hh. pose proof (components_skip path) as Ec.
  destruct (skip_slashes_suffix path) as [pre Epre].
  destruct (skip_slashes path) as [|c p] eqn:Es; [by rewrite <- Ec |].
  destruct (split_elem (c :: p)) as [s r] eqn:El.
  destruct (split_elem_components _ c p s r eq_refl Hh El) as [E Hs].
  pose proof (split_elem_app _ _ _ El) as Eapp.
  assert (H0 : 0 ∉ s) by (intros Hin; apply Hp; rewrite Epre, Eapp; set_solver).
  destruct (stored_name s name H0 Hn) as [E1 E2].
  destruct (skip_slashes_suffix r) as [pre' Epre']. pose proof (skip_slashes_head r) as Hh'.
  exists s. rewrite components_skip. split_and!; [congruence | done | done | done | | | ].
  - apply (f_equal length) in Epre, Eapp, Epre'. rewrite length_app in Epre, Eapp, Epre'.
    destruct s; [done |]. cbn in *. lia.
  - destruct (skip_slashes r); cbn; done.
  - rewrite <- (components_skip r). destruct (skip_slashes r) as [|d q] eqn:Er; [done |]. split; [done |].
    destruct (split_elem (d :: q)) as [s' r'] eqn:El'.
    destruct (split_elem_components _ d q s' r' eq_refl Hh' El') as [-> _]. done.
Qed.

(** The examples of the comment on skipelem: "///a//bb" and "////". *)
Lemma skipelem_components_witness :
  skipelem [47; 47; 47; 97; 47; 47; 98; 98] (replicate 14 1) = Some ([98; 98], 97 :: 0 :: replicate 12 1) /\
  skipelem [47; 47; 47; 47] (replicate 14 1) = None /\ components [47; 47; 47; 47] = [] /\
  exists e, components [47; 47; 47; 97; 47; 47; 98; 98] = e :: components [98; 98] /\ e = [97].
Proof.
  split_and!; [reflexivity | reflexivity | |].
  - exact (skipelem_components [47; 47; 47; 47] (replicate 14 1) ltac:(by apply (bool_decide_unpack _)) eq_refl).
  - destruct (skipelem_components [47; 47; 47; 97; 47; 47; 98; 98] (replicate 14 1)
      ltac:(by apply (bool_decide_unpack _)) eq_refl) as (e & E & _ & E' & _).
    exists e. split; [exact E |]. vm_compute in E. by injection E as <-.
Defined.
