(* ===== verification/Format.v ===== *)
(** common/format.c: formatted printing.  A format string and the strings it
    prints are in memory; the variable arguments are the list of the 8-byte
    slots [va_arg] takes them from.  The static buffer [buf] of [_print_int] is
    passed from call to call. *)
From S2P Require Import Prelude Bytes CString Path.

(** * The code *)

(** [static char digit[] = "0123456789abcdef"]. *)
Definition digit : list Z := [48; 49; 50; 51; 52; 53; 54; 55; 56; 57; 97; 98; 99; 100; 101; 102].

(** [static char buf[64]]. *)
Definition BUF_SIZE : Z := 64.

(** A store behind the buffer is a fault, so 65 rounds are never used up. *)
Definition digit_rounds : nat := 65.

(** [do *pos++ = digit[v % base]; while (v /= base);] *)
Fixpoint put_digits (n : nat) (buf : list Z) (pos v base : Z) : outcome (list Z * Z) :=
  match n with
  | O => OutOfFuel
  | S n' =>
      if pos <? BUF_SIZE then
        let buf := zset buf pos (zget digit (v mod base)) in
        let v := v / base in
        if v =? 0 then Ret (buf, pos + 1) else put_digits n' buf (pos + 1) v base
      else Fault
  end.

(** The cases of [_INT_CASE], in the order of the code: the identifier, the
    type the argument is read with, the base and whether it is signed. *)
Definition INT_CASES : list (list Z * (Z -> Z) * Z * bool) :=
  [([117], u32, 10, false);            (* u *)
   ([108; 108; 117], u64, 10, false);  (* llu *)
   ([100], i32, 10, true);             (* d *)
   ([108; 108; 100], i64, 10, true);   (* lld *)
   ([120], u32, 16, false);            (* x *)
   ([108; 108; 120], u64, 16, false);  (* llx *)
   ([112], u64, 16, false);            (* p *)
   ([122; 117], u64, 10, false);       (* zu *)
   ([122; 100], i64, 10, true)].       (* zd *)

(** "(null)" *)
Definition null_string : list Z := [40; 110; 117; 108; 108; 41].

Section format.
(** [put_char(ctx, c)], the memory, and a bound on the length of strings. *)
Context {S : Type} (put_char : Z -> M S unit) (m : mem) (fuel : nat).

(** [do put_char(ctx, *(--pos)); while (pos != buf);] *)
Fixpoint put_back (buf : list Z) (pos : nat) : M S unit :=
  match pos with
  | O => fault
  | Datatypes.S pos' =>
      put_char (zget buf (Z.of_nat pos'));;
      match pos' with O => mret tt | _ => put_back buf pos' end
  end.

(** The result is the new content of [buf]. *)
Definition _print_int (buf : list Z) (u _base : Z) (is_signed : bool) : M S (list Z) :=
  let v := u64 u in
  let base := u64 _base in
  v ← (if is_signed && (u <? 0) then put_char 45;; mret (u64 (- v)) else mret v);
  '(buf, pos) ← lift (put_digits digit_rounds buf 0 v base);
  put_back buf (Z.to_nat pos);;
  mret buf.

(** [va_arg(arg, type)]: the next slot; the caller reads it with the type. *)
Definition va_arg (args : list Z) : M S (Z * list Z) :=
  match args with
  | x :: args' => mret (x, args')
  | [] => fault
  end.

(** The else-if chain of the integer cases. *)
Fixpoint int_case (cases : list (list Z * (Z -> Z) * Z * bool)) (pos : Z) : option (list Z * (Z -> Z) * Z * bool) :=
  match cases with
  | [] => None
  | case :: cases' =>
      let ident := case.1.1.1 in
      let n := length ident in
      if strncmp_list (read_bytes m pos n) ident (Z.of_nat n) =? 0 then Some case else int_case cases' pos
  end.

(** [while (s[0] != 0) put_char(ctx, *s++);] *)
Fixpoint put_string (n : nat) (s : Z) : M S unit :=
  match n with
  | O => lift OutOfFuel
  | Datatypes.S n' => if m s =? 0 then mret tt else put_char (m s);; put_string n' (s + 1)
  end.

(** The same loop over the literal "(null)". *)
Fixpoint put_literal (l : list Z) : M S unit :=
  match l with
  | [] => mret tt
  | c :: l' => put_char c;; put_literal l'
  end.

Fixpoint vformat_loop (n : nat) (pos : Z) (args buf : list Z) : M S (list Z) :=
  match n with
  | O => lift OutOfFuel
  | Datatypes.S n' =>
      let c := m pos in
      let pos := pos + 1 in
      if c =? 0 then mret buf
      else if c =? 37 then
        if m pos =? 37 then put_char 37;; vformat_loop n' (pos + 1) args buf
        else if m pos =? 99 then
          '(x, args) ← va_arg args;
          put_char (u8 x);;
          vformat_loop n' (pos + 1) args buf
        else if m pos =? 115 then
          '(s, args) ← va_arg args;
          (if s =? 0 then put_literal null_string else put_string fuel s);;
          vformat_loop n' (pos + 1) args buf
        else
          match int_case INT_CASES pos with
          | Some (ident, type, base, sign) =>
              '(x, args) ← va_arg args;
              buf ← _print_int buf (i64 (type x)) base sign;
              vformat_loop n' (pos + Z.of_nat (length ident)) args buf
          | None => put_char c;; vformat_loop n' pos args buf
          end
      else put_char c;; vformat_loop n' pos args buf
  end.

Definition vformat (fmt : Z) (args buf : list Z) : M S (list Z) := vformat_loop fuel fmt args buf.

(** [format] is [vformat] on its own variable arguments. *)
Definition format (fmt : Z) (args buf : list Z) : M S (list Z) := vformat fmt args buf.
End format.

(** * What a format string means *)

(** The conversions, with the width and sign of the argument. *)
Inductive conversion :=
  | Percent | Char | Str
  | U | LLU | D | LLD | X | LLX | P | ZU | ZD.

#[export] Instance conversion_eq_dec : EqDecision conversion.
Proof. solve_decision. Defined.

Definition conversions : list conversion := [Percent; Char; Str; U; LLU; D; LLD; X; LLX; P; ZU; ZD].

(** How a conversion is written after the percent sign. *)
Definition spelling (k : conversion) : list Z :=
  match k with
  | Percent => [37] | Char => [99] | Str => [115]
  | U => [117] | LLU => [108; 108; 117] | D => [100] | LLD => [108; 108; 100]
  | X => [120] | LLX => [108; 108; 120] | P => [112] | ZU => [122; 117] | ZD => [122; 100]
  end.

(** A format string is a sequence of ordinary characters, conversions, and
    percent signs that begin no conversion. *)
Inductive piece :=
  | Plain (c : Z)
  | Lone
  | Conv (k : conversion).

Definition spell (p : piece) : list Z :=
  match p with
  | Plain c => [c]
  | Lone => [37]
  | Conv k => 37 :: spelling k
  end.

Definition spells (ds : list piece) : list Z := concat (map spell ds).

Fixpoint well_formed (ds : list piece) : Prop :=
  match ds with
  | [] => True
  | Plain c :: ds' => c <> 0 /\ c <> 37 /\ well_formed ds'
  | Lone :: ds' => (forall k, ~ spelling k `prefix_of` spells ds') /\ well_formed ds'
  | Conv _ :: ds' => well_formed ds'
  end.

(** The value of a digit. *)
Definition digit_value (c : Z) : Z := if c <? 58 then c - 48 else c - 87.

(** The number a row of digits stands for. *)
Definition numeral_value (base : Z) (l : list Z) : Z := foldl (fun v c => v * base + digit_value c) 0 l.

(** [l] is the numeral of [v]: digits below the base, no leading zero. *)
Definition numeral (base v : Z) (l : list Z) : Prop :=
  l <> [] /\ Forall (fun c => c ∈ digit /\ 0 <= digit_value c < base) l /\
  numeral_value base l = v /\ (head l = Some 48 -> l = [48]).

Definition signed_numeral (base v : Z) (l : list Z) : Prop :=
  if v <? 0 then exists l', l = 45 :: l' /\ numeral base (- v) l' else numeral base v l.

(** The base and the number an integer conversion prints for a slot. *)
Definition conv_int (k : conversion) (x : Z) : Z * Z :=
  match k with
  | U => (10, u32 x)
  | LLU | ZU => (10, u64 x)
  | D => (10, i32 x)
  | LLD | ZD => (10, i64 x)
  | X => (16, u32 x)
  | _ => (16, u64 x)
  end.

Section meaning.
Context (m : mem).

(** The string [l] is at [a], with its NUL. *)
Definition string_at (a : Z) (l : list Z) : Prop :=
  Forall (fun c => c <> 0) l /\ read_bytes m a (length l) = l /\ m (a + Z.of_nat (length l)) = 0.

(** [renders k x l]: the conversion [k] of the slot [x] prints [l]. *)
Definition renders (k : conversion) (x : Z) (l : list Z) : Prop :=
  match k with
  | Percent => l = [37]
  | Char => l = [u8 x]
  | Str => if x =? 0 then l = null_string else string_at x l
  | _ => let '(base, v) := conv_int k x in signed_numeral base v l
  end.

(** [prints ds args out]: the pieces print [out] and there are enough arguments. *)
Inductive prints : list piece -> list Z -> list Z -> Prop :=
  | prints_nil args : prints [] args []
  | prints_plain c ds args out : prints ds args out -> prints (Plain c :: ds) args (c :: out)
  | prints_lone ds args out : prints ds args out -> prints (Lone :: ds) args (37 :: out)
  | prints_percent ds args out : prints ds args out -> prints (Conv Percent :: ds) args (37 :: out)
  | prints_conv k x ds args l out : k <> Percent -> renders k x l ->
      prints ds args out -> prints (Conv k :: ds) (x :: args) (l ++ out).

(** Each conversion but %% has an argument; one of %s is NULL or a string
    shorter than [fuel]. *)
Fixpoint arguments (fuel : nat) (ds : list piece) (args : list Z) : Prop :=
  match ds, args with
  | [], _ => True
  | Conv Percent :: ds', _ | Plain _ :: ds', _ | Lone :: ds', _ => arguments fuel ds' args
  | Conv k :: ds', x :: args' =>
      (k = Str -> x = 0 \/ exists l, string_at x l /\ (length l < fuel)%nat) /\ arguments fuel ds' args'
  | Conv _ :: _, [] => False
  end.
End meaning.

(** * Sequences of calls of [put_char] *)

Section sequences.
Context {S : Type}.

Lemma bind_ext {A B} (c : M S A) (k k' : A -> M S B) s :
  (forall a s', k a s' = k' a s') -> (c ≫= k) s = (c ≫= k') s.
Proof. intros H. unfold mbind, M_bind. destruct (c s) as [[a s']| | | |]; auto. Qed.

Lemma bind_rw {A B} (c c' : M S A) (k : A -> M S B) s : c s = c' s -> (c ≫= k) s = (c' ≫= k) s.
Proof. intros H. unfold mbind, M_bind. by rewrite H. Qed.

Lemma bind_assoc {A B C} (c : M S A) (f : A -> M S B) (g : B -> M S C) s :
  ((c ≫= f) ≫= g) s = (c ≫= (fun a => f a ≫= g)) s.
Proof. unfold mbind, M_bind. by destruct (c s) as [[a s']| | | |]. Qed.

Lemma put_literal_app (put_char : Z -> M S unit) l1 l2 {A} (k : M S A) s :
  (put_literal put_char (l1 ++ l2);; k) s = (put_literal put_char l1;; put_literal put_char l2;; k) s.
Proof.
  revert s. induction l1 as [|c l1 IH]; intros s; cbn [app put_literal]; [done |].
  rewrite !bind_assoc. apply bind_ext. intros ? s'. apply IH.
Qed.
End sequences.

(** * Integers *)

Section integers.
Context (base : Z).
Hypothesis base_ok : 2 <= base <= 16.

Lemma digit_correct d : 0 <= d < base -> zget digit d ∈ digit /\ digit_value (zget digit d) = d.
Proof.
  intros H. assert (Hd : d ∈ seqZ 0 16) by (apply elem_of_seqZ; lia).
  clear H. revert d Hd. clear. apply Forall_forall. apply (bool_decide_unpack _). vm_compute. exact I.
Qed.

Lemma numeral_one v : 0 <= v < base -> numeral base v [zget digit v].
Proof.
  intros Hv. destruct (digit_correct v Hv) as [Hin Hval].
  split; [done |]. split; [constructor; [by rewrite Hval | constructor] |].
  unfold numeral_value. cbn [foldl]. rewrite Hval. split; [lia |]. cbn [head]. congruence.
Qed.

Lemma numeral_snoc v l : 0 < v -> v / base <> 0 ->
  numeral base (v / base) l -> numeral base v (l ++ [zget digit (v mod base)]).
Proof.
  intros Hv Hd (Hne & Hall & Hval & Hzero).
  assert (Hm : 0 <= v mod base < base) by (apply Z.mod_pos_bound; lia).
  destruct (digit_correct _ Hm) as [Hin Hdig].
  split; [by destruct l |]. split.
  { apply Forall_app. split; [done |]. constructor; [by rewrite Hdig | constructor]. }
  unfold numeral_value in *. rewrite foldl_app, Hval. cbn [foldl]. rewrite Hdig.
  split; [pose proof (Z.div_mod v base); lia |].
  intros Hh. exfalso. apply Hd. rewrite <- Hval. destruct l as [|c l]; [done |].
  cbn in Hh. simplify_eq. rewrite Hzero by done. reflexivity.
Qed.

(** The digits are stored from the lowest one on, and fit into the buffer. *)
Lemma put_digits_ok n : forall buf pos v,
  0 <= pos < BUF_SIZE -> 0 <= v < 2 ^ (BUF_SIZE - pos) ->
  BUF_SIZE - pos < Z.of_nat n -> length buf = Z.to_nat BUF_SIZE ->
  exists buf' l, put_digits n buf pos v base = Ret (buf', pos + Z.of_nat (length l)) /\
    length buf' = Z.to_nat BUF_SIZE /\ pos + Z.of_nat (length l) <= BUF_SIZE /\
    take (Z.to_nat pos + length l) buf' = take (Z.to_nat pos) buf ++ l /\
    numeral base v (reverse l).
Proof.
  induction n as [|n IH]; intros buf pos v Hpos Hv Hn Hlen; [lia |].
  cbn [put_digits]. rewrite (proj2 (Z.ltb_lt _ _)) by lia.
  set (buf1 := zset _ _ _). assert (Hlen1 : length buf1 = Z.to_nat BUF_SIZE) by (unfold buf1; by rewrite length_zset).
  assert (Htake : take (Z.to_nat pos + 1) buf1 = take (Z.to_nat pos) buf ++ [zget digit (v mod base)]).
  { unfold buf1, zset. rewrite Nat.add_1_r, (take_S_r _ _ (zget digit (v mod base))).
    - by rewrite take_insert_ge by lia.
    - apply list_lookup_insert_eq. unfold BUF_SIZE in *. lia. }
  destruct (Z.eqb_spec (v / base) 0) as [E|E].
  - exists buf1, [zget digit (v mod base)]. cbn [length]. split_and!; [done | done | lia | done |].
    apply Z.div_small_iff in E as [E|E]; [| lia | lia]. rewrite Z.mod_small by lia. by apply numeral_one.
  - assert (Hdiv : 0 < v / base) by (pose proof (Z.div_pos v base); lia).
    assert (Hhalf : v / base < 2 ^ (BUF_SIZE - (pos + 1))).
    { apply Z.div_lt_upper_bound; [lia |].
      replace (BUF_SIZE - pos) with (1 + (BUF_SIZE - (pos + 1))) in Hv by lia.
      destruct (decide (pos + 1 <= BUF_SIZE)); [| lia].
      rewrite Z.pow_add_r in Hv by lia. nia. }
    destruct (decide (pos + 1 = BUF_SIZE)) as [Ep|Ep].
    { rewrite Ep, Z.sub_diag in Hhalf. cbn in Hhalf. lia. }
    destruct (IH buf1 (pos + 1) (v / base)) as (buf' & l & -> & Hl' & Hle & Ht & Hnum); [lia | lia | lia | done |].
    exists buf', (zget digit (v mod base) :: l). cbn [length].
    split_and!; [do 2 f_equal; lia | done | lia | |].
    + replace (Z.to_nat (pos + 1)) with (Z.to_nat pos + 1)%nat in Ht by lia.
      rewrite Htake in Ht. rewrite <- app_assoc in Ht. cbn [app] in Ht. rewrite <- Ht. f_equal. lia.
    + rewrite reverse_cons. apply numeral_snoc; [| done | done]. destruct (decide (v = 0)) as [->|]; [| lia].
      by rewrite Zdiv_0_l in E.
Qed.

Lemma put_back_ok {S} (put_char : Z -> M S unit) buf n s : (0 < n <= length buf)%nat ->
  put_back put_char buf n s = put_literal put_char (reverse (take n buf)) s.
Proof.
  revert s. induction n as [|n IH]; intros s Hn; [lia |]. cbn [put_back].
  destruct (lookup_lt_is_Some_2 buf n) as [c Hc]; [lia |].
  rewrite (take_S_r _ _ c) by done. rewrite reverse_app. cbn [reverse app put_literal].
  rewrite (zget_lookup_nat _ _ _ Hc). apply bind_ext. intros _ s'.
  destruct n as [|n]; [done |]. apply IH. lia.
Qed.

(** _print_int prints the number, in its sign and base. *)
Lemma print_int_ok {S} (put_char : Z -> M S unit) buf u (is_signed : bool) :
  - 2 ^ 63 <= u < 2 ^ 63 -> length buf = Z.to_nat BUF_SIZE ->
  exists l buf', signed_numeral base (if is_signed then u else u64 u) l /\
    length buf' = Z.to_nat BUF_SIZE /\
    forall s, _print_int put_char buf u base is_signed s = (put_literal put_char l;; mret buf') s.
Proof.
  intros Hu Hlen. set (neg := is_signed && (u <? 0)).
  set (v := if neg then - u else u64 u).
  assert (Hv : 0 <= v < 2 ^ 64).
  { unfold v, neg, u64. destruct is_signed, (Z.ltb_spec u 0); cbn [andb]; try (apply Z.mod_pos_bound; lia); lia. }
  destruct (put_digits_ok digit_rounds buf 0 v) as (buf' & l & Hdig & Hlen' & Hle & Htake & Hnum);
    [done | done | done | done |].
  assert (Hl : l <> []) by (intros ->; by destruct Hnum).
  change (take (length l) buf' = l) in Htake.
  exists ((if neg then [45] else []) ++ reverse l), buf'. split_and!; [| done |].
  - unfold signed_numeral, v, neg in *. clear - Hnum Hu.
    destruct is_signed; cbn [andb] in *.
    + destruct (Z.ltb_spec u 0); [by eexists |]. unfold u64 in Hnum. by rewrite Z.mod_small in Hnum by lia.
    + by rewrite (proj2 (Z.ltb_ge _ _)) by (apply Z.mod_pos_bound; lia).
  - assert (Htail : forall s, ('(b, pos) ← lift (put_digits digit_rounds buf 0 v base);
        put_back put_char b (Z.to_nat pos);; mret b) s = (put_literal put_char (reverse l);; mret buf') s).
    { intros s. unfold lift at 1, mbind at 1, M_bind at 1. rewrite Hdig. cbn [mbind outcome_bind].
      apply bind_rw. rewrite Z.add_0_l, Nat2Z.id, put_back_ok; [by rewrite Htake |].
      rewrite Hlen'. destruct l; [done |]. cbn [length] in *. unfold BUF_SIZE in *. lia. }
    intros s. unfold _print_int. fold neg. replace (u64 base) with base by (symmetry; apply Z.mod_small; lia).
    destruct neg eqn:E; [| apply Htail]. cbn [app put_literal]. rewrite !bind_assoc.
    apply bind_ext. intros _ s'. rewrite <- Htail.
    replace v with (u64 (- u64 u)); [done |]. unfold v, u64.
    rewrite <- (Z.sub_0_l (u mod 2 ^ 64)), Zminus_mod_idemp_r. apply Z.mod_small.
    apply andb_true_iff in E as [_ E%Z.ltb_lt]. lia.
Qed.
End integers.

(** * Strings in memory *)

Lemma string_at_nil m a : string_at m a [] -> m a = 0.
Proof. intros (_ & _ & H). cbn [length] in H. by rewrite Z.add_0_r in H. Qed.

Lemma string_at_cons m a c l : string_at m a (c :: l) -> m a = c /\ c <> 0 /\ string_at m (a + 1) l.
Proof.
  intros (Hnz & Hr & Hend). inversion Hnz; subst. cbn [length read_bytes] in *.
  injection Hr as Hc Hr. split; [done |]. split; [done |]. split_and!; [done | done |].
  rewrite <- Hend. f_equal. lia.
Qed.

Lemma string_at_app m a l1 l2 : string_at m a (l1 ++ l2) ->
  read_bytes m a (length l1) = l1 /\ string_at m (a + Z.of_nat (length l1)) l2.
Proof.
  revert a. induction l1 as [|c l1 IH]; intros a H.
  - cbn [length app] in *. by rewrite Z.add_0_r.
  - apply string_at_cons in H as (Hc & _ & [Hr H]%IH). cbn [length read_bytes]. rewrite Hr, Hc.
    split; [done |]. replace (a + _) with (a + 1 + Z.of_nat (length l1)) by lia. done.
Qed.

(** What is read at a string and has no NUL is a prefix of it. *)
Lemma string_at_prefix m l : forall a id, string_at m a l -> Forall (fun c => c <> 0) id ->
  read_bytes m a (length id) = id -> id `prefix_of` l.
Proof.
  induction l as [|c l IH]; intros a id Hs Hid Hr; destruct id as [|d id]; try apply prefix_nil.
  - apply string_at_nil in Hs. inversion Hid; subst. cbn in Hr. congruence.
  - apply string_at_cons in Hs as (Hc & _ & Hs). inversion Hid; subst. cbn in Hr. injection Hr as -> Hr.
    apply prefix_cons. by eapply IH.
Qed.

Lemma put_string_ok {S} (put_char : Z -> M S unit) m l : forall n a s, string_at m a l -> (length l < n)%nat ->
  put_string put_char m n a s = put_literal put_char l s.
Proof.
  induction l as [|c l IH]; intros n a s Hs Hn; destruct n as [|n]; [lia | | lia |]; cbn [put_string put_literal].
  - by rewrite (string_at_nil _ _ Hs).
  - apply string_at_cons in Hs as (-> & Hc & Hs). rewrite (proj2 (Z.eqb_neq _ _)) by done.
    apply bind_ext. intros _ s'. apply IH; [done |]. cbn [length] in Hn. lia.
Qed.

(** * Conversions *)

Lemma cstring_full n l : length l = n -> length (cstring n l) = n -> cstring n l = l.
Proof.
  revert l. induction n as [|n IH]; intros [|c l] Hl Hc; cbn in *; try done.
  destruct (c =? 0); [done |]. cbn in Hc. f_equal. apply IH; lia.
Qed.

Lemma cstring_nonzero l : Forall (fun c => c <> 0) l -> cstring (length l) l = l.
Proof.
  induction 1 as [|c l Hc _ IH]; [done |]. cbn. by rewrite (proj2 (Z.eqb_neq _ _)), IH by done.
Qed.

(** strncmp with a literal reads the literal. *)
Lemma strncmp_literal m a id : Forall (fun c => c <> 0) id -> Z.of_nat (length id) < 2 ^ 20 ->
  (strncmp_list (read_bytes m a (length id)) id (Z.of_nat (length id)) =? 0) =
  bool_decide (read_bytes m a (length id) = id).
Proof.
  intros Hid Hlen.
  destruct (strncmp_list_spec (read_bytes m a (length id)) id (Z.of_nat (length id))) as [H1 H2];
    [by rewrite length_read_bytes | lia |].
  rewrite Nat2Z.id, (cstring_nonzero id) in * by done.
  case_bool_decide as E.
  - apply Z.eqb_eq, H2. rewrite E. by apply cstring_nonzero.
  - apply Z.eqb_neq. intros H%H1. apply E. rewrite <- H at 2. symmetry.
    apply cstring_full; [apply length_read_bytes | by rewrite H].
Qed.

(** The row of the table for an integer conversion. *)
Definition int_row (k : conversion) : option (list Z * (Z -> Z) * Z * bool) :=
  match k with
  | Percent | Char | Str => None
  | U => INT_CASES !! 0%nat | LLU => INT_CASES !! 1%nat | D => INT_CASES !! 2%nat
  | LLD => INT_CASES !! 3%nat | X => INT_CASES !! 4%nat | LLX => INT_CASES !! 5%nat
  | P => INT_CASES !! 6%nat | ZU => INT_CASES !! 7%nat | ZD => INT_CASES !! 8%nat
  end.

Lemma int_row_ident k row : int_row k = Some row -> row.1.1.1 = spelling k.
Proof. destruct k; cbn; intros [= <-]; done. Qed.

Lemma spelling_nonzero k : Forall (fun c => c <> 0) (spelling k).
Proof. destruct k; repeat constructor; lia. Qed.

Ltac int_cases :=
  cbn [int_case INT_CASES fst]; rewrite !strncmp_literal by first [by repeat constructor | done].

(** The chain finds the conversion that is spelled there. *)
Lemma int_case_found m pos k rest row : string_at m pos (spelling k ++ rest) -> int_row k = Some row ->
  int_case m INT_CASES pos = Some row.
Proof.
  intros [Hr _]%string_at_app Hrow.
  destruct k; cbn in Hrow; try discriminate; injection Hrow as <-; cbn in Hr; injection Hr; intros; int_cases;
    cbn [length read_bytes]; repeat (case_bool_decide; [first [reflexivity | congruence] |]); congruence.
Qed.

Lemma int_case_none m pos l : string_at m pos l -> (forall k, ~ spelling k `prefix_of` l) ->
  int_case m INT_CASES pos = None.
Proof.
  intros Hs Hno.
  assert (Hm : forall k, read_bytes m pos (length (spelling k)) <> spelling k).
  { intros k Hr. apply (Hno k). eapply string_at_prefix; [done | apply spelling_nonzero | done]. }
  int_cases.
  rewrite (bool_decide_eq_false_2 _ (Hm U)), (bool_decide_eq_false_2 _ (Hm LLU)), (bool_decide_eq_false_2 _ (Hm D)),
    (bool_decide_eq_false_2 _ (Hm LLD)), (bool_decide_eq_false_2 _ (Hm X)), (bool_decide_eq_false_2 _ (Hm LLX)),
    (bool_decide_eq_false_2 _ (Hm P)), (bool_decide_eq_false_2 _ (Hm ZU)), (bool_decide_eq_false_2 _ (Hm ZD)).
  done.
Qed.

(** The first character of a conversion that is not an integer one. *)
Lemma lone_head m pos l c : string_at m pos l -> (forall k, ~ spelling k `prefix_of` l) ->
  c = 37 \/ c = 99 \/ c = 115 -> (m pos =? c) = false.
Proof.
  intros Hs Hno Hc'. apply Z.eqb_neq. intros Hm.
  destruct l as [|d l]; [apply string_at_nil in Hs; lia |].
  apply string_at_cons in Hs as (Hd & _ & _). rewrite Hm in Hd. subst d.
  destruct Hc' as [E|[E|E]]; rewrite E in Hno; [apply (Hno Percent) | apply (Hno Char) | apply (Hno Str)];
    apply prefix_cons, prefix_nil.
Qed.

(** The number a row prints. *)
Lemma int_row_value k row x : int_row k = Some row ->
  let '(_, type, base, sign) := row in
  2 <= base <= 16 /\ - 2 ^ 63 <= i64 (type x) < 2 ^ 63 /\
  conv_int k x = (base, if (sign : bool) then i64 (type x) else u64 (i64 (type x))).
Proof.
  pose proof (i32_bound x) as H32. pose proof (i64_bound x) as H64.
  assert (Hu : 0 <= u32 x < 2 ^ 32) by (apply Z.mod_pos_bound; lia).
  intros Hrow. destruct k; cbn in Hrow; try discriminate; injection Hrow as <-;
    (split; [lia |]; split; [apply i64_bound |]); cbn [conv_int]; f_equal;
    rewrite ?u64_i64, ?(i64_small (i64 x)), ?(i64_small (i32 x)) by lia; try done.
  all: unfold u64, u32; rewrite ?Zmod_mod; try done.
  all: symmetry; apply Z.mod_small; unfold u32 in Hu; lia.
Qed.

(** * The loop *)

Section loop.
Context {S : Type} (put_char : Z -> M S unit) (m : mem) (fuel : nat).

(** [c] prints [l] and returns [b]. *)
Definition writes {B} (c : M S B) (l : list Z) (b : B) : Prop :=
  forall s, c s = (put_literal put_char l;; mret b) s.

Lemma writes_bind {B D} (c : M S B) (k : B -> M S D) l b out d :
  writes c l b -> writes (k b) out d -> writes (c ≫= k) (l ++ out) d.
Proof.
  intros Hc Hk s. rewrite (bind_rw _ _ _ _ (Hc s)), bind_assoc, put_literal_app.
  apply bind_ext. intros _ s'. apply Hk.
Qed.

Lemma writes_literal l : writes (put_literal put_char l) l tt.
Proof.
  intros s. unfold mbind, M_bind. by destruct (put_literal put_char l s) as [[[] s']| | | |].
Qed.

Lemma writes_char c : writes (put_char c) [c] tt.
Proof.
  intros s. rewrite <- (writes_literal [c] s). cbn [put_literal]. unfold mbind, M_bind.
  by destruct (put_char c s) as [[[] s']| | | |].
Qed.

Lemma writes_string a l : string_at m a l -> (length l < fuel)%nat -> writes (put_string put_char m fuel a) l tt.
Proof. intros Hs Hl s. rewrite (put_string_ok put_char m l) by done. apply writes_literal. Qed.

(** An argument of a conversion prints what the conversion means. *)
Lemma writes_int k row x buf : int_row k = Some row -> length buf = Z.to_nat BUF_SIZE ->
  let '(_, type, base, sign) := row in
  exists l buf', renders m k x l /\ length buf' = Z.to_nat BUF_SIZE /\
    writes (_print_int put_char buf (i64 (type x)) base sign) l buf'.
Proof.
  intros Hrow Hbuf. pose proof (int_row_value k row x Hrow) as Hval.
  destruct row as [[[id type] base] sign]. destruct Hval as (Hb & Hi & Hc).
  destruct (print_int_ok base Hb put_char buf (i64 (type x)) sign Hi Hbuf) as (l & buf' & Hl & Hlen & Hw).
  exists l, buf'. split_and!; [| done | done]. destruct k; cbn in Hrow; try discriminate; cbn [renders]; by rewrite Hc.
Qed.

(** What the loop does on the rest [ds] of a format. *)
Definition loop_prints (ds : list piece) : Prop := forall n pos args buf,
  string_at m pos (spells ds) -> arguments m fuel ds args -> (length (spells ds) < n)%nat ->
  length buf = Z.to_nat BUF_SIZE ->
  exists out buf', prints m ds args out /\ length buf' = Z.to_nat BUF_SIZE /\
    writes (vformat_loop put_char m fuel n pos args buf) out buf'.

Lemma loop_char ds c (p : piece) : c <> 0 -> spell p = [c] ->
  (forall args out, prints m ds args out -> prints m (p :: ds) args (c :: out)) ->
  (forall args, arguments m fuel (p :: ds) args -> arguments m fuel ds args) ->
  (forall n pos args buf, m pos = c -> string_at m (pos + 1) (spells ds) ->
    vformat_loop put_char m fuel (Datatypes.S n) pos args buf =
    (put_char c;; vformat_loop put_char m fuel n (pos + 1) args buf)) ->
  loop_prints ds -> loop_prints (p :: ds).
Proof.
  intros Hc Hp Hout Hargs Hstep IH n pos args buf Hs Ha Hn Hb.
  change (spells (p :: ds)) with (spell p ++ spells ds) in *. rewrite Hp in *. cbn [app length] in *.
  apply string_at_cons in Hs as (Hm & _ & Hs). destruct n as [|n]; [lia |].
  destruct (IH n (pos + 1) args buf) as (out & buf' & Ho & Hb' & Hw); [done | by apply Hargs | lia | done |].
  exists (c :: out), buf'. split_and!; [by apply Hout | done |]. rewrite Hstep by done.
  apply (writes_bind _ _ [c] tt); [apply writes_char | done].
Qed.
(** One round of the loop at each conversion. *)
Lemma loop_int_step k row rest n pos x args buf : int_row k = Some row ->
  m pos = 37 -> string_at m (pos + 1) (spelling k ++ rest) ->
  let '(ident, type, base, sign) := row in
  vformat_loop put_char m fuel (Datatypes.S n) pos (x :: args) buf =
  (buf ← _print_int put_char buf (i64 (type x)) base sign;
   vformat_loop put_char m fuel n (pos + 1 + Z.of_nat (length (spelling k))) args buf).
Proof.
  intros Hrow Hm Hs. pose proof (int_case_found m (pos + 1) k rest row Hs Hrow) as Hcase.
  pose proof (int_row_ident k row Hrow) as Hid.
  assert (Hh : forall c, c = 37 \/ c = 99 \/ c = 115 -> (m (pos + 1) =? c) = false).
  { intros c Hc. apply Z.eqb_neq. intros Hmc.
    destruct k; cbn in Hrow; try discriminate; apply string_at_cons in Hs as (Hs & _); lia. }
  destruct row as [[[ident type] base] sign]. cbn in Hid. subst ident.
  cbn [vformat_loop]. rewrite Hm. change (37 =? 0) with false. change (37 =? 37) with true. cbv iota.
  by rewrite !Hh, Hcase by auto.
Qed.

Lemma loop_int k row ds : int_row k = Some row -> loop_prints ds -> loop_prints (Conv k :: ds).
Proof.
  intros Hrow IH n pos args buf Hs Ha Hn Hb.
  change (spells (Conv k :: ds)) with (37 :: spelling k ++ spells ds) in *.
  apply string_at_cons in Hs as (Hm & _ & Hs). destruct n as [|n]; [lia |].
  cbn [length] in Hn. rewrite length_app in Hn.
  assert (exists x args', args = x :: args' /\ arguments m fuel ds args') as (x & args' & -> & Ha').
  { destruct k; cbn in Hrow; try discriminate; destruct args; cbn in Ha; try done; eexists _, _; split; try done; tauto. }
  pose proof (loop_int_step k row _ n pos x args' buf Hrow Hm Hs) as Hstep.
  pose proof (writes_int k row x buf Hrow Hb) as Hint.
  destruct row as [[[id type] base] sign]. destruct Hint as (l & buf1 & Hr & Hb1 & Hw).
  apply string_at_app in Hs as [_ Hs].
  destruct (IH n _ args' buf1 Hs Ha') as (out & buf' & Ho & Hb' & Hw'); [lia | done |].
  exists (l ++ out), buf'. split_and!; [| done | by rewrite Hstep; eapply writes_bind].
  apply prints_conv; [| done | done]. by intros ->.
Qed.

(** A conversion of one letter runs one command, which prints its meaning. *)
Lemma loop_letter k c ds : spelling k = [c] ->
  (forall n pos args buf, m pos = 37 -> m (pos + 1) = c -> arguments m fuel (Conv k :: ds) args ->
    exists cmd l args',
      vformat_loop put_char m fuel (Datatypes.S n) pos args buf =
      (cmd;; vformat_loop put_char m fuel n (pos + 1 + 1) args' buf) /\
      writes cmd l tt /\ arguments m fuel ds args' /\
      forall out, prints m ds args' out -> prints m (Conv k :: ds) args (l ++ out)) ->
  loop_prints ds -> loop_prints (Conv k :: ds).
Proof.
  intros Hk Hstep IH n pos args buf Hs Ha Hn Hb.
  change (spells (Conv k :: ds)) with (37 :: spelling k ++ spells ds) in *. rewrite Hk in *.
  apply string_at_cons in Hs as (Hm & _ & Hs). cbn [app length] in *.
  apply string_at_cons in Hs as (Hc & _ & Hs). destruct n as [|n]; [lia |].
  destruct (Hstep n pos args buf Hm Hc Ha) as (cmd & l & args' & Heq & Hw & Ha' & Hout).
  destruct (IH n _ args' buf Hs Ha') as (out & buf' & Ho & Hb' & Hw'); [lia | done |].
  exists (l ++ out), buf'. split_and!; [by apply Hout | done |]. rewrite Heq. by eapply writes_bind.
Qed.

Ltac round Hm Hc := cbn [vformat_loop]; rewrite Hm, Hc; reflexivity.

Lemma loop_conv k ds : loop_prints ds -> loop_prints (Conv k :: ds).
Proof.
  intros IH. destruct (int_row k) as [row|] eqn:Hrow; [by eapply loop_int |].
  destruct k; try discriminate; (eapply loop_letter; [reflexivity | | done]); intros n pos args buf Hm Hc Ha.
  - exists (put_char 37), [37], args. split_and!; [round Hm Hc | apply writes_char | done |].
    intros out Ho. by constructor.
  - destruct args as [|x args]; [done |]. destruct Ha as [_ Ha].
    exists (put_char (u8 x)), [u8 x], args. split_and!; [round Hm Hc | apply writes_char | done |].
    intros out Ho. by apply prints_conv.
  - destruct args as [|x args]; [done |]. destruct Ha as [Hx Ha].
    exists (if x =? 0 then put_literal put_char null_string else put_string put_char m fuel x).
    assert (exists l, renders m Str x l /\
      writes (if x =? 0 then put_literal put_char null_string else put_string put_char m fuel x) l tt) as (l & Hr & Hw).
    { cbn [renders]. destruct (Z.eqb_spec x 0) as [->|Hne]; [by exists null_string; split; [| apply writes_literal] |].
      destruct Hx as [?|(l & Hl & Hlen)]; [done | done |]. exists l. split; [done | by apply writes_string]. }
    exists l, args. split_and!; [round Hm Hc | done | done |]. intros out Ho. by apply prints_conv.
Qed.

Lemma vformat_loop_ok ds : well_formed ds -> loop_prints ds.
Proof.
  induction ds as [|[c| |k] ds IH]; cbn [well_formed]; intros Hwf.
  - intros n pos args buf Hs _ Hn Hb. destruct n as [|n]; [cbn in Hn; lia |].
    exists [], buf. split_and!; [constructor | done |]. intros s. cbn [vformat_loop]. by rewrite (string_at_nil _ _ Hs).
  - destruct Hwf as (Hc0 & Hc & Hwf). apply (loop_char ds c); [done | done | by constructor | done | | by apply IH].
    intros n pos args buf Hm _. cbn [vformat_loop]. rewrite Hm.
    by rewrite (proj2 (Z.eqb_neq c 0) Hc0), (proj2 (Z.eqb_neq c 37) Hc).
  - destruct Hwf as (Hno & Hwf). apply (loop_char ds 37); [done | done | by constructor | done | | by apply IH].
    intros n pos args buf Hm Hs. cbn [vformat_loop]. rewrite Hm.
    rewrite !(lone_head m (pos + 1) (spells ds)) by auto.
    by rewrite (int_case_none m (pos + 1) (spells ds)).
  - by apply loop_conv, IH.
Qed.
End loop.

(** Every string without NUL is a format: a percent sign begins a conversion or
    stands alone. *)
Lemma format_splits l : Forall (fun c => c <> 0) l -> exists ds, well_formed ds /\ spells ds = l.
Proof.
  induction l as [l IH] using (induction_ltof1 _ (@length Z)). unfold ltof in IH. intros Hl.
  destruct l as [|c l]; [by exists [] |]. apply Forall_cons in Hl as [Hc Hl].
  destruct (decide (c = 37)) as [->|Hne].
  - destruct (decide (Exists (fun k => spelling k `prefix_of` l) conversions)) as [(k & _ & [rest Hk])%Exists_exists|Hno].
    + subst l. apply Forall_app in Hl as [_ Hl]. destruct (IH rest) as (ds & Hwf & Hds); [| done |].
      { cbn. rewrite length_app. lia. }
      exists (Conv k :: ds). split; [done |]. change (37 :: spelling k ++ spells ds = 37 :: spelling k ++ rest). by rewrite Hds.
    + destruct (IH l) as (ds & Hwf & Hds); [cbn; lia | done |]. exists (Lone :: ds). subst l. split; [split; [| done] | done].
      intros k Hk. apply Hno, Exists_exists. exists k. split; [| done].
      destruct k; apply (bool_decide_unpack _); reflexivity.
  - destruct (IH l) as (ds & Hwf & Hds); [cbn; lia | done |]. exists (Plain c :: ds). split; [done |].
    change (c :: spells ds = c :: l). by rewrite Hds.
Qed.

(** C32: vformat prints what its format string means.  Every NUL-terminated
    string is a sequence of plain characters, conversions (%% %c %s %u %llu %d
    %lld %x %llx %p %zu %zd) and percent signs that begin no conversion; given
    an argument for each conversion, vformat sends the characters themselves,
    the character or string of the argument ("(null)" for NULL), or the
    numeral of the argument at its width and sign, without leading zeros, to
    put_char, one after the other and nothing else, whatever put_char does.  The
    64 bytes of the digit buffer are enough for every number, so it always
    returns when put_char does. *)
Theorem vformat_prints {S : Type} (put_char : Z -> M S unit) (m : mem) (fuel : nat) (fmt : Z) (l : list Z)
  (Hfmt : string_at m fmt l) (Hfuel : (length l < fuel)%nat) :
  (exists ds, well_formed ds /\ spells ds = l) /\
  (forall ds args buf, well_formed ds -> spells ds = l -> arguments m fuel ds args ->
    length buf = Z.to_nat BUF_SIZE ->
    exists out buf', prints m ds args out /\ length buf' = Z.to_nat BUF_SIZE /\
      forall s, vformat put_char m fuel fmt args buf s = (put_literal put_char out;; mret buf') s).
Proof.
  split; [apply format_splits, Hfmt |]. intros ds args buf Hwf <- Ha Hb.
  by destruct (vformat_loop_ok put_char m fuel ds Hwf fuel fmt args buf) as (out & buf' & H); [.. | exists out, buf'].
Qed.

(** printf("%d: %s%", -7, "ab"). *)
Lemma vformat_prints_witness :
  exists out buf', prints (place [37; 100; 58; 37; 115; 37] 1000 (place [97; 98] 2000 (fun _ => 0)))
      [Conv D; Plain 58; Conv Str; Lone] [2 ^ 64 - 7; 2000] out /\ length buf' = 64%nat /\
    vformat (S := list Z) (fun c s => Ret (tt, s ++ [c]))
      (place [37; 100; 58; 37; 115; 37] 1000 (place [97; 98] 2000 (fun _ => 0))) 10 1000 [2 ^ 64 - 7; 2000]
      (replicate 64 0) [] = Ret (buf', out).
Proof.
  destruct (vformat_prints (S := list Z) (fun c s => Ret (tt, s ++ [c]))
    (place [37; 100; 58; 37; 115; 37] 1000 (place [97; 98] 2000 (fun _ => 0))) 10 1000 [37; 100; 58; 37; 115; 37])
    as [_ H].
  - split_and!; [repeat constructor; lia | reflexivity | reflexivity].
  - cbn. lia.
  - destruct (H [Conv D; Plain 58; Conv Str; Lone] [2 ^ 64 - 7; 2000] (replicate 64 0)) as (out & buf' & Hp & Hb & Hw).
    + cbn. split_and!; try lia; try done. intros [] [x Hx]; discriminate.
    + reflexivity.
    + cbn. split_and!; try done. intros _. right. exists [97; 98]. split; [| cbn; lia].
      split_and!; [repeat constructor; lia | reflexivity | reflexivity].
    + reflexivity.
    + exists out, buf'. split; [done |]. split; [done |]. rewrite Hw. clear.
      assert (E : forall s, put_literal (fun c s => Ret (tt, s ++ [c])) out s = Ret (tt, s ++ out)).
      { induction out as [|c out IH]; intros s; cbn; [by rewrite app_nil_r |].
        unfold mbind, M_bind. by rewrite IH, <- app_assoc. }
      unfold mbind, M_bind. by rewrite E.
Defined.
