(* ===== verification/Printf.v ===== *)
(** core/console.c, the output of the kernel: [puts], [vprintf], [printf] and
    [_panic], which print through the UART under [ctx.lock], and the flag that
    stops every CPU after a panic. *)
From S2P Require Import Prelude Bytes Locks CString Path Format.

(** * The code *)

(** [ctx.lock], [panicked_flag], the bytes sent to the UART and the static
    buffer of common/format.c. *)
Record printer := mkPrinter {
  ctx_lock : SpinLock;
  panicked_flag : bool;
  sent : list Z;
  digits_buf : list Z
}.

Definition set_ctx_lock v (s : printer) := mkPrinter v (panicked_flag s) (sent s) (digits_buf s).
Definition set_panicked_flag v (s : printer) := mkPrinter (ctx_lock s) v (sent s) (digits_buf s).
Definition set_sent v (s : printer) := mkPrinter (ctx_lock s) (panicked_flag s) v (digits_buf s).
Definition set_digits_buf v (s : printer) := mkPrinter (ctx_lock s) (panicked_flag s) (sent s) v.

(** The state after init_console. *)
Definition init_printer : printer := mkPrinter init_spinlock false [] (replicate 64 0).

Definition NEWLINE : Z := 10.
Definition PANIC_BAR_CHAR : Z := 61.
Definition PANIC_BAR_LENGTH : nat := 32.

(** [ctx.device.put], which init_uart_char_device sets to uart_put_char: a
    newline is followed by a carriage return. *)
Definition device_put (c : Z) : M printer unit :=
  modify (fun s => set_sent (sent s ++ (if c =? NEWLINE then [c; 13] else [c])) s).

Section output.
(** The CPU, the memory, a bound on the length of strings, and the addresses of
    the three literals of [_panic]. *)
Context (me : Z) (m : mem) (fuel : nat) (cpu_fmt file_fmt line_fmt : Z).

Definition lock_output : M printer unit :=
  s ← get; l ← lift (acquire_spinlock me (ctx_lock s)); modify (set_ctx_lock l).
Definition unlock_output : M printer unit :=
  s ← get; l ← lift (release_spinlock me (ctx_lock s)); modify (set_ctx_lock l).

(** A call that may end in [no_return]: the result is [None] when the CPU stays there
    for ever, and the state is the one it leaves behind. *)
Definition no_return : M printer (option unit) := mret None.
Definition returned : M printer (option unit) := mret (Some tt).
Definition when_back (c k : M printer (option unit)) : M printer (option unit) :=
  r ← c; match r with Some _ => k | None => mret None end.

Definition check_panicked : M printer (option unit) :=
  s ← get; if panicked_flag s then unlock_output;; no_return else returned.

Definition puts (str : Z) : M printer (option unit) :=
  lock_output;;
  when_back check_panicked (
    put_string device_put m fuel str;;
    device_put NEWLINE;;
    unlock_output;;
    returned).

(** [vformat(_put_char, NULL, fmt, arg)]. *)
Definition vformat_device (fmt : Z) (args : list Z) : M printer unit :=
  s ← get;
  buf ← vformat device_put m fuel fmt args (digits_buf s);
  modify (set_digits_buf buf).

Definition vprintf (fmt : Z) (args : list Z) : M printer (option unit) :=
  lock_output;;
  when_back check_panicked (
    vformat_device fmt args;;
    unlock_output;;
    returned).

Definition printf (fmt : Z) (args : list Z) : M printer (option unit) := vprintf fmt args.

(** [_panic] up to the call of [no_return]; [cpuid()] is [me]. *)
Definition panic_report (file line fmt : Z) (args : list Z) : M printer (option unit) :=
  lock_output;;
  when_back check_panicked (
    modify (set_panicked_flag true);;
    for_range 0 PANIC_BAR_LENGTH (fun _ => device_put PANIC_BAR_CHAR);;
    device_put NEWLINE;;
    vformat_device cpu_fmt [me];;
    vformat_device file_fmt [file];;
    vformat_device line_fmt [line];;
    vformat_device fmt args;;
    device_put NEWLINE;;
    unlock_output;;
    returned).

Definition _panic (file line fmt : Z) (args : list Z) : M printer (option unit) :=
  when_back (panic_report file line fmt args) no_return.
End output.

(** * What is printed *)

(** What the UART gets for a sequence of characters. *)
Fixpoint crlf (l : list Z) : list Z :=
  match l with
  | [] => []
  | c :: l' => (if c =? NEWLINE then [c; 13] else [c]) ++ crlf l'
  end.

Lemma crlf_app l1 l2 : crlf (l1 ++ l2) = crlf l1 ++ crlf l2.
Proof. induction l1 as [|c l1 IH]; [done |]. cbn [crlf app]. by rewrite IH, app_assoc. Qed.

Definition send (l : list Z) (s : printer) : printer := set_sent (sent s ++ crlf l) s.

Lemma send_nil s : send [] s = s.
Proof. destruct s. unfold send, set_sent. cbn. by rewrite app_nil_r. Qed.

Lemma send_app l1 l2 s : send l2 (send l1 s) = send (l1 ++ l2) s.
Proof. unfold send, set_sent. cbn. by rewrite crlf_app, app_assoc. Qed.

Lemma device_put_send c s : device_put c s = Ret (tt, send [c] s).
Proof. unfold device_put, modify, send. cbn [crlf]. by rewrite app_nil_r. Qed.

Lemma put_literal_send l s : put_literal device_put l s = Ret (tt, send l s).
Proof.
  revert s. induction l as [|c l IH]; intros s; cbn [put_literal]; [by rewrite send_nil |].
  unfold mbind, M_bind. rewrite device_put_send, IH, send_app. done.
Qed.

(** Literal text in a format. *)
Lemma prints_text m l ds args out : prints m (map Plain l ++ ds) args out ->
  exists out', out = l ++ out' /\ prints m ds args out'.
Proof.
  revert out. induction l as [|c l IH]; intros out H; [by exists out |].
  inversion H; subst. destruct (IH _ ltac:(eassumption)) as (out' & -> & ?). by exists out'.
Qed.

Lemma spells_text l ds : spells (map Plain l ++ ds) = l ++ spells ds.
Proof. induction l as [|c l IH]; [done |]. change (c :: spells (map Plain l ++ ds) = c :: l ++ spells ds). by rewrite IH. Qed.

(** [text1 %k text2]. *)
Definition around (t1 : list Z) (k : conversion) (t2 : list Z) : list piece :=
  map Plain t1 ++ Conv k :: map Plain t2.

Lemma spells_around t1 k t2 : spells (around t1 k t2) = t1 ++ 37 :: spelling k ++ t2.
Proof.
  unfold around. rewrite spells_text.
  change (spells (Conv k :: map Plain t2)) with (37 :: spelling k ++ spells (map Plain t2)).
  by rewrite <- (app_nil_r (map Plain t2)), spells_text, app_nil_r.
Qed.

Lemma well_formed_text l ds : Forall (fun c => c <> 0 /\ c <> 37) l -> well_formed ds -> well_formed (map Plain l ++ ds).
Proof. induction 1 as [|c l [H0 H1] _ IH]; [done |]. intros Hds. cbn. auto. Qed.

Lemma well_formed_around t1 k t2 : Forall (fun c => c <> 0 /\ c <> 37) (t1 ++ t2) -> well_formed (around t1 k t2).
Proof.
  intros [H1 H2]%Forall_app. apply well_formed_text; [done |]. cbn [well_formed].
  rewrite <- (app_nil_r (map _ _)). by apply well_formed_text.
Qed.

Lemma prints_around m t1 k t2 x out : k <> Percent -> prints m (around t1 k t2) [x] out ->
  exists l, renders m k x l /\ out = t1 ++ l ++ t2.
Proof.
  intros Hk (out1 & -> & H)%prints_text.
  inversion H as [| | | |? ? ? ? l out2 _ Hr Hp]; subst; [done |].
  rewrite <- (app_nil_r (map Plain t2)) in Hp. apply prints_text in Hp as (out3 & -> & Hn).
  inversion Hn; subst. exists l. split; [done |]. by rewrite app_nil_r.
Qed.

Lemma arguments_text m fuel l ds args : arguments m fuel ds args -> arguments m fuel (map Plain l ++ ds) args.
Proof. by induction l. Qed.

Lemma arguments_around m fuel t1 k t2 x :
  (k = Str -> x = 0 \/ exists l, string_at m x l /\ (length l < fuel)%nat) -> arguments m fuel (around t1 k t2) [x].
Proof.
  intros Hx. apply arguments_text. assert (Ht : forall args, arguments m fuel (map Plain t2) args).
  { intros args. rewrite <- (app_nil_r (map _ _)). by apply arguments_text. }
  destruct k; cbn; auto.
Qed.

Section rules.
Context (E : string -> Prop) (m : mem) (fuel : nat).

Lemma wp_device_put c Q s : Q tt (send [c] s) -> wp E (device_put c) Q s.
Proof. intros H. unfold wp. by rewrite device_put_send. Qed.

Lemma wp_bars n c Q s : forall from, Q tt (send (replicate n c) s) -> wp E (for_range from n (fun _ => device_put c)) Q s.
Proof.
  revert s. induction n as [|n IH]; intros s from HQ; cbn [for_range].
  - apply wp_ret. by rewrite <- (send_nil s).
  - apply wp_bind, wp_device_put, IH. by rewrite send_app.
Qed.

Lemma wp_put_string a l Q s : string_at m a l -> (length l < fuel)%nat -> Q tt (send l s) ->
  wp E (put_string device_put m fuel a) Q s.
Proof. intros Hs Hl HQ. unfold wp. by rewrite (put_string_ok _ _ _ _ _ _ Hs Hl), put_literal_send. Qed.

(** A call of vformat sends what the format means. *)
Lemma wp_vformat_device fmt ds args Q s :
  string_at m fmt (spells ds) -> well_formed ds -> arguments m fuel ds args -> (length (spells ds) < fuel)%nat ->
  length (digits_buf s) = Z.to_nat BUF_SIZE ->
  (forall out buf', prints m ds args out -> length buf' = Z.to_nat BUF_SIZE -> Q tt (set_digits_buf buf' (send out s))) ->
  wp E (vformat_device m fuel fmt args) Q s.
Proof.
  intros Hs Hwf Ha Hl Hb HQ. unfold vformat_device. apply wp_bind, wp_get, wp_bind.
  destruct (vformat_loop_ok device_put m fuel ds Hwf fuel fmt args _ Hs Ha Hl Hb) as (out & buf' & Ho & Hb' & Hw).
  unfold wp at 1, vformat. rewrite Hw. unfold mbind, M_bind. rewrite put_literal_send. apply wp_modify. by apply HQ.
Qed.

(** The same for one conversion inside text. *)
Lemma wp_vformat_around fmt t1 k t2 x Q s :
  string_at m fmt (t1 ++ 37 :: spelling k ++ t2) -> k <> Percent -> Forall (fun c => c <> 0 /\ c <> 37) (t1 ++ t2) ->
  (k = Str -> x = 0 \/ exists l, string_at m x l /\ (length l < fuel)%nat) ->
  (length (t1 ++ 37%Z :: spelling k ++ t2) < fuel)%nat -> length (digits_buf s) = Z.to_nat BUF_SIZE ->
  (forall l buf', renders m k x l -> length buf' = Z.to_nat BUF_SIZE ->
    Q tt (set_digits_buf buf' (send (t1 ++ l ++ t2) s))) ->
  wp E (vformat_device m fuel fmt [x]) Q s.
Proof.
  intros Hs Hk Ht Hx Hl Hb HQ. rewrite <- spells_around in *.
  eapply wp_vformat_device; [done | by apply well_formed_around | by apply arguments_around | done | done |].
  intros out buf' (l & Hr & ->)%prints_around Hb'; [by apply HQ | done].
Qed.

Lemma wp_lock me k Q s : ctx_lock s = init_spinlock -> panicked_flag s = false ->
  wp E k Q (set_ctx_lock (mkSpin true (Some me)) s) -> wp E (lock_output me;; when_back (check_panicked me) k) Q s.
Proof.
  intros Hlock Hflag HQ. unfold wp, lock_output, when_back, check_panicked, mbind, M_bind, get, lift. rewrite Hlock.
  cbn. by rewrite Hflag.
Qed.

Lemma wp_unlock me Q s : ctx_lock s = mkSpin true (Some me) -> Q (Some tt) (set_ctx_lock init_spinlock s) ->
  wp E (unlock_output me;; returned) Q s.
Proof.
  intros Hlock HQ. unfold wp, unlock_output, mbind, M_bind, get, lift. rewrite Hlock, release_own. done.
Qed.
End rules.

(** After a panic, a CPU that takes the lock to print gives it back and stops. *)
Lemma stopped me k s : ctx_lock s = init_spinlock -> panicked_flag s = true ->
  (lock_output me;; when_back (check_panicked me) k) s = Ret (None, s).
Proof.
  intros Hlock Hflag. unfold lock_output, when_back, check_panicked, unlock_output, mbind, M_bind, get, lift. rewrite Hlock.
  cbn. rewrite Hflag, release_own. destruct s. cbn in *. by subst.
Qed.

(** * Printing *)

(** The printer is idle: the lock is free and no CPU has panicked. *)
Definition idle (s : printer) : Prop :=
  ctx_lock s = init_spinlock /\ panicked_flag s = false /\ length (digits_buf s) = Z.to_nat BUF_SIZE.

(** printf prints its format and leaves the printer idle. *)
Lemma printf_ok me m fuel fmt ds args s : idle s ->
  string_at m fmt (spells ds) -> well_formed ds -> arguments m fuel ds args -> (length (spells ds) < fuel)%nat ->
  wp no_panic (printf me m fuel fmt args)
    (fun r s' => r = Some tt /\ idle s' /\ exists out, prints m ds args out /\ sent s' = sent s ++ crlf out) s.
Proof.
  intros (Hl & Hf & Hb) Hs Hwf Ha Hn. apply wp_lock; [done | done |]. apply wp_bind.
  eapply wp_vformat_device; [done .. |]. intros out buf' Ho Hb'. apply wp_unlock; [done |].
  split; [done |]. split; [by split_and! | by exists out].
Qed.

Lemma puts_ok me m fuel str l s : idle s -> string_at m str l -> (length l < fuel)%nat ->
  wp no_panic (puts me m fuel str) (fun r s' => r = Some tt /\ idle s' /\ sent s' = sent s ++ crlf (l ++ [NEWLINE])) s.
Proof.
  intros (Hl & Hf & Hb) Hs Hn. apply wp_lock; [done | done |]. apply wp_bind.
  eapply wp_put_string; [done | done |]. apply wp_bind, wp_device_put. rewrite send_app.
  apply wp_unlock; [done |]. split; [done |]. split; [by split_and! | done].
Qed.

(** The literals of _panic are where their addresses say. *)
Definition panic_literals (m : mem) (cpu_fmt file_fmt line_fmt : Z) : Prop :=
  string_at m cpu_fmt (chars "KERNEL PANIC at CPU %zu:" ++ [NEWLINE]) /\
  string_at m file_fmt (chars "file: %s" ++ [NEWLINE]) /\
  string_at m line_fmt (chars "line: %zu" ++ [NEWLINE]).

(** The report of a panic: a bar, the CPU, the place and the message. *)
Definition report (cpu_no file line msg : list Z) : list Z :=
  replicate PANIC_BAR_LENGTH PANIC_BAR_CHAR ++ [NEWLINE] ++
  chars "KERNEL PANIC at CPU " ++ cpu_no ++ chars ":" ++ [NEWLINE] ++
  chars "file: " ++ file ++ [NEWLINE] ++
  chars "line: " ++ line ++ [NEWLINE] ++
  msg ++ [NEWLINE].

Lemma numeral_of_renders m k x l : k = ZU -> renders m k x l -> numeral 10 (u64 x) l.
Proof.
  intros ->. cbn. unfold signed_numeral. pose proof (u64_bound x).
  by rewrite (proj2 (Z.ltb_ge _ _)) by lia.
Qed.

Lemma panic_report_ok me m fuel cpu_fmt file_fmt line_fmt file line fmt name ds args s :
  panic_literals m cpu_fmt file_fmt line_fmt -> string_at m file name -> file <> 0 ->
  string_at m fmt (spells ds) -> well_formed ds -> arguments m fuel ds args ->
  (Nat.max 30 (Nat.max (length name) (length (spells ds))) < fuel)%nat -> idle s ->
  wp no_panic (panic_report me m fuel cpu_fmt file_fmt line_fmt file line fmt args)
    (fun r s' => r = Some tt /\ exists cpu_no line_no msg file_name,
      numeral 10 (u64 me) cpu_no /\ numeral 10 (u64 line) line_no /\ prints m ds args msg /\
      renders m Str file file_name /\
      sent s' = sent s ++ crlf (report cpu_no file_name line_no msg) /\
      ctx_lock s' = init_spinlock /\ panicked_flag s' = true) s.
Proof.
  intros (Hc & Hfl & Hln) Hfile Hnull Hfmt Hwf Hargs Hfuel (Hl & Hf & Hb).
  apply wp_lock; [done | done |]. apply wp_bind, wp_modify, wp_bind, wp_bars, wp_bind, wp_device_put. rewrite send_app.
  apply wp_bind, (wp_vformat_around _ _ _ _ (chars "KERNEL PANIC at CPU ") ZU (chars ":" ++ [NEWLINE]));
    [done | done | by apply (bool_decide_unpack _) | done | cbn; lia | done |].
  intros cpu_no b1 H1 Hb1. apply wp_bind, (wp_vformat_around _ _ _ _ (chars "file: ") Str [NEWLINE]);
    [done | done | by apply (bool_decide_unpack _) | | cbn; lia | done |].
  { intros _. right. exists name. split; [done | lia]. }
  intros file_name b2 H2 Hb2. apply wp_bind, (wp_vformat_around _ _ _ _ (chars "line: ") ZU [NEWLINE]);
    [done | done | by apply (bool_decide_unpack _) | done | cbn; lia | done |].
  intros line_no b3 H3 Hb3. apply wp_bind. eapply wp_vformat_device; [done | done | done | lia | done |].
  intros msg b4 H4 Hb4. apply wp_bind, wp_device_put, wp_unlock; [done |]. split; [done |].
  exists cpu_no, line_no, msg, file_name. split_and!; try done; try by eapply numeral_of_renders.
  unfold report, send. cbn [sent set_sent set_digits_buf set_ctx_lock set_panicked_flag].
  by rewrite <- !app_assoc, <- !crlf_app, <- !app_assoc.
Qed.

(** The string at an address is determined. *)
Lemma string_at_unique m : forall l1 l2 a, string_at m a l1 -> string_at m a l2 -> l1 = l2.
Proof.
  induction l1 as [|c l1 IH]; intros [|d l2] a H1 H2; [done | | |].
  - apply string_at_nil in H1. apply string_at_cons in H2 as (? & ? & _). congruence.
  - apply string_at_nil in H2. apply string_at_cons in H1 as (? & ? & _). congruence.
  - apply string_at_cons in H1 as (H1 & _ & H1'), H2 as (H2 & _ & H2'). f_equal; [congruence | by eapply IH].
Qed.

(** C33: the first CPU that panics prints its report and stops the others.
    From an idle console _panic prints, without interruption, a bar, the number
    of the CPU and the line in decimal, the file and the message its format
    means, leaves the lock free and the flag set, and stays in no_return; from
    then on puts, printf and _panic on any CPU never come back and leave the state of the
    printer as it is, what was sent included, so the report is the last output. *)
Theorem panic_is_last (me : Z) (m : mem) (fuel : nat) (cpu_fmt file_fmt line_fmt file line fmt : Z)
  (name : list Z) (ds : list piece) (args : list Z) (s : printer)
  (Hlit : panic_literals m cpu_fmt file_fmt line_fmt) (Hfile : string_at m file name) (Hnull : file <> 0)
  (Hfmt : string_at m fmt (spells ds)) (Hwf : well_formed ds) (Hargs : arguments m fuel ds args)
  (Hfuel : (Nat.max 30 (Nat.max (length name) (length (spells ds))) < fuel)%nat) (Hidle : idle s) :
  exists s' cpu_no line_no msg,
    _panic me m fuel cpu_fmt file_fmt line_fmt file line fmt args s = Ret (None, s') /\
    numeral 10 (u64 me) cpu_no /\ numeral 10 (u64 line) line_no /\ prints m ds args msg /\
    sent s' = sent s ++ crlf (report cpu_no name line_no msg) /\
    ctx_lock s' = init_spinlock /\ panicked_flag s' = true /\
    forall s2 me' m' fuel' l1 l2 l3 file' line' fmt' args', ctx_lock s2 = init_spinlock -> panicked_flag s2 = true ->
      puts me' m' fuel' fmt' s2 = Ret (None, s2) /\ printf me' m' fuel' fmt' args' s2 = Ret (None, s2) /\
      _panic me' m' fuel' l1 l2 l3 file' line' fmt' args' s2 = Ret (None, s2).
Proof.
  destruct (wp_returns _ _ _ (panic_report_ok me m fuel cpu_fmt file_fmt line_fmt file line fmt name ds args s
    Hlit Hfile Hnull Hfmt Hwf Hargs Hfuel Hidle)) as (r & s' & E & -> & cpu_no & line_no & msg & file_name & H1 & H2 & H3 & H4 & H5 & Hlock & Hflag).
  exists s', cpu_no, line_no, msg. cbn in H4. rewrite (proj2 (Z.eqb_neq _ _) Hnull) in H4.
  rewrite (string_at_unique _ _ _ _ H4 Hfile) in H5. split_and!; try done.
  - unfold _panic, when_back, mbind, M_bind. by rewrite E.
  - intros s2 me' m' fuel' l1 l2 l3 file' line' fmt' args' Hl2 Hf2. split_and!; [by apply stopped | by apply stopped |].
    unfold _panic, panic_report. unfold when_back at 1, mbind at 1, M_bind at 1. by rewrite stopped.
Qed.

Lemma panic_is_last_witness : exists s',
  _panic 2 (place (chars "KERNEL PANIC at CPU %zu:" ++ [NEWLINE]) 1000 (place (chars "file: %s" ++ [NEWLINE]) 2000
    (place (chars "line: %zu" ++ [NEWLINE]) 3000 (place (chars "a.c") 4000 (place (chars "bad %d") 5000 (fun _ => 0))))))
    100 1000 2000 3000 4000 12 5000 [7] init_printer = Ret (None, s') /\ panicked_flag s' = true /\ puts 0 (fun _ => 0) 1 0 s' = Ret (None, s').
Proof.
  destruct (panic_is_last 2 (place (chars "KERNEL PANIC at CPU %zu:" ++ [NEWLINE]) 1000 (place (chars "file: %s" ++ [NEWLINE]) 2000
    (place (chars "line: %zu" ++ [NEWLINE]) 3000 (place (chars "a.c") 4000 (place (chars "bad %d") 5000 (fun _ => 0))))))
    100 1000 2000 3000 4000 12 5000 (chars "a.c") (map Plain (chars "bad ") ++ [Conv D]) [7] init_printer)
    as (s' & _ & _ & _ & H & _ & _ & _ & _ & Hk & Hp & Hl).
  - split_and!; (split_and!; [apply (bool_decide_unpack _); vm_compute; exact I | reflexivity | reflexivity]).
  - split_and!; [apply (bool_decide_unpack _); vm_compute; exact I | reflexivity | reflexivity].
  - lia.
  - split_and!; [apply (bool_decide_unpack _); vm_compute; exact I | reflexivity | reflexivity].
  - cbn. lia.
  - cbn. done.
  - cbn. lia.
  - done.
  - exists s'. split; [exact H | split; [exact Hp |]]. apply (Hl s' 0 (fun _ => 0) 1%nat 0 0 0 0 0 0 [] Hk Hp).
Defined.
