(* ===== verification/Console.v ===== *)
(** core/console.c, the input line editor: [console_intr] puts typed characters
    into the ring buffer [input] and [console_read] takes finished lines out of
    it.  The calls of inodes.lock and inodes.unlock around console_read and
    console_write are made in Inode.v. *)
From S2P Require Import Prelude Bytes Locks.

Definition INPUT_BUF : Z := 128.
Definition BACKSPACE : Z := 256.
Definition newline : Z := 10.
Definition DEL : Z := 127.

(** [C(x)]: Control-x. *)
Definition C (x : Z) : Z := x - 64.
Definition C_D : Z := C 68.
Definition C_H : Z := C 72.
Definition C_P : Z := C 80.
Definition C_U : Z := C 85.

(** [input], [conslock], the bytes sent to the UART, and the number of calls of
    [wakeup(&input.r)]. *)
Record console := mkConsole {
  conslock : SpinLock;
  in_buf : list Z;   (* char[INPUT_BUF] *)
  in_r : Z;          (* usize *)
  in_w : Z;
  in_e : Z;
  uart : list Z;
  wakeups : Z
}.

Definition set_conslock v (s : console) := mkConsole v (in_buf s) (in_r s) (in_w s) (in_e s) (uart s) (wakeups s).
Definition set_in_buf v (s : console) := mkConsole (conslock s) v (in_r s) (in_w s) (in_e s) (uart s) (wakeups s).
Definition set_in_r v (s : console) := mkConsole (conslock s) (in_buf s) v (in_w s) (in_e s) (uart s) (wakeups s).
Definition set_in_w v (s : console) := mkConsole (conslock s) (in_buf s) (in_r s) v (in_e s) (uart s) (wakeups s).
Definition set_in_e v (s : console) := mkConsole (conslock s) (in_buf s) (in_r s) (in_w s) v (uart s) (wakeups s).
Definition set_uart v (s : console) := mkConsole (conslock s) (in_buf s) (in_r s) (in_w s) (in_e s) v (wakeups s).
Definition set_wakeups v (s : console) := mkConsole (conslock s) (in_buf s) (in_r s) (in_w s) (in_e s) (uart s) v.

(** [static int panicked = -1;], which nothing assigns. *)
Definition panicked : Z := -1.

(** The state init_console leaves ([input] is zero-initialised). *)
Definition init_console : console := mkConsole init_spinlock (replicate 128 0) 0 0 0 [] 0.

(** driver/uart.c: a newline is followed by a carriage return. *)
Definition uart_put_char (c : Z) : M console unit :=
  modify (fun s => set_uart (uart s ++ (if c =? newline then [newline; 13] else [c])) s).

Definition consputc (c : Z) : M console unit :=
  if c =? BACKSPACE then uart_put_char 8;; uart_put_char 32;; uart_put_char 8
  else uart_put_char c.

Section ops.
(** [me] is the CPU that runs the code. *)
Context (me : Z).

Definition lock_console : M console unit :=
  s ← get; l ← lift (acquire_spinlock me (conslock s)); modify (set_conslock l).
Definition unlock_console : M console unit :=
  s ← get; l ← lift (release_spinlock me (conslock s)); modify (set_conslock l).

Fixpoint put_chars (l : list Z) : M console unit :=
  match l with
  | [] => mret tt
  | c :: l' => consputc (Z.land c 255);; put_chars l'
  end.

(** console_write between inodes.unlock and inodes.lock; [src] are the [n]
    bytes at [buf]. *)
Definition cons_write (src : list Z) : M console Z :=
  lock_console;; put_chars src;; unlock_console;; mret (Z.of_nat (length src)).

(** The loop [while (n > 0)] of console_read; [fuel] is [n] as a natural.  The
    result is the final [n], or [None] for the killed exit, and the bytes
    stored.  [killed] is [thiscpu()->proc->killed]; the call of [sleep] waits. *)
Fixpoint read_chars (killed : bool) (target n : Z) (fuel : nat) (dst : list Z) : M console (option Z * list Z) :=
  match fuel with
  | O => mret (Some n, dst)
  | S fuel' =>
      s ← get;
      if in_r s =? in_w s then (if killed then mret (None, dst) else blocked) else
      let c := zget (in_buf s) (in_r s mod INPUT_BUF) in
      modify (set_in_r (u64 (in_r s + 1)));;
      if c =? C_D then
        s ← get;
        (if n <? target then modify (set_in_r (u64 (in_r s - 1))) else mret tt);;
        mret (Some n, dst)
      else if c =? newline then mret (Some (n - 1), dst ++ [c])
      else read_chars killed target (n - 1) fuel' (dst ++ [c])
  end.

(** console_read between inodes.unlock and inodes.lock: the result and the
    bytes stored at [dst]. *)
Definition cons_read (killed : bool) (n : Z) : M console (Z * list Z) :=
  lock_console;;
  res ← read_chars killed n n (Z.to_nat n) [];
  unlock_console;;
  mret (match res with (Some m, dst) => (n - m, dst) | (None, dst) => (-1, dst) end).

(** [while (input.e != input.w && input.buf[(input.e - 1) % INPUT_BUF] != '\n')]:
    with [fuel = input.e - input.w] the first test fails when the fuel is used up. *)
Fixpoint kill_line (fuel : nat) : M console unit :=
  match fuel with
  | O => mret tt
  | S fuel' =>
      s ← get;
      if negb (zget (in_buf s) (u64 (in_e s - 1) mod INPUT_BUF) =? newline) then
        modify (set_in_e (u64 (in_e s - 1)));;
        consputc BACKSPACE;;
        kill_line fuel'
      else mret tt
  end.

(** The body of the loop of console_intr, for one character. *)
Definition intr_char (c : Z) : M console unit :=
  s ← get;
  if c =? C_P then mret tt
  else if c =? C_U then kill_line (Z.to_nat (u64 (in_e s - in_w s)))
  else if (c =? C_H) || (c =? DEL) then
    if negb (in_e s =? in_w s) then modify (set_in_e (u64 (in_e s - 1)));; consputc BACKSPACE else mret tt
  else if negb (c =? 0) && (u64 (in_e s - in_r s) <? INPUT_BUF) then
    let c := if c =? 13 then newline else c in
    modify (set_in_buf (zset (in_buf s) (in_e s mod INPUT_BUF) c));;
    modify (set_in_e (u64 (in_e s + 1)));;
    consputc c;;
    s ← get;
    if (c =? newline) || (c =? C_D) || (in_e s =? u64 (in_r s + INPUT_BUF)) then
      modify (set_in_w (in_e s));;
      modify (fun s => set_wakeups (wakeups s + 1) s)
    else mret tt
  else mret tt.

(** [getc] yields the characters of [typed], then 0xff. *)
Fixpoint intr_loop (typed : list Z) : M console unit :=
  match typed with
  | [] => mret tt
  | c :: typed' => if c =? 255 then mret tt else intr_char c;; intr_loop typed'
  end.

(** A CPU that finds [panicked] set spins for ever. *)
Definition console_intr (typed : list Z) : M console unit :=
  lock_console;;
  if panicked >=? 0 then unlock_console;; blocked else
  intr_loop typed;;
  unlock_console.
End ops.

(** * The line editor *)

(** The contract: finished lines [lines] waiting to be read, and the line
    [editing] that is being typed. *)
Record editor := mkEditor { lines : list Z; editing : list Z }.

Definition accept (c : Z) (d : editor) : editor :=
  if c =? C_P then d
  else if c =? C_U then mkEditor (lines d) []
  else if (c =? C_H) || (c =? DEL) then mkEditor (lines d) (removelast (editing d))
  else if negb (c =? 0) && (length (lines d) + length (editing d) <? 128)%nat then
    let c := if c =? 13 then newline else c in
    let ed := editing d ++ [c] in
    if (c =? newline) || (c =? C_D) || (length (lines d) + length ed =? 128)%nat
    then mkEditor (lines d ++ ed) []
    else mkEditor (lines d) ed
  else d.

(** The characters before 0xff, typed one after the other. *)
Fixpoint accept_all (typed : list Z) (d : editor) : editor :=
  match typed with
  | [] => d
  | c :: typed' => if c =? 255 then d else accept_all typed' (accept c d)
  end.

(** Reading at most [n] characters: [None] when the lines run out before a
    newline, an end-of-file character or the [n]-th character.  An end-of-file
    character is taken only when it comes first. *)
Fixpoint take_line (first : bool) (n : nat) (l : list Z) : option (list Z * list Z) :=
  match n with
  | O => Some ([], l)
  | S n' =>
      match l with
      | [] => None
      | c :: l' =>
          if c =? C_D then Some ([], if first then l' else l)
          else if c =? newline then Some ([c], l')
          else '(x, rest) ← take_line false n' l'; Some (c :: x, rest)
      end
  end.

(** The ring buffer holds the characters of the editor from index [r] on. *)
Record holds (s : console) (d : editor) : Prop := {
  h_buf : length (in_buf s) = 128%nat;
  h_w : in_w s = u64 (in_r s + Z.of_nat (length (lines d)));
  h_e : in_e s = u64 (in_r s + Z.of_nat (length (lines d ++ editing d)));
  h_r : 0 <= in_r s < 2 ^ 64;
  h_cap : (length (lines d ++ editing d) <= 128)%nat;
  h_chars : forall i, 0 <= i < Z.of_nat (length (lines d ++ editing d)) ->
    zget (in_buf s) ((in_r s + i) mod 128) = zget (lines d ++ editing d) i
}.

(** A newline ends the line, so the line that is being typed has none. *)
Definition one_line (d : editor) : Prop := newline ∉ editing d.

Lemma init_holds : holds init_console (mkEditor [] []).
Proof. split; cbn; try done; [lia | intros i Hi; lia]. Qed.

#[local] Arguments zget : simpl never.
#[local] Arguments Z.modulo : simpl never.

(** ** Index arithmetic *)

Lemma u64_mod_128 x : u64 x mod 128 = x mod 128.
Proof. unfold u64. dlia. Qed.

Lemma u64_u64_add x y : u64 (u64 x + y) = u64 (x + y).
Proof. unfold u64. apply Zplus_mod_idemp_l. Qed.

Lemma u64_distance r a b : 0 <= a <= b -> b <= 128 -> u64 (u64 (r + b) - u64 (r + a)) = b - a.
Proof. intros. unfold u64. dlia. Qed.

Lemma u64_eq_iff r a b : 0 <= a <= 128 -> 0 <= b <= 128 -> (u64 (r + a) =? u64 (r + b)) = (a =? b).
Proof. intros. apply eq_true_iff_eq. rewrite !Z.eqb_eq. unfold u64. split; intros; [dlia | by subst]. Qed.

Lemma mod_inj r a b : 0 <= a < 128 -> 0 <= b < 128 -> (r + a) mod 128 = (r + b) mod 128 -> a = b.
Proof. intros. dlia. Qed.

Lemma zget_app_l l k i : 0 <= i < Z.of_nat (length l) -> zget (l ++ k) i = zget l i.
Proof. intros. unfold zget. apply app_nth1. lia. Qed.

Lemma zget_app_mid l c k : zget (l ++ c :: k) (Z.of_nat (length l)) = c.
Proof. unfold zget. rewrite app_nth2 by lia. by replace (Z.to_nat _ - length l)%nat with 0%nat by lia. Qed.

(** ** One typed character *)

(** Changes of the console that do not touch the ring. *)
Lemma holds_ext s s' d : holds s d -> in_buf s' = in_buf s -> in_r s' = in_r s -> in_w s' = in_w s ->
  in_e s' = in_e s -> holds s' d.
Proof. intros [] E1 E2 E3 E4. split; rewrite ?E1, ?E2, ?E3, ?E4; done. Qed.

Definition same_ring (s s' : console) : Prop := in_buf s' = in_buf s /\ in_r s' = in_r s /\ in_w s' = in_w s /\
  in_e s' = in_e s /\ conslock s' = conslock s /\ wakeups s' = wakeups s.

Lemma consputc_ok E c s (Q : unit -> console -> Prop) : (forall s', same_ring s s' -> Q tt s') -> wp E (consputc c) Q s.
Proof.
  intros HQ. unfold consputc, uart_put_char. destruct (c =? BACKSPACE); wp_steps; apply HQ; by repeat split.
Qed.

(** The last character of the line is taken back. *)
Lemma holds_back s ls ed c : holds s (mkEditor ls (ed ++ [c])) ->
  holds (set_in_e (u64 (in_e s - 1)) s) (mkEditor ls ed) /\ zget (in_buf s) (u64 (in_e s - 1) mod 128) = c.
Proof.
  intros [Hb Hw He Hr Hc Hch]. cbn in *. rewrite app_assoc, length_app in *. cbn in *.
  assert (Ee : u64 (in_e s - 1) = u64 (in_r s + Z.of_nat (length (ls ++ ed)))).
  { rewrite He. change (?x - 1) with (x + -1). rewrite u64_u64_add. f_equal. lia. }
  split.
  - split; cbn; try done; [lia |].
    intros i Hi. rewrite Hch by lia. apply zget_app_l. lia.
  - rewrite Ee, u64_mod_128, Hch by lia. apply zget_app_mid.
Qed.

Lemma kill_line_ok E ls (Q : unit -> console -> Prop) : forall ed s, holds s (mkEditor ls ed) -> newline ∉ ed ->
  (forall s', holds s' (mkEditor ls []) -> conslock s' = conslock s -> Q tt s') -> wp E (kill_line (length ed)) Q s.
Proof.
  induction ed as [|c ed IH] using rev_ind; intros s H Hl HQ.
  - by apply HQ.
  - rewrite length_app, Nat.add_comm. cbn [kill_line length Nat.add]. apply wp_bind, wp_get.
    destruct (holds_back _ _ _ _ H) as [H' Ec]. unfold INPUT_BUF. rewrite Ec.
    assert (c <> newline) as Hc by set_solver.
    rewrite (proj2 (Z.eqb_neq _ _) Hc). cbn [negb]. apply wp_bind, wp_modify, wp_bind, consputc_ok.
    intros s' (E1 & E2 & E3 & E4 & E5 & _). apply IH; [by eapply holds_ext | set_solver |].
    intros s'' H'' El. apply HQ; [done |]. by rewrite El, E5.
Qed.

(** A character goes to the end of the line. *)
Lemma holds_add s ls ed c : holds s (mkEditor ls ed) -> (length (ls ++ ed) < 128)%nat ->
  holds (set_in_e (u64 (in_e s + 1)) (set_in_buf (zset (in_buf s) (in_e s mod 128) c) s)) (mkEditor ls (ed ++ [c])).
Proof.
  intros [Hb Hw He Hr Hc Hch] Hlt. cbn in *.
  split; cbn; rewrite ?length_zset, ?app_assoc, ?(length_app (ls ++ ed)); cbn [length]; try done; [| lia |].
  - rewrite He, u64_u64_add. f_equal. lia.
  - intros i Hi. rewrite He, u64_mod_128. destruct (decide (i = Z.of_nat (length (ls ++ ed)))) as [->|Hne].
    + rewrite zget_zset_eq by dlia. by rewrite zget_app_mid.
    + rewrite zget_zset_ne; [rewrite Hch, (zget_app_l (ls ++ ed)) by lia; done | dlia | dlia |].
      intros Em%mod_inj; lia.
Qed.

(** ... and ends it when the line is finished. *)
Lemma holds_commit s ls ed : holds s (mkEditor ls ed) -> holds (set_in_w (in_e s) s) (mkEditor (ls ++ ed) []).
Proof.
  intros [Hb Hw He Hr Hc Hch]. split; cbn in *; rewrite ?app_nil_r; done.
Qed.

(** The effect of one character, and of the characters typed. *)
Lemma intr_char_ok E c s d (Q : unit -> console -> Prop) : holds s d -> one_line d ->
  (forall s', holds s' (accept c d) -> conslock s' = conslock s -> Q tt s') -> wp E (intr_char c) Q s.
Proof.
  intros H Hl HQ. destruct d as [ls ed]. unfold intr_char, accept in *. cbn [lines editing] in *.
  pose proof H as [Hb Hw He Hr Hc _]. cbn [lines editing] in *. rewrite length_app in He, Hc.
  apply wp_bind, wp_get. destruct (c =? C_P); [apply wp_ret; by apply HQ |].
  destruct (c =? C_U).
  { rewrite He, Hw, u64_distance by lia.
    replace (Z.to_nat _) with (length ed) by lia. by eapply kill_line_ok. }
  destruct ((c =? C_H) || (c =? DEL)).
  { replace (in_e s =? in_w s) with (Z.of_nat (length ls + length ed) =? Z.of_nat (length ls))
      by (rewrite He, Hw, u64_eq_iff by lia; done). destruct ed as [|x ed _] using rev_ind.
    - replace (_ =? _) with true by (symmetry; apply Z.eqb_eq; cbn; lia). apply wp_ret. by apply HQ.
    - rewrite length_app in *. cbn [length] in *. rewrite (proj2 (Z.eqb_neq _ _)) by lia. cbn [negb].
      rewrite removelast_last in HQ.
      apply wp_bind, wp_modify, consputc_ok. intros s' (E1 & E2 & E3 & E4 & E5 & _). apply HQ; [| done].
      destruct (holds_back _ _ _ _ H) as [H' _]. eapply holds_ext; [exact H' | done..]. }
  destruct (c =? 0); cbn [negb andb]; [apply wp_ret; by apply HQ |].
  replace (u64 (in_e s - in_r s)) with (Z.of_nat (length ls + length ed)).
  2: { rewrite He. unfold u64. dlia. }
  unfold INPUT_BUF.
  destruct (Nat.ltb_spec (length ls + length ed) 128) as [Hlt|Hge].
  2: { rewrite (proj2 (Z.ltb_ge _ _)) by lia. apply wp_ret. by apply HQ. }
  rewrite (proj2 (Z.ltb_lt _ _)) by lia. set (c' := if c =? 13 then newline else c) in *.
  pose proof (holds_add s ls ed c' H ltac:(rewrite length_app; lia)) as Ha.
  apply wp_bind, wp_modify, wp_bind, wp_modify, wp_bind, consputc_ok. intros s1 (E1 & E2 & E3 & E4 & E5 & E6).
  cbn in E1, E2, E3, E4, E5, E6. assert (Ha1 : holds s1 (mkEditor ls (ed ++ [c']))) by (eapply holds_ext; [exact Ha | done..]).
  apply wp_bind, wp_get.
  replace (in_e s1 =? u64 (in_r s1 + 128)) with (length ls + length (ed ++ [c']) =? 128)%nat.
  2: { pose proof (h_cap _ _ Ha1) as Hc1. rewrite (h_e _ _ Ha1). cbn [lines editing] in *. rewrite u64_eq_iff by lia.
       rewrite (length_app ls) in *. destruct (Nat.eqb_spec (length ls + length (ed ++ [c'])) 128), (Z.eqb_spec (Z.of_nat (length ls + length (ed ++ [c']))) 128); lia. }
  cbn [negb andb] in HQ. set (done_ := _ || _ || _). fold done_ in HQ. destruct done_.
  - apply wp_bind, wp_modify, wp_modify. apply HQ; [| done]. eapply holds_ext; [exact (holds_commit _ _ _ Ha1) | done..].
  - apply wp_ret. by apply HQ.
Qed.

Lemma accept_one_line c d : one_line d -> one_line (accept c d).
Proof.
  unfold one_line, accept. intros Hl. destruct d as [ls ed]. cbn in *.
  destruct (c =? C_P), (c =? C_U), ((c =? C_H) || (c =? DEL)); cbn; try done; try apply not_elem_of_nil.
  { destruct ed as [|x ed _] using rev_ind; [done |]. rewrite removelast_last. set_solver. }
  destruct (negb _ && _); [| done]. destruct (c =? 13); cbn; [apply not_elem_of_nil |].
  destruct (c =? newline) eqn:Ec; cbn; [apply not_elem_of_nil |].
  destruct (_ || _); cbn; [apply not_elem_of_nil |]. apply Z.eqb_neq in Ec. set_solver.
Qed.

Lemma intr_loop_ok E (Q : unit -> console -> Prop) : forall typed s d, holds s d -> one_line d ->
  (forall s', holds s' (accept_all typed d) -> conslock s' = conslock s -> Q tt s') -> wp E (intr_loop typed) Q s.
Proof.
  induction typed as [|c typed IH]; intros s d H Hl HQ; cbn [intr_loop accept_all] in *; [by apply wp_ret, HQ |].
  destruct (c =? 255); [by apply wp_ret, HQ |].
  apply wp_bind. eapply intr_char_ok; [exact H | done |]. intros s1 H1 E1.
  eapply IH; [exact H1 | by apply accept_one_line |]. intros s2 H2 E2. apply HQ; congruence.
Qed.

Lemma accept_all_one_line typed : forall d, one_line d -> one_line (accept_all typed d).
Proof.
  induction typed as [|c typed IH]; intros d Hd; cbn; [done |].
  destruct (c =? 255); [done |]. by apply IH, accept_one_line.
Qed.

(** ** Reading *)

(** A character leaves the buffer. *)
Lemma holds_take s c ls ed : holds s (mkEditor (c :: ls) ed) ->
  holds (set_in_r (u64 (in_r s + 1)) s) (mkEditor ls ed) /\ zget (in_buf s) (in_r s mod 128) = c.
Proof.
  intros [Hb Hw He Hr Hc Hch]. cbn in *. split.
  - split; cbn; [done | | | apply u64_bound | lia |].
    + rewrite Hw, u64_u64_add. f_equal. lia.
    + rewrite He, u64_u64_add. f_equal. lia.
    + intros i Hi. specialize (Hch (i + 1) ltac:(lia)). unfold zget at 2 in Hch.
      replace (Z.to_nat (i + 1)) with (S (Z.to_nat i)) in Hch by lia. cbn in Hch.
      rewrite <- Zplus_mod_idemp_l, u64_mod_128, Zplus_mod_idemp_l. by replace (in_r s + 1 + i) with (in_r s + (i + 1)) by lia.
  - specialize (Hch 0 ltac:(lia)). by rewrite Z.add_0_r in Hch.
Qed.

Lemma read_chars_ok E killed target (Q : option Z * list Z -> console -> Prop) : forall fuel n s ls ed dst x rest,
  holds s (mkEditor ls ed) -> n = Z.of_nat fuel ->
  n <= target -> take_line (n =? target) fuel ls = Some (x, rest) ->
  (forall s', holds s' (mkEditor rest ed) -> conslock s' = conslock s ->
    Q (Some (n - Z.of_nat (length x)), dst ++ x) s') -> wp E (read_chars killed target n fuel dst) Q s.
Proof.
  induction fuel as [|fuel IH]; intros n s ls ed dst x rest H En Hn Ht HQ; cbn [read_chars take_line] in *.
  { injection Ht as <- <-. rewrite app_nil_r, Z.sub_0_r in HQ. by apply wp_ret, HQ. }
  destruct ls as [|c ls]; [done |]. destruct (holds_take _ _ _ _ H) as [H' Ec].
  apply wp_bind, wp_get. pose proof H as [_ Hw _ Hr Hc _]. cbn in Hw, Hc.
  replace (in_r s =? in_w s) with false.
  2: { symmetry. apply Z.eqb_neq. rewrite Hw. rewrite length_app in Hc. unfold u64. dlia. }
  unfold INPUT_BUF. rewrite Ec. apply wp_bind, wp_modify.
  destruct (c =? C_D).
  - injection Ht as <- <-. cbn in HQ. rewrite app_nil_r, Z.sub_0_r in HQ. apply wp_bind, wp_get, wp_bind.
    destruct (Z.eqb_spec n target) as [->|Hne].
    + rewrite Z.ltb_irrefl. apply wp_ret, wp_ret. by apply HQ.
    + rewrite (proj2 (Z.ltb_lt n target)) by lia. apply wp_modify, wp_ret. apply HQ; [| done].
      eapply holds_ext; [exact H | done | cbn | done..].
      rewrite <- (u64_small (in_r s)) at 2 by done. change (?y - 1) with (y + -1). rewrite u64_u64_add. f_equal. lia.
  - destruct (c =? newline).
    + injection Ht as <- <-. apply wp_ret, HQ; done.
    + destruct (take_line false fuel ls) as [[y r]|] eqn:Ey; [| done]. injection Ht as <- <-.
      eapply IH; [exact H' | lia | lia | |].
      * rewrite (proj2 (Z.eqb_neq (n - 1) target)) by lia. exact Ey.
      * intros s2 H2 E2. cbn [length] in HQ. rewrite <- app_assoc. cbn [app].
        replace (n - 1 - Z.of_nat (length y)) with (n - Z.of_nat (S (length y))) by lia. by apply HQ.
Qed.



(** Not enough characters: the reader waits. *)
Lemma read_chars_waits target : forall fuel n s ls ed dst, holds s (mkEditor ls ed) -> n = Z.of_nat fuel ->
  n <= target -> take_line (n =? target) fuel ls = None -> read_chars false target n fuel dst s = Blocked.
Proof.
  induction fuel as [|fuel IH]; intros n s ls ed dst H En Hn Ht; cbn [take_line] in Ht; [done |].
  cbn [read_chars]. unfold mbind, M_bind, get at 1. pose proof H as [_ Hw _ Hr Hc _]. cbn in Hw, Hc.
  destruct ls as [|c ls].
  { rewrite Hw, Z.add_0_r, u64_small, Z.eqb_refl by done. done. }
  destruct (holds_take _ _ _ _ H) as [H' Ec]. cbn in Hw, Hc.
  replace (in_r s =? in_w s) with false.
  2: { symmetry. apply Z.eqb_neq. rewrite Hw. rewrite length_app in Hc. unfold u64. dlia. }
  unfold INPUT_BUF. rewrite Ec. cbn [modify]. destruct (c =? C_D); [done |]. destruct (c =? newline); [done |].
  destruct (take_line false fuel ls) as [[y r]|] eqn:Ey; [done |].
  eapply IH; [exact H' | lia | lia |]. by rewrite (proj2 (Z.eqb_neq (n - 1) target)) by lia.
Qed.

(** * The operations under the lock *)

(** The console between two calls: nobody holds [conslock]. *)
Definition console_idle (s : console) (d : editor) : Prop :=
  conslock s = init_spinlock /\ holds s d /\ one_line d.

Lemma lock_console_ok E me s (Q : unit -> console -> Prop) : conslock s = init_spinlock ->
  Q tt (set_conslock (mkSpin true (Some me)) s) -> wp E (lock_console me) Q s.
Proof.
  intros El HQ. unfold lock_console. apply wp_bind, wp_get, wp_bind.
  eapply wp_lift; [rewrite El; apply acquire_free |]. by apply wp_modify.
Qed.

Lemma unlock_console_ok E me s (Q : unit -> console -> Prop) : conslock s = mkSpin true (Some me) ->
  Q tt (set_conslock init_spinlock s) -> wp E (unlock_console me) Q s.
Proof.
  intros El HQ. unfold unlock_console. apply wp_bind, wp_get, wp_bind.
  eapply wp_lift; [rewrite El; apply release_own |]. by apply wp_modify.
Qed.

Lemma console_intr_ok E me typed s d (Q : unit -> console -> Prop) : console_idle s d ->
  (forall s', console_idle s' (accept_all typed d) -> Q tt s') -> wp E (console_intr me typed) Q s.
Proof.
  intros (El & H & Hl) HQ. unfold console_intr. apply wp_bind, lock_console_ok; [done |].
  cbn [panicked Z.geb Z.compare]. apply wp_bind.
  eapply intr_loop_ok; [eapply holds_ext; [exact H | done..] | done |].
  intros s1 H1 E1. apply unlock_console_ok; [done |]. apply HQ.
  split_and!; [done | eapply holds_ext; [exact H1 | done..] | by apply accept_all_one_line].
Qed.

Lemma cons_read_ok E me killed n s d x rest (Q : Z * list Z -> console -> Prop) : console_idle s d -> 0 <= n ->
  take_line true (Z.to_nat n) (lines d) = Some (x, rest) ->
  (forall s', console_idle s' (mkEditor rest (editing d)) -> Q (Z.of_nat (length x), x) s') ->
  wp E (cons_read me killed n) Q s.
Proof.
  intros (El & H & Hl) Hn Ht HQ. unfold cons_read. apply wp_bind, lock_console_ok; [done |]. apply wp_bind.
  destruct d as [ls ed]. eapply read_chars_ok; [eapply holds_ext; [exact H | done..] | lia | lia | |].
  { by rewrite Z.eqb_refl. }
  intros s1 H1 E1. apply wp_bind, unlock_console_ok; [done |]. apply wp_ret. cbn [app].
  replace (n - (n - Z.of_nat (length x))) with (Z.of_nat (length x)) by lia. apply HQ.
  split_and!; [done | eapply holds_ext; [exact H1 | done..] | done].
Qed.

(** ** Properties *)

(** The ring buffer of console.c is a line editor.  Whatever was typed and
    read before, console_intr leaves exactly the finished lines and the line
    being edited that typing the characters one by one gives: backspace and
    delete take the last character of the unfinished line, control-U all of it,
    and a newline, an end-of-file or a full buffer finish it, with characters
    beyond 128 dropped. *)
Theorem console_intr_edits (me : Z) (typed : list Z) (s : console) (d : editor) (Hs : console_idle s d) :
  exists s', console_intr me typed s = Ret (tt, s') /\ console_idle s' (accept_all typed d).
Proof.
  destruct (wp_returns (console_intr me typed) (fun _ s' => console_idle s' (accept_all typed d)) s) as ([] & s' & E & H).
  - eapply console_intr_ok; eauto.
  - by exists s'.
Qed.

Lemma init_idle : console_idle init_console (mkEditor [] []).
Proof. split_and!; [done | apply init_holds | apply not_elem_of_nil]. Qed.

(** Typing "ab", backspace, "c", return, "x". *)
Lemma console_intr_edits_witness :
  exists s', console_intr 0 [97; 98; 127; 99; 13; 120] init_console = Ret (tt, s') /\
    console_idle s' (mkEditor [97; 99; 10] [120]).
Proof. exact (console_intr_edits 0 [97; 98; 127; 99; 13; 120] init_console _ init_idle). Defined.

(** Console_read returns the next line, cut at [n] characters: the bytes
    up to and including the first newline, or up to an end-of-file character,
    which is taken only when it comes first (so the next read returns 0); what
    is left stays for the next reader and the unfinished line is untouched.
    When the finished lines have no such end it sleeps. *)
Theorem console_read_line (me n : Z) (s : console) (d : editor) (Hs : console_idle s d) (Hn : 0 <= n) :
  match take_line true (Z.to_nat n) (lines d) with
  | Some (x, rest) => forall killed, exists s',
      cons_read me killed n s = Ret ((Z.of_nat (length x), x), s') /\ console_idle s' (mkEditor rest (editing d))
  | None => cons_read me false n s = Blocked
  end.
Proof.
  destruct (take_line _ _ _) as [[x rest]|] eqn:Ht.
  - intros killed. destruct (wp_returns (cons_read me killed n) (fun r s' => r = (Z.of_nat (length x), x) /\
      console_idle s' (mkEditor rest (editing d))) s) as (r & s' & E & -> & H).
    + eapply cons_read_ok; eauto.
    + by exists s'.
  - destruct Hs as (El & H & _). destruct d as [ls ed]. unfold cons_read, lock_console.
    unfold mbind, M_bind, get, lift, outcome_bind, mbind. rewrite El, acquire_free. cbn [modify].
    rewrite (read_chars_waits n (Z.to_nat n) n _ ls ed); [done | | lia | lia |].
    + eapply holds_ext; [exact H | done..].
    + by rewrite Z.eqb_refl.
Qed.

Definition two_lines : console :=
  match console_intr 0 [97; 98; 13; 99; 13] init_console with Ret (_, s) => s | _ => init_console end.

Lemma two_lines_idle : console_idle two_lines (mkEditor [97; 98; 10; 99; 10] []).
Proof.
  destruct (wp_returns (console_intr 0 [97; 98; 13; 99; 13])
    (fun _ s => console_idle s (mkEditor [97; 98; 10; 99; 10] [])) init_console) as ([] & s & E & H).
  - eapply console_intr_ok; [apply init_idle | auto].
  - unfold two_lines. rewrite E. exact H.
Qed.

Lemma console_read_line_witness :
  exists s', cons_read 0 false 100 two_lines = Ret ((3, [97; 98; 10]), s') /\
    console_idle s' (mkEditor [99; 10] []).
Proof. exact (console_read_line 0 100 two_lines _ two_lines_idle ltac:(lia) false). Defined.
