(* ===== verification/Shell.v ===== *)
(** user/sh/main.c: the parser of the shell.  The line is in memory, [s] and
    [es] are addresses in it; the nodes of the command tree are structs the
    parser allocates from a static array, so that the node of a simple command
    is filled while redirections already point to it. *)
From S2P Require Import Prelude Bytes CString.

(** * Data *)

Definition MAXARGS : Z := 10.
Definition MAXN : Z := 10000.

(** [struct execcmd], [redircmd], [pipecmd], [listcmd] and [backcmd]; the
    constructor is the field [type]. *)
Inductive node :=
  | EXEC (argv eargv : list Z)
  | REDIR (cmd file efile mode fd : Z)
  | PIPE (left right : Z)
  | LIST (left right : Z)
  | BACK (cmd : Z).

(** [sizeof] on a machine with 8-byte pointers. *)
Definition sizeof_node (n : node) : Z :=
  match n with
  | EXEC _ _ => 168
  | REDIR _ _ _ _ _ => 40
  | PIPE _ _ | LIST _ _ => 24
  | BACK _ => 16
  end.

(** The memory with the line, the nodes by address, and the static [i] of
    malloc1. *)
Record shell := mkShell {
  sh_mem : mem;
  nodes : gmap Z node;
  used : Z
}.

Definition set_sh_mem v (s : shell) := mkShell v (nodes s) (used s).
Definition set_nodes v (s : shell) := mkShell (sh_mem s) v (used s).
Definition set_used v (s : shell) := mkShell (sh_mem s) (nodes s) v.

(** [" \t\r\n\v"] and ["<|>&;()"]. *)
Definition whitespace : list Z := [32; 9; 13; 10; 11].
Definition symbols : list Z := [60; 124; 62; 38; 59; 40; 41].

(** [strchr(s, c)] as a truth value: it finds the NUL too. *)
Definition strchr (s : list Z) (c : Z) : bool := bool_decide (c ∈ s) || (c =? 0).

(** * Tokens *)

Section lexer.
Context (m : mem) (es : Z).

(** [while (s < es && strchr(whitespace, *s)) s++;], with [n = es - s]. *)
Fixpoint skip_space (n : nat) (s : Z) : Z :=
  match n with
  | O => s
  | S n' => if strchr whitespace (m s) then skip_space n' (s + 1) else s
  end.
Definition skip (s : Z) : Z := skip_space (Z.to_nat (es - s)) s.

(** [while (s < es && !strchr(whitespace, *s) && !strchr(symbols, *s)) s++;] *)
Fixpoint skip_chars (n : nat) (s : Z) : Z :=
  match n with
  | O => s
  | S n' => if negb (strchr whitespace (m s)) && negb (strchr symbols (m s)) then skip_chars n' (s + 1) else s
  end.
Definition skip_word (s : Z) : Z := skip_chars (Z.to_nat (es - s)) s.

(** The result, [*q], [*eq] and the new [*ps]. *)
Definition gettoken (s : Z) : Z * Z * Z * Z :=
  let s := skip s in
  let q := s in
  let c := m s in
  let '(ret, s) :=
    if c =? 0 then (c, s)
    else if bool_decide (c ∈ [124; 40; 41; 59; 38; 60]) then (c, s + 1)
    else if c =? 62 then
      let s := s + 1 in
      if m s =? 62 then (43, s + 1) else (c, s)
    else (97, skip_word s) in
  let eq := s in
  (ret, q, eq, skip s).

(** The result and the new [*ps]. *)
Definition peek (s : Z) (toks : list Z) : bool * Z :=
  let s := skip s in
  (negb (m s =? 0) && strchr toks (m s), s).
End lexer.

Section parser.
(** [mem[0]] of malloc1, and O_RDONLY and O_WRONLY | O_CREAT of fcntl.h. *)
Context (arena : Z) (o_rdonly o_wronly_creat : Z).

(** * Nodes *)

(** [malloc1(sizeof( *cmd))], then the node is filled in. *)
Definition malloc1 (n : node) : M shell Z :=
  s ← get;
  let i := used s + sizeof_node n in
  modify (set_used i);;
  if MAXN <? i then panic "malloc1: memory used out" else
  let p := arena + (i - sizeof_node n) in
  modify (fun s => set_nodes (<[p := n]> (nodes s)) s);;
  mret p.

Definition execcmd : M shell Z := malloc1 (EXEC (replicate 10 0) (replicate 10 0)).
Definition redircmd (subcmd file efile mode fd : Z) : M shell Z := malloc1 (REDIR subcmd file efile mode fd).
Definition pipecmd (left right : Z) : M shell Z := malloc1 (PIPE left right).
Definition listcmd (left right : Z) : M shell Z := malloc1 (LIST left right).
Definition backcmd (subcmd : Z) : M shell Z := malloc1 (BACK subcmd).

Definition load_node (p : Z) : M shell node :=
  s ← get; match nodes s !! p with Some n => mret n | None => fault end.

(** [cmd->argv[i] = q; cmd->eargv[i] = eq;] *)
Definition store_arg (p i q eq : Z) : M shell unit :=
  n ← load_node p;
  match n with
  | EXEC argv eargv =>
      if i <? MAXARGS then
        modify (fun s => set_nodes (<[p := EXEC (zset argv i q) (zset eargv i eq)]> (nodes s)) s)
      else fault
  | _ => fault
  end.

(** * Parsing *)

(** The parsing functions return the new value of [*ps] with their result. *)
Section functions.
Context (es : Z).

Definition next_token (s : Z) : M shell (Z * Z * Z * Z) := st ← get; mret (gettoken (sh_mem st) es s).
Definition look (s : Z) (toks : list Z) : M shell (bool * Z) := st ← get; mret (peek (sh_mem st) es s toks).

Fixpoint parseredirs (fuel : nat) (cmd s : Z) : M shell (Z * Z) :=
  match fuel with
  | O => lift OutOfFuel
  | S fuel' =>
      '(b, s) ← look s [60; 62];
      if (b : bool) then
        '(tok, _, _, s) ← next_token s;
        '(t, q, eq, s) ← next_token s;
        if negb (t =? 97) then panic "missing file for redirection" else
        cmd ← (if tok =? 60 then redircmd cmd q eq o_rdonly 0
               else if tok =? 62 then redircmd cmd q eq o_wronly_creat 1
               else if tok =? 43 then redircmd cmd q eq o_wronly_creat 1
               else mret cmd);
        parseredirs fuel' cmd s
      else mret (cmd, s)
  end.

(** The loop of parseexec: [ret], [argc] and [*ps]. *)
Fixpoint parseargs (fuel : nat) (cmd ret argc s : Z) : M shell (Z * Z * Z) :=
  match fuel with
  | O => lift OutOfFuel
  | S fuel' =>
      '(b, s) ← look s [124; 41; 38; 59];
      if (b : bool) then mret (ret, argc, s) else
      '(tok, q, eq, s) ← next_token s;
      if tok =? 0 then mret (ret, argc, s)
      else if negb (tok =? 97) then panic "syntax"
      else
        store_arg cmd argc q eq;;
        let argc := argc + 1 in
        if argc >=? MAXARGS then panic "too many args" else
        '(ret, s) ← parseredirs fuel' ret s;
        parseargs fuel' cmd ret argc s
  end.

(** [while (peek(ps, es, "&"))] of parseline. *)
Fixpoint parseback (fuel : nat) (cmd s : Z) : M shell (Z * Z) :=
  match fuel with
  | O => lift OutOfFuel
  | S fuel' =>
      '(b, s) ← look s [38];
      if (b : bool) then
        '(_, _, _, s) ← next_token s;
        cmd ← backcmd cmd;
        parseback fuel' cmd s
      else mret (cmd, s)
  end.

Fixpoint parseline (fuel : nat) (s : Z) : M shell (Z * Z) :=
  match fuel with
  | O => lift OutOfFuel
  | S fuel' =>
      '(cmd, s) ← parsepipe fuel' s;
      '(cmd, s) ← parseback fuel' cmd s;
      '(b, s) ← look s [59];
      if (b : bool) then
        '(_, _, _, s) ← next_token s;
        '(rest, s) ← parseline fuel' s;
        cmd ← listcmd cmd rest;
        mret (cmd, s)
      else mret (cmd, s)
  end
with parsepipe (fuel : nat) (s : Z) : M shell (Z * Z) :=
  match fuel with
  | O => lift OutOfFuel
  | S fuel' =>
      '(cmd, s) ← parseexec fuel' s;
      '(b, s) ← look s [124];
      if (b : bool) then
        '(_, _, _, s) ← next_token s;
        '(rest, s) ← parsepipe fuel' s;
        cmd ← pipecmd cmd rest;
        mret (cmd, s)
      else mret (cmd, s)
  end
with parseblock (fuel : nat) (s : Z) : M shell (Z * Z) :=
  match fuel with
  | O => lift OutOfFuel
  | S fuel' =>
      '(b, s) ← look s [40];
      if negb (b : bool) then panic "parseblock" else
      '(_, _, _, s) ← next_token s;
      '(cmd, s) ← parseline fuel' s;
      '(b, s) ← look s [41];
      if negb (b : bool) then panic "syntax - missing )" else
      '(_, _, _, s) ← next_token s;
      parseredirs fuel' cmd s
  end
with parseexec (fuel : nat) (s : Z) : M shell (Z * Z) :=
  match fuel with
  | O => lift OutOfFuel
  | S fuel' =>
      '(b, s) ← look s [40];
      if (b : bool) then parseblock fuel' s else
      cmd ← execcmd;
      '(ret, s) ← parseredirs fuel' cmd s;
      '(ret, argc, s) ← parseargs fuel' cmd ret 0 s;
      store_arg cmd argc 0 0;;
      mret (ret, s)
  end.
End functions.

(** [*p = 0]. *)
Definition terminate (p : Z) : M shell unit := modify (fun s => set_sh_mem (store (sh_mem s) p 0) s).

(** [for (i = 0; ecmd->argv[i]; i++) *ecmd->eargv[i] = 0;]; an index behind
    the array is a fault. *)
Fixpoint terminate_args (argv eargv : list Z) : M shell unit :=
  match argv, eargv with
  | a :: argv', e :: eargv' => if a =? 0 then mret tt else terminate e;; terminate_args argv' eargv'
  | _, _ => fault
  end.

(** The call returns its argument. *)
Fixpoint nulterminate (fuel : nat) (p : Z) : M shell unit :=
  match fuel with
  | O => lift OutOfFuel
  | S fuel' =>
      if p =? 0 then mret tt else
      n ← load_node p;
      match n with
      | EXEC argv eargv => terminate_args argv eargv
      | REDIR cmd _ efile _ _ => nulterminate fuel' cmd;; terminate efile
      | PIPE l r | LIST l r => nulterminate fuel' l;; nulterminate fuel' r
      | BACK cmd => nulterminate fuel' cmd
      end
  end.

(** Fuel: four calls for each character that is consumed, and the nodes a
    node points to are allocated before it. *)
Definition parse_fuel (len : Z) : nat := Z.to_nat (4 * len + 8).

Definition parsecmd (fuel : nat) (s : Z) : M shell Z :=
  st ← get;
  len ← lift (strlen fuel (sh_mem st) s);
  let es := s + len in
  '(cmd, s) ← parseline es (parse_fuel len) s;
  '(_, s) ← look es s [];
  if negb (s =? es) then panic "syntax" else
  st ← get;
  nulterminate (S (Z.to_nat (used st))) cmd;;
  mret cmd.
End parser.
