(* ===== verification/ShellLex.v ===== *)
(** The tokens of a shell line: how a sequence of tokens is spelled, with white
    space between them, and that gettoken and peek of user/sh/main.c read any
    spelling back, token by token. *)
From S2P Require Import Prelude Bytes CString Format Shell.

(** * Tokens and their spelling *)

(** A symbol by the result of gettoken ([>>] is 43), or a word. *)
Inductive token :=
  | Sym (c : Z)
  | Word (w : list Z).

#[export] Instance token_eq_dec : EqDecision token.
Proof. solve_decision. Defined.

(** The characters of words. *)
Definition plain (c : Z) : Prop := c <> 0 /\ c ∉ whitespace /\ c ∉ symbols.

Definition valid (t : token) : Prop :=
  match t with
  | Sym c => c ∈ [124; 40; 41; 59; 38; 60; 62; 43]
  | Word w => w <> [] /\ Forall plain w
  end.

Definition text_of (t : token) : list Z :=
  match t with
  | Sym c => if c =? 43 then [62; 62] else [c]
  | Word w => w
  end.

(** What may come next without a space: a word ends before [rest], and [>] is
    not followed by another one. *)
Definition separated (t : token) (rest : list Z) : Prop :=
  match t, rest with
  | Word _, c :: _ => ~ plain c
  | Sym c, d :: _ => c = 62 -> d <> 62
  | _, [] => True
  end.

Definition space (ws : list Z) : Prop := Forall (fun c => c ∈ whitespace) ws.

(** [spelled ts text]: the line [text] consists of the tokens [ts]. *)
Inductive spelled : list token -> list Z -> Prop :=
  | spelled_end ws : space ws -> spelled [] ws
  | spelled_token ws t rest ts : space ws -> valid t -> separated t rest -> spelled ts rest ->
      spelled (t :: ts) (ws ++ text_of t ++ rest).

(** [w] lies at [q] and is followed at [e] by a character of no word. *)
Definition word_at (m : mem) (q e : Z) (w : list Z) : Prop :=
  0 < q /\ e = q + Z.of_nat (length w) /\ w <> [] /\ Forall plain w /\
  read_bytes m q (length w) = w /\ ~ plain (m e).

(** The rest of the line from [s] on consists of the tokens [ts]. *)
Definition lexes (m : mem) (es s : Z) (ts : list token) : Prop :=
  exists text, 0 < s /\ string_at m s text /\ es = s + Z.of_nat (length text) /\ spelled ts text.

(** * Characters *)

#[export] Instance plain_dec c : Decision (plain c).
Proof. unfold plain. apply _. Defined.

Lemma whitespace_not_plain c : c ∈ whitespace -> ~ plain c.
Proof. intros H (_ & Hw & _). done. Qed.

Lemma strchr_whitespace c : c <> 0 -> strchr whitespace c = bool_decide (c ∈ whitespace).
Proof. intros H. unfold strchr. by rewrite (proj2 (Z.eqb_neq c 0) H), orb_false_r. Qed.

Lemma strchr_symbols c : c <> 0 -> strchr symbols c = bool_decide (c ∈ symbols).
Proof. intros H. unfold strchr. by rewrite (proj2 (Z.eqb_neq c 0) H), orb_false_r. Qed.

Lemma plain_test c : c <> 0 -> negb (strchr whitespace c) && negb (strchr symbols c) = bool_decide (plain c).
Proof.
  intros H. rewrite strchr_whitespace, strchr_symbols by done. unfold plain.
  repeat case_bool_decide; cbn; tauto.
Qed.

(** The first character of a token. *)
Lemma text_head t : valid t -> exists c l, text_of t = c :: l /\ c <> 0 /\ c ∉ whitespace /\
  (match t with Word _ => plain c | Sym d => c = (if d =? 43 then 62 else d) end).
Proof.
  destruct t as [c|w]; cbn.
  - intros H. set_unfold in H. exists (if c =? 43 then 62 else c), (if c =? 43 then [62] else []).
    destruct (Z.eqb_spec c 43) as [->|Hc]; (split; [done |]); (split; [lia |]); (split; [| done]).
    + by apply (bool_decide_unpack _).
    + repeat (destruct H as [->|H]; [by apply (bool_decide_unpack _) |]). lia.
  - intros [Hw Hp]. destruct w as [|c w]; [done |]. apply Forall_cons in Hp as [Hp _].
    exists c, w. split; [done |]. split; [apply Hp |]. split; [apply Hp | done].
Qed.

(** * Skipping *)

Section lex.
Context (m : mem) (es : Z).

Lemma skip_space_ok ws : forall r s, string_at m s (ws ++ r) -> space ws ->
  (match r with c :: _ => c ∉ whitespace | [] => True end) ->
  skip_space m (length (ws ++ r)) s = s + Z.of_nat (length ws).
Proof.
  induction ws as [|c ws IH]; intros r s Hs Hws Hr; cbn [app length] in *.
  - destruct r as [|c r]; cbn [length skip_space]; [lia |].
    apply string_at_cons in Hs as (-> & Hc & _). rewrite strchr_whitespace by done.
    rewrite bool_decide_eq_false_2 by done. lia.
  - apply string_at_cons in Hs as (Hm & Hc & Hs). apply Forall_cons in Hws as [Hw Hws].
    cbn [skip_space]. rewrite Hm, strchr_whitespace by done. rewrite bool_decide_eq_true_2 by done.
    rewrite IH by done. lia.
Qed.

Lemma skip_ok ws r s : string_at m s (ws ++ r) -> es = s + Z.of_nat (length (ws ++ r)) -> space ws ->
  (match r with c :: _ => c ∉ whitespace | [] => True end) -> skip m es s = s + Z.of_nat (length ws).
Proof.
  intros Hs -> Hws Hr. unfold skip. rewrite Z.add_simpl_l, Nat2Z.id. by apply skip_space_ok.
Qed.

Lemma skip_word_ok w : forall r s, string_at m s (w ++ r) -> es = s + Z.of_nat (length (w ++ r)) -> Forall plain w ->
  (match r with c :: _ => ~ plain c | [] => True end) -> skip_word m es s = s + Z.of_nat (length w).
Proof.
  intros r s Hs -> Hw Hr. unfold skip_word. rewrite Z.add_simpl_l, Nat2Z.id. revert s Hs.
  induction Hw as [|c w Hc Hw IH]; intros s Hs; cbn [app length] in *.
  - destruct r as [|c r]; cbn [length skip_chars]; [lia |].
    apply string_at_cons in Hs as (-> & Hc & _). rewrite plain_test by done.
    rewrite bool_decide_eq_false_2 by done. lia.
  - apply string_at_cons in Hs as (Hm & Hc0 & Hs). cbn [skip_chars]. rewrite Hm, plain_test by done.
    rewrite bool_decide_eq_true_2 by done. rewrite IH by done. lia.
Qed.

(** Leading space is skipped. *)
Lemma spelled_strip ts text : spelled ts text -> exists ws r, text = ws ++ r /\ space ws /\ spelled ts r /\
  (match r with c :: _ => c ∉ whitespace | [] => True end) /\
  (match ts with [] => r = [] | t :: _ => exists rest, r = text_of t ++ rest end).
Proof.
  destruct 1 as [ws Hws|ws t rest ts Hws Hv Hsep Hts].
  - exists ws, []. rewrite app_nil_r. split_and!; try done. apply spelled_end; constructor.
  - exists ws, (text_of t ++ rest). split_and!; [done | done | apply (spelled_token [] t rest ts); [constructor | done ..] | | by exists rest].
    destruct (text_head t Hv) as (c & l & -> & _ & Hc & _). done.
Qed.

Lemma lexes_skip s ts : lexes m es s ts -> lexes m es (skip m es s) ts /\ skip m es (skip m es s) = skip m es s /\
  (match ts with
   | [] => skip m es s = es /\ m (skip m es s) = 0
   | t :: _ => exists c l, text_of t = c :: l /\ m (skip m es s) = c
   end).
Proof.
  intros (text & Hs0 & Hs & He & Hsp). destruct (spelled_strip _ _ Hsp) as (ws & r & -> & Hws & Hr & Hh & Hts).
  rewrite (skip_ok ws r s Hs He Hws Hh).
  apply string_at_app in Hs as Hs'. destruct Hs' as [_ Hs'].
  assert (He' : es = s + Z.of_nat (length ws) + Z.of_nat (length r)) by (rewrite He, length_app; lia).
  split; [exists r; split_and!; (done || lia) |]. split.
  - rewrite (skip_ok [] r); [cbn; lia | done | done | constructor | done].
  - destruct ts as [|t ts].
    + subst r. cbn [length] in *. split; [lia |]. by apply string_at_nil.
    + destruct Hts as [rest ->]. assert (Hv : valid t) by (by inversion Hr).
      destruct (text_head t Hv) as (c & l & Ht & _). exists c, l. split; [done |].
      rewrite Ht in Hs'. by apply string_at_cons in Hs' as [-> _].
Qed.
(** The character test of peek, for a set of symbols. *)
Definition next_in (toks : list Z) (ts : list token) : bool :=
  match ts with
  | Sym c :: _ => bool_decide ((if c =? 43 then 62 else c) ∈ toks)
  | _ => false
  end.

Lemma peek_ok s ts toks : lexes m es s ts -> Forall (fun c => c ∈ symbols) toks ->
  peek m es s toks = (next_in toks ts, skip m es s).
Proof.
  intros Hl Htoks. unfold peek. f_equal. destruct (lexes_skip s ts Hl) as (Hl' & _ & Hts).
  destruct ts as [|t ts]; [by destruct Hts as [_ ->] |].
  destruct Hts as (c & l & Ht & ->). assert (Hv : valid t).
  { destruct Hl as (text & _ & _ & _ & Hsp). by inversion Hsp. }
  destruct (text_head t Hv) as (c' & l' & Ht' & Hc0 & Hcw & Hch). rewrite Ht in Ht'. injection Ht' as <- <-.
  rewrite (proj2 (Z.eqb_neq c 0) Hc0). cbn [negb andb]. unfold strchr. rewrite (proj2 (Z.eqb_neq c 0) Hc0), orb_false_r.
  destruct t as [d|w]; cbn [next_in]; [by rewrite Hch |].
  apply bool_decide_eq_false_2. intros Hin. rewrite Forall_forall in Htoks. apply (proj2 (proj2 Hch)), Htoks, Hin.
Qed.

(** The code of a token, as gettoken returns it. *)
Definition code (t : token) : Z := match t with Sym c => c | Word _ => 97 end.

(** After the tokens comes the end of the line. *)
Lemma gettoken_end s : lexes m es s [] -> exists q e s', gettoken m es s = (0, q, e, s') /\ lexes m es s' [].
Proof.
  intros Hl. destruct (lexes_skip s [] Hl) as (Hl' & Hi & He & Hm). unfold gettoken. rewrite Hm. cbn [Z.eqb].
  rewrite Hi. by eexists _, _, _.
Qed.
Lemma lexes_token s t ts : lexes m es s (t :: ts) -> exists rest,
  0 < skip m es s /\ string_at m (skip m es s) (text_of t ++ rest) /\
  es = skip m es s + Z.of_nat (length (text_of t ++ rest)) /\ valid t /\ separated t rest /\ spelled ts rest.
Proof.
  intros (text & Hs0 & Hs & He & Hsp). inversion Hsp as [|ws t' rest ts' Hws Hv Hsep Hts]; subst t' ts' text.
  assert (Hh : match text_of t ++ rest with c :: _ => c ∉ whitespace | [] => True end).
  { destruct (text_head t Hv) as (c & l & -> & _ & Hc & _). done. }
  rewrite (skip_ok ws (text_of t ++ rest) s Hs He Hws Hh). apply string_at_app in Hs as [_ Hs].
  exists rest. split_and!; try done; [lia | rewrite He, length_app; lia].
Qed.

(** gettoken up to the last skip. *)
Lemma token_text s t rest : string_at m s (text_of t ++ rest) -> es = s + Z.of_nat (length (text_of t ++ rest)) ->
  valid t -> separated t rest ->
  (let c := m s in
   if c =? 0 then (c, s)
   else if bool_decide (c ∈ [124; 40; 41; 59; 38; 60]) then (c, s + 1)
   else if c =? 62 then if m (s + 1) =? 62 then (43, s + 1 + 1) else (c, s + 1)
   else (97, skip_word m es s)) = (code t, s + Z.of_nat (length (text_of t))).
Proof.
  intros Hs He Hv Hsep. destruct t as [c|w]; cbn [code].
  - assert (Hnext : c = 62 -> m (s + 1) <> 62).
    { intros ->. cbn in Hs. apply string_at_cons in Hs as (_ & _ & Hs). destruct rest as [|d rest].
      - apply string_at_nil in Hs. lia.
      - apply string_at_cons in Hs as (-> & _). by apply Hsep. }
    cbn in Hv. set_unfold in Hv. cbn [text_of] in *.
    destruct Hv as [->|[->|[->|[->|[->|[->|[->|[->|[]]]]]]]]]; cbn [Z.eqb Pos.eqb app] in Hs;
      apply string_at_cons in Hs as (Hm & _ & Hs); rewrite Hm; try reflexivity.
    + cbv zeta. rewrite (proj2 (Z.eqb_neq _ _) (Hnext eq_refl)). reflexivity.
    + apply string_at_cons in Hs as (Hm' & _ & _). cbv zeta. rewrite Hm'. cbn. f_equal. lia.
  - destruct Hv as [Hw Hp]. cbn [text_of] in *.
    assert (Hhead : exists c w', w = c :: w') by (destruct w; [done | by eexists _, _]). destruct Hhead as (c & w' & Ew).
    assert (Hm : m s = c) by (rewrite Ew in Hs; by apply string_at_cons in Hs as [-> _]).
    assert (Hc : plain c) by (rewrite Ew in Hp; by apply Forall_cons in Hp as [Hc _]).
    destruct Hc as (Hc0 & _ & Hcs). cbv zeta. rewrite Hm, (proj2 (Z.eqb_neq c 0) Hc0).
    rewrite bool_decide_eq_false_2 by (intros Hin; apply Hcs; unfold symbols; set_solver).
    rewrite (proj2 (Z.eqb_neq c 62)) by (intros ->; apply Hcs; by apply (bool_decide_unpack _)).
    rewrite (skip_word_ok w rest s); [done | done | done | done |]. by destruct rest.
Qed.

Lemma gettoken_ok s t ts : lexes m es s (t :: ts) -> exists q e s',
  gettoken m es s = (code t, q, e, s') /\ lexes m es s' ts /\ (forall w, t = Word w -> word_at m q e w).
Proof.
  intros (rest & H0 & Hs & He & Hv & Hsep & Hts)%lexes_token. unfold gettoken.
  pose proof (token_text _ t rest Hs He Hv Hsep) as E. cbv zeta in E |- *. rewrite E. set (s1 := skip m es s) in *. eexists _, _, _. split; [done |].
  pose proof Hs as [Hread Hs']%string_at_app. split.
  - refine (proj1 (lexes_skip _ _ _)). exists rest. split_and!; [lia | done | rewrite He, length_app; lia | done].
  - intros w ->. cbn [text_of] in *. destruct Hv as [Hw Hp]. split_and!; try done.
    destruct rest as [|c rest].
    + apply string_at_nil in Hs' as ->. by intros [].
    + by apply string_at_cons in Hs' as (-> & _ & _).
Qed.
End lex.

(** * Every line consists of tokens *)

Lemma plain_split l : exists w r, l = w ++ r /\ Forall plain w /\ match r with c :: _ => ~ plain c | [] => True end.
Proof.
  induction l as [|c l (w & r & -> & Hw & Hr)]; [by exists [], [] |].
  destruct (decide (plain c)); [by exists (c :: w), r; repeat split; [constructor |] | by exists [], (c :: w ++ r)].
Qed.

Lemma spelled_space c ts text : c ∈ whitespace -> spelled ts text -> spelled ts (c :: text).
Proof.
  intros Hc [ws Hws|ws t rest ts' Hws Hv Hsep Hts].
  - apply spelled_end. by constructor.
  - apply (spelled_token (c :: ws)); [by constructor | done ..].
Qed.

Lemma spelled_total text : Forall (fun c => c <> 0) text -> exists ts, spelled ts text.
Proof.
  induction text as [text IH] using (induction_ltof1 _ (@length Z)). unfold ltof in IH. intros Hnz.
  destruct text as [|c text]; [exists []; apply spelled_end; constructor |].
  pose proof Hnz as Hnz'. apply Forall_cons in Hnz' as [Hc Htl].
  assert (Htok : forall t rest, c :: text = text_of t ++ rest -> valid t -> separated t rest -> exists ts, spelled ts (c :: text)).
  { intros t rest E Hv Hsep. destruct (text_head t Hv) as (d & l & Ht & _). destruct (IH rest) as [ts Hts].
    - rewrite E, Ht. cbn. rewrite length_app. lia.
    - rewrite E in Hnz. by apply Forall_app in Hnz as [_ ?].
    - exists (t :: ts). rewrite E. apply (spelled_token [] t rest ts); [constructor | done ..]. }
  destruct (decide (plain c)) as [Hp|Hp].
  { destruct (plain_split (c :: text)) as (w & r & E & Hw & Hr). apply (Htok (Word w) r); [done | | by destruct r].
    split; [| done]. intros ->. cbn in E. rewrite <- E in Hr. done. }
  destruct (decide (c ∈ whitespace)) as [Hw|Hw].
  { destruct (IH text) as [ts Hts]; [cbn; lia | done |]. exists ts. by apply spelled_space. }
  assert (Hs : c ∈ symbols) by (destruct (decide (c ∈ symbols)); [done | by destruct Hp]).
  destruct (decide (c = 62)) as [->|Hne].
  - destruct text as [|d text]; [by apply (Htok (Sym 62) []); [| apply (bool_decide_unpack _) |] |].
    destruct (decide (d = 62)) as [->|Hd].
    + apply (Htok (Sym 43) text); [done | by apply (bool_decide_unpack _) | by destruct text].
    + apply (Htok (Sym 62) (d :: text)); [done | by apply (bool_decide_unpack _) | intros _; done].
  - apply (Htok (Sym c) text).
    + cbn. destruct (Z.eqb_spec c 43) as [->|]; [| done]. unfold symbols in Hs. set_unfold in Hs. lia.
    + cbn. unfold symbols in Hs. set_solver.
    + destruct text; cbn; [done | congruence].
Qed.
