(* ===== verification/ShellSpec.v ===== *)
(** The grammar of the shell and the command a line stands for; the struct nodes
    in memory that represent a command; a rule for each parsing function of
    user/sh/main.c that says it builds the command of the text it consumes. *)
From S2P Require Import Prelude Bytes CString Format Shell ShellLex.

(** * The grammar *)

(** [< file], [> file] or [>> file]: the operator and the file. *)
Definition redir : Type := Z * list Z.

(** line ::= pipe &* | pipe &* ; line
    pipe ::= exec | exec '|' pipe
    exec ::= redir* (word redir* )* | '(' line ')' redir* *)
Inductive line :=
  | LEnd (p : pipe) (n : nat)
  | LSeq (p : pipe) (n : nat) (l : line)
with pipe :=
  | PEnd (e : exec)
  | PSeq (e : exec) (p : pipe)
with exec :=
  | Simple (rs : list redir) (args : list (list Z * list redir))
  | Block (l : line) (rs : list redir).

Scheme line_mut := Induction for line Sort Prop
  with pipe_mut := Induction for pipe Sort Prop
  with exec_mut := Induction for exec Sort Prop.
Combined Scheme syntax_ind from line_mut, pipe_mut, exec_mut.

Definition redir_toks (rs : list redir) : list token := concat (map (fun r => [Sym r.1; Word r.2]) rs).
Definition arg_toks (args : list (list Z * list redir)) : list token :=
  concat (map (fun a => Word a.1 :: redir_toks a.2) args).

Lemma length_redir_toks rs : length (redir_toks rs) = (2 * length rs)%nat.
Proof. unfold redir_toks. induction rs; cbn in *; lia. Qed.

Fixpoint line_toks (l : line) : list token :=
  match l with
  | LEnd p n => pipe_toks p ++ replicate n (Sym 38)
  | LSeq p n l => pipe_toks p ++ replicate n (Sym 38) ++ Sym 59 :: line_toks l
  end
with pipe_toks (p : pipe) : list token :=
  match p with
  | PEnd e => exec_toks e
  | PSeq e p => exec_toks e ++ Sym 124 :: pipe_toks p
  end
with exec_toks (e : exec) : list token :=
  match e with
  | Simple rs args => redir_toks rs ++ arg_toks args
  | Block l rs => Sym 40 :: line_toks l ++ Sym 41 :: redir_toks rs
  end.

(** The operators of redirections, and at most nine words in a command. *)
Definition redirs_ok (rs : list redir) : Prop := Forall (fun r => r.1 ∈ [60; 62; 43]) rs.

Fixpoint line_ok (l : line) : Prop :=
  match l with
  | LEnd p _ => pipe_ok p
  | LSeq p _ l => pipe_ok p /\ line_ok l
  end
with pipe_ok (p : pipe) : Prop :=
  match p with
  | PEnd e => exec_ok e
  | PSeq e p => exec_ok e /\ pipe_ok p
  end
with exec_ok (e : exec) : Prop :=
  match e with
  | Simple rs args => redirs_ok rs /\ Forall (fun a => redirs_ok a.2) args /\ (length args < 10)%nat
  | Block l rs => line_ok l /\ redirs_ok rs
  end.

(** * Commands *)

Inductive cmd :=
  | Exec (args : list (list Z))
  | Redir (c : cmd) (file : list Z) (mode fd : Z)
  | Pipe (l r : cmd)
  | Seq (l r : cmd)
  | Back (c : cmd).

(** The nodes of a command take this much of the array of malloc1. *)
Fixpoint size (c : cmd) : Z :=
  match c with
  | Exec _ => 168
  | Redir c _ _ _ => size c + 40
  | Pipe l r | Seq l r => size l + size r + 24
  | Back c => size c + 16
  end.

Lemma size_pos c : 0 < size c.
Proof. induction c; cbn; lia. Qed.

Section trees.
Context (arena o_rdonly o_wronly_creat : Z).

(** [<] opens for reading as 0, [>] and [>>] for writing as 1. *)
Definition redir_mode (r : redir) : Z := if r.1 =? 60 then o_rdonly else o_wronly_creat.
Definition redir_fd (r : redir) : Z := if r.1 =? 60 then 0 else 1.

Definition redirect (c : cmd) (rs : list redir) : cmd :=
  foldl (fun c r => Redir c r.2 (redir_mode r) (redir_fd r)) c rs.

Definition background (n : nat) (c : cmd) : cmd := Nat.iter n Back c.

Definition simple_redirs (rs : list redir) (args : list (list Z * list redir)) : list redir := rs ++ concat args.*2.

(** The command of a line. *)
Fixpoint line_cmd (l : line) : cmd :=
  match l with
  | LEnd p n => background n (pipe_cmd p)
  | LSeq p n l => Seq (background n (pipe_cmd p)) (line_cmd l)
  end
with pipe_cmd (p : pipe) : cmd :=
  match p with
  | PEnd e => exec_cmd e
  | PSeq e p => Pipe (exec_cmd e) (pipe_cmd p)
  end
with exec_cmd (e : exec) : cmd :=
  match e with
  | Simple rs args => redirect (Exec args.*1) (simple_redirs rs args)
  | Block l rs => redirect (line_cmd l) rs
  end.

(** * Commands in memory *)

(** An array of ten pointers, filled up with NULL. *)
Definition pad (l : list Z) : list Z := l ++ replicate (10 - length l) 0.

Section represented.
(** [P q e w]: the pointers [q] and [e] stand for the word [w]. *)
Context (P : Z -> Z -> list Z -> Prop).

Definition args_at (n : option node) (args : list (list Z)) : Prop :=
  exists ps : list (Z * Z), n = Some (EXEC (pad ps.*1) (pad ps.*2)) /\ Forall2 (fun p w => P p.1 p.2 w) ps args /\
    (length ps < 10)%nat.

(** The node at [p] and the nodes below it represent the command; a node comes
    after the nodes it points to. *)
Fixpoint cmd_at (h : gmap Z node) (p : Z) (c : cmd) : Prop :=
  arena <= p /\
  match c with
  | Exec args => args_at (h !! p) args
  | Redir c file mode fd => exists pc q e, h !! p = Some (REDIR pc q e mode fd) /\ P q e file /\ pc < p /\ cmd_at h pc c
  | Pipe l r => exists pl pr, h !! p = Some (PIPE pl pr) /\ pl < p /\ pr < p /\ cmd_at h pl l /\ cmd_at h pr r
  | Seq l r => exists pl pr, h !! p = Some (LIST pl pr) /\ pl < p /\ pr < p /\ cmd_at h pl l /\ cmd_at h pr r
  | Back c => exists pc, h !! p = Some (BACK pc) /\ pc < p /\ cmd_at h pc c
  end.

(** The redirections [rs] around the node [p0], the last at [p], at addresses
    above [p0]. *)
Inductive chain (h : gmap Z node) (p0 : Z) : Z -> list redir -> Prop :=
  | chain_nil : chain h p0 p0 []
  | chain_snoc p p' rs r q e : chain h p0 p' rs -> h !! p = Some (REDIR p' q e (redir_mode r) (redir_fd r)) ->
      P q e r.2 -> p' < p -> chain h p0 p (rs ++ [r]).

Lemma chain_le h p0 p rs : chain h p0 p rs -> p0 <= p.
Proof. induction 1; lia. Qed.

Lemma chain_app h p0 p1 p2 rs1 rs2 : chain h p0 p1 rs1 -> chain h p1 p2 rs2 -> chain h p0 p2 (rs1 ++ rs2).
Proof.
  intros H1 H2. induction H2 as [|p p' rs r q e _ IH Hp HP Hlt]; [by rewrite app_nil_r |].
  rewrite app_assoc. by econstructor.
Qed.

Lemma chain_one h p0 p r q e : h !! p = Some (REDIR p0 q e (redir_mode r) (redir_fd r)) -> P q e r.2 -> p0 < p ->
  chain h p0 p [r].
Proof. intros. by apply (chain_snoc h p0 p p0 [] r q e); [constructor | ..]. Qed.

(** Nodes up to [p] decide. *)
Lemma chain_ext h h' p0 p rs : chain h p0 p rs -> (forall a, p0 < a <= p -> h' !! a = h !! a) -> chain h' p0 p rs.
Proof.
  induction 1 as [|p p' rs r q e Hc IH Hp HP Hlt]; intros Hext; [constructor |].
  pose proof (chain_le _ _ _ _ Hc). econstructor; [apply IH; intros; apply Hext; lia | | done | done].
  rewrite Hext; [done | lia].
Qed.

Lemma cmd_at_ext h h' c : forall p, cmd_at h p c -> (forall a, a <= p -> h' !! a = h !! a) -> cmd_at h' p c.
Proof.
  induction c; intros p [Ha Hc] Hext; (split; [done |]);
    repeat match goal with H : exists _, _ |- _ => destruct H | H : _ /\ _ |- _ => destruct H end.
  - by rewrite Hext.
  - eexists _, _, _. rewrite Hext by done. split_and!; try done. apply IHc; [done |]. intros. apply Hext. lia.
  - eexists _, _. rewrite Hext by done. split_and!; try done; [apply IHc1 | apply IHc2]; try done; intros; apply Hext; lia.
  - eexists _, _. rewrite Hext by done. split_and!; try done; [apply IHc1 | apply IHc2]; try done; intros; apply Hext; lia.
  - eexists _. rewrite Hext by done. split_and!; try done. apply IHc; [done |]. intros. apply Hext. lia.
Qed.

Lemma cmd_at_low h p c : cmd_at h p c -> arena <= p.
Proof. destruct c; by intros []. Qed.

(** Redirections around a command. *)
Lemma chain_redirect h p0 p rs c : chain h p0 p rs -> cmd_at h p0 c -> cmd_at h p (redirect c rs).
Proof.
  intros Hc H0. induction Hc as [|p p' rs r q e Hc IH Hp HP Hlt]; [done |].
  unfold redirect. rewrite foldl_app. cbn [foldl]. fold (redirect c rs).
  pose proof (cmd_at_low _ _ _ IH). split; [lia |]. by exists p', q, e.
Qed.
End represented.
End trees.
