(* ===== verification/ShellParse.v ===== *)
(** The parser of user/sh/main.c implements the grammar: a rule for each parsing
    function says that on the tokens of a phrase, followed by tokens that end
    it, it returns the node of the command of the phrase. *)
From S2P Require Import Prelude Bytes CString Format Shell ShellLex ShellSpec.

Section parse.
Context (arena o_rdonly o_wronly_creat : Z) (m : mem) (es : Z).
#[local] Notation cmd_in := (cmd_at arena (word_at m)).
#[local] Notation chain_in := (chain o_rdonly o_wronly_creat (word_at m)).

(** The only panic allowed: the array of malloc1 is too small for [n] bytes. *)
Definition too_big (n : Z) : string -> Prop := fun e => e = "malloc1: memory used out"%string /\ MAXN < n.

(** The nodes from [b] on have changed, [n] bytes were allocated. *)
Definition grown (b n : Z) (st st' : shell) : Prop :=
  sh_mem st' = sh_mem st /\ used st' = used st + n /\ (forall a, a < b -> nodes st' !! a = nodes st !! a).

Lemma grown_refl b st : grown b 0 st st.
Proof. split_and!; [done | lia | done]. Qed.

Lemma grown_trans b b' n n' st1 st2 st3 : grown b n st1 st2 -> grown b' n' st2 st3 -> b <= b' ->
  grown b (n + n') st1 st3.
Proof.
  intros (M1 & U1 & N1) (M2 & U2 & N2) Hb. split_and!; [congruence | lia |].
  intros a Ha. rewrite N2 by lia. by apply N1.
Qed.

Lemma wp_weaken {A} (E E' : string -> Prop) (c : M shell A) Q s :
  (forall e, E e -> E' e) -> wp E c Q s -> wp E' c Q s.
Proof. intros HE. unfold wp. destruct (c s) as [[a s']| | | |]; auto. Qed.

Lemma too_big_le n n' : n <= n' -> forall e, too_big n e -> too_big n' e.
Proof. intros Hn e [-> H]. split; [done | lia]. Qed.

Lemma malloc1_ok n st Q :
  (forall p st', p = arena + used st -> nodes st' !! p = Some n -> grown p (sizeof_node n) st st' -> Q p st') ->
  wp (too_big (used st + sizeof_node n)) (malloc1 arena n) Q st.
Proof.
  intros HQ. unfold malloc1. apply wp_bind, wp_get, wp_bind, wp_modify.
  destruct (Z.ltb_spec MAXN (used st + sizeof_node n)); [by split |].
  apply wp_bind, wp_modify, wp_ret. rewrite Z.add_simpl_r. apply HQ; [done | apply lookup_insert_eq |].
  split_and!; [done | done |]. intros a Ha. cbn. apply lookup_insert_ne. lia.
Qed.

Lemma look_ok E s ts toks st Q : sh_mem st = m -> lexes m es s ts -> Forall (fun c => c ∈ symbols) toks ->
  (forall s', lexes m es s' ts -> Q (next_in toks ts, s') st) -> wp E (look es s toks) Q st.
Proof.
  intros Hm Hl Ht HQ. unfold look. apply wp_bind, wp_get, wp_ret. rewrite Hm, (peek_ok m es s ts toks Hl Ht).
  apply HQ, lexes_skip, Hl.
Qed.

Lemma next_token_ok E s t ts st Q : sh_mem st = m -> lexes m es s (t :: ts) ->
  (forall q e s', lexes m es s' ts -> (forall w, t = Word w -> word_at m q e w) -> Q (code t, q, e, s') st) ->
  wp E (next_token es s) Q st.
Proof.
  intros Hm Hl HQ. unfold next_token. apply wp_bind, wp_get, wp_ret. rewrite Hm.
  destruct (gettoken_ok m es s t ts Hl) as (q & e & s' & -> & Hl' & Hw). by apply HQ.
Qed.

(** ** Redirections *)

Lemma redir_code r : redirs_ok [r] ->
  (if r.1 =? 43 then 62 else r.1) ∈ [60; 62] /\
  forall cmd q e, (if r.1 =? 60 then redircmd arena cmd q e o_rdonly 0
     else if r.1 =? 62 then redircmd arena cmd q e o_wronly_creat 1
     else if r.1 =? 43 then redircmd arena cmd q e o_wronly_creat 1 else mret cmd) =
    malloc1 arena (REDIR cmd q e (redir_mode o_rdonly o_wronly_creat r) (redir_fd r)).
Proof.
  intros Hr. unfold redirs_ok in Hr. apply Forall_cons in Hr as [Hr _]. destruct r as [op w]. cbn in *. rewrite !elem_of_cons, elem_of_nil in Hr.
  unfold redir_mode, redir_fd. cbn [fst].
  destruct Hr as [->|[->|[->|[]]]]; (split; [by apply (bool_decide_unpack _) | done]).
Qed.

Lemma parseredirs_ok rs : forall fuel cmd s rest st Q,
  sh_mem st = m -> redirs_ok rs -> lexes m es s (redir_toks rs ++ rest) -> next_in [60; 62] rest = false ->
  (length rs < fuel)%nat -> cmd < arena + used st ->
  (forall p s' st', lexes m es s' rest -> grown (arena + used st) (40 * Z.of_nat (length rs)) st st' ->
    p < arena + used st' -> chain_in (nodes st') cmd p rs -> Q (p, s') st') ->
  wp (too_big (used st + 40 * Z.of_nat (length rs))) (parseredirs arena o_rdonly o_wronly_creat es fuel cmd s) Q st.
Proof.
  induction rs as [|r rs IH]; intros fuel cmd s rest st Q Hm Hok Hl Hrest Hf Hcmd HQ;
    (destruct fuel as [|fuel]; [cbn in Hf; lia |]); cbn [parseredirs]; apply wp_bind;
    (eapply look_ok; [done | exact Hl | by apply (bool_decide_unpack _) |]); intros s1 Hl1.
  - cbn [redir_toks map concat app] in *. rewrite Hrest. apply wp_ret. apply HQ; [done | | done | constructor].
    cbn. apply grown_refl.
  - change (redirs_ok ([r] ++ rs)) in Hok. apply Forall_app in Hok as [Hr Hok].
    destruct (redir_code r Hr) as [Hin Hnode]. cbn [redir_toks map concat app next_in] in *.
    rewrite bool_decide_eq_true_2 by done. cbn [length] in *.
    apply wp_bind. eapply next_token_ok; [done | exact Hl1 |]. intros _q _e s2 Hl2 _.
    apply wp_bind. eapply next_token_ok; [done | exact Hl2 |]. intros q e s3 Hl3 Hw. cbn [code Z.eqb Pos.eqb negb].
    rewrite Hnode. apply wp_bind. eapply wp_weaken; [| apply malloc1_ok].
    { apply too_big_le. cbn. lia. }
    intros p1 st1 -> Hp1 Hg1. destruct Hg1 as (M1 & U1 & N1). cbn [sizeof_node] in *.
    eapply wp_weaken; [| eapply (IH fuel (arena + used st) s3 rest st1); try done; [congruence | lia | lia |]].
    { apply too_big_le. lia. }
    intros p s' st' Hl' Hg Hp Hc. apply HQ; [done | | done |].
    + replace (40 * Z.of_nat (S (length rs))) with (40 + 40 * Z.of_nat (length rs)) by lia.
      eapply grown_trans; [| exact Hg | lia]. by split_and!.
    + destruct Hg as (_ & _ & Ng). apply (chain_app _ _ _ _ _ (arena + used st) p [r] rs); [| done].
      eapply chain_one; [rewrite Ng by lia; exact Hp1 | by apply Hw | done].
Qed.
(** ** Simple commands *)

Lemma pad_store l v : (length l < 10)%nat -> zset (pad l) (Z.of_nat (length l)) v = l ++ v :: replicate (9 - length l) 0.
Proof.
  intros Hl. unfold zset, pad. rewrite Nat2Z.id, insert_app_r_alt, Nat.sub_diag by lia.
  by replace (10 - length l)%nat with (S (9 - length l)) by lia.
Qed.

Lemma pad_snoc l v : (length l < 10)%nat -> zset (pad l) (Z.of_nat (length l)) v = pad (l ++ [v]).
Proof.
  intros Hl. rewrite pad_store by done. unfold pad. rewrite length_app, <- app_assoc. cbn [length app].
  do 3 f_equal. lia.
Qed.

Lemma pad_end l : (length l < 10)%nat -> zset (pad l) (Z.of_nat (length l)) 0 = pad l.
Proof.
  intros Hl. rewrite pad_store by done. unfold pad. f_equal.
  by replace (10 - length l)%nat with (S (9 - length l)) by lia.
Qed.

Lemma store_arg_ok E p i q e argv eargv st Q : nodes st !! p = Some (EXEC argv eargv) -> i < MAXARGS ->
  Q tt (set_nodes (<[p := EXEC (zset argv i q) (zset eargv i e)]> (nodes st)) st) -> wp E (store_arg p i q e) Q st.
Proof.
  intros Hp Hi HQ. unfold store_arg. apply wp_bind. unfold load_node. apply wp_bind, wp_get. rewrite Hp.
  apply wp_ret. rewrite (proj2 (Z.ltb_lt _ _)) by done. by apply wp_modify.
Qed.

(** What may follow a simple command. *)
Definition stops (rest : list token) : Prop :=
  match rest with
  | [] => True
  | Sym c :: _ => c ∈ [124; 41; 38; 59]
  | Word _ :: _ => False
  end.

Lemma stops_redirs rest : stops rest -> next_in [60; 62] rest = false.
Proof.
  destruct rest as [|[c|w] rest]; try done. cbn. intros H. rewrite !elem_of_cons, elem_of_nil in H.
  by destruct H as [->|[->|[->|[->|[]]]]].
Qed.

(** The node [pe] of a command with the words [args] read so far. *)
Definition filled (st : shell) (pe : Z) (ps : list (Z * Z)) (args : list (list Z)) : Prop :=
  nodes st !! pe = Some (EXEC (pad ps.*1) (pad ps.*2)) /\ Forall2 (fun p w => word_at m p.1 p.2 w) ps args.

Lemma parseargs_ok args : forall fuel pe ret ps done_ rs s rest st Q,
  sh_mem st = m -> Forall (fun a => redirs_ok a.2) args -> lexes m es s (arg_toks args ++ rest) -> stops rest ->
  (length (arg_toks args) < fuel)%nat -> filled st pe ps done_ -> (length ps + length args < 10)%nat ->
  ret < arena + used st -> chain_in (nodes st) pe ret rs ->
  (forall ret' s' st' ps', lexes m es s' rest -> filled st' pe ps' (done_ ++ args.*1) ->
    length ps' = (length ps + length args)%nat -> chain_in (nodes st') pe ret' (rs ++ concat args.*2) ->
    grown pe (40 * Z.of_nat (length (concat args.*2))) st st' -> ret' < arena + used st' ->
    Q (ret', Z.of_nat (length ps'), s') st') ->
  wp (too_big (used st + 40 * Z.of_nat (length (concat args.*2))))
    (parseargs arena o_rdonly o_wronly_creat es fuel pe ret (Z.of_nat (length ps)) s) Q st.
Proof.
  induction args as [|[w rs1] args IH]; intros fuel pe ret ps done_ rs s rest st Q Hm Hok Hl Hrest Hf Hfill Hlen Hret Hc HQ;
    (destruct fuel as [|fuel]; [cbn in Hf; lia |]); cbn [parseargs]; apply wp_bind;
    (eapply look_ok; [done | exact Hl | by apply (bool_decide_unpack _) |]); intros s1 Hl1.
  - cbn [arg_toks map concat app] in *. specialize (HQ ret).
    assert (HQ' : forall s', lexes m es s' rest -> Q (ret, Z.of_nat (length ps), s') st).
    { intros s' Hl'. apply HQ; rewrite ?app_nil_r; try done. apply grown_refl. }
    destruct rest as [|[c|] rest]; [| | done].
    + cbn [next_in]. apply wp_bind. unfold next_token. apply wp_bind, wp_get, wp_ret. rewrite Hm.
      destruct (gettoken_end m es s1 Hl1) as (q & e & s' & -> & Hl'). cbn. by apply HQ'.
    + cbn in Hrest. cbn [next_in]. rewrite bool_decide_eq_true_2.
      { apply wp_ret. by apply HQ'. }
      rewrite (proj2 (Z.eqb_neq c 43)); [done |]. intros ->. revert Hrest. by apply (bool_decide_unpack _).
  - apply Forall_cons in Hok as [Hok1 Hok]. change (arg_toks ((w, rs1) :: args)) with (Word w :: redir_toks rs1 ++ arg_toks args) in *.
    cbn [app next_in length] in *. rewrite length_app in Hf.
    apply wp_bind. eapply next_token_ok; [done | exact Hl1 |]. intros q e s2 Hl2 Hw. cbn [code Z.eqb Pos.eqb negb].
    destruct Hfill as [Hpe Hps]. apply wp_bind. eapply store_arg_ok; [exact Hpe | unfold MAXARGS; lia |].
    set (st1 := set_nodes _ st). set (ps1 := ps ++ [(q, e)]).
    assert (Hf1 : filled st1 pe ps1 (done_ ++ [w])).
    { unfold ps1. split; [| by apply Forall2_app; [| constructor; [by apply Hw |]]].
      rewrite !fmap_app. cbn [fmap list_fmap fst snd]. rewrite <- (pad_snoc ps.*1), <- (pad_snoc ps.*2), !length_fmap by (rewrite length_fmap; lia).
      apply lookup_insert_eq. }
    assert (Hl1' : Z.of_nat (length ps) + 1 = Z.of_nat (length ps1)) by (unfold ps1; rewrite length_app; cbn; lia).
    rewrite Hl1', Z.geb_leb, (proj2 (Z.leb_gt _ _)) by (unfold MAXARGS; lia).
    pose proof (chain_le _ _ _ _ _ _ _ Hc) as Hle.
    assert (Hc1 : chain_in (nodes st1) pe ret rs).
    { eapply chain_ext; [exact Hc |]. intros a Ha. apply lookup_insert_ne. lia. }
    assert (Hg0 : grown pe 0 st st1).
    { split_and!; [done | cbn; lia |]. intros a Ha. apply lookup_insert_ne. lia. }
    cbn [fmap list_fmap snd fst concat] in HQ |- *. rewrite length_app in HQ |- *.
    apply wp_bind. eapply wp_weaken; [| eapply (parseredirs_ok rs1 fuel ret s2 (arg_toks args ++ rest) st1); try done].
    { apply too_big_le. cbn. lia. }
    { by rewrite app_assoc. }
    { destruct args; [by apply stops_redirs | done]. }
    { rewrite length_redir_toks in Hf. lia. }
    intros p s3 st2 Hl3 Hg2 Hp2 Hc2. pose proof Hg2 as (M2 & U2 & N2).
    eapply wp_weaken; [| eapply (IH fuel pe p ps1 (done_ ++ [w]) (rs ++ rs1) s3 rest st2); try done].
    { apply too_big_le. cbn in U2. lia. }
    { cbn in M2. congruence. }
    { lia. }
    { destruct Hf1 as [Hn Hw1]. split; [| done]. rewrite N2; [done |]. cbn. lia. }
    { lia. }
    { eapply chain_app; [| exact Hc2]. eapply chain_ext; [exact Hc1 |]. intros a Ha. apply N2. cbn. lia. }
    intros ret' s' st' ps' Hl' Hf' Hlen' Hc' Hg' Hr'. apply HQ; try done.
    + by rewrite <- app_assoc in Hf'.
    + lia.
    + by rewrite <- app_assoc in Hc'.
    + replace (40 * Z.of_nat _) with (0 + (40 * Z.of_nat (length rs1) + 40 * Z.of_nat (length (concat args.*2)))) by lia.
      eapply grown_trans; [exact Hg0 | | reflexivity]. eapply grown_trans; [| exact Hg' | reflexivity].
      split_and!; [done | done |]. intros a Ha. apply N2. cbn. lia.
Qed.
(** ** Phrases *)

(** The tokens that may follow a line and a pipeline. *)
Definition ends_line (rest : list token) : Prop := rest = [] \/ exists tl, rest = Sym 41 :: tl.
Definition ends_pipe (rest : list token) : Prop := ends_line rest \/ exists c tl, rest = Sym c :: tl /\ c ∈ [38; 59].
Definition ends_exec (rest : list token) : Prop := ends_pipe rest \/ exists tl, rest = Sym 124 :: tl.

(** [parses f n toks c]: with [n] units of fuel [f] reads [toks], followed by a
    token in [follow], and returns a node of the command [c]. *)
Definition parses (f : nat -> Z -> M shell (Z * Z)) (n : nat) (follow : list token -> Prop) (toks : list token) (c : cmd) : Prop :=
  forall fuel s rest st Q, (n <= fuel)%nat -> sh_mem st = m -> lexes m es s (toks ++ rest) -> follow rest -> 
  0 <= used st ->
  (forall p s' st', lexes m es s' rest -> cmd_in (nodes st') p c -> p < arena + used st' ->
    grown (arena + used st) (size c) st st' -> Q (p, s') st') ->
  wp (too_big (used st + size c)) (f fuel s) Q st.

Lemma ends_exec_stops rest : ends_exec rest -> stops rest.
Proof.
  intros [[[->|[tl ->]]|(c & tl & -> & Hc)]|[tl ->]]; cbn; try done; try (by apply (bool_decide_unpack _)).
  rewrite !elem_of_cons, elem_of_nil in Hc. destruct Hc as [->|[->|[]]]; by apply (bool_decide_unpack _).
Qed.

Lemma size_redirect rs : forall c, size (redirect o_rdonly o_wronly_creat c rs) = size c + 40 * Z.of_nat (length rs).
Proof.
  induction rs as [|r rs IH]; intros c; cbn [redirect foldl length]; [lia |].
  fold (redirect o_rdonly o_wronly_creat (Redir c r.2 (redir_mode o_rdonly o_wronly_creat r) (redir_fd r)) rs).
  rewrite IH. cbn [size]. lia.
Qed.

Lemma simple_ok rs args : exec_ok (Simple rs args) ->
  parses (parseexec arena o_rdonly o_wronly_creat es) (4 * length (exec_toks (Simple rs args)) + 2) ends_exec
    (exec_toks (Simple rs args)) (exec_cmd o_rdonly o_wronly_creat (Simple rs args)).
Proof.
  intros (Hrs & Hargs & Hlen) fuel s rest st Q Hf Hm Hl Hend Hu HQ. destruct fuel as [|fuel]; [lia |].
  cbn [exec_toks exec_cmd] in *. rewrite size_redirect in HQ |- *. cbn [size] in *. unfold simple_redirs in *.
  rewrite length_app in HQ, Hf |- *. rewrite <- app_assoc in Hl. rewrite length_redir_toks in Hf.
  apply ends_exec_stops in Hend. cbn [parseexec].
  apply wp_bind. eapply look_ok; [done | exact Hl | by apply (bool_decide_unpack _) |]. intros s1 Hl1.
  assert (Hn : next_in [40] (redir_toks rs ++ arg_toks args ++ rest) = false).
  { destruct rs as [|r rs]; cbn.
    - destruct args; [| done]. destruct rest as [|[c|] rest]; try done. cbn in Hend |- *.
      rewrite !elem_of_cons, elem_of_nil in Hend. by destruct Hend as [->|[->|[->|[->|[]]]]].
    - apply Forall_cons in Hrs as [Hr _]. rewrite !elem_of_cons, elem_of_nil in Hr.
      by destruct Hr as [->|[->|[->|[]]]]. }
  rewrite Hn. apply wp_bind. eapply wp_weaken; [| apply malloc1_ok]; [apply too_big_le; cbn; lia |].
  intros pe st1 Epe Hpe Hg1. pose proof Hg1 as (M1 & U1 & N1). cbn [sizeof_node] in *.
  apply wp_bind. eapply wp_weaken; [| eapply (parseredirs_ok rs fuel pe s1 (arg_toks args ++ rest) st1); try done].
  { apply too_big_le. lia. }
  { congruence. }
  { destruct args; [by apply stops_redirs | done]. }
  { lia. }
  { lia. }
  intros p s2 st2 Hl2 Hg2 Hp2 Hc2. pose proof Hg2 as (M2 & U2 & N2).
  apply wp_bind.
  eapply wp_weaken; [| eapply (parseargs_ok args fuel pe p [] [] rs s2 rest st2); try done].
  { apply too_big_le. lia. }
  { congruence. }
  { lia. }
  { split; [| constructor]. by rewrite N2 by lia. }
  intros ret s3 st3 ps Hl3 [Hn3 Hps] Hlen3 Hc3 Hg3 Hr3. pose proof Hg3 as (M3 & U3 & N3). cbn [app length Nat.add] in *.
  apply wp_bind. eapply store_arg_ok; [exact Hn3 | unfold MAXARGS; lia |].
  assert (E : set_nodes (<[pe := EXEC (zset (pad ps.*1) (Z.of_nat (length ps)) 0) (zset (pad ps.*2) (Z.of_nat (length ps)) 0)]> (nodes st3)) st3 = st3).
  { pose proof (pad_end ps.*1) as E1. pose proof (pad_end ps.*2) as E2. rewrite length_fmap in E1, E2.
    rewrite E1, E2, insert_id by (done || lia). by destruct st3. }
  rewrite E. apply wp_ret. apply HQ; [done | | done |].
  - eapply chain_redirect; [exact Hc3 |]. split; [lia |]. exists ps. split_and!; [done | done | lia].
  - replace (168 + _) with (168 + (40 * Z.of_nat (length rs) + 40 * Z.of_nat (length (concat args.*2)))) by lia.
    rewrite Epe in *. eapply grown_trans; [exact Hg1 | | reflexivity]. eapply grown_trans; [| exact Hg3 | reflexivity].
    split_and!; [done | done |]. intros a Ha. apply N2. lia.
Qed.
Lemma size_background n c : size (background n c) = size c + 16 * Z.of_nat n.
Proof. induction n; [cbn; lia |]. change (size (background n c) + 16 = size c + 16 * Z.of_nat (S n)). lia. Qed.

(** A command survives later allocations. *)
Lemma cmd_kept b n st st' p c : grown b n st st' -> p < b -> cmd_in (nodes st) p c -> cmd_in (nodes st') p c.
Proof. intros (_ & _ & N) Hp Hc. eapply cmd_at_ext; [exact Hc |]. intros a Ha. apply N. lia. Qed.

Lemma parseback_ok n : forall fuel p c s rest st Q,
  sh_mem st = m -> lexes m es s (replicate n (Sym 38) ++ rest) -> next_in [38] rest = false -> (n < fuel)%nat ->
  p < arena + used st -> 0 <= used st -> cmd_in (nodes st) p c ->
  (forall p' s' st', lexes m es s' rest -> cmd_in (nodes st') p' (background n c) -> p' < arena + used st' ->
    grown (arena + used st) (16 * Z.of_nat n) st st' -> Q (p', s') st') ->
  wp (too_big (used st + 16 * Z.of_nat n)) (parseback arena es fuel p s) Q st.
Proof.
  induction n as [|n IH]; intros fuel p c s rest st Q Hm Hl Hrest Hf Hp Hu Hc HQ;
    (destruct fuel as [|fuel]; [lia |]); cbn [parseback]; apply wp_bind;
    (eapply look_ok; [done | exact Hl | by apply (bool_decide_unpack _) |]); intros s1 Hl1; cbn [replicate app] in *.
  - rewrite Hrest. apply wp_ret, HQ; try done. apply grown_refl.
  - cbn [next_in]. rewrite bool_decide_eq_true_2 by (by apply (bool_decide_unpack _)).
    apply wp_bind. eapply next_token_ok; [done | exact Hl1 |]. intros q e s2 Hl2 _.
    apply wp_bind. eapply wp_weaken; [| apply malloc1_ok]; [apply too_big_le; cbn; lia |].
    intros p1 st1 Ep1 Hp1 Hg1. pose proof Hg1 as (M1 & U1 & N1). cbn [sizeof_node] in *.
    eapply wp_weaken; [| eapply (IH fuel p1 (Back c) s2 rest st1); try done; try lia].
    { apply too_big_le. lia. }
    { congruence. }
    { pose proof (cmd_at_low _ _ _ _ _ Hc). split; [lia |]. exists p. split_and!; [done | lia |].
      eapply cmd_kept; [exact Hg1 | lia | done]. }
    intros p' s' st' Hl' Hc' Hp' Hg'. apply HQ; [done | | done |].
    + unfold background in *. by rewrite Nat.iter_succ_r.
    + replace (16 * Z.of_nat (S n)) with (16 + 16 * Z.of_nat n) by lia. rewrite Ep1 in *.
      eapply grown_trans; [exact Hg1 | exact Hg' | lia].
Qed.

#[local] Notation line_node := (parseline arena o_rdonly o_wronly_creat es).
#[local] Notation pipe_node := (parsepipe arena o_rdonly o_wronly_creat es).
#[local] Notation exec_node := (parseexec arena o_rdonly o_wronly_creat es).
#[local] Notation block_node := (parseblock arena o_rdonly o_wronly_creat es).
#[local] Notation line_cmd := (line_cmd o_rdonly o_wronly_creat).
#[local] Notation pipe_cmd := (pipe_cmd o_rdonly o_wronly_creat).
#[local] Notation exec_cmd := (exec_cmd o_rdonly o_wronly_creat).

(** Two commands are still there when a node above them is made. *)
Lemma pair_kept st st1 st2 st3 n p1 p2 c1 c2 : 0 <= used st ->
  grown (arena + used st) (size c1) st st1 -> cmd_in (nodes st1) p1 c1 -> p1 < arena + used st1 ->
  grown (arena + used st1) (size c2) st1 st2 -> cmd_in (nodes st2) p2 c2 -> p2 < arena + used st2 ->
  grown (arena + used st2) n st2 st3 ->
  cmd_in (nodes st3) p1 c1 /\ cmd_in (nodes st3) p2 c2 /\ arena <= p1 /\
  p1 < arena + used st2 /\ grown (arena + used st) (size c1 + size c2 + n) st st3.
Proof.
  intros Hu Hg1 Hc1 Hp1 Hg2 Hc2 Hp2 Hg3. pose proof (size_pos c1). pose proof (size_pos c2).
  pose proof Hg1 as (M1 & U1 & N1). pose proof Hg2 as (M2 & U2 & N2). split_and!.
  - eapply cmd_kept; [exact Hg3 | lia |]. eapply cmd_kept; [exact Hg2 | lia | done].
  - eapply cmd_kept; [exact Hg3 | lia | done].
  - by eapply cmd_at_low.
  - lia.
  - eapply grown_trans; [| exact Hg3 | lia]. eapply grown_trans; [exact Hg1 | exact Hg2 | lia].
Qed.

Lemma pipe_end_ok e : exec_ok e ->
  parses exec_node (4 * length (exec_toks e) + 2) ends_exec (exec_toks e) (exec_cmd e) ->
  parses pipe_node (4 * length (exec_toks e) + 3) ends_pipe (exec_toks e) (exec_cmd e).
Proof.
  intros Hok He fuel s rest st Q Hf Hm Hl Hend Hu HQ. destruct fuel as [|fuel]; [lia |]. cbn [parsepipe].
  apply wp_bind. eapply (He fuel s rest st); try done; [lia | by left |]. intros p s1 st1 Hl1 Hc1 Hp1 Hg1.
  apply wp_bind. eapply look_ok; [| exact Hl1 | by apply (bool_decide_unpack _) |].
  { destruct Hg1. congruence. }
  intros s2 Hl2. replace (next_in [124] rest) with false; [apply wp_ret; by apply HQ |].
  destruct Hend as [[->|[tl ->]]|(c & tl & -> & Hc)]; [done | done |]. cbn.
  rewrite !elem_of_cons, elem_of_nil in Hc. by destruct Hc as [->|[->|[]]].
Qed.

Lemma pipe_seq_ok e p : exec_ok e ->
  parses exec_node (4 * length (exec_toks e) + 2) ends_exec (exec_toks e) (exec_cmd e) ->
  parses pipe_node (4 * length (pipe_toks p) + 3) ends_pipe (pipe_toks p) (pipe_cmd p) ->
  parses pipe_node (4 * length (pipe_toks (PSeq e p)) + 3) ends_pipe (pipe_toks (PSeq e p)) (pipe_cmd (PSeq e p)).
Proof.
  intros Hok He Hp fuel s rest st Q Hf Hm Hl Hend Hu HQ. destruct fuel as [|fuel]; [lia |].
  change (pipe_cmd (PSeq e p)) with (Pipe (exec_cmd e) (pipe_cmd p)) in *.
  change (pipe_toks (PSeq e p)) with (exec_toks e ++ Sym 124 :: pipe_toks p) in *.
  cbn [parsepipe size] in *. rewrite <- app_assoc in Hl. rewrite length_app in Hf. cbn [length app] in *.
  pose proof (size_pos (exec_cmd e)). pose proof (size_pos (pipe_cmd p)).
  apply wp_bind. eapply wp_weaken; [| eapply (He fuel s (Sym 124 :: pipe_toks p ++ rest) st); try done; [lia | right; by eexists |]].
  { apply too_big_le. lia. }
  intros p1 s1 st1 Hl1 Hc1 Hp1 Hg1. pose proof Hg1 as (M1 & U1 & N1).
  apply wp_bind. eapply look_ok; [congruence | exact Hl1 | by apply (bool_decide_unpack _) |]. intros s2 Hl2.
  cbn [next_in]. rewrite bool_decide_eq_true_2 by (by apply (bool_decide_unpack _)).
  apply wp_bind. eapply next_token_ok; [congruence | exact Hl2 |]. intros q e' s3 Hl3 _.
  apply wp_bind. eapply wp_weaken; [| eapply (Hp fuel s3 rest st1); try done; [lia | congruence | lia |]].
  { apply too_big_le. lia. }
  intros p2 s4 st2 Hl4 Hc2 Hp2 Hg2. pose proof Hg2 as (M2 & U2 & N2).
  apply wp_bind. eapply wp_weaken; [| apply malloc1_ok]; [apply too_big_le; cbn; lia |].
  intros p3 st3 Ep3 Hp3 Hg3. pose proof Hg3 as (M3 & U3 & N3). cbn [sizeof_node] in *.
  rewrite Ep3 in *. destruct (pair_kept _ _ _ _ _ _ _ _ _ Hu Hg1 Hc1 Hp1 Hg2 Hc2 Hp2 Hg3) as (K1 & K2 & Kl & Kp & Kg).
  apply wp_ret. apply HQ; [done | | lia | done]. split; [lia |]. by exists p1, p2.
Qed.

(** The beginning of a line, up to the ampersands. *)
Lemma line_head_ok p n fuel s rest st Q B :
  parses pipe_node (4 * length (pipe_toks p) + 3) ends_pipe (pipe_toks p) (pipe_cmd p) ->
  (4 * length (pipe_toks p) + 3 <= fuel)%nat -> (n < fuel)%nat ->
  sh_mem st = m -> lexes m es s (pipe_toks p ++ replicate n (Sym 38) ++ rest) ->
  next_in [38] rest = false -> ends_pipe rest -> 0 <= used st ->
  used st + size (background n (pipe_cmd p)) <= B ->
  (forall p' s' st', lexes m es s' rest -> cmd_in (nodes st') p' (background n (pipe_cmd p)) -> p' < arena + used st' ->
    grown (arena + used st) (size (background n (pipe_cmd p))) st st' -> Q (p', s') st') ->
  wp (too_big B) (pipe_node fuel s) (fun ps st1 => wp (too_big B) (parseback arena es fuel ps.1 ps.2) Q st1) st.
Proof.
  intros Hp Hf Hn Hm Hl Hrest Hend Hu HB HQ. rewrite size_background in *. pose proof (size_pos (pipe_cmd p)).
  eapply wp_weaken; [| eapply (Hp fuel s (replicate n (Sym 38) ++ rest) st); try done].
  { apply too_big_le. lia. }
  { destruct n; [done |]. right. eexists _, _. split; [done | by apply (bool_decide_unpack _)]. }
  intros p1 s1 st1 Hl1 Hc1 Hp1 Hg1. pose proof Hg1 as (M1 & U1 & N1). cbn [fst snd].
  eapply wp_weaken; [| eapply (parseback_ok n fuel p1 (pipe_cmd p) s1 rest st1); try done; [congruence | lia |]].
  { apply too_big_le. lia. }
  intros p2 s2 st2 Hl2 Hc2 Hp2 Hg2. apply HQ; try done. eapply grown_trans; [exact Hg1 | exact Hg2 | lia].
Qed.

Lemma line_end_ok p n :
  parses pipe_node (4 * length (pipe_toks p) + 3) ends_pipe (pipe_toks p) (pipe_cmd p) ->
  parses line_node (4 * length (line_toks (LEnd p n)) + 4) ends_line (line_toks (LEnd p n)) (line_cmd (LEnd p n)).
Proof.
  intros Hp fuel s rest st Q Hf Hm Hl Hend Hu HQ. destruct fuel as [|fuel]; [lia |].
  change (line_cmd (LEnd p n)) with (background n (pipe_cmd p)) in *.
  change (line_toks (LEnd p n)) with (pipe_toks p ++ replicate n (Sym 38)) in *.
  rewrite <- app_assoc in Hl. rewrite length_app, length_replicate in Hf. cbn [parseline].
  apply wp_bind. eapply wp_mono; [eapply (line_head_ok p n fuel s rest st
    (fun ps st' => wp (too_big (used st + size (background n (pipe_cmd p)))) ('(b, s) ← look es ps.2 [59];
      if (b : bool) then '(_, _, _, s) ← next_token es s; '(r, s) ← line_node fuel s; cmd ← listcmd arena ps.1 r; mret (cmd, s)
      else mret (ps.1, s)) Q st')); try done; try lia |].
  - by destruct Hend as [->|[tl ->]].
  - by left.
  - intros p1 s1 st1 Hl1 Hc1 Hp1 Hg1. cbn [fst snd]. apply wp_bind.
    eapply look_ok; [by destruct Hg1; congruence | exact Hl1 | by apply (bool_decide_unpack _) |]. intros s2 Hl2.
    replace (next_in [59] rest) with false by (by destruct Hend as [->|[tl ->]]). apply wp_ret. by apply HQ.
  - intros [p1 s1] st1 H. apply wp_bind. eapply wp_mono; [exact H |]. intros [p2 s2] st2 H2. exact H2.
Qed.

Lemma line_seq_ok p n l :
  parses pipe_node (4 * length (pipe_toks p) + 3) ends_pipe (pipe_toks p) (pipe_cmd p) ->
  parses line_node (4 * length (line_toks l) + 4) ends_line (line_toks l) (line_cmd l) ->
  parses line_node (4 * length (line_toks (LSeq p n l)) + 4) ends_line (line_toks (LSeq p n l)) (line_cmd (LSeq p n l)).
Proof.
  intros Hp Hline fuel s rest st Q Hf Hm Hl Hend Hu HQ. destruct fuel as [|fuel]; [lia |].
  change (line_cmd (LSeq p n l)) with (Seq (background n (pipe_cmd p)) (line_cmd l)) in *.
  change (line_toks (LSeq p n l)) with (pipe_toks p ++ replicate n (Sym 38) ++ Sym 59 :: line_toks l) in *.
  rewrite <- !app_assoc in Hl. rewrite !length_app, length_replicate in Hf. cbn [parseline size length app] in *.
  pose proof (size_pos (line_cmd l)). pose proof (size_pos (background n (pipe_cmd p))).
  set (B := used st + (size (background n (pipe_cmd p)) + size (line_cmd l) + 24)) in *.
  apply wp_bind. eapply wp_mono; [eapply (line_head_ok p n fuel s (Sym 59 :: line_toks l ++ rest) st
    (fun ps st' => wp (too_big B) ('(b, s) ← look es ps.2 [59];
      if (b : bool) then '(_, _, _, s) ← next_token es s; '(r, s) ← line_node fuel s; cmd ← listcmd arena ps.1 r; mret (cmd, s)
      else mret (ps.1, s)) Q st')); try done; try lia |].
  - right. eexists _, _. split; [done | by apply (bool_decide_unpack _)].
  - intros p1 s1 st1 Hl1 Hc1 Hp1 Hg1. pose proof Hg1 as (M1 & U1 & N1). cbn [fst snd].
    apply wp_bind. eapply look_ok; [congruence | exact Hl1 | by apply (bool_decide_unpack _) |]. intros s2 Hl2.
    cbn [next_in]. rewrite bool_decide_eq_true_2 by (by apply (bool_decide_unpack _)).
    apply wp_bind. eapply next_token_ok; [congruence | exact Hl2 |]. intros q e' s3 Hl3 _.
    apply wp_bind. eapply wp_weaken; [| eapply (Hline fuel s3 rest st1); try done; [lia | congruence | lia |]].
    { apply too_big_le. lia. }
    intros p2 s4 st2 Hl4 Hc2 Hp2 Hg2. pose proof Hg2 as (M2 & U2 & N2).
    apply wp_bind. eapply wp_weaken; [| apply malloc1_ok]; [apply too_big_le; cbn; lia |].
    intros p3 st3 Ep3 Hp3 Hg3. pose proof Hg3 as (M3 & U3 & N3). cbn [sizeof_node] in *.
    rewrite Ep3 in *. destruct (pair_kept _ _ _ _ _ _ _ _ _ Hu Hg1 Hc1 Hp1 Hg2 Hc2 Hp2 Hg3) as (K1 & K2 & Kl & Kp & Kg).
    apply wp_ret. apply HQ; [done | | lia | done]. split; [lia |]. by exists p1, p2.
  - intros [p1 s1] st1 H2. apply wp_bind. eapply wp_mono; [exact H2 |]. intros [p2 s2] st2 H3. exact H3.
Qed.
Lemma block_ok l rs : redirs_ok rs ->
  parses line_node (4 * length (line_toks l) + 4) ends_line (line_toks l) (line_cmd l) ->
  parses exec_node (4 * length (exec_toks (Block l rs)) + 2) ends_exec (exec_toks (Block l rs)) (exec_cmd (Block l rs)).
Proof.
  intros Hrs Hline fuel s rest st Q Hf Hm Hl Hend Hu HQ. apply ends_exec_stops in Hend.
  change (exec_cmd (Block l rs)) with (redirect o_rdonly o_wronly_creat (line_cmd l) rs) in *.
  change (exec_toks (Block l rs)) with (Sym 40 :: line_toks l ++ Sym 41 :: redir_toks rs) in *.
  cbn [app length] in *. rewrite <- app_assoc in Hl. cbn [app] in Hl. rewrite length_app in Hf. cbn [length] in Hf.
  rewrite length_redir_toks in Hf. rewrite size_redirect in *.
  destruct fuel as [|[|fuel]]; [lia | lia |]. cbn [parseexec]. pose proof (size_pos (line_cmd l)).
  apply wp_bind. eapply look_ok; [done | exact Hl | by apply (bool_decide_unpack _) |]. intros s1 Hl1.
  cbn [next_in parseblock]. rewrite bool_decide_eq_true_2 by (by apply (bool_decide_unpack _)).
  apply wp_bind. eapply look_ok; [done | exact Hl1 | by apply (bool_decide_unpack _) |]. intros s2 Hl2.
  cbn [next_in]. rewrite bool_decide_eq_true_2 by (by apply (bool_decide_unpack _)). cbn [negb].
  apply wp_bind. eapply next_token_ok; [done | exact Hl2 |]. intros q e s3 Hl3 _.
  apply wp_bind. eapply wp_weaken; [| eapply (Hline fuel s3 (Sym 41 :: redir_toks rs ++ rest) st); try done; [lia | right; by eexists |]].
  { apply too_big_le. lia. }
  intros p s4 st1 Hl4 Hc1 Hp1 Hg1. pose proof Hg1 as (M1 & U1 & N1).
  apply wp_bind. eapply look_ok; [congruence | exact Hl4 | by apply (bool_decide_unpack _) |]. intros s5 Hl5.
  cbn [next_in]. rewrite bool_decide_eq_true_2 by (by apply (bool_decide_unpack _)). cbn [negb].
  apply wp_bind. eapply next_token_ok; [congruence | exact Hl5 |]. intros q' e' s6 Hl6 _.
  eapply wp_weaken; [| eapply (parseredirs_ok rs fuel p s6 rest st1); try done; [congruence | by apply stops_redirs | lia |]].
  { apply too_big_le. lia. }
  intros p2 s7 st2 Hl7 Hg2 Hp2 Hc2. apply HQ; [done | | done |].
  - eapply chain_redirect; [exact Hc2 |]. eapply cmd_kept; [exact Hg2 | lia | done].
  - eapply grown_trans; [exact Hg1 | exact Hg2 | lia].
Qed.

(** Every phrase of the grammar is parsed to its command. *)
Lemma syntax_ok :
  (forall l, line_ok l -> parses line_node (4 * length (line_toks l) + 4) ends_line (line_toks l) (line_cmd l)) /\
  (forall p, pipe_ok p -> parses pipe_node (4 * length (pipe_toks p) + 3) ends_pipe (pipe_toks p) (pipe_cmd p)) /\
  (forall e, exec_ok e -> parses exec_node (4 * length (exec_toks e) + 2) ends_exec (exec_toks e) (exec_cmd e)).
Proof.
  apply syntax_ind.
  - intros p Hp n Hok. by apply line_end_ok, Hp.
  - intros p Hp n l Hl [Hok1 Hok2]. apply line_seq_ok; auto.
  - intros e He Hok. apply pipe_end_ok; [done | by apply He].
  - intros e He p Hp [Hok1 Hok2]. apply pipe_seq_ok; auto.
  - intros rs args Hok. by apply simple_ok.
  - intros l Hl rs [Hok1 Hok2]. apply block_ok; auto.
Qed.
End parse.
