(* ===== verification/ShellSound.v ===== *)
(** The parser of user/sh/main.c on any line: it ends, with a message or after
    reading a phrase of the grammar; and nulterminate makes the words of the
    command strings. *)
From S2P Require Import Prelude Bytes CString Format Shell ShellLex ShellSpec ShellParse.

(** * Lines that are no phrases *)

Section sound.
Context (arena o_rdonly o_wronly_creat : Z) (m : mem) (es : Z).

(** The nodes that exist stay as they are. *)
Definition later (st st' : shell) : Prop :=
  sh_mem st' = sh_mem st /\ used st <= used st' /\
  (forall a, a < arena + used st -> nodes st' !! a = nodes st !! a).

Lemma later_refl st : later st st.
Proof. split_and!; [done | lia | done]. Qed.

Lemma later_trans st1 st2 st3 : later st1 st2 -> later st2 st3 -> later st1 st3.
Proof.
  intros (M1 & U1 & N1) (M2 & U2 & N2). split_and!; [congruence | lia |].
  intros a Ha. rewrite N2 by lia. by apply N1.
Qed.

Definition any : string -> Prop := fun _ => True.

Lemma wp_panic {A} msg (Q : A -> shell -> Prop) st : wp any (panic msg) Q st.
Proof. done. Qed.

Lemma malloc1_any n st Q :
  (forall p st', p = arena + used st -> p < arena + used st' -> nodes st' !! p = Some n -> later st st' -> Q p st') ->
  wp any (malloc1 arena n) Q st.
Proof.
  intros HQ. eapply wp_weaken; [| apply malloc1_ok]; [done |]. intros p st' -> Hp (M & U & N).
  assert (0 < sizeof_node n) by (by destruct n). apply HQ; [done | lia | done |]. split_and!; [done | lia | done].
Qed.

Lemma next_token_any E s ts st Q : sh_mem st = m -> lexes m es s ts ->
  (forall q e s', lexes m es s' (tail ts) -> Q (match ts with [] => 0 | t :: _ => code t end, q, e, s') st) ->
  wp E (next_token es s) Q st.
Proof.
  intros Hm Hl HQ. destruct ts as [|t ts].
  - unfold next_token. apply wp_bind, wp_get, wp_ret. rewrite Hm.
    destruct (gettoken_end m es s Hl) as (q & e & s' & -> & Hl'). by apply HQ.
  - eapply next_token_ok; [done | exact Hl |]. intros q e s' Hl' _. by apply HQ.
Qed.

Lemma lexes_valid s t ts : lexes m es s (t :: ts) -> valid t.
Proof. intros (text & _ & _ & _ & Hsp). by inversion Hsp. Qed.

Lemma next_in_true toks ts : next_in toks ts = true -> exists c tl, ts = Sym c :: tl /\ (if c =? 43 then 62 else c) ∈ toks.
Proof.
  destruct ts as [|[c|w] ts]; try done. cbn. intros H%bool_decide_eq_true. by exists c, ts.
Qed.

(** A symbol other than [>>]. *)
Lemma next_in_one d ts : d <> 62 -> next_in [d] ts = true -> exists tl, ts = Sym d :: tl.
Proof.
  intros Hd (c & tl & -> & Hc)%next_in_true. exists tl. rewrite elem_of_cons, elem_of_nil in Hc.
  destruct Hc as [Hc|[]]. destruct (Z.eqb_spec c 43); congruence.
Qed.

Lemma parseredirs_any fuel : forall cmd ts s st Q,
  sh_mem st = m -> lexes m es s ts -> (length ts < fuel)%nat -> cmd < arena + used st ->
  (forall p s' st' rs rest, ts = redir_toks rs ++ rest -> redirs_ok rs -> lexes m es s' rest -> later st st' ->
    p < arena + used st' -> Q (p, s') st') ->
  wp any (parseredirs arena o_rdonly o_wronly_creat es fuel cmd s) Q st.
Proof.
  induction fuel as [|fuel IH]; intros cmd ts s st Q Hm Hl Hf Hcmd HQ; [lia |]. cbn [parseredirs].
  apply wp_bind. eapply look_ok; [done | exact Hl | by apply (bool_decide_unpack _) |]. intros s1 Hl1.
  destruct (next_in [60; 62] ts) eqn:Hn; [| apply wp_ret; apply (HQ cmd s1 st [] ts); try done; constructor].
  apply next_in_true in Hn as (c & tl & -> & Hc). pose proof (lexes_valid _ _ _ Hl1) as Hv.
  assert (Hop : redirs_ok [(c, [])]).
  { constructor; [| constructor]. cbn. destruct (Z.eqb_spec c 43) as [->|]; [by apply (bool_decide_unpack _) |]. set_solver. }
  apply wp_bind. eapply next_token_any; [done | exact Hl1 |]. intros q0 e0 s2 Hl2. cbn [tail code] in *.
  apply wp_bind. eapply next_token_any; [done | exact Hl2 |]. intros q e s3 Hl3.
  destruct tl as [|[d|w] tl]; [apply wp_panic | |].
  { cbn [code]. pose proof (lexes_valid _ _ _ Hl2) as Hd. destruct (Z.eqb_spec d 97) as [->|]; [| apply wp_panic].
    exfalso. revert Hd. cbn. by apply (bool_decide_unpack _). }
  cbn [code Z.eqb Pos.eqb negb tail length] in *.
  assert (Hop' : redirs_ok [(c, w)]) by (apply Forall_cons in Hop as [Hop _]; by constructor; [| constructor]).
  rewrite (proj2 (redir_code arena o_rdonly o_wronly_creat (c, w) Hop')).
  apply wp_bind, malloc1_any. intros p1 st1 -> Hp1 _ Hlt. eapply (IH _ tl s3 st1); [by destruct Hlt; congruence | done | lia | done |].
  intros p s' st' rs rest -> Hrs Hl' Hlt' Hp. apply (HQ p s' st' ((c, w) :: rs) rest); try done.
  - constructor; [by apply Forall_cons in Hop' as [? _] | done].
  - by eapply later_trans.
Qed.

(** The node of a simple command is there with its arrays. *)
Definition is_exec (st : shell) (pe : Z) : Prop := pe < arena + used st /\ exists a e, nodes st !! pe = Some (EXEC a e).

Lemma is_exec_later st st' pe : later st st' -> is_exec st pe -> is_exec st' pe.
Proof. intros (M & U & N) (Hp & a & e & Hn). split; [lia |]. exists a, e. by rewrite N. Qed.

(** Only the node [pe] may change. *)
Definition later_but (pe : Z) (st st' : shell) : Prop :=
  sh_mem st' = sh_mem st /\ used st <= used st' /\
  (forall a, a < arena + used st -> a <> pe -> nodes st' !! a = nodes st !! a).

Lemma parseargs_any fuel : forall pe ret argc ts s st Q,
  sh_mem st = m -> lexes m es s ts -> (length ts < fuel)%nat -> ret < arena + used st -> is_exec st pe -> 0 <= argc < 10 ->
  (forall ret' argc' s' st' args rest, ts = arg_toks args ++ rest -> Forall (fun a => redirs_ok a.2) args ->
    argc' = argc + Z.of_nat (length args) -> argc' < 10 -> lexes m es s' rest ->
    later_but pe st st' -> is_exec st' pe -> ret' < arena + used st' -> Q (ret', argc', s') st') ->
  wp any (parseargs arena o_rdonly o_wronly_creat es fuel pe ret argc s) Q st.
Proof.
  induction fuel as [|fuel IH]; intros pe ret argc ts s st Q Hm Hl Hf Hret Hpe Hargc HQ; [lia |]. cbn [parseargs].
  apply wp_bind. eapply look_ok; [done | exact Hl | by apply (bool_decide_unpack _) |]. intros s1 Hl1.
  assert (HQ0 : forall s', lexes m es s' ts -> Q (ret, argc, s') st).
  { intros s' Hl'. apply (HQ ret argc s' st [] ts); try done; cbn; lia. }
  destruct (next_in [124; 41; 38; 59] ts); [apply wp_ret; by apply HQ0 |].
  apply wp_bind. eapply next_token_any; [done | exact Hl1 |]. intros q e s2 Hl2.
  destruct ts as [|[c|w] ts]; [apply wp_ret; by apply HQ0 | |].
  { cbn [code]. pose proof (lexes_valid _ _ _ Hl1) as Hv. cbn in Hv.
    destruct (Z.eqb_spec c 0) as [->|]; [exfalso; revert Hv; by apply (bool_decide_unpack _) |].
    destruct (Z.eqb_spec c 97) as [->|]; [exfalso; revert Hv; by apply (bool_decide_unpack _) |]. apply wp_panic. }
  cbn [code Z.eqb Pos.eqb negb tail length] in *. destruct Hpe as (Hpl & a & e' & Hn).
  apply wp_bind. eapply store_arg_ok; [exact Hn | unfold MAXARGS; lia |]. set (st1 := set_nodes _ st).
  assert (Hpe1 : is_exec st1 pe) by (split; [done |]; eexists _, _; apply lookup_insert_eq).
  rewrite Z.geb_leb. destruct (Z.leb_spec MAXARGS (argc + 1)) as [|Hlt]; [apply wp_panic |]. unfold MAXARGS in Hlt.
  apply wp_bind. eapply (parseredirs_any fuel ret ts s2 st1); [done | done | lia | done |].
  intros p s3 st2 rs rest -> Hrs Hl3 Hlt2 Hp. rewrite length_app in Hf.
  eapply (IH pe p (argc + 1) rest s3 st2); [by destruct Hlt2 as [-> _] | done | lia | done | by eapply is_exec_later | lia |].
  intros ret' argc' s' st' args rest' -> Hargs Hc Hc10 Hl' Hlt' Hpe' Hr'.
  apply (HQ ret' argc' s' st' ((w, rs) :: args) rest'); try done.
  - change (arg_toks ((w, rs) :: args)) with (Word w :: redir_toks rs ++ arg_toks args). cbn [app]. by rewrite <- app_assoc.
  - by constructor.
  - cbn [length]. lia.
  - destruct Hlt2 as (M2 & U2 & N2), Hlt' as (M3 & U3 & N3). cbn in M2, U2, N2. split_and!; [congruence | lia |].
    intros x Hx Hne. rewrite N3, N2 by lia || done. by apply lookup_insert_ne.
Qed.
Lemma parseback_any fuel : forall cmd ts s st Q,
  sh_mem st = m -> lexes m es s ts -> (length ts < fuel)%nat -> cmd < arena + used st ->
  (forall p s' st' n rest, ts = replicate n (Sym 38) ++ rest -> lexes m es s' rest -> later st st' ->
    p < arena + used st' -> Q (p, s') st') ->
  wp any (parseback arena es fuel cmd s) Q st.
Proof.
  induction fuel as [|fuel IH]; intros cmd ts s st Q Hm Hl Hf Hcmd HQ; [lia |]. cbn [parseback].
  apply wp_bind. eapply look_ok; [done | exact Hl | by apply (bool_decide_unpack _) |]. intros s1 Hl1.
  destruct (next_in [38] ts) eqn:Hn; [| by apply wp_ret; apply (HQ cmd s1 st 0%nat ts)].
  apply next_in_one in Hn as [tl ->]; [| done].
  apply wp_bind. eapply next_token_any; [done | exact Hl1 |]. intros q e s2 Hl2. cbn [tail length] in *.
  apply wp_bind, malloc1_any. intros p1 st1 -> Hp1 _ Hlt.
  eapply (IH _ tl s2 st1); [by destruct Hlt; congruence | done | lia | done |].
  intros p s' st' n rest -> Hl' Hlt' Hp. apply (HQ p s' st' (S n) rest); try done. by eapply later_trans.
Qed.

(** [f] reads a phrase [x] from the tokens and goes on behind it. *)
Definition reads {X} (toks : X -> list token) (ok : X -> Prop) (f : nat -> Z -> M shell (Z * Z)) (k fuel : nat) : Prop :=
  forall ts s st Q, sh_mem st = m -> lexes m es s ts -> (4 * length ts + k <= fuel)%nat ->
  (forall p s' st' x rest, ts = toks x ++ rest -> ok x -> lexes m es s' rest -> later st st' ->
    p < arena + used st' -> Q (p, s') st') ->
  wp any (f fuel s) Q st.

#[local] Notation line_node := (parseline arena o_rdonly o_wronly_creat es).
#[local] Notation pipe_node := (parsepipe arena o_rdonly o_wronly_creat es).
#[local] Notation exec_node := (parseexec arena o_rdonly o_wronly_creat es).
#[local] Notation block_node := (parseblock arena o_rdonly o_wronly_creat es).

Lemma exec_reads fuel : reads exec_toks exec_ok block_node 1 fuel -> reads exec_toks exec_ok exec_node 2 (S fuel).
Proof.
  intros Hb ts s st Q Hm Hl Hf HQ. cbn [parseexec].
  apply wp_bind. eapply look_ok; [done | exact Hl | by apply (bool_decide_unpack _) |]. intros s1 Hl1.
  destruct (next_in [40] ts); [by apply (Hb ts s1 st); [| | lia |] |].
  apply wp_bind, malloc1_any. intros pe st1 Epe Hpl Hpe Hlt1.
  assert (Hpe1 : is_exec st1 pe) by (split; [done | by eexists _, _]).
  apply wp_bind. eapply (parseredirs_any fuel pe ts s1 st1); [by destruct Hlt1; congruence | done | lia | done |].
  intros p s2 st2 rs ts2 -> Hrs Hl2 Hlt2 Hp. rewrite length_app in Hf.
  apply wp_bind. eapply (parseargs_any fuel pe p 0 ts2 s2 st2);
    [by destruct Hlt1, Hlt2; congruence | done | lia | done | by eapply is_exec_later | lia |].
  intros ret argc s3 st3 args rest -> Hargs Hc Hc10 Hl3 Hlt3 (Hp3 & a & e & Hn3) Hr.
  apply wp_bind. eapply store_arg_ok; [exact Hn3 | unfold MAXARGS; lia |]. apply wp_ret.
  apply (HQ ret s3 _ (Simple rs args) rest); [exact (app_assoc _ _ _) | split_and!; [done | done | lia] | done | | done].
  destruct Hlt1 as (M1 & U1 & N1), Hlt2 as (M2 & U2 & N2), Hlt3 as (M3 & U3 & N3). split_and!; [cbn; congruence | cbn; lia |].
  intros x Hx. cbn. rewrite lookup_insert_ne by lia. rewrite N3, N2 by lia. by apply N1.
Qed.

Lemma block_reads fuel : reads line_toks line_ok line_node 4 fuel -> reads exec_toks exec_ok block_node 1 (S fuel).
Proof.
  intros Hline ts s st Q Hm Hl Hf HQ. cbn [parseblock].
  apply wp_bind. eapply look_ok; [done | exact Hl | by apply (bool_decide_unpack _) |]. intros s1 Hl1.
  destruct (next_in [40] ts) eqn:Hn; [| apply wp_panic]. apply next_in_one in Hn as [tl ->]; [| done]. cbn [negb].
  apply wp_bind. eapply next_token_any; [done | exact Hl1 |]. intros q e s2 Hl2. cbn [tail length] in *.
  apply wp_bind. apply (Hline tl s2 st); [done | done | lia |]. intros p s3 st1 l ts3 -> Hok Hl3 Hlt1 Hp.
  rewrite length_app in Hf. apply wp_bind.
  eapply (look_ok m); [by destruct Hlt1; congruence | exact Hl3 | by apply (bool_decide_unpack _) |]. intros s4 Hl4.
  destruct (next_in [41] ts3) eqn:Hn; [| apply wp_panic]. apply next_in_one in Hn as [tl ->]; [| done]. cbn [negb].
  apply wp_bind. eapply next_token_any; [by destruct Hlt1; congruence | exact Hl4 |]. intros q' e' s5 Hl5. cbn [tail length] in *.
  eapply (parseredirs_any fuel p tl s5 st1); [by destruct Hlt1; congruence | done | lia | done |].
  intros p' s' st' rs rest -> Hrs Hl' Hlt' Hp'. apply (HQ p' s' st' (Block l rs) rest); try done; [| by eapply later_trans].
  change (exec_toks (Block l rs)) with (Sym 40 :: line_toks l ++ Sym 41 :: redir_toks rs). cbn [app]. by rewrite <- app_assoc.
Qed.

Lemma pipe_reads fuel : reads exec_toks exec_ok exec_node 2 fuel -> reads pipe_toks pipe_ok pipe_node 3 fuel ->
  reads pipe_toks pipe_ok pipe_node 3 (S fuel).
Proof.
  intros He Hp ts s st Q Hm Hl Hf HQ. cbn [parsepipe].
  apply wp_bind. apply (He ts s st); [done | done | lia |]. intros p s1 st1 e ts1 -> Hok Hl1 Hlt1 Hpl.
  rewrite length_app in Hf. apply wp_bind.
  eapply (look_ok m); [by destruct Hlt1; congruence | exact Hl1 | by apply (bool_decide_unpack _) |]. intros s2 Hl2.
  destruct (next_in [124] ts1) eqn:Hn; [| by apply wp_ret; apply (HQ p s2 st1 (PEnd e) ts1)].
  apply next_in_one in Hn as [tl ->]; [| done]. apply wp_bind.
  eapply next_token_any; [by destruct Hlt1; congruence | exact Hl2 |]. intros q e' s3 Hl3. cbn [tail length] in *.
  apply wp_bind. apply (Hp tl s3 st1); [by destruct Hlt1; congruence | done | lia |].
  intros p2 s4 st2 x rest -> Hokx Hl4 Hlt2 Hp2. apply wp_bind, malloc1_any. intros p3 st3 -> Hp3 _ Hlt3.
  apply wp_ret. apply (HQ _ s4 st3 (PSeq e x) rest); try done.
  - change (pipe_toks (PSeq e x)) with (exec_toks e ++ Sym 124 :: pipe_toks x). by rewrite <- app_assoc.
  - eapply later_trans; [exact Hlt1 |]. by eapply later_trans.
Qed.

Lemma line_reads fuel : reads pipe_toks pipe_ok pipe_node 3 fuel -> reads line_toks line_ok line_node 4 fuel ->
  reads line_toks line_ok line_node 4 (S fuel).
Proof.
  intros Hp Hline ts s st Q Hm Hl Hf HQ. cbn [parseline].
  apply wp_bind. apply (Hp ts s st); [done | done | lia |]. intros p s1 st1 x ts1 -> Hok Hl1 Hlt1 Hpl. rewrite length_app in Hf.
  apply wp_bind. eapply (parseback_any fuel p ts1 s1 st1); [by destruct Hlt1; congruence | done | lia | done |].
  intros p2 s2 st2 n ts2 -> Hl2 Hlt2 Hp2. rewrite length_app in Hf. pose proof (later_trans _ _ _ Hlt1 Hlt2) as Hlt.
  apply wp_bind. eapply (look_ok m); [by destruct Hlt; congruence | exact Hl2 | by apply (bool_decide_unpack _) |]. intros s3 Hl3.
  destruct (next_in [59] ts2) eqn:Hn; [| by apply wp_ret; apply (HQ p2 s3 st2 (LEnd x n) ts2); [exact (app_assoc _ _ _) | ..]].
  apply next_in_one in Hn as [tl ->]; [| done]. apply wp_bind.
  eapply next_token_any; [by destruct Hlt; congruence | exact Hl3 |]. intros q e' s4 Hl4. cbn [tail length] in *.
  apply wp_bind. apply (Hline tl s4 st2); [by destruct Hlt; congruence | done | lia |].
  intros p3 s5 st3 l rest -> Hokl Hl5 Hlt3 Hp3. apply wp_bind, malloc1_any. intros p4 st4 -> Hp4 _ Hlt4.
  apply wp_ret. apply (HQ _ s5 st4 (LSeq x n l) rest); try done.
  - change (line_toks (LSeq x n l)) with (pipe_toks x ++ replicate n (Sym 38) ++ Sym 59 :: line_toks l). by rewrite <- !app_assoc.
  - eapply later_trans; [exact Hlt |]. by eapply later_trans.
Qed.

(** With enough fuel each function ends, on any tokens. *)
Lemma functions_read fuel : reads line_toks line_ok line_node 4 fuel /\ reads pipe_toks pipe_ok pipe_node 3 fuel /\
  reads exec_toks exec_ok exec_node 2 fuel /\ reads exec_toks exec_ok block_node 1 fuel.
Proof.
  induction fuel as [|fuel (Hl & Hp & He & Hb)].
  - split_and!; intros ts s st Q _ _ Hf; lia.
  - split_and!; [by apply line_reads | by apply pipe_reads | by apply exec_reads | by apply block_reads].
Qed.
End sound.
