(* ===== verification/ShellTheorems.v ===== *)
(** The theorems on the parser of user/sh/main.c: a line of the grammar is parsed
    to its command, and on every line the parser ends. *)
From S2P Require Import Prelude Bytes CString Path Format Shell ShellLex ShellSpec ShellParse ShellSound.

(** * The words become strings *)

Section terminated.
Context (arena : Z) (m : mem).

(** Characters that belong to no word were overwritten with NUL. *)
Definition blanked (m' : mem) : Prop := forall x, m' x = m x \/ (m' x = 0 /\ ~ plain (m x)).

(** A word with a NUL behind it. *)
Definition cut (m' : mem) (q e : Z) (w : list Z) : Prop := word_at m q e w /\ m' e = 0.

Lemma blanked_store m' e : blanked m' -> ~ plain (m e) -> blanked (store m' e 0).
Proof. intros Hb He x. unfold store. destruct (Z.eqb_spec x e) as [->|]; [by right | apply Hb]. Qed.

Lemma cut_string m' q e w : blanked m' -> cut m' q e w -> string_at m' q w.
Proof.
  intros Hb ((Hq & -> & _ & Hp & Hr & _) & H0). split_and!; [| | done].
  - eapply Forall_impl; [exact Hp |]. by intros c [Hc _].
  - transitivity (read_bytes m q (length w)); [| done]. apply read_bytes_ext. intros x Hx. destruct (Hb x) as [->|[_ Hn]]; [done |].
    exfalso. apply Hn. assert (Hi : read_bytes m q (length w) !! Z.to_nat (x - q) = Some (m x)).
    { rewrite lookup_read_bytes by lia. do 2 f_equal. lia. }
    rewrite Hr in Hi. by apply (Forall_lookup_1 _ _ _ _ Hp Hi).
Qed.

Lemma cmd_at_impl (P P' : Z -> Z -> list Z -> Prop) h c : (forall q e w, P q e w -> P' q e w) ->
  forall p, cmd_at arena P h p c -> cmd_at arena P' h p c.
Proof.
  intros HP. induction c; intros p [Ha Hc]; (split; [done |]); try naive_solver.
  destruct Hc as (ps & Hn & Hps & Hl). exists ps. split_and!; [done | | done]. by eapply Forall2_impl; [exact Hps | auto].
Qed.

(** Only NULs are added. *)
Definition adds (m1 m2 : mem) : Prop := forall x, m1 x = 0 -> m2 x = 0.

Lemma cut_adds m1 m2 q e w : adds m1 m2 -> cut m1 q e w -> cut m2 q e w.
Proof. intros Ha [Hw He]. split; [done | by apply Ha]. Qed.

Lemma adds_store m1 e : adds m1 (store m1 e 0).
Proof. intros x Hx. unfold store. by destruct (x =? e). Qed.

(** What a step of nulterminate keeps. *)
Definition kept (st st' : shell) : Prop :=
  nodes st' = nodes st /\ used st' = used st /\ blanked (sh_mem st') /\ adds (sh_mem st) (sh_mem st').

Lemma terminate_ok E e st Q : blanked (sh_mem st) -> ~ plain (m e) ->
  (forall st', kept st st' -> sh_mem st' e = 0 -> Q tt st') -> wp E (terminate e) Q st.
Proof.
  intros Hb He HQ. apply wp_modify, HQ; [| apply store_eq]. split_and!; [done | done | by apply blanked_store | apply adds_store].
Qed.

Lemma kept_both st1 st2 st3 : kept st1 st2 -> kept st2 st3 -> kept st1 st3.
Proof.
  intros (N1 & U1 & _ & A1) (N2 & U2 & B2 & A2). split_and!; [congruence | congruence | done |].
  intros x Hx. by apply A2, A1.
Qed.

Lemma terminate_args_ok E ps : forall args rq re st Q, blanked (sh_mem st) ->
  Forall2 (fun p w => word_at m p.1 p.2 w) ps args ->
  (forall st', kept st st' -> Forall2 (fun p w => cut (sh_mem st') p.1 p.2 w) ps args -> Q tt st') ->
  wp E (terminate_args (ps.*1 ++ 0 :: rq) (ps.*2 ++ 0 :: re)) Q st.
Proof.
  induction ps as [|[q e] ps IH]; intros args rq re st Q Hb Hps HQ.
  - apply wp_ret. inversion Hps; subst. apply HQ; [| constructor]. split_and!; try done. by intros x.
  - apply Forall2_cons_inv_l in Hps as (w & args' & Hw & Hps & ->). cbn [fst snd] in *.
    cbn [fmap list_fmap app terminate_args fst snd].
    pose proof Hw as (Hq & _ & _ & _ & _ & He). rewrite (proj2 (Z.eqb_neq q 0)) by lia.
    apply wp_bind, terminate_ok; [done | done |]. intros st1 Hk1 H1.
    apply (IH args'); [apply Hk1 | done |]. intros st2 Hk2 Hc. apply HQ; [by eapply kept_both |].
    constructor; [| done]. split; [done | by apply Hk2].
Qed.

Lemma pad_split l : (length l < 10)%nat -> exists r, pad l = l ++ 0 :: r.
Proof.
  intros Hl. unfold pad. exists (replicate (9 - length l) 0).
  by replace (10 - length l)%nat with (S (9 - length l)) by lia.
Qed.

(** [nulterminate] does its work on the command [c]. *)
Definition terminates (E : string -> Prop) (c : cmd) : Prop := forall fuel p st Q, 0 < arena -> blanked (sh_mem st) ->
  cmd_at arena (word_at m) (nodes st) p c -> p - arena < Z.of_nat fuel ->
  (forall st', kept st st' -> cmd_at arena (cut (sh_mem st')) (nodes st') p c -> Q tt st') ->
  wp E (nulterminate fuel p) Q st.

Lemma two_ok E l r fuel pl pr st Q : terminates E l -> terminates E r -> 0 < arena -> blanked (sh_mem st) ->
  cmd_at arena (word_at m) (nodes st) pl l -> cmd_at arena (word_at m) (nodes st) pr r ->
  pl - arena < Z.of_nat fuel -> pr - arena < Z.of_nat fuel ->
  (forall st', kept st st' -> cmd_at arena (cut (sh_mem st')) (nodes st) pl l -> cmd_at arena (cut (sh_mem st')) (nodes st) pr r ->
    Q tt st') ->
  wp E (nulterminate fuel pl) (fun _ st' => wp E (nulterminate fuel pr) Q st') st.
Proof.
  intros Hl Hr Ha Hb Hcl Hcr Hfl Hfr HQ. apply Hl; [done ..|]. intros st1 Hk1 Hc1. pose proof Hk1 as (E1 & _ & B1 & _).
  rewrite E1 in Hc1. apply Hr; [done | done | by rewrite E1 | done |]. intros st2 Hk2 Hc2.
  pose proof Hk2 as (E2 & _ & _ & A2). rewrite E2, E1 in Hc2. apply HQ; [by eapply kept_both | | done].
  eapply cmd_at_impl; [intros; by eapply cut_adds | exact Hc1].
Qed.

(** The string behind each pointer of the command ends where the word does. *)
Lemma nulterminate_ok E c : terminates E c.
Proof.
  induction c as [args|c IH file mode fd|l IHl r IHr|l IHl r IHr|c IH]; intros fuel p st Q Ha Hb [Hp Hc] Hf HQ;
    (destruct fuel as [|fuel]; [lia |]); cbn [nulterminate]; rewrite (proj2 (Z.eqb_neq p 0)) by lia;
    apply wp_bind; unfold load_node; apply wp_bind, wp_get.
  - destruct Hc as (ps & Hn & Hps & Hl). rewrite Hn. apply wp_ret.
    destruct (pad_split ps.*1) as [rq Eq]; [by rewrite length_fmap |]. destruct (pad_split ps.*2) as [re Ee]; [by rewrite length_fmap |].
    rewrite Eq, Ee. eapply terminate_args_ok; [done | exact Hps |]. intros st' Hk Hcut. apply HQ; [done |]. split; [done |].
    exists ps. destruct Hk as (-> & _). by split_and!.
  - destruct Hc as (pc & q & e & Hn & Hw & Hlt & Hc). rewrite Hn. apply wp_ret, wp_bind.
    apply IH; [done | done | done | lia |]. intros st1 Hk1 Hc1. pose proof Hw as (_ & _ & _ & _ & _ & He).
    apply terminate_ok; [apply Hk1 | done |]. intros st2 Hk2 H2. apply HQ; [by eapply kept_both |].
    destruct Hk1 as (E1 & _), Hk2 as (E2 & _ & _ & A2). split; [done |]. rewrite E2, E1 in *. exists pc, q, e.
    split_and!; try done. by eapply cmd_at_impl; [intros; by eapply cut_adds | exact Hc1].
  - destruct Hc as (pl & pr & Hn & Hl & Hr & Hcl & Hcr). rewrite Hn. apply wp_ret, wp_bind.
    eapply two_ok; [exact IHl | exact IHr | done | done | done | done | lia | lia |].
    intros st' Hk Hc1 Hc2. apply HQ; [done |]. split; [done |]. destruct Hk as (-> & _). by exists pl, pr.
  - destruct Hc as (pl & pr & Hn & Hl & Hr & Hcl & Hcr). rewrite Hn. apply wp_ret, wp_bind.
    eapply two_ok; [exact IHl | exact IHr | done | done | done | done | lia | lia |].
    intros st' Hk Hc1 Hc2. apply HQ; [done |]. split; [done |]. destruct Hk as (-> & _). by exists pl, pr.
  - destruct Hc as (pc & Hn & Hlt & Hc). rewrite Hn. apply wp_ret.
    apply IH; [done | done | done | lia |]. intros st' Hk Hc'. apply HQ; [done |]. split; [done |].
    destruct Hk as (E1 & _). rewrite E1 in *. by exists pc.
Qed.
End terminated.

(** * parsecmd *)

Lemma spelled_length ts text : spelled ts text -> (length ts <= length text)%nat.
Proof.
  induction 1 as [|ws t rest ts _ Hv _ _ IH]; [cbn; lia |].
  destruct (text_head t Hv) as (c & l & -> & _). rewrite !length_app. cbn. lia.
Qed.

Lemma strlen_string fuel m s text : string_at m s text -> (length text < fuel)%nat -> strlen fuel m s = Ret (Z.of_nat (length text)).
Proof.
  intros (Hnz & Hr & Hend) Hf. unfold strlen. apply (strlen_loop_spec (length text) m s 0 fuel); rewrite ?Z.add_0_r; [| done | done].
  intros j Hj. assert (Hi : read_bytes m s (length text) !! Z.to_nat j = Some (m (s + j))).
  { rewrite lookup_read_bytes by lia. do 2 f_equal. lia. }
  rewrite Hr in Hi. exact (Forall_lookup_1 _ _ _ _ Hnz Hi).
Qed.

Lemma lexes_start m s text ts : 0 < s -> string_at m s text -> spelled ts text ->
  lexes m (s + Z.of_nat (length text)) s ts.
Proof. intros. exists text. by split_and!. Qed.

(** The last peek tells whether something is left over. *)
Lemma look_end E m es s ts st Q : sh_mem st = m -> lexes m es s ts ->
  (forall s', (ts = [] <-> s' = es) -> Q (false, s') st) -> wp E (look es s []) Q st.
Proof.
  intros Hm Hl HQ. unfold look. apply wp_bind, wp_get, wp_ret. rewrite Hm, (peek_ok m es s ts [] Hl) by constructor.
  assert (Hn : next_in [] ts = false).
  { by destruct ts as [|[c|w] ts]. }
  rewrite Hn. apply HQ. destruct (lexes_skip m es s ts Hl) as (Hl' & _ & Hts). destruct ts as [|t ts]; [by destruct Hts |].
  split; [done |]. intros E'. exfalso. destruct Hts as (c & l & Ht & Hmc).
  assert (Hv : valid t) by (destruct Hl as (text & _ & _ & _ & Hsp); by inversion Hsp).
  destruct (text_head t Hv) as (c' & l' & Ht' & Hc0 & _). assert (c = c') by congruence. subst c'.
  destruct Hl as (text & _ & (_ & _ & Hend) & He & _). rewrite <- He, <- E', Hmc in Hend. done.
Qed.

Lemma wp_panics {A} (c : M shell A) s : wp any c (fun _ _ => False) s -> exists msg, c s = Panic msg.
Proof. unfold wp. destruct (c s) as [[a s']|msg| | |]; try done. intros _. by exists msg. Qed.

(** * The array of malloc1 *)

Section array.
Context (arena o_rdonly o_wronly_creat : Z).

(** All nodes lie in the part [mem[0 .. used)] of the array [mem[MAXN]]. *)
Definition in_array (st : shell) : Prop :=
  used st <= MAXN /\ forall p n, nodes st !! p = Some n -> arena <= p /\ p + sizeof_node n <= arena + used st.

(** If [c] returns, no node has left the array. *)
Definition keeps {A} (c : M shell A) : Prop := forall st a st', 0 <= used st -> in_array st -> c st = Ret (a, st') ->
  used st <= used st' /\ in_array st'.

Lemma keeps_ret {A} (a : A) : keeps (mret a).
Proof. intros st b st' _ Hi [= _ <-]. by split. Qed.

Lemma keeps_stop {A} (c : M shell A) : (forall st a st', c st <> Ret (a, st')) -> keeps c.
Proof. intros H st a st' _ _ E. by destruct (H _ _ _ E). Qed.

Lemma keeps_bind {A B} (c : M shell A) (k : A -> M shell B) : keeps c -> (forall a, keeps (k a)) -> keeps (c ≫= k).
Proof.
  intros Hc Hk st b st' Hu Hi. unfold mbind, M_bind. destruct (c st) as [[a s1]| | | |] eqn:E; try done. intros E'.
  destruct (Hc _ _ _ Hu Hi E) as [Hu1 Hi1]. destruct (Hk a s1 b st') as [Hu2 Hi2]; [lia | done | done |]. split; [lia | done].
Qed.

Lemma keeps_get : keeps get.
Proof. intros st a st' _ Hi [= _ <-]. by split. Qed.

Lemma keeps_malloc1 n : keeps (malloc1 arena n).
Proof.
  intros st p st' Hu [Hm Hn]. unfold malloc1, mbind, M_bind, get, modify. cbn.
  destruct (Z.ltb_spec MAXN (used st + sizeof_node n)) as [|Hfit]; [done |]. intros [= _ <-].
  assert (0 < sizeof_node n) by (by destruct n). cbn. split; [lia |]. split; [done |]. intros q n'. cbn.
  rewrite lookup_insert_Some. intros [[<- <-]|[_ Hq]]; [lia |]. apply Hn in Hq. lia.
Qed.

Lemma keeps_load_node p : keeps (load_node p).
Proof.
  apply keeps_bind; [apply keeps_get |]. intros st. destruct (nodes st !! p); [apply keeps_ret | by apply keeps_stop].
Qed.

Lemma keeps_store_arg p i q e : keeps (store_arg p i q e).
Proof.
  intros st a st' _ [Hm Hn]. unfold store_arg, load_node, mbind, M_bind, get, modify. cbn.
  destruct (nodes st !! p) as [[argv eargv|?|?|?|?]|] eqn:Hp; cbn; try done. case_match; [| done]. intros [= _ <-].
  split; [cbn; lia |]. split; [done |]. intros q' n'. cbn. rewrite lookup_insert_Some. intros [[<- <-]|[_ Hq]]; [| by apply Hn].
  apply Hn in Hp. exact Hp.
Qed.

Lemma keeps_terminate p : keeps (terminate p).
Proof. intros st a st' _ Hi [= _ <-]. by split. Qed.

#[local] Ltac keep :=
  repeat first
    [ done
    | apply keeps_ret | apply keeps_malloc1 | apply keeps_store_arg | apply keeps_load_node | apply keeps_terminate | apply keeps_get
    | apply keeps_stop; done
    | apply keeps_bind; [| intros]
    | match goal with |- keeps (let '_ := ?x in _) => destruct x end
    | match goal with |- keeps (if ?b then _ else _) => destruct b end ].

Lemma keeps_next_token es s : keeps (next_token es s).
Proof. unfold next_token. keep. Qed.

Lemma keeps_look es s toks : keeps (look es s toks).
Proof. unfold look. keep. Qed.

Lemma keeps_parseredirs es fuel : forall cmd s, keeps (parseredirs arena o_rdonly o_wronly_creat es fuel cmd s).
Proof.
  induction fuel; intros cmd s; cbn [parseredirs]; unfold redircmd; keep; auto using keeps_next_token, keeps_look.
Qed.

Lemma keeps_parseargs es fuel : forall cmd ret argc s, keeps (parseargs arena o_rdonly o_wronly_creat es fuel cmd ret argc s).
Proof.
  induction fuel; intros cmd ret argc s; cbn [parseargs]; keep; auto using keeps_next_token, keeps_look, keeps_parseredirs.
Qed.

Lemma keeps_parseback es fuel : forall cmd s, keeps (parseback arena es fuel cmd s).
Proof.
  induction fuel; intros cmd s; cbn [parseback]; unfold backcmd; keep; auto using keeps_next_token, keeps_look.
Qed.

Lemma keeps_functions es fuel : forall s,
  keeps (parseline arena o_rdonly o_wronly_creat es fuel s) /\ keeps (parsepipe arena o_rdonly o_wronly_creat es fuel s) /\
  keeps (parseblock arena o_rdonly o_wronly_creat es fuel s) /\ keeps (parseexec arena o_rdonly o_wronly_creat es fuel s).
Proof.
  induction fuel as [|fuel IH]; intros s; [by split_and!; apply keeps_stop |].
  pose proof (fun s => proj1 (IH s)). pose proof (fun s => proj1 (proj2 (IH s))).
  pose proof (fun s => proj1 (proj2 (proj2 (IH s)))). pose proof (fun s => proj2 (proj2 (proj2 (IH s)))).
  split_and!; cbn [parseline parsepipe parseblock parseexec]; unfold listcmd, pipecmd, execcmd; keep;
    auto using keeps_next_token, keeps_look, keeps_parseredirs, keeps_parseargs, keeps_parseback.
Qed.

Lemma keeps_terminate_args argv : forall eargv, keeps (terminate_args argv eargv).
Proof. induction argv; intros [|e eargv]; cbn [terminate_args]; keep; auto. Qed.

Lemma keeps_nulterminate fuel : forall p, keeps (nulterminate fuel p).
Proof.
  induction fuel; intros p; cbn [nulterminate]; [by apply keeps_stop |]. destruct (p =? 0); [keep |].
  apply keeps_bind; [keep |]. intros [argv eargv|cmd file efile mode fd|l r|l r|cmd]; keep; auto using keeps_terminate_args.
Qed.

Lemma keeps_parsecmd fuel s : keeps (parsecmd arena o_rdonly o_wronly_creat fuel s).
Proof.
  apply keeps_bind; [keep |]. intros st. apply keeps_bind.
  - intros st1 a st' _ Hi. unfold lift. destruct (strlen _ _ _); try done. intros [= _ <-]. by split.
  - intros len. apply keeps_bind; [apply keeps_functions |]. intros [cmd s']. keep; auto using keeps_look, keeps_nulterminate.
Qed.
End array.

Section parsecmd.
Context (arena o_rdonly o_wronly_creat : Z) (Harena : 0 < arena).

(** The command [c] is in memory at [p], its words as strings. *)
Definition command (st : shell) (p : Z) (c : cmd) : Prop :=
  cmd_at arena (fun q _ w => 0 < q /\ string_at (sh_mem st) q w) (nodes st) p c.

(** parsecmd on a line of the grammar. *)
Lemma parsecmd_ok fuel s text l st : 0 < s -> string_at (sh_mem st) s text -> (length text < fuel)%nat ->
  spelled (line_toks l) text -> line_ok l -> 0 <= used st ->
  wp (too_big (used st + size (line_cmd o_rdonly o_wronly_creat l))) (parsecmd arena o_rdonly o_wronly_creat fuel s)
    (fun p st' => command st' p (line_cmd o_rdonly o_wronly_creat l) /\
      used st' = used st + size (line_cmd o_rdonly o_wronly_creat l)) st.
Proof.
  intros Hs0 Hs Hf Hsp Hok Hu. unfold parsecmd. apply wp_bind, wp_get, wp_bind.
  unfold lift, wp at 1. rewrite (strlen_string fuel _ s text) by done. cbn [mbind outcome_bind].
  apply wp_bind. pose proof (spelled_length _ _ Hsp) as Hlen.
  eapply (proj1 (syntax_ok arena o_rdonly o_wronly_creat (sh_mem st) (s + Z.of_nat (length text))) l Hok _ s [] st); try done.
  { unfold parse_fuel. lia. }
  { rewrite app_nil_r. by apply lexes_start. }
  { by left. }
  intros p s' st1 Hl1 Hc1 Hp1 (M1 & U1 & N1). apply wp_bind.
  eapply look_end; [exact M1 | exact Hl1 |]. intros s2 [-> _]; [| done]. rewrite Z.eqb_refl. cbn [negb].
  apply wp_bind, wp_get, wp_bind. eapply (nulterminate_ok arena (sh_mem st)); [done | | done | |].
  - rewrite M1. by left.
  - pose proof (size_pos (line_cmd o_rdonly o_wronly_creat l)). lia.
  - intros st2 (_ & Hu2 & Hb & _) Hc2. apply wp_ret. split; [| congruence].
    eapply cmd_at_impl; [| exact Hc2]. intros q e w Hcut. split; [apply Hcut | by eapply cut_string].
Qed.

(** Every line is a phrase of the grammar or stops the parser with a message. *)
Lemma parsecmd_ends fuel s text st : 0 < s -> string_at (sh_mem st) s text -> (length text < fuel)%nat ->
  (exists l, line_ok l /\ spelled (line_toks l) text) \/
  (exists msg, parsecmd arena o_rdonly o_wronly_creat fuel s st = Panic msg).
Proof.
  intros Hs0 Hs Hf. destruct (spelled_total text) as [ts Hsp]; [apply Hs |]. pose proof (spelled_length _ _ Hsp) as Hlen.
  set (es := s + Z.of_nat (length text)).
  assert (Hr : wp any (parseline arena o_rdonly o_wronly_creat es (parse_fuel (Z.of_nat (length text))) s)
    (fun ps st1 => exists l rest, ts = line_toks l ++ rest /\ line_ok l /\ lexes (sh_mem st) es ps.2 rest /\ sh_mem st1 = sh_mem st) st).
  { apply (proj1 (functions_read arena o_rdonly o_wronly_creat (sh_mem st) es _) ts s st);
      [done | by apply lexes_start | unfold parse_fuel; lia |].
    intros p s' st1 l rest -> Hok Hl (M1 & _) _. by exists l, rest. }
  assert (Hcmd : parsecmd arena o_rdonly o_wronly_creat fuel s st = (
    '(cmd, s) ← parseline arena o_rdonly o_wronly_creat es (parse_fuel (Z.of_nat (length text))) s;
    '(_, s) ← look es s [];
    if negb (s =? es) then panic "syntax" else
    st ← get; nulterminate (S (Z.to_nat (used st))) cmd;; mret cmd) st).
  { unfold parsecmd, get, lift. unfold mbind at 1, M_bind at 1. unfold mbind at 1, M_bind at 1.
    by rewrite (strlen_string fuel _ s text). }
  rewrite Hcmd. unfold wp in Hr. unfold mbind at 1, M_bind at 1.
  destruct (parseline _ _ _ _ _ s st) as [[[p s'] st1]|msg| | |]; try done; [| right; by exists msg].
  destruct Hr as (l & rest & -> & Hok & Hl & M1).
  destruct rest as [|t rest]; [left; exists l; by rewrite app_nil_r in Hsp |]. right. apply wp_panics.
  apply wp_bind. eapply look_end; [exact M1 | exact Hl |]. intros s2 Hend.
  destruct (Z.eqb_spec s2 es) as [E|E]; [by apply Hend in E | apply wp_panic].
Qed.
End parsecmd.

(** C19: parsing inverts printing, up to white space.  Whatever line of the
    grammar is spelled, with any white space between its words and symbols,
    parsecmd returns a tree of nodes that represents exactly the command of the
    line: the words of each simple command in order, with its redirections
    around it from the first to the last, pipes and lists to the right,
    [&] applied as often as it is written; every word and file name is a
    NUL-terminated string where its pointer says, although all of them lie in
    the one buffer of the line.  The nodes have to fit into the 10000 bytes of
    malloc1. *)
Theorem parsecmd_parses (arena o_rdonly o_wronly_creat : Z) (fuel : nat) (s : Z) (text : list Z) (l : line) (st : shell)
  (Harena : 0 < arena) (Hs : 0 < s) (Hused : 0 <= used st) (Htext : string_at (sh_mem st) s text)
  (Hfuel : (length text < fuel)%nat) (Hok : line_ok l) (Hspell : spelled (line_toks l) text)
  (Hfits : used st + size (line_cmd o_rdonly o_wronly_creat l) <= MAXN) :
  exists p st', parsecmd arena o_rdonly o_wronly_creat fuel s st = Ret (p, st') /\
    command arena st' p (line_cmd o_rdonly o_wronly_creat l).
Proof.
  pose proof (parsecmd_ok arena o_rdonly o_wronly_creat Harena fuel s text l st Hs Htext Hfuel Hspell Hok Hused) as H.
  unfold wp in H. destruct (parsecmd _ _ _ _ _ _) as [[p st']|msg| | |]; try done; [by exists p, st'; destruct H |].
  destruct H as [_ H]. lia.
Qed.

(** (ls | wc >o) & ; cat <i *)
Lemma parsecmd_parses_witness : exists p st',
  parsecmd 5000 0 65 60 100 (mkShell (place (chars "(ls | wc >o) & ; cat <i") 100 (fun _ => 0)) ∅ 0) = Ret (p, st') /\
  command 5000 st' p (Seq (Back (Pipe (Exec [chars "ls"]) (Redir (Exec [chars "wc"]) (chars "o") 65 1)))
    (Redir (Exec [chars "cat"]) (chars "i") 0 0)).
Proof.
  apply (parsecmd_parses 5000 0 65 60 100 (chars "(ls | wc >o) & ; cat <i")
    (LSeq (PEnd (Block (LEnd (PSeq (Simple [] [(chars "ls", [])]) (PEnd (Simple [] [(chars "wc", [(62, chars "o")])]))) 0) [])) 1
      (LEnd (PEnd (Simple [] [(chars "cat", [(60, chars "i")])])) 0))).
  - lia.
  - lia.
  - cbn. lia.
  - split_and!; [apply (bool_decide_unpack _); vm_compute; exact I | reflexivity | reflexivity].
  - cbn. lia.
  - cbn. repeat split; repeat constructor; try lia; apply (bool_decide_unpack _); reflexivity.
  - change (chars "(ls | wc >o) & ; cat <i") with
      ([] ++ text_of (Sym 40) ++ [] ++ chars "ls" ++ chars " " ++ text_of (Sym 124) ++ chars " " ++ chars "wc" ++ chars " " ++
       text_of (Sym 62) ++ [] ++ chars "o" ++ [] ++ text_of (Sym 41) ++ chars " " ++ text_of (Sym 38) ++ chars " " ++
       text_of (Sym 59) ++ chars " " ++ chars "cat" ++ chars " " ++ text_of (Sym 60) ++ [] ++ chars "i" ++ []).
    repeat (apply spelled_token || apply (fun ws w => spelled_token ws (Word w)) || apply spelled_end);
      apply (bool_decide_unpack _); vm_compute; exact I.
  - vm_compute. discriminate.
Defined.

(** C18: the parser decides the grammar.  On every NUL-terminated line parsecmd
    ends, never reads or writes outside its arrays and follows no dangling
    pointer: either it returns a well-formed tree for a command whose line,
    spelled out, is the text; then the nodes of the command fit into what is
    left of the array of malloc1, exactly their size was taken from it, and
    every node lies inside the array.  Or it stops with a message, and then the
    text is no line of the grammar (at most nine words in a simple command), or
    the nodes of its command do not fit into the array. *)
Theorem parsecmd_decides (arena o_rdonly o_wronly_creat : Z) (fuel : nat) (s : Z) (text : list Z) (st : shell)
  (Harena : 0 < arena) (Hs : 0 < s) (Hused : 0 <= used st) (Harray : in_array arena st)
  (Htext : string_at (sh_mem st) s text) (Hfuel : (length text < fuel)%nat) :
  (exists p st' l, parsecmd arena o_rdonly o_wronly_creat fuel s st = Ret (p, st') /\
    line_ok l /\ spelled (line_toks l) text /\ command arena st' p (line_cmd o_rdonly o_wronly_creat l) /\
    used st' = used st + size (line_cmd o_rdonly o_wronly_creat l) /\ used st' <= MAXN /\
    forall q n, nodes st' !! q = Some n -> arena <= q /\ q + sizeof_node n <= arena + MAXN) \/
  (exists msg, parsecmd arena o_rdonly o_wronly_creat fuel s st = Panic msg /\
    forall l, line_ok l -> spelled (line_toks l) text ->
      MAXN < used st + size (line_cmd o_rdonly o_wronly_creat l)).
Proof.
  pose proof (fun l Hok Hsp => parsecmd_ok arena o_rdonly o_wronly_creat Harena fuel s text l st Hs Htext Hfuel Hsp Hok Hused) as Hrun.
  pose proof (keeps_parsecmd arena o_rdonly o_wronly_creat fuel s st) as Hkeep.
  unfold wp in Hrun. destruct (parsecmd_ends arena o_rdonly o_wronly_creat fuel s text st Hs Htext Hfuel) as [(l & Hok & Hsp)|[msg E]].
  - destruct (parsecmd _ _ _ _ _ _) as [[p st']|msg| | |] eqn:E; try by destruct (Hrun l Hok Hsp).
    + left. exists p, st', l. destruct (Hrun l Hok Hsp) as [Hc Hu], (Hkeep p st' Hused Harray eq_refl) as [_ [Hm Hn]].
      split_and!; try done; intros q n Hq; apply Hn in Hq; lia.
    + right. exists msg. split; [done |]. intros l' Hok' Hsp'. by apply Hrun.
  - right. exists msg. split; [done |]. rewrite E in Hrun. intros l Hok Hsp. by apply Hrun.
Qed.

(** An unbalanced parenthesis; and a word that finds 100 bytes of the array
    left, not the 168 its node takes. *)
Lemma parsecmd_decides_witness :
  (exists msg, parsecmd 5000 0 65 10 100 (mkShell (place (chars "(ls") 100 (fun _ => 0)) ∅ 0) = Panic msg) /\
  (exists msg, parsecmd 5000 0 65 10 100 (mkShell (place (chars "ls") 100 (fun _ => 0)) ∅ 9900) = Panic msg).
Proof.
  split.
  - destruct (parsecmd_decides 5000 0 65 10 100 (chars "(ls") (mkShell (place (chars "(ls") 100 (fun _ => 0)) ∅ 0))
      as [(p & st' & l & E & _)|(msg & E & _)]; [| | | | | | exfalso; vm_compute in E; discriminate | by exists msg].
    + lia.
    + lia.
    + cbn. lia.
    + split; [vm_compute; discriminate | done].
    + split_and!; [apply (bool_decide_unpack _); vm_compute; exact I | reflexivity | reflexivity].
    + cbn. lia.
  - destruct (parsecmd_decides 5000 0 65 10 100 (chars "ls") (mkShell (place (chars "ls") 100 (fun _ => 0)) ∅ 9900))
      as [(p & st' & l & E & _)|(msg & E & _)]; [| | | | | | exfalso; vm_compute in E; discriminate | by exists msg].
    + lia.
    + lia.
    + cbn. lia.
    + split; [vm_compute; discriminate | done].
    + split_and!; [apply (bool_decide_unpack _); vm_compute; exact I | reflexivity | reflexivity].
    + cbn. lia.
Defined.
