(* ===== verification/ShellRun.v ===== *)
(** user/sh/main.c: runcmd, getcmd and main.  What a process does is the tree of
    the system calls it makes: a call carries the rest of the program as a
    function of its result, and fork continues in the child with 0 and in the
    parent with the pid.  The processes have memories of their own, so a child
    works on a copy of the nodes. *)
From stdpp Require Import pretty.
From S2P Require Import Prelude Bytes CString Path Shell.

(** * Programs *)

Inductive prog :=
  | SysExit (status : Z)
  | SysExec (argv : list (list Z)) (k : prog)
  | SysOpen (file : list Z) (mode : Z) (k : Z -> prog)
  | SysClose (fd : Z) (k : prog)
  | SysDup (fd : Z) (k : prog)
  | SysPipe (k : option (Z * Z) -> prog)
  | SysFork (k : Z -> prog)
  | SysWait (k : prog)
  | SysChdir (path : list Z) (k : Z -> prog)
  | SysPrint (text : list Z) (k : prog)
  | Stuck.

(** [sizeof(buf)] of main: a line and its words are shorter. *)
Definition sizeof_buf : nat := 100.

(** The string at [p], in the line buffer. *)
Fixpoint string_from (n : nat) (m : mem) (p : Z) : list Z :=
  match n with
  | O => []
  | S n' => if m p =? 0 then [] else m p :: string_from n' m (p + 1)
  end.
Definition c_str (m : mem) (p : Z) : list Z := string_from sizeof_buf m p.
#[global] Arguments c_str : simpl never.

(** [argv] up to the NULL pointer. *)
Fixpoint arg_list (m : mem) (argv : list Z) : list (list Z) :=
  match argv with
  | [] => []
  | q :: argv' => if q =? 0 then [] else c_str m q :: arg_list m argv'
  end.

Definition PANIC_ (msg : list Z) : prog := SysPrint (msg ++ [10]) (SysExit 1).

Definition fork1 (k : Z -> prog) : prog :=
  SysFork (fun pid => if pid =? -1 then PANIC_ (chars "fork") else k pid).

(** * runcmd *)

(** A node points to nodes at lower addresses, so the tree ends; [fuel] bounds its
    height. *)
Fixpoint runcmd (fuel : nat) (st : shell) (cmd : Z) : prog :=
  if cmd =? 0 then SysExit 0 else
  match fuel with
  | O => Stuck
  | S fuel' =>
      match nodes st !! cmd with
      | Some (EXEC argv _) =>
          if zget argv 0 =? 0 then SysExit 0 else
          SysExec (arg_list (sh_mem st) argv)
            (SysPrint (chars "exec " ++ c_str (sh_mem st) (zget argv 0) ++ chars " failed" ++ [10]) (SysExit 0))
      | Some (REDIR sub file _ mode fd) =>
          SysClose fd (SysOpen (c_str (sh_mem st) file) mode (fun r =>
            if r <? 0 then SysPrint (chars "open " ++ c_str (sh_mem st) file ++ chars " failed" ++ [10]) (SysExit 1)
            else runcmd fuel' st sub))
      | Some (LIST l r) =>
          fork1 (fun pid => if pid =? 0 then runcmd fuel' st l else SysWait (runcmd fuel' st r))
      | Some (PIPE l r) =>
          SysPipe (fun p =>
            match p with
            | None => PANIC_ (chars "pipe")
            | Some (p0, p1) =>
                fork1 (fun pid =>
                  if pid =? 0 then SysClose 1 (SysDup p1 (SysClose p0 (SysClose p1 (runcmd fuel' st l))))
                  else fork1 (fun pid =>
                    if pid =? 0 then SysClose 0 (SysDup p0 (SysClose p0 (SysClose p1 (runcmd fuel' st r))))
                    else SysClose p0 (SysClose p1 (SysWait (SysWait (SysExit 0))))))
            end)
      | Some (BACK sub) => fork1 (fun pid => if pid =? 0 then runcmd fuel' st sub else SysExit 0)
      | None => Stuck
      end
  end.

(** * main *)

Section main.
(** The array of malloc1, the line buffer, and the flags of fcntl.h. *)
Context (arena buf o_rdonly o_wronly_creat o_rdwr : Z).

(** The buffer after memset and fgets. *)
Definition fill_buf (text : list Z) : mem := place text buf (fun _ => 0).

(** [runcmd(parsecmd(buf))] in the child. *)
Definition run_line (text : list Z) : prog :=
  match parsecmd arena o_rdonly o_wronly_creat sizeof_buf buf (mkShell (fill_buf text) ∅ 0) with
  | Ret (p, st) => runcmd (S (Z.to_nat (p - arena))) st p
  | Panic msg => PANIC_ (chars msg)
  | _ => Stuck
  end.

(** The loop that makes sure that three descriptors are open. *)
Fixpoint open_console (fuel : nat) (k : prog) : prog :=
  match fuel with
  | O => Stuck
  | S fuel' =>
      SysOpen (chars "console") o_rdwr (fun fd =>
        if fd <? 0 then k else if 3 <=? fd then SysClose fd k else open_console fuel' k)
  end.

(** The loop over the lines that fgets returns; at the end of the input it leaves
    the zeroed buffer. *)
Fixpoint read_lines (lines : list (list Z)) : prog :=
  SysPrint (chars "$ ")
    match lines with
    | [] => SysExit 0
    | text :: lines' =>
        if zget text 0 =? 0 then SysExit 0
        else if (zget text 0 =? 99) && (zget text 1 =? 100) && (zget text 2 =? 32) then
          let path := drop 3 (take (length text - 1) text) in
          SysChdir path (fun r =>
            if r <? 0 then SysPrint (chars "cannot cd " ++ path ++ [10]) (read_lines lines') else read_lines lines')
        else fork1 (fun pid => if pid =? 0 then run_line text else SysWait (read_lines lines'))
    end.

(** The messages about the arguments and the environment. *)
Fixpoint print_args (i : Z) (argv : list (list Z)) (k : prog) : prog :=
  match argv with
  | [] => k
  | a :: argv' => SysPrint (chars "sh: argv[" ++ chars (pretty i) ++ chars "] = '" ++ a ++ chars "'" ++ [10]) (print_args (i + 1) argv' k)
  end.

Definition sh_main (argv : list (list Z)) (test_env : option (list Z)) (lines : list (list Z)) : prog :=
  print_args 0 argv
    (SysPrint (match test_env with
               | Some v => chars "sh: testenv = '" ++ v ++ chars "'" ++ [10]
               | None => chars "sh: testenv not found!" ++ [10]
               end)
      (open_console 4 (read_lines lines))).
End main.
