(* ===== verification/ShellPlumb.v ===== *)
(** What the shell makes of a command: which programs run, with which files, and
    in which order.  The system calls act on a table of descriptors as
    core/sysfile.c keeps it; the processes of the shell form a tree and interleave
    at their calls, and wait blocks until a child is a zombie.  What a line means
    is a job, with the order of its parts; a simulation shows that every
    interleaving of the processes is a run of the job. *)
From S2P Require Import Prelude Bytes CString Path Format Shell ShellLex ShellSpec ShellParse ShellTheorems ShellRun.

(** * Descriptors *)

(** What a descriptor refers to: a file of the parent, an opened file, the two
    ends of a pipe. *)
Inductive desc :=
  | Given (n : Z)
  | Opened (file : list Z) (mode : Z)
  | PipeIn (id : Z)
  | PipeOut (id : Z).

(** The table of a process, and the first free entry, as fdalloc takes it. *)
Notation fds := (list (option desc)).

Fixpoint free_fd (t : fds) : option nat :=
  match t with
  | [] => None
  | None :: _ => Some 0%nat
  | Some _ :: t' => S <$> free_fd t'
  end.

(** The descriptor that a new file gets, and the table with it. *)
Definition add_fd (d : desc) (t : fds) : option (Z * fds) :=
  n ← free_fd t; Some (Z.of_nat n, <[n := Some d]> t).

Definition drop_fd (fd : Z) (t : fds) : fds := <[Z.to_nat fd := None]> t.

(** * Systems of processes *)

Inductive event :=
  | Ran (argv : list (list Z)) (t : fds)
  | Ended (argv : list (list Z))
  | Said (text : list Z)
  | Moved (path : list Z).

(** Components that run side by side.  A step of one of them makes an event or
    none and sets further components free; the number counts the pipes. *)
Section system.
Context {X : Type} (step : Z -> X -> option event -> X -> list X -> Z -> Prop).

Inductive sys_step (n : Z) : list X -> option event -> Z -> list X -> Prop :=
  | sys_one xs x ys e x' os n' : step n x e x' os n' -> sys_step n (xs ++ x :: ys) e n' (xs ++ x' :: ys ++ os).

(** Runs of any interleaving: the events and the number of steps. *)
Inductive runs : Z -> list X -> list event -> nat -> Z -> list X -> Prop :=
  | runs_nil n xs : runs n xs [] 0 n xs
  | runs_cons n xs e n1 xs1 tr k n2 xs2 : sys_step n xs e n1 xs1 -> runs n1 xs1 tr k n2 xs2 ->
      runs n xs (option_list e ++ tr) (S k) n2 xs2.
End system.

Section run.
(** Which files open, which programs exist, which directories do, and whether
    the kernel makes pipes. *)
Context (can_open : list Z -> Z -> bool) (can_run : list Z -> bool) (can_cd : list Z -> bool) (pipes : bool).

(** ** The processes of the shell *)

(** A process executes code of the shell, a program that exec has loaded, or is
    a zombie. *)
Inductive status :=
  | InShell (p : prog) (t : fds)
  | InProgram (argv : list (list Z))
  | Zombie.

(** A process and its children. *)
Inductive process := Proc (s : status) (kids : list process).

Definition zombie : process := Proc Zombie [].

(** The calls that concern no other process and nobody sees. *)
Definition silent (p : prog) (t : fds) : option (prog * fds) :=
  match p with
  | SysExec argv k => if can_run (default [] (head argv)) then None else Some (k, t)
  | SysOpen file mode k =>
      Some (if can_open file mode then
              match add_fd (Opened file mode) t with Some (fd, t') => (k fd, t') | None => (k (-1), t) end
            else (k (-1), t))
  | SysClose fd k => Some (k, drop_fd fd t)
  | SysDup fd k =>
      Some (k, match t !! Z.to_nat fd with
               | Some (Some d) => match add_fd d t with Some (_, t') => t' | None => t end
               | _ => t
               end)
  | SysChdir path k => if can_cd path then None else Some (k (-1), t)
  | _ => None
  end.

(** The two descriptors of a new pipe. *)
Definition new_pipe (id : Z) (t : fds) : option (Z * Z * fds) :=
  if pipes then '(p0, t1) ← add_fd (PipeOut id) t; '(p1, t2) ← add_fd (PipeIn id) t1; Some (p0, p1, t2) else None.

(** A step of a process or of one of its descendants.  wait takes a child that
    is a zombie, and returns at once only where there is no child; the children
    of a process that ends are set free, as Unix has it (exit of core/proc.c leaves
    them a pointer to the slot of their parent instead). *)
Inductive proc_step : Z -> process -> option event -> process -> list process -> Z -> Prop :=
  | step_exit n s t kids : proc_step n (Proc (InShell (SysExit s) t) kids) None zombie kids n
  | step_silent n p t p' t' kids : silent p t = Some (p', t') ->
      proc_step n (Proc (InShell p t) kids) None (Proc (InShell p' t') kids) [] n
  | step_say n text k t kids :
      proc_step n (Proc (InShell (SysPrint text k) t) kids) (Some (Said text)) (Proc (InShell k t) kids) [] n
  | step_cd n path k t kids : can_cd path = true ->
      proc_step n (Proc (InShell (SysChdir path k) t) kids) (Some (Moved path)) (Proc (InShell (k 0) t) kids) [] n
  | step_exec n argv k t kids : can_run (default [] (head argv)) = true ->
      proc_step n (Proc (InShell (SysExec argv k) t) kids) (Some (Ran argv t)) (Proc (InProgram argv) kids) [] n
  | step_end n argv kids : proc_step n (Proc (InProgram argv) kids) (Some (Ended argv)) zombie kids n
  | step_pipe n k t kids p0 p1 t' : new_pipe n t = Some (p0, p1, t') ->
      proc_step n (Proc (InShell (SysPipe k) t) kids) None (Proc (InShell (k (Some (p0, p1))) t') kids) [] (n + 1)
  | step_no_pipe n k t kids : new_pipe n t = None ->
      proc_step n (Proc (InShell (SysPipe k) t) kids) None (Proc (InShell (k None) t) kids) [] n
  | step_fork n k t kids pid : 0 < pid ->
      proc_step n (Proc (InShell (SysFork k) t) kids) None
        (Proc (InShell (k pid) t) (kids ++ [Proc (InShell (k 0) t) []])) [] n
  | step_reap n k t kids1 kids2 :
      proc_step n (Proc (InShell (SysWait k) t) (kids1 ++ zombie :: kids2)) None (Proc (InShell k t) (kids1 ++ kids2)) [] n
  | step_no_kid n k t : proc_step n (Proc (InShell (SysWait k) t) []) None (Proc (InShell k t) []) [] n
  | step_kid n s kids1 p kids2 e p' os n' : proc_step n p e p' os n' ->
      proc_step n (Proc s (kids1 ++ p :: kids2)) e (Proc s (kids1 ++ p' :: kids2)) os n'.

(** ** What a command means *)

(** [JThen a b]: [b] begins when [a] has come to its end.  [JBoth]: side by side,
    until both have ended.  [JDetach a]: [a] goes on in the background. *)
Inductive job :=
  | JDone
  | JEmit (e : event) (j : job)
  | JRun (argv : list (list Z)) (t : fds)
  | JRunning (argv : list (list Z))
  | JThen (a b : job)
  | JBoth (a b : job)
  | JDetach (a : job)
  | JNewPipe (k : Z -> job).

Inductive job_step : Z -> job -> option event -> job -> list job -> Z -> Prop :=
  | job_emit n e j : job_step n (JEmit e j) (Some e) j [] n
  | job_run n argv t : job_step n (JRun argv t) (Some (Ran argv t)) (JRunning argv) [] n
  | job_end n argv : job_step n (JRunning argv) (Some (Ended argv)) JDone [] n
  | job_first n a b e a' js n' : job_step n a e a' js n' -> job_step n (JThen a b) e (JThen a' b) js n'
  | job_next n b : job_step n (JThen JDone b) None b [] n
  | job_left n a b e a' js n' : job_step n a e a' js n' -> job_step n (JBoth a b) e (JBoth a' b) js n'
  | job_right n a b e b' js n' : job_step n b e b' js n' -> job_step n (JBoth a b) e (JBoth a b') js n'
  | job_both n : job_step n (JBoth JDone JDone) None JDone [] n
  | job_early n a e a' js n' : job_step n a e a' js n' -> job_step n (JDetach a) e (JDetach a') js n'
  | job_detach n a : job_step n (JDetach a) None JDone [a] n
  | job_pipe n k : job_step n (JNewPipe k) None (k n) [] (n + 1).

(** A simple command runs with the table it is given; a redirection replaces one
    descriptor; the left side of a pipe writes into it, the right side reads. *)
Fixpoint mean (c : cmd) (t : fds) : job :=
  match c with
  | Exec [] => JDone
  | Exec (a :: args) => if can_run a then JRun (a :: args) t else JEmit (Said (chars "exec " ++ a ++ chars " failed" ++ [10])) JDone
  | Redir c file mode fd =>
      if can_open file mode then mean c (<[Z.to_nat fd := Some (Opened file mode)]> t)
      else JEmit (Said (chars "open " ++ file ++ chars " failed" ++ [10])) JDone
  | Seq l r => JThen (mean l t) (mean r t)
  | Pipe l r =>
      if pipes then JNewPipe (fun id => JBoth (mean l (<[1%nat := Some (PipeIn id)]> t)) (mean r (<[0%nat := Some (PipeOut id)]> t)))
      else JEmit (Said (chars "pipe" ++ [10])) JDone
  | Back c => JDetach (mean c t)
  end.

(** ** Processes that do a job *)

(** Two children are awaited, in [w] steps. *)
Inductive joins : nat -> prog -> Prop :=
  | joins_close w fd q : joins w q -> joins (S w) (SysClose fd q)
  | joins_wait s : joins 3 (SysWait (SysWait (SysExit s))).

(** [does w p t j]: the program [p] of a process without children and the
    children it makes do the job [j], in at most [w] steps. *)
Inductive does : nat -> prog -> fds -> job -> Prop :=
  | does_exit w s t : (1 <= w)%nat -> does w (SysExit s) t JDone
  | does_silent w w1 p t p' t' j : silent p t = Some (p', t') -> does w1 p' t' j -> (1 + w1 <= w)%nat -> does w p t j
  | does_say w w1 text k t j : does w1 k t j -> (1 + w1 <= w)%nat -> does w (SysPrint text k) t (JEmit (Said text) j)
  | does_cd w w1 path k t j : can_cd path = true -> does w1 (k 0) t j -> (1 + w1 <= w)%nat ->
      does w (SysChdir path k) t (JEmit (Moved path) j)
  | does_exec w argv k t : can_run (default [] (head argv)) = true -> (2 <= w)%nat -> does w (SysExec argv k) t (JRun argv t)
  | does_pipe w w1 k t p0 p1 t' f : (forall id, new_pipe id t = Some (p0, p1, t' id)) ->
      (forall id, does w1 (k (Some (p0, p1))) (t' id) (f id)) -> (1 + w1 <= w)%nat -> does w (SysPipe k) t (JNewPipe f)
  | does_no_pipe w w1 k t j : (forall id, new_pipe id t = None) -> does w1 (k None) t j -> (1 + w1 <= w)%nat ->
      does w (SysPipe k) t j
  | does_then w w1 w2 k q t a b : does w1 (k 0) t a -> (forall pid, 0 < pid -> k pid = SysWait q) -> does w2 q t b ->
      (2 + w1 + w2 <= w)%nat -> does w (SysFork k) t (JThen a b)
  | does_detach w w1 k s t a : does w1 (k 0) t a -> (forall pid, 0 < pid -> k pid = SysExit s) -> (2 + w1 <= w)%nat ->
      does w (SysFork k) t (JDetach a)
  | does_both w w1 w2 w3 k k' q t a b : does w1 (k 0) t a -> (forall pid, 0 < pid -> k pid = SysFork k') ->
      does w2 (k' 0) t b -> (forall pid, 0 < pid -> k' pid = q) -> joins w3 q -> (2 + w1 + w2 + w3 <= w)%nat ->
      does w (SysFork k) t (JBoth a b).

(** The same of a process with the children it has made so far. *)
Inductive works : nat -> process -> job -> Prop :=
  | works_done w : works w zombie JDone
  | works_program w argv : (1 <= w)%nat -> works w (Proc (InProgram argv) []) (JRunning argv)
  | works_shell w p t j : does w p t j -> works w (Proc (InShell p t) []) j
  | works_then w w1 w2 q t kid a b : works w1 kid a -> does w2 q t b -> (1 + w1 + w2 <= w)%nat ->
      works w (Proc (InShell (SysWait q) t) [kid]) (JThen a b)
  | works_detach w w1 s t kid a : works w1 kid a -> (1 + w1 <= w)%nat ->
      works w (Proc (InShell (SysExit s) t) [kid]) (JDetach a)
  | works_half w w1 w2 w3 k q t kid a b : works w1 kid a -> does w2 (k 0) t b -> (forall pid, 0 < pid -> k pid = q) ->
      joins w3 q -> (1 + w1 + w2 + w3 <= w)%nat -> works w (Proc (InShell (SysFork k) t) [kid]) (JBoth a b)
  | works_both w w1 w2 w3 q t kid kid' a b : works w1 kid a -> works w2 kid' b -> joins w3 q -> (w1 + w2 + w3 <= w)%nat ->
      works w (Proc (InShell q t) [kid; kid']) (JBoth a b)
  | works_left w w1 s t kid a : works w1 kid a -> (2 + w1 <= w)%nat ->
      works w (Proc (InShell (SysWait (SysExit s)) t) [kid]) (JBoth a JDone)
  | works_right w w1 s t kid b : works w1 kid b -> (2 + w1 <= w)%nat ->
      works w (Proc (InShell (SysWait (SysExit s)) t) [kid]) (JBoth JDone b).

Lemma does_mono w w' p t j : does w p t j -> (w <= w')%nat -> does w' p t j.
Proof. intros H Hw. inversion H; subst; econstructor; solve [eassumption | lia]. Qed.

(** Processes and jobs side by side. *)
Inductive all_work : nat -> list process -> list job -> Prop :=
  | all_nil : all_work 0 [] []
  | all_cons w ws p ps j js : works w p j -> all_work ws ps js -> all_work (w + ws) (p :: ps) (j :: js).

(** The job stays as it is, or makes a step. *)
Definition job_moves (n : Z) (j : job) (e : option event) (j' : job) (js : list job) (n' : Z) : Prop :=
  (e = None /\ j' = j /\ js = [] /\ n' = n) \/ job_step n j e j' js n'.

Lemma kids_nil {A} (xs : list A) x ys : [] <> xs ++ x :: ys.
Proof. by destruct xs. Qed.

Lemma kids_one {A} (xs : list A) x ys y : xs ++ x :: ys = [y] -> xs = [] /\ x = y /\ ys = [].
Proof. destruct xs as [|? [|? ?]]; naive_solver. Qed.

Lemma kids_two {A} (xs : list A) x ys y z : xs ++ x :: ys = [y; z] ->
  (xs = [] /\ x = y /\ ys = [z]) \/ (xs = [y] /\ x = z /\ ys = []).
Proof. destruct xs as [|? [|? [|? ?]]]; naive_solver. Qed.

(** Which child a step is about. *)
#[local] Ltac same_kid E := match type of E with ?x = ?y => first [subst x | subst y] end.
#[local] Ltac kids :=
  repeat match goal with
  | H : [] = _ ++ _ :: _ |- _ => by destruct (kids_nil _ _ _ H)
  | H : _ ++ _ :: _ = [] |- _ => by destruct (kids_nil _ _ _ (eq_sym H))
  | H : _ ++ _ :: _ = [_] |- _ => apply kids_one in H as (-> & H & ->); same_kid H
  | H : _ ++ _ :: _ = [_; _] |- _ => apply kids_two in H as [(-> & H & ->)|(-> & H & ->)]; same_kid H
  end.

(** The job answers with a step, or waits. *)
#[local] Ltac answer w j ws js := exists w, j, ws, js; split_and!; [lia | | | ].

Lemma does_step w p t j n e p' os n' : does w p t j -> proc_step n (Proc (InShell p t) []) e p' os n' ->
  exists w' j' ws js, (w' + ws < w)%nat /\ works w' p' j' /\ all_work ws os js /\ job_moves n j e j' js n'.
Proof.
  intros Hd Hs. inversion Hs; subst; kids; inversion Hd; subst; cbn [silent] in *; simplify_eq;
    try (match goal with H : can_cd _ = true |- _ => rewrite H in * | H : can_run _ = true |- _ => rewrite H in * end; simplify_eq).
  - answer 0%nat JDone 0%nat (@nil job); [constructor | constructor | by left].
  - answer w1 j 0%nat (@nil job); [by constructor | constructor | by left].
  - answer w1 j0 0%nat (@nil job); [by constructor | constructor | right; constructor].
  - answer w1 j0 0%nat (@nil job); [by constructor | constructor | right; constructor].
  - answer 1%nat (JRunning argv) 0%nat (@nil job); [by constructor | constructor | right; constructor].
  - match goal with H : forall id, new_pipe id t = Some _, H' : new_pipe n t = Some _ |- _ => rewrite H in H'; simplify_eq end.
    answer w1 (f n) 0%nat (@nil job); [by constructor | constructor | right; constructor].
  - match goal with H : forall id, new_pipe id t = None, H' : new_pipe _ t = Some _ |- _ => by rewrite H in H' end.
  - match goal with H : forall id, new_pipe id t = Some _, H' : new_pipe _ t = None |- _ => by rewrite H in H' end.
  - answer w1 j 0%nat (@nil job); [by constructor | constructor | by left].
  - answer (1 + w1 + w2)%nat (JThen a b) 0%nat (@nil job); [| constructor | by left].
    match goal with H : forall pid, _ -> k pid = _ |- _ => rewrite H by done end. by eapply works_then; [constructor | |].
  - answer (1 + w1)%nat (JDetach a) 0%nat (@nil job); [| constructor | by left].
    match goal with H : forall pid, _ -> k pid = _ |- _ => rewrite H by done end. by eapply works_detach; [constructor |].
  - answer (1 + w1 + w2 + w3)%nat (JBoth a b) 0%nat (@nil job); [| constructor | by left].
    match goal with H : forall pid, _ -> k pid = SysFork _ |- _ => rewrite H by done end. by eapply works_half; [constructor | ..].
Qed.

Lemma joins_step w q t kid kid' n e p' os n' : joins w q -> proc_step n (Proc (InShell q t) [kid; kid']) e p' os n' ->
  (exists w' q' t', (w' < w)%nat /\ joins w' q' /\ p' = Proc (InShell q' t') [kid; kid'] /\ e = None /\ os = [] /\ n' = n) \/
  (exists s, w = 3%nat /\ e = None /\ os = [] /\ n' = n /\
    ((kid = zombie /\ p' = Proc (InShell (SysWait (SysExit s)) t) [kid']) \/
     (kid' = zombie /\ p' = Proc (InShell (SysWait (SysExit s)) t) [kid]))) \/
  (exists k', proc_step n kid e k' os n' /\ p' = Proc (InShell q t) [k'; kid']) \/
  (exists k', proc_step n kid' e k' os n' /\ p' = Proc (InShell q t) [kid; k']).
Proof.
  intros Hj Hs. inversion Hs; subst; kids; try by inversion Hj.
  - left. inversion Hj; subst; cbn [silent] in *; simplify_eq. eexists _, _, _. split_and!; [| done ..]. lia.
  - right. left. inversion Hj; subst. exists s. split_and!; auto.
  - right. left. inversion Hj; subst. exists s. split_and!; auto.
  - right. right. left. by eexists.
  - right. right. right. by eexists.
Qed.

(** Whatever step the processes make, the job makes it too, or waits; and the
    steps that are left become fewer. *)
Lemma works_step w p j : works w p j -> forall n e p' os n', proc_step n p e p' os n' ->
  exists w' j' ws js, (w' + ws < w)%nat /\ works w' p' j' /\ all_work ws os js /\ job_moves n j e j' js n'.
Proof.
  induction 1 as [w|w argv Hw|w p t j Hd|w w1 w2 q t kid a b Ha IHa Hb Hw|w w1 s t kid a Ha IHa Hw
    |w w1 w2 w3 k q t kid a b Ha IHa Hb Hk Hj Hw|w w1 w2 w3 q t kid kid' a b Ha IHa Hb IHb Hj Hw
    |w w1 s t kid a Ha IHa Hw|w w1 s t kid b Hb IHb Hw]; intros n e p' os n' Hs.
  - inversion Hs; kids.
  - inversion Hs; subst; kids. answer 0%nat JDone 0%nat (@nil job); [constructor | constructor | right; constructor].
  - by eapply does_step.
  - inversion Hs; subst; kids; try done.
    + inversion Ha; subst. answer w2 b 0%nat (@nil job); [by constructor | constructor | right; constructor].
    + match goal with H : proc_step _ kid _ _ _ _ |- _ => destruct (IHa _ _ _ _ _ H) as (w' & a' & ws & js & Hlt & Ha' & Hos & Hm) end.
      answer (1 + w' + w2)%nat (JThen a' b) ws js; [by eapply works_then | done |].
      destruct Hm as [(-> & -> & -> & ->)|Hm]; [by left | by right; constructor].
  - inversion Hs; subst; kids; try done.
    + answer 0%nat JDone (w1 + 0)%nat [a]; [constructor | by repeat constructor | right; constructor].
    + match goal with H : proc_step _ kid _ _ _ _ |- _ => destruct (IHa _ _ _ _ _ H) as (w' & a' & ws & js & Hlt & Ha' & Hos & Hm) end.
      answer (1 + w')%nat (JDetach a') ws js; [by eapply works_detach | done |].
      destruct Hm as [(-> & -> & -> & ->)|Hm]; [by left | by right; constructor].
  - inversion Hs; subst; kids; try done.
    + rewrite Hk by done. answer (w1 + w2 + w3)%nat (JBoth a b) 0%nat (@nil job); [| constructor | by left].
      by eapply works_both; [| constructor | |].
    + match goal with H : proc_step _ kid _ _ _ _ |- _ => destruct (IHa _ _ _ _ _ H) as (w' & a' & ws & js & Hlt & Ha' & Hos & Hm) end.
      answer (1 + w' + w2 + w3)%nat (JBoth a' b) ws js; [by eapply works_half | done |].
      destruct Hm as [(-> & -> & -> & ->)|Hm]; [by left | by right; constructor].
  - destruct (joins_step _ _ _ _ _ _ _ _ _ _ Hj Hs) as [(w' & q' & t' & Hlt & Hj' & -> & -> & -> & ->)|[(s & -> & -> & -> & -> & Hz)|[(k' & Hk & ->)|(k' & Hk & ->)]]].
    + answer (w1 + w2 + w')%nat (JBoth a b) 0%nat (@nil job); [by eapply works_both | constructor | by left].
    + destruct Hz as [[-> ->]|[-> ->]].
      * inversion Ha; subst. answer (2 + w2)%nat (JBoth JDone b) 0%nat (@nil job); [by eapply works_right | constructor | by left].
      * inversion Hb; subst. answer (2 + w1)%nat (JBoth a JDone) 0%nat (@nil job); [by eapply works_left | constructor | by left].
    + destruct (IHa _ _ _ _ _ Hk) as (w' & a' & ws & js & Hlt & Ha' & Hos & Hm).
      answer (w' + w2 + w3)%nat (JBoth a' b) ws js; [by eapply works_both | done |].
      destruct Hm as [(-> & -> & -> & ->)|Hm]; [by left | by right; constructor].
    + destruct (IHb _ _ _ _ _ Hk) as (w' & b' & ws & js & Hlt & Hb' & Hos & Hm).
      answer (w1 + w' + w3)%nat (JBoth a b') ws js; [by eapply works_both | done |].
      destruct Hm as [(-> & -> & -> & ->)|Hm]; [by left | by right; constructor].
  - inversion Hs; subst; kids; try done.
    + inversion Ha; subst. answer 1%nat JDone 0%nat (@nil job); [by repeat constructor | constructor | right; constructor].
    + match goal with H : proc_step _ kid _ _ _ _ |- _ => destruct (IHa _ _ _ _ _ H) as (w' & a' & ws & js & Hlt & Ha' & Hos & Hm) end.
      answer (2 + w')%nat (JBoth a' JDone) ws js; [by eapply works_left | done |].
      destruct Hm as [(-> & -> & -> & ->)|Hm]; [by left | by right; constructor].
  - inversion Hs; subst; kids; try done.
    + inversion Hb; subst. answer 1%nat JDone 0%nat (@nil job); [by repeat constructor | constructor | right; constructor].
    + match goal with H : proc_step _ kid _ _ _ _ |- _ => destruct (IHb _ _ _ _ _ H) as (w' & b' & ws & js & Hlt & Hb' & Hos & Hm) end.
      answer (2 + w')%nat (JBoth JDone b') ws js; [by eapply works_right | done |].
      destruct Hm as [(-> & -> & -> & ->)|Hm]; [by left | by right; constructor].
Qed.

(** A process that is no zombie has a descendant that can go on. *)
Lemma does_goes w p t j n : does w p t j -> exists e p' os n', proc_step n (Proc (InShell p t) []) e p' os n'.
Proof.
  intros Hd. inversion Hd; subst;
    try match goal with H : forall id, new_pipe id t = _ |- _ => specialize (H n) end;
    try solve [eexists _, _, _, _; (by constructor) || by eapply step_silent].
  all: eexists _, _, _, _; by apply (step_fork _ _ _ _ 1).
Qed.

Lemma works_goes w p j n : works w p j -> p = zombie \/ exists e p' os n', proc_step n p e p' os n'.
Proof.
  assert (Hkid : forall s kids1 kid kids2, (exists e p' os n', proc_step n kid e p' os n') ->
    exists e p' os n', proc_step n (Proc s (kids1 ++ kid :: kids2)) e p' os n').
  { intros s kids1 kid kids2 (e & p' & os & n' & H). eexists _, _, _, _. by apply step_kid. }
  induction 1 as [w|w argv Hw|w p t j Hd|w w1 w2 q t kid a b Ha IHa Hb Hw|w w1 s t kid a Ha IHa Hw
    |w w1 w2 w3 k q t kid a b Ha IHa Hb Hk Hj Hw|w w1 w2 w3 q t kid kid' a b Ha IHa Hb IHb Hj Hw
    |w w1 s t kid a Ha IHa Hw|w w1 s t kid b Hb IHb Hw]; [by left | right ..].
  - eexists _, _, _, _. constructor.
  - by eapply does_goes.
  - destruct IHa as [->|IHa]; [| by apply (Hkid _ [] kid [])]. eexists _, _, _, _. apply (step_reap _ _ _ [] []).
  - eexists _, _, _, _. constructor.
  - eexists _, _, _, _. by apply (step_fork _ _ _ _ 1).
  - destruct Hj as [w3 fd q Hj|s]; [eexists _, _, _, _; by apply step_silent |].
    destruct IHa as [->|IHa]; [| by apply (Hkid _ [] kid [kid'])]. eexists _, _, _, _. apply (step_reap _ _ _ [] [kid']).
  - destruct IHa as [->|IHa]; [| by apply (Hkid _ [] kid [])]. eexists _, _, _, _. apply (step_reap _ _ _ [] []).
  - destruct IHb as [->|IHb]; [| by apply (Hkid _ [] kid [])]. eexists _, _, _, _. apply (step_reap _ _ _ [] []).
Qed.

(** ** Whole runs *)

Lemma all_work_app ws1 ps1 js1 ws2 ps2 js2 : all_work ws1 ps1 js1 -> all_work ws2 ps2 js2 ->
  all_work (ws1 + ws2) (ps1 ++ ps2) (js1 ++ js2).
Proof. induction 1; intros H2; cbn; [done |]. rewrite <- Nat.add_assoc. constructor; auto. Qed.

Lemma all_work_split ps1 : forall ws p ps2 js, all_work ws (ps1 ++ p :: ps2) js ->
  exists w1 w w2 js1 j js2, ws = (w1 + (w + w2))%nat /\ js = js1 ++ j :: js2 /\ all_work w1 ps1 js1 /\ works w p j /\ all_work w2 ps2 js2.
Proof.
  induction ps1 as [|p1 ps1 IH]; intros ws p ps2 js H; cbn in H; inversion H as [|w ws' ? ? j js' Hw Hall]; subst.
  - exists 0%nat, w, ws', [], j, js'. by repeat constructor.
  - destruct (IH _ _ _ _ Hall) as (w1 & w' & w2 & js1 & j' & js2 & -> & -> & H1 & Hj & H2).
    exists (w + w1)%nat, w', w2, (j :: js1), j', js2. split_and!; [lia | done | by constructor | done | done].
Qed.

Lemma sys_works ws ps js n e n' ps' : all_work ws ps js -> sys_step proc_step n ps e n' ps' ->
  exists ws' js', (ws' < ws)%nat /\ all_work ws' ps' js' /\ ((e = None /\ js' = js /\ n' = n) \/ sys_step job_step n js e n' js').
Proof.
  intros Hall Hs. inversion Hs as [xs x ys e' x' os n0 Hstep]; subst.
  destruct (all_work_split _ _ _ _ _ Hall) as (w1 & w & w2 & js1 & j & js2 & -> & -> & H1 & Hj & H2).
  destruct (works_step _ _ _ Hj _ _ _ _ _ Hstep) as (w' & j' & wo & jo & Hlt & Hj' & Ho & Hm).
  exists (w1 + (w' + (w2 + wo)))%nat, (js1 ++ j' :: js2 ++ jo). split_and!; [lia | |].
  - apply all_work_app; [done |]. constructor; [done |]. by apply all_work_app.
  - destruct Hm as [(-> & -> & -> & ->)|Hm]; [left; by rewrite app_nil_r | right; by constructor].
Qed.

Lemma runs_work n ps tr k n' ps' : runs proc_step n ps tr k n' ps' -> forall ws js, all_work ws ps js ->
  exists k' ws' js', runs job_step n js tr k' n' js' /\ (k + ws' <= ws)%nat /\ all_work ws' ps' js'.
Proof.
  induction 1 as [n ps|n ps e n1 ps1 tr k n2 ps2 Hs _ IH]; intros ws js Hall.
  - exists 0%nat, ws, js. by split; [constructor |].
  - destruct (sys_works _ _ _ _ _ _ _ Hall Hs) as (ws1 & js1 & Hlt & Hall1 & Hj).
    destruct (IH _ _ Hall1) as (k' & ws' & js' & Hr & Hle & Hall'). destruct Hj as [(-> & -> & ->)|Hj].
    + exists k', ws', js'. split_and!; [done | lia | done].
    + exists (S k'), ws', js'. split_and!; [by econstructor | lia | done].
Qed.

(** The processes go on, or all of them and the job have come to an end. *)
Lemma all_work_goes ws ps js n : all_work ws ps js ->
  (exists e n' ps', sys_step proc_step n ps e n' ps') \/ (Forall (eq zombie) ps /\ Forall (eq JDone) js).
Proof.
  induction 1 as [|w ws p ps j js Hp _ IH]; [by right; split; constructor |].
  destruct (works_goes _ _ _ n Hp) as [->|(e & p' & os & n' & Hs)].
  - inversion Hp; subst. destruct IH as [(e & n' & ps' & Hs)|[H1 H2]]; [| by right; split; constructor].
    left. inversion Hs; subst. eexists _, _, _. by apply (sys_one _ _ (zombie :: _)).
  - left. eexists _, _, _. by apply (sys_one _ _ []).
Qed.

(** Descriptors 0, 1 and 2 are open, and two more can be. *)
Definition standard (t : fds) : Prop :=
  exists d0 d1 d2 t', t = Some d0 :: Some d1 :: Some d2 :: None :: None :: t'.

Lemma standard_insert t n d : standard t -> (n < 2)%nat -> standard (<[n := Some d]> t).
Proof. intros (d0 & d1 & d2 & t' & ->) Hn. destruct n as [|[|n]]; [.. | lia]; cbn; unfold standard; eauto. Qed.

(** close(fd), then open: the file gets the descriptor. *)
Lemma reopen t fd d : standard t -> fd = 0 \/ fd = 1 -> add_fd d (drop_fd fd t) = Some (fd, <[Z.to_nat fd := Some d]> t).
Proof. intros (d0 & d1 & d2 & t' & ->) [->| ->]; done. Qed.

(** A redirection is of descriptor 0 or 1. *)
Fixpoint redirs_std (c : cmd) : Prop :=
  match c with
  | Exec _ => True
  | Redir c _ _ fd => (fd = 0 \/ fd = 1) /\ redirs_std c
  | Seq l r | Pipe l r => redirs_std l /\ redirs_std r
  | Back c => redirs_std c
  end.

(** Words that the buffer can hold. *)
Lemma string_from_ok n : forall m p w, string_at m p w -> (length w < n)%nat -> string_from n m p = w.
Proof.
  induction n as [|n IH]; intros m p w Hs Hn; [lia |]. cbn [string_from]. destruct w as [|b w].
  - by rewrite (string_at_nil _ _ Hs).
  - apply string_at_cons in Hs as (-> & Hb & Hs). rewrite (proj2 (Z.eqb_neq _ _)) by done. f_equal. apply IH; [done | cbn in Hn; lia].
Qed.

Fixpoint short (c : cmd) : Prop :=
  match c with
  | Exec args => Forall (fun w => (length w < sizeof_buf)%nat) args
  | Redir c file _ _ => (length file < sizeof_buf)%nat /\ short c
  | Seq l r | Pipe l r => short l /\ short r
  | Back c => short c
  end.

(** The arguments that execv gets. *)
Lemma arg_list_ok m (ps : list (Z * Z)) args : Forall2 (fun p w => 0 < p.1 /\ string_at m p.1 w) ps args ->
  Forall (fun w => (length w < sizeof_buf)%nat) args -> forall n, arg_list m (ps.*1 ++ replicate n 0) = args.
Proof.
  induction 1 as [|[q e] w ps args [Hq Hs] _ IH]; intros Hf n.
  - by destruct n.
  - apply Forall_cons in Hf as [Hw Hf]. cbn in Hq, Hs |- *. rewrite (proj2 (Z.eqb_neq _ _)) by lia.
    f_equal; [by apply string_from_ok | by apply IH].
Qed.

(** ** runcmd does what the command means *)

(** The steps a command takes at most. *)
Fixpoint cost (c : cmd) : nat :=
  match c with
  | Exec _ => 3
  | Redir c _ _ _ => 2 + cost c
  | Seq l r => 2 + cost l + cost r
  | Pipe l r => 16 + cost l + cost r
  | Back c => 2 + cost c
  end.

Lemma cost_pos c : (3 <= cost c)%nat.
Proof. induction c; cbn; lia. Qed.

(** A message, then the end. *)
Lemma does_message w text s t : (2 <= w)%nat -> does w (SysPrint text (SysExit s)) t (JEmit (Said text) JDone).
Proof. intros Hw. by apply (does_say w 1); [constructor |]. Qed.

(** A silent call, evaluated. *)
Lemma does_call w p t p' t' j : silent p t = Some (p', t') -> does w p' t' j -> does (S w) p t j.
Proof. intros Hs Hd. by eapply does_silent. Qed.

(** The processes of a pipeline. *)
Lemma does_pipeline w1 w2 w p0 p1 ql qr t a b :
  does w1 (SysClose 1 (SysDup p1 (SysClose p0 (SysClose p1 ql)))) t a ->
  does w2 (SysClose 0 (SysDup p0 (SysClose p0 (SysClose p1 qr)))) t b -> (7 + w1 + w2 <= w)%nat ->
  does w (fork1 (fun pid =>
    if pid =? 0 then SysClose 1 (SysDup p1 (SysClose p0 (SysClose p1 ql)))
    else fork1 (fun pid =>
      if pid =? 0 then SysClose 0 (SysDup p0 (SysClose p0 (SysClose p1 qr)))
      else SysClose p0 (SysClose p1 (SysWait (SysWait (SysExit 0))))))) t (JBoth a b).
Proof.
  intros Ha Hb Hw. set (q := SysClose p0 (SysClose p1 (SysWait (SysWait (SysExit 0))))).
  apply (does_both w w1 w2 5 _
    (fun pid => if pid =? -1 then PANIC_ (chars "fork") else
                if pid =? 0 then SysClose 0 (SysDup p0 (SysClose p0 (SysClose p1 qr))) else q) q);
    [exact Ha | | exact Hb | | by repeat constructor | lia].
  - intros pid Hp. by rewrite (proj2 (Z.eqb_neq pid (-1))), (proj2 (Z.eqb_neq pid 0)) by lia.
  - intros pid Hp. by rewrite (proj2 (Z.eqb_neq pid (-1))), (proj2 (Z.eqb_neq pid 0)) by lia.
Qed.

(** fork1, and the parent waits for the child. *)
Lemma does_fork_wait w1 w2 w ql qr t a b : does w1 ql t a -> does w2 qr t b -> (2 + w1 + w2 <= w)%nat ->
  does w (fork1 (fun pid => if pid =? 0 then ql else SysWait qr)) t (JThen a b).
Proof.
  intros Ha Hb Hw. apply (does_then w w1 w2 _ qr); [exact Ha | | exact Hb | done].
  intros pid Hp. by rewrite (proj2 (Z.eqb_neq pid (-1))), (proj2 (Z.eqb_neq pid 0)) by lia.
Qed.

Lemma runcmd_ok arena st c : 0 < arena -> forall fuel p t, command arena st p c -> redirs_std c -> short c -> standard t ->
  (Z.to_nat (p - arena) < fuel)%nat -> does (cost c) (runcmd fuel st p) t (mean c t).
Proof.
  intros Ha. induction c as [args|c IH file mode fd|l IHl r IHr|l IHl r IHr|c IH]; intros fuel p t [Hp Hc] Hr Hsh Ht Hf;
    (destruct fuel as [|fuel]; [lia |]); cbn [runcmd]; rewrite (proj2 (Z.eqb_neq p 0)) by lia.
  - destruct Hc as (ps & -> & Hps & Hl). cbn in Hsh. unfold pad. rewrite length_fmap.
    pose proof (arg_list_ok _ _ _ Hps Hsh (10 - length ps)) as Ea. destruct Hps as [|[q e] w ps args [Hq Hs] Hps].
    + change (zget _ 0) with 0. apply does_exit. cbn. lia.
    + change (zget _ 0) with q. cbn in Hq, Hs. rewrite (proj2 (Z.eqb_neq q 0)) by lia. rewrite Ea.
      apply Forall_cons in Hsh as [Hw _]. cbn [mean cost]. unfold c_str. rewrite (string_from_ok _ _ _ _ Hs Hw).
      destruct (can_run w) eqn:Hrun; [apply does_exec; [done | lia] |].
      eapply does_call; [cbn [silent]; change (default [] _) with w; by rewrite Hrun | by apply does_message].
  - destruct Hc as (pc & q & e & -> & [Hq Hs] & Hlt & Hc). destruct Hr as [Hfd Hr], Hsh as [Hw Hsh].
    unfold c_str. rewrite (string_from_ok _ _ _ _ Hs Hw). cbn [cost mean]. pose proof (cost_pos c).
    eapply does_call; [done |]. destruct (can_open file mode) eqn:Ho.
    + eapply does_call; [cbn [silent]; by rewrite Ho, (reopen t fd _ Ht Hfd) |]. rewrite (proj2 (Z.ltb_ge fd 0)) by lia.
      apply IH; [done | done | done | apply standard_insert; [done | lia] |]. pose proof (cmd_at_low _ _ _ _ _ Hc). lia.
    + eapply does_call; [cbn [silent]; by rewrite Ho |]. apply does_message. lia.
  - destruct Hc as (pl & pr & -> & Hll & Hlr & Hcl & Hcr). destruct Hr as [Hrl Hrr], Hsh as [Hsl Hsr].
    pose proof (cmd_at_low _ _ _ _ _ Hcl). pose proof (cmd_at_low _ _ _ _ _ Hcr). cbn [cost mean].
    destruct pipes eqn:Hpipes; [| eapply (does_no_pipe _ 2); [intros id; unfold new_pipe; by rewrite Hpipes | by apply does_message | lia]].
    destruct Ht as (d0 & d1 & d2 & t' & ->).
    apply (does_pipe _ (15 + cost l + cost r) _ _ 3 4
      (fun id => Some d0 :: Some d1 :: Some d2 :: Some (PipeOut id) :: Some (PipeIn id) :: t')); [| | lia].
    { intros id. unfold new_pipe. by rewrite Hpipes. }
    intros id. eapply (does_pipeline (4 + cost l) (4 + cost r)); [| | lia]; do 4 (eapply does_call; [reflexivity |]).
    + apply IHl; [done | done | done | unfold standard; cbn; eauto | lia].
    + apply IHr; [done | done | done | unfold standard; cbn; eauto | lia].
  - destruct Hc as (pl & pr & -> & Hll & Hlr & Hcl & Hcr). destruct Hr as [Hrl Hrr], Hsh as [Hsl Hsr].
    pose proof (cmd_at_low _ _ _ _ _ Hcl). pose proof (cmd_at_low _ _ _ _ _ Hcr). cbn [cost mean].
    eapply does_fork_wait; [apply IHl | apply IHr | lia]; done || lia.
  - destruct Hc as (pc & -> & Hlt & Hc). pose proof (cmd_at_low _ _ _ _ _ Hc). cbn [cost mean].
    eapply (does_detach _ (cost c) _ 0); [apply IH; done || lia | | lia].
    intros pid Hpid. by rewrite (proj2 (Z.eqb_neq pid (-1))), (proj2 (Z.eqb_neq pid 0)) by lia.
Qed.

(** * Lines *)

Section lines.
Context (arena buf o_rdonly o_wronly_creat o_rdwr : Z) (Harena : 0 < arena) (Hbuf : 0 < buf).

Lemma redirect_std c rs : redirs_std c -> redirs_std (redirect o_rdonly o_wronly_creat c rs).
Proof.
  revert c. induction rs as [|r rs IH]; intros c Hc; [done |]. cbn. apply IH. cbn. split; [| done].
  unfold redir_fd. destruct (r.1 =? 60); auto.
Qed.

Lemma background_std n c : redirs_std c -> redirs_std (background n c).
Proof. intros Hc. by induction n. Qed.

Lemma line_cmd_std : (forall l, redirs_std (line_cmd o_rdonly o_wronly_creat l)) /\
  (forall p, redirs_std (pipe_cmd o_rdonly o_wronly_creat p)) /\ (forall e, redirs_std (exec_cmd o_rdonly o_wronly_creat e)).
Proof.
  apply syntax_ind; cbn; intros; try (split; [| done]); try apply background_std; try done; by apply redirect_std.
Qed.

(** The words of the tokens are no longer than the line. *)
Definition short_toks (ts : list token) : Prop := forall w, Word w ∈ ts -> (length w < sizeof_buf)%nat.

Lemma short_app ts ts' : short_toks (ts ++ ts') <-> short_toks ts /\ short_toks ts'.
Proof. unfold short_toks. setoid_rewrite elem_of_app. naive_solver. Qed.

Lemma short_cons t ts : short_toks (t :: ts) <-> (forall w, t = Word w -> (length w < sizeof_buf)%nat) /\ short_toks ts.
Proof. unfold short_toks. setoid_rewrite elem_of_cons. naive_solver. Qed.

Lemma spelled_short ts text : spelled ts text -> (length text < sizeof_buf)%nat -> short_toks ts.
Proof.
  induction 1 as [ws _|ws t rest ts _ _ _ _ IH]; intros Hl; [by intros w ?%not_elem_of_nil |].
  rewrite !length_app in Hl. apply short_cons. split; [intros w ->; cbn in Hl; lia | apply IH; lia].
Qed.

Lemma redirect_short c rs : short c -> short_toks (redir_toks rs) -> short (redirect o_rdonly o_wronly_creat c rs).
Proof.
  revert c. induction rs as [|r rs IH]; intros c Hc Ht; [done |]. change (redir_toks (r :: rs)) with (Sym r.1 :: Word r.2 :: redir_toks rs) in Ht.
  apply short_cons in Ht as [_ [Hw Ht]%short_cons]. cbn. apply IH; [| done]. split; [by apply Hw | done].
Qed.

Lemma background_short n c : short c -> short (background n c).
Proof. intros Hc. by induction n. Qed.

Lemma simple_short args : short_toks (arg_toks args) ->
  Forall (fun w => (length w < sizeof_buf)%nat) args.*1 /\ forall rs, short_toks (redir_toks rs) -> short_toks (redir_toks (simple_redirs rs args)).
Proof.
  induction args as [|[w ra] args IH]; intros Ht.
  { split; [by apply Forall_nil |]. intros rs Hrs. unfold simple_redirs. cbn. by rewrite app_nil_r. }
  change (arg_toks ((w, ra) :: args)) with ((Word w :: redir_toks ra) ++ arg_toks args) in Ht.
  apply short_app in Ht as [[Hw Hra]%short_cons Ht]. destruct (IH Ht) as [Ha Hr]. split; [apply Forall_cons; split; [by apply Hw | done] |].
  intros rs Hrs. replace (simple_redirs rs ((w, ra) :: args)) with (simple_redirs (rs ++ ra) args) by (unfold simple_redirs; cbn; by rewrite <- app_assoc).
  apply Hr. unfold redir_toks in *. rewrite map_app, concat_app. by apply short_app.
Qed.

Lemma line_cmd_short : (forall l, short_toks (line_toks l) -> short (line_cmd o_rdonly o_wronly_creat l)) /\
  (forall p, short_toks (pipe_toks p) -> short (pipe_cmd o_rdonly o_wronly_creat p)) /\
  (forall e, short_toks (exec_toks e) -> short (exec_cmd o_rdonly o_wronly_creat e)).
Proof.
  apply syntax_ind.
  - intros p IH n [Hp _]%short_app. by apply background_short, IH.
  - intros p IHp n l IHl [Hp [_ [_ Hl]%short_cons]%short_app]%short_app. split; [by apply background_short, IHp | by apply IHl].
  - done.
  - intros e IHe p IHp [He [_ Hp]%short_cons]%short_app. split; [by apply IHe | by apply IHp].
  - intros rs args [Hrs Ha]%short_app. destruct (simple_short args Ha) as [Hw Hr]. by apply redirect_short, Hr.
  - intros l IHl rs [_ [Hl [_ Hrs]%short_cons]%short_app]%short_cons. by apply redirect_short; [apply IHl |].
Qed.

(** The buffer holds the line. *)
Lemma string_at_fill text : Forall (fun c => c <> 0) text -> string_at (fill_buf buf text) buf text.
Proof.
  intros Hnz. unfold fill_buf. split_and!; [done | | unfold place; by rewrite (proj2 (Z.ltb_ge _ _)), andb_false_r by lia].
  apply list_eq. intros i. destruct (decide (i < length text)%nat) as [Hi|Hi].
  - rewrite lookup_read_bytes by done. unfold place. rewrite (proj2 (Z.leb_le _ _)), (proj2 (Z.ltb_lt _ _)) by lia. cbn [andb].
    replace (buf + Z.of_nat i - buf) with (Z.of_nat i) by lia. rewrite <- (Nat2Z.id i) at 2. symmetry. apply lookup_zget. lia.
  - rewrite !lookup_ge_None_2; [done | lia | rewrite length_read_bytes; lia].
Qed.

Lemma run_line_ok l text t : Forall (fun c => c <> 0) text -> (length text < sizeof_buf)%nat -> line_ok l ->
  spelled (line_toks l) text -> size (line_cmd o_rdonly o_wronly_creat l) <= MAXN -> standard t ->
  does (cost (line_cmd o_rdonly o_wronly_creat l)) (run_line arena buf o_rdonly o_wronly_creat text) t
    (mean (line_cmd o_rdonly o_wronly_creat l) t).
Proof.
  intros Hnz Hlen Hok Hsp Hfit Ht. unfold run_line. set (st := mkShell (fill_buf buf text) ∅ 0).
  pose proof (parsecmd_ok arena o_rdonly o_wronly_creat Harena sizeof_buf buf text l st Hbuf (string_at_fill text Hnz) Hlen Hsp Hok ltac:(cbn; lia)) as H.
  unfold wp in H. destruct (parsecmd _ _ _ _ _ st) as [[p st']|msg| | |]; try done.
  - apply (runcmd_ok arena); [done | apply H | apply line_cmd_std | by eapply line_cmd_short, spelled_short | done | lia].
  - destruct H as [_ H]. cbn in H. lia.
Qed.

(** * A session *)

Inductive item :=
  | Command (l : line)
  | Cd (path : list Z).

Definition cd_prefix : list Z := [99; 100; 32].

(** The line [text] of the input is a command, or "cd", a path and a newline. *)
Definition reads (text : list Z) (i : item) : Prop :=
  Forall (fun c => c <> 0) text /\ text <> [] /\ (length text < sizeof_buf)%nat /\
  match i with
  | Command l => line_ok l /\ spelled (line_toks l) text /\ size (line_cmd o_rdonly o_wronly_creat l) <= MAXN /\ take 3 text <> cd_prefix
  | Cd path => text = cd_prefix ++ path ++ [10]
  end.

Definition prompt : event := Said (chars "$ ").

(** The lines one after the other, the next prompt when the command has ended. *)
Fixpoint session (items : list item) (t : fds) : job :=
  JEmit prompt
    match items with
    | [] => JDone
    | Command l :: items' => JThen (mean (line_cmd o_rdonly o_wronly_creat l) t) (session items' t)
    | Cd path :: items' =>
        JEmit (if can_cd path then Moved path else Said (chars "cannot cd " ++ path ++ [10])) (session items' t)
    end.

Lemma is_cd_ok text : Forall (fun c => c <> 0) text -> (zget text 0 =? 99) && (zget text 1 =? 100) && (zget text 2 =? 32) = bool_decide (take 3 text = cd_prefix).
Proof.
  intros Hnz. unfold cd_prefix. destruct text as [|a [|b [|c text]]]; cbn [take];
    try (rewrite bool_decide_eq_false_2 by done; cbn; rewrite ?andb_false_r; done).
  change (zget (a :: b :: c :: text) 0) with a. change (zget (a :: b :: c :: text) 1) with b. change (zget (a :: b :: c :: text) 2) with c.
  apply eq_true_iff_eq. rewrite !andb_true_iff, !Z.eqb_eq, bool_decide_eq_true. rewrite take_0. naive_solver congruence.
Qed.

Lemma read_lines_ok lines items : Forall2 reads lines items -> exists w, forall t, standard t ->
  does w (read_lines arena buf o_rdonly o_wronly_creat lines) t (session items t).
Proof.
  induction 1 as [|text i lines items (Hnz & Hne & Hlen & Hi) _ [w IH]]; [exists 2%nat; intros t Ht; by apply does_message |].
  assert (H0 : zget text 0 =? 0 = false).
  { destruct text as [|c text]; [done |]. apply Forall_cons in Hnz as [Hc _]. by apply Z.eqb_neq. }
  destruct i as [l|path].
  - destruct Hi as (Hok & Hsp & Hfit & Hcd). exists (3 + cost (line_cmd o_rdonly o_wronly_creat l) + w)%nat. intros t Ht.
    cbn [read_lines session]. rewrite H0, (is_cd_ok text Hnz), bool_decide_eq_false_2 by done.
    apply (does_say _ (2 + cost (line_cmd o_rdonly o_wronly_creat l) + w)); [| lia].
    eapply does_fork_wait; [by apply run_line_ok | by apply IH | lia].
  - subst text. exists (3 + w)%nat. intros t Ht. cbn [read_lines session].
    rewrite H0, (is_cd_ok _ Hnz), bool_decide_eq_true_2 by done. cbv zeta.
    replace (drop 3 (take (length (cd_prefix ++ path ++ [10]) - 1) (cd_prefix ++ path ++ [10]))) with path.
    2: { rewrite !length_app. cbn [length cd_prefix]. replace (3 + (length path + 1) - 1)%nat with (length (cd_prefix ++ path)) by (rewrite length_app; cbn; lia).
         rewrite app_assoc, take_app_length. unfold cd_prefix. cbn. by rewrite drop_0. }
    apply (does_say _ (2 + w)); [| lia]. destruct (can_cd path) eqn:Hcd.
    + apply (does_cd _ (1 + w)); [done | | lia]. change (0 <? 0) with false. cbv beta iota. eapply does_mono; [by apply IH | lia].
    + eapply does_call; [cbn [silent]; by rewrite Hcd |]. change (-1 <? 0) with true. cbv beta iota.
      apply (does_say _ w); [by apply IH | lia].
Qed.

(** The loop of main opens what is missing of the first three descriptors. *)
Definition console_fd (o : option desc) : option desc := Some (default (Opened (chars "console") o_rdwr) o).

Lemma open_console_ok k w j o0 o1 o2 t' : can_open (chars "console") o_rdwr = true ->
  does w k (console_fd o0 :: console_fd o1 :: console_fd o2 :: None :: None :: t') j ->
  does (5 + w) (open_console o_rdwr 4 k) (o0 :: o1 :: o2 :: None :: None :: t') j.
Proof.
  intros Hc Hk. eapply (does_mono (match o0 with None => 1 | _ => 0 end + (match o1 with None => 1 | _ => 0 end +
    (match o2 with None => 1 | _ => 0 end + (2 + w))))); [| destruct o0, o1, o2; lia].
  unfold open_console, console_fd in *. set (c := chars "console") in *. clearbody c.
  destruct o0, o1, o2; cbn [Nat.add];
    repeat (eapply does_call; [cbn [silent]; rewrite ?Hc; reflexivity |];
      repeat match goal with |- context [Z.of_nat ?n] => progress (let v := eval vm_compute in (Z.of_nat n) in change (Z.of_nat n) with v) end;
      cbn [Z.ltb Z.leb Z.compare Pos.compare Pos.compare_cont]; cbv beta iota); exact Hk.
Qed.
End lines.
End run.

(** The messages before the first prompt. *)
Fixpoint arg_messages (i : Z) (argv : list (list Z)) (j : job) : job :=
  match argv with
  | [] => j
  | a :: argv' => JEmit (Said (chars "sh: argv[" ++ chars (pretty.pretty i) ++ chars "] = '" ++ a ++ chars "'" ++ [10])) (arg_messages (i + 1) argv' j)
  end.
Definition env_message (test_env : option (list Z)) : event :=
  Said (match test_env with
        | Some v => chars "sh: testenv = '" ++ v ++ chars "'" ++ [10]
        | None => chars "sh: testenv not found!" ++ [10]
        end).

Lemma print_args_ok can_open can_run can_cd pipes k w t j argv : does can_open can_run can_cd pipes w k t j ->
  forall i, does can_open can_run can_cd pipes (length argv + w) (print_args i argv k) t (arg_messages i argv j).
Proof.
  intros Hk. induction argv as [|a argv IH]; intros i; cbn [print_args arg_messages length]; [done |].
  by apply (does_say _ _ _ _ _ (length argv + w)).
Qed.

(** The whole program, before its first step. *)
Lemma sh_main_works can_open can_run can_cd pipes arena buf o_rdonly o_wronly_creat o_rdwr argv test_env lines items o0 o1 o2 t' :
  0 < arena -> 0 < buf -> can_open (chars "console") o_rdwr = true -> Forall2 (reads o_rdonly o_wronly_creat) lines items ->
  exists w, all_work can_open can_run can_cd pipes w
    [Proc (InShell (sh_main arena buf o_rdonly o_wronly_creat o_rdwr argv test_env lines) (o0 :: o1 :: o2 :: None :: None :: t')) []]
    [arg_messages 0 argv (JEmit (env_message test_env) (session can_open can_run can_cd pipes o_rdonly o_wronly_creat items
      (console_fd o_rdwr o0 :: console_fd o_rdwr o1 :: console_fd o_rdwr o2 :: None :: None :: t')))].
Proof.
  intros Harena Hbuf Hconsole Hlines.
  destruct (read_lines_ok can_open can_run can_cd pipes arena buf o_rdonly o_wronly_creat o_rdwr Harena Hbuf lines items Hlines) as [w Hw].
  eexists (length argv + (1 + (5 + w)) + 0)%nat. constructor; [| constructor]. constructor. apply print_args_ok.
  eapply does_say; [| reflexivity]. apply open_console_ok; [done |]. apply Hw. unfold standard, console_fd. eauto.
Qed.


