(* ===== verification/Inode.v ===== *)
(** fs/inode.c: in-memory inodes, their on-disk entries, file contents,
    directories and path resolution.

    The code runs against the interface [BlockCache] of fs/cache.h and an
    [ObjectArena] for the [Inode] objects.  An inode is referred to by the
    address the arena gave it; [tree_mem] is the memory of the arena, whose
    content at a fresh address is arbitrary, and [tree_head] the addresses on the
    list [head], from [head.next] on.  Block contents are byte lists; a pointer to
    an on-disk entry is the block and the offset of the entry in it. *)
From S2P Require Import Prelude Bytes CString Bitmap Locks Arena FsDefs Cache CacheSpec CacheLog CacheAlloc BlockCache Path Console.

Record Inode := mkInode {
  inode_lock_ : SpinLock;
  rc : RefCount;
  ino : Z;              (* usize inode_no *)
  loaded : bool;        (* bool valid *)
  entry : InodeEntry
}.

Definition set_inode_lock v (i : Inode) : Inode := mkInode v (rc i) (ino i) (loaded i) (entry i).
Definition set_rc v (i : Inode) : Inode := mkInode (inode_lock_ i) v (ino i) (loaded i) (entry i).
Definition set_ino v (i : Inode) : Inode := mkInode (inode_lock_ i) (rc i) v (loaded i) (entry i).
Definition set_loaded v (i : Inode) : Inode := mkInode (inode_lock_ i) (rc i) (ino i) v (entry i).
Definition set_entry v (i : Inode) : Inode := mkInode (inode_lock_ i) (rc i) (ino i) (loaded i) v.

Definition set_type v (e : InodeEntry) : InodeEntry :=
  mkEntry v (major e) (minor e) (num_links e) (num_bytes e) (addrs e) (indirect e).
Definition set_num_bytes v (e : InodeEntry) : InodeEntry :=
  mkEntry (type e) (major e) (minor e) (num_links e) v (addrs e) (indirect e).
Definition set_addrs v (e : InodeEntry) : InodeEntry :=
  mkEntry (type e) (major e) (minor e) (num_links e) (num_bytes e) v (indirect e).
Definition set_indirect v (e : InodeEntry) : InodeEntry :=
  mkEntry (type e) (major e) (minor e) (num_links e) (num_bytes e) (addrs e) v.

Record itree (B A : Type) := mkTree {
  fs_cache : B;
  tree_lock : SpinLock;
  tree_arena : A;
  tree_head : list Z;
  tree_mem : Z -> Inode;
  tree_root : Z;
  tty : console
}.
Arguments mkTree {B A}.
Arguments fs_cache {B A}.
Arguments tree_lock {B A}.
Arguments tree_arena {B A}.
Arguments tree_head {B A}.
Arguments tree_mem {B A}.
Arguments tree_root {B A}.
Arguments tty {B A}.

Section setters.
Context {B A : Type}.
Implicit Types s : itree B A.
Definition set_fs_cache v s : itree B A :=
  mkTree v (tree_lock s) (tree_arena s) (tree_head s) (tree_mem s) (tree_root s) (tty s).
Definition set_tree_lock v s : itree B A :=
  mkTree (fs_cache s) v (tree_arena s) (tree_head s) (tree_mem s) (tree_root s) (tty s).
Definition set_tree_arena v s : itree B A :=
  mkTree (fs_cache s) (tree_lock s) v (tree_head s) (tree_mem s) (tree_root s) (tty s).
Definition set_tree_head v s : itree B A :=
  mkTree (fs_cache s) (tree_lock s) (tree_arena s) v (tree_mem s) (tree_root s) (tty s).
Definition set_tree_mem v s : itree B A :=
  mkTree (fs_cache s) (tree_lock s) (tree_arena s) (tree_head s) v (tree_root s) (tty s).
Definition set_tree_root v s : itree B A :=
  mkTree (fs_cache s) (tree_lock s) (tree_arena s) (tree_head s) (tree_mem s) v (tty s).
Definition set_tty v s : itree B A :=
  mkTree (fs_cache s) (tree_lock s) (tree_arena s) (tree_head s) (tree_mem s) (tree_root s) v.

(** A call into another component. *)
Definition within {T X} (part : itree B A -> T) (upd_part : T -> itree B A -> itree B A) (c : M T X) : M (itree B A) X :=
  fun s => match c (part s) with
           | Ret (x, t) => Ret (x, upd_part t s)
           | Panic e => Panic e
           | Blocked => Blocked
           | Fault => Fault
           | OutOfFuel => OutOfFuel
           end.
Definition cached {X} (c : M B X) : M (itree B A) X := within fs_cache set_fs_cache c.
Definition on_tty {X} (c : M console X) : M (itree B A) X := within tty set_tty c.
End setters.

(** Memory with the inode at [p] changed. *)
Definition upd_inode (p : Z) (i : Inode) (m : Z -> Inode) : Z -> Inode := fun q => if q =? p then i else m q.

(** * On-disk entries *)

(** return which block `inode_no` lives on. *)
Definition to_block_no (sb : SuperBlock) (no : Z) : Z := inode_start sb + no / INODE_PER_BLOCK.

(** The offset of the entry in the block, the entry, and the block with the
    entry replaced. *)
Definition entry_offset (no : Z) : nat := Z.to_nat (no mod INODE_PER_BLOCK * sizeof_InodeEntry).
Definition get_entry (d : list Z) (no : Z) : InodeEntry := inode_dec (slice d (entry_offset no) 64).
Definition put_entry (d : list Z) (no : Z) (e : InodeEntry) : list Z := splice d (entry_offset no) (inode_enc e).

(** address array in indirect block. *)
Definition get_addrs (d : list Z) : list Z := words_dec 4 128 d.
Definition put_addr (d : list Z) (i a : Z) : list Z := splice d (Z.to_nat (4 * i)) (le_enc 4 a).

(** A new InodeEntry: memset to 0, then the type. *)
Definition fresh_entry (ty : Z) : InodeEntry := mkEntry ty 0 0 0 0 (replicate 12 0) 0.

Section inode.
(** [sb] is [*sblock], [me] the CPU that runs the code, [killed] the flag of
    the process and [cwd] its current directory. *)
Context {B A : Type} {sb : SuperBlock} `{BC : BlockCache sb B} `{OA : ObjectArena A} (me : Z) (killed : bool) (cwd : Z).
Notation T := (itree B A).

Definition lock_tree : M T unit :=
  s ← get; l ← lift (acquire_spinlock me (tree_lock s)); modify (set_tree_lock l).
Definition unlock_tree : M T unit :=
  s ← get; l ← lift (release_spinlock me (tree_lock s)); modify (set_tree_lock l).

(** [*p], a fault unless [p] is an allocated inode. *)
Definition load_inode (p : Z) : M T Inode :=
  s ← get; if bool_decide (p ∈ tree_head s) then mret (tree_mem s p) else fault.
Definition store_inode (p : Z) (i : Inode) : M T unit :=
  modify (fun s => set_tree_mem (upd_inode p i (tree_mem s)) s).
Definition modify_entry (p : Z) (f : InodeEntry -> InodeEntry) : M T unit :=
  i ← load_inode p; store_inode p (set_entry (f (entry i)) i).

(** initialize in-memory inode; [entry] keeps what the memory held. *)
Definition init_inode (i : Inode) : Inode := mkInode init_spinlock init_rc 0 false (entry i).

Definition inode_alloc_step (ctx ty : Z) (no : Z) : M T (option Z) :=
  block ← cached (bc_acquire (to_block_no sb no));
  d ← cached (bc_data block);
  if type (get_entry d no) =? INODE_INVALID then
    cached (bc_put block (put_entry d no (fresh_entry ty)));;
    cached (bc_sync ctx block);;
    cached (bc_release block);;
    mret (Some no)
  else cached (bc_release block);; mret None.

Definition inode_alloc (ctx ty : Z) : M T Z :=
  assert (negb (ty =? INODE_INVALID)) "type != INODE_INVALID";;
  r ← for_until 1 (Z.to_nat (num_inodes sb - 1)) (inode_alloc_step ctx ty);
  match r with
  | Some no => mret no
  | None => panic "failed to allocate inode on disk"
  end.

Definition inode_sync (ctx p : Z) (do_write : bool) : M T unit :=
  i ← load_inode p;
  block ← cached (bc_acquire (to_block_no sb (ino i)));
  d ← cached (bc_data block);
  (if loaded i && do_write then
     cached (bc_put block (put_entry d (ino i) (entry i)));;
     cached (bc_sync ctx block)
   else if negb (loaded i) then store_inode p (set_loaded true (set_entry (get_entry d (ino i)) i))
   else mret tt);;
  cached (bc_release block).

Definition inode_lock (p : Z) : M T unit :=
  i ← load_inode p;
  assert (count (rc i) >? 0) "inode->rc.count > 0";;
  l ← lift (acquire_spinlock me (inode_lock_ i));
  store_inode p (set_inode_lock l i);;
  (if negb (loaded i) then inode_sync 0 p false else mret tt);;
  i ← load_inode p;
  assert (negb (type (entry i) =? INODE_INVALID)) "inode->entry.type != INODE_INVALID".

Definition inode_unlock (p : Z) : M T unit :=
  i ← load_inode p;
  assert (holding_spinlock me (inode_lock_ i)) "holding_spinlock(&inode->lock)";;
  assert (count (rc i) >? 0) "inode->rc.count > 0";;
  l ← lift (release_spinlock me (inode_lock_ i));
  store_inode p (set_inode_lock l i).

(** The inodes of the list in order. *)
Fixpoint find_inode (no : Z) (mem : Z -> Inode) (l : list Z) : option Z :=
  match l with
  | [] => None
  | p :: l' => if (count (rc (mem p)) >? 0) && (ino (mem p) =? no) then Some p else find_inode no mem l'
  end.

Definition inode_get (no : Z) : M T Z :=
  assert (no >? 0) "inode_no > 0";;
  assert (no <? num_inodes sb) "inode_no < sblock->num_inodes";;
  lock_tree;;
  s ← get;
  p ← match find_inode no (tree_mem s) (tree_head s) with
      | Some p =>
          store_inode p (set_rc (increment_rc (rc (tree_mem s p))) (tree_mem s p));;
          mret p
      | None =>
          '(p, a) ← lift (obj_alloc (tree_arena s));
          modify (set_tree_arena a);;
          assert (negb (p =? 0)) "inode != NULL";;
          let i := set_ino no (init_inode (tree_mem s p)) in
          store_inode p (set_rc (increment_rc (rc i)) i);;
          modify (fun s => set_tree_head (p :: tree_head s) s);;
          mret p
      end;
  unlock_tree;;
  mret p.

(** The loops of inode_clear over an array of block numbers. *)
Definition free_addr (ctx : Z) (l : list Z) (i : Z) : M T unit :=
  if negb (zget l i =? 0) then cached (bc_free ctx (zget l i)) else mret tt.

Definition inode_clear (ctx p : Z) : M T unit :=
  i ← load_inode p;
  for_range 0 12 (free_addr ctx (addrs (entry i)));;
  modify_entry p (set_addrs (replicate 12 0));;
  i ← load_inode p;
  let iaddr := indirect (entry i) in
  (if negb (iaddr =? 0) then
     block ← cached (bc_acquire iaddr);
     d ← cached (bc_data block);
     for_range 0 128 (free_addr ctx (get_addrs d));;
     cached (bc_release block);;
     cached (bc_free ctx iaddr);;
     modify_entry p (set_indirect 0)
   else mret tt);;
  modify_entry p (set_num_bytes 0);;
  inode_sync ctx p true.

Definition inode_share (p : Z) : M T Z :=
  lock_tree;;
  i ← load_inode p;
  store_inode p (set_rc (increment_rc (rc i)) i);;
  unlock_tree;;
  mret p.

Definition inode_put (ctx p : Z) : M T unit :=
  lock_tree;;
  i ← load_inode p;
  let is_last := (count (rc i) <=? 1) && (num_links (entry i) =? 0) in
  (if is_last then
     inode_lock p;;
     unlock_tree;;
     inode_clear ctx p;;
     modify_entry p (set_type INODE_INVALID);;
     inode_sync ctx p true;;
     inode_unlock p;;
     lock_tree
   else mret tt);;
  i ← load_inode p;
  let '(gone, c) := decrement_rc (rc i) in
  store_inode p (set_rc c i);;
  (if (gone : bool) then
     modify (fun s => set_tree_head (filter (fun q => q <> p) (tree_head s)) s);;
     s ← get;
     '(_, a) ← lift (obj_free p (tree_arena s));
     modify (set_tree_arena a)
   else mret tt);;
  unlock_tree.

(** [modified] is [*modified] before and after. *)
Definition inode_map (ctx p offset : Z) (modified : bool) : M T (Z * bool) :=
  i ← load_inode p;
  let index := offset / BLOCK_SIZE in
  if index <? INODE_NUM_DIRECT then
    modified ← (if zget (addrs (entry i)) index =? 0 then
                  a ← cached (bc_alloc ctx);
                  modify_entry p (fun e => set_addrs (zset (addrs e) index (u32 a)) e);;
                  mret true
                else mret modified);
    i ← load_inode p;
    mret (zget (addrs (entry i)) index, modified)
  else
    let index := index - INODE_NUM_DIRECT in
    assert (index <? INODE_NUM_INDIRECT) "index < INODE_NUM_INDIRECT";;
    modified ← (if indirect (entry i) =? 0 then
                  a ← cached (bc_alloc ctx);
                  modify_entry p (set_indirect (u32 a));;
                  mret true
                else mret modified);
    i ← load_inode p;
    block ← cached (bc_acquire (indirect (entry i)));
    d ← cached (bc_data block);
    modified ← (if zget (get_addrs d) index =? 0 then
                  a ← cached (bc_alloc ctx);
                  d ← cached (bc_data block);
                  cached (bc_put block (put_addr d index (u32 a)));;
                  cached (bc_sync ctx block);;
                  mret true
                else mret modified);
    d ← cached (bc_data block);
    let addr := zget (get_addrs d) index in
    cached (bc_release block);;
    mret (addr, modified).

(** console_read and console_write of core/console.c: the inode is unlocked
    while the console is used. *)
Definition console_read (p n : Z) : M T (Z * list Z) :=
  inode_unlock p;;
  r ← on_tty (cons_read me killed n);
  inode_lock p;;
  mret r.

Definition console_write (p : Z) (src : list Z) : M T Z :=
  inode_unlock p;;
  r ← on_tty (cons_write me src);
  inode_lock p;;
  mret r.

(** The loop of inode_read; [fuel] bounds the number of blocks.  The result are
    the bytes stored at [dest]. *)
Fixpoint read_loop (fuel : nat) (p begin end_ : Z) : M T (list Z) :=
  if begin <? end_ then
    match fuel with
    | O => fun _ => OutOfFuel
    | S fuel' =>
        '(block_no, modified) ← inode_map 0 p begin false;
        assert (negb modified) "!modified";;
        block ← cached (bc_acquire block_no);
        let index := begin mod BLOCK_SIZE in
        let step := MIN (end_ - begin) (BLOCK_SIZE - index) in
        d ← cached (bc_data block);
        cached (bc_release block);;
        rest ← read_loop fuel' p (begin + step) end_;
        mret (slice d (Z.to_nat index) (Z.to_nat step) ++ rest)
    end
  else mret [].

(** A range of [count] bytes lies on at most so many blocks. *)
Definition block_fuel (count : Z) : nat := S (S (Z.to_nat (count / BLOCK_SIZE))).

(** The value returned and the bytes stored at [dest]. *)
Definition inode_read (p offset count : Z) : M T (Z * list Z) :=
  i ← load_inode p;
  if type (entry i) =? INODE_DEVICE then
    assert (major (entry i) =? 1) "inode->entry.major == 1";;
    '(r, bs) ← console_read p (i64 count);
    mret (u64 r, bs)
  else
    let count := if u64 (count + offset) >? num_bytes (entry i) then u64 (num_bytes (entry i) - offset) else count in
    let end_ := u64 (offset + count) in
    assert (offset <=? num_bytes (entry i)) "offset <= entry->num_bytes";;
    assert (end_ <=? num_bytes (entry i)) "end <= entry->num_bytes";;
    assert (offset <=? end_) "offset <= end";;
    bs ← read_loop (block_fuel count) p offset end_;
    mret (count, bs).

(** The loop of inode_write; the bytes of [src] are consumed. *)
Fixpoint write_loop (fuel : nat) (ctx p begin end_ : Z) (src : list Z) (modified : bool) : M T bool :=
  if begin <? end_ then
    match fuel with
    | O => fun _ => OutOfFuel
    | S fuel' =>
        '(block_no, modified) ← inode_map ctx p begin modified;
        block ← cached (bc_acquire block_no);
        let index := begin mod BLOCK_SIZE in
        let step := MIN (end_ - begin) (BLOCK_SIZE - index) in
        d ← cached (bc_data block);
        cached (bc_put block (splice d (Z.to_nat index) (take (Z.to_nat step) src)));;
        cached (bc_sync ctx block);;
        cached (bc_release block);;
        write_loop fuel' ctx p (begin + step) end_ (drop (Z.to_nat step) src) modified
    end
  else mret modified.

(** [count] bytes at [src]. *)
Definition inode_write (ctx p : Z) (src : list Z) (offset : Z) : M T Z :=
  let count := Z.of_nat (length src) in
  i ← load_inode p;
  let end_ := u64 (offset + count) in
  if type (entry i) =? INODE_DEVICE then
    assert (major (entry i) =? 1) "inode->entry.major == 1";;
    r ← console_write p src;
    mret (u64 r)
  else
    assert (offset <=? num_bytes (entry i)) "offset <= entry->num_bytes";;
    assert (end_ <=? INODE_MAX_BYTES) "end <= INODE_MAX_BYTES";;
    assert (offset <=? end_) "offset <= end";;
    modified ← write_loop (block_fuel count) ctx p offset end_ src false;
    i ← load_inode p;
    modified ← (if end_ >? num_bytes (entry i) then
                  modify_entry p (set_num_bytes (u16 end_));; mret true
                else mret modified);
    (if (modified : bool) then inode_sync ctx p true else mret tt);;
    mret count.

(** ** Directories *)

(** The iterations of [for (offset = 0; offset < num_bytes; offset += sizeof(dentry))]. *)
Definition dir_entries (e : InodeEntry) : nat :=
  Z.to_nat ((num_bytes e + sizeof_DirEntry - 1) / sizeof_DirEntry).

(** [inode_read(inode, &dentry, offset, sizeof(dentry))]: the bytes of [dentry]
    after the read. *)
Definition read_dentry (p offset : Z) (dentry : list Z) : M T (list Z) :=
  '(_, bs) ← inode_read p offset sizeof_DirEntry; mret (splice dentry 0 bs).

(** [name] is the string passed; the result is the inode number with the index
    of the entry, or 0. *)
Fixpoint lookup_loop (p : Z) (name : list Z) (n : nat) (offset : Z) (dentry : list Z) : M T (Z * option Z) :=
  match n with
  | O => mret (0, None)
  | S n' =>
      dentry ← read_dentry p offset dentry;
      let d := dirent_dec dentry in
      if negb (inode_no d =? 0) && (strncmp_list name (FsDefs.name d) FILE_NAME_MAX_LENGTH =? 0) then
        mret (inode_no d, Some (offset / sizeof_DirEntry))
      else lookup_loop p name n' (offset + sizeof_DirEntry) dentry
  end.

(** [junk] is the content of the local variable [dentry] before the first read. *)
Definition inode_lookup (junk : list Z) (p : Z) (name : list Z) : M T (Z * option Z) :=
  i ← load_inode p;
  assert (type (entry i) =? INODE_DIRECTORY) "entry->type == INODE_DIRECTORY";;
  lookup_loop p name (dir_entries (entry i)) 0 junk.

(** The offset the search for a free entry stops at. *)
Fixpoint insert_loop (p : Z) (n : nat) (offset : Z) (dentry : list Z) : M T Z :=
  match n with
  | O => mret offset
  | S n' =>
      dentry ← read_dentry p offset dentry;
      if inode_no (dirent_dec dentry) =? 0 then mret offset
      else insert_loop p n' (offset + sizeof_DirEntry) dentry
  end.

Definition inode_insert (junk : list Z) (ctx p : Z) (name : list Z) (no : Z) : M T Z :=
  i ← load_inode p;
  assert (type (entry i) =? INODE_DIRECTORY) "entry->type == INODE_DIRECTORY";;
  offset ← insert_loop p (dir_entries (entry i)) 0 junk;
  let dentry := mkDirEntry (u16 no) (strncpy_list name FILE_NAME_MAX_LENGTH) in
  _ ← inode_write ctx p (dirent_enc dentry) offset;
  mret (offset / sizeof_DirEntry).

Definition inode_remove (ctx p index : Z) : M T unit :=
  i ← load_inode p;
  assert (type (entry i) =? INODE_DIRECTORY) "entry->type == INODE_DIRECTORY";;
  let offset := u64 (index * sizeof_DirEntry) in
  if offset >=? num_bytes (entry i) then mret tt else
  _ ← inode_write ctx p (replicate 16 0) offset;
  mret tt.

(** ** Paths *)

(** The loop of namex; the path gets shorter in every round, so its length is
    fuel enough.  The result is the inode (0 is NULL) and the content of [name]. *)
Fixpoint namex_loop (fuel : nat) (junk : list Z) (path : list Z) (nameiparent : bool) (name : list Z) (ctx ip : Z) : M T (Z * list Z) :=
  match fuel with
  | O => fun _ => OutOfFuel
  | S fuel' =>
      match skipelem path name with
      | None =>
          if nameiparent then
            cached (bc_begin_op ctx);; inode_put ctx ip;; cached (bc_end_op ctx);; mret (0, name)
          else mret (ip, name)
      | Some (path, name) =>
          inode_lock ip;;
          i ← load_inode ip;
          if negb (type (entry i) =? INODE_DIRECTORY) then
            inode_unlock ip;;
            cached (bc_begin_op ctx);; inode_put ctx ip;; cached (bc_end_op ctx);;
            mret (0, name)
          else if nameiparent && bool_decide (path = []) then
            inode_unlock ip;; mret (ip, name)
          else if bool_decide (path = [dot]) then
            inode_unlock ip;; mret (ip, name)
          else
            '(no, _) ← inode_lookup junk ip name;
            if no =? 0 then
              inode_unlock ip;; inode_put ctx ip;; mret (0, name)
            else
              '(no, _) ← inode_lookup junk ip name;
              next ← inode_get no;
              inode_unlock ip;;
              inode_put ctx ip;;
              namex_loop fuel' junk path nameiparent name ctx next
      end
  end.

Definition namex (junk : list Z) (path : list Z) (nameiparent : bool) (name : list Z) (ctx : Z) : M T (Z * list Z) :=
  ip ← (if hd 0 path =? slash then inode_get 1 else inode_share cwd);
  namex_loop (S (length path)) junk path nameiparent name ctx ip.

(** [namei] with its local buffer [name]. *)
Definition namei (junk name path : list Z) (ctx : Z) : M T Z :=
  '(ip, _) ← namex junk path false name ctx; mret ip.
Definition nameiparent (junk path name : list Z) (ctx : Z) : M T (Z * list Z) := namex junk path true name ctx.

(** The fields [stati] writes; [S_IFREG] and [S_IFDIR] come from sys/stat.h. *)
Record stat := mkStat { st_dev : Z; st_ino : Z; st_nlink : Z; st_size : Z; st_mode : Z }.

Definition stati (S_IFREG S_IFDIR : Z) (p : Z) : M T stat :=
  i ← load_inode p;
  let e := entry i in
  mode ← (if type e =? INODE_REGULAR then mret S_IFREG
          else if type e =? INODE_DIRECTORY then mret S_IFDIR
          else if type e =? INODE_DEVICE then mret 0
          else panic "unexpected stat type");
  mret (mkStat 1 (ino i) (num_links e) (num_bytes e) mode).

(** ** Initialisation *)

(** The variables of inode.c after the assignments of init_inodes; the arena [a]
    is the one init_arena made, over the memory [mem]. *)
Definition fresh_itree (c : B) (a : A) (mem : Z -> Inode) (k : console) : T :=
  mkTree c init_spinlock a [] mem 0 k.

Definition init_inodes (c : B) (a : A) (mem : Z -> Inode) (k : console) : outcome T :=
  let s := fresh_itree c a mem k in
  if ROOT_INODE_NO <? num_inodes sb then
    '(p, s) ← inode_get ROOT_INODE_NO s; Ret (set_tree_root p s)
  else Ret s.
End inode.
