(* ===== verification/InodeSpec.v ===== *)
(** The contract of the inode layer: the layout of the disk, the content of a
    file as a function of the blocks, and the rules for the calls inode.c makes
    into the block cache. *)
From S2P Require Import Prelude Bytes CString Bitmap Locks Arena FsDefs Cache CacheSpec CacheLog CacheAlloc BlockCache Path Console Inode.

(** * The layout of the disk *)

(** [ ... | log | inodes | bitmap | data ], as mkfs writes it, with a bitmap of
    one block (mkfs makes file systems of FSSIZE = 1000 blocks, one block of
    bitmap covers 4096). *)
Record geometry (sb : SuperBlock) : Prop := {
  g_log : 0 <= sb_log_start sb /\ sb_log_start sb + num_log_blocks sb <= inode_start sb;
  g_log_size : 0 <= num_log_blocks sb;
  g_inodes : 0 < num_inodes sb /\ inode_start sb + (num_inodes sb - 1) / INODE_PER_BLOCK < bitmap_start sb;
  g_bitmap : bitmap_start sb < num_blocks sb;
  g_size : num_blocks sb <= BIT_PER_BLOCK
}.

Definition data_block (sb : SuperBlock) (no : Z) : Prop := bitmap_start sb < no < num_blocks sb.

Section layout.
Context {sb : SuperBlock} (G : geometry sb).

Lemma usable_data no : data_block sb no -> usable sb no.
Proof.
  intros [H1 H2]. destruct G as [Hl Hs [Hi Hib] Hb Hsz]. unfold usable, in_log.
  assert (0 <= (num_inodes sb - 1) / INODE_PER_BLOCK) by (apply Z.div_pos; [lia | done]).
  change BIT_PER_BLOCK with 4096 in *. split; lia.
Qed.

Lemma usable_bitmap : usable sb (bitmap_start sb).
Proof.
  destruct G as [Hl Hs [Hi Hib] Hb Hsz]. unfold usable, in_log.
  assert (0 <= (num_inodes sb - 1) / INODE_PER_BLOCK) by (apply Z.div_pos; [lia | done]).
  change BIT_PER_BLOCK with 4096 in *. split; lia.
Qed.

(** The inode blocks are before the bitmap. *)
Lemma inode_block_range no : 0 <= no < num_inodes sb -> inode_start sb <= to_block_no sb no < bitmap_start sb.
Proof.
  intros Hno. destruct G as [Hl Hs [Hi Hib] Hb Hsz]. unfold to_block_no.
  assert (0 <= no / INODE_PER_BLOCK <= (num_inodes sb - 1) / INODE_PER_BLOCK).
  { change INODE_PER_BLOCK with 8. dlia. }
  lia.
Qed.

Lemma usable_inode no : 0 <= no < num_inodes sb -> usable sb (to_block_no sb no).
Proof.
  intros Hno. pose proof (inode_block_range no Hno) as Hr. destruct G as [Hl Hs [Hi Hib] Hb Hsz].
  unfold usable, in_log. change BIT_PER_BLOCK with 4096 in *. split; lia.
Qed.

Lemma bitmap_block_one no : 0 <= no < num_blocks sb -> bitmap_block sb no = bitmap_start sb.
Proof.
  intros Hno. unfold bitmap_block. rewrite Z.div_small; [lia |]. pose proof (g_size _ G). lia.
Qed.
End layout.

(** * File contents *)

(** The block of a file with index [i], 0 where there is none. *)
Definition block_of (e : InodeEntry) (w : Z -> list Z) (i : Z) : Z :=
  if i <? INODE_NUM_DIRECT then zget (addrs e) i
  else if indirect e =? 0 then 0
  else zget (get_addrs (w (indirect e))) (i - INODE_NUM_DIRECT).

(** The byte at position [k] of a file, and [n] bytes from [off] on. *)
Definition byte_of (e : InodeEntry) (w : Z -> list Z) (k : Z) : Z :=
  zget (w (block_of e w (k / BLOCK_SIZE))) (k mod BLOCK_SIZE).
Definition file_bytes (e : InodeEntry) (w : Z -> list Z) (off : Z) (n : nat) : list Z :=
  byte_of e w <$> seqZ off (Z.of_nat n).

(** A block that belongs to a file. *)
Definition owned (sb : SuperBlock) (w : Z -> list Z) (no : Z) : Prop :=
  data_block sb no /\ used_bit sb w no = true.

Record file_wf (sb : SuperBlock) (e : InodeEntry) (w : Z -> list Z) : Prop := {
  fw_entry : entry_wf e;
  fw_size : num_bytes e <= INODE_MAX_BYTES;
  fw_mapped : forall i, 0 <= i -> i * BLOCK_SIZE < num_bytes e -> block_of e w i <> 0;
  fw_owned : forall i, 0 <= i < INODE_MAX_BLOCKS -> block_of e w i <> 0 -> owned sb w (block_of e w i);
  fw_inj : forall i j, 0 <= i < INODE_MAX_BLOCKS -> 0 <= j < INODE_MAX_BLOCKS ->
    block_of e w i <> 0 -> block_of e w i = block_of e w j -> i = j;
  fw_indirect : indirect e <> 0 -> owned sb w (indirect e) /\
    forall i, 0 <= i < INODE_MAX_BLOCKS -> block_of e w i <> indirect e
}.

(** Blocks outside of the data area are marked as used. *)
Definition meta_used (sb : SuperBlock) (w : Z -> list Z) : Prop :=
  forall m, 0 <= m <= bitmap_start sb -> used_bit sb w m = true.

(** * Free blocks *)

(** The free blocks in order; cache_alloc takes the first. *)
Definition free_list (sb : SuperBlock) (w : Z -> list Z) : list Z :=
  filter (fun m => used_bit sb w m = false) (seqZ 0 (num_blocks sb)).

Lemma elem_of_free_list sb w m : m ∈ free_list sb w <-> 0 <= m < num_blocks sb /\ used_bit sb w m = false.
Proof. unfold free_list. rewrite list_elem_of_filter, elem_of_seqZ. naive_solver lia. Qed.

Lemma filter_hd_first (P : Z -> Prop) `{forall x, Decision (P x)} n l x : forall a,
  filter P (seqZ a n) = x :: l -> forall m, a <= m < x -> ~ P m.
Proof.
  destruct (Z_lt_le_dec n 0) as [Hn|Hn]; [intros a; rewrite seqZ_nil by lia; done |].
  revert l x. pattern n. apply natlike_ind; [| | done].
  - intros l x a. rewrite seqZ_nil by lia. done.
  - intros k Hk IH l x a. rewrite seqZ_cons, Z.pred_succ by lia. destruct (decide (P a)) as [Ha|Ha].
    + rewrite filter_cons_True by done. intros [= <- _] m. lia.
    + rewrite filter_cons_False by done. intros E m Hm. destruct (decide (m = a)) as [->|]; [done |].
      apply (IH l x (Z.succ a) E). lia.
Qed.

Lemma free_list_first sb w no l : free_list sb w = no :: l -> first_free sb w no.
Proof.
  intros E. assert (Hin : no ∈ free_list sb w) by (rewrite E; left).
  apply elem_of_free_list in Hin as [Hr Hf]. split; [done | done |].
  intros m Hm. apply not_false_iff_true. exact (filter_hd_first _ _ _ _ 0 E m Hm).
Qed.

Lemma free_list_NoDup sb w : NoDup (free_list sb w).
Proof. apply NoDup_filter, NoDup_seqZ. Qed.

(** The blocks after the allocation of [no]: it is zeroed, and the bitmap has
    one more bit. *)
Record grown (sb : SuperBlock) (w : Z -> list Z) (no : Z) (w' : Z -> list Z) : Prop := {
  gr_zero : w' no = zero_block;
  gr_same : forall n, n <> no -> n <> bitmap_start sb -> w' n = w n;
  gr_used : forall m, 0 <= m < num_blocks sb -> used_bit sb w' m = if decide (m = no) then true else used_bit sb w m;
  gr_free : free_list sb w' = tail (free_list sb w)
}.

Lemma allocated_grown sb w no l : geometry sb -> (forall n, block_wf (w n)) -> free_list sb w = no :: l ->
  no <> bitmap_start sb -> grown sb w no (allocated sb no w).
Proof.
  intros G Hw El Hno. assert (Hin : no ∈ free_list sb w) by (rewrite El; left).
  apply elem_of_free_list in Hin as [Hr _].
  assert (Hu : forall m, 0 <= m < num_blocks sb ->
    used_bit sb (allocated sb no w) m = if decide (m = no) then true else used_bit sb w m).
  { intros m Hm. rewrite <- (used_bit_mark sb w no m Hw). unfold allocated.
    set (w1 := upd w _ _). unfold used_bit, upd. rewrite (bitmap_block_one G m Hm).
    by rewrite (proj2 (Z.eqb_neq _ _)) by congruence. }
  split; [| | exact Hu |].
  - unfold allocated, upd. by rewrite Z.eqb_refl.
  - intros n Hn Hb. unfold allocated, upd. rewrite (bitmap_block_one G no Hr).
    by rewrite !(proj2 (Z.eqb_neq _ _)) by done.
  - rewrite El. cbn [tail]. pose proof (free_list_NoDup sb w) as Hd. rewrite El in Hd. apply NoDup_cons in Hd as [Hni _].
    transitivity (filter (fun m => m <> no) (free_list sb w)).
    + unfold free_list. rewrite list_filter_filter. apply filter_ext_in. intros m Hm%elem_of_seqZ.
      rewrite Hu by lia. case_decide; naive_solver.
    + rewrite El, filter_cons_False by (intros H; by apply H). apply filter_all. intros m Hm ->. done.
Qed.

(** The blocks after [no] is freed: only the bitmap changes. *)
Record shrunk (sb : SuperBlock) (w : Z -> list Z) (no : Z) (w' : Z -> list Z) : Prop := {
  sh_same : forall n, n <> bitmap_start sb -> w' n = w n;
  sh_used : forall m, 0 <= m < num_blocks sb -> used_bit sb w' m = if decide (m = no) then false else used_bit sb w m
}.

Lemma freed_shrunk sb w no : geometry sb -> (forall n, block_wf (w n)) -> 0 <= no < num_blocks sb ->
  shrunk sb w no (freed sb no w).
Proof.
  intros G Hw Hr. split.
  - intros n Hn. unfold freed, upd. rewrite (bitmap_block_one G no Hr). by rewrite (proj2 (Z.eqb_neq _ _)) by done.
  - intros m Hm. apply used_bit_clear, Hw.
Qed.

(** * Calls into the block cache *)

(** Between two calls the caller holds no block; inside, it holds one. *)
Definition qv (w : Z -> list Z) (ops : gmap Z (list Z)) : fsv := mkFsv w ∅ ∅ ops.
Definition hv (b no : Z) (w : Z -> list Z) (m : gset Z) (ops : gmap Z (list Z)) : fsv := mkFsv w {[b := no]} m ops.

Section calls.
Context {B A : Type} {sb : SuperBlock} `{BC : BlockCache sb B} `{OA : ObjectArena A}.
Implicit Types (s : itree B A) (w : Z -> list Z) (ops : gmap Z (list Z)).

(** A call that started in [s0] has reached [s]: the inode at [p] is [i], the
    cache shows [v], and nothing else has changed. *)
Record run (s0 : itree B A) (p : Z) (i : Inode) (v : fsv) s : Prop := {
  r_in : p ∈ tree_head s;
  r_mem : tree_mem s p = i;
  r_R : bc_R (fs_cache s) v;
  r_lock : tree_lock s = tree_lock s0;
  r_arena : tree_arena s = tree_arena s0;
  r_head : tree_head s = tree_head s0;
  r_root : tree_root s = tree_root s0;
  r_tty : tty s = tty s0;
  r_others : forall q, q <> p -> tree_mem s q = tree_mem s0 q
}.

Lemma run_start s p i v : p ∈ tree_head s -> tree_mem s p = i -> bc_R (fs_cache s) v -> run s p i v s.
Proof. intros. by split. Qed.

Lemma run_cache s0 p i v v' s c : run s0 p i v s -> bc_R c v' -> run s0 p i v' (set_fs_cache c s).
Proof. intros [] Hc. by split. Qed.

Lemma run_wf s0 p i v s n : run s0 p i v s -> block_wf (fview v n).
Proof. intros H. exact (bc_wf _ _ n (r_R _ _ _ _ _ H)). Qed.

Lemma wp_cached {X} E (c : M B X) Q s :
  wp E c (fun x t => Q x (set_fs_cache t s)) (fs_cache s) -> wp E (cached c) Q s.
Proof. unfold wp, cached, within. by destruct (c (fs_cache s)) as [[] | | | |]. Qed.

Lemma load_inode_ok E s0 p i v s Q : run s0 p i v s -> Q i s -> wp E (load_inode p) Q s.
Proof.
  intros H HQ. unfold load_inode. apply wp_bind, wp_get. rewrite bool_decide_eq_true_2 by apply H.
  apply wp_ret. by rewrite (r_mem _ _ _ _ _ H).
Qed.

Lemma store_inode_ok E s0 p i i' v s Q : run s0 p i v s -> (forall s', run s0 p i' v s' -> Q tt s') ->
  wp E (store_inode p i') Q s.
Proof.
  intros [] HQ. apply wp_modify, HQ. split; cbn; try done.
  - unfold upd_inode. by rewrite Z.eqb_refl.
  - intros q Hq. unfold upd_inode. rewrite (proj2 (Z.eqb_neq q p)) by done. by apply r_others0.
Qed.

Lemma modify_entry_ok E s0 p i f v s Q : run s0 p i v s ->
  (forall s', run s0 p (set_entry (f (entry i)) i) v s' -> Q tt s') -> wp E (modify_entry p f) Q s.
Proof.
  intros H HQ. unfold modify_entry. apply wp_bind. eapply load_inode_ok; [exact H |]. by eapply store_inode_ok.
Qed.

Lemma qv_unheld w ops no : fv_unheld (qv w ops) no.
Proof. intros q. cbn. by rewrite lookup_empty. Qed.

Lemma hv_unheld b no w m ops no' : no' <> no -> fv_unheld (hv b no w m ops) no'.
Proof. intros Hne q. cbn. rewrite lookup_singleton_Some. intros [_ ?]. congruence. Qed.

Lemma size_held b no : (size ({[b := no]} : gmap Z Z) < 6)%nat.
Proof. rewrite map_size_singleton. lia. Qed.

Lemma acquire_ok E s0 p i w ops s no Q : run s0 p i (qv w ops) s -> usable sb no ->
  (forall b s', run s0 p i (hv b no w ∅ ops) s' -> Q b s') -> wp E (cached (bc_acquire no)) Q s.
Proof.
  intros H Hu HQ. apply wp_cached. eapply bc_acquire_ok; [apply H | apply qv_unheld | done | cbn; rewrite map_size_empty; lia |].
  intros b c Hc _. apply HQ. eapply run_cache; [exact H |]. exact Hc.
Qed.

Lemma data_ok E s0 p i b no w m ops s Q : run s0 p i (hv b no w m ops) s -> Q (w no) s -> wp E (cached (bc_data b)) Q s.
Proof.
  intros H HQ. apply wp_cached. eapply bc_data_ok; [apply H | cbn; by rewrite lookup_singleton_eq |].
  cbn. replace (set_fs_cache (fs_cache s) s) with s by (by destruct s). done.
Qed.

Lemma put_ok E s0 p i b no w ops s d Q : run s0 p i (hv b no w ∅ ops) s -> block_wf d ->
  (forall s', run s0 p i (hv b no (upd w no d) {[no]} ops) s' -> Q tt s') -> wp E (cached (bc_put b d)) Q s.
Proof.
  intros H Hd HQ. apply wp_cached. eapply bc_put_ok; [apply H | cbn; by rewrite lookup_singleton_eq | done |].
  intros c Hc. apply HQ. eapply run_cache; [exact H |]. unfold fv_put in Hc. cbn in Hc. by rewrite union_empty_r_L in Hc.
Qed.

Lemma sync_ok E s0 p i b no w m ops ctx bl s Q : run s0 p i (hv b no w m (<[ctx := bl]> ops)) s -> m ⊆ {[no]} ->
  (length (add_new no bl) <= 10)%nat -> usable sb no ->
  (forall s', run s0 p i (hv b no w ∅ (<[ctx := add_new no bl]> ops)) s' -> Q tt s') -> wp E (cached (bc_sync ctx b)) Q s.
Proof.
  intros H Hm Hl Hu HQ. apply wp_cached.
  eapply bc_sync_ok; [apply H | cbn; by rewrite lookup_insert_eq | cbn; by rewrite lookup_singleton_eq | done | done |].
  intros c Hc. apply HQ. eapply run_cache; [exact H |]. unfold fv_sync in Hc. cbn in Hc.
  rewrite insert_insert_eq in Hc. by rewrite (subseteq_empty_difference_L m {[no]} Hm) in Hc.
Qed.

Lemma release_ok E s0 p i b no w ops s Q : run s0 p i (hv b no w ∅ ops) s ->
  (forall s', run s0 p i (qv w ops) s' -> Q tt s') -> wp E (cached (bc_release b)) Q s.
Proof.
  intros H HQ. apply wp_cached.
  eapply bc_release_ok; [apply H | cbn; by rewrite lookup_singleton_eq | apply not_elem_of_empty |].
  intros c Hc. apply HQ. eapply run_cache; [exact H |]. unfold fv_unhold in Hc. cbn in Hc. by rewrite delete_singleton_eq in Hc.
Qed.

(** Allocation, with blocks of files held. *)
Lemma alloc_ok E s0 p i w h m ops ctx bl s no l Q : geometry sb ->
  run s0 p i (mkFsv w h m (<[ctx := bl]> ops)) s -> free_list sb w = no :: l -> meta_used sb w ->
  (forall q n, h !! q = Some n -> owned sb w n) -> (size h < 6)%nat ->
  (length (add_new no (add_new (bitmap_start sb) bl)) <= 10)%nat ->
  (forall s' w', grown sb w no w' -> data_block sb no ->
    run s0 p i (mkFsv w' h m (<[ctx := add_new no (add_new (bitmap_start sb) bl)]> ops)) s' -> Q no s') ->
  wp E (cached (bc_alloc ctx)) Q s.
Proof.
  intros G H El Hmeta Hh Hsize Hlen HQ. pose proof (free_list_first _ _ _ _ El) as Hff. pose proof Hff as [Hr Hf _].
  assert (Hd : data_block sb no).
  { split; [| lia]. destruct (decide (bitmap_start sb < no)); [done |]. rewrite Hmeta in Hf by lia. done. }
  assert (Hbu : fv_unheld (mkFsv w h m (<[ctx := bl]> ops)) (bitmap_start sb)).
  { intros q Hq. destruct (Hh q _ Hq) as [[? _] _]. lia. }
  apply wp_cached. eapply bc_alloc_ok; [apply H | cbn; by rewrite lookup_insert_eq | |].
  - split; cbn [fview fheld]; [exact Hff | | | | | | done].
    + intros k Hk. rewrite (bitmap_block_one G) by lia. split; [by apply usable_bitmap | done].
    + split; [by apply usable_data |]. intros q Hq. destruct (Hh q _ Hq) as [_ Hu]. cbn in *. congruence.
    + rewrite (bitmap_block_one G) by lia. destruct Hd. lia.
    + pose proof (g_size _ G). change BIT_PER_BLOCK with 4096 in *. lia.
    + by rewrite (bitmap_block_one G) by lia.
  - intros c Hc. eapply HQ; [| exact Hd |].
    + eapply allocated_grown; [done | intros n; apply (run_wf _ _ _ _ _ n H) | exact El | destruct Hd; lia].
    + eapply run_cache; [exact H |]. unfold fv_view in Hc. cbn in Hc.
      by rewrite insert_insert_eq, (bitmap_block_one G) in Hc by lia.
Qed.

Lemma free_ok E s0 p i w h m ops ctx bl s no Q : geometry sb ->
  run s0 p i (mkFsv w h m (<[ctx := bl]> ops)) s -> owned sb w no ->
  (forall q n, h !! q = Some n -> n <> bitmap_start sb) -> (size h < 6)%nat ->
  (length (add_new (bitmap_start sb) bl) <= 10)%nat ->
  (forall s' w', shrunk sb w no w' ->
    run s0 p i (mkFsv w' h m (<[ctx := add_new (bitmap_start sb) bl]> ops)) s' -> Q tt s') ->
  wp E (cached (bc_free ctx no)) Q s.
Proof.
  intros G H [Hd Hu] Hh Hsize Hlen HQ. pose proof (g_bitmap _ G).
  assert (Hr : 0 <= no < num_blocks sb).
  { destruct Hd, (usable_bitmap G) as [_ ?]. lia. }
  pose proof (bitmap_block_one G no Hr) as Eb.
  apply wp_cached. eapply bc_free_ok; [apply H | cbn; by rewrite lookup_insert_eq | exact Hu | | | | done |]; rewrite ?Eb.
  - by apply usable_bitmap.
  - intros q Hq. by apply (Hh q _ Hq).
  - done.
  - intros c Hc. eapply HQ.
    + apply (freed_shrunk sb w no G); [intros n; apply (run_wf _ _ _ _ _ n H) | done].
    + eapply run_cache; [exact H |]. unfold fv_view in Hc. cbn in Hc. by rewrite insert_insert_eq in Hc.
Qed.
End calls.
