(* ===== verification/InodeMap.v ===== *)
(** inode_sync, inode_lock and inode_map of fs/inode.c: entries move between
    memory and disk, and a file grows by one block. *)
From S2P Require Import Prelude Bytes CString Bitmap Locks Arena FsDefs Cache CacheSpec CacheLog CacheAlloc BlockCache Path Console Inode InodeSpec.

#[local] Arguments zget : simpl never.

(** * Entries in inode blocks *)

Lemma entry_offset_bound no : (entry_offset no + 64 <= 512)%nat.
Proof. unfold entry_offset, INODE_PER_BLOCK, sizeof_InodeEntry, BLOCK_SIZE. change (512 / 64) with 8. dlia. Qed.

Lemma put_entry_wf d no e : block_wf d -> entry_wf e -> block_wf (put_entry d no e).
Proof.
  intros [Hb Hl] He. pose proof (entry_offset_bound no) as Ho. unfold put_entry. split.
  - apply bytes_splice; [done | apply inode_enc_bytes].
  - rewrite length_splice; [done |]. rewrite length_inode_enc by done. lia.
Qed.

Lemma get_put_entry d no e : block_wf d -> entry_wf e -> get_entry (put_entry d no e) no = e.
Proof.
  intros [Hb Hl] He. pose proof (entry_offset_bound no) as Ho. unfold get_entry, put_entry.
  rewrite <- (length_inode_enc e He). rewrite slice_splice by (rewrite length_inode_enc by done; lia).
  rewrite <- (app_nil_r (inode_enc e)). by apply inode_dec_enc.
Qed.

Lemma get_put_entry_ne d no no' e : block_wf d -> entry_wf e -> no mod 8 <> no' mod 8 ->
  get_entry (put_entry d no e) no' = get_entry d no'.
Proof.
  intros [Hb Hl] He Hne. pose proof (entry_offset_bound no) as Ho. pose proof (entry_offset_bound no') as Ho'.
  unfold get_entry, put_entry. f_equal. apply slice_splice_disjoint; rewrite ?length_inode_enc by done; [lia | lia |].
  unfold entry_offset, INODE_PER_BLOCK, sizeof_InodeEntry, BLOCK_SIZE. change (512 / 64) with 8. dlia.
Qed.

(** The entry of inode [no] on the disk, and the blocks with it replaced. *)
Definition disk_entry (sb : SuperBlock) (w : Z -> list Z) (no : Z) : InodeEntry := get_entry (w (to_block_no sb no)) no.
Definition write_entry (sb : SuperBlock) (w : Z -> list Z) (no : Z) (e : InodeEntry) : Z -> list Z :=
  upd w (to_block_no sb no) (put_entry (w (to_block_no sb no)) no e).

Lemma disk_entry_write sb w no e : block_wf (w (to_block_no sb no)) -> entry_wf e -> disk_entry sb (write_entry sb w no e) no = e.
Proof. intros Hw He. unfold disk_entry, write_entry, upd. rewrite Z.eqb_refl. by apply get_put_entry. Qed.

Lemma disk_entry_write_ne sb w no no' e : block_wf (w (to_block_no sb no)) -> entry_wf e -> no <> no' ->
  disk_entry sb (write_entry sb w no e) no' = disk_entry sb w no'.
Proof.
  intros Hw He Hne. unfold disk_entry, write_entry, upd.
  destruct (Z.eqb_spec (to_block_no sb no') (to_block_no sb no)) as [E|]; [| done].
  rewrite E. apply get_put_entry_ne; [done | done |]. unfold to_block_no in E.
  change INODE_PER_BLOCK with 8 in E. dlia.
Qed.

(** * Synchronisation of an inode *)

Section sync.
Context {B A : Type} {sb : SuperBlock} `{BC : BlockCache sb B} `{OA : ObjectArena A} (me : Z).
Implicit Types (s : itree B A) (w : Z -> list Z) (ops : gmap Z (list Z)) (i : Inode).

(** An inode that can be used: loaded, with a number on the disk. *)
Definition inode_ok (i : Inode) : Prop := loaded i = true /\ 0 <= ino i < num_inodes sb.

Lemma inode_sync_write_ok E s0 p i w ctx bl ops s Q : geometry sb -> run s0 p i (qv w (<[ctx := bl]> ops)) s ->
  inode_ok i -> entry_wf (entry i) -> (length (add_new (to_block_no sb (ino i)) bl) <= 10)%nat ->
  (forall s', run s0 p i (qv (write_entry sb w (ino i) (entry i)) (<[ctx := add_new (to_block_no sb (ino i)) bl]> ops)) s' -> Q tt s') ->
  wp E (inode_sync ctx p true) Q s.
Proof.
  intros G H [Hl Hi] He Hlen HQ. unfold inode_sync. pose proof (usable_inode G _ Hi) as Hu.
  apply wp_bind. eapply load_inode_ok; [exact H |].
  apply wp_bind. eapply acquire_ok; [exact H | done |]. intros b s1 H1.
  apply wp_bind. eapply data_ok; [exact H1 |]. rewrite Hl. cbn [andb]. apply wp_bind, wp_bind.
  eapply put_ok; [exact H1 | apply put_entry_wf; [apply (run_wf _ _ _ _ _ _ H) | done] |]. intros s2 H2.
  eapply sync_ok; [exact H2 | done | done | done |]. intros s3 H3.
  eapply release_ok; [exact H3 |]. exact HQ.
Qed.

Lemma inode_sync_load_ok E s0 p i w ctx do_write ops s Q : geometry sb -> run s0 p i (qv w ops) s ->
  loaded i = false -> 0 <= ino i < num_inodes sb ->
  (forall s', run s0 p (set_loaded true (set_entry (disk_entry sb w (ino i)) i)) (qv w ops) s' -> Q tt s') ->
  wp E (inode_sync ctx p do_write) Q s.
Proof.
  intros G H Hl Hi HQ. unfold inode_sync. pose proof (usable_inode G _ Hi) as Hu.
  apply wp_bind. eapply load_inode_ok; [exact H |].
  apply wp_bind. eapply acquire_ok; [exact H | done |]. intros b s1 H1.
  apply wp_bind. eapply data_ok; [exact H1 |]. rewrite Hl. cbn [andb negb]. apply wp_bind.
  eapply store_inode_ok; [exact H1 |]. intros s2 H2. eapply release_ok; [exact H2 |]. exact HQ.
Qed.

(** A lock that is free is taken, and the entry is loaded first if needed. *)
Definition load_entry w i : Inode :=
  if loaded i then i else set_loaded true (set_entry (disk_entry sb w (ino i)) i).

Lemma inode_lock_ok E s0 p i w ops s Q : geometry sb -> run s0 p i (qv w ops) s ->
  0 <= ino i < num_inodes sb -> 0 < count (rc i) -> inode_lock_ i = init_spinlock ->
  type (entry (load_entry w i)) <> INODE_INVALID ->
  (forall s', run s0 p (set_inode_lock (mkSpin true (Some me)) (load_entry w i)) (qv w ops) s' -> Q tt s') ->
  wp E (inode_lock me p) Q s.
Proof.
  intros G H Hi Hc Hlk Hty HQ. unfold inode_lock. apply wp_bind. eapply load_inode_ok; [exact H |].
  apply wp_bind, wp_assert; [by apply Z.gtb_lt |]. apply wp_bind.
  eapply wp_lift; [rewrite Hlk; apply acquire_free |]. apply wp_bind. eapply store_inode_ok; [exact H |].
  intros s1 H1. apply wp_bind. unfold load_entry in *. destruct (loaded i) eqn:Hl; cbn [negb].
  - apply wp_ret, wp_bind. eapply load_inode_ok; [exact H1 |]. apply wp_assert; [| by apply HQ].
    cbn in *. by rewrite (proj2 (Z.eqb_neq _ _)).
  - eapply inode_sync_load_ok; [done | exact H1 | done | done |]. intros s2 H2. apply wp_bind.
    eapply load_inode_ok; [exact H2 |]. apply wp_assert; [cbn in *; by rewrite (proj2 (Z.eqb_neq _ _)) |]. by apply HQ.
Qed.

Lemma inode_unlock_ok E s0 p i w ops s Q : run s0 p i (qv w ops) s ->
  0 < count (rc i) -> inode_lock_ i = mkSpin true (Some me) ->
  (forall s', run s0 p (set_inode_lock init_spinlock i) (qv w ops) s' -> Q tt s') ->
  wp E (inode_unlock me p) Q s.
Proof.
  intros H Hc Hlk HQ. unfold inode_unlock. apply wp_bind. eapply load_inode_ok; [exact H |].
  apply wp_bind, wp_assert; [rewrite Hlk; unfold holding_spinlock; cbn; by rewrite bool_decide_eq_true_2 |].
  apply wp_bind, wp_assert; [by apply Z.gtb_lt |]. apply wp_bind.
  eapply wp_lift; [rewrite Hlk; apply release_own |]. by eapply store_inode_ok.
Qed.

(** * A block that is there *)

Lemma inode_map_found_ok E s0 p i w ctx ops offset modified s Q :
  run s0 p i (qv w ops) s -> 0 <= offset < INODE_MAX_BYTES -> block_of (entry i) w (offset / BLOCK_SIZE) <> 0 ->
  (INODE_NUM_DIRECT <= offset / BLOCK_SIZE -> usable sb (indirect (entry i))) ->
  (forall s', run s0 p i (qv w ops) s' -> Q (block_of (entry i) w (offset / BLOCK_SIZE), modified) s') ->
  wp E (inode_map ctx p offset modified) Q s.
Proof.
  intros H Hoff Hb Hu HQ. unfold inode_map. apply wp_bind. eapply load_inode_ok; [exact H |].
  unfold block_of in *. set (idx := offset / BLOCK_SIZE) in *.
  destruct (Z.ltb_spec idx INODE_NUM_DIRECT) as [Hd|Hd].
  - apply wp_bind. rewrite (proj2 (Z.eqb_neq (zget (addrs (entry i)) idx) 0)) by done.
    apply wp_ret, wp_bind. eapply load_inode_ok; [exact H |]. by apply wp_ret, HQ.
  - apply wp_bind, wp_assert.
    { apply Z.ltb_lt. unfold idx, INODE_MAX_BYTES, INODE_MAX_BLOCKS, INODE_NUM_INDIRECT, INODE_NUM_DIRECT, BLOCK_SIZE in *.
      change (512 / 4) with 128 in *. dlia. }
    destruct (indirect (entry i) =? 0) eqn:Ei; [done |]. apply wp_bind, wp_ret, wp_bind. eapply load_inode_ok; [exact H |].
    apply wp_bind. eapply acquire_ok; [exact H | by apply Hu |]. intros b s1 H1.
    apply wp_bind. eapply data_ok; [exact H1 |]. rewrite (proj2 (Z.eqb_neq _ 0) Hb).
    apply wp_bind, wp_ret, wp_bind. eapply data_ok; [exact H1 |].
    apply wp_bind. eapply release_ok; [exact H1 |]. intros s2 H2. by apply wp_ret, HQ.
Qed.
End sync.

(** * Indirect blocks *)

Lemma put_addr_wf d i a : block_wf d -> 0 <= i < 128 -> block_wf (put_addr d i a).
Proof.
  intros [Hb Hl] Hi. unfold put_addr. split; [apply bytes_splice; [done | apply le_enc_bytes] |].
  rewrite length_splice; [done |]. rewrite length_le_enc. lia.
Qed.

Lemma length_get_addrs d : length (get_addrs d) = 128%nat.
Proof. apply length_words_dec. Qed.

Lemma zget_get_addrs d i : 0 <= i < 128 -> zget (get_addrs d) i = le_dec (slice d (Z.to_nat (4 * i)) 4).
Proof.
  intros Hi. apply zget_lookup; [lia |]. unfold get_addrs. rewrite lookup_words_dec by lia.
  do 3 f_equal. lia.
Qed.

Lemma get_put_addr d i a j : block_wf d -> 0 <= i < 128 -> 0 <= j < 128 -> 0 <= a < 2 ^ 32 ->
  zget (get_addrs (put_addr d i a)) j = if decide (j = i) then a else zget (get_addrs d) j.
Proof.
  intros [Hb Hl] Hi Hj Ha. rewrite !zget_get_addrs by done. unfold put_addr. case_decide as E.
  - subst j. pose proof (slice_splice d (Z.to_nat (4 * i)) (le_enc 4 a)) as Hs. rewrite length_le_enc in Hs.
    rewrite Hs by lia. by apply le_dec_enc_small.
  - f_equal. apply slice_splice_disjoint; rewrite ?length_le_enc; lia.
Qed.

Lemma get_addrs_zero j : zget (get_addrs zero_block) j = 0.
Proof. change (get_addrs zero_block) with (replicate 128 0). apply zget_replicate. Qed.

Lemma zget_addr_bound d j : block_wf d -> 0 <= zget (get_addrs d) j < 2 ^ 32.
Proof.
  intros [Hb _]. apply (Forall_zget (fun a => 0 <= a < 2 ^ 32)); [| lia]. apply (words_dec_bound 4 128 d Hb).
Qed.

(** * Growing a file *)

(** The index of a block of a file. *)
Definition file_index (i : Z) : Prop := 0 <= i < INODE_MAX_BLOCKS.

Section grow.
Context {sb : SuperBlock} (G : geometry sb).
Implicit Types (w : Z -> list Z) (e : InodeEntry).

Lemma data_range no : data_block sb no -> 0 < no < num_blocks sb /\ no < 2 ^ 32.
Proof.
  intros [H1 H2]. destruct (usable_bitmap G) as [_ ?]. pose proof (g_size _ G). change BIT_PER_BLOCK with 4096 in *. lia.
Qed.

Lemma grown_owned w no w' n : grown sb w no w' -> owned sb w n -> owned sb w' n.
Proof.
  intros Hg [Hd Hu]. split; [done |]. destruct (data_range _ Hd). rewrite (gr_used _ _ _ _ Hg) by lia. by case_decide.
Qed.

Lemma grown_new w no w' : grown sb w no w' -> data_block sb no -> owned sb w' no.
Proof.
  intros Hg Hd. split; [done |]. destruct (data_range _ Hd). rewrite (gr_used _ _ _ _ Hg) by lia. by rewrite decide_True.
Qed.

Lemma grown_same w no w' n : grown sb w no w' -> ~ owned sb w no -> owned sb w n -> w' n = w n.
Proof.
  intros Hg Hno Ho. apply (gr_same _ _ _ _ Hg); [by intros -> |]. destruct Ho as [[? _] _]. lia.
Qed.

Lemma grown_meta_used w no w' : grown sb w no w' -> meta_used sb w -> meta_used sb w'.
Proof.
  intros Hg Hm m Hr. pose proof (g_bitmap _ G). rewrite (gr_used _ _ _ _ Hg) by lia. case_decide; [done |]. by apply Hm.
Qed.

Lemma free_not_owned w no l : free_list sb w = no :: l -> ~ owned sb w no.
Proof.
  intros El [_ Hu]. assert (Hin : no ∈ free_list sb w) by (rewrite El; left).
  apply elem_of_free_list in Hin as [_ Hf]. congruence.
Qed.

(** The file after one more block: [no] at index [idx]. *)
Record mapped_to e w (idx no : Z) e' w' : Prop := {
  mt_block : forall j, file_index j -> block_of e' w' j = if decide (j = idx) then no else block_of e w j;
  mt_nz : no <> 0;
  mt_wf : file_wf sb e' w';
  mt_size : num_bytes e' = num_bytes e;
  mt_type : type e' = type e /\ major e' = major e /\ minor e' = minor e /\ num_links e' = num_links e;
  mt_ind : indirect e <> 0 -> indirect e' = indirect e;
  mt_new_ind : indirect e = 0 -> indirect e' <> 0 -> ~ owned sb w (indirect e');
  mt_owned : forall n, owned sb w n -> owned sb w' n;
  mt_same : forall n, owned sb w n -> n <> indirect e -> w' n = w n;
  mt_low : forall n, n < bitmap_start sb -> w' n = w n;
  mt_meta : meta_used sb w';
  mt_free : (length (free_list sb w) <= length (free_list sb w') + 2)%nat;
  mt_old : block_of e w idx <> 0 -> no = block_of e w idx;
  mt_new : block_of e w idx = 0 -> ~ owned sb w no
}.

Lemma mapped_to_refl e w idx : file_wf sb e w -> meta_used sb w -> block_of e w idx <> 0 ->
  mapped_to e w idx (block_of e w idx) e w.
Proof.
  intros Hw Hm Hb. split; try done; try congruence; try lia.
  intros j _. case_decide; congruence.
Qed.

Lemma wf_index e w i : file_wf sb e w -> 0 <= i -> i * BLOCK_SIZE < num_bytes e -> file_index i.
Proof.
  intros Hw H0 Hi. pose proof (fw_size _ _ _ Hw). unfold file_index, INODE_MAX_BYTES, BLOCK_SIZE in *. lia.
Qed.

Lemma file_wf_mapped e w e' w' idx no : file_wf sb e w -> entry_wf e' -> num_bytes e' = num_bytes e ->
  indirect e' = indirect e ->
  (forall j, file_index j -> block_of e' w' j = if decide (j = idx) then no else block_of e w j) ->
  (forall n, owned sb w n -> owned sb w' n) -> owned sb w' no -> ~ owned sb w no -> no <> 0 ->
  (block_of e w idx = 0) -> file_wf sb e' w'.
Proof.
  intros Hw He Hn Hi Hb Ho Hno Hfree H0 Hz. split; [done | | | | |].
  - rewrite Hn. apply Hw.
  - rewrite Hn. intros j H1 H2. rewrite Hb by (by eapply wf_index). case_decide; [done |]. by apply (fw_mapped _ _ _ Hw).
  - intros j Hj. rewrite Hb by done. case_decide; [done |]. intros Hne. by apply Ho, (fw_owned _ _ _ Hw).
  - intros j k Hj Hk. rewrite !Hb by done. repeat case_decide; subst; intros Hne E; try done.
    + destruct Hfree. rewrite E in *. by apply (fw_owned _ _ _ Hw).
    + destruct Hfree. rewrite <- E. by apply (fw_owned _ _ _ Hw).
    + by apply (fw_inj _ _ _ Hw).
  - rewrite Hi. intros Hne. destruct (fw_indirect _ _ _ Hw Hne) as [Hoi Hbi]. split; [by apply Ho |].
    intros j Hj. rewrite Hb by done. case_decide; [intros ->; done |]. by apply Hbi.
Qed.

Lemma block_of_same e w w' j : w' (indirect e) = w (indirect e) -> block_of e w' j = block_of e w j.
Proof. intros E. unfold block_of. by rewrite E. Qed.

Lemma block_of_grown e w no w' j : file_wf sb e w -> grown sb w no w' -> ~ owned sb w no ->
  block_of e w' j = block_of e w j.
Proof.
  intros Hw Hg Hno. unfold block_of. destruct (j <? INODE_NUM_DIRECT); [done |].
  destruct (Z.eqb_spec (indirect e) 0) as [|Hi]; [done |].
  rewrite (grown_same w no w'); [done | done | done |]. by apply (fw_indirect _ _ _ Hw).
Qed.

Lemma entry_wf_addr e idx no : entry_wf e -> 0 <= no < 2 ^ 32 -> entry_wf (set_addrs (zset (addrs e) idx no) e).
Proof.
  intros (H1 & H2 & H3 & H4 & H5 & H6 & H7 & H8) Hno. unfold entry_wf. cbn. split_and!; try done; try lia.
  - by apply Forall_insert.
  - rewrite length_zset. done.
Qed.

Lemma entry_wf_indirect e no : entry_wf e -> 0 <= no < 2 ^ 32 -> entry_wf (set_indirect no e).
Proof. intros (H1 & H2 & H3 & H4 & H5 & H6 & H7 & H8) Hno. unfold entry_wf. cbn. split_and!; try done; lia. Qed.

(** A direct block. *)
Lemma grow_direct e w w' idx no l : file_wf sb e w -> meta_used sb w -> free_list sb w = no :: l ->
  grown sb w no w' -> data_block sb no -> 0 <= idx < INODE_NUM_DIRECT -> block_of e w idx = 0 ->
  mapped_to e w idx no (set_addrs (zset (addrs e) idx no) e) w'.
Proof.
  intros Hw Hm El Hg Hd Hi Hz. pose proof (free_not_owned _ _ _ El) as Hno. destruct (data_range _ Hd) as [Hr H32].
  pose proof (fw_entry _ _ _ Hw) as He. assert (Hlen : length (addrs e) = 12%nat) by apply He.
  unfold INODE_NUM_DIRECT in Hi.
  assert (Hb : forall j, file_index j -> block_of (set_addrs (zset (addrs e) idx no) e) w' j =
    if decide (j = idx) then no else block_of e w j).
  { intros j [Hj _]. rewrite <- (block_of_grown e w no w' j) by done. unfold block_of. cbn [addrs set_addrs indirect].
    destruct (Z.ltb_spec j INODE_NUM_DIRECT) as [Hl|Hl]; unfold INODE_NUM_DIRECT in Hl; [| rewrite decide_False by lia; done].
    case_decide as Ej; [subst; apply zget_zset_eq; lia | apply zget_zset_ne; [lia | lia | congruence]]. }
  split; try done; try congruence; try lia.
  - eapply file_wf_mapped; [exact Hw | | done | done | exact Hb | | | done | lia | done].
    + apply entry_wf_addr; [done | lia].
    + intros n. by eapply grown_owned.
    + by eapply grown_new.
  - intros n. by eapply grown_owned.
  - intros n Ho _. by eapply grown_same.
  - intros n Hn. apply (gr_same _ _ _ _ Hg); destruct Hd; lia.
  - by eapply grown_meta_used.
  - rewrite (gr_free _ _ _ _ Hg), El. cbn. lia.
Qed.

(** Writing a block that is not the bitmap leaves the bits. *)
Lemma used_bit_upd w n d m : n <> bitmap_start sb -> 0 <= m < num_blocks sb ->
  used_bit sb (upd w n d) m = used_bit sb w m.
Proof.
  intros Hn Hm. unfold used_bit, upd. rewrite (bitmap_block_one G m Hm). by rewrite (proj2 (Z.eqb_neq _ _)) by congruence.
Qed.

Lemma owned_upd w n d m : n <> bitmap_start sb -> owned sb (upd w n d) m <-> owned sb w m.
Proof.
  intros Hn. unfold owned. split; intros [Hd Hu]; (split; [done |]); destruct (data_range m Hd) as [Hr _].
  - by rewrite used_bit_upd in Hu by (done || lia).
  - by rewrite used_bit_upd by (done || lia).
Qed.

Lemma free_list_upd w n d : n <> bitmap_start sb -> free_list sb (upd w n d) = free_list sb w.
Proof.
  intros Hn. unfold free_list. apply filter_ext_in. intros m Hm%elem_of_seqZ. by rewrite used_bit_upd by (done || lia).
Qed.

Lemma meta_used_upd w n d : n <> bitmap_start sb -> meta_used sb w -> meta_used sb (upd w n d).
Proof. intros Hn Hm m Hr. pose proof (g_bitmap _ G). rewrite used_bit_upd by (done || lia). by apply Hm. Qed.

Lemma indirect_range e w : file_wf sb e w -> indirect e <> 0 -> bitmap_start sb < indirect e < num_blocks sb.
Proof. intros Hw Hi. apply (fw_indirect _ _ _ Hw Hi). Qed.

(** A new indirect block, which is empty. *)
Lemma grow_indirect e w w' ind l : file_wf sb e w -> free_list sb w = ind :: l -> grown sb w ind w' ->
  data_block sb ind -> indirect e = 0 ->
  file_wf sb (set_indirect ind e) w' /\ forall j, block_of (set_indirect ind e) w' j = block_of e w j.
Proof.
  intros Hw El Hg Hd Hi. pose proof (free_not_owned _ _ _ El) as Hno. destruct (data_range _ Hd) as [Hr H32].
  assert (Hb : forall j, block_of (set_indirect ind e) w' j = block_of e w j).
  { intros j. unfold block_of. cbn [addrs set_indirect indirect]. destruct (j <? INODE_NUM_DIRECT); [done |].
    rewrite Hi. rewrite (proj2 (Z.eqb_neq ind 0)), Z.eqb_refl by lia. rewrite (gr_zero _ _ _ _ Hg). apply get_addrs_zero. }
  split; [| done]. split.
  - apply entry_wf_indirect; [apply Hw | lia].
  - apply Hw.
  - intros j. rewrite Hb. apply (fw_mapped _ _ _ Hw).
  - intros j Hj. rewrite Hb. intros Hne. eapply grown_owned; [exact Hg |]. by apply (fw_owned _ _ _ Hw).
  - intros j k. rewrite !Hb. apply (fw_inj _ _ _ Hw).
  - intros _. cbn. split; [by eapply grown_new |]. intros j Hj. rewrite Hb. intros E. destruct Hno. rewrite <- E.
    apply (fw_owned _ _ _ Hw); [done | lia].
Qed.

(** An indirect block: its entry is written. *)
Lemma grow_entry e w w1 idx no l : file_wf sb e w -> meta_used sb w -> (forall n, block_wf (w1 n)) ->
  free_list sb w = no :: l -> grown sb w no w1 -> data_block sb no ->
  INODE_NUM_DIRECT <= idx < INODE_MAX_BLOCKS -> indirect e <> 0 -> block_of e w idx = 0 ->
  let w2 := upd w1 (indirect e) (put_addr (w1 (indirect e)) (idx - INODE_NUM_DIRECT) no) in
  mapped_to e w idx no e w2 /\ free_list sb w2 = l.
Proof.
  intros Hw Hm Hwf El Hg Hd Hi Hne Hz w2. pose proof (free_not_owned _ _ _ El) as Hno. destruct (data_range _ Hd) as [Hr H32].
  destruct (fw_indirect _ _ _ Hw Hne) as [Hoi Hbi]. pose proof (indirect_range _ _ Hw Hne) as Hir.
  assert (Hib : indirect e <> bitmap_start sb) by lia.
  assert (Hfl : free_list sb w2 = l) by (unfold w2; rewrite free_list_upd, (gr_free _ _ _ _ Hg), El by done; done).
  assert (Ei : w1 (indirect e) = w (indirect e)) by (by eapply grown_same).
  change INODE_NUM_DIRECT with 12 in *. change INODE_MAX_BLOCKS with 140 in Hi.
  assert (Hb : forall j, file_index j -> block_of e w2 j = if decide (j = idx) then no else block_of e w j).
  { intros j Hj. unfold file_index in Hj. change INODE_MAX_BLOCKS with 140 in Hj.
    unfold block_of, w2. change INODE_NUM_DIRECT with 12. destruct (Z.ltb_spec j 12); [rewrite decide_False by lia; done |].
    rewrite (proj2 (Z.eqb_neq (indirect e) 0)) by done. unfold upd. rewrite Z.eqb_refl.
    rewrite get_put_addr by (try apply Hwf; lia). rewrite Ei. repeat case_decide; lia || done. }
  assert (Ho : forall n, owned sb w n -> owned sb w2 n).
  { intros n Hn. unfold w2. apply owned_upd; [done |]. by eapply grown_owned. }
  split; [| done]. split; try done; try congruence; try lia.
  - eapply file_wf_mapped; [exact Hw | apply Hw | done | done | exact Hb | exact Ho | | done | lia | done].
    apply owned_upd; [done |]. by eapply grown_new.
  - intros n Hn Hni. unfold w2, upd. rewrite (proj2 (Z.eqb_neq _ _)) by done. by eapply grown_same.
  - intros n Hn. unfold w2, upd. rewrite (proj2 (Z.eqb_neq _ _)) by lia. apply (gr_same _ _ _ _ Hg); destruct Hd; lia.
  - apply meta_used_upd; [done |]. by eapply grown_meta_used.
  - rewrite El, Hfl. cbn. lia.
Qed.

(** Both. *)
Lemma grow_both e w w1 w2 idx ind no l : file_wf sb e w -> free_list sb w = ind :: l -> grown sb w ind w1 -> data_block sb ind ->
  indirect e = 0 -> file_index idx -> block_of e w idx = 0 ->
  mapped_to (set_indirect ind e) w1 idx no (set_indirect ind e) w2 -> (length l <= length (free_list sb w2) + 1)%nat ->
  mapped_to e w idx no (set_indirect ind e) w2.
Proof.
  intros Hw El Hg Hd Hi Hidx Hz Hmt Hfl. pose proof (free_not_owned _ _ _ El) as Hno.
  destruct (grow_indirect e w w1 ind l Hw El Hg Hd Hi) as [_ Hb1].
  assert (Hne : forall n, owned sb w n -> n <> ind) by (by intros n Hn ->).
  destruct Hmt. split; try done; try congruence.
  - intros j Hj. rewrite mt_block0 by done. case_decide; [done | apply Hb1].
  - intros n Hn. apply mt_owned0. by eapply grown_owned.
  - intros n Hn _. rewrite mt_same0; [by eapply grown_same | by eapply grown_owned |]. cbn. by apply Hne.
  - intros n Hn. rewrite mt_low0 by done. apply (gr_same _ _ _ _ Hg); destruct Hd; lia.
  - rewrite El. cbn. lia.
  - intros _ Hn. eapply mt_new0; [by rewrite Hb1 |]. by eapply grown_owned.
Qed.
End grow.

(** * The blocks an operation syncs *)

(** [bl] has no duplicates and lies in [U]. *)
Definition synced (bl U : list Z) : Prop := NoDup bl /\ forall x, x ∈ bl -> x ∈ U.

Lemma synced_length bl U : synced bl U -> (length bl <= length U)%nat.
Proof. intros [Hd Hs]. by apply submseteq_length, NoDup_submseteq. Qed.

Lemma synced_add bl U no : synced bl U -> no ∈ U -> synced (add_new no bl) U.
Proof.
  intros [Hd Hs] Hno. unfold add_new. case_decide; [done |]. split.
  - apply NoDup_app. split_and!; [done | | apply NoDup_singleton].
    intros x Hx Hx'%list_elem_of_singleton. by subst.
  - intros x [Hx|Hx%list_elem_of_singleton]%elem_of_app; [auto | by subst].
Qed.

Lemma synced_weaken bl U U' : synced bl U -> (forall x, x ∈ U -> x ∈ U') -> synced bl U'.
Proof. intros [Hd Hs] HU. split; auto. Qed.

(** The indirect block of [e'] when [e] had none, and the number of blocks that
    can still be needed besides the data blocks. *)
Definition new_ind (e e' : InodeEntry) : list Z := if indirect e =? indirect e' then [] else [indirect e'].
Definition cost (e : InodeEntry) (U : list Z) : nat := (length U + (if (indirect e =? 0)%Z then 1 else 0))%nat.

(** [U] has the bitmap and the indirect block, besides the blocks synced. *)
Record room_for (sb : SuperBlock) (e : InodeEntry) (bl U : list Z) : Prop := {
  rf_synced : synced bl U;
  rf_bitmap : bitmap_start sb ∈ U;
  rf_ind : indirect e <> 0 -> indirect e ∈ U
}.

Lemma room_for_next {sb e w idx no e' w' bl bl' U} : room_for sb e bl U ->
  mapped_to (sb := sb) e w idx no e' w' -> synced bl' (no :: new_ind e e' ++ U) ->
  room_for sb e' bl' (no :: new_ind e e' ++ U) /\ cost e' (no :: new_ind e e' ++ U) = S (cost e U).
Proof.
  intros [Hs Hb Hi] Hmt Hs'. unfold new_ind, cost in *. pose proof (mt_ind _ _ _ _ _ _ Hmt) as Hk. split.
  - split; [done | set_solver |]. intros Hne. destruct (Z.eqb_spec (indirect e) (indirect e')) as [E|]; [| set_solver].
    right. cbn. rewrite <- E. apply Hi. congruence.
  - cbn [length]. rewrite length_app. destruct (Z.eqb_spec (indirect e) (indirect e')) as [->|Hne]; cbn [length]; [lia |].
    destruct (Z.eqb_spec (indirect e) 0) as [E0|E0]; [| by rewrite Hk in Hne].
    rewrite (proj2 (Z.eqb_neq (indirect e') 0)) by congruence. lia.
Qed.

Section map.
Context {B A : Type} {sb : SuperBlock} `{BC : BlockCache sb B} `{OA : ObjectArena A} (G : geometry sb).
Implicit Types (s : itree B A) (w : Z -> list Z) (ops : gmap Z (list Z)) (i : Inode).

Lemma add_two_length no bl U : synced bl U -> bitmap_start sb ∈ U -> (length U < 10)%nat ->
  synced (add_new no (add_new (bitmap_start sb) bl)) (no :: U) /\
  (length (add_new no (add_new (bitmap_start sb) bl)) <= 10)%nat.
Proof.
  intros Hs Hb Hl. assert (H : synced (add_new no (add_new (bitmap_start sb) bl)) (no :: U)).
  { apply synced_add; [| left]. apply (synced_weaken _ U); [by apply synced_add | intros; by right]. }
  split; [done |]. apply synced_length in H. cbn in H. lia.
Qed.

(** The entry of the indirect block [e] points to is filled in. *)
Lemma map_indirect_ok E s0 p i w ctx bl ops idx U (modified : bool) s Q :
  run s0 p i (qv w (<[ctx := bl]> ops)) s -> file_wf sb (entry i) w -> meta_used sb w ->
  (1 <= length (free_list sb w))%nat -> INODE_NUM_DIRECT <= idx < INODE_MAX_BLOCKS ->
  room_for sb (entry i) bl U -> (length U < 10)%nat -> indirect (entry i) <> 0 -> block_of (entry i) w idx = 0 ->
  (forall s' w' bl' no, mapped_to (sb := sb) (entry i) w idx no (entry i) w' ->
    (length (free_list sb w) = length (free_list sb w') + 1)%nat ->
    synced bl' (no :: U) -> run s0 p i (qv w' (<[ctx := bl']> ops)) s' -> Q (no, true) s') ->
  wp E (block ← cached (bc_acquire (indirect (entry i)));
    d ← cached (bc_data block);
    modified ← (if zget (get_addrs d) (idx - INODE_NUM_DIRECT) =? 0 then
                  a ← cached (bc_alloc ctx);
                  d ← cached (bc_data block);
                  cached (bc_put block (put_addr d (idx - INODE_NUM_DIRECT) (u32 a)));;
                  cached (bc_sync ctx block);;
                  mret true
                else mret modified);
    d ← cached (bc_data block);
    let addr := zget (get_addrs d) (idx - INODE_NUM_DIRECT) in
    cached (bc_release block);;
    mret (addr, modified)) Q s.
Proof.
  intros H Hw Hm Hfree Hidx [Hs Hbm Hind] HU Hne Hz HQ.
  destruct (fw_indirect _ _ _ Hw Hne) as [Hoi _]. pose proof (indirect_range _ _ Hw Hne) as Hir.
  assert (Hz' : zget (get_addrs (w (indirect (entry i)))) (idx - INODE_NUM_DIRECT) = 0).
  { unfold block_of in Hz. rewrite (proj2 (Z.ltb_ge _ _)), (proj2 (Z.eqb_neq _ 0)) in Hz by (done || lia). done. }
  assert (Hu : usable sb (indirect (entry i))) by (apply (usable_data G); by destruct Hoi).
  change INODE_NUM_DIRECT with 12 in *. change INODE_MAX_BLOCKS with 140 in *.
  apply wp_bind. eapply acquire_ok; [exact H | done |]. intros b s1 H1.
  apply wp_bind. eapply data_ok; [exact H1 |]. rewrite Hz'. apply wp_bind, wp_bind.
  destruct (free_list sb w) as [|no l] eqn:El; [cbn in Hfree; lia |].
  destruct (add_two_length no bl U Hs Hbm HU) as [Hs2 Hl2].
  eapply alloc_ok; [exact G | exact H1 | exact El | done | | apply size_held | exact Hl2 |].
  { intros q n. rewrite lookup_singleton_Some. by intros [_ <-]. }
  intros s2 w1 Hg Hd H2. destruct (data_range G no Hd) as [Hr H32].
  assert (Hwf : forall n, block_wf (w1 n)) by (intros n; apply (run_wf _ _ _ _ _ n H2)).
  rewrite u32_small by lia.
  destruct (grow_entry G (entry i) w w1 idx no l) as [Hmt Hfl]; [done.. | | | done |]; [| done |].
  { change INODE_NUM_DIRECT with 12. change INODE_MAX_BLOCKS with 140. lia. }
  change INODE_NUM_DIRECT with 12 in *.
  apply wp_bind. eapply data_ok; [exact H2 |].
  apply wp_bind. eapply put_ok; [exact H2 | apply put_addr_wf; [apply Hwf | lia] |]. intros s3 H3.
  apply wp_bind. eapply sync_ok; [exact H3 | done | | done |].
  { apply (Nat.le_trans _ (length (no :: U))); [| cbn; lia]. apply synced_length, synced_add; [done | right; auto]. }
  intros s4 H4. apply wp_ret, wp_bind. eapply data_ok; [exact H4 |].
  apply wp_bind. eapply release_ok; [exact H4 |]. intros s5 H5. apply wp_ret.
  unfold upd at 1. rewrite Z.eqb_refl, get_put_addr, decide_True by (try apply Hwf; lia || done).
  eapply HQ; [exact Hmt | rewrite Hfl; cbn; lia | | exact H5]. apply synced_add; [done | right; auto].
Qed.

(** The indirect block [ind] has just been added. *)
Lemma map_new_indirect_ok E s0 p i w w1 ctx bl ops idx U ind l modified s Q :
  file_wf sb (entry i) w -> meta_used sb w -> free_list sb w = ind :: l -> (2 <= length (ind :: l))%nat ->
  INODE_NUM_DIRECT <= idx < INODE_MAX_BLOCKS -> room_for sb (entry i) bl U -> (cost (entry i) U < 10)%nat ->
  indirect (entry i) = 0 -> block_of (entry i) w idx = 0 -> grown sb w ind w1 -> data_block sb ind ->
  let i1 := set_entry (set_indirect ind (entry i)) i in
  let bl1 := add_new ind (add_new (bitmap_start sb) bl) in
  run s0 p i1 (qv w1 (<[ctx := bl1]> ops)) s ->
  (forall s' e' w' bl' no m', mapped_to (sb := sb) (entry i) w idx no e' w' ->
    synced bl' (no :: new_ind (entry i) e' ++ U) -> (m' = true \/ m' = modified /\ e' = entry i) ->
    run s0 p (set_entry e' i) (qv w' (<[ctx := bl']> ops)) s' -> Q (no, m') s') ->
  wp E (block ← cached (bc_acquire (indirect (entry i1)));
    d ← cached (bc_data block);
    modified ← (if zget (get_addrs d) (idx - INODE_NUM_DIRECT) =? 0 then
                  a ← cached (bc_alloc ctx);
                  d ← cached (bc_data block);
                  cached (bc_put block (put_addr d (idx - INODE_NUM_DIRECT) (u32 a)));;
                  cached (bc_sync ctx block);;
                  mret true
                else mret true);
    d ← cached (bc_data block);
    let addr := zget (get_addrs d) (idx - INODE_NUM_DIRECT) in
    cached (bc_release block);;
    mret (addr, modified)) Q s.
Proof.
  intros Hw Hm El Hfree Hidx [Hs Hbm _] HU E0 Hz Hg Hdb i1 bl1 H HQ. destruct (data_range G ind Hdb) as [Hr H32].
  assert (HU1 : (length U < 9)%nat) by (unfold cost in HU; rewrite E0 in HU; cbn in HU; lia).
  destruct (add_two_length ind bl U Hs Hbm ltac:(lia)) as [Hs1 _]. fold bl1 in Hs1.
  destruct (grow_indirect G (entry i) w w1 ind l Hw El Hg Hdb E0) as [Hw1 Hb1].
  assert (Efl : free_list sb w1 = l) by (by rewrite (gr_free _ _ _ _ Hg), El).
  eapply (map_indirect_ok E s0 p i1 w1 ctx bl1 ops idx (ind :: U));
    [exact H | done | by eapply grown_meta_used | rewrite Efl; cbn in Hfree; lia | done | | cbn; lia | cbn; lia | by rewrite <- Hb1 in Hz |].
  - split; [done | by right | intros _; left].
  - cbn [entry set_entry i1]. intros s' w' bl' no Hmt Hfl Hs' H'. eapply HQ; [| | by left | exact H'].
    + eapply (grow_both G); [done | exact El | exact Hg | done | done | split; [change INODE_NUM_DIRECT with 12 in *; lia | apply Hidx] | done | exact Hmt |].
      rewrite <- Efl. lia.
    + unfold new_ind. cbn. rewrite (proj2 (Z.eqb_neq _ _)) by lia. exact Hs'.
Qed.

(** inode_map returns the block of [offset], which it adds to the file if need be. *)
Lemma inode_map_ok E s0 p i w ctx bl ops offset modified U s Q :
  run s0 p i (qv w (<[ctx := bl]> ops)) s -> file_wf sb (entry i) w -> meta_used sb w ->
  (2 <= length (free_list sb w))%nat -> 0 <= offset < INODE_MAX_BYTES ->
  room_for sb (entry i) bl U -> (cost (entry i) U < 10)%nat ->
  (forall s' e' w' bl' no m', mapped_to (sb := sb) (entry i) w (offset / BLOCK_SIZE) no e' w' ->
    synced bl' (no :: new_ind (entry i) e' ++ U) -> (m' = true \/ m' = modified /\ e' = entry i) ->
    run s0 p (set_entry e' i) (qv w' (<[ctx := bl']> ops)) s' -> Q (no, m') s') ->
  wp E (inode_map ctx p offset modified) Q s.
Proof.
  intros H Hw Hm Hfree Hoff HR HU HQ. set (idx := offset / BLOCK_SIZE) in *.
  assert (Hidx : 0 <= idx < 140) by (unfold idx, INODE_MAX_BYTES, BLOCK_SIZE in *; change INODE_MAX_BLOCKS with 140 in *; dlia).
  pose proof (rf_synced _ _ _ _ HR) as Hs. pose proof (rf_bitmap _ _ _ _ HR) as Hbm.
  assert (HU1 : (length U < 10)%nat) by (unfold cost in HU; lia).
  assert (Ei : i = set_entry (entry i) i) by (by destruct i).
  destruct (decide (block_of (entry i) w idx = 0)) as [Hz|Hnz].
  2: { eapply inode_map_found_ok; [exact H | done | exact Hnz | |].
    - intros Hd. apply (usable_data G). assert (indirect (entry i) <> 0) as Hi; [| by apply (fw_indirect _ _ _ Hw)].
      intros E0. apply Hnz. unfold block_of. rewrite (proj2 (Z.ltb_ge _ _)) by done. by rewrite E0.
    - intros s1 H1. eapply HQ; [by apply mapped_to_refl | | by right | by rewrite <- Ei].
      apply (synced_weaken _ U); [done |]. intros x Hx. right. apply elem_of_app. by right. }
  unfold inode_map. apply wp_bind. eapply load_inode_ok; [exact H |]. fold idx.
  destruct (Z.ltb_spec idx INODE_NUM_DIRECT) as [Hd|Hd].
  - rewrite (proj2 (Z.eqb_eq (zget (addrs (entry i)) idx) 0)) by (unfold block_of in Hz; by rewrite (proj2 (Z.ltb_lt _ _)) in Hz).
    apply wp_bind, wp_bind. destruct (free_list sb w) as [|no l] eqn:El; [cbn in Hfree; lia |].
    destruct (add_two_length no bl U Hs Hbm HU1) as [Hs2 Hl2].
    eapply alloc_ok; [exact G | exact H | exact El | done | by intros ?? ?%lookup_empty_Some | rewrite map_size_empty; lia | exact Hl2 |].
    intros s1 w1 Hg Hdb H1. destruct (data_range G no Hdb) as [Hr H32]. rewrite u32_small by lia.
    apply wp_bind. eapply modify_entry_ok; [exact H1 |]. intros s2 H2. apply wp_ret, wp_bind.
    eapply load_inode_ok; [exact H2 |]. apply wp_ret. cbn [entry set_entry addrs set_addrs].
    rewrite zget_zset_eq by (destruct (fw_entry _ _ _ Hw) as (_ & _ & _ & _ & _ & _ & -> & _); unfold INODE_NUM_DIRECT in *; lia).
    eapply HQ; [eapply (grow_direct G); [done.. | unfold INODE_NUM_DIRECT in *; lia | done] | | by left | exact H2].
    unfold new_ind. cbn. rewrite Z.eqb_refl. exact Hs2.
  - apply wp_bind, wp_assert; [apply Z.ltb_lt; change INODE_NUM_DIRECT with 12; change INODE_NUM_INDIRECT with 128; lia |].
    assert (Hir : INODE_NUM_DIRECT <= idx < INODE_MAX_BLOCKS) by (change INODE_MAX_BLOCKS with 140; lia).
    destruct (Z.eqb_spec (indirect (entry i)) 0) as [E0|Hne]; apply wp_bind.
    + apply wp_bind. destruct (free_list sb w) as [|ind l] eqn:El; [cbn in Hfree; lia |].
      destruct (add_two_length ind bl U Hs Hbm HU1) as [Hs2 Hl2].
      eapply alloc_ok; [exact G | exact H | exact El | done | by intros ?? ?%lookup_empty_Some | rewrite map_size_empty; lia | exact Hl2 |].
      intros s1 w1 Hg Hdb H1. destruct (data_range G ind Hdb) as [Hr H32]. rewrite u32_small by lia.
      apply wp_bind. eapply modify_entry_ok; [exact H1 |]. intros s2 H2. apply wp_ret, wp_bind.
      eapply load_inode_ok; [exact H2 |]. by eapply map_new_indirect_ok.
    + apply wp_ret, wp_bind. eapply load_inode_ok; [exact H |].
      eapply map_indirect_ok; [exact H | done | done | lia | done | done | done | done | done |].
      intros s1 w1 bl1 no Hmt _ Hs1 H1. eapply HQ; [exact Hmt | | by left | rewrite <- Ei; exact H1].
      unfold new_ind. rewrite Z.eqb_refl. exact Hs1.
Qed.
End map.
