(* ===== verification/InodeFile.v ===== *)
(** inode_read, inode_write and inode_clear of fs/inode.c: the content of a file. *)
From S2P Require Import Prelude Bytes CString Bitmap Locks Arena FsDefs Cache CacheSpec CacheLog CacheAlloc BlockCache Path Console Inode InodeSpec InodeMap.

#[local] Arguments zget : simpl never.

(** * Bytes of a file *)

Lemma file_bytes_app e w off a b : file_bytes e w off (a + b) = file_bytes e w off a ++ file_bytes e w (off + Z.of_nat a) b.
Proof.
  unfold file_bytes. rewrite <- fmap_app. f_equal. rewrite <- seqZ_app by lia. f_equal. lia.
Qed.

Lemma length_file_bytes e w off n : length (file_bytes e w off n) = n.
Proof. unfold file_bytes. rewrite length_fmap, length_seqZ. lia. Qed.

Lemma lookup_file_bytes e w off n (k : nat) : (k < n)%nat -> file_bytes e w off n !! k = Some (byte_of e w (off + Z.of_nat k)).
Proof.
  intros Hk. unfold file_bytes. rewrite list_lookup_fmap, lookup_seqZ_lt by lia. done.
Qed.

(** The bytes that lie on one block. *)
Lemma file_bytes_block e w off n : 0 <= off -> off mod BLOCK_SIZE + Z.of_nat n <= BLOCK_SIZE ->
  block_wf (w (block_of e w (off / BLOCK_SIZE))) ->
  file_bytes e w off n = slice (w (block_of e w (off / BLOCK_SIZE))) (Z.to_nat (off mod BLOCK_SIZE)) n.
Proof.
  intros H0 Hn [_ Hl]. apply list_eq. intros k. destruct (Nat.ltb_spec k n) as [Hk|Hk].
  - rewrite lookup_file_bytes by done. unfold slice. rewrite lookup_take_lt, lookup_drop by done.
    unfold byte_of. unfold BLOCK_SIZE in *.
    replace ((off + Z.of_nat k) / 512) with (off / 512) by dlia.
    replace ((off + Z.of_nat k) mod 512) with (off mod 512 + Z.of_nat k) by dlia.
    symmetry. replace (Z.to_nat (off mod 512) + k)%nat with (Z.to_nat (off mod 512 + Z.of_nat k)) by dlia.
    apply lookup_zget. rewrite Hl. dlia.
  - rewrite !lookup_ge_None_2; [done | | rewrite length_file_bytes; lia].
    unfold slice. rewrite length_take. lia.
Qed.

(** [k] blocks are enough for the bytes from [begin] to [end_]. *)
Definition spans (begin end_ : Z) (k : nat) : Prop := begin < end_ -> end_ <= (begin / BLOCK_SIZE + Z.of_nat k) * BLOCK_SIZE.

(** The step of the loops. *)
Definition chunk (begin end_ : Z) : Z := MIN (end_ - begin) (BLOCK_SIZE - begin mod BLOCK_SIZE).

Lemma chunk_bounds begin end_ : 0 <= begin < end_ ->
  0 < chunk begin end_ <= end_ - begin /\ begin mod BLOCK_SIZE + chunk begin end_ <= BLOCK_SIZE.
Proof. intros. unfold chunk, MIN, BLOCK_SIZE. destruct (Z.leb_spec (end_ - begin) (512 - begin mod 512)); dlia. Qed.

Lemma spans_next begin end_ k : 0 <= begin < end_ -> spans begin end_ (S k) -> spans (begin + chunk begin end_) end_ k.
Proof.
  intros Hb Hs Hlt. specialize (Hs ltac:(lia)). unfold chunk, MIN, BLOCK_SIZE in *.
  destruct (Z.leb_spec (end_ - begin) (512 - begin mod 512)); dlia.
Qed.

Lemma spans_pos begin end_ k : 0 <= begin < end_ -> spans begin end_ k -> exists k', k = S k'.
Proof.
  intros Hb Hs. specialize (Hs ltac:(lia)). destruct k as [|k]; [| eauto]. unfold BLOCK_SIZE in *. dlia.
Qed.

Lemma spans_fuel offset count : 0 <= offset -> 0 <= count -> spans offset (offset + count) (block_fuel count).
Proof. intros. unfold spans, block_fuel, BLOCK_SIZE. intros. dlia. Qed.

(** * Reading *)

Section read.
Context {B A : Type} {sb : SuperBlock} `{BC : BlockCache sb B} `{OA : ObjectArena A} (G : geometry sb) (me : Z) (killed : bool).
Implicit Types (s : itree B A) (w : Z -> list Z) (ops : gmap Z (list Z)) (i : Inode).

Lemma wf_block e w k : file_wf sb e w -> 0 <= k < num_bytes e ->
  file_index (k / BLOCK_SIZE) /\ block_of e w (k / BLOCK_SIZE) <> 0 /\ owned sb w (block_of e w (k / BLOCK_SIZE)) /\
  (INODE_NUM_DIRECT <= k / BLOCK_SIZE -> usable sb (indirect e)).
Proof.
  intros Hw Hk. assert (Hi : 0 <= k / BLOCK_SIZE /\ k / BLOCK_SIZE * BLOCK_SIZE < num_bytes e) by (unfold BLOCK_SIZE; dlia).
  destruct Hi as [H0 H1]. pose proof (wf_index e w _ Hw H0 H1) as Hidx. pose proof (fw_mapped _ _ _ Hw _ H0 H1) as Hb.
  split_and!; [done | done | by apply (fw_owned _ _ _ Hw) |]. intros Hd. apply (usable_data G).
  apply (fw_indirect _ _ _ Hw). intros E. apply Hb. unfold block_of. rewrite (proj2 (Z.ltb_ge _ _)) by done. by rewrite E.
Qed.

Lemma read_loop_ok E s0 p i w ops Q end_ : forall k fuel begin s, run s0 p i (qv w ops) s -> file_wf sb (entry i) w ->
  0 <= begin <= end_ -> end_ <= num_bytes (entry i) -> spans begin end_ k -> (k <= fuel)%nat ->
  (forall s', run s0 p i (qv w ops) s' -> Q (file_bytes (entry i) w begin (Z.to_nat (end_ - begin))) s') ->
  wp E (read_loop fuel p begin end_) Q s.
Proof.
  revert Q. intros Q k. revert Q. induction k as [|k IH]; intros Q fuel begin s H Hw Hb He Hs Hf HQ.
  { assert (begin = end_) as ->.
    { destruct (decide (begin = end_)); [done |]. destruct (spans_pos begin end_ 0 ltac:(lia) Hs). done. }
    replace (read_loop fuel p end_ end_) with (mret (M := M (itree B A)) ([] : list Z)) by (destruct fuel; cbn; by rewrite Z.ltb_irrefl).
    apply wp_ret. rewrite Z.sub_diag in HQ. by apply HQ. }
  destruct fuel as [|fuel]; [lia |]. cbn [read_loop]. destruct (Z.ltb_spec begin end_) as [Hlt|Hge].
  2: { assert (begin = end_) as -> by lia. apply wp_ret. rewrite Z.sub_diag in HQ. by apply HQ. }
  destruct (wf_block (entry i) w begin Hw ltac:(lia)) as (Hidx & Hnz & [Hd _] & Hu).
  apply wp_bind. eapply inode_map_found_ok; [exact H | | exact Hnz | exact Hu |].
  { pose proof (fw_size _ _ _ Hw). lia. }
  intros s1 H1. apply wp_bind, wp_assert; [done |]. apply wp_bind.
  eapply acquire_ok; [exact H1 | by apply (usable_data G) |]. intros b s2 H2.
  apply wp_bind. eapply data_ok; [exact H2 |]. apply wp_bind. eapply release_ok; [exact H2 |]. intros s3 H3.
  apply wp_bind. fold (chunk begin end_). destruct (chunk_bounds begin end_ ltac:(lia)) as [Hc1 Hc2].
  eapply (IH (fun rest s' => wp E (mret (slice _ _ _ ++ rest)) Q s')); [exact H3 | done | lia | done | by apply spans_next; [lia |] | lia |].
  intros s4 H4. apply wp_ret.
  rewrite <- (file_bytes_block (entry i) w begin (Z.to_nat (chunk begin end_))) by (try apply (run_wf _ _ _ _ _ _ H); lia).
  replace (begin + chunk begin end_) with (begin + Z.of_nat (Z.to_nat (chunk begin end_))) by lia.
  rewrite <- file_bytes_app. replace (_ + _)%nat with (Z.to_nat (end_ - begin)) by lia. by apply HQ.
Qed.

(** inode_read returns the bytes of the file from [offset] on, cut at its end. *)
Lemma inode_read_ok E s0 p i w ops offset count s Q : run s0 p i (qv w ops) s -> file_wf sb (entry i) w ->
  type (entry i) <> INODE_DEVICE -> 0 <= offset <= num_bytes (entry i) -> 0 <= count < 2 ^ 63 ->
  let n := Z.min count (num_bytes (entry i) - offset) in
  (forall s', run s0 p i (qv w ops) s' -> Q (n, file_bytes (entry i) w offset (Z.to_nat n)) s') ->
  wp E (inode_read me killed p offset count) Q s.
Proof.
  intros H Hw Hty Hoff Hcnt n HQ. pose proof (fw_size _ _ _ Hw) as Hsz.
  assert (Hn32 : 0 <= num_bytes (entry i) < 2 ^ 32) by apply (fw_entry _ _ _ Hw).
  unfold inode_read. apply wp_bind. eapply load_inode_ok; [exact H |].
  rewrite (proj2 (Z.eqb_neq _ _)) by done. rewrite u64_small by lia.
  replace (if count + offset >? num_bytes (entry i) then u64 (num_bytes (entry i) - offset) else count) with n.
  2: { rewrite Z.gtb_ltb. destruct (Z.ltb_spec (num_bytes (entry i)) (count + offset)); [rewrite u64_small by lia |]; lia. }
  rewrite u64_small by lia.
  apply wp_bind, wp_assert; [apply Z.leb_le; lia |]. apply wp_bind, wp_assert; [apply Z.leb_le; lia |].
  apply wp_bind, wp_assert; [apply Z.leb_le; lia |]. apply wp_bind.
  eapply read_loop_ok; [exact H | done | lia | lia | apply spans_fuel; lia | done |].
  intros s1 H1. apply wp_ret. replace (offset + n - offset) with n by lia. by apply HQ.
Qed.
End read.

(** * Writing *)

Section wrote.
Context {sb : SuperBlock} (G : geometry sb).
Implicit Types (w : Z -> list Z) (e : InodeEntry).

(** The file after the bytes [src] have been written from [begin] on, before
    its size is adjusted. *)
Record wrote e w (begin : Z) (src : list Z) e' w' : Prop := {
  wr_wf : file_wf sb e' w';
  wr_new : forall k, begin <= k < begin + Z.of_nat (length src) -> byte_of e' w' k = zget src (k - begin);
  wr_kept : forall k, 0 <= k < INODE_MAX_BYTES -> ~ begin <= k < begin + Z.of_nat (length src) ->
    block_of e w (k / BLOCK_SIZE) <> 0 -> byte_of e' w' k = byte_of e w k;
  wr_mapped : forall k, begin <= k < begin + Z.of_nat (length src) -> block_of e' w' (k / BLOCK_SIZE) <> 0;
  wr_block : forall j, file_index j -> block_of e w j <> 0 -> block_of e' w' j = block_of e w j;
  wr_fresh : forall j, file_index j -> block_of e w j = 0 -> block_of e' w' j = 0 \/ ~ owned sb w (block_of e' w' j);
  wr_size : num_bytes e' = num_bytes e;
  wr_type : type e' = type e /\ major e' = major e /\ minor e' = minor e /\ num_links e' = num_links e;
  wr_ind : indirect e' = indirect e \/ ~ owned sb w (indirect e');
  wr_owned : forall n, owned sb w n -> owned sb w' n;
  wr_others : forall n, owned sb w n -> n <> indirect e -> (forall j, file_index j -> block_of e w j <> n) -> w' n = w n;
  wr_low : forall n, n < bitmap_start sb -> w' n = w n;
  wr_meta : meta_used sb w'
}.

Lemma wrote_nil e w begin : file_wf sb e w -> meta_used sb w -> wrote e w begin [] e w.
Proof. intros Hw Hm. split; try done; cbn; intros; try lia; by left. Qed.

(** Writing a block of the file changes no block number. *)
Lemma block_of_write e w no d j : file_wf sb e w -> (indirect e <> 0 -> no <> indirect e) ->
  block_of e (upd w no d) j = block_of e w j.
Proof.
  intros Hw Hno. unfold block_of. destruct (j <? INODE_NUM_DIRECT); [done |].
  destruct (Z.eqb_spec (indirect e) 0) as [|Hne]; [done |]. unfold upd. rewrite (proj2 (Z.eqb_neq _ _)); [done |].
  intros E. by apply Hno.
Qed.

Lemma file_wf_write e w no d : file_wf sb e w -> owned sb w no -> (indirect e <> 0 -> no <> indirect e) ->
  file_wf sb e (upd w no d).
Proof.
  intros Hw [Hd _] Hno. assert (Hb : no <> bitmap_start sb) by (destruct Hd; lia).
  pose proof (fun j => block_of_write e w no d j Hw Hno) as Eb. split.
  - apply Hw.
  - apply Hw.
  - intros j. rewrite Eb. apply (fw_mapped _ _ _ Hw).
  - intros j Hj. rewrite Eb. intros Hne. apply (owned_upd G); [done |]. by apply (fw_owned _ _ _ Hw).
  - intros j k. rewrite !Eb. apply (fw_inj _ _ _ Hw).
  - intros Hi. destruct (fw_indirect _ _ _ Hw Hi) as [Ho Hj]. split; [by apply (owned_upd G) |].
    intros j. rewrite Eb. apply Hj.
Qed.

(** The bytes of the block [no] of the file, after [piece] is written to it. *)
Lemma byte_of_splice e w idx no piece x k : file_wf sb e w -> file_index idx -> block_of e w idx = no -> no <> 0 ->
  (forall n, block_wf (w n)) -> (x + length piece <= 512)%nat -> 0 <= k < INODE_MAX_BYTES ->
  byte_of e (upd w no (splice (w no) x piece)) k =
  if decide (idx * BLOCK_SIZE + Z.of_nat x <= k < idx * BLOCK_SIZE + Z.of_nat x + Z.of_nat (length piece))
  then zget piece (k - (idx * BLOCK_SIZE + Z.of_nat x)) else byte_of e w k.
Proof.
  intros Hw Hidx Eno Hnz Hwf Hx Hk. destruct (Hwf no) as [_ Hl].
  assert (Hno : indirect e <> 0 -> no <> indirect e) by (intros Hi; rewrite <- Eno; by apply (fw_indirect _ _ _ Hw Hi)).
  unfold byte_of. rewrite block_of_write by done. unfold upd.
  destruct (Z.eqb_spec (block_of e w (k / BLOCK_SIZE)) no) as [E|Hne].
  - assert (Hki : k / BLOCK_SIZE = idx).
    { apply (fw_inj _ _ _ Hw); [| done | by rewrite E | by rewrite E].
      unfold INODE_MAX_BYTES, BLOCK_SIZE in *. change INODE_MAX_BLOCKS with 140 in *. dlia. }
    unfold BLOCK_SIZE in *. case_decide as Hin.
    + apply zget_lookup; [dlia |]. rewrite lookup_splice_new by dlia.
      replace (Z.to_nat (k mod 512) - x)%nat with (Z.to_nat (k - (idx * 512 + Z.of_nat x))) by dlia.
      apply lookup_zget. lia.
    + apply zget_lookup; [dlia |]. rewrite lookup_splice_old by dlia. rewrite E. apply lookup_zget. rewrite Hl. dlia.
  - rewrite decide_False; [done |]. intros Hin. apply Hne. unfold BLOCK_SIZE in *.
    replace (k / 512) with idx by dlia. done.
Qed.

(** A block the file had is still there, with its content. *)
Lemma mapped_old e w idx no e1 w1 j : file_wf sb e w -> mapped_to (sb := sb) e w idx no e1 w1 -> file_index j ->
  block_of e w j <> 0 -> block_of e1 w1 j = block_of e w j /\ w1 (block_of e w j) = w (block_of e w j).
Proof.
  intros Hw Hmt Hj Hnz. split.
  - rewrite (mt_block _ _ _ _ _ _ Hmt) by done. case_decide; [subst; by apply (mt_old _ _ _ _ _ _ Hmt) | done].
  - apply (mt_same _ _ _ _ _ _ Hmt); [by apply (fw_owned _ _ _ Hw) |].
    destruct (decide (indirect e = 0)) as [->|Hi]; [done |]. by apply (fw_indirect _ _ _ Hw Hi).
Qed.

Lemma index_of_byte k : 0 <= k < INODE_MAX_BYTES -> file_index (k / BLOCK_SIZE).
Proof. unfold file_index, INODE_MAX_BYTES, BLOCK_SIZE. change INODE_MAX_BLOCKS with 140. dlia. Qed.

(** One round of the loop: the block is mapped and a piece is written. *)
Lemma wrote_block e w begin piece no e1 w1 : (forall n, block_wf (w1 n)) -> (forall n, block_wf (w n)) ->
  file_wf sb e w -> 0 <= begin -> begin + Z.of_nat (length piece) <= INODE_MAX_BYTES ->
  begin mod BLOCK_SIZE + Z.of_nat (length piece) <= BLOCK_SIZE -> (0 < length piece)%nat ->
  mapped_to (sb := sb) e w (begin / BLOCK_SIZE) no e1 w1 ->
  wrote e w begin piece e1 (upd w1 no (splice (w1 no) (Z.to_nat (begin mod BLOCK_SIZE)) piece)).
Proof.
  intros Hwf1 Hwf Hw Hb Hmax Hp Hlen Hmt. set (idx := begin / BLOCK_SIZE) in *.
  pose proof (mt_wf _ _ _ _ _ _ Hmt) as Hw1. pose proof (mt_block _ _ _ _ _ _ Hmt) as Hbl.
  assert (Hidx : file_index idx).
  { unfold file_index, idx, INODE_MAX_BYTES, BLOCK_SIZE in *. change INODE_MAX_BLOCKS with 140 in *. dlia. }
  assert (Eno : block_of e1 w1 idx = no) by (rewrite Hbl by done; by rewrite decide_True).
  pose proof (mt_nz _ _ _ _ _ _ Hmt) as Hnz.
  assert (Ho1 : owned sb w1 no) by (rewrite <- Eno; apply (fw_owned _ _ _ Hw1); [done | by rewrite Eno]).
  assert (Hni : indirect e1 <> 0 -> no <> indirect e1) by (intros Hi; rewrite <- Eno; by apply (fw_indirect _ _ _ Hw1 Hi)).
  assert (Hnb : no <> bitmap_start sb) by (destruct Ho1 as [[? _] _]; lia).
  assert (Hx : (Z.to_nat (begin mod BLOCK_SIZE) + length piece <= 512)%nat) by (unfold BLOCK_SIZE in *; dlia).
  pose proof (fun k => byte_of_splice e1 w1 idx no piece (Z.to_nat (begin mod BLOCK_SIZE)) k Hw1 Hidx Eno Hnz Hwf1 Hx) as Hbyte.
  replace (idx * BLOCK_SIZE + Z.of_nat (Z.to_nat (begin mod BLOCK_SIZE))) with begin in Hbyte by (unfold idx, BLOCK_SIZE; dlia).
  pose proof (fun d j => block_of_write e1 w1 no d j Hw1 Hni) as Ebw.
  split; rewrite ?Ebw.
  - by apply file_wf_write.
  - intros k Hk. rewrite Hbyte by lia. by rewrite decide_True.
  - intros k Hk Hout Hkb. rewrite Hbyte, decide_False by done.
    destruct (mapped_old e w idx no e1 w1 _ Hw Hmt (index_of_byte k Hk) Hkb) as [E1 E2].
    unfold byte_of. by rewrite E1, E2.
  - intros k Hk. rewrite Ebw. replace (k / BLOCK_SIZE) with idx by (unfold idx, BLOCK_SIZE in *; dlia). by rewrite Eno.
  - intros j Hj Hne. rewrite Ebw. by apply (mapped_old e w idx no e1 w1).
  - intros j Hj Hz. rewrite Ebw, Hbl by done. case_decide; [right | by left]. subst. by apply (mt_new _ _ _ _ _ _ Hmt).
  - exact (mt_size _ _ _ _ _ _ Hmt).
  - exact (mt_type _ _ _ _ _ _ Hmt).
  - destruct (decide (indirect e = 0)) as [E0|E0]; [| left; by apply (mt_ind _ _ _ _ _ _ Hmt)].
    destruct (decide (indirect e1 = 0)) as [E1|E1]; [left; congruence | right]. by apply (mt_new_ind _ _ _ _ _ _ Hmt).
  - intros n Hn. apply (owned_upd G); [done |]. by apply (mt_owned _ _ _ _ _ _ Hmt).
  - intros n Hn Hne Hnj. unfold upd. rewrite (proj2 (Z.eqb_neq _ _)); [by apply (mt_same _ _ _ _ _ _ Hmt) |].
    intros ->. destruct (decide (block_of e w idx = 0)) as [Hz|Hz]; [by apply (mt_new _ _ _ _ _ _ Hmt) |].
    apply (Hnj idx Hidx). by rewrite <- (mt_old _ _ _ _ _ _ Hmt Hz).
  - intros n Hn. unfold upd. rewrite (proj2 (Z.eqb_neq _ _)); [by apply (mt_low _ _ _ _ _ _ Hmt) |]. destruct Ho1 as [[? _] _]. lia.
  - apply (meta_used_upd G); [done |]. apply Hmt.
Qed.

(** Two pieces, one after the other. *)
Lemma wrote_app e w begin src1 e1 w1 src2 e2 w2 : 0 <= begin -> begin + Z.of_nat (length (src1 ++ src2)) <= INODE_MAX_BYTES ->
  wrote e w begin src1 e1 w1 -> wrote e1 w1 (begin + Z.of_nat (length src1)) src2 e2 w2 ->
  wrote e w begin (src1 ++ src2) e2 w2.
Proof.
  intros Hb Hmax H1 H2. rewrite length_app in Hmax.
  assert (Hfree : forall n, ~ owned sb w1 n -> ~ owned sb w n) by (intros n Hn Ho; by apply Hn, (wr_owned _ _ _ _ _ _ H1)).
  split; rewrite ?length_app.
  - apply H2.
  - intros k Hk. destruct (decide (k < begin + Z.of_nat (length src1))) as [Hlt|Hge].
    + rewrite (wr_kept _ _ _ _ _ _ H2), (wr_new _ _ _ _ _ _ H1) by (lia || (apply (wr_mapped _ _ _ _ _ _ H1); lia)).
      unfold zget. rewrite app_nth1 by lia. done.
    + rewrite (wr_new _ _ _ _ _ _ H2) by lia. unfold zget. rewrite app_nth2 by lia. f_equal. lia.
  - intros k Hk Hout Hnz. pose proof (index_of_byte k Hk) as Hi.
    rewrite (wr_kept _ _ _ _ _ _ H2) by (lia || by rewrite (wr_block _ _ _ _ _ _ H1)).
    by apply (wr_kept _ _ _ _ _ _ H1); [| lia |].
  - intros k Hk. destruct (decide (k < begin + Z.of_nat (length src1))) as [Hlt|Hge].
    + pose proof (wr_mapped _ _ _ _ _ _ H1 k ltac:(lia)) as Hm.
      by rewrite (wr_block _ _ _ _ _ _ H2) by (done || apply index_of_byte; lia).
    + apply (wr_mapped _ _ _ _ _ _ H2). lia.
  - intros j Hj Hne. rewrite <- (wr_block _ _ _ _ _ _ H1) by done. apply (wr_block _ _ _ _ _ _ H2); [done |].
    by rewrite (wr_block _ _ _ _ _ _ H1).
  - intros j Hj Hz. destruct (decide (block_of e1 w1 j = 0)) as [Hz1|Hn1].
    + destruct (wr_fresh _ _ _ _ _ _ H2 j Hj Hz1); [by left | right; auto].
    + rewrite (wr_block _ _ _ _ _ _ H2) by done. by apply (wr_fresh _ _ _ _ _ _ H1).
  - rewrite (wr_size _ _ _ _ _ _ H2). exact (wr_size _ _ _ _ _ _ H1).
  - destruct (wr_type _ _ _ _ _ _ H1), (wr_type _ _ _ _ _ _ H2). naive_solver congruence.
  - destruct (wr_ind _ _ _ _ _ _ H2) as [E|]; [rewrite E; exact (wr_ind _ _ _ _ _ _ H1) | right; auto].
  - intros n Hn. by apply (wr_owned _ _ _ _ _ _ H2), (wr_owned _ _ _ _ _ _ H1).
  - intros n Hn Hni Hnj. rewrite <- (wr_others _ _ _ _ _ _ H1 n Hn Hni Hnj).
    apply (wr_others _ _ _ _ _ _ H2); [by apply (wr_owned _ _ _ _ _ _ H1) | |].
    + destruct (wr_ind _ _ _ _ _ _ H1) as [-> | Ho]; [done |]. intros ->. done.
    + intros j Hj. destruct (decide (block_of e w j = 0)) as [Hz|Hz].
      * destruct (wr_fresh _ _ _ _ _ _ H1 j Hj Hz) as [E|Ho]; [rewrite E | by intros <-].
        destruct Hn as [Hd _]. apply (data_range G) in Hd. lia.
      * rewrite (wr_block _ _ _ _ _ _ H1) by done. by apply Hnj.
  - intros n Hn. by rewrite (wr_low _ _ _ _ _ _ H2), (wr_low _ _ _ _ _ _ H1).
  - apply H2.
Qed.
End wrote.

Section write.
Context {B A : Type} {sb : SuperBlock} `{BC : BlockCache sb B} `{OA : ObjectArena A} (G : geometry sb) (me : Z).
Implicit Types (s : itree B A) (w : Z -> list Z) (ops : gmap Z (list Z)) (i : Inode).

Lemma splice_block_wf d x piece : block_wf d -> bytes piece -> (x + length piece <= 512)%nat -> block_wf (splice d x piece).
Proof. intros [Hb Hl] Hp Hx. split; [by apply bytes_splice |]. rewrite length_splice; [done | lia]. Qed.

(** One round of the loop of inode_write. *)
Lemma write_block_ok E s0 p i w ctx bl ops begin piece modified U s (Q : bool -> itree B A -> Prop) (k : bool -> M (itree B A) bool) :
  run s0 p i (qv w (<[ctx := bl]> ops)) s -> file_wf sb (entry i) w -> meta_used sb w ->
  (2 <= length (free_list sb w))%nat -> 0 <= begin -> begin + Z.of_nat (length piece) <= INODE_MAX_BYTES ->
  begin mod BLOCK_SIZE + Z.of_nat (length piece) <= BLOCK_SIZE -> (0 < length piece)%nat -> bytes piece ->
  room_for sb (entry i) bl U -> (cost (entry i) U < 10)%nat ->
  (forall s' e' w' bl' U' m', wrote (sb := sb) (entry i) w begin piece e' w' -> room_for sb e' bl' U' -> (forall x, x ∈ U -> x ∈ U') ->
    cost e' U' = S (cost (entry i) U) -> (m' = true \/ m' = modified /\ e' = entry i) ->
    (length (free_list sb w) <= length (free_list sb w') + 2)%nat ->
    run s0 p (set_entry e' i) (qv w' (<[ctx := bl']> ops)) s' -> wp E (k m') Q s') ->
  wp E ('(block_no, modified) ← inode_map ctx p begin modified;
        block ← cached (bc_acquire block_no);
        d ← cached (bc_data block);
        cached (bc_put block (splice d (Z.to_nat (begin mod BLOCK_SIZE)) piece));;
        cached (bc_sync ctx block);;
        cached (bc_release block);;
        k modified) Q s.
Proof.
  intros H Hw Hm Hfree Hb Hmax Hp Hlen Hby HR Hc HQ.
  apply wp_bind. eapply inode_map_ok; [exact G | exact H | done | done | done | lia | exact HR | done |].
  intros s1 e1 w1 bl1 no m1 Hmt Hs1 Hm1 H1. destruct (room_for_next HR Hmt Hs1) as [HR1 Hc1].
  set (U1 := no :: new_ind (entry i) e1 ++ U) in *.
  pose proof (mt_wf _ _ _ _ _ _ Hmt) as Hw1. pose proof (mt_nz _ _ _ _ _ _ Hmt) as Hnz.
  assert (Hidx : file_index (begin / BLOCK_SIZE)) by (apply index_of_byte; lia).
  assert (Eno : block_of e1 w1 (begin / BLOCK_SIZE) = no) by (rewrite (mt_block _ _ _ _ _ _ Hmt) by done; by rewrite decide_True).
  assert (Ho : owned sb w1 no) by (rewrite <- Eno; apply (fw_owned _ _ _ Hw1); [done | by rewrite Eno]).
  assert (Hu : usable sb no) by (apply (usable_data G), Ho).
  apply wp_bind. eapply acquire_ok; [exact H1 | done |]. intros b s2 H2.
  apply wp_bind. eapply data_ok; [exact H2 |].
  assert (Hsp : block_wf (splice (w1 no) (Z.to_nat (begin mod BLOCK_SIZE)) piece)).
  { apply splice_block_wf; [apply (run_wf _ _ _ _ _ no H1) | done |]. unfold BLOCK_SIZE in *. dlia. }
  apply wp_bind. eapply put_ok; [exact H2 | exact Hsp |]. intros s3 H3.
  assert (Hs2 : synced (add_new no bl1) U1) by (apply synced_add; [apply HR1 | left]).
  apply wp_bind. eapply sync_ok; [exact H3 | done | | done |].
  { apply synced_length in Hs2. unfold cost in Hc1, Hc. lia. }
  intros s4 H4. apply wp_bind. eapply release_ok; [exact H4 |]. intros s5 H5.
  eapply HQ; [| | | exact Hc1 | exact Hm1 | | exact H5].
  - apply (wrote_block G); try done; [intros n; apply (run_wf _ _ _ _ _ n H1) | intros n; apply (run_wf _ _ _ _ _ n H)].
  - destruct HR1. by split.
  - intros x Hx. right. apply elem_of_app. by right.
  - rewrite (free_list_upd G) by (destruct Ho as [[? _] _]; lia). apply Hmt.
Qed.

Lemma write_loop_ok E s0 p ctx ops end_ : forall k fuel begin src s i w bl U modified Q,
  run s0 p i (qv w (<[ctx := bl]> ops)) s -> file_wf sb (entry i) w -> meta_used sb w ->
  (2 * k <= length (free_list sb w))%nat -> 0 <= begin <= end_ -> end_ <= INODE_MAX_BYTES ->
  Z.of_nat (length src) = end_ - begin -> bytes src -> room_for sb (entry i) bl U ->
  (cost (entry i) U + k <= 10)%nat -> spans begin end_ k -> (k <= fuel)%nat ->
  (forall s' e' w' bl' U' m', wrote (sb := sb) (entry i) w begin src e' w' -> room_for sb e' bl' U' -> (forall x, x ∈ U -> x ∈ U') ->
    (cost e' U' <= cost (entry i) U + k)%nat -> (m' = true \/ m' = modified /\ e' = entry i) ->
    run s0 p (set_entry e' i) (qv w' (<[ctx := bl']> ops)) s' -> Q m' s') ->
  wp E (write_loop fuel ctx p begin end_ src modified) Q s.
Proof.
  assert (Hdone : forall fuel begin src s i w bl U modified (Q : bool -> itree B A -> Prop) k,
    run s0 p i (qv w (<[ctx := bl]> ops)) s -> file_wf sb (entry i) w -> meta_used sb w -> begin = end_ ->
    Z.of_nat (length src) = end_ - begin -> room_for sb (entry i) bl U ->
    (forall s' e' w' bl' U' m', wrote (sb := sb) (entry i) w begin src e' w' -> room_for sb e' bl' U' -> (forall x, x ∈ U -> x ∈ U') ->
      (cost e' U' <= cost (entry i) U + k)%nat -> (m' = true \/ m' = modified /\ e' = entry i) ->
      run s0 p (set_entry e' i) (qv w' (<[ctx := bl']> ops)) s' -> Q m' s') ->
    wp E (write_loop fuel ctx p begin end_ src modified) Q s).
  { intros fuel begin src s i w bl U modified Q k H Hw Hm -> Hl HR HQ. destruct src; [| cbn in Hl; lia].
    replace (write_loop fuel ctx p end_ end_ [] modified) with (mret (M := M (itree B A)) modified)
      by (destruct fuel; cbn; by rewrite Z.ltb_irrefl).
    apply wp_ret. eapply HQ; [by apply wrote_nil | exact HR | done | lia | by right | by replace (set_entry (entry i) i) with i by (by destruct i)]. }
  induction k as [|k IH]; intros fuel begin src s i w bl U modified Q H Hw Hm Hfree Hb He Hl Hby HR Hc Hs Hf HQ.
  { eapply Hdone; [exact H | done | done | | done | exact HR | exact HQ].
    destruct (decide (begin = end_)); [done |]. destruct (spans_pos begin end_ 0 ltac:(lia) Hs). done. }
  destruct (decide (begin = end_)) as [|Hne]; [by eapply Hdone |].
  destruct fuel as [|fuel]; [lia |]. cbn [write_loop]. rewrite (proj2 (Z.ltb_lt _ _)) by lia.
  fold (chunk begin end_). destruct (chunk_bounds begin end_ ltac:(lia)) as [Hc1 Hc2].
  set (n := Z.to_nat (chunk begin end_)). assert (Hln : length (take n src) = n) by (rewrite length_take; lia).
  eapply (write_block_ok E s0 p i w ctx bl ops begin (take n src) modified U s Q
    (fun m => write_loop fuel ctx p (begin + chunk begin end_) end_ (drop n src) m));
    rewrite ?Hln; [exact H | done | done | lia | lia | lia | lia | lia | by apply Forall_take | exact HR | lia |].
  intros s1 e1 w1 bl1 U1 m1 Hwr HR1 HU1 Ec1 Hm1 Hfl H1.
  eapply (IH fuel); [exact H1 | apply Hwr | apply Hwr | lia | lia | done | rewrite length_drop; lia | by apply Forall_drop |
    exact HR1 | cbn [entry set_entry]; lia | by apply spans_next; [lia |] | lia |].
  cbn [entry set_entry]. intros s2 e2 w2 bl2 U2 m2 Hwr2 HR2 HU2 Ec2 Hm2 H2. eapply HQ; [| exact HR2 | by auto | lia | | exact H2].
  - rewrite <- (take_drop n src). eapply (wrote_app G); [lia | rewrite take_drop; lia | exact Hwr |].
    rewrite Hln. by replace (begin + Z.of_nat n) with (begin + chunk begin end_) by lia.
  - destruct Hm1 as [->|[-> ->]], Hm2 as [->|[-> ->]]; auto.
Qed.

(** The entry after the write: (u16)end when the file grows. *)
Definition grown_entry (e e1 : InodeEntry) (end_ : Z) : InodeEntry :=
  if end_ >? num_bytes e then set_num_bytes (u16 end_) e1 else e1.

Lemma entry_wf_size e n : entry_wf e -> 0 <= n < 2 ^ 32 -> entry_wf (set_num_bytes n e).
Proof. intros (H1 & H2 & H3 & H4 & H5 & H6 & H7 & H8) Hn. unfold entry_wf. cbn. split_and!; try done; lia. Qed.

Lemma inode_write_code_ok E s0 p i w ctx bl ops offset src U k s Q :
  run s0 p i (qv w (<[ctx := bl]> ops)) s -> inode_ok (sb := sb) i -> file_wf sb (entry i) w -> meta_used sb w ->
  type (entry i) <> INODE_DEVICE -> 0 <= offset <= num_bytes (entry i) ->
  let end_ := offset + Z.of_nat (length src) in
  end_ <= INODE_MAX_BYTES -> bytes src -> spans offset end_ k -> (k <= block_fuel (Z.of_nat (length src)))%nat ->
  (2 * k <= length (free_list sb w))%nat -> room_for sb (entry i) bl U -> to_block_no sb (ino i) ∈ U ->
  (cost (entry i) U + k <= 10)%nat ->
  (forall s' e1 w1 w' bl', wrote (sb := sb) (entry i) w offset src e1 w1 -> (forall n, block_wf (w1 n)) ->
    let e' := grown_entry (entry i) e1 end_ in
    w' = write_entry sb w1 (ino i) e' \/ w' = w1 /\ e' = entry i ->
    run s0 p (set_entry e' i) (qv w' (<[ctx := bl']> ops)) s' -> Q (Z.of_nat (length src)) s') ->
  wp E (inode_write me ctx p src offset) Q s.
Proof.
  intros H [Hld Hino] Hw Hm Hty Hoff end_ Hmax Hby Hs Hk Hfree HR Hib Hc HQ.
  assert (H32 : end_ < 2 ^ 32) by (unfold INODE_MAX_BYTES, BLOCK_SIZE in Hmax; change INODE_MAX_BLOCKS with 140 in Hmax; lia).
  unfold inode_write. apply wp_bind. eapply load_inode_ok; [exact H |].
  rewrite (proj2 (Z.eqb_neq _ _)) by done. rewrite u64_small by (fold end_; lia). fold end_.
  apply wp_bind, wp_assert; [apply Z.leb_le; lia |]. apply wp_bind, wp_assert; [apply Z.leb_le; lia |].
  apply wp_bind, wp_assert; [apply Z.leb_le; lia |]. apply wp_bind.
  eapply write_loop_ok; [exact H | done | done | exact Hfree | lia | lia | lia | done | exact HR | exact Hc | exact Hs | done |].
  intros s1 e1 w1 bl1 U1 m1 Hwr HR1 HU1 Hc1 Hm1 H1.
  assert (Hsync : forall s2, entry_wf (grown_entry (entry i) e1 end_) ->
    run s0 p (set_entry (grown_entry (entry i) e1 end_) i) (qv w1 (<[ctx := bl1]> ops)) s2 ->
    wp E (inode_sync ctx p true;; mret (Z.of_nat (length src))) Q s2).
  { intros s2 He' H2. apply wp_bind. eapply inode_sync_write_ok; [exact G | exact H2 | by split | done | |].
    - apply (Nat.le_trans _ (length U1)); [| unfold cost in *; lia].
      apply synced_length, synced_add; [apply HR1 | cbn; auto].
    - intros s3 H3. apply wp_ret. eapply HQ; [exact Hwr | intros n; apply (run_wf _ _ _ _ _ n H1) | by left | exact H3]. }
  pose proof (fw_entry _ _ _ (wr_wf _ _ _ _ _ _ Hwr)) as He1. pose proof (wr_size _ _ _ _ _ _ Hwr) as Es1.
  apply wp_bind. eapply load_inode_ok; [exact H1 |]. cbn [entry set_entry]. rewrite Es1.
  unfold grown_entry in *. destruct (end_ >? num_bytes (entry i)).
  - apply wp_bind, wp_bind. eapply modify_entry_ok; [exact H1 |]. intros s2 H2. apply wp_ret.
    apply Hsync; [| exact H2]. apply entry_wf_size; [done |]. pose proof (Z.mod_pos_bound end_ (2 ^ 16)). unfold u16. lia.
  - apply wp_bind, wp_ret. destruct m1; [by apply Hsync |].
    apply wp_bind, wp_ret, wp_ret. destruct Hm1 as [|[_ ->]]; [done |]. eapply HQ; [exact Hwr | intros n; apply (run_wf _ _ _ _ _ n H1) | by right | exact H1].
Qed.
End write.

(** * The contract of a write *)

Section contract.
Context {sb : SuperBlock} (G : geometry sb).
Implicit Types (w : Z -> list Z) (e : InodeEntry).

(** All bytes of a file. *)
Definition content e w : list Z := file_bytes e w 0 (Z.to_nat (num_bytes e)).

(** The blocks of the file [e]. *)
Definition in_file e w (n : Z) : Prop := n = indirect e \/ exists j, file_index j /\ block_of e w j = n.

(** The file [e] of inode [no] has become [e'] with the content [c]; other files
    and other entries are what they were. *)
Record updated e w (no : Z) (c : list Z) e' w' : Prop := {
  up_wf : file_wf sb e' w';
  up_disk : disk_entry sb w' no = e';
  up_content : content e' w' = c;
  up_type : type e' = type e /\ major e' = major e /\ minor e' = minor e /\ num_links e' = num_links e;
  up_entries : forall no', 0 <= no' < num_inodes sb -> no' <> no -> disk_entry sb w' no' = disk_entry sb w no';
  up_others : forall n, owned sb w n -> ~ in_file e w n -> owned sb w' n /\ w' n = w n;
  up_meta : meta_used sb w'
}.

(** Blocks before the bitmap do not belong to files. *)
Lemma file_wf_low e w n d : n < bitmap_start sb -> file_wf sb e w ->
  file_wf sb e (upd w n d) /\ (forall j, block_of e (upd w n d) j = block_of e w j) /\
  (forall k, 0 <= k < num_bytes e -> byte_of e (upd w n d) k = byte_of e w k).
Proof.
  intros Hn Hw. assert (Hb : forall j, block_of e (upd w n d) j = block_of e w j).
  { intros j. unfold block_of. destruct (j <? INODE_NUM_DIRECT); [done |]. destruct (Z.eqb_spec (indirect e) 0) as [|Hi]; [done |].
    pose proof (indirect_range _ _ Hw Hi). unfold upd. by rewrite (proj2 (Z.eqb_neq _ _)) by lia. }
  assert (Ho : forall m, owned sb w m -> owned sb (upd w n d) m) by (intros m; apply (owned_upd G); lia).
  split_and!; [split | done |]; rewrite ?Hb.
  - apply Hw.
  - apply Hw.
  - intros j. rewrite Hb. apply (fw_mapped _ _ _ Hw).
  - intros j Hj. rewrite Hb. intros Hne. by apply Ho, (fw_owned _ _ _ Hw).
  - intros j k. rewrite !Hb. apply (fw_inj _ _ _ Hw).
  - intros Hi. destruct (fw_indirect _ _ _ Hw Hi) as [Hoi Hj]. split; [by apply Ho |]. intros j. rewrite Hb. apply Hj.
  - intros k Hk. unfold byte_of. rewrite Hb. destruct (wf_block G e w k Hw Hk) as (_ & _ & [[Hd _] _] & _).
    unfold upd. by rewrite (proj2 (Z.eqb_neq _ _)) by lia.
Qed.

(** The content of a file in terms of its bytes. *)
Lemma content_eq e w c : Z.of_nat (length c) = num_bytes e ->
  (forall k, 0 <= k < num_bytes e -> byte_of e w k = zget c k) -> content e w = c.
Proof.
  intros Hl Hb. unfold content. apply list_eq. intros k. destruct (Nat.ltb_spec k (length c)) as [Hk|Hk].
  - rewrite lookup_file_bytes, Z.add_0_l, Hb by lia. symmetry. rewrite <- (Nat2Z.id k) at 1. apply lookup_zget. lia.
  - rewrite !lookup_ge_None_2; [done | lia |]. rewrite length_file_bytes. lia.
Qed.

Lemma zget_content e w k : 0 <= k < num_bytes e -> zget (content e w) k = byte_of e w k.
Proof.
  intros Hk. apply zget_lookup; [lia |]. unfold content. rewrite lookup_file_bytes by lia. do 2 f_equal. lia.
Qed.

Lemma length_content e w : length (content e w) = Z.to_nat (num_bytes e).
Proof. apply length_file_bytes. Qed.

(** [src] written over [c] from [o] on, extending it if need be. *)
Definition overwrite (c : list Z) (o : nat) (src : list Z) : list Z := take o c ++ src ++ drop (o + length src) c.

Lemma zget_overwrite c o src k : (o <= length c)%nat -> 0 <= k < Z.of_nat (length (overwrite c o src)) ->
  zget (overwrite c o src) k = if decide (Z.of_nat o <= k < Z.of_nat (o + length src)) then zget src (k - Z.of_nat o) else zget c k.
Proof.
  intros Ho Hk. unfold overwrite in *. rewrite !length_app, length_take, length_drop in Hk.
  assert (Ht : length (take o c) = o) by (rewrite length_take; lia). unfold zget. case_decide.
  - rewrite app_nth2 by lia. rewrite app_nth1 by lia. f_equal. lia.
  - destruct (decide (k < Z.of_nat o)).
    + rewrite app_nth1 by lia. rewrite !nth_lookup, lookup_take_lt by lia. done.
    + rewrite !app_nth2 by lia. rewrite !nth_lookup, lookup_drop. do 2 f_equal. lia.
Qed.

Lemma length_overwrite c o src : (o <= length c)%nat -> length (overwrite c o src) = Nat.max (length c) (o + length src).
Proof. intros Ho. unfold overwrite. rewrite !length_app, length_take, length_drop. lia. Qed.

Lemma grown_entry_size e e1 end_ : num_bytes e1 = num_bytes e -> 0 <= end_ < 2 ^ 16 ->
  num_bytes (grown_entry e e1 end_) = Z.max (num_bytes e) end_.
Proof.
  intros E Hend. unfold grown_entry. rewrite Z.gtb_ltb. destruct (Z.ltb_spec (num_bytes e) end_); cbn; [rewrite u16_small by lia |]; lia.
Qed.

(** The entry [e'] has the blocks of [e1] and the size of the file after [src] was
    written. *)
Record resized e (offset : Z) (src : list Z) e1 e' : Prop := {
  rs_wf : entry_wf e';
  rs_size : num_bytes e' = Z.max (num_bytes e) (offset + Z.of_nat (length src));
  rs_addrs : addrs e' = addrs e1;
  rs_ind : indirect e' = indirect e1;
  rs_type : type e' = type e1 /\ major e' = major e1 /\ minor e' = minor e1 /\ num_links e' = num_links e1
}.

Lemma block_of_resized e offset src e1 e' w j : resized e offset src e1 e' -> block_of e' w j = block_of e1 w j.
Proof. intros H. unfold block_of. by rewrite (rs_addrs _ _ _ _ _ H), (rs_ind _ _ _ _ _ H). Qed.

Lemma grown_entry_resized e e1 offset src : let end_ := offset + Z.of_nat (length src) in
  num_bytes e1 = num_bytes e -> entry_wf e1 -> 0 <= end_ < 2 ^ 16 -> resized e offset src e1 (grown_entry e e1 end_).
Proof.
  intros end_ E He Hend. split.
  - unfold grown_entry. destruct (end_ >? num_bytes e); [| done]. apply entry_wf_size; [done |]. rewrite u16_small by lia. lia.
  - by apply grown_entry_size.
  - unfold grown_entry. by destruct (end_ >? num_bytes e).
  - unfold grown_entry. by destruct (end_ >? num_bytes e).
  - unfold grown_entry. by destruct (end_ >? num_bytes e).
Qed.

(** The file with its new size, in the blocks the loop leaves. *)
Lemma wrote_content e w offset src e1 w1 e' : wrote (sb := sb) e w offset src e1 w1 -> file_wf sb e w ->
  0 <= offset <= num_bytes e -> offset + Z.of_nat (length src) <= INODE_MAX_BYTES -> resized e offset src e1 e' ->
  file_wf sb e' w1 /\ content e' w1 = overwrite (content e w) (Z.to_nat offset) src.
Proof.
  intros Hwr Hw Hoff Hmax Hrs. set (end_ := offset + Z.of_nat (length src)) in *.
  pose proof (wr_wf _ _ _ _ _ _ Hwr) as Hw1. pose proof (wr_size _ _ _ _ _ _ Hwr) as Es.
  pose proof (rs_size _ _ _ _ _ Hrs) as Hsz. fold end_ in Hsz.
  assert (Hb : forall j, block_of e' w1 j = block_of e1 w1 j) by (intros; by eapply block_of_resized).
  pose proof (rs_ind _ _ _ _ _ Hrs) as Hi.
  assert (Hold : forall j, 0 <= j -> j * BLOCK_SIZE < num_bytes e -> block_of e1 w1 j = block_of e w j /\ block_of e w j <> 0).
  { intros j H0 H1. pose proof (fw_mapped _ _ _ Hw j H0 H1). split; [| done].
    apply (wr_block _ _ _ _ _ _ Hwr); [exact (wf_index e w j Hw H0 H1) | done]. }
  split.
  - split; rewrite ?Hi.
    + apply Hrs.
    + rewrite Hsz. pose proof (fw_size _ _ _ Hw). lia.
    + intros j H0 H1. rewrite Hb. rewrite Hsz in H1. destruct (decide (j * BLOCK_SIZE < num_bytes e)) as [Hlt|Hge].
      * by destruct (Hold j H0 Hlt) as [-> ?].
      * replace j with (j * BLOCK_SIZE / BLOCK_SIZE) by (by apply Z.div_mul). apply (wr_mapped _ _ _ _ _ _ Hwr). lia.
    + intros j. rewrite Hb. apply (fw_owned _ _ _ Hw1).
    + intros j k. rewrite !Hb. apply (fw_inj _ _ _ Hw1).
    + intros Hne. destruct (fw_indirect _ _ _ Hw1 Hne) as [Ho Hj]. split; [done |]. intros j. rewrite Hb. apply Hj.
  - assert (Hlc : (Z.to_nat offset <= length (content e w))%nat) by (rewrite length_content; lia).
    assert (Hlen : Z.of_nat (length (overwrite (content e w) (Z.to_nat offset) src)) = num_bytes e').
    { rewrite length_overwrite, length_content by done. lia. }
    apply content_eq; [done |]. intros k Hk. rewrite zget_overwrite by (done || lia).
    assert (Hbe : byte_of e' w1 k = byte_of e1 w1 k) by (unfold byte_of; by rewrite Hb). rewrite Hbe.
    case_decide as Hin.
    + rewrite (wr_new _ _ _ _ _ _ Hwr) by lia. f_equal. lia.
    + rewrite zget_content by lia. apply (wr_kept _ _ _ _ _ _ Hwr); [pose proof (fw_size _ _ _ Hw); lia | lia |].
      apply (fw_mapped _ _ _ Hw); unfold BLOCK_SIZE; dlia.
Qed.

Lemma wrote_type e w offset src e1 w1 e' : wrote (sb := sb) e w offset src e1 w1 -> resized e offset src e1 e' ->
  type e' = type e /\ major e' = major e /\ minor e' = minor e /\ num_links e' = num_links e.
Proof.
  intros Hwr Hrs. destruct (wr_type _ _ _ _ _ _ Hwr) as (? & ? & ? & ?), (rs_type _ _ _ _ _ Hrs) as (? & ? & ? & ?).
  split_and!; congruence.
Qed.

Lemma wrote_outside e w offset src e1 w1 n : wrote (sb := sb) e w offset src e1 w1 -> owned sb w n -> ~ in_file e w n ->
  owned sb w1 n /\ w1 n = w n.
Proof.
  intros Hwr Hn Hf. split; [by apply (wr_owned _ _ _ _ _ _ Hwr) |]. apply (wr_others _ _ _ _ _ _ Hwr); [done | |].
  - intros ->. apply Hf. by left.
  - intros j Hj E. apply Hf. right. eauto.
Qed.

Lemma wrote_entries e w offset src e1 w1 m : wrote (sb := sb) e w offset src e1 w1 -> 0 <= m < num_inodes sb ->
  disk_entry sb w1 m = disk_entry sb w m.
Proof.
  intros Hwr Hm. unfold disk_entry. rewrite (wr_low _ _ _ _ _ _ Hwr); [done |]. by apply (inode_block_range G).
Qed.

(** The new entry is written to the disk. *)
Lemma wrote_stored e w no offset src e1 w1 e' : wrote (sb := sb) e w offset src e1 w1 -> file_wf sb e w ->
  0 <= offset <= num_bytes e -> offset + Z.of_nat (length src) <= INODE_MAX_BYTES -> 0 <= no < num_inodes sb ->
  (forall n, block_wf (w1 n)) -> resized e offset src e1 e' ->
  updated e w no (overwrite (content e w) (Z.to_nat offset) src) e' (write_entry sb w1 no e').
Proof.
  intros Hwr Hw Hoff Hmax Hno Hwf Hrs. destruct (wrote_content e w offset src e1 w1 e' Hwr Hw Hoff Hmax Hrs) as [Hwe Hce].
  assert (Hlow : to_block_no sb no < bitmap_start sb) by (by apply (inode_block_range G)).
  destruct (file_wf_low e' w1 (to_block_no sb no) (put_entry (w1 (to_block_no sb no)) no e') Hlow Hwe) as (Hwe' & _ & Hby).
  fold (write_entry sb w1 no e') in Hwe', Hby. split; try done.
  - apply disk_entry_write; [apply Hwf | apply Hwe].
  - rewrite <- Hce. apply content_eq; [rewrite length_content; destruct (fw_entry _ _ _ Hwe) as (_ & _ & _ & _ & ? & _); lia |].
    intros k Hk. rewrite zget_content by done. by apply Hby.
  - by eapply wrote_type.
  - intros m Hm Hne. rewrite disk_entry_write_ne by (try apply Hwf; try apply Hwe; congruence). by eapply wrote_entries.
  - intros n Hn Hf. destruct (wrote_outside _ _ _ _ _ _ n Hwr Hn Hf) as [Ho E]. split.
    + apply (owned_upd G); [lia | done].
    + unfold write_entry, upd. rewrite (proj2 (Z.eqb_neq _ _)); [done |]. destruct Hn as [[? _] _]. lia.
  - apply (meta_used_upd G); [lia | apply Hwr].
Qed.

Lemma wrote_updated e w no offset src e1 w1 w' : wrote (sb := sb) e w offset src e1 w1 -> file_wf sb e w ->
  0 <= offset <= num_bytes e -> let end_ := offset + Z.of_nat (length src) in
  end_ <= INODE_MAX_BYTES -> end_ < 2 ^ 16 -> 0 <= no < num_inodes sb -> disk_entry sb w no = e -> (forall n, block_wf (w1 n)) ->
  let e' := grown_entry e e1 end_ in
  w' = write_entry sb w1 no e' \/ w' = w1 /\ e' = e ->
  updated e w no (overwrite (content e w) (Z.to_nat offset) src) e' w'.
Proof.
  intros Hwr Hw Hoff end_ Hmax H16 Hno Hdisk Hwf e' Hw'.
  assert (Hrs : resized e offset src e1 e').
  { apply grown_entry_resized; [apply (wr_size _ _ _ _ _ _ Hwr) | apply (fw_entry _ _ _ (wr_wf _ _ _ _ _ _ Hwr)) | fold end_; lia]. }
  destruct Hw' as [->|[-> Ee]]; [by apply (wrote_stored e w no offset src e1 w1 e') |].
  destruct (wrote_content e w offset src e1 w1 e' Hwr Hw Hoff Hmax Hrs) as [Hwe Hce].
  split; try done; [| by eapply wrote_type | intros m Hm _; by eapply wrote_entries | intros n; by eapply wrote_outside | apply Hwr].
  rewrite (wrote_entries _ _ _ _ _ _ no Hwr Hno). congruence.
Qed.
End contract.

(** ** The operations *)

Section operations.
Context {B A : Type} {sb : SuperBlock} `{BC : BlockCache sb B} `{OA : ObjectArena A} (G : geometry sb) (me : Z).
Implicit Types (s : itree B A) (w : Z -> list Z) (ops : gmap Z (list Z)) (i : Inode).

(** What a write of [src] needs: blocks for it, and room in the log.  [k] is the
    number of blocks it touches, [bl] what the operation has synced before. *)
Record can_write i w (bl : list Z) (offset : Z) (src : list Z) (k : nat) : Prop := {
  cw_inode : inode_ok (sb := sb) i;
  cw_wf : file_wf sb (entry i) w;
  cw_meta : meta_used sb w;
  cw_disk : disk_entry sb w (ino i) = entry i;
  cw_type : type (entry i) <> INODE_DEVICE;
  cw_offset : 0 <= offset <= num_bytes (entry i);
  cw_end : offset + Z.of_nat (length src) <= INODE_MAX_BYTES;
  cw_bytes : bytes src;
  cw_spans : spans offset (offset + Z.of_nat (length src)) k;
  cw_fuel : (k <= block_fuel (Z.of_nat (length src)))%nat;
  cw_free : (2 * k <= length (free_list sb w))%nat;
  cw_nodup : NoDup bl;
  cw_log : (length bl + 3 + k <= 10)%nat
}.

Lemma can_write_room i w bl offset src k : can_write i w bl offset src k ->
  exists U, room_for sb (entry i) bl U /\ to_block_no sb (ino i) ∈ U /\ (cost (entry i) U + k <= 10)%nat.
Proof.
  intros Hcw. exists (to_block_no sb (ino i) :: bitmap_start sb :: (if indirect (entry i) =? 0 then [] else [indirect (entry i)]) ++ bl).
  pose proof (cw_log _ _ _ _ _ _ Hcw) as Hlog. split_and!.
  - split.
    + split; [apply Hcw |]. intros x Hx. do 2 right. apply elem_of_app. by right.
    + right. left.
    + intros Hne. rewrite (proj2 (Z.eqb_neq _ _)) by done. do 2 right. left.
  - left.
  - unfold cost. cbn [length]. rewrite length_app. destruct (indirect (entry i) =? 0); cbn; lia.
Qed.

Lemma inode_write_ok E s0 p i w ctx bl ops offset src k s Q :
  run s0 p i (qv w (<[ctx := bl]> ops)) s -> can_write i w bl offset src k -> offset + Z.of_nat (length src) < 2 ^ 16 ->
  (forall s' e' w' bl', updated (sb := sb) (entry i) w (ino i) (overwrite (content (entry i) w) (Z.to_nat offset) src) e' w' ->
    run s0 p (set_entry e' i) (qv w' (<[ctx := bl']> ops)) s' -> Q (Z.of_nat (length src)) s') ->
  wp E (inode_write me ctx p src offset) Q s.
Proof.
  intros H Hcw H16 HQ. destruct (can_write_room _ _ _ _ _ _ Hcw) as (U & HR & Hib & Hc). destruct Hcw.
  eapply (inode_write_code_ok G me E s0 p i w ctx bl ops offset src U k); try done.
  intros s' e1 w1 w' bl' Hwr Hwf e' Hw' H'. eapply HQ; [| exact H'].
  by apply (wrote_updated G _ w (ino i) offset src e1 w1 w'); try apply cw_inode0.
Qed.
End operations.
