(* ===== verification/InodeClear.v ===== *)
(** inode_clear of fs/inode.c: every block of the file is given back. *)
From S2P Require Import Prelude Bytes CString Bitmap Locks Arena FsDefs Cache CacheSpec CacheLog CacheAlloc BlockCache Path Console Inode InodeSpec InodeMap InodeFile.

#[local] Arguments zget : simpl never.

(** The blocks [F] have been freed. *)
Record released (sb : SuperBlock) (w : Z -> list Z) (F : list Z) (w' : Z -> list Z) : Prop := {
  rl_same : forall n, n <> bitmap_start sb -> w' n = w n;
  rl_used : forall m, 0 <= m < num_blocks sb -> used_bit sb w' m = if decide (m ∈ F) then false else used_bit sb w m
}.

Lemma released_nil sb w : released sb w [] w.
Proof. split; [done |]. intros m _. by rewrite decide_False by apply not_elem_of_nil. Qed.

Lemma released_snoc sb w F w' no w'' : released sb w F w' -> shrunk sb w' no w'' -> released sb w (F ++ [no]) w''.
Proof.
  intros [Hs Hu] [Hs' Hu']. split.
  - intros n Hn. by rewrite Hs', Hs.
  - intros m Hm. rewrite Hu', Hu by done. repeat case_decide; try done; set_solver.
Qed.

(** The block numbers of an array that are not 0. *)
Definition nonzero (l : list Z) : list Z := filter (fun a => a <> 0) l.

Lemma nonzero_snoc l (j : nat) : (j < length l)%nat ->
  nonzero (take (S j) l) = nonzero (take j l) ++ (if zget l (Z.of_nat j) =? 0 then [] else [zget l (Z.of_nat j)]).
Proof.
  intros Hj. pose proof (lookup_zget l (Z.of_nat j) ltac:(lia)) as Hl. rewrite Nat2Z.id in Hl.
  rewrite (take_S_r _ _ _ Hl). unfold nonzero. rewrite filter_app. f_equal.
  destruct (Z.eqb_spec (zget l (Z.of_nat j)) 0); [by rewrite filter_cons_False by auto | by rewrite filter_cons_True].
Qed.

Lemma elem_of_nonzero_take l (j : nat) x : x ∈ nonzero (take j l) ->
  exists k, 0 <= k < Z.of_nat j /\ k < Z.of_nat (length l) /\ zget l k = x /\ x <> 0.
Proof.
  unfold nonzero. intros [Hx (k & Hk & Hlt)%elem_of_take]%list_elem_of_filter.
  exists (Z.of_nat k). pose proof (lookup_lt_Some _ _ _ Hk). split_and!; [lia | lia | lia | by apply zget_lookup_nat | done].
Qed.

Section clear.
Context {B A : Type} {sb : SuperBlock} `{BC : BlockCache sb B} `{OA : ObjectArena A} (G : geometry sb).
Implicit Types (s : itree B A) (w : Z -> list Z) (ops : gmap Z (list Z)) (i : Inode).

(** A loop over an array of distinct blocks of a file. *)
Lemma free_loop_ok E s0 p i w w0 F h ctx bl ops U l s (Q : unit -> itree B A -> Prop) :
  released sb w F w0 -> run s0 p i (mkFsv w0 h ∅ (<[ctx := bl]> ops)) s -> synced bl U -> bitmap_start sb ∈ U -> (length U <= 10)%nat ->
  (forall q n, h !! q = Some n -> n <> bitmap_start sb) -> (size h < 6)%nat ->
  (forall k, 0 <= k < Z.of_nat (length l) -> zget l k <> 0 -> owned sb w (zget l k) /\ zget l k ∉ F) ->
  (forall j k, 0 <= j < Z.of_nat (length l) -> 0 <= k < Z.of_nat (length l) -> zget l j <> 0 -> zget l j = zget l k -> j = k) ->
  (forall s' w' bl', released sb w (F ++ nonzero l) w' -> synced bl' U ->
    run s0 p i (mkFsv w' h ∅ (<[ctx := bl']> ops)) s' -> Q tt s') ->
  wp E (for_range 0 (length l) (free_addr ctx l)) Q s.
Proof.
  intros HF H Hs Hbm HU Hh Hsz Hl Hinj HQ.
  wp_use (wp_for_range E (fun j s' => exists w' bl', released sb w (F ++ nonzero (take (Z.to_nat j) l)) w' /\ synced bl' U /\
    run s0 p i (mkFsv w' h ∅ (<[ctx := bl']> ops)) s') (free_addr ctx l) (length l) 0 s).
  - intros j s1 Hj (w1 & bl1 & HF1 & Hs1 & H1). unfold free_addr. rewrite Z.add_0_l in Hj.
    assert (Etake : nonzero (take (Z.to_nat (j + 1)) l) = nonzero (take (Z.to_nat j) l) ++ (if zget l j =? 0 then [] else [zget l j])).
    { replace (Z.to_nat (j + 1)) with (S (Z.to_nat j)) by lia. rewrite nonzero_snoc by lia. by rewrite Z2Nat.id by lia. }
    destruct (Z.eqb_spec (zget l j) 0) as [Hz|Hnz]; cbn [negb].
    + apply wp_ret. exists w1, bl1. rewrite Etake, app_nil_r. done.
    + destruct (Hl j Hj Hnz) as [[Hd Hu] HnF]. destruct (data_range G _ Hd) as [Hr _].
      eapply (free_ok E s0 p i w1 h ∅ ops ctx bl1 s1 (zget l j)); [exact G | exact H1 | | done | done | |].
      * split; [done |]. rewrite (rl_used _ _ _ _ HF1) by lia. rewrite decide_False; [done |].
        intros [?|(k & Hk & Hk2 & Ek & _)%elem_of_nonzero_take]%elem_of_app; [done |].
        symmetry in Ek. apply Hinj in Ek; [lia | lia | lia | done].
      * apply (Nat.le_trans _ (length U)); [| done]. apply synced_length. by apply synced_add.
      * intros s2 w2 Hsh H2. exists w2, (add_new (bitmap_start sb) bl1). split_and!; [| by apply synced_add | exact H2].
        rewrite Etake, app_assoc. by eapply released_snoc.
  - exists w0, bl. rewrite take_0. cbn. rewrite app_nil_r. done.
  - intros [] s1 (w1 & bl1 & HF1 & Hs1 & H1). rewrite Z.add_0_l, Nat2Z.id, firstn_all in HF1. by eapply HQ.
Qed.

(** The blocks of a file: direct, indirect, and the indirect block itself. *)
Definition ind_blocks (e : InodeEntry) w : list Z :=
  if indirect e =? 0 then [] else nonzero (get_addrs (w (indirect e))) ++ [indirect e].
Definition file_blocks (e : InodeEntry) w : list Z := nonzero (addrs e) ++ ind_blocks e w.

(** The entry of an empty file. *)
Definition cleared_entry (e : InodeEntry) : InodeEntry :=
  mkEntry (type e) (major e) (minor e) (num_links e) 0 (replicate 12 0) 0.

Lemma cleared_entry_wf e : entry_wf e -> entry_wf (cleared_entry e).
Proof.
  intros (H1 & H2 & H3 & H4 & H5 & H6 & H7 & H8). unfold entry_wf, cleared_entry. cbn [type major minor num_links num_bytes addrs indirect].
  split_and!; try done; try lia. apply Forall_replicate. lia.
Qed.

(** Direct and indirect numbers are the blocks of the file. *)
Lemma block_of_direct e w j : 0 <= j < 12 -> block_of e w j = zget (addrs e) j.
Proof. intros Hj. unfold block_of. rewrite (proj2 (Z.ltb_lt _ _)); [done |]. unfold INODE_NUM_DIRECT. lia. Qed.

Lemma block_of_indirect e w j : 0 <= j -> indirect e <> 0 -> block_of e w (j + 12) = zget (get_addrs (w (indirect e))) j.
Proof.
  intros Hj Hne. unfold block_of, INODE_NUM_DIRECT. rewrite (proj2 (Z.ltb_ge _ _)), (proj2 (Z.eqb_neq _ _)) by (done || lia).
  f_equal. lia.
Qed.

Lemma direct_distinct e w : file_wf sb e w -> forall j k, 0 <= j < 12 -> 0 <= k < 12 ->
  zget (addrs e) j <> 0 -> zget (addrs e) j = zget (addrs e) k -> j = k.
Proof.
  intros Hw j k Hj Hk. rewrite <- !(block_of_direct e w) by done. apply (fw_inj _ _ _ Hw); change INODE_MAX_BLOCKS with 140; lia.
Qed.

Lemma indirect_distinct e w : file_wf sb e w -> indirect e <> 0 -> forall j k, 0 <= j < 128 -> 0 <= k < 128 ->
  zget (get_addrs (w (indirect e))) j <> 0 -> zget (get_addrs (w (indirect e))) j = zget (get_addrs (w (indirect e))) k -> j = k.
Proof.
  intros Hw Hne j k Hj Hk. rewrite <- !(block_of_indirect e w) by (done || lia). intros Hnz E.
  enough (j + 12 = k + 12) by lia. apply (fw_inj _ _ _ Hw); [change INODE_MAX_BLOCKS with 140; lia.. | done | done].
Qed.

Lemma indirect_fresh e w k : file_wf sb e w -> indirect e <> 0 -> 0 <= k < 128 ->
  zget (get_addrs (w (indirect e))) k <> 0 ->
  owned sb w (zget (get_addrs (w (indirect e))) k) /\ zget (get_addrs (w (indirect e))) k ∉ nonzero (addrs e) /\
  zget (get_addrs (w (indirect e))) k <> indirect e.
Proof.
  intros Hw Hne Hk. rewrite <- (block_of_indirect e w) by (done || lia). intros Hnz.
  assert (Hidx : 0 <= k + 12 < INODE_MAX_BLOCKS) by (change INODE_MAX_BLOCKS with 140; lia).
  split_and!; [by apply (fw_owned _ _ _ Hw) | | by apply (fw_indirect _ _ _ Hw Hne)].
  intros Hin. rewrite <- (firstn_all (addrs e)) in Hin.
  destruct (elem_of_nonzero_take _ _ _ Hin) as (j & Hj & _ & Ej & _).
  assert (Hlen : length (addrs e) = 12%nat) by apply (fw_entry _ _ _ Hw). rewrite Hlen in Hj.
  rewrite <- (block_of_direct e w) in Ej by lia. enough (k + 12 = j) by lia.
  apply (fw_inj _ _ _ Hw); [done | change INODE_MAX_BLOCKS with 140; lia | done | done].
Qed.

Lemma indirect_still_owned e w w' : file_wf sb e w -> indirect e <> 0 ->
  released sb w (nonzero (addrs e) ++ nonzero (get_addrs (w (indirect e)))) w' -> owned sb w' (indirect e).
Proof.
  intros Hw Hne HF. destruct (fw_indirect _ _ _ Hw Hne) as [[Hd Hu] Hb]. destruct (data_range G _ Hd) as [Hr _].
  split; [done |]. rewrite (rl_used _ _ _ _ HF) by lia. rewrite decide_False; [done |].
  assert (Hlen : length (addrs e) = 12%nat) by apply (fw_entry _ _ _ Hw).
  rewrite <- (firstn_all (addrs e)), <- (firstn_all (get_addrs _)), Hlen, length_get_addrs.
  intros [(k & Hk & _ & Ek & _)%elem_of_nonzero_take|(k & Hk & _ & Ek & _)%elem_of_nonzero_take]%elem_of_app.
  - rewrite <- (block_of_direct e w) in Ek by lia. apply (Hb k); [change INODE_MAX_BLOCKS with 140; lia | done].
  - rewrite <- (block_of_indirect e w) in Ek by (done || lia). apply (Hb (k + 12)); [change INODE_MAX_BLOCKS with 140; lia | done].
Qed.

Lemma clear_indirect_ok E s0 p i e w w1 ctx bl ops U s (Q : unit -> itree B A -> Prop) :
  file_wf sb e w -> indirect e <> 0 -> released sb w (nonzero (addrs e)) w1 ->
  run s0 p i (qv w1 (<[ctx := bl]> ops)) s -> synced bl U -> bitmap_start sb ∈ U -> (length U <= 10)%nat ->
  (forall s' w' bl', released sb w (nonzero (addrs e) ++ nonzero (get_addrs (w (indirect e))) ++ [indirect e]) w' -> synced bl' U ->
    run s0 p (set_entry (set_indirect 0 (entry i)) i) (qv w' (<[ctx := bl']> ops)) s' -> Q tt s') ->
  wp E (block ← cached (bc_acquire (indirect e));
     d ← cached (bc_data block);
     for_range 0 128 (free_addr ctx (get_addrs d));;
     cached (bc_release block);;
     cached (bc_free ctx (indirect e));;
     modify_entry p (set_indirect 0)) Q s.
Proof.
  intros Hw Hne HF1 H Hs Hbm HU HQ. destruct (fw_indirect _ _ _ Hw Hne) as [Hoi _]. pose proof (indirect_range _ _ Hw Hne) as Hir.
  assert (Ew1 : w1 (indirect e) = w (indirect e)) by (apply (rl_same _ _ _ _ HF1); lia).
  apply wp_bind. eapply acquire_ok; [exact H | by apply (usable_data G), Hoi |]. intros b s3 H3.
  apply wp_bind. eapply data_ok; [exact H3 |]. rewrite Ew1. apply wp_bind.
  rewrite <- (length_get_addrs (w (indirect e))) at 1.
  eapply (free_loop_ok E s0 p _ w w1 (nonzero (addrs e))); [exact HF1 | exact H3 | exact Hs | done | done | | apply size_held | | |].
  { intros q n. rewrite lookup_singleton_Some. intros [_ <-]. lia. }
  { rewrite length_get_addrs. intros k Hk Hnz. by destruct (indirect_fresh e w k Hw Hne Hk Hnz) as (? & ? & _). }
  { rewrite length_get_addrs. exact (indirect_distinct e w Hw Hne). }
  intros s4 w4 bl4 HF4 Hs4 H4. apply wp_bind. eapply release_ok; [exact H4 |]. intros s5 H5.
  apply wp_bind. eapply (free_ok E s0 p _ w4 ∅ ∅ ops ctx bl4 s5 (indirect e)); [exact G | exact H5 | | by intros ?? ?%lookup_empty_Some | rewrite map_size_empty; lia | |].
  { by eapply indirect_still_owned. }
  { apply (Nat.le_trans _ (length U)); [| done]. apply synced_length. by apply synced_add. }
  intros s6 w6 Hsh H6. eapply modify_entry_ok; [exact H6 |]. intros s7 H7.
  eapply HQ; [| | exact H7]; [rewrite app_assoc; by eapply released_snoc | by apply synced_add].
Qed.

Lemma inode_clear_ok E s0 p i w ctx bl ops U s (Q : unit -> itree B A -> Prop) :
  run s0 p i (qv w (<[ctx := bl]> ops)) s -> inode_ok (sb := sb) i -> file_wf sb (entry i) w -> synced bl U ->
  bitmap_start sb ∈ U -> to_block_no sb (ino i) ∈ U -> (length U <= 10)%nat ->
  (forall s' w1 bl', released sb w (file_blocks (entry i) w) w1 -> synced bl' U ->
    run s0 p (set_entry (cleared_entry (entry i)) i) (qv (write_entry sb w1 (ino i) (cleared_entry (entry i))) (<[ctx := bl']> ops)) s' ->
    Q tt s') ->
  wp E (inode_clear ctx p) Q s.
Proof.
  intros H Hi Hw Hs Hbm Hib HU HQ. set (e := entry i) in *. assert (Hlen : length (addrs e) = 12%nat) by apply (fw_entry _ _ _ Hw).
  assert (Hfin : forall s1 w1 bl1, released sb w (file_blocks e w) w1 -> synced bl1 U ->
    run s0 p (set_entry (set_indirect 0 (set_addrs (replicate 12 0) e)) i) (qv w1 (<[ctx := bl1]> ops)) s1 ->
    wp E (modify_entry p (set_num_bytes 0);; inode_sync ctx p true) Q s1).
  { intros s1 w1 bl1 HF1 Hs1 H1. apply wp_bind. eapply modify_entry_ok; [exact H1 |]. intros s2 H2.
    eapply inode_sync_write_ok; [exact G | exact H2 | exact Hi | by apply (cleared_entry_wf e), Hw | |].
    - apply (Nat.le_trans _ (length U)); [| done]. apply synced_length. by apply synced_add.
    - intros s3 H3. eapply HQ; [exact HF1 | | exact H3]. by apply synced_add. }
  unfold inode_clear. apply wp_bind. eapply load_inode_ok; [exact H |]. apply wp_bind. fold e.
  replace (for_range 0 12 (free_addr ctx (addrs e))) with (for_range 0 (length (addrs e)) (free_addr (A := A) ctx (addrs e))) by (by rewrite Hlen).
  eapply (free_loop_ok E s0 p i w w [] ∅); [apply released_nil | exact H | exact Hs | done | done | by intros ?? ?%lookup_empty_Some | rewrite map_size_empty; lia | | |].
  { intros k Hk. rewrite Hlen in Hk. intros Hnz. split; [| apply not_elem_of_nil]. rewrite <- (block_of_direct e w) in * by lia.
    apply (fw_owned _ _ _ Hw); [change INODE_MAX_BLOCKS with 140; lia | done]. }
  { rewrite Hlen. exact (direct_distinct e w Hw). }
  intros s1 w1 bl1 HF1 Hs1 H1. cbn [app] in HF1. apply wp_bind. eapply modify_entry_ok; [exact H1 |]. intros s2 H2.
  apply wp_bind. eapply load_inode_ok; [exact H2 |]. cbn [entry set_entry indirect set_addrs]. fold e in H2 |- *.
  unfold file_blocks, ind_blocks in Hfin. destruct (Z.eqb_spec (indirect e) 0) as [E0|Hne]; cbn [negb].
  - apply wp_bind, wp_ret. eapply Hfin; [by rewrite app_nil_r | exact Hs1 |].
    replace (set_indirect 0 (set_addrs (replicate 12 0) e)) with (set_addrs (replicate 12 0) e); [exact H2 |].
    unfold set_indirect, set_addrs. cbn. by rewrite E0.
  - apply wp_bind. eapply (clear_indirect_ok E s0 p _ e); [done | done | exact HF1 | exact H2 | exact Hs1 | done | done |].
    intros s3 w3 bl3 HF3 Hs3 H3. eapply Hfin; [exact HF3 | exact Hs3 | exact H3].
Qed.
End clear.
