(* ===== verification/InodeTable.v ===== *)
(** inode_alloc, inode_get, inode_share and inode_put of fs/inode.c: inodes on
    the disk and the table of inodes in memory. *)
From S2P Require Import Prelude Bytes CString Bitmap Locks Arena FsDefs Cache CacheSpec CacheLog CacheAlloc BlockCache Path Console Inode InodeSpec InodeMap InodeFile InodeClear.

#[local] Arguments zget : simpl never.

Lemma fresh_entry_wf ty : 0 <= ty < 2 ^ 16 -> entry_wf (fresh_entry ty).
Proof.
  intros Hty. unfold entry_wf, fresh_entry. cbn [type major minor num_links num_bytes addrs indirect].
  split_and!; try done; try lia. apply Forall_replicate. lia.
Qed.

(** * Allocation of an inode on the disk *)

(** [no] is the first free inode. *)
Record first_free_inode (sb : SuperBlock) (w : Z -> list Z) (no : Z) : Prop := {
  fi_range : 1 <= no < num_inodes sb;
  fi_free : type (disk_entry sb w no) = INODE_INVALID;
  fi_first : forall m, 1 <= m < no -> type (disk_entry sb w m) <> INODE_INVALID
}.

Section alloc.
Context {B A : Type} {sb : SuperBlock} `{BC : BlockCache sb B} `{OA : ObjectArena A} (G : geometry sb) (me : Z).
Implicit Types (s : itree B A) (w : Z -> list Z) (ops : gmap Z (list Z)) (i : Inode).

Lemma inode_alloc_step_ok E s0 p i w ctx bl ops ty no s (Q : option Z -> itree B A -> Prop) :
  run s0 p i (qv w (<[ctx := bl]> ops)) s -> 1 <= no < num_inodes sb -> 0 <= ty < 2 ^ 16 ->
  (length (add_new (to_block_no sb no) bl) <= 10)%nat ->
  (forall s', type (disk_entry sb w no) = INODE_INVALID ->
    run s0 p i (qv (write_entry sb w no (fresh_entry ty)) (<[ctx := add_new (to_block_no sb no) bl]> ops)) s' -> Q (Some no) s') ->
  (forall s', type (disk_entry sb w no) <> INODE_INVALID -> run s0 p i (qv w (<[ctx := bl]> ops)) s' -> Q None s') ->
  wp E (inode_alloc_step ctx ty no) Q s.
Proof.
  intros H Hno Hty Hlen HQ1 HQ2. pose proof (usable_inode G no ltac:(lia)) as Hu. unfold inode_alloc_step.
  apply wp_bind. eapply acquire_ok; [exact H | done |]. intros b s1 H1.
  apply wp_bind. eapply data_ok; [exact H1 |]. fold (disk_entry sb w no).
  destruct (Z.eqb_spec (type (disk_entry sb w no)) INODE_INVALID) as [E0|E0].
  - apply wp_bind. eapply put_ok; [exact H1 | apply put_entry_wf; [apply (run_wf _ _ _ _ _ _ H) | by apply fresh_entry_wf] |]. intros s2 H2.
    apply wp_bind. eapply sync_ok; [exact H2 | done | done | done |]. intros s3 H3.
    apply wp_bind. eapply release_ok; [exact H3 |]. intros s4 H4. apply wp_ret. by apply HQ1.
  - apply wp_bind. eapply release_ok; [exact H1 |]. intros s2 H2. apply wp_ret. by apply HQ2.
Qed.

Lemma inode_alloc_ok E s0 p i w ctx bl ops ty no s (Q : Z -> itree B A -> Prop) :
  run s0 p i (qv w (<[ctx := bl]> ops)) s -> first_free_inode sb w no -> 0 < ty < 2 ^ 16 -> (length bl < 10)%nat ->
  (forall s', run s0 p i (qv (write_entry sb w no (fresh_entry ty)) (<[ctx := add_new (to_block_no sb no) bl]> ops)) s' -> Q no s') ->
  wp E (inode_alloc ctx ty) Q s.
Proof.
  intros H [Hr Hf Hfirst] Hty Hlen HQ. unfold inode_alloc.
  apply wp_bind, wp_assert; [by rewrite (proj2 (Z.eqb_neq _ _)) by (unfold INODE_INVALID; lia) |]. apply wp_bind.
  wp_use (wp_for_until E (fun k s1 => k <= no /\ run s0 p i (qv w (<[ctx := bl]> ops)) s1)
    (fun r s' => r = Some no /\ Q no s') (inode_alloc_step ctx ty) (Z.to_nat (num_inodes sb - 1)) 1 s).
  - intros k s1 Hk (Hle & H1). eapply inode_alloc_step_ok; [exact H1 | lia | lia | | |].
    + unfold add_new. case_decide; [lia |]. rewrite length_app. cbn. lia.
    + intros s2 E0 H2. destruct (decide (k = no)) as [->|Hne]; [by split; [| apply HQ] |]. by destruct (Hfirst k); [lia |].
    + intros s2 E0 H2. split; [| done]. destruct (decide (k = no)) as [->|]; [done | lia].
  - intros s1 [Hle _]. lia.
  - split; [lia | done].
  - intros r s' [-> HQ']. by apply wp_ret.
Qed.

Lemma inode_alloc_full s0 p i w ctx bl ops ty s : run s0 p i (qv w (<[ctx := bl]> ops)) s -> 0 < ty < 2 ^ 16 -> (length bl < 10)%nat ->
  (forall m, 1 <= m < num_inodes sb -> type (disk_entry sb w m) <> INODE_INVALID) ->
  inode_alloc ctx ty s = Panic "failed to allocate inode on disk".
Proof.
  intros H Hty Hlen Hall. set (msg := "failed to allocate inode on disk"%string).
  assert (W : wp (eq msg) (inode_alloc ctx ty) (fun _ _ => False) s).
  2: { unfold wp in W. destruct (inode_alloc ctx ty s) as [[] | | | |]; try done. by subst. }
  unfold inode_alloc. apply wp_bind, wp_assert; [by rewrite (proj2 (Z.eqb_neq _ _)) by (unfold INODE_INVALID; lia) |]. apply wp_bind.
  pose proof (g_inodes _ G) as [Hn _].
  wp_use (wp_for_until (eq msg) (fun k s1 => run s0 p i (qv w (<[ctx := bl]> ops)) s1)
    (fun r s' => r = None) (inode_alloc_step ctx ty) (Z.to_nat (num_inodes sb - 1)) 1 s).
  - intros k s1 Hk H1. eapply inode_alloc_step_ok; [exact H1 | lia | lia | | |].
    + unfold add_new. case_decide; [lia |]. rewrite length_app. cbn. lia.
    + intros s2 E0. by destruct (Hall k); [lia |].
    + by intros s2 E0 H2.
  - done.
  - done.
  - by intros r s' ->.
Qed.
End alloc.

(** * The table of inodes in memory *)

(** One entry per inode number, each referenced. *)
Record table {B A : Type} `{OA : ObjectArena A} (sb : SuperBlock) (s : itree B A) (r : nat) : Prop := {
  tb_nodup : NoDup (tree_head s);
  tb_rc : forall p, p ∈ tree_head s -> 0 < count (rc (tree_mem s p)) < 2 ^ 63;
  tb_ino : forall p, p ∈ tree_head s -> 0 < ino (tree_mem s p) < num_inodes sb;
  tb_inj : forall p q, p ∈ tree_head s -> q ∈ tree_head s -> ino (tree_mem s p) = ino (tree_mem s q) -> p = q;
  tb_arena : ar_inv (tree_arena s) (list_to_set (tree_head s)) r;
  tb_lock : tree_lock s = init_spinlock
}.

(** The references to inode [no] in memory. *)
Definition refs {B A : Type} (s : itree B A) (no : Z) : Z :=
  match find_inode no (tree_mem s) (tree_head s) with Some p => count (rc (tree_mem s p)) | None => 0 end.

Section get.
Context {B A : Type} {sb : SuperBlock} `{BC : BlockCache sb B} `{OA : ObjectArena A} (G : geometry sb) (me : Z).
Implicit Types (s : itree B A).

Lemma lock_tree_ok E s (Q : unit -> itree B A -> Prop) : tree_lock s = init_spinlock ->
  Q tt (set_tree_lock (mkSpin true (Some me)) s) -> wp E (lock_tree me) Q s.
Proof.
  intros El HQ. unfold lock_tree. apply wp_bind, wp_get, wp_bind.
  eapply wp_lift; [rewrite El; apply acquire_free |]. by apply wp_modify.
Qed.

Lemma unlock_tree_ok E s (Q : unit -> itree B A -> Prop) : tree_lock s = mkSpin true (Some me) ->
  Q tt (set_tree_lock init_spinlock s) -> wp E (unlock_tree me) Q s.
Proof.
  intros El HQ. unfold unlock_tree. apply wp_bind, wp_get, wp_bind.
  eapply wp_lift; [rewrite El; apply release_own |]. by apply wp_modify.
Qed.

Lemma find_inode_ok no mem l :
  match find_inode no mem l with
  | Some p => p ∈ l /\ 0 < count (rc (mem p)) /\ ino (mem p) = no
  | None => forall p, p ∈ l -> 0 < count (rc (mem p)) -> ino (mem p) <> no
  end.
Proof.
  induction l as [|p l IH]; cbn; [intros p Hp; by apply not_elem_of_nil in Hp |].
  rewrite Z.gtb_ltb. destruct (Z.ltb_spec 0 (count (rc (mem p)))), (Z.eqb_spec (ino (mem p)) no); cbn [andb]; try done;
    first [by split_and!; [left | done | done] |
      destruct (find_inode no mem l) as [q|]; [destruct IH as (? & ? & ?); by split_and!; [right | done | done] |
        intros q [->|Hq]%elem_of_cons; [try lia; by intros | by apply IH]]].
Qed.

Lemma refs_some s r p : table sb s r -> p ∈ tree_head s -> refs s (ino (tree_mem s p)) = count (rc (tree_mem s p)).
Proof.
  intros HT Hp. unfold refs. pose proof (find_inode_ok (ino (tree_mem s p)) (tree_mem s) (tree_head s)) as Hf.
  destruct (find_inode _ _ _) as [q|].
  - destruct Hf as (Hq & _ & Eq). by rewrite (tb_inj _ _ _ HT q p).
  - destruct (Hf p Hp); [| done]. apply (tb_rc _ _ _ HT p Hp).
Qed.

Lemma refs_none s r no : table sb s r -> (forall p, p ∈ tree_head s -> ino (tree_mem s p) <> no) -> refs s no = 0.
Proof.
  intros HT Hno. unfold refs. pose proof (find_inode_ok no (tree_mem s) (tree_head s)) as Hf.
  destruct (find_inode _ _ _) as [q|]; [| done]. destruct Hf as (Hq & _ & Eq). by destruct (Hno q Hq).
Qed.

(** A change of one inode that keeps it referenced. *)
Lemma table_upd s s' r p i : table sb s r -> p ∈ tree_head s -> tree_head s' = tree_head s -> tree_arena s' = tree_arena s ->
  tree_lock s' = init_spinlock -> tree_mem s' p = i -> (forall q, q <> p -> tree_mem s' q = tree_mem s q) ->
  ino i = ino (tree_mem s p) -> 0 < count (rc i) < 2 ^ 63 -> table sb s' r.
Proof.
  intros HT Hp Eh Ea El Ep Eq Ei Hc.
  assert (Hino : forall q, ino (tree_mem s' q) = ino (tree_mem s q)).
  { intros q. destruct (decide (q = p)) as [->|]; [by rewrite Ep | by rewrite Eq]. }
  split; rewrite ?Eh, ?Ea; try apply HT; [| | | done].
  - intros q Hq. destruct (decide (q = p)) as [->|]; [by rewrite Ep |]. rewrite Eq by done. by apply (tb_rc _ _ _ HT).
  - intros q Hq. rewrite Hino. by apply (tb_ino _ _ _ HT).
  - intros q1 q2 H1 H2. rewrite !Hino. by apply (tb_inj _ _ _ HT).
Qed.

(** The table after [inode_get no] returned [p]. *)
Record got s (no p : Z) s' : Prop := {
  gt_in : p ∈ tree_head s';
  gt_ino : ino (tree_mem s' p) = no;
  gt_rc : count (rc (tree_mem s' p)) = refs s no + 1;
  gt_old : p ∈ tree_head s -> tree_head s' = tree_head s /\ ino (tree_mem s p) = no /\
    inode_lock_ (tree_mem s' p) = inode_lock_ (tree_mem s p) /\ loaded (tree_mem s' p) = loaded (tree_mem s p) /\ entry (tree_mem s' p) = entry (tree_mem s p);
  gt_new : p ∉ tree_head s -> tree_head s' = p :: tree_head s /\ (forall q, q ∈ tree_head s -> ino (tree_mem s q) <> no) /\
    inode_lock_ (tree_mem s' p) = init_spinlock /\ loaded (tree_mem s' p) = false /\ entry (tree_mem s' p) = entry (tree_mem s p);
  gt_others : forall q, q <> p -> tree_mem s' q = tree_mem s q;
  gt_frame : fs_cache s' = fs_cache s /\ tree_root s' = tree_root s /\ tty s' = tty s
}.

Lemma inode_get_ok E s r no (Q : Z -> itree B A -> Prop) : table sb s r -> 0 < no < num_inodes sb -> refs s no < 2 ^ 63 - 1 ->
  (0 < r)%nat \/ 0 < refs s no ->
  (forall p s', got s no p s' -> (exists r', table sb s' r' /\ (r <= S r')%nat) -> Q p s') -> wp E (inode_get (sb := sb) me no) Q s.
Proof.
  intros HT Hno Href Hroom HQ. unfold inode_get. apply wp_bind, wp_assert; [apply Z.gtb_lt; lia |].
  apply wp_bind, wp_assert; [apply Z.ltb_lt; lia |]. apply wp_bind, lock_tree_ok; [apply HT |].
  apply wp_bind, wp_get. cbn [tree_mem tree_head set_tree_lock tree_arena].
  pose proof (find_inode_ok no (tree_mem s) (tree_head s)) as Hf.
  destruct (find_inode no (tree_mem s) (tree_head s)) as [p|] eqn:Ef; apply wp_bind, wp_bind.
  - destruct Hf as (Hp & Hrc & Eno). assert (Er : refs s no = count (rc (tree_mem s p))) by (unfold refs; by rewrite Ef).
    apply wp_modify, wp_ret, wp_bind, unlock_tree_ok; [done |]. apply wp_ret.
    assert (Ei : i64 (count (rc (tree_mem s p)) + 1) = count (rc (tree_mem s p)) + 1) by (apply i64_small; lia).
    eapply HQ.
    + split; cbn; unfold upd_inode; rewrite ?Z.eqb_refl; cbn; try done; [lia |].
      intros q Hq. by rewrite (proj2 (Z.eqb_neq _ _)).
    + exists r. split; [| lia]. eapply (table_upd s _ r p _ HT Hp); cbn; unfold upd_inode; try done; rewrite ?Z.eqb_refl; cbn; try done; [| lia].
      intros q Hq. by rewrite (proj2 (Z.eqb_neq _ _)).
  - assert (Hnone : forall q, q ∈ tree_head s -> ino (tree_mem s q) <> no).
    { intros q Hq. apply Hf; [done |]. by apply (tb_rc _ _ _ HT). }
    assert (Er : refs s no = 0) by (unfold refs; by rewrite Ef). destruct r as [|r]; [lia |].
    destruct (obj_alloc_ok _ _ _ (tb_arena _ _ _ HT)) as (p & a & Ea & Hp0 & Hp & Ha).
    assert (Hpn : p ∉ tree_head s) by (intros Hin; apply Hp; by apply elem_of_list_to_set).
    eapply wp_lift; [exact Ea |]. apply wp_bind, wp_modify, wp_bind, wp_assert; [by rewrite (proj2 (Z.eqb_neq _ _)) |].
    apply wp_bind, wp_modify, wp_bind, wp_modify, wp_ret, wp_bind, unlock_tree_ok; [done |]. apply wp_ret. eapply HQ.
    + split; cbn; unfold upd_inode; rewrite ?Z.eqb_refl; cbn; try done.
      * left.
      * by rewrite Er.
      * intros q Hq. by rewrite (proj2 (Z.eqb_neq _ _)).
    + exists r. split; [| lia]. assert (Hmem : forall q, q ∈ tree_head s -> (q =? p) = false) by (intros q Hq; apply Z.eqb_neq; by intros ->).
      split; cbn; unfold upd_inode; try done.
      * apply NoDup_cons. split; [done | apply HT].
      * intros q [->|Hq]%elem_of_cons; [by rewrite Z.eqb_refl |]. rewrite (Hmem q Hq). by apply (tb_rc _ _ _ HT).
      * intros q [->|Hq]%elem_of_cons; [by rewrite Z.eqb_refl |]. rewrite (Hmem q Hq). by apply (tb_ino _ _ _ HT).
      * intros q1 q2 [->|H1]%elem_of_cons [->|H2]%elem_of_cons; rewrite ?Z.eqb_refl, ?(Hmem _ H1), ?(Hmem _ H2); cbn; try done.
        -- intros E1. by destruct (Hnone q2 H2).
        -- intros E1. by destruct (Hnone q1 H1).
        -- by apply (tb_inj _ _ _ HT).
Qed.

Lemma inode_share_ok E s r p (Q : Z -> itree B A -> Prop) : table sb s r -> p ∈ tree_head s -> count (rc (tree_mem s p)) < 2 ^ 63 - 1 ->
  (forall s', got s (ino (tree_mem s p)) p s' -> (exists r', table sb s' r') -> Q p s') -> wp E (inode_share me p) Q s.
Proof.
  intros HT Hp Hrc HQ. unfold inode_share. apply wp_bind, lock_tree_ok; [apply HT |].
  pose proof (tb_rc _ _ _ HT p Hp) as Hr. pose proof (refs_some s r p HT Hp) as Er.
  assert (Ei : i64 (count (rc (tree_mem s p)) + 1) = count (rc (tree_mem s p)) + 1) by (apply i64_small; lia).
  unfold load_inode. apply wp_bind, wp_bind, wp_get. cbn [tree_head set_tree_lock tree_mem]. rewrite bool_decide_eq_true_2 by done.
  apply wp_ret, wp_bind, wp_modify, wp_bind, unlock_tree_ok; [done |]. apply wp_ret. apply HQ.
  - split; cbn; unfold upd_inode; rewrite ?Z.eqb_refl; cbn; try done; [lia |].
    intros q Hq. by rewrite (proj2 (Z.eqb_neq _ _)).
  - exists r. eapply (table_upd s _ r p _ HT Hp); cbn; unfold upd_inode; try done; rewrite ?Z.eqb_refl; cbn; try done; [| lia].
    intros q Hq. by rewrite (proj2 (Z.eqb_neq _ _)).
Qed.

(** The end of inode_put, with the lock of the tree held: one reference less,
    and with the last one the inode leaves the table. *)
Definition put_tail (p : Z) : M (itree B A) unit :=
  i ← load_inode p;
  let '(gone, c) := decrement_rc (rc i) in
  store_inode p (set_rc c i);;
  (if (gone : bool) then
     modify (fun s => set_tree_head (filter (fun q => q <> p) (tree_head s)) s);;
     s ← get;
     '(_, a) ← lift (obj_free p (tree_arena s));
     modify (set_tree_arena a)
   else mret tt);;
  unlock_tree me.

(** The table without [p]. *)
Record dropped s (p : Z) s' : Prop := {
  dr_head : tree_head s' = filter (fun q => q <> p) (tree_head s);
  dr_others : forall q, q <> p -> tree_mem s' q = tree_mem s q;
  dr_frame : fs_cache s' = fs_cache s /\ tree_root s' = tree_root s /\ tty s' = tty s
}.

Lemma filter_list_to_set (p : Z) l : list_to_set (filter (fun q => q <> p) l) = (list_to_set l ∖ {[p]} : gset Z).
Proof.
  apply set_eq. intros q. rewrite elem_of_list_to_set, list_elem_of_filter, elem_of_difference, elem_of_list_to_set, elem_of_singleton. tauto.
Qed.

Lemma put_tail_last E s s1 r p (Q : unit -> itree B A -> Prop) : table sb s r -> p ∈ tree_head s -> tree_head s1 = tree_head s ->
  tree_arena s1 = tree_arena s -> tree_lock s1 = mkSpin true (Some me) -> count (rc (tree_mem s1 p)) = 1 ->
  (forall q, q <> p -> tree_mem s1 q = tree_mem s q) ->
  (forall s', dropped s1 p s' -> table sb s' (S r) -> Q tt s') -> wp E (put_tail p) Q s1.
Proof.
  intros HT Hp Eh Ea El Hrc Hmem HQ. unfold put_tail. apply wp_bind. unfold load_inode. apply wp_bind, wp_get.
  rewrite bool_decide_eq_true_2 by (by rewrite Eh). apply wp_ret. unfold decrement_rc. rewrite Hrc. change (i64 (1 - 1)) with 0. cbn [Z.leb Z.compare].
  assert (HL : p ∈ (list_to_set (tree_head s) : gset Z)) by (by apply elem_of_list_to_set).
  destruct (obj_free_ok _ _ _ p (tb_arena _ _ _ HT) HL) as (a & Efree & Ha).
  apply wp_bind, wp_modify, wp_bind, wp_bind, wp_modify, wp_bind, wp_get, wp_bind. cbn [tree_arena set_tree_head set_tree_mem].
  eapply wp_lift; [by rewrite Ea |]. apply wp_modify, unlock_tree_ok; [done |]. apply HQ.
  - split; cbn; [done | | done]. intros q Hq. unfold upd_inode. by rewrite (proj2 (Z.eqb_neq _ _)).
  - assert (Hin : forall q, q ∈ filter (fun q => q <> p) (tree_head s) -> q ∈ tree_head s /\ upd_inode p (set_rc (mkRc 0) (tree_mem s1 p)) (tree_mem s1) q = tree_mem s q).
    { intros q [Hne Hq]%list_elem_of_filter. split; [done |]. unfold upd_inode. rewrite (proj2 (Z.eqb_neq _ _)) by done. by apply Hmem. }
    split; cbn; rewrite ?Eh; try done.
    + apply NoDup_filter, HT.
    + intros q Hq. destruct (Hin q Hq) as [Hq' ->]. by apply (tb_rc _ _ _ HT).
    + intros q Hq. destruct (Hin q Hq) as [Hq' ->]. by apply (tb_ino _ _ _ HT).
    + intros q1 q2 H1 H2. destruct (Hin q1 H1) as [? ->], (Hin q2 H2) as [? ->]. by apply (tb_inj _ _ _ HT).
    + rewrite filter_list_to_set. exact Ha.
Qed.

(** One reference of several is given back: nothing else happens. *)
Lemma inode_put_shared_ok E s r ctx p (Q : unit -> itree B A -> Prop) : table sb s r -> p ∈ tree_head s -> 1 < count (rc (tree_mem s p)) ->
  (forall s', table sb s' r -> tree_head s' = tree_head s ->
    tree_mem s' p = set_rc (mkRc (count (rc (tree_mem s p)) - 1)) (tree_mem s p) -> (forall q, q <> p -> tree_mem s' q = tree_mem s q) ->
    fs_cache s' = fs_cache s /\ tree_root s' = tree_root s /\ tty s' = tty s -> Q tt s') ->
  wp E (inode_put (sb := sb) me ctx p) Q s.
Proof.
  intros HT Hp Hrc HQ. pose proof (tb_rc _ _ _ HT p Hp) as Hr. unfold inode_put. apply wp_bind, lock_tree_ok; [apply HT |].
  unfold load_inode. apply wp_bind, wp_bind, wp_get. cbn [tree_head set_tree_lock tree_mem]. rewrite bool_decide_eq_true_2 by done.
  apply wp_ret. rewrite (proj2 (Z.leb_gt _ _)) by lia. cbn [andb]. apply wp_bind, wp_ret.
  apply wp_bind, wp_bind, wp_get. cbn [tree_head set_tree_lock tree_mem]. rewrite bool_decide_eq_true_2 by done. apply wp_ret.
  unfold decrement_rc. rewrite i64_small by lia. rewrite (proj2 (Z.leb_gt _ _)) by lia.
  apply wp_bind, wp_modify, wp_bind, wp_ret, unlock_tree_ok; [done |].
  assert (Hmem : forall q, q <> p -> upd_inode p (set_rc (mkRc (count (rc (tree_mem s p)) - 1)) (tree_mem s p)) (tree_mem s) q = tree_mem s q).
  { intros q Hq. unfold upd_inode. by rewrite (proj2 (Z.eqb_neq _ _)). }
  apply HQ; cbn; try done; [| unfold upd_inode; by rewrite Z.eqb_refl].
  apply (table_upd s _ r p (set_rc (mkRc (count (rc (tree_mem s p)) - 1)) (tree_mem s p)) HT Hp); cbn; try done; [unfold upd_inode; by rewrite Z.eqb_refl | lia].
Qed.

(** The last reference to a file with links: the inode leaves memory. *)
Lemma inode_put_linked_ok E s r ctx p (Q : unit -> itree B A -> Prop) : table sb s r -> p ∈ tree_head s ->
  count (rc (tree_mem s p)) = 1 -> num_links (entry (tree_mem s p)) <> 0 ->
  (forall s', dropped s p s' -> table sb s' (S r) -> Q tt s') -> wp E (inode_put (sb := sb) me ctx p) Q s.
Proof.
  intros HT Hp Hrc Hl HQ. unfold inode_put. apply wp_bind, lock_tree_ok; [apply HT |].
  apply wp_bind. unfold load_inode at 1. apply wp_bind, wp_get. cbn [tree_head set_tree_lock tree_mem]. rewrite bool_decide_eq_true_2 by done.
  apply wp_ret. rewrite (proj2 (Z.eqb_neq (num_links _) 0)) by done. rewrite andb_false_r. apply wp_bind, wp_ret.
  fold (put_tail p). eapply (put_tail_last E s _ r p); [exact HT | done | done | done | done | done | done |].
  intros s' [D1 D2 D3] HT'. apply HQ; [by split | done].
Qed.

Lemma run_relock s0 p i v s l : run s0 p i v s -> run (set_tree_lock l s0) p i v (set_tree_lock l s).
Proof. intros []. by split. Qed.

Lemma set_type_wf e ty : entry_wf e -> 0 <= ty < 2 ^ 16 -> entry_wf (set_type ty e).
Proof. intros (H1 & H2 & H3 & H4 & H5 & H6 & H7 & H8) Hn. unfold entry_wf. cbn. split_and!; try done; lia. Qed.

(** The last reference to a file without links, as the entry in memory says: the
    file is destroyed. *)
Lemma inode_put_last_ok E s r ctx p w bl ops U (Q : unit -> itree B A -> Prop) : table sb s r -> p ∈ tree_head s ->
  let i := tree_mem s p in
  count (rc i) = 1 -> num_links (entry i) = 0 -> inode_lock_ i = init_spinlock ->
  bc_R (fs_cache s) (qv w (<[ctx := bl]> ops)) ->
  let e := entry (load_entry (sb := sb) w i) in
  type e <> INODE_INVALID -> file_wf sb e w -> synced bl U -> bitmap_start sb ∈ U -> to_block_no sb (ino i) ∈ U -> (length U <= 10)%nat ->
  (forall s' w1 bl', released sb w (file_blocks e w) w1 -> synced bl' U -> table sb s' (S r) ->
    tree_head s' = filter (fun q => q <> p) (tree_head s) -> (forall q, q <> p -> tree_mem s' q = tree_mem s q) ->
    bc_R (fs_cache s') (qv (write_entry sb (write_entry sb w1 (ino i) (cleared_entry e)) (ino i) (set_type INODE_INVALID (cleared_entry e)))
      (<[ctx := bl']> ops)) -> Q tt s') ->
  wp E (inode_put (sb := sb) me ctx p) Q s.
Proof.
  intros HT Hp i Hrc Hl Hlk HR e Hty Hw Hs Hbm Hib HU HQ. pose proof (tb_ino _ _ _ HT p Hp) as Hino. fold i in Hino.
  unfold inode_put. apply wp_bind, lock_tree_ok; [apply HT |]. set (sA := set_tree_lock (mkSpin true (Some me)) s).
  pose proof (run_start sA p i (qv w (<[ctx := bl]> ops)) Hp eq_refl HR) as H0.
  apply wp_bind. eapply load_inode_ok; [exact H0 |]. rewrite Hrc, Hl. cbn [andb Z.leb Z.eqb Z.compare]. apply wp_bind.
  set (i1 := load_entry (sb := sb) w i) in *.
  assert (Hi1 : rc i1 = rc i /\ ino i1 = ino i /\ loaded i1 = true).
  { unfold i1, load_entry. by destruct (loaded i) eqn:El. }
  destruct Hi1 as (Erc & Eino & Hld).
  apply wp_bind. eapply inode_lock_ok; [exact G | exact H0 | lia | lia | done | done |]. intros s1 H1. fold i1 in H1.
  apply wp_bind, unlock_tree_ok; [by rewrite (r_lock _ _ _ _ _ H1) |].
  pose proof (run_relock _ _ _ _ _ init_spinlock H1) as H2.
  apply wp_bind. eapply inode_clear_ok; [exact G | exact H2 | | done | exact Hs | done | by cbn; rewrite Eino | done |].
  { split; [done |]. cbn. rewrite Eino. lia. }
  cbn [entry set_inode_lock ino]. rewrite Eino. intros s3 w3 bl3 HF3 Hs3 H3.
  apply wp_bind. eapply modify_entry_ok; [exact H3 |]. intros s4 H4.
  apply wp_bind. eapply inode_sync_write_ok; [exact G | exact H4 | | | |].
  { split; [done |]. cbn. rewrite Eino. lia. }
  { apply set_type_wf; [apply cleared_entry_wf, Hw | done]. }
  { apply (Nat.le_trans _ (length U)); [| done]. apply synced_length, synced_add; [done | by cbn; rewrite Eino]. }
  cbn [entry set_entry set_inode_lock ino]. rewrite Eino. intros s5 H5.
  apply wp_bind. eapply inode_unlock_ok; [exact H5 | cbn; rewrite Erc; lia | done |]. intros s6 H6.
  apply lock_tree_ok; [by rewrite (r_lock _ _ _ _ _ H6) |]. fold (put_tail p).
  eapply (put_tail_last E s _ r p); [exact HT | done | by cbn; rewrite (r_head _ _ _ _ _ H6) | by cbn; rewrite (r_arena _ _ _ _ _ H6) | done | | |].
  - cbn. rewrite (r_mem _ _ _ _ _ H6). cbn. by rewrite Erc.
  - intros q Hq. cbn. by rewrite (r_others _ _ _ _ _ H6).
  - intros s' [D1 D2 D3] HT'. cbn in D1, D2, D3. rewrite (r_head _ _ _ _ _ H6) in D1. cbn in D1.
    eapply HQ; [exact HF3 | | exact HT' | exact D1 | |].
    2: { intros q Hq. rewrite D2 by done. by rewrite (r_others _ _ _ _ _ H6). }
    2: { destruct D3 as [-> _]. exact (r_R _ _ _ _ _ H6). }
    apply synced_add; [exact Hs3 | done].
Qed.
End get.
