(* ===== verification/InodeDir.v ===== *)
(** inode_lookup, inode_insert and inode_remove of fs/inode.c: a directory is a
    file of fixed-size entries. *)
From S2P Require Import Prelude Bytes CString Bitmap Locks Arena FsDefs Cache CacheSpec CacheLog CacheAlloc BlockCache Path Console Inode InodeSpec InodeMap InodeFile.

#[local] Arguments zget : simpl never.

(** * Directories as lists of entries *)

Definition dirent_at (c : list Z) (k : nat) : DirEntry := dirent_dec (slice c (16 * k) 16).
Definition dirents (c : list Z) : list DirEntry := dirent_at c <$> seq 0 (length c / 16).

(** A used entry with the name. *)
Definition named (nm : list Z) (d : DirEntry) : bool :=
  negb (inode_no d =? 0) && bool_decide (cstring 14 nm = cstring 14 (name d)).

(** The first entry with the name: its index and inode number; 0 if there is none. *)
Fixpoint dir_find (nm : list Z) (k : Z) (l : list DirEntry) : Z * option Z :=
  match l with
  | [] => (0, None)
  | d :: l' => if named nm d then (inode_no d, Some k) else dir_find nm (k + 1) l'
  end.

(** The first free entry, or the number of entries. *)
Fixpoint dir_slot (l : list DirEntry) : nat :=
  match l with
  | [] => 0
  | d :: l' => if inode_no d =? 0 then 0 else S (dir_slot l')
  end.

(** The entry [d] at index [k], at most the number of entries. *)
Definition dir_put (l : list DirEntry) (k : nat) (d : DirEntry) : list DirEntry := take k l ++ d :: drop (S k) l.

Definition new_dirent (nm : list Z) (no : Z) : DirEntry := mkDirEntry (u16 no) (strncpy_list nm 14).
Definition free_dirent : DirEntry := mkDirEntry 0 (replicate 14 0).

Lemma length_dirents c : length (dirents c) = (length c / 16)%nat.
Proof. unfold dirents. by rewrite length_fmap, length_seq. Qed.

Lemma lookup_dirents c k : (k < length c / 16)%nat -> dirents c !! k = Some (dirent_at c k).
Proof. intros Hk. unfold dirents. rewrite list_lookup_fmap, lookup_seq_lt by done. done. Qed.

Lemma cstring_bytes l : bytes l -> forall n, bytes (cstring n l).
Proof.
  intros Hb. induction Hb as [|c l Hc Hl IH]; intros [|n]; cbn; try constructor.
  destruct (c =? 0); constructor; [done | apply IH].
Qed.

Lemma new_dirent_wf nm no : bytes nm -> dirent_wf (new_dirent nm no).
Proof.
  intros Hb. unfold dirent_wf, new_dirent. cbn. rewrite strncpy_list_spec by lia. split_and!.
  - apply Z.mod_pos_bound. lia.
  - apply Z.mod_pos_bound. lia.
  - apply Forall_app. split; [| by apply bytes_replicate].
    by apply cstring_bytes.
  - rewrite length_app, length_replicate. pose proof (length_cstring nm (Z.to_nat 14)). change (Z.to_nat 14) with 14%nat in *. lia.
Qed.

Lemma cstring_new nm no : cstring 14 (name (new_dirent nm no)) = cstring 14 nm.
Proof.
  unfold new_dirent. cbn [name]. rewrite strncpy_list_spec by lia. change (Z.to_nat 14) with 14%nat.
  pose proof (length_cstring nm 14) as Hl. pose proof (cstring_no_nul nm 14) as H0. set (x := cstring 14 nm) in *.
  destruct (decide (length x = 14%nat)) as [E|E].
  - rewrite E, Nat.sub_diag. cbn [replicate]. rewrite app_nil_r. by apply cstring_id; [lia |].
  - replace (14 - length x)%nat with (S (13 - length x)) by lia. cbn [replicate]. by rewrite cstring_app by (lia || done).
Qed.

(** An entry written at its place changes this entry. *)
Lemma dirents_overwrite c k d : (length c mod 16 = 0)%nat -> (k <= length c / 16)%nat -> dirent_wf d ->
  dirents (overwrite c (16 * k) (dirent_enc d)) = dir_put (dirents c) k d /\
  (length (overwrite c (16 * k) (dirent_enc d)) mod 16 = 0)%nat.
Proof.
  intros Hm Hk Hd. pose proof (length_dirent_enc d Hd) as Hld. set (n := (length c / 16)%nat) in *.
  assert (Hlc : length c = (16 * n)%nat) by (pose proof (Nat.div_mod_eq (length c) 16); lia).
  assert (Hlo : length (overwrite c (16 * k) (dirent_enc d)) = (16 * Nat.max n (k + 1))%nat).
  { rewrite length_overwrite, Hld by lia. lia. }
  split; [| rewrite Hlo; rewrite Nat.mul_comm; by apply Nat.Div0.mod_mul].
  assert (Hdiv : (length (overwrite c (16 * k) (dirent_enc d)) / 16 = Nat.max n (k + 1))%nat).
  { rewrite Hlo, Nat.mul_comm. by apply Nat.div_mul. }
  apply list_eq. intros j. destruct (decide (j < Nat.max n (k + 1))%nat) as [Hj|Hj].
  2: { rewrite (lookup_ge_None_2 (dirents _)) by (rewrite length_dirents, Hdiv; lia). symmetry. apply lookup_ge_None_2.
       unfold dir_put. rewrite length_app, length_take. cbn [length]. rewrite length_drop, length_dirents. fold n. lia. }
  rewrite lookup_dirents by (rewrite Hdiv; lia). unfold dir_put.
  assert (Hlt : length (take k (dirents c)) = k) by (rewrite length_take, length_dirents; fold n; lia).
  unfold dirent_at. destruct (decide (j = k)) as [->|Hne].
  - rewrite lookup_app_r, Hlt, Nat.sub_diag by lia. cbn [lookup list_lookup]. f_equal. unfold overwrite, slice.
    rewrite drop_app_ge by (rewrite length_take; lia). rewrite length_take, Nat.min_l, Nat.sub_diag, drop_0 by lia.
    rewrite take_app_le, take_ge by lia. rewrite <- (app_nil_r (dirent_enc d)). by apply dirent_dec_enc.
  - assert (Hjn : (j < n)%nat) by lia. assert (Es : slice (overwrite c (16 * k) (dirent_enc d)) (16 * j) 16 = slice c (16 * j) 16).
    { apply list_eq. intros x. destruct (decide (x < 16)%nat) as [Hx|Hx]; [| rewrite !lookup_ge_None_2; [done | unfold slice; rewrite length_take; lia..]].
      unfold slice. rewrite !lookup_take_lt, !lookup_drop by done.
      assert (Hi : (16 * j + x < length c)%nat) by lia.
      rewrite <- (Nat2Z.id (16 * j + x)). rewrite !lookup_zget by lia. f_equal.
      rewrite zget_overwrite by lia. rewrite Hld. by rewrite decide_False by lia. }
    rewrite Es. fold (dirent_at c j). rewrite <- lookup_dirents by (fold n; lia).
    destruct (decide (j < k)%nat).
    + by rewrite lookup_app_l, lookup_take_lt by lia.
    + rewrite lookup_app_r, Hlt by lia. destruct (j - k)%nat as [|m] eqn:Ejk; [lia |].
      change ((d :: drop (S k) (dirents c)) !! S m) with (drop (S k) (dirents c) !! m). rewrite lookup_drop. f_equal. lia.
Qed.

(** ** Names *)

Lemma dir_find_skip nm l : forall k, (forall d, d ∈ l -> named nm d = false) -> dir_find nm k l = (0, None).
Proof.
  induction l as [|d l IH]; intros k Hl; [done |]. cbn. rewrite (Hl d) by left. apply IH. intros x Hx. apply Hl. by right.
Qed.

Lemma dir_find_none nm l : forall k, dir_find nm k l = (0, None) -> forall d, d ∈ l -> named nm d = false.
Proof.
  induction l as [|d l IH]; intros k Hf x Hx; [by apply not_elem_of_nil in Hx |]. cbn in Hf.
  destruct (named nm d) eqn:Ed; [done |]. apply elem_of_cons in Hx as [->|Hx]; [done | by eapply IH].
Qed.

(** The new entry is found under its name, and every other name as before. *)
Lemma dir_find_insert nm nm' no l : u16 no <> 0 -> forall k,
  dir_find nm' k (dir_put l (dir_slot l) (new_dirent nm no)) =
  if decide (cstring 14 nm' = cstring 14 nm) then
    match dir_find nm' k (take (dir_slot l) l) with
    | (_, None) => (u16 no, Some (k + Z.of_nat (dir_slot l)))
    | r => r
    end
  else dir_find nm' k l.
Proof.
  intros Hno. assert (Hnamed : named nm' (new_dirent nm no) = bool_decide (cstring 14 nm' = cstring 14 nm)).
  { unfold named. rewrite cstring_new. unfold new_dirent. cbn [inode_no]. by rewrite (proj2 (Z.eqb_neq _ _)). }
  induction l as [|d l IH]; intros k; cbn [dir_slot].
  - unfold dir_put. cbn [take drop app dir_find]. rewrite Hnamed. case_decide as E; [rewrite bool_decide_eq_true_2 by done; f_equal; f_equal; lia |].
    by rewrite bool_decide_eq_false_2.
  - destruct (inode_no d =? 0) eqn:Ed.
    + unfold dir_put. cbn [take drop app dir_find]. rewrite Hnamed. case_decide as E.
      * rewrite bool_decide_eq_true_2 by done. f_equal. f_equal. lia.
      * rewrite bool_decide_eq_false_2 by done. replace (named nm' d) with false by (unfold named; by rewrite Ed). done.
    + change (dir_put (d :: l) (S (dir_slot l)) (new_dirent nm no)) with (d :: dir_put l (dir_slot l) (new_dirent nm no)).
      cbn [dir_find take]. destruct (named nm' d); [by case_decide |]. rewrite IH. case_decide; [| done].
      destruct (dir_find nm' (k + 1) (take (dir_slot l) l)) as [? [?|]]; [done |]. do 2 f_equal. lia.
Qed.

(** Freeing an entry hides it and nothing else. *)
Lemma dir_find_remove nm l j d : l !! j = Some d -> forall k,
  named nm d = false -> dir_find nm k (dir_put l j free_dirent) = dir_find nm k l.
Proof.
  revert l. induction j as [|j IH]; intros [|x l] Hj k Hd; try done.
  - injection Hj as ->. unfold dir_put. cbn. by rewrite Hd.
  - change (dir_put (x :: l) (S j) free_dirent) with (x :: dir_put l j free_dirent). cbn [dir_find].
    destruct (named nm x); [done |]. by apply IH.
Qed.

(** * The operations *)

Section dir.
Context {B A : Type} {sb : SuperBlock} `{BC : BlockCache sb B} `{OA : ObjectArena A} (G : geometry sb) (me : Z) (killed : bool).
Implicit Types (s : itree B A) (w : Z -> list Z) (ops : gmap Z (list Z)) (i : Inode).

(** A directory: its size is a multiple of the size of an entry. *)
Record dir_wf (e : InodeEntry) w : Prop := {
  dw_file : file_wf sb e w;
  dw_type : type e = INODE_DIRECTORY;
  dw_size : num_bytes e mod 16 = 0
}.

Definition entries (e : InodeEntry) w : list DirEntry := dirents (content e w).

Lemma length_entries e w : dir_wf e w -> Z.of_nat (length (entries e w)) * 16 = num_bytes e.
Proof.
  intros [Hw _ Hm]. unfold entries. rewrite length_dirents, length_content.
  assert (0 <= num_bytes e) by (destruct (fw_entry _ _ _ Hw) as (_ & _ & _ & _ & ? & _); lia).
  rewrite Nat2Z.inj_div, Z2Nat.id by lia. change (Z.of_nat 16) with 16. dlia.
Qed.

Lemma dir_entries_length e w : dir_wf e w -> dir_entries e = length (entries e w).
Proof.
  intros Hd. pose proof (length_entries e w Hd) as Hl. unfold dir_entries, sizeof_DirEntry. dlia.
Qed.

Lemma read_dentry_ok E s0 p i w ops (k : nat) dentry s (Q : list Z -> itree B A -> Prop) :
  run s0 p i (qv w ops) s -> dir_wf (entry i) w -> (k < length (entries (entry i) w))%nat -> length dentry = 16%nat ->
  (forall s' bs, run s0 p i (qv w ops) s' -> length bs = 16%nat -> dirent_dec bs = dirent_at (content (entry i) w) k -> Q bs s') ->
  wp E (read_dentry me killed p (16 * Z.of_nat k) dentry) Q s.
Proof.
  intros H Hd Hk Hl HQ. pose proof (length_entries _ _ Hd) as Hlen. destruct Hd as [Hw Hty Hm]. unfold read_dentry.
  apply wp_bind. eapply inode_read_ok; [exact G | exact H | done | by rewrite Hty | lia | done |].
  intros s1 H1. apply wp_ret. rewrite Z.min_l by (unfold sizeof_DirEntry; lia). unfold sizeof_DirEntry. change (Z.to_nat 16) with 16%nat.
  rewrite splice_full by (rewrite length_file_bytes; lia). apply HQ; [done | by rewrite length_file_bytes |].
  unfold dirent_at. f_equal. unfold slice, content. replace (Z.to_nat (num_bytes (entry i))) with (16 * k + (16 + (Z.to_nat (num_bytes (entry i)) - 16 * k - 16)))%nat by lia.
  rewrite !file_bytes_app. rewrite drop_app_ge by (rewrite length_file_bytes; lia). rewrite length_file_bytes, Nat.sub_diag, drop_0.
  rewrite take_app_le, take_ge by (rewrite length_file_bytes; lia). f_equal. lia.
Qed.

Lemma lookup_loop_ok E s0 p i w ops nm (Q : Z * option Z -> itree B A -> Prop) : dir_wf (entry i) w -> Z.of_nat (length nm) < 2 ^ 20 ->
  forall n (k : nat) dentry s, (k + n = length (entries (entry i) w))%nat -> length dentry = 16%nat -> run s0 p i (qv w ops) s ->
  (forall s', run s0 p i (qv w ops) s' -> Q (dir_find nm (Z.of_nat k) (drop k (entries (entry i) w))) s') ->
  wp E (lookup_loop me killed p nm n (16 * Z.of_nat k) dentry) Q s.
Proof.
  intros Hd Hnm. induction n as [|n IH]; intros k dentry s Hk Hl H HQ; cbn [lookup_loop].
  { rewrite drop_ge in HQ by lia. by apply wp_ret, HQ. }
  apply wp_bind. eapply read_dentry_ok; [exact H | done | lia | done |]. intros s1 bs H1 Hbs Ebs.
  assert (Hlk : entries (entry i) w !! k = Some (dirent_at (content (entry i) w) k)).
  { unfold entries. apply lookup_dirents. rewrite <- length_dirents. fold (entries (entry i) w). lia. }
  rewrite (drop_S _ _ _ Hlk) in HQ. cbn [dir_find] in HQ. rewrite Ebs. set (d := dirent_at (content (entry i) w) k) in *.
  replace (negb (inode_no d =? 0) && (strncmp_list nm (FsDefs.name d) FILE_NAME_MAX_LENGTH =? 0)) with (named nm d).
  2: { unfold named, FILE_NAME_MAX_LENGTH. f_equal. pose proof (strncmp_list_spec nm (name d) 14 Hnm ltac:(lia)) as Hc.
       change (Z.to_nat 14) with 14%nat in Hc. destruct (Z.eqb_spec (strncmp_list nm (name d) 14) 0) as [E0|E0].
       - apply bool_decide_eq_true_2. by apply Hc.
       - apply bool_decide_eq_false_2. intros E1. by apply E0, Hc. }
  destruct (named nm d).
  - apply wp_ret. unfold sizeof_DirEntry. rewrite (Z.mul_comm 16), Z.div_mul by lia. by apply HQ.
  - unfold sizeof_DirEntry. replace (16 * Z.of_nat k + 16) with (16 * Z.of_nat (S k)) by lia.
    apply IH; [lia | done | done |]. intros s2 H2. replace (Z.of_nat (S k)) with (Z.of_nat k + 1) by lia. by apply HQ.
Qed.

Lemma inode_lookup_ok E s0 p i w ops junk nm s (Q : Z * option Z -> itree B A -> Prop) : run s0 p i (qv w ops) s -> dir_wf (entry i) w ->
  Z.of_nat (length nm) < 2 ^ 20 -> length junk = 16%nat ->
  (forall s', run s0 p i (qv w ops) s' -> Q (dir_find nm 0 (entries (entry i) w)) s') ->
  wp E (inode_lookup me killed junk p nm) Q s.
Proof.
  intros H Hd Hnm Hj HQ. unfold inode_lookup. apply wp_bind. eapply load_inode_ok; [exact H |].
  apply wp_bind, wp_assert; [by rewrite (dw_type _ _ Hd) |]. rewrite (dir_entries_length _ _ Hd).
  apply (lookup_loop_ok E s0 p i w ops nm Q Hd Hnm _ 0 junk s); [lia | done | done |]. exact HQ.
Qed.

Lemma insert_loop_ok E s0 p i w ops (Q : Z -> itree B A -> Prop) : dir_wf (entry i) w ->
  forall n (k : nat) dentry s, (k + n = length (entries (entry i) w))%nat -> length dentry = 16%nat -> run s0 p i (qv w ops) s ->
  (forall s', run s0 p i (qv w ops) s' -> Q (16 * Z.of_nat (k + dir_slot (drop k (entries (entry i) w)))) s') ->
  wp E (insert_loop me killed p n (16 * Z.of_nat k) dentry) Q s.
Proof.
  intros Hd. induction n as [|n IH]; intros k dentry s Hk Hl H HQ; cbn [insert_loop].
  { rewrite drop_ge, Nat.add_0_r in HQ by lia. by apply wp_ret, HQ. }
  apply wp_bind. eapply read_dentry_ok; [exact H | done | lia | done |]. intros s1 bs H1 Hbs Ebs.
  assert (Hlk : entries (entry i) w !! k = Some (dirent_at (content (entry i) w) k)).
  { unfold entries. apply lookup_dirents. rewrite <- length_dirents. fold (entries (entry i) w). lia. }
  rewrite (drop_S _ _ _ Hlk) in HQ. cbn [dir_slot] in HQ. rewrite Ebs.
  destruct (inode_no (dirent_at (content (entry i) w) k) =? 0).
  - rewrite Nat.add_0_r in HQ. by apply wp_ret, HQ.
  - unfold sizeof_DirEntry. replace (16 * Z.of_nat k + 16) with (16 * Z.of_nat (S k)) by lia.
    apply IH; [lia | done | done |]. intros s2 H2. rewrite Nat.add_succ_comm. by apply HQ.
Qed.

Lemma dir_slot_le l : (dir_slot l <= length l)%nat.
Proof. induction l as [|d l IH]; cbn; [lia |]. destruct (inode_no d =? 0); lia. Qed.

(** What a change of one entry needs. *)
Record can_edit i w (bl : list Z) : Prop := {
  ce_inode : inode_ok (sb := sb) i;
  ce_dir : dir_wf (entry i) w;
  ce_meta : meta_used sb w;
  ce_disk : disk_entry sb w (ino i) = entry i;
  ce_free : (2 <= length (free_list sb w))%nat;
  ce_nodup : NoDup bl;
  ce_log : (length bl + 4 <= 10)%nat
}.

(** The directory after a write of the entry [k]. *)
Lemma write_entry_ok E s0 p i w ctx bl ops (k : nat) d s (Q : Z -> itree B A -> Prop) :
  run s0 p i (qv w (<[ctx := bl]> ops)) s -> can_edit i w bl -> (k <= length (entries (entry i) w))%nat ->
  16 * Z.of_nat k + 16 < 2 ^ 16 -> dirent_wf d ->
  (forall s' e' w' bl', updated (sb := sb) (entry i) w (ino i) (overwrite (content (entry i) w) (16 * k) (dirent_enc d)) e' w' ->
    dir_wf e' w' -> entries e' w' = dir_put (entries (entry i) w) k d ->
    run s0 p (set_entry e' i) (qv w' (<[ctx := bl']> ops)) s' -> Q 16 s') ->
  wp E (inode_write me ctx p (dirent_enc d) (16 * Z.of_nat k)) Q s.
Proof.
  intros H [Hi Hd Hm Hdisk Hfree Hnd Hlog] Hk H16 Hdw HQ. pose proof (length_entries _ _ Hd) as Hlen.
  pose proof (length_dirent_enc d Hdw) as Hld. destruct Hd as [Hw Hty Hmod].
  assert (Hbytes : bytes (dirent_enc d)) by (unfold dirent_enc; apply Forall_app; split; [apply le_enc_bytes | apply Hdw]).
  eapply (inode_write_ok G me E s0 p i w ctx bl ops (16 * Z.of_nat k) (dirent_enc d) 1); [exact H | | rewrite Hld; lia |].
  { split; rewrite ?Hld; try done; [by rewrite Hty | lia | | | unfold block_fuel; lia | lia].
    - unfold INODE_MAX_BYTES, BLOCK_SIZE. change INODE_MAX_BLOCKS with 140. lia.
    - unfold spans, BLOCK_SIZE. dlia. }
  replace (Z.to_nat (16 * Z.of_nat k)) with (16 * k)%nat by lia. rewrite Hld.
  assert (Hlc : (length (content (entry i) w) mod 16 = 0)%nat).
  { rewrite length_content, <- Hlen, Z2Nat.inj_mul, Nat2Z.id by lia. change (Z.to_nat 16) with 16%nat. by apply Nat.Div0.mod_mul. }
  assert (Hkc : (k <= length (content (entry i) w) / 16)%nat) by (rewrite <- length_dirents; exact Hk).
  destruct (dirents_overwrite _ _ _ Hlc Hkc Hdw) as [Ee Em].
  intros s' e' w' bl' Hup H'. eapply HQ; [exact Hup | | | exact H'].
  - split; [apply Hup | destruct (up_type _ _ _ _ _ _ Hup) as [-> _]; done |].
    pose proof (up_content _ _ _ _ _ _ Hup) as Ec. apply (f_equal length) in Ec. rewrite length_content in Ec.
    rewrite <- Ec in Em. assert (0 <= num_bytes e') by (destruct (fw_entry _ _ _ (up_wf _ _ _ _ _ _ Hup)) as (_ & _ & _ & _ & ? & _); lia).
    apply (f_equal Z.of_nat) in Em. rewrite Nat2Z.inj_mod, Z2Nat.id in Em by lia. exact Em.
  - unfold entries. by rewrite (up_content _ _ _ _ _ _ Hup).
Qed.

Lemma inode_insert_ok E s0 p i w ctx bl ops junk nm no s (Q : Z -> itree B A -> Prop) :
  run s0 p i (qv w (<[ctx := bl]> ops)) s -> can_edit i w bl -> bytes nm -> length junk = 16%nat -> num_bytes (entry i) + 16 < 2 ^ 16 ->
  let k := dir_slot (entries (entry i) w) in
  (forall s' e' w' bl', updated (sb := sb) (entry i) w (ino i) (overwrite (content (entry i) w) (16 * k) (dirent_enc (new_dirent nm no))) e' w' ->
    dir_wf e' w' -> entries e' w' = dir_put (entries (entry i) w) k (new_dirent nm no) ->
    run s0 p (set_entry e' i) (qv w' (<[ctx := bl']> ops)) s' -> Q (Z.of_nat k) s') ->
  wp E (inode_insert me killed junk ctx p nm no) Q s.
Proof.
  intros H Hce Hnm Hj Hsz k HQ. pose proof (ce_dir _ _ _ Hce) as Hd. pose proof (length_entries _ _ Hd) as Hlen.
  pose proof (dir_slot_le (entries (entry i) w)) as Hk. fold k in Hk.
  unfold inode_insert. apply wp_bind. eapply load_inode_ok; [exact H |].
  apply wp_bind, wp_assert; [by rewrite (dw_type _ _ Hd) |]. rewrite (dir_entries_length _ _ Hd). apply wp_bind.
  apply (insert_loop_ok E s0 p i w (<[ctx := bl]> ops) _ Hd _ 0 junk s); [lia | done | done |].
  cbn [Nat.add drop]. fold k. intros s1 H1. apply wp_bind.
  eapply (write_entry_ok E s0 p i w ctx bl ops k); [exact H1 | done | done | lia | by apply new_dirent_wf |].
  intros s2 e2 w2 bl2 Hup Hd2 He2 H2. apply wp_ret. unfold sizeof_DirEntry. rewrite Z.mul_comm, Z.div_mul by lia. by eapply HQ.
Qed.

Lemma free_dirent_enc : dirent_enc free_dirent = replicate 16 0.
Proof. done. Qed.

Lemma inode_remove_ok E s0 p i w ctx bl ops (k : nat) s (Q : unit -> itree B A -> Prop) :
  run s0 p i (qv w (<[ctx := bl]> ops)) s -> can_edit i w bl -> num_bytes (entry i) < 2 ^ 16 -> Z.of_nat k < 2 ^ 59 ->
  (forall s' e' w' bl', (k < length (entries (entry i) w))%nat ->
    updated (sb := sb) (entry i) w (ino i) (overwrite (content (entry i) w) (16 * k) (dirent_enc free_dirent)) e' w' ->
    dir_wf e' w' -> entries e' w' = dir_put (entries (entry i) w) k free_dirent ->
    run s0 p (set_entry e' i) (qv w' (<[ctx := bl']> ops)) s' -> Q tt s') ->
  ((length (entries (entry i) w) <= k)%nat -> Q tt s) ->
  wp E (inode_remove me ctx p (Z.of_nat k)) Q s.
Proof.
  intros H Hce Hsz Hk64 HQ1 HQ2. pose proof (ce_dir _ _ _ Hce) as Hd. pose proof (length_entries _ _ Hd) as Hlen.
  unfold inode_remove. apply wp_bind. eapply load_inode_ok; [exact H |].
  apply wp_bind, wp_assert; [by rewrite (dw_type _ _ Hd) |]. unfold sizeof_DirEntry. rewrite u64_small by lia. rewrite Z.geb_leb.
  destruct (Z.leb_spec (num_bytes (entry i)) (Z.of_nat k * 16)) as [Hge|Hlt].
  - apply wp_ret, HQ2. lia.
  - apply wp_bind. rewrite <- free_dirent_enc, Z.mul_comm.
    eapply (write_entry_ok E s0 p i w ctx bl ops k); [exact H | done | lia | | |].
    + lia.
    + unfold dirent_wf. split_and!; try done. apply bytes_replicate. split; lia.
    + intros s2 e2 w2 bl2 Hup Hd2 He2 H2. apply wp_ret. eapply HQ1; [lia | done..].
Qed.
End dir.
