(* ===== verification/InodeTheorems.v ===== *)
(** The theorems about the inode layer, and a small file system on which they
    are exercised: the 64 blocks of [small_sb] with a root directory (inode 1)
    and a file of 600 bytes (inode 2), under the block cache of fs/cache.c. *)
From S2P Require Import Prelude Bytes CString Bitmap Locks PhysMem Arena FsDefs Cache CacheSpec CacheLog CacheCrash CacheTxn CacheProtocol CacheAlloc CacheTheorems BlockCache Path Console Inode InodeSpec InodeMap InodeFile InodeClear InodeTable InodeDir.

#[local] Arguments zget : simpl never.

(** * A check of one file *)

(** The conditions of [file_wf] on all 140 block numbers of a file. *)
Definition owned_b (sb : SuperBlock) (w : Z -> list Z) (no : Z) : bool :=
  (bitmap_start sb <? no) && (no <? num_blocks sb) && used_bit sb w no.

Definition fsck_file (sb : SuperBlock) (e : InodeEntry) (w : Z -> list Z) : bool :=
  let bs := block_of e w <$> seqZ 0 140 in
  bool_decide (entry_wf e) && (num_bytes e <=? INODE_MAX_BYTES) &&
  forallb (fun i => (num_bytes e <=? i * BLOCK_SIZE) || negb (block_of e w i =? 0)) (seqZ 0 140) &&
  forallb (owned_b sb w) (nonzero bs) && bool_decide (NoDup (nonzero bs)) &&
  ((indirect e =? 0) || owned_b sb w (indirect e) && bool_decide (indirect e ∉ bs)).

Lemma owned_b_ok sb w no : owned_b sb w no = true -> owned sb w no.
Proof. unfold owned_b, owned, data_block. rewrite !andb_true_iff, !Z.ltb_lt. tauto. Qed.

(** Distinct members of a filtered list come from one position. *)
Lemma nonzero_inj (f : Z -> Z) (l : list Z) i j : NoDup (nonzero (f <$> l)) -> NoDup l -> i ∈ l -> j ∈ l ->
  f i <> 0 -> f i = f j -> i = j.
Proof.
  induction l as [|x l IH]; intros Hn Hd Hi Hj Hne E; [by apply not_elem_of_nil in Hi |].
  apply NoDup_cons in Hd as [Hx Hd].
  assert (Hmem : forall k, k ∈ l -> f k = f x -> f x <> 0 -> False).
  { intros k Hk Ek Hnz. rewrite fmap_cons in Hn. unfold nonzero in Hn. rewrite filter_cons_True in Hn by done.
    apply NoDup_cons in Hn as [Hn _]. apply Hn. apply list_elem_of_filter. split; [done |].
    rewrite <- Ek. by apply list_elem_of_fmap_2. }
  assert (Hn' : NoDup (nonzero (f <$> l))).
  { rewrite fmap_cons in Hn. unfold nonzero in *. rewrite filter_cons in Hn. case_decide; [by apply NoDup_cons in Hn as [_ ?] | done]. }
  apply elem_of_cons in Hi as [->|Hi], Hj as [->|Hj]; [done | | | by apply IH].
  - destruct (Hmem j Hj); congruence.
  - destruct (Hmem i Hi); congruence.
Qed.

Lemma fsck_file_ok sb e w : fsck_file sb e w = true -> file_wf sb e w.
Proof.
  unfold fsck_file. rewrite !andb_true_iff, !bool_decide_eq_true. intros (((((He & Hsz) & Hmap) & Hown) & Hnd) & Hind).
  set (bs := block_of e w <$> seqZ 0 140) in *. apply Z.leb_le in Hsz. rewrite forallb_forall in Hmap, Hown.
  assert (Hin : forall i, 0 <= i < 140 -> i ∈ seqZ 0 140) by (intros i Hi; apply elem_of_seqZ; lia).
  assert (Hnz : forall i, 0 <= i < 140 -> block_of e w i <> 0 -> block_of e w i ∈ nonzero bs).
  { intros i Hi Hne. apply list_elem_of_filter. split; [done |]. unfold bs. apply list_elem_of_fmap_2. by apply Hin. }
  change INODE_MAX_BYTES with 71680 in *. split; try done; change INODE_MAX_BLOCKS with 140.
  - intros i H0 H1. unfold BLOCK_SIZE in *. specialize (Hmap i). rewrite <- list_elem_of_In in Hmap.
    specialize (Hmap (Hin i ltac:(lia))). rewrite (proj2 (Z.leb_gt _ _)) in Hmap by lia. cbn in Hmap.
    by destruct (Z.eqb_spec (block_of e w i) 0).
  - intros i Hi Hne. apply owned_b_ok, Hown. apply list_elem_of_In. by apply Hnz.
  - intros i j Hi Hj Hne E. apply (nonzero_inj (block_of e w) (seqZ 0 140)); auto using NoDup_seqZ.
  - intros Hne. rewrite (proj2 (Z.eqb_neq _ _)) in Hind by done. cbn [orb] in Hind.
    apply andb_true_iff in Hind as [Ho Hni]. apply bool_decide_eq_true in Hni. split; [by apply owned_b_ok |].
    intros i Hi E. apply Hni. rewrite <- E. unfold bs. apply list_elem_of_fmap_2. by apply Hin.
Qed.

(** * A small file system *)

Lemma small_geometry : geometry small_sb.
Proof. split; vm_compute; repeat split; discriminate. Qed.

Definition root_entry : InodeEntry := mkEntry 1 0 0 1 32 (24 :: replicate 11 0) 0.
Definition file_entry : InodeEntry := mkEntry 2 0 0 1 600 (25 :: 26 :: replicate 10 0) 0.

Definition pad (l : list Z) : list Z := take 512 (l ++ replicate 512 0).

(** "." and ".." of the root directory. *)
Definition root_block : list Z := pad (dirent_enc (new_dirent [46] 1) ++ dirent_enc (new_dirent [46; 46] 1)).

Definition inode_block : list Z := put_entry (put_entry zero_block 1 root_entry) 2 file_entry.

(** Blocks 0 to 26 are in use. *)
Definition bitmap : list Z := pad [255; 255; 255; 7].

Definition image (n : Z) : list Z :=
  if n =? 22 then inode_block else if n =? 23 then bitmap else if n =? 24 then root_block
  else if (n =? 25) || (n =? 26) then replicate 512 120 else zero_block.

#[local] Instance is_byte_dec b : Decision (is_byte b).
Proof. unfold is_byte. apply _. Defined.
#[local] Instance bytes_dec l : Decision (bytes l).
Proof. unfold bytes. apply _. Defined.

Lemma block_wf_check d : bool_decide (bytes d) && (length d =? 512)%nat = true -> block_wf d.
Proof. rewrite andb_true_iff, bool_decide_eq_true, Nat.eqb_eq. done. Qed.

Lemma image_wf n : block_wf (image n).
Proof.
  unfold image. repeat (match goal with |- block_wf (if ?b then _ else _) => destruct b end);
    first [apply zero_block_wf | apply block_wf_check; by vm_compute].
Qed.

(** The block cache of the kernel, booted on an image with an empty log, inside
    the operation 1. *)
#[export] Instance KC (sb : SuperBlock) : BlockCache sb (bcache (Arena pmem)) := kernel_cache 0 70 ltac:(lia) sb.

Lemma boot_cache (sb : SuperBlock) (img : Z -> list Z) : (forall n, block_wf (img n)) -> img (sb_log_start sb) = zero_block ->
  0 <= sb_log_start sb -> 11 <= num_log_blocks sb < 2 ^ 32 ->
  exists c : bcache (Arena pmem), bc_R (sb := sb) c (qv img (<[1 := []]> ∅)).
Proof.
  intros Hw Hz H0 Hlog.
  assert (Hhdr : header_ok sb (header_dec (img (sb_log_start sb)))).
  { rewrite Hz. split; [apply header_dec_wf, zero_block_wf | by vm_compute | | |].
    - change (hdr_num_blocks (header_dec zero_block)) with 0. lia.
    - change (recorded (header_dec zero_block)) with ([] : list Z). apply NoDup_nil_2.
    - intros b. change (recorded (header_dec zero_block)) with ([] : list Z). by intros ?%not_elem_of_nil. }
  destruct (init_bcache_txn 0 70 sb (mkDev img []) block_arena Hw block_arena_roomy Hhdr ltac:(lia))
    as (c0 & _ & Esb & Eu & Esz & _ & HT).
  assert (Er : recover sb (medium (mkDev img [])) = img) by (apply recover_clear; cbn [medium]; by rewrite Hz).
  rewrite Er in HT. set (a := mkSpec img (device c0) ∅ ∅) in *.
  assert (W : wp no_panic (cache_begin_op 0 1) (fun _ c => shows 70 sb c (qv img (<[1 := []]> ∅))) c0).
  2: { destruct (wp_returns _ _ _ W) as ([] & c & _ & Hc). by exists c. }
  eapply cache_begin_op_ok; [exact HT | by apply not_elem_of_empty | done | |].
  { rewrite Eu, Esz. unfold MIN. change LOG_MAX_SIZE with 63. destruct (Z.leb_spec (num_log_blocks sb - 1) 63); lia. }
  intros c HT' Eo _ Esb' _. exists a, ({[1]} ∪ ∅). split_and!; [done | congruence | done | done | |].
  - intros ctx bl. cbn. rewrite lookup_insert_Some. intros [[<- <-]|[_ ?%lookup_empty_Some]]; [| done].
    split; [by apply elem_of_union_l, elem_of_singleton |]. eexists. rewrite Eo. split; [apply lookup_insert_eq | done].
  - intros p no. cbn. by intros ?%lookup_empty_Some.
Qed.

Lemma image_cache : exists c : bcache (Arena pmem), bc_R (sb := small_sb) c (qv image (<[1 := []]> ∅)).
Proof. apply boot_cache; [apply image_wf | done | done | by vm_compute]. Qed.

(** sizeof(Inode) = 128. *)
Definition inode_arena : Arena pmem := mkArena init_spinlock twelve_pages 128 31 [] 0 0.

(** Inode 1 at address 10 and inode 2 at address 20, both locked and loaded. *)
Definition held_inode (no : Z) (e : InodeEntry) : Inode := mkInode (mkSpin true (Some 0)) (mkRc 1) no true e.
Definition image_tree (c : bcache (Arena pmem)) : itree (bcache (Arena pmem)) (Arena pmem) :=
  mkTree c init_spinlock inode_arena [10; 20] (fun p => if p =? 10 then held_inode 1 root_entry else held_inode 2 file_entry) 10 init_console.

Lemma root_entry_wf : file_wf small_sb root_entry image.
Proof. apply fsck_file_ok. by vm_compute. Qed.

Lemma file_entry_wf : file_wf small_sb file_entry image.
Proof. apply fsck_file_ok. by vm_compute. Qed.

Lemma used_below sb img n : forallb (used_bit sb img) (seqZ 0 n) = true -> forall m, 0 <= m < n -> used_bit sb img m = true.
Proof. rewrite forallb_forall. intros Hall m Hm. apply Hall, list_elem_of_In, elem_of_seqZ. lia. Qed.

Lemma image_meta : meta_used small_sb image.
Proof.
  intros m Hm. apply (used_below _ _ 24); [by vm_compute | cbn in Hm; lia].
Qed.

Lemma image_free : length (free_list small_sb image) = 37%nat.
Proof. by vm_compute. Qed.

(** * Properties *)

Lemma file_bytes_slice e w offset n : 0 <= offset -> Z.of_nat n <= num_bytes e - offset ->
  file_bytes e w offset n = slice (content e w) (Z.to_nat offset) n.
Proof.
  intros H0 Hn. unfold slice, content.
  replace (Z.to_nat (num_bytes e)) with (Z.to_nat offset + (n + (Z.to_nat (num_bytes e) - Z.to_nat offset - n)))%nat by lia.
  rewrite !file_bytes_app. rewrite drop_app_ge by (rewrite length_file_bytes; lia). rewrite length_file_bytes, Nat.sub_diag, drop_0.
  rewrite take_app_le, take_ge by (rewrite length_file_bytes; lia). f_equal. lia.
Qed.

Lemma destroyed_entry {sb} (G : geometry sb) w F w1 no e : released sb w F w1 -> block_wf (w (to_block_no sb no)) ->
  0 <= no < num_inodes sb -> entry_wf e ->
  type (disk_entry sb (write_entry sb (write_entry sb w1 no (cleared_entry e)) no (set_type INODE_INVALID (cleared_entry e))) no) = INODE_INVALID.
Proof.
  intros HF Hwf Hno He. rewrite disk_entry_write; [done | | apply set_type_wf; [by apply cleared_entry_wf | done]].
  unfold write_entry, upd. rewrite Z.eqb_refl. apply put_entry_wf; [| by apply cleared_entry_wf].
  rewrite (rl_same _ _ _ _ HF); [done |]. pose proof (inode_block_range G no Hno). lia.
Qed.

Section properties.
Context {B A : Type} {sb : SuperBlock} `{BC : BlockCache sb B} `{OA : ObjectArena A}.

(** C20: inode_read returns the bytes of the file from [offset] on, [count] of
    them or up to the end of the file, whatever blocks they lie on, direct or
    indirect; it never fails an assertion on a well-formed file and changes
    neither a block nor an inode.  (The comment on [read] in fs/inode.h says that
    exactly [count] bytes are read; at the end of the file there are fewer.) *)
Theorem inode_read_slice (G : geometry sb) (me : Z) (killed : bool) (s : itree B A) (p : Z) (w : Z -> list Z)
    (ops : gmap Z (list Z)) (offset cnt : Z) (Hp : p ∈ tree_head s) (HR : bc_R (fs_cache s) (qv w ops))
    (Hw : file_wf sb (entry (tree_mem s p)) w) (Hty : type (entry (tree_mem s p)) <> INODE_DEVICE)
    (Hoff : 0 <= offset <= num_bytes (entry (tree_mem s p))) (Hcnt : 0 <= cnt < 2 ^ 63) :
  let e := entry (tree_mem s p) in
  let n := Z.min cnt (num_bytes e - offset) in
  exists s', inode_read me killed p offset cnt s = Ret ((n, slice (content e w) (Z.to_nat offset) (Z.to_nat n)), s') /\
    run s p (tree_mem s p) (qv w ops) s'.
Proof.
  intros e n. destruct (wp_returns (inode_read me killed p offset cnt) (fun r s' =>
    r = (n, slice (content e w) (Z.to_nat offset) (Z.to_nat n)) /\ run s p (tree_mem s p) (qv w ops) s') s) as (r & s' & E & -> & H); [| eauto].
  eapply inode_read_ok; [exact G | by apply run_start | done | done | done | done |].
  intros s' H'. fold e n. rewrite file_bytes_slice by (unfold n, e; lia). done.
Qed.

(** C9: inode_write puts the bytes into the file at [offset], overwriting what
    is there and extending the file as needed: it returns their number, the
    content of the file is the old one with the bytes in place, the new size and
    block numbers are on the disk, and no block and no entry of another file has
    changed.  It needs two free blocks per block touched, and room in the log
    for the blocks, the bitmap, the indirect block and the inode; and the file
    must end below 65536 bytes, where the size in inode_write is cut off. *)
Theorem inode_write_splice (G : geometry sb) (me : Z) (s : itree B A) (p ctx : Z) (w : Z -> list Z)
    (bl : list Z) (ops : gmap Z (list Z)) (offset : Z) (src : list Z) (k : nat)
    (Hp : p ∈ tree_head s) (HR : bc_R (fs_cache s) (qv w (<[ctx := bl]> ops)))
    (Hcw : can_write (sb := sb) (tree_mem s p) w bl offset src k) (H16 : offset + Z.of_nat (length src) < 2 ^ 16) :
  let i := tree_mem s p in
  exists s' e' w' bl', inode_write me ctx p src offset s = Ret (Z.of_nat (length src), s') /\
    updated (sb := sb) (entry i) w (ino i) (overwrite (content (entry i) w) (Z.to_nat offset) src) e' w' /\
    run s p (set_entry e' i) (qv w' (<[ctx := bl']> ops)) s'.
Proof.
  intros i. destruct (wp_returns (inode_write me ctx p src offset) (fun r s' => r = Z.of_nat (length src) /\ exists e' w' bl',
    updated (sb := sb) (entry i) w (ino i) (overwrite (content (entry i) w) (Z.to_nat offset) src) e' w' /\
    run s p (set_entry e' i) (qv w' (<[ctx := bl']> ops)) s') s) as (r & s' & E & -> & e' & w' & bl' & H1 & H2); [| by exists s', e', w', bl'].
  eapply inode_write_ok; [exact G | by apply run_start | exact Hcw | done |]. intros s' e' w' bl' Hup H'. split; [done |]. by exists e', w', bl'.
Qed.

(** The size of a file is kept in 32 bits, but inode_write stores the low
    16 bits of the new size: a write that ends past 65535, which the assertion on
    INODE_MAX_BYTES admits, leaves the file with its size cut down by 65536. *)
Theorem inode_write_cuts_size (G : geometry sb) (me : Z) (s : itree B A) (p ctx : Z) (w : Z -> list Z)
    (bl : list Z) (ops : gmap Z (list Z)) (offset : Z) (src : list Z) (k : nat)
    (Hp : p ∈ tree_head s) (HR : bc_R (fs_cache s) (qv w (<[ctx := bl]> ops)))
    (Hcw : can_write (sb := sb) (tree_mem s p) w bl offset src k)
    (Hgrow : num_bytes (entry (tree_mem s p)) < offset + Z.of_nat (length src))
    (H16 : 2 ^ 16 <= offset + Z.of_nat (length src)) :
  exists s', inode_write me ctx p src offset s = Ret (Z.of_nat (length src), s') /\
    num_bytes (entry (tree_mem s' p)) = offset + Z.of_nat (length src) - 2 ^ 16.
Proof.
  set (i := tree_mem s p) in *. destruct (can_write_room _ _ _ _ _ _ Hcw) as (U & HRm & Hib & Hc). destruct Hcw.
  destruct (wp_returns (inode_write me ctx p src offset) (fun r s' => r = Z.of_nat (length src) /\
    num_bytes (entry (tree_mem s' p)) = offset + Z.of_nat (length src) - 2 ^ 16) s) as (r & s' & E & -> & H); [| eauto].
  eapply (inode_write_code_ok G me no_panic s p i w ctx bl ops offset src U k); [by apply run_start | done.. |].
  intros s' e1 w1 w' bl' Hwr _ e' _ H'. split; [done |]. rewrite (r_mem _ _ _ _ _ H'). cbn [entry set_entry].
  unfold e', grown_entry. rewrite Z.gtb_ltb, (proj2 (Z.ltb_lt _ _)) by done. cbn [num_bytes set_num_bytes]. unfold u16.
  change INODE_MAX_BYTES with 71680 in *. dlia.
Qed.
(** Inode_alloc returns the first inode number with a free entry, whose
    entry on the disk then has the type and zeros otherwise, and leaves all other
    entries; when no entry is free it stops the kernel. *)
Theorem inode_alloc_first (G : geometry sb) (s : itree B A) (p ctx ty : Z) (w : Z -> list Z)
    (bl : list Z) (ops : gmap Z (list Z)) (Hp : p ∈ tree_head s) (HR : bc_R (fs_cache s) (qv w (<[ctx := bl]> ops)))
    (Hty : 0 < ty < 2 ^ 16) (Hlog : (length bl < 10)%nat) :
  (forall no, first_free_inode sb w no -> exists s' w' bl', inode_alloc ctx ty s = Ret (no, s') /\
    run s p (tree_mem s p) (qv w' (<[ctx := bl']> ops)) s' /\ disk_entry sb w' no = fresh_entry ty /\
    forall m, 0 <= m < num_inodes sb -> m <> no -> disk_entry sb w' m = disk_entry sb w m) /\
  ((forall m, 1 <= m < num_inodes sb -> type (disk_entry sb w m) <> INODE_INVALID) ->
    inode_alloc ctx ty s = Panic "failed to allocate inode on disk").
Proof.
  pose proof (run_start s p (tree_mem s p) (qv w (<[ctx := bl]> ops)) Hp eq_refl HR) as H0. split.
  - intros no Hff. set (w' := write_entry sb w no (fresh_entry ty)).
    destruct (wp_returns (inode_alloc ctx ty) (fun r s' => r = no /\ run s p (tree_mem s p)
      (qv w' (<[ctx := add_new (to_block_no sb no) bl]> ops)) s') s) as (r & s' & E & -> & H).
    { eapply inode_alloc_ok; [exact G | exact H0 | exact Hff | done | done |]. intros s' H'. by split. }
    assert (Hwf : block_wf (w (to_block_no sb no))) by exact (run_wf _ _ _ _ _ _ H0).
    assert (He : entry_wf (fresh_entry ty)) by (apply fresh_entry_wf; lia).
    exists s', w', (add_new (to_block_no sb no) bl). split_and!; [done | done | by apply disk_entry_write |].
    intros m _ Hm. apply disk_entry_write_ne; [done | done | congruence].
  - intros Hall. exact (inode_alloc_full G s p _ w ctx bl ops ty s H0 Hty Hlog Hall).
Qed.

(** Inode_clear empties a file: all its blocks, the indirect block
    included, are free in the bitmap, the entry in memory and on the disk has size
    0 and no block numbers, and no other block, bit or entry has changed.  It
    syncs the bitmap and the inode only, so one operation is always enough. *)
Theorem inode_clear_frees (G : geometry sb) (s : itree B A) (p ctx : Z) (w : Z -> list Z) (bl : list Z)
    (ops : gmap Z (list Z)) (Hp : p ∈ tree_head s) (HR : bc_R (fs_cache s) (qv w (<[ctx := bl]> ops)))
    (Hi : inode_ok (sb := sb) (tree_mem s p)) (Hw : file_wf sb (entry (tree_mem s p)) w) (Hnd : NoDup bl) (Hlog : (length bl + 2 <= 10)%nat) :
  let i := tree_mem s p in
  let e' := cleared_entry (entry i) in
  exists s' w' bl', inode_clear ctx p s = Ret (tt, s') /\ run s p (set_entry e' i) (qv w' (<[ctx := bl']> ops)) s' /\
    content e' w' = [] /\ disk_entry sb w' (ino i) = e' /\
    (forall m, 0 <= m < num_blocks sb ->
      used_bit sb w' m = if decide (m ∈ file_blocks (entry i) w) then false else used_bit sb w m) /\
    (forall n, n <> bitmap_start sb -> n <> to_block_no sb (ino i) -> w' n = w n) /\
    (forall m, 0 <= m < num_inodes sb -> m <> ino i -> disk_entry sb w' m = disk_entry sb w m).
Proof.
  intros i e'. pose proof (run_start s p i (qv w (<[ctx := bl]> ops)) Hp eq_refl HR) as H0.
  destruct Hi as [Hld Hino]. fold i in Hld, Hino. pose proof (inode_block_range G _ Hino) as Hir.
  destruct (wp_returns (inode_clear ctx p) (fun _ s' => exists w1 bl', released sb w (file_blocks (entry i) w) w1 /\
    run s p (set_entry e' i) (qv (write_entry sb w1 (ino i) e') (<[ctx := bl']> ops)) s') s) as ([] & s' & E & w1 & bl' & HF & H).
  { eapply (inode_clear_ok G _ s p i w ctx bl ops (to_block_no sb (ino i) :: bitmap_start sb :: bl)); [exact H0 | by split | done | | | | cbn; lia |].
    - split; [done |]. intros x Hx. by do 2 right.
    - right. left.
    - left.
    - intros s' w1 bl' HF _ H. by exists w1, bl'. }
  assert (Hsame : w1 (to_block_no sb (ino i)) = w (to_block_no sb (ino i))) by (apply (rl_same _ _ _ _ HF); lia).
  assert (Hwf : block_wf (w1 (to_block_no sb (ino i)))) by (rewrite Hsame; exact (run_wf _ _ _ _ _ _ H0)).
  assert (He : entry_wf e') by (apply cleared_entry_wf, Hw).
  exists s', (write_entry sb w1 (ino i) e'), bl'. split_and!; [done | done | done | by apply disk_entry_write | | |].
  - intros m Hm. rewrite <- (rl_used _ _ _ _ HF) by done. apply (used_bit_upd G); [lia | done].
  - intros n Hn Hb. unfold write_entry, upd. rewrite (proj2 (Z.eqb_neq _ _)) by done. by apply (rl_same _ _ _ _ HF).
  - intros m Hm Hne. rewrite disk_entry_write_ne by (done || congruence). unfold disk_entry.
    rewrite (rl_same _ _ _ _ HF); [done |]. pose proof (inode_block_range G m Hm). lia.
Qed.

(** C21: inode_insert and inode_lookup are a map from names to inode numbers,
    as far as the first 14 bytes of a name go: inserting a name the directory did
    not have returns an index, a lookup of that name then returns the inode
    number (in 16 bits) and the index, and a lookup of any other name what it
    returned before. *)
Theorem dir_insert_lookup (G : geometry sb) (me : Z) (killed : bool) (s : itree B A) (p ctx : Z) (w : Z -> list Z)
    (bl : list Z) (ops : gmap Z (list Z)) (junk nm : list Z) (no : Z)
    (Hp : p ∈ tree_head s) (HR : bc_R (fs_cache s) (qv w (<[ctx := bl]> ops)))
    (Hce : can_edit (sb := sb) (tree_mem s p) w bl) (Hnm : bytes nm) (Hj : length junk = 16%nat)
    (Hsz : num_bytes (entry (tree_mem s p)) + 16 < 2 ^ 16) (Hno : u16 no <> 0)
    (Hnew : dir_find nm 0 (entries (entry (tree_mem s p)) w) = (0, None)) :
  exists k s1, inode_insert me killed junk ctx p nm no s = Ret (k, s1) /\
    forall nm', Z.of_nat (length nm') < 2 ^ 20 -> exists s2,
      inode_lookup me killed junk p nm' s1 = Ret (if decide (cstring 14 nm' = cstring 14 nm) then (u16 no, Some k)
        else dir_find nm' 0 (entries (entry (tree_mem s p)) w), s2).
Proof.
  set (i := tree_mem s p) in *. set (l := entries (entry i) w) in *. set (k := dir_slot l).
  pose proof (run_start s p i (qv w (<[ctx := bl]> ops)) Hp eq_refl HR) as H0.
  destruct (wp_returns (inode_insert me killed junk ctx p nm no) (fun r s1 => r = Z.of_nat k /\ exists e' w' bl',
    dir_wf (sb := sb) e' w' /\ entries e' w' = dir_put l k (new_dirent nm no) /\ run s p (set_entry e' i) (qv w' (<[ctx := bl']> ops)) s1) s)
    as (r & s1 & E1 & -> & e' & w' & bl' & Hd & He & H1).
  { eapply inode_insert_ok; [exact G | exact H0 | exact Hce | done | done | done |]. intros s' e' w' bl' _ Hd He H'. split; [done |]. by exists e', w', bl'. }
  exists (Z.of_nat k), s1. split; [done |]. intros nm' Hnm'.
  destruct (wp_returns (inode_lookup me killed junk p nm') (fun r _ => r = dir_find nm' 0 (entries e' w')) s1) as (r & s2 & E2 & ->).
  { eapply inode_lookup_ok; [exact G | exact H1 | exact Hd | done | done |]. by intros s' _. }
  exists s2. rewrite E2, He. unfold k. rewrite dir_find_insert by done. case_decide as Ec; [| done].
  assert (Hn : forall d, d ∈ l -> named nm' d = false).
  { intros d Hdl. rewrite <- (dir_find_none nm l 0 Hnew d Hdl). unfold named. by rewrite Ec. }
  rewrite (dir_find_skip nm' (take (dir_slot l) l)); [done |]. intros d (j & Hj1%list_elem_of_lookup_2 & _)%elem_of_take. by apply Hn.
Qed.
(** Inode_remove frees the entry at [k]: names that the entry did not have
    are found as before, and the name it had is not found any more unless another
    entry has it too; an index past the end of the directory changes nothing. *)
Theorem dir_remove_lookup (G : geometry sb) (me : Z) (killed : bool) (s : itree B A) (p ctx : Z) (w : Z -> list Z)
    (bl : list Z) (ops : gmap Z (list Z)) (junk : list Z) (k : nat)
    (Hp : p ∈ tree_head s) (HR : bc_R (fs_cache s) (qv w (<[ctx := bl]> ops)))
    (Hce : can_edit (sb := sb) (tree_mem s p) w bl) (Hj : length junk = 16%nat)
    (Hsz : num_bytes (entry (tree_mem s p)) < 2 ^ 16) (Hk : Z.of_nat k < 2 ^ 59) :
  let l := entries (entry (tree_mem s p)) w in
  exists s1, inode_remove me ctx p (Z.of_nat k) s = Ret (tt, s1) /\
    forall nm, Z.of_nat (length nm) < 2 ^ 20 -> exists s2,
      inode_lookup me killed junk p nm s1 = Ret (match l !! k with
        | Some d => if named nm d && forallb (fun x => negb (named nm x)) (take k l ++ drop (S k) l) then (0, None)
                    else dir_find nm 0 (dir_put l k free_dirent)
        | None => dir_find nm 0 l
        end, s2) /\
      (forall d, l !! k = Some d -> named nm d = false -> dir_find nm 0 (dir_put l k free_dirent) = dir_find nm 0 l).
Proof.
  intros l. set (i := tree_mem s p) in *. pose proof (run_start s p i (qv w (<[ctx := bl]> ops)) Hp eq_refl HR) as H0.
  destruct (wp_returns (inode_remove me ctx p (Z.of_nat k)) (fun _ s1 => exists e' w' bl',
    dir_wf (sb := sb) e' w' /\ entries e' w' = (if decide (k < length l)%nat then dir_put l k free_dirent else l) /\
    run s p (set_entry e' i) (qv w' (<[ctx := bl']> ops)) s1) s) as ([] & s1 & E1 & e' & w' & bl' & Hd & He & H1).
  { eapply inode_remove_ok; [exact G | exact H0 | exact Hce | done | done | |].
    - intros s' e' w' bl' Hlt _ Hd He H'. exists e', w', bl'. by rewrite decide_True by exact Hlt.
    - intros Hge. exists (entry i), w, bl. split_and!; [apply Hce | rewrite decide_False by (fold l in Hge; lia); done |].
      by replace (set_entry (entry i) i) with i by (by destruct i). }
  exists s1. split; [done |]. intros nm Hnm.
  destruct (wp_returns (inode_lookup me killed junk p nm) (fun r _ => r = dir_find nm 0 (entries e' w')) s1) as (r & s2 & E2 & ->).
  { eapply inode_lookup_ok; [exact G | exact H1 | exact Hd | done | done |]. by intros s' _. }
  exists s2. rewrite E2, He. split; [| intros d Hdl Hn; by eapply dir_find_remove].
  destruct (l !! k) as [d|] eqn:El.
  - rewrite decide_True by (by eapply lookup_lt_Some). destruct (named nm d && _) eqn:En; [| done].
    apply andb_true_iff in En as [_ Hall]. rewrite forallb_forall in Hall. do 2 f_equal. apply dir_find_skip.
    unfold dir_put. intros x [Hx|[->|Hx]%elem_of_cons]%elem_of_app; [| done |];
      apply negb_true_iff, Hall, list_elem_of_In, elem_of_app; [by left | by right].
  - rewrite decide_False; [done |]. apply lookup_ge_None in El. lia.
Qed.

(** The table holds one in-memory inode per inode number.  inode_get returns
    the one that is there, with one more reference, or a new one with a single
    reference that is not loaded yet; getting the number again, or sharing the
    pointer, gives the same pointer and counts it. *)
Theorem inode_get_one_copy (me : Z) (s : itree B A) (r : nat) (no : Z) (HT : table sb s r)
    (Hno : 0 < no < num_inodes sb) (Href : refs s no < 2 ^ 63 - 2) (Hroom : (0 < r)%nat \/ 0 < refs s no) :
  exists p s1 s2 s3, inode_get (sb := sb) me no s = Ret (p, s1) /\ got s no p s1 /\ (exists r', table sb s1 r') /\
    inode_get (sb := sb) me no s1 = Ret (p, s2) /\ inode_share me p s1 = Ret (p, s3) /\
    count (rc (tree_mem s1 p)) = refs s no + 1 /\ count (rc (tree_mem s2 p)) = refs s no + 2 /\
    count (rc (tree_mem s3 p)) = refs s no + 2.
Proof.
  destruct (wp_returns (inode_get (sb := sb) me no) (fun p s1 => got s no p s1 /\ exists r', table sb s1 r' /\ (r <= S r')%nat) s)
    as (p & s1 & E1 & Hg & r' & HT1 & _).
  { eapply inode_get_ok; [exact HT | done | lia | done |]. auto. }
  pose proof Hg as [Hin Hi Hrc _ _ _ _].
  pose proof (refs_some s1 r' p HT1 Hin) as Er. rewrite Hi, Hrc in Er. pose proof (tb_rc _ _ _ HT1 p Hin) as Hb. rewrite Hrc in Hb.
  destruct (wp_returns (inode_get (sb := sb) me no) (fun q s2 => q = p /\ count (rc (tree_mem s2 p)) = refs s no + 2) s1) as (q & s2 & E2 & -> & Hc2).
  { eapply inode_get_ok; [exact HT1 | done | lia | lia |]. intros q s2 Hg2 _.
    assert (q = p) as ->.
    { destruct (decide (q ∈ tree_head s1)) as [Hq|Hq].
      - destruct (gt_old _ _ _ _ Hg2 Hq) as (_ & Eq & _). apply (tb_inj _ _ _ HT1); congruence.
      - destruct (gt_new _ _ _ _ Hg2 Hq) as (_ & Hno' & _). by destruct (Hno' p Hin). }
    split; [done |]. rewrite (gt_rc _ _ _ _ Hg2). lia. }
  destruct (wp_returns (inode_share me p) (fun q s3 => q = p /\ count (rc (tree_mem s3 p)) = refs s no + 2) s1) as (q & s3 & E3 & -> & Hc3).
  { eapply inode_share_ok; [exact HT1 | done | lia |]. intros s3 Hg3 _. split; [done |]. rewrite (gt_rc _ _ _ _ Hg3), Hi. lia. }
  exists p, s1, s2, s3. split_and!; try done. by exists r'.
Qed.

(** Inode_put gives one reference back.  With others left only the count
    changes; the last reference to a file that has links takes the inode out of
    the table and gives its memory back, without touching the disk; the last
    reference to a loaded inode without links also frees the blocks and the entry
    of the file on the disk.  The table stays consistent. *)
Theorem inode_put_releases (G : geometry sb) (me : Z) (s : itree B A) (r : nat) (p ctx : Z) (w : Z -> list Z) (bl : list Z)
    (ops : gmap Z (list Z)) (HT : table sb s r) (Hp : p ∈ tree_head s) (HR : bc_R (fs_cache s) (qv w (<[ctx := bl]> ops)))
    (Hlk : inode_lock_ (tree_mem s p) = init_spinlock) (Hld : loaded (tree_mem s p) = true)
    (Hty : type (entry (tree_mem s p)) <> INODE_INVALID) (Hw : file_wf sb (entry (tree_mem s p)) w)
    (Hnd : NoDup bl) (Hlog : (length bl + 2 <= 10)%nat) :
  let i := tree_mem s p in
  exists s', inode_put (sb := sb) me ctx p s = Ret (tt, s') /\ (forall q, q <> p -> tree_mem s' q = tree_mem s q) /\
    if decide (1 < count (rc i)) then
      table sb s' r /\ tree_head s' = tree_head s /\ fs_cache s' = fs_cache s /\
      tree_mem s' p = set_rc (mkRc (count (rc i) - 1)) i
    else table sb s' (S r) /\ tree_head s' = filter (fun q => q <> p) (tree_head s) /\
      if decide (num_links (entry i) = 0) then exists w1 w' bl', released sb w (file_blocks (entry i) w) w1 /\
        bc_R (fs_cache s') (qv w' (<[ctx := bl']> ops)) /\ type (disk_entry sb w' (ino i)) = INODE_INVALID
      else fs_cache s' = fs_cache s.
Proof.
  intros i. pose proof (tb_rc _ _ _ HT p Hp) as Hrc. pose proof (tb_ino _ _ _ HT p Hp) as Hino. fold i in Hrc, Hino.
  enough (W : wp no_panic (inode_put (sb := sb) me ctx p) (fun _ s' => (forall q, q <> p -> tree_mem s' q = tree_mem s q) /\
    if decide (1 < count (rc i)) then
      table sb s' r /\ tree_head s' = tree_head s /\ fs_cache s' = fs_cache s /\ tree_mem s' p = set_rc (mkRc (count (rc i) - 1)) i
    else table sb s' (S r) /\ tree_head s' = filter (fun q => q <> p) (tree_head s) /\
      if decide (num_links (entry i) = 0) then exists w1 w' bl', released sb w (file_blocks (entry i) w) w1 /\
        bc_R (fs_cache s') (qv w' (<[ctx := bl']> ops)) /\ type (disk_entry sb w' (ino i)) = INODE_INVALID
      else fs_cache s' = fs_cache s) s).
  { destruct (wp_returns _ _ _ W) as ([] & s' & E & H). by exists s'. }
  case_decide as H1; [| case_decide as H2].
  - eapply inode_put_shared_ok; [exact HT | done | done |]. intros s' HT' Eh Em Eo (Ec & _). done.
  - assert (El : load_entry (sb := sb) w i = i) by (unfold load_entry; fold i in Hld; by rewrite Hld).
    eapply (inode_put_last_ok G me _ s r ctx p w bl ops (to_block_no sb (ino i) :: bitmap_start sb :: bl));
      fold i; rewrite ?El; [exact HT | done | lia | done | done | exact HR | done | done | | | | cbn; lia |].
    + split; [done |]. intros x Hx. by do 2 right.
    + right. left.
    + left.
    + intros s' w1 bl' HF _ HT' Eh Em HR'. split_and!; [done | done | done |]. eexists w1, _, bl'. split_and!; [done | exact HR' |].
      eapply (destroyed_entry G); [exact HF | exact (bc_wf _ _ _ HR) | lia | apply Hw].
  - eapply inode_put_linked_ok; [exact HT | done | fold i; lia | done |]. intros s' [D1 D2 (D3 & _)] HT'. done.
Qed.

(** Inode_put decides by the link count in memory, which init_inode does not
    set and only inode_lock loads: when an inode is got and put back without
    having been locked, and its memory happens to hold a link count of 0, the
    file is destroyed although it has links on the disk. *)
Theorem inode_put_unloaded_destroys (G : geometry sb) (me : Z) (s : itree B A) (r : nat) (p ctx : Z) (w : Z -> list Z) (bl : list Z)
    (ops : gmap Z (list Z)) (HT : table sb s r) (Hp : p ∈ tree_head s) (HR : bc_R (fs_cache s) (qv w (<[ctx := bl]> ops)))
    (Hlk : inode_lock_ (tree_mem s p) = init_spinlock) (Hld : loaded (tree_mem s p) = false)
    (Hrc : count (rc (tree_mem s p)) = 1) (Hl : num_links (entry (tree_mem s p)) = 0)
    (Hty : type (disk_entry sb w (ino (tree_mem s p))) <> INODE_INVALID)
    (Hlinks : 0 < num_links (disk_entry sb w (ino (tree_mem s p))))
    (Hw : file_wf sb (disk_entry sb w (ino (tree_mem s p))) w) (Hnd : NoDup bl) (Hlog : (length bl + 2 <= 10)%nat) :
  exists s' w' bl', inode_put (sb := sb) me ctx p s = Ret (tt, s') /\ bc_R (fs_cache s') (qv w' (<[ctx := bl']> ops)) /\
    type (disk_entry sb w' (ino (tree_mem s p))) = INODE_INVALID.
Proof.
  set (i := tree_mem s p) in *. pose proof (tb_ino _ _ _ HT p Hp) as Hino. fold i in Hino.
  assert (El : entry (load_entry (sb := sb) w i) = disk_entry sb w (ino i)) by (unfold load_entry; by rewrite Hld).
  enough (W : wp no_panic (inode_put (sb := sb) me ctx p) (fun _ s' => exists w' bl', bc_R (fs_cache s') (qv w' (<[ctx := bl']> ops)) /\
    type (disk_entry sb w' (ino i)) = INODE_INVALID) s).
  { destruct (wp_returns _ _ _ W) as ([] & s' & E & w' & bl' & H1 & H2). by exists s', w', bl'. }
  eapply (inode_put_last_ok G me _ s r ctx p w bl ops (to_block_no sb (ino i) :: bitmap_start sb :: bl));
    fold i; rewrite ?El; [exact HT | done | done | done | done | exact HR | done | done | | | | cbn; lia |].
  - split; [done |]. intros x Hx. by do 2 right.
  - right. left.
  - left.
  - intros s' w1 bl' HF _ _ _ _ HR'. eexists _, bl'. split; [exact HR' |].
    eapply (destroyed_entry G); [exact HF | exact (bc_wf _ _ _ HR) | lia | apply Hw].
Qed.
End properties.

Lemma inode_read_slice_witness : exists (c : bcache (Arena pmem)) s',
  inode_read (sb := small_sb) 0 false 20 500 200 (image_tree c) = Ret ((100, replicate 100 120), s').
Proof.
  destruct image_cache as [c HR]. exists c.
  destruct (inode_read_slice small_geometry 0 false (image_tree c) 20 image (<[1 := []]> ∅) 500 200) as (s' & E & _).
  - right. left.
  - exact HR.
  - exact file_entry_wf.
  - discriminate.
  - split; discriminate.
  - split; [discriminate | reflexivity].
  - exists s'. rewrite E. reflexivity.
Defined.

Lemma file_can_write : can_write (sb := small_sb) (held_inode 2 file_entry) image [] 600 (replicate 10 65) 1.
Proof.
  split; [by split | apply file_entry_wf | apply image_meta | by vm_compute | done | by vm_compute | by vm_compute |
    by apply bytes_replicate | intros _; by vm_compute | unfold block_fuel; lia | rewrite image_free; lia | apply NoDup_nil_2 | cbn; lia].
Qed.

Lemma inode_write_splice_witness : exists (c : bcache (Arena pmem)) s' e' w', inode_write (sb := small_sb) 0 1 20 (replicate 10 65) 600 (image_tree c) = Ret (10, s') /\
  content e' w' = replicate 600 120 ++ replicate 10 65 /\ disk_entry small_sb w' 2 = e'.
Proof.
  destruct image_cache as [c HR]. exists c.
  destruct (inode_write_splice small_geometry 0 (image_tree c) 20 1 image [] ∅ 600 (replicate 10 65) 1) as (s' & e' & w' & bl' & E & Hup & _).
  - right. left.
  - exact HR.
  - exact file_can_write.
  - reflexivity.
  - exists s', e', w'. split; [exact E |]. split; [| exact (up_disk _ _ _ _ _ _ Hup)].
    rewrite (up_content _ _ _ _ _ _ Hup). vm_compute. reflexivity.
Defined.

(** A file of 65530 bytes on 300 blocks: its direct blocks are 24 to 35, the
    indirect block is 36, with the blocks 37 to 152. *)
Definition big_sb : SuperBlock := mkSuper 300 270 8 20 2 22 23.
Definition big_entry : InodeEntry := mkEntry 2 0 0 1 65530 (seqZ 24 12) 36.
Definition big_image (n : Z) : list Z :=
  if n =? 22 then put_entry zero_block 2 big_entry
  else if n =? 23 then pad (replicate 19 255 ++ [1])
  else if n =? 36 then pad (words_enc 4 (seqZ 37 116))
  else zero_block.

Lemma big_image_wf n : block_wf (big_image n).
Proof.
  unfold big_image. repeat (match goal with |- block_wf (if ?b then _ else _) => destruct b end);
    first [apply zero_block_wf | apply block_wf_check; by vm_compute].
Qed.

Lemma big_geometry : geometry big_sb.
Proof. split; vm_compute; repeat split; discriminate. Qed.

Lemma big_entry_wf : file_wf big_sb big_entry big_image.
Proof. apply fsck_file_ok. by vm_compute. Qed.

Lemma big_can_write : can_write (sb := big_sb) (held_inode 2 big_entry) big_image [] 65530 (replicate 10 65) 2.
Proof.
  split; [by split | apply big_entry_wf | | by vm_compute | done | by vm_compute | by vm_compute |
    by apply bytes_replicate | intros _; by vm_compute | unfold block_fuel; lia | | apply NoDup_nil_2 | cbn; lia].
  - intros m Hm. apply (used_below _ _ 24); [by vm_compute | cbn in Hm; lia].
  - assert (length (free_list big_sb big_image) = 147%nat) as -> by (by vm_compute). lia.
Qed.

Definition big_tree (c : bcache (Arena pmem)) : itree (bcache (Arena pmem)) (Arena pmem) :=
  mkTree c init_spinlock inode_arena [20] (fun _ => held_inode 2 big_entry) 20 init_console.

(** A file of 65530 bytes gets ten more: its size is 4. *)
Lemma inode_write_cuts_size_witness : exists (c : bcache (Arena pmem)) s', inode_write (sb := big_sb) 0 1 20 (replicate 10 65) 65530 (big_tree c) = Ret (10, s') /\
  num_bytes (entry (tree_mem s' 20)) = 4.
Proof.
  destruct (boot_cache big_sb big_image big_image_wf eq_refl ltac:(by vm_compute) ltac:(by vm_compute)) as [c HR]. exists c.
  destruct (inode_write_cuts_size big_geometry 0 (big_tree c) 20 1 big_image [] ∅ 65530 (replicate 10 65) 2) as (s' & E & Hn).
  - left.
  - exact HR.
  - exact big_can_write.
  - reflexivity.
  - discriminate.
  - exists s'. split; [exact E | exact Hn].
Defined.

Lemma inode_alloc_first_witness : exists (c : bcache (Arena pmem)) s' w', inode_alloc (sb := small_sb) 1 INODE_REGULAR (image_tree c) = Ret (3, s') /\
  disk_entry small_sb w' 3 = fresh_entry INODE_REGULAR.
Proof.
  destruct image_cache as [c HR]. exists c.
  destruct (inode_alloc_first small_geometry (image_tree c) 10 1 INODE_REGULAR image [] ∅) as [Hfree _].
  - left.
  - exact HR.
  - by vm_compute.
  - cbn. lia.
  - destruct (Hfree 3) as (s' & w' & bl' & E & _ & He & _).
    + split; [by vm_compute | by vm_compute |]. intros m Hm. assert (m = 1 \/ m = 2) as [->| ->] by lia; by vm_compute.
    + exists s', w'. split; [exact E | exact He].
Defined.

Lemma inode_clear_frees_witness : exists (c : bcache (Arena pmem)) s' w', inode_clear (sb := small_sb) 1 20 (image_tree c) = Ret (tt, s') /\
  used_bit small_sb w' 25 = false /\ used_bit small_sb w' 26 = false /\ used_bit small_sb w' 24 = true /\
  num_bytes (disk_entry small_sb w' 2) = 0.
Proof.
  destruct image_cache as [c HR]. exists c.
  destruct (inode_clear_frees small_geometry (image_tree c) 20 1 image [] ∅) as (s' & w' & bl' & E & _ & _ & Hd & Hu & _).
  - right. left.
  - exact HR.
  - by split.
  - exact file_entry_wf.
  - apply NoDup_nil_2.
  - cbn. lia.
  - exists s', w'. split; [exact E |]. rewrite !Hu by (split; [discriminate | reflexivity]).
    change (disk_entry small_sb w' 2 = cleared_entry file_entry) in Hd. rewrite Hd. by vm_compute.
Defined.

Lemma root_dir : dir_wf (sb := small_sb) root_entry image.
Proof. split; [apply root_entry_wf | done | done]. Qed.

Lemma root_can_edit : can_edit (sb := small_sb) (held_inode 1 root_entry) image [].
Proof.
  split; [by split | apply root_dir | apply image_meta | by vm_compute | rewrite image_free; lia | apply NoDup_nil_2 | cbn; lia].
Qed.

(** "a" is added to the root directory, after "." and "..". *)
Lemma dir_insert_lookup_witness : exists (c : bcache (Arena pmem)) k s1 s2 s3,
  inode_insert (sb := small_sb) 0 false (replicate 16 0) 1 10 [97] 2 (image_tree c) = Ret (k, s1) /\
  inode_lookup (sb := small_sb) 0 false (replicate 16 0) 10 [97] s1 = Ret ((2, Some k), s2) /\
  inode_lookup (sb := small_sb) 0 false (replicate 16 0) 10 [46; 46] s1 = Ret ((1, Some 1), s3).
Proof.
  destruct image_cache as [c HR]. exists c.
  destruct (dir_insert_lookup small_geometry 0 false (image_tree c) 10 1 image [] ∅ (replicate 16 0) [97] 2) as (k & s1 & E & Hl).
  - left.
  - exact HR.
  - exact root_can_edit.
  - by repeat constructor.
  - reflexivity.
  - reflexivity.
  - discriminate.
  - vm_compute. reflexivity.
  - destruct (Hl [97] eq_refl) as [s2 E2]. destruct (Hl [46; 46] eq_refl) as [s3 E3]. exists k, s1, s2, s3.
    split; [exact E |]. split; [rewrite E2; reflexivity | rewrite E3; reflexivity].
Defined.

Lemma dir_remove_lookup_witness : exists (c : bcache (Arena pmem)) s1 s2,
  inode_remove (sb := small_sb) 0 1 10 1 (image_tree c) = Ret (tt, s1) /\
  inode_lookup (sb := small_sb) 0 false (replicate 16 0) 10 [46; 46] s1 = Ret ((0, None), s2).
Proof.
  destruct image_cache as [c HR]. exists c.
  destruct (dir_remove_lookup small_geometry 0 false (image_tree c) 10 1 image [] ∅ (replicate 16 0) 1) as (s1 & E & Hl).
  - left.
  - exact HR.
  - exact root_can_edit.
  - reflexivity.
  - reflexivity.
  - reflexivity.
  - destruct (Hl [46; 46] eq_refl) as (s2 & E2 & _). exists s1, s2. split; [exact E |]. rewrite E2. vm_compute. reflexivity.
Defined.

(** ** An empty table *)

Definition empty_tree (c : bcache (Arena pmem)) : itree (bcache (Arena pmem)) (Arena pmem) :=
  fresh_itree c inode_arena (fun _ => held_inode 0 zero_entry) init_console.

Lemma inode_arena_room : ar_inv inode_arena ∅ 372.
Proof.
  destruct (@init_arena_ok _ (kernel_pages 0) 128 twelve_pages page_list twelve_pages_inv) as (a & E & HI & _ & Hr).
  - by vm_compute.
  - assert (a = inode_arena) as -> by (injection E as <-; reflexivity).
    exists page_list. split; [exact HI |]. rewrite Hr. by vm_compute.
Qed.

Lemma empty_table c : exists r, table small_sb (empty_tree c) (S r).
Proof.
  exists 371%nat. split; [apply NoDup_nil_2 | by intros ? ?%not_elem_of_nil | by intros ? ?%not_elem_of_nil | by intros ? ? ?%not_elem_of_nil | | done].
  apply inode_arena_room.
Qed.

Lemma inode_get_one_copy_witness : exists (c : bcache (Arena pmem)) p s1 s2, inode_get (sb := small_sb) 0 2 (empty_tree c) = Ret (p, s1) /\
  inode_get (sb := small_sb) 0 2 s1 = Ret (p, s2) /\ count (rc (tree_mem s2 p)) = 2.
Proof.
  destruct image_cache as [c HR]. exists c. destruct (empty_table c) as [r HT].
  destruct (inode_get_one_copy 0 (empty_tree c) (S r) 2 HT) as (p & s1 & s2 & s3 & E1 & _ & _ & E2 & _ & _ & Hc & _).
  - split; reflexivity.
  - reflexivity.
  - left. lia.
  - exists p, s1, s2. split; [exact E1 |]. split; [exact E2 | exact Hc].
Defined.

(** The table after inode_get 2. *)
Lemma got_file (c : bcache (Arena pmem)) : bc_R (sb := small_sb) c (qv image (<[1 := []]> ∅)) ->
  exists p r (s1 : itree (bcache (Arena pmem)) (Arena pmem)), table small_sb s1 r /\ p ∈ tree_head s1 /\ fs_cache s1 = c /\
    ino (tree_mem s1 p) = 2 /\ count (rc (tree_mem s1 p)) = 1 /\ inode_lock_ (tree_mem s1 p) = init_spinlock /\
    loaded (tree_mem s1 p) = false /\ entry (tree_mem s1 p) = zero_entry.
Proof.
  intros HR. destruct (empty_table c) as [r HT].
  destruct (wp_returns (inode_get (sb := small_sb) 0 2) (fun p s1 => got (empty_tree c) 2 p s1 /\ exists r', table small_sb s1 r' /\ (S r <= S r')%nat)
    (empty_tree c)) as (p & s1 & _ & Hg & r' & HT1 & _).
  { eapply inode_get_ok; [exact HT | by vm_compute | by vm_compute | left; lia |]. auto. }
  destruct Hg as [Hin Hi Hrc _ Hnew _ Hfr]. destruct Hnew as (_ & _ & Hl & Hv & He); [apply not_elem_of_nil |].
  exists p, r', s1. split_and!; try done. apply Hfr.
Qed.

Lemma inode_put_releases_witness : exists (s s' : itree (bcache (Arena pmem)) (Arena pmem)) p, p ∈ tree_head s /\
  inode_put (sb := small_sb) 0 1 p s = Ret (tt, s') /\ p ∉ tree_head s'.
Proof.
  destruct image_cache as [c HR]. destruct (got_file c HR) as (p & r & s1 & HT & Hp & Ec & Ei & Hrc & Hlk & _ & _).
  set (i := mkInode init_spinlock (mkRc 1) 2 true file_entry).
  set (s := set_tree_mem (upd_inode p i (tree_mem s1)) s1).
  assert (Em : tree_mem s p = i) by (cbn; unfold upd_inode; by rewrite Z.eqb_refl).
  assert (HTs : table small_sb s r).
  { apply (table_upd s1 s r p i HT Hp); try done; [apply HT | intros q Hq; cbn; unfold upd_inode; by rewrite (proj2 (Z.eqb_neq _ _))]. }
  destruct (inode_put_releases small_geometry 0 s r p 1 image [] ∅ HTs Hp) as (s' & E & _ & Hc); rewrite ?Em.
  - cbn. by rewrite Ec.
  - reflexivity.
  - reflexivity.
  - discriminate.
  - exact file_entry_wf.
  - apply NoDup_nil_2.
  - cbn. lia.
  - exists s, s', p. split; [exact Hp |]. split; [exact E |]. rewrite Em in Hc. rewrite decide_False in Hc by done.
    destruct Hc as (_ & Eh & _). rewrite Eh. intros [Hn _]%list_elem_of_filter. by apply Hn.
Defined.

Lemma inode_put_unloaded_destroys_witness : exists (s s' : itree (bcache (Arena pmem)) (Arena pmem)) p w', num_links (disk_entry small_sb image 2) = 1 /\
  inode_put (sb := small_sb) 0 1 p s = Ret (tt, s') /\ type (disk_entry small_sb w' 2) = INODE_INVALID.
Proof.
  destruct image_cache as [c HR]. destruct (got_file c HR) as (p & r & s1 & HT & Hp & Ec & Ei & Hrc & Hlk & Hld & He).
  destruct (inode_put_unloaded_destroys small_geometry 0 s1 r p 1 image [] ∅ HT Hp) as (s' & w' & bl' & E & _ & Hty); rewrite ?Ei, ?He.
  - by rewrite Ec.
  - exact Hlk.
  - exact Hld.
  - exact Hrc.
  - reflexivity.
  - by vm_compute.
  - by vm_compute.
  - assert (disk_entry small_sb image 2 = file_entry) as -> by (by vm_compute). exact file_entry_wf.
  - apply NoDup_nil_2.
  - cbn. lia.
  - exists s1, s', p, w'. split; [by vm_compute |]. split; [exact E |]. rewrite <- Ei at 1. exact Hty.
Defined.
