(* ===== verification/Mkfs.v ===== *)
(** user/mkfs/main.c: the program that writes the initial file system.  The image
    is a file of blocks; the files to copy are given by their names and the
    pieces the calls of read return.  An error message followed by exit(1), and a
    failed assert, is the outcome [Panic]. *)
From S2P Require Import Prelude Bytes CString FsDefs Cache CacheSpec Path Console Inode.

(** * Layout *)

Definition NINODES : Z := 200.
Definition IPB : Z := BLOCK_SIZE / sizeof_InodeEntry.
Definition nbitmap : Z := FSSIZE / (BLOCK_SIZE * 8) + 1.
Definition ninodeblocks : Z := NINODES / IPB + 1.
Definition LOGSIZE : Z := LOG_MAX_SIZE.
Definition nmeta : Z := 2 + LOGSIZE + ninodeblocks + nbitmap.
Definition ndata : Z := FSSIZE - nmeta.

(** The bytes of an integer, least significant first, read as an integer of the
    host, which is little-endian. *)
Definition xshort (x : Z) : Z := le_dec [u8 x; u8 (Z.shiftr x 8)].
Definition xint (x : Z) : Z := le_dec [u8 x; u8 (Z.shiftr x 8); u8 (Z.shiftr x 16); u8 (Z.shiftr x 24)].

(** [sb], as main fills it in. *)
Definition mkfs_sb : SuperBlock :=
  mkSuper (xint FSSIZE) (xint ndata) (xint NINODES) (xint LOGSIZE) (xint 2) (xint (2 + LOGSIZE))
    (xint (2 + LOGSIZE + ninodeblocks)).

Definition IBLOCK (i : Z) : Z := i / IPB + inode_start mkfs_sb.

(** * State *)

(** The blocks of the image, the number of blocks the file has so far, and the
    next inode and block to hand out. *)
Record mkfs := mkMkfs {
  img : Z -> list Z;
  img_len : Z;
  freeinode : Z;
  freeblock : Z
}.

Definition set_img v (s : mkfs) := mkMkfs v (img_len s) (freeinode s) (freeblock s).
Definition set_img_len v (s : mkfs) := mkMkfs (img s) v (freeinode s) (freeblock s).
Definition set_freeinode v (s : mkfs) := mkMkfs (img s) (img_len s) v (freeblock s).
Definition set_freeblock v (s : mkfs) := mkMkfs (img s) (img_len s) (freeinode s) v.

(** The empty image, before main. *)
Definition init_mkfs : mkfs := mkMkfs (fun _ => zero_block) 0 1 0.

(** * Sectors *)

(** The sector at the offset [sec * BSIZE], an unsigned int. *)
Definition sector (sec : Z) : Z := u32 (sec * BLOCK_SIZE) / BLOCK_SIZE.

Definition wsect (sec : Z) (buf : list Z) : M mkfs unit :=
  modify (fun s => set_img_len (Z.max (img_len s) (sector sec + 1)) (set_img (upd (img s) (sector sec) buf) s)).

(** A read behind the end of the file is short. *)
Definition rsect (sec : Z) : M mkfs (list Z) :=
  s ← get; if sector sec <? img_len s then mret (img s (sector sec)) else panic "read".

(** * Inodes *)

Definition winode (inum : Z) (ip : InodeEntry) : M mkfs unit :=
  let bn := IBLOCK inum in
  buf ← rsect bn;
  wsect bn (splice buf (Z.to_nat (inum mod IPB * sizeof_InodeEntry)) (inode_enc ip)).

Definition rinode (inum : Z) : M mkfs InodeEntry :=
  let bn := IBLOCK inum in
  buf ← rsect bn;
  mret (inode_dec (slice buf (Z.to_nat (inum mod IPB * sizeof_InodeEntry)) 64)).

Definition ialloc (ty : Z) : M mkfs Z :=
  s ← get;
  let inum := freeinode s in
  modify (set_freeinode (u32 (inum + 1)));;
  let din := mkEntry (xshort ty) 0 0 (xshort 1) (xint 0) (replicate 12 0) 0 in
  winode inum din;;
  mret inum.

(** [freeblock++]. *)
Definition next_block : M mkfs Z :=
  s ← get; modify (set_freeblock (u32 (freeblock s + 1)));; mret (freeblock s).

(** * The bitmap *)

(** [for (i = 0; i < used; i++) buf[i / 8] = buf[i / 8] | (0x1 << (i % 8));] *)
Fixpoint set_bits (buf : list Z) (i : Z) (n : nat) : list Z :=
  match n with
  | O => buf
  | S n' => set_bits (zset buf (i / 8) (u8 (Z.lor (zget buf (i / 8)) (Z.shiftl 1 (i mod 8))))) (i + 1) n'
  end.

Definition balloc (used : Z) : M mkfs unit :=
  assert (used <? BLOCK_SIZE * 8) "used < BSIZE * 8";;
  wsect (bitmap_start mkfs_sb) (set_bits zero_block 0 (Z.to_nat used)).

(** * Appending to a file *)

(** The block with index [fbn] of the file: [x] and the new [din]. *)
Definition file_block (din : InodeEntry) (fbn : Z) : M mkfs (Z * InodeEntry) :=
  if fbn <? INODE_NUM_DIRECT then
    din ← (if xint (zget (addrs din) fbn) =? 0
           then b ← next_block; mret (set_addrs (zset (addrs din) fbn (xint b)) din)
           else mret din);
    mret (xint (zget (addrs din) fbn), din)
  else
    din ← (if xint (indirect din) =? 0 then b ← next_block; mret (set_indirect (xint b) din) else mret din);
    ind ← rsect (xint (indirect din));
    ind ← (if zget (get_addrs ind) (fbn - INODE_NUM_DIRECT) =? 0 then
             b ← next_block;
             let ind := put_addr ind (fbn - INODE_NUM_DIRECT) (xint b) in
             wsect (xint (indirect din)) ind;;
             mret ind
           else mret ind);
    mret (xint (zget (get_addrs ind) (fbn - INODE_NUM_DIRECT)), din).

(** The loop of iappend; [p] are the [n] bytes that are left, and a round takes
    at least one of them. *)
Fixpoint iappend_loop (fuel : nat) (din : InodeEntry) (off : Z) (p : list Z) : M mkfs (InodeEntry * Z) :=
  match p with
  | [] => mret (din, off)
  | _ =>
      match fuel with
      | O => lift OutOfFuel
      | S fuel' =>
          let n := Z.of_nat (length p) in
          let fbn := off / BLOCK_SIZE in
          assert (fbn <? INODE_MAX_BLOCKS) "fbn < INODE_MAX_BLOCKS";;
          '(x, din) ← file_block din fbn;
          let n1 := (let room := u32 ((fbn + 1) * BLOCK_SIZE - off) in if n <? room then n else room) in
          buf ← rsect x;
          wsect x (splice buf (Z.to_nat (off - fbn * BLOCK_SIZE)) (take (Z.to_nat n1) p));;
          iappend_loop fuel' din (off + n1) (drop (Z.to_nat n1) p)
      end
  end.

Definition iappend (inum : Z) (p : list Z) : M mkfs unit :=
  din ← rinode inum;
  '(din, off) ← iappend_loop (length p) din (xint (num_bytes din)) p;
  winode inum (set_num_bytes (xint off) din).

(** * main *)

(** A file to copy: the argument, and the pieces that read returns; [None] when
    open fails. *)
Definition host_file : Type := list Z * option (list (list Z)).

(** The loop that looks for the last '/': the length of what follows it. *)
Fixpoint tail_length (path : list Z) (j : Z) : Z :=
  match path with
  | [] => j
  | c :: path' => let j := if c =? 47 then -1 else j in tail_length path' (j + 1)
  end.

(** [argv[i]] after the loop, and without a leading '_'. *)
Definition path_tail (path : list Z) : list Z := drop (length path - Z.to_nat (tail_length path 0)) path.
Definition base_name (path : list Z) : list Z :=
  match path_tail path with
  | c :: name' => if c =? 95 then name' else c :: name'
  | [] => []
  end.

(** [strcpy] and [strncpy] into the zeroed name. *)
Definition dirent_of (inum : Z) (name : list Z) : list Z :=
  dirent_enc (mkDirEntry (xshort inum) (strncpy_list name FILE_NAME_MAX_LENGTH)).

Fixpoint append_all (inum : Z) (pieces : list (list Z)) : M mkfs unit :=
  match pieces with
  | [] => mret tt
  | p :: pieces' => iappend inum p;; append_all inum pieces'
  end.

Definition add_file (rootino : Z) (f : host_file) : M mkfs unit :=
  assert (bool_decide (47 ∉ path_tail f.1)) "index(argv[i], '/') == 0";;
  match f.2 with
  | None => panic "open"
  | Some pieces =>
      inum ← ialloc INODE_REGULAR;
      iappend rootino (dirent_of inum (base_name f.1));;
      append_all inum pieces
  end.

Fixpoint add_files (rootino : Z) (files : list host_file) : M mkfs unit :=
  match files with
  | [] => mret tt
  | f :: files' => add_file rootino f;; add_files rootino files'
  end.

Definition mkfs_main (files : list host_file) : M mkfs unit :=
  modify (set_freeblock nmeta);;
  for_range 0 (Z.to_nat FSSIZE) (fun i => wsect i zero_block);;
  wsect 1 (splice zero_block 0 (super_enc mkfs_sb));;
  rootino ← ialloc INODE_DIRECTORY;
  assert (rootino =? ROOT_INODE_NO) "rootino == ROOT_INODE_NO";;
  iappend rootino (dirent_of rootino [46]);;
  iappend rootino (dirent_of rootino [46; 46]);;
  add_files rootino files;;
  din ← rinode rootino;
  let off := xint (num_bytes din) in
  let off := u32 ((off / BLOCK_SIZE + 1) * BLOCK_SIZE) in
  winode rootino (set_num_bytes (xint off) din);;
  s ← get;
  balloc (freeblock s).
