(* ===== verification/MkfsImage.v ===== *)
(** The image while mkfs fills it: the bits that balloc sets, blocks handed out
    in order, inode entries, and the block of a file that iappend looks up. *)
From S2P Require Import Prelude Bytes CString Bitmap FsDefs Cache CacheSpec CacheAlloc Path Console Inode InodeSpec InodeMap InodeFile Mkfs.

#[local] Arguments zget : simpl never.

(** * Bits *)

(** Bit [m] of a block, by bytes. *)
Definition bit_of (d : list Z) (m : Z) : bool := Z.testbit (zget d (m / 8)) (m mod 8).

Lemma testbit_cons b x k : 0 <= b < 256 -> 0 <= k ->
  Z.testbit (b + 256 * x) k = if k <? 8 then Z.testbit b k else Z.testbit x (k - 8).
Proof.
  intros Hb Hk. destruct (Z.ltb_spec k 8) as [Hlt|Hge].
  - rewrite <- (Z.mod_pow2_bits_low (b + 256 * x) 8 k) by lia. change (2 ^ 8) with 256. do 2 f_equal. dlia.
  - replace (Z.testbit (b + 256 * x) k) with (Z.testbit (b + 256 * x) (k - 8 + 8)) by (f_equal; lia).
    rewrite <- Z.div_pow2_bits by lia. change (2 ^ 8) with 256. f_equal. dlia.
Qed.

Lemma testbit_le_dec l : bytes l -> forall k, 0 <= k -> Z.testbit (le_dec l) k = bit_of l k.
Proof.
  unfold bit_of. induction 1 as [|b l Hb Hl IH]; intros k Hk.
  { cbn. unfold zget. destruct (Z.to_nat (k / 8)); cbn; by rewrite !Z.testbit_0_l. }
  cbn [le_dec]. rewrite testbit_cons by done. destruct (Z.ltb_spec k 8) as [Hlt|Hge].
  - rewrite Z.div_small, Z.mod_small by lia. done.
  - rewrite IH by lia. replace (k / 8) with ((k - 8) / 8 + 1) by dlia. replace (k mod 8) with ((k - 8) mod 8) by dlia.
    unfold zget. replace (Z.to_nat ((k - 8) / 8 + 1)) with (S (Z.to_nat ((k - 8) / 8))) by dlia. done.
Qed.

Lemma zget_slice l o n i : 0 <= i < Z.of_nat n -> (o + n <= length l)%nat -> zget (slice l o n) i = zget l (Z.of_nat o + i).
Proof.
  intros Hi Hl. apply zget_lookup; [lia |]. unfold slice. rewrite lookup_take_lt, lookup_drop by lia.
  replace (o + Z.to_nat i)%nat with (Z.to_nat (Z.of_nat o + i)) by lia. apply lookup_zget. lia.
Qed.

(** The cells of the bitmap have the bits of the bytes. *)
Lemma bitmap_get_bit d m : block_wf d -> 0 <= m < 4096 -> bitmap_get (cells_of_block d) m = bit_of d m.
Proof.
  intros [Hb Hl] Hm. rewrite bitmap_get_testbit by lia. unfold cells_of_block.
  assert (Hc : (Z.to_nat (m / 64) < 64)%nat) by dlia.
  replace (zget (words_dec 8 64 d) (m / 64)) with (le_dec (slice d (8 * Z.to_nat (m / 64)) 8)).
  2: { symmetry. apply zget_lookup; [dlia |]. by apply lookup_words_dec. }
  rewrite testbit_le_dec; [| by apply bytes_slice | dlia]. unfold bit_of.
  rewrite zget_slice by dlia. f_equal; [f_equal |]; dlia.
Qed.

Lemma u8_lor x i : 0 <= x < 256 -> 0 <= i < 8 -> u8 (Z.lor x (Z.shiftl 1 i)) = Z.lor x (2 ^ i).
Proof.
  intros Hx Hi. rewrite Z.shiftl_1_l. apply Z.mod_small.
  assert (Hlt : 0 <= 2 ^ i < 2 ^ 8) by (split; [apply Z.pow_nonneg | apply Z.pow_lt_mono_r]; lia).
  assert (H0 : 0 <= Z.lor x (2 ^ i)) by (apply Z.lor_nonneg; lia). split; [done |].
  destruct (decide (Z.lor x (2 ^ i) = 0)) as [->|]; [lia |]. apply Z.log2_lt_pow2; [lia |].
  rewrite Z.log2_lor by lia. apply Z.max_lub_lt.
  - destruct (decide (x = 0)) as [->|]; [done |]. apply Z.log2_lt_pow2; lia.
  - rewrite Z.log2_pow2; lia.
Qed.

Lemma set_bits_ok : forall n buf i, block_wf buf -> 0 <= i -> i + Z.of_nat n <= 4096 ->
  block_wf (set_bits buf i n) /\
  forall m, 0 <= m < 4096 -> bit_of (set_bits buf i n) m = ((i <=? m) && (m <? i + Z.of_nat n)) || bit_of buf m.
Proof.
  induction n as [|n IH]; intros buf i [Hb Hl] Hi Hn; cbn [set_bits].
  { split; [done |]. intros m Hm. replace ((i <=? m) && (m <? i + Z.of_nat 0)) with false; [done |].
    symmetry. apply andb_false_iff. rewrite Z.leb_gt, Z.ltb_ge. lia. }
  assert (Hx : 0 <= zget buf (i / 8) < 256) by (apply Forall_zget; [done | unfold is_byte; lia]).
  rewrite u8_lor by dlia. set (v := Z.lor _ _).
  assert (Hv : is_byte v) by (unfold v; rewrite <- u8_lor by dlia; apply Z.mod_pos_bound; lia).
  destruct (IH (zset buf (i / 8) v) (i + 1)) as [Hwf Hbit]; [| lia | lia |].
  { split; [by apply Forall_insert | by rewrite length_zset]. }
  split; [done |]. intros m Hm. rewrite Hbit by done. unfold bit_of.
  destruct (decide (m / 8 = i / 8)) as [E|E].
  - rewrite E, zget_zset_eq by (rewrite Hl; dlia). unfold v. rewrite Z.lor_spec, Z.pow2_bits_eqb by dlia.
    destruct (Z.testbit (zget buf (i / 8)) (m mod 8)); [by rewrite !orb_true_r |]. rewrite !orb_false_l, !orb_false_r.
    destruct (Z.eqb_spec (i mod 8) (m mod 8)) as [E'|E'].
    + replace m with i by dlia. symmetry. rewrite orb_true_r. apply andb_true_iff. rewrite Z.leb_le, Z.ltb_lt. lia.
    + assert (m <> i) by congruence. rewrite orb_false_r. apply eq_true_iff_eq. rewrite !andb_true_iff, !Z.leb_le, !Z.ltb_lt. lia.
  - rewrite zget_zset_ne by (dlia || congruence). f_equal. assert (m <> i) by congruence.
    apply eq_true_iff_eq. rewrite !andb_true_iff, !Z.leb_le, !Z.ltb_lt. lia.
Qed.

(** The bitmap block of [used] blocks. *)
Definition used_block (used : Z) : list Z := set_bits zero_block 0 (Z.to_nat used).

Lemma used_block_ok used : 0 <= used <= 4096 -> block_wf (used_block used) /\
  forall m, 0 <= m < 4096 -> bit_of (used_block used) m = (m <? used).
Proof.
  intros Hu. destruct (set_bits_ok (Z.to_nat used) zero_block 0 zero_block_wf ltac:(lia) ltac:(lia)) as [Hw Hb].
  split; [done |]. intros m Hm. unfold used_block. rewrite Hb by done.
  unfold bit_of, zero_block. rewrite zget_replicate, Z.testbit_0_l, orb_false_r.
  apply eq_true_iff_eq. rewrite andb_true_iff, Z.leb_le, !Z.ltb_lt. lia.
Qed.

(** * The layout that mkfs writes *)

Lemma xint_small x : 0 <= x < 2 ^ 32 -> xint x = x.
Proof.
  intros Hx. unfold xint, u8. rewrite !Z.shiftr_div_pow2 by lia. cbn [le_dec].
  change (2 ^ 8) with 256. change (2 ^ 16) with (256 * 256). change (2 ^ 24) with (256 * 256 * 256).
  rewrite <- !Z.div_div by lia. dlia.
Qed.

Lemma xshort_small x : 0 <= x < 2 ^ 16 -> xshort x = x.
Proof. intros Hx. unfold xshort, u8. rewrite !Z.shiftr_div_pow2 by lia. cbn [le_dec]. change (2 ^ 8) with 256. dlia. Qed.

Lemma mkfs_sb_eq : mkfs_sb = mkSuper 1000 908 200 63 2 65 91.
Proof. by vm_compute. Qed.

Lemma mkfs_geometry : geometry mkfs_sb.
Proof. rewrite mkfs_sb_eq. split; vm_compute; repeat split; discriminate. Qed.

#[local] Notation sb := mkfs_sb.
#[local] Notation G := mkfs_geometry.

Lemma bitmap_start_91 : bitmap_start sb = 91.
Proof. done. Qed.

Lemma IBLOCK_eq i : IBLOCK i = to_block_no sb i.
Proof. unfold IBLOCK, to_block_no. change IPB with INODE_PER_BLOCK. lia. Qed.

Lemma inode_blocks i : 0 <= i < 200 -> 65 <= to_block_no sb i < 91.
Proof. intros Hi. exact (inode_block_range G i Hi). Qed.

(** * The file system on the image *)

(** The image [st] shows the blocks [w]: they are those of the image, with the
    bitmap that balloc will write for the blocks handed out so far; the blocks
    that are left are zero. *)
Record imaged (st : mkfs) (w : Z -> list Z) : Prop := {
  im_len : img_len st = 1000;
  im_range : 92 <= freeblock st <= 1000;
  im_same : forall n, n <> 91 -> img st n = w n;
  im_bits : w 91 = used_block (freeblock st);
  im_wf : forall n, block_wf (w n);
  im_zero : forall n, freeblock st <= n < 1000 -> w n = zero_block
}.

Lemma imaged_used st w m : imaged st w -> 0 <= m < 1000 -> used_bit sb w m = (m <? freeblock st).
Proof.
  intros H Hm. unfold used_bit. rewrite (bitmap_block_one G m Hm), bitmap_start_91, (im_bits _ _ H).
  pose proof (im_range _ _ H). destruct (used_block_ok (freeblock st) ltac:(lia)) as [Hw Hb].
  change BIT_PER_BLOCK with 4096. rewrite Z.mod_small, bitmap_get_bit by (done || lia). apply Hb. lia.
Qed.

Lemma imaged_meta st w : imaged st w -> meta_used sb w.
Proof.
  intros H m Hm. rewrite bitmap_start_91 in Hm. rewrite (imaged_used _ _ _ H) by lia. pose proof (im_range _ _ H). lia.
Qed.

Lemma imaged_owned st w n : imaged st w -> owned sb w n <-> 91 < n < freeblock st.
Proof.
  intros H. pose proof (im_range _ _ H). unfold owned, data_block. rewrite bitmap_start_91. change (num_blocks sb) with 1000. split.
  - intros [? Hu]. rewrite (imaged_used _ _ _ H) in Hu by lia. lia.
  - intros Hn. rewrite (imaged_used _ _ _ H) by lia. lia.
Qed.

Lemma imaged_free st w : imaged st w -> free_list sb w = seqZ (freeblock st) (1000 - freeblock st).
Proof.
  intros H. pose proof (im_range _ _ H) as Hr. unfold free_list. change (num_blocks sb) with 1000.
  replace 1000 with (freeblock st + (1000 - freeblock st)) at 1 by lia. rewrite seqZ_app by lia. rewrite filter_app, Z.add_0_l.
  rewrite (filter_all _ (seqZ (freeblock st) _)).
  2: { intros m Hm%elem_of_seqZ. rewrite (imaged_used _ _ _ H) by lia. lia. }
  replace (filter _ (seqZ 0 (freeblock st))) with ([] : list Z); [done |]. symmetry. apply elem_of_nil_inv.
  intros m [Hu Hm%elem_of_seqZ]%list_elem_of_filter. revert Hu. rewrite (imaged_used _ _ _ H) by lia. lia.
Qed.

Lemma sector_small n : 0 <= n < 1000 -> sector n = n.
Proof. intros Hn. unfold sector, BLOCK_SIZE. rewrite u32_small by lia. apply Z.div_mul. lia. Qed.

Section calls.
Context (E : string -> Prop).

Lemma rsect_ok st w n (Q : list Z -> mkfs -> Prop) : imaged st w -> 0 <= n < 1000 -> n <> 91 -> Q (w n) st -> wp E (rsect n) Q st.
Proof.
  intros H Hn H91 HQ. unfold rsect. apply wp_bind, wp_get. rewrite sector_small by done.
  rewrite (im_len _ _ H), (proj2 (Z.ltb_lt _ _)) by lia. apply wp_ret. by rewrite (im_same _ _ H) by done.
Qed.

(** A block that is in use, or an inode block, is written. *)
Lemma wsect_ok st w n d (Q : unit -> mkfs -> Prop) : imaged st w -> 0 <= n < freeblock st -> n <> 91 -> block_wf d ->
  (forall st', imaged st' (upd w n d) -> freeblock st' = freeblock st -> freeinode st' = freeinode st -> Q tt st') ->
  wp E (wsect n d) Q st.
Proof.
  intros H Hn H91 Hd HQ. destruct H. apply wp_modify, HQ; [| done | done].
  rewrite sector_small by lia. split; cbn; try done; unfold upd.
  - lia.
  - intros m Hm. destruct (m =? n); [done | auto].
  - by rewrite (proj2 (Z.eqb_neq _ _)) by congruence.
  - intros m. by destruct (m =? n).
  - intros m Hm. rewrite (proj2 (Z.eqb_neq _ _)) by lia. auto.
Qed.

Lemma rinode_ok st w i (Q : InodeEntry -> mkfs -> Prop) : imaged st w -> 0 <= i < 200 -> Q (disk_entry sb w i) st -> wp E (rinode i) Q st.
Proof.
  intros H Hi HQ. pose proof (inode_blocks i Hi). unfold rinode. rewrite IBLOCK_eq.
  apply wp_bind. eapply rsect_ok; [exact H | lia | lia |]. by apply wp_ret.
Qed.

Lemma winode_ok st w i e (Q : unit -> mkfs -> Prop) : imaged st w -> 0 <= i < 200 -> entry_wf e ->
  (forall st', imaged st' (write_entry sb w i e) -> freeblock st' = freeblock st -> freeinode st' = freeinode st -> Q tt st') ->
  wp E (winode i e) Q st.
Proof.
  intros H Hi He HQ. pose proof (inode_blocks i Hi). pose proof (im_range _ _ H). unfold winode. rewrite IBLOCK_eq.
  apply wp_bind. eapply rsect_ok; [exact H | lia | lia |]. eapply wsect_ok; [exact H | lia | lia | | exact HQ].
  apply put_entry_wf; [apply (im_wf _ _ H) | done].
Qed.

(** [freeblock++] is the allocation of the first free block. *)
Definition handed (st : mkfs) (w : Z -> list Z) : Z -> list Z := upd w 91 (used_block (freeblock st + 1)).

Lemma handed_imaged st w : imaged st w -> freeblock st < 1000 -> imaged (set_freeblock (freeblock st + 1) st) (handed st w).
Proof.
  intros H Hf. destruct H. destruct (used_block_ok (freeblock st + 1) ltac:(lia)) as [Hw _].
  unfold handed, upd. split; cbn; try done.
  - lia.
  - intros n Hn. rewrite (proj2 (Z.eqb_neq _ _)) by done. auto.
  - intros n. by destruct (n =? 91).
  - intros n Hn. rewrite (proj2 (Z.eqb_neq _ _)) by lia. apply im_zero0. lia.
Qed.

Lemma handed_grown st w : imaged st w -> freeblock st < 1000 ->
  grown sb w (freeblock st) (handed st w) /\ data_block sb (freeblock st) /\
  free_list sb w = freeblock st :: free_list sb (handed st w).
Proof.
  intros H Hf. pose proof (handed_imaged st w H Hf) as H'. pose proof (im_range _ _ H) as Hr.
  assert (Hfl : free_list sb w = freeblock st :: free_list sb (handed st w)).
  { rewrite (imaged_free _ _ H), (imaged_free _ _ H'). cbn [freeblock set_freeblock]. rewrite seqZ_cons by lia.
    f_equal. f_equal; lia. }
  split_and!; [| split; [rewrite bitmap_start_91; lia | done] | done]. split.
  - unfold handed, upd. rewrite (proj2 (Z.eqb_neq _ _)) by lia. apply (im_zero _ _ H). lia.
  - intros n _ Hn. rewrite bitmap_start_91 in Hn. unfold handed, upd. by rewrite (proj2 (Z.eqb_neq _ _)) by done.
  - intros m Hm. change (num_blocks sb) with 1000 in Hm. rewrite (imaged_used _ _ _ H'), (imaged_used _ _ _ H) by done.
    cbn [freeblock set_freeblock]. case_decide; lia.
  - by rewrite Hfl.
Qed.

Lemma next_block_ok st w (Q : Z -> mkfs -> Prop) : imaged st w -> freeblock st < 1000 ->
  (forall st', imaged st' (handed st w) -> freeblock st' = freeblock st + 1 -> freeinode st' = freeinode st -> Q (freeblock st) st') ->
  wp E next_block Q st.
Proof.
  intros H Hf HQ. pose proof (im_range _ _ H). unfold next_block. apply wp_bind, wp_get. apply wp_bind, wp_modify, wp_ret.
  rewrite u32_small by lia. apply HQ; [by apply handed_imaged | done | done].
Qed.
End calls.

(** * The block of a file *)

(** The blocks that the block with index [idx] of the file needs. *)
Definition needs (e : InodeEntry) (w : Z -> list Z) (idx : Z) : Z :=
  (if block_of e w idx =? 0 then 1 else 0) + (if (INODE_NUM_DIRECT <=? idx) && (indirect e =? 0) then 1 else 0).

(** What file_block leaves: the block [no] at [idx], zero if it is new. *)
Record found_block (st : mkfs) (e : InodeEntry) (w : Z -> list Z) (idx : Z) (st' : mkfs) (no : Z) (e' : InodeEntry) (w' : Z -> list Z) : Prop := {
  fb_mapped : mapped_to (sb := sb) e w idx no e' w';
  fb_imaged : imaged st' w';
  fb_used : freeblock st' = freeblock st + needs e w idx;
  fb_inode : freeinode st' = freeinode st;
  fb_new : block_of e w idx = 0 -> w' no = zero_block;
  fb_direct : idx < INODE_NUM_DIRECT -> indirect e' = indirect e;
  fb_indirect : INODE_NUM_DIRECT <= idx -> indirect e' <> 0
}.

Section file_block.
Context (E : string -> Prop).

Lemma xint_addr e w idx : file_wf sb e w -> xint (zget (addrs e) idx) = zget (addrs e) idx.
Proof.
  intros Hw. apply xint_small. destruct (fw_entry _ _ _ Hw) as (_ & _ & _ & _ & _ & Ha & _).
  apply (Forall_zget (fun a => 0 <= a < 2 ^ 32)); [done | lia].
Qed.

Lemma direct_block_ok st w e idx (Q : Z * InodeEntry -> mkfs -> Prop) : imaged st w -> file_wf sb e w -> 0 <= idx < INODE_NUM_DIRECT ->
  freeblock st + needs e w idx <= 1000 ->
  (forall st' no e' w', found_block st e w idx st' no e' w' -> Q (no, e') st') -> wp E (file_block e idx) Q st.
Proof.
  intros H Hw Hi Hf HQ. unfold file_block. rewrite (proj2 (Z.ltb_lt _ _)) by lia. rewrite (xint_addr e w idx Hw).
  assert (Eb : block_of e w idx = zget (addrs e) idx) by (unfold block_of; by rewrite (proj2 (Z.ltb_lt _ _)) by lia).
  unfold needs in *. rewrite Eb, (proj2 (Z.leb_gt INODE_NUM_DIRECT idx)) in Hf by lia.
  destruct (Z.eqb_spec (zget (addrs e) idx) 0) as [Hz|Hnz].
  - cbn [andb] in Hf. destruct (handed_grown st w H ltac:(lia)) as (Hg & Hd & Hfl).
    apply wp_bind, wp_bind. eapply next_block_ok; [exact H | lia |]. intros st1 H1 Ef1 Ei1. pose proof (im_range _ _ H).
    rewrite xint_small by lia. apply wp_ret, wp_ret. cbn [addrs set_addrs].
    assert (Hlen : length (addrs e) = 12%nat) by apply (fw_entry _ _ _ Hw).
    rewrite zget_zset_eq by (rewrite Hlen; unfold INODE_NUM_DIRECT in Hi; lia). rewrite xint_small by lia.
    eapply HQ. split; [| exact H1 | | done | | done | lia].
    + eapply (grow_direct G); [done | by eapply imaged_meta | exact Hfl | exact Hg | exact Hd | done | congruence].
    + unfold needs. rewrite Eb, Hz, (proj2 (Z.leb_gt INODE_NUM_DIRECT idx)) by lia. cbn. lia.
    + intros _. apply (gr_zero _ _ _ _ Hg).
  - apply wp_bind, wp_ret, wp_ret. rewrite (xint_addr e w idx Hw). rewrite <- Eb. eapply HQ. split; [| exact H | | done | congruence | done | lia].
    + apply mapped_to_refl; [done | by eapply imaged_meta | congruence].
    + unfold needs. rewrite (proj2 (Z.eqb_neq _ _)), (proj2 (Z.leb_gt INODE_NUM_DIRECT idx)) by (congruence || lia). cbn. lia.
Qed.

(** The rest of file_block when there is an indirect block. *)
Lemma indirect_entry_ok st w e idx (Q : Z * InodeEntry -> mkfs -> Prop) : imaged st w -> file_wf sb e w ->
  INODE_NUM_DIRECT <= idx < INODE_MAX_BLOCKS -> indirect e <> 0 -> freeblock st + needs e w idx <= 1000 ->
  (forall st' no w', found_block st e w idx st' no e w' -> Q (no, e) st') ->
  wp E (ind ← rsect (xint (indirect e));
        ind ← (if zget (get_addrs ind) (idx - INODE_NUM_DIRECT) =? 0 then
                 b ← next_block;
                 let ind := put_addr ind (idx - INODE_NUM_DIRECT) (xint b) in
                 wsect (xint (indirect e)) ind;;
                 mret ind
               else mret ind);
        mret (xint (zget (get_addrs ind) (idx - INODE_NUM_DIRECT)), e)) Q st.
Proof.
  intros H Hw Hi Hne Hf HQ. destruct (fw_indirect _ _ _ Hw Hne) as [Ho _]. apply (imaged_owned _ _ _ H) in Ho as Hr.
  pose proof (im_range _ _ H) as Hfr. rewrite xint_small by lia. change INODE_NUM_DIRECT with 12 in *. change INODE_MAX_BLOCKS with 140 in *.
  assert (Eb : block_of e w idx = zget (get_addrs (w (indirect e))) (idx - 12)).
  { unfold block_of. change INODE_NUM_DIRECT with 12. by rewrite (proj2 (Z.ltb_ge _ _)), (proj2 (Z.eqb_neq _ _)) by (done || lia). }
  assert (En : needs e w idx = if block_of e w idx =? 0 then 1 else 0).
  { unfold needs. rewrite (proj2 (Z.eqb_neq (indirect e) 0)), andb_false_r by done. lia. }
  apply wp_bind. eapply rsect_ok; [exact H | lia | lia |]. rewrite <- Eb. rewrite En in Hf.
  destruct (Z.eqb_spec (block_of e w idx) 0) as [Hz|Hnz].
  - destruct (handed_grown st w H ltac:(lia)) as (Hg & Hd & Hfl).
    apply wp_bind, wp_bind. eapply next_block_ok; [exact H | lia |]. intros st1 H1 Ef1 Ei1. rewrite xint_small by lia.
    assert (Ew : handed st w (indirect e) = w (indirect e)) by (apply (gr_same _ _ _ _ Hg); rewrite ?bitmap_start_91; lia).
    assert (Hp : block_wf (put_addr (w (indirect e)) (idx - 12) (freeblock st))) by (apply put_addr_wf; [apply (im_wf _ _ H) | lia]).
    apply wp_bind. eapply wsect_ok; [exact H1 | lia | lia | exact Hp |]. intros st2 H2 Ef2 Ei2. apply wp_ret, wp_ret.
    rewrite get_put_addr, decide_True by (try apply (im_wf _ _ H); lia). rewrite xint_small by lia.
    eapply HQ. split; [| exact H2 | lia | congruence | | done | done].
    + rewrite <- Ew. change 12 with INODE_NUM_DIRECT. eapply (grow_entry G);
        [done | by eapply imaged_meta | apply (im_wf _ _ H1) | exact Hfl | exact Hg | exact Hd | done | done | done].
    + intros _. unfold upd. rewrite (proj2 (Z.eqb_neq _ _)) by lia. apply (gr_zero _ _ _ _ Hg).
  - apply wp_bind, wp_ret, wp_ret. rewrite <- Eb. destruct (fw_owned _ _ _ Hw idx) as [[? ?] _]; [change INODE_MAX_BLOCKS with 140; lia | done |].
    rewrite xint_small by (change (num_blocks sb) with 1000 in *; rewrite bitmap_start_91 in *; lia).
    eapply HQ. split; [| exact H | lia | done | done | done | done].
    apply mapped_to_refl; [done | by eapply imaged_meta | done].
Qed.

Lemma file_block_ok st w e idx (Q : Z * InodeEntry -> mkfs -> Prop) : imaged st w -> file_wf sb e w -> file_index idx ->
  freeblock st + needs e w idx <= 1000 ->
  (forall st' no e' w', found_block st e w idx st' no e' w' -> Q (no, e') st') -> wp E (file_block e idx) Q st.
Proof.
  intros H Hw Hi Hf HQ. unfold file_index in Hi. destruct (decide (idx < INODE_NUM_DIRECT)) as [Hlt|Hge]; [apply direct_block_ok with w; done || lia |].
  unfold file_block. rewrite (proj2 (Z.ltb_ge _ _)) by lia.
  destruct (decide (indirect e = 0)) as [Hz|Hnz].
  - assert (Eb : block_of e w idx = 0) by (unfold block_of; rewrite (proj2 (Z.ltb_ge _ _)) by lia; by rewrite Hz).
    assert (En : needs e w idx = 2) by (unfold needs; rewrite Eb, Hz, (proj2 (Z.leb_le INODE_NUM_DIRECT idx)) by lia; done).
    rewrite Hz. change (xint 0 =? 0) with true. destruct (handed_grown st w H ltac:(lia)) as (Hg & Hd & Hfl). pose proof (im_range _ _ H).
    apply wp_bind, wp_bind. eapply next_block_ok; [exact H | lia |]. intros st1 H1 Ef1 Ei1. rewrite xint_small by lia. apply wp_ret.
    destruct (grow_indirect G e w (handed st w) (freeblock st) _ Hw Hfl Hg Hd Hz) as [Hw1 Eb1]. set (e1 := set_indirect (freeblock st) e) in *.
    assert (Hi1 : indirect e1 <> 0) by (cbn; lia).
    assert (En1 : needs e1 (handed st w) idx = 1).
    { unfold needs. rewrite Eb1, Eb, (proj2 (Z.eqb_neq _ _) Hi1), andb_false_r. done. }
    eapply (indirect_entry_ok st1 (handed st w) e1); [exact H1 | done | lia | done | lia |].
    intros st2 no w2 [Hmt H2 Eu Ei2 Hnew _ _]. eapply HQ. split; [| exact H2 | lia | congruence | | lia | done].
    + eapply (grow_both G e w (handed st w)); [done | exact Hfl | exact Hg | exact Hd | done | done | done | exact Hmt |].
      rewrite (imaged_free _ _ H1), (imaged_free _ _ H2), !length_seqZ. lia.
    + intros _. apply Hnew. by rewrite Eb1.
  - rewrite xint_small by (pose proof (fw_entry _ _ _ Hw) as (_ & _ & _ & _ & _ & _ & _ & ?); lia).
    rewrite (proj2 (Z.eqb_neq _ _)) by done. apply wp_bind, wp_ret.
    eapply indirect_entry_ok; [exact H | done | lia | done | done | eauto].
Qed.
End file_block.
