(* ===== verification/MkfsAppend.v ===== *)
(** iappend of user/mkfs/main.c: a file grows at its end, block by block, and the
    blocks it takes are counted. *)
From S2P Require Import Prelude Bytes CString Bitmap FsDefs Cache CacheSpec CacheAlloc Path Console Inode InodeSpec InodeMap InodeFile Mkfs MkfsImage.

#[local] Arguments zget : simpl never.
#[local] Notation sb := mkfs_sb.
#[local] Notation G := mkfs_geometry.

(** * Files that only grow *)

(** The blocks of a file of [n] bytes, the indirect block included. *)
Definition blocks_for (n : Z) : Z := (n + 511) / 512 + (if 6144 <? n then 1 else 0).

(** [n] bytes have been appended to the file: it has exactly the blocks for them,
    and the rest of the last block is zero. *)
Record filled (e : InodeEntry) (w : Z -> list Z) (n : Z) : Prop := {
  fl_wf : file_wf sb e w;
  fl_size : 0 <= n <= INODE_MAX_BYTES;
  fl_blocks : forall j, file_index j -> block_of e w j <> 0 <-> j * BLOCK_SIZE < n;
  fl_ind : indirect e <> 0 <-> INODE_NUM_DIRECT * BLOCK_SIZE < n;
  fl_rest : forall k, n <= k < INODE_MAX_BYTES -> block_of e w (k / BLOCK_SIZE) <> 0 -> byte_of e w k = 0
}.

Lemma needs_filled e w off c : filled e w off -> 0 <= off -> 0 < c -> off mod BLOCK_SIZE + c <= BLOCK_SIZE ->
  off + c <= INODE_MAX_BYTES -> needs e w (off / BLOCK_SIZE) = blocks_for (off + c) - blocks_for off.
Proof.
  intros [_ _ Hb Hi _] H0 Hc Hm Hmax. unfold needs, blocks_for, BLOCK_SIZE, INODE_NUM_DIRECT in *.
  specialize (Hb (off / 512) (index_of_byte off ltac:(lia))).
  destruct (Z.eqb_spec (block_of e w (off / 512)) 0), (Z.eqb_spec (indirect e) 0), (Z.leb_spec 12 (off / 512)),
    (Z.ltb_spec 6144 (off + c)), (Z.ltb_spec 6144 off); cbn [andb]; dlia.
Qed.

Lemma filled_next st st1 e w no e1 w1 off piece :
  (forall n, block_wf (w n)) -> filled e w off -> (0 < length piece)%nat ->
  off mod BLOCK_SIZE + Z.of_nat (length piece) <= BLOCK_SIZE -> off + Z.of_nat (length piece) <= INODE_MAX_BYTES ->
  found_block st e w (off / BLOCK_SIZE) st1 no e1 w1 ->
  let w' := upd w1 no (splice (w1 no) (Z.to_nat (off mod BLOCK_SIZE)) piece) in
  wrote (sb := sb) e w off piece e1 w' /\ filled e1 w' (off + Z.of_nat (length piece)).
Proof.
  intros Hwf Hfl Hlen Hp Hmax Hfb w'. pose proof (fb_mapped _ _ _ _ _ _ _ _ Hfb) as Hmt.
  pose proof (im_wf _ _ (fb_imaged _ _ _ _ _ _ _ _ Hfb)) as Hwf1. pose proof (fl_size _ _ _ Hfl) as Hoff.
  pose proof (wrote_block G e w off piece no e1 w1 Hwf1 Hwf (fl_wf _ _ _ Hfl) ltac:(lia) Hmax Hp Hlen Hmt) as Hwr.
  split; [done |]. set (idx := off / BLOCK_SIZE) in *. pose proof (mt_wf _ _ _ _ _ _ Hmt) as Hw1.
  assert (Hidx : file_index idx) by (apply index_of_byte; lia).
  assert (Eno : block_of e1 w1 idx = no) by (rewrite (mt_block _ _ _ _ _ _ Hmt) by done; by rewrite decide_True).
  pose proof (mt_nz _ _ _ _ _ _ Hmt) as Hnz.
  assert (Hni : indirect e1 <> 0 -> no <> indirect e1) by (intros Hi; rewrite <- Eno; by apply (fw_indirect _ _ _ Hw1 Hi)).
  assert (Eb : forall j, file_index j -> block_of e1 w' j = if decide (j = idx) then no else block_of e w j).
  { intros j Hj. unfold w'. rewrite (block_of_write e1 w1) by done. by apply (mt_block _ _ _ _ _ _ Hmt). }
  split.
  - apply Hwr.
  - lia.
  - intros j Hj. rewrite Eb by done. case_decide as Ej.
    + subst j. split; [intros _ | done]. unfold idx, BLOCK_SIZE in *. dlia.
    + rewrite (fl_blocks _ _ _ Hfl j Hj). unfold idx, BLOCK_SIZE in *. dlia.
  - destruct (decide (idx < INODE_NUM_DIRECT)) as [Hd|Hd].
    + rewrite (fb_direct _ _ _ _ _ _ _ _ Hfb Hd), (fl_ind _ _ _ Hfl). unfold idx, INODE_NUM_DIRECT, BLOCK_SIZE in *. dlia.
    + split; [intros _ | intros _; apply (fb_indirect _ _ _ _ _ _ _ _ Hfb); lia].
      unfold idx, INODE_NUM_DIRECT, BLOCK_SIZE in *. dlia.
  - intros k Hk. pose proof (index_of_byte k ltac:(lia)) as Hki. rewrite Eb by done. intros Hkb.
    destruct (decide (block_of e w (k / BLOCK_SIZE) = 0)) as [Hz|Hb].
    2: { rewrite (wr_kept _ _ _ _ _ _ Hwr) by (done || lia). apply (fl_rest _ _ _ Hfl); [lia | done]. }
    destruct (decide (k / BLOCK_SIZE = idx)) as [Ek|]; [| done].
    unfold w'. rewrite (byte_of_splice e1 w1 idx no) by (done || (unfold BLOCK_SIZE in *; dlia)).
    rewrite decide_False by (unfold idx, BLOCK_SIZE in *; dlia). unfold byte_of. rewrite Ek, Eno.
    rewrite (fb_new _ _ _ _ _ _ _ _ Hfb) by (by rewrite <- Ek). apply zget_replicate.
Qed.

(** A file stays as it is when its blocks do. *)
Lemma filled_frame e w w' n : filled e w n -> (forall m, m <> 0 -> in_file e w m -> owned sb w' m /\ w' m = w m) ->
  filled e w' n /\ (forall j, block_of e w' j = block_of e w j) /\ (num_bytes e <= n -> content e w' = content e w).
Proof.
  intros Hfl Hsame. pose proof (fl_wf _ _ _ Hfl) as Hw.
  assert (Eb : forall j, block_of e w' j = block_of e w j).
  { intros j. unfold block_of. destruct (j <? INODE_NUM_DIRECT); [done |]. destruct (Z.eqb_spec (indirect e) 0); [done |].
    by destruct (Hsame (indirect e)) as [_ ->]; [| left |]. }
  assert (Ey : forall k, 0 <= k < INODE_MAX_BYTES -> block_of e w (k / BLOCK_SIZE) <> 0 -> byte_of e w' k = byte_of e w k).
  { intros k Hk Hb. unfold byte_of. rewrite Eb. destruct (Hsame (block_of e w (k / BLOCK_SIZE))) as [_ ->]; [done | | done].
    right. exists (k / BLOCK_SIZE). split; [by apply index_of_byte | done]. }
  split_and!; [| done |].
  - split; [| apply Hfl | | apply Hfl |].
    + split; [apply Hw | apply Hw | | | |].
      * intros j. rewrite Eb. apply (fw_mapped _ _ _ Hw).
      * intros j Hj. rewrite Eb. intros Hb. apply Hsame; [done |]. right. by exists j.
      * intros j k. rewrite !Eb. apply (fw_inj _ _ _ Hw).
      * intros Hi. split; [apply Hsame; [done | by left] |]. intros j. rewrite Eb. apply (fw_indirect _ _ _ Hw Hi).
    + intros j. rewrite Eb. apply (fl_blocks _ _ _ Hfl).
    + intros k Hk. rewrite Eb. intros Hb. rewrite Ey by (pose proof (fl_size _ _ _ Hfl); done || lia). by apply (fl_rest _ _ _ Hfl).
  - intros Hn. apply content_eq.
    + rewrite length_content. destruct (fw_entry _ _ _ Hw) as (_ & _ & _ & _ & ? & _). lia.
    + intros k Hk. rewrite zget_content by done. pose proof (fw_size _ _ _ Hw). apply Ey; [lia |].
      apply (fw_mapped _ _ _ Hw); unfold BLOCK_SIZE; dlia.
Qed.

Lemma filled_resize e w n m : filled e w n -> 0 <= m -> m <= (n + 511) / 512 * 512 -> m <= INODE_MAX_BYTES ->
  filled (set_num_bytes m e) w n.
Proof.
  intros Hfl H0 Hm Hmax. pose proof (fl_wf _ _ _ Hfl) as Hw. destruct Hfl. split; try done. destruct Hw. split; try done.
  - apply entry_wf_size; [done |]. change INODE_MAX_BYTES with 71680 in *. lia.
  - intros j Hj Hjn. cbn in Hjn. change (block_of (set_num_bytes m e) w j) with (block_of e w j).
    unfold INODE_MAX_BYTES, BLOCK_SIZE in *. apply fl_blocks0; [unfold file_index; lia | dlia].
Qed.

Lemma blocks_for_mono a b : 0 <= a <= b -> blocks_for a <= blocks_for b.
Proof. intros Hab. unfold blocks_for. destruct (Z.ltb_spec 6144 a), (Z.ltb_spec 6144 b); dlia. Qed.

Lemma found_range st e w idx st' no e' w' : found_block st e w idx st' no e' w' -> file_index idx -> 91 < no < freeblock st'.
Proof.
  intros Hfb Hi. apply (imaged_owned _ _ _ (fb_imaged _ _ _ _ _ _ _ _ Hfb)). pose proof (fb_mapped _ _ _ _ _ _ _ _ Hfb) as Hmt.
  assert (Eno : block_of e' w' idx = no) by (rewrite (mt_block _ _ _ _ _ _ Hmt) by done; by rewrite decide_True).
  rewrite <- Eno. apply (fw_owned _ _ _ (mt_wf _ _ _ _ _ _ Hmt)); [done |]. rewrite Eno. apply (mt_nz _ _ _ _ _ _ Hmt).
Qed.

(** * The loop *)

Section append.
Context (E : string -> Prop).

Lemma iappend_nil_ok fuel st w e off (Q : InodeEntry * Z -> mkfs -> Prop) : imaged st w -> filled e w off ->
  let off' := off + Z.of_nat 0 in
  (forall st' e' w', imaged st' w' -> wrote (sb := sb) e w off [] e' w' -> filled e' w' off' ->
    freeblock st' = freeblock st + (blocks_for off' - blocks_for off) -> freeinode st' = freeinode st -> Q (e', off') st') ->
  wp E (iappend_loop fuel e off []) Q st.
Proof.
  intros H Hfl off' HQ. replace (iappend_loop fuel e off []) with (mret (M := M mkfs) (e, off)) by (by destruct fuel).
  assert (Eo : off' = off) by (unfold off'; lia). rewrite Eo in HQ. apply wp_ret.
  eapply HQ; [exact H | | done | lia | done]. apply wrote_nil; [apply Hfl | by eapply imaged_meta].
Qed.

Lemma iappend_loop_ok : forall fuel st w e off p (Q : InodeEntry * Z -> mkfs -> Prop),
  imaged st w -> filled e w off -> bytes p -> (length p <= fuel)%nat -> off + Z.of_nat (length p) <= INODE_MAX_BYTES ->
  let off' := off + Z.of_nat (length p) in
  freeblock st + (blocks_for off' - blocks_for off) <= 1000 ->
  (forall st' e' w', imaged st' w' -> wrote (sb := sb) e w off p e' w' -> filled e' w' off' ->
    freeblock st' = freeblock st + (blocks_for off' - blocks_for off) -> freeinode st' = freeinode st -> Q (e', off') st') ->
  wp E (iappend_loop fuel e off p) Q st.
Proof.
  induction fuel as [|fuel IH]; intros st w e off p Q H Hfl Hby Hlen Hmax off' Hfree HQ.
  all: destruct p as [|b p0]; [by apply iappend_nil_ok with w | cbn in Hlen; try lia].
  cbn [iappend_loop]. set (p := b :: p0) in *. set (n := Z.of_nat (length p)) in *.
  assert (Hpos : 0 < n) by (unfold n, p; cbn; lia). assert (Hlp : (length p <= S fuel)%nat) by (unfold p; cbn; lia).
  clearbody p. pose proof (fl_size _ _ _ Hfl) as Hoff. pose proof (index_of_byte off ltac:(lia)) as Hidx.
  apply wp_bind, wp_assert; [apply Z.ltb_lt, Hidx |].
  set (n1 := if n <? _ then _ else _).
  assert (Hn1 : 0 < n1 <= n /\ off mod BLOCK_SIZE + n1 <= BLOCK_SIZE).
  { unfold n1. change INODE_MAX_BYTES with 71680 in *. unfold BLOCK_SIZE. rewrite u32_small by dlia.
    destruct (Z.ltb_spec n ((off / 512 + 1) * 512 - off)); dlia. }
  clearbody n1. assert (Htake : length (take (Z.to_nat n1) p) = Z.to_nat n1) by (rewrite length_take; lia).
  assert (Hmono : blocks_for (off + n1) <= blocks_for off').
  { apply blocks_for_mono; unfold off'; lia. }
  assert (Hneed : needs e w (off / BLOCK_SIZE) = blocks_for (off + n1) - blocks_for off) by (apply needs_filled; done || lia).
  apply wp_bind. eapply file_block_ok; [exact H | apply Hfl | done | lia |]. intros st1 no e1 w1 Hfb.
  pose proof (fb_imaged _ _ _ _ _ _ _ _ Hfb) as H1. pose proof (im_range _ _ H1) as Hr1.
  destruct (found_range _ _ _ _ _ _ _ _ Hfb Hidx) as [Hno1 Hno2].
  apply wp_bind. eapply rsect_ok; [exact H1 | lia | lia |].
  replace (off - off / BLOCK_SIZE * BLOCK_SIZE) with (off mod BLOCK_SIZE) by (unfold BLOCK_SIZE; dlia).
  destruct (filled_next st st1 e w no e1 w1 off (take (Z.to_nat n1) p)) as [Hwr Hfl2];
    rewrite ?Htake; [apply (im_wf _ _ H) | done | lia | lia | lia | done |].
  rewrite Htake, Z2Nat.id in Hfl2 by lia.
  apply wp_bind. eapply wsect_ok; [exact H1 | lia | lia | |].
  { apply splice_block_wf; [apply (im_wf _ _ H1) | by apply Forall_take | rewrite Htake; unfold BLOCK_SIZE in *; dlia]. }
  intros st2 H2 Ef2 Ei2. pose proof (fb_used _ _ _ _ _ _ _ _ Hfb) as Ef1. pose proof (fb_inode _ _ _ _ _ _ _ _ Hfb) as Ei1.
  assert (Eoff : off + n1 + Z.of_nat (length (drop (Z.to_nat n1) p)) = off') by (rewrite length_drop; unfold off'; lia).
  eapply (IH st2 _ e1 (off + n1)); [exact H2 | done | by apply Forall_drop | rewrite length_drop; lia | lia | rewrite Eoff; lia |].
  rewrite Eoff. intros st' e' w' H' Hwr' Hfl' Ef' Ei'. eapply HQ; [exact H' | | done | lia | congruence].
  rewrite <- (take_drop (Z.to_nat n1) p). eapply (wrote_app G); [lia | rewrite take_drop; unfold off', n in *; lia | exact Hwr |].
  by rewrite Htake, Z2Nat.id by lia.
Qed.

(** The blocks of the file after a write were its own before, or free. *)
Lemma wrote_blocks e w off p e1 w1 n : wrote (sb := sb) e w off p e1 w1 -> n <> 0 -> in_file e1 w1 n -> in_file e w n \/ ~ owned sb w n.
Proof.
  intros Hwr Hn [->|(j & Hj & <-)].
  - destruct (wr_ind _ _ _ _ _ _ Hwr) as [->|]; [left; by left | by right].
  - destruct (decide (block_of e w j = 0)) as [Hz|Hb].
    + destruct (wr_fresh _ _ _ _ _ _ Hwr j Hj Hz); [done | by right].
    + left. right. exists j. split; [done |]. symmetry. by apply (wr_block _ _ _ _ _ _ Hwr).
Qed.

Lemma overwrite_end c p : overwrite c (length c) p = c ++ p.
Proof. unfold overwrite. rewrite take_ge, drop_ge, app_nil_r by lia. done. Qed.

(** What iappend leaves: [p] at the end of the file of the inode [i]. *)
Record appended (st : mkfs) (w : Z -> list Z) (i : Z) (p : list Z) (st' : mkfs) (w' : Z -> list Z) : Prop := {
  ap_imaged : imaged st' w';
  ap_updated : updated (sb := sb) (disk_entry sb w i) w i (content (disk_entry sb w i) w ++ p) (disk_entry sb w' i) w';
  ap_size : num_bytes (disk_entry sb w' i) = num_bytes (disk_entry sb w i) + Z.of_nat (length p);
  ap_filled : filled (disk_entry sb w' i) w' (num_bytes (disk_entry sb w' i));
  ap_blocks : forall n, n <> 0 -> in_file (disk_entry sb w' i) w' n -> in_file (disk_entry sb w i) w n \/ ~ owned sb w n;
  ap_used : freeblock st' = freeblock st +
    (blocks_for (num_bytes (disk_entry sb w' i)) - blocks_for (num_bytes (disk_entry sb w i)));
  ap_inode : freeinode st' = freeinode st;
  ap_low : forall n, n < inode_start sb -> w' n = w n
}.

Lemma iappend_ok st w i p (Q : unit -> mkfs -> Prop) : imaged st w -> 0 <= i < 200 -> let e := disk_entry sb w i in
  let size' := num_bytes e + Z.of_nat (length p) in
  filled e w (num_bytes e) -> bytes p -> size' <= INODE_MAX_BYTES ->
  freeblock st + (blocks_for size' - blocks_for (num_bytes e)) <= 1000 ->
  (forall st' w', appended st w i p st' w' -> Q tt st') -> wp E (iappend i p) Q st.
Proof.
  intros H Hi e size' Hfl Hby Hmax Hfree HQ. unfold iappend. apply wp_bind. eapply rinode_ok; [exact H | done |]. fold e.
  pose proof (fl_size _ _ _ Hfl) as Hsz. assert (Hsz' : size' < 2 ^ 32) by (change INODE_MAX_BYTES with 71680 in *; lia).
  rewrite xint_small by lia. apply wp_bind. eapply (iappend_loop_ok _ st w e); [exact H | done | done | lia | done | done |].
  fold size'. intros st1 e1 w1 H1 Hwr Hfl1 Ef1 Ei1. rewrite xint_small by lia.
  set (e' := set_num_bytes size' e1).
  assert (Hfl1' : filled e' w1 size') by (apply filled_resize; [done | lia | dlia | done]).
  assert (He' : entry_wf e') by apply (fl_wf _ _ _ Hfl1').
  assert (Hrs : resized e (num_bytes e) p e1 e').
  { split; try done. change (num_bytes e') with size'. unfold size'. lia. }
  pose proof (wrote_stored G e w i (num_bytes e) p e1 w1 e' Hwr (fl_wf _ _ _ Hfl) ltac:(lia) Hmax Hi (im_wf _ _ H1) Hrs) as Hup.
  rewrite <- length_content with (w := w), overwrite_end in Hup.
  eapply winode_ok; [exact H1 | done | done |]. intros st2 H2 Ef2 Ei2.
  pose proof (inode_blocks i Hi) as Hib. pose proof (im_range _ _ H1).
  destruct (filled_frame e' w1 (write_entry sb w1 i e') size' Hfl1') as (Hfl2 & Eb2 & _).
  { intros m Hm [->|(j & Hj & <-)]; (split; [apply (owned_upd G); [rewrite bitmap_start_91; lia |] |
      unfold write_entry, upd; rewrite (proj2 (Z.eqb_neq _ _)); [done |]]).
    - by apply (fw_indirect _ _ _ (fl_wf _ _ _ Hfl1')).
    - destruct (fw_indirect _ _ _ (fl_wf _ _ _ Hfl1') Hm) as [Ho _]. apply (imaged_owned _ _ _ H1) in Ho. lia.
    - by apply (fw_owned _ _ _ (fl_wf _ _ _ Hfl1')).
    - pose proof (fw_owned _ _ _ (fl_wf _ _ _ Hfl1') j Hj Hm) as Ho. apply (imaged_owned _ _ _ H1) in Ho. lia. }
  assert (Ed : disk_entry sb (write_entry sb w1 i e') i = e') by apply Hup.
  eapply HQ with (w' := write_entry sb w1 i e'). split; rewrite ?Ed; try done.
  - intros n Hn Hin. apply (wrote_blocks e w (num_bytes e) p e1 w1); [done | done |].
    destruct Hin as [->|(j & Hj & <-)]; [by left | right; exists j; split; [done |]]. by rewrite Eb2.
  - rewrite Ef2, Ef1. done.
  - congruence.
  - intros n Hn. change (inode_start sb) with 65 in Hn. unfold write_entry, upd. rewrite (proj2 (Z.eqb_neq _ _)) by lia.
    apply (wr_low _ _ _ _ _ _ Hwr). rewrite bitmap_start_91. lia.
Qed.
End append.
