(* ===== verification/MkfsSpec.v ===== *)
(** The file system that mkfs builds, as a list of files: the inode with number
    [i + 1] holds file [i] of the list.  ialloc and iappend on the image are
    adding a file to the list and appending to the content of one. *)
From S2P Require Import Prelude Bytes CString Bitmap FsDefs Cache CacheSpec CacheAlloc Path Console Inode InodeSpec InodeMap InodeFile InodeDir Mkfs MkfsImage MkfsAppend.

#[local] Arguments zget : simpl never.
#[local] Notation sb := mkfs_sb.
#[local] Notation G := mkfs_geometry.

(** * Stored files *)

(** Inode [no] is a file of type [ty] with the content [c]. *)
Record file_is (w : Z -> list Z) (no ty : Z) (c : list Z) : Prop := {
  fi_type : type (disk_entry sb w no) = ty;
  fi_dev : major (disk_entry sb w no) = 0 /\ minor (disk_entry sb w no) = 0;
  fi_links : num_links (disk_entry sb w no) = 1;
  fi_size : num_bytes (disk_entry sb w no) = Z.of_nat (length c);
  fi_content : content (disk_entry sb w no) w = c;
  fi_filled : filled (disk_entry sb w no) w (Z.of_nat (length c))
}.

Notation stored_file := (Z * list Z)%type.

(** The blocks of all files. *)
Definition fs_blocks (fs : list stored_file) : Z := foldr (fun f n => blocks_for (Z.of_nat (length f.2)) + n) 0 fs.

(** The blocks before the inodes: the super block, and an empty log. *)
Definition boot_block (n : Z) : list Z := if n =? 1 then splice zero_block 0 (super_enc mkfs_sb) else zero_block.

(** The blocks of the file at [i]. *)
Definition file_has (w : Z -> list Z) (i : nat) (n : Z) : Prop := n <> 0 /\ in_file (disk_entry sb w (Z.of_nat i + 1)) w n.

Record stored (st : mkfs) (w : Z -> list Z) (fs : list stored_file) : Prop := {
  sd_imaged : imaged st w;
  sd_count : freeinode st = 1 + Z.of_nat (length fs);
  sd_max : (length fs <= 199)%nat;
  sd_file : forall i ty c, fs !! i = Some (ty, c) -> file_is w (Z.of_nat i + 1) ty c;
  sd_disjoint : forall i j n, (i < length fs)%nat -> (j < length fs)%nat -> i <> j -> file_has w i n -> ~ file_has w j n;
  sd_blocks : freeblock st = 92 + fs_blocks fs;
  sd_free : forall no, no = 0 \/ 1 + Z.of_nat (length fs) <= no < 200 -> disk_entry sb w no = zero_entry;
  sd_boot : forall n, n < inode_start sb -> w n = boot_block n
}.

Lemma blocks_for_nonneg n : 0 <= n -> 0 <= blocks_for n.
Proof. intros Hn. unfold blocks_for. destruct (6144 <? n); dlia. Qed.

Lemma fs_blocks_nonneg fs : 0 <= fs_blocks fs.
Proof. induction fs as [|f fs IH]; cbn; [lia |]. pose proof (blocks_for_nonneg (Z.of_nat (length f.2)) ltac:(lia)). fold (fs_blocks fs). lia. Qed.

Lemma fs_blocks_app fs fs' : fs_blocks (fs ++ fs') = fs_blocks fs + fs_blocks fs'.
Proof. induction fs as [|f fs IH]; cbn; [done |]. fold (fs_blocks (fs ++ fs')) (fs_blocks fs). lia. Qed.

Lemma fs_blocks_insert fs i ty c ty' c' : fs !! i = Some (ty, c) ->
  fs_blocks (<[i := (ty', c')]> fs) = fs_blocks fs + (blocks_for (Z.of_nat (length c')) - blocks_for (Z.of_nat (length c))).
Proof.
  revert i. induction fs as [|f fs IH]; intros [|i] Hi; try done; cbn in *.
  - injection Hi as ->. cbn. lia.
  - fold (fs_blocks (<[i := (ty', c')]> fs)) (fs_blocks fs). rewrite IH by done. lia.
Qed.

(** A file whose entry and blocks stay. *)
Lemma file_frame w w' no ty c : file_is w no ty c -> disk_entry sb w' no = disk_entry sb w no ->
  (forall m, m <> 0 -> in_file (disk_entry sb w no) w m -> owned sb w' m /\ w' m = w m) ->
  file_is w' no ty c /\ forall n, in_file (disk_entry sb w' no) w' n <-> in_file (disk_entry sb w no) w n.
Proof.
  intros [] Ed Hs. destruct (filled_frame _ _ _ _ fi_filled0 Hs) as (Hfl & Eb & Ec). split.
  - split; rewrite ?Ed; try done. by rewrite Ec by lia.
  - intros n. rewrite Ed. unfold in_file. by setoid_rewrite Eb.
Qed.

Lemma file_is_owned st w no ty c m : imaged st w -> file_is w no ty c -> m <> 0 -> in_file (disk_entry sb w no) w m -> owned sb w m.
Proof.
  intros H Hf Hm Hin. pose proof (fl_wf _ _ _ (fi_filled _ _ _ _ Hf)) as Hw. destruct Hin as [->|(j & Hj & <-)].
  - by apply (fw_indirect _ _ _ Hw).
  - by apply (fw_owned _ _ _ Hw).
Qed.

(** ** Appending *)

Lemma stored_append st w fs i ty c p st' w' : stored st w fs -> fs !! i = Some (ty, c) ->
  appended st w (Z.of_nat i + 1) p st' w' -> stored st' w' (<[i := (ty, c ++ p)]> fs).
Proof.
  intros Hs Hi Hap. pose proof (lookup_lt_Some _ _ _ Hi) as Hil. pose proof (sd_max _ _ _ Hs) as Hmax.
  pose proof (sd_file _ _ _ Hs i ty c Hi) as Hf. pose proof (ap_updated _ _ _ _ _ _ Hap) as Hup.
  pose proof (sd_imaged _ _ _ Hs) as Him. rewrite (fi_content _ _ _ _ Hf) in Hup.
  assert (Hother : forall j, (j < length fs)%nat -> j <> i -> forall tj cj, fs !! j = Some (tj, cj) ->
    file_is w' (Z.of_nat j + 1) tj cj /\
    forall n, in_file (disk_entry sb w' (Z.of_nat j + 1)) w' n <-> in_file (disk_entry sb w (Z.of_nat j + 1)) w n).
  { intros j Hj Hne tj cj Hlj. pose proof (sd_file _ _ _ Hs j tj cj Hlj) as Hfj. apply file_frame; [done | |].
    - apply (up_entries _ _ _ _ _ _ Hup); [change (num_inodes sb) with 200; lia | lia].
    - intros m Hm Hin. apply (up_others _ _ _ _ _ _ Hup); [by eapply file_is_owned |].
      intros Hin'. by eapply (sd_disjoint _ _ _ Hs j i m). }
  assert (Hsize : num_bytes (disk_entry sb w' (Z.of_nat i + 1)) = Z.of_nat (length (c ++ p))).
  { rewrite (ap_size _ _ _ _ _ _ Hap), (fi_size _ _ _ _ Hf), length_app. lia. }
  split; rewrite ?length_insert; try done.
  - apply Hap.
  - rewrite (ap_inode _ _ _ _ _ _ Hap). apply Hs.
  - intros j tj cj Hlj. destruct (decide (j = i)) as [->|Hne].
    + rewrite list_lookup_insert_eq in Hlj by done. injection Hlj as <- <-.
      destruct (up_type _ _ _ _ _ _ Hup) as (Ety & Ema & Emi & Eln), (fi_dev _ _ _ _ Hf). split; try done.
      * rewrite Ety. apply Hf.
      * by rewrite Ema, Emi.
      * rewrite Eln. apply Hf.
      * apply Hup.
      * rewrite <- Hsize. apply Hap.
    + rewrite list_lookup_insert_ne in Hlj by done. eapply Hother; [by eapply lookup_lt_Some | done | done].
  - assert (Hii : forall j n, (j < length fs)%nat -> j <> i -> file_has w' i n -> ~ file_has w' j n).
    { intros j n Hj Hne [Hn Hin] [_ Hjn]. destruct (lookup_lt_is_Some_2 fs j Hj) as [[tj cj] Hlj].
      destruct (Hother j Hj Hne tj cj Hlj) as [_ Eq]. apply Eq in Hjn.
      destruct (ap_blocks _ _ _ _ _ _ Hap n Hn Hin) as [Hold|Hfree].
      - by eapply (sd_disjoint _ _ _ Hs i j n).
      - apply Hfree. eapply file_is_owned; [exact Him | by eapply (sd_file _ _ _ Hs j) | done | done]. }
    intros j k n Hj Hk Hne Hjn Hkn. destruct (decide (j = i)) as [->|Hji]; [by eapply Hii |].
    destruct (decide (k = i)) as [->|Hki]; [by apply (Hii j n) |].
    destruct (lookup_lt_is_Some_2 fs j Hj) as [[tj cj] Hlj], (lookup_lt_is_Some_2 fs k Hk) as [[tk ck] Hlk].
    destruct Hjn as [Hn Hjn], Hkn as [_ Hkn]. apply (Hother j Hj Hji tj cj Hlj) in Hjn. apply (Hother k Hk Hki tk ck Hlk) in Hkn.
    by apply (sd_disjoint _ _ _ Hs j k n).
  - rewrite (ap_used _ _ _ _ _ _ Hap), (sd_blocks _ _ _ Hs), (fs_blocks_insert _ _ _ _ ty (c ++ p) Hi), Hsize, (fi_size _ _ _ _ Hf). lia.
  - intros no Hno. rewrite (up_entries _ _ _ _ _ _ Hup); [by apply (sd_free _ _ _ Hs) | change (num_inodes sb) with 200; lia | lia].
  - intros n Hn. rewrite (ap_low _ _ _ _ _ _ Hap) by done. by apply (sd_boot _ _ _ Hs).
Qed.

(** ** A new file *)

Definition born_entry (ty : Z) : InodeEntry := mkEntry ty 0 0 1 0 (replicate 12 0) 0.

Lemma born_entry_wf ty : 0 <= ty < 2 ^ 16 -> entry_wf (born_entry ty).
Proof. intros Hty. unfold entry_wf, born_entry. cbn. split_and!; try done; try lia. repeat constructor; lia. Qed.

Lemma block_of_new ty w j : block_of (born_entry ty) w j = 0.
Proof. unfold block_of, born_entry. cbn [addrs indirect]. rewrite zget_replicate. by destruct (j <? INODE_NUM_DIRECT). Qed.

Lemma filled_new ty w : 0 <= ty < 2 ^ 16 -> filled (born_entry ty) w 0.
Proof.
  intros Hty. split; [split | done | | done |].
  - by apply born_entry_wf.
  - done.
  - intros j Hj. cbn. unfold BLOCK_SIZE. lia.
  - intros j _. by rewrite block_of_new.
  - intros j k _ _. by rewrite block_of_new.
  - done.
  - intros j Hj. rewrite block_of_new. unfold file_index, BLOCK_SIZE in *. split; [done | lia].
  - intros k _. by rewrite block_of_new.
Qed.

Lemma new_file_is w ty no : 0 <= ty < 2 ^ 16 -> disk_entry sb w no = born_entry ty -> file_is w no ty [].
Proof. intros Hty Ed. split; rewrite Ed; try done. by apply filled_new. Qed.

(** Changes of inode blocks leave the files with the same entry. *)
Lemma stored_new st w fs ty st' : stored st w fs -> (length fs < 199)%nat -> 0 <= ty < 2 ^ 16 ->
  let no := Z.of_nat (length fs) + 1 in let w' := write_entry sb w no (born_entry ty) in
  imaged st' w' -> freeblock st' = freeblock st -> freeinode st' = freeinode st + 1 -> stored st' w' (fs ++ [(ty, [])]).
Proof.
  intros Hs Hlt Hty no w' H' Ef Ei. pose proof (born_entry_wf ty Hty) as He. pose proof (sd_imaged _ _ _ Hs) as Him.
  assert (Hno : 0 <= no < 200) by (unfold no; lia). pose proof (inode_blocks no Hno) as Hib.
  assert (Ed : disk_entry sb w' no = born_entry ty) by (apply disk_entry_write; [apply (im_wf _ _ Him) | done]).
  assert (Ene : forall m, m <> no -> disk_entry sb w' m = disk_entry sb w m).
  { intros m Hm. apply disk_entry_write_ne; [apply (im_wf _ _ Him) | done | congruence]. }
  assert (Hold : forall i ti ci, fs !! i = Some (ti, ci) -> file_is w' (Z.of_nat i + 1) ti ci /\
    forall n, in_file (disk_entry sb w' (Z.of_nat i + 1)) w' n <-> in_file (disk_entry sb w (Z.of_nat i + 1)) w n).
  { intros i ti ci Hi. pose proof (lookup_lt_Some _ _ _ Hi). pose proof (sd_file _ _ _ Hs i ti ci Hi) as Hf.
    apply file_frame; [done | apply Ene; unfold no; lia |]. intros m Hm Hin. pose proof (file_is_owned _ _ _ _ _ m Him Hf Hm Hin) as Ho.
    split; [apply (owned_upd G); [rewrite bitmap_start_91; lia | done] |]. apply (imaged_owned _ _ _ Him) in Ho.
    unfold w', write_entry, upd. by rewrite (proj2 (Z.eqb_neq _ _)) by lia. }
  assert (Hnew : forall n, ~ file_has w' (length fs) n).
  { intros n [Hn Hin]. fold no in Hin. rewrite Ed in Hin. destruct Hin as [->|(j & _ & <-)]; [done |]. by rewrite block_of_new in Hn. }
  split; rewrite ?length_app; cbn [length]; [done | rewrite Ei, (sd_count _ _ _ Hs); lia | lia | | | | |].
  - intros i ti ci Hi. apply lookup_app_Some in Hi as [Hi|[Hge Hi]]; [by apply Hold |].
    destruct (i - length fs)%nat as [|k] eqn:Ek; [| destruct k; discriminate Hi]. injection Hi as <- <-.
    replace i with (length fs) by lia. by apply new_file_is.
  - intros i j n Hi Hj Hne Hin Hjn. destruct (decide (i = length fs)) as [->|Hi']; [by eapply Hnew |].
    destruct (decide (j = length fs)) as [->|Hj']; [by eapply Hnew |].
    destruct (lookup_lt_is_Some_2 fs i ltac:(lia)) as [[ti ci] Hli], (lookup_lt_is_Some_2 fs j ltac:(lia)) as [[tj cj] Hlj].
    destruct Hin as [Hn Hin], Hjn as [_ Hjn]. apply (Hold i ti ci Hli) in Hin. apply (Hold j tj cj Hlj) in Hjn.
    apply (sd_disjoint _ _ _ Hs i j n); done || lia.
  - rewrite Ef, (sd_blocks _ _ _ Hs), fs_blocks_app. change (fs_blocks [(ty, [])]) with 0. lia.
  - intros m Hm. rewrite Ene by (unfold no; lia). apply (sd_free _ _ _ Hs). lia.
  - intros n Hn. change (inode_start sb) with 65 in Hn. unfold w', write_entry, upd. rewrite (proj2 (Z.eqb_neq _ _)) by lia.
    apply (sd_boot _ _ _ Hs). done.
Qed.

(** * The operations on stored files *)

Section operations.
Context (E : string -> Prop).

Lemma imaged_freeinode st w n : imaged st w -> imaged (set_freeinode n st) w.
Proof. intros []. by split. Qed.

Lemma ialloc_ok st w fs ty (Q : Z -> mkfs -> Prop) : stored st w fs -> (length fs < 199)%nat -> 0 <= ty < 2 ^ 16 ->
  (forall st' w', stored st' w' (fs ++ [(ty, [])]) -> Q (Z.of_nat (length fs) + 1) st') -> wp E (ialloc ty) Q st.
Proof.
  intros Hs Hlt Hty HQ. unfold ialloc. apply wp_bind, wp_get. apply wp_bind, wp_modify.
  rewrite (sd_count _ _ _ Hs), u32_small by lia. rewrite xshort_small by done. change (xshort 1) with 1. change (xint 0) with 0.
  fold (born_entry ty). replace (1 + Z.of_nat (length fs)) with (Z.of_nat (length fs) + 1) by lia.
  apply wp_bind. eapply winode_ok; [apply imaged_freeinode, Hs | lia | by apply born_entry_wf |].
  intros st1 H1 Ef1 Ei1. apply wp_ret. eapply HQ, (stored_new st w fs ty st1); try done.
  rewrite Ei1, (sd_count _ _ _ Hs). cbn. lia.
Qed.

Lemma iappend_stored_ok st w fs i ty c p (Q : unit -> mkfs -> Prop) : stored st w fs -> fs !! i = Some (ty, c) -> bytes p ->
  Z.of_nat (length (c ++ p)) <= INODE_MAX_BYTES -> fs_blocks (<[i := (ty, c ++ p)]> fs) <= 908 ->
  (forall st' w', stored st' w' (<[i := (ty, c ++ p)]> fs) -> Q tt st') -> wp E (iappend (Z.of_nat i + 1) p) Q st.
Proof.
  intros Hs Hi Hby Hmax Hb HQ. pose proof (sd_file _ _ _ Hs i ty c Hi) as Hf. pose proof (lookup_lt_Some _ _ _ Hi) as Hil.
  pose proof (sd_max _ _ _ Hs). rewrite (fs_blocks_insert _ _ _ _ ty (c ++ p) Hi), length_app, Nat2Z.inj_add in Hb.
  rewrite length_app, Nat2Z.inj_add in Hmax.
  eapply iappend_ok; rewrite ?(fi_size _ _ _ _ Hf); [apply Hs | lia | apply Hf | done | done | rewrite (sd_blocks _ _ _ Hs); lia |].
  intros st' w' Hap. eapply HQ, stored_append; [exact Hs | exact Hi | exact Hap].
Qed.

Lemma append_all_ok i ty (Q : unit -> mkfs -> Prop) : forall pieces st w fs c, stored st w fs -> fs !! i = Some (ty, c) ->
  Forall bytes pieces -> Z.of_nat (length (c ++ concat pieces)) <= INODE_MAX_BYTES ->
  fs_blocks (<[i := (ty, c ++ concat pieces)]> fs) <= 908 ->
  (forall st' w', stored st' w' (<[i := (ty, c ++ concat pieces)]> fs) -> Q tt st') ->
  wp E (append_all (Z.of_nat i + 1) pieces) Q st.
Proof.
  induction pieces as [|p pieces IH]; intros st w fs c Hs Hi Hby Hmax Hb HQ; cbn [append_all concat] in *.
  { rewrite app_nil_r, list_insert_id in HQ by done. eapply wp_ret, HQ, Hs. }
  apply Forall_cons in Hby as [Hp Hps]. rewrite app_assoc in *.
  assert (Hlt : (i < length fs)%nat) by (by eapply lookup_lt_Some).
  apply wp_bind. eapply iappend_stored_ok; [exact Hs | exact Hi | done | rewrite (length_app (c ++ p)) in Hmax; lia | |].
  - rewrite !(fs_blocks_insert _ _ _ _ _ _ Hi) in *. rewrite (length_app (c ++ p)) in Hb.
    pose proof (blocks_for_mono (Z.of_nat (length (c ++ p))) (Z.of_nat (length (c ++ p) + length (concat pieces))) ltac:(lia)). lia.
  - intros st1 w1 H1. eapply (IH st1 w1 _ (c ++ p) H1); rewrite ?list_insert_insert_eq; try done.
    by apply list_lookup_insert_eq.
Qed.
End operations.

(** * Directory entries *)

Lemma dirents_cons d c : dirent_wf d -> dirents (dirent_enc d ++ c) = d :: dirents c.
Proof.
  intros Hd. pose proof (length_dirent_enc d Hd) as Hl. unfold dirents. rewrite length_app, Hl.
  replace ((16 + length c) / 16)%nat with (S (length c / 16)) by (rewrite (Nat.div_add_l 1 16); lia).
  cbn [seq]. rewrite fmap_cons. f_equal.
  - unfold dirent_at, slice. rewrite Nat.mul_0_r, drop_0, take_app_le, take_ge by lia. rewrite <- (app_nil_r (dirent_enc d)). by apply dirent_dec_enc.
  - rewrite <- fmap_S_seq, <- list_fmap_compose. apply list_fmap_ext. intros _ k _. unfold compose, dirent_at, slice.
    rewrite drop_app_ge, Hl by lia. do 3 f_equal. lia.
Qed.

(** A directory is the encoding of its entries. *)
Definition dir_bytes (ds : list DirEntry) : list Z := concat (dirent_enc <$> ds).

Lemma dirents_bytes ds : Forall dirent_wf ds -> dirents (dir_bytes ds) = ds.
Proof.
  induction 1 as [|d ds Hd Hds IH]; [done |]. change (dir_bytes (d :: ds)) with (dirent_enc d ++ dir_bytes ds).
  by rewrite dirents_cons, IH by done.
Qed.

Lemma length_dir_bytes ds : Forall dirent_wf ds -> length (dir_bytes ds) = (16 * length ds)%nat.
Proof.
  induction 1 as [|d ds Hd Hds IH]; [done |]. change (dir_bytes (d :: ds)) with (dirent_enc d ++ dir_bytes ds).
  rewrite length_app, IH, length_dirent_enc by done. cbn. lia.
Qed.

Lemma dir_bytes_app ds ds' : dir_bytes (ds ++ ds') = dir_bytes ds ++ dir_bytes ds'.
Proof. unfold dir_bytes. by rewrite fmap_app, concat_app. Qed.

Lemma dir_bytes_free n : dir_bytes (replicate n free_dirent) = replicate (16 * n) 0.
Proof.
  induction n as [|n IH]; [done |]. change (dir_bytes (replicate (S n) free_dirent)) with (dirent_enc free_dirent ++ dir_bytes (replicate n free_dirent)).
  rewrite IH. change (dirent_enc free_dirent) with (replicate 16 0). rewrite <- replicate_add. f_equal. lia.
Qed.

Lemma dirent_bytes d : dirent_wf d -> bytes (dirent_enc d).
Proof. intros (_ & Hb & _). apply Forall_app. split; [apply le_enc_bytes | done]. Qed.

Lemma dirent_of_eq no nm : 0 <= no < 2 ^ 16 -> dirent_of no nm = dirent_enc (new_dirent nm no).
Proof. intros Hno. unfold dirent_of, new_dirent. rewrite xshort_small, u16_small by done. done. Qed.

(** * The files of the command line *)

(** The bytes of a file, and its entry in the root directory. *)
Definition host_content (f : host_file) : list Z := concat (default [] f.2).

Fixpoint name_entries (no : Z) (files : list host_file) : list DirEntry :=
  match files with
  | [] => []
  | f :: files' => new_dirent (base_name f.1) no :: name_entries (no + 1) files'
  end.

(** The root directory: "." and "..", then the files. *)
Definition root_entries (files : list host_file) : list DirEntry :=
  [new_dirent [46] 1; new_dirent [46; 46] 1] ++ name_entries 2 files.

(** A file that can be read and fits an inode. *)
Definition host_ok (f : host_file) : Prop :=
  bytes f.1 /\ (exists pieces, f.2 = Some pieces /\ Forall bytes pieces) /\ Z.of_nat (length (host_content f)) <= INODE_MAX_BYTES.

Lemma tail_length_ok path : forall j, 0 <= j ->
  (47 ∉ path /\ tail_length path j = j + Z.of_nat (length path)) \/
  (0 <= tail_length path j <= Z.of_nat (length path) /\ 47 ∉ drop (length path - Z.to_nat (tail_length path j)) path).
Proof.
  induction path as [|c path IH]; intros j Hj; cbn [tail_length].
  { left. split; [apply not_elem_of_nil | cbn; lia]. }
  assert (Hdrop : forall t, 0 <= t <= Z.of_nat (length path) -> 47 ∉ drop (length path - Z.to_nat t) path ->
    47 ∉ drop (length (c :: path) - Z.to_nat t) (c :: path)).
  { intros t Ht Hn. cbn [length]. replace (S (length path) - Z.to_nat t)%nat with (S (length path - Z.to_nat t)) by lia. done. }
  destruct (Z.eqb_spec c 47) as [->|Hc].
  - right. destruct (IH (-1 + 1) ltac:(lia)) as [[Hn Et]|[Ht Hn]].
    + rewrite Et. split; [cbn [length]; lia |]. apply Hdrop; [lia |]. by replace (length path - _)%nat with 0%nat by lia.
    + split; [cbn [length]; lia |]. by apply Hdrop.
  - destruct (IH (j + 1) ltac:(lia)) as [[Hn Et]|[Ht Hn]].
    + left. split; [rewrite not_elem_of_cons; split; [congruence | done] | rewrite Et; cbn [length]; lia].
    + right. split; [cbn [length]; lia | by apply Hdrop].
Qed.

(** What is left of the argument has no '/'. *)
Lemma path_tail_ok path : 47 ∉ path_tail path.
Proof.
  unfold path_tail. destruct (tail_length_ok path 0 ltac:(lia)) as [[Hn Et]|[_ Hn]]; [| done].
  rewrite Et. by replace (length path - _)%nat with 0%nat by lia.
Qed.

Lemma base_name_bytes path : bytes path -> bytes (base_name path).
Proof.
  intros Hb. unfold base_name. assert (Ht : bytes (path_tail path)) by (by apply Forall_drop).
  destruct (path_tail path) as [|c nm]; [done |]. apply Forall_cons in Ht as [Hc Hn]. destruct (c =? 95); [done | by constructor].
Qed.

Lemma name_entries_wf files : Forall host_ok files -> forall no, Forall dirent_wf (name_entries no files).
Proof.
  induction 1 as [|f files Hf Hfs IH]; intros no; cbn [name_entries]; constructor; [| apply IH].
  apply new_dirent_wf, base_name_bytes, Hf.
Qed.

Lemma length_name_entries files : forall no, length (name_entries no files) = length files.
Proof. induction files as [|f files IH]; intros no; cbn; [done | by rewrite IH]. Qed.

Lemma root_entries_wf files : Forall host_ok files -> Forall dirent_wf (root_entries files).
Proof.
  intros Hf. apply Forall_app. split; [| by apply name_entries_wf].
  apply Forall_cons. split; [| apply Forall_singleton]; apply new_dirent_wf; repeat (apply Forall_cons; split); done || (unfold is_byte; lia) || by apply Forall_nil.
Qed.
