(* ===== verification/MkfsTheorems.v ===== *)
(** user/mkfs/main.c: the image that main writes holds the files of the command
    line, in the form that the kernel reads. *)
From S2P Require Import Prelude Bytes CString Bitmap Locks PhysMem Arena FsDefs Cache CacheSpec CacheAlloc BlockCache Path Console Inode InodeSpec InodeMap InodeFile InodeDir InodeTheorems Mkfs MkfsImage MkfsAppend MkfsSpec.

#[local] Arguments zget : simpl never.
#[local] Notation sb := mkfs_sb.
#[local] Notation G := mkfs_geometry.

(** * main *)

Definition host_files (files : list host_file) : list stored_file := (fun f => (INODE_REGULAR, host_content f)) <$> files.

(** The root directory of entries [ds], and the other files. *)
Definition rooted (ds : list DirEntry) (fs : list stored_file) : list stored_file := (INODE_DIRECTORY, dir_bytes ds) :: fs.

Section main.
Context (E : string -> Prop).

Lemma rooted_eq ds fs : fs_blocks (rooted ds fs) = blocks_for (Z.of_nat (length (dir_bytes ds))) + fs_blocks fs.
Proof. done. Qed.

Lemma rooted_blocks ds ds' fs fs' : Forall dirent_wf ds -> Forall dirent_wf ds' -> fs_blocks (rooted (ds ++ ds') (fs ++ fs')) <= 908 ->
  fs_blocks (rooted ds fs) <= 908.
Proof.
  intros Hd Hd' Hb. rewrite rooted_eq in Hb |- *. rewrite fs_blocks_app in Hb. pose proof (fs_blocks_nonneg fs').
  rewrite !length_dir_bytes in * by (done || by apply Forall_app). rewrite length_app in Hb.
  pose proof (blocks_for_mono (Z.of_nat (16 * length ds)) (Z.of_nat (16 * (length ds + length ds'))) ltac:(lia)). lia.
Qed.

Lemma append_root_ok st w ds fs d (Q : unit -> mkfs -> Prop) : stored st w (rooted ds fs) -> Forall dirent_wf ds -> dirent_wf d ->
  (length ds < 4000)%nat -> fs_blocks (rooted (ds ++ [d]) fs) <= 908 ->
  (forall st' w', stored st' w' (rooted (ds ++ [d]) fs) -> Q tt st') -> wp E (iappend 1 (dirent_enc d)) Q st.
Proof.
  intros Hs Hds Hd Hlen Hb HQ. assert (Ea : dir_bytes ds ++ dirent_enc d = dir_bytes (ds ++ [d])).
  { rewrite dir_bytes_app. unfold dir_bytes at 3. cbn. by rewrite app_nil_r. }
  change 1 with (Z.of_nat 0 + 1). eapply iappend_stored_ok; [exact Hs | done | by apply dirent_bytes | | |]; rewrite ?Ea.
  - rewrite length_dir_bytes, length_app by (apply Forall_app; split; [done | by apply Forall_singleton]). cbn [length].
    change INODE_MAX_BYTES with 71680. lia.
  - exact Hb.
  - exact HQ.
Qed.

Lemma add_file_ok st w ds fs f (Q : unit -> mkfs -> Prop) : stored st w (rooted ds fs) -> Forall dirent_wf ds -> host_ok f ->
  (length fs < 198)%nat -> (length ds < 4000)%nat ->
  let ds' := ds ++ [new_dirent (base_name f.1) (Z.of_nat (length fs) + 2)] in
  let fs' := fs ++ [(INODE_REGULAR, host_content f)] in
  fs_blocks (rooted ds' fs') <= 908 ->
  (forall st' w', stored st' w' (rooted ds' fs') -> Q tt st') -> wp E (add_file 1 f) Q st.
Proof.
  intros Hs Hds Hf Hlen Hdl ds' fs' Hb HQ. destruct f as [path r]. destruct Hf as (Hpath & (pieces & Er & Hpc) & Hmax). cbn in Er, Hpath. subst r.
  assert (Hd : dirent_wf (new_dirent (base_name path) (Z.of_nat (length fs) + 2))) by (by apply new_dirent_wf, base_name_bytes).
  unfold add_file. cbn [fst snd] in *. apply wp_bind, wp_assert; [apply bool_decide_eq_true_2, path_tail_ok |].
  apply wp_bind. eapply ialloc_ok; [exact Hs | cbn; lia | done |]. intros st1 w1 H1.
  change (rooted ds fs ++ [(INODE_REGULAR, [])]) with (rooted ds (fs ++ [(INODE_REGULAR, [])])) in H1.
  set (no := Z.of_nat (length (rooted ds fs)) + 1).
  assert (Eno : no = Z.of_nat (length fs) + 2) by (unfold no; cbn [length rooted]; lia).
  apply wp_bind. rewrite dirent_of_eq by lia. rewrite Eno.
  eapply append_root_ok; [exact H1 | done | exact Hd | done | |].
  { rewrite rooted_eq in Hb |- *. unfold fs' in Hb. rewrite fs_blocks_app in Hb |- *.
    pose proof (fs_blocks_nonneg [(INODE_REGULAR, host_content (path, Some pieces))]).
    change (fs_blocks [(INODE_REGULAR, [])]) with 0. unfold ds' in Hb. lia. }
  intros st2 w2 H2. fold ds' in H2. replace (Z.of_nat (length fs) + 2) with (Z.of_nat (S (length fs)) + 1) by lia.
  assert (Ei : <[S (length fs) := (INODE_REGULAR, host_content (path, Some pieces))]> (rooted ds' (fs ++ [(INODE_REGULAR, [])])) = rooted ds' fs').
  { transitivity (rooted ds' (<[length fs := (INODE_REGULAR, host_content (path, Some pieces))]> (fs ++ [(INODE_REGULAR, [])]))); [done |].
    unfold fs'. f_equal. rewrite insert_app_r_alt, Nat.sub_diag by lia. done. }
  eapply (append_all_ok E _ INODE_REGULAR Q pieces st2 w2 _ []); [exact H2 | | exact Hpc | exact Hmax | |].
  - transitivity ((fs ++ [(INODE_REGULAR, [] : list Z)]) !! length fs); [done |]. by apply list_lookup_middle.
  - change ([] ++ concat pieces) with (host_content (path, Some pieces)). by rewrite Ei.
  - change ([] ++ concat pieces) with (host_content (path, Some pieces)). by rewrite Ei.
Qed.

Lemma add_files_ok (Q : unit -> mkfs -> Prop) : forall files st w ds fs, stored st w (rooted ds fs) -> Forall dirent_wf ds ->
  Forall host_ok files -> (length fs + length files <= 198)%nat -> (length ds = 2 + length fs)%nat ->
  let ds' := ds ++ name_entries (Z.of_nat (length fs) + 2) files in
  let fs' := fs ++ host_files files in
  fs_blocks (rooted ds' fs') <= 908 ->
  (forall st' w', stored st' w' (rooted ds' fs') -> Q tt st') -> wp E (add_files 1 files) Q st.
Proof.
  induction files as [|f files IH]; intros st w ds fs Hs Hds Hok Hlen Hdl ds' fs' Hb HQ; cbn [add_files].
  { unfold ds', fs' in HQ. cbn in HQ. rewrite !app_nil_r in HQ. by eapply wp_ret, HQ. }
  apply Forall_cons in Hok as [Hf Hfs]. cbn [length] in Hlen.
  set (d := new_dirent (base_name f.1) (Z.of_nat (length fs) + 2)). set (x := (INODE_REGULAR, host_content f)).
  assert (Hd : dirent_wf d) by apply new_dirent_wf, base_name_bytes, Hf.
  assert (Hds1 : Forall dirent_wf (ds ++ [d])) by (apply Forall_app; split; [done | by apply Forall_singleton]).
  assert (El : Z.of_nat (length (fs ++ [x])) + 2 = Z.of_nat (length fs) + 2 + 1) by (rewrite length_app; cbn; lia).
  assert (Ed : ds' = (ds ++ [d]) ++ name_entries (Z.of_nat (length (fs ++ [x])) + 2) files).
  { rewrite El. unfold ds'. cbn [name_entries]. by rewrite <- app_assoc. }
  assert (Ef : fs' = (fs ++ [x]) ++ host_files files) by (unfold fs'; by rewrite <- app_assoc).
  rewrite Ed, Ef in *. apply wp_bind. eapply add_file_ok; [exact Hs | done | done | lia | lia | |].
  - eapply rooted_blocks; [exact Hds1 | by apply name_entries_wf | exact Hb].
  - intros st1 w1 H1. fold d x in H1. eapply IH; [exact H1 | done | done | | | exact Hb | exact HQ]; rewrite !length_app; cbn; lia.
Qed.

(** The image before the first file: zero blocks and the super block. *)
Lemma zero_image_ok (Q : unit -> mkfs -> Prop) st : (forall n, img st n = zero_block) -> img_len st = 0 -> freeblock st = 92 -> freeinode st = 1 ->
  (forall st', imaged st' (upd (fun _ => zero_block) 91 (used_block 92)) -> freeblock st' = 92 -> freeinode st' = 1 -> Q tt st') ->
  wp E (for_range 0 (Z.to_nat FSSIZE) (fun i => wsect i zero_block)) Q st.
Proof.
  intros Hz Hl Hf Hi HQ. eapply wp_mono.
  - apply (wp_for_range E (fun i s => (forall n, img s n = zero_block) /\ img_len s = i /\ freeblock s = 92 /\ freeinode s = 1)); [| done].
    intros i s Hr (Hs & Hls & Hfs & His). change (Z.to_nat FSSIZE) with 1000%nat in Hr. apply wp_modify. cbn [img img_len freeblock freeinode set_img set_img_len].
    rewrite sector_small by lia. split_and!; [| lia | done | done]. intros n. unfold upd. by destruct (n =? i).
  - intros [] s (Hs & Hls & Hfs & His). apply HQ; [| done | done]. destruct (used_block_ok 92 ltac:(lia)) as [Hw _].
    unfold upd. split; rewrite ?Hfs; try done.
    + intros n Hn. by rewrite Hs, (proj2 (Z.eqb_neq _ _)).
    + intros n. destruct (n =? 91); [done | apply zero_block_wf].
    + intros n Hn. by rewrite (proj2 (Z.eqb_neq _ _)) by lia.
Qed.

Lemma get_entry_zero no : get_entry zero_block no = zero_entry.
Proof.
  unfold get_entry. pose proof (entry_offset_bound no). replace (slice zero_block (entry_offset no) 64) with (replicate 64 0); [by vm_compute |].
  unfold slice, zero_block. rewrite drop_replicate, take_replicate. f_equal. lia.
Qed.

Lemma super_block_wf : block_wf (splice zero_block 0 (super_enc mkfs_sb)).
Proof. apply splice_block_wf; [apply zero_block_wf | apply words_enc_bytes | unfold super_enc; rewrite length_words_enc; cbn; lia]. Qed.

Lemma stored_nil st : imaged st (upd (upd (fun _ => zero_block) 91 (used_block 92)) 1 (splice zero_block 0 (super_enc mkfs_sb))) ->
  freeblock st = 92 -> freeinode st = 1 ->
  stored st (upd (upd (fun _ => zero_block) 91 (used_block 92)) 1 (splice zero_block 0 (super_enc mkfs_sb))) [].
Proof.
  intros H Hf Hi. split; try done; cbn [length]; try lia.
  - intros no Hno. pose proof (inode_blocks no ltac:(lia)). unfold disk_entry, upd. rewrite !(proj2 (Z.eqb_neq _ _)) by lia. apply get_entry_zero.
  - intros n Hn. change (inode_start sb) with 65 in Hn. unfold boot_block, upd. destruct (n =? 1); [done |]. by rewrite (proj2 (Z.eqb_neq _ _)) by lia.
Qed.

(** The size of the root directory at the end of main. *)
Definition rounded (n : Z) : Z := (n / BLOCK_SIZE + 1) * BLOCK_SIZE.

Lemma mkfs_main_ok files : Forall host_ok files -> (length files <= 198)%nat ->
  let fs := rooted (root_entries files) (host_files files) in fs_blocks fs <= 908 ->
  wp E (mkfs_main files) (fun _ st => exists st0 w, stored st0 w fs /\ freeblock st = freeblock st0 /\
    forall n, img st n = write_entry sb w 1 (set_num_bytes (rounded (num_bytes (disk_entry sb w 1))) (disk_entry sb w 1)) n) init_mkfs.
Proof.
  intros Hok Hlen fs Hb. pose proof (root_entries_wf files Hok) as Hwf. unfold mkfs_main.
  apply wp_bind, wp_modify, wp_bind. apply zero_image_ok; try done. intros st0 H0 Ef0 Ei0.
  apply wp_bind. eapply wsect_ok; [exact H0 | lia | lia | apply super_block_wf |]. intros st1 H1 Ef1 Ei1.
  pose proof (stored_nil st1 H1 ltac:(congruence) ltac:(congruence)) as S1.
  apply wp_bind. eapply ialloc_ok; [exact S1 | cbn; lia | done |]. intros st2 w2 S2. change ([] ++ _) with (rooted [] []) in S2.
  cbn [length]. change (Z.of_nat 0 + 1) with 1. apply wp_bind, wp_assert; [done |].
  set (d1 := new_dirent [46] 1) in *. set (d2 := new_dirent [46; 46] 1) in *.
  change (root_entries files) with ([d1; d2] ++ name_entries 2 files) in *. apply Forall_app in Hwf as [Hd Hn].
  assert (Hb2 : fs_blocks (rooted [d1; d2] []) <= 908) by (by eapply (rooted_blocks [d1; d2] _ [])).
  inversion_clear Hd as [|? ? Hd1 Hd2']. inversion_clear Hd2' as [|? ? Hd2 _].
  rewrite !dirent_of_eq by done. fold d1 d2.
  apply wp_bind. eapply (append_root_ok st2 w2 []); [exact S2 | by apply Forall_nil | done | cbn; lia | |].
  { eapply (rooted_blocks [d1] [d2] [] []); [by apply Forall_singleton | by apply Forall_singleton | exact Hb2]. }
  intros st3 w3 S3. apply wp_bind.
  eapply (append_root_ok st3 w3 [d1]); [exact S3 | by apply Forall_singleton | done | cbn; lia | exact Hb2 |]. intros st4 w4 S4.
  apply wp_bind. eapply (add_files_ok _ files st4 w4 [d1; d2] []); [exact S4 | by repeat constructor | done | cbn; lia | done | exact Hb |].
  intros st5 w5 S5. pose proof (sd_imaged _ _ _ S5) as H5. pose proof (sd_file _ _ _ S5 0 _ _ eq_refl) as Hroot. change (Z.of_nat 0 + 1) with 1 in Hroot.
  apply wp_bind. eapply rinode_ok; [exact H5 | lia |]. set (e := disk_entry sb w5 1) in *.
  pose proof (fw_size _ _ _ (fl_wf _ _ _ (fi_filled _ _ _ _ Hroot))) as Hsz. pose proof (fw_entry _ _ _ (fl_wf _ _ _ (fi_filled _ _ _ _ Hroot))) as He.
  fold e in Hsz, He. change INODE_MAX_BYTES with 71680 in Hsz. assert (Hnb : 0 <= num_bytes e) by apply He.
  rewrite (xint_small (num_bytes e)) by lia.
  assert (Hr : 0 <= rounded (num_bytes e) < 2 ^ 32) by (unfold rounded, BLOCK_SIZE; dlia). fold (rounded (num_bytes e)).
  rewrite u32_small, xint_small by done.
  apply wp_bind. eapply winode_ok; [exact H5 | lia | by apply entry_wf_size |]. intros st6 H6 Ef6 _.
  apply wp_bind, wp_get. pose proof (im_range _ _ H6). unfold balloc. apply wp_bind, wp_assert; [apply Z.ltb_lt; unfold BLOCK_SIZE; lia |].
  apply wp_modify. exists st5, w5. split_and!; [exact S5 | exact Ef6 |]. intros n. cbn [img set_img set_img_len].
  rewrite bitmap_start_91, sector_small by lia. fold (used_block (freeblock st6)). unfold upd at 1.
  destruct (Z.eqb_spec n 91) as [->|Hne]; [symmetry; apply (im_bits _ _ H6) | by apply (im_same _ _ H6)].
Qed.
End main.

Lemma nth_repeat_0 n k : nth k (replicate n 0) 0 = 0.
Proof. revert k. induction n as [|n IH]; intros [|k]; cbn; auto. Qed.

(** * The file system of the image *)

(** The blocks [w] hold the files: the super block and an empty log, a bitmap
    with the first [used] blocks, a root directory with an entry for every file,
    and the files, which share no block. *)
Record mkfs_fs (w : Z -> list Z) (used : Z) (files : list host_file) : Prop := {
  mf_super : super_dec (w 1) = mkfs_sb;
  mf_log : forall n, sb_log_start sb <= n < inode_start sb -> w n = zero_block;
  mf_wf : forall n, block_wf (w n);
  mf_used : forall m, 0 <= m < num_blocks sb -> used_bit sb w m = (m <? used);
  mf_root : dir_wf (sb := sb) (disk_entry sb w ROOT_INODE_NO) w;
  mf_entries : exists k, entries (disk_entry sb w ROOT_INODE_NO) w = root_entries files ++ replicate k free_dirent;
  mf_file : forall i f, files !! i = Some f -> let e := disk_entry sb w (Z.of_nat i + 2) in
    file_wf sb e w /\ type e = INODE_REGULAR /\ num_links e = 1 /\ content e w = host_content f;
  mf_disjoint : forall i j n, 1 <= i <= Z.of_nat (length files) + 1 -> 1 <= j <= Z.of_nat (length files) + 1 -> i <> j ->
    n <> 0 -> in_file (disk_entry sb w i) w n -> ~ in_file (disk_entry sb w j) w n;
  mf_inodes : forall no, no = 0 \/ Z.of_nat (length files) + 2 <= no < num_inodes sb -> disk_entry sb w no = zero_entry
}.

Section final.
Context (st : mkfs) (w v : Z -> list Z) (files : list host_file).
Let ds := root_entries files.
Let fs := rooted ds (host_files files).
Let e := disk_entry sb w 1.
Let e' := set_num_bytes (rounded (num_bytes e)) e.
Context (Hs : stored st w fs) (Hok : Forall host_ok files) (Hv : forall n, v n = write_entry sb w 1 e' n).

Lemma final_length : length fs = S (length files).
Proof. unfold fs, rooted, host_files. cbn. by rewrite length_fmap. Qed.

Lemma root_is : file_is w 1 INODE_DIRECTORY (dir_bytes ds).
Proof. exact (sd_file _ _ _ Hs 0 _ _ eq_refl). Qed.

Lemma final_size : num_bytes e = 16 * (2 + Z.of_nat (length files)).
Proof.
  unfold e. rewrite (fi_size _ _ _ _ root_is). rewrite length_dir_bytes by (by apply root_entries_wf).
  unfold ds, root_entries. rewrite length_app, length_name_entries. cbn [length]. lia.
Qed.

Lemma final_entry_wf : entry_wf e'.
Proof.
  apply entry_wf_size; [apply (fl_wf _ _ _ (fi_filled _ _ _ _ root_is)) |]. rewrite final_size.
  pose proof (sd_max _ _ _ Hs) as Hm. rewrite final_length in Hm. unfold rounded, BLOCK_SIZE. dlia.
Qed.

Lemma final_other n : n <> to_block_no sb 1 -> v n = w n.
Proof. intros Hn. rewrite Hv. unfold write_entry, upd. by rewrite (proj2 (Z.eqb_neq _ _)) by done. Qed.

Lemma final_owned n : owned sb w n -> owned sb v n /\ v n = w n.
Proof.
  intros Ho. assert (Hr : 91 < n) by (apply (imaged_owned _ _ _ (sd_imaged _ _ _ Hs)) in Ho; lia).
  pose proof (inode_blocks 1 ltac:(lia)). split; [| apply final_other; lia]. destruct Ho as [Hd Hu]. split; [done |].
  rewrite <- Hu. unfold used_bit. destruct (data_range G n Hd) as [Hn _]. rewrite (bitmap_block_one G n) by lia.
  rewrite final_other; [done |]. rewrite bitmap_start_91. lia.
Qed.

Lemma final_root_entry : disk_entry sb v 1 = e'.
Proof.
  rewrite <- (disk_entry_write sb w 1 e'); [unfold disk_entry; by rewrite Hv | apply (im_wf _ _ (sd_imaged _ _ _ Hs)) | apply final_entry_wf].
Qed.

Lemma final_entry no : no <> 1 -> disk_entry sb v no = disk_entry sb w no.
Proof.
  intros Hno. rewrite <- (disk_entry_write_ne sb w 1 no e');
    [unfold disk_entry; by rewrite Hv | apply (im_wf _ _ (sd_imaged _ _ _ Hs)) | apply final_entry_wf | congruence].
Qed.

Lemma final_file i ty c : fs !! i = Some (ty, c) -> i <> 0%nat ->
  file_is v (Z.of_nat i + 1) ty c /\ forall n, in_file (disk_entry sb v (Z.of_nat i + 1)) v n <-> in_file (disk_entry sb w (Z.of_nat i + 1)) w n.
Proof.
  intros Hi Hne. pose proof (sd_file _ _ _ Hs i ty c Hi) as Hf. apply file_frame; [done | apply final_entry; lia |].
  intros m Hm Hin. apply final_owned. eapply file_is_owned; [apply Hs | exact Hf | done | done].
Qed.

(** The root directory before its size is rounded. *)
Lemma final_root : filled e v (num_bytes e) /\ (forall j, block_of e v j = block_of e w j) /\ content e v = dir_bytes ds.
Proof.
  pose proof root_is as Hr. assert (Hfl : filled e w (num_bytes e)) by (unfold e; rewrite (fi_size _ _ _ _ Hr); apply Hr).
  destruct (filled_frame e w v (num_bytes e) Hfl) as (Hfl' & Eb & Ec).
  - intros m Hm Hin. apply final_owned. eapply file_is_owned; [apply Hs | exact Hr | done | done].
  - split_and!; [done | done |]. rewrite Ec by lia. apply Hr.
Qed.

(** A root directory whose entries fill its blocks exactly gets a block that it
    does not have. *)
Lemma final_hole : (2 + Z.of_nat (length files)) mod 32 = 0 -> ~ file_wf sb (disk_entry sb v 1) v.
Proof.
  intros Hm Hw. rewrite final_root_entry in Hw. destruct final_root as (Hfl & Eb & _). pose proof final_size as Hsz.
  assert (Hi : file_index (num_bytes e / BLOCK_SIZE)).
  { pose proof (sd_max _ _ _ Hs) as Hmax. rewrite final_length in Hmax. unfold file_index, BLOCK_SIZE. change INODE_MAX_BLOCKS with 140. dlia. }
  apply (fw_mapped _ _ _ Hw (num_bytes e / BLOCK_SIZE)).
  - apply Hi.
  - change (num_bytes e') with (rounded (num_bytes e)). unfold rounded, BLOCK_SIZE. lia.
  - change (block_of e' v (num_bytes e / BLOCK_SIZE)) with (block_of e v (num_bytes e / BLOCK_SIZE)).
    destruct (decide (block_of e v (num_bytes e / BLOCK_SIZE) = 0)) as [|Hb]; [done |].
    apply (fl_blocks _ _ _ Hfl _ Hi) in Hb. unfold BLOCK_SIZE in Hb. dlia.
Qed.

Lemma final_dir : (2 + Z.of_nat (length files)) mod 32 <> 0 ->
  dir_wf (sb := sb) (disk_entry sb v 1) v /\ exists k, entries (disk_entry sb v 1) v = ds ++ replicate k free_dirent.
Proof.
  intros Hm. rewrite final_root_entry. destruct final_root as (Hfl & Eb & Ec). pose proof final_size as Hsz.
  pose proof (sd_max _ _ _ Hs) as Hmax. rewrite final_length in Hmax. set (r := rounded (num_bytes e)).
  assert (Hr : num_bytes e <= r <= INODE_MAX_BYTES /\ r = (num_bytes e + 511) / 512 * 512 /\ r mod 16 = 0).
  { unfold r, rounded, BLOCK_SIZE. change INODE_MAX_BYTES with 71680. dlia. }
  assert (Hfl' : filled e' v (num_bytes e)) by (apply filled_resize; [done | | |]; fold r; lia).
  split; [split; [apply Hfl' | apply root_is | apply Hr] |]. exists (Z.to_nat ((r - num_bytes e) / 16)).
  pose proof (root_entries_wf files Hok) as Hwf. pose proof (length_dir_bytes ds Hwf) as Hlb.
  assert (Hlen : Z.of_nat (length (dir_bytes ds)) = num_bytes e) by (rewrite <- Ec, length_content; lia).
  assert (Hcont : content e' v = dir_bytes (ds ++ replicate (Z.to_nat ((r - num_bytes e) / 16)) free_dirent)).
  { rewrite dir_bytes_app, dir_bytes_free. apply content_eq.
    - rewrite length_app, length_replicate. change (num_bytes e') with r. dlia.
    - intros k Hk. change (byte_of e' v k) with (byte_of e v k). change (num_bytes e') with r in Hk.
      destruct (decide (k < num_bytes e)) as [Hlt|Hge].
      + unfold zget. rewrite app_nth1 by lia. rewrite <- Ec. symmetry. apply zget_content. lia.
      + unfold zget. rewrite app_nth2 by lia. rewrite nth_repeat_0. change (byte_of e v k) with (byte_of e' v k).
        apply (fl_rest _ _ _ Hfl'); [lia |]. apply (fw_mapped _ _ _ (fl_wf _ _ _ Hfl')); change (num_bytes e') with r; unfold BLOCK_SIZE; dlia. }
  unfold entries. rewrite Hcont. apply dirents_bytes. apply Forall_app. split; [done |]. apply Forall_replicate.
  split_and!; [done | done | by apply bytes_replicate | done].
Qed.

Lemma final_fs : (2 + Z.of_nat (length files)) mod 32 <> 0 -> mkfs_fs v (freeblock st) files.
Proof.
  intros Hm. destruct (final_dir Hm) as [Hdir Hent]. pose proof (sd_imaged _ _ _ Hs) as Him. pose proof (sd_max _ _ _ Hs) as Hmax.
  rewrite final_length in Hmax. pose proof (inode_blocks 1 ltac:(lia)) as Hib.
  assert (Hboot : forall n, n < 65 -> v n = boot_block n) by (intros n Hn; rewrite final_other by lia; by apply (sd_boot _ _ _ Hs)).
  split; try done.
  - rewrite Hboot by lia. vm_compute. done.
  - intros n Hn. change (sb_log_start sb) with 2 in Hn. change (inode_start sb) with 65 in Hn. rewrite Hboot by lia.
    unfold boot_block. by rewrite (proj2 (Z.eqb_neq _ _)) by lia.
  - intros n. rewrite Hv. unfold write_entry, upd. destruct (n =? to_block_no sb 1); [| apply (im_wf _ _ Him)].
    apply put_entry_wf; [apply (im_wf _ _ Him) | apply final_entry_wf].
  - intros m Hm'. change (num_blocks sb) with 1000 in Hm'. rewrite <- (imaged_used st w m Him Hm'). unfold used_bit.
    rewrite (bitmap_block_one G m) by done. rewrite final_other; [done |]. rewrite bitmap_start_91. lia.
  - intros i f Hi. assert (Hlk : fs !! S i = Some (INODE_REGULAR, host_content f)).
    { transitivity (host_files files !! i); [done |]. unfold host_files. by rewrite list_lookup_fmap, Hi. }
    destruct (final_file _ _ _ Hlk ltac:(lia)) as [Hf _]. replace (Z.of_nat i + 2) with (Z.of_nat (S i) + 1) by lia.
    split_and!; [apply (fl_wf _ _ _ (fi_filled _ _ _ _ Hf)) | apply Hf..].
  - assert (Hin : forall i n, 1 <= i <= Z.of_nat (length files) + 1 -> in_file (disk_entry sb v i) v n -> in_file (disk_entry sb w i) w n).
    { intros i n Hi Hn. destruct (decide (i = 1)) as [->|Hne].
      - rewrite final_root_entry in Hn. destruct final_root as (_ & Eb & _). destruct Hn as [->|(j & Hj & <-)]; [by left |].
        right. exists j. split; [done |]. symmetry. apply Eb.
      - destruct (lookup_lt_is_Some_2 fs (Z.to_nat (i - 1))) as [[ty c] Hlk]; [rewrite final_length; lia |].
        destruct (final_file _ _ _ Hlk ltac:(lia)) as [_ Eq]. replace (Z.of_nat (Z.to_nat (i - 1)) + 1) with i in Eq by lia. by apply Eq. }
    intros i j n Hi Hj Hne Hn Hin1 Hin2. apply (Hin i n Hi) in Hin1. apply (Hin j n Hj) in Hin2.
    apply (sd_disjoint _ _ _ Hs (Z.to_nat (i - 1)) (Z.to_nat (j - 1)) n); rewrite ?final_length; try lia.
    + split; [done |]. by replace (Z.of_nat (Z.to_nat (i - 1)) + 1) with i by lia.
    + split; [done |]. by replace (Z.of_nat (Z.to_nat (j - 1)) + 1) with j by lia.
  - intros no Hno. change (num_inodes sb) with 200 in Hno. rewrite final_entry by lia. apply (sd_free _ _ _ Hs). rewrite final_length. lia.
Qed.
End final.

(** * Properties *)

(** What the files must be: readable, no larger than a file can be, no more than
    there are inodes, and no more blocks than there are data blocks. *)
Definition fits (files : list host_file) : Prop :=
  Forall host_ok files /\ (length files <= 198)%nat /\ fs_blocks (rooted (root_entries files) (host_files files)) <= num_data_blocks sb.

Lemma mkfs_builds files : fits files -> exists st, mkfs_main files init_mkfs = Ret (tt, st) /\
  ((2 + Z.of_nat (length files)) mod 32 <> 0 ->
    mkfs_fs (img st) (nmeta + fs_blocks (rooted (root_entries files) (host_files files))) files) /\
  ((2 + Z.of_nat (length files)) mod 32 = 0 -> ~ file_wf sb (disk_entry sb (img st) ROOT_INODE_NO) (img st)).
Proof.
  intros (Hok & Hlen & Hb). destruct (wp_returns _ _ _ (mkfs_main_ok no_panic files Hok Hlen Hb)) as ([] & st & E & st0 & w & Hs & Ef & Hv).
  exists st. split_and!; [done | |].
  - intros Hm. change nmeta with 92. rewrite <- (sd_blocks _ _ _ Hs). by apply (final_fs st0 w (img st) files).
  - by apply (final_hole st0 w (img st) files).
Qed.

(** Mkfs builds a file system that the kernel can use: for files that fit, it
    returns an image with the super block it announced, an empty log, the bits of
    exactly the blocks in use, a root directory with ".", ".." and an entry for
    every file followed by free entries, and for every file an inode of type
    regular with one link and the bytes of the file; every inode is well-formed
    and no two of them share a block. *)
Theorem mkfs_image (files : list host_file) (Hfit : fits files) (Hroot : (2 + Z.of_nat (length files)) mod 32 <> 0) :
  geometry mkfs_sb /\ exists st, mkfs_main files init_mkfs = Ret (tt, st) /\
    mkfs_fs (img st) (nmeta + fs_blocks (rooted (root_entries files) (host_files files))) files.
Proof. split; [apply G |]. destruct (mkfs_builds files Hfit) as (st & E & Hfs & _). eauto. Qed.

(** Main rounds the size of the root directory up to a block after the last
    entry, also when the entries end with a block: with 30 files, or 62 and so on,
    the directory is one block larger than the blocks it has, and its inode is
    not well-formed. *)
Theorem mkfs_root_hole (files : list host_file) (Hfit : fits files) (Hroot : (2 + Z.of_nat (length files)) mod 32 = 0) :
  exists st, mkfs_main files init_mkfs = Ret (tt, st) /\ ~ file_wf mkfs_sb (disk_entry mkfs_sb (img st) ROOT_INODE_NO) (img st).
Proof. destruct (mkfs_builds files Hfit) as (st & E & _ & Hh). eauto. Qed.

(** ** The kernel reads the image *)

Lemma dir_find_at nm l : forall k d j, l !! k = Some d -> named nm d = true ->
  (forall m d', (m < k)%nat -> l !! m = Some d' -> named nm d' = false) -> dir_find nm j l = (inode_no d, Some (j + Z.of_nat k)).
Proof.
  induction l as [|x l IH]; intros k d j Hk Hn Hbefore; [done |]. destruct k as [|k]; cbn [dir_find].
  - injection Hk as ->. rewrite Hn. do 2 f_equal. lia.
  - rewrite (Hbefore 0%nat x ltac:(lia) eq_refl). rewrite (IH k d (j + 1) Hk Hn); [do 2 f_equal; lia |].
    intros m d' Hm Hl. apply (Hbefore (S m) d'); [lia | done].
Qed.

(** The names of the entries, 14 bytes of each. *)
Definition root_names (files : list host_file) : list (list Z) :=
  cstring 14 <$> [46] :: [46; 46] :: ((fun f : host_file => base_name f.1) <$> files).

Lemma lookup_name_entries files : forall no i, name_entries no files !! i =
  (fun f : host_file => new_dirent (base_name f.1) (no + Z.of_nat i)) <$> files !! i.
Proof.
  induction files as [|f files IH]; intros no [|i]; cbn [name_entries]; try done.
  - change (Some (new_dirent (base_name f.1) no) = Some (new_dirent (base_name f.1) (no + Z.of_nat 0))). do 2 f_equal. lia.
  - change (name_entries (no + 1) files !! i = (fun f0 : host_file => new_dirent (base_name f0.1) (no + Z.of_nat (S i))) <$> files !! i).
    rewrite IH. destruct (files !! i); [| done]. cbn. do 2 f_equal. lia.
Qed.

Lemma lookup_root_names files k d : root_entries files !! k = Some d -> root_names files !! k = Some (cstring 14 (name d)).
Proof.
  unfold root_entries, root_names. destruct k as [|[|k]]; [intros [= <-]; by rewrite cstring_new.. |].
  change (name_entries 2 files !! k = Some d -> (cstring 14 <$> ((fun f : host_file => base_name f.1) <$> files)) !! k = Some (cstring 14 (name d))).
  rewrite lookup_name_entries, !list_lookup_fmap. destruct (files !! k); [| done]. intros [= <-]. cbn [fmap option_fmap option_map].
  by rewrite cstring_new.
Qed.

(** The entry of a file is found under the name of the file. *)
Lemma root_find (files : list host_file) (i : nat) (f : host_file) (k : nat) : (length files <= 198)%nat -> NoDup (root_names files) -> files !! i = Some f ->
  dir_find (base_name f.1) 0 (root_entries files ++ replicate k free_dirent) = (Z.of_nat i + 2, Some (Z.of_nat i + 2)).
Proof.
  intros Hlen Hnd Hi. set (d := new_dirent (base_name f.1) (Z.of_nat i + 2)). pose proof (lookup_lt_Some _ _ _ Hi) as Hil.
  assert (Hk : root_entries files !! (S (S i)) = Some d).
  { change (name_entries 2 files !! i = Some d). rewrite lookup_name_entries, Hi. unfold d. by rewrite (Z.add_comm (Z.of_nat i)). }
  assert (Hno : inode_no d = Z.of_nat i + 2) by (apply u16_small; lia).
  rewrite (dir_find_at _ _ (S (S i)) d); [rewrite Hno; do 2 f_equal; lia | by rewrite lookup_app_l by (by eapply lookup_lt_Some) | |].
  - unfold named. rewrite Hno, (proj2 (Z.eqb_neq _ _)) by lia. apply bool_decide_eq_true_2. unfold d. by rewrite cstring_new.
  - intros m d' Hm Hl. rewrite lookup_app_l in Hl by (apply lookup_lt_Some in Hk; lia).
    unfold named. apply andb_false_iff. right. apply bool_decide_eq_false_2. intros Ec.
    assert (m = S (S i)); [| lia]. eapply (NoDup_lookup _ _ _ _ Hnd (lookup_root_names _ _ _ Hl)).
    rewrite <- Ec. rewrite (lookup_root_names _ _ _ Hk). unfold d. by rewrite cstring_new.
Qed.

Lemma length_base_name path : (length (base_name path) <= length path)%nat.
Proof.
  unfold base_name. assert (Hl : (length (path_tail path) <= length path)%nat) by (unfold path_tail; rewrite length_drop; lia).
  destruct (path_tail path) as [|c nm]; [cbn; lia |]. cbn in Hl. destruct (c =? 95); cbn; lia.
Qed.

Section kernel.
Context {B A : Type} `{BC : BlockCache mkfs_sb B} `{OA : ObjectArena A}.
Implicit Types (s : itree B A).

(** An inode as inode_get makes it: nothing is loaded. *)
Definition unloaded s (p no : Z) : Prop :=
  p ∈ tree_head s /\ ino (tree_mem s p) = no /\ loaded (tree_mem s p) = false /\ inode_lock_ (tree_mem s p) = init_spinlock /\
  0 < count (rc (tree_mem s p)).

Lemma lock_loads me s p no w ops : unloaded s p no -> bc_R (fs_cache s) (qv w ops) -> 0 <= no < num_inodes mkfs_sb ->
  type (disk_entry sb w no) <> INODE_INVALID ->
  exists s1 i, inode_lock me p s = Ret (tt, s1) /\ entry i = disk_entry sb w no /\ run s p i (qv w ops) s1.
Proof.
  intros (Hp & Hno & Hld & Hlk & Hrc) HR Hr Hty. set (i := tree_mem s p) in *.
  assert (El : load_entry (sb := sb) w i = set_loaded true (set_entry (disk_entry sb w no) i)) by (unfold load_entry; by rewrite Hld, Hno).
  destruct (wp_returns (inode_lock me p) (fun _ s1 => run s p (set_inode_lock (mkSpin true (Some me)) (load_entry (sb := sb) w i)) (qv w ops) s1) s) as ([] & s1 & E & H1).
  { eapply inode_lock_ok; [apply G | exact (run_start s p i (qv w ops) Hp eq_refl HR) | by rewrite Hno | done | done | by rewrite El | done]. }
  exists s1, (set_inode_lock (mkSpin true (Some me)) (load_entry (sb := sb) w i)). split_and!; [done | by rewrite El | done].
Qed.

Lemma kernel_reads_ok (me : Z) (killed : bool) (junk : list Z) (files : list host_file) (i : nat) (f : host_file) w used s p ops :
  mkfs_fs w used files -> (length files <= 198)%nat -> NoDup (root_names files) ->
  files !! i = Some f -> Z.of_nat (length f.1) < 2 ^ 20 -> length junk = 16%nat -> bc_R (fs_cache s) (qv w ops) ->
  (unloaded s p ROOT_INODE_NO -> exists s1 s2, inode_lock me p s = Ret (tt, s1) /\
    inode_lookup me killed junk p (base_name f.1) s1 = Ret ((Z.of_nat i + 2, Some (Z.of_nat i + 2)), s2)) /\
  (unloaded s p (Z.of_nat i + 2) -> let n := Z.of_nat (length (host_content f)) in
    exists s1 s2, inode_lock me p s = Ret (tt, s1) /\ inode_read me killed p 0 n s1 = Ret ((n, host_content f), s2)).
Proof.
  intros Hfs Hlen Hnames Hi Hpath Hjunk HR.
  pose proof (lookup_lt_Some _ _ _ Hi) as Hil. split.
  - intros Hu. pose proof (mf_root _ _ _ Hfs) as Hd. destruct (mf_entries _ _ _ Hfs) as [k Hent].
    destruct (lock_loads me s p _ w ops Hu HR) as (s1 & x & E1 & Ex & H1); [unfold ROOT_INODE_NO; change (num_inodes sb) with 200; lia | rewrite (dw_type _ _ Hd); discriminate |].
    destruct (wp_returns (inode_lookup me killed junk p (base_name f.1)) (fun r _ => r = (Z.of_nat i + 2, Some (Z.of_nat i + 2))) s1) as (r & s2 & E2 & ->); [| eauto].
    pose proof (length_base_name f.1).
    eapply inode_lookup_ok; [apply G | exact H1 | by rewrite Ex | lia | done |]. intros s2 _. rewrite Ex, Hent. by apply root_find.
  - intros Hu n. destruct (mf_file _ _ _ Hfs i f Hi) as (Hw & Hty & _ & Hc).
    destruct (lock_loads me s p _ w ops Hu HR) as (s1 & x & E1 & Ex & H1); [change (num_inodes sb) with 200; lia | rewrite Hty; discriminate |].
    assert (Hsz : num_bytes (disk_entry sb w (Z.of_nat i + 2)) = n).
    { unfold n. rewrite <- Hc, length_content. destruct (fw_entry _ _ _ Hw) as (_ & _ & _ & _ & ? & _). lia. }
    pose proof (fw_size _ _ _ Hw) as Hmax. change INODE_MAX_BYTES with 71680 in Hmax.
    destruct (wp_returns (inode_read me killed p 0 n) (fun r _ => r = (n, host_content f)) s1) as (r & s2 & E2 & ->); [| eauto].
    eapply inode_read_ok; [apply G | exact H1 | by rewrite Ex | by rewrite Ex, Hty | rewrite Ex; lia | lia |].
    intros s2 _. rewrite Ex, Hsz, Z.sub_0_r, Z.min_id. f_equal. rewrite <- Hc. unfold content. by rewrite Hsz.
Qed.

(** The kernel finds on the image what mkfs was given: over any block cache
    that shows the image, locking the root inode and looking up the name of a
    file returns the inode number of the file, and locking that inode and reading
    it from the start returns the bytes of the file.  The names must differ in
    their first 14 bytes. *)
Theorem mkfs_kernel_reads (me : Z) (killed : bool) (junk : list Z) (files : list host_file) (i : nat) (f : host_file)
    (Hfit : fits files) (Hroot : (2 + Z.of_nat (length files)) mod 32 <> 0) (Hnames : NoDup (root_names files))
    (Hi : files !! i = Some f) (Hpath : Z.of_nat (length f.1) < 2 ^ 20) (Hjunk : length junk = 16%nat) :
  exists st, mkfs_main files init_mkfs = Ret (tt, st) /\
    forall s p ops, bc_R (fs_cache s) (qv (img st) ops) ->
      (unloaded s p ROOT_INODE_NO -> exists s1 s2, inode_lock me p s = Ret (tt, s1) /\
        inode_lookup me killed junk p (base_name f.1) s1 = Ret ((Z.of_nat i + 2, Some (Z.of_nat i + 2)), s2)) /\
      (unloaded s p (Z.of_nat i + 2) -> let n := Z.of_nat (length (host_content f)) in
        exists s1 s2, inode_lock me p s = Ret (tt, s1) /\ inode_read me killed p 0 n s1 = Ret ((n, host_content f), s2)).
Proof.
  destruct (mkfs_builds files Hfit) as (st & E & Hfs & _). specialize (Hfs Hroot). exists st. split; [done |].
  intros s p ops HR. by eapply kernel_reads_ok; [exact Hfs | apply Hfit | ..].
Qed.
End kernel.

(** * A run of mkfs *)

(** mkfs fs.img user/_sh README, where the first file is read in two pieces. *)
Definition two_files : list host_file := [(chars "user/_sh", Some [[1; 2; 3]; [4]]); (chars "README", Some [[65]])].

#[local] Instance is_byte_decision b : Decision (is_byte b).
Proof. unfold is_byte. apply _. Defined.
#[local] Instance bytes_decision l : Decision (bytes l).
Proof. unfold bytes. apply _. Defined.

(** The conditions of [fits], computed. *)
Definition host_fits (f : host_file) : bool :=
  bool_decide (bytes f.1) && match f.2 with Some pieces => forallb (fun p => bool_decide (bytes p)) pieces | None => false end &&
  (Z.of_nat (length (host_content f)) <=? INODE_MAX_BYTES).
Definition files_fit (files : list host_file) : bool :=
  forallb host_fits files && (length files <=? 198)%nat && (fs_blocks (rooted (root_entries files) (host_files files)) <=? num_data_blocks mkfs_sb).

Lemma files_fit_ok files : files_fit files = true -> fits files.
Proof.
  unfold files_fit, fits. rewrite !andb_true_iff, Nat.leb_le, Z.leb_le, forallb_forall. intros [[Hf Hl] Hb]. split_and!; [| done | done].
  apply Forall_forall. intros f Hin. apply list_elem_of_In, Hf in Hin. unfold host_fits in Hin.
  rewrite !andb_true_iff, bool_decide_eq_true, Z.leb_le in Hin. destruct Hin as [[Hp Hc] Hs]. split_and!; [done | | done].
  destruct (f.2) as [pieces|]; [| done]. exists pieces. split; [done |]. rewrite forallb_forall in Hc.
  apply Forall_forall. intros p Hp'. apply list_elem_of_In, Hc in Hp'. by apply bool_decide_eq_true in Hp'.
Qed.

Lemma mkfs_image_witness : exists st, mkfs_main two_files init_mkfs = Ret (tt, st) /\ mkfs_fs (img st) 95 two_files.
Proof.
  destruct (mkfs_image two_files (files_fit_ok two_files ltac:(vm_compute; reflexivity)) ltac:(vm_compute; discriminate)) as [_ (st & E & H)].
  exists st. split; [exact E |]. assert (E95 : nmeta + fs_blocks (rooted (root_entries two_files) (host_files two_files)) = 95) by (vm_compute; reflexivity).
  rewrite E95 in H. exact H.
Defined.

Lemma mkfs_root_hole_witness : exists st, mkfs_main (replicate 30 (chars "x", Some [])) init_mkfs = Ret (tt, st) /\
  ~ file_wf mkfs_sb (disk_entry mkfs_sb (img st) ROOT_INODE_NO) (img st).
Proof.
  exact (mkfs_root_hole (replicate 30 (chars "x", Some [])) (files_fit_ok (replicate 30 (chars "x", Some [])) ltac:(vm_compute; reflexivity))
    ltac:(vm_compute; reflexivity)).
Defined.

(** Inode 1 at address 10 and inode 2 at address 20, neither loaded. *)
Definition fresh_inode (no : Z) : Inode := mkInode init_spinlock (mkRc 1) no false zero_entry.
Definition mkfs_tree (c : bcache (Arena pmem)) : itree (bcache (Arena pmem)) (Arena pmem) :=
  mkTree c init_spinlock inode_arena [10; 20] (fun p => fresh_inode (if p =? 10 then 1 else 2)) 10 init_console.

Lemma mkfs_kernel_reads_witness : exists c s1 s2 s3 s4,
  inode_lock (sb := mkfs_sb) 0 10 (mkfs_tree c) = Ret (tt, s1) /\ inode_lookup (sb := mkfs_sb) 0 false (replicate 16 0) 10 (chars "sh") s1 = Ret ((2, Some 2), s2) /\
  inode_lock (sb := mkfs_sb) 0 20 (mkfs_tree c) = Ret (tt, s3) /\ inode_read (sb := mkfs_sb) 0 false 20 0 4 s3 = Ret ((4, [1; 2; 3; 4]), s4).
Proof.
  pose proof (files_fit_ok two_files ltac:(vm_compute; reflexivity)) as Hfit.
  destruct (mkfs_kernel_reads (B := bcache (Arena pmem)) (A := Arena pmem) 0 false (replicate 16 0) two_files 0 (chars "user/_sh", Some [[1; 2; 3]; [4]])
    Hfit ltac:(discriminate) ltac:(apply (bool_decide_unpack _); vm_compute; exact I) eq_refl ltac:(by vm_compute) eq_refl) as (st & E & H).
  destruct (mkfs_builds two_files Hfit) as (st' & E' & Hfs & _). rewrite E in E'. injection E' as <-. clear E.
  specialize (Hfs ltac:(vm_compute; discriminate)).
  destruct (boot_cache mkfs_sb (img st) (mf_wf _ _ _ Hfs)) as [c Hc];
    [apply (mf_log _ _ _ Hfs); vm_compute; split; [discriminate | reflexivity] | vm_compute; discriminate | vm_compute; split; [discriminate | reflexivity] |].
  destruct (H (mkfs_tree c) 10 _ Hc) as [H1 _]. destruct (H (mkfs_tree c) 20 _ Hc) as [_ H2].
  destruct H1 as (s1 & s2 & E1 & E2); [repeat split; left |]. destruct H2 as (s3 & s4 & E3 & E4); [repeat split; right; left |].
  exists c, s1, s2, s3, s4. split; [exact E1 |]. split; [exact E2 |]. split; [exact E3 | exact E4].
Defined.
