(* ===== verification/Sd.v ===== *)
(** driver/sd.c and driver/mbox.c: the driver of the SD card behind the EMMC
    controller.  The controller, the GPIO pins and the mailbox of the firmware
    are hardware: a type [D] with a read and a write of each register and with
    the passing of time.  Messages on the console are left out, the registers
    that they print are read. *)
From S2P Require Import Prelude Bytes CString Locks.

(** * Registers *)

Inductive reg :=
  | EMMC_ARG2 | EMMC_BLKSIZECNT | EMMC_ARG1 | EMMC_CMDTM | EMMC_RESP0 | EMMC_RESP1 | EMMC_RESP2 | EMMC_RESP3
  | EMMC_DATA | EMMC_STATUS | EMMC_CONTROL0 | EMMC_CONTROL1 | EMMC_INTERRUPT | EMMC_IRPT_MASK | EMMC_IRPT_EN
  | EMMC_CONTROL2 | EMMC_SLOTISR_VER
  | GPFSEL4 | GPFSEL5 | GPPUD | GPPUDCLK1 | GPHEN1 | GPEDS1
  | MBOX_READ | MBOX_STATUS | MBOX_WRITE.

(** What the driver does with the hardware; [elapse] waits a number of
    microseconds, [spin] goes round an empty loop, and the firmware and the
    driver share a buffer of words. *)
Class Mmio (D : Type) := {
  reg_get : reg -> D -> Z * D;
  reg_put : reg -> Z -> D -> D;
  elapse : Z -> D -> D;
  spin : Z -> D -> D;
  shared_get : D -> list Z;
  shared_put : list Z -> D -> D
}.

(** * Constants *)

Definition CMD_IS_DATA : Z := 0x00200000.
Definition CMD_RSPNS_NO : Z := 0x00000000.
Definition CMD_RSPNS_136 : Z := 0x00010000.
Definition CMD_RSPNS_48 : Z := 0x00020000.
Definition CMD_RSPNS_48B : Z := 0x00030000.
Definition TM_MULTI_BLOCK : Z := 0x00000020.
Definition TM_DAT_DIR_HC : Z := 0x00000000.
Definition TM_DAT_DIR_CH : Z := 0x00000010.
Definition TM_BLKCNT_EN : Z := 0x00000002.
Definition TM_MULTI_DATA : Z := Z.lor (Z.lor CMD_IS_DATA TM_MULTI_BLOCK) TM_BLKCNT_EN.

Definition INT_AUTO_ERROR : Z := 0x01000000.
Definition INT_DATA_END_ERR : Z := 0x00400000.
Definition INT_DATA_CRC_ERR : Z := 0x00200000.
Definition INT_DATA_TIMEOUT : Z := 0x00100000.
Definition INT_INDEX_ERROR : Z := 0x00080000.
Definition INT_END_ERROR : Z := 0x00040000.
Definition INT_CRC_ERROR : Z := 0x00020000.
Definition INT_CMD_TIMEOUT : Z := 0x00010000.
Definition INT_ERR : Z := 0x00008000.
Definition INT_READ_RDY : Z := 0x00000020.
Definition INT_WRITE_RDY : Z := 0x00000010.
Definition INT_DATA_DONE : Z := 0x00000002.
Definition INT_CMD_DONE : Z := 0x00000001.
Definition INT_ERROR_MASK : Z :=
  Z.lor (Z.lor (Z.lor (Z.lor (Z.lor (Z.lor (Z.lor INT_CRC_ERROR INT_END_ERROR) INT_INDEX_ERROR) INT_DATA_TIMEOUT)
    INT_DATA_CRC_ERR) INT_DATA_END_ERR) INT_ERR) INT_AUTO_ERROR.

Definition C0_HCTL_DWITDH : Z := 0x00000002.
Definition C1_SRST_HC : Z := 0x01000000.
Definition C1_TOUNIT_MAX : Z := 0x000e0000.
Definition C1_CLK_EN : Z := 0x00000004.
Definition C1_CLK_STABLE : Z := 0x00000002.
Definition C1_CLK_INTLEN : Z := 0x00000001.
Definition FREQ_SETUP : Z := 400000.
Definition FREQ_NORMAL : Z := 25000000.
Definition HOST_SPEC_NUM : Z := 0x00ff0000.
Definition HOST_SPEC_NUM_SHIFT : Z := 16.
Definition HOST_SPEC_V2 : Z := 1.
Definition SR_READ_AVAILABLE : Z := 0x00000800.
Definition SR_DAT_INHIBIT : Z := 0x00000002.
Definition SR_CMD_INHIBIT : Z := 0x00000001.

Definition ACMD41_HCS : Z := 0x40000000.
Definition ACMD41_SDXC_POWER : Z := 0x10000000.
Definition ACMD41_S18R : Z := 0x01000000.
Definition ACMD41_VOLTAGE : Z := 0x00ff8000.
Definition ACMD41_ARG_HC : Z := Z.lor (Z.lor (Z.lor ACMD41_HCS ACMD41_SDXC_POWER) ACMD41_VOLTAGE) ACMD41_S18R.
Definition ACMD41_ARG_SC : Z := Z.lor ACMD41_VOLTAGE ACMD41_S18R.

Definition ST_CARD_STATE : Z := 0x00001e00.
Definition ST_APP_CMD : Z := 0x00000020.
Definition R1_CARD_STATE_SHIFT : Z := 9.
Definition R1_ERRORS_MASK : Z := 0xfff9c004.
Definition R3_COMPLETE : Z := 0x80000000.
Definition R3_CCS : Z := 0x40000000.
Definition R3_S18A : Z := 0x01000000.
Definition R6_RCA_MASK : Z := 0xffff0000.

Definition RESP_NO : Z := 0.
Definition RESP_R1 : Z := 1.
Definition RESP_R1b : Z := 11.
Definition RESP_R2I : Z := 2.
Definition RESP_R2S : Z := 12.
Definition RESP_R3 : Z := 3.
Definition RESP_R6 : Z := 6.
Definition RESP_R7 : Z := 7.
Definition RCA_NO : Z := 1.
Definition RCA_YES : Z := 2.

Definition SD_OK : Z := 0.
Definition SD_ERROR : Z := 1.
Definition SD_TIMEOUT : Z := 2.
Definition SD_BUSY : Z := 3.
Definition SD_ERROR_RESET : Z := 6.
Definition SD_ERROR_CLOCK : Z := 7.
Definition SD_ERROR_VOLTAGE : Z := 8.
Definition SD_ERROR_APP_CMD : Z := 9.
Definition SD_CARD_CHANGED : Z := 10.
Definition SD_CARD_ABSENT : Z := 11.
Definition SD_CARD_REINSERTED : Z := 12.

Definition CSD0_VERSION : Z := 0x00c00000.
Definition CSD0_V1 : Z := 0x00000000.
Definition CSD1VN_READ_BL_LEN : Z := 0x00000f00.
Definition CSD1VN_READ_BL_LEN_SHIFT : Z := 8.
Definition CSD3VN_FILE_FORMAT : Z := 0x0000000c.
Definition CSD3VN_FILE_FORMAT_HDD : Z := 0x00000000.
Definition CSD3VN_FILE_FORMAT_DOSFAT : Z := 0x00000004.
Definition CSD1V1_C_SIZEH : Z := 0x00000003.
Definition CSD1V1_C_SIZEH_SHIFT : Z := 10.
Definition CSD2V1_C_SIZEL : Z := 0xffc00000.
Definition CSD2V1_C_SIZEL_SHIFT : Z := 22.
Definition CSD2V1_C_SIZE_MULT : Z := 0x00000380.
Definition CSD2V1_C_SIZE_MULT_SHIFT : Z := 7.
Definition CSD2V2_C_SIZE : Z := 0x3fffff00.
Definition CSD2V2_C_SIZE_SHIFT : Z := 8.

Definition SCR_SD_BUS_WIDTH_1 : Z := 0x00000100.
Definition SCR_SD_BUS_WIDTH_4 : Z := 0x00000400.
Definition SCR_CMD_SUPP_SET_BLKCNT : Z := 0x02000000.
Definition SCR_CMD_SUPP_SPEED_CLASS : Z := 0x01000000.
Definition SD_TYPE_1 : Z := 2.
Definition SD_TYPE_2_SC : Z := 3.
Definition SD_TYPE_2_HC : Z := 4.
Definition SD_SUPP_SET_BLOCK_COUNT : Z := 0x80000000.
Definition SD_SUPP_SPEED_CLASS : Z := 0x40000000.
Definition SD_SUPP_BUS_WIDTH_4 : Z := 0x20000000.
Definition SD_SUPP_BUS_WIDTH_1 : Z := 0x10000000.

(** * Commands *)

Record EMMCCommand := mkCommand {
  cmd_name : string;
  code : Z;
  resp : Z;
  rca : Z;
  cmd_delay : Z
}.

Definition sdCommandTable : list EMMCCommand := [
  mkCommand "GO_IDLE_STATE" (Z.lor 0x00000000 CMD_RSPNS_NO) RESP_NO RCA_NO 0;
  mkCommand "ALL_SEND_CID" (Z.lor 0x02000000 CMD_RSPNS_136) RESP_R2I RCA_NO 0;
  mkCommand "SEND_REL_ADDR" (Z.lor 0x03000000 CMD_RSPNS_48) RESP_R6 RCA_NO 0;
  mkCommand "SET_DSR" (Z.lor 0x04000000 CMD_RSPNS_NO) RESP_NO RCA_NO 0;
  mkCommand "SWITCH_FUNC" (Z.lor 0x06000000 CMD_RSPNS_48) RESP_R1 RCA_NO 0;
  mkCommand "CARD_SELECT" (Z.lor 0x07000000 CMD_RSPNS_48B) RESP_R1b RCA_YES 0;
  mkCommand "SEND_IF_COND" (Z.lor 0x08000000 CMD_RSPNS_48) RESP_R7 RCA_NO 100;
  mkCommand "SEND_CSD" (Z.lor 0x09000000 CMD_RSPNS_136) RESP_R2S RCA_YES 0;
  mkCommand "SEND_CID" (Z.lor 0x0A000000 CMD_RSPNS_136) RESP_R2I RCA_YES 0;
  mkCommand "VOLT_SWITCH" (Z.lor 0x0B000000 CMD_RSPNS_48) RESP_R1 RCA_NO 0;
  mkCommand "STOP_TRANS" (Z.lor 0x0C000000 CMD_RSPNS_48B) RESP_R1b RCA_NO 0;
  mkCommand "SEND_STATUS" (Z.lor 0x0D000000 CMD_RSPNS_48) RESP_R1 RCA_YES 0;
  mkCommand "GO_INACTIVE" (Z.lor 0x0F000000 CMD_RSPNS_NO) RESP_NO RCA_YES 0;
  mkCommand "SET_BLOCKLEN" (Z.lor 0x10000000 CMD_RSPNS_48) RESP_R1 RCA_NO 0;
  mkCommand "READ_SINGLE" (Z.lor (Z.lor (Z.lor 0x11000000 CMD_RSPNS_48) CMD_IS_DATA) TM_DAT_DIR_CH) RESP_R1 RCA_NO 0;
  mkCommand "READ_MULTI" (Z.lor (Z.lor (Z.lor 0x12000000 CMD_RSPNS_48) TM_MULTI_DATA) TM_DAT_DIR_CH) RESP_R1 RCA_NO 0;
  mkCommand "SEND_TUNING" (Z.lor 0x13000000 CMD_RSPNS_48) RESP_R1 RCA_NO 0;
  mkCommand "SPEED_CLASS" (Z.lor 0x14000000 CMD_RSPNS_48B) RESP_R1b RCA_NO 0;
  mkCommand "SET_BLOCKCNT" (Z.lor 0x17000000 CMD_RSPNS_48) RESP_R1 RCA_NO 0;
  mkCommand "WRITE_SINGLE" (Z.lor (Z.lor (Z.lor 0x18000000 CMD_RSPNS_48) CMD_IS_DATA) TM_DAT_DIR_HC) RESP_R1 RCA_NO 0;
  mkCommand "WRITE_MULTI" (Z.lor (Z.lor (Z.lor 0x19000000 CMD_RSPNS_48) TM_MULTI_DATA) TM_DAT_DIR_HC) RESP_R1 RCA_NO 0;
  mkCommand "PROGRAM_CSD" (Z.lor 0x1B000000 CMD_RSPNS_48) RESP_R1 RCA_NO 0;
  mkCommand "SET_WRITE_PR" (Z.lor 0x1C000000 CMD_RSPNS_48B) RESP_R1b RCA_NO 0;
  mkCommand "CLR_WRITE_PR" (Z.lor 0x1D000000 CMD_RSPNS_48B) RESP_R1b RCA_NO 0;
  mkCommand "SND_WRITE_PR" (Z.lor 0x1E000000 CMD_RSPNS_48) RESP_R1 RCA_NO 0;
  mkCommand "ERASE_WR_ST" (Z.lor 0x20000000 CMD_RSPNS_48) RESP_R1 RCA_NO 0;
  mkCommand "ERASE_WR_END" (Z.lor 0x21000000 CMD_RSPNS_48) RESP_R1 RCA_NO 0;
  mkCommand "ERASE" (Z.lor 0x26000000 CMD_RSPNS_48B) RESP_R1b RCA_NO 0;
  mkCommand "LOCK_UNLOCK" (Z.lor 0x2A000000 CMD_RSPNS_48) RESP_R1 RCA_NO 0;
  mkCommand "APP_CMD" (Z.lor 0x37000000 CMD_RSPNS_NO) RESP_NO RCA_NO 100;
  mkCommand "APP_CMD" (Z.lor 0x37000000 CMD_RSPNS_48) RESP_R1 RCA_YES 0;
  mkCommand "GEN_CMD" (Z.lor 0x38000000 CMD_RSPNS_48) RESP_R1 RCA_NO 0;
  mkCommand "SET_BUS_WIDTH" (Z.lor 0x06000000 CMD_RSPNS_48) RESP_R1 RCA_NO 0;
  mkCommand "SD_STATUS" (Z.lor 0x0D000000 CMD_RSPNS_48) RESP_R1 RCA_YES 0;
  mkCommand "SEND_NUM_WRBL" (Z.lor 0x16000000 CMD_RSPNS_48) RESP_R1 RCA_NO 0;
  mkCommand "SEND_NUM_ERS" (Z.lor 0x17000000 CMD_RSPNS_48) RESP_R1 RCA_NO 0;
  mkCommand "SD_SENDOPCOND" (Z.lor 0x29000000 CMD_RSPNS_48) RESP_R3 RCA_NO 1000;
  mkCommand "SET_CLR_DET" (Z.lor 0x2A000000 CMD_RSPNS_48) RESP_R1 RCA_NO 0;
  mkCommand "SEND_SCR" (Z.lor (Z.lor (Z.lor 0x33000000 CMD_RSPNS_48) CMD_IS_DATA) TM_DAT_DIR_CH) RESP_R1 RCA_NO 0].

Definition IX_GO_IDLE_STATE : Z := 0.
Definition IX_ALL_SEND_CID : Z := 1.
Definition IX_SEND_REL_ADDR : Z := 2.
Definition IX_CARD_SELECT : Z := 5.
Definition IX_SEND_IF_COND : Z := 6.
Definition IX_SEND_CSD : Z := 7.
Definition IX_SET_BLOCKLEN : Z := 13.
Definition IX_READ_SINGLE : Z := 14.
Definition IX_WRITE_SINGLE : Z := 19.
Definition IX_APP_CMD : Z := 29.
Definition IX_APP_CMD_RCA : Z := 30.
Definition IX_APP_CMD_START : Z := 32.
Definition IX_SET_BUS_WIDTH : Z := 32.
Definition IX_APP_SEND_OP_COND : Z := 36.
Definition IX_SEND_SCR : Z := 38.

(** * State *)

(** [SDDescriptor]; [lastCmd] is the index of the command in the table. *)
Record SDDescriptor := mkCard {
  capacity : Z;
  cid : list Z;
  csd : list Z;
  scr : list Z;
  ocr : Z;
  support : Z;
  fileFormat : Z;
  card_type : Z;
  uhsi : Z;
  card_init : Z;
  absent : Z;
  card_rca : Z;
  cardState : Z;
  status : Z;
  lastCmd : option Z;
  lastArg : Z
}.

(** [struct buf] of driver/buf.h. *)
Record buf := mkBuf {
  flags : Z;
  blockno : Z;
  data : list Z;
  qnext : Z
}.

Definition B_VALID : Z := 0x2.
Definition B_DIRTY : Z := 0x4.

(** The static variables of the driver, the buffers in memory (the head of the
    queue among them), the channels that wakeup was called for, and whether sd_intr
    is registered as the handler of the interrupt. *)
Record sd (D : Type) := mkSd {
  dev : D;
  sdCard : SDDescriptor;
  sdHostVer : Z;
  sdBaseClock : Z;
  bufs : gmap Z buf;
  sdlock : SpinLock;
  wakeups : list Z;
  registered : bool
}.
Arguments mkSd {D}.
Arguments dev {D}. Arguments sdCard {D}. Arguments sdHostVer {D}. Arguments sdBaseClock {D}.
Arguments bufs {D}. Arguments sdlock {D}. Arguments wakeups {D}. Arguments registered {D}.

Definition set_capacity v (c : SDDescriptor) := mkCard v (cid c) (csd c) (scr c) (ocr c) (support c) (fileFormat c) (card_type c) (uhsi c) (card_init c) (absent c) (card_rca c) (cardState c) (status c) (lastCmd c) (lastArg c).
Definition set_cid v (c : SDDescriptor) := mkCard (capacity c) v (csd c) (scr c) (ocr c) (support c) (fileFormat c) (card_type c) (uhsi c) (card_init c) (absent c) (card_rca c) (cardState c) (status c) (lastCmd c) (lastArg c).
Definition set_csd v (c : SDDescriptor) := mkCard (capacity c) (cid c) v (scr c) (ocr c) (support c) (fileFormat c) (card_type c) (uhsi c) (card_init c) (absent c) (card_rca c) (cardState c) (status c) (lastCmd c) (lastArg c).
Definition set_scr v (c : SDDescriptor) := mkCard (capacity c) (cid c) (csd c) v (ocr c) (support c) (fileFormat c) (card_type c) (uhsi c) (card_init c) (absent c) (card_rca c) (cardState c) (status c) (lastCmd c) (lastArg c).
Definition set_ocr v (c : SDDescriptor) := mkCard (capacity c) (cid c) (csd c) (scr c) v (support c) (fileFormat c) (card_type c) (uhsi c) (card_init c) (absent c) (card_rca c) (cardState c) (status c) (lastCmd c) (lastArg c).
Definition set_support v (c : SDDescriptor) := mkCard (capacity c) (cid c) (csd c) (scr c) (ocr c) v (fileFormat c) (card_type c) (uhsi c) (card_init c) (absent c) (card_rca c) (cardState c) (status c) (lastCmd c) (lastArg c).
Definition set_fileFormat v (c : SDDescriptor) := mkCard (capacity c) (cid c) (csd c) (scr c) (ocr c) (support c) v (card_type c) (uhsi c) (card_init c) (absent c) (card_rca c) (cardState c) (status c) (lastCmd c) (lastArg c).
Definition set_card_type v (c : SDDescriptor) := mkCard (capacity c) (cid c) (csd c) (scr c) (ocr c) (support c) (fileFormat c) v (uhsi c) (card_init c) (absent c) (card_rca c) (cardState c) (status c) (lastCmd c) (lastArg c).
Definition set_uhsi v (c : SDDescriptor) := mkCard (capacity c) (cid c) (csd c) (scr c) (ocr c) (support c) (fileFormat c) (card_type c) v (card_init c) (absent c) (card_rca c) (cardState c) (status c) (lastCmd c) (lastArg c).
Definition set_card_init v (c : SDDescriptor) := mkCard (capacity c) (cid c) (csd c) (scr c) (ocr c) (support c) (fileFormat c) (card_type c) (uhsi c) v (absent c) (card_rca c) (cardState c) (status c) (lastCmd c) (lastArg c).
Definition set_absent v (c : SDDescriptor) := mkCard (capacity c) (cid c) (csd c) (scr c) (ocr c) (support c) (fileFormat c) (card_type c) (uhsi c) (card_init c) v (card_rca c) (cardState c) (status c) (lastCmd c) (lastArg c).
Definition set_card_rca v (c : SDDescriptor) := mkCard (capacity c) (cid c) (csd c) (scr c) (ocr c) (support c) (fileFormat c) (card_type c) (uhsi c) (card_init c) (absent c) v (cardState c) (status c) (lastCmd c) (lastArg c).
Definition set_cardState v (c : SDDescriptor) := mkCard (capacity c) (cid c) (csd c) (scr c) (ocr c) (support c) (fileFormat c) (card_type c) (uhsi c) (card_init c) (absent c) (card_rca c) v (status c) (lastCmd c) (lastArg c).
Definition set_status v (c : SDDescriptor) := mkCard (capacity c) (cid c) (csd c) (scr c) (ocr c) (support c) (fileFormat c) (card_type c) (uhsi c) (card_init c) (absent c) (card_rca c) (cardState c) v (lastCmd c) (lastArg c).
Definition set_lastCmd v (c : SDDescriptor) := mkCard (capacity c) (cid c) (csd c) (scr c) (ocr c) (support c) (fileFormat c) (card_type c) (uhsi c) (card_init c) (absent c) (card_rca c) (cardState c) (status c) v (lastArg c).
Definition set_lastArg v (c : SDDescriptor) := mkCard (capacity c) (cid c) (csd c) (scr c) (ocr c) (support c) (fileFormat c) (card_type c) (uhsi c) (card_init c) (absent c) (card_rca c) (cardState c) (status c) (lastCmd c) v.
Definition set_flags v (b : buf) := mkBuf v (blockno b) (data b) (qnext b).
Definition set_blockno v (b : buf) := mkBuf (flags b) v (data b) (qnext b).
Definition set_data v (b : buf) := mkBuf (flags b) (blockno b) v (qnext b).
Definition set_qnext v (b : buf) := mkBuf (flags b) (blockno b) (data b) v.
Definition set_dev {D} v (s : sd D) : sd D := mkSd v (sdCard s) (sdHostVer s) (sdBaseClock s) (bufs s) (sdlock s) (wakeups s) (registered s).
Definition set_sdCard {D} v (s : sd D) : sd D := mkSd (dev s) v (sdHostVer s) (sdBaseClock s) (bufs s) (sdlock s) (wakeups s) (registered s).
Definition set_sdHostVer {D} v (s : sd D) : sd D := mkSd (dev s) (sdCard s) v (sdBaseClock s) (bufs s) (sdlock s) (wakeups s) (registered s).
Definition set_sdBaseClock {D} v (s : sd D) : sd D := mkSd (dev s) (sdCard s) (sdHostVer s) v (bufs s) (sdlock s) (wakeups s) (registered s).
Definition set_bufs {D} v (s : sd D) : sd D := mkSd (dev s) (sdCard s) (sdHostVer s) (sdBaseClock s) v (sdlock s) (wakeups s) (registered s).
Definition set_sdlock {D} v (s : sd D) : sd D := mkSd (dev s) (sdCard s) (sdHostVer s) (sdBaseClock s) (bufs s) v (wakeups s) (registered s).
Definition set_wakeups {D} v (s : sd D) : sd D := mkSd (dev s) (sdCard s) (sdHostVer s) (sdBaseClock s) (bufs s) (sdlock s) v (registered s).
Definition set_registered {D} v (s : sd D) : sd D := mkSd (dev s) (sdCard s) (sdHostVer s) (sdBaseClock s) (bufs s) (sdlock s) (wakeups s) v.

(** [sdCommandTable[index]]. *)
Definition nth_command (index : Z) : EMMCCommand := nth (Z.to_nat index) sdCommandTable (mkCommand "" 0 0 0 0).

(** [x & m] as a truth value. *)
Definition any_bit (x m : Z) : bool := negb (Z.land x m =? 0).

(** * Arithmetic *)

(** fls_long works on the low 32 bits of its argument. *)
Definition fls_long (x : Z) : Z :=
  if x =? 0 then 0 else
  let '(x, r) := (x, 32) in
  let '(x, r) := if negb (any_bit x 0xffff0000) then (u64 (Z.shiftl x 16), r - 16) else (x, r) in
  let '(x, r) := if negb (any_bit x 0xff000000) then (u64 (Z.shiftl x 8), r - 8) else (x, r) in
  let '(x, r) := if negb (any_bit x 0xf0000000) then (u64 (Z.shiftl x 4), r - 4) else (x, r) in
  let '(x, r) := if negb (any_bit x 0xc0000000) then (u64 (Z.shiftl x 2), r - 2) else (x, r) in
  if negb (any_bit x 0x80000000) then r - 1 else r.

Definition roundup_pow_of_two (x : Z) : Z := u64 (Z.shiftl 1 (fls_long (u64 (x - 1)))).

(** sdGetClockDivider with [sdHostVer] as [hostVer]. *)
Definition sdGetClockDivider (hostVer freq : Z) : Z :=
  let closest := 41666666 / freq in
  let shiftcount := fls_long (u32 (closest - 1)) in
  let shiftcount := if shiftcount >? 0 then shiftcount - 1 else shiftcount in
  let shiftcount := if shiftcount >? 7 then 7 else shiftcount in
  let divisor := if hostVer >? HOST_SPEC_V2 then closest else u32 (Z.shiftl 1 shiftcount) in
  let divisor := if divisor <=? 2 then 2 else divisor in
  let hi := if hostVer >? HOST_SPEC_V2 then Z.shiftr (Z.land divisor 0x300) 2 else 0 in
  let lo := Z.land divisor 0x0ff in
  u32 (u32 (Z.shiftl lo 8) + hi).

(** The capacity in bytes from the four words of the CSD. *)
Definition csd_capacity (csd : list Z) : Z :=
  if Z.land (zget csd 0) CSD0_VERSION =? CSD0_V1 then
    let csize := i32 (u32 (u32 (Z.shiftl (Z.land (zget csd 1) CSD1V1_C_SIZEH) CSD1V1_C_SIZEH_SHIFT) +
                  Z.shiftr (Z.land (zget csd 2) CSD2V1_C_SIZEL) CSD2V1_C_SIZEL_SHIFT)) in
    let mult := i32 (Z.shiftl 1 (Z.shiftr (Z.land (zget csd 2) CSD2V1_C_SIZE_MULT) CSD2V1_C_SIZE_MULT_SHIFT + 2)) in
    let blockSize := i32 (Z.shiftl 1 (Z.shiftr (Z.land (zget csd 1) CSD1VN_READ_BL_LEN) CSD1VN_READ_BL_LEN_SHIFT)) in
    let numBlocks := i64 ((csize + 1) * mult) in
    u64 (numBlocks * blockSize)
  else
    let csize := Z.shiftr (Z.land (zget csd 2) CSD2V2_C_SIZE) CSD2V2_C_SIZE_SHIFT in
    u64 ((csize + 1) * 512 * 1024).

(** What sdParseCID prints: manufacturer, application, name, revision, serial
    number and date. *)
Record card_id := mkCid {
  manId : Z;
  appId : list Z;
  card_name : list Z;
  revH : Z;
  revL : Z;
  serial : Z;
  dateY : Z;
  dateM : Z
}.

Definition parse_cid (cid : list Z) : card_id :=
  mkCid (Z.shiftr (Z.land (zget cid 0) 0x00ff0000) 16)
    [Z.shiftr (Z.land (zget cid 0) 0x0000ff00) 8; Z.land (zget cid 0) 0x000000ff; 0]
    [Z.shiftr (Z.land (zget cid 1) 0xff000000) 24; Z.shiftr (Z.land (zget cid 1) 0x00ff0000) 16;
     Z.shiftr (Z.land (zget cid 1) 0x0000ff00) 8; Z.land (zget cid 1) 0x000000ff;
     Z.shiftr (Z.land (zget cid 2) 0xff000000) 24; 0]
    (Z.shiftr (Z.land (zget cid 2) 0x00f00000) 20) (Z.shiftr (Z.land (zget cid 2) 0x000f0000) 16)
    (i32 (u32 (u32 (Z.shiftl (Z.land (zget cid 2) 0x0000ffff) 16) + Z.shiftr (Z.land (zget cid 3) 0xffff0000) 16)))
    (Z.shiftr (Z.land (zget cid 3) 0x00000ff0) 4 + 2000) (Z.land (zget cid 3) 0x0000000f).

(** The status that an R6 response stands for. *)
Definition r6_status (resp0 : Z) : Z :=
  Z.lor (Z.lor (Z.lor (u32 (Z.land resp0 0x00001fff)) (u32 (Z.shiftl (Z.land resp0 0x00002000) 6)))
    (u32 (Z.shiftl (Z.land resp0 0x00004000) 8))) (u32 (Z.shiftl (Z.land resp0 0x00008000) 8)).
