(* ===== verification/SdCard.v ===== *)
(** driver/sd.c and driver/mbox.c: commands to the SD card, its initialisation,
    and the mailbox. *)
From S2P Require Import Prelude Bytes CString Locks Sd.

Section driver.
Context {D : Type} `{Mmio D}.

(** * Accesses *)

Definition rd (r : reg) : M (sd D) Z :=
  s ← get; let '(v, d) := reg_get r (dev s) in modify (set_dev d);; mret v.
Definition wr (r : reg) (v : Z) : M (sd D) unit := modify (fun s => set_dev (reg_put r v (dev s)) s).

Definition delay (n : Z) : M (sd D) unit := modify (fun s => set_dev (spin n (dev s)) s).
Definition sd_delayus (c : Z) : M (sd D) unit := modify (fun s => set_dev (elapse (u32 (c * 3)) (dev s)) s).

Definition card : M (sd D) SDDescriptor := s ← get; mret (sdCard s).
Definition modify_card (f : SDDescriptor -> SDDescriptor) : M (sd D) unit := modify (fun s => set_sdCard (f (sdCard s)) s).

(** [while (cond && count--) sd_delayus(us)], [n] is [count]; the last count. *)
Fixpoint poll (n : nat) (count : Z) (cond : M (sd D) bool) (us : Z) : M (sd D) Z :=
  b ← cond;
  if (b : bool) then
    match n with
    | O => mret (count - 1)
    | S n' => sd_delayus us;; poll n' (count - 1) cond us
    end
  else mret count.

(** [while (cond && --count) sd_delayus(us)]. *)
Fixpoint poll_pre (n : nat) (count : Z) (cond : M (sd D) bool) (us : Z) : M (sd D) Z :=
  b ← cond;
  if (b : bool) then
    if count - 1 =? 0 then mret (count - 1) else
    match n with
    | O => lift OutOfFuel
    | S n' => sd_delayus us;; poll_pre n' (count - 1) cond us
    end
  else mret count.

(** [while (cond && ++count < max) sd_delayus(us)]. *)
Fixpoint poll_up (n : nat) (count max : Z) (cond : M (sd D) bool) (us : Z) : M (sd D) Z :=
  b ← cond;
  if (b : bool) then
    if count + 1 <? max then
      match n with
      | O => lift OutOfFuel
      | S n' => sd_delayus us;; poll_up n' (count + 1) max cond us
      end
    else mret (count + 1)
  else mret count.

(** [*r & m] as a truth value. *)
Definition test (r : reg) (m : Z) : M (sd D) bool := v ← rd r; mret (any_bit v m).

(** * Commands *)

Definition sdDebugResponse (resp : Z) : M (sd D) Z :=
  c ← card;
  match lastCmd c with
  | None => fault
  | Some _ =>
      rd EMMC_RESP3;; rd EMMC_RESP2;; rd EMMC_RESP1;; rd EMMC_RESP0;;
      rd EMMC_STATUS;; rd EMMC_CONTROL1;; rd EMMC_INTERRUPT;;
      mret resp
  end.

Definition sdWaitForInterrupt (mask : Z) : M (sd D) Z :=
  let waitMask := Z.lor mask INT_ERROR_MASK in
  count ← poll (Z.to_nat 1000000) 1000000 (b ← test EMMC_INTERRUPT waitMask; mret (negb b)) 1;
  ival ← rd EMMC_INTERRUPT;
  if (count <=? 0) || any_bit ival INT_CMD_TIMEOUT || any_bit ival INT_DATA_TIMEOUT then
    wr EMMC_INTERRUPT ival;;
    mret SD_TIMEOUT
  else if any_bit ival INT_ERROR_MASK then
    rd EMMC_STATUS;; rd EMMC_RESP0;;
    wr EMMC_INTERRUPT ival;;
    mret SD_ERROR
  else
    wr EMMC_INTERRUPT mask;;
    mret SD_OK.

(** The status has the inhibit bit, and no error is flagged. *)
Definition inhibited (inhibit : Z) : M (sd D) bool :=
  b ← test EMMC_STATUS inhibit;
  if (b : bool) then e ← test EMMC_INTERRUPT INT_ERROR_MASK; mret (negb e) else mret false.

Definition sdWaitForCommand : M (sd D) Z :=
  count ← poll (Z.to_nat 1000000) 1000000 (inhibited SR_CMD_INHIBIT) 1;
  e ← (if count <=? 0 then mret true else test EMMC_INTERRUPT INT_ERROR_MASK);
  if (e : bool) then rd EMMC_STATUS;; rd EMMC_INTERRUPT;; rd EMMC_RESP0;; mret SD_BUSY else mret SD_OK.

Definition sdWaitForData : M (sd D) Z :=
  count ← poll_up (Z.to_nat 500000) 0 500000 (inhibited SR_DAT_INHIBIT) 1;
  e ← (if count >=? 500000 then mret true else test EMMC_INTERRUPT INT_ERROR_MASK);
  if (e : bool) then rd EMMC_STATUS;; rd EMMC_INTERRUPT;; rd EMMC_RESP0;; mret SD_BUSY else mret SD_OK.

(** The response to a command, by its type. *)
Definition handle_response (resp arg resp0 : Z) : M (sd D) Z :=
  if resp =? RESP_NO then mret SD_OK
  else if (resp =? RESP_R1) || (resp =? RESP_R1b) then
    modify_card (set_status (u32 resp0));;
    modify_card (set_cardState (Z.shiftr (Z.land resp0 ST_CARD_STATE) R1_CARD_STATE_SHIFT));;
    mret (Z.land resp0 (i32 R1_ERRORS_MASK))
  else if (resp =? RESP_R2I) || (resp =? RESP_R2S) then
    modify_card (set_status 0);;
    d0 ← rd EMMC_RESP3;
    d1 ← rd EMMC_RESP2;
    d2 ← rd EMMC_RESP1;
    let words := [d0; d1; d2; u32 resp0] in
    modify_card (if resp =? RESP_R2I then set_cid words else set_csd words);;
    mret SD_OK
  else if resp =? RESP_R3 then
    modify_card (set_status 0);;
    modify_card (set_ocr (u32 resp0));;
    mret SD_OK
  else if resp =? RESP_R6 then
    modify_card (set_card_rca (Z.land (u32 resp0) R6_RCA_MASK));;
    modify_card (set_status (r6_status resp0));;
    modify_card (set_cardState (Z.shiftr (Z.land resp0 ST_CARD_STATE) R1_CARD_STATE_SHIFT));;
    c ← card;
    mret (i32 (Z.land (status c) R1_ERRORS_MASK))
  else if resp =? RESP_R7 then
    modify_card (set_status 0);;
    mret (if resp0 =? arg then SD_OK else SD_ERROR)
  else panic "Unexpected response.".

(** [sdSendCommandP(&sdCommandTable[index], arg)]. *)
Definition sdSendCommandP (index arg : Z) : M (sd D) Z :=
  let cmd := nth_command index in
  w ← sdWaitForCommand;
  if negb (w =? 0) then mret SD_BUSY else
  modify_card (set_lastCmd (Some index));;
  modify_card (set_lastArg (u32 arg));;
  i ← rd EMMC_INTERRUPT;
  wr EMMC_INTERRUPT i;;
  wr EMMC_ARG1 (u32 arg);;
  wr EMMC_CMDTM (code cmd);;
  (if negb (cmd_delay cmd =? 0) then sd_delayus (u32 (cmd_delay cmd)) else mret tt);;
  result ← sdWaitForInterrupt INT_CMD_DONE;
  if negb (result =? 0) then mret result else
  r ← rd EMMC_RESP0;
  handle_response (resp cmd) arg (i32 r).

Definition sdSendAppCommand : M (sd D) Z :=
  c ← card;
  if card_rca c =? 0 then
    sdSendCommandP IX_APP_CMD 0x00000000;;
    mret SD_OK
  else
    resp ← sdSendCommandP IX_APP_CMD_RCA (i32 (card_rca c));
    if negb (resp =? 0) then sdDebugResponse resp else
    c ← card;
    if negb (any_bit (status c) ST_APP_CMD) then mret SD_ERROR else mret SD_OK.

(** [if (index >= IX_APP_CMD_START && (resp = sdSendAppCommand())) return sdDebugResponse(resp);] *)
Definition app_prefix (index : Z) (k : M (sd D) Z) : M (sd D) Z :=
  resp ← (if index >=? IX_APP_CMD_START then sdSendAppCommand else mret SD_OK);
  if negb (resp =? 0) then sdDebugResponse resp else k.

(** The check after an APP command. *)
Definition app_check (index resp : Z) : M (sd D) Z :=
  c ← card;
  if (index >=? IX_APP_CMD_START) && negb (card_rca c =? 0) && negb (any_bit (status c) ST_APP_CMD)
  then mret SD_ERROR_APP_CMD else mret resp.

Definition sdSendCommand (index : Z) : M (sd D) Z :=
  app_prefix index (
    c ← card;
    let arg := if rca (nth_command index) =? RCA_YES then i32 (card_rca c) else 0 in
    resp ← sdSendCommandP index arg;
    if negb (resp =? 0) then mret resp else app_check index resp).

Definition sdSendCommandA (index arg : Z) : M (sd D) Z :=
  app_prefix index (
    resp ← sdSendCommandP index arg;
    if negb (resp =? 0) then mret resp else app_check index resp).

(** * Initialisation *)

(** The loop that reads the two words of the SCR. *)
Fixpoint read_scr (fuel : nat) (numRead count : Z) : M (sd D) Z :=
  if numRead <? 2 then
    match fuel with
    | O => lift OutOfFuel
    | S fuel' =>
        b ← test EMMC_STATUS SR_READ_AVAILABLE;
        if (b : bool) then
          d ← rd EMMC_DATA;
          modify_card (fun c => set_scr (zset (scr c) numRead d) c);;
          read_scr fuel' (numRead + 1) count
        else
          sd_delayus 1;;
          if count - 1 =? 0 then mret numRead else read_scr fuel' numRead (count - 1)
    end
  else mret numRead.

(** [if (sdCard.scr[0] & flag) sdCard.support |= supp;] *)
Definition supports (flag supp : Z) : M (sd D) unit :=
  modify_card (fun c => if any_bit (zget (scr c) 0) flag then set_support (Z.lor (support c) supp) c else c).

Definition sdReadSCR : M (sd D) Z :=
  w ← sdWaitForData;
  if negb (w =? 0) then mret SD_TIMEOUT else
  wr EMMC_BLKSIZECNT (Z.lor (Z.shiftl 1 16) 8);;
  resp ← sdSendCommand IX_SEND_SCR;
  if negb (resp =? 0) then sdDebugResponse resp else
  resp ← sdWaitForInterrupt INT_READ_RDY;
  if negb (resp =? 0) then sdDebugResponse resp else
  numRead ← read_scr (Z.to_nat 100002) 0 100000;
  if negb (numRead =? 2) then
    rd EMMC_STATUS;; rd EMMC_INTERRUPT;; rd EMMC_RESP0;;
    mret SD_TIMEOUT
  else
    supports SCR_SD_BUS_WIDTH_4 SD_SUPP_BUS_WIDTH_4;;
    supports SCR_SD_BUS_WIDTH_1 SD_SUPP_BUS_WIDTH_1;;
    supports SCR_CMD_SUPP_SET_BLKCNT SD_SUPP_SET_BLOCK_COUNT;;
    supports SCR_CMD_SUPP_SPEED_CLASS SD_SUPP_SPEED_CLASS;;
    mret SD_OK.

(** A register is read, changed and written back. *)
Definition update (r : reg) (f : Z -> Z) : M (sd D) unit := v ← rd r; wr r (u32 (f v)).

Definition sdSetClock (freq : Z) : M (sd D) Z :=
  count ← poll_pre (Z.to_nat 100000) 100000 (test EMMC_STATUS (Z.lor SR_CMD_INHIBIT SR_DAT_INHIBIT)) 1;
  if count <=? 0 then rd EMMC_STATUS;; mret SD_ERROR_CLOCK else
  update EMMC_CONTROL1 (fun v => Z.land v (u32 (Z.lnot C1_CLK_EN)));;
  sd_delayus 10;;
  s ← get;
  let cdiv := sdGetClockDivider (sdHostVer s) (u32 freq) in
  update EMMC_CONTROL1 (fun v => Z.lor (Z.land v 0xffff003f) (u32 cdiv));;
  sd_delayus 10;;
  update EMMC_CONTROL1 (fun v => Z.lor v C1_CLK_EN);;
  sd_delayus 10;;
  count ← poll (Z.to_nat 10000) 10000 (b ← test EMMC_CONTROL1 C1_CLK_STABLE; mret (negb b)) 10;
  if count <=? 0 then mret SD_ERROR_CLOCK else
  rd EMMC_STATUS;; rd EMMC_CONTROL1;;
  mret SD_OK.

Definition sdResetCard (resetType : Z) : M (sd D) Z :=
  wr EMMC_CONTROL0 0;;
  update EMMC_CONTROL1 (fun v => Z.lor v (u32 resetType));;
  sd_delayus 10;;
  count ← poll (Z.to_nat 10000) 10000 (test EMMC_CONTROL1 (u32 resetType)) 10;
  if count <=? 0 then mret SD_ERROR_RESET else
  update EMMC_CONTROL1 (fun v => Z.lor v (Z.lor C1_CLK_INTLEN C1_TOUNIT_MAX));;
  sd_delayus 10;;
  resp ← sdSetClock FREQ_SETUP;
  if negb (resp =? 0) then mret resp else
  wr EMMC_IRPT_EN (Z.land (Z.land 0xffffffff (u32 (Z.lnot INT_CMD_DONE))) (u32 (Z.lnot INT_WRITE_RDY)));;
  wr EMMC_IRPT_MASK 0xffffffff;;
  modify_card (fun c => set_uhsi 0 (set_card_type 0 (set_status 0 (set_lastCmd None (set_lastArg 0 (set_ocr 0 (set_card_rca 0 c)))))));;
  sdSendCommand IX_GO_IDLE_STATE.

(** The loop of sdAppSendOpCond; [None] when it ends without an error. *)
Fixpoint retry_op_cond (count : nat) (arg : Z) : M (sd D) (option Z) :=
  c ← card;
  if negb (any_bit (ocr c) R3_COMPLETE) then
    match count with
    | O => mret None
    | S count' =>
        rd EMMC_STATUS;;
        delay 50000;;
        resp ← sdSendCommandA IX_APP_SEND_OP_COND arg;
        if negb (resp =? 0) && negb (resp =? SD_TIMEOUT) then mret (Some resp) else retry_op_cond count' arg
    end
  else mret None.

Definition sdAppSendOpCond (arg : Z) : M (sd D) Z :=
  rd EMMC_STATUS;;
  resp ← sdSendCommandA IX_APP_SEND_OP_COND arg;
  if negb (resp =? 0) && negb (resp =? SD_TIMEOUT) then mret resp else
  r ← retry_op_cond 6 arg;
  match r with
  | Some resp => mret resp
  | None =>
      c ← card;
      if negb (any_bit (ocr c) R3_COMPLETE) then mret SD_TIMEOUT
      else if negb (any_bit (ocr c) ACMD41_VOLTAGE) then mret SD_ERROR_VOLTAGE
      else mret SD_OK
  end.

Definition sdSwitchVoltage : M (sd D) Z := mret SD_OK.

(** [put32(GPPUD, 2); delay(150); put32(GPPUDCLK1, pins); delay(150); put32(GPPUD, 0);
    put32(GPPUDCLK1, 0);] *)
Definition pull_up (pins : Z) : M (sd D) unit :=
  wr GPPUD 2;; delay 150;; wr GPPUDCLK1 pins;; delay 150;; wr GPPUD 0;; wr GPPUDCLK1 0.

Definition sdInitGPIO : M (sd D) unit :=
  update GPFSEL4 (fun r => Z.land r (u32 (Z.lnot (Z.shiftl 7 (7 * 3)))));;
  pull_up (Z.shiftl 1 15);;
  update GPHEN1 (fun r => Z.lor r (Z.shiftl 1 15));;
  update GPFSEL4 (fun r => Z.lor r (Z.lor (Z.shiftl 7 (8 * 3)) (Z.shiftl 7 (9 * 3))));;
  pull_up (Z.lor (Z.shiftl 1 16) (Z.shiftl 1 17));;
  update GPFSEL5 (fun r => Z.lor r (Z.lor (Z.lor (Z.lor (Z.shiftl 7 (0 * 3)) (Z.shiftl 7 (1 * 3))) (Z.shiftl 7 (2 * 3))) (Z.shiftl 7 (3 * 3))));;
  pull_up (Z.lor (Z.lor (Z.lor (Z.shiftl 1 18) (Z.shiftl 1 19)) (Z.shiftl 1 20)) (Z.shiftl 1 21)).

(** ** The mailbox *)

Section mailbox.
(** [fuel] bounds the busy waiting, [box] is the physical address of the buffer. *)
Context (fuel : nat) (box : Z).

Definition MBOX_FULL : Z := 0x80000000.
Definition MBOX_EMPTY : Z := 0x40000000.
Definition MBOX_TAG_GET_ARM_MEMORY : Z := 0x00010005.
Definition MBOX_TAG_GET_CLOCK_RATE : Z := 0x00030002.
Definition MBOX_TAG_END : Z := 0x0.

Fixpoint wait_while (n : nat) (cond : M (sd D) bool) : M (sd D) unit :=
  match n with
  | O => lift OutOfFuel
  | S n' => b ← cond; if (b : bool) then wait_while n' cond else mret tt
  end.

Fixpoint mbox_read_loop (n : nat) (chan : Z) : M (sd D) Z :=
  match n with
  | O => lift OutOfFuel
  | S n' =>
      wait_while fuel (test MBOX_STATUS MBOX_EMPTY);;
      r ← rd MBOX_READ;
      if Z.land r 0xF =? chan then mret (i32 (Z.shiftr r 4)) else mbox_read_loop n' chan
  end.
Definition mbox_read (chan : Z) : M (sd D) Z := mbox_read_loop fuel chan.

Definition mbox_write (b chan : Z) : M (sd D) unit :=
  assert ((Z.land b 0xF =? 0) && (Z.land chan (Z.lnot 0xF) =? 0)) "(buf & 0xF) == 0 && (chan & ~0xF) == 0";;
  wait_while fuel (test MBOX_STATUS MBOX_FULL);;
  wr MBOX_WRITE (Z.lor (Z.land b (u32 (Z.lnot 0xF))) chan).

(** The words of the buffer after the firmware has answered. *)
Definition mbox_call (words : list Z) : M (sd D) (list Z) :=
  assert (Z.land box 0xF =? 0) "Buffer should align to 16 bytes. ";;
  modify (fun s => set_dev (shared_put words (dev s)) s);;
  mbox_write (u32 box) 8;;
  mbox_read 8;;
  s ← get;
  mret (shared_get (dev s)).

Definition mbox_get_arm_memory : M (sd D) Z :=
  b ← mbox_call [36; 0; MBOX_TAG_GET_ARM_MEMORY; 8; 0; 0; 0; MBOX_TAG_END];
  assert (zget b 5 =? 0) "Memory base address should be zero. ";;
  assert (negb (zget b 6 =? 0)) "Memory size should not be zero. ";;
  mret (i32 (zget b 6)).

Definition mbox_get_clock_rate : M (sd D) Z :=
  b ← mbox_call [36; 0; MBOX_TAG_GET_CLOCK_RATE; 8; 0; 1; 0; MBOX_TAG_END];
  mret (i32 (zget b 6)).

(** ** sdInit *)

Definition sdGetBaseClock : M (sd D) Z :=
  r ← mbox_get_clock_rate;
  modify (set_sdBaseClock r);;
  if r =? -1 then mret SD_ERROR else mret SD_OK.

Definition sdParseCSD : M (sd D) unit :=
  modify_card (fun c => set_fileFormat (Z.land (zget (csd c) 3) CSD3VN_FILE_FORMAT) (set_capacity (csd_capacity (csd c)) c)).

(** The values are only printed. *)
Definition sdParseCID : M (sd D) card_id := c ← card; mret (parse_cid (cid c)).

(** [if ((resp = c)) return resp;] and [if ((resp = c)) return sdDebugResponse(resp);] *)
Definition or_return (c k : M (sd D) Z) : M (sd D) Z := resp ← c; if negb (resp =? 0) then mret resp else k.
Definition or_debug (c k : M (sd D) Z) : M (sd D) Z := resp ← c; if negb (resp =? 0) then sdDebugResponse resp else k.

(** From ALL_SEND_CID on. *)
Definition sdIdentify (oldCID : list Z) : M (sd D) Z :=
  or_debug (sdSendCommand IX_ALL_SEND_CID) (
  or_debug (sdSendCommand IX_SEND_REL_ADDR) (
  or_debug (sdSendCommand IX_SEND_CSD) (
  sdParseCSD;;
  c ← card;
  if negb (fileFormat c =? CSD3VN_FILE_FORMAT_DOSFAT) && negb (fileFormat c =? CSD3VN_FILE_FORMAT_HDD) then mret SD_ERROR else
  or_debug (sdSetClock FREQ_NORMAL) (
  or_debug (sdSendCommand IX_CARD_SELECT) (
  or_debug sdReadSCR (
  or_debug
    (c ← card;
     if any_bit (support c) SD_SUPP_BUS_WIDTH_4 then
       or_return (sdSendCommandA IX_SET_BUS_WIDTH (Z.lor (i32 (card_rca c)) 2))
         (update EMMC_CONTROL0 (fun v => Z.lor v C0_HCTL_DWITDH);; mret SD_OK)
     else mret SD_OK) (
  or_debug (sdSendCommandA IX_SET_BLOCKLEN 512) (
  sdParseCID;;
  modify_card (set_card_init 1);;
  c ← card;
  mret (if bool_decide (oldCID = cid c) then SD_CARD_REINSERTED else SD_CARD_CHANGED))))))))).

(** The answer to SEND_IF_COND tells the generation of the card. *)
Definition sdResolveType (k : M (sd D) Z) : M (sd D) Z :=
  resp ← sdSendCommandA IX_SEND_IF_COND 0x000001AA;
  if resp =? SD_OK then
    delay 50;;
    or_debug (sdAppSendOpCond ACMD41_ARG_HC) (
    c ← card;
    modify_card (set_card_type (if any_bit (ocr c) R3_CCS then SD_TYPE_2_HC else SD_TYPE_2_SC));;
    k)
  else if resp =? SD_BUSY then mret resp
  else
    b ← test EMMC_STATUS SR_CMD_INHIBIT;
    or_return (if (b : bool) then sdResetCard C1_SRST_HC else mret SD_OK) (
    or_debug (sdAppSendOpCond ACMD41_ARG_SC) (
    modify_card (set_card_type SD_TYPE_1);;
    k)).

Definition sdInit : M (sd D) Z :=
  c ← card;
  (if card_init c =? 0 then sdInitGPIO else mret tt);;
  ev ← rd GPEDS1;
  let cardEjected := any_bit ev (Z.shiftl 1 (47 - 32)) in
  modify_card (set_absent 0);;
  c ← card;
  oldCID ← (if cardEjected && negb (card_init c =? 0) then modify_card (set_card_init 0);; mret (cid c) else mret (replicate 4 0));
  c ← card;
  if negb (card_init c =? 0) then mret SD_OK else
  v ← rd EMMC_SLOTISR_VER;
  modify (set_sdHostVer (Z.shiftr (Z.land v HOST_SPEC_NUM) HOST_SPEC_NUM_SHIFT));;
  or_return sdGetBaseClock (
  or_return (sdResetCard C1_SRST_HC) (
  sdResolveType (
  c ← card;
  or_return (if any_bit (ocr c) R3_S18A then sdSwitchVoltage else mret SD_OK) (
  sdIdentify oldCID)))).
End mailbox.
End driver.
