(* ===== verification/SdQueue.v ===== *)
(** driver/buf.h, the request queue of driver/sd.c, fs/block_device.c and
    fs/fs.c.  Buffers are in memory, the head of the queue [sdque] among them, and
    the queue is linked through them.  The CPU that runs is [me]. *)
From S2P Require Import Prelude Bytes CString Locks Sd SdCard.

Section queue.
Context {D : Type} `{Mmio D}.
(** The address of the static variable [sdque]. *)
Context (sdque : Z).

(** * Buffers *)

Definition load_buf (p : Z) : M (sd D) buf := fun s => match bufs s !! p with Some b => Ret (b, s) | None => Fault end.
Definition store_buf (p : Z) (b : buf) : M (sd D) unit := _ ← load_buf p; modify (fun s => set_bufs (<[p := b]> (bufs s)) s).
Definition update_buf (p : Z) (f : buf -> buf) : M (sd D) unit := b ← load_buf p; store_buf p (f b).

Definition init_buflist (head : Z) : M (sd D) unit := update_buf head (fun _ => mkBuf 0 0 (replicate 512 0) 0).

(** [while (tmp->qnext != NULL) tmp = tmp->qnext;] *)
Fixpoint last_buf (fuel : nat) (tmp : Z) : M (sd D) Z :=
  b ← load_buf tmp;
  if qnext b =? 0 then mret tmp else
  match fuel with
  | O => lift OutOfFuel
  | S fuel' => last_buf fuel' (qnext b)
  end.

Definition buflist_push (n head : Z) : M (sd D) unit :=
  s ← get;
  tmp ← last_buf (size (bufs s)) head;
  update_buf tmp (set_qnext n);;
  update_buf n (set_qnext 0).

Definition buflist_front (head : Z) : M (sd D) Z := h ← load_buf head; mret (qnext h).
Definition buflist_pop (head : Z) : M (sd D) unit := h ← load_buf head; b ← load_buf (qnext h); update_buf head (set_qnext (qnext b)).
Definition buflist_empty (head : Z) : M (sd D) bool := h ← load_buf head; mret (qnext h =? 0).

(** * Requests *)

(** [intbuf[done]] of a buffer. *)
Definition word_at (b : buf) (done : Z) : Z := le_dec (slice (data b) (Z.to_nat (4 * done)) 4).
Definition put_word (done v : Z) (b : buf) : buf := set_data (splice (data b) (Z.to_nat (4 * done)) (le_enc 4 v)) b.

(** [&b->data], after two fields of four bytes. *)
Definition data_address (p : Z) : Z := p + 8.

(** [intbuf[done++] = *EMMC_DATA], 128 times. *)
Definition read_words (p : Z) : M (sd D) unit :=
  for_range 0 128 (fun done => v ← rd EMMC_DATA; update_buf p (put_word done v)).

(** [*EMMC_DATA = intbuf[done++]], 128 times. *)
Definition write_words (p : Z) : M (sd D) unit :=
  for_range 0 128 (fun done => b ← load_buf p; wr EMMC_DATA (word_at b done)).

Definition is_write (b : buf) : bool := any_bit (flags b) B_DIRTY.

(** The address of a block, by the type of the card. *)
Definition card_address (type blockno : Z) : Z :=
  if type =? SD_TYPE_2_HC then i32 blockno else i32 (Z.shiftl (i32 blockno) 9).

Definition sd_start (p : Z) : M (sd D) unit :=
  c ← card;
  b ← load_buf p;
  let bno := card_address (card_type c) (blockno b) in
  let write := is_write b in
  i ← rd EMMC_INTERRUPT;
  assert (i =? 0) "emmc interrupt flag should be empty";;
  wr EMMC_BLKSIZECNT 512;;
  resp ← sdSendCommandA (if write then IX_WRITE_SINGLE else IX_READ_SINGLE) bno;
  (if negb (resp =? 0) then panic "* EMMC send command error." else mret tt);;
  assert (Z.land (data_address p) 0x03 =? 0) "Only support word-aligned buffers. ";;
  if write then
    resp ← sdWaitForInterrupt INT_WRITE_RDY;
    (if negb (resp =? 0) then panic "* EMMC ERROR: Timeout waiting for ready to write" else mret tt);;
    i ← rd EMMC_INTERRUPT;
    assert (i =? 0) "";;
    write_words p
  else mret tt.

Definition lock_sd (me : Z) : M (sd D) unit := s ← get; l ← lift (acquire_spinlock me (sdlock s)); modify (set_sdlock l).
Definition unlock_sd (me : Z) : M (sd D) unit := s ← get; l ← lift (release_spinlock me (sdlock s)); modify (set_sdlock l).

(** [wakeup(chan)]: recorded, core/sched.c wakes the threads that sleep on [chan]. *)
Definition wakeup_buf (chan : Z) : M (sd D) unit := modify (fun s => set_wakeups (wakeups s ++ [chan]) s).

(** [b->flags |= B_VALID; b->flags &= ~B_DIRTY;] *)
Definition completed (b : buf) : buf := set_flags (Z.land (Z.lor (flags b) B_VALID) (Z.lnot B_DIRTY)) b.

(** The interrupt is the one that the request at the front waits for. *)
Definition finish_front (p : Z) (write : bool) : M (sd D) unit :=
  (if negb write then
     read_words p;;
     sdWaitForInterrupt INT_DATA_DONE;;
     mret tt
   else mret tt);;
  update_buf p completed;;
  wakeup_buf p;;
  buflist_pop sdque;;
  e ← buflist_empty sdque;
  if negb e then f ← buflist_front sdque; sd_start f else mret tt.

Definition sd_intr (me : Z) : M (sd D) unit :=
  lock_sd me;;
  e ← buflist_empty sdque;
  (if (e : bool) then rd EMMC_INTERRUPT;; mret tt else
   i ← rd EMMC_INTERRUPT;
   assert (any_bit i INT_DATA_DONE || any_bit i INT_READ_RDY) "unexpected sd intr";;
   wr EMMC_INTERRUPT i;;
   p ← buflist_front sdque;
   b ← load_buf p;
   let write := is_write b in
   if negb ((write && (i =? INT_DATA_DONE)) || (negb write && (i =? INT_READ_RDY)))
   then sd_start p
   else finish_front p write);;
  unlock_sd me.

(** ** sdrw *)

(** sdrw up to its lock: whether the queue was empty. *)
Definition sdrw_enqueue (p : Z) : M (sd D) bool :=
  flag ← buflist_empty sdque;
  buflist_push p sdque;;
  mret flag.

(** From the lock to the first sleep, which gives the lock back. *)
Definition sdrw_start (me : Z) (flag : bool) : M (sd D) unit :=
  lock_sd me;;
  (if flag then f ← buflist_front sdque; sd_start f else mret tt);;
  unlock_sd me.

(** [(b->flags & B_VALID) && (~b->flags & B_DIRTY)]. *)
Definition is_done (b : buf) : bool := any_bit (flags b) B_VALID && any_bit (Z.lnot (flags b)) B_DIRTY.

(** From the end of a sleep, which takes the lock: to the return ([true]) or to the
    next sleep, which gives the lock back. *)
Definition sdrw_resume (me p : Z) : M (sd D) bool :=
  lock_sd me;;
  b ← load_buf p;
  if is_done b then
    s ← get;
    (if holding_spinlock me (sdlock s) then unlock_sd me else mret tt);;
    mret true
  else
    unlock_sd me;;
    mret false.

(** The whole of sdrw; [asleep] is what the rest of the machine does during a sleep. *)
Fixpoint sdrw_loop (fuel : nat) (asleep : M (sd D) unit) (me p : Z) : M (sd D) unit :=
  match fuel with
  | O => lift OutOfFuel
  | S fuel' =>
      asleep;;
      r ← sdrw_resume me p;
      if (r : bool) then mret tt else sdrw_loop fuel' asleep me p
  end.

Definition sdrw (fuel : nat) (asleep : M (sd D) unit) (me p : Z) : M (sd D) unit :=
  flag ← sdrw_enqueue p;
  sdrw_start me flag;;
  sdrw_loop fuel asleep me p.

(** * Start of the driver *)

(** A word of the partition table. *)
Definition mbr_word (b : buf) (off : Z) : Z := le_dec (slice (data b) (Z.to_nat off) 4).

(** sd_init with the static buffer [mbr]; the two words that it prints. *)
Definition sd_init (fuel : nat) (box mbr : Z) : M (sd D) (Z * Z) :=
  modify (set_sdlock init_spinlock);;
  init_buflist sdque;;
  sdInit fuel box;;
  c ← card;
  assert (negb (card_init c =? 0)) "sdCard.init";;
  modify (set_registered true);;
  update_buf mbr (fun b => set_qnext 0 (set_flags 0 (set_blockno 0 b)));;
  sd_start mbr;;
  sdWaitForInterrupt INT_READ_RDY;;
  read_words mbr;;
  sdWaitForInterrupt INT_DATA_DONE;;
  b ← load_buf mbr;
  mret (mbr_word b (0x1CE + 0x8), mbr_word b (0x1CE + 0xC)).

(** * The block device *)

Definition BLOCKNO_OFFSET : Z := 0x20800.

(** The local variable [b] of sd_read and sd_write is at [p]; its fields are not
    initialised. *)
Definition sd_read (fuel : nat) (asleep : M (sd D) unit) (me p block_no : Z) : M (sd D) (list Z) :=
  update_buf p (set_blockno (u32 (u32 block_no + BLOCKNO_OFFSET)));;
  update_buf p (set_flags 0);;
  sdrw fuel asleep me p;;
  b ← load_buf p;
  mret (take 512 (data b)).

Definition sd_write (fuel : nat) (asleep : M (sd D) unit) (me p block_no : Z) (buffer : list Z) : M (sd D) unit :=
  update_buf p (set_blockno (u32 (u32 block_no + BLOCKNO_OFFSET)));;
  update_buf p (set_flags (Z.lor B_DIRTY B_VALID));;
  update_buf p (set_data (take 512 buffer));;
  sdrw fuel asleep me p.

(** The contents of [sblock_data], which get_super_block returns. *)
Definition init_block_device (fuel : nat) (box mbr : Z) (asleep : M (sd D) unit) (me p : Z) : M (sd D) (list Z) :=
  sd_init fuel box mbr;;
  sd_read fuel asleep me p 1.
End queue.
