(* ===== verification/SdHost.v ===== *)
(** What driver/sd.c relies on of the host controller and of the card behind it,
    as the simplified host controller specification of the SD association and the
    peripherals manual of the chip document them for single-block transfers: the
    phases of a transfer, the interrupt flag each phase raises and the time within
    which it does.  The laws are the class [Host]; the driver's waits and commands
    are proved against it. *)
From S2P Require Import Prelude Bytes CString Locks Sd SdCard SdQueue.

(** * Phases of a transfer *)

(** A number is the time that is left until the flag of the phase is up. *)
Inductive phase :=
  | Quiet
  | Command (w : bool) (a : Z) (n m : nat)
  | ReadWait (a : Z) (n : nat)
  | ReadData (a : Z) (k : nat)
  | ReadEnd (n : nat)
  | WriteWait (a : Z) (n : nat)
  | WriteData (a : Z) (l : list Z)
  | WriteEnd (n : nat).

Definition up (n : nat) (flag : Z) : Z := match n with O => flag | S _ => 0 end.

(** The flags in the interrupt register; the second number of a command is the
    time until the card is ready for the data. *)
Definition irq (p : phase) : Z :=
  match p with
  | Quiet | ReadData _ _ | WriteData _ _ => 0
  | Command w _ n m => Z.lor (up n INT_CMD_DONE) (up m (if w then INT_WRITE_RDY else INT_READ_RDY))
  | ReadWait _ n => up n INT_READ_RDY
  | WriteWait _ n => up n INT_WRITE_RDY
  | ReadEnd n | WriteEnd n => up n INT_DATA_DONE
  end.

(** After its command, the transfer waits for the card. *)
Definition data_wait (w : bool) (a : Z) (m : nat) : phase := if w then WriteWait a m else ReadWait a m.

(** Time passes. *)
Inductive elapses : phase -> phase -> Prop :=
| elapses_quiet : elapses Quiet Quiet
| elapses_command w a n m n' m' : (n' <= pred n)%nat -> (m' <= pred m)%nat -> elapses (Command w a n m) (Command w a n' m')
| elapses_read_wait a n n' : (n' <= pred n)%nat -> elapses (ReadWait a n) (ReadWait a n')
| elapses_read_data a k : elapses (ReadData a k) (ReadData a k)
| elapses_read_end n n' : (n' <= pred n)%nat -> elapses (ReadEnd n) (ReadEnd n')
| elapses_write_wait a n n' : (n' <= pred n)%nat -> elapses (WriteWait a n) (WriteWait a n')
| elapses_write_data a l : elapses (WriteData a l) (WriteData a l)
| elapses_write_end n n' : (n' <= pred n)%nat -> elapses (WriteEnd n) (WriteEnd n').

(** The flags [v] are written to the interrupt register, which clears them. *)
Inductive acks : phase -> Z -> phase -> Prop :=
| acks_nothing : acks Quiet 0 Quiet
| acks_command w a m : acks (Command w a 0 m) INT_CMD_DONE (data_wait w a m)
| acks_read_ready a : acks (ReadWait a 0) INT_READ_RDY (ReadData a 0)
| acks_read_end : acks (ReadEnd 0) INT_DATA_DONE Quiet
| acks_write_ready a : acks (WriteWait a 0) INT_WRITE_RDY (WriteData a [])
| acks_write_end : acks (WriteEnd 0) INT_DATA_DONE Quiet.

(** * The host controller *)

Record host := mkHost {
  at_phase : phase;
  arg1 : Z;
  blksize : Z;
  blocks : Z -> list Z
}.
Definition set_at_phase v (h : host) := mkHost v (arg1 h) (blksize h) (blocks h).
Definition set_arg1 v (h : host) := mkHost (at_phase h) v (blksize h) (blocks h).
Definition set_blksize v (h : host) := mkHost (at_phase h) (arg1 h) v (blocks h).
Definition set_blocks v (h : host) := mkHost (at_phase h) (arg1 h) (blksize h) v.

(** The driver waits at most this many times, each time three microseconds. *)
Definition patience : Z := 1000000.
Definition in_time (n : nat) : Prop := Z.of_nat n < patience.

Definition write_block_at (a : Z) (l : list Z) (B : Z -> list Z) : Z -> list Z := fun x => if x =? a then l else B x.

(** [ctl d h]: the device [d] behaves as [h].  [hc] says whether the card takes
    block numbers or byte addresses, [nblocks] is its size in blocks. *)
Class Host (D : Type) `{Mmio D} := {
  ctl : D -> host -> Prop;
  hc : bool;
  nblocks : Z;
  get_interrupt d h : ctl d h -> exists d', reg_get EMMC_INTERRUPT d = (irq (at_phase h), d') /\ ctl d' h;
  get_status d h : ctl d h -> at_phase h = Quiet ->
    exists v d', reg_get EMMC_STATUS d = (v, d') /\ Z.land v SR_CMD_INHIBIT = 0 /\ ctl d' h;
  get_response d h w a m : ctl d h -> at_phase h = data_wait w a m ->
    exists v d', reg_get EMMC_RESP0 d = (v, d') /\ Z.land v R1_ERRORS_MASK = 0 /\ ctl d' h;
  get_data d h a k : ctl d h -> at_phase h = ReadData a k -> (k < 128)%nat ->
    exists d' n, reg_get EMMC_DATA d = (le_dec (slice (blocks h a) (4 * k) 4), d') /\ in_time n /\
      ctl d' (set_at_phase (if decide (k = 127%nat) then ReadEnd n else ReadData a (S k)) h);
  put_interrupt d h v p : ctl d h -> acks (at_phase h) v p -> ctl (reg_put EMMC_INTERRUPT v d) (set_at_phase p h);
  put_arg1 d h v : ctl d h -> at_phase h = Quiet -> ctl (reg_put EMMC_ARG1 v d) (set_arg1 v h);
  put_blksize d h v : ctl d h -> at_phase h = Quiet -> ctl (reg_put EMMC_BLKSIZECNT v d) (set_blksize v h);
  put_command d h (w : bool) a : ctl d h -> at_phase h = Quiet -> blksize h = 512 ->
    0 <= a < nblocks -> arg1 h = (if hc then a else a * 512) ->
    exists n m, in_time n /\ in_time m /\
      ctl (reg_put EMMC_CMDTM (code (nth_command (if w then IX_WRITE_SINGLE else IX_READ_SINGLE))) d)
        (set_at_phase (Command w a n m) h);
  put_data d h a l v : ctl d h -> at_phase h = WriteData a l -> (length l < 512)%nat ->
    exists n, in_time n /\
      ctl (reg_put EMMC_DATA v d)
        (if decide (length l = 508%nat)
         then set_blocks (write_block_at a (l ++ le_enc 4 v) (blocks h)) (set_at_phase (WriteEnd n) h)
         else set_at_phase (WriteData a (l ++ le_enc 4 v)) h);
  time_passes d h us : ctl d h -> 0 < us -> exists p, elapses (at_phase h) p /\ ctl (elapse us d) (set_at_phase p h)
}.

(** * Waiting for a flag *)

(** The phase raises [flag] in time [n]. *)
Inductive due : phase -> Z -> nat -> Prop :=
| due_command w a n m : due (Command w a n m) INT_CMD_DONE n
| due_read_ready a n : due (ReadWait a n) INT_READ_RDY n
| due_read_end n : due (ReadEnd n) INT_DATA_DONE n
| due_write_ready a n : due (WriteWait a n) INT_WRITE_RDY n
| due_write_end n : due (WriteEnd n) INT_DATA_DONE n.

(** The phase that follows when the flag has been waited for and cleared. *)
Inductive follows : phase -> phase -> Prop :=
| follows_command w a n m m' : (m' <= m)%nat -> follows (Command w a n m) (data_wait w a m')
| follows_read_ready a n : follows (ReadWait a n) (ReadData a 0)
| follows_read_end n : follows (ReadEnd n) Quiet
| follows_write_ready a n : follows (WriteWait a n) (WriteData a [])
| follows_write_end n : follows (WriteEnd n) Quiet.

Lemma due_up p flag n : due p flag n -> any_bit (irq p) (Z.lor flag INT_ERROR_MASK) = match n with O => true | S _ => false end.
Proof. destruct 1 as [w a [|n] [|m]|a [|n]|[|n]|a [|n]|[|n]]; try done; by destruct w. Qed.

Lemma irq_no_error p : Z.land (irq p) INT_ERROR_MASK = 0 /\ Z.land (irq p) INT_CMD_TIMEOUT = 0 /\ Z.land (irq p) INT_DATA_TIMEOUT = 0.
Proof. destruct p as [|w a n m|a n|a k|n|a n|a l|n]; try destruct n; try destruct m; try destruct w; done. Qed.

Lemma due_elapses p p' flag n : elapses p p' -> due p flag n ->
  exists n', (n' <= pred n)%nat /\ due p' flag n' /\ (forall q, follows p' q -> follows p q).
Proof.
  intros He Hd. destruct Hd; inversion He; subst; (eexists; split; [eassumption | split; [constructor |]]);
    intros q Hq; inversion Hq; subst; constructor; lia.
Qed.

Lemma due_acks p flag : due p flag 0 -> exists q, acks p flag q /\ follows p q.
Proof. inversion 1; subst; eexists; (split; [constructor |]); constructor. lia. Qed.

Section waits.
Context {D : Type} `{Host D}.
Implicit Types (s : sd D) (h : host).

(** [s'] is [s] but for the device, which behaves as [h]. *)
Definition only_dev (s : sd D) (h : host) (s' : sd D) : Prop := exists d, s' = set_dev d s /\ ctl d h.

Lemma only_dev_self s h : ctl (dev s) h -> only_dev s h s.
Proof. intros Hc. exists (dev s). by destruct s. Qed.

Lemma only_dev_both s h1 h2 s1 s2 : only_dev s h1 s1 -> only_dev s1 h2 s2 -> only_dev s h2 s2.
Proof. intros (d1 & -> & _) (d2 & -> & ?). by exists d2. Qed.

Lemma only_dev_ctl s h s' : only_dev s h s' -> ctl (dev s') h.
Proof. by intros (d & -> & ?). Qed.

(** Register accesses. *)
Lemma wp_rd r v d Q s : reg_get r (dev s) = (v, d) -> Q v (set_dev d s) -> wp no_panic (rd r) Q s.
Proof. intros Hr HQ. unfold rd. wp_steps. rewrite Hr. by wp_steps. Qed.

Lemma rd_interrupt s h : ctl (dev s) h -> wp no_panic (rd EMMC_INTERRUPT) (fun v s' => v = irq (at_phase h) /\ only_dev s h s') s.
Proof. intros (d & Hg & Hd)%get_interrupt. eapply wp_rd; [done |]. split; [done |]. by exists d. Qed.

Lemma test_interrupt mask s h : ctl (dev s) h ->
  wp no_panic (test EMMC_INTERRUPT mask) (fun b s' => b = any_bit (irq (at_phase h)) mask /\ only_dev s h s') s.
Proof.
  intros Hc. unfold test. apply wp_bind. wp_use rd_interrupt; [done |].
  intros v s' [-> Hs']. by apply wp_ret.
Qed.

Lemma delay_passes us s h : ctl (dev s) h -> 0 < u32 (us * 3) ->
  wp no_panic (sd_delayus us) (fun _ s' => exists p, elapses (at_phase h) p /\ only_dev s (set_at_phase p h) s') s.
Proof.
  intros Hc Hu. destruct (time_passes _ _ _ Hc Hu) as (p & He & Hd).
  exists p. split; [done |]. by eexists.
Qed.

(** The loop that waits for a flag which is due in [n] ends in time. *)
Lemma poll_flag flag n : forall fuel count s h,
  ctl (dev s) h -> due (at_phase h) flag n -> (n <= fuel)%nat ->
  wp no_panic (poll fuel count (b ← test EMMC_INTERRUPT (Z.lor flag INT_ERROR_MASK); mret (negb b)) 1)
    (fun r s' => count - Z.of_nat n <= r <= count /\
      exists p, due p flag 0 /\ (forall q, follows p q -> follows (at_phase h) q) /\ only_dev s (set_at_phase p h) s') s.
Proof.
  induction n as [n IH] using lt_wf_ind. intros fuel count s h Hc Hd Hn.
  destruct fuel as [|fuel]; cbn [poll]; apply wp_bind, wp_bind; (wp_use test_interrupt; [done |]);
    intros b s1 [-> Hs1]; apply wp_ret; rewrite (due_up _ _ _ Hd); destruct n as [|n]; try lia; cbn [negb].
  1,2: apply wp_ret; split; [lia |]; exists (at_phase h); split; [done | split; [done |]];
    destruct h; apply Hs1.
  apply wp_bind. wp_use delay_passes; [by eapply only_dev_ctl | done |].
  intros _ s2 (p & He & Hs2). destruct (due_elapses _ _ _ _ He Hd) as (n' & Hn' & Hd' & Hf).
  wp_use (IH n' ltac:(cbn in Hn'; lia) fuel (count - 1) s2 (set_at_phase p h)); [by eapply only_dev_ctl | done | cbn in Hn'; lia |].
  cbn. intros r s3 (Hr & q & Hq & Hfq & Hs3). split; [cbn in Hn'; lia |].
  exists q. split; [done | split; [auto |]]. eapply only_dev_both, only_dev_both; eauto.
Qed.

Lemma wait_flag flag n s h : ctl (dev s) h -> due (at_phase h) flag n -> in_time n ->
  wp no_panic (sdWaitForInterrupt flag) (fun r s' => r = SD_OK /\ exists q, follows (at_phase h) q /\ only_dev s (set_at_phase q h) s') s.
Proof.
  intros Hc Hd Hn. unfold in_time, patience in Hn. unfold sdWaitForInterrupt. apply wp_bind.
  wp_use (poll_flag flag n); [done | done | lia |].
  intros r s1 (Hr & p & Hp & Hf & Hs1). apply wp_bind. wp_use rd_interrupt; [by eapply only_dev_ctl |].
  intros i s2 [-> Hs2]. cbn. destruct (irq_no_error p) as (H1 & H2 & H3). unfold any_bit. rewrite H1, H2, H3.
  replace (r <=? 0) with false by lia. cbn. unfold wr. wp_steps. split; [done |].
  destruct (due_acks _ _ Hp) as (q & Ha & Hq). exists q. split; [auto |].
  eapply only_dev_both; [eapply only_dev_both; eassumption |].
  eexists. split; [done |]. apply (put_interrupt (dev s2) (set_at_phase p h)); [by eapply only_dev_ctl | done].
Qed.
End waits.
