(* ===== verification/SdTransfer.v ===== *)
(** The commands and the data of a single-block transfer: sd_start issues the
    command of a request and gives the card the data of a write, read_words takes
    the data of a read. *)
From S2P Require Import Prelude Bytes CString Locks Sd SdCard SdQueue SdHost.

(** * Bits of signed integers *)

Lemma i32_mod z : i32 z mod 2 ^ 32 = z mod 2 ^ 32.
Proof.
  unfold i32, sgn. case_match; [by rewrite Zmod_mod |].
  rewrite <- (Z_mod_plus_full (_ - _) 1), Z.mul_1_l, Z.sub_add. by rewrite Zmod_mod.
Qed.

Lemma u32_i32 z : u32 (i32 z) = u32 z.
Proof. apply i32_mod. Qed.

Lemma testbit_high x j k : 0 <= x < 2 ^ j -> 0 <= j <= k -> Z.testbit x k = false.
Proof. intros Hx Hk. rewrite <- (Z.mod_small x (2 ^ j)) by lia. apply Z.mod_pow2_bits_high. lia. Qed.

Lemma i32_testbit z k : 0 <= k -> Z.testbit (i32 z) k = Z.testbit z (Z.min k 31).
Proof.
  intros Hk. assert (Hlow : forall j, 0 <= j < 32 -> Z.testbit (i32 z) j = Z.testbit z j).
  { intros j Hj. rewrite <- (Z.mod_pow2_bits_low (i32 z) 32 j), <- (Z.mod_pow2_bits_low z 32 j) by lia. by rewrite i32_mod. }
  destruct (decide (k < 32)); [rewrite Hlow by lia; f_equal; lia |].
  rewrite Z.min_r by lia. rewrite <- Hlow by lia. pose proof (i32_bound z) as Hb.
  destruct (decide (0 <= i32 z)).
  - by rewrite !(testbit_high (i32 z) 31) by lia.
  - rewrite <- (Z.opp_involutive (i32 z)), !Z.bits_opp by lia. f_equal. by rewrite !(testbit_high _ 31) by lia.
Qed.

Lemma i32_land x y : i32 (Z.land x y) = Z.land (i32 x) (i32 y).
Proof. apply Z.bits_inj'. intros k Hk. by rewrite Z.land_spec, !i32_testbit, Z.land_spec by done. Qed.

Section transfer.
Context {D : Type} `{Host D}.
Implicit Types (s : sd D) (h : host).

(** * Commands *)

(** [s'] is [s] but for the device and for what the driver notes of a command. *)
Definition commanded (s : sd D) (h : host) (s' : sd D) : Prop :=
  exists d c, s' = set_sdCard c (set_dev d s) /\ card_type c = card_type (sdCard s) /\ ctl d h.

Lemma commanded_self s h : ctl (dev s) h -> commanded s h s.
Proof. intros Hc. exists (dev s), (sdCard s). by destruct s. Qed.

Lemma commanded_dev s h1 s1 h2 s2 : commanded s h1 s1 -> only_dev s1 h2 s2 -> commanded s h2 s2.
Proof. intros (d1 & c1 & -> & ? & _) (d2 & -> & ?). by exists d2, c1. Qed.

Lemma commanded_card s h s1 (f : SDDescriptor -> SDDescriptor) :
  (forall c, card_type (f c) = card_type c) -> commanded s h s1 -> commanded s h (set_sdCard (f (sdCard s1)) s1).
Proof. intros Hf (d & c & -> & Ht & ?). exists d, (f c). split; [done |]. by rewrite Hf. Qed.

Lemma commanded_put s h s1 h' r v :
  commanded s h s1 -> (forall d, ctl d h -> ctl (reg_put r v d) h') -> commanded s h' (set_dev (reg_put r v (dev s1)) s1).
Proof. intros (d & c & -> & Ht & Hd) Hp. exists (reg_put r v d), c. split; [done |]. auto. Qed.

Lemma commanded_ctl s h s1 : commanded s h s1 -> ctl (dev s1) h.
Proof. by intros (d & c & -> & ? & ?). Qed.

(** Nothing is in progress: the driver does not wait. *)
Lemma wait_command s h : ctl (dev s) h -> at_phase h = Quiet ->
  wp no_panic sdWaitForCommand (fun r s' => r = SD_OK /\ only_dev s h s') s.
Proof.
  intros Hc Hq. unfold sdWaitForCommand. apply wp_bind.
  assert (Hi : wp no_panic (inhibited SR_CMD_INHIBIT) (fun b s' => b = false /\ only_dev s h s') s).
  { destruct (get_status _ _ Hc Hq) as (v & d & Hg & Hv & Hd). unfold inhibited, test.
    apply wp_bind, wp_bind. eapply wp_rd; [done |]. apply wp_ret. unfold any_bit. rewrite Hv. apply wp_ret.
    split; [done |]. by exists d. }
  assert (Hp : forall fuel, wp no_panic (poll fuel 1000000 (inhibited SR_CMD_INHIBIT) 1) (fun r s' => r = 1000000 /\ only_dev s h s') s).
  { intros [|fuel]; cbn [poll]; apply wp_bind; (wp_use Hi; intros b s' [-> Hs']; by apply wp_ret). }
  wp_use Hp. intros r s1 [-> Hs1]. apply wp_bind. change (1000000 <=? 0) with false. cbn iota.
  wp_use test_interrupt; [by eapply only_dev_ctl |]. intros b s2 [-> Hs2]. rewrite Hq. cbn.
  apply wp_ret. split; [done |]. by eapply only_dev_both.
Qed.

(** The response of type R1 without an error bit. *)
Lemma response_ok s h w a m arg s1 : commanded s h s1 -> at_phase h = data_wait w a m ->
  wp no_panic (r ← rd EMMC_RESP0; handle_response RESP_R1 arg (i32 r)) (fun r s' => r = 0 /\ commanded s h s') s1.
Proof.
  intros Hs1 Hp. destruct (get_response _ _ _ _ _ (commanded_ctl _ _ _ Hs1) Hp) as (v & d & Hg & Hv & Hd).
  apply wp_bind. eapply wp_rd; [done |]. unfold handle_response, modify_card. cbn iota.
  change (RESP_R1 =? RESP_NO) with false. change (RESP_R1 =? RESP_R1) with true. cbn iota beta. cbn [orb]. wp_steps.
  split; [by rewrite <- i32_land, Hv |].
  apply (commanded_card _ _ _ (set_cardState _)); [done |]. apply (commanded_card _ _ _ (set_status _)); [done |].
  eapply commanded_dev; [done |]. by exists d.
Qed.

(** The index of the command of a transfer. *)
Definition index_of (w : bool) : Z := if w then IX_WRITE_SINGLE else IX_READ_SINGLE.

Lemma send_command (w : bool) a arg s h :
  ctl (dev s) h -> at_phase h = Quiet -> blksize h = 512 -> 0 <= a < nblocks -> u32 arg = (if hc then a else a * 512) ->
  wp no_panic (sdSendCommandA (index_of w) arg)
    (fun r s' => r = 0 /\ exists m, in_time m /\ commanded s (set_at_phase (data_wait w a m) (set_arg1 (u32 arg) h)) s') s.
Proof.
  intros Hc Hq Hb Ha Hu. unfold sdSendCommandA, app_prefix.
  replace (index_of w >=? IX_APP_CMD_START) with false by (by destruct w). cbn iota beta. apply wp_bind, wp_ret. cbn [Z.eqb negb SD_OK].
  apply wp_bind. unfold sdSendCommandP. apply wp_bind. wp_use wait_command; [done.. |].
  intros r s1 [-> Hs1]. cbn [Z.eqb negb SD_OK]. unfold modify_card. apply wp_bind, wp_modify, wp_bind, wp_modify, wp_bind.
  assert (Hs1' : commanded s h (set_sdCard (set_lastArg (u32 arg) (set_lastCmd (Some (index_of w)) (sdCard s1))) s1)).
  { apply (commanded_card _ _ _ (fun c => set_lastArg (u32 arg) (set_lastCmd (Some (index_of w)) c))); [done |].
    eapply commanded_dev; [by apply commanded_self | done]. }
  wp_use rd_interrupt; [by apply (commanded_ctl _ _ _ Hs1') |]. intros i s2 [-> Hs2]. rewrite Hq. cbn [irq].
  pose proof (commanded_dev _ _ _ _ _ Hs1' Hs2) as Hs2'.
  unfold wr. apply wp_bind, wp_modify, wp_bind, wp_modify, wp_bind, wp_modify.
  set (s3 := set_dev (reg_put EMMC_ARG1 _ _) _).
  assert (Hs3 : commanded s (set_arg1 (u32 arg) h) s3).
  { unfold s3. eapply (commanded_put _ h); [| intros d Hd; by apply put_arg1].
    eapply (commanded_put _ h); [done |]. intros d Hd. destruct h as [p ? ? ?]. cbn in Hq. subst p.
    apply (put_interrupt d (mkHost Quiet _ _ _) 0 Quiet Hd). constructor. }
  destruct (put_command (dev s3) (set_arg1 (u32 arg) h) w a) as (n & m & Hn & Hm & Hd); [by eapply commanded_ctl | done..|].
  change (if w then IX_WRITE_SINGLE else IX_READ_SINGLE) with (index_of w) in Hd.
  set (s4 := set_dev (reg_put EMMC_CMDTM _ _) _).
  assert (Hs4 : commanded s (set_at_phase (Command w a n m) (set_arg1 (u32 arg) h)) s4).
  { eapply commanded_dev; [done |]. by eexists. }
  apply wp_bind. replace (cmd_delay (nth_command (index_of w)) =? 0) with true by (by destruct w). cbn [negb]. apply wp_ret.
  apply wp_bind. wp_use (wait_flag INT_CMD_DONE n); [by eapply commanded_ctl | cbn; constructor | done |].
  intros r s5 (-> & q & Hf & Hs5). cbn in Hf. cbn [Z.eqb negb SD_OK]. inversion Hf as [? ? ? ? m' Hm'| | | |]; subst.
  replace (resp (nth_command (index_of w))) with RESP_R1 by (by destruct w).
  wp_use (response_ok s (set_at_phase (data_wait w a m') (set_arg1 (u32 arg) h))); [by eapply commanded_dev | done |].
  intros r s6 [-> Hs6]. cbn [Z.eqb negb]. unfold app_check, card. wp_steps.
  replace (index_of w >=? IX_APP_CMD_START) with false by (by destruct w). cbn [andb]. apply wp_ret. split; [done |].
  exists m'. split; [unfold in_time in *; lia | done].
Qed.

(** * Data *)

(** The buffer [b'] at [p]. *)
Definition with_buf (p : Z) (b' : buf) (s : sd D) : sd D := set_bufs (<[p := b']> (bufs s)) s.

Lemma with_buf_twice p b1 b2 s : with_buf p b2 (with_buf p b1 s) = with_buf p b2 s.
Proof. unfold with_buf. cbn. by rewrite insert_insert_eq. Qed.

Lemma wp_load p b Q s : bufs s !! p = Some b -> Q b s -> wp no_panic (load_buf p) Q s.
Proof. intros Hb HQ. unfold wp, load_buf. by rewrite Hb. Qed.

Lemma wp_update p f b Q s : bufs s !! p = Some b -> Q tt (with_buf p (f b) s) -> wp no_panic (update_buf p f) Q s.
Proof.
  intros Hb HQ. unfold update_buf, store_buf. apply wp_bind. eapply wp_load; [done |].
  apply wp_bind. eapply wp_load; [done |]. by apply wp_modify.
Qed.

(** The word at [k], encoded again. *)
Lemma enc_word (l : list Z) (k : nat) : bytes l -> (4 * k + 4 <= length l)%nat ->
  le_enc 4 (le_dec (slice l (4 * k) 4)) = slice l (4 * k) 4.
Proof.
  intros Hb Hl. pose proof (le_enc_dec (slice l (4 * k) 4) ltac:(by apply bytes_slice)) as He.
  by rewrite length_slice in He.
Qed.

(** The first [4 * k] bytes of a buffer are those of [l]. *)
Definition filled_to (k : nat) (l : list Z) (b : buf) : buf := set_data (take (4 * k) l ++ drop (4 * k) (data b)) b.

Lemma filled_word k l b : bytes l -> length l = 512%nat -> length (data b) = 512%nat -> (k < 128)%nat ->
  put_word (Z.of_nat k) (le_dec (slice l (4 * k) 4)) (filled_to k l b) = filled_to (S k) l b.
Proof.
  intros Hb Hl Hd Hk. unfold put_word, filled_to, set_data. cbn [data flags blockno qnext]. f_equal.
  replace (Z.to_nat (4 * Z.of_nat k)) with (4 * k)%nat by lia.
  rewrite enc_word by (done || lia). unfold splice. rewrite length_slice by lia. unfold slice.
  rewrite take_app_length' by (rewrite length_take; lia). rewrite drop_app, (drop_ge (take _ _)) by (rewrite length_take; lia). cbn [app].
  rewrite drop_drop, length_take, app_assoc, take_take_drop. f_equal; f_equal; lia.
Qed.

Lemma read_words_ok p b a n0 s h :
  ctl (dev s) h -> at_phase h = ReadData a n0 -> n0 = 0%nat -> bufs s !! p = Some b -> length (data b) = 512%nat ->
  bytes (blocks h a) -> length (blocks h a) = 512%nat ->
  wp no_panic (read_words p) (fun _ s' => exists n, in_time n /\
    only_dev (with_buf p (set_data (blocks h a) b) s) (set_at_phase (ReadEnd n) h) s') s.
Proof.
  intros Hc Hp -> Hb Hd Hbl Hl. unfold read_words.
  wp_use (wp_for_range no_panic (fun i s' => exists k n, i = Z.of_nat k /\ in_time n /\
    only_dev (with_buf p (filled_to k (blocks h a) b) s)
      (set_at_phase (if decide (k = 128%nat) then ReadEnd n else ReadData a k) h) s')).
  - intros i s1 Hi (k & n & -> & Hn & d & -> & Hd1). rewrite decide_False in Hd1 by lia.
    destruct (get_data _ _ a k Hd1) as (d' & m & Hg & Hm & Hd'); [done | lia |].
    apply wp_bind. eapply wp_rd; [done |]. eapply wp_update; [cbn; by rewrite lookup_insert_eq |].
    exists (S k), m. split; [lia | split; [done |]]. exists d'. split.
    + cbn [blocks set_at_phase]. rewrite filled_word by (auto; lia). unfold with_buf, set_bufs. cbn. by rewrite insert_insert_eq.
    + destruct (decide (k = 127%nat)) as [->|]; [done |]. by rewrite decide_False by lia.
  - exists 0%nat, 0%nat. split; [done | split; [done |]]. exists (dev s). split.
    + unfold filled_to, with_buf. cbn. rewrite drop_0. destruct s, b; cbn in *. unfold set_data. cbn. by rewrite insert_id.
    + rewrite decide_False by done. destruct h; cbn in *; by subst.
  - intros _ s1 (k & n & Hk & Hn & Hs1). exists n. split; [done |]. assert (k = 128%nat) as -> by lia.
    rewrite decide_True in Hs1 by done. unfold filled_to in Hs1.
    by rewrite take_ge, drop_ge, app_nil_r in Hs1 by lia.
Qed.

Lemma write_words_ok p b a s h :
  ctl (dev s) h -> at_phase h = WriteData a [] -> bufs s !! p = Some b -> length (data b) = 512%nat -> bytes (data b) ->
  wp no_panic (write_words p) (fun _ s' => exists n, in_time n /\
    only_dev s (set_blocks (write_block_at a (data b) (blocks h)) (set_at_phase (WriteEnd n) h)) s') s.
Proof.
  intros Hc Hp Hb Hd Hbl. unfold write_words.
  wp_use (wp_for_range no_panic (fun i s' => exists k n, i = Z.of_nat k /\ in_time n /\
    only_dev s (if decide (k = 128%nat)
      then set_blocks (write_block_at a (data b) (blocks h)) (set_at_phase (WriteEnd n) h)
      else set_at_phase (WriteData a (take (4 * k) (data b))) h) s')).
  - intros i s1 Hi (k & n & -> & Hn & d & -> & Hd1). rewrite decide_False in Hd1 by lia.
    apply wp_bind. eapply wp_load; [done |]. unfold wr. apply wp_modify.
    destruct (put_data _ _ a (take (4 * k) (data b)) (word_at b (Z.of_nat k)) Hd1) as (m & Hm & Hd'); [done | rewrite length_take; lia |].
    exists (S k), m. split; [lia | split; [done |]]. eexists. split; [done |]. cbn [dev set_dev].
    assert (Hw : take (4 * k) (data b) ++ le_enc 4 (word_at b (Z.of_nat k)) = take (4 * S k) (data b)).
    { unfold word_at. replace (Z.to_nat (4 * Z.of_nat k)) with (4 * k)%nat by lia.
      rewrite enc_word by (done || lia). unfold slice. rewrite take_take_drop. f_equal. lia. }
    rewrite Hw, length_take in Hd'. destruct (decide (S k = 128%nat)) as [|].
    + rewrite decide_True in Hd' by lia. rewrite take_ge in Hd' by lia. done.
    + rewrite decide_False in Hd' by lia. done.
  - exists 0%nat, 0%nat. split; [done | split; [done |]]. rewrite decide_False by done.
    replace (set_at_phase _ h) with h by (destruct h; cbn in *; by subst). by apply only_dev_self.
  - intros _ s1 (k & n & Hk & Hn & Hs1). exists n. split; [done |]. assert (k = 128%nat) as -> by lia.
    by rewrite decide_True in Hs1 by done.
Qed.

(** * sd_start *)

(** A block of the card, and a block number that the address arithmetic of
    sd_start carries (on a card with byte addresses, up to 2 GiB). *)
Definition block_ok (l : list Z) : Prop := length l = 512%nat /\ bytes l.
Definition addressable (blk : Z) : Prop := 0 <= blk < nblocks /\ blk < if hc then 2 ^ 32 else 2 ^ 22.

Lemma card_address_ok type blk : (type =? SD_TYPE_2_HC) = hc -> addressable blk ->
  u32 (card_address type blk) = if hc then blk else blk * 512.
Proof.
  intros Ht [Hb Hlt]. unfold card_address. rewrite Ht. destruct hc.
  - rewrite u32_i32. apply u32_small. lia.
  - rewrite u32_i32, Z.shiftl_mul_pow2 by lia.
    unfold i32, sgn. rewrite Z.mod_small by lia. replace (blk <? 2 ^ (32 - 1)) with true by lia. apply u32_small. lia.
Qed.

(** The transfer of the request [b] is under way on a card that holds [B] before it. *)
Definition transferring (b : buf) (B : Z -> list Z) (h : host) : Prop :=
  exists n, in_time n /\
    if is_write b then at_phase h = WriteEnd n /\ blocks h = write_block_at (blockno b) (data b) B
    else at_phase h = ReadWait (blockno b) n /\ blocks h = B.

(** A buffer that sd_start accepts. *)
Definition buf_ok (p : Z) (b : buf) : Prop :=
  Z.land (data_address p) 3 = 0 /\ block_ok (data b) /\ addressable (blockno b).

Lemma sd_start_ok p b s h : ctl (dev s) h -> at_phase h = Quiet -> bufs s !! p = Some b -> buf_ok p b ->
  (card_type (sdCard s) =? SD_TYPE_2_HC) = hc ->
  wp no_panic (sd_start p) (fun _ s' => exists h', commanded s h' s' /\ transferring b (blocks h) h') s.
Proof.
  intros Hc Hq Hb (Hal & [Hl Hby] & Had) Ht. unfold sd_start, card. wp_steps. eapply wp_load; [done |].
  apply wp_bind. wp_use rd_interrupt; [done |]. intros i s1 [-> Hs1]. rewrite Hq. cbn [irq].
  apply wp_bind, wp_assert; [done |]. unfold wr. apply wp_bind, wp_modify, wp_bind.
  set (s2 := set_dev _ s1).
  assert (Hs2 : commanded s (set_blksize 512 h) s2).
  { eapply (commanded_put _ h); [eapply commanded_dev; [by apply commanded_self | done] |].
    intros d Hd. by apply put_blksize. }
  wp_use (send_command (is_write b) (blockno b) (card_address (card_type (sdCard s)) (blockno b)) s2 (set_blksize 512 h));
    [by eapply commanded_ctl | done | done | apply Had | by apply card_address_ok |].
  intros r s3 (-> & m & Hm & d3 & c3 & -> & Ht3 & Hd3). set (h3 := set_at_phase _ _) in Hd3.
  assert (Hs3 : commanded s h3 (set_sdCard c3 (set_dev d3 s2))).
  { destruct Hs2 as (d2 & c2 & -> & Ht2 & _). exists d3, c3. split; [done |]. split; [rewrite Ht3; exact Ht2 | done]. }
  cbn [Z.eqb negb]. apply wp_bind, wp_ret, wp_bind, wp_assert; [by rewrite Hal |].
  unfold transferring. destruct (is_write b); [| apply wp_ret; by eauto 8].
  apply wp_bind. wp_use (wait_flag INT_WRITE_RDY m); [by eapply commanded_ctl | constructor | done |].
  intros r s4 (-> & q & Hf & Hs4). cbn in Hf. inversion Hf; subst q. cbn [Z.eqb negb SD_OK]. apply wp_bind, wp_ret, wp_bind.
  wp_use rd_interrupt; [by eapply only_dev_ctl |]. intros i s5 [-> Hs5]. cbn [irq at_phase set_at_phase].
  apply wp_bind, wp_assert; [done |].
  pose proof (commanded_dev _ _ _ _ _ (commanded_dev _ _ _ _ _ Hs3 Hs4) Hs5) as Hs5'.
  wp_use (write_words_ok p b (blockno b)); [by eapply commanded_ctl | done | | done | done |].
  { destruct Hs5' as (d5 & c5 & -> & _). done. }
  intros [] s6 (n' & Hn & Hs6). eexists. split; [by eapply commanded_dev |]. by exists n'.
Qed.
End transfer.
