(* ===== verification/SdServe.v ===== *)
(** What driver/sd.c promises: requests are served one at a time in the order in
    which they were made.  The abstract server has a disk, the list of pending
    requests, the buffers and the wakeups; [serves] relates it to the driver. *)
From S2P Require Import Prelude Bytes CString Locks Sd SdCard SdQueue SdHost SdTransfer.

(** * The queue in memory *)

(** The buffers without their links. *)
Definition unlink (b : buf) : buf := set_qnext 0 b.

Fixpoint chain (m : gmap Z buf) (p : Z) (q : list Z) : Prop :=
  match q with
  | [] => p = 0
  | x :: q' => p = x /\ x <> 0 /\ exists b, m !! x = Some b /\ chain m (qnext b) q'
  end.

(** [q] hangs at the head of the queue. *)
Definition queued (sdque : Z) (m : gmap Z buf) (q : list Z) : Prop :=
  NoDup (sdque :: q) /\ exists hd, m !! sdque = Some hd /\ chain m (qnext hd) q.

Lemma chain_same m m' q : forall p, (forall x, x ∈ q -> m' !! x = m !! x) -> chain m p q -> chain m' p q.
Proof.
  induction q as [|x q IH]; intros p Hm; [done |]. cbn. intros (-> & Hx & b & Hb & Hc).
  split; [done | split; [done |]]. exists b. split; [rewrite Hm; [done | left] |].
  apply IH; [| done]. intros y Hy. apply Hm. by right.
Qed.

Lemma chain_elem m p q x : chain m p q -> x ∈ q -> x <> 0 /\ is_Some (m !! x).
Proof.
  revert p. induction q as [|y q IH]; intros p; [by intros _ ?%elem_of_nil |]. cbn.
  intros (-> & Hy & b & Hb & Hc) [-> | Hx]%elem_of_cons; [by split; [| exists b] | by eapply IH].
Qed.

(** A field other than the link. *)
Lemma view_link (m : gmap Z buf) p b v : m !! p = Some b -> unlink <$> <[p := set_qnext v b]> m = unlink <$> m.
Proof.
  intros Hb. rewrite fmap_insert. apply insert_id. rewrite lookup_fmap, Hb. done.
Qed.

Lemma view_lookup (m o : gmap Z buf) p b : unlink <$> m = o -> o !! p = Some b -> exists v, m !! p = Some (set_qnext v b).
Proof.
  intros <-. rewrite lookup_fmap. intros ([f n l v] & Hm & ->)%fmap_Some. by exists v.
Qed.

Section queue_ops.
Context {D : Type} `{Mmio D}.
Context (sdque : Z).
Implicit Types (s : sd D).

Lemma last_buf_ok q : forall fuel t b s, bufs s !! t = Some b -> chain (bufs s) (qnext b) q -> (length q <= fuel)%nat ->
  wp no_panic (last_buf fuel t) (fun r s' => s' = s /\ last (t :: q) = Some r) s.
Proof.
  induction q as [|x q IH]; intros fuel t b s Hb Hc Hf; cbn in Hc.
  - destruct fuel; cbn [last_buf]; apply wp_bind; (eapply wp_load; [done |]); rewrite Hc; by apply wp_ret.
  - destruct Hc as (Hx & Hx0 & b' & Hb' & Hc). destruct fuel as [|fuel]; cbn in Hf; [lia |]. cbn [last_buf].
    apply wp_bind. eapply wp_load; [done |]. rewrite Hx. replace (x =? 0) with false by lia.
    wp_use (IH fuel x b'); [done | done | lia |]. intros r s' [-> Hr]. split; [done |]. by cbn in *.
Qed.

(** The links after a push. *)
Lemma chain_push m q : forall t b n, m !! t = Some b -> chain m (qnext b) q -> NoDup (t :: q) -> n ∉ t :: q -> n <> 0 -> is_Some (m !! n) ->
  exists r br bn, last (t :: q) = Some r /\ m !! r = Some br /\ m !! n = Some bn /\ r <> n /\
    forall m', m' = <[n := set_qnext 0 bn]> (<[r := set_qnext n br]> m) ->
    exists b', m' !! t = Some b' /\ chain m' (qnext b') (q ++ [n]).
Proof.
  induction q as [|x q IH]; intros t b n Hb Hc Hnd Hn Hn0 [bn Hbn].
  - exists t, b, bn. split_and!; try done; [intros ->; apply Hn; left |]. intros m' ->.
    assert (Htn : t <> n) by (intros ->; apply Hn; left).
    exists (set_qnext n b). split; [by rewrite lookup_insert_ne, lookup_insert_eq |]. cbn.
    split; [done | split; [done |]]. exists (set_qnext 0 bn). by rewrite lookup_insert_eq.
  - destruct Hc as (Hx & Hx0 & b' & Hb' & Hc). apply NoDup_cons in Hnd as [Ht Hnd].
    destruct (IH x b' n) as (r & br & bn' & Hl & Hr & Hbn' & Hrn & Hm'); [done | done | done | | done | by eexists |].
    { intros ?. apply Hn. by right. }
    exists r, br, bn'. split_and!; try done. intros m' Em'. destruct (Hm' m' Em') as (b'' & Hb'' & Hc'').
    assert (Htr : t <> r). { intros ->. apply Ht. by apply last_Some_elem_of in Hl. }
    assert (Htn : t <> n) by (intros ->; apply Hn; left).
    exists b. subst m'. rewrite !lookup_insert_ne by done. split; [done |]. cbn. split; [done | split; [done |]]. by exists b''.
Qed.

Lemma size_chain m q : queued sdque m q -> (length q < size m)%nat.
Proof.
  intros (Hnd & hd & Hh & Hc). assert (Hs : list_to_set (sdque :: q) ⊆ dom m).
  { intros x. rewrite elem_of_list_to_set, elem_of_cons, elem_of_dom. intros [-> | Hx]; [by eexists |].
    by apply (chain_elem _ _ _ _ Hc Hx). }
  apply subseteq_size in Hs. rewrite size_list_to_set, size_dom in Hs by done. cbn in Hs. lia.
Qed.

Lemma push_ok n q s : queued sdque (bufs s) q -> n ∉ sdque :: q -> n <> 0 -> is_Some (bufs s !! n) ->
  wp no_panic (buflist_push n sdque)
    (fun _ s' => exists m, s' = set_bufs m s /\ queued sdque m (q ++ [n]) /\ unlink <$> m = unlink <$> bufs s) s.
Proof.
  intros Hq Hn Hn0 Hb. pose proof (size_chain _ _ Hq) as Hsz. destruct Hq as (Hnd & hd & Hh & Hc).
  unfold buflist_push. wp_steps. wp_use last_buf_ok; [done | done | lia |]. intros t s' [-> Ht].
  destruct (chain_push _ _ _ _ _ Hh Hc Hnd Hn Hn0 Hb) as (r & br & bn & Hl & Hr & Hbn & Hrn & Hm').
  rewrite Ht in Hl. injection Hl as ->. apply wp_bind. eapply wp_update; [done |].
  eapply wp_update; [cbn; by rewrite lookup_insert_ne |].
  eexists. split; [unfold with_buf; cbn; done |]. destruct (Hm' _ eq_refl) as (hd' & Hh' & Hc'). split.
  - split; [| by exists hd']. apply (NoDup_app (sdque :: q) [n]). split; [done |]. split; [| apply NoDup_singleton].
    intros x Hx ->%list_elem_of_singleton. done.
  - rewrite view_link by (by rewrite lookup_insert_ne). by apply view_link.
Qed.

Lemma empty_ok q s : queued sdque (bufs s) q ->
  wp no_panic (buflist_empty sdque) (fun r s' => s' = s /\ r = match q with [] => true | _ :: _ => false end) s.
Proof.
  intros (Hnd & hd & Hh & Hc). unfold buflist_empty. apply wp_bind. eapply wp_load; [done |]. apply wp_ret.
  split; [done |]. destruct q as [|x q]; cbn in Hc; [by rewrite Hc |]. destruct Hc as (-> & Hx & _). lia.
Qed.

Lemma front_ok x q s : queued sdque (bufs s) (x :: q) -> wp no_panic (buflist_front sdque) (fun r s' => s' = s /\ r = x) s.
Proof.
  intros (Hnd & hd & Hh & Hc). unfold buflist_front. apply wp_bind. eapply wp_load; [done |]. apply wp_ret.
  split; [done |]. by destruct Hc as (-> & _).
Qed.

Lemma pop_ok x q s : queued sdque (bufs s) (x :: q) ->
  wp no_panic (buflist_pop sdque)
    (fun _ s' => exists m, s' = set_bufs m s /\ queued sdque m q /\ unlink <$> m = unlink <$> bufs s) s.
Proof.
  intros (Hnd & hd & Hh & (Hx & Hx0 & b & Hb & Hc)). unfold buflist_pop. apply wp_bind. eapply wp_load; [done |].
  apply wp_bind. eapply wp_load; [by rewrite Hx |]. eapply wp_update; [done |].
  eexists. split; [done |]. split; [| by apply view_link].
  apply NoDup_cons in Hnd as [Hs Hnd]. apply NoDup_cons in Hnd as [Hxq Hnd]. split.
  - apply NoDup_cons. split; [| done]. intros ?. apply Hs. by right.
  - exists (set_qnext (qnext b) hd). split; [by rewrite lookup_insert_eq |].
    eapply chain_same; [| done]. intros y Hy. rewrite lookup_insert_ne; [done |]. intros ->. apply Hs. by right.
Qed.

(** A change of the other fields of a buffer keeps the queue. *)
Lemma queued_update m q p b b' : queued sdque m q -> m !! p = Some b -> qnext b' = qnext b -> queued sdque (<[p := b']> m) q.
Proof.
  intros (Hnd & hd & Hh & Hc) Hb Hn. split; [done |].
  assert (Hch : forall q x, chain m x q -> chain (<[p := b']> m) x q).
  { clear - Hb Hn. induction q as [|y q IH]; intros x; [done |]. cbn. intros (-> & Hy & c & Hyc & Hc).
    split; [done | split; [done |]]. destruct (decide (y = p)) as [->|].
    - exists b'. rewrite lookup_insert_eq. split; [done |]. rewrite Hn. assert (c = b) as -> by congruence. auto.
    - exists c. rewrite lookup_insert_ne by done. auto. }
  destruct (decide (sdque = p)) as [<-|].
  - exists b'. rewrite lookup_insert_eq. split; [done |]. rewrite Hn. assert (hd = b) as -> by congruence. auto.
  - exists hd. rewrite lookup_insert_ne by done. auto.
Qed.

(** The lock. *)
Lemma lock_ok me s : sdlock s = init_spinlock -> wp no_panic (lock_sd me) (fun _ s' => s' = set_sdlock (mkSpin true (Some me)) s) s.
Proof. intros Hl. unfold lock_sd. wp_steps. rewrite Hl. eapply wp_lift; [apply acquire_free |]. done. Qed.

Lemma unlock_ok me s : sdlock s = mkSpin true (Some me) -> wp no_panic (unlock_sd me) (fun _ s' => s' = set_sdlock init_spinlock s) s.
Proof. intros Hl. unfold unlock_sd. wp_steps. rewrite Hl. eapply wp_lift; [apply release_own |]. done. Qed.
End queue_ops.

(** * The abstract server *)

Record server := mkServer {
  disk : Z -> list Z;
  pending : list Z;
  objs : gmap Z buf;
  woken : list Z
}.

(** A request is made. *)
Definition submit (p : Z) (σ : server) : server := mkServer (disk σ) (pending σ ++ [p]) (objs σ) (woken σ).

(** The oldest request is served: a dirty buffer is written to its block, another
    one is filled from it; the buffer is then valid and clean. *)
Definition complete (σ : server) : server :=
  match pending σ with
  | [] => σ
  | p :: q =>
      match objs σ !! p with
      | None => σ
      | Some b =>
          if is_write b
          then mkServer (write_block_at (blockno b) (data b) (disk σ)) q (<[p := completed b]> (objs σ)) (woken σ ++ [p])
          else mkServer (disk σ) q (<[p := completed (set_data (disk σ (blockno b)) b)]> (objs σ)) (woken σ ++ [p])
      end
  end.

Section serve.
Context {D : Type} `{Host D}.
Context (sdque : Z).
Implicit Types (s : sd D) (h : host) (σ : server).

Definition request_ok (o : gmap Z buf) (p : Z) : Prop := exists b, o !! p = Some b /\ buf_ok p b.

(** What the driver has in memory. *)
Record stored (σ : server) (s : sd D) : Prop := {
  stored_queue : queued sdque (bufs s) (pending σ);
  stored_view : unlink <$> bufs s = objs σ;
  stored_woken : wakeups s = woken σ;
  stored_type : (card_type (sdCard s) =? SD_TYPE_2_HC) = hc;
  stored_disk a : 0 <= a < nblocks -> block_ok (disk σ a);
  stored_requests : Forall (request_ok (objs σ)) (pending σ)
}.

(** The controller rests, or transfers the block of the oldest request. *)
Definition rests (σ : server) (h : host) : Prop := at_phase h = Quiet /\ blocks h = disk σ.
Definition under_way (σ : server) (h : host) : Prop :=
  match pending σ with
  | [] => rests σ h
  | p :: _ => exists b, objs σ !! p = Some b /\ transferring b (disk σ) h
  end.

Definition serving (σ : server) (s : sd D) : Prop := stored σ s /\ exists h, ctl (dev s) h /\ under_way σ h.
Definition serves (σ : server) (s : sd D) : Prop := serving σ s /\ sdlock s = init_spinlock.

Lemma stored_lock σ s l : stored σ s -> stored σ (set_sdlock l s).
Proof. by intros []. Qed.

Lemma stored_commanded σ s h s' : stored σ s -> commanded s h s' -> stored σ s'.
Proof. intros [] (d & c & -> & Ht & _). split; try done. cbn. by rewrite Ht. Qed.

Lemma commanded_lock s h s' : commanded s h s' -> sdlock s' = sdlock s.
Proof. by intros (d & c & -> & _). Qed.

(** The request at the front is started on a resting controller. *)
Lemma start_front_ok σ x q s h : stored σ s -> ctl (dev s) h -> rests σ h -> pending σ = x :: q ->
  wp no_panic (f ← buflist_front sdque; sd_start f) (fun _ s' => serving σ s' /\ sdlock s' = sdlock s) s.
Proof.
  intros Hs Hc [Hq Hd] Hp. destruct (Hs) as [Hqu Hv Hw Ht _ Hr]. rewrite Hp in Hqu, Hr. apply wp_bind.
  wp_use (front_ok sdque x q s); [done |]. intros f s' [-> ->]. apply Forall_cons in Hr as [(b & Hb & Hok) _].
  destruct (view_lookup _ _ _ _ Hv Hb) as (v & Hbv).
  wp_use (sd_start_ok x (set_qnext v b)); [done.. |]. intros [] s' (h' & Hs' & Htr). rewrite Hd in Htr.
  split; [| by eapply commanded_lock]. split; [by eapply stored_commanded |].
  exists h'. split; [by eapply commanded_ctl |]. unfold under_way. rewrite Hp. by exists b.
Qed.

(** The end of sd_intr, when the data of the request has been transferred. *)
Definition retire (p : Z) : M (sd D) unit :=
  update_buf p completed;;
  wakeup_buf p;;
  buflist_pop sdque;;
  e ← buflist_empty sdque;
  if negb e then f ← buflist_front sdque; sd_start f else mret tt.

Lemma request_update o p b b' q : p ∉ q -> o !! p = Some b -> Forall (request_ok o) q -> Forall (request_ok (<[p := b']> o)) q.
Proof.
  intros Hp Hb. rewrite !Forall_forall. intros Hq x Hx. destruct (Hq x Hx) as (c & Hc & Hok).
  exists c. rewrite lookup_insert_ne; [done |]. by intros ->.
Qed.

Lemma retire_ok B p q o w b s h :
  stored (mkServer B (p :: q) o w) s -> o !! p = Some b -> ctl (dev s) h -> at_phase h = Quiet -> blocks h = B ->
  wp no_panic (retire p) (fun _ s' => serving (mkServer B q (<[p := completed b]> o) (w ++ [p])) s' /\ sdlock s' = sdlock s) s.
Proof.
  intros [Hqu Hv Hw Ht Hd Hr] Hb Hc Hq HB. cbn in *. destruct (view_lookup _ _ _ _ Hv Hb) as (v & Hbv).
  unfold retire. apply wp_bind. eapply wp_update; [done |]. unfold wakeup_buf. apply wp_bind, wp_modify, wp_bind.
  set (s1 := set_wakeups _ _).
  assert (Hqu1 : queued sdque (bufs s1) (p :: q)) by (by eapply queued_update).
  wp_use (pop_ok sdque p q s1); [done |]. intros [] s2 (m & -> & Hqm & Hvm).
  assert (Hst : stored (mkServer B q (<[p := completed b]> o) (w ++ [p])) (set_bufs m s1)).
  { split; cbn; try done.
    - rewrite Hvm. cbn. rewrite fmap_insert, Hv. f_equal. destruct b as [f n l v'].
      apply (f_equal (lookup p)) in Hv. rewrite lookup_fmap, Hbv, Hb in Hv. cbn in Hv. injection Hv as <-. done.
    - by rewrite Hw.
    - apply Forall_cons in Hr as [_ Hr]. eapply request_update; [| done | done].
      destruct Hqu as [Hnd _]. by apply NoDup_cons in Hnd as [_ [? _]%NoDup_cons]. }
  apply wp_bind. wp_use (empty_ok sdque q (set_bufs m s1)); [done |]. intros e s3 [-> ->]. destruct q as [|x q]; cbn [negb].
  - apply wp_ret. split; [| done]. split; [done |]. exists h. by split.
  - wp_use (start_front_ok _ x q _ h Hst); done.
Qed.

Lemma in_queue σ s p q : stored σ s -> pending σ = p :: q -> exists b v, objs σ !! p = Some b /\ buf_ok p b /\ bufs s !! p = Some (set_qnext v b).
Proof.
  intros [_ Hv _ _ _ Hr] Hp. rewrite Hp in Hr. apply Forall_cons in Hr as [(b & Hb & Hok) _].
  destruct (view_lookup _ _ _ _ Hv Hb) as (v & Hbv). by exists b, v.
Qed.

(** The request at the front, when the flag it waits for has been cleared. *)
Lemma finish_front_ok σ p q b n s h :
  stored σ s -> pending σ = p :: q -> objs σ !! p = Some b -> ctl (dev s) h ->
  (if is_write b then at_phase h = Quiet /\ blocks h = write_block_at (blockno b) (data b) (disk σ)
   else at_phase h = ReadData (blockno b) n /\ n = 0%nat /\ blocks h = disk σ) ->
  wp no_panic (finish_front sdque p (is_write b)) (fun _ s' => serving (complete σ) s' /\ sdlock s' = sdlock s) s.
Proof.
  intros Hs Hp Hb Hc Hh. destruct (in_queue _ _ _ _ Hs Hp) as (b' & v & Hb' & (Hal & [Hl Hby] & Hadr) & Hbv).
  assert (b' = b) as -> by congruence. unfold complete. rewrite Hp, Hb. unfold finish_front. fold (retire p).
  destruct Hs as [Hqu Hv Hw Ht Hd Hr]. rewrite Hp in Hqu, Hr. apply wp_bind. destruct (is_write b); cbn [negb].
  - apply wp_ret. destruct Hh as [Hq HB]. apply (retire_ok _ _ _ _ _ _ _ h); try done. split; try done.
    intros a Ha. cbn. unfold write_block_at. case_match; [by split | by apply Hd].
  - destruct Hh as (Hq & -> & HB). destruct (Hd (blockno b)) as [Hl' Hby']; [apply Hadr |]. apply wp_bind.
    wp_use (read_words_ok p (set_qnext v b)); [done | done | done | done | done | by rewrite HB | by rewrite HB |].
    intros [] s1 (m & Hm & Hs1). apply wp_bind.
    wp_use (wait_flag INT_DATA_DONE m); [by eapply only_dev_ctl | constructor | done |].
    intros r s2 (-> & ph & Hf & Hs2). cbn in Hf. inversion Hf; subst ph. apply wp_ret.
    destruct (only_dev_both _ _ _ _ _ Hs1 Hs2) as (d2 & -> & Hd2). rewrite HB.
    set (b1 := set_data (disk σ (blockno b)) b).
    wp_use (retire_ok (disk σ) p q (<[p := b1]> (objs σ)) (woken σ) b1); [| by rewrite lookup_insert_eq | exact Hd2 | done | done |].
    2: { cbn. intros [] s3 [Hs3 Hl3]. by rewrite insert_insert_eq in Hs3. }
    split; cbn; try done.
    + by eapply queued_update.
    + rewrite fmap_insert, Hv. f_equal. apply (f_equal (lookup p)) in Hv. rewrite lookup_fmap, Hbv, Hb in Hv.
      destruct b. by injection Hv as <-.
    + constructor; [by exists b1; rewrite lookup_insert_eq |]. apply Forall_cons in Hr as [_ Hr]. eapply request_update; [| done | done].
      destruct Hqu as [Hnd _]. by apply NoDup_cons in Hnd as [_ [? _]%NoDup_cons].
Qed.

(** The flags that reset enables as interrupts, and the line to the CPU. *)
Definition enabled : Z := Z.land (Z.land 0xffffffff (u32 (Z.lnot INT_CMD_DONE))) (u32 (Z.lnot INT_WRITE_RDY)).
Definition line_up (s : sd D) : bool := any_bit (fst (reg_get EMMC_INTERRUPT (dev s))) enabled.

Lemma line_irq s h : ctl (dev s) h -> line_up s = any_bit (irq (at_phase h)) enabled.
Proof. intros (d & Hg & _)%get_interrupt. unfold line_up. by rewrite Hg. Qed.

(** What sd_intr finds when the line is up. *)
Lemma line_up_cases σ s h : ctl (dev s) h -> under_way σ h -> line_up s = true ->
  exists p q b, pending σ = p :: q /\ objs σ !! p = Some b /\
    if is_write b then at_phase h = WriteEnd 0 /\ blocks h = write_block_at (blockno b) (data b) (disk σ)
    else at_phase h = ReadWait (blockno b) 0 /\ blocks h = disk σ.
Proof.
  intros Hc Hu Hl. rewrite (line_irq _ _ Hc) in Hl. unfold under_way in Hu. destruct (pending σ) as [|p q].
  { destruct Hu as [Hq _]. by rewrite Hq in Hl. }
  destruct Hu as (b & Hb & n & _ & Ht). exists p, q, b. split; [done | split; [done |]].
  destruct (is_write b); destruct Ht as [Hp HB]; rewrite Hp in Hl; by destruct n.
Qed.

Lemma intr_ok me σ s : serves σ s -> line_up s = true ->
  wp no_panic (sd_intr sdque me) (fun _ s' => pending σ <> [] /\ serves (complete σ) s') s.
Proof.
  intros ((Hs & h & Hc & Hu) & Hl) Hup. destruct (line_up_cases _ _ _ Hc Hu Hup) as (p & q & b & Hp & Hb & Hcase).
  destruct (in_queue _ _ _ _ Hs Hp) as (b' & v & Hb' & _ & Hbv). assert (b' = b) as -> by congruence.
  unfold sd_intr. apply wp_bind. wp_use (lock_ok me s); [done |]. intros [] s1 ->. set (s1 := set_sdlock _ s).
  assert (Hs1 : stored σ s1) by (by apply stored_lock). destruct (Hs1) as [Hqu _ _ _ _ _]. rewrite Hp in Hqu.
  apply wp_bind. wp_use (empty_ok sdque (p :: q) s1); [done |]. intros e s' [-> ->]. apply wp_bind, wp_bind.
  wp_use (rd_interrupt s1 h); [done |]. intros i s2 [-> (d2 & -> & Hd2)]. unfold wr.
  set (i := irq (at_phase h)).
  assert (Hi : i = if is_write b then INT_DATA_DONE else INT_READ_RDY).
  { unfold i. destruct (is_write b); destruct Hcase as [-> _]; done. }
  assert (Hack : exists ph, acks (at_phase h) i ph /\ if is_write b then ph = Quiet else ph = ReadData (blockno b) 0).
  { unfold i. destruct (is_write b); destruct Hcase as [-> _]; eexists; (split; [constructor | done]). }
  destruct Hack as (ph & Hack & Hph). apply wp_bind, wp_assert; [rewrite Hi; by destruct (is_write b) |].
  apply wp_bind, wp_modify. cbn [dev set_dev]. pose proof (put_interrupt _ _ _ _ Hd2 Hack) as Hd3. set (s3 := set_dev _ _).
  apply wp_bind. wp_use (front_ok sdque p q s3); [done |]. intros f s' [-> ->].
  apply wp_bind. eapply wp_load; [exact Hbv |]. change (is_write (set_qnext v b)) with (is_write b). cbv zeta.
  replace (negb _) with false by (rewrite Hi; by destruct (is_write b)).
  wp_use (finish_front_ok σ p q b 0 s3 (set_at_phase ph h)); [by destruct Hs1 | done | done | done | |].
  { destruct (is_write b); subst ph; destruct Hcase as [_ HB]; done. }
  intros [] s4 [(Hs4 & h4 & Hc4 & Hu4) Hl4]. wp_use (unlock_ok me s4); [done |]. intros [] s5 ->.
  split; [by rewrite Hp |]. split; [| done]. split; [by apply stored_lock | by exists h4].
Qed.

(** ** Requests *)

Lemma submit_ok me p σ s : serves σ s -> p ∉ sdque :: pending σ -> p <> 0 -> request_ok (objs σ) p ->
  wp no_panic (flag ← sdrw_enqueue sdque p; sdrw_start sdque me flag) (fun _ s' => serves (submit p σ) s') s.
Proof.
  intros ((Hs & h & Hc & Hu) & Hl) Hp Hp0 Hr. destruct (Hs) as [Hqu Hv Hw Ht Hd Hrs]. apply wp_bind.
  unfold sdrw_enqueue. apply wp_bind. wp_use (empty_ok sdque (pending σ) s); [done |]. intros e s' [-> ->].
  apply wp_bind. wp_use (push_ok sdque p (pending σ) s); [done | done | done | |].
  { destruct Hr as (b & Hb & _). destruct (view_lookup _ _ _ _ Hv Hb) as (v & ?). by eexists. }
  intros [] s1 (m & -> & Hqm & Hvm). apply wp_ret. unfold sdrw_start. apply wp_bind.
  wp_use (lock_ok me (set_bufs m s)); [done |]. intros [] s2 ->. set (s2 := set_sdlock _ _).
  assert (Hs2 : stored (submit p σ) s2).
  { split; cbn; try done; [by rewrite Hvm |]. apply Forall_app. split; [done |]. by constructor. }
  apply wp_bind. eapply (wp_mono _ _ (fun _ s' => serving (submit p σ) s' /\ sdlock s' = sdlock s2)).
  - unfold under_way in Hu. destruct (pending σ) as [|x q] eqn:Eq.
    + apply (start_front_ok _ p [] _ h Hs2); [done | done |]. unfold submit. cbn. by rewrite Eq.
    + apply wp_ret. split; [| done]. split; [done |]. exists h. split; [done |].
      unfold under_way, submit. cbn. by rewrite Eq.
  - intros [] s3 [(Hs3 & h3 & Hc3 & Hu3) Hl3]. wp_use (unlock_ok me s3); [by rewrite Hl3 |]. intros [] s4 ->.
    split; [| done]. split; [by apply stored_lock | by exists h3].
Qed.

Lemma resume_ok me p b σ s : serves σ s -> objs σ !! p = Some b ->
  wp no_panic (sdrw_resume me p) (fun r s' => r = is_done b /\ serves σ s') s.
Proof.
  intros ((Hs & h & Hc & Hu) & Hl) Hb. destruct (view_lookup _ _ _ _ (stored_view _ _ Hs) Hb) as (v & Hbv).
  unfold sdrw_resume. apply wp_bind. wp_use (lock_ok me s); [done |]. intros [] s1 ->. set (s1 := set_sdlock _ s).
  assert (Hun : wp no_panic (unlock_sd me) (fun _ s' => serves σ s') s1).
  { wp_use (unlock_ok me s1); [done |]. intros [] s2 ->. split; [| done]. split; [| by exists h].
    by apply stored_lock, stored_lock. }
  apply wp_bind. eapply wp_load; [exact Hbv |]. change (is_done (set_qnext v b)) with (is_done b).
  destruct (is_done b).
  - apply wp_bind, wp_get, wp_bind. unfold holding_spinlock. cbn. rewrite bool_decide_eq_true_2 by done. cbn.
    wp_use Hun. by intros [] s2 Hs2.
  - apply wp_bind. wp_use Hun. intros [] s2 Hs2. by apply wp_ret.
Qed.

Definition pass (us : Z) : M (sd D) unit := modify (fun s => set_dev (elapse us (dev s)) s).

Lemma transferring_elapses b B h p : transferring b B h -> elapses (at_phase h) p -> transferring b B (set_at_phase p h).
Proof.
  intros (n & Hn & Ht) He. unfold in_time in *. destruct (is_write b) eqn:E; destruct Ht as [Hp HB]; rewrite Hp in He;
    inversion He; subst; (eexists; rewrite E; split; [| split; [done |]; done]); unfold in_time; lia.
Qed.

Lemma pass_ok us σ s : serves σ s -> 0 < us -> wp no_panic (pass us) (fun _ s' => serves σ s') s.
Proof.
  intros ((Hs & h & Hc & Hu) & Hl) Hus. unfold pass. apply wp_modify. split; [| done]. split; [by destruct Hs |].
  destruct (time_passes _ _ _ Hc Hus) as (p & He & Hd). exists (set_at_phase p h). split; [done |].
  unfold under_way in *. destruct (pending σ) as [|x q].
  - destruct Hu as [Hq HB]. rewrite Hq in He. inversion He; subst. done.
  - destruct Hu as (b & Hb & Ht). exists b. split; [done |]. by apply transferring_elapses.
Qed.
End serve.
