(* ===== verification/SdTheorems.v ===== *)
(** The theorems on the SD driver: any sequence of requests, interrupts and
    resumptions refines the abstract server; sd_read and sd_write are the block
    device that the file system expects; and the queue stalls for good when an
    interrupt falls between the test and the push of sdrw, which it does outside
    its lock. *)
From S2P Require Import Prelude Bytes CString Locks Sd SdCard SdQueue SdHost SdTransfer SdServe.

(** * Sequences of events *)

(** A thread calls sdrw, the interrupt is delivered if the line is up, time passes,
    or a thread wakes up in sdrw. *)
Inductive event :=
  | Submit (me p : Z)
  | Deliver (me : Z)
  | Pass (us : Z)
  | Resume (me p : Z).

Section runs.
Context {D : Type} `{Host D}.
Context (sdque : Z).
Implicit Types (s : sd D) (h : host) (σ : server).

(** The result tells whether an interrupt was delivered, and whether the thread
    that woke up returns from sdrw. *)
Definition exec_event (e : event) : M (sd D) bool :=
  match e with
  | Submit me p => (flag ← sdrw_enqueue sdque p; sdrw_start sdque me flag);; mret true
  | Deliver me => s ← get; if line_up s then sd_intr sdque me;; mret true else mret false
  | Pass us => pass us;; mret true
  | Resume me p => sdrw_resume me p
  end.

Fixpoint exec_events (es : list event) : M (sd D) (list bool) :=
  match es with
  | [] => mret []
  | e :: es' => r ← exec_event e; rs ← exec_events es'; mret (r :: rs)
  end.

(** What a caller of sdrw must respect: the buffer is not in the queue, and is one
    that the card can transfer. *)
Definition legal (e : event) (σ : server) : Prop :=
  match e with
  | Submit _ p => p ∉ sdque :: pending σ /\ p <> 0 /\ request_ok (objs σ) p
  | Deliver _ => True
  | Pass us => 0 < us
  | Resume _ p => is_Some (objs σ !! p)
  end.

(** The result of an event, and the server after it. *)
Definition answers (e : event) (σ : server) (r : bool) : Prop :=
  match e with
  | Submit _ _ | Pass _ => r = true
  | Deliver _ => r = true -> pending σ <> []
  | Resume _ p => exists b, objs σ !! p = Some b /\ r = is_done b
  end.
Definition server_event (e : event) (r : bool) (σ : server) : server :=
  match e with
  | Submit _ p => submit p σ
  | Deliver _ => if r then complete σ else σ
  | Pass _ | Resume _ _ => σ
  end.

Fixpoint legal_run (es : list event) (σ : server) : Prop :=
  match es with
  | [] => True
  | e :: es' => legal e σ /\ forall r, answers e σ r -> legal_run es' (server_event e r σ)
  end.

Inductive server_run : list event -> list bool -> server -> server -> Prop :=
| server_stays σ : server_run [] [] σ σ
| server_moves e es r rs σ σ' :
    answers e σ r -> server_run es rs (server_event e r σ) σ' -> server_run (e :: es) (r :: rs) σ σ'.

Lemma exec_event_ok e σ s : serves sdque σ s -> legal e σ ->
  wp no_panic (exec_event e) (fun r s' => answers e σ r /\ serves sdque (server_event e r σ) s') s.
Proof.
  intros Hs Hl. destruct e as [me p|me|us|me p]; cbn in Hl; cbn [exec_event answers server_event].
  - destruct Hl as (Hp & Hp0 & Hr). apply wp_bind. wp_use (submit_ok sdque me p σ s); [done.. |].
    intros [] s' Hs'. by apply wp_ret.
  - apply wp_bind, wp_get. destruct (line_up s) eqn:Hup; [| by apply wp_ret].
    apply wp_bind. wp_use (intr_ok sdque me σ s); [done.. |]. intros [] s' [Hne Hs']. by apply wp_ret.
  - apply wp_bind. wp_use (pass_ok sdque us σ s); [done.. |]. intros [] s' Hs'. by apply wp_ret.
  - destruct Hl as [b Hb]. wp_use (resume_ok sdque me p b σ s); [done.. |]. intros r s' [-> Hs'].
    split; [by exists b | done].
Qed.

Lemma exec_events_ok es : forall σ s, serves sdque σ s -> legal_run es σ ->
  wp no_panic (exec_events es) (fun rs s' => exists σ', server_run es rs σ σ' /\ serves sdque σ' s') s.
Proof.
  induction es as [|e es IH]; intros σ s Hs Hl; cbn [exec_events].
  - apply wp_ret. exists σ. split; [constructor | done].
  - destruct Hl as [Hl Hrun]. apply wp_bind. wp_use (exec_event_ok e σ s); [done.. |]. intros r s1 [Hr Hs1].
    apply wp_bind. wp_use IH; [done | by apply Hrun |]. intros rs s2 (σ' & Hσ & Hs2). apply wp_ret.
    exists σ'. split; [by econstructor | done].
Qed.

(** * The block device *)

(** While the only thread sleeps: time passes until the line is up, and the
    interrupt is delivered. *)
Fixpoint await (fuel : nat) : M (sd D) unit :=
  s ← get;
  if line_up s then mret tt else
  match fuel with
  | O => lift OutOfFuel
  | S fuel' => pass 1;; await fuel'
  end.
Definition sleep_one (me : Z) : M (sd D) unit := await (Z.to_nat patience);; sd_intr sdque me.

Lemma due_line p flag n : due p flag n -> flag = INT_DATA_DONE \/ flag = INT_READ_RDY ->
  any_bit (irq p) enabled = match n with O => true | S _ => false end.
Proof. destruct 1 as [w a n m|a n|n|a n|n]; intros [|]; try done; by destruct n. Qed.

Lemma under_way_due σ h : under_way σ h -> pending σ <> [] ->
  exists flag n, due (at_phase h) flag n /\ in_time n /\ (flag = INT_DATA_DONE \/ flag = INT_READ_RDY).
Proof.
  unfold under_way. destruct (pending σ) as [|p q]; [done |]. intros (b & _ & n & Hn & Ht) _.
  destruct (is_write b); destruct Ht as [Hp _]; rewrite Hp; eexists _, n; (split; [constructor | auto]).
Qed.

Lemma await_due σ flag n : (flag = INT_DATA_DONE \/ flag = INT_READ_RDY) -> pending σ <> [] -> forall fuel s h,
  stored sdque σ s -> sdlock s = init_spinlock -> ctl (dev s) h -> under_way σ h -> due (at_phase h) flag n -> (n <= fuel)%nat ->
  wp no_panic (await fuel) (fun _ s' => serves sdque σ s' /\ line_up s' = true) s.
Proof.
  intros Hfl Hne. induction n as [n IH] using lt_wf_ind. intros fuel s h Hs Hl Hc Hu Hd Hn.
  assert (Hup : line_up s = match n with O => true | S _ => false end) by (rewrite (line_irq _ _ Hc); by eapply due_line).
  destruct n as [|n].
  { assert (Hok : serves sdque σ s) by (split; [split; eauto | done]).
    destruct fuel; cbn [await]; apply wp_bind, wp_get; rewrite Hup; by apply wp_ret. }
  destruct fuel as [|fuel]; [lia |]. cbn [await]. apply wp_bind, wp_get. rewrite Hup. unfold pass. apply wp_bind, wp_modify.
  destruct (time_passes _ _ 1 Hc) as (p & He & Hd'); [lia |]. destruct (due_elapses _ _ _ _ He Hd) as (n' & Hn' & Hd2 & _).
  apply (IH n' ltac:(cbn in Hn'; lia) fuel _ (set_at_phase p h)); try done; [by destruct Hs | | cbn in Hn'; lia].
  unfold under_way in *. destruct (pending σ) as [|x q]; [done |]. destruct Hu as (b & Hb & Ht). exists b.
  split; [done |]. by apply transferring_elapses.
Qed.

Lemma sleep_ok me σ s : serves sdque σ s -> pending σ <> [] ->
  wp no_panic (sleep_one me) (fun _ s' => serves sdque (complete σ) s') s.
Proof.
  intros ((Hs & h & Hc & Hu) & Hl) Hne. destruct (under_way_due _ _ Hu Hne) as (flag & n & Hd & Hn & Hf).
  unfold sleep_one. apply wp_bind. unfold in_time in Hn. wp_use (await_due σ flag n Hf Hne (Z.to_nat patience) s h); [done.. | lia |].
  intros [] s' [Hs' Hup]. wp_use (intr_ok sdque me σ s'); [done.. |]. by intros [] s2 [_ Hs2].
Qed.

(** ** Requests in order *)

Lemma complete_head σ p q b : pending σ = p :: q -> objs σ !! p = Some b ->
  pending (complete σ) = q /\ forall x, x <> p -> objs (complete σ) !! x = objs σ !! x.
Proof.
  intros Hp Hb. unfold complete. rewrite Hp, Hb. destruct (is_write b); cbn; (split; [done |]); intros x Hx;
    by rewrite lookup_insert_ne.
Qed.

Lemma iter_complete q1 : forall σ p q2, pending σ = q1 ++ p :: q2 -> (forall x, x ∈ q1 -> is_Some (objs σ !! x)) -> NoDup (q1 ++ p :: q2) ->
  pending (Nat.iter (length q1) complete σ) = p :: q2 /\ objs (Nat.iter (length q1) complete σ) !! p = objs σ !! p.
Proof.
  induction q1 as [|x q1 IH]; intros σ p q2 Hp Hb Hnd; [done |]. cbn [length app] in *. rewrite Nat.iter_succ_r.
  apply NoDup_cons in Hnd as [Hx Hnd]. destruct (Hb x) as [b Hbx]; [left |].
  destruct (complete_head _ _ _ _ Hp Hbx) as [Hp' Ho].
  assert (Hpx : p <> x) by (intros ->; apply Hx, elem_of_app; right; left).
  rewrite <- (Ho p Hpx). apply IH; [done | | done].
  intros y Hy. rewrite Ho; [apply Hb; by right |]. intros ->. apply Hx, elem_of_app. by left.
Qed.

Lemma any_bit_pow2 x k : 0 <= k -> any_bit x (2 ^ k) = Z.testbit x k.
Proof.
  intros Hk. unfold any_bit. destruct (Z.testbit x k) eqn:E.
  - destruct (Z.eqb_spec (Z.land x (2 ^ k)) 0) as [E0|]; [| done].
    apply (f_equal (fun z => Z.testbit z k)) in E0. rewrite Z.land_spec, E, Z.pow2_bits_true, Z.bits_0 in E0 by lia. done.
  - replace (Z.land x (2 ^ k)) with 0; [done |]. apply Z.bits_inj'. intros j Hj. rewrite Z.bits_0, Z.land_spec, Z.pow2_bits_eqb by lia.
    destruct (Z.eqb_spec k j) as [<-|]; [by rewrite E | by rewrite andb_false_r].
Qed.

Lemma completed_done b : is_done (completed b) = true.
Proof.
  unfold is_done, completed. change (flags (set_flags ?v b)) with v.
  rewrite (any_bit_pow2 _ 1), (any_bit_pow2 _ 2) by lia.
  rewrite Z.lnot_spec, !Z.land_spec, !Z.lnot_spec, !Z.lor_spec by lia. change (Z.testbit B_VALID 1) with true.
  change (Z.testbit B_DIRTY 1) with false. change (Z.testbit B_DIRTY 2) with true. by rewrite orb_true_r, andb_false_r.
Qed.

Lemma complete_done σ p q b : pending σ = p :: q -> objs σ !! p = Some b ->
  exists b', objs (complete σ) !! p = Some b' /\ is_done b' = true /\
    data b' = if is_write b then data b else disk σ (blockno b).
Proof.
  intros Hp Hb. unfold complete. rewrite Hp, Hb. destruct (is_write b); cbn; rewrite lookup_insert_eq; eexists;
    (split; [done |]); (split; [apply completed_done | done]).
Qed.

(** The loop of sdrw returns when the requests before [p] and [p] have been served. *)
Lemma loop_ok me p q1 : forall fuel q2 σ s b, serves sdque σ s -> pending σ = q1 ++ p :: q2 ->
  objs σ !! p = Some b -> is_done b = false -> (length q1 < fuel)%nat ->
  wp no_panic (sdrw_loop fuel (sleep_one me) me p) (fun _ s' => serves sdque (Nat.iter (S (length q1)) complete σ) s') s.
Proof.
  induction q1 as [|x q1 IH]; intros fuel q2 σ s b Hs Hp Hb Hnd Hf; (destruct fuel as [|fuel]; cbn in Hf; [lia |]);
    cbn [sdrw_loop]; apply wp_bind; (wp_use (sleep_ok me σ s); [done | by rewrite Hp |]); intros [] s1 Hs1; apply wp_bind.
  - destruct (complete_done _ _ _ _ Hp Hb) as (b' & Hb' & Hd & _).
    wp_use (resume_ok sdque me p b' (complete σ) s1); [done.. |]. intros r s2 [-> Hs2]. rewrite Hd. by apply wp_ret.
  - destruct Hs as ((Hst & _) & _). pose proof (stored_requests _ _ _ Hst) as Hr. pose proof (stored_queue _ _ _ Hst) as [Hq _].
    rewrite Hp in Hr, Hq. cbn [app] in Hp, Hr, Hq. apply Forall_cons in Hr as [(bx & Hbx & _) _].
    destruct (complete_head _ _ _ _ Hp Hbx) as [Hp' Ho].
    assert (Hpx : p <> x). { intros ->. apply NoDup_cons in Hq as [_ [Hq _]%NoDup_cons]. apply Hq, elem_of_app. right. left. }
    rewrite <- (Ho p Hpx) in Hb. wp_use (resume_ok sdque me p b (complete σ) s1); [done.. |]. intros r s2 [-> Hs2]. rewrite Hnd.
    cbn [length]. rewrite Nat.iter_succ_r. eapply IH; [done | done | done | done | lia].
Qed.

(** ** sd_read and sd_write *)

(** A buffer outside of the queue is changed. *)
Definition edit (p : Z) (b : buf) (σ : server) : server := mkServer (disk σ) (pending σ) (<[p := b]> (objs σ)) (woken σ).

Lemma edit_ok p f b σ s : serves sdque σ s -> objs σ !! p = Some b -> p ∉ sdque :: pending σ ->
  (forall v c, f (set_qnext v c) = set_qnext v (f c)) ->
  wp no_panic (update_buf p f) (fun _ s' => serves sdque (edit p (f b) σ) s') s.
Proof.
  intros (([Hqu Hv Hw Ht Hd Hr] & h & Hc & Hu) & Hl) Hb Hp Hf. destruct (view_lookup _ _ _ _ Hv Hb) as (v & Hbv).
  eapply wp_update; [done |].
  assert (Hlink : unlink (f (set_qnext v b)) = f b).
  { apply (f_equal (lookup p)) in Hv. rewrite lookup_fmap, Hbv, Hb in Hv. cbn in Hv. injection Hv as Hv.
    unfold unlink in *. rewrite <- Hf, Hv. done. }
  split; [| done]. split; [split; cbn; try done |].
  - eapply queued_update; [done | done |]. by rewrite Hf.
  - by rewrite fmap_insert, Hv, Hlink.
  - eapply request_update; [| done | done]. intros ?. apply Hp. by right.
  - exists h. split; [done |]. unfold under_way in *. cbn. destruct (pending σ) as [|x q]; [done |].
    destruct Hu as (c & Hcx & Htr). exists c. rewrite lookup_insert_ne; [done |]. intros ->. apply Hp. right. left.
Qed.

(** The server when the pending requests have been served. *)
Definition served (σ : server) : server := Nat.iter (length (pending σ)) complete σ.

(** One more request does not change how the ones before it are served. *)
Lemma served_before p : forall q σ σ', pending σ = q -> pending σ' = q ++ [p] -> disk σ' = disk σ -> p ∉ q -> NoDup q ->
  (forall x, x ∈ q -> is_Some (objs σ !! x)) -> (forall x, x <> p -> objs σ' !! x = objs σ !! x) ->
  disk (Nat.iter (length q) complete σ') = disk (Nat.iter (length q) complete σ).
Proof.
  induction q as [|x q IH]; intros σ σ' Hq Hq' Hd Hp Hnd Hs Ho; [done |]. cbn [length]. rewrite !Nat.iter_succ_r.
  assert (Hpx : p <> x) by (intros ->; apply Hp; left). apply NoDup_cons in Hnd as [Hx Hnd].
  destruct (Hs x) as [b Hb]; [left |].
  assert (Hb' : objs σ' !! x = Some b) by (by rewrite Ho).
  destruct (complete_head _ _ _ _ Hq Hb) as [Hp1 Ho1]. destruct (complete_head _ _ _ _ Hq' Hb') as [Hp2 Ho2].
  apply IH; try done.
  - unfold complete. rewrite Hq, Hq'. cbn [app]. rewrite Hb, Hb'. destruct (is_write b); cbn; by rewrite Hd.
  - intros ?. apply Hp. by right.
  - intros y Hy. rewrite Ho1; [apply Hs; by right |]. by intros ->.
  - intros y Hy. unfold complete. rewrite Hq, Hq'. cbn [app]. rewrite Hb, Hb'. destruct (is_write b); cbn; rewrite ?Hd;
      (destruct (decide (y = x)) as [->|]; [by rewrite !lookup_insert_eq | rewrite !lookup_insert_ne by done; auto]).
Qed.

Lemma complete_disk σ p q b : pending σ = p :: q -> objs σ !! p = Some b ->
  disk (complete σ) = if is_write b then write_block_at (blockno b) (data b) (disk σ) else disk σ.
Proof. intros Hp Hb. unfold complete. rewrite Hp, Hb. by destruct (is_write b). Qed.

(** sdrw on a buffer with the contents [b]. *)
Lemma sdrw_ok fuel me p b σ s :
  serves sdque σ s -> p ∉ sdque :: pending σ -> p <> 0 -> objs σ !! p = Some b -> buf_ok p b -> is_done b = false ->
  (length (pending σ) < fuel)%nat ->
  wp no_panic (sdrw sdque fuel (sleep_one me) me p)
    (fun _ s' => exists σ' b', serves sdque σ' s' /\ pending σ' = [] /\ objs σ' !! p = Some b' /\
      data b' = (if is_write b then data b else disk (served σ) (blockno b)) /\
      disk σ' = if is_write b then write_block_at (blockno b) (data b) (disk (served σ)) else disk (served σ)) s.
Proof.
  intros Hs Hp Hp0 Hb Hok Hnd Hf. unfold sdrw.
  assert (Hsub : wp no_panic (flag ← sdrw_enqueue sdque p; sdrw_start sdque me flag) (fun _ s' => serves sdque (submit p σ) s') s)
    by (apply submit_ok; try done; by exists b).
  apply wp_bind. apply wp_bind_inv in Hsub. wp_use Hsub. intros flag s1 Hs1. apply wp_bind. wp_use Hs1. intros [] s2 Hs2.
  wp_use (loop_ok me p (pending σ) fuel [] (submit p σ) s2 b); [done.. |]. intros [] s3 Hs3.
  destruct Hs as ((Hst & _) & _). pose proof (stored_queue _ _ _ Hst) as [Hq _].
  assert (Hpq : p ∉ pending σ) by (intros ?; apply Hp; by right). apply NoDup_cons in Hq as [_ Hq].
  assert (His : forall x, x ∈ pending σ -> is_Some (objs σ !! x)).
  { intros x Hx. pose proof (stored_requests _ _ _ Hst) as Hr. rewrite Forall_forall in Hr.
    destruct (Hr x Hx) as (c & Hc & _). by eexists. }
  destruct (iter_complete (pending σ) (submit p σ) p []) as [Hpend Hobj]; [done | done | |].
  { apply NoDup_app. split; [done |]. split; [| apply NoDup_singleton]. by intros x Hx ->%list_elem_of_singleton. }
  assert (Hdisk : disk (Nat.iter (length (pending σ)) complete (submit p σ)) = disk (served σ)) by (by apply (served_before p)).
  cbn [submit objs] in Hobj. rewrite Hb in Hobj.
  destruct (complete_done _ _ _ _ Hpend Hobj) as (b' & Hb' & _ & Hdata). destruct (complete_head _ _ _ _ Hpend Hobj) as [Hp' _].
  pose proof (complete_disk _ _ _ _ Hpend Hobj) as Hcd. rewrite Hdisk in Hcd, Hdata.
  exists (Nat.iter (S (length (pending σ))) complete (submit p σ)), b'.
  split; [done |]. split; [done |]. split; [done |]. by change (Nat.iter (S ?n) complete ?x) with (complete (Nat.iter n complete x)).
Qed.

Lemma edit_lookup p b σ : objs (edit p b σ) !! p = Some b.
Proof. cbn. by rewrite lookup_insert_eq. Qed.

(** The pending requests do not see the edit. *)
Lemma served_edit p b σ : NoDup (pending σ) -> p ∉ pending σ -> (forall x, x ∈ pending σ -> is_Some (objs σ !! x)) ->
  disk (served (edit p b σ)) = disk (served σ).
Proof.
  intros Hnd Hp Hs. unfold served. cbn [pending edit].
  rewrite <- (served_before p (pending σ) (edit p b σ) (submit p (edit p b σ))); try done.
  - apply (served_before p); try done. intros x Hx. cbn. by rewrite lookup_insert_ne.
  - intros x Hx. cbn. rewrite lookup_insert_ne; [by apply Hs |]. by intros ->.
Qed.

Lemma serves_pending σ s : serves sdque σ s -> NoDup (pending σ) /\ forall x, x ∈ pending σ -> is_Some (objs σ !! x).
Proof.
  intros ((Hst & _) & _). destruct (stored_queue _ _ _ Hst) as [[_ Hq]%NoDup_cons _]. split; [done |].
  intros x Hx. pose proof (stored_requests _ _ _ Hst) as Hr. rewrite Forall_forall in Hr.
  destruct (Hr x Hx) as (c & Hc & _). by eexists.
Qed.

Lemma sd_read_ok fuel me p b n σ s :
  let blk := u32 (u32 n + BLOCKNO_OFFSET) in
  serves sdque σ s -> objs σ !! p = Some b -> p ∉ sdque :: pending σ -> p <> 0 -> Z.land (data_address p) 3 = 0 ->
  block_ok (data b) -> addressable blk -> (length (pending σ) < fuel)%nat ->
  wp no_panic (sd_read sdque fuel (sleep_one me) me p n)
    (fun r s' => r = disk (served σ) blk /\ exists σ' b', serves sdque σ' s' /\ pending σ' = [] /\ disk σ' = disk (served σ) /\
      objs σ' !! p = Some b' /\ block_ok (data b')) s.
Proof.
  intros blk Hs Hb Hp Hp0 Hal Hd Had Hf. unfold sd_read. apply wp_bind. wp_use (edit_ok p (set_blockno blk) b σ s); [done.. |].
  set (b1 := set_blockno blk b). set (σ1 := edit p b1 σ).
  intros [] s1 Hs1. apply wp_bind. wp_use (edit_ok p (set_flags 0) b1 σ1 s1); [done | apply edit_lookup | done | done |].
  intros [] s2 Hs2. apply wp_bind.
  wp_use (sdrw_ok fuel me p (set_flags 0 b1) (edit p (set_flags 0 b1) σ1) s2); [done | done | done | apply edit_lookup | done | done | done |].
  intros [] s3 (σ' & b' & Hs3 & Hpend & Hb' & Hdata & Hdisk). cbv iota in Hdata, Hdisk.
  change (is_write (set_flags 0 b1)) with false in Hdata, Hdisk. change (blockno (set_flags 0 b1)) with blk in Hdata.
  destruct (serves_pending _ _ Hs) as [Hnd His]. destruct (serves_pending _ _ Hs1) as [Hnd1 His1].
  assert (Hpq : p ∉ pending σ) by (intros ?; apply Hp; by right).
  assert (Hse : disk (served (edit p (set_flags 0 b1) σ1)) = disk (served σ)) by (rewrite served_edit; [by apply served_edit | done..]).
  rewrite Hse in Hdata, Hdisk.
  destruct Hs3 as ((Hst & Hrest) & Hl). destruct (view_lookup _ _ _ _ (stored_view _ _ _ Hst) Hb') as (v & Hbv).
  assert (Hok : block_ok (data b')) by (destruct Had as [Hr _]; rewrite Hdata, <- Hdisk; by apply (stored_disk _ _ _ Hst)).
  apply wp_bind. eapply wp_load; [done |]. apply wp_ret. cbn [data set_qnext]. split.
  - rewrite take_ge; [done |]. by destruct Hok as [-> _].
  - by exists σ', b'.
Qed.

Lemma sd_write_ok fuel me p b n buffer σ s :
  let blk := u32 (u32 n + BLOCKNO_OFFSET) in
  serves sdque σ s -> objs σ !! p = Some b -> p ∉ sdque :: pending σ -> p <> 0 -> Z.land (data_address p) 3 = 0 ->
  block_ok buffer -> addressable blk -> (length (pending σ) < fuel)%nat ->
  wp no_panic (sd_write sdque fuel (sleep_one me) me p n buffer)
    (fun _ s' => exists σ' b', serves sdque σ' s' /\ pending σ' = [] /\ disk σ' = write_block_at blk buffer (disk (served σ)) /\
      objs σ' !! p = Some b' /\ block_ok (data b')) s.
Proof.
  intros blk Hs Hb Hp Hp0 Hal Hd Had Hf. unfold sd_write. apply wp_bind. wp_use (edit_ok p (set_blockno blk) b σ s); [done.. |].
  set (b1 := set_blockno blk b). set (σ1 := edit p b1 σ). set (b2 := set_flags (Z.lor B_DIRTY B_VALID) b1). set (σ2 := edit p b2 σ1).
  intros [] s1 Hs1. apply wp_bind. wp_use (edit_ok p (set_flags (Z.lor B_DIRTY B_VALID)) b1 σ1 s1); [done | apply edit_lookup | done | done |].
  intros [] s2 Hs2. apply wp_bind. wp_use (edit_ok p (set_data (take 512 buffer)) b2 σ2 s2); [done | apply edit_lookup | done | done |].
  intros [] s3 Hs3. rewrite take_ge in Hs3 by (destruct Hd; lia).
  wp_use (sdrw_ok fuel me p (set_data buffer b2) (edit p (set_data buffer b2) σ2) s3); [done | done | done | apply edit_lookup | done | done | done |].
  intros [] s4 (σ' & b' & Hs4 & Hpend & Hb' & Hdata & Hdisk). exists σ', b'. split; [done | split; [done |]].
  change (is_write (set_data buffer b2)) with true in Hdata, Hdisk. cbn [data set_data] in Hdata.
  split; [| by rewrite Hdata]. rewrite Hdisk. f_equal.
  destruct (serves_pending _ _ Hs) as [Hnd His]. destruct (serves_pending _ _ Hs1) as [Hnd1 His1]. destruct (serves_pending _ _ Hs2) as [Hnd2 His2].
  assert (Hpq : p ∉ pending σ) by (intros ?; apply Hp; by right). 
  rewrite served_edit by done. unfold σ2. rewrite served_edit by done. by apply served_edit.
Qed.

(** * The stall *)

(** The controller rests although a request is pending. *)
Definition stalled (σ : server) (s : sd D) : Prop :=
  stored sdque σ s /\ sdlock s = init_spinlock /\ pending σ <> [] /\ exists h, ctl (dev s) h /\ rests σ h.

(** What the threads may do, as no request is ever served. *)
Fixpoint legal_stalled (es : list event) (σ : server) : Prop :=
  match es with
  | [] => True
  | e :: es' => legal e σ /\ legal_stalled es' (server_event e false σ)
  end.

Lemma stalled_submit me p σ s : stalled σ s -> legal (Submit me p) σ ->
  wp no_panic (exec_event (Submit me p)) (fun _ s' => stalled (submit p σ) s') s.
Proof.
  intros (Hs & Hl & Hne & h & Hc & Hr) (Hp & Hp0 & Hrq). destruct (Hs) as [Hqu Hv Hw Ht Hd Hrs].
  cbn [exec_event]. apply wp_bind, wp_bind. unfold sdrw_enqueue. apply wp_bind.
  wp_use (empty_ok sdque (pending σ) s); [done |]. intros e s' [-> ->]. apply wp_bind.
  wp_use (push_ok sdque p (pending σ) s); [done | done | done | |].
  { destruct Hrq as (b & Hb & _). destruct (view_lookup _ _ _ _ Hv Hb) as (v & ?). by eexists. }
  intros [] s1 (m & -> & Hqm & Hvm). apply wp_ret. unfold sdrw_start. apply wp_bind.
  wp_use (lock_ok me (set_bufs m s)); [done |]. intros [] s2 ->. apply wp_bind.
  destruct (pending σ) as [|x q] eqn:Eq; [done |]. apply wp_ret.
  wp_use (unlock_ok me (set_sdlock (mkSpin true (Some me)) (set_bufs m s))); [done |]. intros [] s4 ->. apply wp_ret.
  split; [| split; [done | split; [cbn; by destruct (pending σ) | by exists h]]].
  split; cbn; try done; [by rewrite Eq | by rewrite Hvm |]. apply Forall_app. split; [by rewrite Eq |]. by constructor.
Qed.

Lemma stalled_event e σ s : stalled σ s -> legal e σ ->
  wp no_panic (exec_event e) (fun _ s' => stalled (server_event e false σ) s') s.
Proof.
  intros Hst Hl. destruct e as [me p|me|us|me p]; [by apply stalled_submit | | |];
    cbn in Hl; cbn [exec_event server_event]; destruct (Hst) as (Hs & Hlk & Hne & h & Hc & Hq & HB).
  - apply wp_bind, wp_get. rewrite (line_irq _ _ Hc), Hq. by apply wp_ret.
  - unfold pass. apply wp_bind, wp_modify, wp_ret. destruct (time_passes _ _ _ Hc Hl) as (p & He & Hd).
    rewrite Hq in He. inversion He; subst. split; [by destruct Hs |]. split; [done |]. split; [done |].
    by exists (set_at_phase Quiet h).
  - destruct Hl as [b Hb]. destruct (view_lookup _ _ _ _ (stored_view _ _ _ Hs) Hb) as (v & Hbv).
    unfold sdrw_resume. apply wp_bind. wp_use (lock_ok me s); [done |]. intros [] s1 ->. set (s1 := set_sdlock _ s).
    assert (Hun : wp no_panic (unlock_sd me) (fun _ s' => stalled σ s') s1).
    { wp_use (unlock_ok me s1); [done |]. intros [] s2 ->. split; [by apply stored_lock, stored_lock |].
      split; [done |]. split; [done |]. by exists h. }
    apply wp_bind. eapply wp_load; [exact Hbv |]. destruct (is_done _).
    + apply wp_bind, wp_get, wp_bind. unfold holding_spinlock. cbn. rewrite bool_decide_eq_true_2 by done. cbn.
      wp_use Hun. by intros [] s2 Hs2.
    + apply wp_bind. wp_use Hun. intros [] s2 Hs2. by apply wp_ret.
Qed.

Lemma server_event_still e σ : objs (server_event e false σ) = objs σ /\ woken (server_event e false σ) = woken σ.
Proof. by destruct e. Qed.

Lemma stalled_events es : forall σ s, stalled σ s -> legal_stalled es σ ->
  wp no_panic (exec_events es) (fun _ s' => exists σ', stalled σ' s' /\ objs σ' = objs σ /\ woken σ' = woken σ) s.
Proof.
  induction es as [|e es IH]; intros σ s Hs Hl; cbn [exec_events]; [apply wp_ret; by exists σ |].
  destruct Hl as [Hl Hes]. apply wp_bind. wp_use (stalled_event e σ s); [done.. |]. intros r s1 Hs1.
  apply wp_bind. wp_use (IH (server_event e false σ) s1); [done.. |]. intros rs s2 (σ' & Hs2 & Ho & Hw). apply wp_ret. exists σ'. split; [done |].
  destruct (server_event_still e σ) as [<- <-]. done.
Qed.

(** sdrw on one CPU, with the interrupt on another one after the test. *)
Definition sdrw_interrupted (me other p : Z) : M (sd D) unit :=
  flag ← buflist_empty sdque;
  sd_intr sdque other;;
  buflist_push p sdque;;
  sdrw_start sdque me flag.

Lemma interrupted_stalls me other p x b σ s :
  serves sdque σ s -> pending σ = [x] -> line_up s = true -> p ∉ [sdque; x] -> p <> 0 ->
  objs σ !! p = Some b -> buf_ok p b ->
  wp no_panic (sdrw_interrupted me other p) (fun _ s' => exists σ', stalled σ' s' /\ pending σ' = [p] /\ objs σ' !! p = Some b) s.
Proof.
  intros Hs Hx Hup Hp Hp0 Hb Hok. unfold sdrw_interrupted. apply wp_bind.
  assert (Hqu0 : queued sdque (bufs s) [x]) by (rewrite <- Hx; apply Hs).
  assert (Hhead : exists bx, objs σ !! x = Some bx).
  { destruct Hs as ((Hst & _) & _). destruct (in_queue _ _ _ _ _ Hst Hx) as (bx & _ & Hbx & _). by exists bx. }
  destruct Hhead as [bx Hbx]. destruct (complete_head _ _ _ _ Hx Hbx) as [Hp' Ho].
  wp_use (empty_ok sdque [x] s); [done |]. intros e s' [-> ->]. apply wp_bind.
  wp_use (intr_ok sdque other σ s); [done.. |]. intros [] s1 (_ & ((Hs1 & h & Hc & Hu) & Hl)).
  unfold under_way in Hu. rewrite Hp' in Hu. destruct (Hs1) as [Hqu Hv Hw Ht Hd Hrs]. rewrite Hp' in Hqu.
  assert (Hpx : p <> x) by (intros ->; apply Hp; right; left). rewrite <- (Ho p Hpx) in Hb.
  apply wp_bind. wp_use (push_ok sdque p [] s1); [done | | done | |].
  { intros ->%list_elem_of_singleton. apply Hp. left. }
  { destruct (view_lookup _ _ _ _ Hv Hb) as (v & ?). by eexists. }
  intros [] s2 (m & -> & Hqm & Hvm). unfold sdrw_start. apply wp_bind.
  wp_use (lock_ok me (set_bufs m s1)); [done |]. intros [] s3 ->. apply wp_bind, wp_ret.
  wp_use (unlock_ok me (set_sdlock (mkSpin true (Some me)) (set_bufs m s1))); [done |]. intros [] s4 ->.
  exists (submit p (complete σ)). unfold stalled, submit. rewrite Hp'. split; [| done].
  split; [| split; [done | split; [done | by exists h]]].
  split; cbn; try done; [by rewrite Hvm |]. constructor; [by exists b | constructor].
Qed.

(** * Theorems *)

(** C5: requests to the SD driver are served one at a time and in order.  From a
    state that serves, and for callers that respect the rules, every sequence of
    calls of sdrw, interrupts, delays and wakeups runs without a panic or a fault, and its
    results are those of the abstract server: an interrupt is delivered only when a
    request is pending and completes the oldest one (its block is written, or its buffer
    filled with the block, the flags set and its thread woken), and a thread that wakes
    up returns from sdrw exactly when its buffer is done. *)
Theorem sd_refines es σ s : serves sdque σ s -> legal_run es σ ->
  exists rs s' σ', exec_events es s = Ret (rs, s') /\ server_run es rs σ σ' /\ serves sdque σ' s'.
Proof.
  intros Hs Hl. destruct (wp_returns _ _ _ (exec_events_ok es σ s Hs Hl)) as (rs & s' & He & σ' & Hr & Hs').
  by exists rs, s', σ'.
Qed.

(** Sd_read and sd_write of fs/block_device.c are a block device.  Behind any
    requests that are still pending, the calls return after as many sleeps as
    there are requests: sd_read gives the block that the disk holds once those requests are served
    and leaves the disk, sd_write replaces that block and no other one. *)
Theorem block_device_ok fuel me p b n buffer σ s :
  let blk := u32 (u32 n + BLOCKNO_OFFSET) in
  serves sdque σ s -> objs σ !! p = Some b -> p ∉ sdque :: pending σ -> p <> 0 -> Z.land (data_address p) 3 = 0 ->
  block_ok (data b) -> block_ok buffer -> addressable blk -> (length (pending σ) < fuel)%nat ->
  (exists s' σ', sd_read sdque fuel (sleep_one me) me p n s = Ret (disk (served σ) blk, s') /\
     serves sdque σ' s' /\ pending σ' = [] /\ disk σ' = disk (served σ)) /\
  (exists s' σ', sd_write sdque fuel (sleep_one me) me p n buffer s = Ret (tt, s') /\
     serves sdque σ' s' /\ pending σ' = [] /\ disk σ' = write_block_at blk buffer (disk (served σ))).
Proof.
  intros blk Hs Hb Hp Hp0 Hal Hd Hbuf Had Hf. split.
  - destruct (wp_returns _ _ _ (sd_read_ok fuel me p b n σ s Hs Hb Hp Hp0 Hal Hd Had Hf)) as (r & s' & He & -> & σ' & b' & Hs' & Hpd & Hdk & _).
    by exists s', σ'.
  - destruct (wp_returns _ _ _ (sd_write_ok fuel me p b n buffer σ s Hs Hb Hp Hp0 Hal Hbuf Had Hf)) as ([] & s' & He & σ' & b' & Hs' & Hpd & Hdk & _).
    by exists s', σ'.
Qed.

(** C34: sdrw tests the queue and pushes its buffer before it takes the lock.  When
    the interrupt of the last pending request is handled on another CPU between the test
    and the push, the buffer is left in the queue with no transfer started, and
    nothing brings the driver out of it: whatever threads call sdrw later, however long
    they wait and whenever they wake up, no buffer changes any more, no thread is
    woken, and the interrupted call never returns. *)
Theorem sdrw_stalls me other p x b σ s :
  serves sdque σ s -> pending σ = [x] -> line_up s = true -> p ∉ [sdque; x] -> p <> 0 ->
  objs σ !! p = Some b -> buf_ok p b -> is_done b = false ->
  exists s' σ', sdrw_interrupted me other p s = Ret (tt, s') /\ pending σ' = [p] /\
    forall es, legal_stalled es σ' ->
      exists rs s'' b', exec_events es s' = Ret (rs, s'') /\ wakeups s'' = wakeups s' /\
        unlink <$> bufs s'' = unlink <$> bufs s' /\ bufs s'' !! p = Some b' /\ is_done b' = false.
Proof.
  intros Hs Hx Hup Hp Hp0 Hb Hok Hnd.
  destruct (wp_returns _ _ _ (interrupted_stalls me other p x b σ s Hs Hx Hup Hp Hp0 Hb Hok)) as ([] & s' & He & σ' & Hst & Hpd & Hb').
  exists s', σ'. split; [done | split; [done |]]. intros es Hes.
  destruct (wp_returns _ _ _ (stalled_events es σ' s' Hst Hes)) as (rs & s'' & He' & σ'' & Hst'' & Ho & Hw).
  destruct Hst as ([_ Hv1 Hw1 _ _ _] & _). destruct Hst'' as ([_ Hv2 Hw2 _ _ _] & _).
  rewrite <- Ho in Hb'. destruct (view_lookup _ _ _ _ Hv2 Hb') as (v & Hbv).
  exists rs, s'', (set_qnext v b). by rewrite Hv1, Hv2, Hw1, Hw2, Ho, Hw.
Qed.
End runs.

(** * A controller that satisfies the laws *)

Module Sim.
(** The device is the host itself, with a card of block addresses; the flags come after
    fixed times. *)
Definition sim_get (r : reg) (h : host) : Z * host :=
  match r, at_phase h with
  | EMMC_INTERRUPT, p => (irq p, h)
  | EMMC_DATA, ReadData a k =>
      (le_dec (slice (blocks h a) (4 * k) 4), set_at_phase (if decide (k = 127%nat) then ReadEnd 2 else ReadData a (S k)) h)
  | _, _ => (0, h)
  end.

(** Clearing flags. *)
Definition sim_ack (v : Z) (p : phase) : phase :=
  match p with
  | Command w a O m => if any_bit v INT_CMD_DONE then data_wait w a m else p
  | ReadWait a O => if any_bit v INT_READ_RDY then ReadData a 0 else p
  | WriteWait a O => if any_bit v INT_WRITE_RDY then WriteData a [] else p
  | ReadEnd O | WriteEnd O => if any_bit v INT_DATA_DONE then Quiet else p
  | _ => p
  end.

Definition sim_put (r : reg) (v : Z) (h : host) : host :=
  match r, at_phase h with
  | EMMC_INTERRUPT, p => set_at_phase (sim_ack v p) h
  | EMMC_ARG1, _ => set_arg1 v h
  | EMMC_BLKSIZECNT, _ => set_blksize v h
  | EMMC_CMDTM, Quiet =>
      if v =? code (nth_command IX_WRITE_SINGLE) then set_at_phase (Command true (arg1 h) 1 2) h
      else if v =? code (nth_command IX_READ_SINGLE) then set_at_phase (Command false (arg1 h) 1 3) h else h
  | EMMC_DATA, WriteData a l =>
      if decide (length l = 508%nat)
      then set_blocks (write_block_at a (l ++ le_enc 4 v) (blocks h)) (set_at_phase (WriteEnd 2) h)
      else set_at_phase (WriteData a (l ++ le_enc 4 v)) h
  | _, _ => h
  end.

Definition sim_elapse (p : phase) : phase :=
  match p with
  | Command w a n m => Command w a (pred n) (pred m)
  | ReadWait a n => ReadWait a (pred n)
  | WriteWait a n => WriteWait a (pred n)
  | ReadEnd n => ReadEnd (pred n)
  | WriteEnd n => WriteEnd (pred n)
  | _ => p
  end.

#[export] Instance sim_mmio : Mmio host := {|
  reg_get := sim_get;
  reg_put := sim_put;
  elapse := fun _ h => set_at_phase (sim_elapse (at_phase h)) h;
  spin := fun _ h => h;
  shared_get := fun _ => [];
  shared_put := fun _ h => h
|}.

#[export] Instance sim_host : Host host.
Proof.
  refine {| ctl := eq; hc := true; nblocks := 2 ^ 20 |}.
  - intros d h ->. exists h. by destruct h as [[] ? ? ?].
  - intros d [p x y B] -> Hp. cbn in Hp. subst p. by eexists 0, _.
  - intros d [p x y B] w a m -> Hp. cbn in Hp. subst p. destruct w; by eexists 0, _.
  - intros d [p x y B] a k -> Hp Hk. cbn in Hp. subst p. by eexists _, 2%nat.
  - intros d [ph x y B] v p -> Ha. cbn in *. by destruct Ha.
  - intros d [p x y B] v -> Hp. cbn in Hp. by subst p.
  - intros d [p x y B] v -> Hp. cbn in Hp. by subst p.
  - intros d [p x y B] w a -> Hp Hb Ha Harg. cbn in Hp, Harg. subst p x. destruct w; [by exists 1%nat, 2%nat | by exists 1%nat, 3%nat].
  - intros d [p x y B] a l v -> Hp Hl. cbn in Hp. subst p. by exists 2%nat.
  - intros d h us -> Hus. exists (sim_elapse (at_phase h)). split; [| done]. destruct (at_phase h); cbn; constructor; lia.
Defined.

(** A driver at rest: the head of the queue at 16, a buffer at 4096 and another one
    at 8192, the card full of zeros. *)
Definition zeros : list Z := replicate 512 0.
Definition card0 : SDDescriptor := mkCard 0 [0;0;0;0] [0;0;0;0] [0;0] 0 0 0 SD_TYPE_2_HC 0 1 0 0 0 0 None 0.
Definition que : Z := 16.
Definition memory : gmap Z buf :=
  <[que := mkBuf 0 0 zeros 0]> (<[4096 := mkBuf B_DIRTY 3 (replicate 512 7) 0]> {[ 8192 := mkBuf 0 3 zeros 0 ]}).
Definition resting : sd host :=
  mkSd (mkHost Quiet 0 512 (fun _ => zeros)) card0 3 0 memory init_spinlock [] true.
Definition idle_server : server := mkServer (fun _ => zeros) [] memory [].

Lemma resting_serves : serves que idle_server resting.
Proof.
  split; [| done]. split.
  - split; try done.
    + split; [apply NoDup_singleton |]. by exists (mkBuf 0 0 zeros 0).
    + intros a _. split; [done |]. by apply bytes_replicate.
  - by exists (dev resting).
Qed.

Lemma dirty_ok : request_ok (objs idle_server) 4096.
Proof. eexists. split; [done |]. split; [done |]. split; [split; [done | by apply bytes_replicate] | done]. Qed.
Lemma clean_ok : request_ok (objs idle_server) 8192.
Proof. eexists. split; [done |]. split; [done |]. split; [split; [done | by apply bytes_replicate] | done]. Qed.

End Sim.
Import Sim.

(** A write and a read of the same block, the time they take, the interrupts, and the
    two threads. *)
Definition two_requests : list event :=
  [Submit 0 4096; Submit 1 8192; Pass 1; Pass 1; Deliver 0; Pass 3; Deliver 0; Resume 0 4096; Resume 1 8192].

Lemma two_requests_legal : legal_run que two_requests idle_server.
Proof.
  assert (Hobj : forall σ p, is_Some (objs σ !! p) -> is_Some (objs (complete σ) !! p)).
  { intros σ p Hp. unfold complete. destruct (pending σ) as [|x q]; [done |]. destruct (objs σ !! x) as [b|]; [| done].
    destruct (is_write b); cbn; (destruct (decide (p = x)) as [->|]; [by rewrite lookup_insert_eq | by rewrite lookup_insert_ne]). }
  assert (Hdel : forall σ p me r, is_Some (objs σ !! p) -> is_Some (objs (server_event (Deliver me) r σ) !! p)).
  { intros σ p me [] Hp; [by apply Hobj | done]. }
  split; [split; [set_solver | split; [done | apply dirty_ok]] | intros r1 _].
  split; [split; [set_solver | split; [done | apply clean_ok]] | intros r2 _].
  do 2 (split; [done | intros ? _]). split; [done | intros r5 _]. split; [done | intros r6 _]. split; [done | intros r7 _].
  split; [| intros r8 _; split; [| done]]; repeat apply Hdel; by eexists.
Qed.

Lemma sd_refines_witness : exists rs s' σ',
  exec_events que two_requests resting = Ret (rs, s') /\ server_run two_requests rs idle_server σ' /\ serves que σ' s'.
Proof. apply (sd_refines que two_requests idle_server resting); [apply resting_serves | apply two_requests_legal]. Defined.

Lemma block_device_ok_witness :
  let blk := u32 (u32 5 + BLOCKNO_OFFSET) in
  (exists s' σ', sd_read que 1 (sleep_one que 0) 0 8192 5 resting = Ret (disk (served idle_server) blk, s') /\
     serves que σ' s' /\ pending σ' = [] /\ disk σ' = disk (served idle_server)) /\
  (exists s' σ', sd_write que 1 (sleep_one que 0) 0 8192 5 (replicate 512 9) resting = Ret (tt, s') /\
     serves que σ' s' /\ pending σ' = [] /\ disk σ' = write_block_at blk (replicate 512 9) (disk (served idle_server))).
Proof.
  apply (block_device_ok que 1 0 8192 (mkBuf 0 3 zeros 0)); [apply resting_serves | done | set_solver | done | done | | | done | cbn; lia];
    (split; [done | by apply bytes_replicate]).
Defined.

(** A write is under way and its interrupt is up. *)
Lemma interrupted_write : exists s, serves que (submit 4096 idle_server) s /\ line_up s = true.
Proof.
  destruct (wp_returns _ _ _ (submit_ok que 0 4096 idle_server resting resting_serves ltac:(set_solver) ltac:(done) dirty_ok))
    as ([] & s1 & _ & Hs1).
  destruct (Hs1) as ((Hst & h & Hc & Hu) & Hl). destruct (under_way_due _ _ Hu) as (flag & n & Hd & Hn & Hf); [done |].
  destruct (wp_returns _ _ _ (await_due que (submit 4096 idle_server) flag n Hf ltac:(done) n s1 h Hst Hl Hc Hu Hd (le_n n)))
    as ([] & s2 & _ & Hs2). by exists s2.
Qed.

Lemma sdrw_stalls_witness : exists s s' σ', line_up s = true /\ sdrw_interrupted que 1 0 8192 s = Ret (tt, s') /\ pending σ' = [8192] /\
  forall es, legal_stalled que es σ' ->
    exists rs s'' b', exec_events que es s' = Ret (rs, s'') /\ wakeups s'' = wakeups s' /\
      unlink <$> bufs s'' = unlink <$> bufs s' /\ bufs s'' !! 8192 = Some b' /\ is_done b' = false.
Proof.
  destruct interrupted_write as (s & Hs & Hup).
  destruct (sdrw_stalls que 1 0 8192 4096 (mkBuf 0 3 zeros 0) (submit 4096 idle_server) s) as (s' & σ' & He & Hp & Hes);
    [done | done | done | set_solver | done | done | | done | by exists s, s', σ'].
  split; [done |]. split; [split; [done | by apply bytes_replicate] | done].
Defined.
