(* ===== verification/SdInit.v ===== *)
(** The initialisation of the SD card: on any controller and card, whatever their
    registers read, sdInit ends, and a card that it marks as initialised has been
    identified; and the divider of the clock. *)
From S2P Require Import Prelude Bytes CString Locks Sd SdCard.

(** * Frames *)

(** What a command leaves in the descriptor of the card. *)
Record steady (c c' : SDDescriptor) : Prop := {
  steady_capacity : capacity c' = capacity c;
  steady_format : fileFormat c' = fileFormat c;
  steady_type : card_type c' = card_type c;
  steady_init : card_init c' = card_init c;
  steady_last : is_Some (lastCmd c) -> is_Some (lastCmd c')
}.

#[export] Instance steady_preorder : PreOrder steady.
Proof.
  split; [by intros c; split |]. intros c1 c2 c3 [] []. split; [congruence.. |]. auto.
Qed.

(** ... and all commands but SEND_CSD leave the CSD. *)
Definition settled (c c' : SDDescriptor) : Prop := steady c c' /\ csd c' = csd c.

#[export] Instance settled_preorder : PreOrder settled.
Proof.
  split; [by intros c |]. intros c1 c2 c3 [H1 E1] [H2 E2]. split; [by transitivity c2 | congruence].
Qed.

Section init.
Context {D : Type} `{Mmio D}.
Implicit Types s : sd D.

(** The code [c] ends and relates the descriptors by [R]. *)
Definition within {A} (R : SDDescriptor -> SDDescriptor -> Prop) (c : M (sd D) A) (s : sd D) : Prop :=
  wp no_panic c (fun _ s' => R (sdCard s) (sdCard s')) s.

Lemma within_bind {A B} R `{!PreOrder R} (c : M (sd D) A) (k : A -> M (sd D) B) s :
  within R c s -> (forall a s', R (sdCard s) (sdCard s') -> within R (k a) s') -> within R (c ≫= k) s.
Proof.
  intros Hc Hk. apply wp_bind. wp_use Hc. intros a s1 H1. wp_use (Hk a s1 H1). intros b s2 H2. by transitivity (sdCard s1).
Qed.

Lemma within_ret {A} R `{!PreOrder R} (a : A) s : within R (mret a) s.
Proof. by apply wp_ret. Qed.

Lemma within_rd R `{!PreOrder R} r s : within R (rd r) s.
Proof. unfold within, rd. wp_steps. destruct (reg_get r (dev s)). by wp_steps. Qed.

Lemma within_wr R `{!PreOrder R} r v s : within R (wr r v) s.
Proof. unfold within, wr. by wp_steps. Qed.

Lemma within_delay R `{!PreOrder R} n s : within R (delay n) s.
Proof. unfold within, delay. by wp_steps. Qed.

Lemma within_delayus R `{!PreOrder R} n s : within R (sd_delayus n) s.
Proof. unfold within, sd_delayus. by wp_steps. Qed.

Lemma within_card R `{!PreOrder R} s : within R card s.
Proof. unfold within, card. by wp_steps. Qed.

Lemma within_if {A} R (b : bool) (c1 c2 : M (sd D) A) s : within R c1 s -> within R c2 s -> within R (if b then c1 else c2) s.
Proof. by destruct b. Qed.

Lemma within_modify_card (R : SDDescriptor -> SDDescriptor -> Prop) f s : R (sdCard s) (f (sdCard s)) -> within R (modify_card f) s.
Proof. intros Hf. unfold within, modify_card. by apply wp_modify. Qed.

Lemma within_impl {A} (R R' : SDDescriptor -> SDDescriptor -> Prop) (c : M (sd D) A) s :
  (forall x y, R x y -> R' x y) -> within R c s -> within R' c s.
Proof. intros HR Hc. wp_use Hc. auto. Qed.
End init.

Create HintDb sdframe.
#[export] Hint Resolve within_ret within_rd within_wr within_delay within_delayus within_card : sdframe.

(** Step through a program whose every step stays within the frame. *)
Ltac framed :=
  repeat first
    [ solve [auto 2 with sdframe typeclass_instances]
    | apply within_modify_card; solve [by split | split; [by split | done]]
    | apply within_if
    | apply within_bind; [typeclasses eauto | | intros ? ? ?] ].

Section loops.
Context {D : Type} `{Mmio D}.
Implicit Types s : sd D.

Lemma within_test R `{!PreOrder R} r m s : within R (test r m) s.
Proof. unfold test. framed. Qed.
Hint Resolve within_test : sdframe.

Lemma within_update R `{!PreOrder R} r f s : within R (update r f) s.
Proof. unfold update. framed. Qed.

Lemma within_inhibited R `{!PreOrder R} i s : within R (inhibited i) s.
Proof. unfold inhibited. framed. Qed.

Lemma within_poll R `{!PreOrder R} cond us : (forall s, within R cond s) -> forall n count s, within R (poll n count cond us) s.
Proof. intros Hc. induction n as [|n IH]; intros count s; cbn [poll]; framed; auto. Qed.

Lemma within_poll_pre R `{!PreOrder R} cond us : (forall s, within R cond s) -> forall n count s,
  1 <= count <= Z.of_nat n + 1 -> within R (poll_pre n count cond us) s.
Proof.
  intros Hc. induction n as [|n IH]; intros count s Hn; cbn [poll_pre]; (apply within_bind; [done | auto |]); intros [] s1 _;
    try by framed.
  - replace (count - 1 =? 0) with true by lia. framed.
  - destruct (Z.eqb_spec (count - 1) 0); [framed |]. apply within_bind; [done | framed |]. intros _ s2 _. apply IH. lia.
Qed.

Lemma within_poll_up R `{!PreOrder R} cond us max : (forall s, within R cond s) -> forall n count s,
  max <= count + Z.of_nat n -> within R (poll_up n count max cond us) s.
Proof.
  intros Hc. induction n as [|n IH]; intros count s Hn; cbn [poll_up]; (apply within_bind; [done | auto |]); intros [] s1 _;
    try by framed.
  - replace (count + 1 <? max) with false by lia. framed.
  - apply within_if; [| framed]. apply within_bind; [done | framed |]. intros _ s2 _. apply IH. lia.
Qed.
End loops.
#[export] Hint Resolve within_test within_update within_inhibited : sdframe.

(** * Commands *)

Section commands.
Context {D : Type} `{Mmio D}.
Implicit Types s : sd D.

Lemma within_wait_interrupt R `{!PreOrder R} mask s : within R (sdWaitForInterrupt mask) s.
Proof.
  unfold sdWaitForInterrupt. apply within_bind; [done | apply within_poll; [done |]; intros s'; framed |].
  intros count s1 _. framed.
Qed.
Hint Resolve within_wait_interrupt : sdframe.

Lemma within_wait_command R `{!PreOrder R} s : within R sdWaitForCommand s.
Proof.
  unfold sdWaitForCommand. apply within_bind; [done | apply within_poll; [done |]; framed |]. intros count s1 _. framed.
Qed.
Hint Resolve within_wait_command : sdframe.

Lemma within_wait_data R `{!PreOrder R} s : within R sdWaitForData s.
Proof.
  unfold sdWaitForData. apply within_bind; [done | apply within_poll_up; [done | framed | lia] |]. intros count s1 _. framed.
Qed.
Hint Resolve within_wait_data : sdframe.

(** The types of response that the code knows; R2S is the response to SEND_CSD. *)
Definition known (resp : Z) : bool := bool_decide (resp ∈ [RESP_NO; RESP_R1; RESP_R1b; RESP_R2I; RESP_R3; RESP_R6; RESP_R7]).

Lemma within_response resp arg r0 s : known resp = true -> within settled (handle_response resp arg r0) s.
Proof.
  intros Hk%bool_decide_eq_true. unfold handle_response.
  repeat (apply elem_of_cons in Hk as [-> | Hk]; [cbn [Z.eqb Pos.eqb orb RESP_NO RESP_R1 RESP_R1b RESP_R2I RESP_R2S RESP_R3 RESP_R6 RESP_R7]; framed |]).
  by apply elem_of_nil in Hk.
Qed.

Lemma within_csd arg r0 s : within steady (handle_response RESP_R2S arg r0) s.
Proof. unfold handle_response. cbn [Z.eqb Pos.eqb orb RESP_NO RESP_R1 RESP_R1b RESP_R2I RESP_R2S RESP_R3 RESP_R6 RESP_R7]. framed. Qed.

(** A command that succeeds has been noted. *)
Lemma send_noted R `{!PreOrder R} index arg s :
  (forall c, R c (set_lastCmd (Some index) c)) -> (forall c x, R c (set_lastArg x c)) ->
  (forall arg r0 s', within R (handle_response (resp (nth_command index)) arg r0) s') ->
  (forall c c', R c c' -> is_Some (lastCmd c) -> is_Some (lastCmd c')) ->
  wp no_panic (sdSendCommandP index arg) (fun r s' => R (sdCard s) (sdCard s') /\ (r = 0 -> is_Some (lastCmd (sdCard s')))) s.
Proof.
  intros Hcmd Harg Hresp Hlast. unfold sdSendCommandP. apply wp_bind. wp_use (within_wait_command R s). intros w s1 H1.
  destruct (w =? 0); cbn [negb]; [| by apply wp_ret].
  unfold modify_card. apply wp_bind, wp_modify, wp_bind, wp_modify. set (s2 := set_sdCard _ _).
  assert (H2 : R (sdCard s) (sdCard s2)).
  { transitivity (sdCard s1); [done |]. transitivity (set_lastCmd (Some index) (sdCard s1)); [by apply Hcmd | apply Harg]. }
  assert (Hrest : forall c : M (sd D) Z, within R c s2 -> wp no_panic c (fun r s' => R (sdCard s) (sdCard s') /\ (r = 0 -> is_Some (lastCmd (sdCard s')))) s2).
  { intros c Hc. wp_use Hc. intros r s3 H3. split; [by transitivity (sdCard s2) |]. intros _. apply (Hlast _ _ H3). by eexists. }
  apply Hrest. framed.
Qed.

Lemma send_settled index arg s : known (resp (nth_command index)) = true ->
  wp no_panic (sdSendCommandP index arg) (fun r s' => settled (sdCard s) (sdCard s') /\ (r = 0 -> is_Some (lastCmd (sdCard s')))) s.
Proof.
  intros Hk. apply send_noted; [typeclasses eauto | by intros c; split | by intros c x; split | | by intros c c' [[] _]].
  intros ? r0 s'. by apply within_response.
Qed.

Lemma send_csd arg s :
  wp no_panic (sdSendCommandP IX_SEND_CSD arg) (fun r s' => steady (sdCard s) (sdCard s') /\ (r = 0 -> is_Some (lastCmd (sdCard s')))) s.
Proof.
  apply send_noted; [typeclasses eauto | by intros c; split | by intros c x; split | | by intros c c' []].
  intros ? r0 s'. apply within_csd.
Qed.

Lemma within_send index arg s : known (resp (nth_command index)) = true -> within settled (sdSendCommandP index arg) s.
Proof. intros Hk. wp_use (send_settled index arg s Hk). by intros r s' []. Qed.

Lemma within_debug R `{!PreOrder R} r s : is_Some (lastCmd (sdCard s)) -> within R (sdDebugResponse r) s.
Proof.
  intros [x Hx]. unfold sdDebugResponse, within, card. wp_steps. rewrite Hx. change (within R (rd EMMC_RESP3;; rd EMMC_RESP2;; rd EMMC_RESP1;;
    rd EMMC_RESP0;; rd EMMC_STATUS;; rd EMMC_CONTROL1;; rd EMMC_INTERRUPT;; mret r) s). framed.
Qed.

Lemma within_app s : is_Some (lastCmd (sdCard s)) -> within settled sdSendAppCommand s.
Proof.
  intros Hl. unfold sdSendAppCommand. apply within_bind; [typeclasses eauto | framed |]. intros c s1 [[_ _ _ _ H1] _]. apply within_if.
  - apply within_bind; [typeclasses eauto | by apply within_send | framed].
  - apply within_bind; [typeclasses eauto | by apply within_send |]. intros r s2 [[_ _ _ _ H2] _].
    apply within_if; [apply within_debug; [typeclasses eauto | auto] | framed].
Qed.

(** Commands with the prefix and the check of an APP command. *)
Lemma prefix_plain index k Q s : index < IX_APP_CMD_START -> wp no_panic k Q s -> wp no_panic (app_prefix index k) Q s.
Proof. intros Hi Hk. unfold app_prefix. replace (index >=? IX_APP_CMD_START) with false by lia. by apply wp_bind, wp_ret. Qed.

Lemma within_prefix index k s : is_Some (lastCmd (sdCard s)) ->
  (forall s', settled (sdCard s) (sdCard s') -> within settled k s') -> within settled (app_prefix index k) s.
Proof.
  intros Hl Hk. unfold app_prefix. apply within_bind; [typeclasses eauto | |].
  - apply within_if; [by apply within_app | framed].
  - intros r s1 H1. apply within_if; [| auto]. apply within_debug; [typeclasses eauto |].
    destruct H1 as [[_ _ _ _ H1] _]. auto.
Qed.

Lemma within_check R `{!PreOrder R} index r s : within R (app_check index r) s.
Proof. unfold app_check. framed. Qed.

Lemma within_command index s : is_Some (lastCmd (sdCard s)) -> known (resp (nth_command index)) = true ->
  within settled (sdSendCommand index) s.
Proof.
  intros Hl Hk. apply within_prefix; [done |]. intros s' _. apply within_bind; [typeclasses eauto | framed |]. intros c s1 _.
  apply within_bind; [typeclasses eauto | by apply within_send |]. intros r s2 _. apply within_if; [framed | apply within_check, _].
Qed.

Lemma within_command_arg index arg s : is_Some (lastCmd (sdCard s)) -> known (resp (nth_command index)) = true ->
  within settled (sdSendCommandA index arg) s.
Proof.
  intros Hl Hk. apply within_prefix; [done |]. intros s' _.
  apply within_bind; [typeclasses eauto | by apply within_send |]. intros r s2 _. apply within_if; [framed | apply within_check, _].
Qed.

(** SEND_CSD and GO_IDLE_STATE are not APP commands. *)
Lemma within_send_csd s : within steady (sdSendCommand IX_SEND_CSD) s.
Proof.
  apply prefix_plain; [done |]. apply (within_bind steady); [framed |]. intros c s1 _.
  apply (within_bind steady); [wp_use send_csd; by intros r s' [] |]. intros r s2 _. apply within_if; [framed | apply within_check, _].
Qed.

Lemma go_idle s : wp no_panic (sdSendCommand IX_GO_IDLE_STATE)
  (fun r s' => settled (sdCard s) (sdCard s') /\ (r = 0 -> is_Some (lastCmd (sdCard s')))) s.
Proof.
  apply prefix_plain; [done |]. unfold card. wp_steps. wp_use (send_settled IX_GO_IDLE_STATE 0 s); [done |].
  intros r s1 [H1 Hr]. destruct (Z.eqb_spec r 0) as [->|]; cbn [negb]; [| by apply wp_ret].
  unfold app_check, card. wp_steps. by apply wp_ret.
Qed.
End commands.
#[export] Hint Resolve within_wait_interrupt within_wait_command within_wait_data within_check : sdframe.

(** * The steps of the initialisation *)

Section steps.
Context {D : Type} `{Mmio D}.
Implicit Types s : sd D.

Lemma within_read_scr fuel : forall numRead count s, 0 <= numRead -> 0 < count ->
  Z.max 0 (2 - numRead) + count <= Z.of_nat fuel -> within settled (read_scr fuel numRead count) s.
Proof.
  induction fuel as [|fuel IH]; intros numRead count s Hn Hc Hf; cbn [read_scr]; destruct (Z.ltb_spec numRead 2); try by framed.
  - lia.
  - apply within_bind; [typeclasses eauto | framed |]. intros b s1 _. apply within_if.
    + apply within_bind; [typeclasses eauto | framed |]. intros v s2 _.
      apply within_bind; [typeclasses eauto | framed |]. intros [] s3 _. apply IH; lia.
    + apply within_bind; [typeclasses eauto | framed |]. intros [] s2 _.
      destruct (Z.eqb_spec (count - 1) 0); [framed | apply IH; lia].
Qed.

Lemma within_supports flag supp s : within settled (supports flag supp) s.
Proof. unfold supports. apply within_modify_card. case_match; by split. Qed.
Hint Resolve within_supports : sdframe.

Lemma settled_last c c' : settled c c' -> is_Some (lastCmd c) -> is_Some (lastCmd c').
Proof. by intros [[] _]. Qed.

Lemma settled_init c c' : settled c c' -> card_init c = 0 -> card_init c' = 0.
Proof. intros [[_ _ _ E _] _] Hc. by rewrite E. Qed.

Lemma within_scr s : is_Some (lastCmd (sdCard s)) -> within settled sdReadSCR s.
Proof.
  intros Hl. unfold sdReadSCR. apply within_bind; [typeclasses eauto | framed |]. intros w s1 H1. apply within_if; [framed |].
  apply within_bind; [typeclasses eauto | framed |]. intros [] s2 H2.
  assert (Hl2 : is_Some (lastCmd (sdCard s2))) by (eapply settled_last; [done |]; by eapply settled_last).
  apply within_bind; [typeclasses eauto | by apply within_command |]. intros r s3 H3.
  assert (Hl3 : is_Some (lastCmd (sdCard s3))) by (by eapply settled_last).
  apply within_if; [apply within_debug; [typeclasses eauto | done] |].
  apply within_bind; [typeclasses eauto | framed |]. intros r' s4 H4.
  apply within_if; [apply within_debug; [typeclasses eauto | by eapply settled_last] |].
  apply within_bind; [typeclasses eauto | apply within_read_scr; lia |]. intros n s5 _. framed.
Qed.

Lemma within_clock R `{!PreOrder R} freq s : within R (sdSetClock freq) s.
Proof.
  unfold sdSetClock. apply within_bind; [done | apply within_poll_pre; [done | framed | lia] |]. intros count s1 _.
  apply within_if; [framed |]. do 2 (apply within_bind; [done | framed | intros [] ? _]).
  apply within_bind; [done | by apply wp_get |]. intros st s2 _.
  do 4 (apply within_bind; [done | framed | intros [] ? _]).
  apply within_bind; [done | apply within_poll; [done |]; intros ?; framed |]. intros n s3 _. framed.
Qed.
Hint Resolve within_clock : sdframe.

(** What a reset leaves: it forgets the type of the card. *)
Record unnamed (c c' : SDDescriptor) : Prop := {
  unnamed_capacity : capacity c' = capacity c;
  unnamed_format : fileFormat c' = fileFormat c;
  unnamed_init : card_init c' = card_init c;
  unnamed_csd : csd c' = csd c
}.
#[local] Instance unnamed_preorder : PreOrder unnamed.
Proof. split; [by intros c; split |]. intros c1 c2 c3 [] []. split; congruence. Qed.

(** The command is noted if the code succeeds. *)
Definition noted (r : Z) (s : sd D) : Prop := r = 0 -> is_Some (lastCmd (sdCard s)).

Lemma noted_bind {A} R `{!PreOrder R} (c : M (sd D) A) (k : A -> M (sd D) Z) s : within R c s ->
  (forall a s1, R (sdCard s) (sdCard s1) -> wp no_panic (k a) (fun r s2 => R (sdCard s1) (sdCard s2) /\ noted r s2) s1) ->
  wp no_panic (c ≫= k) (fun r s2 => R (sdCard s) (sdCard s2) /\ noted r s2) s.
Proof.
  intros Hc Hk. apply wp_bind. wp_use Hc. intros a s1 H1. wp_use (Hk a s1 H1). intros r s2 [H2 Hn].
  split; [by transitivity (sdCard s1) | done].
Qed.

Lemma noted_fails R `{!PreOrder R} (r : Z) s : r <> 0 -> wp no_panic (mret r) (fun r s2 => R (sdCard s) (sdCard s2) /\ noted r s2) s.
Proof. intros Hr. apply wp_ret. split; [reflexivity | by intros ?]. Qed.

Lemma reset_ok resetType s :
  wp no_panic (sdResetCard resetType) (fun r s' => unnamed (sdCard s) (sdCard s') /\ noted r s') s.
Proof.
  unfold sdResetCard. do 3 (apply noted_bind; [typeclasses eauto | framed | intros [] ? _]).
  apply noted_bind; [typeclasses eauto | apply within_poll; [typeclasses eauto |]; intros ?; framed |]. intros n ? _.
  destruct (n <=? 0); [apply noted_fails; [typeclasses eauto | done] |]. do 2 (apply noted_bind; [typeclasses eauto | framed | intros [] ? _]).
  apply noted_bind; [typeclasses eauto | framed |]. intros r ? _. destruct (Z.eqb_spec r 0) as [|Hr]; cbn [negb]; [| apply noted_fails; [typeclasses eauto | done]].
  do 3 (apply noted_bind; [typeclasses eauto | framed | intros [] ? _]).
  wp_use go_idle. intros r' ? [[[] Hc] Hn]. by split.
Qed.

(** ** Operating conditions *)

Lemma within_retry arg n : forall s, is_Some (lastCmd (sdCard s)) -> within settled (retry_op_cond n arg) s.
Proof.
  induction n as [|n IH]; intros s Hl; cbn [retry_op_cond]; (apply within_bind; [typeclasses eauto | framed |]); intros c s1 H1;
    apply within_if; try by framed.
  apply within_bind; [typeclasses eauto | framed |]. intros v s2 H2. apply within_bind; [typeclasses eauto | framed |]. intros [] s3 H3.
  assert (Hl3 : is_Some (lastCmd (sdCard s3))) by (eauto using settled_last).
  apply within_bind; [typeclasses eauto | by apply within_command_arg |]. intros r s4 H4.
  apply within_if; [framed |]. apply IH. by eapply settled_last.
Qed.

Lemma within_op_cond arg s : is_Some (lastCmd (sdCard s)) -> within settled (sdAppSendOpCond arg) s.
Proof.
  intros Hl. unfold sdAppSendOpCond. apply within_bind; [typeclasses eauto | framed |]. intros _ s1 H1.
  assert (Hl1 : is_Some (lastCmd (sdCard s1))) by (by eapply settled_last).
  apply within_bind; [typeclasses eauto | by apply within_command_arg |]. intros r s2 H2. apply within_if; [framed |].
  apply within_bind; [typeclasses eauto | apply within_retry; by eapply settled_last |]. intros [r'|] s3 _; framed.
Qed.
End steps.

(** * sdInit *)

(** The firmware behind the mailbox: the status bit [bit] is clear within [n] reads, in a
    state where [K] holds. *)
Fixpoint clears {D} `{Mmio D} (bit : Z) (n : nat) (K : D -> Prop) (d : D) : Prop :=
  match n with
  | O => False
  | S n' => if any_bit (fst (reg_get MBOX_STATUS d)) bit then clears bit n' K (snd (reg_get MBOX_STATUS d)) else K (snd (reg_get MBOX_STATUS d))
  end.

(** It takes a message and answers it on the channel of the message, each within [fuel]
    reads of the status. *)
Definition firmware {D} `{Mmio D} (fuel : nat) : Prop := forall d v,
  clears MBOX_FULL fuel (fun d1 => clears MBOX_EMPTY fuel (fun d2 => Z.land (fst (reg_get MBOX_READ d2)) 0xF = 8) (reg_put MBOX_WRITE v d1)) d.

(** What is known of a card that is marked as initialised. *)
Definition identified (c : SDDescriptor) : Prop :=
  card_type c ∈ [SD_TYPE_1; SD_TYPE_2_SC; SD_TYPE_2_HC] /\ capacity c = csd_capacity (csd c) /\
  (fileFormat c = CSD3VN_FILE_FORMAT_DOSFAT \/ fileFormat c = CSD3VN_FILE_FORMAT_HDD).

Section sdinit.
Context {D : Type} `{Mmio D}.
Context (fuel : nat) (box : Z) (Hbox : Z.land box 0xF = 0) (Hfirmware : firmware (D := D) fuel).
Implicit Types s : sd D.

Lemma wait_while_ok bit K n : forall s, clears bit n K (dev s) ->
  wp no_panic (wait_while n (test MBOX_STATUS bit)) (fun _ s' => K (dev s') /\ sdCard s' = sdCard s) s.
Proof.
  induction n as [|n IH]; intros s Hc; cbn in Hc; [done |]. cbn [wait_while]. apply wp_bind. unfold test. apply wp_bind.
  unfold rd. wp_steps. destruct (reg_get MBOX_STATUS (dev s)) as [v d]. cbn in Hc. wp_steps.
  destruct (any_bit v bit); [| by apply wp_ret]. wp_use (IH (set_dev d s)); [done |]. done.
Qed.

Lemma within_mailbox R `{!PreOrder R} words s : within R (mbox_call fuel box words) s.
Proof.
  unfold mbox_call. unfold within. apply wp_bind, wp_assert; [by rewrite Hbox |]. apply wp_bind, wp_modify, wp_bind.
  unfold mbox_write. apply wp_bind, wp_assert.
  { change 0xF with (Z.ones 4) in *. unfold u32. rewrite Z.land_ones in * by lia.
    rewrite <- Znumtheory.Zmod_div_mod; [by rewrite Hbox | lia | lia |]. by exists (2 ^ 28). }
  set (s1 := set_dev _ s). apply wp_bind.
  wp_use (wait_while_ok _ _ fuel s1 (Hfirmware (dev s1) (Z.lor (Z.land (u32 box) (u32 (Z.lnot 0xF))) 8))).
  intros [] s2 [Hk Hs2]. unfold wr. apply wp_modify, wp_bind. unfold mbox_read.
  set (s3 := set_dev _ s2). assert (Hs3 : sdCard s3 = sdCard s) by done.
  destruct fuel as [|f] eqn:Ef; [done |]. cbn [mbox_read_loop]. rewrite <- Ef in *. apply wp_bind.
  wp_use (wait_while_ok _ _ fuel s3 Hk). intros [] s4 [Hr Hs4]. unfold rd. apply wp_bind. wp_steps.
  destruct (reg_get MBOX_READ (dev s4)) as [v d]. cbn in Hr. wp_steps. rewrite Hr. cbn. wp_steps.
  change (sdCard (set_dev d s4)) with (sdCard s4). by rewrite Hs4, Hs3.
Qed.

Lemma within_base_clock R `{!PreOrder R} s : within R (sdGetBaseClock fuel box) s.
Proof.
  unfold sdGetBaseClock, mbox_get_clock_rate. apply within_bind; [done | apply within_bind; [done | by apply within_mailbox | framed] |].
  intros r s1 _. apply within_bind; [done | by apply wp_modify |]. intros [] s2 _. framed.
Qed.

Lemma within_gpio R `{!PreOrder R} s : within R sdInitGPIO s.
Proof. unfold sdInitGPIO, pull_up. framed. Qed.

(** [if ((resp = c)) return sdDebugResponse(resp);] while the card is not initialised. *)
Lemma debug_step R (Q : Z -> sd D -> Prop) c k s : within R c s ->
  (forall s', R (sdCard s) (sdCard s') -> card_init (sdCard s') = 0 /\ is_Some (lastCmd (sdCard s'))) ->
  (forall r s', card_init (sdCard s') = 0 -> Q r s') ->
  (forall s', R (sdCard s) (sdCard s') -> wp no_panic k Q s') -> wp no_panic (or_debug c k) Q s.
Proof.
  intros Hc HR HQ Hk. unfold or_debug. apply wp_bind. wp_use Hc. intros r s1 H1. destruct (HR s1 H1) as [Hi Hl].
  destruct (negb (r =? 0)); [| auto]. wp_use (within_debug settled r s1 Hl). intros r' s2 [[_ _ _ Hi2 _] _]. apply HQ. congruence.
Qed.

(** The outcome of the initialisation. *)
Definition outcome_ok (r : Z) (s : sd D) : Prop :=
  card_init (sdCard s) = 0 \/ (identified (sdCard s) /\ (r = SD_CARD_REINSERTED \/ r = SD_CARD_CHANGED)).

(** A card that is being initialised. *)
Definition nascent (c : SDDescriptor) : Prop :=
  card_init c = 0 /\ is_Some (lastCmd c) /\ card_type c ∈ [SD_TYPE_1; SD_TYPE_2_SC; SD_TYPE_2_HC].

Lemma nascent_steady c c' : nascent c -> steady c c' -> nascent c'.
Proof. intros (Hi & Hl & Ht) [_ _ Et Ei El]. split; [congruence |]. split; [auto |]. by rewrite Et. Qed.

Lemma identified_settled c c' : identified c -> settled c c' -> identified c'.
Proof. intros (Ht & Hc & Hf) [[Ec Ef Et _ _] Es]. unfold identified. by rewrite Et, Ec, Ef, Es. Qed.

Lemma nascent_step R c k s : nascent (sdCard s) -> within R c s -> (forall x y, R x y -> steady x y) ->
  (forall s', R (sdCard s) (sdCard s') -> nascent (sdCard s') -> wp no_panic k outcome_ok s') -> wp no_panic (or_debug c k) outcome_ok s.
Proof.
  intros Hn Hc HR Hk. apply (debug_step R); [done | | by left |].
  - intros s' Hs'. destruct (nascent_steady _ _ Hn (HR _ _ Hs')) as (? & ? & _). done.
  - intros s' Hs'. apply Hk; [done |]. eapply nascent_steady; eauto.
Qed.

Lemma identify_ok old s : nascent (sdCard s) -> wp no_panic (sdIdentify old) outcome_ok s.
Proof.
  intros Hn. unfold sdIdentify.
  assert (Hss : forall x y, settled x y -> steady x y) by (by intros x y []).
  apply (nascent_step settled); [done | apply within_command; [apply Hn | done] | done |]. intros sA _ HA. clear s Hn. rename sA into s, HA into Hn.
  apply (nascent_step settled); [done | apply within_command; [apply Hn | done] | done |]. intros sA _ HA. clear s Hn. rename sA into s, HA into Hn.
  apply (nascent_step steady); [done | apply within_send_csd | done |]. intros sA _ HA. clear s Hn. rename sA into s, HA into Hn.
  unfold sdParseCSD, modify_card, card. apply wp_bind, wp_modify. set (s1 := set_sdCard _ s).
  assert (Hn1 : nascent (sdCard s1)) by (by destruct Hn). apply wp_bind, wp_bind, wp_get, wp_ret.
  destruct (negb (fileFormat (sdCard s1) =? CSD3VN_FILE_FORMAT_DOSFAT) && negb (fileFormat (sdCard s1) =? CSD3VN_FILE_FORMAT_HDD)) eqn:Ef.
  { apply wp_ret. left. apply Hn1. }
  assert (Hid : identified (sdCard s1)).
  { split; [apply Hn1 |]. split; [done |]. apply andb_false_iff in Ef as [Ef%negb_false_iff%Z.eqb_eq | Ef%negb_false_iff%Z.eqb_eq]; auto. }
  generalize dependent s1. clear s Hn. intros s Hn _ Hid.
  apply (nascent_step settled); [done | apply within_clock; typeclasses eauto | done |]. intros s1 E1 Hn1.
  pose proof (identified_settled _ _ Hid E1) as Hid1. clear s Hn Hid E1.
  apply (nascent_step settled); [done | apply within_command; [apply Hn1 | done] | done |]. intros s2 E2 Hn2.
  pose proof (identified_settled _ _ Hid1 E2) as Hid2. clear s1 Hn1 Hid1 E2.
  apply (nascent_step settled); [done | apply within_scr, Hn2 | done |]. intros s3 E3 Hn3.
  pose proof (identified_settled _ _ Hid2 E3) as Hid3. clear s2 Hn2 Hid2 E3.
  apply (nascent_step settled); [done | | done |].
  { apply within_bind; [typeclasses eauto | framed |]. intros c s4 E4. apply within_if; [| framed].
    apply within_bind; [typeclasses eauto | apply within_command_arg; [eapply settled_last; [done | apply Hn3] | done] |].
    intros r s5 _. framed. }
  intros s4 E4 Hn4. pose proof (identified_settled _ _ Hid3 E4) as Hid4. clear s3 Hn3 Hid3 E4.
  apply (nascent_step settled); [done | apply within_command_arg; [apply Hn4 | done] | done |]. intros s5 E5 Hn5.
  pose proof (identified_settled _ _ Hid4 E5) as Hid5. unfold sdParseCID, card.
  apply wp_bind, wp_bind, wp_bind, wp_get, wp_ret, wp_ret, wp_bind, wp_modify, wp_bind, wp_bind, wp_get, wp_ret, wp_ret.
  right. split; [by destruct Hid5 |]. case_match; auto.
Qed.

(** The operating conditions are agreed on, and the type of the card is set. *)
Lemma op_cond_step arg (f : SDDescriptor -> Z) k s :
  card_init (sdCard s) = 0 -> is_Some (lastCmd (sdCard s)) ->
  (forall c, f c ∈ [SD_TYPE_1; SD_TYPE_2_SC; SD_TYPE_2_HC]) ->
  (forall s', nascent (sdCard s') -> wp no_panic k outcome_ok s') ->
  wp no_panic (or_debug (sdAppSendOpCond arg) (c ← card; modify_card (set_card_type (f c));; k)) outcome_ok s.
Proof.
  intros Hi Hl Hf Hk. apply (debug_step settled); [by apply within_op_cond | | by left |].
  - intros s' Es. split; [by eapply settled_init | by eapply settled_last].
  - intros s' Es. unfold card, modify_card. wp_steps. apply Hk. split; [exact (settled_init _ _ Es ltac:(done)) |].
    split; [exact (settled_last _ _ Es Hl) | apply Hf].
Qed.

Lemma resolve_ok k s : card_init (sdCard s) = 0 -> is_Some (lastCmd (sdCard s)) ->
  (forall s', nascent (sdCard s') -> wp no_panic k outcome_ok s') -> wp no_panic (sdResolveType k) outcome_ok s.
Proof.
  intros Hi Hl Hk. unfold sdResolveType. apply wp_bind. wp_use (within_command_arg IX_SEND_IF_COND 0x000001AA s Hl); [done |].
  intros r s1 E1. cbn beta in E1. assert (Hl1 : is_Some (lastCmd (sdCard s1))) by (by eapply settled_last).
  assert (Hi1 : card_init (sdCard s1) = 0) by (by eapply settled_init).
  destruct (r =? SD_OK).
  - unfold delay. apply wp_bind, wp_modify. apply (op_cond_step _ (fun c => if any_bit (ocr c) R3_CCS then SD_TYPE_2_HC else SD_TYPE_2_SC)); [done | done | | done].
    intros c. case_match; set_solver.
  - destruct (r =? SD_BUSY); [apply wp_ret; by left |]. apply wp_bind.
    wp_use (within_test settled EMMC_STATUS SR_CMD_INHIBIT s1). intros b s2 E2. cbn beta in E2. unfold or_return. apply wp_bind.
    assert (Hreset : wp no_panic (if b then sdResetCard C1_SRST_HC else mret SD_OK)
      (fun r s' => card_init (sdCard s') = 0 /\ (r = 0 -> is_Some (lastCmd (sdCard s')))) s2).
    { destruct b.
      - wp_use reset_ok. intros r' s3 [[_ _ E _] Hn]. split; [| done]. rewrite E. by eapply settled_init.
      - apply wp_ret. split; [by eapply settled_init |]. intros _. by eapply settled_last. }
    wp_use Hreset. intros r' s3 [Hi3 Hl3]. destruct (Z.eqb_spec r' 0) as [->|]; cbn [negb]; [| apply wp_ret; by left].
    apply (debug_step settled); [apply within_op_cond; auto | | by left |].
    + intros s' Es. split; [by eapply settled_init | eapply settled_last; eauto].
    + intros s' Es. unfold modify_card. apply wp_bind, wp_modify. apply Hk. split; [exact (settled_init _ _ Es ltac:(done)) |].
      split; [exact (settled_last _ _ Es (Hl3 eq_refl)) | cbn; set_solver].
Qed.

(** From the host version on. *)
Lemma probe_ok old s : card_init (sdCard s) = 0 ->
  wp no_panic (v ← rd EMMC_SLOTISR_VER;
    modify (set_sdHostVer (Z.shiftr (Z.land v HOST_SPEC_NUM) HOST_SPEC_NUM_SHIFT));;
    or_return (sdGetBaseClock fuel box) (
    or_return (sdResetCard C1_SRST_HC) (
    sdResolveType (
    c ← card;
    or_return (if any_bit (ocr c) R3_S18A then sdSwitchVoltage else mret SD_OK) (
    sdIdentify old))))) outcome_ok s.
Proof.
  intros Hi. apply wp_bind. wp_use (within_rd eq EMMC_SLOTISR_VER s). intros v s1 E1. apply wp_bind, wp_modify.
  unfold or_return at 1. set (s2 := set_sdHostVer _ s1). apply wp_bind. wp_use (within_base_clock eq s2). intros r s3 E3.
  cbn beta in E1, E3. change (sdCard s2) with (sdCard s1) in E3.
  destruct (negb (r =? 0)); [apply wp_ret; left; by rewrite <- E3, <- E1 |].
  unfold or_return at 1. apply wp_bind. wp_use reset_ok. intros r' s4 [[_ _ Ei _] Hn].
  assert (Hi4 : card_init (sdCard s4) = 0) by (by rewrite Ei, <- E3, <- E1).
  destruct (Z.eqb_spec r' 0) as [->|]; cbn [negb]; [| apply wp_ret; by left].
  apply resolve_ok; [done | by apply Hn |]. intros s5 H5. unfold card. apply wp_bind, wp_bind, wp_get, wp_ret.
  unfold or_return, sdSwitchVoltage. apply wp_bind. destruct (any_bit _ _); apply wp_ret; by apply identify_ok.
Qed.

Lemma sdInit_ok s : wp no_panic (sdInit fuel box)
  (fun r s' => outcome_ok r s' \/ (r = SD_OK /\ card_init (sdCard s) <> 0 /\ sdCard s' = set_absent 0 (sdCard s))) s.
Proof.
  unfold sdInit, card at 1 2 3. apply wp_bind, wp_bind, wp_get, wp_ret, wp_bind.
  assert (Hg : within eq (if card_init (sdCard s) =? 0 then sdInitGPIO else mret tt) s).
  { apply within_if; [apply within_gpio; typeclasses eauto | framed]. }
  wp_use Hg. intros [] s1 E1. apply wp_bind. wp_use (within_rd eq GPEDS1 s1). intros v s2 E2. cbn beta in E1, E2. rewrite <- E1 in E2.
  unfold modify_card at 1 2. apply wp_bind, wp_modify, wp_bind, wp_bind, wp_get, wp_ret. set (s3 := set_sdCard _ s2).
  assert (E3 : sdCard s3 = set_absent 0 (sdCard s)) by (unfold s3; cbn; by rewrite E2).
  apply wp_bind. destruct (any_bit v _ && negb (card_init (sdCard s3) =? 0)).
  - apply wp_bind, wp_modify, wp_ret, wp_bind, wp_bind, wp_get, wp_ret.
    eapply wp_mono; [by apply probe_ok |]. by left.
  - apply wp_ret, wp_bind, wp_bind, wp_get, wp_ret. destruct (Z.eqb_spec (card_init (sdCard s3)) 0) as [E0|E0]; cbn [negb].
    + eapply wp_mono; [by apply probe_ok |]. by left.
    + apply wp_ret. right. split; [done |]. rewrite E3 in E0. done.
Qed.
End sdinit.

(** * Theorems *)

(** C23: sdInit ends on any controller, card and pins, whatever their registers read, as
    long as the firmware answers the mailbox: it never waits for ever, never reads the name
    of a last command that is not there, and never panics.  Either the card is
    left marked as not initialised, and sd_init stops at its assertion; or it was
    initialised before and still is; or it has been identified:
    its type is one of the three known ones, its capacity is that of
    its CSD and its file format is one that is supported, and the result is one of
    the two codes for a fresh card, which are not zero (the comment above sdInit says that zero
    is returned when the initialisation was successful; sd_init ignores the result). *)
Theorem sdInit_identifies {D} `{Mmio D} fuel box (s : sd D) :
  Z.land box 0xF = 0 -> firmware (D := D) fuel ->
  exists r s', sdInit fuel box s = Ret (r, s') /\
    (card_init (sdCard s') = 0 \/
     (r = SD_OK /\ card_init (sdCard s) <> 0 /\ sdCard s' = set_absent 0 (sdCard s)) \/
     (identified (sdCard s') /\ (r = SD_CARD_REINSERTED \/ r = SD_CARD_CHANGED))).
Proof.
  intros Hb Hf. destruct (wp_returns _ _ _ (sdInit_ok fuel box Hb Hf s)) as (r & s' & He & Hr).
  exists r, s'. split; [done |]. unfold outcome_ok in Hr. tauto.
Qed.

(** A card of type 2 that takes block numbers: the device is the last command. *)
Module Card.
Definition last_get (r : reg) (d : Z) : Z * Z :=
  (match r with
   | EMMC_INTERRUPT => Z.lor INT_CMD_DONE INT_READ_RDY
   | EMMC_STATUS => SR_READ_AVAILABLE
   | EMMC_CONTROL1 => C1_CLK_STABLE
   | EMMC_RESP3 => 0x00400000
   | EMMC_RESP1 => 0x00770000
   | EMMC_RESP0 =>
       if d =? code (nth_command IX_SEND_IF_COND) then 0x000001AA
       else if d =? code (nth_command IX_APP_SEND_OP_COND) then Z.lor (Z.lor R3_COMPLETE R3_CCS) ACMD41_VOLTAGE
       else if d =? code (nth_command IX_SEND_REL_ADDR) then Z.lor 0x12340000 ST_APP_CMD
       else ST_APP_CMD
   | MBOX_READ => 8
   | _ => 0
   end, d).
#[export] Instance last_mmio : Mmio Z := {|
  reg_get := last_get;
  reg_put := fun r v d => match r with EMMC_CMDTM => v | _ => d end;
  elapse := fun _ d => d;
  spin := fun _ d => d;
  shared_get := fun _ => replicate 36 0;
  shared_put := fun _ d => d
|}.
Definition fresh : sd Z :=
  mkSd 0 (mkCard 0 [0;0;0;0] [0;0;0;0] [0;0] 0 0 0 0 0 0 0 0 0 0 None 0) 0 0 ∅ init_spinlock [] false.
End Card.
Import Card.

Lemma sdInit_identifies_witness : exists r s', sdInit 1 0x1000 fresh = Ret (r, s') /\
  (card_init (sdCard s') = 0 \/
   (r = SD_OK /\ card_init (sdCard fresh) <> 0 /\ sdCard s' = set_absent 0 (sdCard fresh)) \/
   (identified (sdCard s') /\ (r = SD_CARD_REINSERTED \/ r = SD_CARD_CHANGED))).
Proof. apply (sdInit_identifies 1 0x1000 fresh); done. Defined.

(** On this card the initialisation succeeds. *)
Example fresh_card_found :
  match sdInit 1 0x1000 fresh with
  | Ret (r, s') => (r, card_init (sdCard s'), card_type (sdCard s'), capacity (sdCard s'))
  | _ => (0, 0, 0, 0)
  end = (SD_CARD_CHANGED, 1, SD_TYPE_2_HC, 30465 * 512 * 1024).
Proof. vm_compute. reflexivity. Qed.

(** ** The clock *)

(** The divisor that CONTROL1 holds: its low eight bits at bit 8 and, from version 3 of the
    host specification on, its high two bits at bit 6. *)
Definition divisor_field (v : Z) : Z := Z.lor (Z.land (Z.shiftr v 8) 0xff) (Z.shiftl (Z.land (Z.shiftr v 6) 3) 8).
Definition CLOCK_FIELD : Z := 0xffc0.

(** The bits that sdGetClockDivider makes of a divisor of ten bits. *)
Definition divisor_bits (d : Z) : Z := u32 (u32 (Z.shiftl (Z.land d 0x0ff) 8) + Z.shiftr (Z.land d 0x300) 2).

Lemma divisor_bits_field d : 0 <= d < 1024 -> divisor_field (divisor_bits d) = d /\ Z.land (divisor_bits d) (Z.lnot CLOCK_FIELD) = 0.
Proof.
  intros Hd.
  assert (Hall : forallb (fun n => let d := Z.of_nat n in
    (divisor_field (divisor_bits d) =? d) && (Z.land (divisor_bits d) (Z.lnot CLOCK_FIELD) =? 0)) (seq 0 1024) = true) by (vm_compute; done).
  rewrite forallb_forall in Hall. specialize (Hall (Z.to_nat d)). rewrite in_seq, Z2Nat.id in Hall by lia.
  apply andb_true_iff in Hall as [H1%Z.eqb_eq H2%Z.eqb_eq]; [done | lia].
Qed.

(** C36: the clock never runs faster than asked.  On hosts of version 3, for every
    frequency that a divisor of ten bits can give, the value that sdGetClockDivider computes
    lies in the clock field of CONTROL1, and the clock of the card, the base
    clock over twice the divisor in that field, is at most the frequency and, where the divisor
    is not the least one of 2, more than a quarter of it; on older hosts this holds of the two
    frequencies that the driver sets. *)
Theorem clock_divider_safe hostVer freq :
  (HOST_SPEC_V2 < hostVer /\ 40691 <= freq <= 41666666) \/ (hostVer <= HOST_SPEC_V2 /\ (freq = FREQ_SETUP \/ freq = FREQ_NORMAL)) ->
  let v := sdGetClockDivider hostVer freq in
  Z.land v (Z.lnot CLOCK_FIELD) = 0 /\ 41666666 <= 2 * divisor_field v * freq /\
  (2 < divisor_field v -> 2 * divisor_field v * freq < 4 * 41666666).
Proof.
  intros [[Hv Hf]|[Hv [-> | ->]]]; unfold sdGetClockDivider.
  - replace (hostVer >? HOST_SPEC_V2) with true by (unfold HOST_SPEC_V2 in *; lia). cbv zeta.
    set (q := 41666666 / freq). assert (Hq : freq * q <= 41666666 < freq * (q + 1)).
    { unfold q. pose proof (Z.mul_div_le 41666666 freq ltac:(lia)). pose proof (Z.mul_succ_div_gt 41666666 freq ltac:(lia)). lia. }
    set (d := if q <=? 2 then 2 else q). assert (Hd : 2 <= d < 1024 /\ q <= d /\ (2 < d -> d = q)).
    { unfold d. destruct (Z.leb_spec q 2); [lia |]. split; [| lia]. nia. }
    fold (divisor_bits d). cbv zeta. destruct (divisor_bits_field d) as [-> ->]; [lia |]. split; [done |]. split; [nia |].
    intros H2. destruct Hd as (_ & _ & Hdq). rewrite Hdq by lia. nia.
  - replace (hostVer >? HOST_SPEC_V2) with false by (unfold HOST_SPEC_V2 in *; lia). vm_compute. intuition discriminate.
  - replace (hostVer >? HOST_SPEC_V2) with false by (unfold HOST_SPEC_V2 in *; lia). vm_compute. intuition discriminate.
Qed.

Lemma clock_divider_safe_witness :
  let v := sdGetClockDivider 3 FREQ_SETUP in
  Z.land v (Z.lnot CLOCK_FIELD) = 0 /\ 41666666 <= 2 * divisor_field v * FREQ_SETUP /\
  (2 < divisor_field v -> 2 * divisor_field v * FREQ_SETUP < 4 * 41666666).
Proof. apply (clock_divider_safe 3 FREQ_SETUP). left. split; [done |]. unfold FREQ_SETUP. lia. Defined.
