(* ===== verification/SdSelfTest.v ===== *)
(** sd_test of driver/sd.c: it writes a pattern to every block of the first megabyte, reads it back
    and restores the block, and then reads and writes all of them as a benchmark.
    On any controller that keeps the laws, its assertions hold and the card is as it was. *)
From S2P Require Import Prelude Bytes CString Locks Sd SdCard SdQueue SdHost SdTransfer SdServe SdTheorems.

(** * The code *)

Definition BSIZE : Z := 512.
Definition sizeof_buf : Z := 528.
Definition n_bufs : Z := Z.shiftl 1 11.

Section code.
Context {D : Type} `{Mmio D} (sdque : Z).
(** The array [b] is at [base]; [asleep] is what happens while the thread sleeps in sdrw. *)
Context (base : Z) (fuel : nat) (asleep : M (sd D) unit) (me : Z).

Definition b_at (i : Z) : Z := base + i * sizeof_buf.

(** [b[k].flags = f; b[k].blockno = no; sdrw(&b[k]);] *)
Definition request (k f no : Z) : M (sd D) unit :=
  update_buf (b_at k) (set_flags f);;
  update_buf (b_at k) (set_blockno (u32 no));;
  sdrw sdque fuel asleep me (b_at k).

Definition pattern (i : Z) : list Z := (fun j => u8 (Z.land (i * Z.of_nat j) 0xFF)) <$> seq 0 512.

Definition check_pattern (i : Z) : M (sd D) unit :=
  b ← load_buf (b_at i);
  for_range 0 512 (fun j => assert (zget (data b) j =? Z.land (i * j) 0xFF) "b[i].data[j] == (i * j & 0xFF)").

Definition sd_test_round (i : Z) : M (sd D) unit :=
  request 0 0 i;;
  update_buf (b_at i) (set_flags B_DIRTY);;
  update_buf (b_at i) (set_blockno (u32 i));;
  update_buf (b_at i) (set_data (pattern i));;
  sdrw sdque fuel asleep me (b_at i);;
  update_buf (b_at i) (set_data (replicate 512 0));;
  update_buf (b_at i) (set_flags 0);;
  sdrw sdque fuel asleep me (b_at i);;
  check_pattern i;;
  update_buf (b_at 0) (set_flags B_DIRTY);;
  sdrw sdque fuel asleep me (b_at 0).

(** The messages and the times are left out. *)
Definition sd_test : M (sd D) unit :=
  assert (negb (Z.shiftr (n_bufs * BSIZE) 20 =? 0)) "mb";;
  for_range 1 (Z.to_nat (n_bufs - 1)) sd_test_round;;
  for_range 0 (Z.to_nat n_bufs) (fun i => request i 0 i);;
  for_range 0 (Z.to_nat n_bufs) (fun i => request i B_DIRTY i).
End code.

(** * The proof *)

Section proof.
Context {D : Type} `{Host D} (sdque base : Z) (fuel : nat) (me : Z).
Context (Hfuel : (0 < fuel)%nat).
(** The array is word-aligned and apart from the head of the queue. *)
Context (Hbase : 0 < base) (Hal : Z.land (base + 8) 3 = 0) (Hque : forall i, 0 <= i < n_bufs -> b_at base i <> sdque).
Context (Hcard : forall i, 0 <= i < n_bufs -> addressable i).
Implicit Types (s : sd D) (σ : server).

Notation at_ := (b_at base).
Notation rw i := (sdrw sdque fuel (sleep_one sdque me) me (at_ i)).

(** The driver is idle, the card holds [B] and every buffer of the array holds a block. *)
Record ready (B : Z -> list Z) σ : Prop := {
  rd_idle : pending σ = [];
  rd_disk : forall m, disk σ m = B m;
  rd_bufs : forall i, 0 <= i < n_bufs -> exists b, objs σ !! at_ i = Some b /\ block_ok (data b)
}.
Definition readied (B : Z -> list Z) (P : server -> Prop) s : Prop := exists σ, serves sdque σ s /\ ready B σ /\ P σ.

Lemma b_at_inj i j : at_ i = at_ j -> i = j.
Proof. unfold b_at, sizeof_buf. lia. Qed.

Lemma b_at_aligned i : Z.land (data_address (at_ i)) 3 = 0.
Proof.
  unfold data_address, b_at, sizeof_buf. change 3 with (Z.ones 2) in *. rewrite Z.land_ones in * by lia. change (2 ^ 2) with 4 in *. dlia.
Qed.

(** A request of an idle driver, exactly. *)
Lemma rw_ok i b σ s : 0 <= i < n_bufs -> serves sdque σ s -> pending σ = [] -> objs σ !! at_ i = Some b ->
  block_ok (data b) -> 0 <= blockno b < n_bufs -> is_done b = false ->
  wp no_panic (rw i) (fun _ s' => serves sdque (complete (submit (at_ i) σ)) s') s.
Proof.
  intros Hi Hs Hp Hb Hok Hno Hnd. unfold sdrw.
  assert (Hout : at_ i ∉ sdque :: pending σ) by (rewrite Hp; intros E%list_elem_of_singleton; exact (Hque i Hi E)).
  assert (Hbuf : buf_ok (at_ i) b) by (split; [apply b_at_aligned | split; [done | by apply Hcard]]).
  assert (Hsub : wp no_panic (flag ← sdrw_enqueue sdque (at_ i); sdrw_start sdque me flag) (fun _ s' => serves sdque (submit (at_ i) σ) s') s).
  { apply submit_ok; try done; [unfold b_at, sizeof_buf in *; change n_bufs with 2048 in *; lia | by exists b]. }
  apply wp_bind. apply wp_bind_inv in Hsub. wp_use Hsub. intros flag s1 Hs1. apply wp_bind. wp_use Hs1. intros [] s2 Hs2.
  wp_use (loop_ok sdque me (at_ i) [] fuel [] (submit (at_ i) σ) s2 b); [done | cbn; by rewrite Hp | done | done | cbn; lia |].
  by intros [] s3 Hs3.
Qed.

(** What it leaves. *)
Lemma complete_ready B i b σ : ready B σ -> 0 <= i < n_bufs -> objs σ !! at_ i = Some b -> block_ok (data b) -> block_ok (B (blockno b)) ->
  let σ' := complete (submit (at_ i) σ) in
  ready (if is_write b then write_block_at (blockno b) (data b) B else B) σ' /\
  (exists b', objs σ' !! at_ i = Some b' /\ data b' = (if is_write b then data b else B (blockno b)) /\ blockno b' = blockno b) /\
  (forall x, x <> at_ i -> objs σ' !! x = objs σ !! x).
Proof.
  intros [Hp Hd Hbs] Hi Hb Hok HB σ'. unfold σ', complete, submit. cbn [pending objs]. rewrite Hp. cbn [app]. rewrite Hb.
  assert (Hoth : forall x c, x <> at_ i -> <[at_ i := c]> (objs σ) !! x = objs σ !! x) by (intros x c Hx; by rewrite lookup_insert_ne).
  assert (Hall : forall c, block_ok (data c) -> forall j, 0 <= j < n_bufs -> exists b', <[at_ i := c]> (objs σ) !! at_ j = Some b' /\ block_ok (data b')).
  { intros c Hc j Hj. destruct (decide (at_ j = at_ i)) as [->|Hne]; [exists c; by rewrite lookup_insert_eq |]. rewrite Hoth by done. by apply Hbs. }
  destruct (is_write b); cbn [disk pending objs]; (split; [split; cbn [disk pending objs] |]); try done.
  - intros m. unfold write_block_at. by rewrite Hd.
  - by apply Hall.
  - split; [| intros x Hx; by apply Hoth]. eexists. by rewrite lookup_insert_eq.
  - apply Hall. cbn [data completed set_flags set_data]. by rewrite Hd.
  - split; [| intros x Hx; by apply Hoth]. eexists. rewrite lookup_insert_eq. split; [done |]. cbn. by rewrite Hd.
Qed.

(** An edit of a buffer. *)
Lemma edit_ready B i b σ : ready B σ -> block_ok (data b) -> ready B (edit (at_ i) b σ).
Proof.
  intros [Hp Hd Hbs] Hb. split; [done | done |]. intros j Hj. cbn. destruct (decide (at_ j = at_ i)) as [->|Hne].
  - exists b. by rewrite lookup_insert_eq.
  - rewrite lookup_insert_ne by done. by apply Hbs.
Qed.

Lemma update_ready B i f b σ s : 0 <= i < n_bufs -> serves sdque σ s -> ready B σ -> objs σ !! at_ i = Some b -> block_ok (data (f b)) ->
  (forall v c, f (set_qnext v c) = set_qnext v (f c)) ->
  wp no_panic (update_buf (at_ i) f) (fun _ s' => serves sdque (edit (at_ i) (f b) σ) s' /\ ready B (edit (at_ i) (f b) σ)) s.
Proof.
  intros Hi Hs Hr Hb Hok Hf. wp_use (edit_ok sdque (at_ i) f b σ s); [done | done | | done |].
  - rewrite (rd_idle _ _ Hr). intros E%list_elem_of_singleton. exact (Hque i Hi E).
  - intros [] s' Hs'. split; [done | by apply edit_ready].
Qed.

(** A transfer of buffer [i] with the contents [b]. *)
Definition moved B i b σ s' : Prop := exists σ' b', serves sdque σ' s' /\
  ready (if is_write b then write_block_at (blockno b) (data b) B else B) σ' /\ objs σ' !! at_ i = Some b' /\
  data b' = (if is_write b then data b else B (blockno b)) /\ blockno b' = blockno b /\ forall x, x <> at_ i -> objs σ' !! x = objs σ !! x.

Lemma rw_ready B i b σ s : (forall m, 0 <= m < n_bufs -> block_ok (B m)) ->
  0 <= i < n_bufs -> serves sdque σ s -> ready B σ -> objs σ !! at_ i = Some b -> block_ok (data b) -> 0 <= blockno b < n_bufs -> is_done b = false ->
  wp no_panic (rw i) (fun _ s' => moved B i b σ s') s.
Proof.
  intros HB Hi Hs Hr Hb Hok Hno Hnd. wp_use (rw_ok i b σ s); [done | done | apply Hr | done.. |]. intros [] s' Hs'.
  destruct (complete_ready B i b σ Hr Hi Hb Hok (HB _ Hno)) as (Hr' & (b' & Hb' & Hd & Hn) & Ho).
  by exists (complete (submit (at_ i) σ)), b'.
Qed.

Lemma request_ok k f no b B σ s : (forall m, 0 <= m < n_bufs -> block_ok (B m)) -> 0 <= k < n_bufs -> 0 <= no < n_bufs -> f = 0 \/ f = B_DIRTY ->
  serves sdque σ s -> ready B σ -> objs σ !! at_ k = Some b -> block_ok (data b) ->
  wp no_panic (request sdque base fuel (sleep_one sdque me) me k f no) (fun _ s' => moved B k (set_blockno no (set_flags f b)) σ s') s.
Proof.
  intros HB Hk Hno Hf Hs Hr Hb Hok. unfold request. apply wp_bind. wp_use (update_ready B k (set_flags f) b σ s); [done.. |].
  intros [] s1 [Hs1 Hr1]. apply wp_bind. assert (Eu : u32 no = no) by (apply u32_small; change n_bufs with 2048 in *; lia). rewrite Eu.
  wp_use (update_ready B k (set_blockno no) (set_flags f b) (edit (at_ k) (set_flags f b) σ) s1); [done | done | done | apply edit_lookup | done | done |].
  intros [] s2 [Hs2 Hr2]. wp_use (rw_ready B k (set_blockno no (set_flags f b)) _ s2 HB Hk Hs2 Hr2); [apply edit_lookup | done | done | by destruct Hf as [->| ->] |].
  intros [] s3 (σ' & b' & Hs3 & Hr3 & Hb3 & Hd & Hn & Ho). exists σ', b'. split_and!; try done.
  intros x Hx. rewrite Ho by done. cbn. by rewrite !lookup_insert_ne.
Qed.

Lemma pattern_ok i : block_ok (pattern i).
Proof.
  split; [unfold pattern; by rewrite length_fmap, length_seq |]. apply Forall_fmap, Forall_forall. intros j _. cbn. unfold is_byte, u8.
  apply Z.mod_pos_bound. lia.
Qed.

Lemma pattern_get i j : 0 <= j < 512 -> zget (pattern i) j = Z.land (i * j) 0xFF.
Proof.
  intros Hj. unfold zget, pattern. rewrite (nth_lookup_Some _ _ 0 (u8 (Z.land (i * j) 0xFF))).
  - unfold u8. change 0xFF with (Z.ones 8). rewrite Z.land_ones by lia. by rewrite Z.mod_mod.
  - rewrite list_lookup_fmap, lookup_seq_lt by lia. cbn. by rewrite Z2Nat.id by lia.
Qed.

Lemma zeros_ok : block_ok (replicate 512 0).
Proof. split; [done | by apply bytes_replicate]. Qed.

Lemma write_ok B m l : block_ok l -> (forall x, 0 <= x < n_bufs -> block_ok (B x)) -> forall x, 0 <= x < n_bufs -> block_ok (write_block_at m l B x).
Proof. intros Hl HB x Hx. unfold write_block_at. destruct (x =? m); [done | by apply HB]. Qed.

Lemma check_ok i b σ s : serves sdque σ s -> objs σ !! at_ i = Some b -> data b = pattern i ->
  wp no_panic (check_pattern base i) (fun _ s' => s' = s) s.
Proof.
  intros ((Hst & _) & _) Hb Hd. destruct (view_lookup _ _ _ _ (stored_view _ _ _ Hst) Hb) as (v & Hv).
  apply wp_bind. eapply wp_load; [exact Hv |]. cbn [data set_qnext]. rewrite Hd.
  wp_use (wp_for_range no_panic (fun _ s' => s' = s)); [| done | done].
  intros j s' Hj ->. apply wp_assert; [| done]. rewrite pattern_get by lia. apply Z.eqb_refl.
Qed.

(** Block [i] holds the pattern; then its old content is written back. *)
Lemma round_ok B i s : (forall m, 0 <= m < n_bufs -> block_ok (B m)) -> 1 <= i < n_bufs -> readied B (fun _ => True) s ->
  wp no_panic (sd_test_round sdque base fuel (sleep_one sdque me) me i) (fun _ s' => readied B (fun _ => True) s') s.
Proof.
  intros HB Hi (σ & Hs & Hr & _). assert (Hz : 0 <= 0 < n_bufs) by (change n_bufs with 2048; lia). assert (Hi' : 0 <= i < n_bufs) by lia.
  assert (Hne : at_ 0 <> at_ i) by (intros ?%b_at_inj; lia).
  destruct (rd_bufs _ _ Hr 0 Hz) as (b0 & Hb0 & Hok0). unfold sd_test_round.
  apply wp_bind. wp_use (request_ok 0 0 i b0 B σ s HB Hz Hi' (or_introl eq_refl) Hs Hr Hb0 Hok0).
  intros [] s1 (σ1 & c0 & Hs1 & Hr1 & Hc0 & Hd0 & Hn0 & Ho1).
  change (is_write (set_blockno i (set_flags 0 b0))) with false in Hr1, Hd0. cbn in Hr1, Hd0, Hn0.
  destruct (rd_bufs _ _ Hr1 i Hi') as (bi & Hbi & Hoki).
  assert (Eu : u32 i = i) by (apply u32_small; change n_bufs with 2048 in *; lia). rewrite Eu.
  apply wp_bind. wp_use (update_ready B i (set_flags B_DIRTY) bi σ1 s1); [done.. |]. intros [] s2 [Hs2 Hr2].
  apply wp_bind. wp_use (update_ready B i (set_blockno i) (set_flags B_DIRTY bi) _ s2 Hi' Hs2 Hr2); [apply edit_lookup | done | done |]. intros [] s3 [Hs3 Hr3].
  apply wp_bind. wp_use (update_ready B i (set_data (pattern i)) (set_blockno i (set_flags B_DIRTY bi)) _ s3 Hi' Hs3 Hr3);
    [apply edit_lookup | apply pattern_ok | done |]. intros [] s4 [Hs4 Hr4].
  apply wp_bind. wp_use (rw_ready B i (set_data (pattern i) (set_blockno i (set_flags B_DIRTY bi))) _ s4 HB Hi' Hs4 Hr4);
    [apply edit_lookup | apply pattern_ok | done | done |].
  intros [] s5 (σ5 & c5 & Hs5 & Hr5 & Hc5 & Hd5 & Hn5 & Ho5).
  change (is_write (set_data _ _)) with true in Hr5, Hd5. cbn in Hr5, Hd5, Hn5. set (B5 := write_block_at i (pattern i) B) in *.
  assert (HB5 : forall m, 0 <= m < n_bufs -> block_ok (B5 m)) by (apply write_ok; [apply pattern_ok | done]).
  apply wp_bind. wp_use (update_ready B5 i (set_data (replicate 512 0)) c5 σ5 s5); [done | done | done | done | apply zeros_ok | done |]. intros [] s6 [Hs6 Hr6].
  apply wp_bind. wp_use (update_ready B5 i (set_flags 0) (set_data (replicate 512 0) c5) _ s6 Hi' Hs6 Hr6); [apply edit_lookup | apply zeros_ok | done |].
  intros [] s7 [Hs7 Hr7]. apply wp_bind.
  wp_use (rw_ready B5 i (set_flags 0 (set_data (replicate 512 0) c5)) _ s7 HB5 Hi' Hs7 Hr7); [apply edit_lookup | apply zeros_ok | cbn; by rewrite Hn5 | done |].
  intros [] s8 (σ8 & c8 & Hs8 & Hr8 & Hc8 & Hd8 & Hn8 & Ho8). change (is_write (set_flags 0 _)) with false in Hr8, Hd8.
  cbv iota in Hr8, Hd8. change (blockno (set_flags 0 _)) with (blockno c5) in Hd8. rewrite Hn5 in Hd8. unfold B5, write_block_at in Hd8. rewrite Z.eqb_refl in Hd8.
  apply wp_bind. wp_use (check_ok i c8 σ8 s8 Hs8 Hc8 Hd8).
  intros [] s9 ->. assert (Hc0' : objs σ8 !! at_ 0 = Some c0).
  { rewrite Ho8 by done. cbn. rewrite !lookup_insert_ne, Ho5 by done. cbn. by rewrite !lookup_insert_ne. }
  assert (Hokc0 : block_ok (data c0)) by (rewrite Hd0; by apply HB).
  apply wp_bind. wp_use (update_ready B5 0 (set_flags B_DIRTY) c0 σ8 s8); [done.. |]. intros [] s10 [Hs10 Hr10].
  wp_use (rw_ready B5 0 (set_flags B_DIRTY c0) _ s10 HB5 Hz Hs10 Hr10); [apply edit_lookup | done | cbn; by rewrite Hn0 | done |].
  intros [] s11 (σ11 & c11 & Hs11 & Hr11 & _). exists σ11. split; [done | split; [| done]].
  change (is_write (set_flags B_DIRTY c0)) with true in Hr11. cbn in Hr11. rewrite Hn0, Hd0 in Hr11.
  destruct Hr11 as [Hp Hdk Hbs]. split; [done | | done]. intros m. rewrite Hdk. unfold B5, write_block_at. by destruct (Z.eqb_spec m i) as [->|].
Qed.

(** The buffers up to [i] hold their blocks. *)
Definition loaded B i σ : Prop := forall k, 0 <= k < i -> exists b, objs σ !! at_ k = Some b /\ data b = B k.

Lemma benchmark_read_ok B i s : (forall m, 0 <= m < n_bufs -> block_ok (B m)) -> 0 <= i < n_bufs -> readied B (loaded B i) s ->
  wp no_panic (request sdque base fuel (sleep_one sdque me) me i 0 i) (fun _ s' => readied B (loaded B (i + 1)) s') s.
Proof.
  intros HB Hi (σ & Hs & Hr & Hl). destruct (rd_bufs _ _ Hr i Hi) as (b & Hb & Hok).
  wp_use (request_ok i 0 i b B σ s HB Hi Hi (or_introl eq_refl) Hs Hr Hb Hok). intros [] s' (σ' & b' & Hs' & Hr' & Hb' & Hd & _ & Ho).
  change (is_write (set_blockno i (set_flags 0 b))) with false in Hr', Hd. exists σ'. split; [done | split; [done |]].
  intros k Hk. destruct (decide (k = i)) as [->|Hne]; [by exists b' |]. rewrite Ho by (intros ?%b_at_inj; lia). apply Hl. lia.
Qed.

Lemma benchmark_write_ok B i s : (forall m, 0 <= m < n_bufs -> block_ok (B m)) -> 0 <= i < n_bufs -> readied B (loaded B n_bufs) s ->
  wp no_panic (request sdque base fuel (sleep_one sdque me) me i B_DIRTY i) (fun _ s' => readied B (loaded B n_bufs) s') s.
Proof.
  intros HB Hi (σ & Hs & Hr & Hl). destruct (Hl i Hi) as (b & Hb & Ed). assert (Hok : block_ok (data b)) by (rewrite Ed; by apply HB).
  wp_use (request_ok i B_DIRTY i b B σ s HB Hi Hi (or_intror eq_refl) Hs Hr Hb Hok). intros [] s' (σ' & b' & Hs' & Hr' & Hb' & Hd & _ & Ho).
  change (is_write (set_blockno i (set_flags B_DIRTY b))) with true in Hr', Hd. cbn in Hr', Hd. rewrite Ed in Hr', Hd.
  exists σ'. split; [done | split].
  - destruct Hr' as [Hp Hdk Hbs]. split; [done | | done]. intros m. rewrite Hdk. unfold write_block_at. by destruct (Z.eqb_spec m i) as [->|].
  - intros k Hk. destruct (decide (k = i)) as [->|Hne]; [by exists b' |]. rewrite Ho by (intros ?%b_at_inj; lia). by apply Hl.
Qed.

Lemma sd_test_ok B s : (forall m, 0 <= m < n_bufs -> block_ok (B m)) -> readied B (fun _ => True) s ->
  wp no_panic (sd_test sdque base fuel (sleep_one sdque me) me) (fun _ s' => readied B (loaded B n_bufs) s') s.
Proof.
  intros HB Hr. assert (En : Z.of_nat (Z.to_nat n_bufs) = n_bufs) by done. unfold sd_test. apply wp_bind, wp_assert; [done |]. apply wp_bind.
  wp_use (wp_for_range no_panic (fun _ s' => readied B (fun _ => True) s') (sd_test_round sdque base fuel (sleep_one sdque me) me)); [| done |].
  { intros i s1 Hi H1. apply round_ok; [done | change (Z.of_nat (Z.to_nat (n_bufs - 1))) with (n_bufs - 1) in Hi; lia | done]. }
  intros [] s2 H2. apply wp_bind.
  wp_use (wp_for_range no_panic (fun i s' => readied B (loaded B i) s') (fun i => request sdque base fuel (sleep_one sdque me) me i 0 i)).
  { intros i s3 Hi H3. apply benchmark_read_ok; [done | lia | done]. }
  { destruct H2 as (σ & Hs & Hrd & _). exists σ. split; [done | split; [done |]]. intros k Hk. lia. }
  intros [] s4 H4. cbn beta in H4. rewrite En, Z.add_0_l in H4.
  wp_use (wp_for_range no_panic (fun _ s' => readied B (loaded B n_bufs) s') (fun i => request sdque base fuel (sleep_one sdque me) me i B_DIRTY i)); [| exact H4 | done].
  intros i s5 Hi H5. apply benchmark_write_ok; [done | lia | done].
Qed.
End proof.

(** sd_test returns, whatever was on the card, with every assertion satisfied; the card
    holds what it held before, and the array holds the first 2048 blocks. *)
Theorem sd_test_passes {D} `{Host D} (sdque base : Z) (fuel : nat) (me : Z) (σ : server) (s : sd D) :
  (0 < fuel)%nat -> 0 < base -> Z.land (base + 8) 3 = 0 -> (forall i, 0 <= i < n_bufs -> b_at base i <> sdque) ->
  (forall i, 0 <= i < n_bufs -> addressable i) -> serves sdque σ s -> pending σ = [] ->
  (forall i, 0 <= i < n_bufs -> exists b, objs σ !! b_at base i = Some b /\ block_ok (data b)) ->
  exists s' σ', sd_test sdque base fuel (sleep_one sdque me) me s = Ret (tt, s') /\ serves sdque σ' s' /\ pending σ' = [] /\
    (forall m, disk σ' m = disk σ m) /\ loaded base (disk σ) n_bufs σ'.
Proof.
  intros Hf Hb Hal Hq Hc Hs Hp Hbs.
  assert (HB : forall m, 0 <= m < n_bufs -> block_ok (disk σ m)).
  { intros m Hm. destruct Hs as ((Hst & _) & _). apply (stored_disk _ _ _ Hst). by destruct (Hc m Hm). }
  destruct (wp_returns _ _ _ (sd_test_ok sdque base fuel me Hf Hb Hal Hq Hc (disk σ) s HB ltac:(by exists σ))) as ([] & s' & E & σ' & Hs' & [Hp' Hd' _] & Hl).
  by exists s', σ'.
Qed.
