(* ===== verification/VirtualMemory.v ===== *)
(** core/virtual_memory.c and the page-table part of aarch64/mmu.h: user page
    tables of four levels of 512 eight-byte entries, over the page frames of the
    machine and the page allocator of Arena.v's interface.

    A page table is read off the memory as a tree of pages ([pt], [shape]); the
    walk of the hardware is [mmu]. *)
From S2P Require Import Prelude Bytes CString PhysMem Arena.
From Stdlib Require Import Lia.

(** * aarch64/mmu.h: page-table entries *)

Definition MT_NORMAL : Z := 1.
Definition SH_OUTER : Z := Z.shiftl 2 8.
Definition AF_USED : Z := Z.shiftl 1 10.
Definition PTE_NORMAL : Z := Z.lor (Z.lor (Z.shiftl MT_NORMAL 2) AF_USED) SH_OUTER.
Definition PTE_VALID : Z := 1.
Definition PTE_TABLE : Z := 3.
Definition PTE_PAGE : Z := 3.
Definition PTE_USER : Z := Z.shiftl 1 6.
Definition PTE_USER_DATA : Z := Z.lor (Z.lor PTE_USER PTE_NORMAL) PTE_PAGE.
Definition N_PTE_PER_TABLE : Z := 512.

(** The masks are 32-bit: [~0xFFFu] keeps bits 12 to 31 only. *)
Definition PTE_ADDRESS (pte : Z) : Z := Z.land pte (u32 (Z.lnot 0xFFF)).
Definition PTE_FLAGS (pte : Z) : Z := Z.land pte 0xFFF.

Definition USPACE_TOP : Z := 0x0001000000000000.

(** * Definitions *)

(** The page allocator, and the bytes of every page frame, by the kernel address
    of the frame. *)
Record vmem (P : Type) := mkVmem { vm_pool : P; ram : Z -> list Z }.
Arguments mkVmem {P} vm_pool ram.
Arguments vm_pool {P} _.
Arguments ram {P} _ _.

(** The memory of the machine, in kernel space. *)
Definition in_ram (a : Z) : bool := (KSPACE_MASK <=? a) && (a <? P2K phystop).
Definition frame_of (a : Z) : Z := a - a mod PAGE_SIZE.

Definition set_frame (r : Z -> list Z) (p : Z) (b : list Z) : Z -> list Z :=
  fun q => if q =? p then b else r q.

Section vm.
Context {P : Type} (PA : PageAllocator P).

(** The first word of a free page, as the allocator keeps it: kfree stores it. *)
Context (link : P -> Z -> Z).

Definition get_frame (a : Z) : M (vmem P) (list Z) :=
  s ← get; if in_ram a then mret (ram s (frame_of a)) else fault.
Definition put_frame (a : Z) (b : list Z) : M (vmem P) unit :=
  if in_ram a then modify (fun s => mkVmem (vm_pool s) (set_frame (ram s) (frame_of a) b)) else fault.

(** Eight-byte loads and stores, and stores of a range inside a page. *)
Definition load64 (a : Z) : M (vmem P) Z :=
  b ← get_frame a; mret (le_dec (slice b (Z.to_nat (a mod PAGE_SIZE)) 8)).
Definition store_bytes (a : Z) (data : list Z) : M (vmem P) unit :=
  b ← get_frame a; put_frame a (splice b (Z.to_nat (a mod PAGE_SIZE)) data).
Definition store64 (a v : Z) : M (vmem P) unit := store_bytes a (le_enc 8 v).

(** [memset(p, 0, PAGE_SIZE)] and [memmove(p, q, PAGE_SIZE)] on whole pages. *)
Definition clear_page (p : Z) : M (vmem P) unit := store_bytes p (replicate 4096 0).
Definition copy_page (p q : Z) : M (vmem P) unit := b ← get_frame q; put_frame p b.

Definition vm_kalloc : M (vmem P) Z := fun s =>
  '(p, pool) ← allocate (vm_pool s); Ret (p, mkVmem pool (ram s)).

(** kfree threads the page into the free list through its first word. *)
Definition vm_kfree (p : Z) : M (vmem P) unit :=
  (fun s => '(_, pool) ← free_page p (vm_pool s); Ret (tt, mkVmem pool (ram s)));;
  s ← get;
  store64 p (link (vm_pool s) p).

Definition my_pgdir_init : M (vmem P) Z :=
  pgdir ← vm_kalloc;
  (if negb (pgdir =? 0) then clear_page pgdir else mret tt);;
  mret pgdir.

(** [(int)(virtual_address_tag >> ((3 - i) * 9)) & 0x1FF] *)
Definition page_index (virtual_address_tag i : Z) : Z :=
  Z.land (i32 (Z.shiftr virtual_address_tag ((3 - i) * 9))) 0x1FF.

(** [if (!(pagetable[page_index] & PTE_VALID)) ...], with [a = &pagetable[page_index]]. *)
Definition fill_entry (a : Z) (alloc : bool) : M (vmem P) unit :=
  pte ← load64 a;
  if Z.land pte PTE_VALID =? 0 then
    if alloc then
      p ← vm_kalloc;
      if negb (p =? 0) then clear_page p;; store64 a (Z.lor (K2P p) PTE_TABLE) else mret tt
    else mret tt
  else mret tt.

(** The levels [i .. 2] of the walk, [n] of them. *)
Fixpoint walk_levels (n : nat) (i tag pagetable : Z) (alloc : bool) : M (vmem P) Z :=
  match n with
  | O => mret pagetable
  | S n' =>
      let a := pagetable + 8 * page_index tag i in
      fill_entry a alloc;;
      pte ← load64 a;
      walk_levels n' (i + 1) tag (P2K (PTE_ADDRESS pte)) alloc
  end.

Definition my_pgdir_walk (pgdir vak : Z) (alloc : bool) : M (vmem P) Z :=
  let virtual_address_tag := Z.shiftr (u64 vak) 12 in
  pagetable ← walk_levels 3 0 virtual_address_tag pgdir alloc;
  mret (pagetable + 8 * Z.land virtual_address_tag 0x1FF).

(** [recur_uvm_copy] at level [3 - d]. *)
Fixpoint recur_uvm_copy (d : nat) (pgdir : Z) : M (vmem P) Z :=
  newpgdir ← my_pgdir_init;
  for_range 0 512 (fun i =>
    pte ← load64 (pgdir + 8 * i);
    if negb (Z.land pte PTE_VALID =? 0) then
      page_copy ←
        match d with
        | S d' => recur_uvm_copy d' (P2K (PTE_ADDRESS pte))
        | O =>
            page_copy ← vm_kalloc;
            copy_page page_copy (P2K (PTE_ADDRESS pte));;
            mret page_copy
        end;
      store64 (newpgdir + 8 * i) (Z.lor (K2P page_copy) (PTE_FLAGS pte))
    else mret tt);;
  mret newpgdir.

Definition my_uvm_copy (pgdir : Z) : M (vmem P) Z := recur_uvm_copy 3 pgdir.

(** [recur_vm_free] at level [3 - d]. *)
Fixpoint recur_vm_free (d : nat) (pgdir : Z) : M (vmem P) unit :=
  for_range 0 512 (fun i =>
    pte ← load64 (pgdir + 8 * i);
    if negb (Z.land pte PTE_VALID =? 0) then
      match d with
      | S d' => recur_vm_free d' (P2K (PTE_ADDRESS pte))
      | O => vm_kfree (P2K (PTE_ADDRESS pte))
      end
    else mret tt);;
  vm_kfree pgdir.

Definition my_vm_free (pgdir : Z) : M (vmem P) unit := recur_vm_free 3 pgdir.

(** [for (; ptr < end; ptr += PAGE_SIZE, pa += PAGE_SIZE)] *)
Fixpoint map_loop (fuel : nat) (pgdir ptr end_ pa : Z) : M (vmem P) unit :=
  match fuel with
  | O => fun _ => OutOfFuel
  | S f =>
      if ptr <? end_ then
        page_content_ptr ← my_pgdir_walk pgdir ptr true;
        if page_content_ptr =? 0 then panic "uvm_map: pgdir_walk failed."
        else
          store64 page_content_ptr (Z.lor pa PTE_USER_DATA);;
          map_loop f pgdir (u64 (ptr + PAGE_SIZE)) end_ (u64 (pa + PAGE_SIZE))
      else mret tt
  end.

(** One unit of fuel per page touched, and one for the exit. *)
Definition my_uvm_map (pgdir va sz pa : Z) : M (vmem P) Z :=
  let ptr := round_down va PAGE_SIZE in
  let end_ := u64 (va + sz) in
  let pa := round_down pa PAGE_SIZE in
  map_loop (Z.to_nat (sz / PAGE_SIZE + 3)) pgdir ptr end_ pa;; mret 0.

(** [for (usize a = round_up(newsz, PAGE_SIZE); a < oldsz; a += PAGE_SIZE)] *)
Fixpoint dealloc_loop (fuel : nat) (pgdir a oldsz : Z) : M (vmem P) unit :=
  match fuel with
  | O => fun _ => OutOfFuel
  | S f =>
      if a <? oldsz then
        page_content_ptr ← my_pgdir_walk pgdir a false;
        (if negb (page_content_ptr =? 0) then
           pte ← load64 page_content_ptr;
           if negb (Z.land pte PTE_VALID =? 0) then
             vm_kfree (P2K (PTE_ADDRESS pte));; store64 page_content_ptr 0
           else mret tt
         else mret tt);;
        dealloc_loop f pgdir (u64 (a + PAGE_SIZE)) oldsz
      else mret tt
  end.

Definition my_uvm_dealloc (pgdir base oldsz newsz : Z) : M (vmem P) Z :=
  if (newsz >=? oldsz) || (newsz <? base) then mret (i32 oldsz)
  else
    dealloc_loop (Z.to_nat ((oldsz - newsz) / PAGE_SIZE + 2)) pgdir (round_up newsz PAGE_SIZE) oldsz;;
    mret (i32 newsz).

(** [for (usize a = round_up(oldsz, PAGE_SIZE); a < newsz; a += PAGE_SIZE)];
    [Some 0] is the early return. *)
Fixpoint alloc_loop (fuel : nat) (pgdir base oldsz a newsz : Z) : M (vmem P) (option Z) :=
  match fuel with
  | O => fun _ => OutOfFuel
  | S f =>
      if a <? newsz then
        page ← vm_kalloc;
        if page =? 0 then
          my_uvm_dealloc pgdir base (u64 (a - PAGE_SIZE)) oldsz;; mret (Some 0)
        else
          r ← my_uvm_map pgdir a PAGE_SIZE (K2P page);
          if r <? 0 then
            vm_kfree page;; my_uvm_dealloc pgdir base (u64 (a - PAGE_SIZE)) oldsz;; mret (Some 0)
          else alloc_loop f pgdir base oldsz (u64 (a + PAGE_SIZE)) newsz
      else mret None
  end.

Definition my_uvm_alloc (pgdir base stksz oldsz newsz : Z) : M (vmem P) Z :=
  if negb ((stksz <? USPACE_TOP) && (base <=? oldsz) && (oldsz <=? newsz) &&
           (newsz <? u64 (USPACE_TOP - stksz))) then panic "my_uvm_alloc: invalid arguments."
  else
    r ← alloc_loop (Z.to_nat ((newsz - oldsz) / PAGE_SIZE + 2)) pgdir base oldsz (round_up oldsz PAGE_SIZE) newsz;
    match r with
    | Some v => mret v
    | None => mret (i32 newsz)
    end.

(** The page behind [*page_content_ptr], allocated if it is not there; [None] when
    kalloc fails. *)
Definition copyout_page (page_content_ptr : Z) : M (vmem P) (option Z) :=
  pte ← load64 page_content_ptr;
  if negb (Z.land pte PTE_VALID =? 0) then mret (Some (P2K (PTE_ADDRESS pte)))
  else
    page ← vm_kalloc;
    if page =? 0 then mret None
    else store64 page_content_ptr (Z.lor (K2P page) PTE_USER_DATA);; mret (Some page).

(** The source of [copyout]: NULL, or the bytes [p] points at (a kernel object
    outside the page frames of the process). *)
Fixpoint copyout_loop (fuel : nat) (pgdir va : Z) (p : option (list Z)) (len : Z) : M (vmem P) Z :=
  match fuel with
  | O => fun _ => OutOfFuel
  | S f =>
      if len =? 0 then mret 0
      else
        let page_offset := va mod PAGE_SIZE in
        page_content_ptr ← my_pgdir_walk pgdir va true;
        if page_content_ptr =? 0 then mret (-1)
        else
          page ← copyout_page page_content_ptr;
          match page with
          | None => mret (-1)
          | Some page =>
            let n := PAGE_SIZE - page_offset in
            let n := if n <? len then n else len in
            match p with
            | Some data =>
                if Z.of_nat (length data) <? n then fault
                else
                  store_bytes (page + page_offset) (take (Z.to_nat n) data);;
                  copyout_loop f pgdir (u64 (va + n)) (Some (drop (Z.to_nat n) data)) (len - n)
            | None =>
                store_bytes (page + page_offset) (replicate (Z.to_nat n) 0);;
                copyout_loop f pgdir (u64 (va + n)) None (len - n)
            end
          end
  end.

Definition my_copyout (pgdir va : Z) (p : option (list Z)) (len : Z) : M (vmem P) Z :=
  if u64 (va + len) >? USPACE_TOP then mret (-1)
  else copyout_loop (Z.to_nat (len / PAGE_SIZE + 3)) pgdir va p len.
End vm.
