(* ===== verification/KernelPt.v ===== *)
(** aarch64/kernel_pt.c and the block entries of aarch64/mmu.h: the page table that the
    kernel runs on, and how the hardware translates a kernel address with it. *)
From S2P Require Import Prelude Bytes CString PhysMem Arena VirtualMemory.

(** * The tables *)

Definition MT_DEVICE_nGnRnE : Z := 0.
Definition PTE_DEVICE : Z := Z.lor (Z.shiftl MT_DEVICE_nGnRnE 2) AF_USED.
Definition PTE_BLOCK : Z := 1.
Definition PTE_KERNEL : Z := Z.shiftl 0 6.
Definition PTE_KERNEL_DATA : Z := Z.lor (Z.lor PTE_KERNEL PTE_NORMAL) PTE_BLOCK.
Definition PTE_KERNEL_DEVICE : Z := Z.lor (Z.lor PTE_KERNEL PTE_DEVICE) PTE_BLOCK.

Definition kernel_pt_level3 : list Z := [
   Z.lor 0x0 PTE_KERNEL_DATA; Z.lor 0x200000 PTE_KERNEL_DATA; Z.lor 0x400000 PTE_KERNEL_DATA; Z.lor 0x600000 PTE_KERNEL_DATA;
   Z.lor 0x800000 PTE_KERNEL_DATA; Z.lor 0xa00000 PTE_KERNEL_DATA; Z.lor 0xc00000 PTE_KERNEL_DATA; Z.lor 0xe00000 PTE_KERNEL_DATA;
   Z.lor 0x1000000 PTE_KERNEL_DATA; Z.lor 0x1200000 PTE_KERNEL_DATA; Z.lor 0x1400000 PTE_KERNEL_DATA; Z.lor 0x1600000 PTE_KERNEL_DATA;
   Z.lor 0x1800000 PTE_KERNEL_DATA; Z.lor 0x1a00000 PTE_KERNEL_DATA; Z.lor 0x1c00000 PTE_KERNEL_DATA; Z.lor 0x1e00000 PTE_KERNEL_DATA;
   Z.lor 0x2000000 PTE_KERNEL_DATA; Z.lor 0x2200000 PTE_KERNEL_DATA; Z.lor 0x2400000 PTE_KERNEL_DATA; Z.lor 0x2600000 PTE_KERNEL_DATA;
   Z.lor 0x2800000 PTE_KERNEL_DATA; Z.lor 0x2a00000 PTE_KERNEL_DATA; Z.lor 0x2c00000 PTE_KERNEL_DATA; Z.lor 0x2e00000 PTE_KERNEL_DATA;
   Z.lor 0x3000000 PTE_KERNEL_DATA; Z.lor 0x3200000 PTE_KERNEL_DATA; Z.lor 0x3400000 PTE_KERNEL_DATA; Z.lor 0x3600000 PTE_KERNEL_DATA;
   Z.lor 0x3800000 PTE_KERNEL_DATA; Z.lor 0x3a00000 PTE_KERNEL_DATA; Z.lor 0x3c00000 PTE_KERNEL_DATA; Z.lor 0x3e00000 PTE_KERNEL_DATA;
   Z.lor 0x4000000 PTE_KERNEL_DATA; Z.lor 0x4200000 PTE_KERNEL_DATA; Z.lor 0x4400000 PTE_KERNEL_DATA; Z.lor 0x4600000 PTE_KERNEL_DATA;
   Z.lor 0x4800000 PTE_KERNEL_DATA; Z.lor 0x4a00000 PTE_KERNEL_DATA; Z.lor 0x4c00000 PTE_KERNEL_DATA; Z.lor 0x4e00000 PTE_KERNEL_DATA;
   Z.lor 0x5000000 PTE_KERNEL_DATA; Z.lor 0x5200000 PTE_KERNEL_DATA; Z.lor 0x5400000 PTE_KERNEL_DATA; Z.lor 0x5600000 PTE_KERNEL_DATA;
   Z.lor 0x5800000 PTE_KERNEL_DATA; Z.lor 0x5a00000 PTE_KERNEL_DATA; Z.lor 0x5c00000 PTE_KERNEL_DATA; Z.lor 0x5e00000 PTE_KERNEL_DATA;
   Z.lor 0x6000000 PTE_KERNEL_DATA; Z.lor 0x6200000 PTE_KERNEL_DATA; Z.lor 0x6400000 PTE_KERNEL_DATA; Z.lor 0x6600000 PTE_KERNEL_DATA;
   Z.lor 0x6800000 PTE_KERNEL_DATA; Z.lor 0x6a00000 PTE_KERNEL_DATA; Z.lor 0x6c00000 PTE_KERNEL_DATA; Z.lor 0x6e00000 PTE_KERNEL_DATA;
   Z.lor 0x7000000 PTE_KERNEL_DATA; Z.lor 0x7200000 PTE_KERNEL_DATA; Z.lor 0x7400000 PTE_KERNEL_DATA; Z.lor 0x7600000 PTE_KERNEL_DATA;
   Z.lor 0x7800000 PTE_KERNEL_DATA; Z.lor 0x7a00000 PTE_KERNEL_DATA; Z.lor 0x7c00000 PTE_KERNEL_DATA; Z.lor 0x7e00000 PTE_KERNEL_DATA;
   Z.lor 0x8000000 PTE_KERNEL_DATA; Z.lor 0x8200000 PTE_KERNEL_DATA; Z.lor 0x8400000 PTE_KERNEL_DATA; Z.lor 0x8600000 PTE_KERNEL_DATA;
   Z.lor 0x8800000 PTE_KERNEL_DATA; Z.lor 0x8a00000 PTE_KERNEL_DATA; Z.lor 0x8c00000 PTE_KERNEL_DATA; Z.lor 0x8e00000 PTE_KERNEL_DATA;
   Z.lor 0x9000000 PTE_KERNEL_DATA; Z.lor 0x9200000 PTE_KERNEL_DATA; Z.lor 0x9400000 PTE_KERNEL_DATA; Z.lor 0x9600000 PTE_KERNEL_DATA;
   Z.lor 0x9800000 PTE_KERNEL_DATA; Z.lor 0x9a00000 PTE_KERNEL_DATA; Z.lor 0x9c00000 PTE_KERNEL_DATA; Z.lor 0x9e00000 PTE_KERNEL_DATA;
   Z.lor 0xa000000 PTE_KERNEL_DATA; Z.lor 0xa200000 PTE_KERNEL_DATA; Z.lor 0xa400000 PTE_KERNEL_DATA; Z.lor 0xa600000 PTE_KERNEL_DATA;
   Z.lor 0xa800000 PTE_KERNEL_DATA; Z.lor 0xaa00000 PTE_KERNEL_DATA; Z.lor 0xac00000 PTE_KERNEL_DATA; Z.lor 0xae00000 PTE_KERNEL_DATA;
   Z.lor 0xb000000 PTE_KERNEL_DATA; Z.lor 0xb200000 PTE_KERNEL_DATA; Z.lor 0xb400000 PTE_KERNEL_DATA; Z.lor 0xb600000 PTE_KERNEL_DATA;
   Z.lor 0xb800000 PTE_KERNEL_DATA; Z.lor 0xba00000 PTE_KERNEL_DATA; Z.lor 0xbc00000 PTE_KERNEL_DATA; Z.lor 0xbe00000 PTE_KERNEL_DATA;
   Z.lor 0xc000000 PTE_KERNEL_DATA; Z.lor 0xc200000 PTE_KERNEL_DATA; Z.lor 0xc400000 PTE_KERNEL_DATA; Z.lor 0xc600000 PTE_KERNEL_DATA;
   Z.lor 0xc800000 PTE_KERNEL_DATA; Z.lor 0xca00000 PTE_KERNEL_DATA; Z.lor 0xcc00000 PTE_KERNEL_DATA; Z.lor 0xce00000 PTE_KERNEL_DATA;
   Z.lor 0xd000000 PTE_KERNEL_DATA; Z.lor 0xd200000 PTE_KERNEL_DATA; Z.lor 0xd400000 PTE_KERNEL_DATA; Z.lor 0xd600000 PTE_KERNEL_DATA;
   Z.lor 0xd800000 PTE_KERNEL_DATA; Z.lor 0xda00000 PTE_KERNEL_DATA; Z.lor 0xdc00000 PTE_KERNEL_DATA; Z.lor 0xde00000 PTE_KERNEL_DATA;
   Z.lor 0xe000000 PTE_KERNEL_DATA; Z.lor 0xe200000 PTE_KERNEL_DATA; Z.lor 0xe400000 PTE_KERNEL_DATA; Z.lor 0xe600000 PTE_KERNEL_DATA;
   Z.lor 0xe800000 PTE_KERNEL_DATA; Z.lor 0xea00000 PTE_KERNEL_DATA; Z.lor 0xec00000 PTE_KERNEL_DATA; Z.lor 0xee00000 PTE_KERNEL_DATA;
   Z.lor 0xf000000 PTE_KERNEL_DATA; Z.lor 0xf200000 PTE_KERNEL_DATA; Z.lor 0xf400000 PTE_KERNEL_DATA; Z.lor 0xf600000 PTE_KERNEL_DATA;
   Z.lor 0xf800000 PTE_KERNEL_DATA; Z.lor 0xfa00000 PTE_KERNEL_DATA; Z.lor 0xfc00000 PTE_KERNEL_DATA; Z.lor 0xfe00000 PTE_KERNEL_DATA;
   Z.lor 0x10000000 PTE_KERNEL_DATA; Z.lor 0x10200000 PTE_KERNEL_DATA; Z.lor 0x10400000 PTE_KERNEL_DATA; Z.lor 0x10600000 PTE_KERNEL_DATA;
   Z.lor 0x10800000 PTE_KERNEL_DATA; Z.lor 0x10a00000 PTE_KERNEL_DATA; Z.lor 0x10c00000 PTE_KERNEL_DATA; Z.lor 0x10e00000 PTE_KERNEL_DATA;
   Z.lor 0x11000000 PTE_KERNEL_DATA; Z.lor 0x11200000 PTE_KERNEL_DATA; Z.lor 0x11400000 PTE_KERNEL_DATA; Z.lor 0x11600000 PTE_KERNEL_DATA;
   Z.lor 0x11800000 PTE_KERNEL_DATA; Z.lor 0x11a00000 PTE_KERNEL_DATA; Z.lor 0x11c00000 PTE_KERNEL_DATA; Z.lor 0x11e00000 PTE_KERNEL_DATA;
   Z.lor 0x12000000 PTE_KERNEL_DATA; Z.lor 0x12200000 PTE_KERNEL_DATA; Z.lor 0x12400000 PTE_KERNEL_DATA; Z.lor 0x12600000 PTE_KERNEL_DATA;
   Z.lor 0x12800000 PTE_KERNEL_DATA; Z.lor 0x12a00000 PTE_KERNEL_DATA; Z.lor 0x12c00000 PTE_KERNEL_DATA; Z.lor 0x12e00000 PTE_KERNEL_DATA;
   Z.lor 0x13000000 PTE_KERNEL_DATA; Z.lor 0x13200000 PTE_KERNEL_DATA; Z.lor 0x13400000 PTE_KERNEL_DATA; Z.lor 0x13600000 PTE_KERNEL_DATA;
   Z.lor 0x13800000 PTE_KERNEL_DATA; Z.lor 0x13a00000 PTE_KERNEL_DATA; Z.lor 0x13c00000 PTE_KERNEL_DATA; Z.lor 0x13e00000 PTE_KERNEL_DATA;
   Z.lor 0x14000000 PTE_KERNEL_DATA; Z.lor 0x14200000 PTE_KERNEL_DATA; Z.lor 0x14400000 PTE_KERNEL_DATA; Z.lor 0x14600000 PTE_KERNEL_DATA;
   Z.lor 0x14800000 PTE_KERNEL_DATA; Z.lor 0x14a00000 PTE_KERNEL_DATA; Z.lor 0x14c00000 PTE_KERNEL_DATA; Z.lor 0x14e00000 PTE_KERNEL_DATA;
   Z.lor 0x15000000 PTE_KERNEL_DATA; Z.lor 0x15200000 PTE_KERNEL_DATA; Z.lor 0x15400000 PTE_KERNEL_DATA; Z.lor 0x15600000 PTE_KERNEL_DATA;
   Z.lor 0x15800000 PTE_KERNEL_DATA; Z.lor 0x15a00000 PTE_KERNEL_DATA; Z.lor 0x15c00000 PTE_KERNEL_DATA; Z.lor 0x15e00000 PTE_KERNEL_DATA;
   Z.lor 0x16000000 PTE_KERNEL_DATA; Z.lor 0x16200000 PTE_KERNEL_DATA; Z.lor 0x16400000 PTE_KERNEL_DATA; Z.lor 0x16600000 PTE_KERNEL_DATA;
   Z.lor 0x16800000 PTE_KERNEL_DATA; Z.lor 0x16a00000 PTE_KERNEL_DATA; Z.lor 0x16c00000 PTE_KERNEL_DATA; Z.lor 0x16e00000 PTE_KERNEL_DATA;
   Z.lor 0x17000000 PTE_KERNEL_DATA; Z.lor 0x17200000 PTE_KERNEL_DATA; Z.lor 0x17400000 PTE_KERNEL_DATA; Z.lor 0x17600000 PTE_KERNEL_DATA;
   Z.lor 0x17800000 PTE_KERNEL_DATA; Z.lor 0x17a00000 PTE_KERNEL_DATA; Z.lor 0x17c00000 PTE_KERNEL_DATA; Z.lor 0x17e00000 PTE_KERNEL_DATA;
   Z.lor 0x18000000 PTE_KERNEL_DATA; Z.lor 0x18200000 PTE_KERNEL_DATA; Z.lor 0x18400000 PTE_KERNEL_DATA; Z.lor 0x18600000 PTE_KERNEL_DATA;
   Z.lor 0x18800000 PTE_KERNEL_DATA; Z.lor 0x18a00000 PTE_KERNEL_DATA; Z.lor 0x18c00000 PTE_KERNEL_DATA; Z.lor 0x18e00000 PTE_KERNEL_DATA;
   Z.lor 0x19000000 PTE_KERNEL_DATA; Z.lor 0x19200000 PTE_KERNEL_DATA; Z.lor 0x19400000 PTE_KERNEL_DATA; Z.lor 0x19600000 PTE_KERNEL_DATA;
   Z.lor 0x19800000 PTE_KERNEL_DATA; Z.lor 0x19a00000 PTE_KERNEL_DATA; Z.lor 0x19c00000 PTE_KERNEL_DATA; Z.lor 0x19e00000 PTE_KERNEL_DATA;
   Z.lor 0x1a000000 PTE_KERNEL_DATA; Z.lor 0x1a200000 PTE_KERNEL_DATA; Z.lor 0x1a400000 PTE_KERNEL_DATA; Z.lor 0x1a600000 PTE_KERNEL_DATA;
   Z.lor 0x1a800000 PTE_KERNEL_DATA; Z.lor 0x1aa00000 PTE_KERNEL_DATA; Z.lor 0x1ac00000 PTE_KERNEL_DATA; Z.lor 0x1ae00000 PTE_KERNEL_DATA;
   Z.lor 0x1b000000 PTE_KERNEL_DATA; Z.lor 0x1b200000 PTE_KERNEL_DATA; Z.lor 0x1b400000 PTE_KERNEL_DATA; Z.lor 0x1b600000 PTE_KERNEL_DATA;
   Z.lor 0x1b800000 PTE_KERNEL_DATA; Z.lor 0x1ba00000 PTE_KERNEL_DATA; Z.lor 0x1bc00000 PTE_KERNEL_DATA; Z.lor 0x1be00000 PTE_KERNEL_DATA;
   Z.lor 0x1c000000 PTE_KERNEL_DATA; Z.lor 0x1c200000 PTE_KERNEL_DATA; Z.lor 0x1c400000 PTE_KERNEL_DATA; Z.lor 0x1c600000 PTE_KERNEL_DATA;
   Z.lor 0x1c800000 PTE_KERNEL_DATA; Z.lor 0x1ca00000 PTE_KERNEL_DATA; Z.lor 0x1cc00000 PTE_KERNEL_DATA; Z.lor 0x1ce00000 PTE_KERNEL_DATA;
   Z.lor 0x1d000000 PTE_KERNEL_DATA; Z.lor 0x1d200000 PTE_KERNEL_DATA; Z.lor 0x1d400000 PTE_KERNEL_DATA; Z.lor 0x1d600000 PTE_KERNEL_DATA;
   Z.lor 0x1d800000 PTE_KERNEL_DATA; Z.lor 0x1da00000 PTE_KERNEL_DATA; Z.lor 0x1dc00000 PTE_KERNEL_DATA; Z.lor 0x1de00000 PTE_KERNEL_DATA;
   Z.lor 0x1e000000 PTE_KERNEL_DATA; Z.lor 0x1e200000 PTE_KERNEL_DATA; Z.lor 0x1e400000 PTE_KERNEL_DATA; Z.lor 0x1e600000 PTE_KERNEL_DATA;
   Z.lor 0x1e800000 PTE_KERNEL_DATA; Z.lor 0x1ea00000 PTE_KERNEL_DATA; Z.lor 0x1ec00000 PTE_KERNEL_DATA; Z.lor 0x1ee00000 PTE_KERNEL_DATA;
   Z.lor 0x1f000000 PTE_KERNEL_DATA; Z.lor 0x1f200000 PTE_KERNEL_DATA; Z.lor 0x1f400000 PTE_KERNEL_DATA; Z.lor 0x1f600000 PTE_KERNEL_DATA;
   Z.lor 0x1f800000 PTE_KERNEL_DATA; Z.lor 0x1fa00000 PTE_KERNEL_DATA; Z.lor 0x1fc00000 PTE_KERNEL_DATA; Z.lor 0x1fe00000 PTE_KERNEL_DATA;
   Z.lor 0x20000000 PTE_KERNEL_DATA; Z.lor 0x20200000 PTE_KERNEL_DATA; Z.lor 0x20400000 PTE_KERNEL_DATA; Z.lor 0x20600000 PTE_KERNEL_DATA;
   Z.lor 0x20800000 PTE_KERNEL_DATA; Z.lor 0x20a00000 PTE_KERNEL_DATA; Z.lor 0x20c00000 PTE_KERNEL_DATA; Z.lor 0x20e00000 PTE_KERNEL_DATA;
   Z.lor 0x21000000 PTE_KERNEL_DATA; Z.lor 0x21200000 PTE_KERNEL_DATA; Z.lor 0x21400000 PTE_KERNEL_DATA; Z.lor 0x21600000 PTE_KERNEL_DATA;
   Z.lor 0x21800000 PTE_KERNEL_DATA; Z.lor 0x21a00000 PTE_KERNEL_DATA; Z.lor 0x21c00000 PTE_KERNEL_DATA; Z.lor 0x21e00000 PTE_KERNEL_DATA;
   Z.lor 0x22000000 PTE_KERNEL_DATA; Z.lor 0x22200000 PTE_KERNEL_DATA; Z.lor 0x22400000 PTE_KERNEL_DATA; Z.lor 0x22600000 PTE_KERNEL_DATA;
   Z.lor 0x22800000 PTE_KERNEL_DATA; Z.lor 0x22a00000 PTE_KERNEL_DATA; Z.lor 0x22c00000 PTE_KERNEL_DATA; Z.lor 0x22e00000 PTE_KERNEL_DATA;
   Z.lor 0x23000000 PTE_KERNEL_DATA; Z.lor 0x23200000 PTE_KERNEL_DATA; Z.lor 0x23400000 PTE_KERNEL_DATA; Z.lor 0x23600000 PTE_KERNEL_DATA;
   Z.lor 0x23800000 PTE_KERNEL_DATA; Z.lor 0x23a00000 PTE_KERNEL_DATA; Z.lor 0x23c00000 PTE_KERNEL_DATA; Z.lor 0x23e00000 PTE_KERNEL_DATA;
   Z.lor 0x24000000 PTE_KERNEL_DATA; Z.lor 0x24200000 PTE_KERNEL_DATA; Z.lor 0x24400000 PTE_KERNEL_DATA; Z.lor 0x24600000 PTE_KERNEL_DATA;
   Z.lor 0x24800000 PTE_KERNEL_DATA; Z.lor 0x24a00000 PTE_KERNEL_DATA; Z.lor 0x24c00000 PTE_KERNEL_DATA; Z.lor 0x24e00000 PTE_KERNEL_DATA;
   Z.lor 0x25000000 PTE_KERNEL_DATA; Z.lor 0x25200000 PTE_KERNEL_DATA; Z.lor 0x25400000 PTE_KERNEL_DATA; Z.lor 0x25600000 PTE_KERNEL_DATA;
   Z.lor 0x25800000 PTE_KERNEL_DATA; Z.lor 0x25a00000 PTE_KERNEL_DATA; Z.lor 0x25c00000 PTE_KERNEL_DATA; Z.lor 0x25e00000 PTE_KERNEL_DATA;
   Z.lor 0x26000000 PTE_KERNEL_DATA; Z.lor 0x26200000 PTE_KERNEL_DATA; Z.lor 0x26400000 PTE_KERNEL_DATA; Z.lor 0x26600000 PTE_KERNEL_DATA;
   Z.lor 0x26800000 PTE_KERNEL_DATA; Z.lor 0x26a00000 PTE_KERNEL_DATA; Z.lor 0x26c00000 PTE_KERNEL_DATA; Z.lor 0x26e00000 PTE_KERNEL_DATA;
   Z.lor 0x27000000 PTE_KERNEL_DATA; Z.lor 0x27200000 PTE_KERNEL_DATA; Z.lor 0x27400000 PTE_KERNEL_DATA; Z.lor 0x27600000 PTE_KERNEL_DATA;
   Z.lor 0x27800000 PTE_KERNEL_DATA; Z.lor 0x27a00000 PTE_KERNEL_DATA; Z.lor 0x27c00000 PTE_KERNEL_DATA; Z.lor 0x27e00000 PTE_KERNEL_DATA;
   Z.lor 0x28000000 PTE_KERNEL_DATA; Z.lor 0x28200000 PTE_KERNEL_DATA; Z.lor 0x28400000 PTE_KERNEL_DATA; Z.lor 0x28600000 PTE_KERNEL_DATA;
   Z.lor 0x28800000 PTE_KERNEL_DATA; Z.lor 0x28a00000 PTE_KERNEL_DATA; Z.lor 0x28c00000 PTE_KERNEL_DATA; Z.lor 0x28e00000 PTE_KERNEL_DATA;
   Z.lor 0x29000000 PTE_KERNEL_DATA; Z.lor 0x29200000 PTE_KERNEL_DATA; Z.lor 0x29400000 PTE_KERNEL_DATA; Z.lor 0x29600000 PTE_KERNEL_DATA;
   Z.lor 0x29800000 PTE_KERNEL_DATA; Z.lor 0x29a00000 PTE_KERNEL_DATA; Z.lor 0x29c00000 PTE_KERNEL_DATA; Z.lor 0x29e00000 PTE_KERNEL_DATA;
   Z.lor 0x2a000000 PTE_KERNEL_DATA; Z.lor 0x2a200000 PTE_KERNEL_DATA; Z.lor 0x2a400000 PTE_KERNEL_DATA; Z.lor 0x2a600000 PTE_KERNEL_DATA;
   Z.lor 0x2a800000 PTE_KERNEL_DATA; Z.lor 0x2aa00000 PTE_KERNEL_DATA; Z.lor 0x2ac00000 PTE_KERNEL_DATA; Z.lor 0x2ae00000 PTE_KERNEL_DATA;
   Z.lor 0x2b000000 PTE_KERNEL_DATA; Z.lor 0x2b200000 PTE_KERNEL_DATA; Z.lor 0x2b400000 PTE_KERNEL_DATA; Z.lor 0x2b600000 PTE_KERNEL_DATA;
   Z.lor 0x2b800000 PTE_KERNEL_DATA; Z.lor 0x2ba00000 PTE_KERNEL_DATA; Z.lor 0x2bc00000 PTE_KERNEL_DATA; Z.lor 0x2be00000 PTE_KERNEL_DATA;
   Z.lor 0x2c000000 PTE_KERNEL_DATA; Z.lor 0x2c200000 PTE_KERNEL_DATA; Z.lor 0x2c400000 PTE_KERNEL_DATA; Z.lor 0x2c600000 PTE_KERNEL_DATA;
   Z.lor 0x2c800000 PTE_KERNEL_DATA; Z.lor 0x2ca00000 PTE_KERNEL_DATA; Z.lor 0x2cc00000 PTE_KERNEL_DATA; Z.lor 0x2ce00000 PTE_KERNEL_DATA;
   Z.lor 0x2d000000 PTE_KERNEL_DATA; Z.lor 0x2d200000 PTE_KERNEL_DATA; Z.lor 0x2d400000 PTE_KERNEL_DATA; Z.lor 0x2d600000 PTE_KERNEL_DATA;
   Z.lor 0x2d800000 PTE_KERNEL_DATA; Z.lor 0x2da00000 PTE_KERNEL_DATA; Z.lor 0x2dc00000 PTE_KERNEL_DATA; Z.lor 0x2de00000 PTE_KERNEL_DATA;
   Z.lor 0x2e000000 PTE_KERNEL_DATA; Z.lor 0x2e200000 PTE_KERNEL_DATA; Z.lor 0x2e400000 PTE_KERNEL_DATA; Z.lor 0x2e600000 PTE_KERNEL_DATA;
   Z.lor 0x2e800000 PTE_KERNEL_DATA; Z.lor 0x2ea00000 PTE_KERNEL_DATA; Z.lor 0x2ec00000 PTE_KERNEL_DATA; Z.lor 0x2ee00000 PTE_KERNEL_DATA;
   Z.lor 0x2f000000 PTE_KERNEL_DATA; Z.lor 0x2f200000 PTE_KERNEL_DATA; Z.lor 0x2f400000 PTE_KERNEL_DATA; Z.lor 0x2f600000 PTE_KERNEL_DATA;
   Z.lor 0x2f800000 PTE_KERNEL_DATA; Z.lor 0x2fa00000 PTE_KERNEL_DATA; Z.lor 0x2fc00000 PTE_KERNEL_DATA; Z.lor 0x2fe00000 PTE_KERNEL_DATA;
   Z.lor 0x30000000 PTE_KERNEL_DATA; Z.lor 0x30200000 PTE_KERNEL_DATA; Z.lor 0x30400000 PTE_KERNEL_DATA; Z.lor 0x30600000 PTE_KERNEL_DATA;
   Z.lor 0x30800000 PTE_KERNEL_DATA; Z.lor 0x30a00000 PTE_KERNEL_DATA; Z.lor 0x30c00000 PTE_KERNEL_DATA; Z.lor 0x30e00000 PTE_KERNEL_DATA;
   Z.lor 0x31000000 PTE_KERNEL_DATA; Z.lor 0x31200000 PTE_KERNEL_DATA; Z.lor 0x31400000 PTE_KERNEL_DATA; Z.lor 0x31600000 PTE_KERNEL_DATA;
   Z.lor 0x31800000 PTE_KERNEL_DATA; Z.lor 0x31a00000 PTE_KERNEL_DATA; Z.lor 0x31c00000 PTE_KERNEL_DATA; Z.lor 0x31e00000 PTE_KERNEL_DATA;
   Z.lor 0x32000000 PTE_KERNEL_DATA; Z.lor 0x32200000 PTE_KERNEL_DATA; Z.lor 0x32400000 PTE_KERNEL_DATA; Z.lor 0x32600000 PTE_KERNEL_DATA;
   Z.lor 0x32800000 PTE_KERNEL_DATA; Z.lor 0x32a00000 PTE_KERNEL_DATA; Z.lor 0x32c00000 PTE_KERNEL_DATA; Z.lor 0x32e00000 PTE_KERNEL_DATA;
   Z.lor 0x33000000 PTE_KERNEL_DATA; Z.lor 0x33200000 PTE_KERNEL_DATA; Z.lor 0x33400000 PTE_KERNEL_DATA; Z.lor 0x33600000 PTE_KERNEL_DATA;
   Z.lor 0x33800000 PTE_KERNEL_DATA; Z.lor 0x33a00000 PTE_KERNEL_DATA; Z.lor 0x33c00000 PTE_KERNEL_DATA; Z.lor 0x33e00000 PTE_KERNEL_DATA;
   Z.lor 0x34000000 PTE_KERNEL_DATA; Z.lor 0x34200000 PTE_KERNEL_DATA; Z.lor 0x34400000 PTE_KERNEL_DATA; Z.lor 0x34600000 PTE_KERNEL_DATA;
   Z.lor 0x34800000 PTE_KERNEL_DATA; Z.lor 0x34a00000 PTE_KERNEL_DATA; Z.lor 0x34c00000 PTE_KERNEL_DATA; Z.lor 0x34e00000 PTE_KERNEL_DATA;
   Z.lor 0x35000000 PTE_KERNEL_DATA; Z.lor 0x35200000 PTE_KERNEL_DATA; Z.lor 0x35400000 PTE_KERNEL_DATA; Z.lor 0x35600000 PTE_KERNEL_DATA;
   Z.lor 0x35800000 PTE_KERNEL_DATA; Z.lor 0x35a00000 PTE_KERNEL_DATA; Z.lor 0x35c00000 PTE_KERNEL_DATA; Z.lor 0x35e00000 PTE_KERNEL_DATA;
   Z.lor 0x36000000 PTE_KERNEL_DATA; Z.lor 0x36200000 PTE_KERNEL_DATA; Z.lor 0x36400000 PTE_KERNEL_DATA; Z.lor 0x36600000 PTE_KERNEL_DATA;
   Z.lor 0x36800000 PTE_KERNEL_DATA; Z.lor 0x36a00000 PTE_KERNEL_DATA; Z.lor 0x36c00000 PTE_KERNEL_DATA; Z.lor 0x36e00000 PTE_KERNEL_DATA;
   Z.lor 0x37000000 PTE_KERNEL_DATA; Z.lor 0x37200000 PTE_KERNEL_DATA; Z.lor 0x37400000 PTE_KERNEL_DATA; Z.lor 0x37600000 PTE_KERNEL_DATA;
   Z.lor 0x37800000 PTE_KERNEL_DATA; Z.lor 0x37a00000 PTE_KERNEL_DATA; Z.lor 0x37c00000 PTE_KERNEL_DATA; Z.lor 0x37e00000 PTE_KERNEL_DATA;
   Z.lor 0x38000000 PTE_KERNEL_DATA; Z.lor 0x38200000 PTE_KERNEL_DATA; Z.lor 0x38400000 PTE_KERNEL_DATA; Z.lor 0x38600000 PTE_KERNEL_DATA;
   Z.lor 0x38800000 PTE_KERNEL_DATA; Z.lor 0x38a00000 PTE_KERNEL_DATA; Z.lor 0x38c00000 PTE_KERNEL_DATA; Z.lor 0x38e00000 PTE_KERNEL_DATA;
   Z.lor 0x39000000 PTE_KERNEL_DATA; Z.lor 0x39200000 PTE_KERNEL_DATA; Z.lor 0x39400000 PTE_KERNEL_DATA; Z.lor 0x39600000 PTE_KERNEL_DATA;
   Z.lor 0x39800000 PTE_KERNEL_DATA; Z.lor 0x39a00000 PTE_KERNEL_DATA; Z.lor 0x39c00000 PTE_KERNEL_DATA; Z.lor 0x39e00000 PTE_KERNEL_DATA;
   Z.lor 0x3a000000 PTE_KERNEL_DATA; Z.lor 0x3a200000 PTE_KERNEL_DATA; Z.lor 0x3a400000 PTE_KERNEL_DATA; Z.lor 0x3a600000 PTE_KERNEL_DATA;
   Z.lor 0x3a800000 PTE_KERNEL_DATA; Z.lor 0x3aa00000 PTE_KERNEL_DATA; Z.lor 0x3ac00000 PTE_KERNEL_DATA; Z.lor 0x3ae00000 PTE_KERNEL_DATA;
   Z.lor 0x3b000000 PTE_KERNEL_DATA; Z.lor 0x3b200000 PTE_KERNEL_DATA; Z.lor 0x3b400000 PTE_KERNEL_DATA; Z.lor 0x3b600000 PTE_KERNEL_DATA;
   Z.lor 0x3b800000 PTE_KERNEL_DATA; Z.lor 0x3ba00000 PTE_KERNEL_DATA; Z.lor 0x3bc00000 PTE_KERNEL_DATA; Z.lor 0x3be00000 PTE_KERNEL_DATA;
   Z.lor 0x3c000000 PTE_KERNEL_DATA; Z.lor 0x3c200000 PTE_KERNEL_DATA; Z.lor 0x3c400000 PTE_KERNEL_DATA; Z.lor 0x3c600000 PTE_KERNEL_DATA;
   Z.lor 0x3c800000 PTE_KERNEL_DATA; Z.lor 0x3ca00000 PTE_KERNEL_DATA; Z.lor 0x3cc00000 PTE_KERNEL_DATA; Z.lor 0x3ce00000 PTE_KERNEL_DATA;
   Z.lor 0x3d000000 PTE_KERNEL_DATA; Z.lor 0x3d200000 PTE_KERNEL_DATA; Z.lor 0x3d400000 PTE_KERNEL_DATA; Z.lor 0x3d600000 PTE_KERNEL_DATA;
   Z.lor 0x3d800000 PTE_KERNEL_DATA; Z.lor 0x3da00000 PTE_KERNEL_DATA; Z.lor 0x3dc00000 PTE_KERNEL_DATA; Z.lor 0x3de00000 PTE_KERNEL_DATA;
   Z.lor 0x3e000000 PTE_KERNEL_DATA; Z.lor 0x3e200000 PTE_KERNEL_DATA; Z.lor 0x3e400000 PTE_KERNEL_DATA; Z.lor 0x3e600000 PTE_KERNEL_DATA;
   Z.lor 0x3e800000 PTE_KERNEL_DATA; Z.lor 0x3ea00000 PTE_KERNEL_DATA; Z.lor 0x3ec00000 PTE_KERNEL_DATA; Z.lor 0x3ee00000 PTE_KERNEL_DATA;
   Z.lor 0x3f000000 PTE_KERNEL_DEVICE; Z.lor 0x3f200000 PTE_KERNEL_DEVICE; Z.lor 0x3f400000 PTE_KERNEL_DEVICE; Z.lor 0x3f600000 PTE_KERNEL_DEVICE;
   Z.lor 0x3f800000 PTE_KERNEL_DEVICE; Z.lor 0x3fa00000 PTE_KERNEL_DEVICE; Z.lor 0x3fc00000 PTE_KERNEL_DEVICE; Z.lor 0x3fe00000 PTE_KERNEL_DEVICE].

Section tables.
(** The kernel addresses at which the linker places the tables. *)
Context (level3_at level2_at kernel_pt_at : Z).

(** The entries of an initialiser that are not given are zero. *)
Definition kernel_pt_level2 : list Z :=
  [u64 (K2P level3_at + PTE_TABLE); Z.lor 0x40000000 PTE_KERNEL_DEVICE; 0; Z.lor 0xC0000000 PTE_KERNEL_DEVICE] ++ replicate 508 0.

Definition kernel_pt : list Z := [u64 (K2P level2_at + PTE_TABLE)] ++ replicate 511 0.

(** * The hardware *)

(** The table at a physical address. *)
Definition table_at (a : Z) : list Z :=
  if a =? K2P level3_at then kernel_pt_level3
  else if a =? K2P level2_at then kernel_pt_level2
  else if a =? K2P kernel_pt_at then kernel_pt else [].

(** Bits 47 to [n] of a descriptor, and the memory type that it selects. *)
Definition output (n d : Z) : Z := d mod 2 ^ 48 - d mod 2 ^ n.
Definition attr_index (d : Z) : Z := (d / 4) mod 8.

(** The walk from the level that translates the bits from [shift] on: a block ends it at the
    levels of 1 GiB and 2 MiB, a page at the last level. *)
Fixpoint table_walk (n : nat) (shift table va : Z) : option (Z * Z) :=
  let d := zget (table_at table) ((va / 2 ^ shift) mod 512) in
  if d mod 4 =? 3 then
    match n with
    | O => Some (output 12 d + va mod 2 ^ 12, attr_index d)
    | S n' => table_walk n' (shift - 9) (output 12 d) va
    end
  else if (d mod 4 =? 1) && ((shift =? 30) || (shift =? 21)) then Some (output shift d + va mod 2 ^ shift, attr_index d)
  else None.

(** The translation of a kernel address, and the type of its memory. *)
Definition translate (va : Z) : option (Z * Z) := table_walk 3 39 (K2P kernel_pt_at) va.
End tables.

(** * The kernel space is the physical memory *)

Definition table_address (a : Z) : Prop := KSPACE_MASK <= a < KSPACE_MASK + 2 ^ 47 /\ (a - KSPACE_MASK) mod 2 ^ 12 = 0.

(** The blocks of 2 MiB. *)
Definition block_type (i : Z) : Z := if i <? 504 then MT_NORMAL else MT_DEVICE_nGnRnE.

Lemma level3_entry i : 0 <= i < 512 ->
  let d := zget kernel_pt_level3 i in d mod 4 = 1 /\ output 21 d = i * 2 ^ 21 /\ attr_index d = block_type i.
Proof.
  intros Hi.
  assert (Hall : forallb (fun n => let i := Z.of_nat n in let d := zget kernel_pt_level3 i in
    (d mod 4 =? 1) && (output 21 d =? i * 2 ^ 21) && (attr_index d =? block_type i)) (seq 0 512) = true) by (vm_compute; reflexivity).
  rewrite forallb_forall in Hall. specialize (Hall (Z.to_nat i)). rewrite in_seq, Z2Nat.id in Hall by lia.
  cbv zeta in *. rewrite !andb_true_iff, !Z.eqb_eq in Hall. destruct Hall as [[H1 H2] H3]; [lia | done].
Qed.

Lemma table_entry a : table_address a -> let d := u64 (K2P a + PTE_TABLE) in d mod 4 = 3 /\ output 12 d = K2P a.
Proof.
  intros [Hr Ha]. unfold K2P. rewrite (u64_small (a - _)) by lia. unfold PTE_TABLE. cbv zeta. rewrite u64_small by lia.
  set (x := a - KSPACE_MASK) in *. assert (Hx : 0 <= x < 2 ^ 47) by (unfold x; lia). clearbody x. clear a Hr.
  unfold output. split; dlia.
Qed.

(** The indices of a kernel address at the first three levels. *)
Lemma kernel_index pa : 0 <= pa < 2 ^ 32 ->
  (P2K pa / 2 ^ 39) mod 512 = 0 /\ (P2K pa / 2 ^ 30) mod 512 = pa / 2 ^ 30 /\
  (P2K pa / 2 ^ 21) mod 512 = (pa / 2 ^ 21) mod 512 /\ P2K pa mod 2 ^ 30 = pa mod 2 ^ 30 /\ P2K pa mod 2 ^ 21 = pa mod 2 ^ 21.
Proof. intros Hp. rewrite P2K_small by lia. unfold KSPACE_MASK. split_and!; dlia. Qed.

Section linear.
Context (level3_at level2_at kernel_pt_at : Z).
Context (H3 : table_address level3_at) (H2 : table_address level2_at) (H1 : table_address kernel_pt_at).
Context (H32 : level3_at <> level2_at) (H31 : level3_at <> kernel_pt_at) (H21 : level2_at <> kernel_pt_at).

Lemma K2P_inj a b : table_address a -> table_address b -> K2P a = K2P b -> a = b.
Proof. intros [Ha _] [Hb _]. unfold K2P. rewrite !u64_small by lia. lia. Qed.

Lemma tables_found :
  table_at level3_at level2_at kernel_pt_at (K2P level3_at) = kernel_pt_level3 /\
  table_at level3_at level2_at kernel_pt_at (K2P level2_at) = kernel_pt_level2 level3_at /\
  table_at level3_at level2_at kernel_pt_at (K2P kernel_pt_at) = kernel_pt level2_at.
Proof.
  unfold table_at. rewrite !Z.eqb_refl.
  replace (K2P level2_at =? K2P level3_at) with false by (symmetry; apply Z.eqb_neq; intros ?%K2P_inj; done).
  replace (K2P kernel_pt_at =? K2P level3_at) with false by (symmetry; apply Z.eqb_neq; intros ?%K2P_inj; done).
  replace (K2P kernel_pt_at =? K2P level2_at) with false by (symmetry; apply Z.eqb_neq; intros ?%K2P_inj; done). done.
Qed.

(** From the root to the table of the levels of 1 GiB. *)
Lemma walk_root pa : 0 <= pa < 2 ^ 32 ->
  translate level3_at level2_at kernel_pt_at (P2K pa) = table_walk level3_at level2_at kernel_pt_at 2 30 (K2P level2_at) (P2K pa).
Proof.
  intros Hp. destruct tables_found as (_ & _ & T1). destruct (kernel_index pa Hp) as (I0 & _).
  unfold translate. cbn [table_walk]. rewrite T1, I0. change (zget (kernel_pt level2_at) 0) with (u64 (K2P level2_at + PTE_TABLE)).
  destruct (table_entry level2_at H2) as [-> ->]. done.
Qed.

(** The first GiB goes through the blocks of 2 MiB. *)
Lemma walk_blocks pa : 0 <= pa < 2 ^ 30 -> translate level3_at level2_at kernel_pt_at (P2K pa) = Some (pa, block_type (pa / 2 ^ 21)).
Proof.
  intros Hp. rewrite walk_root by lia. destruct tables_found as (T3 & T2 & _). destruct (kernel_index pa) as (_ & I1 & I2 & _ & M2); [lia |].
  assert (Hi : pa / 2 ^ 30 = 0) by dlia. assert (Hj : (pa / 2 ^ 21) mod 512 = pa / 2 ^ 21) by dlia.
  cbn [table_walk]. rewrite T2, I1, Hi. change (zget (kernel_pt_level2 level3_at) 0) with (u64 (K2P level3_at + PTE_TABLE)).
  destruct (table_entry level3_at H3) as [-> ->]. change (3 =? 3) with true. cbn iota. change (30 - 9) with 21.
  rewrite T3, I2, Hj, M2. destruct (level3_entry (pa / 2 ^ 21)) as (-> & -> & ->); [dlia |].
  change (1 =? 3) with false. change ((1 =? 1) && ((21 =? 30) || (21 =? 21))) with true. cbn iota. repeat f_equal. dlia.
Qed.

(** The other entries are blocks of 1 GiB, or not valid. *)
Lemma walk_gib pa : 2 ^ 30 <= pa < 2 ^ 32 ->
  translate level3_at level2_at kernel_pt_at (P2K pa) = if pa / 2 ^ 30 =? 2 then None else Some (pa, MT_DEVICE_nGnRnE).
Proof.
  intros Hp. rewrite walk_root by lia. destruct tables_found as (_ & T2 & _). destruct (kernel_index pa) as (_ & I1 & _ & M1 & _); [lia |].
  assert (Hi : pa / 2 ^ 30 = 1 \/ pa / 2 ^ 30 = 2 \/ pa / 2 ^ 30 = 3) by dlia.
  cbn [table_walk]. rewrite T2, I1, M1. destruct Hi as [Hi|[Hi|Hi]]; rewrite Hi.
  - change (zget (kernel_pt_level2 level3_at) 1) with (Z.lor 0x40000000 PTE_KERNEL_DEVICE). cbn -[Z.modulo Z.add].
    change (Some (1073741824 + pa mod 2 ^ 30, 0) = Some (pa, 0)). repeat f_equal. dlia.
  - done.
  - change (zget (kernel_pt_level2 level3_at) 3) with (Z.lor 0xC0000000 PTE_KERNEL_DEVICE). cbn -[Z.modulo Z.add].
    change (Some (3221225472 + pa mod 2 ^ 30, 0) = Some (pa, 0)). repeat f_equal. dlia.
Qed.
End linear.

(** C30: the page table that the kernel runs on maps the kernel space onto the physical
    memory by the fixed offset of P2K: below the devices at 0x3f000000, which is the top of
    the memory the page allocator hands out, as normal memory; the devices up to 2 GiB and
    the last GiB as device memory; the third GiB is not mapped. *)
Theorem kernel_space_linear level3_at level2_at kernel_pt_at pa :
  table_address level3_at -> table_address level2_at -> table_address kernel_pt_at ->
  NoDup [level3_at; level2_at; kernel_pt_at] -> 0 <= pa < 2 ^ 32 ->
  translate level3_at level2_at kernel_pt_at (P2K pa) =
    if pa <? phystop then Some (pa, MT_NORMAL)
    else if (pa <? 0x80000000) || (0xC0000000 <=? pa) then Some (pa, MT_DEVICE_nGnRnE) else None.
Proof.
  intros H3 H2 H1 Hd Hp. apply NoDup_cons in Hd as [N1 [N2 _]%NoDup_cons].
  assert (D32 : level3_at <> level2_at) by (intros ->; apply N1; left).
  assert (D31 : level3_at <> kernel_pt_at) by (intros ->; apply N1; right; left).
  assert (D21 : level2_at <> kernel_pt_at) by (intros ->; apply N2; left).
  destruct (decide (pa < 2 ^ 30)).
  - rewrite walk_blocks by (done || lia). unfold block_type, phystop. destruct (Z.ltb_spec (pa / 2 ^ 21) 504);
      (destruct (Z.ltb_spec pa 0x3f000000); [try done; dlia |]); [dlia |]. replace (pa <? 0x80000000) with true by lia. done.
  - rewrite walk_gib by (done || lia). unfold phystop. replace (pa <? 0x3f000000) with false by lia.
    destruct (Z.eqb_spec (pa / 2 ^ 30) 2).
    + replace (pa <? 0x80000000) with false by (symmetry; apply Z.ltb_ge; dlia). replace (0xC0000000 <=? pa) with false by (symmetry; apply Z.leb_gt; dlia). done.
    + replace ((pa <? 0x80000000) || (0xC0000000 <=? pa)) with true; [done |]. symmetry. apply orb_true_iff.
      destruct (Z.ltb_spec pa 0x80000000); [by left | right; apply Z.leb_le; dlia].
Qed.

Lemma kernel_space_linear_witness :
  translate 0xffff000000090000 0xffff000000091000 0xffff000000092000 (P2K 0x80000) = Some (0x80000, MT_NORMAL).
Proof. apply (kernel_space_linear 0xffff000000090000 0xffff000000091000 0xffff000000092000 0x80000); [done.. | | done]. apply NoDup_cons_2; [set_solver |]. apply NoDup_cons_2; [set_solver | apply NoDup_singleton]. Defined.
