(* ===== verification/PageTable.v ===== *)
(** The page tables of VirtualMemory.v as trees of page frames: the shape of a
    tree in memory, the hardware's walk, the pages a tree occupies, and what
    linking, replacing and clearing an entry does to it. *)
From S2P Require Import Prelude Bytes CString PhysMem Arena VirtualMemory.
From Stdlib Require Import Lia.

(** * Entries *)

(** A page frame: a page-aligned address of the machine's memory. *)
Definition frame (p : Z) : Prop := in_ram p = true /\ p mod PAGE_SIZE = 0.

Definition entry (r : Z -> list Z) (p i : Z) : Z := le_dec (slice (r p) (Z.to_nat (8 * i)) 8).
Definition set_entry (r : Z -> list Z) (p i v : Z) : Z -> list Z :=
  set_frame r p (splice (r p) (Z.to_nat (8 * i)) (le_enc 8 v)).

(** Every frame holds a page of bytes. *)
Definition sized (r : Z -> list Z) : Prop := forall p, length (r p) = 4096%nat.

Lemma frame_bounds p : frame p -> KSPACE_MASK <= p < KSPACE_MASK + phystop /\ p mod 4096 = 0.
Proof.
  intros [H Hm]. unfold in_ram in H. apply andb_true_iff in H as [H1%Z.leb_le H2%Z.ltb_lt].
  change (P2K phystop) with (KSPACE_MASK + phystop) in H2. done.
Qed.

Lemma frame_is_page p : frame p -> is_page p.
Proof. intros [Hb Hm]%frame_bounds. unfold KSPACE_MASK, phystop in Hb. split; [lia | done]. Qed.

Lemma frame_ne0 p : frame p -> p <> 0.
Proof. intros [Hp _]%frame_is_page. lia. Qed.

(** The addresses inside a frame. *)
Lemma in_frame p o : frame p -> 0 <= o < 4096 ->
  in_ram (p + o) = true /\ frame_of (p + o) = p /\ (p + o) mod PAGE_SIZE = o.
Proof.
  intros [Hb Hm]%frame_bounds Ho. assert (H : (p + o) mod 4096 = o) by dlia.
  unfold in_ram, frame_of, PAGE_SIZE. rewrite H. change (P2K phystop) with (KSPACE_MASK + phystop).
  unfold KSPACE_MASK, phystop in *. split; [| split; [lia | done]].
  apply andb_true_iff. split; [apply Z.leb_le | apply Z.ltb_lt]; dlia.
Qed.

(** ** Encoding of entries *)

Definition flags (d : nat) : Z := if decide (d = 0)%nat then PTE_USER_DATA else PTE_TABLE.

Lemma land_page x : 0 <= x < 2 ^ 32 -> Z.land x 0xFFFFF000 = 4096 * (x / 4096).
Proof.
  intros Hx. change 0xFFFFF000 with (Z.shiftl (Z.ones 20) 12).
  change (4096 * (x / 4096)) with (2 ^ 12 * (x / 2 ^ 12)).
  rewrite <- (Z.shiftr_div_pow2 x 12), (Z.mul_comm (2 ^ 12)), <- Z.shiftl_mul_pow2 by lia.
  apply Z.bits_inj'. intros n Hn. rewrite Z.land_spec, !Z.shiftl_spec by lia.
  destruct (Z.lt_ge_cases n 12); [rewrite !(Z.testbit_neg_r _ (n - 12)) by lia; apply andb_false_r |].
  rewrite Z.shiftr_spec by lia. replace (n - 12 + 12) with n by lia.
  destruct (Z.lt_ge_cases n 32) as [H'|H'].
  - rewrite Z.ones_spec_low by lia. apply andb_true_r.
  - rewrite Z.ones_spec_high by lia. rewrite andb_false_r. symmetry.
    rewrite <- (Z.mod_small x (2 ^ 32)) by lia. by apply Z.mod_pow2_bits_high.
Qed.

Lemma lor_page x f : 0 <= x -> x mod 4096 = 0 -> 0 <= f < 4096 -> Z.lor x f = x + f.
Proof.
  intros Hx Hm Hf. assert (Z.land x f = 0) as H0.
  { apply Z.bits_inj'. intros n Hn. rewrite Z.land_spec, Z.bits_0.
    destruct (Z.lt_ge_cases n 12) as [H|H].
    - rewrite <- (Z.mod_pow2_bits_low x 12 n) by lia. change (2 ^ 12) with 4096. by rewrite Hm, Z.bits_0.
    - rewrite <- (Z.mod_small f (2 ^ 12)) by lia. rewrite (Z.mod_pow2_bits_high f 12 n) by lia. apply andb_false_r. }
  pose proof (Z.add_lor_land x f). lia.
Qed.

Lemma flags_bound d : 0 <= flags d < 4096.
Proof. unfold flags. case_decide; by vm_compute. Qed.

Lemma K2P_frame p : frame p -> K2P p = p - KSPACE_MASK /\ 0 <= K2P p < phystop /\ K2P p mod 4096 = 0.
Proof.
  intros [Hb Hm]%frame_bounds. unfold K2P. rewrite u64_small by (unfold KSPACE_MASK, phystop in *; lia).
  unfold KSPACE_MASK, phystop in *. split; [done |]. dlia.
Qed.

(** An entry made of a frame and flags gives them back. *)
Lemma pte_decode p f : frame p -> 0 <= f < 4096 ->
  P2K (PTE_ADDRESS (Z.lor (K2P p) f)) = p /\ PTE_FLAGS (Z.lor (K2P p) f) = f.
Proof.
  intros Hp Hf. destruct (K2P_frame p Hp) as (He & Hb & Hm). rewrite lor_page by lia.
  unfold PTE_ADDRESS, PTE_FLAGS. change (u32 (Z.lnot 4095)) with 0xFFFFF000.
  rewrite land_page by (unfold phystop in Hb; lia). split.
  - replace (4096 * ((K2P p + f) / 4096)) with (K2P p) by dlia.
    rewrite He. unfold P2K. replace (p - KSPACE_MASK + KSPACE_MASK) with p by lia.
    apply u64_small. pose proof (frame_is_page p Hp) as [? _]. lia.
  - change 4095 with (Z.ones 12). rewrite Z.land_ones by lia. change (2 ^ 12) with 4096. dlia.
Qed.

Lemma pte_valid p d : frame p -> (Z.land (Z.lor (K2P p) (flags d)) PTE_VALID =? 0) = false.
Proof.
  intros Hp. destruct (K2P_frame p Hp) as (He & Hb & Hm).
  rewrite lor_page by (try apply flags_bound; lia). unfold PTE_VALID. change 1 with (Z.ones 1).
  rewrite Z.land_ones by lia. change (2 ^ 1) with 2. apply Z.eqb_neq.
  assert (flags d mod 2 = 1) by (unfold flags; by case_decide). pose proof (flags_bound d). dlia.
Qed.

Lemma pte_bound p d : frame p -> 0 <= Z.lor (K2P p) (flags d) < 2 ^ 64.
Proof.
  intros Hp. destruct (K2P_frame p Hp) as (He & Hb & Hm). pose proof (flags_bound d).
  rewrite lor_page by lia. unfold phystop in Hb. lia.
Qed.

(** ** Reading and writing entries *)

Lemma set_frame_eq r p b : set_frame r p b p = b.
Proof. unfold set_frame. by rewrite Z.eqb_refl. Qed.

Lemma set_frame_ne r p b q : q <> p -> set_frame r p b q = r q.
Proof. intros H%Z.eqb_neq. unfold set_frame. by rewrite H. Qed.

Lemma sized_set r p b : sized r -> length b = 4096%nat -> sized (set_frame r p b).
Proof. intros Hr Hb q. unfold set_frame. by case_match. Qed.

Lemma sized_set_entry r p i v : sized r -> 0 <= i < 512 -> sized (set_entry r p i v).
Proof. intros Hr Hi. apply sized_set; [done |]. rewrite length_splice; [apply Hr |]. rewrite length_le_enc, Hr. lia. Qed.

Lemma entry_set_eq r p i v : sized r -> 0 <= i < 512 -> 0 <= v < 2 ^ 64 -> entry (set_entry r p i v) p i = v.
Proof.
  intros Hr Hi Hv. unfold entry, set_entry. rewrite set_frame_eq.
  rewrite <- (length_le_enc 8 v) at 2. rewrite slice_splice by (rewrite length_le_enc, Hr; lia).
  by apply le_dec_enc_small.
Qed.

Lemma entry_set_ne r p i v j : sized r -> 0 <= i < 512 -> 0 <= j < 512 -> i <> j ->
  entry (set_entry r p i v) p j = entry r p j.
Proof.
  intros Hr Hi Hj Hij. unfold entry, set_entry. rewrite set_frame_eq.
  rewrite slice_splice_disjoint; rewrite ?length_le_enc, ?Hr; [done | lia..].
Qed.

Lemma set_entry_other r p i v q : q <> p -> set_entry r p i v q = r q.
Proof. apply set_frame_ne. Qed.

Lemma entry_clear r p i : 0 <= i < 512 -> entry (set_frame r p (replicate 4096 0)) p i = 0.
Proof.
  intros Hi. unfold entry, slice. rewrite set_frame_eq, drop_replicate, take_replicate.
  rewrite Nat.min_l by lia. reflexivity.
Qed.

(** ** The memory operations *)

Section memory.
Context {P : Type} (PA : PageAllocator P) (link : P -> Z -> Z) (E : string -> Prop).

Lemma get_frame_ok p o (s : vmem P) Q : frame p -> 0 <= o < 4096 -> Q (ram s p) s -> wp E (get_frame (p + o)) Q s.
Proof.
  intros Hp Ho HQ. destruct (in_frame p o Hp Ho) as (H1 & H2 & _). unfold get_frame. wp_steps. rewrite H1, H2.
  by apply wp_ret.
Qed.

Lemma put_frame_ok p o b (s : vmem P) Q : frame p -> 0 <= o < 4096 ->
  Q tt (mkVmem (vm_pool s) (set_frame (ram s) p b)) -> wp E (put_frame (p + o) b) Q s.
Proof.
  intros Hp Ho HQ. destruct (in_frame p o Hp Ho) as (H1 & H2 & _). unfold put_frame. rewrite H1.
  apply wp_modify. by rewrite H2.
Qed.

Lemma load64_ok p i (s : vmem P) Q : frame p -> 0 <= i < 512 -> Q (entry (ram s) p i) s -> wp E (load64 (p + 8 * i)) Q s.
Proof.
  intros Hp Hi HQ. unfold load64. apply wp_bind, get_frame_ok; [done | lia |]. apply wp_ret.
  by rewrite (proj2 (proj2 (in_frame p (8 * i) Hp ltac:(lia)))).
Qed.

Lemma store_bytes_ok p o data (s : vmem P) Q : frame p -> 0 <= o < 4096 ->
  Q tt (mkVmem (vm_pool s) (set_frame (ram s) p (splice (ram s p) (Z.to_nat o) data))) ->
  wp E (store_bytes (p + o) data) Q s.
Proof.
  intros Hp Ho HQ. unfold store_bytes. apply wp_bind, get_frame_ok; [done.. |].
  rewrite (proj2 (proj2 (in_frame p o Hp Ho))). by apply put_frame_ok.
Qed.

Lemma store64_ok p i v (s : vmem P) Q : frame p -> 0 <= i < 512 ->
  Q tt (mkVmem (vm_pool s) (set_entry (ram s) p i v)) -> wp E (store64 (p + 8 * i) v) Q s.
Proof. intros Hp Hi HQ. unfold store64. apply store_bytes_ok; [done | lia | done]. Qed.

Lemma clear_page_ok p (s : vmem P) Q : frame p -> length (ram s p) = 4096%nat ->
  Q tt (mkVmem (vm_pool s) (set_frame (ram s) p (replicate 4096 0))) -> wp E (clear_page p) Q s.
Proof.
  intros Hp Hl HQ. unfold clear_page. rewrite <- (Z.add_0_r p). apply store_bytes_ok; [done | lia |].
  change (Z.to_nat 0) with 0%nat. by rewrite splice_full by (by rewrite length_replicate, Hl).
Qed.

Lemma copy_page_ok p q (s : vmem P) Q : frame p -> frame q ->
  Q tt (mkVmem (vm_pool s) (set_frame (ram s) p (ram s q))) -> wp E (copy_page p q) Q s.
Proof.
  intros Hp Hq HQ. unfold copy_page. rewrite <- (Z.add_0_r p), <- (Z.add_0_r q).
  apply wp_bind, get_frame_ok; [done | lia |]. by apply put_frame_ok.
Qed.

Lemma vm_kalloc_ok (s : vmem P) l Q : pa_inv (vm_pool s) l ->
  (forall pool, pa_inv pool (tail l) -> Q (hd 0 l) (mkVmem pool (ram s))) -> wp E (vm_kalloc PA) Q s.
Proof.
  intros HI HQ. destruct (allocate_ok _ _ HI) as (pool & Ha & HI'). unfold vm_kalloc, wp. rewrite Ha. by apply HQ.
Qed.

Lemma vm_kfree_ok p (s : vmem P) l Q : pa_inv (vm_pool s) l -> p ∉ l -> frame p ->
  (forall pool v, pa_inv pool (p :: l) -> Q tt (mkVmem pool (set_entry (ram s) p 0 v))) ->
  wp E (vm_kfree PA link p) Q s.
Proof.
  intros HI Hp Hf HQ. destruct (free_page_ok _ _ p HI Hp (frame_is_page p Hf)) as (pool & Ha & HI').
  unfold vm_kfree. apply wp_bind. unfold wp at 1. rewrite Ha. cbn. wp_steps.
  rewrite <- (Z.add_0_r p) at 1. apply (store64_ok p 0); [done | lia |]. by apply HQ.
Qed.
End memory.

(** * Trees of pages *)

(** [pt d]: a table with [d] levels below it; level 0 is a page of data. *)
Fixpoint pt (d : nat) : Type :=
  match d with
  | O => Z
  | S d' => (Z * list (option (pt d')))%type
  end.

Definition node {d} (p : Z) (kids : list (option (pt d))) : pt (S d) := (p, kids).

Lemma node_inv {d} (t : pt (S d)) : exists p kids, t = node p kids.
Proof. destruct t as [p kids]. by exists p, kids. Qed.

Definition top {d} : pt d -> Z :=
  match d with
  | O => fun p => p
  | S _ => fun t => t.1
  end.

(** The pages of a tree, the tables and the data. *)
Fixpoint tpages {d} : pt d -> list Z :=
  match d with
  | O => fun p => [p]
  | S d' => fun t => t.1 :: concat (from_option tpages [] <$> t.2)
  end.
Definition opages {d} (o : option (pt d)) : list Z := from_option tpages [] o.
Definition kpages {d} (kids : list (option (pt d))) : list Z := concat (opages <$> kids).

(** The tree [t] is what the memory holds at [top t]. *)
Fixpoint shape {d} (r : Z -> list Z) : pt d -> Prop :=
  match d with
  | O => fun _ => True
  | S d' => fun t =>
      length t.2 = 512%nat /\
      forall i, 0 <= i < 512 ->
        match t.2 !! Z.to_nat i with
        | Some (Some k) => entry r t.1 i = Z.lor (K2P (top k)) (flags d') /\ shape r k
        | _ => (Z.land (entry r t.1 i) PTE_VALID =? 0) = true
        end
  end.

(** The index of [va] in a table with [d] levels of tables below it. *)
Definition ix (d : nat) (va : Z) : Z := (va / 2 ^ (12 + 9 * Z.of_nat d)) mod 512.

(** The page that backs the virtual address [va]. *)
Fixpoint find {d} : pt d -> Z -> option Z :=
  match d with
  | O => fun p _ => Some p
  | S d' => fun t va =>
      match t.2 !! Z.to_nat (ix d' va) with
      | Some (Some k) => find k va
      | _ => None
      end
  end.

(** The walk of the memory management unit from the table at [p]. *)
Fixpoint mmu (d : nat) (r : Z -> list Z) (p va : Z) : option Z :=
  match d with
  | O => Some p
  | S d' =>
      let e := entry r p (ix d' va) in
      if Z.land e PTE_VALID =? 0 then None else mmu d' r (P2K (PTE_ADDRESS e)) va
  end.

(** The page the page table [pgdir] gives to [va], if any. *)
Definition translate (r : Z -> list Z) (pgdir va : Z) : option Z := mmu 4 r pgdir va.

(** The byte the process sees at [va]. *)
Definition user_byte (r : Z -> list Z) (pgdir va : Z) : option Z :=
  p ← translate r pgdir va; r p !! Z.to_nat (va mod PAGE_SIZE).

Definition empty_table (d : nat) (p : Z) : pt (S d) := node p (replicate 512 None).

Lemma ix_range d va : 0 <= ix d va < 512.
Proof. apply Z.mod_pos_bound. lia. Qed.
#[local] Hint Resolve ix_range : core.

Lemma tpages_S {d} (p : Z) (kids : list (option (pt d))) : tpages (node p kids) = p :: kpages kids.
Proof. done. Qed.

Lemma top_in_pages {d} (t : pt d) : top t ∈ tpages t.
Proof. destruct d; [apply list_elem_of_singleton; done | left]. Qed.

Lemma kpages_split {d} (kids : list (option (pt d))) i o : kids !! i = Some o ->
  kpages kids = kpages (take i kids) ++ opages o ++ kpages (drop (S i) kids).
Proof.
  intros H. unfold kpages. rewrite <- (take_drop_middle kids i o H) at 1.
  by rewrite fmap_app, fmap_cons, concat_app.
Qed.

Lemma kpages_insert {d} (kids : list (option (pt d))) i o o' : kids !! i = Some o ->
  kpages (<[i := o']> kids) ++ opages o ≡ₚ opages o' ++ kpages kids.
Proof.
  intros H. pose proof (lookup_lt_Some _ _ _ H) as Hlt. rewrite (kpages_split kids i o H).
  rewrite (kpages_split (<[i:=o']> kids) i o') by (by apply list_lookup_insert_eq).
  rewrite take_insert_ge, drop_insert_lt by lia. solve_Permutation.
Qed.

Lemma elem_of_kpages {d} (kids : list (option (pt d))) i k p :
  kids !! i = Some (Some k) -> p ∈ tpages k -> p ∈ kpages kids.
Proof. intros H Hp. rewrite (kpages_split kids i (Some k) H). set_solver. Qed.

Lemma kpages_disjoint {d} (kids : list (option (pt d))) i j k k' p : NoDup (kpages kids) -> i <> j ->
  kids !! i = Some (Some k) -> kids !! j = Some (Some k') -> p ∈ tpages k -> p ∉ tpages k'.
Proof.
  intros Hn Hij Hi Hj Hp Hp'. rewrite (kpages_split kids i (Some k) Hi) in Hn.
  apply NoDup_app in Hn as (_ & H1 & H2). apply NoDup_app in H2 as (_ & H2 & _).
  destruct (decide (j < i)%nat).
  - apply (H1 p); [| set_solver]. eapply elem_of_kpages; [| exact Hp']. by rewrite lookup_take_lt.
  - apply (H2 p Hp). apply (elem_of_kpages _ (j - S i) k' p); [| done].
    rewrite lookup_drop. by replace (S i + (j - S i))%nat with j by lia.
Qed.

Lemma kpages_empty d n : kpages (d := d) (replicate n None) = [].
Proof. unfold kpages. rewrite fmap_replicate. induction n; [done |]. cbn in *. done. Qed.

Lemma shape_S {d} r (p : Z) (kids : list (option (pt d))) :
  shape r (node p kids) <->
  length kids = 512%nat /\
  forall i, 0 <= i < 512 ->
    match kids !! Z.to_nat i with
    | Some (Some k) => entry r p i = Z.lor (K2P (top k)) (flags d) /\ shape r k
    | _ => (Z.land (entry r p i) PTE_VALID =? 0) = true
    end.
Proof. done. Qed.

Lemma find_S {d} (p : Z) (kids : list (option (pt d))) va :
  find (node p kids) va =
  match kids !! Z.to_nat (ix d va) with
  | Some (Some k) => find k va
  | _ => None
  end.
Proof. done. Qed.

(** The shape depends on the pages of the tree only. *)
Lemma shape_ext {d} : forall (t : pt d) r r', (forall p, p ∈ tpages t -> r' p = r p) -> shape r t -> shape r' t.
Proof.
  induction d as [|d IH]; [done |]. intros t r r' Hr. destruct (node_inv t) as (p & kids & ->). rewrite !shape_S. intros [Hl Hs]. split; [done |].
  rewrite tpages_S in Hr. intros i Hi. specialize (Hs i Hi).
  assert (entry r' p i = entry r p i) as -> by (unfold entry; rewrite Hr by left; done).
  destruct (kids !! Z.to_nat i) as [[k|]|] eqn:Hk; [| done..]. destruct Hs as [He Hk'].
  split; [done |]. eapply IH; [| done]. intros q Hq. apply Hr. right. by eapply elem_of_kpages.
Qed.

Lemma shape_kid {d} r p (kids : list (option (pt d))) i : shape r (node p kids) -> 0 <= i < 512 ->
  match kids !! Z.to_nat i with
  | Some (Some k) => entry r p i = Z.lor (K2P (top k)) (flags d) /\ shape r k
  | Some None => (Z.land (entry r p i) PTE_VALID =? 0) = true
  | None => False
  end.
Proof.
  rewrite shape_S. intros [Hl Hs] Hi. specialize (Hs i Hi). destruct (kids !! Z.to_nat i) as [[k|]|] eqn:Hk; [done.. |].
  apply lookup_ge_None in Hk. lia.
Qed.

(** Writing entry [i] of the top table: an empty entry, or a link to a tree. *)
Lemma shape_set {d} r p (kids : list (option (pt d))) i (o : option (pt d)) v :
  sized r -> shape r (node p kids) -> 0 <= i < 512 -> 0 <= v < 2 ^ 64 ->
  p ∉ kpages (<[Z.to_nat i := o]> kids) ->
  match o with
  | Some k => v = Z.lor (K2P (top k)) (flags d) /\ shape r k
  | None => (Z.land v PTE_VALID =? 0) = true
  end ->
  shape (set_entry r p i v) (node p (<[Z.to_nat i := o]> kids)).
Proof.
  intros Hz Hs Hi Hv Hp Ho. apply shape_S. split; [rewrite length_insert; apply Hs |]. intros j Hj.
  assert (Hk : forall j k, <[Z.to_nat i := o]> kids !! j = Some (Some k) -> shape r k -> shape (set_entry r p i v) k).
  { intros j' k Hk. apply shape_ext. intros q Hq. apply set_entry_other. intros ->. apply Hp. by eapply elem_of_kpages. }
  destruct (decide (j = i)) as [->|Hji].
  - assert (<[Z.to_nat i := o]> kids !! Z.to_nat i = Some o) as Hii.
    { apply list_lookup_insert_eq. rewrite (proj1 (proj1 (shape_S r p kids) Hs)). lia. }
    rewrite Hii, entry_set_eq by done. destruct o as [k|]; [| done]. destruct Ho. eauto.
  - specialize (Hk (Z.to_nat j)). rewrite list_lookup_insert_ne by lia. rewrite list_lookup_insert_ne in Hk by lia.
    rewrite entry_set_ne by (done || lia).
    pose proof (shape_kid r p kids j Hs Hj) as H. destruct (kids !! Z.to_nat j) as [[k|]|]; [| done..].
    destruct H. auto.
Qed.

Lemma shape_empty d r p : shape (set_frame r p (replicate 4096 0)) (empty_table d p).
Proof.
  apply shape_S. split; [apply length_replicate |]. intros i Hi.
  rewrite lookup_replicate_2 by lia. by rewrite entry_clear.
Qed.

(** The hardware's walk reads the tree. *)
Lemma mmu_find {d} : forall (t : pt d) r va, shape r t -> Forall frame (tpages t) -> mmu d r (top t) va = find t va.
Proof.
  induction d as [|d IH]; [done |]. intros t r va Hs Hf. destruct (node_inv t) as (p & kids & ->). rewrite find_S. cbn [mmu top node fst snd].
  pose proof (shape_kid r p kids (ix d va) Hs (ix_range d va)) as H.
  destruct (kids !! Z.to_nat (ix d va)) as [[k|]|] eqn:Hk; [| by rewrite H | done].
  destruct H as [-> Hk']. rewrite tpages_S, Forall_cons in Hf. destruct Hf as [_ Hf].
  assert (Forall frame (tpages k)) as Hfk.
  { apply Forall_forall. intros q Hq. eapply Forall_forall; [exact Hf |]. by eapply elem_of_kpages. }
  assert (frame (top k)) by (eapply Forall_forall; [exact Hfk |]; apply top_in_pages).
  rewrite pte_valid, (proj1 (pte_decode (top k) (flags d) ltac:(done) (flags_bound d))) by done. by apply IH.
Qed.

Lemma find_empty d p va : find (empty_table d p) va = None.
Proof. unfold empty_table. rewrite find_S. by rewrite lookup_replicate_2 by (pose proof (ix_range d va); lia). Qed.
