(* ===== verification/VirtualMemorySpec.v ===== *)
(** The operations of VirtualMemory.v on the trees of PageTable.v: every
    operation conserves the pages (those of the address space and the free ones),
    touches no page outside them, and its effect on the translation is stated. *)
From S2P Require Import Prelude Bytes CString PhysMem Arena VirtualMemory PageTable.
From Stdlib Require Import Lia.

#[local] Hint Resolve ix_range : core.

Section spec.
Context {P : Type} (PA : PageAllocator P) (E : string -> Prop).

(** The address space [t] and the free pages [l] of the machine. *)
Record space {d} (s : vmem P) (t : pt d) (l : list Z) : Prop := {
  sp_pool : pa_inv (vm_pool s) l;
  sp_size : sized (ram s);
  sp_nodup : NoDup (tpages t ++ l);
  sp_frames : Forall frame (tpages t ++ l);
  sp_shape : shape (ram s) t
}.

(** Only the pages [X] may have changed. *)
Definition kept (s s' : vmem P) (X : list Z) : Prop := forall p, p ∉ X -> ram s' p = ram s p.

Lemma kept_refl s X : kept s s X.
Proof. done. Qed.

Lemma kept_trans s1 s2 s3 X Y : kept s1 s2 X -> kept s2 s3 Y -> (forall p, p ∈ Y -> p ∈ X) -> kept s1 s3 X.
Proof. intros H1 H2 Hs p Hp. rewrite H2 by (intros H; by apply Hp, Hs). by apply H1. Qed.

Lemma space_frame {d} s (t : pt d) l p : space s t l -> p ∈ tpages t \/ p ∈ l -> frame p.
Proof. intros H Hp. eapply Forall_forall; [apply H |]. by apply elem_of_app. Qed.

Lemma space_top {d} s (t : pt d) l : space s t l -> frame (top t).
Proof. intros H. eapply space_frame; [done |]. left. apply top_in_pages. Qed.

(** A conserved collection of pages stays without duplicates and in memory. *)
Lemma conserve {d} s (t t' : pt d) l l' : space s t l -> tpages t' ++ l' ≡ₚ tpages t ++ l ->
  NoDup (tpages t' ++ l') /\ Forall frame (tpages t' ++ l').
Proof. intros H Hp. rewrite Hp. split; apply H. Qed.

(** ** Indices *)

Lemma land_511 x : Z.land x 0x1FF = x mod 512.
Proof. change 0x1FF with (Z.ones 9). by rewrite Z.land_ones by lia. Qed.

Lemma page_index_ix n va : 0 <= va < 2 ^ 64 ->
  page_index (Z.shiftr (u64 va) 12) (3 - Z.of_nat n) = ix n va.
Proof.
  intros Hva. unfold page_index, ix. rewrite land_511, u64_small by done.
  rewrite Z.shiftr_shiftr, Z.shiftr_div_pow2 by lia.
  replace (12 + (3 - (3 - Z.of_nat n)) * 9) with (12 + 9 * Z.of_nat n) by lia.
  set (x := va / _). unfold i32, sgn. assert (0 <= x mod 2 ^ 32 < 2 ^ 32) by (apply Z.mod_pos_bound; lia).
  case_match; dlia.
Qed.

Lemma last_index_ix va : 0 <= va < 2 ^ 64 -> Z.land (Z.shiftr (u64 va) 12) 0x1FF = ix 0 va.
Proof.
  intros Hva. unfold ix. rewrite land_511, u64_small by done. by rewrite Z.shiftr_div_pow2 by lia.
Qed.

(** ** One level of a walk *)

(** A kid of the top table, with the free pages, is an address space of its own. *)
Lemma space_kid {d} s p (kids : list (option (pt d))) l i k : space s (node p kids) l -> 0 <= i < 512 ->
  kids !! Z.to_nat i = Some (Some k) -> space s k l.
Proof.
  intros [Hp Hz Hn Hf Hs] Hi Hk. pose proof (shape_kid _ _ _ i Hs Hi) as H. rewrite Hk in H.
  rewrite tpages_S, (kpages_split kids _ _ Hk) in Hn, Hf. cbn [opages from_option] in Hn, Hf.
  split; [done | done | | | apply H].
  - eapply (sublist_NoDup _ _ Hn). cbn. apply sublist_cons.
    rewrite <- !app_assoc. apply sublist_inserts_l. by apply sublist_app, sublist_inserts_l.
  - apply Forall_forall. intros q Hq. eapply Forall_forall; [exact Hf |].
    rewrite elem_of_app, elem_of_cons, !elem_of_app. rewrite elem_of_app in Hq. tauto.
Qed.

(** What an operation does: the pages of the space, the free pages and the
    incoming pages [e] are conserved, only they change, and at most [n] free
    pages are used. *)
Record grew {d} (s s' : vmem P) (t t' : pt d) (l l' e : list Z) (n : nat) : Prop := {
  gr_space : space s' t' l';
  gr_top : top t' = top t;
  gr_pages : tpages t' ++ l' ≡ₚ e ++ tpages t ++ l;
  gr_kept : kept s s' (e ++ tpages t ++ l);
  gr_cost : (length l <= length l' + n)%nat
}.

Lemma grew_refl {d} s (t : pt d) l n : space s t l -> grew s s t t l l [] n.
Proof. intros H. split; [done | done | done | apply kept_refl | lia]. Qed.

Lemma grew_trans {d} s1 s2 s3 (t1 t2 t3 : pt d) l1 l2 l3 e1 e2 n m :
  grew s1 s2 t1 t2 l1 l2 e1 n -> grew s2 s3 t2 t3 l2 l3 e2 m -> grew s1 s3 t1 t3 l1 l3 (e2 ++ e1) (n + m).
Proof.
  intros [A1 B1 C1 D1 E1] [A2 B2 C2 D2 E2]. split; [done | congruence | | | lia].
  - rewrite C2, C1. by rewrite app_assoc.
  - intros p Hp. rewrite D2, D1; [done | |]; intros H; apply Hp; [set_solver |].
    rewrite C1 in H. set_solver.
Qed.

Lemma grew_weaken {d} s s' (t t' : pt d) l l' e n m : grew s s' t t' l l' e n -> (n <= m)%nat -> grew s s' t t' l l' e m.
Proof. intros [A1 B1 C1 D1 E1] H. split; [done.. | lia]. Qed.

(** The top table with a changed kid keeps its shape. *)
Lemma shape_put {d} r r' p (kids : list (option (pt d))) i k k' : shape r (node p kids) -> NoDup (p :: kpages kids) ->
  0 <= i < 512 -> kids !! Z.to_nat i = Some (Some k) -> shape r' k' -> top k' = top k ->
  (forall q, q ∈ p :: kpages kids -> q ∉ tpages k -> r' q = r q) ->
  shape r' (node p (<[Z.to_nat i := Some k']> kids)).
Proof.
  intros Hs [Hpk Hnk]%NoDup_cons Hi Hk Hk' Htop Hout.
  apply shape_S. split; [rewrite length_insert; apply (proj1 (proj1 (shape_S _ _ _) Hs)) |].
  intros j Hj. pose proof (shape_kid _ _ _ j Hs Hj) as H.
  assert (entry r' p j = entry r p j) as ->.
  { unfold entry. rewrite Hout; [done | left |]. intros Hq. by eapply Hpk, elem_of_kpages. }
  destruct (decide (j = i)) as [->|Hji].
  - rewrite list_lookup_insert_eq by (by eapply lookup_lt_Some). rewrite Hk in H. rewrite Htop.
    by split; [apply H |].
  - rewrite list_lookup_insert_ne by lia. destruct (kids !! Z.to_nat j) as [[kj|]|] eqn:Hkj; [| done..].
    split; [apply H |]. eapply shape_ext; [| apply H]. intros q Hq. apply Hout.
    + right. by eapply elem_of_kpages.
    + eapply (kpages_disjoint kids (Z.to_nat j) (Z.to_nat i)); [done | lia | done..].
Qed.

(** Putting a changed kid back. *)
Lemma grew_put {d} s s' p (kids : list (option (pt d))) l l' e i k k' n : space s (node p kids) l -> 0 <= i < 512 ->
  kids !! Z.to_nat i = Some (Some k) -> grew s s' k k' l l' e n ->
  NoDup (e ++ tpages (node p kids) ++ l) -> Forall frame e ->
  grew s s' (node p kids) (node p (<[Z.to_nat i := Some k']> kids)) l l' e n.
Proof.
  intros Hsp Hi Hk [Hk' Htop Hperm Hkept Hc] Hne Hfe.
  assert (Hpg : tpages (node p (<[Z.to_nat i := Some k']> kids)) ++ l' ≡ₚ e ++ tpages (node p kids) ++ l).
  { rewrite !tpages_S. pose proof (kpages_insert kids _ _ (Some k') Hk) as HI.
    cbn [opages from_option] in HI. apply (Permutation_app_inv_l (tpages k)).
    transitivity (p :: (kpages (<[Z.to_nat i:=Some k']> kids) ++ tpages k) ++ l'); [solve_Permutation |].
    rewrite HI. transitivity (p :: kpages kids ++ (tpages k' ++ l')); [solve_Permutation |].
    rewrite Hperm. solve_Permutation. }
  assert (Hsub : forall q, q ∈ tpages k -> q ∈ tpages (node p kids)).
  { intros q Hq. rewrite tpages_S. right. by eapply elem_of_kpages. }
  split; [| done | done | | done].
  - split; [apply Hk' | apply Hk' | by rewrite Hpg | rewrite Hpg; apply Forall_app; split; [done | apply Hsp] |].
    apply NoDup_app in Hne as (_ & Hd & Hn0). eapply shape_put; [apply Hsp | | done | done | apply Hk' | done |].
    + by apply NoDup_app in Hn0 as (Hn0 & _ & _).
    + intros q Hq Hqk. apply Hkept. rewrite !elem_of_app. apply NoDup_app in Hn0 as (_ & Hd' & _).
      intros [H|[H|H]]; [| done | by apply (Hd' q)]. apply (Hd q H), elem_of_app. by left.
  - intros q Hq. apply Hkept. set_solver.
Qed.

(** A tree outside the space linked into an empty entry of the top table. *)
Lemma grew_link {d} s pool r p (kids : list (option (pt d))) l i k : space s (node p kids) l ->
  0 <= i < 512 -> kids !! Z.to_nat i = Some None ->
  NoDup (tpages k ++ tpages (node p kids) ++ l) -> Forall frame (tpages k) -> pa_inv pool l ->
  sized r -> (forall x, x ∉ tpages k -> r x = ram s x) -> shape r k ->
  grew s (mkVmem pool (set_entry r p i (Z.lor (K2P (top k)) (flags d)))) (node p kids)
    (node p (<[Z.to_nat i := Some k]> kids)) l l (tpages k) 0.
Proof.
  intros Hsp Hi Hk Hnd Hfk Hpool Hz Hr Hsk. pose proof Hsp as [_ _ Hn Hf Hs].
  pose proof (kpages_insert kids _ _ (Some k) Hk) as HI. cbn [opages from_option] in HI. rewrite app_nil_r in HI.
  assert (Hperm : tpages (node p (<[Z.to_nat i := Some k]> kids)) ++ l ≡ₚ tpages k ++ tpages (node p kids) ++ l).
  { rewrite !tpages_S. cbn. rewrite HI. solve_Permutation. }
  pose proof Hnd as (_ & Hd & _)%NoDup_app.
  split; [split; cbn [vm_pool ram] | done | done | | lia];
    [done | by apply sized_set_entry | by rewrite Hperm | rewrite Hperm; by apply Forall_app | |].
  - apply shape_set; [done | | done | | | done].
    + eapply shape_ext; [| exact Hs]. intros x Hx. apply Hr. intros Hxk. apply (Hd x Hxk), elem_of_app. by left.
    + apply pte_bound. eapply Forall_forall; [exact Hfk | apply top_in_pages].
    + rewrite HI. rewrite tpages_S in Hn, Hd. cbn in Hn. apply NoDup_cons in Hn as [Hn _]. set_solver.
  - intros x Hx. cbn [ram]. rewrite set_entry_other by (intros ->; apply Hx; set_solver). apply Hr. set_solver.
Qed.

(** An entry of the last-level table cleared, its page handed back. *)
Lemma grew_unlink s pool r p (kids : list (option (pt 0))) q l i : space s (node p kids) l ->
  0 <= i < 512 -> kids !! Z.to_nat i = Some (Some q) -> pa_inv pool (q :: l) ->
  sized r -> (forall x, x <> q -> r x = ram s x) ->
  grew s (mkVmem pool (set_entry r p i 0)) (node p kids) (node p (<[Z.to_nat i := None]> kids)) l (q :: l) [] 0.
Proof.
  intros Hsp Hi Hk Hpool Hz Hr. pose proof Hsp as [_ _ Hn Hf Hs].
  pose proof (kpages_insert kids _ _ None Hk) as HI. cbn [opages from_option tpages] in HI.
  assert (Hperm : tpages (node p (<[Z.to_nat i := None]> kids)) ++ q :: l ≡ₚ tpages (node p kids) ++ l).
  { rewrite !tpages_S. cbn in *. rewrite <- HI. solve_Permutation. }
  destruct (conserve s _ _ _ _ Hsp Hperm) as [Hn' Hf'].
  split; [split; cbn [vm_pool ram] | done | done | | cbn; lia]; [done | by apply sized_set_entry | done | done | |].
  - rewrite tpages_S in Hn, Hn'. cbn in Hn'. apply NoDup_cons in Hn' as [Hp' Hn'].
    apply shape_S. split; [rewrite length_insert; apply (proj1 (proj1 (shape_S _ _ _) Hs)) |].
    intros j Hj. destruct (decide (j = i)) as [->|Hji].
    + rewrite list_lookup_insert_eq by (by eapply lookup_lt_Some). by rewrite entry_set_eq.
    + rewrite list_lookup_insert_ne by lia. rewrite entry_set_ne by (done || lia).
      unfold entry. rewrite Hr by (intros ->; apply Hp'; set_solver).
      pose proof (shape_kid _ _ _ j Hs Hj) as H. by destruct (kids !! Z.to_nat j) as [[kj|]|].
  - intros x Hx. cbn [ram]. cbn [app] in Hx. rewrite set_entry_other by (intros ->; apply Hx; set_solver). apply Hr.
    intros ->. apply Hx, elem_of_app. left. rewrite tpages_S. right. eapply elem_of_kpages; [exact Hk | set_solver].
Qed.

(** The first free page, taken from the pool. *)
Lemma space_take {d} s (t : pt d) q l pool : space s t (q :: l) -> pa_inv pool l ->
  space (mkVmem pool (ram s)) t l /\ frame q /\ q ∉ tpages t ++ l.
Proof.
  intros [Hp Hz Hn Hf Hs] Hpool. rewrite <- Permutation_middle in Hn, Hf.
  apply NoDup_cons in Hn as [Hq Hn]. apply Forall_cons in Hf as [Hfq Hf]. done.
Qed.

(** ** Walks *)

Lemma find_in {d} va : forall (t : pt d) p, find t va = Some p -> p ∈ tpages t.
Proof.
  induction d as [|d IH]; intros t p.
  - intros [= ->]. left.
  - destruct (node_inv t) as (q & kids & ->). rewrite find_S.
    destruct (kids !! Z.to_nat (ix d va)) as [[k|]|] eqn:Hk; [| done..]. intros Hf. rewrite tpages_S. right.
    eapply elem_of_kpages; [exact Hk | by apply IH].
Qed.

Lemma find_ne_top {d} s p (kids : list (option (pt d))) l va x : space s (node p kids) l ->
  find (node p kids) va = Some x -> x <> p.
Proof.
  intros Hsp Hx ->. pose proof (sp_nodup _ _ _ Hsp) as (Hn & _ & _)%NoDup_app.
  rewrite tpages_S, NoDup_cons in Hn. destruct Hn as [Hp _]. apply Hp. rewrite find_S in Hx.
  destruct (kids !! Z.to_nat (ix d va)) as [[k|]|] eqn:Hk; [| done..]. eapply elem_of_kpages; [exact Hk |].
  by eapply find_in.
Qed.

Lemma find_not_free {d} s (t : pt d) l va x : space s t l -> find t va = Some x -> x ∉ l.
Proof.
  intros Hsp Hx%find_in. pose proof (sp_nodup _ _ _ Hsp) as (_ & Hn & _)%NoDup_app. by apply Hn.
Qed.

(** The translation and the mapped memory are those of before. *)
Definition views {d} (s s' : vmem P) (t t' : pt d) : Prop :=
  forall va, find t' va = find t va /\ forall x, find t va = Some x -> ram s' x = ram s x.

Lemma views_refl {d} s (t : pt d) : views s s t t.
Proof. done. Qed.

Lemma views_trans {d} s1 s2 s3 (t1 t2 t3 : pt d) : views s1 s2 t1 t2 -> views s2 s3 t2 t3 -> views s1 s3 t1 t3.
Proof.
  intros H1 H2 va. destruct (H1 va) as [A1 B1], (H2 va) as [A2 B2]. rewrite A2. split; [done |].
  intros x Hx. rewrite B2 by (by rewrite A1). by apply B1.
Qed.

(** A change inside a kid that keeps its view keeps the view of the whole. *)
Lemma views_put {d} s s' p (kids : list (option (pt d))) l l' e i k k' n : space s (node p kids) l -> 0 <= i < 512 ->
  kids !! Z.to_nat i = Some (Some k) -> grew s s' k k' l l' e n -> (forall x, x ∈ e -> x ∉ tpages (node p kids)) ->
  views s s' k k' -> views s s' (node p kids) (node p (<[Z.to_nat i := Some k']> kids)).
Proof.
  intros Hsp Hi Hk Hg He Hv va. pose proof (ix_range d va). rewrite !find_S.
  destruct (decide (ix d va = i)) as [->|Hne].
  - rewrite list_lookup_insert_eq by (by eapply lookup_lt_Some). rewrite Hk. apply Hv.
  - rewrite list_lookup_insert_ne by lia. split; [done |]. intros x Hx.
    assert (find (node p kids) va = Some x) as Hx' by (by rewrite find_S).
    pose proof (find_in _ _ _ Hx') as Hin. pose proof (find_not_free _ _ _ _ _ Hsp Hx').
    apply (gr_kept _ _ _ _ _ _ _ _ Hg). rewrite !elem_of_app. intros [H'|[H'|H']]; [by apply (He x) | | done].
    destruct (kids !! Z.to_nat (ix d va)) as [[k1|]|] eqn:Hk1; [| done..].
    pose proof (sp_nodup _ _ _ Hsp) as (Hn & _ & _)%NoDup_app. rewrite tpages_S, NoDup_cons in Hn.
    destruct Hn as [_ Hn]. eapply (kpages_disjoint kids (Z.to_nat i) (Z.to_nat (ix d va))); [done | lia | done | done | done |].
    by eapply find_in.
Qed.

Lemma grew_taken {d} s s' pool (t t' : pt d) q l l' n : space s t (q :: l) ->
  grew (mkVmem pool (ram s)) s' t t' l l' [q] n -> grew s s' t t' (q :: l) l' [] (S n).
Proof.
  intros Hsp [A B C D F]. split; [done | done | rewrite C; solve_Permutation | | cbn; lia].
  intros x Hx. rewrite D; [done |]. set_solver.
Qed.

Lemma fill_entry_ok {d} s p (kids : list (option (pt (S d)))) l i Q : space s (node p kids) l -> 0 <= i < 512 ->
  (1 <= length l)%nat ->
  (forall s' kids' l' k, grew s s' (node p kids) (node p kids') l l' [] 1 ->
    kids' !! Z.to_nat i = Some (Some k) ->
    views s s' (node p kids) (node p kids') -> Q tt s') ->
  wp E (fill_entry PA (p + 8 * i) true) Q s.
Proof.
  intros Hsp Hi Hl HQ. assert (frame p) by apply (space_top _ _ _ Hsp).
  unfold fill_entry. apply wp_bind, load64_ok; [done.. |].
  pose proof (shape_kid _ _ _ i (sp_shape _ _ _ Hsp) Hi) as H0.
  destruct (kids !! Z.to_nat i) as [[k|]|] eqn:Hk; [| | done].
  - destruct H0 as [-> Hk']. rewrite pte_valid by (apply (space_top s k l); by eapply space_kid).
    apply wp_ret. by apply (HQ s kids l k); [apply grew_refl | | apply views_refl].
  - rewrite H0. destruct l as [|q l]; [cbn in Hl; lia |].
    apply wp_bind. eapply vm_kalloc_ok; [apply Hsp |]. intros pool Hpool. cbn [hd tail] in *.
    destruct (space_take _ _ _ _ _ Hsp Hpool) as (Hsp1 & Hfq & Hq).
    rewrite (proj2 (Z.eqb_neq q 0)) by (by apply frame_ne0). cbn [negb].
    apply wp_bind, clear_page_ok; [done | apply Hsp |]. apply store64_ok; [done.. |]. cbn [ram vm_pool].
    apply (HQ _ (<[Z.to_nat i := Some (empty_table d q)]> kids) l (empty_table d q)).
    + change PTE_TABLE with (flags (S d)). apply (grew_taken s _ pool _ _ q l l 0 Hsp).
      assert (Hpg : tpages (empty_table d q) = [q]) by (unfold empty_table; rewrite tpages_S; by rewrite kpages_empty).
      rewrite <- Hpg. change (K2P q) with (K2P (top (empty_table d q))).
      eapply grew_link; [exact Hsp1 | done.. | | | done | | | apply shape_empty].
      * rewrite Hpg. apply NoDup_cons. split; [done | apply Hsp1].
      * rewrite Hpg. by apply Forall_singleton.
      * apply sized_set; [apply Hsp | apply length_replicate].
      * rewrite Hpg. intros x Hx. apply set_frame_ne. set_solver.
    + apply list_lookup_insert_eq. by eapply lookup_lt_Some.
    + intros va. split.
      * rewrite !find_S. destruct (decide (ix (S d) va = i)) as [->|Hne].
        -- rewrite list_lookup_insert_eq by (by eapply lookup_lt_Some). by rewrite Hk, find_empty.
        -- rewrite list_lookup_insert_ne by (pose proof (ix_range (S d) va); lia). done.
      * intros x Hx. cbn [ram]. pose proof (find_not_free _ _ _ _ _ Hsp Hx).
        rewrite set_entry_other by (by eapply find_ne_top). apply set_frame_ne. set_solver.
Qed.

(** The last-level table for [va]. *)
Fixpoint leaf {n} : pt (S n) -> Z -> option Z :=
  match n with
  | O => fun t _ => Some t.1
  | S n' => fun t va =>
      match t.2 !! Z.to_nat (ix (S n') va) with
      | Some (Some k) => leaf k va
      | _ => None
      end
  end.

Lemma leaf_S {n} p (kids : list (option (pt (S n)))) va :
  leaf (node p kids) va = match kids !! Z.to_nat (ix (S n) va) with Some (Some k) => leaf k va | _ => None end.
Proof. done. Qed.

(** With [alloc], the walk reaches the last-level table, and translates as before. *)
Lemma walk_levels_ok n va : 0 <= va < 2 ^ 64 -> forall s (t : pt (S n)) l Q, space s t l -> (n <= length l)%nat ->
  (forall s' t' l' q, grew s s' t t' l l' [] n -> views s s' t t' ->
    leaf t' va = Some q -> Q q s') ->
  wp E (walk_levels PA n (3 - Z.of_nat n) (Z.shiftr (u64 va) 12) (top t) true) Q s.
Proof.
  intros Hva. induction n as [|n IH]; intros s t l Q Hsp Hl HQ; destruct (node_inv t) as (p & kids & ->).
  - apply wp_ret. apply (HQ s (node p kids) l p); [by apply grew_refl | apply views_refl | done].
  - cbn [walk_levels]. rewrite page_index_ix by done. cbn [top node fst]. change (p, kids) with (node p kids).
    assert (frame p) by apply (space_top _ _ _ Hsp).
    apply wp_bind. eapply fill_entry_ok; [exact Hsp | done | lia |]. intros s1 kids1 l1 k Hg Hk Hf1.
    pose proof (gr_space _ _ _ _ _ _ _ _ Hg) as Hsp1.
    apply wp_bind, load64_ok; [done.. |].
    pose proof (shape_kid _ _ _ _ (sp_shape _ _ _ Hsp1) (ix_range (S n) va)) as H0. rewrite Hk in H0.
    destruct H0 as [-> _]. assert (space s1 k l1) as Hspk by (by eapply space_kid).
    rewrite (proj1 (pte_decode (top k) _ ltac:(by eapply space_top) (flags_bound _))).
    replace (3 - Z.of_nat (S n) + 1) with (3 - Z.of_nat n) by lia.
    apply (IH s1 k l1); [done | pose proof (gr_cost _ _ _ _ _ _ _ _ Hg); lia |].
    intros s2 k2 l2 q Hg2 Hf2 Hq. pose proof (lookup_lt_Some _ _ _ Hk).
    apply (HQ s2 (node p (<[Z.to_nat (ix (S n) va) := Some k2]> kids1)) l2 q).
    + eapply (grew_trans _ _ _ _ _ _ _ _ _ [] [] 1); [exact Hg |]. eapply grew_put; [done.. | apply Hsp1 | done].
    + eapply views_trans; [exact Hf1 |]. by eapply views_put; [..| intros ? ?%not_elem_of_nil |].
    + rewrite leaf_S. by rewrite list_lookup_insert_eq by done.
Qed.

(** Without [alloc], the walk reads the tables that are there. *)
Lemma walk_levels_read n va : 0 <= va < 2 ^ 64 -> forall s (t : pt (S n)) l q Q, space s t l -> leaf t va = Some q ->
  Q q s -> wp E (walk_levels PA n (3 - Z.of_nat n) (Z.shiftr (u64 va) 12) (top t) false) Q s.
Proof.
  intros Hva. induction n as [|n IH]; intros s t l q Q Hsp Hq HQ; destruct (node_inv t) as (p & kids & ->).
  - apply wp_ret. by injection Hq as <-.
  - cbn [walk_levels]. rewrite page_index_ix by done. cbn [top node fst]. change (p, kids) with (node p kids).
    assert (frame p) by apply (space_top _ _ _ Hsp). rewrite leaf_S in Hq.
    pose proof (shape_kid _ _ _ _ (sp_shape _ _ _ Hsp) (ix_range (S n) va)) as H0.
    destruct (kids !! Z.to_nat (ix (S n) va)) as [[k|]|] eqn:Hk; [| done..]. destruct H0 as [He _].
    assert (space s k l) as Hspk by (by eapply space_kid).
    unfold fill_entry. apply wp_bind, wp_bind, load64_ok; [done.. |]. rewrite He, pte_valid by (by eapply space_top).
    apply wp_ret. apply wp_bind, load64_ok; [done.. |]. rewrite He.
    rewrite (proj1 (pte_decode (top k) _ ltac:(by eapply space_top) (flags_bound _))).
    replace (3 - Z.of_nat (S n) + 1) with (3 - Z.of_nat n) by lia. by eapply IH.
Qed.

Lemma pgdir_walk_ok va s (t : pt 4) l Q : 0 <= va < 2 ^ 64 -> space s t l -> (3 <= length l)%nat ->
  (forall s' t' l' q, grew s s' t t' l l' [] 3 -> views s s' t t' ->
    leaf t' va = Some q -> Q (q + 8 * ix 0 va) s') ->
  wp E (my_pgdir_walk PA (top t) va true) Q s.
Proof.
  intros Hva Hsp Hl HQ. unfold my_pgdir_walk. rewrite last_index_ix by done. apply wp_bind.
  apply (walk_levels_ok 3 va Hva s t l); [done.. |]. intros s' t' l' q Hg Hf Hq. apply wp_ret. by eapply HQ.
Qed.

Lemma pgdir_walk_read va s (t : pt 4) l q Q : 0 <= va < 2 ^ 64 -> space s t l -> leaf t va = Some q ->
  Q (q + 8 * ix 0 va) s -> wp E (my_pgdir_walk PA (top t) va false) Q s.
Proof.
  intros Hva Hsp Hq HQ. unfold my_pgdir_walk. rewrite last_index_ix by done. apply wp_bind.
  apply (walk_levels_read 3 va Hva s t l q); [done.. |]. by apply wp_ret.
Qed.

(** ** The last-level table *)

(** [t] with the page behind [va] replaced, where the last-level table exists. *)
Fixpoint upd {n} : pt (S n) -> Z -> option Z -> pt (S n) :=
  match n with
  | O => fun t va o => node (d := 0) t.1 (<[Z.to_nat (ix 0 va) := o]> t.2)
  | S n' => fun t va o =>
      match t.2 !! Z.to_nat (ix (S n') va) with
      | Some (Some k) => node (d := S n') t.1 (<[Z.to_nat (ix (S n') va) := Some (@upd n' k va o)]> t.2)
      | _ => t
      end
  end.

Lemma upd_O p (kids : list (option (pt 0))) va o :
  upd (node p kids) va o = node p (<[Z.to_nat (ix 0 va) := o]> kids).
Proof. done. Qed.

Lemma upd_S {n} p (kids : list (option (pt (S n)))) va o :
  upd (node p kids) va o =
  match kids !! Z.to_nat (ix (S n) va) with
  | Some (Some k) => node p (<[Z.to_nat (ix (S n) va) := Some (upd k va o)]> kids)
  | _ => node p kids
  end.
Proof. done. Qed.

(** The entry the last-level table holds for [va]. *)
Lemma leaf_entry {n} va : forall s (t : pt (S n)) l q, space s t l -> leaf t va = Some q ->
  frame q /\ q ∈ tpages t /\
  match find t va with
  | Some f => entry (ram s) q (ix 0 va) = Z.lor (K2P f) PTE_USER_DATA /\ frame f /\ f ∈ tpages t
  | None => (Z.land (entry (ram s) q (ix 0 va)) PTE_VALID =? 0) = true
  end.
Proof.
  induction n as [|n IH]; intros s t l q Hsp Hq; destruct (node_inv t) as (p & kids & ->).
  - injection Hq as <-. cbn [fst]. split; [apply (space_top _ _ _ Hsp) |]. split; [left |]. rewrite find_S.
    pose proof (shape_kid _ _ _ _ (sp_shape _ _ _ Hsp) (ix_range 0 va)) as H0.
    destruct (kids !! Z.to_nat (ix 0 va)) as [[f|]|] eqn:Hk; [| done..]. cbn [find]. destruct H0 as [H0 _].
    assert (f ∈ tpages (node p kids)) by (rewrite tpages_S; right; eapply elem_of_kpages; [exact Hk | left]).
    split; [exact H0 |]. split; [| done]. eapply space_frame; [exact Hsp | by left].
  - rewrite leaf_S in Hq. rewrite find_S. destruct (kids !! Z.to_nat (ix (S n) va)) as [[k|]|] eqn:Hk; [| done..].
    destruct (IH s k l q ltac:(by eapply space_kid) Hq) as (H1 & H2 & H3).
    assert (Hin : forall x, x ∈ tpages k -> x ∈ tpages (node p kids)).
    { intros x Hx. rewrite tpages_S. right. by eapply elem_of_kpages. }
    split; [done |]. split; [auto |]. destruct (find k va); [| done]. naive_solver.
Qed.

Lemma leaf_of_find {n} va : forall (t : pt (S n)), is_Some (find t va) -> is_Some (leaf t va).
Proof.
  induction n as [|n IH]; intros t; destruct (node_inv t) as (p & kids & ->); [by eexists |].
  rewrite find_S, leaf_S. destruct (kids !! Z.to_nat (ix (S n) va)) as [[k|]|]; [apply IH | by intros []..].
Qed.

(** The last-level tables are not mapped. *)
Lemma leaf_ne_find {n} va va' : forall s (t : pt (S n)) l q x, space s t l -> leaf t va = Some q -> find t va' = Some x -> x <> q.
Proof.
  induction n as [|n IH]; intros s t l q x Hsp Hq Hx; destruct (node_inv t) as (p & kids & ->).
  - injection Hq as <-. by eapply find_ne_top.
  - rewrite leaf_S in Hq. destruct (kids !! Z.to_nat (ix (S n) va)) as [[k|]|] eqn:Hk; [| done..].
    rewrite find_S in Hx. destruct (kids !! Z.to_nat (ix (S n) va')) as [[k'|]|] eqn:Hk'; [| done..].
    pose proof (ix_range (S n) va). pose proof (ix_range (S n) va').
    destruct (decide (ix (S n) va' = ix (S n) va)) as [Heq|Hne].
    + rewrite Heq, Hk in Hk'. injection Hk' as <-. apply (IH s k l q x); [exact (space_kid _ _ _ _ _ _ Hsp H Hk) | done..].
    + intros ->. pose proof (sp_nodup _ _ _ Hsp) as (Hn & _ & _)%NoDup_app. rewrite tpages_S, NoDup_cons in Hn.
      eapply (kpages_disjoint kids (Z.to_nat (ix (S n) va)) (Z.to_nat (ix (S n) va'))); [apply Hn | lia | done | done | |].
      * apply (leaf_entry va s k l q); [exact (space_kid _ _ _ _ _ _ Hsp H Hk) | done].
      * by eapply find_in.
Qed.

(** Linking a page behind an unmapped address. *)
Lemma upd_link {n} va f : forall s r (t : pt (S n)) l q, space s t l -> leaf t va = Some q -> find t va = None ->
  f ∉ tpages t ++ l -> frame f -> sized r -> (forall x, x <> f -> r x = ram s x) ->
  grew s (mkVmem (vm_pool s) (set_entry r q (ix 0 va) (Z.lor (K2P f) PTE_USER_DATA))) t (upd t va (Some f)) l l [f] 0.
Proof.
  induction n as [|n IH]; intros s r t l q Hsp Hq Hf Hfresh Hff Hz Hr; destruct (node_inv t) as (p & kids & ->).
  - injection Hq as <-. rewrite find_S in Hf. rewrite upd_O. cbn [fst].
    pose proof (shape_kid _ _ _ _ (sp_shape _ _ _ Hsp) (ix_range 0 va)) as H0.
    destruct (kids !! Z.to_nat (ix 0 va)) as [[k|]|] eqn:Hk; [done | | done].
    change PTE_USER_DATA with (flags 0). apply (grew_link (d := 0) s (vm_pool s) r p kids l (ix 0 va) f); [done.. | | | apply Hsp | done | | done].
    + apply NoDup_cons. split; [done | apply Hsp].
    + by apply Forall_singleton.
    + intros x Hx. apply Hr. set_solver.
  - rewrite leaf_S in Hq. rewrite find_S in Hf. rewrite upd_S.
    destruct (kids !! Z.to_nat (ix (S n) va)) as [[k|]|] eqn:Hk; [| done..].
    eapply grew_put; [exact Hsp | done | done | | by apply NoDup_cons; split; [| apply Hsp] | by apply Forall_singleton].
    apply IH; [by eapply space_kid | done.. | | done | done | done].
    intros Hx. apply Hfresh. rewrite tpages_S. apply elem_of_app in Hx as [Hx|Hx]; [| set_solver].
    apply elem_of_app. left. right. by eapply elem_of_kpages.
Qed.

(** Unlinking a mapped page, which goes back to the pool. *)
Lemma upd_unlink {n} va f pool : forall s r (t : pt (S n)) l q, space s t l -> leaf t va = Some q -> find t va = Some f ->
  pa_inv pool (f :: l) -> sized r -> (forall x, x <> f -> r x = ram s x) ->
  grew s (mkVmem pool (set_entry r q (ix 0 va) 0)) t (upd t va None) l (f :: l) [] 0.
Proof.
  induction n as [|n IH]; intros s r t l q Hsp Hq Hf Hp Hz Hr; destruct (node_inv t) as (p & kids & ->).
  - injection Hq as <-. rewrite find_S in Hf. rewrite upd_O. cbn [fst].
    destruct (kids !! Z.to_nat (ix 0 va)) as [[k|]|] eqn:Hk; [| done..]. injection Hf as ->.
    by apply grew_unlink.
  - rewrite leaf_S in Hq. rewrite find_S in Hf. rewrite upd_S.
    destruct (kids !! Z.to_nat (ix (S n) va)) as [[k|]|] eqn:Hk; [| done..].
    eapply grew_put; [exact Hsp | done | done | | apply Hsp | done]. apply IH; [by eapply space_kid | done..].
Qed.

(** ** Translation after an update *)

Definition same_page (va va' : Z) : Prop := va / PAGE_SIZE = va' / PAGE_SIZE.
#[global] Instance same_page_dec va va' : Decision (same_page va va') := decide (va / PAGE_SIZE = va' / PAGE_SIZE).

Lemma find_upd_ne {n} va va' o m : (m <= n)%nat -> ix m va' <> ix m va -> forall (t : pt (S n)), find (upd t va o) va' = find t va'.
Proof.
  intros Hm Hne. pose proof (ix_range m va). pose proof (ix_range m va').
  induction n as [|n IH]; intros t; destruct (node_inv t) as (p & kids & ->).
  - replace m with 0%nat in * by lia. rewrite upd_O, !find_S. by rewrite list_lookup_insert_ne by lia.
  - rewrite upd_S. destruct (kids !! Z.to_nat (ix (S n) va)) as [[k|]|] eqn:Hk; [| done..]. rewrite !find_S.
    destruct (decide (ix (S n) va' = ix (S n) va)) as [Heq|Hd].
    + rewrite Heq, Hk, list_lookup_insert_eq by (by eapply lookup_lt_Some).
      apply IH. destruct (decide (m = S n)) as [->|]; [done | lia].
    + pose proof (ix_range (S n) va). pose proof (ix_range (S n) va'). by rewrite list_lookup_insert_ne by lia.
Qed.

Lemma find_upd_eq {n} va va' o : (forall m, ix m va' = ix m va) -> forall s (t : pt (S n)) l q, space s t l ->
  leaf t va = Some q -> find (upd t va o) va' = o.
Proof.
  intros Hix. induction n as [|n IH]; intros s t l q Hsp Hq; destruct (node_inv t) as (p & kids & ->).
  - rewrite upd_O, find_S, Hix, list_lookup_insert_eq; [by destruct o |].
    rewrite (proj1 (proj1 (shape_S _ _ _) (sp_shape _ _ _ Hsp))). pose proof (ix_range 0 va). lia.
  - rewrite leaf_S in Hq. rewrite upd_S. destruct (kids !! Z.to_nat (ix (S n) va)) as [[k|]|] eqn:Hk; [| done..].
    rewrite find_S, Hix, list_lookup_insert_eq by (by eapply lookup_lt_Some). eapply IH; [by eapply space_kid | done].
Qed.

Lemma ix_vpn m va : ix m va = (va / 4096 / 512 ^ Z.of_nat m) mod 512.
Proof.
  unfold ix. rewrite Z.pow_add_r, Z.pow_mul_r by lia. by rewrite <- Z.div_div by lia.
Qed.

Lemma same_page_ix va va' m : same_page va va' -> ix m va = ix m va'.
Proof. intros H. rewrite !ix_vpn. unfold same_page, PAGE_SIZE in H. by rewrite H. Qed.

Lemma ix_same_page va va' : 0 <= va < USPACE_TOP -> 0 <= va' < USPACE_TOP ->
  (forall m, (m <= 3)%nat -> ix m va = ix m va') -> same_page va va'.
Proof.
  unfold same_page, USPACE_TOP, PAGE_SIZE. intros H1 H2 H.
  pose proof (H 0%nat ltac:(lia)) as H0. pose proof (H 1%nat ltac:(lia)) as H3.
  pose proof (H 2%nat ltac:(lia)) as H4. pose proof (H 3%nat ltac:(lia)) as H5. clear H. rewrite !ix_vpn in *.
  assert (0 <= va / 4096 < 2 ^ 36) by dlia. assert (0 <= va' / 4096 < 2 ^ 36) by dlia.
  set (x := va / 4096) in *. set (y := va' / 4096) in *. clearbody x y.
  change (512 ^ Z.of_nat 0) with 1 in *. change (512 ^ Z.of_nat 1) with 512 in *.
  change (512 ^ Z.of_nat 2) with (512 * 512) in *. change (512 ^ Z.of_nat 3) with (512 * 512 * 512) in *.
  rewrite <- !Z.div_div in H4, H5 by lia. dlia.
Qed.

Lemma find_upd va va' o s (t : pt 4) l q : 0 <= va < USPACE_TOP -> 0 <= va' < USPACE_TOP -> space s t l ->
  leaf t va = Some q -> find (upd t va o) va' = if decide (same_page va va') then o else find t va'.
Proof.
  intros Hva Hva' Hsp Hq. case_decide as Hs.
  - eapply find_upd_eq; [| done..]. intros m. symmetry. by apply same_page_ix.
  - destruct (decide (Forall (fun m => ix m va = ix m va') (seq 0 4))) as [HF|HF].
    + exfalso. apply Hs, ix_same_page; [done.. |]. intros m Hm. rewrite Forall_forall in HF.
      apply HF, elem_of_seq. lia.
    + apply not_Forall_Exists in HF; [| intros; apply decide; apply _]. apply Exists_exists in HF as (m & Hm%elem_of_seq & Hne).
      eapply (find_upd_ne va va' o m); [lia | done].
Qed.
End spec.
