(* ===== verification/UserSpace.v ===== *)
(** Growing, shrinking and filling a user address space: my_uvm_map,
    my_uvm_alloc, my_uvm_dealloc and my_copyout of core/virtual_memory.c. *)
From S2P Require Import Prelude Bytes CString PhysMem Arena VirtualMemory PageTable VirtualMemorySpec.
From Stdlib Require Import Lia.

#[local] Hint Resolve ix_range : core.

Section space.
Context {P : Type} (PA : PageAllocator P) (link : P -> Z -> Z) (E : string -> Prop).

Lemma va_u64 va : 0 <= va < USPACE_TOP -> 0 <= va < 2 ^ 64.
Proof. unfold USPACE_TOP. lia. Qed.

(** The virtual pages [a, a + 4096 n). *)
Definition in_range (a : Z) (n : nat) (va : Z) : Prop := a <= va < a + PAGE_SIZE * Z.of_nat n.
#[global] Instance in_range_dec a n va : Decision (in_range a n va) := _.

Lemma same_page_aligned a va : a mod PAGE_SIZE = 0 -> same_page a va <-> a <= va < a + PAGE_SIZE.
Proof. unfold same_page, PAGE_SIZE. intros. split; intros; dlia. Qed.

Lemma in_range_S a n va : in_range a (S n) va <-> a <= va < a + PAGE_SIZE \/ in_range (a + PAGE_SIZE) n va.
Proof. unfold in_range, PAGE_SIZE. lia. Qed.

(** The memory mapped in [t] is that of before. *)
Definition data (s s' : vmem P) (t : pt 4) : Prop :=
  forall va x, 0 <= va < USPACE_TOP -> find t va = Some x -> ram s' x = ram s x.

(** ** Mapping a page *)

Lemma entry_ptr_ne0 q va : frame q -> (q + 8 * ix 0 va =? 0) = false.
Proof. intros Hq. apply Z.eqb_neq. pose proof (frame_is_page q Hq) as [? _]. pose proof (ix_range 0 va). lia. Qed.

Lemma uvm_map_page_ok va f s (t : pt 4) l Q : va mod PAGE_SIZE = 0 -> 0 <= va -> va + PAGE_SIZE <= USPACE_TOP ->
  space PA s t l -> find t va = None -> f ∉ tpages t ++ l -> frame f -> (3 <= length l)%nat ->
  (forall s' t' l', grew PA s s' t t' l l' [f] 3 ->
    (forall va', 0 <= va' < USPACE_TOP ->
      find t' va' = if decide (same_page va va') then Some f else find t va') ->
    data s s' t -> ram s' f = ram s f -> Q 0 s') ->
  wp E (my_uvm_map PA (top t) va PAGE_SIZE (K2P f)) Q s.
Proof.
  intros Hm H0 Ht Hsp Hfind Hff Hf Hl HQ. unfold USPACE_TOP in Ht. change PAGE_SIZE with 4096 in *.
  destruct (K2P_frame f Hf) as (_ & Hk1 & Hk2).
  unfold my_uvm_map. change PAGE_SIZE with 4096. change (Z.to_nat (4096 / 4096 + 3)) with 4%nat.
  rewrite (u64_small (va + 4096)) by lia. unfold round_down. rewrite Hm, Hk2, !Z.sub_0_r.
  rewrite (u64_small va), (u64_small (K2P f)) by (unfold phystop in Hk1; lia).
  apply wp_bind. cbn [map_loop]. rewrite (proj2 (Z.ltb_lt va (va + 4096))) by lia. apply wp_bind.
  eapply pgdir_walk_ok; [lia | exact Hsp | done |]. intros s1 t1 l1 q Hg Hf1 Hq.
  pose proof (gr_space _ _ _ _ _ _ _ _ _ Hg) as Hsp1.
  destruct (leaf_entry PA va s1 t1 l1 q Hsp1 Hq) as (Hfq & Hqt & _). rewrite entry_ptr_ne0 by done.
  apply wp_bind, store64_ok; [done.. |]. unfold PAGE_SIZE. rewrite (u64_small (va + 4096)), Z.ltb_irrefl by lia.
  apply wp_ret, wp_ret.
  assert (Hff1 : f ∉ tpages t1 ++ l1) by (rewrite (gr_pages _ _ _ _ _ _ _ _ _ Hg); exact Hff).
  apply (HQ _ (upd t1 va (Some f)) l1).
  - apply (grew_trans PA _ _ _ _ _ _ _ _ _ [] [f] 3 0 Hg).
    apply upd_link; [exact Hsp1 | exact Hq | by rewrite (proj1 (Hf1 va)) | exact Hff1 | done | apply Hsp1 | done].
  - intros va' Hva'. erewrite find_upd; [| unfold USPACE_TOP; lia | done | exact Hsp1 | exact Hq].
    by rewrite (proj1 (Hf1 va')).
  - intros va' x _ Hx. cbn [ram]. rewrite set_entry_other; [by apply (Hf1 va') |].
    eapply leaf_ne_find; [exact Hsp1 | exact Hq |]. by rewrite (proj1 (Hf1 va')).
  - cbn [ram]. rewrite set_entry_other by (intros ->; apply Hff1, elem_of_app; by left).
    by apply (gr_kept _ _ _ _ _ _ _ _ _ Hg).
Qed.

(** ** uvm_dealloc *)

(** Freeing a mapped page. *)
Lemma dealloc_page_ok va s (t : pt 4) l q f Q : 0 <= va < USPACE_TOP -> space PA s t l -> leaf t va = Some q ->
  find t va = Some f ->
  (forall s', grew PA s s' t (upd t va None) l (f :: l) [] 0 ->
    (forall va' x, find t va' = Some x -> x <> f -> ram s' x = ram s x) -> Q tt s') ->
  wp E (vm_kfree PA link f;; store64 (q + 8 * ix 0 va) 0) Q s.
Proof.
  intros Hva Hsp Hq Hf HQ. destruct (leaf_entry PA va s t l q Hsp Hq) as (Hfq & _ & He). rewrite Hf in He.
  destruct He as (_ & Hff & Hin). apply wp_bind. eapply vm_kfree_ok; [apply Hsp | | done |].
  - intros H. pose proof (sp_nodup _ _ _ _ Hsp) as (_ & Hd & _)%NoDup_app. by apply (Hd f).
  - intros pool v Hpool. apply store64_ok; [done.. |]. cbn [ram vm_pool]. apply HQ.
    + apply upd_unlink; [done.. | apply sized_set_entry; [apply Hsp | lia] |]. intros x Hx. by apply set_entry_other.
    + intros va' x Hx Hne. cbn [ram]. rewrite set_entry_other by (by eapply leaf_ne_find). by apply set_entry_other.
Qed.

Lemma dealloc_loop_ok n : forall fuel a oldsz s (t : pt 4) l Q,
  a mod PAGE_SIZE = 0 -> 0 <= a -> a + PAGE_SIZE * Z.of_nat n <= USPACE_TOP ->
  oldsz <= a + PAGE_SIZE * Z.of_nat n < oldsz + PAGE_SIZE -> (n < fuel)%nat ->
  space PA s t l -> (forall va, in_range a n va -> is_Some (find t va)) ->
  (forall s' t' l', grew PA s s' t t' l l' [] 0 -> length l' = (length l + n)%nat ->
    (forall va, 0 <= va < USPACE_TOP -> find t' va = if decide (in_range a n va) then None else find t va) ->
    data s s' t' -> Q tt s') ->
  wp E (dealloc_loop PA link fuel (top t) a oldsz) Q s.
Proof.
  induction n as [|n IH]; intros [|fuel] a oldsz s t l Q Hm H0 Ho Hn Hfu Hsp Hmap HQ; try lia; cbn [dealloc_loop].
  - rewrite (proj2 (Z.ltb_ge a oldsz)) by lia. apply wp_ret. apply (HQ s t l); [by apply grew_refl | lia | | done].
    intros va _. by rewrite decide_False by (unfold in_range; lia).
  - unfold USPACE_TOP, PAGE_SIZE in *. rewrite (proj2 (Z.ltb_lt a oldsz)) by lia.
    destruct (Hmap a) as [f Hf]; [unfold in_range, PAGE_SIZE; lia |].
    destruct (leaf_of_find a t) as [q Hq]; [by rewrite Hf |].
    destruct (leaf_entry PA a s t l q Hsp Hq) as (Hfq & _ & He). rewrite Hf in He. destruct He as (He & Hff & Hfin).
    apply wp_bind. eapply pgdir_walk_read; [lia | exact Hsp | exact Hq |].
    rewrite entry_ptr_ne0 by done. cbn [negb]. apply wp_bind, wp_bind, load64_ok; [done.. |].
    rewrite He. change PTE_USER_DATA with (flags 0). rewrite pte_valid by done. cbn [negb].
    rewrite (proj1 (pte_decode f _ Hff (flags_bound 0))).
    eapply dealloc_page_ok; [unfold USPACE_TOP; lia | exact Hsp | done | done |]. intros s1 Hg Hd1.
    pose proof (gr_space _ _ _ _ _ _ _ _ _ Hg) as Hsp1.
    assert (Hf1 : forall va, 0 <= va < USPACE_TOP ->
      find (upd t a None) va = if decide (a <= va < a + 4096) then None else find t va).
    { intros va Hva. erewrite find_upd; [| unfold USPACE_TOP; lia | exact Hva | exact Hsp | exact Hq].
      apply decide_ext. by apply same_page_aligned. }
    rewrite (u64_small (a + 4096)) by lia. rewrite <- (gr_top _ _ _ _ _ _ _ _ _ Hg).
    apply (IH fuel (a + 4096) oldsz s1 (upd t a None) (f :: l)); try lia; [dlia | done | |].
    + intros va Hva. rewrite Hf1 by (unfold in_range, USPACE_TOP, PAGE_SIZE in *; lia).
      rewrite decide_False by (unfold in_range in Hva; lia). apply Hmap, in_range_S. by right.
    + intros s2 t2 l2 Hg2 Hl2 Hf2 Hd2. apply (HQ s2 t2 l2).
      * exact (grew_trans PA _ _ _ _ _ _ _ _ _ [] [] 0 0 Hg Hg2).
      * cbn in Hl2. lia.
      * intros va Hva. rewrite Hf2, Hf1 by done. pose proof (in_range_S a n va) as HS. unfold PAGE_SIZE in HS.
        repeat case_decide; tauto.
      * intros va x Hva Hx. rewrite (Hd2 va x Hva Hx). rewrite Hf2 in Hx by done. case_decide; [done |].
        pose proof (find_not_free PA _ _ _ _ _ Hsp1 Hx). rewrite Hf1 in Hx by done. case_decide; [done |].
        apply (Hd1 va x Hx). set_solver.
Qed.

Lemma uvm_dealloc_ok base oldsz newsz n s (t : pt 4) l Q : 0 <= base <= newsz -> newsz < oldsz ->
  oldsz + PAGE_SIZE <= USPACE_TOP ->
  round_up newsz PAGE_SIZE + PAGE_SIZE * Z.of_nat n = round_up oldsz PAGE_SIZE -> space PA s t l ->
  (forall va, in_range (round_up newsz PAGE_SIZE) n va -> is_Some (find t va)) ->
  (forall s' t' l', grew PA s s' t t' l l' [] 0 -> length l' = (length l + n)%nat ->
    (forall va, 0 <= va < USPACE_TOP ->
      find t' va = if decide (in_range (round_up newsz PAGE_SIZE) n va) then None else find t va) ->
    data s s' t' -> Q (i32 newsz) s') ->
  wp E (my_uvm_dealloc PA link (top t) base oldsz newsz) Q s.
Proof.
  intros Hb Hlt Ho Hn Hsp Hmap HQ. unfold USPACE_TOP, PAGE_SIZE in *. unfold my_uvm_dealloc. unfold PAGE_SIZE.
  rewrite Z.geb_leb, (proj2 (Z.leb_gt oldsz newsz)) by lia.
  rewrite (proj2 (Z.ltb_ge newsz base)) by lia. cbn [orb].
  destruct (round_up_spec newsz 4096) as [Hr1 Hr2]; [lia.. |].
  destruct (round_up_spec oldsz 4096) as [Hr3 Hr4]; [lia.. |].
  apply wp_bind. eapply (dealloc_loop_ok n); unfold USPACE_TOP, PAGE_SIZE; [done | lia | lia | lia | dlia | done | done |].
  intros s' t' l' Hg Hl Hf Hd. apply wp_ret. by eapply HQ.
Qed.

(** ** uvm_alloc *)

(** The pages found in a space are its own, and two virtual pages never share one. *)
Lemma find_inj {n} va va' : forall (t : pt n) p, NoDup (tpages t) -> find t va = Some p -> find t va' = Some p ->
  forall m, (m < n)%nat -> ix m va = ix m va'.
Proof.
  induction n as [|n IH]; intros t p; [lia |]. destruct (node_inv t) as (q & kids & ->). rewrite !find_S, tpages_S.
  intros [_ Hn]%NoDup_cons.
  destruct (kids !! Z.to_nat (ix n va)) as [[k|]|] eqn:Hk; [| done..].
  destruct (kids !! Z.to_nat (ix n va')) as [[k'|]|] eqn:Hk'; [| done..]. intros H1 H2.
  destruct (decide (ix n va = ix n va')) as [Heq|Hne].
  - intros m Hm. destruct (decide (m = n)) as [->|]; [done |]. rewrite Heq, Hk' in Hk. injection Hk as ->.
    eapply (IH k p); [| done.. | lia]. rewrite (kpages_split _ _ _ Hk') in Hn.
    by apply NoDup_app in Hn as (_ & _ & (Hn & _)%NoDup_app).
  - pose proof (ix_range n va). pose proof (ix_range n va').
    exfalso. eapply (kpages_disjoint kids (Z.to_nat (ix n va)) (Z.to_nat (ix n va'))); [done | lia | done.. | |];
      by eapply find_in.
Qed.

Lemma find_same_page s (t : pt 4) l va va' p : space PA s t l -> 0 <= va < USPACE_TOP -> 0 <= va' < USPACE_TOP ->
  find t va = Some p -> find t va' = Some p -> same_page va va'.
Proof.
  intros Hsp Hva Hva' H1 H2. apply ix_same_page; [done.. |]. intros m Hm.
  eapply (find_inj va va' t p); [| done.. | lia]. pose proof (sp_nodup _ _ _ _ Hsp) as (H & _ & _)%NoDup_app. done.
Qed.

(** Each page costs itself and at most three tables. *)
Lemma alloc_loop_ok n : forall fuel base oldsz a newsz s (t : pt 4) l Q,
  a mod PAGE_SIZE = 0 -> 0 <= a -> a + PAGE_SIZE * Z.of_nat n <= USPACE_TOP ->
  newsz <= a + PAGE_SIZE * Z.of_nat n < newsz + PAGE_SIZE -> (n < fuel)%nat ->
  space PA s t l -> (4 * n <= length l)%nat -> (forall va, in_range a n va -> find t va = None) ->
  (forall s' t' l', grew PA s s' t t' l l' [] (4 * n) ->
    (forall va, 0 <= va < USPACE_TOP -> ~ in_range a n va -> find t' va = find t va) ->
    (forall va, in_range a n va -> is_Some (find t' va)) -> data s s' t -> Q None s') ->
  wp E (alloc_loop PA link fuel (top t) base oldsz a newsz) Q s.
Proof.
  induction n as [|n IH]; intros [|fuel] base oldsz a newsz s t l Q Hm H0 Ho Hn Hfu Hsp Hl Hmap HQ; try lia;
    cbn [alloc_loop].
  - rewrite (proj2 (Z.ltb_ge a newsz)) by lia. apply wp_ret. apply (HQ s t l); [by apply grew_refl | done | | done].
    unfold in_range. lia.
  - unfold USPACE_TOP, PAGE_SIZE in Hm, Ho, Hn. rewrite (proj2 (Z.ltb_lt a newsz)) by lia.
    destruct l as [|f l]; [cbn in Hl; lia |].
    apply wp_bind. eapply vm_kalloc_ok; [apply Hsp |]. intros pool Hpool. cbn [hd tail] in *.
    destruct (space_take PA _ _ _ _ _ Hsp Hpool) as (Hsp0 & Hff & Hf).
    rewrite (proj2 (Z.eqb_neq f 0)) by (by apply frame_ne0). cbn [length] in Hl.
    apply wp_bind. eapply uvm_map_page_ok; [done | done | unfold USPACE_TOP, PAGE_SIZE; lia | exact Hsp0 | | done | done | lia |].
    { apply Hmap. unfold in_range, PAGE_SIZE. lia. }
    intros s1 t1 l1 Hg0 Hf1 Hd1 _. pose proof (grew_taken PA s s1 pool t t1 f l l1 3 Hsp Hg0) as Hg.
    pose proof (gr_space _ _ _ _ _ _ _ _ _ Hg) as Hsp1. pose proof (gr_cost _ _ _ _ _ _ _ _ _ Hg) as Hc.
    cbn [length] in Hc. change (0 <? 0) with false. cbv iota.
    unfold PAGE_SIZE. rewrite (u64_small (a + 4096)) by lia. rewrite <- (gr_top _ _ _ _ _ _ _ _ _ Hg).
    assert (Hf1' : forall va, 0 <= va < USPACE_TOP ->
      find t1 va = if decide (a <= va < a + 4096) then Some f else find t va).
    { intros va Hva. rewrite Hf1 by done. apply decide_ext. by apply same_page_aligned. }
    apply (IH fuel base oldsz (a + 4096) newsz s1 t1 l1); unfold USPACE_TOP, PAGE_SIZE; try lia; [dlia | done | |].
    { intros va Hva. rewrite Hf1' by (unfold in_range, PAGE_SIZE, USPACE_TOP in *; lia).
      rewrite decide_False by (unfold in_range in Hva; lia). apply Hmap, in_range_S. by right. }
    intros s2 t2 l2 Hg2 Hf2 Hf2' Hd2. apply (HQ s2 t2 l2).
    + apply (grew_weaken PA _ _ _ _ _ _ _ (4 + 4 * n)); [| lia]. exact (grew_trans PA _ _ _ _ _ _ _ _ _ [] [] _ _ Hg Hg2).
    + intros va Hva Hni. rewrite in_range_S in Hni. unfold PAGE_SIZE in Hni. rewrite Hf2, Hf1' by tauto.
      by rewrite decide_False by tauto.
    + intros va Hin. destruct (decide (in_range (a + 4096) n va)) as [Hi|Hi].
      * by apply Hf2'.
      * apply in_range_S in Hin as [Hin|]; [| done]. unfold PAGE_SIZE in Hin.
        assert (0 <= va < USPACE_TOP) by (unfold USPACE_TOP; lia).
        rewrite Hf2, Hf1' by done. by rewrite decide_True.
    + intros va x Hva Hx. rewrite (Hd2 va x Hva); [by apply (Hd1 va) |]. rewrite Hf1' by done.
      rewrite decide_False; [done |]. intros Hin. rewrite Hmap in Hx; [done |]. apply in_range_S. by left.
Qed.

Lemma uvm_alloc_ok base stksz oldsz newsz n s (t : pt 4) l Q : 0 <= base <= oldsz -> oldsz <= newsz ->
  0 <= stksz < USPACE_TOP -> newsz < USPACE_TOP - stksz ->
  round_up oldsz PAGE_SIZE + PAGE_SIZE * Z.of_nat n = round_up newsz PAGE_SIZE -> space PA s t l ->
  (4 * n <= length l)%nat -> (forall va, in_range (round_up oldsz PAGE_SIZE) n va -> find t va = None) ->
  (forall s' t' l', grew PA s s' t t' l l' [] (4 * n) ->
    (forall va, 0 <= va < USPACE_TOP -> ~ in_range (round_up oldsz PAGE_SIZE) n va -> find t' va = find t va) ->
    (forall va, in_range (round_up oldsz PAGE_SIZE) n va -> is_Some (find t' va)) -> data s s' t -> Q (i32 newsz) s') ->
  wp E (my_uvm_alloc PA link (top t) base stksz oldsz newsz) Q s.
Proof.
  intros Hb Hle Hst Hnew Hn Hsp Hl Hmap HQ. unfold USPACE_TOP, PAGE_SIZE in *. unfold my_uvm_alloc, USPACE_TOP, PAGE_SIZE.
  rewrite (u64_small (281474976710656 - stksz)) by lia.
  rewrite (proj2 (Z.ltb_lt stksz _)), (proj2 (Z.leb_le base _)), (proj2 (Z.leb_le oldsz _)), (proj2 (Z.ltb_lt newsz _)) by lia.
  cbn [andb negb].
  destruct (round_up_spec newsz 4096) as [Hr1 Hr2]; [lia.. |].
  destruct (round_up_spec oldsz 4096) as [Hr3 Hr4]; [lia.. |].
  apply wp_bind. eapply (alloc_loop_ok n); unfold USPACE_TOP, PAGE_SIZE; [done | lia | dlia | lia | dlia | done | done | done |].
  intros s' t' l' Hg Hf Hf' Hd. apply wp_ret. by eapply HQ.
Qed.

(** ** copyout *)

Lemma find_page {d} va va' : same_page va va' -> forall (t : pt d), find t va = find t va'.
Proof.
  intros Hs. induction d as [|d IH]; intros t; [done |]. destruct (node_inv t) as (p & kids & ->).
  rewrite !find_S, (same_page_ix va va' d Hs). by destruct (kids !! Z.to_nat (ix d va')) as [[k|]|].
Qed.

Lemma copyout_page_ok va s (t : pt 4) l q Q : 0 <= va < USPACE_TOP -> space PA s t l -> leaf t va = Some q ->
  (1 <= length l)%nat ->
  (forall s' t' l' p, grew PA s s' t t' l l' [] 1 -> frame p ->
    (forall va', 0 <= va' < USPACE_TOP -> find t' va' = if decide (same_page va va') then Some p else find t va') ->
    data s s' t -> (forall x, find t va = Some x -> x = p) -> Q (Some p) s') ->
  wp E (copyout_page PA (q + 8 * ix 0 va)) Q s.
Proof.
  intros Hva Hsp Hq Hl HQ. destruct (leaf_entry PA va s t l q Hsp Hq) as (Hfq & Hqt & He).
  unfold copyout_page. apply wp_bind, load64_ok; [done.. |]. destruct (find t va) as [p|] eqn:Hf.
  - destruct He as (-> & Hp & _). change PTE_USER_DATA with (flags 0). rewrite pte_valid by done. cbn [negb].
    rewrite (proj1 (pte_decode p _ Hp (flags_bound 0))). apply wp_ret.
    apply (HQ s t l); [by apply grew_refl | done | | done | naive_solver].
    intros va' Hva'. case_decide as Hs; [| done]. rewrite <- Hf. symmetry. by apply find_page.
  - rewrite He. cbn [negb]. destruct l as [|p l]; [cbn in Hl; lia |].
    apply wp_bind. eapply vm_kalloc_ok; [apply Hsp |]. intros pool Hpool. cbn [hd tail] in *.
    destruct (space_take PA _ _ _ _ _ Hsp Hpool) as (Hsp0 & Hp & Hfr).
    rewrite (proj2 (Z.eqb_neq p 0)) by (by apply frame_ne0).
    apply wp_bind, store64_ok; [done.. |]. apply wp_ret. cbn [ram vm_pool].
    apply (HQ _ (upd t va (Some p)) l p); [| done | | | done].
    + eapply grew_taken; [exact Hsp |].
      apply (upd_link PA va p (mkVmem pool (ram s))); [done.. | apply Hsp | done].
    + intros va' Hva'. by eapply find_upd.
    + intros va' x _ Hx. cbn [ram]. apply set_entry_other. by eapply leaf_ne_find.
Qed.

(** The byte a process with the space [t] sees at [va]. *)
Definition ubyte (s : vmem P) (t : pt 4) (va : Z) : option Z :=
  p ← find t va; ram s p !! Z.to_nat (va mod PAGE_SIZE).

(** The [i]-th byte copyout writes. *)
Definition source (p : option (list Z)) (i : Z) : Z :=
  match p with
  | Some data => zget data i
  | None => 0
  end.

(** [len] bytes from [va] have become [src], and the rest of the mapped memory is
    as before. *)
Record copied (s s' : vmem P) (t t' : pt 4) (va len : Z) (src : Z -> Z) : Prop := {
  cp_in : forall x, va <= x < va + len -> ubyte s' t' x = Some (src (x - va));
  cp_out : forall x, 0 <= x < USPACE_TOP -> ~ va <= x < va + len -> is_Some (find t x) -> ubyte s' t' x = ubyte s t x;
  cp_map : forall x, 0 <= x < USPACE_TOP -> is_Some (find t' x) ->
    is_Some (find t x) \/ va / PAGE_SIZE <= x / PAGE_SIZE <= (va + len - 1) / PAGE_SIZE;
  cp_mono : forall x p, 0 <= x < USPACE_TOP -> find t x = Some p -> find t' x = Some p
}.

(** Writing into a mapped page leaves the tables alone. *)
Lemma shape_data {n} va p b : forall s (t : pt (S n)) l, space PA s t l -> find t va = Some p ->
  shape (set_frame (ram s) p b) t.
Proof.
  induction n as [|n IH]; intros s t l Hsp Hf; destruct (node_inv t) as (q & kids & ->);
    pose proof (find_ne_top PA _ _ _ _ _ _ Hsp Hf) as Hne; pose proof (sp_shape _ _ _ _ Hsp) as Hs;
    pose proof (proj1 (shape_S _ _ _) Hs) as [Hl _]; apply shape_S; (split; [done |]); intros i Hi;
    pose proof (shape_kid _ _ _ i Hs Hi) as Hk;
    assert (entry (set_frame (ram s) p b) q i = entry (ram s) q i) as -> by (unfold entry; by rewrite set_frame_ne);
    destruct (kids !! Z.to_nat i) as [[k|]|] eqn:Hki; try done.
  split; [apply Hk |]. rewrite find_S in Hf. pose proof (ix_range (S n) va).
  destruct (decide (i = ix (S n) va)) as [->|Hni].
  - rewrite Hki in Hf. eapply IH; [exact (space_kid PA _ _ _ _ _ _ Hsp Hi Hki) | done].
  - destruct (kids !! Z.to_nat (ix (S n) va)) as [[k'|]|] eqn:Hk'; [| done..].
    eapply shape_ext; [| apply Hk]. intros x Hx. apply set_frame_ne. intros ->.
    pose proof (sp_nodup _ _ _ _ Hsp) as (Hn & _ & _)%NoDup_app. rewrite tpages_S, NoDup_cons in Hn.
    eapply (kpages_disjoint kids (Z.to_nat i) (Z.to_nat (ix (S n) va))); [apply Hn | lia | done | done | done |].
    by eapply find_in.
Qed.

Lemma space_write s (t : pt 4) l va p b : space PA s t l -> find t va = Some p -> length b = 4096%nat ->
  space PA (mkVmem (vm_pool s) (set_frame (ram s) p b)) t l.
Proof.
  intros Hsp Hf Hb. split; [apply Hsp | apply sized_set; [apply Hsp | done] | apply Hsp | apply Hsp |].
  by eapply shape_data.
Qed.

(** Writing the part that lies in the page of [va]. *)
Lemma page_end va len x : 0 <= va < USPACE_TOP -> va mod PAGE_SIZE + len <= PAGE_SIZE -> va <= x < va + len ->
  0 <= x < USPACE_TOP /\ same_page va x /\ x mod PAGE_SIZE = va mod PAGE_SIZE + (x - va).
Proof. unfold USPACE_TOP, same_page, PAGE_SIZE. intros. dlia. Qed.

Lemma copied_page s1 (t t1 : pt 4) l1 s va p bs : space PA s1 t1 l1 -> 0 <= va < USPACE_TOP ->
  va mod PAGE_SIZE + Z.of_nat (length bs) <= PAGE_SIZE -> bs <> [] ->
  (forall va', 0 <= va' < USPACE_TOP -> find t1 va' = if decide (same_page va va') then Some p else find t va') ->
  data s s1 t -> (forall x, find t va = Some x -> x = p) ->
  let s2 := mkVmem (vm_pool s1) (set_frame (ram s1) p (splice (ram s1 p) (Z.to_nat (va mod PAGE_SIZE)) bs)) in
  copied s s2 t t1 va (Z.of_nat (length bs)) (zget bs).
Proof.
  intros Hsp Hva Hlen Hbs Hf Hd Hsame s2. pose proof (sp_size _ _ _ _ Hsp p) as Hsz.
  assert (Hfp : find t1 va = Some p) by (rewrite Hf by done; by rewrite decide_True).
  assert (length bs <> 0%nat) by (by destruct bs). split.
  - intros x Hx. destruct (page_end va (Z.of_nat (length bs)) x Hva Hlen Hx) as (Hxt & Hxp & Hxm).
    unfold ubyte. rewrite Hf, decide_True by done. cbn [mbind option_bind]. unfold s2. cbn [ram]. rewrite set_frame_eq, Hxm.
    unfold PAGE_SIZE in *. pose proof (Z.mod_pos_bound va 4096 ltac:(lia)).
    rewrite lookup_splice_new by lia. rewrite <- lookup_zget by lia. f_equal. lia.
  - intros x Hx Hnx [y Hy]. unfold ubyte. rewrite Hf, Hy by done. unfold s2. cbn [mbind option_bind ram].
    case_decide as Hxp.
    + assert (y = p) as -> by (apply Hsame; by rewrite (find_page _ _ Hxp)).
      unfold same_page, PAGE_SIZE in *. cbn [mbind option_bind].
      pose proof (Z.mod_pos_bound va 4096 ltac:(lia)). pose proof (Z.mod_pos_bound x 4096 ltac:(lia)).
      pose proof (Z.div_mod va 4096 ltac:(lia)). pose proof (Z.div_mod x 4096 ltac:(lia)).
      rewrite set_frame_eq, lookup_splice_old by lia.
      by rewrite (Hd x p).
    + cbn [mbind option_bind]. rewrite set_frame_ne, (Hd x y); [done.. |]. intros ->. apply Hxp.
      apply (find_same_page s1 t1 l1 va x p); [done.. |]. rewrite Hf by done. by rewrite decide_False.
  - intros x Hx. rewrite Hf by done. case_decide as Hxp; [| by left]. intros _. right.
    rewrite <- Hxp. split; [lia |]. apply Z.div_le_mono; unfold PAGE_SIZE; lia.
  - intros x y Hx Hy. rewrite Hf by done. case_decide as Hxp; [| done]. f_equal. symmetry. apply Hsame.
    by rewrite (find_page _ _ Hxp).
Qed.

Lemma copied_trans s1 s2 s3 (t1 t2 t3 : pt 4) va n m src : 0 <= va -> va + n + m <= USPACE_TOP -> 0 < n -> 0 <= m ->
  copied s1 s2 t1 t2 va n src -> copied s2 s3 t2 t3 (va + n) m (fun i => src (i + n)) ->
  copied s1 s3 t1 t3 va (n + m) src.
Proof.
  intros H0 Ht Hn Hm [A1 B1 C1 D1] [A2 B2 C2 D2]. split.
  - intros x Hx. destruct (decide (x < va + n)) as [Hlt|Hge].
    + specialize (A1 x ltac:(lia)). rewrite B2; [done | lia | lia |]. unfold ubyte in A1. by destruct (find t2 x).
    + rewrite A2 by lia. do 2 f_equal. lia.
  - intros x Hx Hnx Hs. rewrite B2, B1; [done | done | lia | done | done | lia |].
    destruct Hs as [p Hp]. exists p. by apply D1.
  - intros x Hx Hs. destruct (C2 x Hx Hs) as [H|H].
    + destruct (C1 x Hx H) as [|H']; [by left | right]. unfold PAGE_SIZE in *. dlia.
    + right. unfold PAGE_SIZE in *. dlia.
  - intros x p Hx Hp. by apply D2, D1.
Qed.

Lemma copied_ext s s' (t t' : pt 4) va len src src' : (forall i, 0 <= i < len -> src' i = src i) ->
  copied s s' t t' va len src -> copied s s' t t' va len src'.
Proof. intros Hs [A B C D]. split; [| done..]. intros x Hx. rewrite Hs by lia. by apply A. Qed.

(** The pages the range [va, va + len) meets. *)
Definition need (va len : Z) : nat := Z.to_nat (if len =? 0 then 0 else (va mod PAGE_SIZE + len + PAGE_SIZE - 1) / PAGE_SIZE).

Lemma need_step va len : 0 <= va -> 0 < len ->
  let n := if PAGE_SIZE - va mod PAGE_SIZE <? len then PAGE_SIZE - va mod PAGE_SIZE else len in
  0 < n <= len /\ va mod PAGE_SIZE + n <= PAGE_SIZE /\ need va len = S (need (va + n) (len - n)).
Proof.
  intros H0 Hl n. unfold need. rewrite (proj2 (Z.eqb_neq len 0)) by lia. unfold n. clear n. unfold PAGE_SIZE.
  pose proof (Z.mod_pos_bound va 4096 ltac:(lia)).
  destruct (Z.ltb_spec (4096 - va mod 4096) len) as [Hlt|Hge].
  - rewrite (proj2 (Z.eqb_neq (len - _) 0)) by lia.
    assert ((va + (4096 - va mod 4096)) mod 4096 = 0) as -> by dlia. split; [lia |]. split; [lia |].
    rewrite <- Z2Nat.inj_succ by dlia. f_equal. unfold Z.succ.
    replace (va mod 4096 + len + 4096 - 1) with (0 + (len - (4096 - va mod 4096)) + 4096 - 1 + 1 * 4096) by lia.
    by rewrite Z.div_add by lia.
  - rewrite Z.sub_diag. cbn. split; [lia |]. split; [lia |].
    assert ((va mod 4096 + len + 4096 - 1) / 4096 = 1) as -> by dlia. done.
Qed.

(** The walk and the page of one turn of the loop. *)
Lemma copyout_turn va s (t : pt 4) l Q : 0 <= va < USPACE_TOP -> space PA s t l -> (4 <= length l)%nat ->
  (forall s' t' l' p, grew PA s s' t t' l l' [] 4 -> frame p ->
    (forall va', 0 <= va' < USPACE_TOP -> find t' va' = if decide (same_page va va') then Some p else find t va') ->
    data s s' t -> (forall x, find t va = Some x -> x = p) -> Q (Some p) s') ->
  wp E (a ← my_pgdir_walk PA (top t) va true; if a =? 0 then mret None else copyout_page PA a) Q s.
Proof.
  intros Hva Hsp Hl HQ. apply wp_bind.
  eapply pgdir_walk_ok; [by apply va_u64 | exact Hsp | lia |]. intros s1 t1 l1 q Hg Hv Hq.
  pose proof (gr_space _ _ _ _ _ _ _ _ _ Hg) as Hsp1. pose proof (gr_cost _ _ _ _ _ _ _ _ _ Hg).
  rewrite entry_ptr_ne0 by (by eapply leaf_entry).
  eapply copyout_page_ok; [done | exact Hsp1 | done | lia |]. intros s2 t2 l2 p Hg2 Hp Hf2 Hd2 Hsame.
  apply (HQ s2 t2 l2 p); [exact (grew_trans PA _ _ _ _ _ _ _ _ _ [] [] 3 1 Hg Hg2) | done | | |].
  - intros va' Hva'. rewrite Hf2, (proj1 (Hv va')) by done. done.
  - intros va' x Hva' Hx. rewrite (Hd2 va' x Hva'), (proj2 (Hv va') x Hx); [done |]. by rewrite (proj1 (Hv va')).
  - intros x Hx. apply Hsame. by rewrite (proj1 (Hv va)).
Qed.

(** The write that ends the turn. *)
Lemma copyout_write va s s1 (t t1 : pt 4) l l1 p bs n Q : grew PA s s1 t t1 l l1 [] n -> frame p ->
  0 <= va < USPACE_TOP -> va mod PAGE_SIZE + Z.of_nat (length bs) <= PAGE_SIZE -> bs <> [] ->
  (forall va', 0 <= va' < USPACE_TOP -> find t1 va' = if decide (same_page va va') then Some p else find t va') ->
  data s s1 t -> (forall x, find t va = Some x -> x = p) ->
  (forall s2, grew PA s s2 t t1 l l1 [] n -> copied s s2 t t1 va (Z.of_nat (length bs)) (zget bs) -> Q tt s2) ->
  wp E (store_bytes (p + va mod PAGE_SIZE) bs) Q s1.
Proof.
  intros Hg Hp Hva Hlen Hbs Hf Hd Hsame HQ. pose proof (gr_space _ _ _ _ _ _ _ _ _ Hg) as Hsp.
  assert (Hfp : find t1 va = Some p) by (rewrite Hf by done; by rewrite decide_True).
  apply store_bytes_ok; [done | unfold PAGE_SIZE; apply Z.mod_pos_bound; lia |]. apply HQ.
  - replace n with (n + 0)%nat by lia. eapply (grew_trans PA _ _ _ _ _ _ _ _ _ [] [] n 0 Hg).
    split; [| done | done | | lia].
    + eapply space_write; [exact Hsp | exact Hfp |]. rewrite length_splice; [apply Hsp |].
      rewrite (sp_size _ _ _ _ Hsp p). pose proof (Z.mod_pos_bound va 4096 ltac:(lia)). unfold PAGE_SIZE in *. lia.
    + intros x Hx. cbn [ram]. apply set_frame_ne. intros ->. apply Hx. rewrite app_nil_l. apply elem_of_app. left. by eapply find_in.
  - by eapply copied_page.
Qed.

(** The bytes one turn writes. *)
Definition turn_bytes (p : option (list Z)) (n : Z) : list Z :=
  match p with
  | Some data => take (Z.to_nat n) data
  | None => replicate (Z.to_nat n) 0
  end.
Definition turn_rest (p : option (list Z)) (n : Z) : option (list Z) := (drop (Z.to_nat n)) <$> p.

Definition enough (p : option (list Z)) (len : Z) : Prop :=
  match p with
  | Some data => len <= Z.of_nat (length data)
  | None => True
  end.

Lemma turn_spec p n len : enough p len -> 0 < n <= len ->
  Z.of_nat (length (turn_bytes p n)) = n /\ turn_bytes p n <> [] /\ enough (turn_rest p n) (len - n) /\
  (forall i, 0 <= i < n -> source p i = zget (turn_bytes p n) i) /\
  (forall i, 0 <= i -> source (turn_rest p n) i = source p (i + n)).
Proof.
  intros He Hn. assert (Z.of_nat (length (turn_bytes p n)) = n) as Hl.
  { destruct p as [data|]; cbn in *; [rewrite length_take | rewrite length_replicate]; lia. }
  split; [done |]. split; [by intros E0; rewrite E0 in Hl; cbn in Hl; lia |].
  destruct p as [data|]; cbn [enough source turn_rest turn_bytes fmap option_fmap option_map] in *.
  - split; [rewrite length_drop; lia |]. unfold zget. split; intros i Hi.
    + rewrite !nth_lookup, lookup_take_lt by lia. done.
    + rewrite !nth_lookup, lookup_drop. do 2 f_equal. lia.
  - split; [done |]. split; intros i Hi; [by rewrite zget_replicate | done].
Qed.

(** One turn, with the two sources of the bytes put together. *)
Definition one_turn (fuel : nat) (pgdir va : Z) (p : option (list Z)) (len : Z) : M (vmem P) Z :=
  page ← (a ← my_pgdir_walk PA pgdir va true; if a =? 0 then mret None else copyout_page PA a);
  match page with
  | None => mret (-1)
  | Some page =>
      let n := if PAGE_SIZE - va mod PAGE_SIZE <? len then PAGE_SIZE - va mod PAGE_SIZE else len in
      store_bytes (page + va mod PAGE_SIZE) (turn_bytes p n);;
      copyout_loop PA fuel pgdir (u64 (va + n)) (turn_rest p n) (len - n)
  end.

Lemma copyout_loop_S fuel pgdir va p len s Q : len <> 0 -> enough p len -> 0 <= va ->
  wp E (one_turn fuel pgdir va p len) Q s -> wp E (copyout_loop PA (S fuel) pgdir va p len) Q s.
Proof.
  intros Hl He Hva. unfold wp, one_turn. cbn [copyout_loop]. rewrite (proj2 (Z.eqb_neq len 0)) by done.
  unfold mbind, M_bind. destruct (my_pgdir_walk PA pgdir va true s) as [[a s1]| | | |]; [| done..].
  destruct (a =? 0); [done |]. destruct (copyout_page PA a s1) as [[[page|] s2]| | | |]; [| done..].
  destruct p as [data|]; [| done]. cbn [enough] in He.
  rewrite (proj2 (Z.ltb_ge (Z.of_nat (length data)) _)); [done |]. case_match; lia.
Qed.

Lemma copyout_loop_ok fuel : forall va p len s (t : pt 4) l Q, 0 <= va -> 0 <= len -> va + len <= USPACE_TOP ->
  enough p len -> space PA s t l -> (need va len < fuel)%nat -> (4 * need va len <= length l)%nat ->
  (forall s' t' l', grew PA s s' t t' l l' [] (4 * need va len) -> copied s s' t t' va len (source p) -> Q 0 s') ->
  wp E (copyout_loop PA fuel (top t) va p len) Q s.
Proof.
  induction fuel as [|fuel IH]; intros va p len s t l Q Hva Hlen Ht He Hsp Hfu Hl HQ; [lia |].
  destruct (decide (len = 0)) as [->|Hne].
  { apply wp_ret. apply (HQ s t l); [by apply grew_refl |]. split; [lia | done | by left | done]. }
  apply copyout_loop_S; [done.. |]. unfold one_turn.
  destruct (need_step va len Hva ltac:(lia)) as (Hn & Hpg & Hneed).
  set (n := if _ <? _ then _ else _) in *. clearbody n. rewrite Hneed in *. unfold USPACE_TOP in Ht.
  destruct (turn_spec p n len He Hn) as (Hbl & Hbs & He' & Hsrc & Hsrc').
  apply wp_bind. eapply copyout_turn; [unfold USPACE_TOP; lia | exact Hsp | lia |].
  intros s1 t1 l1 page Hg Hp Hf Hd Hsame. cbv zeta.
  apply wp_bind. eapply copyout_write; [exact Hg | done | unfold USPACE_TOP; lia | by rewrite Hbl | done | done | done | done |].
  intros s2 Hg2 Hcp. rewrite (u64_small (va + n)) by lia. rewrite <- (gr_top _ _ _ _ _ _ _ _ _ Hg2).
  pose proof (gr_cost _ _ _ _ _ _ _ _ _ Hg2).
  apply (IH (va + n) _ _ s2 t1 l1); unfold USPACE_TOP; [lia.. | done | apply Hg2 | lia | lia |].
  intros s3 t3 l3 Hg3 Hcp3. apply (HQ s3 t3 l3).
  - apply (grew_weaken PA _ _ _ _ _ _ _ (4 + 4 * need (va + n) (len - n))); [| lia].
    exact (grew_trans PA _ _ _ _ _ _ _ _ _ [] [] _ _ Hg2 Hg3).
  - rewrite Hbl in Hcp. replace len with (n + (len - n)) by lia.
    eapply copied_trans; [lia | unfold USPACE_TOP; lia | lia | lia | eapply copied_ext; [exact Hsrc | exact Hcp] |].
    eapply copied_ext; [| exact Hcp3]. intros i Hi. cbv beta. symmetry. apply Hsrc'. lia.
Qed.

Lemma copyout_ok va p len s (t : pt 4) l Q : 0 <= va -> 0 <= len -> va + len <= USPACE_TOP -> enough p len ->
  space PA s t l -> (4 * need va len <= length l)%nat ->
  (forall s' t' l', grew PA s s' t t' l l' [] (4 * need va len) -> copied s s' t t' va len (source p) -> Q 0 s') ->
  wp E (my_copyout PA (top t) va p len) Q s.
Proof.
  intros Hva Hlen Ht He Hsp Hl HQ. unfold my_copyout. rewrite (u64_small (va + len)) by (unfold USPACE_TOP in Ht; lia).
  rewrite Z.gtb_ltb, (proj2 (Z.ltb_ge USPACE_TOP _)) by done.
  eapply copyout_loop_ok; [done.. | | done | done]. unfold need. case_match; [cbn; unfold PAGE_SIZE; dlia |].
  unfold PAGE_SIZE. dlia.
Qed.
End space.
