(* ===== verification/AddressSpaces.v ===== *)
(** Whole address spaces: my_uvm_copy (the memory of fork) and my_vm_free (the
    memory of wait) of core/virtual_memory.c. *)
From S2P Require Import Prelude Bytes CString PhysMem Arena VirtualMemory PageTable VirtualMemorySpec.
From Stdlib Require Import Lia.

#[local] Hint Resolve ix_range : core.

Section spaces.
Context {P : Type} (PA : PageAllocator P) (E : string -> Prop).

(** ** Copies *)

(** [c] has the tables of [t] and, page by page, the data: [r] is the memory of
    [t], [r'] that of [c]. *)
Fixpoint copy_of {d} (r r' : Z -> list Z) : pt d -> pt d -> Prop :=
  match d with
  | O => fun p q => r' q = r p
  | S d' => fun t c =>
      forall i, match t.2 !! i, c.2 !! i with
                | Some (Some k), Some (Some k') => copy_of r r' k k'
                | Some None, Some None | None, None => True
                | _, _ => False
                end
  end.

Definition kid_copy {d} (r r' : Z -> list Z) (o o' : option (option (pt d))) : Prop :=
  match o, o' with
  | Some (Some k), Some (Some k') => copy_of r r' k k'
  | Some None, Some None | None, None => True
  | _, _ => False
  end.

Lemma copy_of_S {d} r r' p q (kids kc : list (option (pt d))) :
  copy_of r r' (node p kids) (node q kc) <-> forall i, kid_copy r r' (kids !! i) (kc !! i).
Proof. done. Qed.

Lemma copy_of_ext {d} r r' r1 r1' : forall (t c : pt d), (forall x, x ∈ tpages t -> r1 x = r x) ->
  (forall x, x ∈ tpages c -> r1' x = r' x) -> copy_of r r' t c -> copy_of r1 r1' t c.
Proof.
  induction d as [|d IH]; intros t c Ht Hx.
  - cbn. intros H. rewrite Ht, Hx by left. done.
  - destruct (node_inv t) as (p & kids & ->), (node_inv c) as (q & kc & ->). rewrite !copy_of_S. intros Hc i.
    specialize (Hc i). unfold kid_copy in *.
    destruct (kids !! i) as [[k|]|] eqn:Hk, (kc !! i) as [[k'|]|] eqn:Hk'; try done.
    apply IH; [| | done]; intros x Hin; [apply Ht | apply Hx]; rewrite tpages_S; right; by eapply elem_of_kpages.
Qed.

Lemma copy_of_length {d} r r' : forall (t c : pt d), copy_of r r' t c -> length (tpages c) = length (tpages t).
Proof.
  induction d as [|d IH]; intros t c; [done |].
  destruct (node_inv t) as (p & kids & ->), (node_inv c) as (q & kc & ->). rewrite copy_of_S, !tpages_S. intros Hc.
  cbn [length]. f_equal. revert kc Hc. induction kids as [|o kids IHk]; intros [|o' kc] Hc; [done | | |].
  - specialize (Hc 0%nat). by destruct o'.
  - specialize (Hc 0%nat). by destruct o.
  - unfold kpages in *. cbn [fmap list_fmap concat]. rewrite !length_app. f_equal.
    + specialize (Hc 0%nat). cbn in Hc. destruct o as [k|], o' as [k'|]; try done. by apply IH.
    + apply IHk. intros i. apply (Hc (S i)).
Qed.

(** [c] is a fresh copy of [t], made of pages of [l]; nothing else has changed. *)
Record copies {d} (s s' : vmem P) (t c : pt d) (l l' : list Z) : Prop := {
  co_space : space PA s' c l';
  co_pages : tpages c ++ l' ≡ₚ l;
  co_kept : kept s s' l;
  co_copy : copy_of (ram s) (ram s') t c
}.

(** A space stays one while another tree is being made of free pages. *)
Lemma space_aside {d e} s0 s (t : pt d) (c : pt e) l0 l : space PA s0 t l0 -> space PA s c l ->
  tpages c ++ l ≡ₚ l0 -> kept s0 s l0 -> space PA s t l.
Proof.
  intros H0 Hc Hp Hk. pose proof (sp_nodup _ _ _ _ H0) as Hn. pose proof (sp_frames _ _ _ _ H0) as Hf.
  pose proof Hn as (_ & Hd & _)%NoDup_app. rewrite <- Hp in Hn, Hf. split; [apply Hc | apply Hc | | |].
  - eapply (sublist_NoDup _ _ Hn). apply sublist_app; [done | by apply sublist_inserts_l].
  - rewrite !Forall_app in Hf. rewrite Forall_app. tauto.
  - eapply shape_ext; [| apply H0]. intros x Hx. apply Hk. by apply Hd.
Qed.

(** What is copied of the table's kids after [i] turns. *)
Record copying {d} (s0 s : vmem P) q (kids kc : list (option (pt d))) (l0 l : list Z) (i : nat) : Prop := {
  cg_space : space PA s (node q kc) l;
  cg_pages : tpages (node q kc) ++ l ≡ₚ l0;
  cg_kept : kept s0 s l0;
  cg_done : forall j, (j < i)%nat -> kid_copy (ram s0) (ram s) (kids !! j) (kc !! j);
  cg_todo : forall j, (i <= j < 512)%nat -> kc !! j = Some None;
  cg_room : (length (kpages (drop i kids)) <= length l)%nat
}.

Definition copier {d} (f : Z -> M (vmem P) Z) : Prop := forall s (k : pt d) l Q, space PA s k l ->
  (length (tpages k) <= length l)%nat -> (forall s' c l', copies s s' k c l l' -> Q (top c) s') -> wp E (f (top k)) Q s.

Lemma copying_skip {d} s0 s q (kids kc : list (option (pt d))) l0 l i : (i < 512)%nat -> kids !! i = Some None ->
  copying s0 s q kids kc l0 l i -> copying s0 s q kids kc l0 l (S i).
Proof.
  intros Hi Hk [A B C D F G]. split; [done | done | done | | |].
  - intros j Hj. destruct (decide (j = i)) as [->|]; [| apply D; lia]. by rewrite Hk, F by lia.
  - intros j Hj. apply F. lia.
  - rewrite (drop_S kids None i Hk) in G. done.
Qed.

(** Storing the link to the copy of kid [i]. *)
Lemma copying_link {d} s0 s s1 p q (kids kc : list (option (pt d))) l0 l l1 i k c : (i < 512)%nat ->
  kids !! i = Some (Some k) -> space PA s0 (node p kids) l0 -> copying s0 s q kids kc l0 l i -> copies s s1 k c l l1 ->
  copying s0 (mkVmem (vm_pool s1) (set_entry (ram s1) q (Z.of_nat i) (Z.lor (K2P (top c)) (flags d))))
    q kids (<[i := Some c]> kc) l0 l1 (S i).
Proof.
  intros Hi Hk H0 [A B C D F G] [Hc1 Hc2 Hc3 Hc4].
  assert (Hq : space PA s1 (node q kc) l1).
  { eapply space_aside; [exact A | exact Hc1 | done | done]. }
  pose proof (F i ltac:(lia)) as Hki. rewrite <- (Nat2Z.id i) in Hki.
  assert (Hnd : NoDup (tpages c ++ tpages (node q kc) ++ l1)).
  { pose proof (sp_nodup _ _ _ _ A) as Hn. rewrite <- Hc2 in Hn. eapply NoDup_Permutation_proper; [| exact Hn]. solve_Permutation. }
  assert (Hg : grew PA s1 (mkVmem (vm_pool s1) (set_entry (ram s1) q (Z.of_nat i) (Z.lor (K2P (top c)) (flags d))))
    (node q kc) (node q (<[i := Some c]> kc)) l1 l1 (tpages c) 0).
  { rewrite <- (Nat2Z.id i) at 2. apply grew_link; [done | lia | done | done | | apply Hc1 | apply Hc1 | done | apply Hc1].
    pose proof (sp_frames _ _ _ _ Hc1) as Hf%Forall_app. apply Hf. }
  pose proof (sp_nodup _ _ _ _ H0) as (_ & Hd0 & _)%NoDup_app.
  assert (Hback : forall x, x ∉ l -> x <> q -> set_entry (ram s1) q (Z.of_nat i) (Z.lor (K2P (top c)) (flags d)) x = ram s x).
  { intros x Hx Hxq. rewrite set_entry_other by done. by apply Hc3. }
  split; [apply Hg | | | | |].
  - rewrite (gr_pages _ _ _ _ _ _ _ _ _ Hg). rewrite <- B, <- Hc2. solve_Permutation.
  - intros x Hx. cbn [ram]. rewrite Hback; [by apply C | |].
    + intros Hl. apply Hx. rewrite <- B. set_solver.
    + intros ->. apply Hx. rewrite <- B. apply elem_of_app. left. left.
  - intros j Hj. cbn [ram]. destruct (decide (j = i)) as [->|Hne].
    + rewrite list_lookup_insert_eq by (apply lookup_lt_Some in Hki; lia). rewrite Hk. cbn [kid_copy].
      eapply copy_of_ext; [| | exact Hc4]; intros x Hx.
      * symmetry. apply C. apply Hd0. rewrite tpages_S. right. by eapply elem_of_kpages.
      * apply set_entry_other. intros ->. apply NoDup_app in Hnd as (_ & Hnd & _).
        apply (Hnd q Hx), elem_of_app. left. left.
    + rewrite list_lookup_insert_ne by lia. specialize (D j ltac:(lia)). unfold kid_copy in *.
      destruct (kids !! j) as [[kj|]|], (kc !! j) as [[cj|]|] eqn:Hcj; try done.
      eapply copy_of_ext; [done | | exact D]. intros x Hx.
      pose proof (sp_nodup _ _ _ _ A) as Hn. rewrite tpages_S in Hn. apply NoDup_app in Hn as ([Hn _]%NoDup_cons & Hd & _).
      assert (x ∈ kpages kc) by (by eapply elem_of_kpages).
      apply Hback; [apply Hd; by right |]. intros ->. by apply Hn.
  - intros j Hj. rewrite list_lookup_insert_ne by lia. apply F. lia.
  - rewrite (drop_S kids (Some k) i Hk) in G. unfold kpages in G. cbn [fmap list_fmap concat] in G.
    rewrite length_app in G. cbn [opages from_option] in G. fold (kpages (drop (S i) kids)) in G.
    apply Permutation_length in Hc2. rewrite length_app in Hc2. pose proof (copy_of_length _ _ _ _ Hc4). lia.
Qed.

(** A fresh, empty table. *)
Lemma pgdir_init_ok {d} s q l Q : pa_inv (vm_pool s) (q :: l) -> sized (ram s) -> NoDup (q :: l) -> Forall frame (q :: l) ->
  (forall s', space PA s' (empty_table d q) l -> kept s s' [q] -> Q q s') ->
  wp E (my_pgdir_init PA) Q s.
Proof.
  intros Hp Hz Hn Hf HQ. pose proof Hf as [Hfq _]%Forall_cons.
  unfold my_pgdir_init. apply wp_bind. eapply vm_kalloc_ok; [exact Hp |]. intros pool Hpool. cbn [hd tail] in *.
  rewrite (proj2 (Z.eqb_neq q 0)) by (by apply frame_ne0). cbn [negb].
  apply wp_bind, clear_page_ok; [done | apply Hz |]. apply wp_ret. cbn [ram vm_pool]. apply HQ.
  - assert (Hpg : tpages (empty_table d q) = [q]) by (unfold empty_table; rewrite tpages_S; by rewrite kpages_empty).
    split; cbn [vm_pool ram]; [done | apply sized_set; [done | apply length_replicate] | by rewrite Hpg | by rewrite Hpg |].
    apply shape_empty.
  - intros x Hx. cbn [ram]. apply set_frame_ne. set_solver.
Qed.

(** The loop over the entries, given how a kid is copied. *)
Lemma copy_loop_ok {d} f s0 s1 p q (kids : list (option (pt d))) l0 l1 Q : copier (d := d) f ->
  space PA s0 (node p kids) l0 -> copying s0 s1 q kids (replicate 512 None) l0 l1 0 ->
  (forall s kc l, copying s0 s q kids kc l0 l 512 -> Q tt s) ->
  wp E (for_range 0 512 (fun i =>
    pte ← load64 (p + 8 * i);
    if negb (Z.land pte PTE_VALID =? 0) then
      page_copy ← f (P2K (PTE_ADDRESS pte));
      store64 (q + 8 * i) (Z.lor (K2P page_copy) (PTE_FLAGS pte))
    else mret tt)) Q s1.
Proof.
  intros Hf H0 Hc0 HQ. eapply wp_mono.
  - apply (wp_for_range E (fun i s => exists kc l, copying s0 s q kids kc l0 l (Z.to_nat i))).
    2: { by exists (replicate 512 None), l1. }
    intros i s Hi (kc & l & Hc). change (Z.of_nat 512) with 512 in Hi. cbn in Hi.
    assert (Hsp : space PA s (node p kids) l).
    { eapply space_aside; [exact H0 | apply Hc | apply Hc | apply Hc]. }
    assert (Hq : frame q) by apply (space_top _ _ _ _ (cg_space _ _ _ _ _ _ _ _ Hc)).
    apply wp_bind, load64_ok; [apply (space_top _ _ _ _ Hsp) | lia |].
    pose proof (shape_kid _ _ _ i (sp_shape _ _ _ _ Hsp) ltac:(lia)) as Hs.
    replace (Z.to_nat (i + 1)) with (S (Z.to_nat i)) by lia.
    destruct (kids !! Z.to_nat i) as [[k|]|] eqn:Hk; [| | done].
    + destruct Hs as [-> _]. assert (Hspk : space PA s k l) by (apply (space_kid PA s p kids l i); [done | lia | done]).
      pose proof (space_top _ _ _ _ Hspk) as Hkf. rewrite pte_valid by done. cbn [negb].
      destruct (pte_decode (top k) (flags d) Hkf (flags_bound d)) as [-> ->].
      apply wp_bind, (Hf s k l); [done | |].
      * pose proof (cg_room _ _ _ _ _ _ _ _ Hc) as G. rewrite (drop_S kids _ _ Hk) in G.
        unfold kpages in G. cbn [fmap list_fmap concat opages from_option] in G. rewrite length_app in G. lia.
      * intros s' c l' Hcc. apply store64_ok; [done | lia |].
        exists (<[Z.to_nat i := Some c]> kc), l'. rewrite <- (Z2Nat.id i) at 1 by lia.
        eapply copying_link; [lia | done | exact H0 | exact Hc | exact Hcc].
    + rewrite Hs. cbn [negb]. apply wp_ret. exists kc, l. apply copying_skip; [lia | done | done].
  - intros [] s (kc & l & Hc). by apply (HQ s kc l).
Qed.

(** A table, given how its kids are copied. *)
Lemma copy_table_ok {d} f : copier (d := d) f ->
  copier (d := S d) (fun pgdir =>
    newpgdir ← my_pgdir_init PA;
    for_range 0 512 (fun i =>
      pte ← load64 (pgdir + 8 * i);
      if negb (Z.land pte PTE_VALID =? 0) then
        page_copy ← f (P2K (PTE_ADDRESS pte));
        store64 (newpgdir + 8 * i) (Z.lor (K2P page_copy) (PTE_FLAGS pte))
      else mret tt);;
    mret newpgdir).
Proof.
  intros Hf s t l Q Hsp Hl HQ. destruct (node_inv t) as (p & kids & ->). rewrite tpages_S in Hl.
  destruct l as [|q l]; [cbn in Hl; lia |].
  pose proof (sp_nodup _ _ _ _ Hsp) as (_ & Hd & Hnl)%NoDup_app. pose proof (sp_frames _ _ _ _ Hsp) as [_ Hfl]%Forall_app.
  apply wp_bind. eapply (pgdir_init_ok (d := d)); [apply Hsp | apply Hsp | done | done |]. intros s1 Hsp1 Hk1.
  apply wp_bind. eapply (copy_loop_ok f s s1 p q kids (q :: l) l); [done | done | |].
  - split; [done | | | lia | |].
    + unfold empty_table. rewrite tpages_S, kpages_empty. done.
    + intros x Hx. apply Hk1. set_solver.
    + intros j Hj. apply lookup_replicate_2. lia.
    + rewrite drop_0. cbn in Hl. lia.
  - intros s' kc l' [A B C D F _]. apply wp_ret. apply (HQ s' (node q kc) l'). split; [done.. |].
    apply copy_of_S. intros i. destruct (decide (i < 512)%nat) as [Hi|Hi]; [by apply D |].
    pose proof (proj1 (proj1 (shape_S _ _ _) (sp_shape _ _ _ _ A))). pose proof (proj1 (proj1 (shape_S _ _ _) (sp_shape _ _ _ _ Hsp))).
    rewrite !lookup_ge_None_2 by lia. done.
Qed.

(** A page of data. *)
Lemma copy_page_copier : copier (d := 0) (fun q => p ← vm_kalloc PA; copy_page p q;; mret p).
Proof.
  intros s q l Q Hsp Hl HQ. destruct l as [|p l]; [cbn in Hl; lia |].
  pose proof (sp_nodup _ _ _ _ Hsp) as (_ & Hd & Hnl)%NoDup_app. pose proof (sp_frames _ _ _ _ Hsp) as [Hfq Hfl]%Forall_app.
  apply wp_bind. eapply vm_kalloc_ok; [apply Hsp |]. intros pool Hpool. cbn [hd tail] in *.
  apply wp_bind, copy_page_ok.
  - by apply Forall_cons in Hfl as [? _].
  - by apply Forall_cons in Hfq as [? _].
  - apply wp_ret. cbn [ram vm_pool]. apply (HQ _ p l). split; cbn [ram].
    + split; [done | apply sized_set; apply Hsp | done | done | done].
    + done.
    + intros x Hx. cbn [ram]. apply set_frame_ne. set_solver.
    + apply set_frame_eq.
Qed.

Lemma recur_uvm_copy_ok d : copier (d := S d) (recur_uvm_copy PA d).
Proof.
  induction d as [|d IH]; intros s t l Q Hsp Hl HQ.
  - exact (copy_table_ok _ copy_page_copier s t l Q Hsp Hl HQ).
  - exact (copy_table_ok _ IH s t l Q Hsp Hl HQ).
Qed.
End spaces.

(** ** Freeing *)

Section freeing.
Context {P : Type} (PA : PageAllocator P) (link : P -> Z -> Z) (E : string -> Prop).

(** The pages [X] have gone back to the pool; nothing else has changed. *)
Record freed (s s' : vmem P) (X l l' : list Z) : Prop := {
  fd_pool : pa_inv (vm_pool s') l';
  fd_size : sized (ram s');
  fd_pages : l' ≡ₚ X ++ l;
  fd_kept : kept s s' X
}.

Definition freer {d} (f : Z -> M (vmem P) unit) : Prop := forall s (k : pt d) l Q, space PA s k l ->
  (forall s' l', freed s s' (tpages k) l l' -> Q tt s') -> wp E (f (top k)) Q s.

Lemma freed_trans s1 s2 s3 X Y l1 l2 l3 : freed s1 s2 X l1 l2 -> freed s2 s3 Y l2 l3 -> freed s1 s3 (X ++ Y) l1 l3.
Proof.
  intros [A1 B1 C1 D1] [A2 B2 C2 D2]. split; [done | done | rewrite C2, C1; solve_Permutation |].
  intros x Hx. rewrite D2, D1 by set_solver. done.
Qed.

Lemma vm_kfree_freer : freer (d := 0) (vm_kfree PA link).
Proof.
  intros s p l Q Hsp HQ. pose proof (sp_nodup _ _ _ _ Hsp) as [Hp _]%NoDup_cons.
  pose proof (sp_frames _ _ _ _ Hsp) as [Hf _]%Forall_cons.
  eapply vm_kfree_ok; [apply Hsp | done | done |]. intros pool v Hpool. apply (HQ _ (p :: l)).
  split; cbn [ram vm_pool]; [done | apply sized_set_entry; [apply Hsp | lia] | done |].
  intros x Hx. apply set_entry_other. set_solver.
Qed.

(** The first [i] kids freed: the next one and the table are still there. *)
Lemma space_rest {d} s0 s p (kids : list (option (pt d))) l0 l i : space PA s0 (node p kids) l0 ->
  freed s0 s (kpages (take i kids)) l0 l -> 
  ram s p = ram s0 p /\ (forall k, kids !! i = Some (Some k) -> shape (ram s0) k -> space PA s k l).
Proof.
  intros Hsp [A B C D]. pose proof (sp_nodup _ _ _ _ Hsp) as Hn. pose proof (sp_frames _ _ _ _ Hsp) as Hf.
  rewrite tpages_S in Hn, Hf.
  assert (Hsplit : kpages kids = kpages (take i kids) ++ kpages (drop i kids)).
  { unfold kpages. rewrite <- (take_drop i kids) at 1. by rewrite fmap_app, concat_app. }
  rewrite Hsplit in Hn, Hf. cbn in Hn, Hf. apply NoDup_cons in Hn as [Hp Hn]. split; [apply D; set_solver |].
  intros k Hk Hs. rewrite (drop_S kids _ _ Hk) in Hn, Hf.
  unfold kpages at 2 in Hn. unfold kpages at 2 in Hf. cbn [fmap list_fmap concat opages from_option] in Hn, Hf.
  fold (kpages (drop (S i) kids)) in Hn, Hf. apply Forall_cons in Hf as [_ Hf]. split; [done | done | | |].
  - rewrite C. apply (sublist_NoDup (tpages k ++ kpages (take i kids) ++ l0)
      (kpages (drop (S i) kids) ++ tpages k ++ kpages (take i kids) ++ l0)); [| by apply sublist_inserts_l].
    eapply NoDup_Permutation_proper; [| exact Hn]. solve_Permutation.
  - rewrite C. rewrite !Forall_app in *. tauto.
  - eapply shape_ext; [| exact Hs]. intros x Hx. apply D. intros Hx'. rewrite <- !app_assoc in Hn.
    apply NoDup_app in Hn as (_ & Hd & _). apply (Hd x Hx'). set_solver.
Qed.

Lemma free_table_loop_ok {d} f s0 p (kids : list (option (pt d))) l0 Q : freer (d := d) f -> space PA s0 (node p kids) l0 ->
  (forall s l, freed s0 s (kpages kids) l0 l -> Q tt s) ->
  wp E (for_range 0 512 (fun i =>
    pte ← load64 (p + 8 * i);
    if negb (Z.land pte PTE_VALID =? 0) then f (P2K (PTE_ADDRESS pte)) else mret tt)) Q s0.
Proof.
  intros Hf H0 HQ. pose proof (proj1 (proj1 (shape_S _ _ _) (sp_shape _ _ _ _ H0))) as Hlen. eapply wp_mono.
  - apply (wp_for_range E (fun i s => exists l, freed s0 s (kpages (take (Z.to_nat i) kids)) l0 l)).
    2: { exists l0. split; [apply H0 | apply H0 | done | done]. }
    intros i s Hi (l & Hfr). change (Z.of_nat 512) with 512 in Hi. cbn in Hi.
    destruct (space_rest s0 s p kids l0 l (Z.to_nat i) H0 Hfr) as [Hp Hkid].
    apply wp_bind, load64_ok; [apply (space_top _ _ _ _ H0) | lia |].
    assert (entry (ram s) p i = entry (ram s0) p i) as -> by (unfold entry; by rewrite Hp).
    pose proof (shape_kid _ _ _ i (sp_shape _ _ _ _ H0) ltac:(lia)) as Hs.
    replace (Z.to_nat (i + 1)) with (S (Z.to_nat i)) by lia.
    destruct (kids !! Z.to_nat i) as [[k|]|] eqn:Hk; [| | done].
    + destruct Hs as [-> Hs]. specialize (Hkid k eq_refl Hs). pose proof (space_top _ _ _ _ Hkid) as Hkf.
      rewrite pte_valid by done. cbn [negb]. rewrite (proj1 (pte_decode (top k) (flags d) Hkf (flags_bound d))).
      apply (Hf s k l); [done |]. intros s' l' Hfr'. exists l'.
      rewrite (take_S_r _ _ _ Hk). unfold kpages. rewrite fmap_app, concat_app. cbn. rewrite app_nil_r.
      exact (freed_trans _ _ _ _ _ _ _ _ Hfr Hfr').
    + rewrite Hs. cbn [negb]. apply wp_ret. exists l.
      rewrite (take_S_r _ _ _ Hk). unfold kpages. rewrite fmap_app, concat_app. cbn. by rewrite app_nil_r.
  - intros [] s (l & Hfr). apply (HQ s l). by rewrite take_ge in Hfr by (rewrite Hlen; cbn; lia).
Qed.

Lemma free_table_ok {d} f : freer (d := d) f ->
  freer (d := S d) (fun pgdir =>
    for_range 0 512 (fun i =>
      pte ← load64 (pgdir + 8 * i);
      if negb (Z.land pte PTE_VALID =? 0) then f (P2K (PTE_ADDRESS pte)) else mret tt);;
    vm_kfree PA link pgdir).
Proof.
  intros Hf s t l Q Hsp HQ. destruct (node_inv t) as (p & kids & ->).
  apply wp_bind. eapply (free_table_loop_ok f); [done | exact Hsp |]. intros s1 l1 Hfr.
  pose proof (sp_nodup _ _ _ _ Hsp) as Hn. rewrite tpages_S in Hn. cbn in Hn. apply NoDup_cons in Hn as [Hp Hn].
  pose proof (fd_pages _ _ _ _ _ Hfr) as Hl1. cbn [top node fst].
  eapply vm_kfree_ok; [apply Hfr | by rewrite Hl1 | apply (space_top _ _ _ _ Hsp) |].
  intros pool v Hpool. apply (HQ _ (p :: l1)). rewrite tpages_S.
  split; cbn [ram vm_pool]; [done | apply sized_set_entry; [apply Hfr | lia] | by rewrite Hl1 |].
  intros x Hx. cbn [ram]. rewrite set_entry_other by set_solver. apply Hfr. set_solver.
Qed.

Lemma recur_vm_free_ok d : freer (d := S d) (recur_vm_free PA link d).
Proof.
  induction d as [|d IH]; intros s t l Q Hsp HQ.
  - exact (free_table_ok _ vm_kfree_freer s t l Q Hsp HQ).
  - exact (free_table_ok _ IH s t l Q Hsp HQ).
Qed.
End freeing.
