(* ===== verification/VmTheorems.v ===== *)
(** The properties of the user address spaces of core/virtual_memory.c, stated on
    the translation of the hardware ([translate], [user_byte]); and the table [vmt] of the
    operations, the functions that call through it, and vm_test, which main runs at every start. *)
From S2P Require Import Prelude Bytes CString Locks PhysMem Arena VirtualMemory PageTable VirtualMemorySpec UserSpace AddressSpaces.
From Stdlib Require Import Lia.

Section theorems.
Context {P : Type} (PA : PageAllocator P) (link : P -> Z -> Z).

(** [pgdir] is the root of a well-formed page table that occupies the pages [ps]
    (tables and data), disjoint from the free pages [l]. *)
Definition address_space (s : vmem P) (pgdir : Z) (ps l : list Z) : Prop :=
  exists t : pt 4, top t = pgdir /\ tpages t = ps /\ space PA s t l.

Lemma translate_find (s : vmem P) (t : pt 4) l va : space PA s t l -> translate (ram s) (top t) va = find t va.
Proof.
  intros Hsp. apply mmu_find; [apply Hsp |]. pose proof (sp_frames _ _ _ _ Hsp) as [H _]%Forall_app. done.
Qed.

Lemma user_byte_ubyte (s : vmem P) (t : pt 4) l va : space PA s t l -> user_byte (ram s) (top t) va = ubyte s t va.
Proof. intros Hsp. unfold user_byte, ubyte. by rewrite (translate_find s t l). Qed.

Lemma translate_top (s : vmem P) (t t' : pt 4) l : space PA s t' l -> top t' = top t ->
  forall va, translate (ram s) (top t) va = find t' va.
Proof. intros Hsp <- va. by eapply translate_find. Qed.

Lemma user_byte_top (s : vmem P) (t t' : pt 4) l : space PA s t' l -> top t' = top t ->
  forall va, user_byte (ram s) (top t) va = ubyte s t' va.
Proof. intros Hsp <- va. by eapply user_byte_ubyte. Qed.

Lemma data_ubyte (s s' : vmem P) (t t' : pt 4) va : data s s' t -> 0 <= va < USPACE_TOP -> find t' va = find t va ->
  ubyte s' t' va = ubyte s t va.
Proof.
  intros Hd Hva Hf. unfold ubyte. rewrite Hf. destruct (find t va) as [x|] eqn:Hx; [| done].
  cbn. by rewrite (Hd va x).
Qed.

(** My_uvm_alloc, given enough free pages (one per page of the range and three
    per page for tables) and a range not mapped yet, returns the new size; the
    pages of the range are mapped, every other address translates and reads as
    before, no two virtual pages share a frame, and the frames of the space and
    the free ones are together those of before. *)
Theorem uvm_alloc_grows (s : vmem P) (pgdir base stksz oldsz newsz : Z) (n : nat) (ps l : list Z)
  (Hs : address_space s pgdir ps l) (Hb : 0 <= base <= oldsz) (Hle : oldsz <= newsz)
  (Hst : 0 <= stksz < USPACE_TOP) (Hnew : newsz < USPACE_TOP - stksz)
  (Hn : round_up oldsz PAGE_SIZE + PAGE_SIZE * Z.of_nat n = round_up newsz PAGE_SIZE)
  (Hl : (4 * n <= length l)%nat)
  (Hfree : forall va, in_range (round_up oldsz PAGE_SIZE) n va -> translate (ram s) pgdir va = None) :
  exists s' ps' l', my_uvm_alloc PA link pgdir base stksz oldsz newsz s = Ret (i32 newsz, s') /\
    address_space s' pgdir ps' l' /\ ps' ++ l' ≡ₚ ps ++ l /\
    (forall va, in_range (round_up oldsz PAGE_SIZE) n va -> is_Some (translate (ram s') pgdir va)) /\
    (forall va, 0 <= va < USPACE_TOP -> ~ in_range (round_up oldsz PAGE_SIZE) n va ->
      translate (ram s') pgdir va = translate (ram s) pgdir va /\
      user_byte (ram s') pgdir va = user_byte (ram s) pgdir va) /\
    (forall va va' p, 0 <= va < USPACE_TOP -> 0 <= va' < USPACE_TOP ->
      translate (ram s') pgdir va = Some p -> translate (ram s') pgdir va' = Some p -> same_page va va').
Proof.
  destruct Hs as (t & <- & <- & Hsp). setoid_rewrite (translate_find s t l _ Hsp) in Hfree.
  pose proof (uvm_alloc_ok PA link no_panic base stksz oldsz newsz n s t l
    (fun r s' => exists t' l', r = i32 newsz /\ grew PA s s' t t' l l' [] (4 * n) /\
      (forall va, 0 <= va < USPACE_TOP -> ~ in_range (round_up oldsz PAGE_SIZE) n va -> find t' va = find t va) /\
      (forall va, in_range (round_up oldsz PAGE_SIZE) n va -> is_Some (find t' va)) /\ data s s' t)) as W.
  apply wp_returns in W as (r & s' & E & t' & l' & -> & Hg & H1 & H2 & Hd); [| done.. | eauto 8].
  pose proof (gr_space _ _ _ _ _ _ _ _ _ Hg) as Hsp'. pose proof (gr_top _ _ _ _ _ _ _ _ _ Hg) as Ht.
  exists s', (tpages t'), l'. split; [done |]. split; [by exists t' |]. split; [apply Hg |].
  setoid_rewrite (translate_top s' t t' l' Hsp' Ht). split; [done |]. split.
  - intros va Hva Hni. rewrite (H1 va Hva Hni), (translate_find s t l) by done. split; [done |].
    rewrite (user_byte_top s' t t' l'), (user_byte_ubyte s t l) by done. apply data_ubyte; auto.
  - intros va va' p Hva Hva'. by apply (find_same_page PA s' t' l').
Qed.

(** My_uvm_dealloc, on a range that is mapped, unmaps exactly its pages and
    hands as many frames back; every other address translates and reads as
    before. *)
Theorem uvm_dealloc_shrinks (s : vmem P) (pgdir base oldsz newsz : Z) (n : nat) (ps l : list Z)
  (Hs : address_space s pgdir ps l) (Hb : 0 <= base <= newsz) (Hlt : newsz < oldsz)
  (Ho : oldsz + PAGE_SIZE <= USPACE_TOP)
  (Hn : round_up newsz PAGE_SIZE + PAGE_SIZE * Z.of_nat n = round_up oldsz PAGE_SIZE)
  (Hmap : forall va, in_range (round_up newsz PAGE_SIZE) n va -> is_Some (translate (ram s) pgdir va)) :
  exists s' ps' l', my_uvm_dealloc PA link pgdir base oldsz newsz s = Ret (i32 newsz, s') /\
    address_space s' pgdir ps' l' /\ ps' ++ l' ≡ₚ ps ++ l /\ length l' = (length l + n)%nat /\
    (forall va, in_range (round_up newsz PAGE_SIZE) n va -> translate (ram s') pgdir va = None) /\
    (forall va, 0 <= va < USPACE_TOP -> ~ in_range (round_up newsz PAGE_SIZE) n va ->
      translate (ram s') pgdir va = translate (ram s) pgdir va /\
      user_byte (ram s') pgdir va = user_byte (ram s) pgdir va).
Proof.
  destruct Hs as (t & <- & <- & Hsp). setoid_rewrite (translate_find s t l _ Hsp) in Hmap.
  pose proof (uvm_dealloc_ok PA link no_panic base oldsz newsz n s t l
    (fun r s' => exists t' l', r = i32 newsz /\ grew PA s s' t t' l l' [] 0 /\ length l' = (length l + n)%nat /\
      (forall va, 0 <= va < USPACE_TOP ->
        find t' va = if decide (in_range (round_up newsz PAGE_SIZE) n va) then None else find t va) /\ data s s' t')) as W.
  apply wp_returns in W as (r & s' & E & t' & l' & -> & Hg & Hlen & H1 & Hd); [| done.. | eauto 8].
  pose proof (gr_space _ _ _ _ _ _ _ _ _ Hg) as Hsp'. pose proof (gr_top _ _ _ _ _ _ _ _ _ Hg) as Ht.
  destruct (round_up_spec oldsz PAGE_SIZE) as [_ Hr]; [unfold PAGE_SIZE; lia | unfold PAGE_SIZE; lia | unfold USPACE_TOP in *; lia |].
  destruct (round_up_spec newsz PAGE_SIZE) as [_ Hr']; [unfold PAGE_SIZE; lia | unfold PAGE_SIZE; lia | unfold USPACE_TOP in *; lia |].
  exists s', (tpages t'), l'. split; [done |]. split; [by exists t' |]. split; [apply Hg |]. split; [done |].
  setoid_rewrite (translate_top s' t t' l' Hsp' Ht). split.
  - intros va Hva. rewrite H1 by (unfold in_range in Hva; lia). by rewrite decide_True.
  - intros va Hva Hni. rewrite (translate_find s t l) by done.
    assert (find t' va = find t va) as Hf by (rewrite H1 by done; by rewrite decide_False). split; [done |].
    rewrite (user_byte_top s' t t' l'), (user_byte_ubyte s t l) by done.
    unfold ubyte. rewrite Hf. destruct (find t va) as [x|] eqn:Hx; [| done]. cbn. rewrite (Hd va x); [done | done |].
    by rewrite Hf.
Qed.

(** ** Copies *)

Lemma copy_of_find {d} r r' : forall (t c : pt d) va, copy_of r r' t c ->
  match find t va, find c va with
  | Some p, Some q => r' q = r p
  | None, None => True
  | _, _ => False
  end.
Proof.
  induction d as [|d IH]; intros t c va; [done |].
  destruct (node_inv t) as (p & kids & ->), (node_inv c) as (q & kc & ->). rewrite copy_of_S, !find_S. intros Hc.
  specialize (Hc (Z.to_nat (ix d va))). unfold kid_copy in Hc.
  destruct (kids !! Z.to_nat (ix d va)) as [[k|]|], (kc !! Z.to_nat (ix d va)) as [[k'|]|]; try done. by apply IH.
Qed.

(** What my_uvm_copy leaves behind: a copy [c] of the space [pgdir] in the frames
    [pc], and the free frames [l']. *)
Definition copied_space (s s' : vmem P) (pgdir c : Z) (ps pc l l' : list Z) : Prop :=
  address_space s' c pc l' /\ address_space s' pgdir ps l' /\
  pc ++ l' ≡ₚ l /\ length pc = length ps /\ (forall p, p ∈ pc -> p ∉ ps) /\
  (forall p, p ∉ l -> ram s' p = ram s p) /\
  forall va, user_byte (ram s') c va = user_byte (ram s) pgdir va /\
    user_byte (ram s') pgdir va = user_byte (ram s) pgdir va.

Lemma uvm_copy_ok (s : vmem P) (pgdir : Z) (ps l : list Z) :
  address_space s pgdir ps l -> (length ps <= length l)%nat ->
  wp no_panic (my_uvm_copy PA pgdir) (fun c s' => exists pc l', copied_space s s' pgdir c ps pc l l') s.
Proof.
  intros (t & <- & <- & Hsp) Hl. eapply (recur_uvm_copy_ok PA no_panic 3); [done | done |].
  intros s' c l' [Hc1 Hc2 Hc3 Hc4]. exists (tpages c), l'. split; [by exists c |].
  assert (Hsp' : space PA s' t l') by (by eapply space_aside).
  pose proof (sp_nodup _ _ _ _ Hsp) as (_ & Hd & _)%NoDup_app.
  split; [by exists t |]. split; [done |]. split; [by eapply copy_of_length |]. split; [| split; [done |]].
  - intros p Hp Hpt. apply (Hd p Hpt). rewrite <- Hc2. apply elem_of_app. by left.
  - intros va. rewrite (user_byte_ubyte s' c l'), (user_byte_ubyte s t l), (user_byte_ubyte s' t l') by done.
    unfold ubyte. pose proof (copy_of_find _ _ t c va Hc4) as Hv.
    destruct (find t va) as [p|] eqn:Hp, (find c va) as [q|]; try done. cbn. rewrite Hv. split; [done |].
    rewrite Hc3; [done |]. eapply Hd, find_in, Hp.
Qed.

(** A space whose frames have not been written reads as before. *)
Lemma user_byte_kept (s s' : vmem P) (t : pt 4) l l' X va :
  space PA s t l -> space PA s' t l' -> kept s s' X -> (forall p, p ∈ X -> p ∉ tpages t) ->
  user_byte (ram s') (top t) va = user_byte (ram s) (top t) va.
Proof.
  intros Hs Hs' Hk Hd. rewrite (user_byte_ubyte s' t l'), (user_byte_ubyte s t l) by done. unfold ubyte.
  destruct (find t va) as [p|] eqn:Hp; [| done]. cbn. rewrite Hk; [done |]. intros HX. by eapply Hd, find_in, Hp.
Qed.

(** C8: my_uvm_copy returns a page table of fresh frames in which every address
    reads the byte it has in the original; the original is unchanged, the two
    spaces share no frame, and the frames of the copy come from the free ones. *)
Theorem uvm_copy_isolated (s : vmem P) (pgdir : Z) (ps l : list Z)
  (Hs : address_space s pgdir ps l) (Hl : (length ps <= length l)%nat) :
  exists c s' pc l', my_uvm_copy PA pgdir s = Ret (c, s') /\
    address_space s' c pc l' /\ address_space s' pgdir ps l' /\
    pc ++ l' ≡ₚ l /\ length pc = length ps /\ (forall p, p ∈ pc -> p ∉ ps) /\
    (forall p, p ∉ l -> ram s' p = ram s p) /\
    forall va, user_byte (ram s') c va = user_byte (ram s) pgdir va /\
      user_byte (ram s') pgdir va = user_byte (ram s) pgdir va.
Proof.
  destruct (wp_returns _ _ _ (uvm_copy_ok s pgdir ps l Hs Hl)) as (c & s' & E & pc & l' & H). by exists c, s', pc, l'.
Qed.

(** C29: my_vm_free hands every frame of the address space, tables and data, back to
    the allocator, and writes to no other frame. *)
Theorem vm_free_returns_all (s : vmem P) (pgdir : Z) (ps l : list Z) (Hs : address_space s pgdir ps l) :
  exists s' l', my_vm_free PA link pgdir s = Ret (tt, s') /\ pa_inv (vm_pool s') l' /\ l' ≡ₚ ps ++ l /\
    forall p, p ∉ ps -> ram s' p = ram s p.
Proof.
  destruct Hs as (t & <- & <- & Hsp).
  pose proof (recur_vm_free_ok PA link no_panic 3 s t l (fun _ s' => exists l', freed PA s s' (tpages t) l l')) as W.
  apply wp_returns in W as ([] & s' & E & l' & [A B C D]); [| done | eauto].
  exists s', l'. by split_and!.
Qed.

(** My_copyout, given enough free frames, returns 0 and the process reads the
    source bytes (zeros for a NULL source) at [va, va + len); every other mapped
    address reads as before, and no address outside the pages of the range becomes
    mapped. *)
Theorem copyout_writes (s : vmem P) (pgdir va len : Z) (p : option (list Z)) (ps l : list Z)
  (Hs : address_space s pgdir ps l) (Hva : 0 <= va) (Hlen : 0 <= len) (Ht : va + len <= USPACE_TOP)
  (Hp : enough p len) (Hl : (4 * need va len <= length l)%nat) :
  exists s' ps' l', my_copyout PA pgdir va p len s = Ret (0, s') /\
    address_space s' pgdir ps' l' /\ ps' ++ l' ≡ₚ ps ++ l /\
    (forall x, va <= x < va + len -> user_byte (ram s') pgdir x = Some (source p (x - va))) /\
    (forall x, 0 <= x < USPACE_TOP -> ~ va <= x < va + len -> is_Some (translate (ram s) pgdir x) ->
      user_byte (ram s') pgdir x = user_byte (ram s) pgdir x) /\
    (forall x, 0 <= x < USPACE_TOP -> is_Some (translate (ram s') pgdir x) ->
      is_Some (translate (ram s) pgdir x) \/ va / PAGE_SIZE <= x / PAGE_SIZE <= (va + len - 1) / PAGE_SIZE).
Proof.
  destruct Hs as (t & <- & <- & Hsp).
  pose proof (copyout_ok PA link no_panic va p len s t l (fun r s' => exists t' l', r = 0 /\
    grew PA s s' t t' l l' [] (4 * need va len) /\ copied s s' t t' va len (source p))) as W.
  apply wp_returns in W as (r & s' & E & t' & l' & -> & Hg & [A B C D]); [| done.. | eauto 8].
  pose proof (gr_space _ _ _ _ _ _ _ _ _ Hg) as Hsp'. pose proof (gr_top _ _ _ _ _ _ _ _ _ Hg) as Ht'.
  exists s', (tpages t'), l'. split; [done |]. split; [by exists t' |]. split; [apply Hg |].
  setoid_rewrite (translate_find s t l _ Hsp). setoid_rewrite (user_byte_ubyte s t l _ Hsp).
  setoid_rewrite (translate_top s' t t' l' Hsp' Ht'). setoid_rewrite (user_byte_top s' t t' l' Hsp' Ht'). auto.
Qed.
End theorems.

(** * Concrete address spaces *)

(** A machine with 32 free frames and an empty page table. *)
Definition fr (i : Z) : Z := KSPACE_MASK + 0x100000 + PAGE_SIZE * i.
Definition free_frames : list Z := (fun i => fr (1 + Z.of_nat i)) <$> seq 0 32.
Definition vm0 : vmem pmem :=
  mkVmem (mkPmem (fr 1) (fun p => if p <? fr 32 then p + PAGE_SIZE else 0) init_spinlock) (fun _ => replicate 4096 0).

Lemma frame_fr i : 0 <= i < 1000 -> frame (fr i).
Proof.
  intros Hi. unfold frame, fr, PAGE_SIZE, in_ram. change (P2K phystop) with (KSPACE_MASK + phystop).
  unfold KSPACE_MASK, phystop. split; [| dlia]. apply andb_true_iff. split; [apply Z.leb_le | apply Z.ltb_lt]; lia.
Qed.

Lemma free_frames_inv : pm_inv (vm_pool vm0) free_frames.
Proof.
  split; [by vm_compute | apply (bool_decide_unpack _); by vm_compute | | done].
  apply Forall_forall. intros p (i & -> & Hi%elem_of_seq)%list_elem_of_fmap. apply frame_is_page, frame_fr. lia.
Qed.

Lemma vm0_space : space (kernel_pages 0) vm0 (empty_table 3 (fr 0)) free_frames.
Proof.
  assert (Hpg : tpages (empty_table 3 (fr 0)) = [fr 0]) by (unfold empty_table; rewrite tpages_S; by rewrite kpages_empty).
  split; [apply free_frames_inv | intros p; apply length_replicate | | |].
  - rewrite Hpg. apply (bool_decide_unpack _). by vm_compute.
  - rewrite Hpg. apply Forall_app. split; [by apply Forall_singleton, frame_fr |].
    apply Forall_forall. intros p (i & -> & Hi%elem_of_seq)%list_elem_of_fmap. apply frame_fr. lia.
  - eapply shape_ext; [| apply (shape_empty 3 (ram vm0) (fr 0))]. intros p _. unfold set_frame. by case_match.
Qed.

Lemma vm0_address_space : address_space (kernel_pages 0) vm0 (fr 0) [fr 0] free_frames.
Proof.
  exists (empty_table 3 (fr 0)). split; [done |]. split; [| apply vm0_space].
  unfold empty_table. rewrite tpages_S. by rewrite kpages_empty.
Qed.

Lemma vm0_unmapped va : translate (ram vm0) (fr 0) va = None.
Proof. change (fr 0) with (top (empty_table 3 (fr 0))). rewrite (translate_find _ _ _ _ _ vm0_space). apply find_empty. Qed.

(** Two pages of an empty space. *)
Lemma uvm_alloc_grows_witness : exists s', my_uvm_alloc (kernel_pages 0) word (fr 0) 0 0 0 5000 vm0 = Ret (5000, s') /\
  is_Some (translate (ram s') (fr 0) 4999).
Proof.
  destruct (uvm_alloc_grows (kernel_pages 0) word vm0 (fr 0) 0 0 0 5000 2 [fr 0] free_frames) as (s' & ps' & l' & E & _ & _ & H & _).
  - exact vm0_address_space.
  - lia.
  - lia.
  - unfold USPACE_TOP. lia.
  - unfold USPACE_TOP. lia.
  - reflexivity.
  - unfold free_frames. rewrite length_fmap, length_seq. lia.
  - intros va _. exact (vm0_unmapped va).
  - exists s'. split; [exact E |]. apply H. change (round_up 0 PAGE_SIZE) with 0. unfold in_range, PAGE_SIZE. lia.
Defined.

(** A space with the pages of [0, 5000) mapped. *)
Lemma mapped_space : exists s (t : pt 4) l, space (kernel_pages 0) s t l /\ top t = fr 0 /\
  (length (tpages t) <= length l)%nat /\ (20 <= length l)%nat /\
  forall va, 0 <= va < 8192 -> is_Some (find t va).
Proof.
  destruct (wp_returns (my_uvm_alloc (kernel_pages 0) word (fr 0) 0 0 0 5000) (fun _ s => exists (t : pt 4) l,
    grew (kernel_pages 0) vm0 s (empty_table 3 (fr 0)) t free_frames l [] 8 /\
    forall va, 0 <= va < 8192 -> is_Some (find t va)) vm0) as (r & s & _ & t & l & Hg & Hm).
  - apply (uvm_alloc_ok (kernel_pages 0) word no_panic 0 0 0 5000 2 vm0 (empty_table 3 (fr 0)) free_frames);
      [lia | lia | unfold USPACE_TOP; lia | unfold USPACE_TOP; lia | done | apply vm0_space | |  |].
    + unfold free_frames. rewrite length_fmap, length_seq. lia.
    + intros va _. apply find_empty.
    + intros s' t' l' Hg _ Hm _. exists t', l'. split; [exact Hg |]. exact Hm.
  - exists s, t, l. split; [apply Hg |]. split; [apply Hg |].
    pose proof (gr_cost _ _ _ _ _ _ _ _ _ Hg) as Hc. pose proof (Permutation_length (gr_pages _ _ _ _ _ _ _ _ _ Hg)) as Hp.
    rewrite app_nil_l, !length_app in Hp. unfold empty_table in Hp. rewrite tpages_S, kpages_empty in Hp. cbn [length] in Hp.
    change (length free_frames) with 32%nat in *. split; [lia |]. split; [lia | done].
Qed.

Lemma uvm_dealloc_shrinks_witness : exists s s', my_uvm_dealloc (kernel_pages 0) word (fr 0) 0 8192 100 s = Ret (100, s') /\
  is_Some (translate (ram s) (fr 0) 5000) /\ translate (ram s') (fr 0) 5000 = None /\ is_Some (translate (ram s') (fr 0) 5).
Proof.
  destruct mapped_space as (s & t & l & Hsp & Ht & _ & _ & Hm).
  destruct (uvm_dealloc_shrinks (kernel_pages 0) word s (fr 0) 0 8192 100 1 (tpages t) l) as (s' & ps' & l' & E & _ & _ & _ & H1 & H2).
  - exists t. split; [exact Ht |]. split; [reflexivity | exact Hsp].
  - lia.
  - lia.
  - unfold USPACE_TOP, PAGE_SIZE. lia.
  - reflexivity.
  - intros va Hva. rewrite <- Ht, (translate_find _ _ _ _ _ Hsp). apply Hm.
    change (round_up 100 PAGE_SIZE) with 4096 in Hva. unfold in_range, PAGE_SIZE in Hva. lia.
  - change (round_up 100 PAGE_SIZE) with 4096 in *. exists s, s'. split; [exact E |]. split.
    + rewrite <- Ht, (translate_find _ _ _ _ _ Hsp). apply Hm. lia.
    + split; [apply H1; unfold in_range, PAGE_SIZE; lia |].
      rewrite (proj1 (H2 5 ltac:(unfold USPACE_TOP; lia) ltac:(unfold in_range, PAGE_SIZE; lia))).
      rewrite <- Ht, (translate_find _ _ _ _ _ Hsp). apply Hm. lia.
Defined.

Lemma uvm_copy_isolated_witness : exists s c s', my_uvm_copy (kernel_pages 0) (fr 0) s = Ret (c, s') /\
  user_byte (ram s') c 4100 = user_byte (ram s) (fr 0) 4100 /\ is_Some (translate (ram s) (fr 0) 4100).
Proof.
  destruct mapped_space as (s & t & l & Hsp & Ht & Hlen & _ & Hm).
  destruct (uvm_copy_isolated (kernel_pages 0) s (fr 0) (tpages t) l) as (c & s' & pc & l' & E & _ & _ & _ & _ & _ & _ & H).
  - exists t. split; [exact Ht |]. split; [reflexivity | exact Hsp].
  - exact Hlen.
  - exists s, c, s'. split; [exact E |]. split; [apply H |]. rewrite <- Ht, (translate_find _ _ _ _ _ Hsp). apply Hm. lia.
Defined.

Lemma vm_free_returns_all_witness : exists s s' l', my_vm_free (kernel_pages 0) word (fr 0) s = Ret (tt, s') /\
  is_Some (translate (ram s) (fr 0) 5000) /\ pm_inv (vm_pool s') l' /\ fr 0 ∈ l'.
Proof.
  destruct mapped_space as (s & t & l & Hsp & Ht & _ & _ & Hm).
  destruct (vm_free_returns_all (kernel_pages 0) word s (fr 0) (tpages t) l) as (s' & l' & E & Hp & Hl & _).
  - exists t. split; [exact Ht |]. split; [reflexivity | exact Hsp].
  - exists s, s', l'. split; [exact E |]. split; [rewrite <- Ht, (translate_find _ _ _ _ _ Hsp); apply Hm; lia |].
    split; [exact Hp |]. rewrite Hl. apply elem_of_app. left. rewrite <- Ht. apply top_in_pages.
Defined.

(** Three bytes across the boundary of two pages. *)
Lemma copyout_writes_witness : exists s', my_copyout (kernel_pages 0) (fr 0) 4095 (Some [7; 8; 9]) 3 vm0 = Ret (0, s') /\
  user_byte (ram s') (fr 0) 4095 = Some 7 /\ user_byte (ram s') (fr 0) 4097 = Some 9.
Proof.
  destruct (copyout_writes (kernel_pages 0) word vm0 (fr 0) 4095 3 (Some [7; 8; 9]) [fr 0] free_frames) as (s' & ps' & l' & E & _ & _ & H & _).
  - exact vm0_address_space.
  - lia.
  - lia.
  - unfold USPACE_TOP. lia.
  - cbn. lia.
  - change (need 4095 3) with 2%nat. change (length free_frames) with 32%nat. lia.
  - exists s'. split; [exact E |]. split; apply H; lia.
Defined.

(** * The table *)

Record VirtualMemoryTable (P : Type) := mkVmt {
  vt_pgdir_init : M (vmem P) Z;
  vt_pgdir_walk : Z -> Z -> bool -> M (vmem P) Z;
  vt_uvm_copy : Z -> M (vmem P) Z;
  vt_vm_free : Z -> M (vmem P) unit;
  vt_uvm_map : Z -> Z -> Z -> Z -> M (vmem P) Z;
  vt_uvm_alloc : Z -> Z -> Z -> Z -> Z -> M (vmem P) Z;
  vt_uvm_dealloc : Z -> Z -> Z -> Z -> M (vmem P) Z;
  vt_copyout : Z -> Z -> option (list Z) -> Z -> M (vmem P) Z
}.
Arguments mkVmt {P}.
Arguments vt_pgdir_init {P}. Arguments vt_pgdir_walk {P}. Arguments vt_uvm_copy {P}. Arguments vt_vm_free {P}.
Arguments vt_uvm_map {P}. Arguments vt_uvm_alloc {P}. Arguments vt_uvm_dealloc {P}. Arguments vt_copyout {P}.

Section interface.
Context {P : Type} (PA : PageAllocator P) (link : P -> Z -> Z).

Definition virtual_memory_init : VirtualMemoryTable P :=
  mkVmt (my_pgdir_init PA) (my_pgdir_walk PA) (my_uvm_copy PA) (my_vm_free PA link) (my_uvm_map PA)
    (my_uvm_alloc PA link) (my_uvm_dealloc PA link) (my_copyout PA).

(** [vmt] after init_virtual_memory. *)
Definition init_virtual_memory : VirtualMemoryTable P := virtual_memory_init.

Section calls.
Context (vmt : VirtualMemoryTable P).
Definition pgdir_init : M (vmem P) Z := vt_pgdir_init vmt.
Definition pgdir_walk (pgdir vak : Z) (alloc : bool) : M (vmem P) Z := vt_pgdir_walk vmt pgdir vak alloc.
Definition uvm_copy (pgdir : Z) : M (vmem P) Z := vt_uvm_copy vmt pgdir.
Definition vm_free (pgdir : Z) : M (vmem P) unit := vt_vm_free vmt pgdir.
Definition uvm_map (pgdir va sz pa : Z) : M (vmem P) Z := vt_uvm_map vmt pgdir va sz pa.
Definition uvm_alloc (pgdir base stksz oldsz newsz : Z) : M (vmem P) Z := vt_uvm_alloc vmt pgdir base stksz oldsz newsz.
Definition uvm_dealloc (pgdir base oldsz newsz : Z) : M (vmem P) Z := vt_uvm_dealloc vmt pgdir base oldsz newsz.
Definition copyout (pgdir va : Z) (p : option (list Z)) (len : Z) : M (vmem P) Z := vt_copyout vmt pgdir va p len.
End calls.

(** A load of the program at the virtual address [va], with TTBR0 set to the table at [pgdir]. *)
Definition user_load64 (pgdir va : Z) : M (vmem P) Z :=
  s ← get;
  match translate (ram s) pgdir va with
  | Some p => load64 (p + va mod PAGE_SIZE)
  | None => fault
  end.

(** The result is whether the message says Pass. *)
Definition vm_test (vmt : VirtualMemoryTable P) : M (vmem P) bool :=
  store64 (P2K 0) 0xac;;
  p ← vm_kalloc PA;
  clear_page p;;
  vt_uvm_map vmt p 0x1000 PAGE_SIZE 0;;
  v ← user_load64 p 0x1000;
  mret (v =? 0xac).

(** * The test passes *)

Lemma frame_zero : frame (P2K 0).
Proof. split; by vm_compute. Qed.

(** With four free pages, none of which is the first page of the memory, vm_test finds through
    the page table that it builds the word that it stored in that page. *)
Theorem vm_test_passes (s : vmem P) (l : list Z) (Hp : pa_inv (vm_pool s) l) (Hz : sized (ram s)) (Hn : NoDup l)
    (Hf : Forall frame l) (H0 : P2K 0 ∉ l) (Hl : (4 <= length l)%nat) :
  exists s', vm_test init_virtual_memory s = Ret (true, s').
Proof.
  destruct (wp_returns (vm_test init_virtual_memory) (fun r _ => r = true) s) as (r & s' & E & ->); [| by exists s'].
  destruct l as [|q l]; [cbn in Hl; lia |]. pose proof frame_zero as Hf0. pose proof Hf as [Hfq _]%Forall_cons. apply not_elem_of_cons in H0 as [Hq0 H0].
  unfold vm_test. apply wp_bind. replace (P2K 0) with (P2K 0 + 8 * 0) at 1 by lia. apply store64_ok; [done | lia |].
  set (s1 := mkVmem (vm_pool s) (set_entry (ram s) (P2K 0) 0 0xac)).
  assert (Hz1 : sized (ram s1)) by (apply sized_set_entry; [done | lia]).
  assert (Hw : entry (ram s1) (P2K 0) 0 = 0xac) by (apply entry_set_eq; [done | lia | lia]).
  apply wp_bind. eapply vm_kalloc_ok; [exact Hp |]. intros pool Hpool. cbn [hd tail] in *.
  apply wp_bind, clear_page_ok; [done | apply Hz1 |]. cbn [ram vm_pool].
  set (s2 := mkVmem pool (set_frame (ram s1) q (replicate 4096 0))).
  assert (Hpg : tpages (empty_table 3 q) = [q]) by (unfold empty_table; rewrite tpages_S; by rewrite kpages_empty).
  assert (Hsp : space PA s2 (empty_table 3 q) l).
  { split; cbn [vm_pool ram]; [done | apply sized_set; [done | apply length_replicate] | by rewrite Hpg | by rewrite Hpg | apply shape_empty]. }
  assert (Hmap : wp no_panic (my_uvm_map PA (top (empty_table 3 q)) 0x1000 PAGE_SIZE (K2P (P2K 0)))
    (fun _ s' => translate (ram s') q 0x1000 = Some (P2K 0) /\ ram s' (P2K 0) = ram s1 (P2K 0)) s2).
  { eapply uvm_map_page_ok; [done | done | done | exact Hsp | apply find_empty | | done | cbn in Hl; lia |].
    - rewrite Hpg, elem_of_app, list_elem_of_singleton. by intros [?|?].
    - intros s3 t' l' Hg Hfind _ Hram. split.
      + pose proof (gr_space _ _ _ _ _ _ _ _ _ Hg) as Hs3. change q with (top (empty_table 3 q)). rewrite <- (gr_top _ _ _ _ _ _ _ _ _ Hg).
        rewrite (translate_find _ _ _ _ _ Hs3), Hfind by done. by rewrite decide_True.
      + rewrite Hram. cbn [ram s2]. by apply set_frame_ne. }
  apply wp_bind. change (my_uvm_map PA (top (empty_table 3 q)) 0x1000 PAGE_SIZE (K2P (P2K 0))) with (my_uvm_map PA q 0x1000 PAGE_SIZE 0) in Hmap.
  wp_use Hmap. intros _ s3 [Ht Hr]. apply wp_bind. unfold user_load64. apply wp_bind, wp_get. rewrite Ht.
  replace (P2K 0 + 0x1000 mod PAGE_SIZE) with (P2K 0 + 8 * 0) by done. apply load64_ok; [done | lia |].
  apply wp_ret. unfold entry in *. rewrite Hr, Hw. done.
Qed.
End interface.
