(* ===== verification/File.v ===== *)
(** fs/file.c: the table of open files, over the inode layer (and, through it,
    the block cache).  A file pointer is the index of the entry in the table.
    The field [pipe] is never read or written by the code and has no model. *)
From S2P Require Import Prelude Bytes CString Bitmap Locks Arena FsDefs Cache BlockCache Path Console Inode.

(** * Definitions *)

Inductive ftype := FD_NONE | FD_PIPE | FD_INODE.

#[export] Instance ftype_eq_dec : EqDecision ftype.
Proof. solve_decision. Defined.

Record file := mkFile {
  ftype_ : ftype;
  ref : Z;           (* int *)
  readable : Z;      (* char *)
  writable : Z;      (* char *)
  ip : Z;            (* Inode * *)
  off : Z            (* usize *)
}.

#[export] Instance file_eq_dec : EqDecision file.
Proof. solve_decision. Defined.

Definition set_ref v (f : file) : file := mkFile (ftype_ f) v (readable f) (writable f) (ip f) (off f).
Definition set_ftype v (f : file) : file := mkFile v (ref f) (readable f) (writable f) (ip f) (off f).
Definition set_off v (f : file) : file := mkFile (ftype_ f) (ref f) (readable f) (writable f) (ip f) v.

Definition NFILE : Z := 100.

(** The state of fs/inode.c and the variable [ftable]. *)
Record files (B A : Type) := mkFiles { tree : itree B A; ftable_lock : SpinLock; ftable : list file }.
Arguments mkFiles {B A}.
Arguments tree {B A}.
Arguments ftable_lock {B A}.
Arguments ftable {B A}.

Definition set_tree {B A} v (s : files B A) : files B A := mkFiles v (ftable_lock s) (ftable s).
Definition set_ftable_lock {B A} v (s : files B A) : files B A := mkFiles (tree s) v (ftable s).
Definition set_ftable {B A} v (s : files B A) : files B A := mkFiles (tree s) (ftable_lock s) v.

Definition no_file : file := mkFile FD_NONE 0 0 0 0 0.

(** fileinit: the lock; the table is zero-initialised. *)
Definition fileinit {B A} (t : itree B A) : files B A := mkFiles t init_spinlock (replicate 100 no_file).

Section file.
Context {B A : Type} {sb : SuperBlock} `{BC : BlockCache sb B} `{OA : ObjectArena A} (me : Z) (killed : bool).
Notation F := (files B A).

(** A call into the inode layer. *)
Definition on_tree {X} (c : M (itree B A) X) : M F X :=
  fun s => match c (tree s) with
           | Ret (x, t) => Ret (x, set_tree t s)
           | Panic e => Panic e
           | Blocked => Blocked
           | Fault => Fault
           | OutOfFuel => OutOfFuel
           end.

Definition lock_ftable : M F unit :=
  s ← get; l ← lift (acquire_spinlock me (ftable_lock s)); modify (set_ftable_lock l).
Definition unlock_ftable : M F unit :=
  s ← get; l ← lift (release_spinlock me (ftable_lock s)); modify (set_ftable_lock l).

(** [*f], [f] in the table. *)
Definition load_file (f : Z) : M F file :=
  s ← get;
  match ftable s !! Z.to_nat f with
  | Some x => if 0 <=? f then mret x else fault
  | None => fault
  end.
Definition store_file (f : Z) (x : file) : M F unit :=
  modify (fun s => set_ftable (<[Z.to_nat f := x]> (ftable s)) s).

(** The first entry with no reference; [None] is NULL. *)
Definition filealloc : M F (option Z) :=
  lock_ftable;;
  r ← for_until 0 100 (fun f =>
    x ← load_file f;
    if ref x =? 0 then store_file f (set_ref 1 x);; mret (Some f) else mret None);
  unlock_ftable;;
  mret r.

Definition filedup (f : Z) : M F Z :=
  lock_ftable;;
  x ← load_file f;
  (if ref x <? 1 then panic "filedup" else store_file f (set_ref (i32 (ref x + 1)) x));;
  unlock_ftable;;
  mret f.

(** [ctx] is the address of the local OpContext. *)
Definition fileclose (ctx f : Z) : M F unit :=
  lock_ftable;;
  x ← load_file f;
  (if ref x <? 1 then panic "fileclose" else mret tt);;
  let x := set_ref (i32 (ref x - 1)) x in
  store_file f x;;
  if ref x >? 0 then unlock_ftable
  else
    let ff := x in
    store_file f (set_ftype FD_NONE (set_ref 0 x));;
    unlock_ftable;;
    match ftype_ ff with
    | FD_INODE =>
        on_tree (cached (bc_begin_op ctx));;
        on_tree (inode_put me ctx (ip ff));;
        on_tree (cached (bc_end_op ctx))
    | _ => mret tt
    end.

(** The result and what is stored at [st]. *)
Definition filestat (S_IFREG S_IFDIR f : Z) : M F (Z * option stat) :=
  x ← load_file f;
  match ftype_ x with
  | FD_INODE =>
      on_tree (inode_lock me (ip x));;
      st ← on_tree (stati S_IFREG S_IFDIR (ip x));
      on_tree (inode_unlock me (ip x));;
      mret (0, Some st)
  | _ => mret (-1, None)
  end.

(** The result and the bytes stored at [addr]. *)
Definition fileread (f n : Z) : M F (Z * list Z) :=
  x ← load_file f;
  if readable x =? 0 then mret (-1, [])
  else
    match ftype_ x with
    | FD_INODE =>
        on_tree (inode_lock me (ip x));;
        '(r, bs) ← on_tree (inode_read me killed (ip x) (off x) (u64 n));
        x ← load_file f;
        store_file f (set_off (u64 (off x + r)) x);;
        on_tree (inode_unlock me (ip x));;
        mret (i64 r, bs)
    | _ => panic "fileread"
    end.

Definition filewrite_max : Z := (INODE_MAX_BLOCKS - 1 - 1 - 2) / 2 * 512.

(** One turn of the loop of filewrite: [n1] bytes; the result is [r]. *)
Definition filewrite_chunk (ctx f : Z) (src : list Z) : M F Z :=
  x ← load_file f;
  on_tree (cached (bc_begin_op ctx));;
  on_tree (inode_lock me (ip x));;
  r ← on_tree (inode_write me ctx (ip x) src (off x));
  x ← load_file f;
  store_file f (set_off (u64 (off x + r)) x);;
  on_tree (inode_unlock me (ip x));;
  on_tree (cached (bc_end_op ctx));;
  mret (i64 r).

(** [i] after the loop; [src] are the bytes from [addr + i] on. *)
Fixpoint filewrite_loop (fuel : nat) (ctx f : Z) (src : list Z) (i n : Z) : M F Z :=
  if i <? n then
    match fuel with
    | O => fun _ => OutOfFuel
    | S fuel' =>
        let n1 := if n - i >? filewrite_max then filewrite_max else n - i in
        r ← filewrite_chunk ctx f (take (Z.to_nat n1) src);
        if r <? 0 then mret i
        else if negb (r =? n1) then panic "short filewrite"
        else filewrite_loop fuel' ctx f (drop (Z.to_nat n1) src) (i + r) n
    end
  else mret i.

(** [src] are the [n] bytes at [addr] (none when [n] is negative). *)
Definition filewrite (ctx f : Z) (src : list Z) (n : Z) : M F Z :=
  x ← load_file f;
  if writable x =? 0 then mret (-1)
  else
    match ftype_ x with
    | FD_INODE =>
        i ← filewrite_loop (S (length src)) ctx f src 0 n;
        mret (if i =? n then n else -1)
    | _ => panic "filewrite"
    end.
End file.
