(* ===== verification/FileTheorems.v ===== *)
(** The properties of the file layer (fs/file.c): reading a file piece by piece,
    and the accounting of the references to the entries of the file table. *)
From S2P Require Import Prelude Bytes CString Bitmap Locks PhysMem Arena FsDefs Cache CacheSpec BlockCache Path Console Inode InodeSpec InodeMap InodeFile CacheTheorems InodeTheorems File.
From Stdlib Require Import Lia.

Section reading.
Context {B A : Type} {sb : SuperBlock} `{BC : BlockCache sb B} `{OA : ObjectArena A} (G : geometry sb) (me : Z) (killed : bool).
Notation F := (files B A).

(** The file pointer [f] refers to an open, readable file that is not a device:
    [x] is its entry in the table, [e] its inode, [w] the blocks of the disk. *)
Record open_file (s : F) (f : Z) (x : file) (w : Z -> list Z) (ops : gmap Z (list Z)) (e : InodeEntry) : Prop := {
  of_range : 0 <= f;
  of_file : ftable s !! Z.to_nat f = Some x;
  of_type : ftype_ x = FD_INODE;
  of_readable : readable x <> 0;
  of_head : ip x ∈ tree_head (tree s);
  of_R : bc_R (fs_cache (tree s)) (qv w ops);
  of_rc : 0 < count (rc (tree_mem (tree s) (ip x)));
  of_lock : inode_lock_ (tree_mem (tree s) (ip x)) = init_spinlock;
  of_ino : 0 <= ino (tree_mem (tree s) (ip x)) < num_inodes sb;
  of_entry : entry (load_entry (sb := sb) w (tree_mem (tree s) (ip x))) = e;
  of_wf : file_wf sb e w;
  of_kind : type e <> INODE_DEVICE /\ type e <> INODE_INVALID;
  of_off : 0 <= off x <= num_bytes e
}.

Lemma wp_on_tree {X} E (c : M (itree B A) X) (Q : X -> F -> Prop) s :
  wp E c (fun x t => Q x (set_tree t s)) (tree s) -> wp E (on_tree c) Q s.
Proof. unfold wp, on_tree. destruct (c (tree s)) as [[x t]| | | |]; done. Qed.

Lemma load_file_ok E s f x (Q : file -> F -> Prop) : 0 <= f -> ftable s !! Z.to_nat f = Some x -> Q x s -> wp E (load_file f) Q s.
Proof. intros Hf Hx HQ. unfold load_file. wp_steps. rewrite Hx, (proj2 (Z.leb_le 0 f)) by done. by apply wp_ret. Qed.

Lemma load_entry_loaded w i : loaded (load_entry (sb := sb) w i) = true.
Proof. unfold load_entry. by destruct (loaded i) eqn:E. Qed.

(** One read: the bytes from the offset on, and the offset after them. *)
Lemma fileread_ok E s f x w ops e n Q : open_file s f x w ops e -> 0 <= n < 2 ^ 63 ->
  let m := Z.min n (num_bytes e - off x) in
  (forall s', open_file s' f (set_off (off x + m) x) w ops e ->
    Q (m, slice (content e w) (Z.to_nat (off x)) (Z.to_nat m)) s') ->
  wp E (fileread (sb := sb) me killed f n) Q s.
Proof.
  intros [Hf Hx Hty Hre Hhd HR Hrc Hlk Hino He Hw [Hd Hi] Ho] Hn m HQ.
  pose proof (fw_entry _ _ _ Hw) as Hew. assert (0 <= num_bytes e < 2 ^ 32) as Hnb by apply Hew.
  set (i := tree_mem (tree s) (ip x)) in *.
  unfold fileread. apply wp_bind. eapply load_file_ok; [done | done |].
  rewrite (proj2 (Z.eqb_neq _ 0)), Hty, (u64_small n) by (done || lia).
  apply wp_bind, wp_on_tree. eapply (inode_lock_ok me E (tree s) (ip x) i w ops); [exact G | by apply run_start | done | done | done | by rewrite He |].
  intros t1 H1. apply wp_bind, wp_on_tree. cbn [tree set_tree].
  eapply inode_read_ok; [exact G | exact H1 | by cbn; rewrite He | by cbn; rewrite He | by cbn; rewrite He | lia |].
  intros t2 H2. cbn [entry set_inode_lock]. rewrite He. fold m.
  apply wp_bind. eapply load_file_ok; [done | exact Hx |]. unfold store_file. wp_step. wp_steps.
  rewrite u64_small by lia. apply wp_on_tree. cbn [tree set_tree set_ftable].
  eapply inode_unlock_ok; [exact H2 | | done |].
  { cbn. fold i. unfold load_entry. by destruct (loaded i). }
  intros t3 H3. apply wp_ret. unfold i64, sgn. rewrite Z.mod_small, (proj2 (Z.ltb_lt m _)) by lia.
  rewrite file_bytes_slice by lia. apply HQ.
  assert (Hm3 : tree_mem t3 (ip x) = set_inode_lock init_spinlock (set_inode_lock (mkSpin true (Some me)) (load_entry (sb := sb) w i))) by apply H3.
  split; cbn [ftable tree set_ftable set_tree ip off readable ftype_ set_off]; try done.
  - apply list_lookup_insert_eq. by eapply lookup_lt_Some.
  - apply H3.
  - apply H3.
  - rewrite Hm3. cbn. unfold load_entry. by destruct (loaded i).
  - by rewrite Hm3.
  - rewrite Hm3. cbn. unfold load_entry. by destruct (loaded i).
  - rewrite Hm3. unfold load_entry at 1. cbn. by rewrite load_entry_loaded.
  - lia.
Qed.

(** The reads of [ns] bytes one after another, and all the bytes they return. *)
Fixpoint reads (f : Z) (ns : list Z) : M F (list Z) :=
  match ns with
  | [] => mret []
  | n :: ns' => '(_, bs) ← fileread (sb := sb) me killed f n; rest ← reads f ns'; mret (bs ++ rest)
  end.

Definition total (ns : list Z) : Z := foldr Z.add 0 ns.

Lemma total_nonneg ns : Forall (fun n => 0 <= n < 2 ^ 31) ns -> 0 <= total ns.
Proof. induction 1 as [|n ns Hn _ IH]; unfold total in *; cbn [foldr]; lia. Qed.

Lemma slice_app (l : list Z) o n m : slice l o (n + m) = slice l o n ++ slice l (o + n) m.
Proof. unfold slice. by rewrite <- take_take_drop, drop_drop. Qed.

(** C27: a file read in pieces, of any sizes, yields the bytes of the file from the
    offset on, as many as asked for in all or up to the end of the file: the
    offset of the open file moves by what each read returned, and nothing else
    changes the position. *)
Theorem file_reads_concat (s : F) (f : Z) (x : file) (w : Z -> list Z) (ops : gmap Z (list Z)) (e : InodeEntry) (ns : list Z)
    (Hs : open_file s f x w ops e) (Hns : Forall (fun n => 0 <= n < 2 ^ 31) ns) :
  let m := Z.min (total ns) (num_bytes e - off x) in
  exists s', reads f ns s = Ret (slice (content e w) (Z.to_nat (off x)) (Z.to_nat m), s') /\
    open_file s' f (set_off (off x + m) x) w ops e.
Proof.
  revert s x Hs. induction Hns as [|n ns Hn Hns IH]; intros s x Hs.
  - cbn. pose proof (of_off _ _ _ _ _ _ Hs). rewrite Z.min_l by lia. exists s. split; [done |].
    rewrite Z.add_0_r. by destruct x.
  - pose proof (total_nonneg ns Hns) as Ht.
    pose proof (of_off _ _ _ _ _ _ Hs) as Ho.
    destruct (wp_returns (fileread (sb := sb) me killed f n) (fun r s' =>
      r = (Z.min n (num_bytes e - off x), slice (content e w) (Z.to_nat (off x)) (Z.to_nat (Z.min n (num_bytes e - off x)))) /\
      open_file s' f (set_off (off x + Z.min n (num_bytes e - off x)) x) w ops e) s) as (r & s1 & E1 & -> & H1).
    { eapply fileread_ok; [exact Hs | lia | done]. }
    destruct (IH s1 _ H1) as (s2 & E2 & H2). cbn [off set_off] in *. cbn [total foldr]. fold (total ns).
    exists s2. cbn [reads]. unfold mbind, M_bind. rewrite E1. cbn. rewrite E2. cbn.
    set (a := Z.min n (num_bytes e - off x)) in *. set (b := Z.min (total ns) (num_bytes e - (off x + a))) in *.
    assert (Z.min (n + total ns) (num_bytes e - off x) = a + b) as -> by lia. split.
    + unfold mret, M_ret. do 2 f_equal. rewrite (Z2Nat.inj_add a b), slice_app by lia. by rewrite Z2Nat.inj_add by lia.
    + destruct x. cbn in *. by rewrite Z.add_assoc.
Qed.
End reading.

(** ** References to the table *)

Section table.
Context {B A : Type} {sb : SuperBlock} `{BC : BlockCache sb B} `{OA : ObjectArena A} (me : Z).
Notation F := (files B A).

(** How many of the references [h] are to [f]. *)
Definition held_refs (f : Z) (h : list Z) : Z := Z.of_nat (length (filter (fun g => g = f) h)).

(** The steps of the kernel on the table; [h] are the references handed out and
    not yet closed (in descriptor tables and local variables).  Their number is
    kept below the range of [int]. *)
Inductive ft_step : F * list Z -> F * list Z -> Prop :=
| ft_alloc s h r s' : filealloc me s = Ret (r, s') ->
    ft_step (s, h) (s', match r with Some f => f :: h | None => h end)
| ft_dup s h f s' : f ∈ h -> Z.of_nat (length h) < 2 ^ 31 - 1 -> filedup me f s = Ret (f, s') -> ft_step (s, h) (s', f :: h)
| ft_close s h1 f h2 ctx s' : fileclose me ctx f s = Ret (tt, s') -> ft_step (s, h1 ++ f :: h2) (s', h1 ++ h2)
| ft_use s h f x x' : f ∈ h -> ftable s !! Z.to_nat f = Some x -> ref x' = ref x ->
    ft_step (s, h) (set_ftable (<[Z.to_nat f := x']> (ftable s)) s, h)
| ft_tree s h t : ft_step (s, h) (set_tree t s, h).

Record counted (s : F) (h : list Z) : Prop := {
  ct_lock : ftable_lock s = init_spinlock;
  ct_length : length (ftable s) = 100%nat;
  ct_held : forall f, f ∈ h -> 0 <= f < NFILE;
  ct_ref : forall f x, 0 <= f -> ftable s !! Z.to_nat f = Some x -> ref x = held_refs f h
}.

Lemma held_refs_cons f g h : held_refs f (g :: h) = if decide (g = f) then held_refs f h + 1 else held_refs f h.
Proof. unfold held_refs. rewrite filter_cons. case_decide; cbn; lia. Qed.

Lemma held_refs_pos f h : f ∈ h <-> 0 < held_refs f h.
Proof.
  unfold held_refs. split.
  - intros Hf. assert (Hin : f ∈ filter (fun g => g = f) h) by (by apply list_elem_of_filter).
    destruct (filter (fun g => g = f) h); [by apply elem_of_nil in Hin | cbn; lia].
  - intros Hl. destruct (filter (fun g => g = f) h) as [|g l] eqn:E; [cbn in Hl; lia |].
    assert (g ∈ filter (fun g => g = f) h) as [-> ?]%list_elem_of_filter by (rewrite E; left). done.
Qed.

Lemma held_refs_bound f h : 0 <= held_refs f h <= Z.of_nat (length h).
Proof. unfold held_refs. pose proof (length_filter (fun g => g = f) h). lia. Qed.

Lemma held_refs_mid f g h1 h2 : held_refs f (h1 ++ g :: h2) = held_refs f (g :: h1 ++ h2).
Proof.
  unfold held_refs. rewrite filter_app, !filter_cons, filter_app.
  case_decide; cbn [length]; rewrite !length_app; cbn [length]; lia.
Qed.

Lemma wp_lock_ftable E s (Q : unit -> F -> Prop) : ftable_lock s = init_spinlock ->
  Q tt (set_ftable_lock (mkSpin true (Some me)) s) -> wp E (lock_ftable me) Q s.
Proof. intros Hl HQ. unfold lock_ftable. wp_steps. rewrite Hl. eapply wp_lift; [apply acquire_free |]. by apply wp_modify. Qed.

Lemma wp_unlock_ftable E s (Q : unit -> F -> Prop) : ftable_lock s = mkSpin true (Some me) ->
  Q tt (set_ftable_lock init_spinlock s) -> wp E (unlock_ftable me) Q s.
Proof. intros Hl HQ. unfold unlock_ftable. wp_steps. rewrite Hl. eapply wp_lift; [apply release_own |]. by apply wp_modify. Qed.

(** Entry [f] gets [k] as its count. *)
Lemma counted_set s h h' f x : counted s h -> 0 <= f < NFILE -> (forall g, g ∈ h' -> 0 <= g < NFILE) ->
  ref x = held_refs f h' -> (forall g, g <> f -> held_refs g h' = held_refs g h) ->
  counted (set_ftable (<[Z.to_nat f := x]> (ftable s)) s) h'.
Proof.
  unfold NFILE. intros [A1 A2 A3 A4] Hf Hh Hx Ho. split; cbn; [done | by rewrite length_insert | done |].
  intros g y Hg Hy. destruct (decide (g = f)) as [->|Hne].
  - rewrite list_lookup_insert_eq in Hy by lia. by injection Hy as <-.
  - rewrite list_lookup_insert_ne in Hy by lia. rewrite Ho by done. by apply A4.
Qed.

Lemma ftable_relock s l : set_ftable_lock l (set_ftable_lock (mkSpin true (Some me)) s) = set_ftable_lock l s :> F.
Proof. done. Qed.

(** filealloc finds the first entry without references. *)
Lemma filealloc_counted E s h (Q : option Z -> F -> Prop) : counted s h ->
  (forall f s', f ∉ h -> 0 <= f < NFILE -> counted s' (f :: h) -> tree s' = tree s -> Q (Some f) s') ->
  ((forall f, 0 <= f < NFILE -> f ∈ h) -> Q None s) -> wp E (filealloc me) Q s.
Proof.
  intros Hc HS HN. pose proof Hc as [Hl Hlen Hh Hr]. unfold filealloc. apply wp_bind, wp_lock_ftable; [done |].
  set (s1 := set_ftable_lock _ s). apply wp_bind.
  apply (wp_for_until E (fun i t => t = s1 /\ forall f, 0 <= f < i -> f ∈ h)).
  - intros i t Hi [-> Hbelow]. change (Z.of_nat 100) with 100 in Hi. cbn in Hi.
    destruct (lookup_lt_is_Some_2 (ftable s) (Z.to_nat i)) as [x Hx]; [lia |].
    apply wp_bind. eapply load_file_ok; [lia | exact Hx |]. specialize (Hr i x ltac:(lia) Hx).
    destruct (Z.eqb_spec (ref x) 0) as [H0|H0].
    + unfold store_file. wp_steps. apply wp_unlock_ftable; [done |]. apply wp_ret.
      assert (i ∉ h) as Hni by (rewrite held_refs_pos; lia).
      apply HS; [done | unfold NFILE; lia | | done].
      pose proof (counted_set s h (i :: h) i (set_ref 1 x) Hc) as HC. destruct s. cbn in *. subst.
      apply HC; [unfold NFILE; lia | | |].
      * intros g [->|Hg]%elem_of_cons; [unfold NFILE; lia | by apply Hh].
      * rewrite held_refs_cons, decide_True by done. pose proof (held_refs_bound i h). lia.
      * intros g Hg. rewrite held_refs_cons, decide_False by done. done.
    + wp_steps. split; [done |]. intros f Hf. destruct (decide (f = i)) as [->|]; [| apply Hbelow; lia].
      apply held_refs_pos. pose proof (held_refs_bound i h). lia.
  - intros t [-> Hall]. apply wp_bind, wp_unlock_ftable; [done |]. apply wp_ret.
    replace (set_ftable_lock init_spinlock s1) with s by (destruct s; cbn in *; by subst). by apply HN.
  - split; [done | lia].
Qed.

Lemma filedup_counted E s h f (Q : Z -> F -> Prop) : counted s h -> f ∈ h -> Z.of_nat (length h) < 2 ^ 31 - 1 ->
  (forall s', counted s' (f :: h) -> Q f s') -> wp E (filedup me f) Q s.
Proof.
  intros Hc Hf Hlen HQ. pose proof Hc as [Hl Hn Hh Hr]. pose proof (Hh f Hf) as Hfr. unfold NFILE in Hfr.
  destruct (lookup_lt_is_Some_2 (ftable s) (Z.to_nat f)) as [x Hx]; [lia |].
  pose proof (Hr f x ltac:(lia) Hx) as Hrx. apply held_refs_pos in Hf as Hpos. pose proof (held_refs_bound f h).
  unfold filedup. apply wp_bind, wp_lock_ftable; [done |]. apply wp_bind. eapply load_file_ok; [lia | exact Hx |].
  rewrite (proj2 (Z.ltb_ge (ref x) 1)) by lia. unfold store_file. wp_steps. apply wp_unlock_ftable; [done |].
  apply wp_ret, HQ. assert (i32 (ref x + 1) = ref x + 1) as ->.
  { unfold i32, sgn. rewrite Z.mod_small, (proj2 (Z.ltb_lt _ _)) by lia. done. }
  pose proof (counted_set s h (f :: h) f (set_ref (ref x + 1) x) Hc) as HC. destruct s. cbn in *. subst.
  apply HC; [unfold NFILE; lia | | |].
  - intros g [->|Hg]%elem_of_cons; [unfold NFILE; lia | by apply Hh].
  - rewrite held_refs_cons, decide_True by done. lia.
  - intros g Hg. rewrite held_refs_cons, decide_False by done. done.
Qed.

Lemma on_tree_ret {X} (c : M (itree B A) X) (s : F) x s' : on_tree c s = Ret (x, s') -> exists t, s' = set_tree t s.
Proof. unfold on_tree. destruct (c (tree s)) as [[y t]| | | |]; [| done..]. intros [= _ <-]. by exists t. Qed.

(** The table part of fileclose: the reference is gone, and the rest of the call,
    if any, is in the inode layer. *)
Lemma fileclose_counted s h1 f h2 ctx s' : counted s (h1 ++ f :: h2) -> Z.of_nat (length (h1 ++ f :: h2)) < 2 ^ 31 ->
  fileclose me ctx f s = Ret (tt, s') -> counted s' (h1 ++ h2).
Proof.
  intros Hc Hlen HE. pose proof Hc as [Hl Hn Hh Hr]. assert (Hf : f ∈ h1 ++ f :: h2) by set_solver.
  pose proof (Hh f Hf) as Hfr. unfold NFILE in Hfr. destruct (lookup_lt_is_Some_2 (ftable s) (Z.to_nat f)) as [x Hx]; [lia |].
  pose proof (Hr f x ltac:(lia) Hx) as Hrx. apply held_refs_pos in Hf as Hpos. pose proof (held_refs_bound f (h1 ++ f :: h2)).
  assert (Hi : i32 (ref x - 1) = ref x - 1) by (unfold i32, sgn; rewrite Z.mod_small, (proj2 (Z.ltb_lt _ _)) by lia; done).
  assert (Hmid : held_refs f (h1 ++ h2) = ref x - 1).
  { rewrite Hrx, held_refs_mid, held_refs_cons, decide_True by done. lia. }
  assert (HC : forall t y, ref y = ref x - 1 -> counted (mkFiles t init_spinlock (<[Z.to_nat f := y]> (ftable s))) (h1 ++ h2)).
  { intros t y Hy. pose proof (counted_set s _ (h1 ++ h2) f y Hc) as HC. destruct s. cbn in *. subst.
    destruct HC as [C1 C2 C3 C4]; [unfold NFILE; lia | intros g Hg; apply Hh; set_solver | lia | | by split].
    intros g Hg. rewrite held_refs_mid, held_refs_cons, decide_False by done. done. }
  unfold fileclose, lock_ftable, unlock_ftable, load_file, store_file, mbind, M_bind, get, modify, lift, mret, M_ret in HE.
  rewrite Hl in HE. rewrite acquire_free in HE. cbn -[Z.sub i32 release_spinlock] in HE.
  rewrite Hx in HE. destruct (Z.leb_spec 0 f); [| lia]. rewrite (proj2 (Z.ltb_ge (ref x) 1)) in HE by lia.
  cbn -[Z.sub i32 release_spinlock] in HE. rewrite Hi in HE. destruct (Z.gtb_spec (ref x - 1) 0) as [Hgt|Hle].
  - rewrite release_own in HE. injection HE as <-. by apply HC.
  - cbn -[Z.sub i32 release_spinlock] in HE. rewrite list_insert_insert_eq, release_own in HE.
    cbn -[Z.sub i32 release_spinlock] in HE. destruct (ftype_ x); [injection HE as <-; apply HC; cbn; lia.. |].
    destruct (on_tree (cached (bc_begin_op ctx)) _) as [[? s1]| | | |] eqn:E1; [| done..].
    destruct (on_tree (inode_put me ctx (ip x)) s1) as [[? s2]| | | |] eqn:E2; [| done..].
    apply on_tree_ret in E1 as [t1 ->], E2 as [t2 ->], HE as [t3 ->]. apply HC. cbn. lia.
Qed.

Lemma fileinit_counted (t : itree B A) : counted (fileinit t) [].
Proof.
  split; [done | apply length_replicate | by intros f ?%elem_of_nil |].
  intros f x Hf Hx. unfold fileinit in Hx. cbn [ftable] in Hx. by apply lookup_replicate in Hx as [-> _].
Qed.

Lemma ft_step_counted s h s' h' : counted s h -> Z.of_nat (length h) < 2 ^ 31 -> ft_step (s, h) (s', h') -> counted s' h'.
Proof.
  intros Hc Hlen Hs. inversion Hs as [? ? r ? Ha|? ? f ? Hf Hlt Hd|? h1 f h2 ctx ? Hcl|? ? f x x' Hf Hx Hr|? ? t]; subst.
  - pose proof (filealloc_counted no_panic s h (fun r s' => counted s' (match r with Some f => f :: h | None => h end)) Hc) as W.
    unfold wp in W. rewrite Ha in W. apply W; auto.
  - pose proof (filedup_counted no_panic s h f (fun _ s' => counted s' (f :: h)) Hc Hf Hlt) as W.
    unfold wp in W. rewrite Hd in W. by apply W.
  - by eapply fileclose_counted.
  - pose proof (ct_held _ _ Hc f Hf). apply counted_set with (h := h'); [done.. | apply Hc | | done].
    rewrite Hr. apply (ct_ref _ _ Hc); [lia | done].
  - by destruct Hc.
Qed.

(** C28: whatever sequence of filealloc, filedup, fileclose, reads, writes and opens
    has run, the count of every entry of the file table is the number of
    references to it that are still held; so filealloc hands out an entry nobody
    holds, and returns NULL only when all 100 are held. *)
Theorem file_table_counts (t : itree B A) (s : F) (h : list Z)
    (Hr : rtc (fun x y => ft_step x y /\ Z.of_nat (length y.2) < 2 ^ 31) (fileinit t, []) (s, h)) :
  (forall f x, 0 <= f -> ftable s !! Z.to_nat f = Some x -> ref x = held_refs f h) /\
  exists r s', filealloc me s = Ret (r, s') /\
    match r with
    | Some f => f ∉ h /\ 0 <= f < NFILE /\ tree s' = tree s
    | None => forall f, 0 <= f < NFILE -> f ∈ h
    end.
Proof.
  assert (Hc : counted s h /\ Z.of_nat (length h) < 2 ^ 31).
  { remember (fileinit t, []) as x0 eqn:E0. remember (s, h) as y0 eqn:E1.
    assert (H0 : counted x0.1 x0.2 /\ Z.of_nat (length x0.2) < 2 ^ 31) by (subst x0; split; [apply fileinit_counted | cbn; lia]).
    clear E0. revert H0. induction Hr as [x|[s1 h1] [s2 h2] z [Hs Hl] _ IH]; [by subst |].
    intros [Hc Hb]. apply IH; [done |]. split; [by eapply ft_step_counted | done]. }
  destruct Hc as [Hc _]. split; [apply Hc |].
  destruct (wp_returns (filealloc me) (fun r s' => match r with
    | Some f => f ∉ h /\ 0 <= f < NFILE /\ tree s' = tree s
    | None => forall f, 0 <= f < NFILE -> f ∈ h end) s) as (r & s' & E & H); [| by exists r, s'].
  eapply filealloc_counted; [exact Hc | auto..].
Qed.
End table.

(** ** Witnesses *)

(** The tree of the example image with the inodes unlocked, and a file open at
    offset 100 of inode 2. *)
Definition idle_inode (no : Z) (e : InodeEntry) : Inode := mkInode init_spinlock (mkRc 1) no true e.
Definition idle_tree (c : bcache (Arena pmem)) : itree (bcache (Arena pmem)) (Arena pmem) :=
  mkTree c init_spinlock inode_arena [10; 20] (fun p => if p =? 10 then idle_inode 1 root_entry else idle_inode 2 file_entry) 10 init_console.
Definition open_entry : file := mkFile FD_INODE 1 1 0 20 100.
Definition idle_files (c : bcache (Arena pmem)) : files (bcache (Arena pmem)) (Arena pmem) :=
  mkFiles (idle_tree c) init_spinlock [no_file; open_entry].

Lemma file_reads_concat_witness : exists (c : bcache (Arena pmem)) s',
  reads (sb := small_sb) 0 false 1 [200; 250; 300] (idle_files c) = Ret (replicate 500 120, s').
Proof.
  destruct image_cache as [c HR]. exists c.
  destruct (file_reads_concat small_geometry 0 false (idle_files c) 1 open_entry image (<[1 := []]> ∅) file_entry [200; 250; 300])
    as (s' & E & _).
  - split; try reflexivity; try discriminate; try (split; discriminate).
    + right. left.
    + exact HR.
    + split; [discriminate | reflexivity].
    + exact file_entry_wf.
  - repeat constructor; discriminate.
  - exists s'. exact E.
Defined.


(** After an allocation and a dup of entry 0, the next allocation gives another entry. *)
Lemma file_table_counts_witness : exists (c : bcache (Arena pmem)) (s s' : files (bcache (Arena pmem)) (Arena pmem)) f,
  rtc (fun x y => ft_step (sb := small_sb) 0 x y /\ Z.of_nat (length y.2) < 2 ^ 31) (fileinit (idle_tree c), []) (s, [0; 0]) /\
  filealloc 0 s = Ret (Some f, s') /\ f <> 0.
Proof.
  destruct image_cache as [c HR]. exists c.
  set (s1 := set_ftable (<[0%nat := set_ref 1 no_file]> (replicate 100 no_file)) (fileinit (idle_tree c))).
  set (s2 := set_ftable (<[0%nat := set_ref 2 no_file]> (replicate 100 no_file)) (fileinit (idle_tree c))).
  assert (Hr : rtc (fun x y => ft_step (sb := small_sb) 0 x y /\ Z.of_nat (length y.2) < 2 ^ 31) (fileinit (idle_tree c), []) (s2, [0; 0])).
  { eapply rtc_l with (s1, [0]); [split; [apply (ft_alloc 0 (fileinit (idle_tree c)) [] (Some 0) s1); reflexivity | reflexivity] |].
    eapply rtc_l with (s2, [0; 0]); [split; [| reflexivity] | apply rtc_refl].
    apply (ft_dup 0 s1 [0] 0 s2); [left | reflexivity | reflexivity]. }
  destruct (file_table_counts 0 (idle_tree c) s2 [0; 0] Hr) as (_ & r & s' & E & H).
  destruct r as [f|].
  - exists s2, s', f. split; [exact Hr |]. split; [exact E |]. intros ->. apply (proj1 H). left.
  - assert (H5 : 5 ∈ [0; 0]) by (apply H; unfold NFILE; lia). apply list_elem_of_In in H5. cbn in H5. lia.
Defined.
