(* ===== verification/Process.v ===== *)
(** core/proc.h, core/sched.h, core/container.h and core/trapframe.h: the process
    table, the schedulers, the containers and the CPUs, and the state of the
    kernel the process code works on: these, the page tables (VirtualMemory.v)
    and the files (File.v).

    A container is referred to by its address, a process by the address of the
    container whose table it is in and its index in the table.  The trap frame
    and the saved context of a process, which the code puts at the top of its
    kernel stack, are fields of the process here; a saved context is the place
    where the thread left the CPU ([resume]). *)
From S2P Require Import Prelude Bytes CString Locks PhysMem Arena VirtualMemory FsDefs BlockCache Inode File.

(** * Data *)

Definition NPROC : Z := 14.
Definition NOFILE : Z := 8.
Definition KSTACKSIZE : Z := 4096.
Definition NPID : Z := 64.
Definition NCPU : Z := 4.

Inductive procstate := UNUSED | EMBRYO | SLEEPING | RUNNABLE | RUNNING | ZOMBIE.

#[export] Instance procstate_eq_dec : EqDecision procstate.
Proof. solve_decision. Defined.

(** The container of the table and the slot in it. *)
Notation pref := (Z * Z)%type.

Record Trapframe := mkTf { spsr : Z; elr : Z; tf_sp : Z; tpidr : Z; xregs : list Z; tf_padding : Z; q0 : list Z }.
Definition zero_tf : Trapframe := mkTf 0 0 0 0 (replicate 31 0) 0 [0; 0].

(** Where a thread continues when it is switched to: a new process in [forkret],
    a new scheduler in [container_entry], or after the call of [sched] in
    [yield], in [sleep] (with the address of the lock it was given, [None] for the
    lock of the process table) and in [yield_scheduler], or after the switch in
    the loop of a scheduler; an exited process never continues. *)
Inductive resume := Nowhere | Forkret | ContainerEntry | InYield | InSleep (lock : option Z) | InExit | InScheduler | InYieldScheduler.

(** What a process sleeps on: nothing, an address, or a process. *)
Inductive channel := NullChan | AddrChan (a : Z) | ProcChan (p : pref).

#[export] Instance channel_eq_dec : EqDecision channel.
Proof. solve_decision. Defined.

Definition proc_chan (p : option pref) : channel := match p with Some p => ProcChan p | None => NullChan end.

Record proc := mkProc {
  sz : Z;
  pgdir : Z;
  kstack : Z;
  state : procstate;
  pid : Z;
  parent : option pref;
  tf : Trapframe;
  context : resume;
  chan : channel;
  killed_ : Z;
  cont : Z;
  is_scheduler : bool;
  ofile : list (option Z);
  cwd : Z;
  stksz : Z;
  base : Z
}.

(** A zeroed entry of the table. *)
Definition no_proc : proc :=
  mkProc 0 0 0 UNUSED 0 None zero_tf Nowhere NullChan 0 0 false (replicate 8 None) 0 0 0.

Definition set_sz v p : proc := mkProc v (pgdir p) (kstack p) (state p) (pid p) (parent p) (tf p) (context p) (chan p) (killed_ p) (cont p) (is_scheduler p) (ofile p) (cwd p) (stksz p) (base p).
Definition set_pgdir v p : proc := mkProc (sz p) v (kstack p) (state p) (pid p) (parent p) (tf p) (context p) (chan p) (killed_ p) (cont p) (is_scheduler p) (ofile p) (cwd p) (stksz p) (base p).
Definition set_kstack v p : proc := mkProc (sz p) (pgdir p) v (state p) (pid p) (parent p) (tf p) (context p) (chan p) (killed_ p) (cont p) (is_scheduler p) (ofile p) (cwd p) (stksz p) (base p).
Definition set_state v p : proc := mkProc (sz p) (pgdir p) (kstack p) v (pid p) (parent p) (tf p) (context p) (chan p) (killed_ p) (cont p) (is_scheduler p) (ofile p) (cwd p) (stksz p) (base p).
Definition set_pid v p : proc := mkProc (sz p) (pgdir p) (kstack p) (state p) v (parent p) (tf p) (context p) (chan p) (killed_ p) (cont p) (is_scheduler p) (ofile p) (cwd p) (stksz p) (base p).
Definition set_parent v p : proc := mkProc (sz p) (pgdir p) (kstack p) (state p) (pid p) v (tf p) (context p) (chan p) (killed_ p) (cont p) (is_scheduler p) (ofile p) (cwd p) (stksz p) (base p).
Definition set_tf v p : proc := mkProc (sz p) (pgdir p) (kstack p) (state p) (pid p) (parent p) v (context p) (chan p) (killed_ p) (cont p) (is_scheduler p) (ofile p) (cwd p) (stksz p) (base p).
Definition set_context v p : proc := mkProc (sz p) (pgdir p) (kstack p) (state p) (pid p) (parent p) (tf p) v (chan p) (killed_ p) (cont p) (is_scheduler p) (ofile p) (cwd p) (stksz p) (base p).
Definition set_chan v p : proc := mkProc (sz p) (pgdir p) (kstack p) (state p) (pid p) (parent p) (tf p) (context p) v (killed_ p) (cont p) (is_scheduler p) (ofile p) (cwd p) (stksz p) (base p).
Definition set_killed v p : proc := mkProc (sz p) (pgdir p) (kstack p) (state p) (pid p) (parent p) (tf p) (context p) (chan p) v (cont p) (is_scheduler p) (ofile p) (cwd p) (stksz p) (base p).
Definition set_cont v p : proc := mkProc (sz p) (pgdir p) (kstack p) (state p) (pid p) (parent p) (tf p) (context p) (chan p) (killed_ p) v (is_scheduler p) (ofile p) (cwd p) (stksz p) (base p).
Definition set_is_scheduler v p : proc := mkProc (sz p) (pgdir p) (kstack p) (state p) (pid p) (parent p) (tf p) (context p) (chan p) (killed_ p) (cont p) v (ofile p) (cwd p) (stksz p) (base p).
Definition set_ofile v p : proc := mkProc (sz p) (pgdir p) (kstack p) (state p) (pid p) (parent p) (tf p) (context p) (chan p) (killed_ p) (cont p) (is_scheduler p) v (cwd p) (stksz p) (base p).
Definition set_cwd v p : proc := mkProc (sz p) (pgdir p) (kstack p) (state p) (pid p) (parent p) (tf p) (context p) (chan p) (killed_ p) (cont p) (is_scheduler p) (ofile p) v (stksz p) (base p).
Definition set_stksz v p : proc := mkProc (sz p) (pgdir p) (kstack p) (state p) (pid p) (parent p) (tf p) (context p) (chan p) (killed_ p) (cont p) (is_scheduler p) (ofile p) (cwd p) v (base p).
Definition set_base v p : proc := mkProc (sz p) (pgdir p) (kstack p) (state p) (pid p) (parent p) (tf p) (context p) (chan p) (killed_ p) (cont p) (is_scheduler p) (ofile p) (cwd p) (stksz p) v.

Record pid_mapping := mkMap { valid : bool; pid_local : Z; map_p : option pref }.

(** [struct container] with its [struct scheduler]; the operations [op] are those
    of [simple_op], the only ones there are.  [s_context] is the saved context of
    the scheduler on each CPU. *)
Record container := mkCont {
  c_p : option pref;
  s_context : list resume;
  procs : list proc;
  ptable_lock : SpinLock;
  s_pid : Z;
  s_parent : Z;
  c_lock : SpinLock;
  c_parent : Z;
  pmap : list pid_mapping
}.

(** [memset(c, 0, sizeof( *c))]. *)
Definition zero_container : container :=
  mkCont None (replicate 4 Nowhere) (replicate 14 no_proc) init_spinlock 0 0 init_spinlock 0 (replicate 64 (mkMap false 0 None)).

Definition set_c_p v c : container := mkCont v (s_context c) (procs c) (ptable_lock c) (s_pid c) (s_parent c) (c_lock c) (c_parent c) (pmap c).
Definition set_s_context v c : container := mkCont (c_p c) v (procs c) (ptable_lock c) (s_pid c) (s_parent c) (c_lock c) (c_parent c) (pmap c).
Definition set_procs v c : container := mkCont (c_p c) (s_context c) v (ptable_lock c) (s_pid c) (s_parent c) (c_lock c) (c_parent c) (pmap c).
Definition set_ptable_lock v c : container := mkCont (c_p c) (s_context c) (procs c) v (s_pid c) (s_parent c) (c_lock c) (c_parent c) (pmap c).
Definition set_s_pid v c : container := mkCont (c_p c) (s_context c) (procs c) (ptable_lock c) v (s_parent c) (c_lock c) (c_parent c) (pmap c).
Definition set_s_parent v c : container := mkCont (c_p c) (s_context c) (procs c) (ptable_lock c) (s_pid c) v (c_lock c) (c_parent c) (pmap c).
Definition set_c_lock v c : container := mkCont (c_p c) (s_context c) (procs c) (ptable_lock c) (s_pid c) (s_parent c) v (c_parent c) (pmap c).
Definition set_c_parent v c : container := mkCont (c_p c) (s_context c) (procs c) (ptable_lock c) (s_pid c) (s_parent c) (c_lock c) v (pmap c).
Definition set_pmap v c : container := mkCont (c_p c) (s_context c) (procs c) (ptable_lock c) (s_pid c) (s_parent c) (c_lock c) (c_parent c) v.

(** [struct cpu], and the page table the CPU translates user addresses with. *)
Record cpu_ := mkCpu { scheduler : Z; cproc : option pref; ttbr0 : Z }.

Record kernel (P B A C : Type) := mkK {
  k_vm : vmem P;
  k_fs : files B A;
  k_arena : C;                (* the arena of container.c *)
  k_conts : Z -> container;   (* and its memory *)
  k_root : Z;                 (* root_container *)
  k_cpus : Z -> cpu_;
  k_locks : Z -> SpinLock;    (* the locks processes sleep with, by address *)
  k_flag : bool;              (* flag_atom *)
  k_test : bool               (* do_cont_test *)
}.
Arguments mkK {P B A C}.
Arguments k_vm {P B A C}.
Arguments k_fs {P B A C}.
Arguments k_arena {P B A C}.
Arguments k_conts {P B A C}.
Arguments k_root {P B A C}.
Arguments k_cpus {P B A C}.
Arguments k_locks {P B A C}.
Arguments k_flag {P B A C}.
Arguments k_test {P B A C}.

Definition upd_at {X} (f : Z -> X) (a : Z) (v : X) : Z -> X := fun b => if b =? a then v else f b.

Section access.
Context {P B A C : Type}.
Notation K := (kernel P B A C).

Definition set_k_vm v (s : K) : K := mkK v (k_fs s) (k_arena s) (k_conts s) (k_root s) (k_cpus s) (k_locks s) (k_flag s) (k_test s).
Definition set_k_fs v (s : K) : K := mkK (k_vm s) v (k_arena s) (k_conts s) (k_root s) (k_cpus s) (k_locks s) (k_flag s) (k_test s).
Definition set_k_arena v (s : K) : K := mkK (k_vm s) (k_fs s) v (k_conts s) (k_root s) (k_cpus s) (k_locks s) (k_flag s) (k_test s).
Definition set_k_conts v (s : K) : K := mkK (k_vm s) (k_fs s) (k_arena s) v (k_root s) (k_cpus s) (k_locks s) (k_flag s) (k_test s).
Definition set_k_root v (s : K) : K := mkK (k_vm s) (k_fs s) (k_arena s) (k_conts s) v (k_cpus s) (k_locks s) (k_flag s) (k_test s).
Definition set_k_cpus v (s : K) : K := mkK (k_vm s) (k_fs s) (k_arena s) (k_conts s) (k_root s) v (k_locks s) (k_flag s) (k_test s).
Definition set_k_locks v (s : K) : K := mkK (k_vm s) (k_fs s) (k_arena s) (k_conts s) (k_root s) (k_cpus s) v (k_flag s) (k_test s).
Definition set_k_flag v (s : K) : K := mkK (k_vm s) (k_fs s) (k_arena s) (k_conts s) (k_root s) (k_cpus s) (k_locks s) v (k_test s).
Definition set_k_test v (s : K) : K := mkK (k_vm s) (k_fs s) (k_arena s) (k_conts s) (k_root s) (k_cpus s) (k_locks s) (k_flag s) v.

(** A call into a component. *)
Definition inside {T X} (part : K -> T) (upd_part : T -> K -> K) (c : M T X) : M K X :=
  fun s => match c (part s) with
           | Ret (x, t) => Ret (x, upd_part t s)
           | Panic e => Panic e
           | Blocked => Blocked
           | Fault => Fault
           | OutOfFuel => OutOfFuel
           end.
Definition in_vm {X} (c : M (vmem P) X) : M K X := inside k_vm set_k_vm c.
Definition in_fs {X} (c : M (files B A) X) : M K X := inside k_fs set_k_fs c.

Definition load_cont (c : Z) : M K container := s ← get; mret (k_conts s c).
Definition store_cont (c : Z) (x : container) : M K unit := modify (fun s => set_k_conts (upd_at (k_conts s) c x) s).

(** A process of a table; an index outside is a fault. *)
Definition load_proc (p : pref) : M K proc :=
  c ← load_cont p.1;
  match procs c !! Z.to_nat p.2 with
  | Some x => if 0 <=? p.2 then mret x else fault
  | None => fault
  end.
Definition store_proc (p : pref) (x : proc) : M K unit :=
  c ← load_cont p.1; store_cont p.1 (set_procs (<[Z.to_nat p.2 := x]> (procs c)) c).
Definition modify_proc (p : pref) (f : proc -> proc) : M K unit :=
  x ← load_proc p; store_proc p (f x).

(** [thiscpu()] is the CPU [me]. *)
Context (me : Z).
Definition thiscpu : M K cpu_ := s ← get; mret (k_cpus s me).
Definition set_cpu (c : cpu_) : M K unit := modify (fun s => set_k_cpus (upd_at (k_cpus s) me c) s).
Definition set_cpu_proc (p : option pref) : M K unit := c ← thiscpu; set_cpu (mkCpu (scheduler c) p (ttbr0 c)).
Definition set_cpu_scheduler (v : Z) : M K unit := c ← thiscpu; set_cpu (mkCpu v (cproc c) (ttbr0 c)).

(** [thiscpu()->proc], dereferenced: NULL is a fault. *)
Definition this_proc : M K pref := c ← thiscpu; match cproc c with Some p => mret p | None => fault end.

(** uvm_switch of core/virtual_memory.c. *)
Definition uvm_switch (pgdir : Z) : M K unit :=
  c ← thiscpu; set_cpu (mkCpu (scheduler c) (cproc c) (K2P pgdir)).
End access.
