(* ===== verification/Sched.v ===== *)
(** core/sched.c and core/container.c.

    A function that switches context is modelled in the parts before and after
    the switch: [swtch] stores the place the thread will continue at, and the part
    after it is run when the thread is switched to again.  [sched_simple] leaves
    the CPU to the scheduler of the table, [scheduler_run] leaves it to a process. *)
From S2P Require Import Prelude Bytes CString Locks PhysMem Arena VirtualMemory FsDefs BlockCache Inode File Process.

Section sched.
Context {P B A C : Type} (PA : PageAllocator P) `{OC : ObjectArena C} (me : Z).
Notation K := (kernel P B A C).

(** * core/sched.c *)

Definition init_sched_simple (this : Z) : M K unit :=
  c ← load_cont this; store_cont this (set_ptable_lock init_spinlock c).

Definition acquire_ptable_lock (this : Z) : M K unit :=
  c ← load_cont this; l ← lift (acquire_spinlock me (ptable_lock c)); store_cont this (set_ptable_lock l c).
Definition release_ptable_lock (this : Z) : M K unit :=
  c ← load_cont this; l ← lift (release_spinlock me (ptable_lock c)); store_cont this (set_ptable_lock l c).

Definition acquire_sched_lock : M K unit := c ← thiscpu me; acquire_ptable_lock (scheduler c).
Definition release_sched_lock : M K unit := c ← thiscpu me; release_ptable_lock (scheduler c).

(** The context of a process that is the scheduler of a container is that of the
    scheduler on this CPU. *)
Definition get_context (p : pref) : M K resume :=
  x ← load_proc p;
  if is_scheduler x then
    c ← load_cont (cont x);
    match s_context c !! Z.to_nat me with Some r => mret r | None => fault end
  else mret (context x).

(** [swtch(get_context_address(p), ...)]: the running thread of [p] is saved. *)
Definition save_context (p : pref) (r : resume) : M K unit :=
  x ← load_proc p;
  if is_scheduler x then
    c ← load_cont (cont x); store_cont (cont x) (set_s_context (<[Z.to_nat me := r]> (s_context c)) c)
  else store_proc p (set_context r x).

(** Enter the scheduler; the thread will continue at [r]. *)
Definition sched_simple (this : Z) (r : resume) : M K unit :=
  c ← load_cont this;
  (if negb (holding_spinlock me (ptable_lock c)) then panic "sched: not holding ptable lock" else mret tt);;
  p ← this_proc me;
  x ← load_proc p;
  (if bool_decide (state x = RUNNING) then panic "sched: process running" else mret tt);;
  save_context p r.

Definition sched (r : resume) : M K unit := c ← thiscpu me; sched_simple (scheduler c) r.

(** [thiscpu()->scheduler == this], and [thiscpu()->proc == this->cont->p] unless
    this is the scheduler of the root. *)
Definition sched_asserts (this : Z) : M K unit :=
  c ← thiscpu me;
  assert (scheduler c =? this) "thiscpu()->scheduler == this";;
  s ← get;
  k ← load_cont this;
  assert (bool_decide (cproc c = c_p k) || (this =? k_root s)) "thiscpu()->proc == this->cont->p".
Definition assert_locked (this : Z) : M K unit :=
  k ← load_cont this; assert (holding_spinlock me (ptable_lock k)) "holding_spinlock(&this->ptable.lock)".

(** yield_scheduler: [true] when the CPU has been left to the parent's scheduler. *)
Definition yield_scheduler (this : Z) : M K bool :=
  s ← get;
  if this =? k_root s then mret false
  else
    k ← load_cont this;
    acquire_ptable_lock (s_parent k);;
    p ← this_proc me;
    modify_proc p (set_state RUNNABLE);;
    set_cpu_scheduler me (s_parent k);;
    assert_locked this;;
    release_ptable_lock this;;
    sched_simple (s_parent k) InYieldScheduler;;
    mret true.

Definition yield_scheduler_back (this : Z) : M K unit :=
  k ← load_cont this;
  acquire_ptable_lock this;;
  release_ptable_lock (s_parent k);;
  set_cpu_scheduler me this.

(** The turn of the scheduler's loop for slot [i], the lock held: the place where
    the process runs, when it is runnable. *)
Definition scheduler_run (this i : Z) : M K (option resume) :=
  let p := (this, i) in
  x ← load_proc p;
  if bool_decide (state x = RUNNABLE) then
    uvm_switch me (pgdir x);;
    set_cpu_proc me (Some p);;
    modify_proc p (set_state RUNNING);;
    c ← thiscpu me;
    assert (scheduler c =? this) "this == thiscpu()->scheduler";;
    r ← get_context p;
    k ← load_cont this;
    store_cont this (set_s_context (<[Z.to_nat me := InScheduler]> (s_context k)) k);;
    mret (Some r)
  else mret None.

(** After the process has given the CPU back, up to the call of yield_scheduler. *)
Definition scheduler_back (this : Z) : M K bool :=
  k ← load_cont this;
  set_cpu_proc me (c_p k);;
  set_cpu_scheduler me this;;
  sched_asserts this;;
  assert_locked this;;
  yield_scheduler this.

(** The search of the table from slot [i] on, for the next process to run. *)
Fixpoint scheduler_scan (n : nat) (this i : Z) : M K (option (Z * resume)) :=
  match n with
  | O => mret None
  | S n' =>
      r ← scheduler_run this i;
      match r with
      | Some r => mret (Some (i, r))
      | None => scheduler_scan n' this (i + 1)
      end
  end.

(** The beginning of scheduler_simple and of each round of its loop. *)
Definition scheduler_simple (this : Z) : M K (option (Z * resume)) :=
  sched_asserts this;;
  acquire_ptable_lock this;;
  scheduler_scan 14 this 0.

(** The operations of every scheduler are those of simple_op, so [op] and its functions are not NULL. *)
Definition init_cpu (this : Z) : M K unit := set_cpu_scheduler me this.
Definition enter_scheduler : M K (option (Z * resume)) :=
  c ← thiscpu me;
  assert (negb (scheduler c =? 0)) "thiscpu()->scheduler != NULL";;
  scheduler_simple (scheduler c).

(** The end of a round. *)
Definition scheduler_round_end (this : Z) : M K bool :=
  sched_asserts this;;
  assert_locked this;;
  b ← yield_scheduler this;
  (if (b : bool) then mret tt else release_ptable_lock this);;
  mret b.

(** * core/container.c *)

Inductive resource_t := MEMORY | PID | INODE.

(** [pmap[i] = m], a fault outside the array. *)
Definition store_pmap (this i : Z) (m : pid_mapping) : M K unit :=
  c ← load_cont this;
  if (0 <=? i) && (i <? NPID) then store_cont this (set_pmap (<[Z.to_nat i := m]> (pmap c)) c) else fault.

(** [depth] bounds the nesting of containers. *)
Fixpoint alloc_resource (depth : nat) (this : Z) (p : pref) (resource : resource_t) : M K Z :=
  match depth with
  | O => fun _ => OutOfFuel
  | S depth' =>
      c ← load_cont this;
      l ← lift (acquire_spinlock me (c_lock c));
      store_cont this (set_c_lock l c);;
      r ← match resource with
          | PID =>
              c ← load_cont this;
              if s_pid c =? NPID then mret (Some (-1))
              else
                let pid := i32 (s_pid c + 1) in
                store_cont this (set_s_pid pid c);;
                store_pmap this pid (mkMap true pid (Some p));;
                mret None
          | MEMORY | INODE => mret None
          end;
      match r with
      | Some v => mret v
      | None =>
          c ← load_cont this;
          l ← lift (release_spinlock me (c_lock c));
          store_cont this (set_c_lock l c);;
          s ← get;
          (if negb (this =? k_root s) then alloc_resource depth' (c_parent c) p resource else mret 0);;
          mret 0
      end
  end.

(** The first unused slot. *)
Definition alloc_pcb_simple (depth : nat) (this : Z) : M K (option pref) :=
  acquire_ptable_lock this;;
  found ← for_until 0 14 (fun i =>
    x ← load_proc (this, i);
    if bool_decide (state x = UNUSED) then mret (Some i) else mret None);
  match found with
  | None => release_ptable_lock this;; mret None
  | Some i =>
      let p := (this, i) in
      alloc_resource depth this p PID;;
      c ← load_cont this;
      modify_proc p (set_pid (s_pid c));;
      modify_proc p (set_state EMBRYO);;
      release_ptable_lock this;;
      mret (Some p)
  end.

Definition alloc_pcb (depth : nat) : M K (option pref) :=
  c ← thiscpu me;
  assert (negb (scheduler c =? 0)) "thiscpu()->scheduler != NULL";;
  alloc_pcb_simple depth (scheduler c).

(** container_entry, up to the scheduler's first round; [add_loop_test] is the
    function of core/proc.c. *)
Definition container_entry (add_loop_test : Z -> M K unit) : M K (option (Z * resume)) :=
  release_sched_lock;;
  p ← this_proc me;
  x ← load_proc p;
  set_cpu_scheduler me (cont x);;
  s ← get;
  (if k_test s then modify (set_k_test false);; add_loop_test 8 else mret tt);;
  c ← thiscpu me;
  assert (negb (scheduler c =? 0)) "thiscpu()->scheduler != NULL";;
  scheduler_simple (scheduler c).

(** The stacks of the scheduler's threads, one per CPU. *)
Definition alloc_stacks (c : Z) : M K unit :=
  for_range 0 4 (fun i =>
    sp ← in_vm (vm_kalloc PA);
    (if sp =? 0 then panic "cont_alloc: cannot alloc kstack" else mret tt);;
    k ← load_cont c;
    store_cont c (set_s_context (<[Z.to_nat i := ContainerEntry]> (s_context k)) k)).

Definition alloc_container (depth : nat) (root : bool) : M K Z :=
  s ← get;
  '(c, a) ← lift (obj_alloc (k_arena s));
  modify (set_k_arena a);;
  if c =? 0 then mret c
  else
    store_cont c zero_container;;
    if root then mret c
    else
      p ← alloc_pcb depth;
      match p with
      | None => mret c
      | Some p =>
          d ← in_vm (my_pgdir_init PA);
          modify_proc p (set_pgdir d);;
          alloc_stacks c;;
          k ← load_cont c;
          store_cont c (set_c_p (Some p) k);;
          modify_proc p (set_cont c);;
          modify_proc p (set_is_scheduler true);;
          modify_proc p (set_state RUNNABLE);;
          mret c
      end.

(** The arena has been initialised with [sizeof(struct container)]. *)
Definition init_container (depth : nat) : M K unit :=
  c ← alloc_container depth true;
  (if c =? 0 then fault else mret tt);;
  modify (set_k_root c);;
  k ← load_cont c;
  store_cont c (set_c_p None (set_ptable_lock init_spinlock (set_c_lock init_spinlock (set_c_parent c k)))).

Definition spawn_container (depth : nat) (this : Z) : M K Z :=
  if this =? 0 then mret 0
  else
    c ← alloc_container depth false;
    (if c =? 0 then mret tt
     else
       k ← load_cont c;
       store_cont c (set_ptable_lock init_spinlock (set_c_lock init_spinlock (set_c_parent this (set_s_parent this k)))));;
    mret c.
End sched.
