(* ===== verification/Proc.v ===== *)
(** core/proc.c: processes.  [sleep], [yield], [exit] and [wait] stop where they
    call [sched]; the part that runs when the process is switched to again is the
    definition with the suffix [_back]. *)
From S2P Require Import Prelude Bytes CString Locks PhysMem Arena VirtualMemory FsDefs BlockCache Path Inode File Process Sched.

Section proc.
(** [depth] bounds the nesting of containers (see Sched.v), [link] is the word the
    page allocator keeps in a free page (see VirtualMemory.v). *)
Context {P B A C : Type} (PA : PageAllocator P) (link : P -> Z -> Z) {sb : SuperBlock}
  `{BC : BlockCache sb B} `{OA : ObjectArena A} `{OC : ObjectArena C} (me : Z) (depth : nat).
Notation K := (kernel P B A C).

Definition alloc_proc : M K pref :=
  p ← alloc_pcb me depth;
  match p with
  | None => panic "no free pcbs"
  | Some p =>
      d ← in_vm (my_pgdir_init PA);
      modify_proc p (set_pgdir d);;
      sp ← in_vm (vm_kalloc PA);
      (if sp =? 0 then panic "proc_alloc: cannot alloc kstack" else mret tt);;
      modify_proc p (set_kstack sp);;
      modify_proc p (set_tf zero_tf);;
      modify_proc p (set_context Forkret);;
      mret p
  end.

(** A process that runs [code] at address 0: the lines spawn_init_process,
    add_loop_test and idle_init share. *)
Definition spawn_code (code : list Z) : M K pref :=
  p ← alloc_proc;
  r ← in_vm (vm_kalloc PA);
  (if r =? 0 then panic "uvm_init: cannot alloc a page" else mret tt);;
  in_vm (clear_page r);;
  x ← load_proc p;
  in_vm (my_uvm_map PA (pgdir x) 0 PAGE_SIZE (K2P r));;
  in_vm (store_bytes r code);;
  modify_proc p (set_tf (mkTf 0 0 PAGE_SIZE 0 (replicate 31 0) 0 [0; 0]));;
  mret p.

(** [icode] is the code between the symbols [icode] and [eicode]. *)
Definition spawn_init_process (icode : list Z) : M K unit :=
  p ← spawn_code icode;
  modify_proc p (set_sz PAGE_SIZE);;
  modify_proc p (set_state RUNNABLE).

Definition add_loop_test (loop : list Z) (times : Z) : M K unit :=
  for_range 0 (Z.to_nat times) (fun _ =>
    p ← spawn_code loop;
    modify_proc p (set_state RUNNABLE)).

Definition container_test_init (loop : list Z) : M K unit :=
  modify (set_k_test true);;
  add_loop_test loop 1;;
  s ← get;
  c ← spawn_container PA me depth (k_root s);
  assert (negb (c =? 0)) "c != NULL".

Definition idle_init (ispin : list Z) : M K unit :=
  p ← spawn_code ispin;
  modify_proc p (set_sz PAGE_SIZE);;
  modify_proc p (set_state RUNNABLE).

(** A call into the inode layer. *)
Definition in_tree {X} (c : M (itree B A) X) : M K X := in_fs (on_tree c).

(** [init_fs] is init_filesystem; [junk], [name] and [ctx] are the local variables
    of namei and forkret. *)
Definition forkret (init_fs : M K unit) (junk name : list Z) (ctx : Z) : M K unit :=
  release_sched_lock me;;
  s ← get;
  modify (set_k_flag true);;
  if negb (k_flag s) then
    init_fs;;
    in_tree (cached (bc_begin_op ctx));;
    p ← this_proc me;
    x ← load_proc p;
    ip ← in_tree (namei me false (cwd x) junk name [slash] ctx);
    modify_proc p (set_cwd ip);;
    in_tree (cached (bc_end_op ctx))
  else mret tt.

(** ** Sleeping and waking *)

(** The loop of wakeup over the table of the CPU's scheduler. *)
Definition wakeup_withlock (ch : channel) : M K unit :=
  c ← thiscpu me;
  for_range 0 14 (fun i =>
    let p := (scheduler c, i) in
    x ← load_proc p;
    if bool_decide (state x = SLEEPING) && bool_decide (chan x = ch) then store_proc p (set_state RUNNABLE x)
    else mret tt).

Definition wakeup (ch : channel) : M K unit :=
  acquire_sched_lock me;; wakeup_withlock ch;; release_sched_lock me.

Definition yield : M K unit :=
  acquire_sched_lock me;;
  p ← this_proc me;
  modify_proc p (set_state RUNNABLE);;
  sched me InYield.
Definition yield_back : M K unit := release_sched_lock me.

(** The lock a process sleeps with: [None] is the lock of the process table. *)
Definition holding_lock (lock : option Z) : M K bool :=
  match lock with
  | None => c ← thiscpu me; k ← load_cont (scheduler c); mret (holding_spinlock me (ptable_lock k))
  | Some a => s ← get; mret (holding_spinlock me (k_locks s a))
  end.
Definition acquire_lock (a : Z) : M K unit :=
  s ← get; l ← lift (acquire_spinlock me (k_locks s a)); modify (set_k_locks (upd_at (k_locks s) a l)).
Definition release_lock (a : Z) : M K unit :=
  s ← get; l ← lift (release_spinlock me (k_locks s a)); modify (set_k_locks (upd_at (k_locks s) a l)).

Definition sleep (ch : channel) (lock : option Z) : M K unit :=
  h ← holding_lock lock;
  (if negb h then panic "sleep: lock not held" else mret tt);;
  (match lock with
   | Some a => acquire_sched_lock me;; release_lock a
   | None => mret tt
   end);;
  p ← this_proc me;
  modify_proc p (set_chan ch);;
  modify_proc p (set_state SLEEPING);;
  sched me (InSleep lock).

Definition sleep_awake : M K unit := p ← this_proc me; modify_proc p (set_chan NullChan).
Definition sleep_back (lock : option Z) : M K unit :=
  sleep_awake;;
  match lock with
  | Some a => release_sched_lock me;; acquire_lock a
  | None => mret tt
  end.

(** ** Memory *)

Definition growproc (n : Z) : M K Z :=
  p ← this_proc me;
  x ← load_proc p;
  let sz := u32 (sz x) in
  r ← (if n >? 0 then
         v ← in_vm (my_uvm_alloc PA link (pgdir x) 0 0 sz (u32 (sz + u32 n)));
         mret (if u32 v =? 0 then None else Some (u32 v))
       else if n <? 0 then
         v ← in_vm (my_uvm_dealloc PA link (pgdir x) 0 sz (u32 (sz + u32 n)));
         mret (if u32 v =? 0 then None else Some (u32 v))
       else mret (Some sz));
  match r with
  | None => mret (-1)
  | Some sz =>
      modify_proc p (set_sz sz);;
      x ← load_proc p;
      uvm_switch me (pgdir x);;
      mret 0
  end.

(** ** fork, exit and wait *)

(** The loop over the descriptors of the parent [q]. *)
Definition dup_files (p q : pref) : M K unit :=
  for_range 0 8 (fun i =>
    x ← load_proc q;
    match ofile x !! Z.to_nat i with
    | Some (Some f) =>
        f' ← in_fs (filedup me f);
        y ← load_proc p;
        store_proc p (set_ofile (<[Z.to_nat i := Some f']> (ofile y)) y)
    | _ => mret tt
    end).

Definition fork : M K Z :=
  p ← alloc_proc;
  q ← this_proc me;
  x ← load_proc q;
  d ← in_vm (my_uvm_copy PA (pgdir x));
  modify_proc p (set_pgdir d);;
  if d =? 0 then
    y ← load_proc p;
    in_vm (vm_kfree PA link (kstack y));;
    modify_proc p (set_kstack 0);;
    modify_proc p (set_state UNUSED);;
    mret (-1)
  else
    modify_proc p (set_sz (sz x));;
    modify_proc p (set_tf (tf x));;
    modify_proc p (fun y => set_tf (mkTf (spsr (tf y)) (elr (tf y)) (tf_sp (tf y)) (tpidr (tf y)) (<[0%nat := 0]> (xregs (tf y))) (tf_padding (tf y)) (q0 (tf y))) y);;
    modify_proc p (set_parent (Some q));;
    dup_files p q;;
    x ← load_proc q;
    ip ← in_tree (inode_share me (cwd x));
    modify_proc p (set_cwd ip);;
    modify_proc p (set_state RUNNABLE);;
    y ← load_proc p;
    mret (pid y).

(** The loop over the descriptors; [ctx] is the OpContext of fileclose. *)
Definition close_files (ctx : Z) (p : pref) : M K unit :=
  for_range 0 8 (fun fd =>
    x ← load_proc p;
    match ofile x !! Z.to_nat fd with
    | Some (Some f) =>
        in_fs (fileclose me ctx f);;
        y ← load_proc p;
        store_proc p (set_ofile (<[Z.to_nat fd := None]> (ofile y)) y)
    | _ => mret tt
    end).

(** The end of exit: the parent is woken, and the process leaves as a zombie. *)
Definition exit_sched (p : pref) : M K unit :=
  acquire_sched_lock me;;
  x ← load_proc p;
  wakeup_withlock (proc_chan (parent x));;
  c ← thiscpu me;
  for_range 0 14 (fun i =>
    y ← load_proc (scheduler c, i);
    if bool_decide (parent y = Some p) && bool_decide (state y = ZOMBIE) then wakeup_withlock (proc_chan (parent y))
    else mret tt);;
  modify_proc p (set_state ZOMBIE);;
  sched me InExit.

Definition exit (ctx : Z) : M K unit :=
  p ← this_proc me;
  close_files ctx p;;
  in_tree (cached (bc_begin_op ctx));;
  x ← load_proc p;
  in_tree (inode_put me ctx (cwd x));;
  in_tree (cached (bc_end_op ctx));;
  modify_proc p (set_cwd 0);;
  exit_sched p.

(** Reaping the zombie child [p]. *)
Definition reap (p : pref) : M K Z :=
  x ← load_proc p;
  modify_proc p (set_killed 0);;
  modify_proc p (set_state UNUSED);;
  modify_proc p (set_pid 0);;
  modify_proc p (set_parent None);;
  y ← load_proc p;
  in_vm (my_vm_free PA link (pgdir y));;
  in_vm (vm_kfree PA link (kstack y));;
  mret (pid x).

(** The search for a zombie child of [me_p] from slot [i] on; [havekids] before
    and after. *)
Fixpoint find_zombie (n : nat) (table i : Z) (me_p : pref) (havekids : bool) : M K (option pref * bool) :=
  match n with
  | O => mret (None, havekids)
  | S n' =>
      let p := (table, i) in
      x ← load_proc p;
      if negb (bool_decide (parent x = Some me_p)) then find_zombie n' table (i + 1) me_p havekids
      else if bool_decide (state x = ZOMBIE) then mret (Some p, true)
      else find_zombie n' table (i + 1) me_p true
  end.

(** One round of the loop of wait, the lock held: the value returned, or [None]
    when the process has gone to sleep on itself. *)
Definition wait_round : M K (option Z) :=
  c ← thiscpu me;
  q ← this_proc me;
  '(z, havekids) ← find_zombie 14 (scheduler c) 0 q false;
  match z with
  | Some p =>
      pid ← reap p;
      release_sched_lock me;;
      mret (Some pid)
  | None =>
      x ← load_proc q;
      if negb (havekids : bool) || negb (killed_ x =? 0) then
        release_sched_lock me;; mret (Some (-1))
      else
        sleep (ProcChan q) None;; mret None
  end.

Definition wait : M K (option Z) := acquire_sched_lock me;; wait_round.
Definition wait_back : M K (option Z) := sleep_back None;; wait_round.
End proc.
