(* ===== verification/SchedSpec.v ===== *)
(** What the code of Sched.v and Proc.v does to the process table of the root
    container, its lock and the CPUs: a Hoare logic for code that may have to wait
    for a lock another CPU holds, and a rule per function. *)
From S2P Require Import Prelude Bytes CString Locks PhysMem Arena VirtualMemory FsDefs BlockCache Path Inode File Process Sched Proc.

(** * Code that may wait *)

(** What a call may do besides returning: [Total], nothing; [Waits], wait for a lock
    another CPU holds; [Loose], also panic, fault or run out of fuel. *)
Inductive mode := Total | Waits | Loose.

(** From [s], [c] returns in a state that satisfies [Q] or does what the mode allows. *)
Definition hoare (strict : mode) {S A} (c : M S A) (Q : A -> S -> Prop) (s : S) : Prop :=
  match c s with
  | Ret (a, s') => Q a s'
  | Blocked => strict ≠ Total
  | Panic _ | Fault | OutOfFuel => strict = Loose
  end.

Section rules.
Context {S : Type} (strict : mode).

Lemma hoare_ret {A} (a : A) Q (s : S) : Q a s -> hoare strict (mret a) Q s.
Proof. done. Qed.

Lemma hoare_bind {A B} (c : M S A) (k : A -> M S B) Q s :
  hoare strict c (fun a s' => hoare strict (k a) Q s') s -> hoare strict (c ≫= k) Q s.
Proof. unfold hoare, mbind, M_bind. by destruct (c s) as [[a s']| | | |]. Qed.

Lemma hoare_mono {A} (c : M S A) (P Q : A -> S -> Prop) s :
  hoare strict c P s -> (forall a s', P a s' -> Q a s') -> hoare strict c Q s.
Proof. unfold hoare. destruct (c s) as [[a s']| | | |]; auto. Qed.

Lemma hoare_for_range (I : Z -> S -> Prop) body n : forall from s,
  (forall i s, from <= i < from + Z.of_nat n -> I i s -> hoare strict (body i) (fun _ s' => I (i + 1) s') s) ->
  I from s -> hoare strict (for_range from n body) (fun _ s' => I (from + Z.of_nat n) s') s.
Proof.
  induction n as [|n IH]; intros from s Hbody HI; cbn [for_range].
  - apply hoare_ret. by rewrite Z.add_0_r.
  - apply hoare_bind. eapply hoare_mono; [apply Hbody; [lia | done] |].
    intros [] s' HI'. replace (from + Z.of_nat (Datatypes.S n)) with (from + 1 + Z.of_nat n) by lia.
    apply IH; [| done]. intros i t Hi. apply Hbody. lia.
Qed.

Lemma hoare_for_until {R} (I : Z -> S -> Prop) (Q : option R -> S -> Prop) body n : forall from s,
  (forall i s, from <= i < from + Z.of_nat n -> I i s ->
    hoare strict (body i) (fun r s' => match r with Some x => Q (Some x) s' | None => I (i + 1) s' end) s) ->
  (forall s, I (from + Z.of_nat n) s -> Q None s) ->
  I from s -> hoare strict (for_until from n body) Q s.
Proof.
  induction n as [|n IH]; intros from s Hbody Hend HI; cbn [for_until].
  - apply hoare_ret, Hend. by rewrite Z.add_0_r.
  - apply hoare_bind. eapply hoare_mono; [apply Hbody; [lia | done] |].
    intros [x|] s' HI'; [by apply hoare_ret |]. apply IH; [| | done].
    + intros i t Hi. apply Hbody. lia.
    + intros t Ht. apply Hend. by replace (from + Z.of_nat (Datatypes.S n)) with (from + 1 + Z.of_nat n) by lia.
Qed.
End rules.

(** A frame condition, proved without looking at failures. *)
Lemma hoare_and strict {S A} (c : M S A) P Q (s : S) :
  hoare strict c P s -> hoare Loose c Q s -> hoare strict c (fun a s' => P a s' /\ Q a s') s.
Proof. unfold hoare. destruct (c s) as [[a s']| | | |]; auto. Qed.

(** What is known when the call has returned. *)
Lemma hoare_use strict {S A} (c : M S A) Q s a s' : hoare strict c Q s -> c s = Ret (a, s') -> Q a s'.
Proof. unfold hoare. intros H E. by rewrite E in H. Qed.

Lemma hoare_waits {S A} (c : M S A) Q s : hoare Waits c Q s -> c s = Blocked \/ exists a s', c s = Ret (a, s') /\ Q a s'.
Proof. unfold hoare. destruct (c s) as [[a s']| | | |]; naive_solver. Qed.

Lemma hoare_total {S A} (c : M S A) Q s : hoare Total c Q s -> exists a s', c s = Ret (a, s') /\ Q a s'.
Proof. unfold hoare. destruct (c s) as [[a s']| | | |]; naive_solver. Qed.

Lemma hoare_any strict {S A} (c : M S A) Q s : hoare Total c Q s -> hoare strict c Q s.
Proof. intros (a & s' & E & H)%hoare_total. unfold hoare. by rewrite E. Qed.

Ltac h_bind H := apply hoare_bind; eapply hoare_mono; [eapply H | cbv beta].

(** * The process table *)

#[global] Arguments upd_at {X} f a v b : simpl never.

Lemma upd_at_eq {X} (f : Z -> X) a v : upd_at f a v a = v.
Proof. unfold upd_at. by rewrite Z.eqb_refl. Qed.

Lemma upd_at_ne {X} (f : Z -> X) a v b : b ≠ a -> upd_at f a v b = f b.
Proof. unfold upd_at. intros Hb. by apply Z.eqb_neq in Hb as ->. Qed.

Definition held_by (me : Z) : SpinLock := mkSpin true (Some me).

Lemma holding_held me : holding_spinlock me (held_by me) = true.
Proof. unfold holding_spinlock. cbn. by apply bool_decide_eq_true_2. Qed.

(** The CPU does not hold the lock, and nobody does when it must not wait. *)
Definition can_acquire (strict : mode) (me : Z) (l : SpinLock) : Prop :=
  holding_spinlock me l = false /\ (strict = Total -> locked l = false).

Section table.
Context {P B A C : Type} (strict : mode) (me : Z).
Notation K := (kernel P B A C).

(** The root container is at [R], its table is [t] with the lock [l], and [cs] are
    the CPUs. *)
Definition st (R : Z) (l : SpinLock) (t : list proc) (cs : Z -> cpu_) (s : K) : Prop :=
  k_root s = R /\ ptable_lock (k_conts s R) = l /\ procs (k_conts s R) = t /\ forall c, k_cpus s c = cs c.

Context {R : Z} {l : SpinLock} {t : list proc} {cs : Z -> cpu_}.

Lemma load_cont_ok a Q (s : K) : Q (k_conts s a) s -> hoare strict (load_cont a) Q s.
Proof. done. Qed.

Lemma store_cont_ok a c Q (s : K) : Q tt (set_k_conts (upd_at (k_conts s) a c) s) -> hoare strict (store_cont a c) Q s.
Proof. done. Qed.

Lemma load_proc_ok i x Q (s : K) :
  st R l t cs s -> 0 <= i -> t !! Z.to_nat i = Some x -> Q x s -> hoare strict (load_proc (R, i)) Q s.
Proof.
  intros (_ & _ & Ht & _) Hi Hx HQ. unfold hoare, load_proc, load_cont, mbind, M_bind, get. cbn.
  rewrite Ht, Hx. apply Z.leb_le in Hi as ->. done.
Qed.

Lemma store_proc_ok i x (s : K) :
  st R l t cs s -> hoare strict (store_proc (R, i) x) (fun _ => st R l (<[Z.to_nat i := x]> t) cs) s.
Proof. intros (HR & Hl & Ht & Hc). unfold hoare, store_proc, load_cont, store_cont, mbind, M_bind, get, modify, st. cbn.
  rewrite upd_at_eq. cbn. by rewrite Ht. Qed.

Lemma modify_proc_ok i x f (s : K) :
  st R l t cs s -> 0 <= i -> t !! Z.to_nat i = Some x ->
  hoare strict (modify_proc (R, i) f) (fun _ => st R l (<[Z.to_nat i := f x]> t) cs) s.
Proof. intros Hs Hi Hx. apply hoare_bind. eapply load_proc_ok; [done..|]. by apply store_proc_ok. Qed.

Lemma thiscpu_ok Q (s : K) : st R l t cs s -> Q (cs me) s -> hoare strict (thiscpu me) Q s.
Proof. intros (_ & _ & _ & Hc) HQ. unfold hoare, thiscpu, get, mbind, M_bind. cbn. by rewrite Hc. Qed.

Lemma this_proc_ok p Q (s : K) : st R l t cs s -> cproc (cs me) = Some p -> Q p s -> hoare strict (this_proc me) Q s.
Proof.
  intros Hs Hp HQ. apply hoare_bind. eapply thiscpu_ok; [done |]. by rewrite Hp.
Qed.

Lemma set_cpu_ok c (s : K) : st R l t cs s -> hoare strict (set_cpu me c) (fun _ => st R l t (upd_at cs me c)) s.
Proof.
  intros (HR & Hl & Ht & Hc). unfold hoare, st. cbn. split_and!; [done.. |]. intros d. unfold upd_at. by rewrite Hc.
Qed.

Lemma get_root_ok Q (s : K) : st R l t cs s -> (k_root s = R -> Q s s) -> hoare strict get Q s.
Proof. intros (HR & _). unfold hoare, get. auto. Qed.

Lemma inside_ok {T X} (part : K -> T) upd (c : M T X) (s : K) :
  strict = Loose -> (forall v s, st R l t cs s -> st R l t cs (upd v s)) ->
  st R l t cs s -> hoare strict (inside part upd c) (fun _ => st R l t cs) s.
Proof. intros Hn Hu Hs. unfold hoare, inside. rewrite Hn. destruct (c (part s)) as [[x v]| | | |]; auto. Qed.

Lemma in_vm_ok {X} (c : M (vmem P) X) (s : K) :
  strict = Loose -> st R l t cs s -> hoare strict (in_vm c) (fun _ => st R l t cs) s.
Proof. intros Hn Hs. by apply inside_ok. Qed.

Lemma in_fs_ok {X} (c : M (files B A) X) (s : K) :
  strict = Loose -> st R l t cs s -> hoare strict (in_fs c) (fun _ => st R l t cs) s.
Proof. intros Hn Hs. by apply inside_ok. Qed.

(** ** The lock *)

(** The lock of another CPU is waited for. *)
Lemma acquire_ptable_ok (s : K) :
  st R l t cs s -> can_acquire strict me l ->
  hoare strict (acquire_ptable_lock me R) (fun _ s' => locked l = false /\ st R (held_by me) t cs s') s.
Proof.
  intros (HR & Hl & Ht & Hc) [Hh Ht']. unfold hoare, acquire_ptable_lock, load_cont, store_cont, mbind, M_bind, get, lift. cbn.
  unfold acquire_spinlock, mbind, outcome_bind. rewrite Hl, Hh. unfold try_acquire_spinlock.
  destruct (locked l); cbn; [intros ->; by specialize (Ht' eq_refl) |].
  split; [done |]. unfold st. cbn. by rewrite upd_at_eq.
Qed.

Lemma release_ptable_ok (s : K) :
  st R l t cs s -> l = held_by me -> hoare strict (release_ptable_lock me R) (fun _ => st R init_spinlock t cs) s.
Proof.
  intros (HR & Hl & Ht & Hc) ->. unfold hoare, release_ptable_lock, load_cont, store_cont, mbind, M_bind, get, lift. cbn.
  unfold release_spinlock, mbind, outcome_bind. rewrite Hl, holding_held. cbn. unfold st. cbn. by rewrite upd_at_eq.
Qed.

Lemma acquire_sched_ok (s : K) :
  st R l t cs s -> scheduler (cs me) = R -> can_acquire strict me l ->
  hoare strict (acquire_sched_lock me) (fun _ s' => locked l = false /\ st R (held_by me) t cs s') s.
Proof. intros Hs HR Hh. apply hoare_bind. eapply thiscpu_ok; [done |]. rewrite HR. by apply acquire_ptable_ok. Qed.

Lemma acquire_sched_frame (s : K) : hoare Loose (acquire_sched_lock me) (fun _ s' => k_locks s' = k_locks s /\ k_vm s' = k_vm s) s.
Proof.
  clear strict R l t cs.
  unfold hoare, acquire_sched_lock, acquire_ptable_lock, thiscpu, load_cont, store_cont, mbind, M_bind, get, lift. cbn.
  unfold mbind, outcome_bind. destruct (acquire_spinlock _ _); by cbn.
Qed.

Lemma release_sched_ok (s : K) :
  st R l t cs s -> scheduler (cs me) = R -> l = held_by me ->
  hoare strict (release_sched_lock me) (fun _ => st R init_spinlock t cs) s.
Proof. intros Hs HR Hh. apply hoare_bind. eapply thiscpu_ok; [done |]. rewrite HR. by apply release_ptable_ok. Qed.

Lemma release_sched_flag (s : K) : hoare Loose (release_sched_lock me) (fun _ s' => k_flag s' = k_flag s) s.
Proof.
  clear strict R l t cs.
  unfold hoare, release_sched_lock, release_ptable_lock, thiscpu, load_cont, store_cont, mbind, M_bind, get, lift. cbn.
  unfold mbind, outcome_bind. destruct (release_spinlock _ _); by cbn.
Qed.
End table.

(** * core/sched.c *)

(** What the scheduler relies on in a slot of the table: it holds no scheduler of
    another container, a runnable thread continues at one of the places where
    threads start or leave the CPU, and a sleeping one in [sleep]. *)
Definition resumable (r : resume) : Prop :=
  match r with Forkret | InYield | InSleep _ => True | _ => False end.
Definition slot_ok (x : proc) : Prop :=
  is_scheduler x = false /\ (state x = RUNNABLE -> resumable (context x)) /\
  (state x = SLEEPING -> exists lk, context x = InSleep lk).

Section scheduler.
Context {P B A C : Type} (strict : mode) (me : Z).
Notation K := (kernel P B A C).
Context {R : Z} {l : SpinLock} {t : list proc} {cs : Z -> cpu_}.

Lemma assert_ok b msg Q (s : K) : b = true -> Q tt s -> hoare strict (assert b msg) Q s.
Proof. by intros ->. Qed.

Lemma sched_simple_ok i x r (s : K) :
  st R l t cs s -> l = held_by me -> cproc (cs me) = Some (R, i) -> 0 <= i -> t !! Z.to_nat i = Some x ->
  is_scheduler x = false -> state x ≠ RUNNING ->
  hoare strict (sched_simple me R r) (fun _ => st R l (<[Z.to_nat i := set_context r x]> t) cs) s.
Proof.
  intros Hs Hl Hp Hi Hx Hsch Hrun. apply hoare_bind. pose proof Hs as (_ & Hl' & _). apply load_cont_ok.
  rewrite Hl', Hl, holding_held. cbn [negb]. apply hoare_bind, hoare_ret, hoare_bind.
  eapply this_proc_ok; [done.. |]. apply hoare_bind. eapply load_proc_ok; [done.. |].
  rewrite bool_decide_eq_false_2 by done. apply hoare_bind, hoare_ret, hoare_bind.
  eapply load_proc_ok; [done.. |]. rewrite Hsch. rewrite <- Hl. by apply store_proc_ok.
Qed.

Lemma sched_ok i x r (s : K) :
  st R l t cs s -> l = held_by me -> scheduler (cs me) = R -> cproc (cs me) = Some (R, i) -> 0 <= i ->
  t !! Z.to_nat i = Some x -> is_scheduler x = false -> state x ≠ RUNNING ->
  hoare strict (sched me r) (fun _ => st R l (<[Z.to_nat i := set_context r x]> t) cs) s.
Proof.
  intros Hs Hl HR Hp Hi Hx Hsch Hrun. apply hoare_bind. eapply thiscpu_ok; [done |]. rewrite HR.
  by apply sched_simple_ok.
Qed.

Lemma sched_asserts_ok Q (s : K) :
  st R l t cs s -> scheduler (cs me) = R -> Q tt s -> hoare strict (sched_asserts me R) Q s.
Proof.
  intros Hs HR HQ. apply hoare_bind. eapply thiscpu_ok; [done |]. apply hoare_bind, assert_ok; [by apply Z.eqb_eq |].
  apply hoare_bind. eapply get_root_ok; [done |]. intros Hroot. apply hoare_bind. apply load_cont_ok.
  apply assert_ok; [| done]. rewrite Hroot, Z.eqb_refl. apply orb_true_r.
Qed.

Lemma assert_locked_ok Q (s : K) :
  st R l t cs s -> l = held_by me -> Q tt s -> hoare strict (assert_locked me R) Q s.
Proof.
  intros (HR & Hl & Ht & Hc) -> HQ. apply hoare_bind. apply load_cont_ok.
  apply assert_ok; [| done]. rewrite Hl. apply holding_held.
Qed.

Lemma yield_scheduler_ok Q (s : K) : st R l t cs s -> Q false s -> hoare strict (yield_scheduler me R) Q s.
Proof.
  intros Hs HQ. apply hoare_bind. eapply get_root_ok; [done |]. intros ->. rewrite Z.eqb_refl. by apply hoare_ret.
Qed.

Lemma scheduler_round_end_ok (s : K) :
  st R l t cs s -> scheduler (cs me) = R -> l = held_by me ->
  hoare strict (scheduler_round_end me R) (fun b s' => b = false /\ st R init_spinlock t cs s') s.
Proof.
  intros Hs HR Hl. apply hoare_bind. eapply sched_asserts_ok; [done.. |].
  apply hoare_bind. eapply assert_locked_ok; [done.. |]. apply hoare_bind. eapply yield_scheduler_ok; [done |].
  h_bind @release_ptable_ok; [done.. |]. intros [] s' Hs'. by apply hoare_ret.
Qed.

(** The CPU on which slot [i] has been chosen. *)
Definition run_on (i : Z) (x : proc) (c : cpu_) : cpu_ := mkCpu (scheduler c) (Some (R, i)) (K2P (pgdir x)).

Lemma scheduler_run_ok i x (s : K) :
  st R l t cs s -> scheduler (cs me) = R -> 0 <= i -> t !! Z.to_nat i = Some x -> slot_ok x ->
  hoare strict (scheduler_run me R i) (fun r s' =>
    (state x ≠ RUNNABLE /\ r = None /\ s' = s) \/
    (state x = RUNNABLE /\ r = Some (context x) /\
     st R l (<[Z.to_nat i := set_state RUNNING x]> t) (upd_at cs me (run_on i x (cs me))) s')) s.
Proof.
  intros Hs HR Hi Hx (Hsch & _). apply hoare_bind. eapply load_proc_ok; [done.. |]. case_bool_decide as Hr; [| by left].
  apply hoare_bind, hoare_bind. eapply thiscpu_ok; [done |]. eapply hoare_mono; [by apply set_cpu_ok |]. intros [] s1 Hs1.
  apply hoare_bind, hoare_bind. eapply thiscpu_ok; [done |]. rewrite upd_at_eq.
  eapply hoare_mono; [by apply set_cpu_ok |]. intros [] s2 Hs2. h_bind @modify_proc_ok; [done.. |]. intros [] s3 Hs3.
  apply hoare_bind. eapply thiscpu_ok; [done |]. rewrite upd_at_eq. apply hoare_bind, assert_ok; [by apply Z.eqb_eq |].
  assert (<[Z.to_nat i := set_state RUNNING x]> t !! Z.to_nat i = Some (set_state RUNNING x)) as Hx'.
  { apply list_lookup_insert_eq. by eapply lookup_lt_Some. }
  apply hoare_bind, hoare_bind. eapply load_proc_ok; [done.. |]. cbn [is_scheduler set_state]. rewrite Hsch.
  apply hoare_ret. destruct Hs3 as (H1 & H2 & H3 & H4). apply hoare_bind. apply load_cont_ok.
  apply hoare_bind. apply store_cont_ok. apply hoare_ret. right.
  split; [done |]. split; [done |]. unfold st. cbn. rewrite upd_at_eq. cbn. split_and!; [done.. |]. intros c. rewrite H4.
  unfold upd_at. by destruct (c =? me).
Qed.

(** The first runnable slot from [i] on, of [n]. *)
Definition picks (i : Z) (n : nat) (r : option (Z * resume)) (s s' : K) : Prop :=
  match r with
  | None => s' = s /\ forall j x, i <= j < i + Z.of_nat n -> t !! Z.to_nat j = Some x -> state x ≠ RUNNABLE
  | Some (j, r) => exists x, i <= j < i + Z.of_nat n /\ t !! Z.to_nat j = Some x /\ state x = RUNNABLE /\ r = context x /\
      st R l (<[Z.to_nat j := set_state RUNNING x]> t) (upd_at cs me (run_on j x (cs me))) s' /\
      forall k y, i <= k < j -> t !! Z.to_nat k = Some y -> state y ≠ RUNNABLE
  end.

Lemma scheduler_scan_ok n : forall i (s : K),
  st R l t cs s -> scheduler (cs me) = R -> Forall slot_ok t -> 0 <= i -> i + Z.of_nat n <= Z.of_nat (length t) ->
  hoare strict (scheduler_scan me n R i) (fun r s' => picks i n r s s') s.
Proof.
  induction n as [|n IH]; intros i s Hs HR Hok Hi Hn; cbn [scheduler_scan].
  { apply hoare_ret. split; [done |]. intros j x Hj. lia. }
  destruct (lookup_lt_is_Some_2 t (Z.to_nat i)) as [x Hx]; [lia |].
  h_bind scheduler_run_ok; [done.. | by eapply Forall_lookup_1 |].
  intros r s' [(Hr & -> & ->) | (Hr & -> & Hs')].
  - eapply hoare_mono; [apply (IH (i + 1)); [done.. | lia | lia] |]. intros [[j r]|] s' Hp; cbn in *.
    + destruct Hp as (y & Hj & Hy & Hys & -> & Hst & Hno). exists y. split_and!; try done; try lia.
      intros k z Hk Hz. destruct (decide (k = i)) as [->|]; [by simplify_eq | apply (Hno k); [lia | done]].
    + destruct Hp as [-> Hno]. split; [done |]. intros k z Hk Hz.
      destruct (decide (k = i)) as [->|]; [by simplify_eq | apply (Hno k); [lia | done]].
  - apply hoare_ret. exists x. split_and!; try done; lia.
Qed.
End scheduler.

Section rounds.
Context {P B A C : Type} (strict : mode) (me : Z).
Notation K := (kernel P B A C).
Context {R : Z} {l : SpinLock} {t : list proc} {cs : Z -> cpu_}.

(** The beginning of a round; a CPU that spins on the lock has done nothing. *)
Lemma scheduler_simple_ok (s : K) :
  st R l t cs s -> scheduler (cs me) = R -> can_acquire strict me l -> Forall slot_ok t -> length t = 14%nat ->
  hoare strict (scheduler_simple me R) (fun r s' => locked l = false /\ exists s1,
    st R (held_by me) t cs s1 /\ picks me (R := R) (l := held_by me) (t := t) (cs := cs) 0 14 r s1 s') s.
Proof.
  intros Hs HR Hh Hok Hlen. apply hoare_bind. eapply sched_asserts_ok; [done.. |].
  h_bind @acquire_ptable_ok; [done.. |]. intros [] s1 [Hl Hs1].
  eapply hoare_mono; [apply scheduler_scan_ok; [done.. | lia | lia] |]. eauto.
Qed.

(** A process gives the CPU back, and the scheduler goes on with the next slots. *)
Definition scheduler_next (i : Z) : M K (option (Z * resume)) :=
  b ← scheduler_back me R;
  if (b : bool) then fault else scheduler_scan me (Z.to_nat (13 - i)) R (i + 1).

Lemma scheduler_next_ok i (s : K) :
  st R l t cs s -> l = held_by me -> Forall slot_ok t -> length t = 14%nat -> 0 <= i < 14 ->
  hoare strict (scheduler_next i) (fun r s' => exists s1 cs',
    cs' = upd_at cs me (mkCpu R (c_p (k_conts s R)) (ttbr0 (cs me))) /\ st R l t cs' s1 /\
    picks me (R := R) (l := l) (t := t) (cs := cs') (i + 1) (Z.to_nat (13 - i)) r s1 s') s.
Proof.
  intros Hs Hl Hok Hlen Hi. apply hoare_bind, hoare_bind, load_cont_ok.
  apply hoare_bind, hoare_bind. eapply thiscpu_ok; [done |]. eapply hoare_mono; [by apply set_cpu_ok |]. intros [] s1 Hs1.
  apply hoare_bind, hoare_bind. eapply thiscpu_ok; [done |]. rewrite upd_at_eq.
  eapply hoare_mono; [by apply set_cpu_ok |]. intros [] s2 Hs2. cbn in Hs2.
  apply hoare_bind. eapply sched_asserts_ok; [done | by rewrite upd_at_eq |].
  apply hoare_bind. eapply assert_locked_ok; [done.. |]. eapply yield_scheduler_ok; [done |].
  set (cs' := upd_at cs me (mkCpu R (c_p (k_conts s R)) (ttbr0 (cs me)))).
  assert (st R l t cs' s2) as Hs3.
  { destruct Hs2 as (H1 & H2 & H3 & H4). split_and!; [done.. |]. intros c. rewrite H4. unfold cs', upd_at. by destruct (c =? me). }
  eapply hoare_mono; [eapply (scheduler_scan_ok strict me (cs := cs')); [exact Hs3 | unfold cs'; by rewrite upd_at_eq | done | lia | lia] |]. eauto.
Qed.
End rounds.

(** * core/proc.c *)

(** Slot [i], which holds [x], runs on this CPU. *)
Definition runs_here (me R : Z) (t : list proc) (cs : Z -> cpu_) (i : Z) (x : proc) : Prop :=
  scheduler (cs me) = R /\ cproc (cs me) = Some (R, i) /\ 0 <= i /\ t !! Z.to_nat i = Some x /\ is_scheduler x = false.

Lemma lookup_put (t : list proc) i x y : t !! i = Some x -> <[i := y]> t !! i = Some y.
Proof. intros Hx. apply list_lookup_insert_eq. by eapply lookup_lt_Some. Qed.

(** Code that changes slot [i] only. *)
Section one_slot.
Context {P B A C : Type} (strict : mode) (me : Z).
Notation K := (kernel P B A C).
Context {R : Z} {l : SpinLock} {t : list proc} {cs : Z -> cpu_} (i : Z) (x : proc).

Lemma change_ok y f (s : K) :
  st R l (<[Z.to_nat i := y]> t) cs s -> 0 <= i -> t !! Z.to_nat i = Some x ->
  hoare strict (modify_proc (R, i) f) (fun _ => st R l (<[Z.to_nat i := f y]> t) cs) s.
Proof.
  intros Hs Hi Hx. eapply hoare_mono; [eapply modify_proc_ok; [done.. | by eapply lookup_put] |].
  intros [] s'. by rewrite list_insert_insert_eq.
Qed.

(** The process leaves the CPU, to continue at [r]. *)
Lemma leave_ok y r (s : K) :
  st R l (<[Z.to_nat i := y]> t) cs s -> runs_here me R t cs i x -> l = held_by me -> is_scheduler y = false ->
  state y ≠ RUNNING ->
  hoare strict (sched me r) (fun _ => st R l (<[Z.to_nat i := set_context r y]> t) cs) s.
Proof.
  intros Hs (HR & Hp & Hi & Hx & _) Hl Hy Hrun.
  eapply hoare_mono; [eapply sched_ok; [done.. | by eapply lookup_put | done | done] |].
  intros [] s'. by rewrite list_insert_insert_eq.
Qed.
End one_slot.

Section sleeping.
Context {P B A C : Type} (strict : mode) (me : Z).
Notation K := (kernel P B A C).
Context {R : Z} {l : SpinLock} {t : list proc} {cs : Z -> cpu_} (i : Z) (x : proc).

Lemma yield_ok (s : K) :
  st R l t cs s -> runs_here me R t cs i x -> can_acquire strict me l ->
  hoare strict (yield me) (fun _ s' => locked l = false /\
    st R (held_by me) (<[Z.to_nat i := set_context InYield (set_state RUNNABLE x)]> t) cs s') s.
Proof.
  intros Hs Hr Hh. pose proof Hr as (HR & Hp & Hi & Hx & Hsch). h_bind @acquire_sched_ok; [done.. |].
  intros [] s1 [Hl Hs1]. apply hoare_bind. eapply this_proc_ok; [done.. |].
  h_bind @modify_proc_ok; [done.. |]. intros [] s2 Hs2. eapply hoare_mono; [by eapply leave_ok |]. auto.
Qed.

(** What [sleep] makes of the slot. *)
Definition asleep (ch : channel) (lk : option Z) (y : proc) : proc :=
  set_context (InSleep lk) (set_state SLEEPING (set_chan ch y)).

Lemma sleep_here_ok ch lk (s : K) :
  st R (held_by me) t cs s -> runs_here me R t cs i x ->
  hoare strict (p ← this_proc me; modify_proc p (set_chan ch);; modify_proc p (set_state SLEEPING);; sched me (InSleep lk))
    (fun _ => st R (held_by me) (<[Z.to_nat i := asleep ch lk x]> t) cs) s.
Proof.
  intros Hs Hr. pose proof Hr as (HR & Hp & Hi & Hx & Hsch). apply hoare_bind. eapply this_proc_ok; [done.. |].
  h_bind @modify_proc_ok; [done.. |]. intros [] s1 Hs1. h_bind @change_ok; [done.. |]. intros [] s2 Hs2.
  by eapply leave_ok.
Qed.

Lemma sleep_table_ok ch (s : K) :
  st R (held_by me) t cs s -> runs_here me R t cs i x ->
  hoare strict (sleep me ch None) (fun _ => st R (held_by me) (<[Z.to_nat i := asleep ch None x]> t) cs) s.
Proof.
  intros Hs Hr. pose proof Hr as (HR & Hp & Hi & Hx & Hsch). apply hoare_bind, hoare_bind. eapply thiscpu_ok; [done |].
  rewrite HR. apply hoare_bind, load_cont_ok. pose proof Hs as (_ & -> & _). apply hoare_ret. rewrite holding_held.
  apply hoare_bind, hoare_ret, hoare_bind, hoare_ret. by apply sleep_here_ok.
Qed.

Lemma release_lock_ok a Q (s : K) :
  holding_spinlock me (k_locks s a) = true -> Q tt (set_k_locks (upd_at (k_locks s) a init_spinlock) s) ->
  hoare strict (release_lock me a) Q s.
Proof.
  clear R l t cs i x. intros Hh HQ. unfold hoare, release_lock, lift, modify, get, mbind, M_bind, outcome_bind.
  unfold release_spinlock. by rewrite Hh.
Qed.

Lemma sleep_lock_ok ch a (s : K) :
  st R l t cs s -> runs_here me R t cs i x -> can_acquire strict me l ->
  (strict = Loose \/ holding_spinlock me (k_locks s a) = true) ->
  hoare strict (sleep me ch (Some a)) (fun _ s' => locked l = false /\
    st R (held_by me) (<[Z.to_nat i := asleep ch (Some a) x]> t) cs s') s.
Proof.
  intros Hs Hr Hh Ha. pose proof Hr as (HR & Hp & Hi & Hx & Hsch). apply hoare_bind, hoare_bind.
  unfold hoare at 1. cbn. unfold hoare at 1. cbn. destruct (holding_spinlock me (k_locks s a)) eqn:E; cbn [negb].
  2: { apply hoare_bind. unfold hoare, panic. naive_solver. }
  apply hoare_bind, hoare_ret, hoare_bind, hoare_bind.
  eapply hoare_mono; [apply hoare_and; [by apply acquire_sched_ok | apply acquire_sched_frame] |].
  intros [] s1 [[Hl Hs1] [Hk _]]. apply release_lock_ok; [by rewrite Hk |].
  eapply hoare_mono; [apply sleep_here_ok; [exact Hs1 | done] |]. auto.
Qed.

Lemma sleep_awake_ok (s : K) :
  st R l t cs s -> runs_here me R t cs i x ->
  hoare strict (sleep_awake me) (fun _ => st R l (<[Z.to_nat i := set_chan NullChan x]> t) cs) s.
Proof.
  intros Hs (HR & Hp & Hi & Hx & Hsch). apply hoare_bind. eapply this_proc_ok; [done.. |]. by apply modify_proc_ok.
Qed.

(** wakeup makes exactly the processes that sleep on the channel runnable. *)
Definition woken (ch : channel) (y : proc) : proc :=
  if bool_decide (state y = SLEEPING) && bool_decide (chan y = ch) then set_state RUNNABLE y else y.

Lemma wakeup_withlock_ok ch (s : K) :
  st R l t cs s -> scheduler (cs me) = R -> length t = 14%nat ->
  hoare strict (wakeup_withlock me ch) (fun _ => st R l (woken ch <$> t) cs) s.
Proof.
  intros Hs HR Hlen. apply hoare_bind. eapply thiscpu_ok; [done |]. rewrite HR.
  eapply hoare_mono;
    [apply (hoare_for_range _ (fun i => st R l ((woken ch <$> take (Z.to_nat i) t) ++ drop (Z.to_nat i) t) cs)) |].
  - intros k s1 Hk Hs1. destruct (lookup_lt_is_Some_2 t (Z.to_nat k)) as [y Hy]; [lia |].
    replace (Z.to_nat (k + 1)) with (S (Z.to_nat k)) by lia. rewrite (take_S_r _ _ y) by done.
    rewrite (drop_S _ y) in Hs1 by done. rewrite fmap_app, <- app_assoc. cbn [fmap list_fmap app].
    assert (length (woken ch <$> take (Z.to_nat k) t) = Z.to_nat k) as Hlk by (rewrite length_fmap, length_take; lia).
    apply hoare_bind. eapply load_proc_ok; [done | lia | by rewrite lookup_app_r, Hlk, Nat.sub_diag by lia |].
    unfold woken at 2. destruct (bool_decide _ && _); [| by apply hoare_ret].
    eapply hoare_mono; [by apply store_proc_ok |]. intros [] s2.
    by rewrite insert_app_r_alt, Hlk, Nat.sub_diag by lia.
  - by rewrite drop_0.
  - intros [] s1. cbn. change (Pos.to_nat 14) with 14%nat. by rewrite drop_ge, take_ge, app_nil_r by lia.
Qed.
End sleeping.

Section waking.
Context {P B A C : Type} (strict : mode) (me : Z).
Notation K := (kernel P B A C).
Context {R : Z} {l : SpinLock} {t : list proc} {cs : Z -> cpu_}.

Lemma wakeup_ok ch (s : K) :
  st R l t cs s -> scheduler (cs me) = R -> can_acquire strict me l -> length t = 14%nat ->
  hoare strict (wakeup me ch) (fun _ s' => locked l = false /\ st R init_spinlock (woken ch <$> t) cs s') s.
Proof.
  intros Hs HR Hh Hlen. h_bind @acquire_sched_ok; [done.. |]. intros [] s1 [Hl Hs1].
  h_bind @wakeup_withlock_ok; [done.. |]. intros [] s2 Hs2.
  eapply hoare_mono; [by eapply release_sched_ok |]. auto.
Qed.
End waking.

(** ** fork, exit and wait *)

(** Changes of the table other than choosing a process to run: they neither make a
    process run nor stop one, and keep what the scheduler relies on. *)
Definition slot_step (x y : proc) : Prop :=
  (state x = RUNNING <-> state y = RUNNING) /\ (slot_ok x -> slot_ok y).

#[export] Instance slot_step_preorder : PreOrder slot_step.
Proof. split; [by intros x | intros x y z [? ?] [? ?]; split; [by etrans | auto]]. Qed.

Lemma table_set t i x y : t !! i = Some x -> slot_step x y -> Forall2 slot_step t (<[i := y]> t).
Proof.
  intros Hx Hy. apply Forall2_same_length_lookup_2; [by rewrite length_insert |].
  intros j a b Ha Hb. destruct (decide (i = j)) as [->|].
  - rewrite (lookup_put _ _ a) in Hb by done. by simplify_eq.
  - rewrite list_lookup_insert_ne in Hb by done. by simplify_eq.
Qed.

Lemma woken_step ch x : slot_step x (woken ch x).
Proof.
  unfold woken. destruct (bool_decide_reflect (state x = SLEEPING)) as [E|]; [| done].
  destruct (bool_decide (chan x = ch)); [| done]. cbn. split; cbn; [by rewrite E |].
  intros (H1 & H2 & H3). split_and!; cbn; [done | | done]. intros _. by destruct (H3 E) as [lk ->].
Qed.

Lemma woken_table ch t : Forall2 slot_step t (woken ch <$> t).
Proof. apply Forall2_fmap_r, Forall2_same_length_lookup_2; [done |]. intros i x y Hx Hy. simplify_eq. apply woken_step. Qed.

Section lifecycle.
Context {P B A C : Type} (me : Z).
Notation K := (kernel P B A C).
Context {R : Z} {cs : Z -> cpu_}.

(** The table has changed in this way.  The calls into the memory and the file
    system may fail: the rules of code that makes them are in the mode [Loose]. *)
Definition stepped (l : SpinLock) (t : list proc) (s : K) : Prop :=
  exists t', Forall2 slot_step t t' /\ st R l t' cs s.

Lemma stepped_set l t i x (s : K) f :
  stepped l t s -> 0 <= i -> t !! Z.to_nat i = Some x -> (forall y, slot_step y (f y)) ->
  hoare Loose (modify_proc (R, i) f) (fun _ => stepped l t) s.
Proof.
  intros (t' & Ht & Hs) Hi Hx Hf. destruct (Forall2_lookup_l _ _ _ _ _ Ht Hx) as (y & Hy & Hxy).
  eapply hoare_mono; [by eapply modify_proc_ok |]. intros [] s' Hs'. eexists. split; [| done].
  etrans; [done |]. by eapply table_set.
Qed.

Lemma stepped_load strict l t i x (s : K) Q :
  stepped l t s -> 0 <= i -> t !! Z.to_nat i = Some x -> (forall y, slot_step x y -> Q y s) ->
  hoare strict (load_proc (R, i)) Q s.
Proof.
  intros (t' & Ht & Hs) Hi Hx HQ. destruct (Forall2_lookup_l _ _ _ _ _ Ht Hx) as (y & Hy & Hxy).
  eapply load_proc_ok; [done.. |]. by apply HQ.
Qed.

Lemma stepped_fs {X} (c : M (files B A) X) l t (s : K) :
  stepped l t s -> hoare Loose (in_fs c) (fun _ => stepped l t) s.
Proof. intros (t' & Ht & Hs). eapply hoare_mono; [by apply in_fs_ok |]. intros ? s' Hs'. by eexists. Qed.

Lemma stepped_wakeup strict l t ch (s : K) :
  stepped l t s -> scheduler (cs me) = R -> length t = 14%nat ->
  hoare strict (wakeup_withlock me ch) (fun _ => stepped l t) s.
Proof.
  intros (t' & Ht & Hs) HR Hlen. eapply hoare_mono; [apply wakeup_withlock_ok; [done.. |] |].
  - by rewrite <- (Forall2_length _ _ _ Ht).
  - intros [] s' Hs'. eexists. split; [| done]. etrans; [done | apply woken_table].
Qed.

Context {sb : SuperBlock} `{BC : BlockCache sb B} `{OA : ObjectArena A}.

Lemma close_files_ok l t ctx i x (s : K) :
  stepped l t s -> 0 <= i -> t !! Z.to_nat i = Some x ->
  hoare Loose (close_files me ctx (R, i)) (fun _ => stepped l t) s.
Proof.
  intros Hs Hi Hx. apply (hoare_for_range _ (fun _ => stepped l t)); [| done].
  intros fd s1 _ Hs1. apply hoare_bind. eapply stepped_load; [done.. |]. intros y _.
  destruct (ofile y !! Z.to_nat fd) as [[f|]|]; [| by apply hoare_ret..].
  h_bind @stepped_fs; [done |]. intros [] s2 Hs2.
  by eapply (stepped_set _ _ _ _ _ (fun y => set_ofile (<[Z.to_nat fd := None]> (ofile y)) y)).
Qed.

(** exit leaves the CPU with the lock held and the slot a zombie. *)
Definition left_as_zombie (l : SpinLock) (t : list proc) (i : Z) (s : K) : Prop := locked l = false /\ exists t' y,
  Forall2 slot_step t t' /\ t' !! Z.to_nat i = Some y /\ slot_ok y /\
  st R (held_by me) (<[Z.to_nat i := set_context InExit (set_state ZOMBIE y)]> t') cs s.

Lemma exit_sched_ok strict l t i x (s : K) :
  stepped l t s -> runs_here me R t cs i x -> can_acquire strict me l -> length t = 14%nat -> slot_ok x ->
  hoare strict (exit_sched me (R, i)) (fun _ => left_as_zombie l t i) s.
Proof.
  intros (t5 & Ht5 & Hs5) (HR & Hp & Hi & Hx & Hsch) Hh Hlen Hok.
  h_bind @acquire_sched_ok; [done.. |]. intros [] s6 [Hl Hs6]. assert (stepped (held_by me) t s6) as Hs6' by by exists t5.
  apply hoare_bind. eapply stepped_load; [done.. |]. intros y2 _. h_bind stepped_wakeup; [done.. |]. intros [] s7 Hs7.
  apply hoare_bind. pose proof Hs7 as (t7 & _ & Hs7'). eapply thiscpu_ok; [done |]. rewrite HR. apply hoare_bind.
  eapply hoare_mono; [apply (hoare_for_range _ (fun _ => stepped (held_by me) t)); [| done] |].
  { intros j s8 Hj Hs8. destruct (lookup_lt_is_Some_2 t (Z.to_nat j)) as [z Hz]; [lia |].
    apply hoare_bind. eapply stepped_load; [done | lia | done |]. intros y3 _.
    destruct (_ && _); [by eapply stepped_wakeup | by apply hoare_ret]. }
  intros [] s8 (t8 & Ht8 & Hs8). destruct (Forall2_lookup_l _ _ _ _ _ Ht8 Hx) as (y & Hy & Hxy).
  h_bind @modify_proc_ok; [done.. |]. intros [] s9 Hs9.
  eapply hoare_mono; [eapply leave_ok; [done | | done | |] |].
  - split_and!; [done.. |]. by apply Hxy.
  - by apply Hxy.
  - done.
  - intros [] s10 Hs10. split; [done |]. exists t8, y. split_and!; [done.. | by apply Hxy | done].
Qed.

Lemma exit_ok l t ctx i x (s : K) :
  st R l t cs s -> runs_here me R t cs i x -> can_acquire Loose me l -> length t = 14%nat -> slot_ok x ->
  hoare Loose (exit me ctx) (fun _ => left_as_zombie l t i) s.
Proof.
  intros Hs Hr Hh Hlen Hok. pose proof Hr as (HR & Hp & Hi & Hx & Hsch). apply hoare_bind. eapply this_proc_ok; [done.. |].
  h_bind close_files_ok; [by exists t | done.. |]. intros [] s1 Hs1. h_bind @stepped_fs; [done |]. intros [] s2 Hs2.
  apply hoare_bind. eapply stepped_load; [done.. |]. intros y1 _. h_bind @stepped_fs; [done |]. intros [] s3 Hs3.
  h_bind @stepped_fs; [done |]. intros [] s4 Hs4. h_bind stepped_set; [done.. |]. intros [] s5 Hs5.
  by eapply exit_sched_ok.
Qed.
End lifecycle.

Section waiting.
Context {P B A C : Type} (PA : PageAllocator P) (link : P -> Z -> Z) (me : Z).
Notation K := (kernel P B A C).
Context {R : Z} {cs : Z -> cpu_} {t : list proc}.

Definition child_at (q : pref) (j : Z) (z : proc) : Prop := t !! Z.to_nat j = Some z /\ parent z = Some q.

(** The first zombie child among [n] slots from [i] on, and whether there is a child. *)
Definition zombie_found (q : pref) (i : Z) (n : nat) (hk : bool) (r : option pref * bool) : Prop :=
  match r with
  | (Some p, h) => h = true /\ exists j z, p = (R, j) /\ i <= j < i + Z.of_nat n /\ child_at q j z /\ state z = ZOMBIE /\
      forall k y, i <= k < j -> child_at q k y -> state y ≠ ZOMBIE
  | (None, h) => (forall j z, i <= j < i + Z.of_nat n -> child_at q j z -> state z ≠ ZOMBIE) /\
      (h = true <-> hk = true \/ exists j z, i <= j < i + Z.of_nat n /\ child_at q j z)
  end.

Lemma zombie_skip q i n hk hk' x r :
  t !! Z.to_nat i = Some x -> (parent x = Some q -> state x ≠ ZOMBIE) ->
  (hk' = true <-> hk = true \/ parent x = Some q) ->
  zombie_found q (i + 1) n hk' r -> zombie_found q i (S n) hk r.
Proof.
  intros Hx Hz Hk. destruct r as [[p|] h]; cbn [zombie_found].
  - intros (-> & j & z & -> & Hj & Hc & Hs & Hf). split; [done |]. exists j, z. split_and!; [done | lia | lia | apply Hc.. | done |].
    intros k y Hlt Hy. destruct (decide (k = i)) as [->|]; [destruct Hy; naive_solver |]. apply (Hf k); [lia | done].
  - intros [Hno Hh]. split.
    + intros j z Hj [Hjz Hc]. destruct (decide (j = i)) as [->|]; [naive_solver |]. apply (Hno j); [lia | done].
    + rewrite Hh, Hk. split.
      * intros [[?|?]|(j & z & ? & ?)]; [by left | right; exists i, x; split; [lia | done] |].
        right. exists j, z. split; [lia | done].
      * intros [?|(j & z & Hj & [Hjz Hc])]; [by left; left |]. destruct (decide (j = i)) as [->|].
        -- left. right. by simplify_eq.
        -- right. exists j, z. split; [lia | done].
Qed.

Lemma find_zombie_ok strict l q n : forall i hk (s : K),
  st R l t cs s -> 0 <= i -> i + Z.of_nat n <= Z.of_nat (length t) ->
  hoare strict (find_zombie n R i q hk) (fun r s' => s' = s /\ zombie_found q i n hk r) s.
Proof.
  induction n as [|n IH]; intros i hk s Hs Hi Hn; cbn [find_zombie].
  { apply hoare_ret. split; [done |]. split; [intros; lia |]. naive_solver lia. }
  destruct (lookup_lt_is_Some_2 t (Z.to_nat i)) as [x Hx]; [lia |].
  apply hoare_bind. eapply load_proc_ok; [done.. |]. case_bool_decide as Hp; cbn [negb].
  - case_bool_decide as Hz.
    + apply hoare_ret. split; [done |]. split; [done |]. exists i, x. split_and!; try done; try lia.
    + eapply hoare_mono; [apply IH; [done | lia | lia] |]. intros r s' [-> Hr]. split; [done |].
      eapply zombie_skip; [done | naive_solver | | exact Hr]. naive_solver.
  - eapply hoare_mono; [apply IH; [done | lia | lia] |]. intros r s' [-> Hr]. split; [done |].
    eapply zombie_skip; [done | naive_solver | | exact Hr]. naive_solver.
Qed.

(** Reaping changes the child's slot only. *)
Definition reaped (z : proc) : proc := set_parent None (set_pid 0 (set_state UNUSED (set_killed 0 z))).

Lemma reaped_step z : state z = ZOMBIE -> slot_step z (reaped z).
Proof. intros E. split; cbn; [by rewrite E |]. intros (H & _). split_and!; by cbn. Qed.

Lemma reap_slot_ok l j z (s : K) :
  st R l t cs s -> 0 <= j -> t !! Z.to_nat j = Some z ->
  hoare Loose (reap PA link (R, j)) (fun v s' => v = pid z /\ st R l (<[Z.to_nat j := reaped z]> t) cs s') s.
Proof.
  intros Hs Hj Hz. apply hoare_bind. eapply load_proc_ok; [done.. |]. h_bind @modify_proc_ok; [done.. |]. intros [] s1 Hs1.
  do 3 (h_bind @change_ok; [done.. |]; intros [] ? ?).
  apply hoare_bind. eapply load_proc_ok; [done.. | by eapply lookup_put |]. h_bind @in_vm_ok; [done | done |].
  intros [] s5 Hs5. h_bind @in_vm_ok; [done | done |]. intros [] s6 Hs6. by apply hoare_ret.
Qed.

Lemma wait_round_ok i x (s : K) :
  st R (held_by me) t cs s -> runs_here me R t cs i x -> length t = 14%nat ->
  hoare Loose (wait_round PA link me) (fun r s' =>
    match r with
    | Some _ => stepped (R := R) (cs := cs) init_spinlock t s'
    | None => st R (held_by me) (<[Z.to_nat i := asleep (ProcChan (R, i)) None x]> t) cs s'
    end) s.
Proof.
  intros Hs Hr Hlen. pose proof Hr as (HR & Hp & Hi & Hx & Hsch). apply hoare_bind. eapply thiscpu_ok; [done |].
  apply hoare_bind. eapply this_proc_ok; [done.. |]. rewrite HR.
  apply hoare_bind. eapply hoare_mono; [eapply find_zombie_ok; [done | lia | lia] |]. intros [[p|] hk] s' [-> Hz].
  - destruct Hz as (_ & j & z & -> & Hj & [Hjz _] & Hst & _). h_bind reap_slot_ok; [done | lia | done |]. intros v s1 [-> Hs1].
    h_bind @release_sched_ok; [done.. |]. intros [] s2 Hs2. apply hoare_ret. eexists. split; [| done].
    eapply table_set; [done |]. by apply reaped_step.
  - apply hoare_bind. eapply load_proc_ok; [done.. |]. destruct (_ || _).
    + h_bind @release_sched_ok; [done.. |]. intros [] s2 Hs2. apply hoare_ret. by exists t.
    + h_bind @sleep_table_ok; [done.. |]. intros [] s2 Hs2. by apply hoare_ret.
Qed.

(** ** Code that returns, when the memory of a dead child can be freed *)

Lemma modify_proc_vm p f (s : K) : hoare Loose (modify_proc p f) (fun _ s' => k_vm s' = k_vm s) s.
Proof.
  unfold hoare, modify_proc, load_proc, store_proc, load_cont, store_cont, mbind, M_bind, get. cbn.
  destruct (procs (k_conts s p.1) !! Z.to_nat p.2) as [x|]; [| done]. by destruct (0 <=? p.2).
Qed.

(** The page table and the kernel stack of [z] can be given back. *)
Definition frees (v : vmem P) (z : proc) : Prop :=
  exists v', (my_vm_free PA link (pgdir z);; vm_kfree PA link (kstack z)) v = Ret (tt, v').

Lemma change_vm l j z y f v (s : K) :
  st R l (<[Z.to_nat j := y]> t) cs s -> k_vm s = v -> 0 <= j -> t !! Z.to_nat j = Some z ->
  hoare Total (modify_proc (R, j) f) (fun _ s' => st R l (<[Z.to_nat j := f y]> t) cs s' /\ k_vm s' = v) s.
Proof.
  intros Hs Hv Hj Hz. eapply hoare_mono; [apply hoare_and; [by eapply change_ok | apply modify_proc_vm] |].
  intros [] s' [Hs' Hv']. split; [done | congruence].
Qed.

Lemma reap_returns l j z (s : K) :
  st R l t cs s -> 0 <= j -> t !! Z.to_nat j = Some z -> frees (k_vm s) z ->
  hoare Total (reap PA link (R, j)) (fun _ s' => st R l (<[Z.to_nat j := reaped z]> t) cs s') s.
Proof.
  intros Hs Hj Hz [v' Hfree]. eapply hoare_mono; [apply (hoare_and Total _ (fun _ _ => True)); [| by eapply reap_slot_ok] |].
  2: { cbv beta. intros v s' [H1 [_ H2]]. exact H2. }
  apply hoare_bind. eapply load_proc_ok; [done.. |]. rewrite <- (list_insert_id t _ _ Hz) in Hs.
  h_bind change_vm; [done.. |]. intros [] s1 [Hs1 V1]. h_bind change_vm; [done.. |]. intros [] s2 [Hs2 V2].
  h_bind change_vm; [done.. |]. intros [] s3 [Hs3 V3]. h_bind change_vm; [done.. |]. intros [] s4 [Hs4 V4].
  apply hoare_bind. eapply load_proc_ok; [done.. | by eapply lookup_put |]. cbn [pgdir kstack set_parent set_pid set_state set_killed].
  unfold mbind, M_bind in Hfree. unfold hoare, in_vm, inside, mbind, M_bind. rewrite V4.
  destruct (my_vm_free PA link (pgdir z) (k_vm s)) as [[[] v1]| | | |]; try done. cbn in Hfree |- *. by rewrite Hfree.
Qed.

Lemma wait_round_returns i x (s : K) :
  st R (held_by me) t cs s -> runs_here me R t cs i x -> length t = 14%nat ->
  (forall j z, child_at (R, i) j z -> state z = ZOMBIE -> frees (k_vm s) z) ->
  hoare Total (wait_round PA link me) (fun _ _ => True) s.
Proof.
  intros Hs Hr Hlen Hf. pose proof Hr as (HR & Hp & Hi & Hx & Hsch). apply hoare_bind. eapply thiscpu_ok; [done |].
  apply hoare_bind. eapply this_proc_ok; [done.. |]. rewrite HR.
  apply hoare_bind. eapply hoare_mono; [eapply find_zombie_ok; [done | lia | lia] |]. intros [[p|] hk] s' [-> Hz].
  - destruct Hz as (_ & j & z & -> & Hj & Hc & Hst & _). h_bind reap_returns; [done | lia | apply Hc | by eapply Hf |].
    intros v s1 Hs1. h_bind @release_sched_ok; [done.. |]. intros [] s2 Hs2. by apply hoare_ret.
  - apply hoare_bind. eapply load_proc_ok; [done.. |]. destruct (_ || _).
    + h_bind @release_sched_ok; [done.. |]. intros [] s2 Hs2. by apply hoare_ret.
    + h_bind @sleep_table_ok; [done.. |]. intros [] s2 Hs2. by apply hoare_ret.
Qed.

Lemma wait_returns strict l i x (s : K) :
  st R l t cs s -> runs_here me R t cs i x -> can_acquire strict me l -> length t = 14%nat ->
  (forall j z, child_at (R, i) j z -> state z = ZOMBIE -> frees (k_vm s) z) ->
  hoare strict (wait PA link me) (fun _ _ => locked l = false /\ True) s.
Proof.
  intros Hs Hr Hh Hlen Hf. pose proof Hr as (HR & _). apply hoare_bind.
  eapply hoare_mono; [apply hoare_and; [by apply acquire_sched_ok | apply acquire_sched_frame] |].
  intros [] s1 [[Hl Hs1] [_ Hv]]. eapply hoare_mono; [apply hoare_any; eapply wait_round_returns; [done.. |] |]; [by rewrite Hv |]. auto.
Qed.

Lemma sleep_awake_vm i x (s : K) :
  st R (held_by me) t cs s -> runs_here me R t cs i x ->
  hoare Total (sleep_awake me) (fun _ s' => st R (held_by me) (<[Z.to_nat i := set_chan NullChan x]> t) cs s' /\ k_vm s' = k_vm s) s.
Proof.
  intros Hs (HR & Hp & Hi & Hx & Hsch). apply hoare_bind. eapply this_proc_ok; [done.. |].
  apply hoare_and; [by apply modify_proc_ok | apply modify_proc_vm].
Qed.
End waiting.

Section forking.
Context {P B A C : Type} (PA : PageAllocator P) (link : P -> Z -> Z) (me : Z) (depth : nat).
Context {sb : SuperBlock} `{BC : BlockCache sb B} `{OA : ObjectArena A} `{OC : ObjectArena C}.
Notation K := (kernel P B A C).
Context {R : Z} {cs : Z -> cpu_} {t : list proc}.

(** A store into a container that keeps its table and the lock of it. *)
Lemma store_keep_ok l t' a c (s : K) :
  st R l t' cs s -> ptable_lock c = ptable_lock (k_conts s a) -> procs c = procs (k_conts s a) ->
  hoare Loose (store_cont a c) (fun _ => st R l t' cs) s.
Proof.
  intros (HR & Hl & Ht & Hc) H1 H2. apply store_cont_ok.
  split_and!; cbn; [done | | | done]; unfold upd_at; destruct (Z.eqb_spec R a) as [<-|]; congruence.
Qed.

Lemma lift_ok {X} (o : outcome X) Q (s : K) : (forall a, Q a s) -> hoare Loose (lift o) Q s.
Proof. intros HQ. unfold hoare, lift, mbind, outcome_bind. destruct o; auto. Qed.

Lemma alloc_resource_ok p r l t' : forall d a (s : K),
  st R l t' cs s -> hoare Loose (alloc_resource me d a p r) (fun _ => st R l t' cs) s.
Proof.
  induction d as [|d IH]; intros a s Hs; [done |]. cbn [alloc_resource].
  apply hoare_bind, load_cont_ok, hoare_bind, lift_ok. intros lk. h_bind store_keep_ok; [done.. |]. intros [] s1 Hs1.
  apply hoare_bind, (hoare_mono _ _ (fun _ => st R l t' cs)).
  - destruct r; [by apply hoare_ret | | by apply hoare_ret]. apply hoare_bind, load_cont_ok.
    destruct (_ =? _); [by apply hoare_ret |]. h_bind store_keep_ok; [done.. |]. intros [] s2 Hs2.
    apply hoare_bind, hoare_bind, load_cont_ok. destruct (_ && _); [| done].
    eapply hoare_mono; [by apply store_keep_ok |]. intros [] s3 Hs3. by apply hoare_ret.
  - intros [v|] s2 Hs2; [by apply hoare_ret |]. apply hoare_bind, load_cont_ok, hoare_bind, lift_ok. intros lk'.
    h_bind store_keep_ok; [done.. |]. intros [] s3 Hs3. apply hoare_bind. eapply get_root_ok; [done |]. intros _.
    apply hoare_bind. destruct (negb _).
    + eapply hoare_mono; [by apply IH |]. intros v s4 Hs4. by apply hoare_ret.
    + by apply hoare_ret, hoare_ret.
Qed.

(** A slot that is being set up. *)
Definition embryo (y : proc) : Prop := state y = EMBRYO /\ is_scheduler y = false.

Lemma alloc_pcb_ok l (s : K) :
  st R l t cs s -> scheduler (cs me) = R -> can_acquire Loose me l -> length t = 14%nat -> Forall slot_ok t ->
  hoare Loose (alloc_pcb me depth) (fun r s' => locked l = false /\
    match r with
    | None => st R init_spinlock t cs s'
    | Some p => exists j x y, p = (R, j) /\ 0 <= j /\ t !! Z.to_nat j = Some x /\ state x = UNUSED /\ embryo y /\
        st R init_spinlock (<[Z.to_nat j := y]> t) cs s'
    end) s.
Proof.
  intros Hs HR Hh Hlen Hok. apply hoare_bind. eapply thiscpu_ok; [done |]. rewrite HR. apply hoare_bind.
  destruct (negb (R =? 0)); [apply hoare_ret | done]. h_bind @acquire_ptable_ok; [done.. |]. intros [] s1 [Hl Hs1].
  apply hoare_bind. eapply (hoare_for_until _ (fun _ => st R (held_by me) t cs)
    (fun r s' => hoare Loose _ _ s')); [| | done].
  - intros j s2 Hj Hs2. destruct (lookup_lt_is_Some_2 t (Z.to_nat j)) as [x Hx]; [lia |].
    apply hoare_bind. eapply load_proc_ok; [done | lia | done |]. case_bool_decide as Hu; apply hoare_ret; [| done].
    h_bind alloc_resource_ok; [done |]. intros v s3 Hs3. apply hoare_bind, load_cont_ok.
    h_bind @modify_proc_ok; [done | lia | done |]. intros [] s4 Hs4. h_bind @change_ok; [done | lia | done |]. intros [] s5 Hs5.
    h_bind @release_ptable_ok; [done.. |]. intros [] s6 Hs6. apply hoare_ret. split; [done |].
    exists j, x. eexists. split_and!; [done | lia | done | done | | exact Hs6].
    split; [done |]. cbn. by apply (Forall_lookup_1 _ _ _ _ Hok Hx).
  - intros s2 Hs2. h_bind @release_ptable_ok; [done.. |]. intros [] s3 Hs3. by apply hoare_ret.
Qed.

Lemma alloc_proc_ok l (s : K) :
  st R l t cs s -> scheduler (cs me) = R -> can_acquire Loose me l -> length t = 14%nat -> Forall slot_ok t ->
  hoare Loose (alloc_proc PA me depth) (fun p s' => locked l = false /\
    exists j x y, p = (R, j) /\ 0 <= j /\ t !! Z.to_nat j = Some x /\ state x = UNUSED /\ embryo y /\ context y = Forkret /\
      st R init_spinlock (<[Z.to_nat j := y]> t) cs s') s.
Proof.
  intros Hs HR Hh Hlen Hok. h_bind alloc_pcb_ok; [done.. |]. intros [p|] s1 [Hl Hr]; [| done].
  destruct Hr as (j & x & y & -> & Hj & Hx & Hu & [Hy1 Hy2] & Hs1).
  h_bind @in_vm_ok; [done | done |]. intros d s2 Hs2. h_bind @change_ok; [done.. |]. intros [] s3 Hs3.
  h_bind @in_vm_ok; [done | done |]. intros sp s4 Hs4. apply hoare_bind.
  destruct (sp =? 0); [done |]. apply hoare_ret. h_bind @change_ok; [done.. |]. intros [] s5 Hs5.
  h_bind @change_ok; [done.. |]. intros [] s6 Hs6. h_bind @change_ok; [done.. |]. intros [] s7 Hs7.
  apply hoare_ret. split; [done |]. exists j, x. eexists. by split_and!; [done.. | | | exact Hs7].
Qed.

(** The child [j] of the process in slot [i], as far as the scheduler is concerned. *)
Definition child_slot (j : Z) (s : K) : Prop :=
  exists y, embryo y /\ context y = Forkret /\ st R init_spinlock (<[Z.to_nat j := y]> t) cs s.

Lemma child_set j x f (s : K) :
  child_slot j s -> 0 <= j -> t !! Z.to_nat j = Some x ->
  (forall y, state (f y) = state y /\ is_scheduler (f y) = is_scheduler y /\ context (f y) = context y) ->
  hoare Loose (modify_proc (R, j) f) (fun _ => child_slot j) s.
Proof.
  intros (y & [H1 H2] & H3 & Hs) Hj Hx Hf. eapply hoare_mono; [by eapply change_ok |]. intros [] s' Hs'.
  exists (f y). destruct (Hf y) as (E1 & E2 & E3). split_and!; [| | done]; [split|]; congruence.
Qed.

Lemma child_in {T X} (part : K -> T) upd (c : M T X) j (s : K) :
  (forall l t' v s, st R l t' cs s -> st R l t' cs (upd v s)) ->
  child_slot j s -> hoare Loose (inside part upd c) (fun _ => child_slot j) s.
Proof.
  intros Hu (y & H1 & H2 & Hs). eapply hoare_mono; [by apply inside_ok; [| auto |] |].
  intros a s' Hs'. by exists y.
Qed.

Lemma child_load j i x (s : K) Q :
  child_slot j s -> 0 <= i -> Z.to_nat j ≠ Z.to_nat i -> t !! Z.to_nat i = Some x -> Q x s ->
  hoare Loose (load_proc (R, i)) Q s.
Proof.
  intros (y & _ & _ & Hs) Hi Hne Hx HQ. eapply load_proc_ok; [done.. | by rewrite list_lookup_insert_ne | done].
Qed.

Lemma child_load_own j x (s : K) Q :
  child_slot j s -> 0 <= j -> t !! Z.to_nat j = Some x -> (forall y, Q y s) -> hoare Loose (load_proc (R, j)) Q s.
Proof. intros (y & _ & _ & Hs) Hj Hx HQ. eapply load_proc_ok; [done.. | by eapply lookup_put | done]. Qed.

Lemma child_done j x v (s : K) :
  child_slot j s -> 0 <= j -> t !! Z.to_nat j = Some x -> state x = UNUSED -> v = RUNNABLE \/ v = UNUSED ->
  hoare Loose (modify_proc (R, j) (set_state v)) (fun _ => stepped (R := R) (cs := cs) init_spinlock t) s.
Proof.
  intros (y & [H1 H2] & H3 & Hs) Hj Hx Hu Hv. eapply hoare_mono; [by eapply change_ok |]. intros [] s' Hs'.
  eexists. split; [| done]. eapply table_set; [done |]. split; cbn.
  - rewrite Hu. destruct Hv as [-> | ->]; done.
  - intros _. split_and!; cbn; [done | by rewrite H3 | by destruct Hv as [-> | ->]].
Qed.

Lemma fork_ok l i x (s : K) :
  st R l t cs s -> runs_here me R t cs i x -> can_acquire Loose me l -> length t = 14%nat -> Forall slot_ok t ->
  state x = RUNNING ->
  hoare Loose (fork PA link me depth) (fun _ s' => locked l = false /\ stepped (R := R) (cs := cs) init_spinlock t s') s.
Proof.
  intros Hs (HR & Hp & Hi & Hx & Hsch) Hh Hlen Hok Hrun. h_bind alloc_proc_ok; [done.. |].
  intros p s1 (Hl & j & z & y & -> & Hj & Hz & Hu & Hy & Hf & Hs1).
  assert (Z.to_nat j ≠ Z.to_nat i) as Hji by (intros E; rewrite E in Hz; congruence).
  apply hoare_bind. eapply this_proc_ok; [done.. |]. assert (child_slot j s1) as H1 by by exists y.
  apply hoare_bind. eapply child_load; [done.. |]. h_bind @child_in; [done.. |]. intros d s2 H2.
  h_bind child_set; [done.. |]. intros [] s3 H3. destruct (d =? 0).
  { apply hoare_bind. eapply child_load_own; [done.. |]. intros w. h_bind @child_in; [done.. |]. intros [] s4 H4.
    h_bind child_set; [done.. |]. intros [] s5 H5. h_bind child_done; [done.. | by right |]. intros [] s6 H6.
    by apply hoare_ret. }
  do 4 (h_bind child_set; [done.. |]; intros [] ? ?). apply hoare_bind.
  eapply hoare_mono; [apply (hoare_for_range _ (fun _ => child_slot j)); [| done] |].
  { intros fd s8 _ H8. apply hoare_bind. eapply child_load; [done.. |].
    destruct (ofile x !! Z.to_nat fd) as [[f|]|]; [| by apply hoare_ret..].
    h_bind @child_in; [done.. |]. intros f' s9 H9.
    by eapply (child_set _ _ (fun y => set_ofile (<[Z.to_nat fd := Some f']> (ofile y)) y)). }
  intros [] s8 H8. apply hoare_bind. eapply child_load; [done.. |]. h_bind @child_in; [done.. |]. intros ip s9 H9.
  h_bind child_set; [done.. |]. intros [] s10 H10. h_bind child_done; [done.. | by left |]. intros [] s11 H11.
  apply hoare_bind. eapply stepped_load; [done.. |]. intros w _. by apply hoare_ret.
Qed.
End forking.

Section resuming.
Context {P B A C : Type} (PA : PageAllocator P) (link : P -> Z -> Z) (me : Z).
Context {sb : SuperBlock} `{BC : BlockCache sb B} `{OA : ObjectArena A}.
Notation K := (kernel P B A C).
Context {R : Z} {cs : Z -> cpu_} {t : list proc} (i : Z) (x : proc).

(** The outcome of a call of wait by slot [i]. *)
Definition waited (r : option Z) (s : K) : Prop :=
  exists t', Forall2 slot_step t t' /\
    match r with
    | Some _ => st R init_spinlock t' cs s
    | None => exists y, t' !! Z.to_nat i = Some y /\ slot_ok y /\
        st R (held_by me) (<[Z.to_nat i := asleep (ProcChan (R, i)) None y]> t') cs s
    end.

Lemma wait_ok l (s : K) :
  st R l t cs s -> runs_here me R t cs i x -> can_acquire Loose me l -> length t = 14%nat -> slot_ok x ->
  hoare Loose (wait PA link me) (fun r s' => locked l = false /\ waited r s') s.
Proof.
  intros Hs Hr Hh Hlen Hok. pose proof Hr as (HR & _ & _ & Hx & _). h_bind @acquire_sched_ok; [done.. |].
  intros [] s1 [Hl Hs1]. eapply hoare_mono; [by eapply wait_round_ok |]. intros [v|] s2 H; split; [done | | done |].
  - destruct H as (t' & Ht & Hs'). by exists t'.
  - exists t. split; [done |]. by exists x.
Qed.

Lemma wait_back_ok (s : K) :
  st R (held_by me) t cs s -> runs_here me R t cs i x -> length t = 14%nat -> slot_ok x ->
  hoare Loose (wait_back PA link me) waited s.
Proof.
  intros Hs Hr Hlen Hok. pose proof Hr as (HR & Hp & Hi & Hx & Hsch). apply hoare_bind.
  h_bind @sleep_awake_ok; [done.. |]. intros [] s1 Hs1. apply hoare_ret.
  assert (Forall2 slot_step t (<[Z.to_nat i := set_chan NullChan x]> t)) as Ht1 by by eapply table_set.
  eapply hoare_mono; [eapply (wait_round_ok PA link me i (set_chan NullChan x)); [done | | by rewrite length_insert] |].
  - split_and!; [done.. | by eapply lookup_put | done].
  - intros [v|] s2 H.
    + destruct H as (t' & Ht & Hs'). exists t'. split; [by etrans | done].
    + eexists. split; [exact Ht1 |]. eexists. split_and!; [by eapply lookup_put | done | done].
Qed.

Lemma wait_back_returns (s : K) :
  st R (held_by me) t cs s -> runs_here me R t cs i x -> length t = 14%nat -> state x = RUNNING ->
  (forall j z, child_at (t := t) (R, i) j z -> state z = ZOMBIE -> frees PA link (k_vm s) z) ->
  hoare Total (wait_back PA link me) (fun _ _ => True) s.
Proof.
  intros Hs Hr Hlen Hrun Hf. pose proof Hr as (HR & Hp & Hi & Hx & Hsch). apply hoare_bind.
  h_bind @sleep_awake_vm; [done.. |]. intros [] s1 [Hs1 Hv]. apply hoare_ret.
  eapply (wait_round_returns PA link me i (set_chan NullChan x)); [done | | by rewrite length_insert |].
  - split_and!; [done.. | by eapply lookup_put | done].
  - rewrite Hv. intros j z [Hz Hpz] Hst. apply (Hf j); [| done]. split; [| done].
    destruct (decide (Z.to_nat j = Z.to_nat i)) as [E|E].
    + rewrite E, (lookup_put _ _ x) in Hz by done. simplify_eq. cbn in Hst. congruence.
    + by rewrite list_lookup_insert_ne in Hz.
Qed.

(** A new process gives the lock back, and then starts at once if another one has
    initialised the file system. *)
Lemma forkret_returns (s : K) :
  st R (held_by me) t cs s -> runs_here me R t cs i x ->
  exists s1, release_sched_lock me s = Ret (tt, s1) /\ st R init_spinlock t cs s1 /\
    (k_flag s = true -> forall f junk name ctx, forkret me f junk name ctx s = Ret (tt, set_k_flag true s1)).
Proof.
  intros Hs (HR & _).
  destruct (hoare_total (release_sched_lock me) (fun _ s' => st R init_spinlock t cs s' /\ k_flag s' = k_flag s) s)
    as ([] & s1 & E & Hs1 & Hfl).
  { apply hoare_and; [by eapply release_sched_ok | apply release_sched_flag]. }
  exists s1. split_and!; [done | done |]. intros Ht f junk name ctx. unfold forkret, mbind, M_bind, get, modify.
  rewrite E, Hfl, Ht. reflexivity.
Qed.

Lemma forkret_ok f junk name ctx (s : K) :
  st R (held_by me) t cs s -> runs_here me R t cs i x ->
  hoare Loose (forkret me (in_fs f) junk name ctx) (fun _ => stepped (R := R) (cs := cs) init_spinlock t) s.
Proof.
  intros Hs (HR & Hp & Hi & Hx & Hsch). h_bind @release_sched_ok; [done.. |]. intros [] s1 Hs1.
  apply hoare_bind. eapply get_root_ok; [done |]. intros _. apply hoare_bind.
  assert (stepped (R := R) (cs := cs) init_spinlock t (set_k_flag true s1)) as Hs2 by by exists t.
  unfold hoare at 1. cbn. destruct (negb (k_flag s1)); [| by apply hoare_ret].
  h_bind @stepped_fs; [done |]. intros [] s3 Hs3. h_bind @stepped_fs; [done |]. intros [] s4 Hs4.
  pose proof Hs4 as (t4 & _ & Hs4'). apply hoare_bind. eapply this_proc_ok; [done.. |].
  apply hoare_bind. eapply stepped_load; [done.. |]. intros y _. h_bind @stepped_fs; [done |]. intros ip s5 Hs5.
  h_bind @stepped_set; [done.. |]. intros [] s6 Hs6. by apply stepped_fs.
Qed.
End resuming.
