(* ===== verification/SchedTheorems.v ===== *)
(** The machine of four CPUs that run the scheduler of the root container and the
    processes of its table: a step relation, an invariant of it by rule induction,
    and the theorems that a process never runs on two CPUs and that the code of the
    scheduler never fails.

    A step is what a CPU does from one point where it has, or does not have, the
    lock of the process table to the next one; steps of different CPUs interleave.
    The containers other than the root are not part of the machine ([main] does not
    create one). *)
From S2P Require Import Prelude Bytes CString Locks PhysMem Arena VirtualMemory FsDefs BlockCache Path Inode File Process Sched Proc SchedSpec Cache CacheTheorems InodeTheorems VmTheorems FileTheorems.

(** What a CPU is doing:
    - [Idle]: between two rounds of the loop of scheduler_simple;
    - [EndRound]: after the last slot of a round;
    - [Switched i r]: it has switched to the thread of slot [i], which continues at
      [r] with the lock held;
    - [Running i]: it runs the process in slot [i] without the lock;
    - [Locking i a]: the same, in [sleep] about to take its lock [a] again;
    - [Left i]: the process in slot [i] has left the CPU, the scheduler continues. *)
Inductive activity := Idle | EndRound | Switched (i : Z) (r : resume) | Running (i : Z) | Locking (i a : Z) | Left (i : Z).

Definition occupies (a : activity) : option Z :=
  match a with Switched i _ | Running i | Locking i _ => Some i | Idle | EndRound | Left _ => None end.
Definition critical (a : activity) : bool :=
  match a with EndRound | Switched _ _ | Left _ => true | Idle | Running _ | Locking _ _ => false end.

Definition is_cpu (c : Z) : Prop := 0 <= c < NCPU.

Record machine (P B A C : Type) := mkMachine { ks : kernel P B A C; doing : Z -> activity }.
Arguments mkMachine {P B A C}.
Arguments ks {P B A C}.
Arguments doing {P B A C}.

(** * The invariant *)

(** The lock is held by the CPU that is in a critical section, if there is one. *)
Definition lock_ok (l : SpinLock) (d : Z -> activity) : Prop :=
  (forall c, is_cpu c -> critical (d c) = true -> l = held_by c) /\
  (locked l = true -> exists c, is_cpu c /\ l = held_by c /\ critical (d c) = true).

Record table_ok (R : Z) (t : list proc) (cs : Z -> cpu_) (d : Z -> activity) : Prop := {
  to_length : length t = 14%nat;
  to_slots : Forall slot_ok t;
  to_scheduler : forall c, is_cpu c -> scheduler (cs c) = R;
  to_occupied : forall c i, is_cpu c -> occupies (d c) = Some i ->
    cproc (cs c) = Some (R, i) /\ 0 <= i /\ exists x, t !! Z.to_nat i = Some x /\ state x = RUNNING;
  to_running : forall i x, t !! i = Some x -> state x = RUNNING -> exists c, is_cpu c /\ occupies (d c) = Some (Z.of_nat i);
  to_alone : forall c c' i, is_cpu c -> is_cpu c' -> occupies (d c) = Some i -> occupies (d c') = Some i -> c = c';
  to_resumable : forall c i r, is_cpu c -> d c = Switched i r -> resumable r;
  to_left : forall c i, is_cpu c -> d c = Left i -> 0 <= i < 14
}.

Lemma held_by_inj c c' : held_by c = held_by c' -> c = c'.
Proof. by injection 1. Qed.

Section lock.
Context (l : SpinLock) (d : Z -> activity) (c : Z) (a : activity).

Lemma lock_take : lock_ok l d -> is_cpu c -> locked l = false -> critical a = true -> lock_ok (held_by c) (upd_at d c a).
Proof.
  intros [H1 H2] Hc Hl Ha. split.
  - intros c' Hc'. destruct (decide (c' = c)) as [->|]; [done |]. rewrite upd_at_ne by done. intros E%H1; [| done].
    by rewrite E in Hl.
  - intros _. exists c. by rewrite upd_at_eq.
Qed.

Lemma lock_release : lock_ok (held_by c) d -> critical a = false -> lock_ok init_spinlock (upd_at d c a).
Proof.
  intros [H1 H2] Ha. split; [| done]. intros c' Hc'. destruct (decide (c' = c)) as [->|]; [by rewrite upd_at_eq, Ha |].
  rewrite upd_at_ne by done. intros E%H1; [| done]. by apply held_by_inj in E.
Qed.

Lemma lock_hold : lock_ok l d -> is_cpu c -> critical (d c) = true -> critical a = true -> lock_ok l (upd_at d c a).
Proof.
  intros [H1 H2] Hc Hd Ha. pose proof (H1 c Hc Hd) as ->. split.
  - intros c' Hc'. destruct (decide (c' = c)) as [->|]; [done |]. rewrite upd_at_ne by done. by apply H1.
  - intros _. exists c. by rewrite upd_at_eq.
Qed.

Lemma lock_stay : lock_ok l d -> critical (d c) = false -> critical a = false -> lock_ok l (upd_at d c a).
Proof.
  intros [H1 H2] Hd Ha. split.
  - intros c' Hc'. destruct (decide (c' = c)) as [->|]; [by rewrite upd_at_eq, Ha |]. rewrite upd_at_ne by done. by apply H1.
  - intros (c' & Hc' & E & Hc)%H2. exists c'. split_and!; [done.. |]. rewrite upd_at_ne; [done | by intros ->; rewrite Hd in Hc].
Qed.

(** Taken and given back within the step. *)
Lemma lock_pass : lock_ok l d -> locked l = false -> critical a = false -> lock_ok init_spinlock (upd_at d c a).
Proof.
  intros [H1 H2] Hl Ha. split; [| done]. intros c' Hc'. destruct (decide (c' = c)) as [->|]; [by rewrite upd_at_eq, Ha |].
  rewrite upd_at_ne by done. intros E%H1; [| done]. by rewrite E in Hl.
Qed.

Lemma lock_free : lock_ok l d -> critical (d c) = false -> holding_spinlock c l = false.
Proof.
  intros [H1 H2] Hd. apply not_true_iff_false. unfold holding_spinlock. intros [Hl E%bool_decide_eq_true]%andb_prop.
  destruct (H2 Hl) as (c' & Hc' & -> & Hc). cbn in E. simplify_eq. by rewrite Hd in Hc.
Qed.
End lock.

Section table.
Context (R : Z) (t : list proc) (cs : Z -> cpu_) (d : Z -> activity) (c : Z).
Context (Hok : table_ok R t cs d) (Hc : is_cpu c).

Definition activity_ok (a : activity) : Prop :=
  match a with Switched _ r => resumable r | Left i => 0 <= i < 14 | _ => True end.

Lemma occupied_here i : occupies (d c) = Some i -> exists x, runs_here c R t cs i x /\ state x = RUNNING /\ slot_ok x.
Proof.
  intros Ho. destruct (to_occupied _ _ _ _ Hok c i Hc Ho) as (Hp & Hi & x & Hx & Hr).
  pose proof (Forall_lookup_1 _ _ _ _ (to_slots _ _ _ _ Hok) Hx) as Hs. exists x. split_and!; [| done | apply Hs..].
  split_and!; [by apply (to_scheduler _ _ _ _ Hok) | done.. | apply Hs].
Qed.

Lemma occupied_bound i : occupies (d c) = Some i -> 0 <= i < 14.
Proof.
  intros (_ & Hi & x & Hx%lookup_lt_Some & _)%(to_occupied _ _ _ _ Hok c i Hc).
  rewrite (to_length _ _ _ _ Hok) in Hx. lia.
Qed.

Lemma upd_ok a c' b : is_cpu c' -> upd_at d c a c' = b -> activity_ok a -> (c' = c -> b = a) -> (forall i r, b = Switched i r -> resumable r) /\ (forall i, b = Left i -> 0 <= i < 14).
Proof.
  intros Hc' E Ha Hb. destruct (decide (c' = c)) as [->|].
  - rewrite (Hb eq_refl). by split; intros; subst a.
  - rewrite upd_at_ne in E by done. subst b. split; [intros i r; by apply (to_resumable _ _ _ _ Hok) | intros i; by apply (to_left _ _ _ _ Hok)].
Qed.

Lemma table_activity : activity_ok (d c).
Proof.
  destruct (d c) eqn:E; cbn; try done; [by eapply (to_resumable _ _ _ _ Hok) | by eapply (to_left _ _ _ _ Hok)].
Qed.

Lemma table_ext d' : (forall c', d' c' = d c') -> table_ok R t cs d -> table_ok R t cs d'.
Proof.
  clear Hok Hc. intros E [H1 H2 H3 H4 H5 H6 H7 H8]. split; [done | done | done | | | | |].
  - intros c' i. rewrite E. apply H4.
  - intros i x Hx Hr. destruct (H5 i x Hx Hr) as (c' & Hc' & Ho). exists c'. by rewrite E.
  - intros c1 c2 i. rewrite !E. apply H6.
  - intros c' i r. rewrite E. apply H7.
  - intros c' i. rewrite E. apply H8.
Qed.

(** A step after which the same processes run on the same CPUs. *)
Lemma table_keep t' cs' a :
  Forall2 slot_step t t' -> occupies a = occupies (d c) -> activity_ok a ->
  (forall c', is_cpu c' -> scheduler (cs' c') = R) ->
  (forall c' i, is_cpu c' -> occupies (d c') = Some i -> cproc (cs' c') = cproc (cs c')) ->
  table_ok R t' cs' (upd_at d c a).
Proof.
  intros Ht Ha Hao Hs Hp. assert (forall c', occupies (upd_at d c a c') = occupies (d c')) as Ho.
  { intros c'. unfold upd_at. by destruct (Z.eqb_spec c' c) as [->|]. }
  split.
  - by rewrite <- (Forall2_length _ _ _ Ht), (to_length _ _ _ _ Hok).
  - apply Forall_lookup. intros i y Hy. destruct (Forall2_lookup_r _ _ _ _ _ Ht Hy) as (x & Hx & Hxy).
    apply Hxy. by eapply Forall_lookup_1; [apply (to_slots _ _ _ _ Hok) |].
  - done.
  - intros c' i Hc'. rewrite Ho. intros E. destruct (to_occupied _ _ _ _ Hok c' i Hc' E) as (H1 & H2 & x & Hx & Hr).
    split_and!; [by rewrite (Hp c' i) | done |]. destruct (Forall2_lookup_l _ _ _ _ _ Ht Hx) as (y & Hy & Hxy).
    exists y. split; [done | by apply Hxy].
  - intros i y Hy Hr. destruct (Forall2_lookup_r _ _ _ _ _ Ht Hy) as (x & Hx & Hxy).
    destruct (to_running _ _ _ _ Hok i x Hx) as (c' & Hc' & E); [by apply Hxy |]. exists c'. by rewrite Ho.
  - intros c1 c2 i. rewrite !Ho. apply (to_alone _ _ _ _ Hok).
  - intros c' i r Hc' E. eapply (upd_ok a c'); [done | exact E | done | by intros ->; rewrite <- E, upd_at_eq | done].
  - intros c' i Hc' E. eapply (upd_ok a c'); [done | exact E | done | by intros ->; rewrite <- E, upd_at_eq | done].
Qed.

(** The process in slot [i] leaves the CPU. *)
Lemma table_leave i y :
  occupies (d c) = Some i -> slot_ok y -> state y ≠ RUNNING ->
  table_ok R (<[Z.to_nat i := y]> t) cs (upd_at d c (Left i)).
Proof.
  intros Ho Hy Hr. pose proof (occupied_bound i Ho) as Hi.
  assert (forall c' j, is_cpu c' -> occupies (upd_at d c (Left i) c') = Some j -> occupies (d c') = Some j /\ c' ≠ c /\ j ≠ i) as Hother.
  { intros c' j Hc'. destruct (decide (c' = c)) as [->|Hne]; [by rewrite upd_at_eq |]. rewrite upd_at_ne by done.
    intros Hj. split_and!; [done.. |]. intros ->. by apply Hne, (to_alone _ _ _ _ Hok c' c i). }
  split.
  - rewrite length_insert. apply Hok.
  - apply Forall_insert; [apply Hok | done].
  - apply Hok.
  - intros c' j Hc' (E & Hne & Hji)%Hother; [| done]. destruct (to_occupied _ _ _ _ Hok c' j Hc' E) as (H1 & H2 & x & Hx & Hx').
    split_and!; [done.. |]. exists x. by rewrite list_lookup_insert_ne by lia.
  - intros j x Hx Hx'. destruct (decide (j = Z.to_nat i)) as [->|Hne].
    { rewrite list_lookup_insert_eq in Hx by (rewrite (to_length _ _ _ _ Hok); lia). by simplify_eq. }
    rewrite list_lookup_insert_ne in Hx by done. destruct (to_running _ _ _ _ Hok j x Hx Hx') as (c' & Hc' & E).
    exists c'. split; [done |]. rewrite upd_at_ne; [done |]. intros ->. rewrite Ho in E. simplify_eq. lia.
  - intros c1 c2 j H1 H2 (E1 & _)%Hother (E2 & _)%Hother; [| done..]. by apply (to_alone _ _ _ _ Hok c1 c2 j).
  - intros c' j r Hc' E. eapply (upd_ok (Left i) c'); [done | exact E | done | by intros ->; rewrite <- E, upd_at_eq | done].
  - intros c' j Hc' E. eapply (upd_ok (Left i) c'); [done | exact E | done | by intros ->; rewrite <- E, upd_at_eq | done].
Qed.

(** The scheduler of CPU [c] chooses slot [j]. *)
Lemma table_pick j x v :
  occupies (d c) = None -> 0 <= j -> t !! Z.to_nat j = Some x -> state x = RUNNABLE ->
  table_ok R (<[Z.to_nat j := set_state RUNNING x]> t) (upd_at cs c (mkCpu R (Some (R, j)) v)) (upd_at d c (Switched j (context x))).
Proof.
  intros Ho Hj Hx Hr. pose proof (Forall_lookup_1 _ _ _ _ (to_slots _ _ _ _ Hok) Hx) as (Hs1 & Hs2 & Hs3).
  assert (forall c' i, is_cpu c' -> occupies (d c') = Some i -> i ≠ j) as Hother.
  { intros c' i Hc' (_ & _ & y & Hy & Hyr)%(to_occupied _ _ _ _ Hok c' i Hc') ->. simplify_eq. by rewrite Hr in Hyr. }
  split.
  - rewrite length_insert. apply Hok.
  - apply Forall_insert; [apply Hok | by split_and!].
  - intros c' Hc'. destruct (decide (c' = c)) as [->|]; [by rewrite upd_at_eq |]. rewrite upd_at_ne by done. by apply Hok.
  - intros c' i Hc'. destruct (decide (c' = c)) as [->|Hne].
    + rewrite !upd_at_eq. cbn. intros [= <-]. split_and!; [done.. |]. eexists. split; [by eapply lookup_put | done].
    + rewrite !upd_at_ne by done. intros E. pose proof (Hother _ _ Hc' E) as Hij.
      destruct (to_occupied _ _ _ _ Hok c' i Hc' E) as (H1 & H2 & y & Hy & Hyr). split_and!; [done.. |].
      exists y. by rewrite list_lookup_insert_ne by lia.
  - intros i y Hy Hyr. destruct (decide (i = Z.to_nat j)) as [->|Hne].
    + exists c. split; [done |]. rewrite upd_at_eq. cbn. f_equal. lia.
    + rewrite list_lookup_insert_ne in Hy by done. destruct (to_running _ _ _ _ Hok i y Hy Hyr) as (c' & Hc' & E).
      exists c'. split; [done |]. rewrite upd_at_ne; [done |]. intros ->. by rewrite Ho in E.
  - intros c1 c2 i H1 H2. destruct (decide (c1 = c)) as [->|], (decide (c2 = c)) as [->|]; rewrite ?upd_at_eq; rewrite ?upd_at_ne by done; cbn; [done | | |].
    + intros [= <-] E. by apply Hother in E.
    + intros E [= <-]. by apply Hother in E.
    + by apply (to_alone _ _ _ _ Hok).
  - intros c' i r Hc' E. eapply (upd_ok (Switched j (context x)) c'); [done | exact E | by apply Hs2 | by intros ->; rewrite <- E, upd_at_eq | done].
  - intros c' i Hc' E. eapply (upd_ok (Switched j (context x)) c'); [done | exact E | by apply Hs2 | by intros ->; rewrite <- E, upd_at_eq | done].
Qed.
End table.

(** * The machine *)

Section machine.
Context {P B A C : Type} (PA : PageAllocator P) (link : P -> Z -> Z) (depth : nat).
Context {sb : SuperBlock} `{BC : BlockCache sb B} `{OA : ObjectArena A} `{OC : ObjectArena C}.
(** init_filesystem, and the root container. *)
Context (init_fs : M (files B A) unit) (R : Z).
Notation K := (kernel P B A C).

(** What the scheduler goes on with, and a process that has called wait. *)
Definition chosen (r : option (Z * resume)) : activity :=
  match r with Some (i, r) => Switched i r | None => EndRound end.
Definition after_wait (i : Z) (r : option Z) : activity :=
  match r with Some _ => Running i | None => Left i end.

(** The code a CPU can run next, with what it is doing afterwards: what the code of
    the kernel says when it holds the lock or is idle; any of the calls when it runs
    a process. *)
Inductive code (c : Z) : activity -> forall {X}, M K X -> (X -> activity) -> Prop :=
| c_start : code c Idle (scheduler_simple c R) chosen
| c_end : code c EndRound (scheduler_round_end c R) (fun _ => Idle)
| c_next i : code c (Left i) (scheduler_next c (R := R) i) chosen
| c_forkret i junk name ctx : code c (Switched i Forkret) (forkret c (in_fs init_fs) junk name ctx) (fun _ => Running i)
| c_yield_back i : code c (Switched i InYield) (yield_back c) (fun _ => Running i)
| c_awake i a : code c (Switched i (InSleep (Some a))) (sleep_awake c;; release_sched_lock c) (fun _ => Locking i a)
| c_relock i a : code c (Locking i a) (acquire_lock c a) (fun _ => Running i)
| c_wait_back i : code c (Switched i (InSleep None)) (wait_back PA link c) (after_wait i)
| c_yield i : code c (Running i) (yield c) (fun _ => Left i)
| c_sleep i ch a : code c (Running i) (sleep c ch (Some a)) (fun _ => Left i)
| c_wakeup i ch : code c (Running i) (wakeup c ch) (fun _ => Running i)
| c_lock i a : code c (Running i) (acquire_lock c a) (fun _ => Running i)
| c_unlock i a : code c (Running i) (release_lock c a) (fun _ => Running i)
| c_fork i : code c (Running i) (fork PA link c depth) (fun _ => Running i)
| c_wait i : code c (Running i) (wait PA link c) (after_wait i)
| c_exit i ctx : code c (Running i) (exit c ctx) (fun _ => Left i)
| c_switch i v : code c (Running i) (uvm_switch c v) (fun _ => Running i)
| c_memory i X (f : M (vmem P) X) : code c (Running i) (in_vm f) (fun _ => Running i)
| c_files i X (f : M (files B A) X) : code c (Running i) (in_fs f) (fun _ => Running i)
| c_own i f : (forall x, state (f x) = state x /\ is_scheduler (f x) = is_scheduler x /\ context (f x) = context x) ->
    code c (Running i) (modify_proc (R, i) f) (fun _ => Running i).

Inductive mstep (m : machine P B A C) : machine P B A C -> Prop :=
| mstep_code c X (f : M K X) after x s' :
    is_cpu c -> code c (doing m c) f after -> f (ks m) = Ret (x, s') ->
    mstep m (mkMachine s' (upd_at (doing m) c (after x))).

Inductive reaches (m : machine P B A C) : machine P B A C -> Prop :=
| reaches_refl : reaches m m
| reaches_step m1 m2 : reaches m m1 -> mstep m1 m2 -> reaches m m2.

(** The CPUs enter the scheduler: every slot is free or holds a new process. *)
Definition started (m : machine P B A C) : Prop :=
  exists t cs, st R init_spinlock t cs (ks m) /\ length t = 14%nat /\
    (forall c, is_cpu c -> scheduler (cs c) = R /\ doing m c = Idle) /\
    Forall (fun x => is_scheduler x = false /\ (state x = UNUSED \/ state x = RUNNABLE /\ context x = Forkret)) t.

Definition machine_ok (m : machine P B A C) : Prop :=
  exists l t cs, st R l t cs (ks m) /\ lock_ok l (doing m) /\ table_ok R t cs (doing m).

Lemma started_ok m : started m -> machine_ok m.
Proof.
  intros (t & cs & Hs & Hlen & Hc & Ht). exists init_spinlock, t, cs. split; [done |].
  assert (forall c, is_cpu c -> doing m c = Idle) as Hd by (intros c Hi; by apply Hc). split.
  - split; [| done]. intros c Hi. by rewrite Hd.
  - split.
    + done.
    + eapply Forall_impl; [exact Ht |]. intros x [H1 H2]. split_and!; [done | |].
      * intros E. destruct H2 as [H2|[_ ->]]; [congruence | done].
      * intros E. destruct H2 as [H2|[H2 _]]; congruence.
    + intros c Hi. by apply Hc.
    + intros c i Hi. by rewrite Hd.
    + intros i x Hx Hr. eapply Forall_lookup_1 in Ht as [_ [H|[H _]]]; [| | done]; congruence.
    + intros c c' i Hi. by rewrite Hd.
    + intros c i r Hi. by rewrite Hd.
    + intros c i Hi. by rewrite Hd.
Qed.

(** ** Every step keeps it *)

Section steps.
Context (c : Z) (s : K) (d : Z -> activity) {l : SpinLock} {t : list proc} {cs : Z -> cpu_}.
Context (Hc : is_cpu c) (Hs : st R l t cs s) (Hl : lock_ok l d) (Ht : table_ok R t cs d).

Lemma ok_keep a l' t' s' :
  st R l' t' cs s' -> Forall2 slot_step t t' -> lock_ok l' (upd_at d c a) -> occupies a = occupies (d c) -> activity_ok a ->
  machine_ok (mkMachine s' (upd_at d c a)).
Proof.
  intros Hs' Ht' Hl' Ho Ha. exists l', t', cs. split_and!; [done.. |]. apply (table_keep _ _ _ _ _ Ht); try done. apply Ht.
Qed.

Lemma ok_leave i t' y s' :
  occupies (d c) = Some i -> Forall2 slot_step t t' -> slot_ok y -> state y ≠ RUNNING ->
  st R (held_by c) (<[Z.to_nat i := y]> t') cs s' -> lock_ok (held_by c) (upd_at d c (Left i)) ->
  machine_ok (mkMachine s' (upd_at d c (Left i))).
Proof.
  intros Ho Ht' Hy Hr Hs' Hl'. exists (held_by c), (<[Z.to_nat i := y]> t'), cs. split_and!; [done.. |].
  assert (table_ok R t' cs d) as Hk.
  { eapply table_ext; [| apply (table_keep _ _ _ _ c Ht t' cs (d c)); try done].
    - intros c'. unfold upd_at. by destruct (Z.eqb_spec c' c) as [->|].
    - by apply (table_activity _ _ _ _ _ Ht).
    - apply Ht. }
  by apply (table_leave _ _ _ _ _ Hk).
Qed.

(** The scheduler has searched the table from [i] on. *)
Lemma ok_picks i n r cs' s1 s' :
  (forall c', is_cpu c' -> scheduler (cs' c') = R) ->
  (forall c' i, is_cpu c' -> occupies (d c') = Some i -> cproc (cs' c') = cproc (cs c')) ->
  st R (held_by c) t cs' s1 -> picks c (R := R) (l := held_by c) (t := t) (cs := cs') i n r s1 s' ->
  0 <= i -> occupies (d c) = None -> (forall a, critical a = true -> lock_ok (held_by c) (upd_at d c a)) ->
  machine_ok (mkMachine s' (upd_at d c (chosen r))).
Proof.
  intros H1 H2 Hs1 Hp Hi Ho Hl'. destruct r as [[j r]|]; cbn [chosen].
  - destruct Hp as (x & Hj & Hx & Hr & -> & Hs' & _). eexists _, _, _. split_and!; [exact Hs' | by apply Hl' |].
    assert (table_ok R t cs' d) as Hk.
    { split; [apply Ht | apply Ht | done | | apply Ht | apply Ht | apply Ht | apply Ht].
      intros c' k Hc' E. destruct (to_occupied _ _ _ _ Ht c' k Hc' E) as (E1 & E2 & E3). by rewrite (H2 c' k). }
    unfold run_on. rewrite H1 by done. apply (table_pick _ _ _ _ _ Hk); [done | done | lia | done | done].
  - destruct Hp as [-> _]. exists (held_by c), t, cs'. split_and!; [done | by apply Hl' |].
    apply (table_keep _ _ _ _ _ Ht); done.
Qed.

(** Code run by CPU [c] leads from here to machines that satisfy the invariant. *)
Definition keeps {X} (f : M K X) (after : X -> activity) : Prop :=
  hoare Loose f (fun x s' => machine_ok (mkMachine s' (upd_at d c (after x)))) s.

Lemma free_here : critical (d c) = false -> can_acquire Loose c l.
Proof. intros E. split; [by eapply lock_free | done]. Qed.

Lemma lock_here : critical (d c) = true -> l = held_by c.
Proof. by apply Hl. Qed.

Lemma keeps_start : d c = Idle -> keeps (scheduler_simple c R) chosen.
Proof.
  intros E. eapply hoare_mono; [eapply scheduler_simple_ok; [done | by apply Ht | by apply free_here; rewrite E | apply Ht..] |].
  intros r s' (Hfree & s1 & Hs1 & Hp). eapply ok_picks; [apply Ht | done | done | done | done | by rewrite E |].
  intros a Ha. by eapply lock_take.
Qed.

Lemma keeps_end : d c = EndRound -> keeps (scheduler_round_end c R) (fun _ => Idle).
Proof.
  intros E. assert (l = held_by c) as -> by (apply lock_here; by rewrite E).
  eapply hoare_mono; [by eapply scheduler_round_end_ok; [| apply Ht |] |]. intros b s' [_ Hs'].
  eapply ok_keep; [exact Hs' | done | by apply lock_release | by rewrite E | done].
Qed.

Lemma keeps_next i : d c = Left i -> keeps (scheduler_next c (R := R) i) chosen.
Proof.
  intros E. assert (l = held_by c) as -> by (apply lock_here; by rewrite E).
  pose proof (to_left _ _ _ _ Ht c i Hc E) as Hi.
  eapply hoare_mono; [eapply scheduler_next_ok; [done | done | apply Ht | apply Ht | done] |].
  intros r s' (s1 & cs' & -> & Hs1 & Hp). eapply ok_picks; [| | exact Hs1 | exact Hp | lia | by rewrite E |].
  - intros c' Hc'. unfold upd_at. destruct (c' =? c); [done | by apply Ht].
  - intros c' j Hc' Ho. rewrite upd_at_ne; [done |]. intros ->. by rewrite E in Ho.
  - intros a Ha. apply lock_hold; [done.. | by rewrite E | done].
Qed.

(** A process that stays on its CPU, and one that leaves it. *)
Lemma keeps_here {X} (f : M K X) i a : occupies (d c) = Some i -> occupies (a : activity) = Some i -> activity_ok a ->
  hoare Loose f (fun _ s' => exists l' t', Forall2 slot_step t t' /\ st R l' t' cs s' /\ lock_ok l' (upd_at d c a)) s ->
  keeps f (fun _ => a).
Proof.
  intros E Ea Ha H. eapply hoare_mono; [exact H |]. intros x s' (l' & t' & Ht' & Hs' & Hl').
  eapply ok_keep; [done.. | by rewrite E | done].
Qed.

Lemma keeps_leave {X} (f : M K X) i : occupies (d c) = Some i ->
  hoare Loose f (fun _ s' => exists t' y, Forall2 slot_step t t' /\ slot_ok y /\ state y ≠ RUNNING /\
    st R (held_by c) (<[Z.to_nat i := y]> t') cs s' /\ lock_ok (held_by c) (upd_at d c (Left i))) s ->
  keeps f (fun _ => Left i).
Proof.
  intros E H. eapply hoare_mono; [exact H |]. intros x s' (t' & y & Ht' & Hy & Hr & Hs' & Hl'). by eapply ok_leave.
Qed.

Lemma keeps_yield i : d c = Running i -> keeps (yield c) (fun _ => Left i).
Proof.
  intros E. destruct (occupied_here _ _ _ _ _ Ht Hc i) as (x & Hr & Hx & Hok); [by rewrite E |].
  apply keeps_leave; [by rewrite E |]. eapply hoare_mono; [eapply yield_ok; [done | done | by apply free_here; rewrite E] |].
  intros _ s' [Hf Hs']. eexists t, _. split_and!; [done | | | exact Hs' | by eapply lock_take]; [| done].
  by split_and!; cbn; [apply Hr | |].
Qed.

Lemma keeps_sleep i ch a : d c = Running i -> keeps (sleep c ch (Some a)) (fun _ => Left i).
Proof.
  intros E. destruct (occupied_here _ _ _ _ _ Ht Hc i) as (x & Hr & Hx & Hok); [by rewrite E |].
  apply keeps_leave; [by rewrite E |].
  eapply hoare_mono; [eapply sleep_lock_ok; [done | done | by apply free_here; rewrite E | by left] |].
  intros _ s' [Hf Hs']. eexists t, _. split_and!; [done | | | exact Hs' | by eapply lock_take]; [| done].
  split_and!; cbn; [apply Hr | done | by exists (Some a)].
Qed.

Lemma keeps_exit i ctx : d c = Running i -> keeps (exit c ctx) (fun _ => Left i).
Proof.
  intros E. destruct (occupied_here _ _ _ _ _ Ht Hc i) as (x & Hr & Hx & Hok); [by rewrite E |].
  apply keeps_leave; [by rewrite E |].
  eapply hoare_mono; [eapply exit_ok; [done | done | by apply free_here; rewrite E | apply Ht | done] |].
  intros _ s' (Hf & t' & y & Ht' & Hy & Hyo & Hs'). eexists t', _. split_and!; [done | | | exact Hs' | by eapply lock_take]; [| done].
  by split_and!; cbn; [apply Hyo | |].
Qed.

Lemma keeps_wakeup i ch : d c = Running i -> keeps (wakeup c ch) (fun _ => Running i).
Proof.
  intros E. apply (keeps_here _ i); [by rewrite E | done | done |].
  eapply hoare_mono; [eapply wakeup_ok; [done | by apply Ht | by apply free_here; rewrite E | apply Ht] |].
  intros _ s' [Hf Hs']. eexists _, _. split_and!; [apply woken_table | exact Hs' |].
  by eapply lock_pass.
Qed.

Lemma keeps_fork i : d c = Running i -> keeps (fork PA link c depth) (fun _ => Running i).
Proof.
  intros E. destruct (occupied_here _ _ _ _ _ Ht Hc i) as (x & Hr & Hx & Hok); [by rewrite E |].
  apply (keeps_here _ i); [by rewrite E | done | done |].
  eapply hoare_mono; [eapply fork_ok; [done | done | by apply free_here; rewrite E | apply Ht | apply Ht | done] |].
  intros _ s' (Hf & t' & Ht' & Hs'). eexists _, _. split_and!; [exact Ht' | exact Hs' |].
  by eapply lock_pass.
Qed.

(** wait, from its beginning or after a sleep. *)
Lemma keeps_waited i r s' :
  occupies (d c) = Some i -> waited c (t := t) (R := R) (cs := cs) i r s' ->
  lock_ok init_spinlock (upd_at d c (Running i)) -> lock_ok (held_by c) (upd_at d c (Left i)) ->
  machine_ok (mkMachine s' (upd_at d c (after_wait i r))).
Proof.
  intros E (t' & Ht' & Hr) Hl1 Hl2. destruct r as [v|]; cbn [after_wait].
  - eapply ok_keep; [exact Hr | done | done | by rewrite E | done].
  - destruct Hr as (y & Hy & Hyo & Hs'). eapply ok_leave; [done | exact Ht' | | | exact Hs' | done]; [| done].
    split_and!; cbn; [apply Hyo | done | by exists None].
Qed.

Lemma keeps_wait i : d c = Running i -> keeps (wait PA link c) (after_wait i).
Proof.
  intros E. destruct (occupied_here _ _ _ _ _ Ht Hc i) as (x & Hr & Hx & Hok); [by rewrite E |].
  eapply hoare_mono; [eapply wait_ok; [done | done | by apply free_here; rewrite E | apply Ht | done] |].
  intros r s' [Hf Hw]. eapply keeps_waited; [by rewrite E | done | by eapply lock_pass | by eapply lock_take].
Qed.

Lemma keeps_wait_back i : d c = Switched i (InSleep None) -> keeps (wait_back PA link c) (after_wait i).
Proof.
  intros E. destruct (occupied_here _ _ _ _ _ Ht Hc i) as (x & Hr & Hx & Hok); [by rewrite E |].
  assert (l = held_by c) as -> by (apply lock_here; by rewrite E).
  eapply hoare_mono; [eapply wait_back_ok; [done | done | apply Ht | done] |].
  intros r s' Hw. eapply keeps_waited; [by rewrite E | done | by apply lock_release |]. apply lock_hold; [done.. | by rewrite E | done].
Qed.

Lemma keeps_forkret i junk name ctx :
  d c = Switched i Forkret -> keeps (forkret c (in_fs init_fs) junk name ctx) (fun _ => Running i).
Proof.
  intros E. destruct (occupied_here _ _ _ _ _ Ht Hc i) as (x & Hr & Hx & Hok); [by rewrite E |].
  assert (l = held_by c) as -> by (apply lock_here; by rewrite E).
  apply (keeps_here _ i); [by rewrite E | done | done |]. eapply hoare_mono; [by eapply forkret_ok |].
  intros _ s' (t' & Ht' & Hs'). eexists _, _. split_and!; [exact Ht' | exact Hs' | by apply lock_release].
Qed.

Lemma keeps_yield_back i : d c = Switched i InYield -> keeps (yield_back c) (fun _ => Running i).
Proof.
  intros E. assert (l = held_by c) as -> by (apply lock_here; by rewrite E).
  apply (keeps_here _ i); [by rewrite E | done | done |].
  eapply hoare_mono; [eapply release_sched_ok; [done | by apply Ht | done] |].
  intros ? s' Hs'. eexists _, t. split_and!; [done | exact Hs' | by apply lock_release].
Qed.

Lemma keeps_awake i a : d c = Switched i (InSleep (Some a)) -> keeps (sleep_awake c;; release_sched_lock c) (fun _ => Locking i a).
Proof.
  intros E. destruct (occupied_here _ _ _ _ _ Ht Hc i) as (x & Hr & Hx & Hok); [by rewrite E |].
  assert (l = held_by c) as -> by (apply lock_here; by rewrite E). pose proof Hr as (HR & _ & _ & Htx & _).
  apply (keeps_here _ i); [by rewrite E | done | done |]. h_bind @sleep_awake_ok; [done.. |]. intros [] s1 Hs1.
  eapply hoare_mono; [by eapply release_sched_ok |].
  intros ? s' Hs'. eexists _, _. split_and!; [| exact Hs' | by apply lock_release]. by eapply table_set.
Qed.

(** Code that does not touch the table. *)
Lemma keeps_aside {X} (f : M K X) i a :
  occupies (d c) = Some i -> critical (d c) = false -> occupies (a : activity) = Some i -> critical a = false ->
  hoare Loose f (fun _ s' => exists t', Forall2 slot_step t t' /\ st R l t' cs s') s -> keeps f (fun _ => a).
Proof.
  intros E Ed Ea Hcr H. apply (keeps_here _ i); [done | done | by destruct a |]. eapply hoare_mono; [exact H |].
  intros x s' (t' & Ht' & Hs'). exists l, t'. split_and!; [done.. | by apply lock_stay].
Qed.

Lemma acquire_lock_aside a : hoare Loose (acquire_lock c a) (fun _ s' => exists t', Forall2 slot_step t t' /\ st R l t' cs s') s.
Proof.
  apply hoare_bind. unfold hoare at 1. cbn. apply hoare_bind, lift_ok. intros lk. exists t. split; [done |]. apply Hs.
Qed.

Lemma release_lock_aside a : hoare Loose (release_lock c a) (fun _ s' => exists t', Forall2 slot_step t t' /\ st R l t' cs s') s.
Proof.
  apply hoare_bind. unfold hoare at 1. cbn. apply hoare_bind, lift_ok. intros lk. exists t. split; [done |]. apply Hs.
Qed.

Lemma keeps_switch i v : d c = Running i -> keeps (uvm_switch c v) (fun _ => Running i).
Proof.
  intros E. apply hoare_bind. eapply thiscpu_ok; [done |]. eapply hoare_mono; [by apply set_cpu_ok |]. intros [] s' Hs'.
  eexists _, _, _. split_and!; [exact Hs' | apply lock_stay; [done | by rewrite E | done] |].
  apply (table_keep _ _ _ _ _ Ht); [done | by rewrite E | done | |].
  - intros c' Hc'. unfold upd_at. destruct (c' =? c); by apply Ht.
  - intros c' j Hc' Ho. unfold upd_at. by destruct (Z.eqb_spec c' c) as [->|].
Qed.

Lemma code_keeps {X} (f : M K X) after : code c (d c) f after -> keeps f after.
Proof.
  remember (d c) as a eqn:E. symmetry in E.
  destruct 1 as [| | i | i | i | i b | i b | i | i | i ch b | i ch | i b | i b | i | i | i ctx | i v | i X f | i X f | i f Hf].
  - by apply keeps_start.
  - by apply keeps_end.
  - by apply keeps_next.
  - by apply keeps_forkret.
  - by apply keeps_yield_back.
  - by apply keeps_awake.
  - apply (keeps_aside _ i); [by rewrite E.. | done | done | apply acquire_lock_aside].
  - by apply keeps_wait_back.
  - by apply keeps_yield.
  - by apply keeps_sleep.
  - by apply keeps_wakeup.
  - apply (keeps_aside _ i); [by rewrite E.. | done | done | apply acquire_lock_aside].
  - apply (keeps_aside _ i); [by rewrite E.. | done | done | apply release_lock_aside].
  - by apply keeps_fork.
  - by apply keeps_wait.
  - by apply keeps_exit.
  - by apply keeps_switch.
  - apply (keeps_aside _ i); [by rewrite E.. | done | done |]. eapply hoare_mono; [by apply in_vm_ok |]. intros ? s' Hs'. by exists t.
  - apply (keeps_aside _ i); [by rewrite E.. | done | done |]. eapply hoare_mono; [by apply in_fs_ok |]. intros ? s' Hs'. by exists t.
  - apply (keeps_aside _ i); [by rewrite E.. | done | done |].
    destruct (occupied_here _ _ _ _ _ Ht Hc i) as (x & (_ & _ & Hi & Hx & _) & _ & _); [by rewrite E |].
    eapply hoare_mono; [by eapply modify_proc_ok |]. intros [] s' Hs'. eexists. split; [| done].
    eapply table_set; [done |]. destruct (Hf x) as (E1 & E2 & E3). unfold slot_step, slot_ok. by rewrite E1, E2, E3.
Qed.
End steps.

Lemma mstep_ok m m' : machine_ok m -> mstep m m' -> machine_ok m'.
Proof.
  intros (l & t & cs & Hs & Hl & Ht) [c X f after x s' Hc Hcode Hret].
  pose proof (code_keeps c (ks m) (doing m) Hc Hs Hl Ht f after Hcode) as H.
  exact (hoare_use _ _ _ _ _ _ H Hret).
Qed.

Lemma reaches_ok m m' : started m -> reaches m m' -> machine_ok m'.
Proof. intros H0. induction 1; [by apply started_ok | by eapply mstep_ok]. Qed.

(** * Theorems *)

(** C3: whatever the interleaving of the CPUs, a process runs on at most one of
    them; the processes in the state RUNNING are exactly those that run on a CPU,
    whose [proc] field names it; and the lock of the process table is held by the CPU
    that is switching, if one is, across the switches that take it in one thread and
    give it back in another. *)
Theorem processes_run_alone m0 m :
  started m0 -> reaches m0 m ->
  (forall c c' i, is_cpu c -> is_cpu c' -> occupies (doing m c) = Some i -> occupies (doing m c') = Some i -> c = c') /\
  (forall i x, 0 <= i -> procs (k_conts (ks m) R) !! Z.to_nat i = Some x ->
    (state x = RUNNING <-> exists c, is_cpu c /\ occupies (doing m c) = Some i)) /\
  (forall c i, is_cpu c -> occupies (doing m c) = Some i -> cproc (k_cpus (ks m) c) = Some (R, i)) /\
  (forall c, is_cpu c -> (critical (doing m c) = true <-> ptable_lock (k_conts (ks m) R) = held_by c)).
Proof.
  intros H0 Hm. destruct (reaches_ok m0 m H0 Hm) as (l & t & cs & (HR & El & Et & Ecs) & [Hl1 Hl2] & Ht).
  rewrite Et, El. split_and!.
  - apply (to_alone _ _ _ _ Ht).
  - intros i x Hi Hx. split.
    + intros Hr. destruct (to_running _ _ _ _ Ht _ _ Hx Hr) as (c & Hc & E). exists c. split; [done |]. rewrite E. f_equal. lia.
    + intros (c & Hc & E). destruct (to_occupied _ _ _ _ Ht c i Hc E) as (_ & _ & y & Hy & Hr). by simplify_eq.
  - intros c i Hc E. rewrite Ecs. by apply (to_occupied _ _ _ _ Ht).
  - intros c Hc. split; [by apply Hl1 |]. intros ->. destruct (Hl2 eq_refl) as (c' & Hc' & E & Hcr).
    by apply held_by_inj in E as ->.
Qed.

Definition returns {X} (f : M K X) (s : K) : Prop := exists x s', f s = Ret (x, s').

Lemma returns_total {X} (f : M K X) Q s : hoare Total f Q s -> returns f s.
Proof. intros (x & s' & E & _)%hoare_total. by exists x, s'. Qed.

(** A call that takes the lock of the process table: it returns when the lock is
    free, and otherwise waits for it. *)
Definition takes_lock {X} (f : M K X) (s : K) : Prop :=
  if locked (ptable_lock (k_conts s R)) then f s = Blocked else returns f s.

Lemma takes_lock_ok {X} (f : M K X) l t cs (Q : X -> K -> Prop) s :
  st R l t cs s -> (forall strict, (strict = Total -> locked l = false) -> hoare strict f (fun x s' => locked l = false /\ Q x s') s) ->
  takes_lock f s.
Proof.
  intros (_ & El & _) H. unfold takes_lock. rewrite El. destruct (locked l).
  - by destruct (hoare_waits _ _ _ (H Waits ltac:(done))) as [E | (x & s' & _ & ? & _)].
  - destruct (hoare_total _ _ _ (H Total ltac:(done))) as (x & s' & E & _). by exists x, s'.
Qed.

(** The zombie children of slot [i] can be given back to the memory. *)
Definition children_free (i : Z) (s : K) : Prop :=
  forall j z, child_at (t := procs (k_conts s R)) (R, i) j z -> state z = ZOMBIE -> frees PA link (k_vm s) z.

(** C14: no assertion of the scheduler can fail and no CPU is stuck with the lock of
    the process table.  In every state the machine reaches, a CPU that holds the lock
    continues with code that returns: the scheduler itself; a process that was in
    yield or in sleep with a lock of its own; a process in wait, given that the memory
    of its zombie children can be freed; a new process, which first gives the lock
    back, and then returns from forkret if the file system has been initialised (the
    first process initialises it, without the lock).  A CPU that does not hold it can
    enter the scheduler, yield, wake up, sleep, wait (under the same condition) or
    leave for good at the end of exit: the call returns when the lock is free and
    waits for it when another CPU has it.  Not covered: fork, and what exit does with
    the file system before it takes the lock. *)
Theorem scheduler_progress m0 m c :
  started m0 -> reaches m0 m -> is_cpu c ->
  match doing m c with
  | Idle => takes_lock (scheduler_simple c R) (ks m)
  | EndRound => returns (scheduler_round_end c R) (ks m)
  | Left i => returns (scheduler_next c (R := R) i) (ks m)
  | Switched i Forkret => exists s1, release_sched_lock c (ks m) = Ret (tt, s1) /\ ptable_lock (k_conts s1 R) = init_spinlock /\
      (k_flag (ks m) = true -> forall junk name ctx, returns (forkret c (in_fs init_fs) junk name ctx) (ks m))
  | Switched i InYield => returns (yield_back c) (ks m)
  | Switched i (InSleep (Some a)) => returns (sleep_awake c;; release_sched_lock c) (ks m)
  | Switched i (InSleep None) => children_free i (ks m) -> returns (wait_back PA link c) (ks m)
  | Switched i _ => False
  | Running i => takes_lock (yield c) (ks m) /\ takes_lock (exit_sched c (R, i)) (ks m) /\
      (children_free i (ks m) -> takes_lock (wait PA link c) (ks m)) /\
      forall ch, takes_lock (wakeup c ch) (ks m) /\
      forall a, holding_spinlock c (k_locks (ks m) a) = true -> takes_lock (sleep c ch (Some a)) (ks m)
  | Locking i a => holding_spinlock c (k_locks (ks m) a) = false ->
      acquire_lock c a (ks m) = Blocked \/ returns (acquire_lock c a) (ks m)
  end.
Proof.
  intros H0 Hm Hc. destruct (reaches_ok m0 m H0 Hm) as (l & t & cs & Hs & Hl & Ht). pose proof Hs as (_ & _ & Et & _).
  pose proof (to_scheduler _ _ _ _ Ht c Hc) as HR. pose proof (lock_here c (doing m) Hc Hl) as Hh.
  pose proof (lock_free l (doing m) c Hl) as Hfree. pose proof (table_activity _ _ _ _ c Ht Hc) as Ha.
  pose proof (occupied_here _ _ _ _ c Ht Hc) as Ho. destruct (doing m c) as [| | i r | i | i a | i]; cbn in Hh, Hfree, Ha, Ho; try done.
  - eapply takes_lock_ok; [done |]. intros strict Hst. eapply scheduler_simple_ok; [done | done | by split; [apply Hfree |] | apply Ht..].
  - eapply returns_total, scheduler_round_end_ok; [done | done | by apply Hh].
  - destruct (Ho i eq_refl) as (x & Hr & Hrun & _). rewrite (Hh eq_refl) in Hs. destruct r as [| | | | [a|] | | |]; try done.
    + destruct (forkret_returns c i x (ks m) Hs Hr) as (s1 & E & Hf & Hk). exists s1. split_and!; [done | apply Hf |].
      intros Hfl junk name ctx. eexists tt, _. by apply Hk.
    + by eapply returns_total, release_sched_ok.
    + eapply returns_total. h_bind @sleep_awake_ok; [done.. |]. intros [] s1 Hs1. by eapply release_sched_ok.
    + intros Hf. unfold children_free in Hf. rewrite Et in Hf. eapply returns_total, (wait_back_returns PA link c i x); [done | done | apply Ht | done | done].
  - destruct (Ho i eq_refl) as (x & Hr & Hrun & Hok).
    assert (takes_lock (exit_sched c (R, i)) (ks m)) as Hexit.
    { apply (takes_lock_ok _ l t cs (fun _ _ => True)); [done |]. intros strict Hst.
      eapply hoare_mono; [eapply exit_sched_ok; [by exists t | done | by split; [apply Hfree |] | apply Ht | done] |].
      by intros [] s' [Hl' _]. }
    split_and!; [| done | intros Hf | intros ch; split; [| intros a Hla]];
      (eapply takes_lock_ok; [done |]; intros strict Hst; assert (can_acquire strict c l) as Hca by (split; [by apply Hfree | done])).
    + by eapply yield_ok.
    + unfold children_free in Hf. rewrite Et in Hf. eapply (wait_returns PA link c strict l i x); [done | done | done | apply Ht | done].
    + eapply wakeup_ok; [done | done | done | apply Ht].
    + eapply sleep_lock_ok; [done | done | done | by right].
  - intros Hla. unfold acquire_lock, returns, lift, acquire_spinlock, mbind, M_bind, outcome_bind, get. cbn. rewrite Hla.
    destruct (try_acquire_spinlock c (k_locks (ks m) a)) as [[] l0]; [right | by left]. eexists _, _. reflexivity.
  - eapply returns_total, scheduler_next_ok; [done | by apply Hh | apply Ht | apply Ht | done].
Qed.
End machine.

(** ** Witnesses *)

(** Slot 0 holds the first process, the CPUs enter the scheduler. *)
Definition first_proc : proc := set_context Forkret (set_state RUNNABLE (set_kstack (fr 1) (set_pgdir (fr 0) no_proc))).
Definition first_table : list proc := first_proc :: replicate 13 no_proc.
Definition first_kernel (c : bcache (Arena pmem)) : kernel pmem (bcache (Arena pmem)) (Arena pmem) unit :=
  mkK vm0 (idle_files c) tt (fun _ => set_procs first_table zero_container) 1 (fun _ => mkCpu 1 None 0) (fun _ => init_spinlock) false false.
Definition first_machine (c : bcache (Arena pmem)) : machine pmem (bcache (Arena pmem)) (Arena pmem) unit :=
  mkMachine (first_kernel c) (fun _ => Idle).

Lemma first_started c : started 1 (first_machine c).
Proof.
  exists first_table, (fun _ => mkCpu 1 None 0). split; [split_and!; reflexivity |]. split; [reflexivity |]. split; [done |].
  repeat (constructor; [split; [reflexivity |]; first [left; reflexivity | right; split; reflexivity] |]). constructor.
Qed.

(** CPU 2 chooses slot 0. *)
Definition second_kernel (c : bcache (Arena pmem)) : kernel pmem (bcache (Arena pmem)) (Arena pmem) unit :=
  match scheduler_simple 2 1 (first_kernel c) with Ret (_, s) => s | _ => first_kernel c end.
Definition second_machine (c : bcache (Arena pmem)) := mkMachine (second_kernel c) (upd_at (fun _ => Idle) 2 (Switched 0 Forkret)).

Notation first_reaches := (reaches (kernel_pages 0) word 3 (sb := small_sb) (mret tt) 1).

Lemma second_reached c : first_reaches (first_machine c) (second_machine c).
Proof.
  eapply reaches_step; [apply reaches_refl |].
  apply (mstep_code _ _ _ _ _ (first_machine c) 2 _ (scheduler_simple 2 1) chosen (Some (0, Forkret)) (second_kernel c)).
  - unfold is_cpu, NCPU. lia.
  - apply c_start.
  - reflexivity.
Qed.

Lemma processes_run_alone_witness : exists c,
  started 1 (first_machine c) /\ first_reaches (first_machine c) (second_machine c) /\
  forall d, is_cpu d -> occupies (doing (second_machine c) d) = Some 0 -> d = 2.
Proof.
  destruct image_cache as [c _]. exists c. split; [apply first_started |]. split; [apply second_reached |].
  destruct (processes_run_alone (kernel_pages 0) word 3 (sb := small_sb) (mret tt) 1 (first_machine c) (second_machine c)
    (first_started c) (second_reached c)) as (H & _).
  intros d Hd E. apply (H d 2 0 Hd); [unfold is_cpu, NCPU; lia | exact E | reflexivity].
Defined.

(** CPU 1 waits for the lock that CPU 2 holds, and CPU 2, with a new process, gives
    it back. *)
Lemma scheduler_progress_witness : exists c,
  started 1 (first_machine c) /\ first_reaches (first_machine c) (second_machine c) /\
  scheduler_simple 1 1 (ks (second_machine c)) = Blocked /\
  exists s1, release_sched_lock 2 (ks (second_machine c)) = Ret (tt, s1) /\ ptable_lock (k_conts s1 1) = init_spinlock.
Proof.
  destruct image_cache as [c _]. exists c. split; [apply first_started |]. split; [apply second_reached |]. split.
  - exact (scheduler_progress (kernel_pages 0) word 3 (sb := small_sb) (mret tt) 1 (first_machine c) (second_machine c) 1
      (first_started c) (second_reached c) ltac:(unfold is_cpu, NCPU; lia)).
  - destruct (scheduler_progress (kernel_pages 0) word 3 (sb := small_sb) (mret tt) 1 (first_machine c) (second_machine c) 2
      (first_started c) (second_reached c) ltac:(unfold is_cpu, NCPU; lia)) as (s1 & E & Hl & _).
    exists s1. split; [exact E | exact Hl].
Defined.
