(* ===== verification/ProcTheorems.v ===== *)
(** The properties of wait and fork of core/proc.c, which combine the process table
    with the address spaces of core/virtual_memory.c and the files. *)
From S2P Require Import Prelude Bytes CString Locks PhysMem Arena VirtualMemory PageTable VirtualMemorySpec AddressSpaces VmTheorems FsDefs BlockCache Path Inode File Process Sched Proc SchedSpec Cache CacheTheorems InodeTheorems FileTheorems.

(** * Frame conditions *)

Section frames.
Context {P B A C : Type} (me : Z).
Notation K := (kernel P B A C).

(** The memory, the files and the other locks are as before. *)
Definition aside (s s' : K) : Prop := k_vm s' = k_vm s /\ k_fs s' = k_fs s /\ k_locks s' = k_locks s.

#[export] Instance aside_preorder : PreOrder aside.
Proof. split; [by intros s | intros s1 s2 s3 (? & ? & ?) (? & ? & ?); repeat split; congruence]. Qed.

Lemma modify_proc_aside p f (s : K) : hoare Loose (modify_proc p f) (fun _ s' => aside s s') s.
Proof.
  unfold hoare, modify_proc, load_proc, store_proc, load_cont, store_cont, mbind, M_bind, get. cbn.
  destruct (procs (k_conts s p.1) !! Z.to_nat p.2) as [x|]; [| done]. by destruct (0 <=? p.2).
Qed.

Lemma thiscpu_plain strict Q (s : K) : Q (k_cpus s me) s -> hoare strict (thiscpu me) Q s.
Proof. done. Qed.

Lemma acquire_ptable_aside a (s : K) : hoare Loose (acquire_ptable_lock me a) (fun _ s' => aside s s' /\
  c_lock (k_conts s' a) = c_lock (k_conts s a) /\ s_pid (k_conts s' a) = s_pid (k_conts s a)) s.
Proof.
  unfold hoare, acquire_ptable_lock, load_cont, store_cont, mbind, M_bind, get, lift. cbn.
  unfold mbind, outcome_bind. destruct (acquire_spinlock _ _); cbn; [| done..]. by rewrite upd_at_eq.
Qed.

Lemma release_ptable_aside a (s : K) : hoare Loose (release_ptable_lock me a) (fun _ s' => aside s s') s.
Proof.
  unfold hoare, release_ptable_lock, load_cont, store_cont, mbind, M_bind, get, lift. cbn.
  unfold mbind, outcome_bind. by destruct (release_spinlock _ _).
Qed.

Lemma acquire_sched_aside (s : K) : hoare Loose (acquire_sched_lock me) (fun _ s' => aside s s') s.
Proof. apply hoare_bind, thiscpu_plain. eapply hoare_mono; [apply acquire_ptable_aside |]. by intros [] s' [Ha _]. Qed.

Lemma release_sched_aside (s : K) : hoare Loose (release_sched_lock me) (fun _ s' => aside s s') s.
Proof. apply hoare_bind, thiscpu_plain, release_ptable_aside. Qed.

(** A call into the memory, by its own specification. *)
Lemma in_vm_total {X} (c : M (vmem P) X) (Q : X -> vmem P -> Prop) (Q' : X -> K -> Prop) strict (s : K) :
  wp no_panic c Q (k_vm s) -> (forall x v, Q x v -> Q' x (set_k_vm v s)) -> hoare strict (in_vm c) Q' s.
Proof.
  unfold wp, hoare, in_vm, inside. destruct (c (k_vm s)) as [[x v]| | | |]; [auto | done..].
Qed.

Lemma in_fs_total {X} (c : M (files B A) X) (Q : X -> files B A -> Prop) (Q' : X -> K -> Prop) strict (s : K) :
  wp no_panic c Q (k_fs s) -> (forall x v, Q x v -> Q' x (set_k_fs v s)) -> hoare strict (in_fs c) Q' s.
Proof.
  unfold wp, hoare, in_fs, inside. destruct (c (k_fs s)) as [[x v]| | | |]; [auto | done..].
Qed.
End frames.

(** * wait *)

Section reaping.
Context {P B A C : Type} (PA : PageAllocator P) (link : P -> Z -> Z) (me : Z).
Notation K := (kernel P B A C).
Context {R : Z} {cs : Z -> cpu_} {t : list proc}.

(** The same slot changed again, with the frame condition. *)
Lemma change_aside l j z y f (s0 s : K) :
  st R l (<[Z.to_nat j := y]> t) cs s -> aside s0 s -> 0 <= j -> t !! Z.to_nat j = Some z ->
  hoare Total (modify_proc (R, j) f) (fun _ s' => st R l (<[Z.to_nat j := f y]> t) cs s' /\ aside s0 s') s.
Proof.
  intros Hs Ha Hj Hz. eapply hoare_mono; [apply hoare_and; [by eapply change_ok | apply modify_proc_aside] |].
  intros [] s' [Hs' Ha']. split; [done | by etrans].
Qed.

Lemma reap_ok l j z ps free (s : K) :
  st R l t cs s -> 0 <= j -> t !! Z.to_nat j = Some z ->
  address_space PA (k_vm s) (pgdir z) ps free -> frame (kstack z) -> kstack z ∉ ps ++ free ->
  hoare Total (reap PA link (R, j)) (fun v s' => v = pid z /\ st R l (<[Z.to_nat j := reaped z]> t) cs s' /\
    k_fs s' = k_fs s /\ (exists free', pa_inv (vm_pool (k_vm s')) free' /\ free' ≡ₚ kstack z :: ps ++ free) /\
    forall p, p ∉ kstack z :: ps -> ram (k_vm s') p = ram (k_vm s) p) s.
Proof.
  intros Hs Hj Hz Hsp Hf Hk. apply hoare_bind. eapply load_proc_ok; [done.. |].
  rewrite <- (list_insert_id t _ _ Hz) in Hs. assert (aside s s) as Ha by done.
  h_bind change_aside; [done.. |]. intros [] s1 [Hs1 Ha1]. h_bind change_aside; [done.. |]. intros [] s2 [Hs2 Ha2].
  h_bind change_aside; [done.. |]. intros [] s3 [Hs3 Ha3]. h_bind change_aside; [done.. |]. intros [] s4 [Hs4 (Ev & Ef & _)].
  apply hoare_bind. eapply load_proc_ok; [done.. | by eapply lookup_put |]. cbn [pgdir kstack set_parent set_pid set_state set_killed].
  destruct Hsp as (pt & Ht & <- & Hsp). rewrite <- Ht. apply not_elem_of_app in Hk as [Hk1 Hk2]. apply hoare_bind.
  eapply (in_vm_total _ (fun _ v => exists l', freed PA (k_vm s) v (tpages pt) free l')).
  { rewrite Ev. eapply (recur_vm_free_ok PA link no_panic 3); [done |]. eauto. }
  intros [] v (l' & [F1 _ F2 F3]). apply hoare_bind.
  eapply (in_vm_total _ (fun _ v' => pa_inv (vm_pool v') (kstack z :: l') /\ forall p, p ≠ kstack z -> ram v' p = ram v p)).
  { cbn [k_vm set_k_vm]. eapply vm_kfree_ok; [done | | done |].
    - rewrite F2. by apply not_elem_of_app.
    - intros pool w Hp. split; [done |]. intros p Hne. by apply set_entry_other. }
  intros [] v' [G1 G2]. apply hoare_ret. split_and!; [done | exact Hs4 | exact Ef | |].
  - exists (kstack z :: l'). split; [done |]. by rewrite F2.
  - intros p [Hp1 Hp2]%not_elem_of_cons. cbn [k_vm set_k_vm]. rewrite G2 by done. by apply F3.
Qed.

(** The children of the process in slot [i]. *)
Definition child (i j : Z) (z : proc) : Prop := 0 <= j < 14 /\ child_at (t := t) (R, i) j z.
Definition zombie (i j : Z) (z : proc) : Prop := child i j z /\ state z = ZOMBIE.

(** The process [x] in slot [i] is on this CPU, the lock is free. *)
Definition calls (i : Z) (x : proc) (s : K) : Prop :=
  st R init_spinlock t cs s /\ runs_here me R t cs i x /\ length t = 14%nat.

(** The search of wait, the lock taken. *)
Lemma wait_search i x (s : K) (v : option Z) (Q : K -> Prop) :
  calls i x s ->
  (forall r s1, st R (held_by me) t cs s1 -> aside s s1 -> zombie_found (R := R) (t := t) (R, i) 0 14 false r ->
    hoare Total (match r with
      | (Some p, _) => pid ← reap PA link p; release_sched_lock me;; mret (Some pid)
      | (None, hk) => if negb hk || negb (killed_ x =? 0) then release_sched_lock me;; mret (Some (-1))
                      else sleep me (ProcChan (R, i)) None;; mret None
      end) (fun r s' => r = v /\ Q s') s1) ->
  exists s', wait PA link me s = Ret (v, s') /\ Q s'.
Proof.
  intros (Hs & Hr & Hlen) HQ. pose proof Hr as (HR & Hp & Hi & Hx & Hsch).
  destruct (hoare_total (wait PA link me) (fun r s' => r = v /\ Q s') s) as (r & s' & E & -> & H); [| by exists s'].
  apply hoare_bind. eapply hoare_mono; [apply hoare_and; [by eapply acquire_sched_ok | apply acquire_sched_aside] |].
  intros [] s1 [[_ Hs1] Ha]. apply hoare_bind. eapply thiscpu_ok; [done |]. apply hoare_bind. eapply this_proc_ok; [done.. |].
  rewrite HR. apply hoare_bind. eapply hoare_mono; [eapply find_zombie_ok; [done | lia | lia] |].
  intros [[p|] hk] s2 [-> Hz]; [by apply (HQ (Some p, hk)) |].
  apply hoare_bind. eapply load_proc_ok; [done.. |]. by apply (HQ (None, hk)).
Qed.

(** C16: wait, called with the lock free, behaves in each of its cases as follows.  With
    a zombie child it returns the pid of one, whose slot is free again; the page table
    and all the pages of the child, and its kernel stack, are back in the free list,
    and no other page and no file is touched.  Without children it returns -1 and
    changes nothing.  With children but no zombie it puts the caller to sleep on
    itself, to be woken by the exit of a child. *)
Theorem wait_reaps i x (s : K) (Hc : calls i x s) :
  (forall j z ps free, zombie i j z -> (forall k y, zombie i k y -> j <= k) ->
    address_space PA (k_vm s) (pgdir z) ps free -> frame (kstack z) -> kstack z ∉ ps ++ free ->
    exists s', wait PA link me s = Ret (Some (pid z), s') /\
      st R init_spinlock (<[Z.to_nat j := reaped z]> t) cs s' /\ k_fs s' = k_fs s /\
      (exists free', pa_inv (vm_pool (k_vm s')) free' /\ free' ≡ₚ kstack z :: ps ++ free) /\
      forall p, p ∉ kstack z :: ps -> ram (k_vm s') p = ram (k_vm s) p) /\
  ((forall j z, ~ child i j z) ->
    exists s', wait PA link me s = Ret (Some (-1), s') /\ st R init_spinlock t cs s' /\ aside s s') /\
  ((exists j z, child i j z) -> (forall j z, ~ zombie i j z) -> killed_ x = 0 ->
    exists s', wait PA link me s = Ret (None, s') /\
      st R (held_by me) (<[Z.to_nat i := asleep (ProcChan (R, i)) None x]> t) cs s').
Proof.
  pose proof Hc as (Hs & Hr & Hlen). pose proof Hr as (HR & _). split_and!.
  - intros j z ps free [Hz Hst] Hfirst Hsp Hf Hk.
    apply (wait_search i x); [done |].
    intros [[p|] hk] s1 Hs1 (Ev & Ef & _) Hzf; cbn [zombie_found] in Hzf.
    + destruct Hzf as (_ & j' & z' & -> & Hj' & Hc' & Hst' & Hmin).
      assert (j' = j) as ->.
      { pose proof (Hfirst j' z' ltac:(by split; [split; [lia |] |])). destruct (decide (j < j')) as [Hlt|]; [| lia].
        destruct Hz as [Hj0 Hz]. exfalso. apply (Hmin j z); [lia | done | done]. }
      assert (z' = z) as -> by (destruct Hc' as [? _], Hz as [_ [? _]]; congruence).
      rewrite <- Ev in Hsp. destruct Hc' as [Hjz _]. h_bind reap_ok; [done | lia | done.. |].
      intros v s2 (-> & Hs2 & Ef2 & Hfree & Hram). apply hoare_bind.
      eapply hoare_mono; [apply hoare_and; [by eapply release_sched_ok | apply release_sched_aside] |].
      intros [] s3 [Hs3 (Ev3 & Ef3 & _)]. apply hoare_ret. split; [done |]. rewrite Ev3, Ef3, Ef2, <- Ev. by split_and!.
    + destruct Hzf as [Hno _]. destruct Hz as [Hj0 Hz]. exfalso. by apply (Hno j z); [lia | |].
  - intros Hno. apply (wait_search i x); [done |].
    intros [[p|] hk] s1 Hs1 Ha Hzf; cbn [zombie_found] in Hzf.
    + destruct Hzf as (_ & j & z & _ & Hj & Hz & _). exfalso. by apply (Hno j z); split; [lia |].
    + assert (hk = false) as ->.
      { apply not_true_iff_false. rewrite (proj2 Hzf). intros [|(j & z & Hj & Hz)]; [done |]. apply (Hno j z). split; [lia | done]. }
      apply hoare_bind. eapply hoare_mono; [apply hoare_and; [by eapply release_sched_ok | apply release_sched_aside] |].
      intros [] s2 [Hs2 Ha2]. apply hoare_ret. split; [done |]. split; [done | by etrans].
  - intros (j & z & Hj0 & Hz) Hno Hkill.
    apply (wait_search i x); [done |].
    intros [[p|] hk] s1 Hs1 Ha Hzf; cbn [zombie_found] in Hzf.
    + destruct Hzf as (_ & j' & z' & _ & Hj & Hz' & Hst' & _). exfalso. by apply (Hno j' z'); split; [split; [lia |] |].
    + assert (hk = true) as ->. { apply Hzf. right. exists j, z. split; [lia | done]. }
      rewrite Hkill. cbn [negb orb]. h_bind @sleep_table_ok; [done.. |]. intros [] s2 Hs2. by apply hoare_ret.
Qed.
End reaping.

(** ** Witnesses *)

(** Slot 0 runs on CPU 0, slot 1 is its zombie child with pid 5. *)
Definition family_parent : proc := set_state RUNNING no_proc.
Definition family_zombie : proc :=
  set_pid 5 (set_parent (Some (1, 0)) (set_kstack (fr 40) (set_pgdir (fr 0) (set_state ZOMBIE no_proc)))).
Definition family : list proc := family_parent :: family_zombie :: replicate 12 no_proc.
Definition family_cpu (_ : Z) : cpu_ := mkCpu 1 (Some (1, 0)) 0.
Definition family_kernel (c : bcache (Arena pmem)) : kernel pmem (bcache (Arena pmem)) (Arena pmem) unit :=
  mkK vm0 (idle_files c) tt (fun _ => set_procs family zero_container) 1 family_cpu (fun _ => init_spinlock) false false.

Lemma family_calls c : calls 0 (R := 1) (t := family) (cs := family_cpu) 0 family_parent (family_kernel c).
Proof. split; [split_and!; reflexivity |]. split; [split_and!; reflexivity || done | reflexivity]. Qed.

Lemma wait_reaps_witness : exists c s',
  wait (kernel_pages 0) word 0 (family_kernel c) = Ret (Some 5, s') /\
  exists free', pm_inv (vm_pool (k_vm s')) free' /\ free' ≡ₚ fr 40 :: [fr 0] ++ free_frames.
Proof.
  destruct image_cache as [c _]. exists c.
  destruct (wait_reaps (kernel_pages 0) word 0 0 family_parent (family_kernel c) (family_calls c)) as (H & _).
  destruct (H 1 family_zombie [fr 0] free_frames) as (s' & E & _ & _ & Hf & _).
  - split; [| reflexivity]. split; [lia |]. split; reflexivity.
  - intros k y [[Hk [Hy Hp]] Hz]. destruct (decide (k = 0)) as [->|]; [| lia]. cbn in Hy. injection Hy as <-. discriminate.
  - exact vm0_address_space.
  - apply frame_fr. lia.
  - apply (bool_decide_unpack _). vm_compute. exact I.
  - exists s'. split; [exact E | exact Hf].
Defined.
