(* ===== verification/ForkTheorems.v ===== *)
(** fork of core/proc.c: the child it makes, with the memory of the parent in frames
    of its own, the files and the directory shared, and x0 = 0. *)
From S2P Require Import Prelude Bytes CString Locks PhysMem Arena FsDefs Cache CacheTheorems BlockCache Path Inode InodeSpec InodeTable InodeTheorems File FileTheorems VirtualMemory PageTable VirtualMemorySpec AddressSpaces VmTheorems Process Sched Proc SchedSpec ProcTheorems.

(** * Creating a process *)

Section creating.
Context {P B A C : Type} (PA : PageAllocator P) (me : Z) (d : nat).
Notation K := (kernel P B A C).
Context {R : Z} {cs : Z -> cpu_} {t : list proc}.

(** The root container can give out the pid [n + 1]. *)
Definition pid_ready (n : Z) (s : K) : Prop :=
  c_lock (k_conts s R) = init_spinlock /\ s_pid (k_conts s R) = n /\ 0 <= n < NPID - 1.

Lemma alloc_pid_ok p l n (s : K) :
  st R l t cs s -> pid_ready n s ->
  hoare Total (alloc_resource me (S d) R p PID) (fun _ s' =>
    (st R l t cs s' /\ s_pid (k_conts s' R) = n + 1) /\ aside s s') s.
Proof.
  intros (HR & Hl & Ht & Hc) (Hcl & Hn & Hb). unfold NPID in Hb. cbn [alloc_resource].
  apply hoare_bind, load_cont_ok, hoare_bind. rewrite Hcl. unfold hoare at 1, lift. cbn.
  apply hoare_bind, store_cont_ok, hoare_bind, hoare_bind, load_cont_ok. cbn [k_conts set_k_conts].
  rewrite upd_at_eq. cbn [s_pid set_c_lock]. rewrite Hn. unfold NPID. rewrite (proj2 (Z.eqb_neq n 64)) by lia.
  assert (i32 (n + 1) = n + 1) as -> by (unfold i32, sgn; rewrite Z.mod_small, (proj2 (Z.ltb_lt _ _)) by lia; done).
  apply hoare_bind, store_cont_ok, hoare_bind, hoare_bind, load_cont_ok. cbn [k_conts set_k_conts]. rewrite upd_at_eq.
  rewrite (proj2 (Z.leb_le 0 (n + 1))), (proj2 (Z.ltb_lt (n + 1) NPID)) by (unfold NPID; lia). cbn [andb].
  apply store_cont_ok, hoare_ret, hoare_bind, load_cont_ok. cbn [k_conts set_k_conts]. rewrite upd_at_eq.
  apply hoare_bind. cbn [c_lock set_pmap set_s_pid set_c_lock]. unfold hoare at 1, lift. rewrite release_own. cbn.
  apply hoare_bind, store_cont_ok, hoare_bind. unfold hoare at 1, get. cbn [k_root set_k_conts]. rewrite HR, Z.eqb_refl. cbn [negb].
  apply hoare_bind, hoare_ret, hoare_ret. split; [| done]. unfold st. cbn. rewrite upd_at_eq. cbn. by split_and!.
Qed.

(** Slot [j] is the first free one. *)
Definition first_unused (j : Z) (z : proc) : Prop :=
  0 <= j /\ t !! Z.to_nat j = Some z /\ state z = UNUSED /\
  forall k y, 0 <= k < j -> t !! Z.to_nat k = Some y -> state y ≠ UNUSED.

Lemma find_unused_ok l j z (s : K) :
  st R l t cs s -> length t = 14%nat -> first_unused j z ->
  hoare Total (for_until 0 14 (fun i => x ← load_proc (R, i); if bool_decide (state x = UNUSED) then mret (Some i) else mret None))
    (fun r s' => r = Some j /\ s' = s) s.
Proof.
  intros Hs Hlen (Hj & Hz & Hu & Hfirst). assert (j < 14) by (apply lookup_lt_Some in Hz; lia).
  eapply (hoare_for_until _ (fun k s' => s' = s /\ k <= j)); [| | done].
  2: { intros s2 [_ Hk]. lia. }
  intros k s2 Hk [-> Hkj]. destruct (lookup_lt_is_Some_2 t (Z.to_nat k)) as [y Hy]; [lia |].
  apply hoare_bind. eapply load_proc_ok; [done | lia | done |]. destruct (decide (k = j)) as [->|Hne].
  - simplify_eq. by rewrite bool_decide_eq_true_2.
  - rewrite bool_decide_eq_false_2 by (apply (Hfirst k); [lia | done]). apply hoare_ret. split; [done | lia].
Qed.

Lemma bind_ret {S X Y} (c : M S X) (k : X -> M S Y) s a s' : c s = Ret (a, s') -> (c ≫= k) s = k a s'.
Proof. unfold mbind, M_bind. by intros ->. Qed.

Lemma hoare_eq strict {S X} (c c' : M S X) Q s s' : c s = c' s' -> hoare strict c' Q s' -> hoare strict c Q s.
Proof. unfold hoare. by intros ->. Qed.

Lemma bind_fault {S X Y} (c : M S X) (k : X -> M S Y) s : c s = Fault -> (c ≫= k) s = Fault.
Proof. unfold mbind, M_bind. by intros ->. Qed.

(** The beginning of alloc_pcb: the lock is taken and slot [j] found. *)
Lemma alloc_pcb_found j z (s : K) :
  st R init_spinlock t cs s -> scheduler (cs me) = R -> R ≠ 0 -> length t = 14%nat -> first_unused j z ->
  exists s1, st R (held_by me) t cs s1 /\ aside s s1 /\
    c_lock (k_conts s1 R) = c_lock (k_conts s R) /\ s_pid (k_conts s1 R) = s_pid (k_conts s R) /\
    alloc_pcb me (S d) s = (alloc_resource me (S d) R (R, j) PID;; c ← load_cont R; modify_proc (R, j) (set_pid (s_pid c));;
      modify_proc (R, j) (set_state EMBRYO);; release_ptable_lock me R;; mret (Some (R, j))) s1.
Proof.
  intros Hs HR H0 Hlen Hj. pose proof Hs as (_ & _ & _ & Hcpu).
  pose proof (hoare_and Total _ _ _ s (acquire_ptable_ok Total me s Hs ltac:(by split)) (acquire_ptable_aside me R s)) as H.
  apply hoare_total in H as ([] & s1 & E1 & [_ Hs1] & Ha1 & Ec & Ep). exists s1. split_and!; [done.. |].
  destruct (hoare_total _ _ _ (find_unused_ok (held_by me) j z s1 Hs1 Hlen Hj)) as (r & s2 & E2 & -> & ->).
  unfold alloc_pcb. erewrite bind_ret by done. rewrite Hcpu, HR, (proj2 (Z.eqb_neq R 0)) by done. erewrite bind_ret by done.
  unfold alloc_pcb_simple. erewrite bind_ret by exact E1. by erewrite bind_ret by exact E2.
Qed.

Lemma alloc_pcb_first j z n (s : K) :
  st R init_spinlock t cs s -> scheduler (cs me) = R -> R ≠ 0 -> length t = 14%nat -> first_unused j z -> pid_ready n s ->
  hoare Total (alloc_pcb me (S d)) (fun r s' => r = Some (R, j) /\
    st R init_spinlock (<[Z.to_nat j := set_state EMBRYO (set_pid (n + 1) z)]> t) cs s' /\ aside s s') s.
Proof.
  intros Hs HR H0 Hlen Hj (Hcl & Hn & Hb). pose proof Hj as (Hj0 & Hz & _).
  destruct (alloc_pcb_found j z s) as (s1 & Hs1 & Ha1 & Hcl1 & Hn1 & E); [done.. |]. rewrite Hcl in Hcl1. rewrite Hn in Hn1.
  apply (hoare_eq _ _ _ _ _ _ E). h_bind alloc_pid_ok; [done | exact (conj Hcl1 (conj Hn1 Hb)) |].
  intros v s3 [[Hs3 Ep] Ha3]. apply hoare_bind, load_cont_ok. rewrite Ep.
  rewrite <- (list_insert_id t _ _ Hz) in Hs3. assert (aside s s3) as Ha3' by by etrans.
  h_bind @change_aside; [done.. |]. intros [] s4 [Hs4 Ha4]. h_bind @change_aside; [done.. |]. intros [] s5 [Hs5 Ha5].
  apply hoare_bind. eapply hoare_mono; [apply hoare_and; [by eapply release_ptable_ok | apply release_ptable_aside] |].
  intros [] s6 [Hs6 Ha6]. apply hoare_ret. split_and!; [done | done | by etrans].
Qed.

(** A new process with an empty page table in frame [q1] and the stack in [q2]. *)
Definition newborn (pid_ q1 q2 : Z) (z : proc) : proc :=
  set_context Forkret (set_tf zero_tf (set_kstack q2 (set_pgdir q1 (set_state EMBRYO (set_pid pid_ z))))).

Lemma space_tail (v : vmem P) (T : pt 4) (q1 : Z) v' (l : list Z) :
  space PA v T (q1 :: l) -> space PA v' (empty_table 3 q1) l -> kept v v' [q1] -> space PA v' T l.
Proof.
  intros H0 H1 Hk. eapply (space_aside PA v v' T (empty_table 3 q1)); [done | done | |].
  - unfold empty_table. rewrite tpages_S, kpages_empty. done.
  - intros x Hx. apply Hk. intros E%list_elem_of_singleton. subst x. apply Hx. by left.
Qed.

Lemma alloc_proc_first j z n (T : pt 4) q1 q2 l (s : K) :
  st R init_spinlock t cs s -> scheduler (cs me) = R -> R ≠ 0 -> length t = 14%nat -> first_unused j z -> pid_ready n s ->
  space PA (k_vm s) T (q1 :: q2 :: l) ->
  hoare Total (alloc_proc PA me (S d)) (fun r s' => r = (R, j) /\
    st R init_spinlock (<[Z.to_nat j := newborn (n + 1) q1 q2 z]> t) cs s' /\ k_fs s' = k_fs s /\
    space PA (k_vm s') T l /\ kept (k_vm s) (k_vm s') [q1]) s.
Proof.
  intros Hs HR H0 Hlen Hj Hn Hsp. pose proof Hj as (Hj0 & Hz & _). h_bind alloc_pcb_first; [done.. |].
  intros r s1 (-> & Hs1 & Ev & Ef & _). rewrite <- Ev in Hsp. apply hoare_bind.
  pose proof (sp_nodup _ _ _ _ Hsp) as (_ & _ & Hnd)%NoDup_app. pose proof (sp_frames _ _ _ _ Hsp) as [_ Hfr]%Forall_app.
  eapply (in_vm_total _ (fun r v => r = q1 /\ space PA v (empty_table 3 q1) (q2 :: l) /\ kept (k_vm s1) v [q1])).
  { eapply (pgdir_init_ok PA no_panic (d := 3)); [apply Hsp | apply Hsp | done | done |]. done. }
  intros d1 v1 (-> & He & Hk). pose proof (space_tail _ _ _ _ _ Hsp He Hk) as Hsp1.
  assert (st R init_spinlock (<[Z.to_nat j := set_state EMBRYO (set_pid (n + 1) z)]> t) cs (set_k_vm v1 s1)) as Hs2 by exact Hs1.
  h_bind @change_aside; [done | reflexivity | done.. |]. intros [] s3 [Hs3 (Ev3 & Ef3 & _)]. cbn in Ev3, Ef3.
  apply hoare_bind. eapply (in_vm_total _ (fun r v => r = q2 /\ space PA v T l /\ ram v = ram v1)).
  { rewrite Ev3. eapply vm_kalloc_ok; [apply Hsp1 |]. intros pool Hp. split; [done |]. split; [| done]. by eapply space_take. }
  intros sp v2 (-> & Hsp2 & Er). apply hoare_bind.
  assert (q2 ≠ 0) as Hq2 by (apply frame_ne0; by apply Forall_cons in Hfr as [_ [? _]%Forall_cons]).
  rewrite (proj2 (Z.eqb_neq q2 0)) by done. apply hoare_ret.
  assert (st R init_spinlock (<[Z.to_nat j := set_pgdir q1 (set_state EMBRYO (set_pid (n + 1) z))]> t) cs (set_k_vm v2 s3)) as Hs4 by exact Hs3.
  h_bind @change_aside; [done | reflexivity | done.. |]. intros [] s5 [Hs5 Ha5]. h_bind @change_aside; [done.. |].
  intros [] s6 [Hs6 Ha6]. h_bind @change_aside; [done.. |]. intros [] s7 [Hs7 (Ev7 & Ef7 & _)]. cbn in Ev7, Ef7.
  apply hoare_ret. split_and!; [done | exact Hs7 | by rewrite Ef7, Ef3, Ef | by rewrite Ev7 |].
  intros x Hx. rewrite Ev7, Er, <- Ev. by apply Hk.
Qed.
End creating.

(** * Sharing the files *)

Section sharing.
Context {P B A C : Type} (me : Z).
Notation K := (kernel P B A C).
Context {R : Z} {cs : Z -> cpu_} {t : list proc}.

Lemma filedup_tree f (s : files B A) : hoare Loose (filedup me f) (fun _ s' => tree s' = tree s) s.
Proof.
  unfold hoare, filedup, lock_ftable, unlock_ftable, load_file, store_file, mbind, M_bind, get, modify, lift. cbn.
  unfold mbind, outcome_bind. destruct (acquire_spinlock _ _); cbn; [| done..].
  destruct (ftable s !! Z.to_nat f) as [x|]; cbn; [| done]. destruct (0 <=? f); cbn; [| done].
  destruct (ref x <? 1); cbn; [done |]. by destruct (release_spinlock _ _).
Qed.

(** The references the open files of the parent add, most recent first. *)
Definition opened (l : list (option Z)) : list Z := reverse (omap id l).

Lemma opened_snoc l o : opened (l ++ [o]) = match o with Some f => f :: opened l | None => opened l end.
Proof. unfold opened. rewrite omap_app. destruct o as [f|]; cbn; [by rewrite reverse_snoc | by rewrite app_nil_r]. Qed.

(** The child in slot [j] has taken over [k] descriptors of the parent in slot [i]. *)
Definition inherited (i j : Z) (x y : proc) (h : list Z) (s0 : K) (k : Z) (s : K) : Prop :=
  st R init_spinlock (<[Z.to_nat j := set_ofile (take (Z.to_nat k) (ofile x) ++ drop (Z.to_nat k) (ofile y)) y]> t) cs s /\
  k_vm s = k_vm s0 /\ counted (k_fs s) (opened (take (Z.to_nat k) (ofile x)) ++ h) /\ tree (k_fs s) = tree (k_fs s0).

Lemma length_opened l : (length (opened l) <= length l)%nat.
Proof. unfold opened. rewrite length_reverse. induction l as [|[f|] l IH]; cbn; lia. Qed.

Lemma wp_frame {S X} E (c : M S X) Q Q' s : wp E c Q s -> hoare Loose c Q' s -> wp E c (fun x s' => Q x s' /\ Q' x s') s.
Proof. unfold wp, hoare. destruct (c s) as [[x s']| | | |]; auto. Qed.

(** One descriptor more. *)
Lemma ofile_step (ox oy : list (option Z)) k o :
  oy = replicate 8 None -> length ox = 8%nat -> ox !! k = Some o ->
  (match o with Some f => <[k := Some f]> (take k ox ++ drop k oy) | None => take k ox ++ drop k oy end) =
  take (S k) ox ++ drop (S k) oy.
Proof.
  intros -> Hx Ho. assert (k < 8)%nat by (apply lookup_lt_Some in Ho; lia).
  rewrite (take_S_r _ _ o) by done. rewrite (drop_S (replicate 8 None) None k) by (by apply lookup_replicate_2).
  assert (length (take k ox) = k) as Hk by (rewrite length_take; lia). rewrite <- app_assoc.
  destruct o as [f|]; [| done]. by rewrite insert_app_r_alt, Hk, Nat.sub_diag by lia.
Qed.

Lemma dup_files_ok i j x y z h (s : K) :
  st R init_spinlock (<[Z.to_nat j := y]> t) cs s -> 0 <= i -> 0 <= j -> Z.to_nat j ≠ Z.to_nat i ->
  t !! Z.to_nat i = Some x -> t !! Z.to_nat j = Some z -> length (ofile x) = 8%nat -> ofile y = replicate 8 None ->
  counted (k_fs s) h -> (forall f, Some f ∈ ofile x -> f ∈ h) -> Z.of_nat (length h) + 8 < 2 ^ 31 ->
  hoare Total (dup_files me (R, j) (R, i)) (fun _ s' =>
    st R init_spinlock (<[Z.to_nat j := set_ofile (ofile x) y]> t) cs s' /\ k_vm s' = k_vm s /\
    counted (k_fs s') (opened (ofile x) ++ h) /\ tree (k_fs s') = tree (k_fs s)) s.
Proof.
  intros Hs Hi Hj Hji Hx Hz Hlx Hoy Hct Hop Hb.
  eapply hoare_mono; [apply (hoare_for_range _ (inherited i j x y h s)) |].
  - intros k s1 Hk (Hs1 & Ev & Hc1 & Et). destruct (lookup_lt_is_Some_2 (ofile x) (Z.to_nat k)) as [o Ho]; [lia |].
    apply hoare_bind. eapply load_proc_ok; [done.. | by rewrite list_lookup_insert_ne |]. rewrite Ho.
    unfold inherited. replace (Z.to_nat (k + 1)) with (S (Z.to_nat k)) by lia.
    rewrite <- (ofile_step _ _ _ _ Hoy Hlx Ho), (take_S_r _ _ o), opened_snoc by done.
    destruct o as [f|]; [| by apply hoare_ret]. apply hoare_bind.
    eapply (in_fs_total _ (fun r v => (r = f /\ counted v (f :: opened (take (Z.to_nat k) (ofile x)) ++ h)) /\ tree v = tree (k_fs s1))).
    { apply wp_frame; [| apply filedup_tree]. eapply filedup_counted; [done | | | done].
      - apply elem_of_app. right. apply Hop. by eapply list_elem_of_lookup_2.
      - rewrite length_app. pose proof (length_opened (take (Z.to_nat k) (ofile x))). rewrite length_take in *. lia. }
    intros r v [[-> Hcv] Etv]. apply hoare_bind.
    eapply load_proc_ok; [exact Hs1 | done | by eapply lookup_put |].
    eapply hoare_mono; [apply hoare_and; [by eapply store_proc_ok; exact Hs1 |] |].
    { instantiate (1 := fun _ s' => k_vm s' = k_vm s1 /\ k_fs s' = v). done. }
    intros [] s2 [Hs2 [Ev2 Ef2]]. rewrite list_insert_insert_eq in Hs2. split_and!; [exact Hs2 | congruence | by rewrite Ef2 |].
    rewrite Ef2. congruence.
  - split_and!; try done. cbn. rewrite drop_0. by destruct y.
  - intros [] s1 (Hs1 & Ev & Hc1 & Et). change (Z.to_nat (0 + Z.of_nat 8)) with 8%nat in *.
    rewrite take_ge in Hs1, Hc1 by lia. rewrite Hoy, drop_ge, app_nil_r in Hs1 by done. done.
Qed.
End sharing.

(** * fork *)

Section fork.
Context {P B A C : Type} (PA : PageAllocator P) (link : P -> Z -> Z) (me : Z) (d : nat).
Context {sb : SuperBlock} `{BC : BlockCache sb B} `{OA : ObjectArena A}.
Notation K := (kernel P B A C).
Context {R : Z} {cs : Z -> cpu_} {t : list proc}.

(** The trap frame of the child: the parent's, with 0 as the result of the call. *)
Definition zero_result (f : Trapframe) : Trapframe :=
  mkTf (spsr f) (elr f) (tf_sp f) (tpidr f) (<[0%nat := 0]> (xregs f)) (tf_padding f) (q0 f).

(** The child of [x] in slot [i], with pid [n], page table [c] and kernel stack [q];
    what fork does not set it has from the last user of the slot, [z]. *)
Definition forked (i : Z) (x : proc) (n c q : Z) (z : proc) : proc :=
  mkProc (sz x) c q RUNNABLE n (Some (R, i)) (zero_result (tf x)) Forkret (chan z) (killed_ z) (cont z) (is_scheduler z)
    (ofile x) (cwd x) (stksz z) (base z).

(** The parent [x] and the files it uses: every open file and the current directory
    are counted in the file table and the inode table. *)
Definition shares (x : proc) (h : list Z) (s : K) : Prop :=
  counted (k_fs s) h /\ (forall f, Some f ∈ ofile x -> f ∈ h) /\ Z.of_nat (length h) + 8 < 2 ^ 31 /\ length (ofile x) = 8%nat /\
  (exists r, table sb (tree (k_fs s)) r) /\ cwd x ∈ tree_head (tree (k_fs s)) /\
  count (rc (tree_mem (tree (k_fs s)) (cwd x))) < 2 ^ 63 - 1.

(** From the copy of the memory on, the child in slot [j] being set up. *)
Lemma fork_rest i j x z n c q1 q h (s : K) :
  st R init_spinlock (<[Z.to_nat j := set_pgdir c (newborn n q1 q z)]> t) cs s ->
  0 <= i -> 0 <= j -> Z.to_nat j ≠ Z.to_nat i ->
  t !! Z.to_nat i = Some x -> t !! Z.to_nat j = Some z -> ofile z = replicate 8 None -> shares x h s ->
  hoare Total (
    modify_proc (R, j) (set_sz (sz x));;
    modify_proc (R, j) (set_tf (tf x));;
    modify_proc (R, j) (fun y => set_tf (mkTf (spsr (tf y)) (elr (tf y)) (tf_sp (tf y)) (tpidr (tf y)) (<[0%nat := 0]> (xregs (tf y))) (tf_padding (tf y)) (q0 (tf y))) y);;
    modify_proc (R, j) (set_parent (Some (R, i)));;
    dup_files me (R, j) (R, i);;
    x ← load_proc (R, i);
    ip ← in_tree (inode_share me (cwd x));
    modify_proc (R, j) (set_cwd ip);;
    modify_proc (R, j) (set_state RUNNABLE);;
    y ← load_proc (R, j);
    mret (pid y)) (fun r s' => r = n /\
      st R init_spinlock (<[Z.to_nat j := forked i x n c q z]> t) cs s' /\ k_vm s' = k_vm s /\
      counted (k_fs s') (opened (ofile x) ++ h) /\
      got (tree (k_fs s)) (ino (tree_mem (tree (k_fs s)) (cwd x))) (cwd x) (tree (k_fs s'))) s.
Proof.
  intros Hs Hi Hj Hji Hx Hz Hoz (Hct & Hop & Hb & Hlx & (r & Htb) & Hcw & Hrc).
  h_bind @change_aside; [done | reflexivity | done.. |]. intros [] s1 [Hs1 Ha1]. h_bind @change_aside; [done.. |]. intros [] s2 [Hs2 Ha2].
  h_bind @change_aside; [done.. |]. intros [] s3 [Hs3 Ha3]. h_bind @change_aside; [done.. |]. intros [] s4 [Hs4 (Ev4 & Ef4 & _)].
  h_bind @dup_files_ok; [done.. | by rewrite Ef4 | done | done |].
  intros [] s5 (Hs5 & Ev5 & Hct5 & Et5). rewrite Ef4 in Et5.
  apply hoare_bind. eapply load_proc_ok; [done.. | by rewrite list_lookup_insert_ne |]. apply hoare_bind.
  eapply (in_fs_total _ (fun ip v => ip = cwd x /\ ftable v = ftable (k_fs s5) /\ ftable_lock v = ftable_lock (k_fs s5) /\
    got (tree (k_fs s)) (ino (tree_mem (tree (k_fs s)) (cwd x))) (cwd x) (tree v))).
  { apply wp_on_tree. rewrite Et5. eapply inode_share_ok; [done.. |]. intros T Hg _. done. }
  intros ip v (-> & Eft & Efl & Hg).
  assert (counted v (opened (ofile x) ++ h)) as Hcv by (destruct Hct5 as [C1 C2 C3 C4]; split; [congruence | congruence | done | by rewrite Eft]).
  h_bind @change_aside; [exact Hs5 | reflexivity | done.. |]. intros [] s6 [Hs6 Ha6]. h_bind @change_aside; [done.. |].
  intros [] s7 [Hs7 (Ev7 & Ef7 & _)]. apply hoare_bind. eapply load_proc_ok; [done.. | by eapply lookup_put |]. apply hoare_ret.
  cbn in Ev7, Ef7. rewrite Ev7, Ef7. split_and!; try done; congruence.
Qed.

(** C4: fork, called by the process [x] in slot [i] with the lock free, a free slot, a
    free pid and enough free frames ([q1], [q2] and those of [l]), returns the new pid.
    The child is runnable in the first free slot, a copy of the caller that resumes
    with 0 in x0; it reads the same byte as the parent at every user address, through
    a page table of frames [pc] the parent has no part in, while the parent's memory
    is as before; it shares the open files and the directory, whose reference counts
    count it.  The frame [q1], which alloc_proc took for an empty page table, is lost:
    it is neither free nor in an address space.  (The comment above fork says that the
    caller must make the child RUNNABLE; fork does it itself.) *)
Theorem fork_copies i x j z n ps q1 q2 l h (s : K)
  (Hc : calls me (R := R) (cs := cs) (t := t) i x s) (Hrun : state x = RUNNING) (H0 : R <> 0)
  (Hj : first_unused (t := t) j z) (Hoz : ofile z = replicate 8 None) (Hn : pid_ready (R := R) n s)
  (Hsp : address_space PA (k_vm s) (pgdir x) ps (q1 :: q2 :: l)) (Hl : (length ps <= length l)%nat)
  (Hsh : shares x h s) :
  exists c s' pc l', fork PA link me (S d) s = Ret (n + 1, s') /\
    st R init_spinlock (<[Z.to_nat j := forked i x (n + 1) c q2 z]> t) cs s' /\
    address_space PA (k_vm s') c pc l' /\ address_space PA (k_vm s') (pgdir x) ps l' /\
    pc ++ l' ≡ₚ l /\ (forall p, p ∈ pc -> p ∉ ps) /\ q1 ∉ pc ++ ps ++ l' /\
    (forall va, user_byte (ram (k_vm s')) c va = user_byte (ram (k_vm s)) (pgdir x) va /\
      user_byte (ram (k_vm s')) (pgdir x) va = user_byte (ram (k_vm s)) (pgdir x) va) /\
    counted (k_fs s') (opened (ofile x) ++ h) /\
    got (tree (k_fs s)) (ino (tree_mem (tree (k_fs s)) (cwd x))) (cwd x) (tree (k_fs s')).
Proof.
  destruct Hc as (Hs & (HR & Hp & Hi & Hx & Hsch) & Hlen). pose proof Hj as (Hj0 & Hz & Hu & _).
  destruct Hsp as (T & HT & <- & Hsp). assert (Z.to_nat j <> Z.to_nat i) as Hji by congruence.
  rewrite <- HT.
  pose proof (sp_nodup _ _ _ _ Hsp) as Hnd.
  assert (exists r s', fork PA link me (S d) s = Ret (r, s') /\ exists c pc l', r = n + 1 /\
    st R init_spinlock (<[Z.to_nat j := forked i x (n + 1) c q2 z]> t) cs s' /\
    (exists v, copied_space PA v (k_vm s') (top T) c (tpages T) pc l l' /\ space PA v T l /\ kept (k_vm s) v [q1]) /\
    counted (k_fs s') (opened (ofile x) ++ h) /\
    got (tree (k_fs s)) (ino (tree_mem (tree (k_fs s)) (cwd x))) (cwd x) (tree (k_fs s'))) as H.
  { apply hoare_total. h_bind @alloc_proc_first; [done.. |]. intros r s1 (-> & Hs1 & Ef1 & Hsp1 & Hk1).
    apply hoare_bind. eapply this_proc_ok; [done.. |].
    apply hoare_bind. eapply load_proc_ok; [done.. | by rewrite list_lookup_insert_ne |]. rewrite <- HT. apply hoare_bind.
    eapply in_vm_total; [apply (uvm_copy_ok PA (k_vm s1) (top T) (tpages T) l); [by exists T | done] |].
    intros c v (pc & l' & Hcp). h_bind @change_aside; [exact Hs1 | reflexivity | done.. |].
    intros [] s2 [Hs2 (Ev2 & Ef2 & _)]. cbn in Ev2, Ef2. assert (c <> 0) as Hc0.
    { destruct Hcp as ((Tc & <- & _ & Hspc) & _). apply frame_ne0. by eapply space_top. }
    rewrite (proj2 (Z.eqb_neq c 0)) by done.
    eapply hoare_mono; [eapply fork_rest; [done.. | unfold shares; rewrite Ef2, Ef1; exact Hsh] |].
    intros r s3 (-> & Hs3 & Ev3 & Hct & Hg). exists c, pc, l'. rewrite Ef2, Ef1 in Hg.
    split_and!; [done | exact Hs3 | | done | done]. exists (k_vm s1). rewrite Ev3, Ev2. by split_and!. }
  destruct H as (r & s' & E & c & pc & l' & -> & Hs' & (v & (H1 & H2 & H3 & _ & H5 & _ & H7) & Hv & Hk) & Hct & Hg).
  exists c, s', pc, l'. split_and!; try done.
  - rewrite <- H3 in Hnd. apply NoDup_app in Hnd as (_ & Hd1 & [Hq1 _]%NoDup_cons).
    rewrite app_assoc, (Permutation_app_comm pc), <- app_assoc. intros [Hq|Hq]%elem_of_app.
    + apply (Hd1 q1 Hq). by left.
    + apply Hq1. by right.
  - intros va. destruct (H7 va) as [-> ->]. rewrite (user_byte_kept PA (k_vm s) v T (q1 :: q2 :: l) l [q1]); try done.
    intros p ->%list_elem_of_singleton Hp'. apply NoDup_app in Hnd as (_ & Hd1 & _). apply (Hd1 q1 Hp'). by left.
Qed.
(** The 64th pid: the bound is checked after the array index has passed it. *)
Lemma alloc_pid_faults l p (s : K) :
  st R l t cs s -> c_lock (k_conts s R) = init_spinlock -> s_pid (k_conts s R) = NPID - 1 ->
  alloc_resource me (S d) R p PID s = Fault.
Proof.
  intros (HR & _) Hcl Hn. cbn [alloc_resource]. erewrite bind_ret by done. rewrite Hcl. erewrite bind_ret by done.
  erewrite bind_ret by done. apply bind_fault. erewrite bind_ret by done. cbn [k_conts set_k_conts]. rewrite upd_at_eq.
  cbn [s_pid set_c_lock]. rewrite Hn. change (NPID - 1 =? NPID) with false. cbv iota. erewrite bind_ret by done.
  apply bind_fault. unfold store_pmap. by erewrite bind_ret by done.
Qed.

(** Pids are never given back, and the 64th process created since boot makes the
    kernel write behind the table of pids: with 63 pids given out, fork is a fault,
    however many slots and pages are free. *)
Theorem fork_pids_exhausted i x j z (s : K)
  (Hc : calls me (R := R) (cs := cs) (t := t) i x s) (H0 : R <> 0) (Hj : first_unused (t := t) j z)
  (Hcl : c_lock (k_conts s R) = init_spinlock) (Hn : s_pid (k_conts s R) = NPID - 1) :
  fork PA link me (S d) s = Fault.
Proof.
  destruct Hc as (Hs & (HR & _) & Hlen). do 2 apply bind_fault.
  destruct (alloc_pcb_found me d j z s Hs HR H0 Hlen Hj) as (s1 & Hs1 & _ & Hcl1 & Hn1 & ->).
  apply bind_fault. eapply alloc_pid_faults; [exact Hs1 | congruence | congruence].
Qed.
End fork.

(** ** Witnesses *)

(** A process with one open file and the directory at address [p]. *)
Definition forker (p : Z) : proc :=
  set_cwd p (set_ofile (Some 0 :: replicate 7 None) (set_pgdir (fr 0) (set_state RUNNING no_proc))).
Definition forker_table (p : Z) : list proc := forker p :: replicate 13 no_proc.
Definition forker_files (T : itree (bcache (Arena pmem)) (Arena pmem)) : files (bcache (Arena pmem)) (Arena pmem) :=
  set_ftable (<[0%nat := set_ref 1 no_file]> (ftable (fileinit T))) (fileinit T).
Definition forker_cpu (_ : Z) : cpu_ := mkCpu 1 (Some (1, 0)) 0.
Definition forker_kernel (T : itree (bcache (Arena pmem)) (Arena pmem)) (p : Z) : kernel pmem (bcache (Arena pmem)) (Arena pmem) unit :=
  mkK vm0 (forker_files T) tt (fun _ => set_procs (forker_table p) zero_container) 1 forker_cpu (fun _ => init_spinlock) true false.

Lemma forker_counted T : counted (forker_files T) [0].
Proof.
  apply (counted_set (fileinit T) [] [0] 0); [apply fileinit_counted | unfold NFILE; lia | | reflexivity |].
  - intros g ->%list_elem_of_singleton. unfold NFILE. lia.
  - intros g Hg. rewrite held_refs_cons, decide_False by done. done.
Qed.

Lemma fork_copies_witness : exists T p c s',
  fork (kernel_pages 0) word 0 1 (forker_kernel T p) = Ret (1, s') /\
  procs (k_conts s' 1) !! 1%nat = Some (forked (R := 1) 0 (forker p) 1 c (fr 2) no_proc).
Proof.
  destruct image_cache as [c HR]. destruct (got_file c HR) as (p & r & T & HT & Hp & _ & _ & Hrc & _).
  destruct (fork_copies (kernel_pages 0) word 0 0 (sb := small_sb) (R := 1) (cs := forker_cpu) (t := forker_table p)
    0 (forker p) 1 no_proc 0 [fr 0] (fr 1) (fr 2) (drop 2 free_frames) [0] (forker_kernel T p)) as (c' & s' & pc & l' & E & Hs & _).
  - split; [split_and!; reflexivity |]. split; [split_and!; reflexivity || done | reflexivity].
  - reflexivity.
  - discriminate.
  - split; [lia |]. split; [reflexivity |]. split; [reflexivity |]. intros k y Hk Hy.
    assert (k = 0) as -> by lia. cbn in Hy. injection Hy as <-. discriminate.
  - reflexivity.
  - split; [reflexivity |]. split; [reflexivity |]. unfold NPID. lia.
  - exact vm0_address_space.
  - cbn. lia.
  - split; [apply forker_counted |]. split; [| split; [cbn; lia |]].
    + intros f Hf. apply list_elem_of_In in Hf. cbn in Hf. destruct Hf as [[= <-]|Hf]; [left |]. repeat (destruct Hf as [Hf|Hf]; [discriminate |]). destruct Hf.
    + split; [reflexivity |]. split; [exists r; exact HT |]. split; [exact Hp |]. change (count (rc (tree_mem T p)) < 2 ^ 63 - 1). rewrite Hrc. lia.
  - exists T, p, c', s'. split; [exact E |]. destruct Hs as (_ & _ & Ht & _). rewrite Ht. reflexivity.
Defined.

(** The same process when 63 pids have been given out. *)
Definition late_kernel (T : itree (bcache (Arena pmem)) (Arena pmem)) (p : Z) : kernel pmem (bcache (Arena pmem)) (Arena pmem) unit :=
  set_k_conts (fun _ => set_s_pid 63 (set_procs (forker_table p) zero_container)) (forker_kernel T p).

Lemma fork_pids_exhausted_witness : exists T p, fork (kernel_pages 0) word 0 1 (late_kernel T p) = Fault.
Proof.
  destruct image_cache as [c HR]. destruct (got_file c HR) as (p & r & T & _). exists T, p.
  apply (fork_pids_exhausted (kernel_pages 0) word 0 0 (R := 1) (cs := forker_cpu) (t := forker_table p) 0 (forker p) 1 no_proc).
  - split; [split_and!; reflexivity |]. split; [split_and!; reflexivity || done | reflexivity].
  - discriminate.
  - split; [lia |]. split; [reflexivity |]. split; [reflexivity |]. intros k y Hk Hy.
    assert (k = 0) as -> by lia. cbn in Hy. injection Hy as <-. discriminate.
  - reflexivity.
  - reflexivity.
Defined.
