(* ===== verification/Syscall.v ===== *)
(** core/syscall.c and core/sysproc.c: the arguments of system calls, the process
    system calls, and memory as kernel code sees it while a process runs (user
    addresses through the page table of the CPU, kernel addresses directly). *)
From S2P Require Import Prelude Bytes CString Locks PhysMem Arena VirtualMemory PageTable FsDefs BlockCache Path Inode File Process Sched Proc.

(** * Memory accesses *)

Section memory.
Context {P B A C : Type} (me : Z).
Notation K := (kernel P B A C).

(** The frame and the offset in it behind an address; [None] is a fault. *)
Definition locate (r : Z -> list Z) (ttbr a : Z) : option (Z * Z) :=
  if a <? USPACE_TOP then p ← translate r (P2K ttbr) a; Some (p, a mod PAGE_SIZE)
  else if in_ram a then Some (frame_of a, a mod PAGE_SIZE)
  else None.

Definition load_byte (a : Z) : M K Z :=
  c ← thiscpu me;
  s ← get;
  match locate (ram (k_vm s)) (ttbr0 c) a with
  | Some (p, o) => match ram (k_vm s) p !! Z.to_nat o with Some b => mret b | None => fault end
  | None => fault
  end.

Definition store_byte (a b : Z) : M K unit :=
  c ← thiscpu me;
  s ← get;
  match locate (ram (k_vm s)) (ttbr0 c) a with
  | Some (p, o) => modify (set_k_vm (mkVmem (vm_pool (k_vm s)) (set_frame (ram (k_vm s)) p (<[Z.to_nat o := b]> (ram (k_vm s) p)))))
  | None => fault
  end.

Fixpoint load_range (a : Z) (n : nat) : M K (list Z) :=
  match n with
  | O => mret []
  | S n' => b ← load_byte a; bs ← load_range (u64 (a + 1)) n'; mret (b :: bs)
  end.

Fixpoint store_range (a : Z) (bs : list Z) : M K unit :=
  match bs with
  | [] => mret tt
  | b :: bs' => store_byte a b;; store_range (u64 (a + 1)) bs'
  end.

Definition load_u64 (a : Z) : M K Z := bs ← load_range a 8; mret (le_dec bs).

(** The string at [a]: its bytes up to the NUL, at most [fuel] of them. *)
Fixpoint load_string (fuel : nat) (a : Z) : M K (list Z) :=
  match fuel with
  | O => fun _ => OutOfFuel
  | S f => b ← load_byte a; if b =? 0 then mret [] else bs ← load_string f (u64 (a + 1)); mret (b :: bs)
  end.
End memory.

(** * core/syscall.c *)

Section args.
Context {P B A C : Type} (me : Z).
Notation K := (kernel P B A C).

Definition curproc : M K proc := p ← this_proc me; load_proc p.

(** Check if a block of memory lies within the process user space. *)
Definition in_user_of (x : proc) (s n : Z) : bool :=
  ((base x <=? s) && (u64 (s + n) <=? sz x)) ||
  ((u64 (USPACE_TOP - stksz x) <=? s) && (u64 (s + n) <=? USPACE_TOP)).
Definition in_user (s n : Z) : M K bool := x ← curproc; mret (in_user_of x s n).

(** [for (; s < end; s++) if ( *s == 0) return s - start]; [-1] at the end. *)
Fixpoint find_nul (fuel : nat) (start s end_ : Z) : M K Z :=
  if s <? end_ then
    match fuel with
    | O => fun _ => OutOfFuel
    | S f => b ← load_byte me s; if b =? 0 then mret (i32 (s - start)) else find_nul f start (s + 1) end_
    end
  else mret (-1).

(** The length of the string at [addr], which [*pp] is set to. *)
Definition fetchstr (addr : Z) : M K Z :=
  x ← curproc;
  if (base x <=? addr) && (addr <? sz x) then find_nul (Z.to_nat (sz x - addr)) addr addr (sz x)
  else if (u64 (USPACE_TOP - stksz x) <=? addr) && (addr <? USPACE_TOP) then
    find_nul (Z.to_nat (USPACE_TOP - addr)) addr addr USPACE_TOP
  else mret (-1).

(** An argument, or [None] for the result -1. *)
Definition argu64 (n : Z) : M K (option Z) :=
  x ← curproc;
  if n >? 5 then mret None
  else match xregs (tf x) !! Z.to_nat n with Some v => mret (Some v) | None => fault end.
Definition argint (n : Z) : M K (option Z) := v ← argu64 n; mret (i32 <$> v).

Definition argptr (n size : Z) : M K (option Z) :=
  v ← argu64 n;
  match v with
  | None => mret None
  | Some i => b ← in_user i size; mret (if (b : bool) then Some i else None)
  end.

(** The address of the string and fetchstr's result. *)
Definition argstr (n : Z) : M K (option Z * Z) :=
  v ← argu64 n;
  match v with
  | None => mret (None, -1)
  | Some addr => r ← fetchstr addr; mret (Some addr, r)
  end.

(** The value of a system call; [None] when the process has left the CPU. *)
Definition sysret := option Z.

Definition sys_gettid : M K sysret := x ← curproc; mret (Some (pid x)).
Definition sys_ioctl : M K sysret :=
  x ← curproc; if zget (xregs (tf x)) 1 =? 0x5413 then mret (Some 0) else panic "toctl unimplemented".
Definition sys_sigprocmask : M K sysret := mret (Some 0).
(** The message it prints has no model. *)
Definition sys_default : M K sysret := mret (Some 0).

Definition NR_SYSCALL : Z := 512.

(** [table] gives the function of each system call number, [sys_default] where the
    initialiser names none.  Every entry is called as a function that returns
    [int]: its value is cut to 32 bits and sign-extended into x0. *)
Definition syscall_dispatch (table : Z -> M K sysret) : M K sysret :=
  x ← curproc;
  let sysno := i32 (zget (xregs (tf x)) 8) in
  if (0 <=? sysno) && (sysno <? NR_SYSCALL) then
    r ← table sysno;
    match r with
    | None => mret None
    | Some v =>
        p ← this_proc me;
        modify_proc p (fun y => set_tf (mkTf (spsr (tf y)) (elr (tf y)) (tf_sp (tf y)) (tpidr (tf y))
          (<[0%nat := u64 (i32 v)]> (xregs (tf y))) (tf_padding (tf y)) (q0 (tf y))) y);;
        mret (Some (u64 (i32 v)))
    end
  else fault.
End args.

(** * core/sysproc.c *)

Section sysproc.
Context {P B A C : Type} (PA : PageAllocator P) (link : P -> Z -> Z) {sb : SuperBlock}
  `{BC : BlockCache sb B} `{OA : ObjectArena A} `{OC : ObjectArena C} (me : Z) (depth : nat).
Notation K := (kernel P B A C).

Definition sys_yield : M K sysret := yield me;; mret None.

Definition sys_brk : M K sysret :=
  n ← argint me 0;
  match n with
  | None => mret (Some (-1))
  | Some n =>
      x ← curproc me;
      r ← growproc PA link me n;
      if r <? 0 then mret (Some (-1)) else mret (Some (sz x))
  end.

Definition sys_clone : M K sysret :=
  flag ← argint me 0;
  childstk ← argint me 1;
  match flag, childstk with
  | Some flag, Some _ => if negb (flag =? 17) then mret (Some (-1)) else r ← fork PA link me depth; mret (Some r)
  | _, _ => mret (Some (-1))
  end.

Definition sys_wait4 : M K sysret :=
  a ← argint me 0; b ← argint me 1; c ← argint me 2; d ← argint me 3;
  match a, b, c, d with
  | Some _, Some _, Some _, Some _ => wait PA link me
  | _, _, _, _ => mret (Some (-1))
  end.

Definition sys_exit (ctx : Z) : M K sysret := exit me ctx;; mret None.
End sysproc.
