(* ===== verification/Sysfile.v ===== *)
(** core/sysfile.c: the file system calls, and the table of core/syscall.c.

    The constants of fcntl.h, sys/stat.h and sys/syscall.h, and the layout of
    [struct stat], come from the C library and are parameters.  [ctx] is the
    address of the local OpContext, [junk] and [buf] the content of the local
    variables [dentry] and [name] before they are written. *)
From S2P Require Import Prelude Bytes CString Locks PhysMem Arena VirtualMemory PageTable FsDefs BlockCache Path Inode File Process Sched Proc Syscall.

(** The constants of the C library. *)
Record libc := mkLibc {
  AT_FDCWD : Z; O_CREAT : Z; O_WRONLY : Z; O_RDWR : Z;
  S_IFREG : Z; S_IFDIR : Z;
  sizeof_stat : Z; stat_bytes : stat -> list Z
}.

Section sysfile.
Context {P B A C : Type} (PA : PageAllocator P) (link : P -> Z -> Z) {sb : SuperBlock}
  `{BC : BlockCache sb B} `{OA : ObjectArena A} `{OC : ObjectArena C} (me : Z) (depth : nat)
  (L : libc) (ctx : Z) (junk buf : list Z).
Notation K := (kernel P B A C).

Definition ret (v : Z) : M K sysret := mret (Some v).

(** The descriptor and the file, or [None] for -1. *)
Definition argfd (n : Z) : M K (option (Z * Z)) :=
  v ← argint me n;
  match v with
  | None => mret None
  | Some fd =>
      if (fd <? 0) || (fd >=? NOFILE) then mret None
      else
        x ← curproc me;
        match ofile x !! Z.to_nat fd with
        | Some (Some f) => mret (Some (fd, f))
        | _ => mret None
        end
  end.

(** The first free descriptor; -1 when there is none. *)
Definition fdalloc (f : Z) : M K Z :=
  p ← this_proc me;
  r ← for_until 0 8 (fun i =>
    x ← load_proc p;
    match ofile x !! Z.to_nat i with
    | Some None => store_proc p (set_ofile (<[Z.to_nat i := Some f]> (ofile x)) x);; mret (Some i)
    | _ => mret None
    end);
  mret (default (-1) r).

Definition sys_dup : M K sysret :=
  a ← argfd 0;
  match a with
  | None => ret (-1)
  | Some (_, f) =>
      fd ← fdalloc f;
      if fd <? 0 then ret (-1) else in_fs (filedup me f);; ret fd
  end.

Definition sys_read : M K sysret :=
  a ← argfd 0;
  n ← argint me 2;
  match a, n with
  | Some (_, f), Some n =>
      addr ← argptr me 1 (u64 n);
      match addr with
      | None => ret (-1)
      | Some addr =>
          x ← curproc me;
          '(r, bs) ← in_fs (fileread (sb := sb) me (negb (killed_ x =? 0)) f n);
          store_range me addr bs;;
          ret r
      end
  | _, _ => ret (-1)
  end.

(** filewrite(f, addr, n): the bytes at [addr] are read only when the file can be
    written. *)
Definition write_from (f addr n : Z) : M K Z :=
  x ← in_fs (load_file f);
  src ← (if writable x =? 0 then mret [] else load_range me addr (Z.to_nat n));
  in_fs (filewrite (sb := sb) me ctx f src n).

Definition sys_write : M K sysret :=
  a ← argfd 0;
  n ← argint me 2;
  match a, n with
  | Some (_, f), Some n =>
      addr ← argptr me 1 (u64 n);
      match addr with
      | None => ret (-1)
      | Some addr =>
          r ← write_from f addr n;
          ret r
      end
  | _, _ => ret (-1)
  end.

Definition sizeof_iovec : Z := 16.

(** [for (p = iov; p < iov + iovcnt; p++)]; the check of the range is [if (0)]. *)
Fixpoint writev_loop (n : nat) (f p tot : Z) : M K Z :=
  match n with
  | O => mret tot
  | S n' =>
      iov_base ← load_u64 me p;
      iov_len ← load_u64 me (p + 8);
      r ← write_from f iov_base (i64 iov_len);
      writev_loop n' f (p + sizeof_iovec) (u64 (tot + u64 r))
  end.

Definition sys_writev : M K sysret :=
  a ← argfd 0;
  iovcnt ← argint me 2;
  match a, iovcnt with
  | Some (_, f), Some iovcnt =>
      iov ← argptr me 1 (u64 (u64 iovcnt * sizeof_iovec));
      match iov with
      | None => ret (-1)
      | Some iov => tot ← writev_loop (Z.to_nat iovcnt) f iov 0; ret (i64 tot)
      end
  | _, _ => ret (-1)
  end.

Definition sys_close : M K sysret :=
  a ← argfd 0;
  match a with
  | None => ret (-1)
  | Some (fd, f) =>
      p ← this_proc me;
      x ← load_proc p;
      store_proc p (set_ofile (<[Z.to_nat fd := None]> (ofile x)) x);;
      in_fs (fileclose (sb := sb) me ctx f);;
      ret 0
  end.

Definition sys_fstat : M K sysret :=
  a ← argfd 0;
  match a with
  | None => ret (-1)
  | Some (_, f) =>
      st ← argptr me 1 (sizeof_stat L);
      match st with
      | None => ret (-1)
      | Some st =>
          '(r, v) ← in_fs (filestat (sb := sb) me (S_IFREG L) (S_IFDIR L) f);
          (match v with Some v => store_range me st (stat_bytes L v) | None => mret tt end);;
          ret r
      end
  end.

(** The path argument [n], with the length fetchstr found. *)
Definition argpath (n : Z) : M K (option (list Z)) :=
  '(addr, r) ← argstr me n;
  match addr with
  | Some a => if r <? 0 then mret None else bs ← load_range me a (Z.to_nat r); mret (Some bs)
  | None => mret None
  end.

Definition begin_op : M K unit := in_tree (cached (bc_begin_op ctx)).
Definition end_op : M K unit := in_tree (cached (bc_end_op ctx)).
Definition end_and_fail : M K sysret := end_op;; ret (-1).

(** [namei] of the process's path. *)
Definition resolve (path : list Z) : M K Z :=
  x ← curproc me; in_tree (namei me (negb (killed_ x =? 0)) (cwd x) junk buf path ctx).

Definition sys_fstatat : M K sysret :=
  dirfd ← argint me 0;
  path ← argpath 1;
  st ← argptr me 2 (sizeof_stat L);
  flags ← argint me 3;
  match dirfd, path, st, flags with
  | Some dirfd, Some path, Some st, Some flags =>
      if negb (dirfd =? AT_FDCWD L) then ret (-1)
      else if negb (flags =? 0) then ret (-1)
      else
        begin_op;;
        ip ← resolve path;
        if ip =? 0 then end_and_fail
        else
          in_tree (inode_lock me ip);;
          v ← in_tree (stati (S_IFREG L) (S_IFDIR L) ip);
          store_range me st (stat_bytes L v);;
          in_tree (inode_unlock me ip);;
          in_tree (inode_put me ctx ip);;
          end_op;;
          ret 0
  | _, _, _, _ => ret (-1)
  end.

Definition dot_name : list Z := [dot].
Definition dotdot_name : list Z := [dot; dot].

(** The fields of a new inode. *)
Definition new_entry (major minor : Z) (e : InodeEntry) : InodeEntry :=
  mkEntry (type e) (u16 major) (u16 minor) 1 (num_bytes e) (addrs e) (indirect e).
Definition more_links (e : InodeEntry) : InodeEntry :=
  mkEntry (type e) (major e) (minor e) (u16 (num_links e + 1)) (num_bytes e) (addrs e) (indirect e).

(** The inode, locked, or 0. *)
Definition create (killed : bool) (wd : Z) (path : list Z) (ty major minor : Z) : M (itree B A) Z :=
  '(dp, name) ← nameiparent me killed wd junk path (replicate 14 0) ctx;
  if dp =? 0 then mret 0
  else
    inode_lock me dp;;
    '(no, _) ← inode_lookup me killed junk dp name;
    if negb (no =? 0) then
      '(no, _) ← inode_lookup me killed junk dp name;
      ip ← inode_get (sb := sb) me no;
      inode_unlock me dp;;
      inode_put me ctx dp;;
      inode_lock me ip;;
      i ← load_inode ip;
      if (ty =? INODE_REGULAR) && (type (entry i) =? INODE_REGULAR) then mret ip
      else
        inode_unlock me ip;;
        inode_put me ctx ip;;
        mret 0
    else
      no ← inode_alloc ctx (u16 ty);
      ip ← inode_get (sb := sb) me no;
      (if ip =? 0 then panic "create: inodes.alloc" else mret tt);;
      inode_lock me ip;;
      modify_entry ip (new_entry major minor);;
      inode_sync ctx ip true;;
      (if ty =? INODE_DIRECTORY then
         modify_entry dp more_links;;
         inode_sync ctx dp false;;
         i ← load_inode ip;
         inode_insert me killed junk ctx ip dot_name (ino i);;
         d ← load_inode dp;
         inode_insert me killed junk ctx ip dotdot_name (ino d);;
         mret tt
       else mret tt);;
      i ← load_inode ip;
      inode_insert me killed junk ctx dp name (ino i);;
      inode_unlock me dp;;
      inode_put me ctx dp;;
      mret ip.

Definition create_here (path : list Z) (ty major minor : Z) : M K Z :=
  x ← curproc me; in_tree (create (negb (killed_ x =? 0)) (cwd x) path ty major minor).

(** The assignments to the new file. *)
Definition opened_file (omode ip : Z) (x : file) : file :=
  mkFile FD_INODE (ref x)
    (if Z.land omode (O_WRONLY L) =? 0 then 1 else 0)
    (if negb (Z.land omode (O_WRONLY L) =? 0) || negb (Z.land omode (O_RDWR L) =? 0) then 1 else 0) ip 0.

Definition sys_openat : M K sysret :=
  dirfd ← argint me 0;
  path ← argpath 1;
  omode ← argint me 2;
  match dirfd, path, omode with
  | Some dirfd, Some path, Some omode =>
      if negb (dirfd =? AT_FDCWD L) then ret (-1)
      else
        begin_op;;
        ip ← (if negb (Z.land omode (O_CREAT L) =? 0) then create_here path INODE_REGULAR 0 0
              else
                ip ← resolve path;
                (if ip =? 0 then mret tt else in_tree (inode_lock me ip));;
                mret ip);
        if ip =? 0 then end_and_fail
        else
          f ← in_fs (filealloc me);
          fd ← match f with Some f => fdalloc f | None => mret (-1) end;
          match f with
          | Some f =>
              if fd <? 0 then
                in_fs (fileclose (sb := sb) me ctx f);;
                in_tree (inode_unlock me ip);; in_tree (inode_put me ctx ip);; end_and_fail
              else
                in_tree (inode_unlock me ip);;
                end_op;;
                y ← in_fs (load_file f);
                in_fs (store_file f (opened_file omode ip y));;
                ret fd
          | None => in_tree (inode_unlock me ip);; in_tree (inode_put me ctx ip);; end_and_fail
          end
  | _, _, _ => ret (-1)
  end.

(** The end of sys_mkdirat and sys_mknodat. *)
Definition create_and_close (path : list Z) (ty major minor : Z) : M K sysret :=
  begin_op;;
  ip ← create_here path ty major minor;
  if ip =? 0 then end_and_fail
  else in_tree (inode_unlock me ip);; in_tree (inode_put me ctx ip);; end_op;; ret 0.

Definition sys_mkdirat : M K sysret :=
  dirfd ← argint me 0;
  path ← argpath 1;
  mode ← argint me 2;
  match dirfd, path, mode with
  | Some dirfd, Some path, Some mode =>
      if negb (dirfd =? AT_FDCWD L) then ret (-1)
      else if negb (mode =? 0) then ret (-1)
      else create_and_close path INODE_DIRECTORY 0 0
  | _, _, _ => ret (-1)
  end.

Definition sys_mknodat : M K sysret :=
  dirfd ← argint me 0;
  path ← argpath 1;
  major ← argint me 2;
  minor ← argint me 3;
  match dirfd, path, major, minor with
  | Some dirfd, Some path, Some major, Some minor =>
      if negb (dirfd =? AT_FDCWD L) then ret (-1)
      else create_and_close path INODE_DEVICE (i16 major) (i16 minor)
  | _, _, _, _ => ret (-1)
  end.

Definition sys_chdir : M K sysret :=
  begin_op;;
  path ← argpath 0;
  match path with
  | None => end_and_fail
  | Some path =>
      ip ← resolve path;
      if ip =? 0 then end_and_fail
      else
        in_tree (inode_lock me ip);;
        i ← in_tree (load_inode ip);
        if negb (type (entry i) =? INODE_DIRECTORY) then
          in_tree (inode_unlock me ip);; in_tree (inode_put me ctx ip);; end_and_fail
        else
          in_tree (inode_unlock me ip);;
          p ← this_proc me;
          x ← load_proc p;
          in_tree (inode_put me ctx (cwd x));;
          end_op;;
          modify_proc p (set_cwd ip);;
          ret 0
  end.
End sysfile.
