(* ===== verification/Exec.v ===== *)
(** core/exec.c, sys_exec of core/sysfile.c and the table of core/syscall.c.

    The layout of the ELF headers and the constants of elf.h and sys/syscall.h
    come from the C library and are parameters.  A [goto bad] is the value [None]
    of the part of execve it is in.  The copy of the program's name into
    [curproc->name], which only serves debugging, has no model. *)
From S2P Require Import Prelude Bytes CString Locks PhysMem Arena VirtualMemory PageTable FsDefs BlockCache Path Inode File Process Sched Proc Syscall Sysfile.

Record Ehdr := mkEhdr { e_ident : list Z; e_entry : Z; e_phoff : Z; e_phnum : Z }.
Record Phdr := mkPhdr { p_type : Z; p_offset : Z; p_vaddr : Z; p_filesz : Z; p_memsz : Z }.

(** elf.h. *)
Record elfh := mkElfh {
  sizeof_Ehdr : Z; ehdr_dec : list Z -> Ehdr;
  sizeof_Phdr : Z; phdr_dec : list Z -> Phdr;
  ELFMAG : list Z; EI_CLASS : Z; ELFCLASS64 : Z; PT_LOAD : Z; AT_PAGESZ : Z
}.

Section exec.
Context {P B A C : Type} (PA : PageAllocator P) (link : P -> Z -> Z) {sb : SuperBlock}
  `{BC : BlockCache sb B} `{OA : ObjectArena A} `{OC : ObjectArena C} (me : Z) (depth : nat)
  (L : libc) (H : elfh) (ctx : Z) (junk buf : list Z).
Notation K := (kernel P B A C).

(** [inodes.read(ip, (u8 * )&v, off, n)] into a local variable that holds [v]. *)
Definition read_struct (ip : Z) (v : list Z) (off n : Z) : M K (list Z) :=
  x ← curproc me;
  '(_, bs) ← in_tree (inode_read me (negb (killed_ x =? 0)) ip off n);
  mret (splice v 0 bs).

(** The checks of the header: the magic bytes 0 to 3 and the class. *)
Definition elf_ok (e : Ehdr) : bool :=
  bool_decide (take 4 (e_ident e) = ELFMAG H) && (zget (e_ident e) (EI_CLASS H) =? ELFCLASS64 H).

(** One segment: [sz] and [base] before and after; [first] before. *)
Definition load_segment (ip pgdir sz base : Z) (first : bool) (ph : Phdr) : M K (option (Z * Z * bool)) :=
  if negb (p_type ph =? PT_LOAD H) then mret (Some (sz, base, first))
  else if p_memsz ph <? p_filesz ph then mret None
  else if u64 (p_vaddr ph + p_memsz ph) <? p_vaddr ph then mret None
  else
    let sz := if first then p_vaddr ph else sz in
    let base := if first then p_vaddr ph else base in
    if first && negb (base mod PAGE_SIZE =? 0) then mret None
    else
      v ← in_vm (my_uvm_alloc PA link pgdir base 0 sz (u64 (p_vaddr ph + p_memsz ph)));
      let sz := u64 v in
      if sz =? 0 then mret None
      else
        uvm_switch me pgdir;;
        x ← curproc me;
        '(_, bs) ← in_tree (inode_read me (negb (killed_ x =? 0)) ip (p_offset ph) (p_filesz ph));
        store_range me (p_vaddr ph) bs;;
        store_range me (u64 (p_vaddr ph + p_filesz ph)) (replicate (Z.to_nat (p_memsz ph - p_filesz ph)) 0);;
        mret (Some (sz, base, false)).

(** The loop over the program headers; [ph] is the local variable. *)
Fixpoint load_segments (n : nat) (ip pgdir off : Z) (ph : list Z) (sz base : Z) (first : bool) : M K (option (Z * Z)) :=
  match n with
  | O => mret (Some (sz, base))
  | S n' =>
      ph ← read_struct ip ph off (sizeof_Phdr H);
      r ← load_segment ip pgdir sz base first (phdr_dec H ph);
      match r with
      | None => mret None
      | Some (sz, base, first) => load_segments n' ip pgdir (u64 (off + sizeof_Phdr H)) ph sz base first
      end
  end.

(** The loop over [argv] or [envp]: the number of strings and the stack pointer.
    The array ends at a NULL pointer or at the end of the user space; [fuel] bounds
    its length. *)
Fixpoint push_strings (fuel : nat) (pgdir arr count sp : Z) : M K (option (Z * Z)) :=
  b ← in_user me (u64 (arr + 8 * count)) 8;
  if negb (b : bool) then mret (Some (count, sp))
  else
    a ← load_u64 me (u64 (arr + 8 * count));
    if (a : Z) =? 0 then mret (Some (count, sp))
    else
      match fuel with
      | O => (fun _ => OutOfFuel) : M K (option (Z * Z))
      | S f =>
          len ← fetchstr me a;
          if len <? 0 then mret None
          else
            let sp := u64 (sp - (len + 1)) in
            bs ← load_range me a (Z.to_nat (len + 1));
            r ← in_vm (my_copyout PA pgdir sp (Some bs) (len + 1));
            if r <? 0 then mret None else push_strings f pgdir arr (count + 1) sp
      end.

(** [for (; *sp; sp++); sp++;] *)
Definition skip_string (fuel : nat) (sp : Z) : M K Z :=
  s ← load_string me fuel sp; mret (sp + Z.of_nat (length s) + 1).

(** [for (int i = n - 1; i >= 0; i--)]: the addresses of the strings from [sp] on. *)
Fixpoint fill_pointers (n : nat) (arr sp : Z) (fuel : nat) : M K Z :=
  match n with
  | O => mret sp
  | S n' =>
      store_range me (arr + 8 * Z.of_nat n') (le_enc 8 sp);;
      sp ← skip_string fuel sp;
      fill_pointers n' arr sp fuel
  end.

(** Strings, pointers and the stack in the new page table, the old one being
    active: the final stack pointer and [stksz]. *)
Definition build_stack (fuel : nat) (pgdir argv envp : Z) : M K (option (Z * Z)) :=
  a ← (if argv =? 0 then mret (Some (0, USPACE_TOP)) else push_strings fuel pgdir argv 0 USPACE_TOP);
  match a with
  | None => mret None
  | Some (argc, sp) =>
      e ← (if envp =? 0 then mret (Some (0, sp)) else push_strings fuel pgdir envp 0 sp);
      match e with
      | None => mret None
      | Some (envc, sp) =>
          let newsp := round_down (u64 (sp - 16 - (envc + argc + 4) * 8)) 16 in
          r ← in_vm (my_copyout PA pgdir newsp None (u64 (sp - newsp)));
          if r <? 0 then mret None
          else
            uvm_switch me pgdir;;
            let newargv := newsp + 8 in
            let newenvp := newargv + 8 * (argc + 1) in
            let newauxv := newenvp + 8 * (envc + 1) in
            store_range me newauxv (le_enc 8 (AT_PAGESZ H) ++ le_enc 8 PAGE_SIZE);;
            sp ← fill_pointers (Z.to_nat envc) newenvp sp fuel;
            sp ← fill_pointers (Z.to_nat argc) newargv sp fuel;
            store_range me newsp (le_enc 8 argc);;
            let stksz := round_up (USPACE_TOP - newsp) (10 * PAGE_SIZE) in
            r ← in_vm (my_copyout PA pgdir (u64 (USPACE_TOP - stksz)) None (u64 (stksz - (USPACE_TOP - newsp))));
            if r <? 0 then mret None
            else
              assert (newsp >? USPACE_TOP - stksz) "(uint64_t)sp > USPACE_TOP - stksz";;
              mret (Some (newsp, stksz))
      end
  end.

(** The label [bad]. *)
Definition exec_bad (pgdir ip oldpgdir : Z) : M K Z :=
  (if pgdir =? 0 then mret tt else in_vm (my_vm_free PA link pgdir));;
  (if ip =? 0 then mret tt
   else in_tree (inode_unlock me ip);; in_tree (inode_put me ctx ip);; end_op ctx);;
  p ← this_proc me;
  modify_proc p (set_pgdir oldpgdir);;
  mret (-1).

(** The commit to the new image. *)
Definition exec_commit (pgdir oldpgdir base sz stksz entry sp : Z) : M K Z :=
  p ← this_proc me;
  modify_proc p (set_pgdir pgdir);;
  modify_proc p (set_base base);;
  modify_proc p (set_sz sz);;
  modify_proc p (set_stksz stksz);;
  modify_proc p (fun y => set_tf (mkTf (spsr (tf y)) entry sp (tpidr (tf y)) (xregs (tf y)) (tf_padding (tf y)) (q0 (tf y))) y);;
  uvm_switch me oldpgdir;;
  uvm_switch me pgdir;;
  mret 0.

(** [elf] and [ph] are the local variables. *)
Definition execve (fuel : nat) (elf ph : list Z) (path argv envp : Z) : M K Z :=
  r ← fetchstr me path;
  if r <? 0 then mret (-1)
  else
    x ← curproc me;
    let oldpgdir := pgdir x in
    pgdir ← in_vm (my_pgdir_init PA);
    if pgdir =? 0 then exec_bad 0 0 oldpgdir
    else
      begin_op ctx;;
      name ← load_range me path (Z.to_nat r);
      ip ← resolve me ctx junk buf name;
      if ip =? 0 then end_op ctx;; exec_bad pgdir 0 oldpgdir
      else
        in_tree (inode_lock me ip);;
        elf ← read_struct ip elf 0 (sizeof_Ehdr H);
        let e := ehdr_dec H elf in
        if negb (elf_ok e) then exec_bad pgdir ip oldpgdir
        else
          p ← this_proc me;
          modify_proc p (set_pgdir pgdir);;
          g ← load_segments (Z.to_nat (e_phnum e)) ip pgdir (e_phoff e) ph 0 0 true;
          match g with
          | None => exec_bad pgdir ip oldpgdir
          | Some (sz, base) =>
              in_tree (inode_unlock me ip);;
              in_tree (inode_put me ctx ip);;
              end_op ctx;;
              uvm_switch me oldpgdir;;
              t ← build_stack fuel pgdir argv envp;
              match t with
              | None => exec_bad pgdir 0 oldpgdir
              | Some (sp, stksz) => exec_commit pgdir oldpgdir base sz stksz (e_entry e) sp
              end
          end.

Definition sys_exec (fuel : nat) (elf ph : list Z) : M K sysret :=
  '(p, r) ← argstr me 0;
  argv ← argu64 me 1;
  envp ← argu64 me 2;
  match p, argv, envp with
  | Some p, Some argv, Some envp =>
      if r <? 0 then ret (-1) else v ← execve fuel elf ph p argv envp; ret v
  | _, _, _ => ret (-1)
  end.

(** ** syscall_table *)

(** sys/syscall.h. *)
Record sysnos := mkSysnos {
  SYS_set_tid_address : Z; SYS_ioctl : Z; SYS_gettid : Z; SYS_rt_sigprocmask : Z; SYS_brk : Z; SYS_execve : Z;
  SYS_sched_yield : Z; SYS_clone : Z; SYS_wait4 : Z; SYS_exit_group : Z; SYS_exit : Z; SYS_dup : Z; SYS_chdir : Z;
  SYS_fstat : Z; SYS_newfstatat : Z; SYS_mkdirat : Z; SYS_mknodat : Z; SYS_openat : Z; SYS_writev : Z;
  SYS_read : Z; SYS_write : Z; SYS_close : Z
}.
Definition SYS_myyield : Z := 459.

(** The initialiser of the table, a later designator overriding an earlier one. *)
Definition syscall_entries (N : sysnos) (fuel : nat) (elf ph : list Z) : list (Z * M K sysret) :=
  [(SYS_set_tid_address N, sys_gettid me); (SYS_ioctl N, sys_ioctl me); (SYS_gettid N, sys_gettid me);
   (SYS_rt_sigprocmask N, sys_sigprocmask); (SYS_brk N, sys_brk PA link me); (SYS_execve N, sys_exec fuel elf ph);
   (SYS_sched_yield N, sys_yield me); (SYS_clone N, sys_clone PA link me depth); (SYS_wait4 N, sys_wait4 PA link me);
   (SYS_exit_group N, sys_exit me ctx); (SYS_exit N, sys_exit me ctx); (SYS_dup N, sys_dup me);
   (SYS_chdir N, sys_chdir me ctx junk buf); (SYS_fstat N, sys_fstat me L);
   (SYS_newfstatat N, sys_fstatat me L ctx junk buf); (SYS_mkdirat N, sys_mkdirat me L ctx junk);
   (SYS_mknodat N, sys_mknodat me L ctx junk); (SYS_openat N, sys_openat me L ctx junk buf);
   (SYS_writev N, sys_writev me ctx); (SYS_read N, sys_read me); (SYS_write N, sys_write me ctx);
   (SYS_close N, sys_close me ctx); (SYS_myyield, sys_yield me)].

Definition syscall_table (N : sysnos) (fuel : nat) (elf ph : list Z) (no : Z) : M K sysret :=
  foldl (fun f e => if e.1 =? no then e.2 else f) sys_default (syscall_entries N fuel elf ph).
End exec.
