(* ===== verification/SyscallTheorems.v ===== *)
(** The properties of core/syscall.c: which addresses and strings of user space the
    argument functions accept, and the dispatch of system calls. *)
From S2P Require Import Prelude Bytes CString Locks PhysMem Arena FsDefs Cache CacheTheorems BlockCache Path Inode InodeTheorems File FileTheorems VirtualMemory PageTable VmTheorems Process Sched Proc Syscall SchedSpec ProcTheorems.

Section args.
Context {P B A C : Type} (me : Z).
Notation K := (kernel P B A C).

(** * Ranges *)

(** A region of user memory the process owns: its image and heap, or its stack. *)
Definition owns (x : proc) (a b : Z) : Prop :=
  (base x <= a /\ b <= sz x) \/ (USPACE_TOP - stksz x <= a /\ b <= USPACE_TOP).

Lemma in_user_owns x a n :
  0 <= stksz x <= USPACE_TOP -> in_user_of x a n = true <-> owns x a (u64 (a + n)).
Proof.
  intros Hs. unfold in_user_of, owns. rewrite (u64_small (USPACE_TOP - stksz x)) by (unfold USPACE_TOP in *; lia).
  rewrite orb_true_iff, !andb_true_iff, !Z.leb_le. done.
Qed.

Lemma argu64_ok n (s : K) x v :
  curproc me s = Ret (x, s) -> n <= 5 -> xregs (tf x) !! Z.to_nat n = Some v -> argu64 me n s = Ret (Some v, s).
Proof.
  intros Hx Hn Hv. unfold argu64, mbind, M_bind. rewrite Hx, Hv, Z.gtb_ltb, (proj2 (Z.ltb_ge _ _)) by lia. done.
Qed.

(** C31: argptr hands a system call the pointer in argument register [n] exactly when the
    block of [size] bytes lies in memory the process owns, as long as the address of
    its end is below 2^64.  A block that passes the end of the 64-bit address space is
    judged by where its end wraps around to: a [size] close to 2^64, which is what
    read and write pass for a negative count, is accepted although the block is not
    in user space. *)
Theorem argptr_range n size (s : K) x v
  (Hx : curproc me s = Ret (x, s)) (Hn : 0 <= n <= 5) (Hv : xregs (tf x) !! Z.to_nat n = Some v)
  (Hb : 0 <= v < 2 ^ 64) (Hsize : 0 <= size < 2 ^ 64) (Hstk : 0 <= stksz x <= USPACE_TOP) :
  (argptr me n size s = Ret (Some v, s) \/ argptr me n size s = Ret (None, s)) /\
  (v + size < 2 ^ 64 -> (argptr me n size s = Ret (Some v, s) <-> owns x v (v + size))) /\
  (2 ^ 64 <= v + size -> (argptr me n size s = Ret (Some v, s) <-> owns x v (v + size - 2 ^ 64))).
Proof.
  assert (argptr me n size s = Ret (if in_user_of x v size then Some v else None, s)) as ->.
  { unfold argptr, in_user, mbind, M_bind. rewrite (argu64_ok n s x v) by (done || lia). cbn.
    unfold mbind, M_bind. by rewrite Hx. }
  assert ((if in_user_of x v size then Some v else None) = Some v <-> in_user_of x v size = true) as Hiff
    by (destruct (in_user_of x v size); naive_solver).
  split; [by destruct (in_user_of x v size); [left | right] |].
  assert (forall w, u64 (v + size) = w ->
    @Ret (option Z * K) (if in_user_of x v size then Some v else None, s) = Ret (Some v, s) <-> owns x v w) as H.
  { intros w Hw. pose proof (in_user_owns x v size Hstk) as Ho. rewrite Hw in Ho. rewrite <- Ho, <- Hiff. split; congruence. }
  split; intros Hw; apply H; unfold u64; [by apply Z.mod_small; lia |].
  symmetry. apply (Z.mod_unique_pos _ _ 1); lia.
Qed.

(** * Strings *)

(** The bytes at [a], as the kernel reads them while the process runs. *)
Definition user_bytes (s : K) (a : Z) (bs : list Z) : Prop :=
  forall k b, bs !! k = Some b -> load_byte me (a + Z.of_nat k) s = Ret (b, s).

Lemma user_bytes_tail s a b bs : user_bytes s a (b :: bs) -> user_bytes s (a + 1) bs.
Proof.
  intros H k c Hk. specialize (H (S k) c Hk). by replace (a + 1 + Z.of_nat k) with (a + Z.of_nat (S k)) by lia.
Qed.

Lemma find_nul_ok bs : forall fuel start a e (s : K),
  user_bytes s a bs -> a + Z.of_nat (length bs) = e -> (length bs <= fuel)%nat ->
  find_nul me fuel start a e s =
    Ret (if decide (0 ∈ bs) then i32 (a + Z.of_nat (length (cstring (length bs) bs)) - start) else -1, s).
Proof.
  induction bs as [|b bs IH]; intros fuel start a e s Hb He Hf.
  - destruct fuel; cbn in *; rewrite (proj2 (Z.ltb_ge a e)) by lia; done.
  - destruct fuel as [|fuel]; cbn [length] in *; [lia |]. cbn [find_nul]. rewrite (proj2 (Z.ltb_lt a e)) by lia.
    unfold mbind, M_bind. pose proof (Hb 0%nat b eq_refl) as H0. rewrite Z.add_0_r in H0. rewrite H0.
    destruct (Z.eqb_spec b 0) as [->|Hne].
    + rewrite decide_True by left. cbn. by rewrite Z.add_0_r.
    + rewrite (IH fuel start (a + 1) e s) by (lia || by eapply user_bytes_tail).
      assert (0 ∈ b :: bs <-> 0 ∈ bs) as Hin by (rewrite elem_of_cons; naive_solver).
      destruct (decide (0 ∈ bs)) as [Hi|Hi]; [rewrite (decide_True (P := 0 ∈ b :: bs)) by tauto | rewrite (decide_False (P := 0 ∈ b :: bs)) by tauto; done].
      do 2 f_equal. cbn. rewrite (proj2 (Z.eqb_neq b 0)) by done. cbn [length]. f_equal. lia.
Qed.

Lemma find_nul_fuel fuel : forall start a e (s : K), (Z.to_nat (e - a) <= fuel)%nat -> find_nul me fuel start a e s <> OutOfFuel.
Proof.
  induction fuel as [|fuel IH]; intros start a e s Hf; cbn [find_nul].
  - by rewrite (proj2 (Z.ltb_ge a e)) by lia.
  - destruct (a <? e) eqn:E; [| done]. unfold mbind, M_bind.
    unfold load_byte, thiscpu, get, mbind, M_bind. cbn. destruct (locate _ _ a) as [[p o]|]; [| done].
    destruct (ram (k_vm s) p !! Z.to_nat o) as [b|]; [| done]. unfold mret, M_ret.
    destruct (b =? 0); [done |]. apply IH. apply Z.ltb_lt in E. lia.
Qed.

(** The end of the region of user memory that [addr] is in. *)
Definition region_end (x : proc) (addr : Z) : option Z :=
  if decide (base x <= addr < sz x) then Some (sz x)
  else if decide (USPACE_TOP - stksz x <= addr < USPACE_TOP) then Some USPACE_TOP else None.

(** Fetchstr always comes to an end, and returns the length of the C string at the
    address when its terminating NUL is inside the region of user memory (below the
    end of the image, or of the stack) the string starts in; otherwise, and for an
    address outside both regions, it returns -1. *)
Theorem fetchstr_string addr (s : K) x (Hx : curproc me s = Ret (x, s)) (Hstk : 0 <= stksz x <= USPACE_TOP) :
  fetchstr me addr s <> OutOfFuel /\
  match region_end x addr with
  | None => fetchstr me addr s = Ret (-1, s)
  | Some e => forall bs, user_bytes s addr bs -> Z.of_nat (length bs) = e - addr -> e - addr < 2 ^ 31 ->
      fetchstr me addr s = Ret (if decide (0 ∈ bs) then Z.of_nat (length (cstring (length bs) bs)) else -1, s)
  end.
Proof.
  assert (forall bs, Z.of_nat (length bs) < 2 ^ 31 -> i32 (addr + Z.of_nat (length (cstring (length bs) bs)) - addr) = Z.of_nat (length (cstring (length bs) bs))) as Hi.
  { intros bs Hl. pose proof (length_cstring bs (length bs)). unfold i32, sgn. rewrite Z.mod_small, (proj2 (Z.ltb_lt _ _)) by lia. lia. }
  unfold fetchstr, mbind, M_bind. rewrite Hx. unfold region_end.
  rewrite (u64_small (USPACE_TOP - stksz x)) by (unfold USPACE_TOP in *; lia).
  repeat case_decide.
  - rewrite (proj2 (Z.leb_le (base x) addr)), (proj2 (Z.ltb_lt addr (sz x))) by lia. cbn [andb]. split; [by apply find_nul_fuel |].
    intros bs Hb Hl H31. rewrite (find_nul_ok bs) by (done || lia). by rewrite Hi by lia.
  - rewrite (proj2 (andb_false_iff (base x <=? addr) (addr <? sz x))) by (rewrite Z.leb_gt, Z.ltb_ge; lia).
    rewrite (proj2 (Z.leb_le _ addr)), (proj2 (Z.ltb_lt addr USPACE_TOP)) by lia. cbn [andb]. split; [by apply find_nul_fuel |].
    intros bs Hb Hl H31. rewrite (find_nul_ok bs) by (done || lia). by rewrite Hi by lia.
  - rewrite (proj2 (andb_false_iff (base x <=? addr) (addr <? sz x))) by (rewrite Z.leb_gt, Z.ltb_ge; lia).
    rewrite (proj2 (andb_false_iff (_ <=? addr) (addr <? USPACE_TOP))) by (rewrite Z.leb_gt, Z.ltb_ge; lia). done.
Qed.
End args.

(** ** Witnesses *)

(** A process with the image [0, 8192) and the address 8190 in x1. *)
Definition caller : proc :=
  set_sz 8192 (set_tf (mkTf 0 0 0 0 (<[1%nat := 8190]> (replicate 31 0)) 0 [0; 0]) (set_pgdir (fr 0) (set_state RUNNING no_proc))).
Definition caller_kernel (x : proc) (v : vmem pmem) (c : bcache (Arena pmem)) : kernel pmem (bcache (Arena pmem)) (Arena pmem) unit :=
  mkK v (idle_files c) tt (fun _ => set_procs (x :: replicate 13 no_proc) zero_container) 1
    (fun _ => mkCpu 1 (Some (1, 0)) (K2P (fr 0))) (fun _ => init_spinlock) true false.

(** The two bytes at 8190 are the caller's, three are not, and 2^64 - 1 pass as they do. *)
Lemma argptr_range_witness : exists c,
  argptr 0 1 2 (caller_kernel caller vm0 c) = Ret (Some 8190, caller_kernel caller vm0 c) /\
  argptr 0 1 (2 ^ 64 - 1) (caller_kernel caller vm0 c) = Ret (Some 8190, caller_kernel caller vm0 c).
Proof.
  destruct image_cache as [c _]. exists c. split.
  - destruct (argptr_range 0 1 2 (caller_kernel caller vm0 c) caller 8190) as (_ & H & _);
      [reflexivity | lia | reflexivity | lia | lia | cbn; unfold USPACE_TOP; lia |].
    apply H; [lia |]. left. cbn. lia.
  - destruct (argptr_range 0 1 (2 ^ 64 - 1) (caller_kernel caller vm0 c) caller 8190) as (_ & _ & H);
      [reflexivity | lia | reflexivity | lia | lia | cbn; unfold USPACE_TOP; lia |].
    apply H; [lia |]. left. cbn. lia.
Defined.

(** A page table of the frames 0 to 3 that maps the first page to frame 4, which
    begins with "ls". *)
Definition link_to (q : Z) : Z := Z.lor (K2P q) PTE_USER_DATA.
Definition string_ram : Z -> list Z :=
  set_frame (set_entry (set_entry (set_entry (set_entry (fun _ => replicate 4096 0)
    (fr 0) 0 (link_to (fr 1))) (fr 1) 0 (link_to (fr 2))) (fr 2) 0 (link_to (fr 3))) (fr 3) 0 (link_to (fr 4)))
    (fr 4) (108 :: 115 :: replicate 4094 0).

Definition string_kernel (c : bcache (Arena pmem)) := caller_kernel (set_sz 3 caller) (mkVmem (vm_pool vm0) string_ram) c.

Lemma string_bytes c : user_bytes 0 (string_kernel c) 0 [108; 115; 0].
Proof.
  intros k b Hk.
  assert (forall a, locate string_ram (K2P (fr 0)) a = Some (fr 4, a) -> string_ram (fr 4) !! Z.to_nat a = Some b ->
    load_byte 0 a (string_kernel c) = Ret (b, string_kernel c)) as H.
  { intros a Hl Hb. unfold load_byte, thiscpu, get, mbind, M_bind. change (k_cpus (string_kernel c) 0) with (mkCpu 1 (Some (1, 0)) (K2P (fr 0))).
    unfold mret, M_ret. cbn [ttbr0]. change (ram (k_vm (string_kernel c))) with string_ram. rewrite Hl. by rewrite Hb. }
  destruct k as [|[|[|k]]]; [injection Hk as <- .. | discriminate]; (apply H; [by vm_compute | by vm_compute]).
Qed.

Lemma fetchstr_string_witness : exists c, fetchstr 0 0 (string_kernel c) = Ret (2, string_kernel c).
Proof.
  destruct image_cache as [c _]. exists c.
  exact (proj2 (fetchstr_string 0 0 (string_kernel c) (set_sz 3 caller) eq_refl ltac:(cbn; unfold USPACE_TOP; lia))
    [108; 115; 0] (string_bytes c) eq_refl ltac:(cbn; lia)).
Defined.
