(* ===== verification/Traps.v ===== *)
(** core/trap.c, driver/interrupt.c, driver/clock.c, driver/uart.c and core/char_device.c: from an
    exception to the handler of a device.

    The registers of the machine are hardware: the class [Board] over the type [W] of
    the machine.  Handlers are programs over [W]; the tables that hold them are the static
    variables [ctx] of interrupt.c and of clock.c. *)
From S2P Require Import Prelude Bytes CString Locks Console.

(** * The machine *)

Inductive sysreg := VBAR_EL1 | ESR_EL1 | CNTP_CTL_EL0 | CNTP_TVAL_EL0.

Class Board (W : Type) := {
  device_get_u32 : Z -> W -> Z * W;
  device_put_u32 : Z -> Z -> W -> W;
  sysreg_get : sysreg -> W -> Z;
  sysreg_put : sysreg -> Z -> W -> W;
  cpuid : W -> Z;
  get_clock_frequency : W -> Z;
  delay_us : Z -> W -> W
}.

Definition KERNEL_BASE : Z := 0xffff000000000000.
Definition MMIO_BASE : Z := KERNEL_BASE + 0x3F000000.
Definition LOCAL_BASE : Z := KERNEL_BASE + 0x40000000.
Definition IRQ_PENDING_1 : Z := MMIO_BASE + 0xB204.
Definition IRQ_PENDING_2 : Z := MMIO_BASE + 0xB208.
Definition ENABLE_IRQS_1 : Z := MMIO_BASE + 0xB210.
Definition ENABLE_IRQS_2 : Z := MMIO_BASE + 0xB214.
Definition AUX_INT : Z := Z.shiftl 1 29.
Definition VC_ARASANSDIO_INT : Z := Z.shiftl 1 30.
Definition GPU_INT_ROUTE : Z := LOCAL_BASE + 0xC.
Definition GPU_IRQ2CORE (i : Z) : Z := i.
Definition IRQ_SRC_CORE (i : Z) : Z := LOCAL_BASE + 0x60 + 4 * i.
Definition IRQ_SRC_GPU : Z := Z.shiftl 1 8.
Definition IRQ_SRC_CNTPNSIRQ : Z := Z.shiftl 1 1.
Definition CORE_CLOCK_CTRL (id : Z) : Z := LOCAL_BASE + 0x40 + 4 * id.
Definition CORE_CLOCK_ENABLE : Z := Z.shiftl 1 1.
Definition NUM_IRQ_TYPES : Z := 64.
Definition IRQ_AUX : Z := 29.
Definition IRQ_ARASANSDIO : Z := 62.

Definition ESR_EC_SHIFT : Z := 26.
Definition ESR_IR_MASK : Z := Z.shiftl 1 25.
Definition ESR_EC_UNKNOWN : Z := 0x00.
Definition ESR_EC_SVC64 : Z := 0x15.

(** The machine and the two static variables [ctx]. *)
Record kstate (W : Type) := mkKstate {
  machine : W;
  handler : list (option (M W unit));
  one_ms : Z;
  clock_handler : option (M W unit)
}.
Arguments mkKstate {W}.
Arguments machine {W}. Arguments handler {W}. Arguments one_ms {W}. Arguments clock_handler {W}.

Section traps.
Context {W : Type} `{Board W}.

Definition set_machine (w : W) (t : kstate W) : kstate W := mkKstate w (handler t) (one_ms t) (clock_handler t).
Definition set_handler h (t : kstate W) : kstate W := mkKstate (machine t) h (one_ms t) (clock_handler t).

(** A program of the rest of the machine. *)
Definition on_machine {A} (c : M W A) : M (kstate W) A := fun t =>
  '(a, w) ← c (machine t); Ret (a, set_machine w t).

Definition get_u32 (a : Z) : M W Z := fun w => Ret (device_get_u32 a w).
Definition put_u32 (a v : Z) : M W unit := modify (device_put_u32 a v).

(** * driver/interrupt.c *)

Definition init_interrupt : M (kstate W) unit :=
  modify (set_handler (replicate 64 None));;
  on_machine (put_u32 ENABLE_IRQS_1 AUX_INT);;
  on_machine (put_u32 ENABLE_IRQS_2 VC_ARASANSDIO_INT);;
  on_machine (put_u32 GPU_INT_ROUTE (GPU_IRQ2CORE 0)).

Definition set_interrupt_handler (type : Z) (h : M W unit) : M (kstate W) unit :=
  on_machine (put_u32 (ENABLE_IRQS_1 + 4 * (type / 32)) (u32 (Z.shiftl 1 (type mod 32))));;
  modify (fun t => set_handler (<[Z.to_nat type := Some h]> (handler t)) t).

(** [ctx.handler[i]()], or PANIC. *)
Definition invoke_handler (i : Z) : M (kstate W) unit :=
  t ← get;
  match nth (Z.to_nat i) (handler t) None with
  | Some h => on_machine h
  | None => panic "unknown interrupt type"
  end.

(** * driver/clock.c *)

Definition reset_clock (countdown_ms : Z) : M (kstate W) unit :=
  t ← get; on_machine (modify (sysreg_put CNTP_TVAL_EL0 (u64 (countdown_ms * one_ms t)))).

Definition init_clock : M (kstate W) unit :=
  modify (fun t => mkKstate (machine t) (handler t) (get_clock_frequency (machine t) / 1000) (clock_handler t));;
  on_machine (modify (sysreg_put CNTP_CTL_EL0 1));;
  reset_clock 1000;;
  t ← get;
  on_machine (put_u32 (CORE_CLOCK_CTRL (cpuid (machine t))) CORE_CLOCK_ENABLE).

Definition set_clock_handler (h : M W unit) : M (kstate W) unit :=
  modify (fun t => mkKstate (machine t) (handler t) (one_ms t) (Some h)).

Definition invoke_clock_handler : M (kstate W) unit :=
  t ← get;
  match clock_handler t with
  | None => panic "no clock handler"
  | Some h => on_machine h
  end.

(** * The interrupt *)

(** The two pending registers. *)
Definition pending_map : M (kstate W) Z :=
  p1 ← on_machine (get_u32 IRQ_PENDING_1);
  p2 ← on_machine (get_u32 IRQ_PENDING_2);
  mret (Z.lor p1 (u64 (Z.shiftl p2 32))).

Definition interrupt_global_handler : M (kstate W) unit :=
  t ← get;
  source ← on_machine (get_u32 (IRQ_SRC_CORE (cpuid (machine t))));
  source ← (if negb (Z.land source IRQ_SRC_CNTPNSIRQ =? 0)
            then invoke_clock_handler;; mret (Z.lxor source IRQ_SRC_CNTPNSIRQ) else mret source);
  source ← (if negb (Z.land source IRQ_SRC_GPU =? 0)
            then map ← pending_map;
                 for_range 0 64 (fun i => if negb (Z.land (Z.shiftr map i) 1 =? 0) then invoke_handler i else mret tt);;
                 mret (Z.lxor source IRQ_SRC_GPU)
            else mret source);
  if negb (source =? 0) then panic "unknown interrupt sources" else mret tt.

(** * core/trap.c *)

Definition init_trap (exception_vector : Z) : M (kstate W) unit :=
  on_machine (modify (sysreg_put VBAR_EL1 exception_vector));;
  on_machine (modify (sysreg_put ESR_EL1 0)).

(** [svc] is [frame->x[0] = syscall_dispatch(frame)]. *)
Definition trap_global_handler (svc : M W unit) : M (kstate W) unit :=
  t ← get;
  let esr := sysreg_get ESR_EL1 (machine t) in
  let ec := Z.shiftr esr ESR_EC_SHIFT in
  let ir := Z.land esr ESR_IR_MASK in
  if ec =? ESR_EC_UNKNOWN then
    if negb (ir =? 0) then panic "unknown error" else interrupt_global_handler
  else if ec =? ESR_EC_SVC64 then
    on_machine (modify (sysreg_put ESR_EL1 0));;
    on_machine svc
  else mret tt.

Definition trap_error_handler (type : Z) : M (kstate W) unit := panic "unknown trap type".

(** * driver/uart.c *)

Definition AUX_BASE : Z := MMIO_BASE + 0x215000.
Definition AUX_ENABLES : Z := AUX_BASE + 0x04.
Definition AUX_MU_IO_REG : Z := AUX_BASE + 0x40.
Definition AUX_MU_IER_REG : Z := AUX_BASE + 0x44.
Definition AUX_MU_IIR_REG : Z := AUX_BASE + 0x48.
Definition AUX_MU_LCR_REG : Z := AUX_BASE + 0x4C.
Definition AUX_MU_MCR_REG : Z := AUX_BASE + 0x50.
Definition AUX_MU_LSR_REG : Z := AUX_BASE + 0x54.
Definition AUX_MU_CNTL_REG : Z := AUX_BASE + 0x60.
Definition AUX_MU_BAUD_REG : Z := AUX_BASE + 0x68.
Definition AUX_UART_CLOCK : Z := 250000000.
Definition AUX_MU_BAUD (baudrate : Z) : Z := AUX_UART_CLOCK / (baudrate * 8) - 1.
Definition GPIO_BASE : Z := MMIO_BASE + 0x200000.
Definition GPIO_PUD : Z := GPIO_BASE + 0x94.
Definition GPIO_PUDCLK0 : Z := GPIO_BASE + 0x98.

(** [(char)-1]: char is unsigned on this machine. *)
Definition uart_get_char : M W Z :=
  state ← get_u32 AUX_MU_IIR_REG;
  if negb (Z.land state 1 =? 0) || negb (Z.land state 6 =? 4) then mret (u8 (-1)) else
  c ← get_u32 AUX_MU_IO_REG;
  mret (u8 (Z.land c 0xff)).

(** [while (!(device_get_u32(AUX_MU_LSR_REG) & 0x20)) {}] *)
Fixpoint wait_transmit (fuel : nat) : M W unit :=
  match fuel with
  | O => lift OutOfFuel
  | S fuel' => s ← get_u32 AUX_MU_LSR_REG; if Z.land s 0x20 =? 0 then wait_transmit fuel' else mret tt
  end.

(** uart_put_char of driver/uart.c; the call for the carriage return does not call itself again. *)
Definition put_one (fuel : nat) (c : Z) : M W unit := wait_transmit fuel;; put_u32 AUX_MU_IO_REG c.
Definition uart_send (fuel : nat) (c : Z) : M W unit :=
  put_one fuel c;;
  if c =? 10 then put_one fuel 13 else mret tt.

(** The characters that [getc] gives the loop of console_intr, which ends with 0xff.  The loop
    handles each one before it gets the next; what it sends goes to the transmitter, and
    the receiver does not depend on it. *)
Fixpoint typed_chars (fuel : nat) : M W (list Z) :=
  match fuel with
  | O => lift OutOfFuel
  | S fuel' =>
      c ← uart_get_char;
      if c =? 255 then mret [] else cs ← typed_chars fuel'; mret (c :: cs)
  end.

(** [console_intr(uart_get_char)], with the console as a part of the machine. *)
Definition on_console (con : W -> console) (with_con : console -> W -> W) (c : Z -> M console unit) : M W unit := fun w =>
  '(_, s) ← c (cpuid w) (con w); Ret (tt, with_con s w).
Definition uart_intr (con : W -> console) (with_con : console -> W -> W) (fuel : nat) : M W unit :=
  typed ← typed_chars fuel;
  on_console con with_con (fun me => console_intr me typed).

(** The handler of IRQ_AUX is uart_intr. *)
Definition init_uart (intr : M W unit) : M (kstate W) unit :=
  on_machine (
    put_u32 GPIO_PUD 0;;
    modify (delay_us 5);;
    put_u32 GPIO_PUDCLK0 (Z.lor (Z.shiftl 1 14) (Z.shiftl 1 15));;
    modify (delay_us 5);;
    put_u32 GPIO_PUDCLK0 0;;
    put_u32 AUX_ENABLES 1;;
    put_u32 AUX_MU_CNTL_REG 0;;
    put_u32 AUX_MU_IER_REG (Z.lor (Z.shiftl 3 2) 1);;
    put_u32 AUX_MU_LCR_REG 3;;
    put_u32 AUX_MU_MCR_REG 0;;
    put_u32 AUX_MU_BAUD_REG (AUX_MU_BAUD 115200);;
    put_u32 AUX_MU_IIR_REG 6;;
    put_u32 AUX_MU_CNTL_REG 3);;
  set_interrupt_handler IRQ_AUX intr.

(** ** core/char_device.c *)

Record CharDevice := mkCharDevice { cd_get : M W Z; cd_put : Z -> M W unit }.

Definition init_char_device (intr : M W unit) : M (kstate W) unit := init_uart intr.
Definition init_uart_char_device (fuel : nat) : CharDevice := mkCharDevice uart_get_char (uart_send fuel).
End traps.
