(* ===== verification/TrapsTheorems.v ===== *)
(** The theorems on traps and interrupts: the handlers of the pending lines run in order; the
    interrupt of the SD card completes the oldest request of its driver; and after a
    fault that the trap handler ignores, the interrupts of the CPU are lost. *)
From S2P Require Import Prelude Bytes CString Locks Sd SdCard SdQueue SdHost SdTransfer SdServe SdTheorems Console Traps.

(** * Dispatch *)

Section dispatch.
Context {W : Type} `{Board W}.
Implicit Types (t : kstate W) (w : W).

Fixpoint run_all (cs : list (M W unit)) : M W unit :=
  match cs with
  | [] => mret tt
  | c :: cs' => c;; run_all cs'
  end.

(** The handlers of the lines in [l] that are set in [map]. *)
Definition line_handlers (hs : list (option (M W unit))) (map : Z) (l : list nat) : list (M W unit) :=
  omap (fun i => if Z.testbit map (Z.of_nat i) then nth i hs None else None) l.

Lemma bit_tested map i : 0 <= i -> negb (Z.land (Z.shiftr map i) 1 =? 0) = Z.testbit map i.
Proof.
  intros Hi. change 1 with (Z.ones 1). rewrite Z.land_ones by lia. rewrite <- (Z.add_0_l i) at 2. rewrite <- Z.shiftr_spec by lia.
  rewrite Z.bit0_eqb. change (2 ^ 1) with 2. pose proof (Z.mod_pos_bound (Z.shiftr map i) 2 ltac:(lia)).
  destruct (Z.eqb_spec (Z.shiftr map i mod 2) 0) as [->|]; [done |].
  by replace (Z.shiftr map i mod 2) with 1 by lia.
Qed.

Lemma on_machine_bind {A B} (c : M W A) (k : A -> M W B) t : on_machine (c ≫= k) t = (a ← on_machine c; on_machine (k a)) t.
Proof. unfold on_machine, mbind, M_bind, outcome_bind. by destruct (c (machine t)) as [[a w]| | | |]. Qed.

Lemma invoke_known i h t : nth (Z.to_nat i) (handler t) None = Some h -> invoke_handler i t = on_machine h t.
Proof. intros Hh. unfold invoke_handler, get, mbind, M_bind. by rewrite Hh. Qed.

Lemma on_machine_keeps {A} (c : M W A) t a t' : on_machine c t = Ret (a, t') -> handler t' = handler t.
Proof. unfold on_machine, mbind, outcome_bind. destruct (c (machine t)) as [[? ?]| | | |]; [| done..]. by intros [= _ <-]. Qed.

Lemma bind_same {A B} (c c' : M (kstate W) A) (k : A -> M (kstate W) B) t : c t = c' t -> (c ≫= k) t = (c' ≫= k) t.
Proof. unfold mbind, M_bind. by intros ->. Qed.

Lemma loop_runs map n : forall from t,
  (forall i, (from <= i < from + n)%nat -> Z.testbit map (Z.of_nat i) = true -> is_Some (nth i (handler t) None)) ->
  for_range (Z.of_nat from) n (fun i => if negb (Z.land (Z.shiftr map i) 1 =? 0) then invoke_handler i else mret tt) t =
  on_machine (run_all (line_handlers (handler t) map (seq from n))) t.
Proof.
  induction n as [|n IH]; intros from t Hh; [by destruct t |]. cbn [for_range seq].
  rewrite bit_tested by lia. unfold line_handlers. cbn [omap list_omap]. fold (line_handlers (handler t) map (seq (S from) n)).
  assert (Hnext : forall t', handler t' = handler t ->
    for_range (Z.of_nat from + 1) n (fun i => if negb (Z.land (Z.shiftr map i) 1 =? 0) then invoke_handler i else mret tt) t' =
    on_machine (run_all (line_handlers (handler t) map (seq (S from) n))) t').
  { intros t' Ht. rewrite <- Ht. replace (Z.of_nat from + 1) with (Z.of_nat (S from)) by lia. apply IH.
    intros i Hi Hb. rewrite Ht. apply Hh; [lia | done]. }
  destruct (Z.testbit map (Z.of_nat from)) eqn:Eb; [| by apply Hnext].
  destruct (Hh from) as [h Hf]; [lia | done |]. rewrite Hf. cbn [run_all]. rewrite on_machine_bind.
  rewrite (bind_same (invoke_handler (Z.of_nat from)) (on_machine h)) by (apply invoke_known; by rewrite Nat2Z.id).
  unfold mbind, M_bind. destruct (on_machine h t) as [[[] t']| | | |] eqn:Eh; try done.
  apply Hnext. by apply (on_machine_keeps _ _ _ _ Eh).
Qed.

(** A read of a register by a CPU in state [t]. *)
Lemma on_machine_get a t : on_machine (get_u32 a) t = Ret (fst (device_get_u32 a (machine t)), set_machine (snd (device_get_u32 a (machine t))) t).
Proof. unfold on_machine, get_u32, mbind, outcome_bind. by destruct (device_get_u32 a (machine t)). Qed.

(** The pending map, and the machine after the reads. *)
Definition reads_lines (w : W) (map : Z) (w' : W) : Prop := exists w1 p1 w2 p2,
  device_get_u32 (IRQ_SRC_CORE (cpuid w)) w = (IRQ_SRC_GPU, w1) /\
  device_get_u32 IRQ_PENDING_1 w1 = (p1, w2) /\ device_get_u32 IRQ_PENDING_2 w2 = (p2, w') /\
  map = Z.lor p1 (u64 (Z.shiftl p2 32)).

Lemma handler_runs t map w' : reads_lines (machine t) map w' ->
  (forall i, (i < 64)%nat -> Z.testbit map (Z.of_nat i) = true -> is_Some (nth i (handler t) None)) ->
  interrupt_global_handler t = on_machine (run_all (line_handlers (handler t) map (seq 0 64))) (set_machine w' t).
Proof.
  intros (w1 & p1 & w2 & p2 & H1 & H2 & H3 & Hmap) Hh. unfold interrupt_global_handler, get, mbind, M_bind.
  rewrite on_machine_get, H1. cbn [fst snd]. change (negb (Z.land IRQ_SRC_GPU IRQ_SRC_CNTPNSIRQ =? 0)) with false. cbn iota beta.
  unfold mret at 1, M_ret at 1. change (negb (Z.land IRQ_SRC_GPU IRQ_SRC_GPU =? 0)) with true. cbn iota beta.
  unfold pending_map, mbind, M_bind. rewrite on_machine_get. cbn [machine set_machine]. rewrite H2. cbn [fst snd].
  rewrite on_machine_get. cbn [machine set_machine]. rewrite H3. cbn [fst snd]. unfold mret at 1, M_ret at 1. rewrite <- Hmap.
  change (set_machine w' (set_machine w2 (set_machine w1 t))) with (set_machine w' t).
  pose proof (loop_runs map 64 0 (set_machine w' t) ltac:(intros i Hi; apply Hh; lia)) as Hl. change (Z.of_nat 0) with 0 in Hl.
  rewrite Hl. destruct (on_machine _ _) as [[[] t']| | | |]; done.
Qed.
(** When line [n] is the only one pending. *)
Lemma one_line hs n h : (n < 64)%nat -> nth n hs None = Some h -> line_handlers hs (2 ^ Z.of_nat n) (seq 0 64) = [h].
Proof.
  intros Hn Hh. assert (Hl : forall l, n ∉ l -> line_handlers hs (2 ^ Z.of_nat n) l = []).
  { induction l as [|i l IH]; intros Hi; [done |]. apply not_elem_of_cons in Hi as [Hi Hl]. unfold line_handlers. cbn [omap list_omap].
    fold (line_handlers hs (2 ^ Z.of_nat n) l). rewrite Z.pow2_bits_false by lia. by apply IH. }
  replace 64%nat with (n + S (63 - n))%nat by lia. rewrite seq_app, Nat.add_0_l. cbn [seq]. unfold line_handlers. rewrite omap_app. cbn [omap list_omap].
  fold (line_handlers hs (2 ^ Z.of_nat n) (seq 0 n)). fold (line_handlers hs (2 ^ Z.of_nat n) (seq (S n) (63 - n))).
  rewrite !Hl by (rewrite elem_of_seq; lia). rewrite Z.pow2_bits_true by lia. rewrite Hh. done.
Qed.

(** The exception of an interrupt on line [n] runs its handler and nothing else. *)
Lemma trap_one_line svc t n h w' : sysreg_get ESR_EL1 (machine t) = 0 -> (n < 64)%nat -> reads_lines (machine t) (2 ^ Z.of_nat n) w' ->
  nth n (handler t) None = Some h -> trap_global_handler svc t = (_ ← on_machine h; mret tt) (set_machine w' t).
Proof.
  intros He Hn Hr Hh. unfold trap_global_handler, get, mbind at 1, M_bind at 1. rewrite He. cbv zeta.
  change (Z.shiftr 0 ESR_EC_SHIFT =? ESR_EC_UNKNOWN) with true. change (negb (Z.land 0 ESR_IR_MASK =? 0)) with false. cbn iota.
  assert (Hbits : forall i, (i < 64)%nat -> Z.testbit (2 ^ Z.of_nat n) (Z.of_nat i) = true -> is_Some (nth i (handler t) None)).
  { intros i Hi. rewrite Z.pow2_bits_eqb by lia. intros Ei%Z.eqb_eq. assert (i = n) as -> by lia. by eexists. }
  rewrite (handler_runs t _ w' Hr Hbits), (one_line _ n h Hn Hh). cbn [run_all]. rewrite on_machine_bind.
  unfold mbind, M_bind. by destruct (on_machine h (set_machine w' t)) as [[[] []]| | | |].
Qed.
End dispatch.

(** * Theorems *)

Section composition.
Context {W D : Type} `{Board W} `{Host D}.
(** The state of the SD driver as a part of the machine. *)
Context (sd_of : W -> sd D) (with_sd : sd D -> W -> W).
Context (Hlens : forall s w, sd_of (with_sd s w) = s).
Context (sdque : Z).

(** sd_intr as a handler. *)
Definition on_sd {A} (c : M (sd D) A) : M W A := fun w => '(a, s) ← c (sd_of w); Ret (a, with_sd s w).
Definition sd_handler : M W unit := fun w => on_sd (sd_intr sdque (cpuid w)) w.

(** C22: an interrupt of the SD card, from the exception on.  When the CPU takes it, with the
    GPU as its only source, the line of the card as the only one pending, and sd_intr as the handler of that line,
    trap_global_handler returns and the oldest request of the driver has been served:
    the exception class, the source register, the pending registers and the table of handlers lead
    to the driver and to nothing else. *)
Theorem trap_completes_request (svc : M W unit) (σ : server) (t : kstate W) w' :
  sysreg_get ESR_EL1 (machine t) = 0 -> reads_lines (machine t) (2 ^ IRQ_ARASANSDIO) w' -> sd_of w' = sd_of (machine t) ->
  nth (Z.to_nat IRQ_ARASANSDIO) (handler t) None = Some sd_handler ->
  serves sdque σ (sd_of (machine t)) -> line_up (sd_of (machine t)) = true ->
  exists t', trap_global_handler svc t = Ret (tt, t') /\ pending σ <> [] /\ serves sdque (complete σ) (sd_of (machine t')) /\
    handler t' = handler t.
Proof.
  intros He Hr Hw Hh Hs Hup. rewrite (trap_one_line svc t 62 sd_handler w' He ltac:(lia) Hr Hh).
  destruct (wp_returns _ _ _ (intr_ok sdque (cpuid w') σ (sd_of (machine t)) Hs Hup)) as ([] & s' & Hi & Hne & Hs').
  exists (set_machine (with_sd s' w') t). split; [| split; [done | split; [cbn; by rewrite Hlens | done]]].
  unfold on_machine, sd_handler, on_sd, mbind, M_bind, outcome_bind. cbn [machine set_machine]. rewrite Hw, Hi. done.
Qed.
End composition.

(** ** The keyboard *)

Section keyboard.
Context {W : Type} `{Board W}.
(** The console as a part of the machine, and the bytes in the receiver of the UART. *)
Context (con : W -> console) (with_con : console -> W -> W) (fifo : W -> list Z).
Implicit Types (w : W).

(** The mini UART: the interrupt identification register says whether the receiver holds a byte,
    and the data register gives the oldest one. *)
Record receiver : Prop := {
  rx_lens : forall s w, con (with_con s w) = s;
  rx_fifo : forall s w, fifo (with_con s w) = fifo w;
  rx_identify : forall w v w', device_get_u32 AUX_MU_IIR_REG w = (v, w') -> fifo w' = fifo w /\ con w' = con w /\
    (fifo w = [] <-> negb (Z.land v 1 =? 0) || negb (Z.land v 6 =? 4) = true);
  rx_data : forall w c l v w', fifo w = c :: l -> device_get_u32 AUX_MU_IO_REG w = (v, w') ->
    Z.land v 0xff = c /\ fifo w' = l /\ con w' = con w
}.
Context (Hrx : receiver).

Lemma typed_ok l : bytes l -> 255 ∉ l -> forall fuel w, fifo w = l -> (length l < fuel)%nat ->
  wp no_panic (typed_chars fuel) (fun r w' => r = l /\ fifo w' = [] /\ con w' = con w) w.
Proof.
  induction l as [|c l IH]; intros Hb Hn fuel w Hf Hfu; (destruct fuel as [|fuel]; [cbn in Hfu; lia |]); cbn [typed_chars];
    apply wp_bind; unfold uart_get_char, get_u32; apply wp_bind;
    destruct (device_get_u32 AUX_MU_IIR_REG w) as [v w1] eqn:E1; destruct (rx_identify Hrx w v w1 E1) as (Ef1 & Ec1 & Hv);
    unfold wp at 1; rewrite E1; cbn beta iota; rewrite Hf in *.
  - rewrite (proj1 Hv eq_refl). apply wp_ret. change (u8 (-1) =? 255) with true. cbn iota. by apply wp_ret.
  - destruct (negb (Z.land v 1 =? 0) || negb (Z.land v 6 =? 4)); [by destruct (proj2 Hv eq_refl) |].
    apply wp_bind. destruct (device_get_u32 AUX_MU_IO_REG w1) as [x w2] eqn:E2. unfold wp at 1. rewrite E2.
    destruct (rx_data Hrx w1 c l x w2 ltac:(congruence) E2) as (-> & Ef2 & Ec2). apply wp_ret.
    apply Forall_cons in Hb as [Hc Hb]. apply not_elem_of_cons in Hn as [Hne Hn]. unfold is_byte in Hc.
    assert (Eu : u8 c = c) by (unfold u8; apply Z.mod_small; lia). rewrite Eu, (proj2 (Z.eqb_neq c 255)) by congruence.
    apply wp_bind. cbn in Hfu. wp_use (IH Hb Hn fuel w2); [done | lia |]. intros r w3 (-> & Ef3 & Ec3). apply wp_ret.
    split_and!; [done | done | congruence].
Qed.

(** C24: a key, from the exception to the line that a program reads.  When the CPU takes the
    interrupt of the UART, with the GPU as its only source and the auxiliary line as the only one pending, trap_global_handler
    runs uart_intr and nothing else: it takes every byte out of the receiver, and the ring
    buffer of the console holds the finished lines and the line being edited that typing these bytes one by
    one gives: backspace and delete take the last character of the unfinished line, control-U all of
    it, and a newline, an end-of-file or a full buffer finish it.  (A byte 0xff would end the loop early: getc uses
    it for an empty receiver.) *)
Theorem keyboard_interrupt_edits (svc : M W unit) (fuel : nat) (d : editor) (l : list Z) (t : kstate W) w' :
  sysreg_get ESR_EL1 (machine t) = 0 -> reads_lines (machine t) (2 ^ IRQ_AUX) w' ->
  nth (Z.to_nat IRQ_AUX) (handler t) None = Some (uart_intr con with_con fuel) ->
  console_idle (con w') d -> fifo w' = l -> bytes l -> 255 ∉ l -> (length l < fuel)%nat ->
  exists t', trap_global_handler svc t = Ret (tt, t') /\ console_idle (con (machine t')) (accept_all l d) /\
    fifo (machine t') = [] /\ handler t' = handler t.
Proof.
  intros He Hr Hh Hcon Hf Hb Hn Hfu. rewrite (trap_one_line svc t 29 _ w' He ltac:(lia) Hr Hh).
  destruct (wp_returns _ _ _ (typed_ok l Hb Hn fuel w' Hf Hfu)) as (r & w1 & E1 & -> & Ef1 & Ec1).
  destruct (wp_returns (console_intr (cpuid w1) l) (fun _ s' => console_idle s' (accept_all l d)) (con w1)) as ([] & s' & E2 & Hs');
    [eapply console_intr_ok; [by rewrite Ec1 | done] |].
  exists (set_machine (with_con s' w1) t). split; [| cbn; by rewrite (rx_lens Hrx), (rx_fifo Hrx)].
  unfold on_machine, uart_intr, on_console, mbind, M_bind, outcome_bind. cbn [machine set_machine]. rewrite E1, E2. done.
Qed.
End keyboard.

(** ** Faults *)

Section faults.
Context {W : Type} `{Board W}.

(** A synchronous exception sets ESR_EL1, an interrupt leaves it. *)
Inductive arrival := SyncException (esr : Z) | Interrupt.

Definition take_trap (svc : M W unit) (a : arrival) : M (kstate W) unit :=
  match a with
  | SyncException v => on_machine (modify (sysreg_put ESR_EL1 v));; trap_global_handler svc
  | Interrupt => trap_global_handler svc
  end.

Fixpoint take_interrupts (n : nat) (svc : M W unit) : M (kstate W) unit :=
  match n with
  | O => mret tt
  | S n' => take_trap svc Interrupt;; take_interrupts n' svc
  end.

Lemma trap_ignores svc (t : kstate W) :
  Z.shiftr (sysreg_get ESR_EL1 (machine t)) ESR_EC_SHIFT ∉ [ESR_EC_UNKNOWN; ESR_EC_SVC64] -> trap_global_handler svc t = Ret (tt, t).
Proof.
  intros Hec. unfold trap_global_handler, get, mbind, M_bind.
  destruct (Z.eqb_spec (Z.shiftr (sysreg_get ESR_EL1 (machine t)) ESR_EC_SHIFT) ESR_EC_UNKNOWN) as [E|]; [exfalso; apply Hec; rewrite E; left |].
  destruct (Z.eqb_spec (Z.shiftr (sysreg_get ESR_EL1 (machine t)) ESR_EC_SHIFT) ESR_EC_SVC64) as [E|]; [exfalso; apply Hec; rewrite E; right; left |].
  done.
Qed.

(** C35: trap_global_handler tells an interrupt by ESR_EL1 being zero, and resets the
    register for system calls only.  After any other synchronous exception, such as the data
    abort of a user program, the register keeps the class of the exception, which an interrupt does
    not change: every interrupt that the CPU takes from then on
    returns at once, without a clock handler or a device handler being called, and nothing but the
    register has changed. *)
Theorem fault_loses_interrupts (svc : M W unit) (v : Z) (n : nat) (t : kstate W) :
  (forall w, sysreg_get ESR_EL1 (sysreg_put ESR_EL1 v w) = v) ->
  Z.shiftr v ESR_EC_SHIFT ∉ [ESR_EC_UNKNOWN; ESR_EC_SVC64] ->
  (take_trap svc (SyncException v);; take_interrupts n svc) t = Ret (tt, set_machine (sysreg_put ESR_EL1 v (machine t)) t).
Proof.
  intros Hg Hec. set (t1 := set_machine _ t).
  assert (Ht1 : trap_global_handler svc t1 = Ret (tt, t1)) by (apply trap_ignores; cbn; by rewrite Hg).
  assert (Hn : take_interrupts n svc t1 = Ret (tt, t1)).
  { induction n as [|n IH]; [done |]. cbn [take_interrupts take_trap]. unfold mbind, M_bind. by rewrite Ht1. }
  cbn [take_trap]. unfold mbind, M_bind. change (on_machine (modify (sysreg_put ESR_EL1 v)) t) with (Ret (tt, t1) : outcome (unit * kstate W)).
  cbn beta iota. rewrite Ht1. done.
Qed.
End faults.

(** ** A machine *)

(** The registers of the CPU, and the SD driver with the simulated controller. *)
Module Rig.
Import Sim.
Record rig := mkRig { esr_el1 : Z; rig_sd : sd host }.
Definition rig_get (a : Z) (w : rig) : Z * rig :=
  (if a =? IRQ_SRC_CORE 0 then IRQ_SRC_GPU else if a =? IRQ_PENDING_2 then Z.shiftl 1 30 else 0, w).
#[export] Instance rig_board : Board rig := {|
  device_get_u32 := rig_get;
  device_put_u32 := fun _ _ w => w;
  sysreg_get := fun r w => match r with ESR_EL1 => esr_el1 w | _ => 0 end;
  sysreg_put := fun r v w => match r with ESR_EL1 => mkRig v (rig_sd w) | _ => w end;
  cpuid := fun _ => 0;
  get_clock_frequency := fun _ => 0;
  delay_us := fun _ w => w
|}.
Definition rig_with (s : sd host) (w : rig) : rig := mkRig (esr_el1 w) s.
Definition rig_handlers : list (option (M rig unit)) := replicate 62 None ++ [Some (sd_handler rig_sd rig_with que); None].
End Rig.
Import Sim Rig.

Lemma trap_completes_request_witness : exists t t', trap_global_handler (mret tt) t = Ret (tt, t') /\
  serves que (complete (submit 4096 idle_server)) (rig_sd (machine t')).
Proof.
  destruct interrupted_write as (s & Hs & Hup). set (w := mkRig 0 s). set (t := mkKstate w rig_handlers 0 None).
  assert (Hr : reads_lines w (2 ^ IRQ_ARASANSDIO) w) by (by exists w, 0, w, (Z.shiftl 1 30)).
  destruct (@trap_completes_request rig host rig_board sim_mmio sim_host rig_sd rig_with (fun _ _ => eq_refl) que (mret tt) (submit 4096 idle_server) t w
    eq_refl Hr eq_refl eq_refl Hs Hup) as (t' & He & _ & Hs' & _).
  exists t, t'. split; [exact He | exact Hs'].
Defined.

Lemma fault_loses_interrupts_witness :
  (take_trap (mret tt) (SyncException 0x92000006);; take_interrupts 5 (mret tt)) (mkKstate (mkRig 0 resting) rig_handlers 0 None) =
  Ret (tt, mkKstate (mkRig 0x92000006 resting) rig_handlers 0 None).
Proof.
  assert (Hec : Z.shiftr 0x92000006 ESR_EC_SHIFT ∉ [ESR_EC_UNKNOWN; ESR_EC_SVC64]) by set_solver.
  pose proof (fault_loses_interrupts (mret tt) 0x92000006 5 (mkKstate (mkRig 0 resting) rig_handlers 0 None) (fun w => eq_refl) Hec) as Hx.
  rewrite Hx. reflexivity.
Defined.

(** The UART with a receiver, and the console. *)
Module Keys.
Record keys := mkKeys { rx : list Z; kcon : console }.
Definition keys_get (a : Z) (w : keys) : Z * keys :=
  if a =? IRQ_SRC_CORE 0 then (IRQ_SRC_GPU, w)
  else if a =? IRQ_PENDING_1 then (AUX_INT, w)
  else if a =? AUX_MU_IIR_REG then (match rx w with [] => 1 | _ => 4 end, w)
  else if a =? AUX_MU_IO_REG then (Z.land (hd 0 (rx w)) 0xff, mkKeys (tl (rx w)) (kcon w))
  else (0, w).
#[export] Instance keys_board : Board keys := {|
  device_get_u32 := keys_get;
  device_put_u32 := fun _ _ w => w;
  sysreg_get := fun _ _ => 0;
  sysreg_put := fun _ _ w => w;
  cpuid := fun _ => 0;
  get_clock_frequency := fun _ => 0;
  delay_us := fun _ w => w
|}.
Definition with_kcon (c : console) (w : keys) : keys := mkKeys (rx w) c.
Definition rx_bytes (w : keys) : list Z := map (fun c => Z.land c 0xff) (rx w).

Lemma keys_receiver : receiver kcon with_kcon rx_bytes.
Proof.
  split; try done.
  - intros w v w' [= <- <-]. split; [done | split; [done |]]. unfold rx_bytes. by destruct (rx w).
  - intros [r k] c l v w' Hf [= <- <-]. unfold rx_bytes in *. cbn in *. destruct r as [|x r]; [done |]. cbn in *.
    injection Hf as <- <-. split_and!; try done. rewrite <- Z.land_assoc. done.
Qed.
Definition keys_handlers : list (option (M keys unit)) := replicate 29 None ++ [Some (uart_intr kcon with_kcon 10)] ++ replicate 34 None.
End Keys.
Import Keys.

(** "ab", backspace, "c", return and "x". *)
Lemma keyboard_interrupt_edits_witness : exists t',
  trap_global_handler (mret tt) (mkKstate (mkKeys [97; 98; 127; 99; 13; 120] init_console) keys_handlers 0 None) = Ret (tt, t') /\
  console_idle (kcon (machine t')) (mkEditor [97; 99; 10] [120]).
Proof.
  set (w := mkKeys [97; 98; 127; 99; 13; 120] init_console).
  assert (Hr : reads_lines w (2 ^ IRQ_AUX) w) by (by exists w, AUX_INT, w, 0).
  destruct (keyboard_interrupt_edits kcon with_kcon rx_bytes keys_receiver (mret tt) 10 (mkEditor [] []) [97; 98; 127; 99; 13; 120]
    (mkKstate w keys_handlers 0 None) w eq_refl Hr eq_refl init_idle eq_refl ltac:(repeat constructor; discriminate) ltac:(set_solver) ltac:(cbn; lia))
    as (t' & E & Hc & _).
  exists t'. split; [exact E | exact Hc].
Defined.
