(* ===== verification/Filesystem.v ===== *)
(** The start of the file system, fs/fs.c: the block device is the SD driver,
    the block cache recovers the log on it, and the inode layer fetches the root.
    The driver refines the device of the model of the cache, so that what the
    cache reads and writes is what the card holds; a card with the image of mkfs
    boots into a file system with the files of the image. *)
From S2P Require Import Prelude Bytes CString ListNode Locks PhysMem Arena FsDefs Cache CacheSpec CacheLog CacheCrash CacheTxn CacheProtocol CacheTheorems BlockCache Path Console Inode InodeSpec InodeTable InodeTheorems Mkfs MkfsSpec MkfsTheorems Sd SdCard SdQueue SdHost SdTransfer SdServe SdTheorems SdInit.

(** * Calls of the device *)

(** A call through the pointers of [block_device]. *)
Inductive device_call :=
  | ReadBlock (n : Z)
  | WriteBlock (n : Z) (d : list Z).

Definition call_device (c : device_call) (dv : Device) : list Z * Device :=
  match c with
  | ReadBlock n => (medium dv n, dv)
  | WriteBlock n d => ([], dev_write n d dv)
  end.

Fixpoint call_devices (cs : list device_call) (dv : Device) : list (list Z) * Device :=
  match cs with
  | [] => ([], dv)
  | c :: cs' =>
      let '(r, dv1) := call_device c dv in
      let '(rs, dv2) := call_devices cs' dv1 in
      (r :: rs, dv2)
  end.

Section driver.
Context {D : Type} `{Host D} (sdque : Z).
Implicit Types (s : sd D) (σ : server).

(** sd_read and sd_write with their variable [b] at [p]. *)
Definition call_driver (fuel : nat) (me p : Z) (c : device_call) : M (sd D) (list Z) :=
  match c with
  | ReadBlock n => sd_read sdque fuel (sleep_one sdque me) me p n
  | WriteBlock n d => sd_write sdque fuel (sleep_one sdque me) me p n d;; mret []
  end.

Fixpoint call_drivers (fuel : nat) (me p : Z) (cs : list device_call) : M (sd D) (list (list Z)) :=
  match cs with
  | [] => mret []
  | c :: cs' => r ← call_driver fuel me p c; rs ← call_drivers fuel me p cs'; mret (r :: rs)
  end.

(** The blocks of the partition that are on the card. *)
Definition on_card (n : Z) : Prop := 0 <= n /\ addressable (n + BLOCKNO_OFFSET).

Definition valid_call (c : device_call) : Prop :=
  match c with
  | ReadBlock n => on_card n
  | WriteBlock n d => on_card n /\ block_ok d
  end.

(** The driver is at rest with a buffer at [p], the partition holds the medium of
    [dv], and the blocks before the partition are those of [boot]. *)
Definition card_is (p : Z) (boot : Z -> list Z) (dv : Device) s : Prop := exists σ b,
  serves sdque σ s /\ pending σ = [] /\ objs σ !! p = Some b /\ block_ok (data b) /\
  (forall n, on_card n -> disk σ (n + BLOCKNO_OFFSET) = medium dv n) /\
  (forall m, m < BLOCKNO_OFFSET -> disk σ m = boot m).

Lemma on_card_number n : on_card n -> u32 (u32 n + BLOCKNO_OFFSET) = n + BLOCKNO_OFFSET.
Proof.
  intros [Hn [_ Hlt]]. unfold BLOCKNO_OFFSET in *. rewrite (u32_small n) by (destruct hc; lia).
  apply u32_small. destruct hc; lia.
Qed.

Section calls.
Context (fuel : nat) (me p : Z) (boot : Z -> list Z).
Context (Hfuel : (0 < fuel)%nat) (Hp : p <> sdque) (Hp0 : p <> 0) (Hal : Z.land (data_address p) 3 = 0).

Lemma call_ok c dv s : valid_call c -> card_is p boot dv s ->
  wp no_panic (call_driver fuel me p c) (fun r s' => r = (call_device c dv).1 /\ card_is p boot (call_device c dv).2 s') s.
Proof.
  intros Hv (σ & b & Hs & Hpd & Hb & Hok & Hd & Hboot).
  assert (Hout : p ∉ sdque :: pending σ) by (rewrite Hpd; by intros ?%list_elem_of_singleton).
  assert (Hlen : (length (pending σ) < fuel)%nat) by (by rewrite Hpd).
  assert (Hsv : served σ = σ) by (unfold served; by rewrite Hpd).
  destruct c as [n|n d]; cbn [call_driver call_device fst snd].
  - pose proof (on_card_number n Hv) as En.
    wp_use (sd_read_ok sdque fuel me p b n σ s); [done.. | rewrite En; apply Hv | done |].
    intros r s' (-> & σ' & b' & Hs' & Hpd' & Hd' & Hb' & Hok'). rewrite Hsv, En in *. split; [by apply Hd |].
    exists σ', b'. by rewrite Hd'.
  - destruct Hv as [Hv Hdok]. pose proof (on_card_number n Hv) as En. apply wp_bind.
    wp_use (sd_write_ok sdque fuel me p b n d σ s); [done.. | rewrite En; apply Hv | done |].
    intros [] s' (σ' & b' & Hs' & Hpd' & Hd' & Hb' & Hok'). apply wp_ret. rewrite Hsv, En in Hd'. split; [done |].
    exists σ', b'. split_and!; try done; rewrite Hd'; unfold write_block_at.
    + intros m Hm. cbn [medium dev_write]. rewrite <- (Hd m Hm).
      destruct (Z.eqb_spec (m + BLOCKNO_OFFSET) (n + BLOCKNO_OFFSET)), (Z.eqb_spec m n); try done; lia.
    + intros m Hm. destruct Hv as [Hn _]. rewrite (proj2 (Z.eqb_neq _ _)) by lia. by apply Hboot.
Qed.

Lemma calls_ok cs : forall dv s, Forall valid_call cs -> card_is p boot dv s ->
  wp no_panic (call_drivers fuel me p cs)
    (fun rs s' => rs = (call_devices cs dv).1 /\ card_is p boot (call_devices cs dv).2 s') s.
Proof.
  induction cs as [|c cs IH]; intros dv s Hv Hc; cbn [call_drivers call_devices]; [by apply wp_ret |].
  apply Forall_cons in Hv as [Hv Hvs]. apply wp_bind. wp_use (call_ok c dv s); [done.. |].
  intros r s1 [-> Hc1]. destruct (call_device c dv) as [r dv1]. cbn [fst snd] in Hc1. apply wp_bind.
  wp_use (IH dv1 s1); [done.. |]. intros rs s2 [-> Hc2]. destruct (call_devices cs dv1). by apply wp_ret.
Qed.
End calls.

(** C12: the SD driver implements the block device that the cache is written against:
    any sequence of calls of sd_read and sd_write on blocks of the partition returns,
    each read with what the device of the model holds at that point, and
    leaves the card with the medium of that device; the blocks before the
    partition are never touched. *)
Theorem block_device_refines (fuel : nat) (me p : Z) (boot : Z -> list Z) (cs : list device_call) (dv : Device) (s : sd D) :
  (0 < fuel)%nat -> p <> sdque -> p <> 0 -> Z.land (data_address p) 3 = 0 -> Forall valid_call cs -> card_is p boot dv s ->
  exists s', call_drivers fuel me p cs s = Ret ((call_devices cs dv).1, s') /\ card_is p boot (call_devices cs dv).2 s'.
Proof.
  intros Hf Hp Hp0 Hal Hv Hc.
  destruct (wp_returns _ _ _ (calls_ok fuel me p boot Hf Hp Hp0 Hal cs dv s Hv Hc)) as (rs & s' & E & -> & Hc'). eauto.
Qed.
End driver.

(** * init_filesystem *)

Section start.
Context {D : Type} `{Host D} (sdque : Z).
Context {A : Type} `{OA : ObjectArena A} {I : Type} `{OI : ObjectArena I}.
Implicit Types (s : sd D) (t : itree (bcache A) I).

(** The writes of [ws] through [block_device.write]. *)
Definition write_back (fuel : nat) (me p : Z) (ws : writes) : M (sd D) unit :=
  call_drivers sdque fuel me p ((fun w => WriteBlock w.1 w.2) <$> ws);; mret tt.

(** init_filesystem after init_block_device, with the contents of [sblock_data].
    The cache works on the device [dv], which is the partition of the card; the writes
    of init_bcache are made on the card in their order. *)
Definition start_filesystem (fuel : nat) (me p : Z) (dv : Device) (a : A) (ia : I) (mem : Z -> Inode) (k : console)
    (sblock_data : list Z) : M (sd D) (itree (bcache A) I) :=
  let sblock := super_dec sblock_data in
  c ← lift (init_bcache me sblock dv a);
  write_back fuel me p (drop (length (trace dv)) (trace (device c)));;
  lift (init_inodes (sb := sblock) me c ia mem k).

Definition init_filesystem (fuel : nat) (box mbr me p : Z) (dv : Device) (a : A) (ia : I) (mem : Z -> Inode) (k : console) :
    M (sd D) (itree (bcache A) I) :=
  sblock_data ← init_block_device sdque fuel box mbr (sleep_one sdque me) me p;
  start_filesystem fuel me p dv a ia mem k sblock_data.

(** The blocks that a recovery writes. *)
Lemma replay_targets w sb h n : header_ok sb h -> n ∈ (replay_writes w sb h).*1 -> in_log sb n \/ n ∈ recorded h.
Proof.
  intros Hh. unfold replay_writes. destruct (hdr_num_blocks h =? 0); [by intros ?%not_elem_of_nil |].
  rewrite fmap_app, elem_of_app. intros [Hn|Hn].
  - right. apply list_elem_of_fmap in Hn as ([b d] & -> & Hn). unfold home_writes in Hn.
    apply list_elem_of_lookup in Hn as [i Hi]. rewrite list_lookup_imap in Hi. apply fmap_Some in Hi as (x & Hx & [= -> ->]).
    by eapply list_elem_of_lookup_2.
  - apply list_elem_of_singleton in Hn as ->. left. unfold in_log. cbn. pose proof (ho_fit _ _ Hh).
    destruct (ho_wf _ _ Hh). lia.
Qed.

(** What the start leaves: the cache shows the blocks [w], no operation runs, and
    the root inode is the only one in memory and is not loaded. *)
Record mounted (cap : nat) (sb : SuperBlock) (w : Z -> list Z) t (r : nat) : Prop := {
  mt_cache : shows cap sb (fs_cache t) (qv w ∅);
  mt_head : tree_head t = [tree_root t];
  mt_root : unloaded t (tree_root t) ROOT_INODE_NO;
  mt_table : exists r', table sb t r' /\ (r <= r')%nat
}.

Section starting.
Context (fuel : nat) (me p : Z) (boot : Z -> list Z) (cap : nat) (sb : SuperBlock) (w : Z -> list Z) (tr : writes) (a : A) (ia : I) (r : nat).
Let dv := mkDev w tr.
Let h := header_dec (w (sb_log_start sb)).
Context (Hfuel : (0 < fuel)%nat) (Hp : p <> sdque) (Hp0 : p <> 0) (Hal : Z.land (data_address p) 3 = 0).
Context (Hw : forall n, block_wf (w n)) (Hh : header_ok sb h) (Hlog : num_log_blocks sb < 2 ^ 32).
Context (Hcard : forall n, in_log sb n \/ n ∈ recorded h -> on_card n).
Context (Hroomy : roomy cap a) (Hia : ar_inv ia ∅ (S r)) (Hroot : ROOT_INODE_NO < num_inodes sb).

Lemma call_writes ws : forall dv0, (call_devices ((fun x => WriteBlock x.1 x.2) <$> ws) dv0).2 = dev_writes dv0 ws.
Proof.
  induction ws as [|x ws IH]; intros dv0; [done |]. rewrite fmap_cons. cbn [call_devices call_device dev_writes foldl].
  specialize (IH (dev_write x.1 x.2 dv0)). destruct (call_devices _ _). exact IH.
Qed.

Lemma init_inodes_ok (c : bcache A) mem k : shows cap sb c (qv (recover sb w) ∅) ->
  exists t, init_inodes (sb := sb) me c ia mem k = Ret t /\ mounted cap sb (recover sb w) t r /\ fs_cache t = c.
Proof.
  intros Hc. unfold init_inodes. rewrite (proj2 (Z.ltb_lt _ _)) by done.
  set (s0 := fresh_itree c ia mem k).
  assert (HT : table sb s0 (S r)).
  { split; cbn; try done; try apply NoDup_nil_2.
    1,2: by intros q ?%not_elem_of_nil.
    by intros q q' ?%not_elem_of_nil. }
  destruct (wp_returns (inode_get (sb := sb) me ROOT_INODE_NO)
    (fun q t => got s0 ROOT_INODE_NO q t /\ exists r', table sb t r' /\ (S r <= S r')%nat) s0) as (q & t & E & Hg & r' & Ht & Hr).
  { eapply inode_get_ok; [exact HT | unfold ROOT_INODE_NO in *; lia | done | left; lia | done]. }
  rewrite E. cbn. eexists. split; [done |].
  destruct (gt_new _ _ _ _ Hg) as (Eh & _ & El & Eld & _); [apply not_elem_of_nil |].
  destruct (gt_frame _ _ _ _ Hg) as (Ec & _). split; [| exact Ec]. split; cbn.
  - by rewrite Ec.
  - exact Eh.
  - split_and!; cbn; [apply Hg | apply Hg | done | done |]. rewrite (gt_rc _ _ _ _ Hg). done.
  - exists r'. split; [by destruct Ht | lia].
Qed.

Lemma start_ok mem k data s : super_dec data = sb -> card_is sdque p boot dv s ->
  wp no_panic (start_filesystem fuel me p dv a ia mem k data)
    (fun t s' => mounted cap sb (recover sb w) t r /\
      card_is sdque p boot (device (fs_cache t)) s' /\ medium (device (fs_cache t)) = recover sb w) s.
Proof.
  intros Esb Hc. unfold start_filesystem. rewrite Esb.
  destruct (init_bcache_txn me cap sb dv a Hw Hroomy Hh Hlog) as (c & Ec & Esc & _ & _ & _ & HT).
  destruct (init_bcache_ok me cap sb dv a Hw Hroomy Hh) as (c' & Ec' & HR & _). rewrite Ec in Ec'. injection Ec' as <-.
  pose proof (eq_sym (R_disk _ _ _ HR)) as Ed. cbn [CacheSpec.disk] in Ed. set (ws := replay_writes _ _ _) in Ed.
  apply wp_bind. eapply wp_lift; [exact Ec |]. apply wp_bind. unfold write_back. apply wp_bind.
  assert (Et : drop (length (trace dv)) (trace (device c)) = ws) by (rewrite Ed, trace_dev_writes; apply drop_app_length).
  rewrite Et. wp_use (calls_ok sdque fuel me p boot Hfuel Hp Hp0 Hal ((fun x => WriteBlock x.1 x.2) <$> ws) dv s); [| done |].
  { apply Forall_fmap, Forall_forall. intros x Hx. split.
    - apply Hcard, (replay_targets w sb h); [done |]. by apply list_elem_of_fmap_2.
    - destruct (proj1 (Forall_forall _ _) (replay_writes_wf _ _ Hh _ Hw) x Hx). done. }
  intros rs s1 [_ Hc1]. rewrite call_writes, <- Ed in Hc1. apply wp_ret.
  assert (Hm : medium (device c) = recover sb w) by (rewrite Ed; apply medium_dev_writes).
  destruct (init_inodes_ok c mem k) as (t & Et' & Hmt & Ecache).
  { exists (mkSpec (recover sb w) (device c) ∅ ∅), ∅. split_and!; [exact HT | done | done | done | |].
    - intros ctx bl. cbn. by rewrite lookup_empty.
    - intros q no. cbn. by rewrite lookup_empty. }
  eapply wp_lift; [exact Et' |]. by rewrite Ecache.
Qed.

Lemma init_filesystem_start box mbr mem k s0 pt s : sd_init sdque fuel box mbr s0 = Ret (pt, s) -> card_is sdque p boot dv s ->
  on_card 1 -> super_dec (w 1) = sb ->
  exists t s', init_filesystem fuel box mbr me p dv a ia mem k s0 = Ret (t, s') /\ mounted cap sb (recover sb w) t r /\
    card_is sdque p boot (device (fs_cache t)) s' /\ medium (device (fs_cache t)) = recover sb w.
Proof.
  intros E0 Hc H1 Esb.
  destruct (wp_returns _ _ _ (call_ok sdque fuel me p boot Hfuel Hp Hp0 Hal (ReadBlock 1) dv s H1 Hc)) as (d & s1 & E1 & -> & Hc1).
  destruct (wp_returns _ _ _ (start_ok mem k (w 1) s1 Esb Hc1)) as (t & s' & E2 & Hm). exists t, s'. split; [| exact Hm].
  unfold init_filesystem, init_block_device, mbind, M_bind. rewrite E0. cbn [call_driver] in E1. rewrite E1. exact E2.
Qed.
End starting.

(** A further inode of the mounted file system. *)
Lemma mounted_get cap sb w t r me no : mounted cap sb w t (S r) -> 1 < no < num_inodes sb ->
  exists q t', inode_get (sb := sb) me no t = Ret (q, t') /\ unloaded t' q no /\ fs_cache t' = fs_cache t.
Proof.
  intros [Hc Hh Hu (r' & Ht & Hr)] Hno. destruct r' as [|r']; [lia |].
  assert (Href : refs t no = 0).
  { unfold refs. destruct (find_inode no (tree_mem t) (tree_head t)) as [q|] eqn:Ef; [| done].
    pose proof (find_inode_ok no (tree_mem t) (tree_head t)) as Hf. rewrite Ef in Hf. destruct Hf as (Hq & _ & Eq).
    rewrite Hh in Hq. apply list_elem_of_singleton in Hq as ->. destruct Hu as (_ & E1 & _). unfold ROOT_INODE_NO in E1. lia. }
  destruct (wp_returns (inode_get (sb := sb) me no) (fun q t' => got t no q t') t) as (q & t' & E & Hg).
  { eapply inode_get_ok; [exact Ht | lia | by rewrite Href | left; lia | done]. }
  exists q, t'. split; [done |]. destruct (gt_frame _ _ _ _ Hg) as (Ec & _). split; [| done].
  assert (Hq : q ∉ tree_head t).
  { intros Hin. destruct (gt_old _ _ _ _ Hg Hin) as (_ & E1 & _). rewrite Hh in Hin. apply list_elem_of_singleton in Hin as ->.
    destruct Hu as (_ & E2 & _). unfold ROOT_INODE_NO in E2. lia. }
  destruct (gt_new _ _ _ _ Hg Hq) as (_ & _ & El & Eld & _).
  split_and!; [apply Hg | apply Hg | done | done |]. rewrite (gt_rc _ _ _ _ Hg), Href. done.
Qed.

(** C7: the start of the file system recovers it from the card.  When sd_init has found a card
    whose partition holds the blocks [w], init_filesystem returns; the super block is the
    one of block 1, the operations committed to the log are on the card, in
    their blocks, and the cache shows these blocks; the inode layer holds the root inode,
    not yet loaded; the blocks before the partition are as they were. *)
Theorem init_filesystem_recovers (fuel : nat) (box mbr me p : Z) (boot : Z -> list Z) (cap : nat) (w : Z -> list Z) (tr : writes)
    (a : A) (ia : I) (r : nat) (mem : Z -> Inode) (k : console) (s0 s : sd D) (pt : Z * Z) :
  let sb := super_dec (w 1) in
  let h := header_dec (w (sb_log_start sb)) in
  (0 < fuel)%nat -> p <> sdque -> p <> 0 -> Z.land (data_address p) 3 = 0 ->
  sd_init sdque fuel box mbr s0 = Ret (pt, s) -> card_is sdque p boot (mkDev w tr) s ->
  (forall n, block_wf (w n)) -> header_ok sb h -> num_log_blocks sb < 2 ^ 32 -> ROOT_INODE_NO < num_inodes sb ->
  (forall n, n = 1 \/ in_log sb n \/ n ∈ recorded h -> on_card n) -> roomy cap a -> ar_inv ia ∅ (S r) ->
  exists t s' dv', init_filesystem fuel box mbr me p (mkDev w tr) a ia mem k s0 = Ret (t, s') /\
    mounted cap sb (recover sb w) t r /\ card_is sdque p boot dv' s' /\ medium dv' = recover sb w.
Proof.
  intros sb h Hf Hp Hp0 Hal E0 Hc Hw Hh Hlog Hroot Hcard Hr Hia.
  destruct (init_filesystem_start fuel me p boot cap sb w tr a ia r Hf Hp Hp0 Hal Hw Hh Hlog
    (fun n Hn => Hcard n (or_intror Hn)) Hr Hia Hroot box mbr mem k s0 pt s E0 Hc (Hcard 1 (or_introl eq_refl)) eq_refl)
    as (t & s' & E & Hm & Hc' & Em).
  by exists t, s', (device (fs_cache t)).
Qed.

Lemma zero_recorded : recorded (header_dec zero_block) = [].
Proof. vm_compute. reflexivity. Qed.

Lemma zero_header sb : 0 < num_log_blocks sb -> header_ok sb (header_dec zero_block).
Proof.
  intros Hl. pose proof zero_recorded as Er.
  split; [apply header_dec_wf, zero_block_wf | by vm_compute | exact Hl | rewrite Er; apply NoDup_nil_2 |].
  intros b. rewrite Er. by intros ?%not_elem_of_nil.
Qed.

(** C6: a machine whose card holds the image of mkfs boots into a file system with the files
    of the image: init_filesystem returns and leaves the card as it is; the name
    of a file, looked up in the root directory, gives its inode, and this inode,
    fetched, locked and read from the start, gives the bytes that mkfs was given.  The files fit on the
    image, their names, cut to 14 bytes, differ, and the number of entries of the root directory is no
    multiple of 32 (where mkfs makes the directory a block too long). *)
Theorem boot_reads_files (fuel : nat) (box mbr me p : Z) (boot : Z -> list Z) (cap : nat) (Hcap : (70 <= cap)%nat)
    (a : A) (ia : I) (r : nat) (mem : Z -> Inode) (k : console) (s0 s : sd D) (pt : Z * Z)
    (files : list host_file) (i : nat) (f : host_file) (killed : bool) (junk : list Z) (st : mkfs) :
  (0 < fuel)%nat -> p <> sdque -> p <> 0 -> Z.land (data_address p) 3 = 0 ->
  fits files -> (2 + Z.of_nat (length files)) mod 32 <> 0 -> NoDup (root_names files) ->
  files !! i = Some f -> Z.of_nat (length f.1) < 2 ^ 20 -> length junk = 16%nat ->
  mkfs_main files init_mkfs = Ret (tt, st) ->
  sd_init sdque fuel box mbr s0 = Ret (pt, s) -> card_is sdque p boot (mkDev (img st) []) s ->
  (forall n, 0 <= n < num_blocks mkfs_sb -> on_card n) -> roomy cap a -> ar_inv ia ∅ (S (S r)) ->
  let KC := kernel_cache me cap Hcap mkfs_sb in
  let no := Z.of_nat i + 2 in let n := Z.of_nat (length (host_content f)) in
  exists t s' dv', init_filesystem fuel box mbr me p (mkDev (img st) []) a ia mem k s0 = Ret (t, s') /\
    card_is sdque p boot dv' s' /\ medium dv' = img st /\
    (exists t1 t2, inode_lock (BC := KC) me (tree_root t) t = Ret (tt, t1) /\
       inode_lookup (BC := KC) me killed junk (tree_root t) (base_name f.1) t1 = Ret ((no, Some no), t2)) /\
    (exists q t1 t2 t3, inode_get (sb := mkfs_sb) me no t = Ret (q, t1) /\ inode_lock (BC := KC) me q t1 = Ret (tt, t2) /\
       inode_read (BC := KC) me killed q 0 n t2 = Ret ((n, host_content f), t3)).
Proof.
  intros Hfu Hp Hp0 Hal Hfit Hroot Hnames Hi Hpath Hjunk Est E0 Hc Hcard Hr Hia KC no n.
  destruct (mkfs_builds files Hfit) as (st' & Est' & Hfs & _). rewrite Est in Est'. injection Est' as <-. specialize (Hfs Hroot). clear Est.
  destruct (Hfit) as (_ & Hlen & _). pose proof (lookup_lt_Some _ _ _ Hi) as Hil.
  assert (Hlog0 : img st (sb_log_start mkfs_sb) = zero_block) by (apply (mf_log _ _ _ Hfs); vm_compute; split; [discriminate | reflexivity]).
  assert (Er : recover mkfs_sb (img st) = img st) by (apply recover_clear; rewrite Hlog0; vm_compute; reflexivity).
  destruct (init_filesystem_start fuel me p boot cap mkfs_sb (img st) [] a ia (S r)) with (box := box) (mbr := mbr) (mem := mem) (k := k) (s0 := s0) (pt := pt) (s := s)
    as (t & s' & E & Hm & Hc' & Em); [assumption.. | | | vm_compute; reflexivity | | assumption | assumption | vm_compute; reflexivity | assumption | assumption | | |].
  - apply (mf_wf _ _ _ Hfs).
  - rewrite Hlog0. apply zero_header. vm_compute. reflexivity.
  - intros x. rewrite Hlog0, zero_recorded. intros [Hx|Hx]; [| destruct (not_elem_of_nil x Hx)]. apply Hcard.
    unfold in_log in Hx. change (sb_log_start mkfs_sb) with 2 in Hx. change (num_log_blocks mkfs_sb) with 63 in Hx.
    change (num_blocks mkfs_sb) with 1000. lia.
  - apply Hcard. vm_compute. split; [discriminate | reflexivity].
  - apply (mf_super _ _ _ Hfs).
  - exists t, s', (device (fs_cache t)). rewrite Er in Hm, Em. split; [exact E | split; [exact Hc' | split; [exact Em |]]].
    pose proof (mt_cache _ _ _ _ _ Hm) as Hs. split.
    + destruct (kernel_reads_ok (BC := KC) me killed junk files i f (img st) _ t (tree_root t) ∅ Hfs Hlen Hnames Hi Hpath Hjunk Hs) as [Hlook _].
      apply Hlook, Hm.
    + destruct (mounted_get _ _ _ _ _ me no Hm) as (q & t1 & E1 & Hu & Ec); [change (num_inodes mkfs_sb) with 200; lia |].
      destruct (kernel_reads_ok (BC := KC) me killed junk files i f (img st) _ t1 q ∅ Hfs Hlen Hnames Hi Hpath Hjunk) as [_ Hread]; [rewrite Ec; exact Hs |].
      destruct (Hread Hu) as (t2 & t3 & E2 & E3). exists q, t1, t2, t3. split; [exact E1 | split; [exact E2 | exact E3]].
Qed.
End start.

(** * A machine that boots *)

(** A controller with a card that first answers the commands of its identification, and then, once the
    length of its blocks is set, transfers blocks. *)
Module Boot.
Import Sim SdInit.Card.

Inductive sdcard :=
  | Identifying (last : Z) (B : Z -> list Z)
  | Running (h : host).

Definition on_running (f : host -> host) (d : sdcard) : sdcard :=
  match d with Identifying _ _ => d | Running h => Running (f h) end.

Definition boot_get (r : reg) (d : sdcard) : Z * sdcard :=
  match d with
  | Identifying last _ => ((last_get r last).1, d)
  | Running h => let '(v, h') := sim_get r h in (v, Running h')
  end.
Definition boot_put (r : reg) (v : Z) (d : sdcard) : sdcard :=
  match d with
  | Identifying last B =>
      match r with
      | EMMC_CMDTM => Identifying v B
      | EMMC_INTERRUPT => if last =? code (nth_command IX_SET_BLOCKLEN) then Running (mkHost Quiet 0 512 B) else d
      | _ => d
      end
  | Running h => Running (sim_put r v h)
  end.

#[export] Instance boot_mmio : Mmio sdcard := {|
  reg_get := boot_get;
  reg_put := boot_put;
  elapse := fun _ => on_running (fun h => set_at_phase (sim_elapse (at_phase h)) h);
  spin := fun _ d => d;
  shared_get := fun _ => replicate 36 0;
  shared_put := fun _ d => d
|}.

#[export] Instance boot_host : Host sdcard.
Proof.
  refine {| ctl := fun d h => d = Running h; hc := true; nblocks := 2 ^ 20 |}.
  - intros d h ->. exists (Running h). by destruct h as [[] ? ? ?].
  - intros d [p x y B] -> Hp. cbn in Hp. subst p. by eexists 0, _.
  - intros d [p x y B] w a m -> Hp. cbn in Hp. subst p. destruct w; by eexists 0, _.
  - intros d [p x y B] a k -> Hp Hk. cbn in Hp. subst p. by eexists _, 2%nat.
  - intros d [ph x y B] v p -> Ha. cbn in *. by destruct Ha.
  - intros d [p x y B] v -> Hp. cbn in Hp. by subst p.
  - intros d [p x y B] v -> Hp. cbn in Hp. by subst p.
  - intros d [p x y B] w a -> Hp Hb Ha Harg. cbn in Hp, Harg. subst p x. destruct w; [by exists 1%nat, 2%nat | by exists 1%nat, 3%nat].
  - intros d [p x y B] a l v -> Hp Hl. cbn in Hp. subst p. exists 2%nat. split; [done |]. cbn. by destruct (decide _).
  - intros d h us -> Hus. exists (sim_elapse (at_phase h)). split; [| done]. destruct (at_phase h); cbn; constructor; lia.
Defined.

(** The memory of the driver at reset: the head of the queue at 16, the buffer of sd_init at 4096
    and the one of sd_read and sd_write at 8192. *)
Definition blank_buf : buf := mkBuf 0 0 zeros 0.
Definition reset (B : Z -> list Z) : sd sdcard :=
  mkSd (Identifying 0 B) (mkCard 0 [0;0;0;0] [0;0;0;0] [0;0] 0 0 0 0 0 0 0 0 0 0 None 0) 0 0
    (<[que := blank_buf]> (<[4096 := blank_buf]> {[ 8192 := blank_buf ]})) init_spinlock [] false.

(** A card with an empty partition table in block 0, and the blocks [B]. *)
Definition with_table (B : Z -> list Z) (n : Z) : list Z := match n with Z0 => zeros | _ => B n end.

(** The blocks [w] are in the partition. *)
Definition card_blocks (w : Z -> list Z) : Z -> list Z :=
  with_table (fun n => if n <? BLOCKNO_OFFSET then zeros else w (n - BLOCKNO_OFFSET)).

Definition started (B : Z -> list Z) : sd sdcard :=
  match sd_init que 1 0x1000 4096 (reset B) with Ret (_, s) => s | _ => reset B end.
End Boot.
Import Sim Boot.

Lemma started_memory B : let s := started (with_table B) in
  (exists pt, sd_init que 1 0x1000 4096 (reset (with_table B)) = Ret (pt, s)) /\
  dev s = Running (mkHost Quiet 0 512 (with_table B)) /\ sdlock s = init_spinlock /\ card_type (sdCard s) = SD_TYPE_2_HC /\
  wakeups s = [] /\ (exists b, bufs s !! que = Some b /\ qnext b = 0) /\ bufs s !! 8192 = Some blank_buf.
Proof. vm_compute. split_and!; try reflexivity; eexists; [reflexivity | split; reflexivity]. Qed.

Lemma started_card w : (forall n, block_ok (w n)) -> card_is que 8192 (fun _ => zeros) (mkDev w []) (started (card_blocks w)).
Proof.
  intros Hw. destruct (started_memory (fun n => if n <? BLOCKNO_OFFSET then zeros else w (n - BLOCKNO_OFFSET)))
    as (_ & Ed & El & Et & Ew & (hd & Eh & En) & Eb). fold (card_blocks w) in *. set (s := started (card_blocks w)) in *. clearbody s.
  assert (Hz : block_ok zeros) by (split; [done | by apply bytes_replicate]).
  exists (mkServer (card_blocks w) [] (unlink <$> bufs s) (wakeups s)), blank_buf. split; [split; [split |]|]; try done.
  - split; try done.
    + split; [apply NoDup_singleton |]. by exists hd.
    + cbn. by rewrite Et.
    + intros n _. cbn. unfold card_blocks, with_table. destruct n; [done | |]; by case_match.
  - rewrite Ed. by exists (mkHost Quiet 0 512 (card_blocks w)).
  - split_and!; [done | cbn; by rewrite lookup_fmap, Eb | done | |].
    + intros n [Hn _]. cbn. unfold card_blocks, with_table, BLOCKNO_OFFSET in *. destruct (n + 133120) eqn:E; [lia | | lia].
      rewrite <- E, (proj2 (Z.ltb_ge _ _)) by lia. f_equal. lia.
    + intros m Hm. cbn. unfold card_blocks, with_table. destruct m; [done | |]; by rewrite (proj2 (Z.ltb_lt _ _)) by done.
Qed.

Lemma sim_on_card n : 0 <= n < 2 ^ 19 -> on_card (D := sdcard) n.
Proof. intros Hn. split; [lia |]. unfold addressable, BLOCKNO_OFFSET. cbn. lia. Qed.

Lemma zero_ok : block_ok zeros.
Proof. split; [done | by apply bytes_replicate]. Qed.

(** Reads and writes of block 5 and of its neighbour. *)
Lemma block_device_refines_witness : exists s',
  call_drivers que 1 0 8192 [ReadBlock 5; WriteBlock 5 (replicate 512 9); ReadBlock 5; ReadBlock 6] (started (card_blocks (fun _ => zeros))) =
    Ret ([zeros; []; replicate 512 9; zeros], s') /\
  card_is que 8192 (fun _ => zeros) (dev_write 5 (replicate 512 9) (mkDev (fun _ => zeros) [])) s'.
Proof.
  apply (block_device_refines que 1 0 8192 (fun _ => zeros) [ReadBlock 5; WriteBlock 5 (replicate 512 9); ReadBlock 5; ReadBlock 6]
    (mkDev (fun _ => zeros) [])); [lia | discriminate | discriminate | reflexivity | | apply started_card; intros _; apply zero_ok].
  repeat constructor; cbn; try (unfold BLOCKNO_OFFSET; lia).
Defined.

Definition torn_log : LogHeader := mkHeader 1 (100 :: replicate 62 0).

(** A crash after the header of the log was written, before the blocks were copied home. *)
Definition torn (n : Z) : list Z :=
  if n =? 1 then splice zero_block 0 (super_enc mkfs_sb)
  else if n =? 2 then header_enc torn_log
  else if n =? 3 then replicate 512 7 else zero_block.

Lemma torn_wf n : block_wf (torn n).
Proof.
  unfold torn. repeat case_match; first [apply zero_block_wf | apply block_wf_check; vm_compute; reflexivity].
Qed.

Lemma torn_header : header_ok mkfs_sb torn_log.
Proof.
  split; [split; [by vm_compute | split; [| reflexivity]] | by vm_compute | by vm_compute | apply NoDup_singleton |].
  - constructor; [lia |]. apply Forall_replicate. lia.
  - intros b ->%list_elem_of_singleton. unfold in_log. change (sb_log_start mkfs_sb) with 2. change (num_log_blocks mkfs_sb) with 63. lia.
Qed.

Lemma torn_on_card n : n = 1 \/ in_log mkfs_sb n \/ n ∈ recorded torn_log -> on_card n.
Proof.
  intros Hn. apply sim_on_card. destruct Hn as [->|[Hn| ->%list_elem_of_singleton]]; [lia | | lia].
  unfold in_log in Hn. change (sb_log_start mkfs_sb) with 2 in Hn. change (num_log_blocks mkfs_sb) with 63 in Hn. lia.
Qed.

Lemma init_filesystem_recovers_witness : exists (t : itree (bcache (Arena pmem)) (Arena pmem)) s' dv',
  init_filesystem que 1 0x1000 4096 0 8192 (mkDev torn []) block_arena inode_arena (fun _ => held_inode 0 zero_entry) init_console
    (reset (card_blocks torn)) = Ret (t, s') /\
  mounted 70 mkfs_sb (recover mkfs_sb torn) t 371 /\ card_is que 8192 (fun _ => zeros) dv' s' /\ medium dv' 100 = replicate 512 7.
Proof.
  assert (Esb : super_dec (torn 1) = mkfs_sb) by (vm_compute; reflexivity).
  assert (Eh : header_dec (torn 2) = torn_log) by (vm_compute; reflexivity).
  destruct (started_memory (fun n => if n <? BLOCKNO_OFFSET then zeros else torn (n - BLOCKNO_OFFSET))) as ((pt & E0) & _).
  pose proof (init_filesystem_recovers que 1 0x1000 4096 0 8192 (fun _ => zeros) 70 torn [] block_arena inode_arena 371
    (fun _ => held_inode 0 zero_entry) init_console _ _ _ ltac:(lia) ltac:(discriminate) ltac:(discriminate) eq_refl E0) as H.
  rewrite Esb in H. change (sb_log_start mkfs_sb) with 2 in H. rewrite Eh in H.
  destruct H as (t & s' & dv' & E & Hm & Hc & Em).
  - apply started_card. intros n. destruct (torn_wf n) as [Hb Hl]. exact (conj Hl Hb).
  - apply torn_wf.
  - apply torn_header.
  - vm_compute. reflexivity.
  - vm_compute. reflexivity.
  - apply torn_on_card.
  - apply block_arena_roomy.
  - apply inode_arena_room.
  - exists t, s', dv'. split; [exact E | split; [exact Hm | split; [exact Hc |]]]. rewrite Em. vm_compute. reflexivity.
Defined.

Lemma seventy : (70 <= 70)%nat.
Proof. lia. Qed.

Lemma boot_reads_files_witness : exists st (t : itree (bcache (Arena pmem)) (Arena pmem)) s' q t1 t2 t3,
  mkfs_main two_files init_mkfs = Ret (tt, st) /\
  init_filesystem que 1 0x1000 4096 0 8192 (mkDev (img st) []) block_arena inode_arena (fun _ => held_inode 0 zero_entry) init_console
    (reset (card_blocks (img st))) = Ret (t, s') /\
  inode_get (sb := mkfs_sb) 0 2 t = Ret (q, t1) /\ inode_lock (BC := kernel_cache 0 70 seventy mkfs_sb) 0 q t1 = Ret (tt, t2) /\
  inode_read (BC := kernel_cache 0 70 seventy mkfs_sb) 0 false q 0 4 t2 = Ret ((4, [1; 2; 3; 4]), t3).
Proof.
  pose proof (files_fit_ok two_files ltac:(vm_compute; reflexivity)) as Hfit.
  destruct (mkfs_builds two_files Hfit) as (st & E & Hfs & _). specialize (Hfs ltac:(vm_compute; discriminate)).
  destruct (started_memory (fun n => if n <? BLOCKNO_OFFSET then zeros else img st (n - BLOCKNO_OFFSET))) as ((pt & E0) & _).
  destruct (boot_reads_files que 1 0x1000 4096 0 8192 (fun _ => zeros) 70 seventy block_arena inode_arena 370 (fun _ => held_inode 0 zero_entry) init_console
    _ _ _ two_files 0 (chars "user/_sh", Some [[1; 2; 3]; [4]]) false (replicate 16 0) st
    ltac:(lia) ltac:(discriminate) ltac:(discriminate) eq_refl Hfit ltac:(vm_compute; discriminate)
    ltac:(apply (bool_decide_unpack _); vm_compute; exact I) eq_refl ltac:(vm_compute; reflexivity) eq_refl E E0)
    as (t & s' & dv' & Ei & _ & _ & _ & (q & t1 & t2 & t3 & E1 & E2 & E3)).
  - apply started_card. intros n. destruct (mf_wf _ _ _ Hfs n) as [Hb Hl]. exact (conj Hl Hb).
  - intros n Hn. apply sim_on_card. change (num_blocks mkfs_sb) with 1000 in Hn. lia.
  - apply block_arena_roomy.
  - apply inode_arena_room.
  - exists st, t, s', q, t1, t2, t3. split; [exact E | split; [exact Ei | split; [exact E1 | split; [exact E2 | exact E3]]]].
Defined.
