(* ===== verification/UserPrograms.v ===== *)
(** The small user programs: user/cat, user/echo, user/mkdir and user/ls.  The
    system calls they make through the C library are the class [Unix]; the streams of
    the standard library are lists of bytes, and a C string is the list of its
    bytes. *)
From stdpp Require Import pretty.
From S2P Require Import Prelude Bytes CString Path FsDefs Inode.

(** * System calls *)

(** The mode bits of sys/stat.h. *)
Definition S_IFMT : Z := 61440.
Definition S_IFREG : Z := 32768.
Definition S_IFDIR : Z := 16384.
Definition S_ISREG (mode : Z) : bool := Z.land mode S_IFMT =? S_IFREG.
Definition S_ISDIR (mode : Z) : bool := Z.land mode S_IFMT =? S_IFDIR.

(** A file of the tree: what stat tells and the bytes that read returns. *)
Record node := mkNode { n_stat : stat; n_bytes : list Z }.
(** The files by their path names, and the open descriptors with what is still to be read. *)
Record tree_view := mkView { tree : gmap (list Z) node; opened : gmap Z (node * list Z) }.

Definition set_opened v (t : tree_view) := mkView (tree t) v.

(** What the programs rely on of the calls.  Any call may fail (the table of descriptors or of open files
    is full, the device has an error), with a negative result; it then leaves the files and the other descriptors as they are.
    A read that succeeds returns at least one byte while there are any, and may return fewer than were
    asked for.  [ux_faults] counts the calls that failed although the name or the
    descriptor they were given exists, and the reads of directories that were cut short; a call that succeeds or
    whose name does not exist may leave it as it is.  No other process changes the files meanwhile. *)
Class Unix (W : Type) := {
  ux_open : list Z -> M W Z;
  ux_read : Z -> Z -> M W (Z * list Z);
  ux_close : Z -> M W Z;
  ux_stat : list Z -> M W (Z * stat);
  ux_fstat : Z -> M W (Z * stat);
  ux_mkdir : list Z -> M W Z;
  ux_strerror : W -> list Z;

  ux_view : W -> tree_view;
  ux_faults : W -> nat;
  may_mkdir : tree_view -> list Z -> option tree_view;

  ux_open_ok : forall w path, wp no_panic (ux_open path) (fun fd w' => (ux_faults w <= ux_faults w')%nat /\
    ((0 <= fd /\ opened (ux_view w) !! fd = None /\ exists n, tree (ux_view w) !! path = Some n /\
       ux_view w' = set_opened (<[fd := (n, n_bytes n)]> (opened (ux_view w))) (ux_view w)) \/
     (fd < 0 /\ ux_view w' = ux_view w /\ (ux_faults w' = ux_faults w -> tree (ux_view w) !! path = None)))) w;
  ux_read_ok : forall w fd len n l, opened (ux_view w) !! fd = Some (n, l) -> 0 < len ->
    wp no_panic (ux_read fd len) (fun r w' => (ux_faults w <= ux_faults w')%nat /\
      ((exists k, r = (Z.of_nat k, take k l) /\ (k <= length l)%nat /\ Z.of_nat k <= len /\ (l <> [] -> (0 < k)%nat) /\
         (S_ISDIR (st_mode (n_stat n)) = true -> ux_faults w' = ux_faults w -> Z.of_nat k = Z.min len (Z.of_nat (length l))) /\
         ux_view w' = set_opened (<[fd := (n, drop k l)]> (opened (ux_view w))) (ux_view w)) \/
       (r.1 < 0 /\ (ux_faults w < ux_faults w')%nat /\
         exists l', ux_view w' = set_opened (<[fd := (n, l')]> (opened (ux_view w))) (ux_view w)))) w;
  ux_close_ok : forall w fd, is_Some (opened (ux_view w) !! fd) ->
    wp no_panic (ux_close fd) (fun _ w' => (ux_faults w <= ux_faults w')%nat /\
      ux_view w' = set_opened (delete fd (opened (ux_view w))) (ux_view w)) w;
  ux_stat_ok : forall w path, wp no_panic (ux_stat path) (fun r w' => (ux_faults w <= ux_faults w')%nat /\ ux_view w' = ux_view w /\
    ((exists n, tree (ux_view w) !! path = Some n /\ r = (0, n_stat n)) \/
     (r.1 < 0 /\ (ux_faults w' = ux_faults w -> tree (ux_view w) !! path = None)))) w;
  ux_fstat_ok : forall w fd n l, opened (ux_view w) !! fd = Some (n, l) ->
    wp no_panic (ux_fstat fd) (fun r w' => (ux_faults w <= ux_faults w')%nat /\ ux_view w' = ux_view w /\
      (r = (0, n_stat n) \/ (r.1 < 0 /\ (ux_faults w < ux_faults w')%nat))) w;
  ux_mkdir_ok : forall w path, wp no_panic (ux_mkdir path) (fun r w' => (ux_faults w <= ux_faults w')%nat /\
    ((0 <= r /\ may_mkdir (ux_view w) path = Some (ux_view w')) \/
     (r < 0 /\ ux_view w' = ux_view w /\ (ux_faults w' = ux_faults w -> may_mkdir (ux_view w) path = None)))) w
}.

(** * Processes *)

(** The state the calls act on, and the standard streams. *)
Record uproc (W : Type) := mkUproc { kern : W; u_in : list Z; u_out : list Z; u_err : list Z }.
Arguments mkUproc {W}.
Arguments kern {W}. Arguments u_in {W}. Arguments u_out {W}. Arguments u_err {W}.

Section programs.
Context {W : Type} `{Unix W}.
Notation P := (uproc W).

Definition set_kern (v : W) (s : P) : P := mkUproc v (u_in s) (u_out s) (u_err s).
Definition set_u_in v (s : P) := mkUproc (kern s) v (u_out s) (u_err s).
Definition set_u_out v (s : P) := mkUproc (kern s) (u_in s) v (u_err s).
Definition set_u_err v (s : P) := mkUproc (kern s) (u_in s) (u_out s) v.

Definition sys {A} (c : M W A) : M P A := fun s => '(a, w) ← c (kern s); Ret (a, set_kern w s).
Definition out (l : list Z) : M P unit := modify (fun s => set_u_out (u_out s ++ l) s).
Definition err (l : list Z) : M P unit := modify (fun s => set_u_err (u_err s ++ l) s).

(** ** user/cat *)

Definition cat_message (argv0 file why : list Z) : list Z := argv0 ++ chars ": " ++ file ++ chars " : " ++ why ++ [10].

(** [for (j = 0; j < n; j++) fprintf(stdout, "%c", buf[j])] *)
Fixpoint put_chars (l : list Z) : M P unit :=
  match l with
  | [] => mret tt
  | c :: l' => out [c];; put_chars l'
  end.

Fixpoint cat_loop (fuel : nat) (fd : Z) : M P unit :=
  match fuel with
  | O => lift OutOfFuel
  | S fuel' =>
      '(n, buf) ← sys (ux_read fd 512);
      if 0 <? n then put_chars (take (Z.to_nat n) buf);; cat_loop fuel' fd else mret tt
  end.

Fixpoint cat_files (fuel : nat) (argv0 : list Z) (files : list (list Z)) : M P unit :=
  match files with
  | [] => mret tt
  | f :: files' =>
      fd ← sys (ux_open f);
      (if fd <? 0 then s ← get; err (cat_message argv0 f (ux_strerror (kern s)))
       else cat_loop fuel fd;; sys (ux_close fd);; mret tt);;
      cat_files fuel argv0 files'
  end.

Definition cat_main (fuel : nat) (argv : list (list Z)) : M P unit := cat_files fuel (hd [] argv) (tl argv).

(** ** user/echo *)

(** [fgets(buf, size, stdin)]: up to a newline and at most [size - 1] bytes. *)
Fixpoint fgets_line (n : nat) (l : list Z) : list Z * list Z :=
  match n, l with
  | S n', c :: l' => if c =? 10 then ([c], l') else let '(a, r) := fgets_line n' l' in (c :: a, r)
  | _, _ => ([], l)
  end.
Definition fgets (size : nat) : M P (option (list Z)) :=
  s ← get;
  match u_in s with
  | [] => mret None
  | _ => let '(a, r) := fgets_line (size - 1) (u_in s) in modify (set_u_in r);; mret (Some a)
  end.

(** [printf("%s", s)] stops at a NUL byte. *)
Fixpoint echo_copy (fuel : nat) : M P unit :=
  match fuel with
  | O => lift OutOfFuel
  | S fuel' =>
      r ← fgets 512;
      match r with
      | None => mret tt
      | Some s => out (cstring (length s) s);; echo_copy fuel'
      end
  end.

(** The words, with a blank before each but the first. *)
Fixpoint echo_words (argv : list (list Z)) : M P unit :=
  match argv with
  | [] => mret tt
  | a :: argv' => out a;; (match argv' with [] => mret tt | _ => out [32] end);; echo_words argv'
  end.

Definition echo_main (fuel : nat) (argv : list (list Z)) : M P unit :=
  if (length argv =? 1)%nat then echo_copy fuel
  else
    let argv := tl argv in
    let '(nflag, argv) := match argv with
                          | a :: argv' => if bool_decide (a = chars "-n") then (true, argv') else (false, argv)
                          | [] => (false, argv)
                          end in
    echo_words argv;;
    if (nflag : bool) then mret tt else out [10].

(** ** user/mkdir *)

Fixpoint mkdir_loop (args : list (list Z)) : M P unit :=
  match args with
  | [] => mret tt
  | a :: args' =>
      r ← sys (ux_mkdir a);
      if r <? 0 then err (chars "mkdir: cannot mkdir " ++ a ++ [10]) else mkdir_loop args'
  end.
Definition mkdir_main (argv : list (list Z)) : M P unit :=
  if (length argv <=? 1)%nat then err (chars "mkdir: missing operand" ++ [10]) else mkdir_loop (tl argv).

(** ** user/ls *)

Definition DIRSIZ : nat := Z.to_nat FILE_NAME_MAX_LENGTH.

(** [for (p = path + strlen(path); p >= path && *p != '/'; p--)]: the index, -1 before the start. *)
Fixpoint last_slash (path : list Z) (p : nat) : Z :=
  if zget path (Z.of_nat p) =? slash then Z.of_nat p
  else match p with O => -1 | S p' => last_slash path p' end.

(** The result, and the static buffer after the call. *)
Definition fmtname (path buf : list Z) : list Z * list Z :=
  let p := drop (Z.to_nat (last_slash path (length path) + 1)) path in
  if (DIRSIZ <=? length p)%nat then (p, buf)
  else
    let buf := splice buf 0 p in
    let buf := splice buf (length p) (replicate (DIRSIZ - length p) 32) in
    (cstring (S DIRSIZ) buf, buf).

(** [%x] of an unsigned int: eight digits at most. *)
Definition hex_digit (d : Z) : Z := if d <? 10 then 48 + d else 87 + d.
Fixpoint hex_digits (fuel : nat) (v : Z) : list Z :=
  match fuel with
  | O => []
  | S fuel' => (if v <? 16 then [] else hex_digits fuel' (v / 16)) ++ [hex_digit (v mod 16)]
  end.

(** [printf("%s %x %ld %ld\n", name, st.st_mode, st.st_ino, st.st_size)] *)
Definition ls_line (name : list Z) (st : stat) : list Z :=
  name ++ [32] ++ hex_digits 8 (u32 (st_mode st)) ++ [32] ++ chars (pretty (i64 (st_ino st))) ++ [32] ++
  chars (pretty (i64 (st_size st))) ++ [10].

(** The entries of the directory at [fd]; [prefix] is what [buf] holds before [p]. *)
Fixpoint ls_entries (fuel : nat) (fd : Z) (prefix static : list Z) : M P (list Z) :=
  match fuel with
  | O => lift OutOfFuel
  | S fuel' =>
      '(n, bytes) ← sys (ux_read fd sizeof_DirEntry);
      if negb (n =? sizeof_DirEntry) then mret static else
      let de := dirent_dec bytes in
      if inode_no de =? 0 then ls_entries fuel' fd prefix static else
      let buf := cstring 512 (prefix ++ name de ++ [0]) in
      '(r, st) ← sys (ux_stat buf);
      if r <? 0 then err (chars "ls: cannot stat " ++ buf ++ [10]);; ls_entries fuel' fd prefix static
      else
        let '(nm, static) := fmtname buf static in
        out (ls_line nm st);; ls_entries fuel' fd prefix static
  end.

(** [static] is the static buffer of fmtname. *)
Definition ls (fuel : nat) (path static : list Z) : M P (list Z) :=
  fd ← sys (ux_open path);
  if fd <? 0 then err (chars "ls: cannot open " ++ path ++ [10]);; mret static else
  '(r, st) ← sys (ux_fstat fd);
  if r <? 0 then err (chars "ls: cannot stat " ++ path ++ [10]);; sys (ux_close fd);; mret static else
  static ← (if S_ISREG (st_mode st) then
              let '(nm, static) := fmtname path static in out (ls_line nm st);; mret static
            else if S_ISDIR (st_mode st) then
              if 512 <? Z.of_nat (length path) + 1 + FILE_NAME_MAX_LENGTH + 1
              then err (chars "ls: path too long" ++ [10]);; mret static
              else ls_entries fuel fd (path ++ [slash]) static
            else mret static);
  sys (ux_close fd);;
  mret static.

Fixpoint ls_all (fuel : nat) (paths : list (list Z)) (static : list Z) : M P unit :=
  match paths with
  | [] => mret tt
  | a :: paths' => static ← ls fuel a static; ls_all fuel paths' static
  end.
Definition ls_main (fuel : nat) (argv : list (list Z)) : M P unit :=
  ls_all fuel (if (length argv <? 2)%nat then [chars "."] else tl argv) (replicate (S DIRSIZ) 0).
End programs.

(** ** user/init *)

(** The points of main at which a call is made; a process at [Exec] is the child. *)
Inductive init_pc :=
  | OpenConsole | MakeConsole | OpenAgain | DupOut | DupErr
  | Starting | Fork | ForkFailed | Exec | ExecFailed | Exit1
  | Wait (pid : Z) | Zombie (pid : Z).

Inductive init_call :=
  | COpen (path : list Z) | CMknod (path : list Z) (major minor : Z) | CDup (fd : Z) | CPrint (text : list Z)
  | CFork | CExecve (path : list Z) (argv envp : list (list Z)) | CWait | CExit (status : Z).

Definition init_argv : list (list Z) := [chars "sh"].
Definition init_envp : list (list Z) := [chars "TEST_ENV=FROM_INIT"].

Definition call_at (pc : init_pc) : init_call :=
  match pc with
  | OpenConsole | OpenAgain => COpen (chars "console")
  | MakeConsole => CMknod (chars "console") 1 1
  | DupOut | DupErr => CDup 0
  | Starting => CPrint (chars "init: starting sh" ++ [10])
  | Fork => CFork
  | ForkFailed => CPrint (chars "init: fork failed" ++ [10])
  | Exec => CExecve (chars "sh") init_argv init_envp
  | ExecFailed => CPrint (chars "init: exec sh failed" ++ [10])
  | Exit1 => CExit 1
  | Wait _ => CWait
  | Zombie _ => CPrint (chars "zombie!" ++ [10])
  end.

(** Where main goes on when the call returns [r]. *)
Definition after_call (pc : init_pc) (r : Z) : init_pc :=
  match pc with
  | OpenConsole => if r <? 0 then MakeConsole else DupOut
  | MakeConsole => OpenAgain
  | OpenAgain => DupOut
  | DupOut => DupErr
  | DupErr => Starting
  | Starting => Fork
  | Fork => if r <? 0 then ForkFailed else if r =? 0 then Exec else Wait r
  | ForkFailed | ExecFailed => Exit1
  | Exec => ExecFailed
  | Exit1 => Exit1
  | Wait pid => if (0 <=? r) && negb (r =? pid) then Zombie pid else Starting
  | Zombie pid => Wait pid
  end.

(** The calls of a process that starts at [pc] and is given the results [rs]. *)
Fixpoint init_calls (pc : init_pc) (rs : list Z) : list init_call :=
  match rs with
  | [] => []
  | r :: rs' => call_at pc :: init_calls (after_call pc r) rs'
  end.
Definition init_after (pc : init_pc) (rs : list Z) : init_pc := foldl after_call pc rs.
