(* ===== verification/UserTheorems.v ===== *)
(** What the small user programs print: cat the bytes of its files, echo its
    arguments or its input, ls a line for every entry of a directory; and which
    directories mkdir makes. *)
From stdpp Require Import pretty.
From S2P Require Import Prelude Bytes CString Path FsDefs Inode UserPrograms.

Section theorems.
Context {W : Type} `{Unix W}.
Notation P := (uproc W).
Implicit Types (s : P).

Lemma wp_sys {A} (c : M W A) (Q : A -> P -> Prop) s :
  wp no_panic c (fun a w => Q a (set_kern w s)) (kern s) -> wp no_panic (sys c) Q s.
Proof. unfold wp, sys. destruct (c (kern s)) as [[a w]| | | |]; done. Qed.

(** Two steps as one. *)
Lemma wp_assoc {A B} (c : M P A) (k : A -> M P B) (k' : B -> M P unit) Q s :
  wp no_panic (c ≫= k) (fun b s1 => wp no_panic (k' b) Q s1) s -> wp no_panic (a ← c; b ← k a; k' b) Q s.
Proof.
  unfold wp, mbind, M_bind. destruct (c s) as [[a s0]| | | |]; [| done..]. by destruct (k a s0) as [[b s1]| | | |].
Qed.

Notation faults s := (ux_faults (kern s)).

(** [s'] is [s] with more output, and the files [t]. *)
Record emits s (o e : list Z) (t : tree_view) (s' : P) : Prop := {
  em_in : u_in s' = u_in s;
  em_out : u_out s' = u_out s ++ o;
  em_err : u_err s' = u_err s ++ e;
  em_view : ux_view (kern s') = t;
  em_faults : (faults s <= faults s')%nat
}.

Lemma emits_nil s t : ux_view (kern s) = t -> emits s [] [] t s.
Proof. intros <-. split; by rewrite ?app_nil_r. Qed.

Lemma emits_kern s w t : ux_view w = t -> (faults s <= ux_faults w)%nat -> emits s [] [] t (set_kern w s).
Proof. intros <- Hf. split; cbn; by rewrite ?app_nil_r. Qed.

Lemma emits_trans s o1 e1 t1 s1 o2 e2 t2 s2 : emits s o1 e1 t1 s1 -> emits s1 o2 e2 t2 s2 -> emits s (o1 ++ o2) (e1 ++ e2) t2 s2.
Proof.
  intros [Ei1 Eo1 Ee1 Ev1 Ef1] [Ei2 Eo2 Ee2 Ev2 Ef2]. split; [congruence | | | done | lia].
  - by rewrite Eo2, Eo1, app_assoc.
  - by rewrite Ee2, Ee1, app_assoc.
Qed.

Lemma emits_out s l t : ux_view (kern s) = t -> emits s l [] t (set_u_out (u_out s ++ l) s).
Proof. intros <-. split; cbn; by rewrite ?app_nil_r. Qed.

Lemma emits_err s l t : ux_view (kern s) = t -> emits s [] l t (set_u_err (u_err s ++ l) s).
Proof. intros <-. split; cbn; by rewrite ?app_nil_r. Qed.

(** * cat *)

Lemma put_chars_ok l : forall s, wp no_panic (put_chars l) (fun _ s' => emits s l [] (ux_view (kern s)) s') s.
Proof.
  induction l as [|c l IH]; intros s; cbn [put_chars]; [by apply wp_ret, emits_nil |].
  apply wp_bind, wp_modify. wp_use IH. intros [] s' Hs. by apply (emits_trans _ [c] [] _ _ l [] _ _ (emits_out s [c] _ eq_refl)).
Qed.

Lemma set_opened_insert t fd x y : set_opened (<[fd := x]> (opened (set_opened (<[fd := y]> (opened t)) t))) (set_opened (<[fd := y]> (opened t)) t) =
  set_opened (<[fd := x]> (opened t)) t.
Proof. unfold set_opened. cbn. by rewrite insert_insert_eq. Qed.

Lemma set_opened_delete t fd x : opened t !! fd = None ->
  set_opened (delete fd (opened (set_opened (<[fd := x]> (opened t)) t))) (set_opened (<[fd := x]> (opened t)) t) = t.
Proof. intros Hn. unfold set_opened. cbn. rewrite delete_insert_id by done. by destruct t. Qed.

(** Whatever the sizes of the pieces that read returns: the bytes are printed, up to a read that fails. *)
Lemma cat_loop_ok t fd n fuel : forall l s, (length l < fuel)%nat ->
  ux_view (kern s) = set_opened (<[fd := (n, l)]> (opened t)) t ->
  wp no_panic (cat_loop fuel fd) (fun _ s' => exists k l', emits s (take k l) [] (set_opened (<[fd := (n, l')]> (opened t)) t) s' /\
    (faults s' = faults s -> take k l = l)) s.
Proof.
  induction fuel as [|fuel IH]; intros l s Hf Hv; [lia |]. cbn [cat_loop]. apply wp_bind, wp_sys.
  wp_use (ux_read_ok (kern s) fd 512 n l); [rewrite Hv; cbn; apply lookup_insert_eq | done |].
  intros r w' [Hle [(k & -> & Hk & _ & Hpos & _ & Hv')|(Hr & Hlt & l' & Hv')]]; rewrite Hv, set_opened_insert in Hv'.
  - cbn beta iota. destruct (Z.ltb_spec 0 (Z.of_nat k)) as [Hk0|Hk0].
    + apply wp_bind. rewrite Nat2Z.id, take_take, Nat.min_id. wp_use put_chars_ok. intros [] s1 H1.
      wp_use (IH (drop k l) s1); [rewrite length_drop; lia | by rewrite (em_view _ _ _ _ _ H1) |].
      intros [] s2 (k2 & l' & H2 & Hall). exists (k + k2)%nat, l'.
      pose proof (emits_trans _ _ _ _ _ _ _ _ _ (emits_kern s w' _ eq_refl Hle) (emits_trans _ _ _ _ _ _ _ _ _ H1 H2)) as He.
      rewrite take_take_drop in He. split; [exact He |]. intros Heq. pose proof (em_faults _ _ _ _ _ H1) as F1. pose proof (em_faults _ _ _ _ _ H2) as F2.
      cbn [kern set_kern] in F1. rewrite <- take_take_drop, Hall by lia. apply take_drop.
    + apply wp_ret. exists 0%nat, l. assert (k = 0%nat) as -> by lia. split; [by apply emits_kern |]. intros _.
      destruct l; [done |]. specialize (Hpos ltac:(done)). lia.
  - destruct r as [r buf]. cbn in Hr. rewrite (proj2 (Z.ltb_ge _ _)) by lia. apply wp_ret. exists 0%nat, l'.
    split; [by apply emits_kern |]. cbn [kern set_kern]. lia.
Qed.

(** What cat prints of the file [f], and what it says about it: a complaint, or the file, up to a read that fails.  When
    no call has failed, the complaint means that there is no such file, and the file is printed to its end. *)
Definition cat_result (t : tree_view) (argv0 : list Z) (clean : Prop) (f : list Z) (r : list Z * list Z) : Prop :=
  (r.1 = [] /\ (exists why, r.2 = cat_message argv0 f why) /\ (clean -> tree t !! f = None)) \/
  (r.2 = [] /\ exists n k, tree t !! f = Some n /\ r.1 = take k (n_bytes n) /\ (clean -> r.1 = n_bytes n)).

(** What cat prints of the files that exist, and the files it complains about, when no call fails. *)
Definition cat_text (t : tree_view) (files : list (list Z)) : list Z :=
  concat ((fun f => match tree t !! f with Some n => n_bytes n | None => [] end) <$> files).
Definition missing (t : tree_view) (files : list (list Z)) : list (list Z) := filter (fun f => tree t !! f = None) files.
Definition cat_complaints (argv0 : list Z) (fs es : list (list Z)) : Prop := Forall2 (fun f e => exists why, e = cat_message argv0 f why) fs es.

Lemma cat_result_mono t argv0 (c c' : Prop) f r : (c' -> c) -> cat_result t argv0 c f r -> cat_result t argv0 c' f r.
Proof. intros Hc [(H1 & H2 & H3)|(H1 & n & k & H2 & H3 & H4)]; [left; auto | right; split; [done |]; exists n, k; auto]. Qed.

Lemma cat_clean t argv0 (clean : Prop) files rs : clean -> Forall2 (cat_result t argv0 clean) files rs ->
  concat rs.*1 = cat_text t files /\ exists es, cat_complaints argv0 (missing t files) es /\ concat rs.*2 = concat es.
Proof.
  intros Hc. induction 1 as [|f [o e] files rs Hr _ (IH1 & es & IH2 & IH3)]; [split; [done |]; exists []; by split; [constructor |] |].
  unfold cat_text, missing in *. rewrite !fmap_cons, filter_cons. cbn [concat fst snd].
  destruct Hr as [(H1 & [why H2] & H3)|(H1 & n & k & H2 & _ & H4)]; cbn in *.
  - rewrite (H3 Hc), H1, decide_True by done. split; [done |]. exists (e :: es). split; [constructor; [by exists why | done] |]. cbn. by rewrite IH3.
  - rewrite H2, (H4 Hc), H1, decide_False by done. split; [by rewrite IH1 |]. by exists es.
Qed.

(** One file: it is opened, printed and closed, or complained about. *)
Lemma cat_file_ok t argv0 fuel f s : ux_view (kern s) = t -> (forall n, tree t !! f = Some n -> (length (n_bytes n) < fuel)%nat) ->
  wp no_panic (fd ← sys (ux_open f);
    if fd <? 0 then s ← get; err (cat_message argv0 f (ux_strerror (kern s))) else cat_loop fuel fd;; sys (ux_close fd);; mret tt)
    (fun _ s' => exists r, emits s r.1 r.2 t s' /\ cat_result t argv0 (faults s' = faults s) f r) s.
Proof.
  intros Hv Hf. apply wp_bind, wp_sys. wp_use (ux_open_ok (kern s) f). intros fd w1 [Hle Ho]. rewrite Hv in Ho.
  destruct Ho as [(Hfd & Hno & n & Hn & Hv1)|(Hfd & Hv1 & Hmiss)].
  - rewrite (proj2 (Z.ltb_ge _ _)) by done. apply wp_bind.
    wp_use (cat_loop_ok t fd n fuel (n_bytes n) (set_kern w1 s)); [by apply Hf | done |]. intros [] s2 (k & l' & H2 & Hall).
    apply wp_bind, wp_sys. pose proof (em_view _ _ _ _ _ H2) as Hv2. pose proof (em_faults _ _ _ _ _ H2) as F2. cbn [kern set_kern] in F2.
    wp_use (ux_close_ok (kern s2) fd); [rewrite Hv2; cbn; rewrite lookup_insert_eq; by eexists |].
    intros r3 w3 [Hle3 Hv3]. rewrite Hv2, set_opened_delete in Hv3 by done. apply wp_ret. exists (take k (n_bytes n), []). split.
    + pose proof (emits_trans _ _ _ _ _ _ _ _ _ (emits_kern s w1 _ eq_refl Hle) (emits_trans _ _ _ _ _ _ _ _ _ H2 (emits_kern s2 w3 _ Hv3 Hle3))) as He.
      by rewrite !app_nil_r in He.
    + right. split; [done |]. exists n, k. split_and!; [done | done |]. cbn [kern set_kern fst]. intros Heq. apply Hall. cbn [kern set_kern]. lia.
  - rewrite (proj2 (Z.ltb_lt _ _)) by done. apply wp_bind, wp_get, wp_modify. eexists ([], _). split.
    + exact (emits_trans _ _ _ _ _ _ _ _ _ (emits_kern s w1 _ eq_refl Hle) (emits_err (set_kern w1 s) _ _ Hv1)).
    + left. split; [done |]. split; [by eexists |]. exact Hmiss.
Qed.

Lemma cat_files_ok t argv0 fuel files : forall s, ux_view (kern s) = t ->
  Forall (fun f => forall n, tree t !! f = Some n -> (length (n_bytes n) < fuel)%nat) files ->
  wp no_panic (cat_files fuel argv0 files) (fun _ s' => exists rs, Forall2 (cat_result t argv0 (faults s' = faults s)) files rs /\
    emits s (concat rs.*1) (concat rs.*2) t s') s.
Proof.
  induction files as [|f files IH]; intros s Hv Hl; cbn [cat_files].
  - apply wp_ret. exists []. split; [constructor | by apply emits_nil].
  - apply Forall_cons in Hl as [Hf Hl]. pose proof (cat_file_ok t argv0 fuel f s Hv Hf) as Hone.
    apply wp_assoc. wp_use Hone. intros [] s1 (r & H1 & Hr).
    wp_use (IH s1 (em_view _ _ _ _ _ H1) Hl). intros [] s2 (rs & Hrs & H2). pose proof (em_faults _ _ _ _ _ H1). pose proof (em_faults _ _ _ _ _ H2).
    exists (r :: rs). split; [| exact (emits_trans _ _ _ _ _ _ _ _ _ H1 H2)]. constructor.
    + eapply cat_result_mono; [| exact Hr]. lia.
    + eapply Forall2_impl; [exact Hrs |]. intros f' r' Hr'. eapply cat_result_mono; [| exact Hr']. lia.
Qed.

(** * echo *)

Lemma fgets_line_ok n : forall l, (fgets_line n l).1 ++ (fgets_line n l).2 = l /\
  (l <> [] -> (0 < n)%nat -> (0 < length (fgets_line n l).1)%nat).
Proof.
  induction n as [|n IH]; intros [|c l]; cbn [fgets_line]; try (split; [done | intros ? ?; first [lia | done]]).
  destruct (c =? 10); [split; [done | cbn; lia] |]. specialize (IH l). destruct (fgets_line n l) as [a r]. cbn in *.
  destruct IH as [-> _]. split; [done | lia].
Qed.

Lemma echo_copy_ok fuel : forall s, (length (u_in s) < fuel)%nat -> 0 ∉ u_in s ->
  wp no_panic (echo_copy fuel) (fun _ s' => s' = set_u_in [] (set_u_out (u_out s ++ u_in s) s)) s.
Proof.
  induction fuel as [|fuel IH]; intros s Hf H0; [lia |]. cbn [echo_copy]. apply wp_bind. unfold fgets. apply wp_bind, wp_get.
  destruct (u_in s) as [|c l] eqn:Ei.
  { apply wp_ret, wp_ret. destruct s. cbn in *. by rewrite Ei, app_nil_r. }
  rewrite <- Ei in *. pose proof (fgets_line_ok (512 - 1) (u_in s)) as [Ea Hn]. destruct (fgets_line (512 - 1) (u_in s)) as [a r].
  cbn in Ea, Hn. specialize (Hn ltac:(by rewrite Ei) ltac:(lia)). apply wp_bind, wp_modify, wp_ret.
  apply wp_bind, wp_modify. rewrite <- Ea, elem_of_app in H0. rewrite cstring_id; [| done | tauto].
  apply (f_equal length) in Ea as El. rewrite length_app in El.
  wp_use IH; [cbn; lia | cbn; tauto |]. intros [] s' ->. cbn. by rewrite <- app_assoc, Ea.
Qed.

(** The words with blanks between them. *)
Fixpoint spaced (args : list (list Z)) : list Z :=
  match args with
  | [] => []
  | [a] => a
  | a :: args' => a ++ [32] ++ spaced args'
  end.

Lemma echo_words_ok args : forall s, wp no_panic (echo_words args) (fun _ s' => s' = set_u_out (u_out s ++ spaced args) s) s.
Proof.
  induction args as [|a args IH]; intros s; cbn [echo_words].
  - apply wp_ret. cbn. rewrite app_nil_r. by destruct s.
  - apply wp_bind, wp_modify, wp_bind. destruct args as [|b args].
    + apply wp_ret. wp_use IH. intros [] s' ->. cbn. by rewrite app_nil_r.
    + apply wp_modify. wp_use IH. intros [] s' ->. cbn [u_out set_u_out]. unfold set_u_out. cbn. by rewrite <- !app_assoc.
Qed.

(** * mkdir *)

(** The files with the directories [args] made. *)
Fixpoint mkdirs (t : tree_view) (args : list (list Z)) : option tree_view :=
  match args with
  | [] => Some t
  | a :: args' => t' ← may_mkdir (Unix := H) t a; mkdirs t' args'
  end.

(** Those before the first that is refused. *)
Definition mkdir_result (t : tree_view) (args : list (list Z)) (clean : Prop) (e : list Z) (t' : tree_view) : Prop :=
  exists made rest, args = made ++ rest /\ mkdirs t made = Some t' /\
    match rest with
    | [] => e = []
    | a :: _ => e = chars "mkdir: cannot mkdir " ++ a ++ [10] /\ (clean -> may_mkdir (Unix := H) t' a = None)
    end.

Lemma mkdir_loop_ok args : forall s, wp no_panic (mkdir_loop args) (fun _ s' => exists e t,
  mkdir_result (ux_view (kern s)) args (faults s' = faults s) e t /\ emits s [] e t s') s.
Proof.
  induction args as [|a args IH]; intros s; cbn [mkdir_loop].
  - apply wp_ret. exists [], (ux_view (kern s)). split; [by exists [], [] | by apply emits_nil].
  - apply wp_bind, wp_sys. wp_use (ux_mkdir_ok (kern s) a). intros r w1 [Hle [[Hr Hmay]|(Hr & Hv & Hno)]].
    + rewrite (proj2 (Z.ltb_ge _ _)) by done. wp_use IH. intros [] s' (e & t & (made & rest & -> & Hm & Hrest) & He). cbn [kern set_kern] in *.
      pose proof (em_faults _ _ _ _ _ He) as Hf. cbn [kern set_kern] in Hf. exists e, t.
      split; [| exact (emits_trans _ _ _ _ _ _ _ _ _ (emits_kern s w1 _ eq_refl Hle) He)].
      exists (a :: made), rest. split; [done |]. split; [cbn; by rewrite Hmay |]. destruct rest; [done |].
      destruct Hrest as [-> Hrest]. split; [done |]. intros. apply Hrest. lia.
    + rewrite (proj2 (Z.ltb_lt _ _)) by done. apply wp_modify. eexists _, (ux_view (kern s)).
      split; [| exact (emits_trans _ _ _ _ _ _ _ _ _ (emits_kern s w1 _ eq_refl Hle) (emits_err (set_kern w1 s) _ _ Hv))].
      exists [], (a :: args). done.
Qed.

(** * ls *)

Lemma zget_slash path p : zget path (Z.of_nat p) = slash -> path !! p = Some slash.
Proof. unfold zget. rewrite Nat2Z.id, nth_lookup. destruct (path !! p); cbn; [by intros -> | discriminate]. Qed.

Lemma last_slash_none path p : (forall q, (q <= p)%nat -> path !! q <> Some slash) -> last_slash path p = -1.
Proof.
  induction p as [|p IH]; intros Hn; cbn [last_slash].
  - destruct (Z.eqb_spec (zget path (Z.of_nat 0)) slash) as [E|]; [| done]. destruct (Hn 0%nat); [lia | by apply zget_slash].
  - destruct (Z.eqb_spec (zget path (Z.of_nat (S p))) slash) as [E|]; [| apply IH; intros q Hq; apply Hn; lia].
    destruct (Hn (S p)); [lia | by apply zget_slash].
Qed.

Lemma last_slash_at path k : path !! k = Some slash -> forall p, (k <= p)%nat -> (forall q, (k < q <= p)%nat -> path !! q <> Some slash) ->
  last_slash path p = Z.of_nat k.
Proof.
  intros Hk. induction p as [|p IH]; intros Hkp Hn; cbn [last_slash].
  - assert (k = 0%nat) as -> by lia. by rewrite (zget_lookup_nat _ _ _ Hk).
  - destruct (decide (k = S p)) as [->|Hne]; [by rewrite (zget_lookup_nat _ _ _ Hk) |].
    destruct (Z.eqb_spec (zget path (Z.of_nat (S p))) slash) as [E|]; [| apply IH; [lia |]; intros q Hq; apply Hn; lia].
    destruct (Hn (S p)); [lia | by apply zget_slash].
Qed.

(** [b] is the part of the path after the last slash, [pre] the part before it. *)
Definition parts (pre b : list Z) : Prop := slash ∉ b /\ (pre = [] \/ exists pre', pre = pre' ++ [slash]).

Lemma last_slash_parts pre b : parts pre b -> last_slash (pre ++ b) (length (pre ++ b)) + 1 = Z.of_nat (length pre).
Proof.
  intros [Hb Hpre].
  assert (Hout : forall q, (length pre <= q)%nat -> (pre ++ b) !! q <> Some slash).
  { intros q Hq Hs. rewrite lookup_app_r in Hs by done. apply Hb. by eapply list_elem_of_lookup_2. }
  destruct Hpre as [->|[pre' ->]].
  - rewrite last_slash_none; [done |]. intros q _. apply Hout. cbn. lia.
  - rewrite (last_slash_at _ (length pre')), length_app; [cbn; lia | | rewrite !length_app; lia |].
    + rewrite <- app_assoc, lookup_app_r, Nat.sub_diag by lia. done.
    + intros q Hq. apply Hout. rewrite length_app. cbn. lia.
Qed.

(** Blank-padded to [DIRSIZ]. *)
Definition padded (b : list Z) : list Z := b ++ replicate (DIRSIZ - length b) 32.

(** The static buffer ends in a NUL byte. *)
Definition static_ok (buf : list Z) : Prop := length buf = S DIRSIZ /\ drop DIRSIZ buf = [0].

Lemma fmtname_ok pre b buf : parts pre b -> 0 ∉ b -> static_ok buf ->
  exists buf', fmtname (pre ++ b) buf = (padded b, buf') /\ static_ok buf'.
Proof.
  intros Hp H0 [Hl Hd]. unfold fmtname. rewrite last_slash_parts, Nat2Z.id, drop_app_length by done.
  destruct (Nat.leb_spec DIRSIZ (length b)) as [Hb|Hb].
  { exists buf. split; [| done]. unfold padded. replace (DIRSIZ - length b)%nat with 0%nat by lia. by rewrite app_nil_r. }
  assert (E : splice (splice buf 0 b) (length b) (replicate (DIRSIZ - length b) 32) = padded b ++ [0]).
  { unfold splice, padded. rewrite take_0, length_replicate, Nat.add_0_l. cbn [app].
    rewrite take_app_length, <- app_assoc. do 2 f_equal. replace (length b + (DIRSIZ - length b))%nat with DIRSIZ by lia.
    rewrite drop_app_ge, drop_drop by lia. by replace (length b + (DIRSIZ - length b))%nat with DIRSIZ by lia. }
  rewrite E. eexists. split; [f_equal |].
  - apply cstring_app; [unfold padded; rewrite length_app, length_replicate; lia |].
    unfold padded. rewrite elem_of_app. intros [?|Hr]; [done |]. by apply elem_of_replicate in Hr as [? _].
  - unfold static_ok, padded. rewrite !length_app, length_replicate. cbn [length]. split; [lia |].
    apply drop_app_length'. rewrite length_app, length_replicate. lia.
Qed.

(** ** The lines of a directory *)

Definition entry_ok (d : DirEntry) : Prop := dirent_wf d /\ slash ∉ name d.
Definition entry_path (path : list Z) (d : DirEntry) : list Z := (path ++ [slash]) ++ cstring DIRSIZ (name d).

Definition entry_out (t : tree_view) (path : list Z) (d : DirEntry) : list Z :=
  if inode_no d =? 0 then [] else
  match tree t !! entry_path path d with
  | Some n => ls_line (padded (cstring DIRSIZ (name d))) (n_stat n)
  | None => []
  end.
Definition entry_err (t : tree_view) (path : list Z) (d : DirEntry) : list Z :=
  if inode_no d =? 0 then [] else
  match tree t !! entry_path path d with
  | Some _ => []
  | None => chars "ls: cannot stat " ++ entry_path path d ++ [10]
  end.

Lemma cstring_prefix l k : forall n, (length l + length k < n)%nat -> 0 ∉ l -> cstring n (l ++ k ++ [0]) = l ++ cstring (length k) k.
Proof.
  induction l as [|c l IH]; intros n Hn H0.
  - clear H0. cbn [app]. revert n Hn. induction k as [|c k IH]; intros [|n] Hn; cbn in Hn; try lia; [done |]. cbn.
    destruct (c =? 0); [done |]. f_equal. apply IH. cbn. lia.
  - destruct n as [|n]; cbn in Hn; [lia |]. apply not_elem_of_cons in H0 as [Hc H0]. cbn.
    rewrite (proj2 (Z.eqb_neq c 0)) by done. f_equal. apply IH; [lia | done].
Qed.

Lemma entry_buf path d : 0 ∉ path -> Z.of_nat (length path) <= 496 -> entry_ok d ->
  cstring 512 ((path ++ [slash]) ++ name d ++ [0]) = entry_path path d.
Proof.
  intros H0 Hl [(_ & _ & Hn) _]. rewrite cstring_prefix, Hn; [done | rewrite length_app; cbn; lia |].
  rewrite elem_of_app, list_elem_of_singleton. intros [?|?]; done.
Qed.

Lemma entry_parts path d : entry_ok d -> parts (path ++ [slash]) (cstring DIRSIZ (name d)) /\ 0 ∉ cstring DIRSIZ (name d).
Proof.
  intros [_ Hs]. split; [| apply cstring_no_nul]. split; [| right; by exists path].
  intros Hin. apply Hs. revert Hin. generalize DIRSIZ. induction (name d) as [|c l IH]; intros [|n]; cbn; try by intros ?%not_elem_of_nil.
  apply not_elem_of_cons in Hs as [Hc Hs]. destruct (c =? 0); [by intros ?%not_elem_of_nil |].
  intros [->|Hin]%elem_of_cons; [left | right; by eapply IH].
Qed.

(** What ls does for an entry: nothing for a free one; otherwise its line, or a message that it has no status. *)
Definition entry_result (t : tree_view) (path : list Z) (clean : Prop) (d : DirEntry) (r : list Z * list Z) : Prop :=
  (if inode_no d =? 0 then r = ([], []) else
   (exists n, tree t !! entry_path path d = Some n /\ r = (ls_line (padded (cstring DIRSIZ (name d))) (n_stat n), [])) \/
   r = ([], chars "ls: cannot stat " ++ entry_path path d ++ [10])) /\
  (clean -> r = (entry_out t path d, entry_err t path d)).

(** The lines for the entries, or for the first of them when a read fails or is cut short. *)
Definition entries_result (t : tree_view) (path : list Z) (clean : Prop) (es : list DirEntry) (rs : list (list Z * list Z)) : Prop :=
  exists k, Forall2 (entry_result t path clean) (take k es) rs /\ (clean -> take k es = es).

Lemma entries_result_nil t path clean es : ~ clean -> entries_result t path clean es [].
Proof. intros Hc. exists 0%nat. split; [constructor | done]. Qed.

Lemma entry_result_mono t path (c c' : Prop) d r : (c' -> c) -> entry_result t path c d r -> entry_result t path c' d r.
Proof. intros Hc [H1 H2]. split; [done | auto]. Qed.

Lemma entries_result_cons t path (c c1 c2 : Prop) d es r rs : (c -> c1) -> (c -> c2) ->
  entry_result t path c1 d r -> entries_result t path c2 es rs -> entries_result t path c (d :: es) (r :: rs).
Proof.
  intros H1 H2 Hr (k & Hrs & Hk). exists (S k). cbn. split.
  - constructor; [exact (entry_result_mono _ _ _ _ _ _ H1 Hr) |]. eapply Forall2_impl; [exact Hrs |]. intros d' r' Hr'.
    exact (entry_result_mono _ _ _ _ _ _ H2 Hr').
  - intros Hc. by rewrite (Hk (H2 Hc)).
Qed.

Lemma entries_clean t path (clean : Prop) es rs : clean -> entries_result t path clean es rs ->
  concat rs.*1 = concat (entry_out t path <$> es) /\ concat rs.*2 = concat (entry_err t path <$> es).
Proof.
  intros Hc (k & Hrs & Hk). rewrite (Hk Hc) in Hrs. clear k Hk. induction Hrs as [|d r es rs [_ Hr] _ [IH1 IH2]]; [done |].
  rewrite (Hr Hc), !fmap_cons. cbn. by rewrite IH1, IH2.
Qed.

(** The status of an entry, and its line. *)
Lemma ls_entry_ok t path d static s : 0 ∉ path -> entry_ok d -> static_ok static -> tree (ux_view (kern s)) = tree t -> inode_no d =? 0 = false ->
  forall (k : list Z -> M P (list Z)) Q,
  (forall static' r s1, static_ok static' -> entry_result t path (faults s1 = faults s) d r -> emits s r.1 r.2 (ux_view (kern s)) s1 ->
    wp no_panic (k static') Q s1) ->
  wp no_panic ('(r, st) ← sys (ux_stat (entry_path path d));
    if r <? 0 then err (chars "ls: cannot stat " ++ entry_path path d ++ [10]);; k static
    else let '(nm, static) := fmtname (entry_path path d) static in out (ls_line nm st);; k static) Q s.
Proof.
  intros H0 Hd Hst Hv Hno k Q HQ. apply wp_bind, wp_sys. wp_use (ux_stat_ok (kern s) (entry_path path d)).
  intros r w2 (Hle & Hv2 & Hr). rewrite Hv in Hr. destruct Hr as [(n & Hn & ->)|[Hr Hmiss]].
  - change (0 <? 0) with false. cbn iota. destruct (entry_parts path d Hd) as [Hparts Hnul].
    destruct (fmtname_ok _ _ static Hparts Hnul Hst) as (static' & E & Hst'). fold (entry_path path d) in E. rewrite E.
    apply wp_bind, wp_modify. apply (HQ static' (ls_line (padded (cstring DIRSIZ (name d))) (n_stat n), [])); [done | |].
    + split; rewrite ?Hno; [left; by exists n |]. intros _. unfold entry_out, entry_err. by rewrite Hno, Hn.
    + exact (emits_trans _ _ _ _ _ _ _ _ _ (emits_kern s w2 _ eq_refl Hle) (emits_out (set_kern w2 s) _ _ Hv2)).
  - destruct r as [r st2]. cbn in Hr. rewrite (proj2 (Z.ltb_lt _ _)) by done. apply wp_bind, wp_modify.
    apply (HQ static ([], chars "ls: cannot stat " ++ entry_path path d ++ [10])); [done | |].
    + split; rewrite ?Hno; [by right |]. cbn [kern set_kern set_u_err]. intros Hc. unfold entry_out, entry_err. by rewrite Hno, (Hmiss Hc).
    + exact (emits_trans _ _ _ _ _ _ _ _ _ (emits_kern s w2 _ eq_refl Hle) (emits_err (set_kern w2 s) _ _ Hv2)).
Qed.

Lemma ls_entries_ok t path fd n es : 0 ∉ path -> Z.of_nat (length path) <= 496 -> S_ISDIR (st_mode (n_stat n)) = true ->
  Forall entry_ok es -> forall fuel static s, (length es < fuel)%nat -> static_ok static ->
  ux_view (kern s) = set_opened (<[fd := (n, concat (dirent_enc <$> es))]> (opened t)) t ->
  wp no_panic (ls_entries fuel fd (path ++ [slash]) static) (fun static' s' => static_ok static' /\ exists rs l',
    entries_result t path (faults s' = faults s) es rs /\
    emits s (concat rs.*1) (concat rs.*2) (set_opened (<[fd := (n, l')]> (opened t)) t) s') s.
Proof.
  intros H0 Hlen Hdir. induction es as [|d es IH]; intros Hes fuel static s Hf Hst Hv; (destruct fuel as [|fuel]; [cbn in Hf; lia |]);
    cbn [ls_entries]; apply wp_bind, wp_sys;
    (wp_use (ux_read_ok (kern s) fd sizeof_DirEntry n); [rewrite Hv; exact (lookup_insert_eq _ _ _) | done |]);
    intros r w' [Hle [(k & -> & Hk & _ & _ & Hmin & Hv')|(Hr & Hlt & l' & Hv')]]; rewrite Hv, set_opened_insert in Hv'.
  - cbn in Hk. assert (k = 0%nat) as -> by lia. apply wp_ret. split; [done |]. eexists [], _.
    split; [exists 0%nat; by split; [constructor |] | by apply emits_kern].
  - destruct r as [r buf]. cbn in Hr. destruct (Z.eqb_spec r sizeof_DirEntry) as [->|_]; [done |]. apply wp_ret. split; [done |].
    exists [], l'. split; [exists 0%nat; by split; [constructor |] | by apply emits_kern].
  - cbn beta iota. apply Forall_cons in Hes as [Hd Hes]. pose proof (length_dirent_enc d (proj1 Hd)) as Hl. rewrite fmap_cons in Hmin, Hv', Hk |- *.
    cbn [concat] in Hmin, Hv', Hk |- *. rewrite length_app in Hmin, Hk. unfold sizeof_DirEntry in *. specialize (Hmin Hdir).
    destruct (Z.eqb_spec (Z.of_nat k) 16) as [Ek|Ek].
    2: { apply wp_ret. split; [done |]. eexists [], _. split; [| by apply emits_kern]. apply entries_result_nil. cbn [kern set_kern]. lia. }
    assert (k = 16%nat) as -> by lia.
    change (negb true) with false. cbn iota. rewrite (take_app_length' _ _ 16 (eq_sym Hl)). rewrite (drop_app_length' _ _ 16 (eq_sym Hl)) in Hv'.
    rewrite <- (app_nil_r (dirent_enc d)), dirent_dec_enc by apply Hd. cbn in Hf. cbv zeta. destruct (inode_no d =? 0) eqn:Hno.
    { wp_use IH; [done | lia | done | exact Hv' |]. intros st' s' [Hst' (rs & l' & Hrs & He)]. split; [done |].
      pose proof (em_faults _ _ _ _ _ He) as Hfe. cbn [kern set_kern] in Hfe. exists (([], []) :: rs), l'.
      split; [| exact (emits_trans _ _ _ _ _ _ _ _ _ (emits_kern s w' _ eq_refl Hle) He)].
      eapply (entries_result_cons _ _ _ True); [done | | | exact Hrs]; [cbn [kern set_kern]; lia |].
      split; [by rewrite Hno |]. unfold entry_out, entry_err. by rewrite Hno. }
    rewrite (entry_buf path d H0 Hlen Hd). apply (ls_entry_ok t path d static (set_kern w' s)); [done | done | done | by cbn; rewrite Hv' | done |].
    intros static' r s1 Hst' Hr H1. pose proof (em_view _ _ _ _ _ H1) as Hv1. cbn [kern set_kern] in Hv1. rewrite Hv' in Hv1.
    wp_use IH; [done | lia | done | exact Hv1 |]. intros st' s' [Hst'' (rs & l' & Hrs & He)]. split; [done |].
    pose proof (em_faults _ _ _ _ _ H1) as F1. pose proof (em_faults _ _ _ _ _ He) as F2. cbn [kern set_kern] in F1. exists (r :: rs), l'.
    split; [| exact (emits_trans _ _ _ _ _ _ _ _ _ (emits_kern s w' _ eq_refl Hle) (emits_trans _ _ _ _ _ _ _ _ _ H1 He))].
    eapply entries_result_cons; [| | exact Hr | exact Hrs]; cbn [kern set_kern]; lia.
  - destruct r as [r buf]. cbn in Hr. destruct (Z.eqb_spec r sizeof_DirEntry) as [->|_]; [done |]. apply wp_ret. split; [done |].
    exists [], l'. split; [| by apply emits_kern]. apply entries_result_nil. cbn [kern set_kern]. lia.
Qed.

(** ls of a directory: its entries, or a message that it cannot be opened or has no status. *)
Definition ls_result (t : tree_view) (path : list Z) (clean : Prop) (es : list DirEntry) (o e : list Z) : Prop :=
  (exists rs, entries_result t path clean es rs /\ o = concat rs.*1 /\ e = concat rs.*2) \/
  (~ clean /\ o = [] /\ (e = chars "ls: cannot open " ++ path ++ [10] \/ e = chars "ls: cannot stat " ++ path ++ [10])).

Lemma ls_dir_ok t path n es fuel static s : 0 ∉ path -> Z.of_nat (length path) <= 496 ->
  ux_view (kern s) = t -> tree t !! path = Some n -> S_ISDIR (st_mode (n_stat n)) = true ->
  n_bytes n = concat (dirent_enc <$> es) -> Forall entry_ok es -> (length es < fuel)%nat -> static_ok static ->
  wp no_panic (ls fuel path static) (fun _ s' => exists o e, ls_result t path (faults s' = faults s) es o e /\ emits s o e t s') s.
Proof.
  intros H0 Hlen Hv Hn Hdir Hb Hes Hf Hst. unfold ls. apply wp_bind, wp_sys. wp_use (ux_open_ok (kern s) path).
  intros fd w1 [Hle1 Ho]. rewrite Hv in Ho. destruct Ho as [(Hfd & Hno & n' & Hn' & Hv1)|(Hfd & Hv1 & Hmiss)].
  2: { rewrite (proj2 (Z.ltb_lt _ _)) by done. apply wp_bind, wp_modify, wp_ret. eexists [], _.
       split; [| exact (emits_trans _ _ _ _ _ _ _ _ _ (emits_kern s w1 _ eq_refl Hle1) (emits_err (set_kern w1 s) _ _ Hv1))].
       right. split; [intros Hc; rewrite Hn in Hmiss; by specialize (Hmiss Hc) | auto]. }
  assert (n' = n) as -> by congruence. rewrite (proj2 (Z.ltb_ge _ _)) by done. apply wp_bind, wp_sys.
  wp_use (ux_fstat_ok w1 fd n (n_bytes n)); [rewrite Hv1; exact (lookup_insert_eq _ _ _) |].
  intros r w2 (Hle2 & Hv2 & Hr). rewrite Hv1 in Hv2. pose proof (Nat.le_trans _ _ _ Hle1 Hle2) as Hle.
  assert (Hclose : forall s3 l', ux_view (kern s3) = set_opened (<[fd := (n, l')]> (opened t)) t ->
    wp no_panic (sys (ux_close fd)) (fun _ s' => emits s3 [] [] t s') s3).
  { intros s3 l' Hv3. apply wp_sys. wp_use (ux_close_ok (kern s3) fd); [rewrite Hv3; eexists; exact (lookup_insert_eq _ _ _) |].
    intros r4 w4 [Hle4 Hv4]. rewrite Hv3, set_opened_delete in Hv4 by done. by apply emits_kern. }
  destruct Hr as [->|[Hr Hlt]].
  2: { destruct r as [r st]. cbn in Hr. rewrite (proj2 (Z.ltb_lt _ _)) by done. apply wp_bind, wp_modify, wp_bind.
       wp_use (Hclose (set_u_err (u_err s ++ chars "ls: cannot stat " ++ path ++ [10]) (set_kern w2 (set_kern w1 s))) _ Hv2).
       intros r4 s4 H4. apply wp_ret. eexists [], _.
       split; [| exact (emits_trans _ _ _ _ _ _ _ _ _ (emits_kern s w2 _ eq_refl Hle) (emits_trans _ _ _ _ _ _ _ _ _ (emits_err (set_kern w2 s) _ _ eq_refl) H4))].
       right. pose proof (em_faults _ _ _ _ _ H4) as F4. cbn [kern set_kern set_u_err] in F4. split; [lia |]. split; [done |]. right. by rewrite app_nil_r. }
  change (0 <? 0) with false. cbn iota.
  assert (Hreg : S_ISREG (st_mode (n_stat n)) = false).
  { unfold S_ISREG, S_ISDIR in *. apply Z.eqb_eq in Hdir. rewrite Hdir. done. }
  rewrite Hreg, Hdir. rewrite (proj2 (Z.ltb_ge _ _)) by (unfold FILE_NAME_MAX_LENGTH; lia). apply wp_bind.
  rewrite Hb in Hv2. wp_use (ls_entries_ok t path fd n es H0 Hlen Hdir Hes fuel static (set_kern w2 (set_kern w1 s))); [done | done | exact Hv2 |].
  intros static' s3 [Hst' (rs & l' & Hrs & H3)]. apply wp_bind. wp_use (Hclose s3 l' (em_view _ _ _ _ _ H3)).
  intros r4 s4 H4. apply wp_ret. pose proof (em_faults _ _ _ _ _ H3) as F3. pose proof (em_faults _ _ _ _ _ H4) as F4. cbn [kern set_kern] in F3.
  exists (concat rs.*1), (concat rs.*2). split.
  - left. exists rs. split_and!; [| done | done]. destruct Hrs as (k & Hrs & Hk). exists k. cbn [kern set_kern] in Hk, Hrs.
    split; [| intros; apply Hk; lia]. eapply Forall2_impl; [exact Hrs |]. intros d r Hr. eapply entry_result_mono; [| exact Hr]. lia.
  - pose proof (emits_trans _ _ _ _ _ _ _ _ _ (emits_kern s w2 _ eq_refl Hle) (emits_trans _ _ _ _ _ _ _ _ _ H3 H4)) as He.
    by rewrite !app_nil_r in He.
Qed.

(** * Properties *)

(** C25: cat prints the files one after the other, whatever the sizes of the pieces that read
    returns.  For each file it prints its bytes, or complains that it cannot be opened and goes on with the next; it
    ends, and every descriptor it has opened is closed again.  If no call fails, the files it complains about are
    those that do not exist, and the others are printed to their ends; a read that fails cuts its file
    short, without a message.  The fuel is the number of reads of a file. *)
Theorem cat_prints fuel argv0 files s : let t := ux_view (kern s) in
  Forall (fun f => forall n, tree t !! f = Some n -> (length (n_bytes n) < fuel)%nat) files ->
  exists s' rs, cat_main fuel (argv0 :: files) s = Ret (tt, s') /\ u_in s' = u_in s /\ ux_view (kern s') = t /\
    u_out s' = u_out s ++ concat rs.*1 /\ u_err s' = u_err s ++ concat rs.*2 /\
    Forall2 (cat_result t argv0 (faults s' = faults s)) files rs /\
    (faults s' = faults s -> u_out s' = u_out s ++ cat_text t files /\
      exists es, cat_complaints argv0 (missing t files) es /\ u_err s' = u_err s ++ concat es).
Proof.
  intros t Hl. destruct (wp_returns _ _ _ (cat_files_ok t argv0 fuel files s eq_refl Hl)) as ([] & s' & E & rs & Hrs & [Ei Eo Ee Ev _]).
  exists s', rs. split_and!; [done.. |]. intros Hc. destruct (cat_clean _ _ _ _ _ Hc Hrs) as (E1 & es & Hes & E2).
  rewrite Eo, Ee, E1, E2. split; [done |]. by exists es.
Qed.

(** C26: ls of a directory prints a line for each of its entries in use, in order: the name
    padded with blanks to 14 characters, the mode, the number and the size
    that stat gives for the path of the entry; an entry without a status is reported
    instead, and free entries are skipped.  If no call fails and no read is cut short, these are all the entries, and those
    reported are those whose path does not exist; otherwise ls may stop after any of the entries, or say that the
    directory cannot be opened or has no status.  It ends, with every descriptor closed. *)
Theorem ls_lists fuel argv0 path n es s : let t := ux_view (kern s) in
  0 ∉ path -> Z.of_nat (length path) <= 496 -> tree t !! path = Some n -> S_ISDIR (st_mode (n_stat n)) = true ->
  n_bytes n = concat (dirent_enc <$> es) -> Forall entry_ok es -> (length es < fuel)%nat ->
  exists s' o e, ls_main fuel [argv0; path] s = Ret (tt, s') /\ ux_view (kern s') = t /\
    u_out s' = u_out s ++ o /\ u_err s' = u_err s ++ e /\ ls_result t path (faults s' = faults s) es o e /\
    (faults s' = faults s -> o = concat (entry_out t path <$> es) /\ e = concat (entry_err t path <$> es)).
Proof.
  intros t H0 Hlen Hn Hdir Hb Hes Hf.
  destruct (wp_returns (ls_main fuel [argv0; path]) (fun _ s' => exists o e, ls_result t path (faults s' = faults s) es o e /\ emits s o e t s') s)
    as ([] & s' & E & o & e & Hr & [_ Eo Ee Ev _]).
  { unfold ls_main. cbn [length Nat.ltb Nat.leb tl ls_all]. apply wp_bind.
    wp_use (ls_dir_ok t path n es fuel (replicate (S DIRSIZ) 0) s); [done.. |]. intros st' s' He. by apply wp_ret. }
  exists s', o, e. split_and!; [done.. |]. intros Hc. destruct Hr as [(rs & Hrs & -> & ->)|[Hno _]]; [| done].
  by apply (entries_clean _ _ _ _ _ Hc).
Qed.

(** echo without arguments copies its input, which has no NUL bytes; otherwise
    it prints its arguments with blanks between them, and a newline unless the
    first of them is -n. *)
Theorem echo_prints fuel argv0 args s : (length (u_in s) < fuel)%nat -> 0 ∉ u_in s ->
  echo_main fuel (argv0 :: args) s = Ret (tt,
    match args with
    | [] => set_u_in [] (set_u_out (u_out s ++ u_in s) s)
    | a :: rest => set_u_out (u_out s ++ (if bool_decide (a = chars "-n") then spaced rest else spaced args ++ [10])) s
    end).
Proof.
  intros Hf H0. unfold echo_main. destruct args as [|a rest].
  - destruct (wp_returns _ _ _ (echo_copy_ok fuel s Hf H0)) as ([] & s' & E & ->). exact E.
  - cbn [length Nat.eqb tl]. destruct (bool_decide (a = chars "-n")).
    + destruct (wp_returns _ _ _ (echo_words_ok rest s)) as ([] & s' & E & ->). unfold mbind, M_bind. by rewrite E.
    + destruct (wp_returns _ _ _ (echo_words_ok (a :: rest) s)) as ([] & s' & E & ->). unfold mbind, M_bind. rewrite E.
      unfold out, modify, set_u_out. cbn [u_out kern u_in u_err]. by rewrite app_assoc.
Qed.

(** mkdir makes the directories in order, up to the first that is refused. *)
Theorem mkdir_makes argv0 args s : args <> [] ->
  exists s' e, mkdir_main (argv0 :: args) s = Ret (tt, s') /\ u_err s' = u_err s ++ e /\
    mkdir_result (ux_view (kern s)) args (faults s' = faults s) e (ux_view (kern s')).
Proof.
  intros Ha. destruct (wp_returns _ _ _ (mkdir_loop_ok args s)) as ([] & s' & E & e & t & Hr & [_ _ Ee Ev _]).
  exists s', e. rewrite Ev. split; [| done]. unfold mkdir_main. destruct args; [done |]. exact E.
Qed.
End theorems.

(** ** init *)

(** While init waits for the shell [pid]: [others] are the results of wait for other
    processes, each followed by the result of a print. *)
Lemma init_reaps pid others : Forall (fun x => 0 <= x.1 /\ x.1 <> pid) others ->
  let rs := concat ((fun x : Z * Z => [x.1; x.2]) <$> others) in
  init_after (Wait pid) rs = Wait pid /\
  init_calls (Wait pid) rs = concat (replicate (length others) [CWait; CPrint (chars "zombie!" ++ [10])]).
Proof.
  induction others as [|[r p] others IH]; intros Ho; [done |]. apply Forall_cons in Ho as [[H0 Hne] Ho]. destruct (IH Ho) as [E1 E2].
  rewrite fmap_cons. cbn [concat app fst snd init_calls init_after foldl after_call call_at length replicate] in *.
  rewrite (proj2 (Z.leb_le _ _)), (proj2 (Z.eqb_neq _ _)) by done. cbn [andb negb after_call call_at].
  split; [exact E1 |]. by rewrite <- E2.
Qed.

(** init runs one shell after the other: the shell [pid] is forked, the orphans that
    end while it runs are reaped, and when wait returns the shell, or fails, the next one is
    started; init itself never exits as long as fork succeeds. *)
Theorem init_restarts_shell pid others r0 rw : 0 < pid -> Forall (fun x => 0 <= x.1 /\ x.1 <> pid) others -> rw = pid \/ rw < 0 ->
  let rs := [r0; pid] ++ concat ((fun x : Z * Z => [x.1; x.2]) <$> others) ++ [rw] in
  init_after Starting rs = Starting /\
  init_calls Starting rs = [CPrint (chars "init: starting sh" ++ [10]); CFork] ++
    concat (replicate (length others) [CWait; CPrint (chars "zombie!" ++ [10])]) ++ [CWait].
Proof.
  intros Hp Ho Hw rs. destruct (init_reaps pid others Ho) as [E1 E2]. unfold init_after in *.
  assert (Ec : forall l pc x, init_calls pc (l ++ [x]) = init_calls pc l ++ [call_at (init_after pc l)]).
  { induction l as [|y l IH]; intros pc x; [done |]. cbn. by rewrite IH. }
  unfold rs. cbn [app foldl init_calls after_call call_at].
  rewrite (proj2 (Z.ltb_ge _ _)), (proj2 (Z.eqb_neq _ _)) by lia. rewrite foldl_app, E1, Ec, E2. unfold init_after. rewrite E1.
  split; [| done]. cbn [foldl after_call]. destruct Hw as [->|Hw].
  - by rewrite Z.eqb_refl, andb_false_r.
  - by rewrite (proj2 (Z.leb_gt _ _)).
Qed.

(** * Calls that satisfy the laws *)

Module Calls.
(** The files are kept in a map, at most [ROOM] of them are open, and calls that fail for want of room are counted; read
    returns at most three bytes of a regular file. *)
Record little := mkLittle { l_view : tree_view; l_faults : nat }.
Definition ROOM : nat := 2.

Definition fresh_fd (m : gmap Z (node * list Z)) : Z := 1 + foldr Z.max 2 (map_to_list m).*1.

Lemma max_above x l : x ∈ l -> x <= foldr Z.max 2 l.
Proof. induction l as [|y l IH]; [by intros ?%not_elem_of_nil |]. intros [->|Hx]%elem_of_cons; cbn; [lia |]. specialize (IH Hx). lia. Qed.

Lemma max_base l : 2 <= foldr Z.max 2 l.
Proof. induction l; cbn; lia. Qed.

Lemma fresh_fd_free m : m !! fresh_fd m = None.
Proof.
  destruct (m !! fresh_fd m) as [x|] eqn:E; [| done]. exfalso.
  assert (Hin : fresh_fd m ∈ (map_to_list m).*1) by (apply list_elem_of_fmap; exists (fresh_fd m, x); split; [done | by apply elem_of_map_to_list]).
  apply max_above in Hin. unfold fresh_fd in Hin. lia.
Qed.

Definition no_stat : stat := mkStat 0 0 0 0 0.
Definition on_view (f : tree_view -> tree_view) : M little unit := modify (fun w => mkLittle (f (l_view w)) (l_faults w)).
Definition m_open (path : list Z) : M little Z :=
  w ← get;
  let t := l_view w in
  match tree t !! path with
  | Some n =>
      if (size (opened t) <? ROOM)%nat then
        let fd := fresh_fd (opened t) in on_view (set_opened (<[fd := (n, n_bytes n)]> (opened t)));; mret fd
      else put (mkLittle t (S (l_faults w)));; mret (-1)
  | None => mret (-1)
  end.
Definition piece (n : node) (l : list Z) (len : Z) : nat :=
  if S_ISDIR (st_mode (n_stat n)) then Nat.min (Z.to_nat len) (length l) else Nat.min (Nat.min 3 (Z.to_nat len)) (length l).
Definition m_read (fd len : Z) : M little (Z * list Z) :=
  w ← get;
  let t := l_view w in
  match opened t !! fd with
  | Some (n, l) =>
      let k := piece n l len in
      on_view (set_opened (<[fd := (n, drop k l)]> (opened t)));; mret (Z.of_nat k, take k l)
  | None => mret (-1, [])
  end.
Definition m_close (fd : Z) : M little Z :=
  on_view (fun t => set_opened (delete fd (opened t)) t);; mret 0.
Definition m_stat (path : list Z) : M little (Z * stat) :=
  w ← get; mret (match tree (l_view w) !! path with Some n => (0, n_stat n) | None => (-1, no_stat) end).
Definition m_fstat (fd : Z) : M little (Z * stat) :=
  w ← get; mret (match opened (l_view w) !! fd with Some (n, _) => (0, n_stat n) | None => (-1, no_stat) end).
Definition m_may (t : tree_view) (path : list Z) : option tree_view :=
  match tree t !! path with
  | Some _ => None
  | None => Some (mkView (<[path := mkNode (mkStat 1 9 1 0 S_IFDIR) []]> (tree t)) (opened t))
  end.
Definition m_mkdir (path : list Z) : M little Z :=
  w ← get; match m_may (l_view w) path with Some t' => on_view (fun _ => t');; mret 0 | None => mret (-1) end.

#[export] Instance little_unix : Unix little.
Proof.
  refine {| ux_open := m_open; ux_read := m_read; ux_close := m_close; ux_stat := m_stat; ux_fstat := m_fstat; ux_mkdir := m_mkdir;
    ux_strerror := fun _ => chars "No such file or directory"; ux_view := l_view; ux_faults := l_faults; may_mkdir := m_may |}.
  - intros w path. apply wp_bind, wp_get. cbv zeta. destruct (tree (l_view w) !! path) as [n|]; [| apply wp_ret; split; [done | by right]].
    destruct (size (opened (l_view w)) <? ROOM)%nat.
    + apply wp_bind, wp_modify, wp_ret. split; [done |]. left.
      split; [unfold fresh_fd; pose proof (max_base (map_to_list (opened (l_view w))).*1); lia |].
      split; [apply fresh_fd_free | by exists n].
    + apply wp_bind, wp_put, wp_ret. cbn. split; [lia |]. right. split_and!; [done | done | lia].
  - intros w fd len n l Hfd Hlen. apply wp_bind, wp_get. cbv zeta. rewrite Hfd. apply wp_bind, wp_modify, wp_ret.
    split; [done |]. left. exists (piece n l len). split; [done |]. unfold piece. destruct (S_ISDIR _); (split_and!; try lia; try done).
    + intros Hl. destruct l; [done |]. cbn [length]. lia.
    + intros Hl. destruct l; [done |]. cbn [length]. lia.
  - intros w fd _. by apply wp_bind, wp_modify, wp_ret.
  - intros w path. apply wp_bind, wp_get, wp_ret. split; [done |]. split; [done |]. destruct (tree (l_view w) !! path) as [n|]; [left; by exists n | by right].
  - intros w fd n l Hfd. apply wp_bind, wp_get, wp_ret. rewrite Hfd. split; [done |]. split; [done | by left].
  - intros w path. apply wp_bind, wp_get. destruct (m_may (l_view w) path) eqn:E.
    + apply wp_bind, wp_modify, wp_ret. split; [done |]. left. by split.
    + apply wp_ret. split; [done |]. right. by split_and!.
Defined.

(** The directory /d with the file a of five bytes, a free entry, and an entry for a name that is not there. *)
Definition dent (no : Z) (nm : string) : DirEntry := mkDirEntry no (chars nm ++ replicate (14 - length (chars nm)) 0).
Definition d_entries : list DirEntry := [dent 5 "a"; dent 0 "gone"; dent 6 "b"].
Definition d_node : node := mkNode (mkStat 1 4 1 48 S_IFDIR) (concat (dirent_enc <$> d_entries)).
Definition a_node : node := mkNode (mkStat 1 5 1 5 S_IFREG) (chars "hello").
Definition some_files : tree_view := mkView (<[chars "/d" := d_node]> {[ chars "/d/a" := a_node ]}) ∅.
Definition start : uproc little := mkUproc (mkLittle some_files 0) [] [] [].

(** The same with two files open already. *)
Definition crowded : uproc little :=
  mkUproc (mkLittle (set_opened (<[3 := (a_node, [])]> {[ 4 := (a_node, []) ]}) some_files) 0) [] [] [].

(** Then cat complains about a file that exists. *)
Example cat_refused : match cat_main 6 [chars "cat"; chars "/d/a"] crowded with
  | Ret (_, s) => (u_out s, l_faults (kern s)) | _ => ([0], 0%nat) end = ([], 1%nat).
Proof. vm_compute. reflexivity. Qed.
End Calls.
Import Calls.

Lemma cat_prints_witness : exists s' es,
  cat_main 6 [chars "cat"; chars "/d/a"; chars "/x"; chars "/d/a"] start = Ret (tt, s') /\ u_in s' = [] /\
  u_out s' = chars "hellohello" /\ cat_complaints (chars "cat") [chars "/x"] es /\ u_err s' = concat es /\ ux_view (kern s') = some_files.
Proof.
  destruct (cat_prints 6 (chars "cat") [chars "/d/a"; chars "/x"; chars "/d/a"] start) as (s' & rs & E & Ei & Ev & _ & _ & _ & Hclean).
  - repeat (apply Forall_cons; split); try apply Forall_nil_2; intros n Hn; vm_compute in Hn; try discriminate; injection Hn as <-; vm_compute; lia.
  - assert (Hf : match cat_main 6 [chars "cat"; chars "/d/a"; chars "/x"; chars "/d/a"] start with Ret (_, s) => l_faults (kern s) | _ => 1%nat end = 0%nat)
      by (vm_compute; reflexivity).
    rewrite E in Hf. destruct (Hclean Hf) as (Eo & es & Hes & Ee).
    exists s', es. split; [exact E | split; [exact Ei |]]. split; [rewrite Eo; vm_compute; reflexivity |].
    split; [| split; [exact Ee | exact Ev]]. exact Hes.
Defined.

Lemma ls_lists_witness : exists s', ls_main 4 [chars "ls"; chars "/d"] start = Ret (tt, s') /\
  u_out s' = chars "a              8000 5 5" ++ [10] /\ u_err s' = chars "ls: cannot stat /d/b" ++ [10] /\ ux_view (kern s') = some_files.
Proof.
  destruct (ls_lists 4 (chars "ls") (chars "/d") d_node d_entries start) as (s' & o & e & E & Ev & Eo & Ee & _ & Hclean);
    [apply (bool_decide_unpack _); vm_compute; exact I | vm_compute; discriminate | reflexivity | reflexivity | reflexivity | | cbn; lia |].
  - repeat constructor; try (vm_compute; discriminate); try (apply (bool_decide_unpack _); vm_compute; exact I).
  - assert (Hf : match ls_main 4 [chars "ls"; chars "/d"] start with Ret (_, s) => l_faults (kern s) | _ => 1%nat end = 0%nat)
      by (vm_compute; reflexivity).
    rewrite E in Hf. destruct (Hclean Hf) as [Ho He].
    exists s'. split; [exact E |]. rewrite Eo, Ee, Ev, Ho, He. vm_compute. done.
Defined.

Example echo_joins : echo_main 1 [chars "echo"; chars "-n"; chars "a"; chars "b"] start = Ret (tt, set_u_out (chars "a b") start).
Proof. reflexivity. Qed.
