(* ===== verification/Start.v ===== *)
(** main.c: the CPUs initialise the system.  Every CPU runs main; the steps are the calls
    that main, init_system_once and init_system_per_cpu make, in any interleaving.
    What the calls do to the state of their own components is in the other
    files; here are [init_lock] and the variables that make one CPU depend on
    another: the schedulers of [cpus] and the handler of the clock, which are in the BSS
    section, and [root_container], which like [init_lock] has an initial value and is in the data
    section (the kernel is compiled with -fno-zero-initialized-in-bss), where the memset does not clear it. *)
From S2P Require Import Prelude Locks.

(** * The code *)

(** The next call of a CPU.  [Once n]: in init_system_once, [n] calls after
    try_acquire_spinlock are done; [PerCpu n]: in init_system_per_cpu, [n] calls are done.  [Spawn n]: on CPU 0, [n] processes are made. *)
Inductive boot_pc :=
  | Try
  | Once (n : nat)
  | WaitAcquire
  | WaitRelease
  | PerCpu (n : nat)
  | Spawn (n : nat)
  | Enter
  | Scheduling.

#[export] Instance boot_pc_eq_dec : EqDecision boot_pc.
Proof. solve_decision. Defined.

(** memset, init_interrupt, init_char_device, init_console, init_sched,
    init_memory_manager, init_virtual_memory, vm_test, arena_test, init_container. *)
Definition MEMSET : nat := 0.
Definition INIT_CONTAINER : nat := 9.
Definition once_calls : nat := 10.

(** [roots]: how many root containers init_container has made; the last is [root_container], which
    is NULL before.  [schedulers]: the root container whose scheduler a CPU has in
    [cpus[i].scheduler], absent for NULL.  [processes]: the container of each process made by main.
    [begun] and [finished] count the runs of init_system_once. *)
Record machine := mkMachine {
  init_lock : SpinLock;
  roots : nat;
  schedulers : gmap Z nat;
  has_handler : bool;
  processes : list nat;
  pcs : gmap Z boot_pc;
  begun : nat;
  finished : nat
}.

Definition set_init_lock v m := mkMachine v (roots m) (schedulers m) (has_handler m) (processes m) (pcs m) (begun m) (finished m).
Definition set_roots v m := mkMachine (init_lock m) v (schedulers m) (has_handler m) (processes m) (pcs m) (begun m) (finished m).
Definition set_schedulers v m := mkMachine (init_lock m) (roots m) v (has_handler m) (processes m) (pcs m) (begun m) (finished m).
Definition set_has_handler v m := mkMachine (init_lock m) (roots m) (schedulers m) v (processes m) (pcs m) (begun m) (finished m).
Definition set_processes v m := mkMachine (init_lock m) (roots m) (schedulers m) (has_handler m) v (pcs m) (begun m) (finished m).
Definition set_begun v m := mkMachine (init_lock m) (roots m) (schedulers m) (has_handler m) (processes m) (pcs m) v (finished m).
Definition set_finished v m := mkMachine (init_lock m) (roots m) (schedulers m) (has_handler m) (processes m) (pcs m) (begun m) v.
Definition goto (c : Z) (p : boot_pc) m :=
  mkMachine (init_lock m) (roots m) (schedulers m) (has_handler m) (processes m) (<[c := p]> (pcs m)) (begun m) (finished m).

(** [memset(edata, 0, end - edata)], and init_container; the other calls are about devices and memory,
    which are not part of this machine. *)
Definition once_call (n : nat) (m : machine) : machine :=
  if (n =? MEMSET)%nat then set_schedulers ∅ (set_has_handler false m)
  else if (n =? INIT_CONTAINER)%nat then set_roots (S (roots m)) m
  else m.

(** init_clock, set_clock_handler, init_trap, init_cpu. *)
Definition percpu_calls : nat := 4.
Definition percpu_call (c : Z) (n : nat) (m : machine) : machine :=
  if (n =? 1)%nat then set_has_handler true m
  else if (n =? 3)%nat then set_schedulers (<[c := roots m]> (schedulers m)) m
  else m.

(** The check of [thiscpu()->scheduler] in enter_scheduler, and in alloc_pcb, which spawn_init_process and
    idle_init call through alloc_proc. *)
Definition this_scheduler (c : Z) (m : machine) : outcome nat :=
  match schedulers m !! c with Some r => Ret r | None => Panic "thiscpu()->scheduler != NULL" end.

Definition cpu_step (c : Z) (m : machine) : outcome machine :=
  match pcs m !! c with
  | None => Blocked
  | Some Try =>
      let '(ok, l) := try_acquire_spinlock c (init_lock m) in
      Ret (if ok then goto c (Once 0) (set_begun (S (begun m)) (set_init_lock l m)) else goto c WaitAcquire m)
  | Some (Once n) =>
      if (n <? once_calls)%nat then Ret (goto c (Once (S n)) (once_call n m))
      else l ← release_spinlock c (init_lock m); Ret (goto c WaitAcquire (set_finished (S (finished m)) (set_init_lock l m)))
  | Some WaitAcquire => l ← acquire_spinlock c (init_lock m); Ret (goto c WaitRelease (set_init_lock l m))
  | Some WaitRelease => l ← release_spinlock c (init_lock m); Ret (goto c (PerCpu 0) (set_init_lock l m))
  | Some (PerCpu n) =>
      if (n <? percpu_calls)%nat then Ret (goto c (PerCpu (S n)) (percpu_call c n m))
      else Ret (goto c (if c =? 0 then Spawn 0 else Enter) m)
  | Some (Spawn n) =>
      if (n <? 6)%nat then r ← this_scheduler c m; Ret (goto c (Spawn (S n)) (set_processes (processes m ++ [r]) m))
      else Ret (goto c Enter m)
  | Some Enter => r ← this_scheduler c m; Ret (goto c Scheduling m)
  | Some Scheduling => Ret m
  end.

(** The CPUs enter main. *)
Definition power_on (cpus : list Z) : machine :=
  mkMachine init_spinlock 0 ∅ false [] (list_to_map ((fun c => (c, Try)) <$> cpus)) 0 0.

Inductive boots (m0 : machine) : machine -> Prop :=
| boots_start : boots m0 m0
| boots_step m c m' : boots m0 m -> cpu_step c m = Ret m' -> boots m0 m'.

(** * The invariant *)

Definition in_lock (p : boot_pc) : bool := match p with Once _ | WaitRelease => true | _ => false end.
Definition in_once (p : boot_pc) : bool := match p with Once _ => true | _ => false end.
Definition past (p : boot_pc) : bool := match p with WaitRelease | PerCpu _ | Spawn _ | Enter | Scheduling => true | _ => false end.
Definition has_cpu (p : boot_pc) : bool := match p with PerCpu n => (percpu_calls <=? n)%nat | Spawn _ | Enter | Scheduling => true | _ => false end.

(** Who holds the lock. *)
Definition lock_ok (m : machine) : Prop :=
  (init_lock m = init_spinlock /\ begun m = finished m /\ forall c p, pcs m !! c = Some p -> in_lock p = false) \/
  exists c p, init_lock m = mkSpin true (Some c) /\ pcs m !! c = Some p /\ in_lock p = true /\
    begun m = (if in_once p then S (finished m) else finished m) /\
    forall d q, pcs m !! d = Some q -> in_lock q = true -> d = c.

Record inv (m : machine) : Prop := {
  inv_lock : lock_ok m;
  inv_past : forall c p, pcs m !! c = Some p -> past p = true -> (1 <= finished m)%nat;
  inv_wait : forall c, pcs m !! c = Some WaitAcquire -> (1 <= begun m)%nat;
  inv_root : (begun m <= 1)%nat -> (forall c n, pcs m !! c = Some (Once n) -> roots m = if (n <=? INIT_CONTAINER)%nat then 0%nat else 1%nat) /\
    (finished m = 1%nat -> roots m = 1%nat) /\ (begun m = 0%nat -> roots m = 0%nat);
  inv_cpu : (begun m <= 1)%nat -> forall c p, pcs m !! c = Some p -> has_cpu p = true -> schedulers m !! c = Some 1%nat
}.

Lemma list_to_map_try cpus c p : pcs (power_on cpus) !! c = Some p -> p = Try.
Proof. intros Hp. apply elem_of_list_to_map_2, list_elem_of_fmap in Hp as (x & [= _ ->] & _). done. Qed.

Lemma inv_power_on cpus : inv (power_on cpus).
Proof.
  split; cbn; try done.
  - left. split_and!; try done. by intros c p ->%list_to_map_try.
  - by intros c p ->%list_to_map_try.
  - by intros c ?%list_to_map_try.
  - intros _. split; [| done]. by intros c n ?%list_to_map_try.
  - by intros _ c p ->%list_to_map_try.
Qed.

Lemma lookup_goto c q m d p : pcs (goto c q m) !! d = Some p -> (d = c /\ p = q) \/ (d <> c /\ pcs m !! d = Some p).
Proof. cbn. rewrite lookup_insert_Some. naive_solver. Qed.

(** The CPU in the lock owns it. *)
Lemma lock_owner m c p : lock_ok m -> pcs m !! c = Some p -> in_lock p = true ->
  init_lock m = mkSpin true (Some c) /\ begun m = (if in_once p then S (finished m) else finished m) /\
  forall d q, pcs m !! d = Some q -> in_lock q = true -> d = c.
Proof.
  intros [(_ & _ & Hn)|(d & q & El & Hd & Hq & Hb & Hu)] Hc Hp; [by rewrite (Hn _ _ Hc) in Hp |].
  assert (d = c) as <- by (symmetry; by eapply Hu). rewrite Hc in Hd. by injection Hd as <-.
Qed.

(** A step that neither takes nor gives back the lock. *)
Lemma lock_keep m m' c p q : lock_ok m -> pcs m !! c = Some p -> in_lock q = in_lock p -> in_once q = in_once p ->
  init_lock m' = init_lock m -> begun m' = begun m -> finished m' = finished m -> pcs m' = <[c := q]> (pcs m) -> lock_ok m'.
Proof.
  intros Hl Hc Hi Ho El Eb Ef Ep. unfold lock_ok. rewrite El, Eb, Ef, Ep. destruct Hl as [(E & E2 & Hn)|(d & r & E & Hd & Hr & Hb & Hu)].
  - left. split_and!; [done | done |]. intros d r [[<- <-]|[_ Hd]]%lookup_insert_Some; [rewrite Hi |]; by eapply Hn.
  - right. destruct (decide (d = c)) as [->|Hne].
    + rewrite Hc in Hd. injection Hd as <-. exists c, q. rewrite lookup_insert_eq, Hi, Ho. split_and!; try done.
      intros x y [[<- _]|[_ Hx]]%lookup_insert_Some; [done | by eapply Hu].
    + exists d, r. rewrite lookup_insert_ne by done. split_and!; try done.
      intros x y [[<- <-]|[_ Hx]]%lookup_insert_Some; [| by eapply Hu]. rewrite Hi. intros Hin. by eapply Hu.
Qed.

(** ... that takes it. *)
Lemma init_lock_take m m' c q : (forall d r, pcs m !! d = Some r -> in_lock r = false) -> in_lock q = true ->
  init_lock m' = mkSpin true (Some c) -> begun m' = (if in_once q then S (finished m') else finished m') -> pcs m' = <[c := q]> (pcs m) -> lock_ok m'.
Proof.
  intros Hn Hq El Eb Ep. right. exists c, q. rewrite El, Ep, lookup_insert_eq. split_and!; try done.
  intros d r [[<- _]|[_ Hd]]%lookup_insert_Some; [done |]. by rewrite (Hn _ _ Hd).
Qed.

(** ... that gives it back. *)
Lemma lock_give m m' c p q : lock_ok m -> pcs m !! c = Some p -> in_lock p = true -> in_lock q = false ->
  init_lock m' = init_spinlock -> begun m' = finished m' -> pcs m' = <[c := q]> (pcs m) -> lock_ok m'.
Proof.
  intros Hl Hc Hp Hq El Eb Ep. left. rewrite El, Ep. split_and!; [done | done |].
  intros d r [[<- <-]|[Hne Hd]]%lookup_insert_Some; [done |]. destruct (in_lock r) eqn:Er; [| done].
  destruct (lock_owner m c p Hl Hc Hp) as (_ & _ & Hu). destruct Hne. symmetry. by eapply Hu.
Qed.

(** The other CPUs when [c] moves to [q]: what was known of them stays. *)
Lemma inv_move m m' c p q : inv m -> pcs m !! c = Some p -> pcs m' = <[c := q]> (pcs m) -> lock_ok m' ->
  (begun m <= begun m')%nat -> (finished m <= finished m')%nat ->
  (past q = true -> (1 <= finished m')%nat) -> (q = WaitAcquire -> (1 <= begun m')%nat) ->
  ((begun m' <= 1)%nat ->
     (forall d n, pcs m' !! d = Some (Once n) -> roots m' = if (n <=? INIT_CONTAINER)%nat then 0%nat else 1%nat) /\
     (finished m' = 1%nat -> roots m' = 1%nat) /\ (begun m' = 0%nat -> roots m' = 0%nat) /\
     (forall d r, d <> c -> pcs m !! d = Some r -> has_cpu r = true -> schedulers m' !! d = schedulers m !! d) /\
     (has_cpu q = true -> schedulers m' !! c = Some 1%nat)) -> inv m'.
Proof.
  intros [Hl Hp Hw Hr Hs] Hc Ep Hl' Hb Hf Hpast Hwait Hlast. split; [done | | | |]; rewrite ?Ep.
  - intros d r [[<- <-]|[_ Hd]]%lookup_insert_Some; [done |]. intros Hr'. specialize (Hp _ _ Hd Hr'). lia.
  - intros d [[<- ->]|[_ Hd]]%lookup_insert_Some; [by apply Hwait |]. specialize (Hw _ Hd). lia.
  - intros Hb1. rewrite <- Ep. destruct (Hlast Hb1) as (H1 & H2 & H3 & _). auto.
  - intros Hb1 d r. destruct (Hlast Hb1) as (_ & _ & _ & H4 & H5).
    intros [[<- <-]|[Hne Hd]]%lookup_insert_Some; [done |]. intros Hr'. rewrite (H4 d r) by done. apply (Hs ltac:(lia) d r); done.
Qed.

(** A step within the same part of main that leaves the root container. *)
Lemma inv_stay m m' c p q : inv m -> pcs m !! c = Some p -> pcs m' = <[c := q]> (pcs m) ->
  in_lock q = in_lock p -> in_once p = false -> in_once q = false -> past q = past p -> q <> WaitAcquire ->
  init_lock m' = init_lock m -> begun m' = begun m -> finished m' = finished m -> roots m' = roots m ->
  (forall d, d <> c -> schedulers m' !! d = schedulers m !! d) ->
  (has_cpu q = true -> roots m = 1%nat -> (has_cpu p = true -> schedulers m !! c = Some 1%nat) -> schedulers m' !! c = Some 1%nat) -> inv m'.
Proof.
  intros HI Hc Ep Hin Hop Hoq Hpast Hnw El Eb Ef Er Hs Hq. destruct (HI) as [Hl Hp Hw Hr Hsc].
  eapply (inv_move m m' c p q); try done; try lia.
  - eapply (lock_keep m m' c p q); try done. by rewrite Hop, Hoq.
  - rewrite Hpast, Ef. intros Hpp. by eapply Hp.
  - intros Hb1. rewrite Eb in *. destruct (Hr Hb1) as (H1 & H2 & H3). rewrite Er, Ef, Ep. split_and!; try done; [| by intros d r Hne _ _; apply Hs |].
    + intros d n [[<- ->]|[_ Hd]]%lookup_insert_Some; [done | by eapply H1].
    + intros Hcq. apply Hq; [done | | intros Hcp; by eapply Hsc]. apply H2.
      assert (Hp1 : past q = true) by (by destruct q). rewrite Hpast in Hp1. specialize (Hp _ _ Hc Hp1).
      destruct Hl as [(_ & Ebf & _)|(d & r & _ & _ & _ & Ebf & _)]; [lia | destruct (in_once r); lia].
Qed.

Section steps.
Context (m m' : machine) (c : Z) (HI : inv m).

Lemma step_try : pcs m !! c = Some Try -> cpu_step c m = Ret m' -> inv m'.
Proof.
  intros Ec. destruct (HI) as [Hl Hp Hw Hr Hs]. unfold cpu_step. rewrite Ec.
  unfold try_acquire_spinlock. destruct (locked (init_lock m)) eqn:Elk; intros [= <-].
  - eapply (inv_move m _ c Try WaitAcquire); try done; cbn.
    + eapply (lock_keep m _ c Try WaitAcquire); done.
    + intros _. destruct Hl as [(E & _)|(d & r & _ & Hd & Hr' & Hb & _)]; [by rewrite E in Elk |].
      destruct r; try done; cbn in Hb; [lia |]. specialize (Hp _ _ Hd eq_refl). lia.
    + intros Hb1. destruct (Hr Hb1) as (H1 & H2 & H3). split_and!; try done. intros d n [[_ ?]|[_ Hd]]%lookup_insert_Some; [done | by eapply H1].
  - destruct Hl as [(E & Eb & Hn)|(d & r & E & _)]; [| by rewrite E in Elk].
    eapply (inv_move m _ c Try (Once 0)); try done; cbn; try lia.
    + eapply (init_lock_take m _ c (Once 0)); try done. cbn. lia.
    + intros Hb1. destruct (Hr ltac:(lia)) as (H1 & H2 & H3). split_and!; try done; try lia.
      intros d n [[_ [= <-]]|[_ Hd]]%lookup_insert_Some; [apply H3; lia |]. by specialize (Hn _ _ Hd).
Qed.

Lemma step_once n : pcs m !! c = Some (Once n) -> cpu_step c m = Ret m' -> inv m'.
Proof.
  intros Ec. destruct (HI) as [Hl Hp Hw Hr Hs]. unfold cpu_step. rewrite Ec.
  destruct (lock_owner m c (Once n) Hl Ec eq_refl) as (El & Eb & Hu). cbn in Eb.
  destruct (Nat.ltb_spec n once_calls) as [Hn|Hn].
  - intros [= <-]. assert (E : init_lock (once_call n m) = init_lock m /\ begun (once_call n m) = begun m /\ finished (once_call n m) = finished m /\ pcs (once_call n m) = pcs m)
      by (unfold once_call; by repeat case_match). destruct E as (E1 & E2 & E3 & E4).
    eapply (inv_move m _ c (Once n) (Once (S n))); cbn; rewrite ?E2, ?E3, ?E4; try done.
    + eapply (lock_keep m _ c (Once n) (Once (S n))); try done. cbn. by rewrite E4.
    + intros Hb1. destruct (Hr Hb1) as (H1 & H2 & H3). pose proof (H1 _ _ Ec) as Hroot.
      rewrite (proj2 (Nat.leb_le n INIT_CONTAINER)) in Hroot by (unfold INIT_CONTAINER, once_calls in *; lia).
      split_and!; try lia; try done.
      * intros d k [[_ [= <-]]|[Hne Hd]]%lookup_insert_Some; [| destruct Hne; symmetry; by eapply Hu].
         unfold once_call, MEMSET, INIT_CONTAINER. destruct (Nat.eqb_spec n 0) as [->|]; [done |].
         destruct (Nat.eqb_spec n 9) as [->|]; [cbn; by rewrite Hroot |]. rewrite Hroot.
         unfold once_calls in Hn. by rewrite (proj2 (Nat.leb_le (S n) 9)) by lia.
      * intros d r Hne Hd Hcr. assert (Hpr : past r = true) by (by destruct r). specialize (Hp _ _ Hd Hpr). lia.
  - unfold release_spinlock, holding_spinlock. rewrite El. cbn. rewrite bool_decide_eq_true_2 by done. cbn. intros [= <-].
    eapply (inv_move m _ c (Once n) WaitAcquire); cbn; try done; try lia.
    + eapply (lock_give m _ c (Once n) WaitAcquire); done.
    + intros Hb1. destruct (Hr Hb1) as (H1 & H2 & H3). pose proof (H1 _ _ Ec) as Hroot.
      unfold once_calls, INIT_CONTAINER in *. rewrite (proj2 (Nat.leb_gt n 9)) in Hroot by lia.
      split_and!; try done; try lia. intros d k [[_ ?]|[Hne Hd]]%lookup_insert_Some; [done |]. destruct Hne. symmetry. by eapply Hu.
Qed.

Lemma step_wait_acquire : pcs m !! c = Some WaitAcquire -> cpu_step c m = Ret m' -> inv m'.
Proof.
  intros Ec. destruct (HI) as [Hl Hp Hw Hr Hs]. unfold cpu_step. rewrite Ec.
  unfold acquire_spinlock, holding_spinlock, try_acquire_spinlock. destruct Hl as [(El & Eb & Hn)|(d & r & El & Hd & _)].
  - rewrite El. cbn. intros [= <-]. specialize (Hw _ Ec). eapply (inv_move m _ c WaitAcquire WaitRelease); cbn; try done; try lia.
    + eapply (init_lock_take m _ c WaitRelease); done.
    + intros Hb1. destruct (Hr Hb1) as (H1 & H2 & H3). split_and!; try done. intros d k [[_ ?]|[_ Hd]]%lookup_insert_Some; [done | by eapply H1].
  - rewrite El. cbn. by case_bool_decide.
Qed.

Lemma step_wait_release : pcs m !! c = Some WaitRelease -> cpu_step c m = Ret m' -> inv m'.
Proof.
  intros Ec. destruct (HI) as [Hl Hp Hw Hr Hs]. unfold cpu_step. rewrite Ec.
  destruct (lock_owner m c WaitRelease Hl Ec eq_refl) as (El & Eb & Hu). cbn in Eb.
  unfold release_spinlock, holding_spinlock. rewrite El. cbn. rewrite bool_decide_eq_true_2 by done. cbn. intros [= <-].
  specialize (Hp _ _ Ec eq_refl). eapply (inv_move m _ c WaitRelease (PerCpu 0)); cbn; try done; try lia.
  - eapply (lock_give m _ c WaitRelease (PerCpu 0)); done.
  - intros Hb1. destruct (Hr Hb1) as (H1 & H2 & H3). split_and!; try done. intros d k [[_ ?]|[_ Hd]]%lookup_insert_Some; [done | by eapply H1].
Qed.

Lemma step_percpu n : pcs m !! c = Some (PerCpu n) -> cpu_step c m = Ret m' -> inv m'.
Proof.
  intros Ec. destruct (HI) as [Hl Hp Hw Hr Hs]. unfold cpu_step. rewrite Ec.
  destruct (Nat.ltb_spec n percpu_calls) as [Hn|Hn]; intros [= <-].
  - eapply (inv_stay m _ c (PerCpu n) (PerCpu (S n))); try done; cbn; unfold percpu_call, percpu_calls in *;
      try (by repeat case_match).
    + intros d Hne. repeat case_match; try done. cbn. by rewrite lookup_insert_ne.
    + intros Hc Er _. assert (n = 3%nat) as -> by (destruct n as [|[|[|n]]]; try done; lia). cbn. by rewrite lookup_insert_eq, Er.
  - destruct (c =? 0).
    + eapply (inv_stay m _ c (PerCpu n) (Spawn 0)); try done. intros _ _ Hc. apply Hc, Nat.leb_le, Hn.
    + eapply (inv_stay m _ c (PerCpu n) Enter); try done. intros _ _ Hc. apply Hc, Nat.leb_le, Hn.
Qed.

Lemma step_spawn n : pcs m !! c = Some (Spawn n) -> cpu_step c m = Ret m' -> inv m'.
Proof.
  intros Ec. destruct (HI) as [Hl Hp Hw Hr Hs]. unfold cpu_step. rewrite Ec.
  unfold this_scheduler. destruct (n <? 6)%nat.
  - destruct (schedulers m !! c) eqn:Es; [| done]. intros [= <-]. eapply (inv_stay m _ c (Spawn n) (Spawn (S n))); try done.
    intros _ _ Hc. by apply Hc.
  - intros [= <-]. eapply (inv_stay m _ c (Spawn n) Enter); try done. intros _ _ Hc. by apply Hc.
Qed.

Lemma step_enter : pcs m !! c = Some Enter -> cpu_step c m = Ret m' -> inv m'.
Proof.
  intros Ec. destruct (HI) as [Hl Hp Hw Hr Hs]. unfold cpu_step. rewrite Ec.
  unfold this_scheduler. destruct (schedulers m !! c) eqn:Es; [| done]. intros [= <-]. eapply (inv_stay m _ c Enter Scheduling); try done.
  intros _ _ Hc. by apply Hc.
Qed.

Lemma inv_step : cpu_step c m = Ret m' -> inv m'.
Proof.
  destruct (pcs m !! c) as [p|] eqn:Ec; [| unfold cpu_step; by rewrite Ec]. destruct p as [|n| | |n|n| |].
  - by apply step_try.
  - by apply (step_once n).
  - by apply step_wait_acquire.
  - by apply step_wait_release.
  - by apply (step_percpu n).
  - by apply (step_spawn n).
  - by apply step_enter.
  - unfold cpu_step. rewrite Ec. by intros [= <-].
Qed.
End steps.

Lemma boots_inv cpus m : boots (power_on cpus) m -> inv m.
Proof. induction 1 as [|m c m' _ IH Hs]; [apply inv_power_on | by eapply inv_step]. Qed.

(** * Properties *)

(** C13: the start of the CPUs, in every interleaving: init_system_once runs on at most one CPU at a
    time; no CPU gets to its own initialisation before a run of init_system_once
    has been completed; and if init_system_once was begun only once,
    then no CPU ever fails an assertion of the locks or of the scheduler, and each CPU that enters the
    scheduler, or makes the first processes, has the scheduler of the root container.  (Of
    init_system_once only the clearing of the BSS and init_container act on the state of this machine; the
    assertions of the other calls, on devices and memory, are not part of it.) *)
Theorem boot_initialised (cpus : list Z) (m : machine) (Hm : boots (power_on cpus) m) :
  (forall c d n k, pcs m !! c = Some (Once n) -> pcs m !! d = Some (Once k) -> c = d) /\
  (forall c p, pcs m !! c = Some p -> past p = true -> (1 <= finished m)%nat) /\
  ((begun m <= 1)%nat ->
    (forall c msg, cpu_step c m <> Panic msg) /\
    (forall c p, pcs m !! c = Some p -> has_cpu p = true -> roots m = 1%nat /\ schedulers m !! c = Some (roots m))).
Proof.
  pose proof (boots_inv _ _ Hm) as HI. destruct (HI) as [Hl Hp Hw Hr Hs]. split_and!.
  - intros c d n k Hc Hd. destruct (lock_owner m d _ Hl Hd eq_refl) as (_ & _ & Hu). by eapply Hu.
  - done.
  - intros Hb. destruct (Hr Hb) as (H1 & H2 & H3). split.
    + intros c msg. unfold cpu_step. destruct (pcs m !! c) as [p|] eqn:Ec; [| done]. destruct p as [|n| | |n|n| |]; try done.
      * by destruct (try_acquire_spinlock c (init_lock m)).
      * destruct (n <? once_calls)%nat; [done |]. destruct (lock_owner m c (Once n) Hl Ec eq_refl) as (El & _). rewrite El, release_own. done.
      * unfold acquire_spinlock, holding_spinlock, try_acquire_spinlock. destruct Hl as [(El & _)|(d & r & El & Hd & Hr' & _)]; rewrite El; [done |].
        cbn. case_bool_decide as E; [| done]. injection E as ->. rewrite Ec in Hd. by injection Hd as <-.
      * destruct (lock_owner m c WaitRelease Hl Ec eq_refl) as (El & _). rewrite El, release_own. done.
      * by destruct (n <? percpu_calls)%nat.
      * unfold this_scheduler. rewrite (Hs Hb c _ Ec eq_refl). by destruct (n <? 6)%nat.
      * unfold this_scheduler. by rewrite (Hs Hb c _ Ec eq_refl).
    + intros c p Hc Hcp. assert (Hpp : past p = true) by (by destruct p). specialize (Hp _ _ Hc Hpp).
      assert (Hroot : roots m = 1%nat).
      { apply H2. destruct Hl as [(_ & Eb & _)|(d & r & _ & _ & _ & Eb & _)]; [lia | destruct (in_once r); lia]. }
      rewrite Hroot. split; [done | by eapply Hs].
Qed.

(** C40: init_lock does not say whether the system has been initialised: a CPU that enters
    main after the lock was released takes it again, and clears the BSS section under the
    other CPUs.  From any such state, a CPU that is about to enter the scheduler or to make
    a process stops at the assertion on its scheduler. *)
Theorem late_cpu_reinitialises (c d : Z) (m : machine)
    (Hd : pcs m !! d = Some Try) (Hlock : init_lock m = init_spinlock)
    (Hc : pcs m !! c = Some Enter \/ exists n, (n < 6)%nat /\ pcs m !! c = Some (Spawn n)) :
  exists m1 m2, cpu_step d m = Ret m1 /\ cpu_step d m1 = Ret m2 /\ begun m2 = S (begun m) /\
    schedulers m2 = ∅ /\ has_handler m2 = false /\ cpu_step c m2 = Panic "thiscpu()->scheduler != NULL".
Proof.
  assert (Hne : d <> c) by (intros ->; destruct Hc as [Hc|(n & _ & Hc)]; by rewrite Hd in Hc).
  set (m1 := goto d (Once 0) (set_begun (S (begun m)) (set_init_lock (mkSpin true (Some d)) m))).
  exists m1, (goto d (Once 1) (once_call 0 m1)).
  assert (E1 : cpu_step d m = Ret m1) by (unfold cpu_step; rewrite Hd, Hlock; done).
  assert (E2 : cpu_step d m1 = Ret (goto d (Once 1) (once_call 0 m1))).
  { unfold cpu_step. unfold m1 at 1. cbn [pcs goto]. by rewrite lookup_insert_eq. }
  do 2 (split; [done |]). split_and!; try done.
  assert (Ep : pcs (goto d (Once 1) (once_call 0 m1)) !! c = pcs m !! c) by (cbn; by rewrite !lookup_insert_ne).
  unfold cpu_step. rewrite Ep. destruct Hc as [->|(n & Hn & ->)]; [| rewrite (proj2 (Nat.ltb_lt _ _)) by done]; done.
Qed.

(** ** Runs *)

(** The CPUs of a schedule, one step each; a CPU that has to wait is passed over. *)
Fixpoint run_boot (cs : list Z) (m : machine) : outcome machine :=
  match cs with
  | [] => Ret m
  | c :: cs' => match cpu_step c m with Ret m' => run_boot cs' m' | Blocked => run_boot cs' m | o => o end
  end.

Lemma run_boot_boots m0 cs : forall m m', boots m0 m -> run_boot cs m = Ret m' -> boots m0 m'.
Proof.
  induction cs as [|c cs IH]; intros m m' Hb; cbn; [by intros [= <-] |].
  destruct (cpu_step c m) eqn:E; try done; apply IH; [by econstructor | done].
Qed.

(** Four CPUs in turns, until all of them run the scheduler. *)
Definition all_scheduling (m : machine) : bool := forallb (fun c => bool_decide (pcs m !! c = Some Scheduling)) [0; 1; 2; 3].

Example four_cpus_start :
  match run_boot (concat (replicate 40 [0; 1; 2; 3])) (power_on [0; 1; 2; 3]) with
  | Ret m => (all_scheduling m, begun m, processes m)
  | _ => (false, 0%nat, [])
  end = (true, 1%nat, replicate 6 1%nat).
Proof. vm_compute. reflexivity. Qed.

Definition started_machine : machine :=
  match run_boot (concat (replicate 40 [0; 1; 2; 3])) (power_on [0; 1; 2; 3]) with Ret m => m | _ => power_on [] end.

Lemma boot_initialised_witness : boots (power_on [0; 1; 2; 3]) started_machine /\
  (forall c msg, cpu_step c started_machine <> Panic msg) /\ schedulers started_machine !! 2 = Some 1%nat.
Proof.
  assert (Hb : boots (power_on [0; 1; 2; 3]) started_machine).
  { apply (run_boot_boots _ (concat (replicate 40 [0; 1; 2; 3])) (power_on [0; 1; 2; 3])); [constructor | vm_compute; reflexivity]. }
  destruct (boot_initialised [0; 1; 2; 3] started_machine Hb) as (_ & _ & H). destruct H as [H1 H2]; [vm_compute; lia |].
  split; [exact Hb |]. split; [exact H1 |]. destruct (H2 2 Scheduling ltac:(vm_compute; reflexivity) eq_refl) as [Er Es].
  rewrite Es, Er. reflexivity.
Defined.

(** CPU 0 initialises the system before CPU 1 enters main, and is about to enter the scheduler. *)
Definition cpu0_ready : machine :=
  match run_boot (replicate 26 0) (power_on [0; 1]) with Ret m => m | _ => power_on [] end.

Lemma late_cpu_reinitialises_witness : boots (power_on [0; 1]) cpu0_ready /\
  exists m1 m2, cpu_step 1 cpu0_ready = Ret m1 /\ cpu_step 1 m1 = Ret m2 /\ begun m2 = 2%nat /\
    schedulers m2 = ∅ /\ has_handler m2 = false /\ cpu_step 0 m2 = Panic "thiscpu()->scheduler != NULL".
Proof.
  split; [apply (run_boot_boots _ (replicate 26 0) (power_on [0; 1])); [constructor | vm_compute; reflexivity] |].
  apply (late_cpu_reinitialises 0 1 cpu0_ready); [vm_compute; reflexivity | vm_compute; reflexivity | left; vm_compute; reflexivity].
Defined.
