(* ===== verification/Preempt.v ===== *)
(** Preemption: the clock of a CPU interrupts the running process, which gives the CPU to the
    scheduler; core/trap.c, driver/interrupt.c, clock.c, the handler [hello] of main.c, core/proc.c
    and core/sched.c together.  A thread that gives up the CPU is split at swtch, as in Proc.v: what
    trap_global_handler does after the handler has returned, when the process continues,
    changes nothing when the clock was the only source. *)
From S2P Require Import Prelude Bytes CString Locks PhysMem Arena VirtualMemory FsDefs BlockCache Path Console Inode File Process Sched Proc SchedSpec SchedTheorems Traps Cache CacheTheorems InodeTheorems.

(** * The turns of a CPU *)

Section turns.
Context {P B A C : Type} (me R : Z).
Notation K := (kernel P B A C).

(** The scheduler goes on after slot [i], and starts a new round when there is no
    process left in this one. *)
Definition next_turn (i : Z) : M K (option (Z * resume)) :=
  r ← scheduler_next me (R := R) i;
  match r with
  | Some p => mret (Some p)
  | None => scheduler_round_end me R;; scheduler_simple me R
  end.

(** How many slots after [i] slot [j] is looked at. *)
Definition distance (i j : Z) : Z := (j - i - 1) mod 14.

(** The first runnable slot after [i]. *)
Definition next_of (t : list proc) (i j : Z) (y : proc) : Prop :=
  0 <= j < 14 /\ t !! Z.to_nat j = Some y /\ state y = RUNNABLE /\
  forall k z, 0 <= k < 14 -> t !! Z.to_nat k = Some z -> state z = RUNNABLE -> distance i j <= distance i k.

(** The CPU while it runs slot [j]. *)
Definition running (j : Z) (y : proc) : cpu_ := mkCpu R (Some (R, j)) (K2P (pgdir y)).

Lemma distance_after i j : 0 <= i < j -> j < 14 -> distance i j = j - i - 1.
Proof. intros. unfold distance. apply Z.mod_small. lia. Qed.

Lemma distance_before i j : 0 <= j <= i -> i < 14 -> distance i j = j - i + 13.
Proof. intros. unfold distance. symmetry. apply (Z.mod_unique _ _ (-1)); lia. Qed.

(** A slot between the old and the next one comes closer. *)
Lemma distance_less i i' j : 0 <= i < 14 -> 0 <= i' < 14 -> 0 <= j < 14 -> i' <> j -> distance i i' <= distance i j ->
  0 <= distance i' j < distance i j.
Proof.
  intros Hi Hi' Hj Hne. destruct (decide (i < i')), (decide (i < j)), (decide (i' < j));
    repeat first [rewrite (distance_after i i') by lia | rewrite (distance_before i i') by lia
                 |rewrite (distance_after i j) by lia | rewrite (distance_before i j) by lia
                 |rewrite (distance_after i' j) by lia | rewrite (distance_before i' j) by lia]; lia.
Qed.

Lemma st_cpus l t (cs1 cs2 : Z -> cpu_) (s : K) : st R l t cs1 s -> (forall c, cs1 c = cs2 c) -> st R l t cs2 s.
Proof. intros (H1 & H2 & H3 & H4) E. split_and!; [done.. |]. intros c. by rewrite H4. Qed.

Context {t : list proc} {cs : Z -> cpu_}.

Lemma next_turn_ok l i x (s : K) :
  st R l t cs s -> l = held_by me -> Forall slot_ok t -> length t = 14%nat -> 0 <= i < 14 ->
  t !! Z.to_nat i = Some x -> state x = RUNNABLE ->
  hoare Total (next_turn i) (fun r s' => exists j y, r = Some (j, context y) /\ next_of t i j y /\
    st R (held_by me) (<[Z.to_nat j := set_state RUNNING y]> t) (upd_at cs me (running j y)) s') s.
Proof.
  intros Hs Hl Hok Hlen Hi Hx Hrun. unfold next_turn. apply hoare_bind. eapply hoare_mono; [by apply (scheduler_next_ok Total me i s Hs) |]. cbv beta.
  intros [[j r]|] s1 (s0 & cs' & -> & Hs0 & Hp).
  - apply hoare_ret. destruct Hp as (y & Hj & Hy & Hyr & -> & Hs1 & Hno). exists j, y. split; [done |]. split.
    + split; [lia | split; [done | split; [done |]]]. intros k z Hk Hz Hzr.
      destruct (decide (i < k < j)) as [|]; [by destruct (Hno k z ltac:(lia) Hz) |].
      rewrite (distance_after i j) by lia. destruct (decide (i < k)); [rewrite distance_after | rewrite distance_before]; lia.
    + rewrite Hl in Hs1. eapply st_cpus; [exact Hs1 |]. intros c. unfold run_on, running, upd_at. rewrite Z.eqb_refl. by destruct (c =? me).
  - destruct Hp as [-> Hno]. h_bind @scheduler_round_end_ok; [done | by rewrite upd_at_eq | done |].
    intros b s2 [_ Hs2]. eapply hoare_mono; [eapply scheduler_simple_ok; [exact Hs2 | by rewrite upd_at_eq | done | done | done] |].
    cbv beta. intros [[j r]|] s3 (_ & s4 & _ & Hp); cbn in Hp.
    + destruct Hp as (y & Hj & Hy & Hyr & -> & Hs3 & Hno'). exists j, y. split; [done |].
      assert (j <= i) by (destruct (decide (j <= i)); [done |]; by destruct (Hno j y ltac:(lia) Hy)). split.
      * split; [lia | split; [done | split; [done |]]]. intros k z Hk Hz Hzr.
        assert (j <= k) by (destruct (decide (j <= k)); [done |]; by destruct (Hno' k z ltac:(lia) Hz)).
        rewrite (distance_before i j) by lia. destruct (decide (i < k)) as [|]; [by destruct (Hno k z ltac:(lia) Hz) |].
        rewrite distance_before; lia.
      * eapply st_cpus; [exact Hs3 |]. intros c. unfold run_on, running, upd_at. rewrite Z.eqb_refl. by destruct (c =? me).
    + destruct Hp as [_ Hno']. by destruct (Hno' i x ltac:(lia) Hx).
Qed.

End turns.

(** Slot [i] runs, the lock is free. *)
Definition turn_of {P B A C} (me R : Z) (t : list proc) (i : Z) (s : kernel P B A C) : Prop := exists cs x,
  st R init_spinlock t cs s /\ runs_here me R t cs i x /\ state x = RUNNING /\ Forall slot_ok t /\ length t = 14%nat.

Definition waiting (t : list proc) (k : Z) : Prop := exists z, 0 <= k < 14 /\ t !! Z.to_nat k = Some z /\ state z = RUNNABLE.

(** The table after slot [i] has yielded, and after the switch to slot [j]. *)
Definition yielded (t : list proc) (i : Z) (x : proc) : list proc := <[Z.to_nat i := set_context InYield (set_state RUNNABLE x)]> t.
Definition switched (t : list proc) (i j : Z) (x y : proc) : list proc := <[Z.to_nat j := set_state RUNNING y]> (yielded t i x).

(** The CPU has switched to slot [j], which goes on with the lock held. *)
Definition chosen_in {P B A C} (me R : Z) (t : list proc) (j : Z) (s : kernel P B A C) : Prop := exists cs y,
  st R (held_by me) t cs s /\ runs_here me R t cs j y /\ state y = RUNNING /\ Forall slot_ok t /\ length t = 14%nat.

(** What the process that was chosen does first: it goes on in yield; it starts, the file system being
    initialised; it wakes up and takes its lock, which is free. *)
Inductive goes_on {P B A C} (me : Z) : resume -> M (kernel P B A C) unit -> kernel P B A C -> Prop :=
  | on_yield s : goes_on me InYield (yield_back me) s
  | on_start `{BC : BlockCache sb B} `{OA : ObjectArena A} f junk name ctx s : k_flag s = true ->
      goes_on me Forkret (forkret (BC := BC) (OA := OA) me f junk name ctx) s
  | on_awake a s : k_locks s a = init_spinlock -> goes_on me (InSleep (Some a)) (sleep_back me (Some a)) s.

Section slices.
Context {P B A C : Type} (me R : Z).
Notation K := (kernel P B A C).
Implicit Types (s : K) (t : list proc).

Lemma release_sched_locks s : hoare Loose (release_sched_lock me) (fun _ s' => k_locks s' = k_locks s) s.
Proof.
  unfold hoare, release_sched_lock, release_ptable_lock, thiscpu, load_cont, store_cont, mbind, M_bind, get, lift. cbn.
  unfold mbind, outcome_bind. destruct (release_spinlock _ _); by cbn.
Qed.

Lemma sleep_awake_locks s : hoare Loose (sleep_awake me) (fun _ s' => k_locks s' = k_locks s) s.
Proof.
  unfold hoare, sleep_awake, this_proc, thiscpu, modify_proc, load_proc, store_proc, load_cont, store_cont, mbind, M_bind, get. cbn.
  destruct (cproc (k_cpus s me)) as [p|]; [| done]. cbn.
  destruct (procs (k_conts s p.1) !! Z.to_nat p.2) as [x|]; [| done]. by destruct (0 <=? p.2).
Qed.

Lemma turn_slot t i s : turn_of me R t i s -> 0 <= i < 14.
Proof.
  intros (cs & x & _ & (_ & _ & Hi & Hx & _) & _ & _ & Hl). apply lookup_lt_Some in Hx. lia.
Qed.

Lemma slot_yields x : slot_ok x -> slot_ok (set_context InYield (set_state RUNNABLE x)).
Proof. intros (H1 & _ & _). repeat split; done. Qed.

Lemma slot_runs x : slot_ok x -> slot_ok (set_state RUNNING x).
Proof. intros (H1 & _ & _). repeat split; done. Qed.

(** From the running process to the next one, up to the switch. *)
Lemma yield_turn t i s : turn_of me R t i s -> exists cs x,
  t !! Z.to_nat i = Some x /\ hoare Total (yield me) (fun _ s' =>
    st R (held_by me) (yielded t i x) cs s' /\
    hoare Total (next_turn me R i) (fun r s2 => exists j y, r = Some (j, context y) /\
      next_of (yielded t i x) i j y /\ chosen_in me R (switched t i j x y) j s2) s') s.
Proof.
  intros Ht. pose proof (turn_slot _ _ _ Ht) as Hi. destruct Ht as (cs & x & Hs & Hr & Hrun & Hok & Hlen).
  pose proof Hr as (HR & Hp & _ & Hx & Hsch).
  assert (Hok1 : Forall slot_ok (yielded t i x)) by (apply Forall_insert; [done | apply slot_yields; by eapply Forall_lookup_1]).
  assert (Hx1 : yielded t i x !! Z.to_nat i = Some (set_context InYield (set_state RUNNABLE x))) by (by eapply lookup_put).
  assert (Hlen1 : length (yielded t i x) = 14%nat) by (unfold yielded; by rewrite length_insert).
  exists cs, x. split; [done |]. eapply hoare_mono; [by eapply yield_ok |]. intros [] s1 [_ Hs1]. split; [done |].
  eapply hoare_mono; [eapply (next_turn_ok me R (t := yielded t i x)); [exact Hs1 | done | done | done | done | exact Hx1 | done] |].
  intros r s2 (j & y & -> & Hn & Hs2). exists j, y. split; [done |]. split; [done |]. destruct Hn as (Hj & Hy & Hyr & _).
  pose proof (Forall_lookup_1 _ _ _ _ Hok1 Hy) as Hyo. eexists _, (set_state RUNNING y).
  split; [exact Hs2 |]. split_and!; [| done | | unfold switched; by rewrite length_insert].
  - split_and!; [by rewrite upd_at_eq | by rewrite upd_at_eq | lia | by eapply lookup_put | apply Hyo].
  - apply Forall_insert; [done | by apply slot_runs].
Qed.

(** A process that waits comes closer with every switch to another one. *)
Lemma waiting_closer t i x j y k : 0 <= i < 14 -> t !! Z.to_nat i = Some x -> next_of (yielded t i x) i j y ->
  waiting t k -> k = j \/ (waiting (switched t i j x y) k /\ 0 <= distance j k < distance i k).
Proof.
  intros Hi Hx (Hj & Hy & Hyr & Hno) (z & Hk & Hz & Hzr). destruct (decide (k = j)) as [|Hkj]; [by left | right].
  assert (Hz1 : exists z1, yielded t i x !! Z.to_nat k = Some z1 /\ state z1 = RUNNABLE).
  { unfold yielded. destruct (decide (k = i)) as [->|]; [eexists; split; [by eapply lookup_put | done] |].
    exists z. rewrite list_lookup_insert_ne by lia. done. }
  destruct Hz1 as (z1 & Hz1 & Hr1). split; [exists z1; unfold switched; rewrite list_lookup_insert_ne by lia; done |].
  apply distance_less; [done.. | by apply not_eq_sym | by eapply Hno].
Qed.

(** What the chosen process does first returns, gives the lock back and leaves the others as they are. *)
Lemma goes_on_ok t j r f s : chosen_in me R t j s -> goes_on me r f s -> exists s' t',
  f s = Ret (tt, s') /\ turn_of me R t' j s' /\ forall k, waiting t k -> waiting t' k.
Proof.
  intros (cs & y & Hs & Hr & Hrun & Hok & Hlen) Hg. pose proof Hr as (HR & Hp & Hj & Hy & Hsch). destruct Hg as [s|sb BC OA f junk name ctx s Hf|a s Ha].
  - destruct (hoare_total (yield_back me) (fun _ => st R init_spinlock t cs) s) as ([] & s' & E & Hs'); [by eapply release_sched_ok |].
    exists s', t. split; [done |]. split; [| done]. by exists cs, y.
  - destruct (forkret_returns me j y s Hs Hr) as (s1 & _ & Hs1 & Hk). eexists _, t. split; [by apply Hk |]. split; [| done].
    exists cs, y. split; [exact Hs1 | done].
  - set (t' := <[Z.to_nat j := set_chan NullChan y]> t).
    destruct (hoare_total (sleep_back me (Some a)) (fun _ => st R init_spinlock t' cs) s) as ([] & s' & E & Hs').
    { apply hoare_bind. eapply hoare_mono; [apply hoare_and; [by eapply sleep_awake_ok | apply sleep_awake_locks] |].
      intros [] s1 [Hs1 Hk1]. apply hoare_bind.
      eapply hoare_mono; [apply hoare_and; [by eapply release_sched_ok | apply release_sched_locks] |].
      intros [] s2 [Hs2 Hk2]. unfold hoare, acquire_lock, lift, mbind, M_bind, outcome_bind, get. rewrite Hk2, Hk1, Ha. exact Hs2. }
    exists s', t'. split; [done |]. split.
    + exists cs, (set_chan NullChan y). split; [done |]. split; [by split_and!; [.. | by eapply lookup_put |] |]. split; [done |].
      split; [| unfold t'; by rewrite length_insert]. apply Forall_insert; [done |]. exact (Forall_lookup_1 _ _ _ _ Hok Hy).
    + intros k (z & Hk & Hz & Hzr). assert (Z.to_nat k <> Z.to_nat j) by (intros Ekj; rewrite Ekj in Hz; congruence).
      exists z. unfold t'. by rewrite list_lookup_insert_ne.
Qed.
End slices.

(** * The clock *)

Section clock.
Context {W P B A C : Type} `{Board W}.
Notation K := (kernel P B A C).
(** The state of the kernel as a part of the machine. *)
Context (k_of : W -> K) (with_k : K -> W -> W).

Definition on_kernel {X} (c : Z -> M K X) : M W X := fun w => '(a, k) ← c (cpuid w) (k_of w); Ret (a, with_k k w).

(** hello of main.c, up to the switch in yield.  [ms] is [ctx.one_ms] of clock.c, which init_clock sets
    before the handler is installed ([hello_resets]). *)
Definition hello (ms : Z) : M W unit :=
  modify (sysreg_put CNTP_TVAL_EL0 (u64 (1000 * ms)));; on_kernel (fun me => yield me).

Definition init_system_per_cpu (exception_vector : Z) : M (kstate W) unit :=
  init_clock;;
  t ← get; set_clock_handler (hello (one_ms t));;
  init_trap exception_vector;;
  on_machine (on_kernel (fun me => s ← get; init_cpu me (k_root s))).

Lemma hello_resets (t : kstate W) : on_machine (hello (one_ms t)) t = (reset_clock 1000;; on_machine (on_kernel (fun me => yield me))) t.
Proof. unfold hello, reset_clock, on_machine, get, modify, mbind, M_bind. done. Qed.

(** What is used of the machine of CPU [me]: its clock is the source of the interrupt, and
    the registers are apart from each other and from the memory of the kernel. *)
Record clock_board (me : Z) : Prop := {
  cb_cpu : forall w, cpuid w = me;
  cb_kernel : forall k w, k_of (with_k k w) = k;
  cb_put : forall r v w, k_of (sysreg_put r v w) = k_of w;
  cb_device : forall a v w, k_of (device_put_u32 a v w) = k_of w;
  cb_source : forall w, exists w', device_get_u32 (IRQ_SRC_CORE me) w = (IRQ_SRC_CNTPNSIRQ, w') /\
    k_of w' = k_of w /\ sysreg_get ESR_EL1 w' = sysreg_get ESR_EL1 w;
  cb_esr_kernel : forall k w, sysreg_get ESR_EL1 (with_k k w) = sysreg_get ESR_EL1 w;
  cb_esr_clock : forall v w, sysreg_get ESR_EL1 (sysreg_put CNTP_TVAL_EL0 v w) = sysreg_get ESR_EL1 w;
  cb_esr : forall v w, sysreg_get ESR_EL1 (sysreg_put ESR_EL1 v w) = v
}.

(** What init_system_per_cpu leaves. *)
Definition clock_ready (t : kstate W) : Prop := clock_handler t = Some (hello (one_ms t)) /\ sysreg_get ESR_EL1 (machine t) = 0.

Context (me R : Z) (HB : clock_board me).

Lemma per_cpu_ready vector t : exists t', init_system_per_cpu vector t = Ret (tt, t') /\ clock_ready t' /\
  k_of (machine t') = set_k_cpus (upd_at (k_cpus (k_of (machine t))) me
    (let c := k_cpus (k_of (machine t)) me in mkCpu (k_root (k_of (machine t))) (cproc c) (ttbr0 c))) (k_of (machine t)).
Proof.
  destruct t as [w hs ms h].
  unfold init_system_per_cpu, init_clock, reset_clock, set_clock_handler, init_trap, on_machine, on_kernel, put_u32, init_cpu, set_cpu_scheduler, set_cpu, thiscpu.
  unfold get, modify, mbind, M_bind, outcome_bind, mret, M_ret. cbn [machine handler one_ms clock_handler set_machine].
  eexists. split; [reflexivity |]. unfold clock_ready. cbn [machine handler one_ms clock_handler set_machine].
  rewrite (cb_esr_kernel _ HB), (cb_esr _ HB), (cb_kernel _ HB), !(cb_cpu _ HB), !(cb_put _ HB), (cb_device _ HB), !(cb_put _ HB). done.
Qed.

(** The interrupt of the clock sets the clock again and runs yield. *)
Lemma trap_clock svc t : clock_ready t -> exists w', k_of w' = k_of (machine t) /\ sysreg_get ESR_EL1 w' = 0 /\
  (exists w1, w' = sysreg_put CNTP_TVAL_EL0 (u64 (1000 * one_ms t)) w1) /\ trap_global_handler svc t = ('(_, k) ← yield me (k_of (machine t)); Ret (tt, set_machine (with_k k w') t)).
Proof.
  intros [Hh He]. destruct (cb_source _ HB (machine t)) as (w1 & H1 & Hk1 & He1).
  exists (sysreg_put CNTP_TVAL_EL0 (u64 (1000 * one_ms t)) w1). rewrite (cb_put _ HB), (cb_esr_clock _ HB), Hk1, He1.
  split; [done |]. split; [done |]. split; [by eexists |]. unfold trap_global_handler, get, mbind at 1, M_bind at 1. rewrite He. cbv zeta.
  change (Z.shiftr 0 ESR_EC_SHIFT =? ESR_EC_UNKNOWN) with true. change (negb (Z.land 0 ESR_IR_MASK =? 0)) with false. cbn iota.
  unfold interrupt_global_handler, get, on_machine at 1, get_u32, mbind, M_bind, outcome_bind. rewrite (cb_cpu _ HB), H1.
  change (negb (Z.land IRQ_SRC_CNTPNSIRQ IRQ_SRC_CNTPNSIRQ =? 0)) with true. cbn iota beta.
  unfold invoke_clock_handler, get, mbind, M_bind. cbn [clock_handler set_machine]. rewrite Hh.
  unfold on_machine, hello, on_kernel, modify, mbind, M_bind, outcome_bind. cbn [machine set_machine].
  rewrite (cb_cpu _ HB), (cb_put _ HB), Hk1. by destruct (yield me (k_of (machine t))) as [[[] k]| | | |].
Qed.

(** The machine since the last interrupt of the clock: it was set to a second. *)
Definition clock_set (ms : Z) (w : W) : Prop := exists k1 k2 w1, w = with_k k2 (with_k k1 (sysreg_put CNTP_TVAL_EL0 (u64 (1000 * ms)) w1)).

(** An interrupt of the clock while slot [i] runs, up to the switch to the process that was
    chosen: its slot, and where it goes on. *)
Definition tick (svc : M W unit) (i : Z) : M (kstate W) (Z * resume) :=
  trap_global_handler svc;;
  r ← on_machine (on_kernel (fun me => next_turn me R i));
  match r with Some p => mret p | None => fault end.

Definition table (t : kstate W) : list proc := procs (k_conts (k_of (machine t)) R).

(** From the switch to slot [j] to the next interrupt: whatever the process and the rest of the system do, the process
    keeps the CPU and is outside the scheduler, and the processes that wait for it still do. *)
Definition slice (j : Z) (t t' : kstate W) : Prop := clock_ready t' /\ one_ms t' = one_ms t /\
  turn_of me R (table t') j (k_of (machine t')) /\ forall k, waiting (table t) k -> waiting (table t') k.

(** A sequence of interrupts and of what happens between them; the slots chosen. *)
Inductive shares (svc : M W unit) (t : kstate W) (i : Z) : list Z -> kstate W -> Z -> Prop :=
  | shares_nil : shares svc t i [] t i
  | shares_tick js t1 i1 j r t2 t3 : shares svc t i js t1 i1 -> tick svc i1 t1 = Ret ((j, r), t2) -> slice j t2 t3 ->
      shares svc t i (js ++ [j]) t3 j.

Lemma turn_table tb i t : turn_of me R tb i (k_of (machine t)) -> table t = tb.
Proof. by intros (cs & x & (_ & _ & E & _) & _). Qed.

Lemma tick_ok svc t tb i : clock_ready t -> turn_of me R tb i (k_of (machine t)) -> exists j t' x y,
  tick svc i t = Ret ((j, context y), t') /\ clock_ready t' /\ one_ms t' = one_ms t /\ clock_set (one_ms t) (machine t') /\
  tb !! Z.to_nat i = Some x /\ next_of (yielded tb i x) i j y /\
  chosen_in me R (switched tb i j x y) j (k_of (machine t')).
Proof.
  intros Hc Ht. destruct (trap_clock svc t Hc) as (w' & Hk & He & [w1 ->] & E).
  destruct (yield_turn _ _ _ _ _ Ht) as (cs & x & Hx & Hy).
  destruct (hoare_total _ _ _ Hy) as ([] & k1 & E1 & _ & Hn). destruct (hoare_total _ _ _ Hn) as (r & k2 & E2 & j & y & -> & Hnext & Ht2).
  eexists j, _, x, y. split.
  { unfold tick, mbind, M_bind. rewrite E, E1. unfold on_machine, on_kernel, mbind, outcome_bind. cbn [machine set_machine].
    rewrite (cb_cpu _ HB), (cb_kernel _ HB), E2. reflexivity. }
  destruct Hc as [Hh Hesr]. unfold clock_ready. cbn [machine one_ms clock_handler set_machine].
  rewrite !(cb_esr_kernel _ HB), (cb_kernel _ HB). split_and!; try done. by eexists _, _, _.
Qed.

(** The start of the chosen process is the beginning of a slice. *)
Lemma goes_on_slice t tb j r f : clock_ready t -> chosen_in me R tb j (k_of (machine t)) -> goes_on me r f (k_of (machine t)) ->
  exists t', on_machine (on_kernel (fun _ => f)) t = Ret (tt, t') /\ slice j t t'.
Proof.
  intros [Hh He] Hc Hg. pose proof Hc as (cs & y & (_ & _ & Et & _) & _).
  destruct (goes_on_ok _ _ _ _ _ _ _ Hc Hg) as (s' & tb' & E & Ht & Hw).
  eexists. split; [unfold on_machine, on_kernel, mbind, outcome_bind; rewrite E; reflexivity |].
  unfold slice, clock_ready, table. cbn [machine one_ms clock_handler set_machine]. rewrite (cb_esr_kernel _ HB), (cb_kernel _ HB).
  pose proof Ht as (cs' & y' & (_ & _ & Et' & _) & _). rewrite Et, Et'. done.
Qed.

(** After every sequence the CPU is at its turn, and who waited has come closer or has run. *)
Lemma shares_ok svc t i js t' i' : clock_ready t -> turn_of me R (table t) i (k_of (machine t)) -> shares svc t i js t' i' ->
  clock_ready t' /\ one_ms t' = one_ms t /\ turn_of me R (table t') i' (k_of (machine t')) /\
  forall k, waiting (table t) k -> k ∈ js \/ (waiting (table t') k /\ distance i' k + Z.of_nat (length js) <= distance i k).
Proof.
  intros Hc Ht. induction 1 as [|js t1 i1 j r t2 t3 _ (Hc1 & Hms & Ht1 & Hw) Htick (Hc3 & Hms3 & Ht3 & Hw3)].
  { split_and!; [done.. |]. intros k Hk. right. split; [done | cbn; lia]. }
  destruct (tick_ok svc t1 _ i1 Hc1 Ht1) as (j' & t2' & x & y & E & _ & Hms2 & _ & Hx & Hn & Hch). rewrite Htick in E. injection E as <- -> <-.
  pose proof Hch as (cs & y' & (_ & _ & Et2 & _) & _). split_and!; [done | congruence | done |]. intros k Hk.
  destruct (Hw k Hk) as [Hin|[Hk1 Hd]]; [left; apply elem_of_app; by left |].
  destruct (waiting_closer _ _ _ _ _ _ (turn_slot _ _ _ _ _ Ht1) Hx Hn Hk1) as [->|[Hk2 Hlt]]; [left; apply elem_of_app; right; by left |].
  right. split; [apply Hw3; unfold table at 1; by rewrite Et2 | rewrite length_app; cbn; lia].
Qed.

(** C15: the clock shares a CPU out among the processes.  After any sequence of interrupts of the clock, each
    taken as an exception while a process runs, the next one sets the clock to a second again and gives the CPU to the next
    runnable process in the order of the table, be it new, preempted or woken; that process goes on where it left, with the lock
    held, and if it is in yield, in a sleep whose lock is free, or new with the file system initialised, it gets to its own code.
    So a process that waits is chosen after at most as many interrupts as it is slots away, and within
    14 in any case.  Between two interrupts the running process and the rest of the system do what they want, as long as the
    process keeps the CPU and those that wait for it still do (no other CPU takes them). *)
Theorem clock_round_robin (svc : M W unit) (t t' : kstate W) (i i' : Z) (js : list Z) :
  clock_ready t -> turn_of me R (table t) i (k_of (machine t)) -> shares svc t i js t' i' ->
  (exists j x y t2, tick svc i' t' = Ret ((j, context y), t2) /\ clock_set (one_ms t) (machine t2) /\
    table t' !! Z.to_nat i' = Some x /\ next_of (yielded (table t') i' x) i' j y /\ resumable (context y) /\
    table t2 = switched (table t') i' j x y /\
    forall f, goes_on me (context y) f (k_of (machine t2)) ->
      exists t3, on_machine (on_kernel (fun _ => f)) t2 = Ret (tt, t3) /\ slice j t2 t3) /\
  forall k, waiting (table t) k -> (distance i k < Z.of_nat (length js) -> k ∈ js) /\ ((14 <= length js)%nat -> k ∈ js).
Proof.
  intros Hc Ht Hs. destruct (shares_ok svc t i js t' i' Hc Ht Hs) as (Hc' & Hms & Ht' & Hw). split.
  - destruct (tick_ok svc t' _ i' Hc' Ht') as (j & t2 & x & y & E & Hc2 & _ & Hset & Hx & Hn & Hch).
    exists j, x, y, t2. rewrite <- Hms. pose proof Hch as (cs & z & (_ & _ & Et2 & _) & _).
    split_and!; [done | done | done | done | | done | intros f Hg; by eapply goes_on_slice].
    destruct Hn as (_ & Hy & Hyr & _). destruct Ht' as (cs' & x' & _ & _ & _ & Hok & _). unfold yielded in Hy.
    destruct (decide (Z.to_nat j = Z.to_nat i')) as [Eij|Eij].
    + rewrite Eij, (lookup_put _ _ x) in Hy by done. by injection Hy as <-.
    + rewrite list_lookup_insert_ne in Hy by done. by apply (Forall_lookup_1 _ _ _ _ Hok Hy).
  - intros k Hk. pose proof (Z.mod_pos_bound (k - i - 1) 14 ltac:(lia)) as Hb. fold (distance i k) in Hb.
    pose proof (Z.mod_pos_bound (k - i' - 1) 14 ltac:(lia)) as Hb'. fold (distance i' k) in Hb'.
    destruct (Hw k Hk) as [Hin|[_ Hd]]; [done |]. split; intros; lia.
Qed.

(** Processes that only compute: all runnable ones have been preempted, and there is a sequence of any length. *)
Lemma preempted_shares svc n : forall t i, clock_ready t -> turn_of me R (table t) i (k_of (machine t)) ->
  Forall (fun x => state x = RUNNABLE -> context x = InYield) (table t) ->
  exists js t' i', shares svc t i js t' i' /\ length js = n /\ clock_ready t' /\ turn_of me R (table t') i' (k_of (machine t')) /\
    Forall (fun x => state x = RUNNABLE -> context x = InYield) (table t').
Proof.
  induction n as [|n IH]; intros t i Hc Ht Hp; [exists [], t, i; by split_and!; [constructor | ..] |].
  destruct (IH t i Hc Ht Hp) as (js & t1 & i1 & Hs & Hl & Hc1 & Ht1 & Hp1).
  destruct (tick_ok svc t1 _ i1 Hc1 Ht1) as (j & t2 & x & y & E & Hc2 & _ & _ & Hx & Hn & Hch).
  pose proof Hch as (cs & z & (_ & _ & Et2 & _) & _).
  assert (Hp' : Forall (fun x => state x = RUNNABLE -> context x = InYield) (yielded (table t1) i1 x)) by (by apply Forall_insert).
  pose proof (Forall_lookup_1 _ _ _ _ Hp' (proj1 (proj2 Hn)) (proj1 (proj2 (proj2 Hn)))) as Hy.
  destruct (goes_on_slice t2 _ j InYield (yield_back me) Hc2 Hch (on_yield me _)) as (t3 & E3 & Hsl).
  exists (js ++ [j]), t3, j. split; [by eapply shares_tick |]. rewrite length_app, Hl. destruct Hsl as (Hc3 & _ & Ht3 & _).
  split_and!; [cbn; lia | done | done |].
  assert (Et3 : table t3 = table t2).
  { unfold on_machine, on_kernel, mbind, outcome_bind in E3. unfold yield_back in E3.
    destruct Hch as (cs2 & z2 & Hs2 & (HR & _) & _).
    destruct (hoare_total (release_sched_lock me) (fun _ => st R init_spinlock (switched (table t1) i1 j x y) cs2) (k_of (machine t2)))
      as ([] & s3 & E4 & (_ & _ & Et & _)); [by eapply release_sched_ok |].
    rewrite E4 in E3. injection E3 as <-. unfold table. cbn [machine set_machine]. rewrite (cb_kernel _ HB). unfold table in Et2. by rewrite Et, Et2. }
  rewrite Et3. unfold table. rewrite Et2. apply Forall_insert; [done | by cbn].
Qed.
End clock.

(** ** A machine with three processes *)

Module Clock.
Notation kern := (kernel pmem (bcache (Arena pmem)) (Arena pmem) unit).
Record clocked := mkClocked { c_esr : Z; c_timer : Z; c_kern : kern }.
#[export] Instance clocked_board : Board clocked := {|
  device_get_u32 := fun a w => (if a =? IRQ_SRC_CORE 0 then IRQ_SRC_CNTPNSIRQ else 0, w);
  device_put_u32 := fun _ _ w => w;
  sysreg_get := fun r w => match r with ESR_EL1 => c_esr w | CNTP_TVAL_EL0 => c_timer w | _ => 0 end;
  sysreg_put := fun r v w => match r with
    | ESR_EL1 => mkClocked v (c_timer w) (c_kern w) | CNTP_TVAL_EL0 => mkClocked (c_esr w) v (c_kern w) | _ => w end;
  cpuid := fun _ => 0;
  get_clock_frequency := fun _ => 62500000;
  delay_us := fun _ w => w
|}.
Definition with_kern (k : kern) (w : clocked) : clocked := mkClocked (c_esr w) (c_timer w) k.

Lemma clocked_laws : clock_board c_kern with_kern 0.
Proof. split; try done; [by intros []| intros w; by exists w]. Qed.

(** Slot 0 runs, slot 1 is runnable and goes on at [r], slot 3 has been preempted. *)
Definition three_procs (r : resume) : list proc :=
  set_state RUNNING no_proc :: set_context r (set_state RUNNABLE no_proc) :: no_proc ::
  set_context InYield (set_state RUNNABLE no_proc) :: replicate 10 no_proc.
Definition busy_kernel (r : resume) (c : bcache (Arena pmem)) : kern :=
  set_k_cpus (fun _ => mkCpu 1 (Some (1, 0)) 0) (set_k_conts (fun _ => set_procs (three_procs r) zero_container) (first_kernel c)).
Definition busy (r : resume) (c : bcache (Arena pmem)) : kstate clocked :=
  mkKstate (mkClocked 0 0 (busy_kernel r c)) [] 62500 (Some (hello c_kern with_kern 62500)).

(** A new process gets its turn, and so does one in a sleep that has ended. *)
Example busy_new c : match tick c_kern with_kern 1 (mret tt) 0 (busy Forkret c) with Ret (p, _) => Some p | _ => None end = Some (1, Forkret).
Proof. reflexivity. Qed.
Example busy_woken c : match tick c_kern with_kern 1 (mret tt) 0 (busy (InSleep (Some 7)) c) with Ret (p, _) => Some p | _ => None end =
  Some (1, InSleep (Some 7)).
Proof. reflexivity. Qed.

Lemma busy_turn r c : resumable r -> turn_of 0 1 (three_procs r) 0 (c_kern (Traps.machine (busy r c))).
Proof.
  intros Hr. exists (fun _ => mkCpu 1 (Some (1, 0)) 0), (set_state RUNNING no_proc). split; [by repeat split |].
  split; [by repeat split |]. split; [done |]. split; [| done]. repeat (constructor; [by repeat split |]). constructor.
Qed.
End Clock.
Import Clock.

Lemma clock_round_robin_witness : exists c js t' i', shares c_kern with_kern 0 1 (mret tt) (busy InYield c) 0 js t' i' /\ 3 ∈ js /\
  exists j r t2, tick c_kern with_kern 1 (mret tt) i' t' = Ret ((j, r), t2) /\ clock_set with_kern 62500 (Traps.machine t2).
Proof.
  destruct image_cache as [c _]. exists c.
  destruct (preempted_shares c_kern with_kern 0 1 clocked_laws (mret tt) 14 (busy InYield c) 0 (conj eq_refl eq_refl)
    (busy_turn InYield c I)) as (js & t' & i' & Hs & Hl & _); [by repeat constructor |].
  destruct (clock_round_robin c_kern with_kern 0 1 clocked_laws (mret tt) (busy InYield c) t' 0 i' js (conj eq_refl eq_refl)
    (busy_turn InYield c I) Hs) as [(j & x & y & t2 & E & Hset & _) Hin].
  exists js, t', i'. split; [exact Hs |]. split.
  - apply (Hin 3); [| rewrite Hl; lia]. exists (set_context InYield (set_state RUNNABLE no_proc)). split; [lia | split; reflexivity].
  - exists j, (context y), t2. split; [exact E | exact Hset].
Defined.
